(* ===== verification/_CoqProject ===== *)
-Q . S2P
Prelude.v
Actuary.v
Pricing.v
Learning.v
Pool.v
Position.v
Repo.v
Renege.v
Clutch.v
Chain.v
Vaults.v
Oracle.v
Tables.v
Config.v
Sol.v
Flash.v
Entra.v
Shares.v
Custody.v
Backing.v
LZ.v
Abi.v
Signer.v
Freshness.v
EvmTx.v
Spv.v
Rebalance.v
LevKeeper.v
Planner.v
Transport.v
Client.v
Gateway.v
Relayer.v
Store.v
SwapIn.v
Vault.v
Liveness.v
Funding.v
SwapOut.v
Driver.v
Hex.v
Enclave.v
Seed.v
Provision.v
Exit.v
Recovery.v
DeadMan.v
Conn.v
Payments.v
PayManager.v
