(* ===== verification/Prelude.v ===== *)
(** * Verification of the quid program

    The subject is the Solana program under [src/svm/programs/quid/src]: a pool of
    dollar deposits that lends synthetic exposure.  Depositors earn dollar-seconds;
    borrowers pledge collateral and take long or short exposure to a ticker; a risk
    engine fitted on the ticker's own prices sets the margin, the liquidation
    trigger, the premium and the reserve; anyone may crank a position that has left
    its band, and the crank unwinds it a tranche at a time.  Beside the dollars the
    pool keeps SOL, part of it parked with an issuer and part of it lent for the
    length of a transaction; it buys and returns the paper behind its book; and its
    token crosses to Ethereum and back.  Beside it, under [src/quid-ln], stands the
    hop: the Lightning node in an enclave that holds the bitcoin channels, mirrors
    them on Ethereum and keeps the leveraged positions there.  Its core logic is
    modelled too: what it signs, for which channel, on which state, and when it acts.

    ** Parts of the program and where they are modelled

    - [Prelude] (this file): the machine.  The release profile keeps overflow
      checks, so every [+ - * /] of the source is a checked operation
      ([i64{ a + b }], [u64{ .. }], [i128{ .. }], [u128{ .. }]) which panics on
      overflow or a zero divisor, [saturating_*] is [sat], [as] is [cast].  A call
      returns an [outcome]: [Ok], [Err] with the program's [PithyQuip] error
      ([etc.rs]), or [Panic].  Also: record update notation, the integer
      Newton loop, the weakest-precondition calculus [wp] (a [wp] is total
      correctness: no error, no panic), tactics, sums over lists.
    - [Actuary]: [etc.rs], struct [Actuary] and its estimators — the volatility
      floor, the generalised-Pareto fit, the survival function, the bisection
      quantile, the expected shortfall, the gap tail, the TWAP weight.
    - [Pricing]: [etc.rs], the free functions over an [Actuary] — [loss_profile],
      [collar_bps], [fee_bps], [hazard_rate_bps], [rate_bps], [funding_rate_bps],
      [max_leverage_pct], [ticker_reserve_dollars] — and [TickerRisk::funding_owed].
      The class [RiskLaws] states what positions rely on; [wf_risk_laws] discharges
      it for every well-formed ticker.
    - [Learning]: [etc.rs], everything that mutates an [Actuary]: [update_price]
      (split along its own sections: bootstrap, re-mark, gap path, single-print
      measures, window sample, learning, refresh), [record_activity],
      [record_outcome], [accrue_premium_index].
    - [Pool]: [stay.rs], the structs [Stock], [Depository], [Depositor],
      [FlashLoan] and the ledger operations on them.
    - [Position]: [stay.rs], collar liability, premiums, tranches, variation
      margin, reinstatement, partial closes, funding settlement,
      [unwind_a_tranche].
    - [Repo]: [stay.rs], [Depositor::repo] whole: the figures read first
      ([repo_prepare]), then the long and the short side with every branch.
    - [Renege]: [stay.rs], [Depositor::renege] whole: collateral in and out of one
      position, or out of all of them.
    - [Clutch]: [clutch.rs], the handlers that put these together: the reserve
      reconciliation, the liquidation crank [amortise], [handle_out] (pool
      withdrawal, collateral withdrawal, trade) and the batch crank
      [handle_sweep].  The oracle is an argument (the price fetched, or the error
      of the fetch) and the amount asked of the token vaults is a result.

    - [Chain]: what the handlers see of the chain — account bytes and their
      integer codecs, and the class [Runtime] of token and lamport transfers with
      its laws [RuntimeLaws]; [Ledger] is an executable instance that satisfies
      them.  Everything below is proved against the class.
    - [Vaults]: [entra.rs], raw and accounting units, and [transfer_from_vaults].
    - [Oracle]: [etc.rs], [fetch_price_inner] byte by byte and
      [fetch_multiple_prices]; [Tables]: the shipped ticker tables and mints.
    - [Config]: [entra.rs], [init_config] and [update_config].
    - [Sol]: the SOL side — buffer, parking and unparking through the issuer
      ([entra.rs]), [withdraw_native] and the re-mark ([clutch.rs]).  The issuer
      and the token programs are the class [Issuer] with [IssuerLaws].
    - [Flash]: [handle_flash_borrow] ([entra.rs]) and [handle_flash_repay]
      ([clutch.rs]).  [Entra]: [handle_in], both legs.
    - [Shares]: the dollar side of [handle_in] and [handle_out] over one pool and
      many accounts, as a step relation, and what the two sums of the ledger do.
    - [Custody]: the composition of [Sol], [Flash] and [Entra] over one pool and
      many accounts, as a step relation, and the abstract vault it implements.
    - [Backing]: [entra.rs], [set_backing], [issue_paper], [redeem_paper],
      [reconcile].
    - [LZ]: [LZ.rs] and [lz_receive] of [lib.rs].  The endpoint, the token program
      and the serialiser are the class [Bridge] with [BridgeLaws]; [Sim] is an
      executable instance.
    - [Abi]: outside the program, the hop that answers it on Ethereum.
      [quid-ln/quid-hop/src/evm_codec.rs] and [abi.rs]: the calldata encoder and
      every call built with it, with the hash function as a parameter; and, to
      compare it with, a decoder written from the Solidity ABI.
    - [Signer]: [quid-ln/quid-ln/src/validating_signer.rs] and [taproot_signer.rs],
      the policy that stands between the node and the channel keys: monotonic
      commitment numbers, nonce bindings, the taproot context and its comparison
      with the chain ([quid-bridge/src/channel_truth.rs]).  The wrapped signer and
      MuSig2 are the classes [Inner] and [Musig]; a run is a list of requests.
    - [Freshness]: [quid-hop/src/freshness.rs], [persister.rs], the boot checks of
      [node.rs], [quid-bridge/src/freshness_ledger.rs] and the counters of the
      contract: process, untrusted host and chain as one transition system.
    - [EvmTx]: [quid-bridge/src/signer.rs] and [evm_validating_signer.rs]: the
      transaction envelope, and the policy checked before the hot key signs.
    - [Spv]: [quid-hop/src/spv.rs] and [tx_inclusion]: proofs for the light client.
    - [Rebalance]: [quid-hop/src/rebalancer.rs] and [initiate_splice]: when and by
      how much a channel is grown, and the gathering of inputs for it.
    - [LevKeeper]: [quid-bridge/src/lev_keeper.rs] (decision, dwell, pass, compound
      sweep, open set, venue scores), the pass of [lev_keeper_btc.rs] and
      [eth_logs.rs].  A pass is the trace of its calls.
    - [Planner]: the rest of [lev_keeper.rs] — pool words, venue discovery behind its
      cache, quotes, the search for a route, the plan of a position — and the
      calldata both keepers send.  The chain is a function from calls to answers.
    - [Transport]: [quid-bridge/src/transport.rs], the quorum over several JSON-RPC
      endpoints — which methods need agreement, and the three ways of asking — and
      [config.rs], the validation of the configuration.
    - [Client]: [quid-bridge/src/client.rs] with [hexutil.rs]: reads at the tip and
      pinned reads, the submission of a transaction with its fee ladder, receipts,
      burial, settlement and the migration nonce, against a transport whose answers
      may change with every request.
    - [Gateway]: the light client the hop feeds, [evm/src/spv/SPVGateway.sol] with
      [TargetsHelper.sol] and the header parser: difficulty, proof of work, median time,
      cumulative work and the mapping of the main chain; and a source chain followed
      into it.
    - [Relayer]: [quid-bridge/src/relayer.rs]: one pass of the header relayer, the
      sizing of a batch, the search for a fork and the recovery from a reorg.
    - [Store]: [quid-bridge/src/store.rs]: what the bridge must not forget, sealed in a
      file, with a process that may stop at any write.
    - [SwapIn]: bitcoin in, dollars out — the on-chain rail of
      [quid-hop/src/swap_in_onchain.rs] and [quid-bridge/src/swap_in_onchain.rs], beside
      the contract's reading of a deposit, and the Lightning rail of [swap_in.rs].
    - [Vault]: [quid-bridge/src/vault.rs]: who owns a deposit and a channel, the pass
      that opens channels, and who waits for a splice.
    - [Liveness]: [quid-hop/src/liveness.rs]: heartbeats, and the route hints they gate.
    - [Funding]: from an outpoint to the keys and the proof of its channel
      ([quid-hop/src/node.rs], [funding.rs], [evm_codec.rs]).
    - [SwapOut]: dollars in, bitcoin out — [quid-bridge/src/swap_out_onchain.rs].
    - [Driver]: [quid-bridge/src/channel_driver.rs]: the drives that mirror channels on
      Ethereum, and the tasks of events and reconciler in every interleaving.
    - [Hex]: [quid-hex/src/hex.rs].  [Enclave]: sealing and remote attestation
      ([quid-enclave], the verifier of [quid-tls]); the processor, the ciphers and the
      certificates are classes.
    - [Seed]: [quid-common/src/seed_shares.rs] and the import of a seed.
    - [Provision]: the sealed seed on the disk ([quid-hop/src/seed.rs],
      [sealed_seed.rs]), what the operators sign ([migration.rs]), and the two things
      they sign for: the transfer of the seed ([provision_api.rs]) and the sweep
      ([sweep.rs]).
    - [Exit]: the transaction that returns a channel to its owner after a deadline, its
      signature by both halves ([quid-ln/src/deadman_exit.rs]) and the call that arms it
      ([quid-bridge/src/deadman_exit.rs]).
    - [Recovery]: reading that transaction from the contract's log and publishing it
      ([quid-bridge/src/recovery_broadcast.rs]).
    - [DeadMan]: the heartbeat that keeps the exits fresh
      ([run_deadman_exit_heartbeat]), the reserved outputs of the wallet, and the
      outputs offered for fee bumps ([quid-hop/src/bump.rs]).
    - [Conn]: the task of one connection to a Lightning peer, its handle, and dialling
      ([quid-ln/src/p2p.rs]).  The channel and [Notify] of tokio are what their
      documentation says: a bounded queue, and one stored wake-up.
    - [Payments]: the records of the payments of the Lightning node and the transitions of
      each ([quid-ln/src/payments.rs], [payments/]).
    - [PayManager]: the manager that holds them, with its persister and its retries
      ([payments/manager.rs]).  The hop does not run it: its persister is a stub.

    A [&mut] receiver is explicit state passing: an operation returns the new
    account, pool or ticker.  A position inside an account is addressed by its
    index, as in the source, and written back with [set_pod].  Tickers are their
    eight bytes; a public key is an integer, compared only for equality.

    ** What the theorems show

    - The tail model inverts and terminates ([quantile_inverts_tail]); its Newton
      and power loops equal their references ([sqrt_x100_spec],
      [twap_alpha_monotone]); the prices drawn from it are total, bounded and
      monotone ([loss_profile_sound], [collar_antitone], [hazard_rate_antitone],
      [funding_antisymmetric]).
    - Learning: from the state a deposit creates, any interleaving of prints, trades,
      outcomes and accruals keeps a ticker well formed, so the next print never panics
      and, within [MAX_NET], pricing is defined ([reachable_ticker_priced]); prints inside a sampling window cannot move the
      tail ([window_prints_teach_nothing]); the drawdown memory fades by time and
      not by call ([drawdown_fades_by_time]).
    - The ledger: under deposits and dollar or collateral withdrawals balances sum to
      the pool exactly and dollar-seconds up to two tallies with their causes
      ([dollar_ledger_sums], [withdrawal_counts_twice], [collateral_drops_tenure]);
      under the pool's own operations both sum exactly ([pool_shares_sum]); withdrawals are gated exactly by the reserve
      ([pool_withdraw_guard]); carry is paid once ([sol_carry_paid_once]);
      redemption pressure is bounded and monotone ([redemption_pressure]).
    - Positions: premiums are bounded by collateral and never forgiven
      ([premium_due_sound]); tranches are sound, sized within their band and rate
      limited by the grace period ([amortise_tranche_sound],
      [tranche_size_ladder], [ladder_rate_limited]); variation margin, partial
      closes and funding conserve what they move ([variation_margin_settles],
      [partial_close_conserves], [funding_zero_sum]).
    - [repo]: a permissionless call only ever shrinks exposure
      ([crank_only_shrinks]); the margin gate conserves collateral and enforces the
      requirement ([margin_gate_sound]); what full closes pay
      ([long_full_close_payout], [short_full_close_payout]); and five places where
      the code does something it does not mean to, proved on the model
      ([winning_short_trade_ignored], [dust_short_opens_unmargined_long],
      [breached_long_resets_clock], [in_band_long_crank_reverts], and the second
      billing inside [long_full_close_payout]).
    - [renege]: collateral is conserved and the book stays well formed
      ([renege_all_conserves], [renege_keeps_book]), except that a levered short may
      release more than it pledged ([short_over_release]); a single-position call
      reads only the first price ([renege_one_price]).
    - The handlers: the exact settlement law of a trade ([trade_settlement]); what a
      pool withdrawal pays and that it preserves solvency ([pool_payment_sound]);
      the reserve is the sum of the tickers' ([reserve_is_sum]); a sweep skips what
      errs and only shrinks positions ([sweep_isolates_errors]), but overflow aborts it
      ([extreme_account_aborts_sweep]); and where
      they go wrong ([first_out_gets_more], [large_position_cannot_trade],
      [short_crank_grows_book], [sweep_leaks_funding]).
    - Custody of SOL: every run of the handlers is a run of an abstract vault, so
      the claims of all accounts are covered by what is held, lent and parked
      ([custody_refines]); a withdrawal that fits the buffer is paid
      ([hot_withdrawal_live]); a forced unpark needs consent and costs at most the
      agreed haircut ([forced_unpark_bounded]); parking leaves the buffer
      ([park_keeps_buffer]); loans are exclusive, repaid in the same transaction and
      return every lamport ([flash_window_closed], [flash_round_trip]).
    - Money in and out: deposits credit what arrived ([token_deposit_credits]), a
      payout over several vaults pays what was asked, short by fewer units than it has
      alternates ([payout_exact], [two_alternates_short]), unit
      conversion never gains ([accounting_roundtrip]); every reachable configuration
      is valid ([reachable_config_valid]).
    - Prices: what reading an account returns on every branch
      ([price_account_read]); with the shipped tables an account prices at most one
      ticker ([one_feed_one_ticker]), and everything deliverable has a price
      ([deliverable_priced]).
    - Backing: cost is conserved and legs are an hour apart
      ([backing_ledger_exact]), the two legs exclude each other on one mark
      ([backing_hysteresis]), paper is never locked in ([redeem_never_locked]), and
      proceeds are booked exactly ([reconcile_books_pnl]).
    - The bridge: payloads round trip ([oft_roundtrip]), supply is conserved
      ([bridge_conserves]) and the executor's account view delivers
      ([types_view_delivers]).
    - The codec: the encoder implements the ABI ([abi_roundtrip]), so encodings are
      injective ([encode_tuple_inj]); signatures and arguments of the calls agree
      ([channel_calls_reach], [other_calls_reach]), and the one call that does not
      reach its contract ([settle_swap_in_misencoded]).
    - The channel signer: no nonce serves two messages ([nonce_never_reused]), no
      revoked state is signed ([revoked_never_signed]), once the chain has
      matched a context, every later one that is signed for is confirmed
      ([signed_contexts_confirmed], [forged_context_refused]; before that,
      [unrecorded_context_accepted]), a splice signed with MuSig2 re-creates the channel
      ([splice_keeps_channel]; by ECDSA, [ecdsa_splice_unchecked]) and a close pays its holder ([close_pays_holder]);
      and what it does not prevent ([scope_identity_replaced],
      [current_commitment_revocable], [restart_reuses_nonce]).
    - Rollback: whatever the host does, a state that boots is at most 128 updates older
      than what the endpoints agree on ([rollback_bounded]); but past its 128th update a channel does not survive
      a restart ([restart_wedges_channel]).
    - The hot key: what is signed is what was asked ([eip1559_roundtrip]) and what
      the policy allows ([signed_tx_policed], [codec_calls_signable]).
    - Light-client proofs: produced proofs fold to the block's root
      ([inclusion_proof_valid]) and prove nothing else ([branch_binds]).
    - Growing channels: the bounds of a growth ([splice_decision_bounded]), that a
      splice never gathers an input ([splice_in_never_starts]) and that a claimed
      slot is never freed ([slot_never_freed]).
    - The keepers: positions near liquidation come first ([urgent_served_first]);
      who is looked after ([open_set_from_logs]); a move is persisted only when it
      was out of range throughout ([persisted_sound]); the cheapest venue is chosen
      ([pick_loop_min]); and two places where a position is not helped
      ([failed_protect_never_delevers], [pool_alarm_levers_up]).
    - Routes: the route chosen is the best of those priced, over venues discovered
      for its pairs ([best_plan_optimal]); what is sent is a well-formed plan, of the route that
      was priced or of the configured word, encoded as the contract decodes it and accepted by the signer ([keeper_call_sound]); the
      depth a cached venue is sure to have ([listed_depth]); constant-product quotes
      do not wrap ([v2_out_exact]).
    - Reads of the chain: with a hardened configuration and a minority of lying
      endpoints, a pinned read that returns is true ([hardened_reads_true]) and a
      settlement is reported only when the chain has it ([settlement_true]); a
      migration goes on only when its nonce is used on chain ([consume_confirmed]).
      What is left to one endpoint: [first_endpoint_picks_block],
      [forged_receipt_undeliverable].  Replacements pay at least an eighth more and
      never pass the ceiling ([submit_fee_ladder]).
    - The header relayer: after as many passes as blocks are missing the gateway has
      the tip, over a reorg too, and as its head unless the branch it was on is as heavy
      ([relayer_converges]); the contract takes every valid batch of the source
      ([batch_source]), except a target it rounds wrongly ([rounding_at_0x80]); a batch fits the gas budget
      ([relay_affordable]) and is encoded as the contract decodes it
      ([header_batch_encodes]); a gateway younger than the lookback, and one whose head is lower but
      heavier, are the exceptions ([young_gateway_stuck], [heavier_branch_stuck]).
    - The bridge's memory: a crash at any point leaves the effect of the operations that
      returned, and at most the one interrupted ([crash_recovers]; without a flushed
      directory, [unsynced_write_lost]).
    - Swaps: the address paid to is the one the contract computes
      ([deposit_address_agrees]), claims are covered by settlements
      ([swap_in_claims_backed]) and what is not ([settled_deposit_abandoned],
      [second_output_unclaimed], [small_deposit_panics]); requests decode to what was
      logged ([request_roundtrip]) and one drive splices at most once
      besides what it gave up on ([swap_out_one_splice], [dropped_sender_pays_twice]), but passes may repeat ([in_flight_spliced_again],
      [no_ladder_forgotten], [unlocked_splice_reversed]).
    - Channels: an outpoint is bound only to the owner its channel was opened for, over
      restarts too while no two channels share a user id ([funding_attributed];
      otherwise, [restart_uid_collision]); hints are only
      for owners who answered ([routable_attested], [hints_routable]); in every
      interleaving one drive per claimed slot, each transaction justified by what its
      drive read ([driver_sound]; without a slot, [unmapped_closes_run_twice]); and what is never sent or misfiled
      ([known_close_never_sent], [open_after_splice_miskeyed]).
    - The seed: hexadecimal is exact ([hex_exact]); sealed data opens where it was
      sealed and nowhere else ([sealed_bound]); shares recover the seed
      ([shares_recover], [too_few_shares], [combine_sound]); the seed on the disk is
      never replaced ([seed_kept], [failed_write_in_place]); it leaves only with the operators' signatures and
      to an attested successor ([export_authorised], [attestation_sound],
      [migration_digest_binds], [sweep_is_no_migration]); the wallet is emptied only
      under a nonce spent for it ([sweeps_authorised], [lying_receipt_replays]); and
      what a boot refuses ([prod_refused], [provisioned_seed_refused],
      [malformed_import_fails_boot]).
    - The way out of a channel: an exit that was armed without a freshness output and
      logged is published, fully signed, once its deadline has passed ([exit_recoverable], [event_roundtrip], [recover_posts]), for
      every channel that has one ([watchtower_spec]); the heartbeat spends an output only
      in a round on another one with no reported failure, and arms only what the contract has on record
      ([heartbeat_sound]); and where it leaves a channel without an exit
      ([freshness_input_unsigned], [bound_exit_posted_unsigned], [empty_round_retires],
      [new_channel_strands_others],
      [failed_round_revives_exits], [restart_unreserves], [bump_offers_reserved]).
    - A peer connection, in every interleaving: no failed assertion, bytes in order and
      once, no lost wake-up, reads that stop after a pause ([conn_sound]); a dial that
      gives up has tried every address ([failed_dial_tries_all]).
    - Payments: in every run, through restarts and failed writes, memory and persister agree,
      final payments stay, no unreachable state is reached and only recorded claims are made
      ([payments_sound]); an event that comes twice changes nothing ([events_replayed]);
      retries end within their limit ([retry_bounded]); and where the manager goes wrong
      ([keysend_claimed_twice], [read_failure_refuses], [two_outputs_end_the_pass],
      [note_stale_in_cache]).
    - Where the program's parts go wrong: [caller_program_gets_signature],
      [init_gate_any_program], [mark_is_callers_choice], [rewire_strands_order],
      [repoint_while_parked], [deposit_to_open_position_reverts].

    ** Bounds and fuel

    - [newton_fuel] = 70: each round halves the distance to the root and the
      argument is below 2^62, so 63 rounds suffice ([newton_sqrt]).
    - [pow_loop] runs 64 rounds: the exponent is an [i64] and is halved each round.
    - [bisect] has the source's own bound of 20 rounds; [fade_loop] the source's
      128, proved never to bind.
    - [branch_loop] runs for the length of the block: every turn shrinks the layer
      ([up_shrinks], [branch_loop_spec]); [logs_loop] for the number of chunks
      ([logs_loop_complete]); [minimal_le] for the eight bytes of a [usize];
      [retry_payment] for one turn more than eight bits count ([retry_spec]).
    - [relink] has three turns more than the height: it stops at the fork, at the latest
      one block below the start of the contract ([relink_source]).
    - [fork_loop] runs for the length of the interval it searches
      ([fork_loop_monotone]) and [fit_loop] for the size of the batch
      ([fit_loop_total]): both shrink every turn.  [submit_loop], [poll_receipt],
      [await_burial] and [confirm_nonce] have the configured number of attempts, as
      in the source; [hex_digits] the sixteen digits of a [u64].
    - [le_minimal] runs for the eight bytes of its number and [sol_bytes] for the five
      of a script number ([sol_bytes_fuel]); [wait_for_gateway_height] and [poll_spend]
      have the number of attempts of the source.
    - [wf_tail] bounds the number of tail samples by 10^12: one sample per
      9000-slot window makes that longer than the chain will live.  [MAX_NET] is
      the net exposure up to which [crowding_bps] stays within [i64]
      (about 922 million dollars); beyond it the source panics.

    ** Not modelled

    The framework: account deserialisation, discriminators and rent are assumed,
    and a seeds constraint either fixes an address through a parameter or fails.
    The double-precision scaling of a price, the base58 form of a key, the issuer
    of SOL*, the LayerZero endpoint and the token programs are parameters with laws.
    Events and log lines have no effect on state and are left out.  [lib.rs] only
    forwards to the handlers, except for [lz_receive].  The simulations and
    back-tests ([backtest.rs], [facility_sim.rs], [facility_sim_report.rs],
    [returns.rs], [real.rs]) are compiled for tests only.  Of the hop, hashes,
    elliptic curves, MuSig2, the LDK node, the on-chain wallet, the explorer and the
    JSON-RPC endpoints are parameters or classes with the behaviour relied on;
    logging, timers and task spawning are left out, and so are the HTTP requests and
    the lock that serialises the nonce.  Of the bridge, the remaining HTTP routes, the
    boot and peering of the two nodes, the position reads of the keepers and the tools
    with which operators sign are left out: they pass values between the parts above and
    third-party code.  The rest of the LDK fork (wallet,
    commands), the server side of attestation, the contracts under
    [src/evm] other than the light client and the applications are separate programs. *)
From stdpp Require Export prelude numbers list.
From Stdlib Require Export ZArith Lia.

#[global] Open Scope Z_scope.

(** ** Machine integers

    Every Rust integer is a [Z]; its type is an [ity], the pair of bounds.  The
    release profile of the program ([svm/Cargo.toml]) sets
    [overflow-checks = true], so a plain operator that leaves its range aborts
    the instruction: [chk] is that check.  [sat] is the clamp performed by the
    [saturating_*] family and [cast] the two's complement reinterpretation
    performed by [as]. *)
Record ity := Ity { imin : Z; imax : Z }.

Definition u8 : ity := Ity 0 255.
Definition u16 : ity := Ity 0 65535.
Definition u32 : ity := Ity 0 4294967295.
Definition u64 : ity := Ity 0 18446744073709551615.
Definition i64 : ity := Ity (-9223372036854775808) 9223372036854775807.
Definition u128 : ity := Ity 0 340282366920938463463374607431768211455.
Definition i128 : ity :=
  Ity (-170141183460469231731687303715884105728)
      170141183460469231731687303715884105727.

Definition in_range (t : ity) (x : Z) : Prop := imin t <= x <= imax t.
Definition in_rangeb (t : ity) (x : Z) : bool := (imin t <=? x) && (x <=? imax t).

Definition sat (t : ity) (x : Z) : Z := Z.max (imin t) (Z.min (imax t) x).
Definition cast (t : ity) (x : Z) : Z :=
  (x - imin t) mod (imax t - imin t + 1) + imin t.

(** [a.clamp(lo, hi)]. *)
Definition clamp (x lo hi : Z) : Z := if x <? lo then lo else if hi <? x then hi else x.

(** ** The error type of the program and its result monad *)
Inductive PithyQuip :=
| NotUndercollateralised | MaxPositionsReached | NoPrice | Tickers | TooSoon
| TakeProfit | PoolAtCapacity | UnknownSymbol | Undercollateralised
| InvalidAmount | InvalidUser | InvalidMint | UnderExposed | DepositFirst
| InvalidPrice | InvalidParameters | InvalidMessageFormat | Unauthorized
| InsufficientAccounts | PriceUncertain | OracleManipulated | FlashLoanActive
| FlashRepayMissing | InvalidSettlementProgram | NoActiveFlashLoan
| InsufficientFunds | UnparkConsentRequired | NotDeliverable | WrongDirection
| BelowMinimumTicket | AboveMaximumTicket | DeliveryHalted | ExceedsNetExposure
| FundingWithinBand | NoPaperHeld | DeliveryCoolingDown
| PriceTooStaleToDeliver | BackingStillHeld | SolStarStillParked.

#[export] Instance PithyQuip_eq_dec : EqDecision PithyQuip.
Proof. solve_decision. Defined.

(** A call returns a value, returns one of the program's errors, or panics
    (arithmetic overflow, division by zero, out-of-bounds index). *)
Inductive outcome (A : Type) :=
| Ok (a : A)
| Err (e : PithyQuip)
| Panic.
Arguments Ok {A} _.
Arguments Err {A} _.
Arguments Panic {A}.

Definition bind {A B} (m : outcome A) (f : A -> outcome B) : outcome B :=
  match m with
  | Ok a => f a
  | Err e => Err e
  | Panic => Panic
  end.

(** [require!(b, e)]. *)
Definition require (b : bool) (e : PithyQuip) : outcome unit :=
  if b then Ok tt else Err e.

(** [o.ok_or(e)?]. *)
Definition ok_or {A} (o : option A) (e : PithyQuip) : outcome A :=
  match o with Some a => Ok a | None => Err e end.

Declare Scope quid_scope.
Delimit Scope quid_scope with quid.

Notation "x <- m ;; k" := (bind m (fun x => k))
  (at level 20, m at level 99, k at level 200) : quid_scope.
Notation "' p <- m ;; k" := (bind m (fun p => k))
  (at level 20, p pattern, m at level 99, k at level 200) : quid_scope.
Notation "m ;; k" := (bind m (fun _ => k))
  (at level 100, k at level 200, right associativity) : quid_scope.

#[global] Open Scope quid_scope.

Definition chk (t : ity) (x : Z) : outcome Z :=
  if in_rangeb t x then Ok x else Panic.

(** ** Checked arithmetic expressions

    [i64{ a * b / c }] is the Rust expression [a * b / c] at type [i64]: every
    intermediate result is range checked, a zero divisor panics, and signed
    division truncates toward zero. *)
Inductive aop := OAdd | OSub | OMul | ODiv.

Inductive aexp :=
| Lit (z : Z)
| Bin (o : aop) (a b : aexp).

Definition aop_fun (o : aop) : Z -> Z -> Z :=
  match o with
  | OAdd => Z.add
  | OSub => Z.sub
  | OMul => Z.mul
  | ODiv => Z.quot
  end.

Definition divides_by_zero (o : aop) (y : Z) : bool :=
  match o with ODiv => y =? 0 | _ => false end.

Fixpoint eval (t : ity) (e : aexp) : outcome Z :=
  match e with
  | Lit z => Ok z
  | Bin o a b =>
      x <- eval t a ;;
      y <- eval t b ;;
      if divides_by_zero o y then Panic else chk t (aop_fun o x y)
  end.

(** The mathematical value, and the side conditions under which the machine
    computes it. *)
Fixpoint value (e : aexp) : Z :=
  match e with
  | Lit z => z
  | Bin o a b => aop_fun o (value a) (value b)
  end.

Fixpoint safe (t : ity) (e : aexp) : Prop :=
  match e with
  | Lit _ => True
  | Bin o a b =>
      safe t a /\ safe t b /\
      match o with ODiv => value b <> 0 | _ => True end /\
      in_range t (aop_fun o (value a) (value b))
  end.

Declare Custom Entry arith.
Notation "( e )" := e (in custom arith, e custom arith at level 60).
Notation "x" := (Lit x) (in custom arith at level 0, x constr at level 0).
Notation "[ x ]" := (Lit x) (in custom arith at level 0, x constr at level 200).
Notation "a * b" := (Bin OMul a b) (in custom arith at level 40, left associativity).
Notation "a / b" := (Bin ODiv a b) (in custom arith at level 40, left associativity).
Notation "a + b" := (Bin OAdd a b) (in custom arith at level 50, left associativity).
Notation "a - b" := (Bin OSub a b) (in custom arith at level 50, left associativity).
Notation "'i64{' e '}'" := (eval i64 e) (at level 0, e custom arith at level 60).
Notation "'u64{' e '}'" := (eval u64 e) (at level 0, e custom arith at level 60).
Notation "'i128{' e '}'" := (eval i128 e) (at level 0, e custom arith at level 60).
Notation "'u128{' e '}'" := (eval u128 e) (at level 0, e custom arith at level 60).

(** ** Record update

    [r <| f := v |>] is [r] with field [f] replaced.  A record type declares its
    eta expansion once ([Eta]); the setter of a projection is found by
    abstracting that projection in the expansion. *)
Class Eta (R : Type) := eta : R -> R.
Class Setter {R T : Type} (proj : R -> T) := modify : (T -> T) -> R -> R.

Ltac build_setter proj :=
  intros ?f ?r;
  match goal with
  | f : ?T -> ?T, r : ?R |- ?R =>
      let e := eval hnf in (eta r) in
      match (eval pattern (proj r) in e) with
      | ?F _ => exact (F (f (proj r)))
      end
  end.

#[export] Hint Extern 1 (Setter ?p) => (build_setter p) : typeclass_instances.

Notation "r <| f := v |>" := (modify (proj := f) (fun _ => v) r)
  (at level 1, f at level 9, v at level 200, left associativity,
   format "r  <| f  :=  v |>") : quid_scope.

(** ** Newton's integer square root

    The loop [while y < r { r = y; y = (r + n / r.max(1)) / 2 }] occurs three
    times in the risk engine.  The fuel bounds its iterations; running out is
    modelled as a panic and proved impossible ([newton_sqrt]). *)
Fixpoint newton_loop (fuel : nat) (n r y : Z) : outcome Z :=
  if y <? r then
    match fuel with
    | O => Panic
    | S k => y' <- i64{ (y + n / [Z.max y 1]) / 2 } ;; newton_loop k n y y'
    end
  else Ok r.

Definition newton_fuel : nat := 70.

(** * Lemmas *)

(** ** Ranges, saturation, casts *)
Ltac unfold_ints :=
  unfold in_range, in_rangeb, u8, u16, u64, i64, u128, i128 in *;
  cbn [imin imax] in *.

(** Linear arithmetic with division by constants and truncated division. *)
Ltac dlia := Z.to_euclidean_division_equations; nia.

Lemma in_rangeb_spec t x : in_rangeb t x = true <-> in_range t x.
Proof. unfold in_rangeb, in_range. rewrite andb_true_iff. lia. Qed.

Lemma sat_id t x : in_range t x -> sat t x = x.
Proof. unfold in_range, sat. lia. Qed.

Lemma sat_in_range t x : imin t <= imax t -> in_range t (sat t x).
Proof. unfold in_range, sat. lia. Qed.

Lemma sat_mono t x y : x <= y -> sat t x <= sat t y.
Proof. unfold sat. lia. Qed.

Lemma cast_id t x : in_range t x -> cast t x = x.
Proof.
  unfold in_range, cast. intros H. rewrite Z.mod_small by lia. lia.
Qed.

Lemma cast_in_range t x : imin t <= imax t -> in_range t (cast t x).
Proof.
  unfold in_range, cast. intros H.
  pose proof (Z.mod_pos_bound (x - imin t) (imax t - imin t + 1)). lia.
Qed.

Lemma clamp_range x lo hi : lo <= hi -> lo <= clamp x lo hi <= hi.
Proof. unfold clamp. intros. repeat case_match; lia. Qed.

Lemma clamp_id x lo hi : lo <= x <= hi -> clamp x lo hi = x.
Proof. unfold clamp. intros. repeat case_match; lia. Qed.

(** ** The monad *)
Lemma bind_ok {A B} (m : outcome A) (f : A -> outcome B) b :
  bind m f = Ok b -> exists a, m = Ok a /\ f a = Ok b.
Proof. destruct m; cbn; naive_solver. Qed.

Lemma require_ok b e u : require b e = Ok u -> b = true.
Proof. unfold require. by destruct b. Qed.

Lemma chk_ok t x : in_range t x -> chk t x = Ok x.
Proof. unfold chk. intros H. apply in_rangeb_spec in H. by rewrite H. Qed.

Lemma chk_inv t x v : chk t x = Ok v -> v = x /\ in_range t x.
Proof.
  unfold chk. destruct (in_rangeb t x) eqn:E; [|done].
  intros [= <-]. split; [done|]. by apply in_rangeb_spec.
Qed.

Lemma eval_safe t e : safe t e -> eval t e = Ok (value e).
Proof.
  induction e as [z|o a IHa b IHb]; [done|].
  cbn [safe eval value]. intros (Ha & Hb & Hz & Hr).
  rewrite IHa, IHb by done. cbn [bind].
  replace (divides_by_zero o (value b)) with false; [by apply chk_ok|].
  symmetry. destruct o; cbn; try done. by apply Z.eqb_neq.
Qed.

Lemma eval_inv t e v : eval t e = Ok v -> v = value e /\ safe t e.
Proof.
  revert v. induction e as [z|o a IHa b IHb]; cbn [eval safe value]; intros v H.
  { by simplify_eq. }
  apply bind_ok in H as (x & Hx & H). apply bind_ok in H as (y & Hy & H).
  apply IHa in Hx as [-> ?]. apply IHb in Hy as [-> ?].
  destruct (divides_by_zero o (value b)) eqn:Ez; [done|].
  apply chk_inv in H as [-> ?]. split_and!; try done.
  destruct o; try done. cbn in Ez. by apply Z.eqb_neq.
Qed.

(** [wp m Q]: the call [m] returns normally, with a value satisfying [Q]. *)
Definition wp {A} (m : outcome A) (Q : A -> Prop) : Prop :=
  match m with Ok a => Q a | _ => False end.

Lemma wp_ok {A} (a : A) (Q : A -> Prop) : Q a -> wp (Ok a) Q.
Proof. done. Qed.

Lemma wp_bind {A B} (m : outcome A) (f : A -> outcome B) Q :
  wp m (fun a => wp (f a) Q) -> wp (bind m f) Q.
Proof. by destruct m. Qed.

Lemma wp_mono {A} (m : outcome A) (P Q : A -> Prop) :
  wp m P -> (forall a, P a -> Q a) -> wp m Q.
Proof. destruct m; cbn; naive_solver. Qed.

Lemma wp_elim {A} (m : outcome A) (Q : A -> Prop) :
  wp m Q -> exists a, m = Ok a /\ Q a.
Proof. destruct m; cbn; naive_solver. Qed.

Lemma wp_intro {A} (m : outcome A) a (Q : A -> Prop) : m = Ok a -> Q a -> wp m Q.
Proof. by intros ->. Qed.

Lemma wp_eval t e (Q : Z -> Prop) : safe t e -> Q (value e) -> wp (eval t e) Q.
Proof. intros H. by rewrite eval_safe. Qed.

Lemma wp_require b e (Q : unit -> Prop) : b = true -> Q tt -> wp (require b e) Q.
Proof. by intros ->. Qed.

Lemma wp_if {A} (b : bool) (m1 m2 : outcome A) Q :
  (b = true -> wp m1 Q) -> (b = false -> wp m2 Q) -> wp (if b then m1 else m2) Q.
Proof. destruct b; auto. Qed.

(** The named constants of the program; each component extends the list. *)
Ltac quid_consts := idtac.

Lemma quot_le_self a b : 0 <= a -> 0 < b -> 0 <= Z.quot a b <= a.
Proof.
  intros. rewrite Z.quot_div_nonneg by lia.
  split; [apply Z.div_pos|apply Z.div_le_upper_bound]; nia.
Qed.

(** Bounds of the truncated divisions of non-negative numbers in the goal. *)
Ltac quot_facts :=
  repeat match goal with
  | |- context [Z.quot ?a ?b] =>
      lazymatch goal with
      | _ : 0 <= Z.quot a b <= a |- _ => fail
      | _ => assert (0 <= Z.quot a b <= a) by (apply quot_le_self; first [lia | nia])
      end
  end.

(** The range obligations of an arithmetic expression, as a conjunction of
    inequalities. *)
Ltac arith_side :=
  cbn [safe value aop_fun]; quid_consts; unfold_ints; repeat split;
  try lia; quot_facts; try lia; try nia.

(** One step of symbolic execution under [wp]. *)
Ltac wp_step :=
  cbn beta;
  match goal with
  | |- wp (let _ := _ in _) _ => cbv zeta
  | |- wp (bind _ _) _ => apply wp_bind
  | |- wp (Ok _) _ => apply wp_ok
  | |- wp (eval _ _) _ => apply wp_eval; [arith_side | cbn [value aop_fun]]
  | |- wp (require _ _) _ => apply wp_require
  | |- wp (if _ then _ else _) _ => apply wp_if; intros
  end.

(** Use the specification [L] of the call at the head of the program. *)
Ltac wp_head :=
  cbn beta; cbv zeta;
  match goal with
  | |- wp (let _ := _ in _) _ => cbv zeta; wp_head
  | |- wp (bind _ _) _ => apply wp_bind; wp_head
  | |- _ => idtac
  end.

(** Execute the next primitive: an arithmetic expression, a return, a guard. *)
Ltac wp_go := wp_head; wp_step.

Tactic Notation "wp_call" uconstr(L) "as" simple_intropattern(x) simple_intropattern(Hx) :=
  wp_head; eapply wp_mono; [apply L | intros x Hx; cbn beta in Hx |- *].

(** Reading a successful run backwards. *)
Ltac inv_ok H :=
  match type of H with
  | bind _ _ = Ok _ =>
      let a := fresh "v" in let Ha := fresh H in
      apply bind_ok in H as (a & Ha & H); try inv_ok Ha; inv_ok H
  | Ok _ = Ok _ => injection H as H; subst
  | eval _ _ = Ok _ => apply eval_inv in H as [-> H]; cbn [safe value aop_fun] in *
  | require _ _ = Ok _ => apply require_ok in H
  | Err _ = Ok _ => discriminate H
  | Panic = Ok _ => discriminate H
  | _ => idtac
  end.

(** [ensures m Q]: whatever [m] returns satisfies [Q]; errors and panics are
    allowed.  Used for frame conditions of calls that may fail. *)
Definition ensures {A} (m : outcome A) (Q : A -> Prop) : Prop := forall a, m = Ok a -> Q a.

Lemma ensures_ok {A} (a : A) (Q : A -> Prop) : Q a -> ensures (Ok a) Q.
Proof. by intros H b [= <-]. Qed.

Lemma ensures_bind {A B} (m : outcome A) (f : A -> outcome B) (P : A -> Prop) Q :
  ensures m P -> (forall a, P a -> ensures (f a) Q) -> ensures (bind m f) Q.
Proof. intros Hm Hf b H. apply bind_ok in H as (a & Ha & H). exact (Hf a (Hm a Ha) b H). Qed.

Lemma ensures_skip {A B} (m : outcome A) (f : A -> outcome B) Q :
  (forall a, ensures (f a) Q) -> ensures (bind m f) Q.
Proof. intros Hf. apply (ensures_bind _ _ (fun _ => True)); [done|auto]. Qed.

(** Runs through a program, ignoring every intermediate result. *)
Ltac ensures_step :=
  cbn beta; cbv zeta;
  match goal with
  | |- ensures (Ok _) _ => apply ensures_ok
  | |- ensures (Err _) _ => by intros ? ?
  | |- ensures Panic _ => by intros ? ?
  | |- ensures (bind _ _) _ => apply ensures_skip; intros
  | |- ensures (if ?b then _ else _) _ => destruct b
  | |- ensures (match ?x with _ => _ end) _ => destruct x
  end.

(** [never_errs m]: [m] may panic but returns no program error. *)
Definition never_errs {A} (m : outcome A) : Prop := forall e, m <> Err e.

Lemma never_errs_bind {A B} (m : outcome A) (f : A -> outcome B) :
  never_errs m -> (forall a, never_errs (f a)) -> never_errs (bind m f).
Proof. intros Hm Hf e. destruct m as [a|e'|]; cbn; [apply Hf | by destruct (Hm e') | done]. Qed.

Lemma never_errs_chk t x : never_errs (chk t x).
Proof. intros e. unfold chk. by destruct (in_rangeb t x). Qed.

Lemma never_errs_eval t e : never_errs (eval t e).
Proof.
  induction e as [z|o a IHa b IHb]; [by intros e|]. cbn [eval].
  apply never_errs_bind; [done|intros x]. apply never_errs_bind; [done|intros y].
  destruct (divides_by_zero o y); [done|apply never_errs_chk].
Qed.

Create HintDb noerr.
#[export] Hint Resolve never_errs_chk never_errs_eval : noerr.

Ltac never_errs_tac :=
  repeat (cbn beta; cbv zeta; match goal with
  | |- never_errs (Ok _) => by intros ?
  | |- never_errs Panic => by intros ?
  | |- never_errs _ => solve [auto with noerr nocore]
  | |- never_errs (bind _ _) => apply never_errs_bind; [|intros]
  | |- never_errs (if ?b then _ else _) => destruct b
  | |- never_errs (match ?x with _ => _ end) => destruct x
  end).

(** ** Division *)
Lemma quot_div a b : 0 <= a -> 0 < b -> Z.quot a b = a / b.
Proof. intros. apply Z.quot_div_nonneg; lia. Qed.

Lemma mul_div_le a b c : 0 <= a -> 0 <= b <= c -> 0 < c -> 0 <= a * b / c <= a.
Proof.
  intros Ha Hb Hc. split; [apply Z.div_pos; nia|].
  apply Z.div_le_upper_bound; nia.
Qed.

Lemma mul_quot_le a b c : 0 <= a -> 0 <= b <= c -> 0 < c -> 0 <= Z.quot (a * b) c <= a.
Proof. intros. rewrite quot_div by nia. by apply mul_div_le. Qed.

(** Newton's iteration started above the root decreases to it, halving the
    distance each time, so 64 rounds reach the root of any 63-bit argument. *)
Lemma newton_step n s r :
  0 <= s -> s * s <= n < (s + 1) * (s + 1) -> s < r ->
  s <= Z.quot (r + Z.quot n (Z.max r 1)) 2 /\
  2 * (Z.quot (r + Z.quot n (Z.max r 1)) 2 - s) <= r - s.
Proof.
  intros Hs Hn Hr. rewrite Z.max_l by lia.
  rewrite (quot_div n r) by nia. rewrite quot_div by (try apply Z.add_nonneg_nonneg; try apply Z.div_pos; lia).
  assert (Hq : n / r <= s) by (apply Z.lt_succ_r, Z.div_lt_upper_bound; nia).
  assert (Hlow : 2 * s <= r + n / r).
  { assert (n < r * (n / r) + r) by (pose proof (Z.mul_succ_div_gt n r); nia). nia. }
  split; [apply Z.div_le_lower_bound; lia|].
  pose proof (Z.mul_div_le (r + n / r) 2). lia.
Qed.

Lemma newton_floor n s : 0 <= s -> s * s <= n -> s <= Z.quot (s + Z.quot n (Z.max s 1)) 2.
Proof.
  intros Hs Hn. rewrite (quot_div n) by nia.
  assert (s <= n / Z.max s 1) by (apply Z.div_le_lower_bound; nia).
  rewrite quot_div by lia. apply Z.div_le_lower_bound; lia.
Qed.

Lemma newton_loop_sqrt n s : 0 <= s -> s * s <= n < (s + 1) * (s + 1) ->
  n <= 4611686018427387903 ->
  forall k r y, s <= r <= n \/ r = s -> s <= y -> (s < r -> 2 * (y - s) <= r - s) ->
  r - s < 2 ^ Z.of_nat k -> newton_loop k n r y = Ok s.
Proof.
  intros Hs Hn Hmax. induction k as [|k IH]; intros r y Hr Hy Hd Hk;
    cbn [newton_loop]; destruct (Z.ltb_spec y r) as [Hlt|Hge].
  1: { cbn in Hk. lia. }
  1, 3: by replace r with s by lia.
  assert (Hq : 0 <= Z.quot n (Z.max y 1) <= n).
  { rewrite quot_div by lia. split; [apply Z.div_pos; lia|].
    apply Z.div_le_upper_bound; nia. }
  rewrite eval_safe.
  2: { cbn [safe value aop_fun]. unfold_ints. rewrite (quot_div (y + _)) by lia.
       pose proof (Z.div_lt_upper_bound (y + Z.quot n (Z.max y 1)) 2 (n + 1)).
       pose proof (Z.div_pos (y + Z.quot n (Z.max y 1)) 2).
       repeat split; lia. }
  cbn [bind value aop_fun]. apply IH.
  - lia.
  - destruct (Z.eq_dec y s) as [->|]; [apply newton_floor; lia|].
    apply (newton_step n s y); lia.
  - intros. apply (newton_step n s y); lia.
  - rewrite Nat2Z.inj_succ, Z.pow_succ_r in Hk by lia. lia.
Qed.

(** The loop computes the integer square root. *)
Lemma newton_sqrt n : 1 <= n <= 4611686018427387903 ->
  newton_loop newton_fuel n n (Z.quot (n + 1) 2) = Ok (Z.sqrt n).
Proof.
  intros Hn. pose proof (Z.sqrt_spec n). pose proof (Z.sqrt_nonneg n).
  unfold Z.succ in *.
  assert (Hle : Z.sqrt n <= n) by nia.
  assert (Heq : Z.quot (n + 1) 2 = Z.quot (n + Z.quot n (Z.max n 1)) 2).
  { rewrite Z.max_l by lia. rewrite Z.quot_same by lia. done. }
  apply (newton_loop_sqrt n (Z.sqrt n)); try lia; try rewrite Heq.
  - destruct (Z.eq_dec n (Z.sqrt n)); [by assert (n = 1) as -> by nia|].
    apply (newton_step n (Z.sqrt n) n); lia.
  - intros. apply (newton_step n (Z.sqrt n) n); lia.
  - change (2 ^ Z.of_nat newton_fuel) with 1180591620717411303424. lia.
Qed.

(** ** Sums over a list *)
Definition sumZ {A} (f : A -> Z) (l : list A) : Z := foldr (fun a acc => f a + acc) 0 l.

Lemma sumZ_app {A} (f : A -> Z) l1 l2 : sumZ f (l1 ++ l2) = sumZ f l1 + sumZ f l2.
Proof. unfold sumZ. induction l1 as [|a l1 IH]; cbn in *; lia. Qed.

Lemma sumZ_cons {A} (f : A -> Z) a l : sumZ f (a :: l) = f a + sumZ f l.
Proof. done. Qed.

Lemma sumZ_insert {A} (f : A -> Z) l i x y :
  l !! i = Some x -> sumZ f (<[i:=y]> l) = sumZ f l - f x + f y.
Proof.
  revert i. induction l as [|a l IH]; intros [|i] H; try done.
  - change (<[0%nat:=y]> (a :: l)) with (y :: l). cbn in H. simplify_eq. rewrite !sumZ_cons. lia.
  - change (<[S i:=y]> (a :: l)) with (a :: <[i:=y]> l). rewrite !sumZ_cons.
    rewrite (IH i) by done. lia.
Qed.

Lemma sumZ_ext {A} (f g : A -> Z) l : (forall a, f a = g a) -> sumZ f l = sumZ g l.
Proof. intros H. induction l as [|a l IH]; [done|]. rewrite !sumZ_cons, H. lia. Qed.

Lemma sumZ_add {A} (f g : A -> Z) l : sumZ (fun a => f a + g a) l = sumZ f l + sumZ g l.
Proof. induction l as [|a l IH]; [done|]. rewrite !sumZ_cons. lia. Qed.

Lemma sumZ_scale {A} (f : A -> Z) k l : sumZ (fun a => k * f a) l = k * sumZ f l.
Proof. induction l as [|a l IH]; [cbn; lia|]. rewrite !sumZ_cons. lia. Qed.

Lemma sumZ_nonneg {A} (f : A -> Z) l : (forall a, a ∈ l -> 0 <= f a) -> 0 <= sumZ f l.
Proof.
  induction l as [|a l IH]; intros H; [done|]. rewrite sumZ_cons.
  assert (0 <= f a) by (apply H; set_solver).
  assert (0 <= sumZ f l) by (apply IH; set_solver). lia.
Qed.

Lemma sumZ_elem {A} (f : A -> Z) l i x :
  (forall a, a ∈ l -> 0 <= f a) -> l !! i = Some x -> f x <= sumZ f l.
Proof.
  revert i. induction l as [|a l IH]; intros [|i] Hpos H; try done; rewrite sumZ_cons.
  - cbn in H. simplify_eq. pose proof (sumZ_nonneg f l ltac:(set_solver)). lia.
  - assert (0 <= f a) by (apply Hpos; set_solver).
    pose proof (IH i ltac:(set_solver) H). lia.
Qed.
