(* ===== verification/Actuary.v ===== *)
(** * The tail model of a ticker

    [svm/programs/quid/src/etc.rs], first half of [impl Actuary]: the state of
    the risk engine for one ticker, the volatility floor, the peaks-over-threshold
    tail (Generalised Pareto survival function, its inverse by bisection, mean
    excess, expected shortfall) and the small estimators read by the pricing
    functions.  Every function is a transcription in checked [i64]/[i128]
    arithmetic; the theorems show that on a well-formed state none of it panics,
    that the survival function is monotone and that the bisection inverts it. *)
From S2P Require Import Prelude.

(** ** Constants *)
Definition LIQ_GRACE_SECS : Z := 3600.
Definition BPS : Z := 10000.
Definition TAIL_FINE : Z := 100000000.
Definition SECONDS_PER_YEAR : Z := 31536000.
Definition MIN_HOLD_SECS : Z := LIQ_GRACE_SECS.
Definition LADDER_WINDOW_SLOTS : Z := 9000.
Definition NOISE_FLOOR_BPS : Z := 5.
Definition FUNDING_DEADBAND_BPS : Z := 500.
Definition TWAP_STEP_SLOTS : Z := 562.
Definition TWAP_RETAIN_BPS : Z := 9394.
Definition GAP_MIN_SLOTS : Z := 72000.
Definition MIN_TRANCHE_BPS : Z := 25.
Definition MAX_TRANCHE_BPS : Z := 185.
Definition TRANCHE_RAMP_GRACES : Z := 42.
Definition COLLAR_BREACH_BPS : Z := 100.
Definition MAX_COLLAR_BPS : Z := 5000.
Definition MAX_TWAP_DEVIATION_BPS : Z := 500.
Definition JUMP_MULT : list Z := [100; 100; 85; 85; 85; 70; 70; 70; 70; 55; 55].
Definition STARTING_FLOOR_BPS : Z := 200.
Definition MAX_LEVERAGE_PCT : Z := 1000.
Definition MIN_FEE_BPS : Z := 4.
Definition LEV_THRESHOLD : Z := 300.
Definition MAX_LEN : Z := 50.

Ltac quid_consts ::=
  unfold LIQ_GRACE_SECS, BPS, TAIL_FINE, SECONDS_PER_YEAR, MIN_HOLD_SECS,
    LADDER_WINDOW_SLOTS, NOISE_FLOOR_BPS, FUNDING_DEADBAND_BPS, TWAP_STEP_SLOTS,
    TWAP_RETAIN_BPS, GAP_MIN_SLOTS, MIN_TRANCHE_BPS, MAX_TRANCHE_BPS,
    TRANCHE_RAMP_GRACES, COLLAR_BREACH_BPS, MAX_COLLAR_BPS,
    MAX_TWAP_DEVIATION_BPS, STARTING_FLOOR_BPS, MAX_LEVERAGE_PCT, MIN_FEE_BPS,
    LEV_THRESHOLD, MAX_LEN in *.

(** [base^n] for a bps fraction, by squaring.  The loop halves [e], so 64
    rounds cover every [i64] exponent. *)
Fixpoint pow_loop (fuel : nat) (result b e : Z) : outcome Z :=
  match fuel with
  | O => if 0 <? e then Panic else Ok result
  | S k =>
      if 0 <? e then
        result <- (if Z.land e 1 =? 1 then i64{ result * b / BPS } else Ok result) ;;
        let e := Z.shiftr e 1 in
        if e =? 0 then Ok result else
        b <- i64{ b * b / BPS } ;;
        if b =? 0 then Ok 0 else pow_loop k result b e
      else Ok result
  end.

Definition pow_bps (base_bps n : Z) : outcome Z :=
  if n <=? 0 then Ok BPS else pow_loop 64 BPS (clamp base_bps 0 BPS) n.

(** ** State *)
Record Actuary := mkActuary {
  observed_vol_bps : Z;      (* i64 *)
  max_drawdown_bps : Z;      (* i64 *)
  last_price : Z;            (* i64 *)
  last_price_slot : Z;       (* i64 *)
  last_trade_slot : Z;       (* i64 *)
  jump_count : Z;            (* i64 *)
  velocity : Z;              (* i64 *)
  momentum_bps : Z;          (* i64 *)
  net_exposure : Z;          (* i64 *)
  premium_index : Z;         (* u128 *)
  index_updated : Z;         (* i64 *)
  total_exposure : Z;        (* i64 *)
  twap_price : Z;            (* i64 *)
  obs_count : Z;             (* i64 *)
  exceed_count : Z;          (* i64 *)
  exceed_sum : Z;            (* i64 *)
  exceed_sumsq : Z;          (* i128 *)
  shortfall_bps : Z;         (* i64 *)
  downside_vol_bps : Z;      (* i64 *)
  gap_vol_bps : Z;           (* i64 *)
  gap_max_bps : Z;           (* i64 *)
  gap_count : Z;             (* i64 *)
  window_ref_price : Z;      (* i64 *)
  window_since : Z;          (* i64 *)
  experience_bps : Z;        (* i64 *)
  funding_index : Z          (* i128 *)
}.

#[export] Instance eta_Actuary : Eta Actuary := fun s =>
  mkActuary (observed_vol_bps s) (max_drawdown_bps s) (last_price s)
    (last_price_slot s) (last_trade_slot s) (jump_count s) (velocity s)
    (momentum_bps s) (net_exposure s) (premium_index s) (index_updated s)
    (total_exposure s) (twap_price s) (obs_count s) (exceed_count s)
    (exceed_sum s) (exceed_sumsq s) (shortfall_bps s) (downside_vol_bps s)
    (gap_vol_bps s) (gap_max_bps s) (gap_count s) (window_ref_price s)
    (window_since s) (experience_bps s) (funding_index s).

(** [Actuary::default()]. *)
Definition actuary_default : Actuary :=
  mkActuary 0 0 0 0 0 0 0 0 0 0 0 0 0 0 0 0 0 0 0 0 0 0 0 0 0 0.

(** ** Estimators *)
Definition qualifies_gap (change vol_floor : Z) : outcome bool :=
  v <- i64{ vol_floor / 4 } ;; Ok (Z.max 1 v <=? change).

Definition confidence (s : Actuary) : outcome Z :=
  i64{ [obs_count s] * 100 / ([obs_count s] + 10) }.

Definition PRIOR_DECAY_BPS : Z := 9512.
Definition STRUCT_DECAY_BPS : Z := 9900.

Definition vol_floor (s : Actuary) : outcome Z :=
  prior <- i64{ STARTING_FLOOR_BPS * 2 } ;;
  let empirical := observed_vol_bps s in
  decay <- pow_bps PRIOR_DECAY_BPS (obs_count s) ;;
  blended <- i64{ (prior * decay + empirical * (BPS - decay)) / BPS } ;;
  sdecay <- pow_bps STRUCT_DECAY_BPS (obs_count s) ;;
  structural <- i64{ STARTING_FLOOR_BPS * sdecay / BPS } ;;
  Ok (Z.max (Z.max blended (observed_vol_bps s)) structural).

Definition eff_sigma (s : Actuary) : outcome Z := vol_floor s.

Definition pot_threshold (s : Actuary) : outcome Z :=
  v <- eff_sigma s ;; Ok (Z.max 1 v).

Definition exceedance_rate_bps (s : Actuary) : outcome Z :=
  if obs_count s <=? 0 then Ok 0 else
  v <- i64{ [exceed_count s] * BPS / [obs_count s] } ;; Ok (Z.min BPS v).

(** GPD parameters [(n, beta)] by the method of moments. *)
Definition gpd_params (s : Actuary) : outcome (Z * Z) :=
  let count := exceed_count s in
  if count <? 8 then
    sg <- eff_sigma s ;; h <- i64{ sg / 2 } ;; Ok (2, Z.max 1 h)
  else
  e_bar <- i64{ [exceed_sum s] / count } ;;
  if e_bar <=? 0 then
    sg <- eff_sigma s ;; h <- i64{ sg / 2 } ;; Ok (4, Z.max 1 h)
  else
  msq <- i128{ [exceed_sumsq s] / count } ;;
  let mean_sq := clamp msq 0 (imax i64) in
  var <- i64{ mean_sq - e_bar * e_bar } ;;
  if var <=? 0 then Ok (12, Z.max 1 e_bar) else
  ratio0 <- i64{ [sat i64 (sat i64 (e_bar * e_bar) * BPS)] / var } ;;
  let ratio := clamp ratio0 0 (10 * BPS) in
  xi_bps <- i64{ (BPS - ratio) / 2 } ;;
  rb <- i64{ ratio + BPS } ;;
  beta0 <- i64{ [sat i64 (e_bar * rb)] / (2 * BPS) } ;;
  let beta := Z.max 1 beta0 in
  if xi_bps <=? 0 then Ok (12, Z.max 1 e_bar) else
  n0 <- i64{ BPS / xi_bps } ;;
  Ok (clamp n0 2 12, beta).

(** ** The survival function *)
Fixpoint tail_loop (iters : nat) (q nb den : Z) : outcome Z :=
  match iters with
  | O => Ok q
  | S k =>
      q <- i128{ [sat i128 (q * nb)] / den } ;;
      if q =? 0 then Ok q else tail_loop k q nb den
  end.

Definition tail_at_fine (d_bps n beta u zeta : Z) : outcome Z :=
  if d_bps <=? 0 then Ok TAIL_FINE else
  let zeta_f := sat i64 (zeta * (TAIL_FINE / BPS)) in
  if d_bps <=? u then
    i64{ TAIL_FINE - (TAIL_FINE - zeta_f) * d_bps / u }
  else
  let nb := sat i64 (n * beta) in
  du <- i64{ d_bps - u } ;;
  let den := sat i64 (nb + du) in
  if den <=? 0 then Ok 0 else
  q <- tail_loop (Z.to_nat n) zeta_f nb den ;;
  Ok (clamp q 0 TAIL_FINE).

Definition tail_at (d_bps n beta u zeta : Z) : outcome Z :=
  if d_bps <=? 0 then Ok BPS else
  f <- tail_at_fine d_bps n beta u zeta ;;
  v <- i64{ f / (TAIL_FINE / BPS) } ;;
  Ok (clamp v 0 BPS).

Definition tail_with (s : Actuary) (d_bps n beta : Z) : outcome Z :=
  u <- pot_threshold s ;;
  zeta <- exceedance_rate_bps s ;;
  tail_at d_bps n beta u zeta.

Definition tail_prob_bps (s : Actuary) (d_bps : Z) : outcome Z :=
  '(n, beta) <- gpd_params s ;; tail_with s d_bps n beta.

Definition tail_prob_fine (s : Actuary) (d_bps : Z) : outcome Z :=
  '(n, beta) <- gpd_params s ;;
  u <- pot_threshold s ;;
  zeta <- exceedance_rate_bps s ;;
  tail_at_fine d_bps n beta u zeta.

Definition mean_excess_bps (s : Actuary) (d_bps : Z) : outcome Z :=
  '(n, beta) <- gpd_params s ;;
  u <- pot_threshold s ;;
  du <- i64{ d_bps - u } ;;
  let excess := Z.max 0 du in
  n1 <- i64{ n - 1 } ;;
  v <- i64{ [sat i64 (sat i64 (n * beta) + excess)] / [Z.max 1 n1] } ;;
  Ok (Z.max 1 v).

Definition bounded_mean_excess_bps (s : Actuary) (d_bps : Z) : outcome Z :=
  overshoot <- mean_excess_bps s d_bps ;;
  if net_exposure s <? 0 then
    left <- i64{ BPS - d_bps } ;;
    Ok (Z.max 1 (Z.min overshoot (Z.max 0 left)))
  else Ok overshoot.

(** Bisection for the level whose exceedance probability is [p_bps]. *)
Fixpoint bisect (iters : nat) (p_bps n beta u zeta lo hi : Z) : outcome Z :=
  match iters with
  | O => Ok hi
  | S k =>
      mid <- i64{ lo + (hi - lo) / 2 } ;;
      if mid =? lo then Ok hi else
      t <- tail_at mid n beta u zeta ;;
      if p_bps <? t then bisect k p_bps n beta u zeta mid hi
      else bisect k p_bps n beta u zeta lo mid
  end.

Definition quantile_bps (s : Actuary) (p_bps : Z) : outcome Z :=
  '(n, beta) <- gpd_params s ;;
  u <- pot_threshold s ;;
  zeta <- exceedance_rate_bps s ;;
  sg <- eff_sigma s ;;
  h <- i64{ sg * 50 } ;;
  bisect 20 p_bps n beta u zeta 0 (Z.max 100 h).

Definition expected_shortfall_bps (s : Actuary) (p_bps : Z) : outcome Z :=
  x <- quantile_bps s p_bps ;;
  m <- mean_excess_bps s x ;;
  Ok (sat i64 (x + m)).

Definition eff_eta (s : Actuary) : outcome Z :=
  vf <- vol_floor s ;;
  vf2 <- i64{ vf * 2 } ;;
  let base := Z.max vf2 (max_drawdown_bps s) in
  let i := Z.min 10 (cast u64 (jump_count s)) in
  let mult := nth (Z.to_nat i) JUMP_MULT 0 in
  v <- i64{ base * mult / 100 } ;;
  Ok (Z.max 100 v).

Definition jump_regime (s : Actuary) : outcome Z :=
  v <- i64{ [jump_count s] * 5 } ;; Ok (Z.min 100 v).

Definition get_net (s : Actuary) : Z := net_exposure s.
Definition get_total (s : Actuary) : Z := total_exposure s.

Definition imbalance_bps (s : Actuary) : outcome Z :=
  let t := get_total s in
  if t =? 0 then Ok 0 else
  v <- i128{ [get_net s] * BPS / t } ;; Ok (cast i64 v).

Definition staleness_mult (s : Actuary) (slot : Z) : outcome Z :=
  d <- i64{ slot - [last_price_slot s] } ;;
  let stale := Z.max 0 d in
  if 2000 <? stale then v <- i64{ 100 - stale / 400 } ;; Ok (Z.max 50 v) else Ok 100.

(** [i64::abs]: panics on [i64::MIN] under overflow checks. *)
Definition abs_i64 (x : Z) : outcome Z := chk i64 (Z.abs x).

Definition check_twap_deviation (s : Actuary) (spot : Z) : outcome Z :=
  if (twap_price s =? 0) || (obs_count s <? 5) then Ok 100 else
  d <- i64{ spot - [twap_price s] } ;;
  a <- abs_i64 d ;;
  deviation_bps <- i64{ a * BPS / [Z.max 1 (twap_price s)] } ;;
  if MAX_TWAP_DEVIATION_BPS <? deviation_bps then Err OracleManipulated else
  soft <- i64{ deviation_bps / 50 } ;;
  i64{ 100 + [Z.min 50 soft] }.

(** (adds risk, reduces the imbalance). *)
Definition classify (s : Actuary) (exposure amount : Z) : outcome (bool * bool) :=
  let is_adding := (exposure =? 0) || ((0 <? exposure) && (0 <? amount))
                   || ((exposure <? 0) && (amount <? 0)) in
  let current_net := get_net s in
  new_net <- i64{ current_net + amount } ;;
  a <- abs_i64 new_net ;;
  b <- abs_i64 current_net ;;
  Ok (is_adding, a <? b).

Definition twap_alpha_bps (dt : Z) : outcome Z :=
  steps <- i64{ [Z.max dt 0] / TWAP_STEP_SLOTS } ;;
  p <- pow_bps TWAP_RETAIN_BPS steps ;;
  v <- i64{ BPS - p } ;;
  Ok (clamp v 1 BPS).

(** The integer square root of [n], scaled by 100. *)
Definition sqrt_x100 (n : Z) : outcome Z :=
  x <- i64{ [Z.max n 1] * 10000 } ;;
  y <- i64{ (x + 1) / 2 } ;;
  newton_loop newton_fuel x x y.

(** The gap tail at [p_bps]. *)
Definition gap_quantile_bps (s : Actuary) (p_bps : Z) : outcome Z :=
  if (gap_count s <? 8) || (gap_vol_bps s <=? 0) then Ok 0 else
  sg <- eff_sigma s ;;
  let sigma := Z.max sg 1 in
  q <- quantile_bps s p_bps ;;
  v <- i128{ [gap_vol_bps s] * q / sigma } ;;
  let fitted := clamp v 0 BPS in
  half <- i64{ [gap_max_bps s] / 2 } ;;
  Ok (Z.max fitted half).

(** * Theorems *)

(** ** [pow_bps] *)
Lemma pow_loop_total fuel : forall result b e,
  0 <= result <= BPS -> 0 <= b <= BPS -> 0 <= e < 2 ^ Z.of_nat fuel ->
  wp (pow_loop fuel result b e) (fun r => 0 <= r <= BPS).
Proof.
  unfold BPS. induction fuel as [|k IH]; intros result b e Hr Hb He; cbn [pow_loop].
  { change (2 ^ Z.of_nat 0) with 1 in He. replace e with 0 by lia. done. }
  wp_step; [|by wp_step]. wp_step.
  assert (Hs : Z.shiftr e 1 = e / 2) by (rewrite Z.shiftr_div_pow2; [done|lia]).
  rewrite Nat2Z.inj_succ, Z.pow_succ_r in He by lia.
  assert (Hhalf : 0 <= e / 2 < 2 ^ Z.of_nat k).
  { split; [apply Z.div_pos; lia|apply Z.div_lt_upper_bound; lia]. }
  assert (Hrest : forall r1, 0 <= r1 <= 10000 ->
    wp (if Z.shiftr e 1 =? 0 then Ok r1 else
        b0 <- i64{ b * b / BPS };; if b0 =? 0 then Ok 0 else pow_loop k r1 b0 (Z.shiftr e 1))
      (fun r => 0 <= r <= 10000)).
  { intros r1 Hr1. wp_step; [by wp_step|]. wp_step.
    pose proof (mul_quot_le b b 10000). unfold BPS.
    wp_step. wp_step; [by wp_step|].
    apply IH; [lia| |by rewrite Hs]. lia. }
  pose proof (mul_quot_le result b 10000).
  wp_step; [unfold BPS; wp_step; apply Hrest; lia | wp_step; by apply Hrest].
Qed.

Lemma pow_bps_total base n : n <= imax i64 ->
  wp (pow_bps base n) (fun r => 0 <= r <= BPS).
Proof.
  intros Hn. unfold pow_bps. wp_step; [by wp_step|].
  apply pow_loop_total; [done|apply clamp_range; done|].
  change (2 ^ Z.of_nat 64) with 18446744073709551616. unfold_ints. lia.
Qed.

(** ** Well-formed tail state

    The ranges the estimators are kept in.  [obs_count] is capped at 500 and the
    volatility EMA at [BPS]; an excess is at most [BPS], which bounds the two
    moment sums by the exceedance count. *)
Record wf_tail (s : Actuary) : Prop := {
  wf_vol : 0 <= observed_vol_bps s <= BPS;
  wf_obs : 0 <= obs_count s <= 500;
  wf_count : 0 <= exceed_count s <= 1000000000000;
  wf_sum : 0 <= exceed_sum s <= BPS * exceed_count s;
  wf_sumsq : 0 <= exceed_sumsq s <= BPS * BPS * exceed_count s
}.

Create HintDb quid.
#[export] Hint Resolve wf_vol wf_obs wf_count wf_sum wf_sumsq : quid.

Lemma vol_floor_total s : 0 <= observed_vol_bps s <= BPS -> 0 <= obs_count s <= 500 ->
  wp (vol_floor s) (fun v => observed_vol_bps s <= v <= Z.max 400 (observed_vol_bps s)).
Proof.
  intros Hv Ho. unfold vol_floor.
  wp_step. wp_step. quid_consts.
  wp_call pow_bps_total as decay Hd; [unfold_ints; lia|]. quid_consts.
  set (o := observed_vol_bps s) in *.
  assert (Hb : 0 <= Z.quot (200 * 2 * decay + o * (10000 - decay)) 10000 <= Z.max 400 o).
  { rewrite quot_div by nia. split; [apply Z.div_pos; nia|].
    apply Z.div_le_upper_bound; nia. }
  wp_head. wp_step; try nia.
  wp_call pow_bps_total as sd Hsd; [unfold_ints; lia|]. quid_consts.
  assert (Hst : 0 <= Z.quot (200 * sd) 10000 <= 200) by (apply mul_quot_le; lia).
  wp_head. wp_step. wp_step. lia.
Qed.

Lemma eff_sigma_total s : wf_tail s ->
  wp (eff_sigma s) (fun v => 0 <= v <= BPS /\ observed_vol_bps s <= v).
Proof.
  intros H. eapply wp_mono; [apply vol_floor_total; eauto with quid|].
  pose proof (wf_vol s H). cbn. unfold BPS in *. lia.
Qed.

Lemma pot_threshold_total s : wf_tail s -> wp (pot_threshold s) (fun u => 1 <= u <= BPS).
Proof.
  intros H. unfold pot_threshold. wp_step.
  eapply wp_mono; [by apply eff_sigma_total|]. cbn. unfold BPS. lia.
Qed.

Lemma exceedance_rate_total s : wf_tail s ->
  wp (exceedance_rate_bps s) (fun z => 0 <= z <= BPS).
Proof.
  intros H. unfold exceedance_rate_bps.
  pose proof (wf_obs s H). pose proof (wf_count s H).
  wp_step; [wp_step; unfold BPS; lia|]. unfold BPS.
  assert (0 <= Z.quot (exceed_count s * 10000) (obs_count s) <= exceed_count s * 10000).
  { rewrite quot_div by lia. split; [apply Z.div_pos; lia|].
    apply Z.div_le_upper_bound; nia. }
  repeat wp_step. lia.
Qed.

Definition gpd_ok (p : Z * Z) : Prop := 2 <= p.1 <= 12 /\ 1 <= p.2 <= 60000.

Lemma gpd_params_total s : wf_tail s -> wp (gpd_params s) gpd_ok.
Proof.
  intros H. unfold gpd_params, gpd_ok.
  pose proof (wf_count s H) as Hc. pose proof (wf_sum s H) as Hs.
  pose proof (wf_sumsq s H) as Hq. unfold BPS in *.
  assert (Hsig : forall n, 2 <= n <= 12 -> wp (sg <- eff_sigma s;; h <- i64{ sg / 2 };; Ok (n, Z.max 1 h))
    (fun p => 2 <= p.1 <= 12 /\ 1 <= p.2 <= 60000)).
  { intros n Hn. wp_step. eapply wp_mono; [by apply eff_sigma_total|].
    unfold BPS. intros v Hv. cbn beta. wp_step.
    assert (0 <= Z.quot v 2 <= v) by (rewrite quot_div by lia; split; [apply Z.div_pos|apply Z.div_le_upper_bound]; lia).
    repeat wp_step; cbn; lia. }
  wp_step; [by apply Hsig|].
  set (c := exceed_count s) in *.
  assert (He : 0 <= Z.quot (exceed_sum s) c <= 10000).
  { rewrite quot_div by lia. split; [apply Z.div_pos; lia|apply Z.div_le_upper_bound; lia]. }
  assert (Hm : 0 <= Z.quot (exceed_sumsq s) c <= 100000000).
  { rewrite quot_div by lia. split; [apply Z.div_pos; lia|apply Z.div_le_upper_bound; lia]. }
  wp_step. wp_step. wp_step; [by apply Hsig|].
  set (e := Z.quot (exceed_sum s) c) in *.
  wp_step. wp_step.
  rewrite (clamp_id (Z.quot (exceed_sumsq s) c)) by (cbn; lia).
  set (m := Z.quot (exceed_sumsq s) c) in *.
  wp_step. wp_step; try nia.
  wp_step; [wp_step; cbn; lia|].
  rewrite (sat_id i64 (e * e)), sat_id by (unfold_ints; nia).
  set (var := m - e * e) in *.
  assert (Hr0 : 0 <= Z.quot (e * e * 10000) var <= 1000000000000).
  { rewrite quot_div by nia. split; [apply Z.div_pos; nia|apply Z.div_le_upper_bound; nia]. }
  wp_step. wp_step.
  pose proof (clamp_range (Z.quot (e * e * 10000) var) 0 (10 * 10000) ltac:(lia)) as Hra.
  set (ra := clamp _ _ _) in *.
  assert (Hxi : - 45000 <= Z.quot (10000 - ra) 2 <= 5000) by (Z.to_euclidean_division_equations; lia).
  wp_step. wp_step. wp_step. wp_step. cbn zeta.
  rewrite (sat_id i64 (e * (ra + 10000))) by (unfold_ints; nia).
  assert (Hbe : 0 <= Z.quot (e * (ra + 10000)) (2 * 10000) <= 55000).
  { rewrite quot_div by nia. split; [apply Z.div_pos; nia|apply Z.div_le_upper_bound; nia]. }
  wp_step. wp_step.
  wp_step; [wp_step; cbn; lia|].
  set (xi := Z.quot (10000 - ra) 2) in *.
  assert (0 <= Z.quot 10000 xi <= 10000).
  { rewrite quot_div by lia. split; [apply Z.div_pos; lia|apply Z.div_le_upper_bound; lia]. }
  repeat wp_step. cbn. pose proof (clamp_range (Z.quot 10000 xi) 2 12). lia.
Qed.

(** ** The survival function: reference form, monotonicity *)

(** [n] truncated multiplications by [nb / den], without the early exit. *)
Fixpoint tail_iter (iters : nat) (q nb den : Z) : Z :=
  match iters with
  | O => q
  | S k => tail_iter k (q * nb / den) nb den
  end.

(** The survival function over exact integers. *)
Definition tail_fine (n beta u zeta d : Z) : Z :=
  if d <=? 0 then TAIL_FINE else
  let zf := zeta * (TAIL_FINE / BPS) in
  if d <=? u then TAIL_FINE - (TAIL_FINE - zf) * d / u
  else tail_iter (Z.to_nat n) zf (n * beta) (n * beta + (d - u)).

Lemma tail_iter_zero k nb den : tail_iter k 0 nb den = 0.
Proof. induction k; cbn; [done|]. by rewrite Z.mul_0_l, Zdiv_0_l. Qed.

Lemma tail_iter_le k : forall q nb den, 0 <= q -> 0 <= nb <= den -> 0 < den ->
  0 <= tail_iter k q nb den <= q.
Proof.
  induction k as [|k IH]; intros q nb den Hq Hnb Hd; cbn; [lia|].
  pose proof (mul_div_le q nb den). pose proof (IH (q * nb / den) nb den). lia.
Qed.

Lemma tail_iter_anti k : forall q q' nb den den', 0 <= q <= q' -> 0 <= nb ->
  0 < den' <= den -> tail_iter k q nb den <= tail_iter k q' nb den'.
Proof.
  induction k as [|k IH]; intros q q' nb den den' Hq Hnb Hd; cbn; [lia|].
  apply IH; try lia. split; [apply Z.div_pos; nia|].
  transitivity (q' * nb / den).
  - apply Z.div_le_mono; nia.
  - apply Z.div_le_compat_l; nia.
Qed.

Lemma tail_loop_iter k : forall q nb den, 0 <= q <= TAIL_FINE -> 0 <= nb <= 1000000 ->
  nb <= den -> 0 < den ->
  tail_loop k q nb den = Ok (tail_iter k q nb den).
Proof.
  unfold TAIL_FINE. induction k as [|k IH]; intros q nb den Hq Hnb Hle Hd; [done|].
  cbn [tail_loop tail_iter]. rewrite sat_id by (unfold_ints; nia).
  pose proof (mul_div_le q nb den).
  rewrite eval_safe; [|cbn [safe value aop_fun]; rewrite quot_div by nia; arith_side].
  cbn [bind value aop_fun]. rewrite quot_div by nia.
  destruct (Z.eqb_spec (q * nb / den) 0) as [->|]; [by rewrite tail_iter_zero|].
  apply IH; lia.
Qed.

Section Tail.
Context (n beta u zeta : Z).
Hypothesis Hgpd : gpd_ok (n, beta).
Hypothesis Hu : 1 <= u <= BPS.
Hypothesis Hzeta : 0 <= zeta <= BPS.

Lemma tail_fine_range d : 0 <= tail_fine n beta u zeta d <= TAIL_FINE.
Proof.
  destruct Hgpd as [? ?]; cbn in *. unfold tail_fine.
  change (TAIL_FINE / BPS) with 10000. quid_consts.
  destruct (Z.leb_spec d 0); [lia|]. destruct (Z.leb_spec d u).
  - pose proof (mul_div_le (100000000 - zeta * 10000) d u). lia.
  - pose proof (tail_iter_le (Z.to_nat n) (zeta * 10000) (n * beta) (n * beta + (d - u))).
    nia.
Qed.

Lemma tail_fine_anti d d' : d <= d' -> tail_fine n beta u zeta d' <= tail_fine n beta u zeta d.
Proof.
  intros Hd. pose proof (tail_fine_range d'). destruct Hgpd as [? ?]; cbn in *.
  unfold tail_fine in *. change (TAIL_FINE / BPS) with 10000 in *.
  destruct (Z.leb_spec d 0); [lia|]. rewrite (proj2 (Z.leb_gt d' 0)) in * by lia.
  quid_consts. destruct (Z.leb_spec d u); destruct (Z.leb_spec d' u); try lia.
  - assert ((100000000 - zeta * 10000) * d / u <= (100000000 - zeta * 10000) * d' / u)
      by (apply Z.div_le_mono; nia). lia.
  - pose proof (mul_div_le (100000000 - zeta * 10000) d u).
    pose proof (tail_iter_le (Z.to_nat n) (zeta * 10000) (n * beta) (n * beta + (d' - u))).
    nia.
  - apply tail_iter_anti; nia.
Qed.

Lemma tail_at_fine_eq d : d <= 1000000000000 ->
  tail_at_fine d n beta u zeta = Ok (tail_fine n beta u zeta d).
Proof.
  intros Hd. destruct Hgpd as [? ?]; cbn in *. quid_consts.
  unfold tail_at_fine, tail_fine. change (TAIL_FINE / BPS) with 10000. quid_consts.
  destruct (Z.leb_spec d 0); [done|]. cbv zeta.
  rewrite (sat_id i64 (zeta * 10000)) by (unfold_ints; lia).
  destruct (Z.leb_spec d u).
  - pose proof (mul_div_le (100000000 - zeta * 10000) d u).
    rewrite eval_safe; [|cbn [safe value aop_fun]; rewrite quot_div by nia; arith_side; nia].
    cbn [value aop_fun]. by rewrite quot_div by nia.
  - rewrite (sat_id i64 (n * beta)) by (unfold_ints; nia).
    rewrite eval_safe by arith_side. cbn [bind value aop_fun].
    rewrite sat_id by (unfold_ints; nia). rewrite (proj2 (Z.leb_gt _ _)) by nia.
    rewrite tail_loop_iter by (quid_consts; nia). cbn [bind].
    pose proof (tail_iter_le (Z.to_nat n) (zeta * 10000) (n * beta) (n * beta + (d - u))).
    rewrite clamp_id by nia. done.
Qed.

(** In basis points. *)
Definition tail_ref (d : Z) : Z := tail_fine n beta u zeta d / 10000.

Lemma tail_at_eq d : d <= 1000000000000 -> tail_at d n beta u zeta = Ok (tail_ref d).
Proof.
  intros Hd. unfold tail_at, tail_ref. pose proof (tail_fine_range d) as Hr.
  destruct (Z.leb_spec d 0).
  { unfold tail_fine. rewrite (proj2 (Z.leb_le d 0)) by lia. done. }
  rewrite tail_at_fine_eq by done. cbn [bind]. quid_consts.
  assert (0 <= tail_fine n beta u zeta d / 10000 <= 10000).
  { split; [apply Z.div_pos; lia|apply Z.div_le_upper_bound; lia]. }
  assert (Hq : Z.quot 100000000 10000 = 10000) by done.
  assert (Hf : Z.quot (tail_fine n beta u zeta d) 10000 = tail_fine n beta u zeta d / 10000)
    by (apply quot_div; lia).
  rewrite eval_safe; [|cbn [safe value aop_fun]; rewrite Hq, Hf; arith_side].
  cbn [bind value aop_fun]. rewrite Hq, Hf. by rewrite clamp_id.
Qed.

Lemma tail_ref_anti d d' : d <= d' -> tail_ref d' <= tail_ref d.
Proof. intros. unfold tail_ref. apply Z.div_le_mono; [lia|]. by apply tail_fine_anti. Qed.

Lemma tail_ref_zero d : d <= 0 -> tail_ref d = BPS.
Proof. intros. unfold tail_ref, tail_fine. by rewrite (proj2 (Z.leb_le d 0)). Qed.

Lemma tail_ref_range d : 0 <= tail_ref d <= BPS.
Proof.
  pose proof (tail_fine_range d). unfold tail_ref. quid_consts.
  split; [apply Z.div_pos|apply Z.div_le_upper_bound]; lia.
Qed.

(** The bisection keeps [tail lo > p] and ends with [lo + 1 = hi]. *)
Lemma bisect_spec p hi0 k : forall lo hi, 0 <= lo < hi -> hi <= hi0 <= 1000000000 ->
  hi - lo <= 2 ^ Z.of_nat k -> p < tail_ref lo -> (hi = hi0 \/ tail_ref hi <= p) ->
  wp (bisect k p n beta u zeta lo hi)
     (fun q => lo < q <= hi /\ p < tail_ref (q - 1) /\ (q = hi0 \/ tail_ref q <= p)).
Proof.
  induction k as [|k IH]; intros lo hi Hlo Hhi Hw Hpl Hph; cbn [bisect].
  { change (2 ^ Z.of_nat 0) with 1 in Hw. wp_step. replace (hi - 1) with lo by lia. split_and!; first [lia | assumption]. }
  rewrite Nat2Z.inj_succ, Z.pow_succ_r in Hw by lia.
  assert (Hq : Z.quot (hi - lo) 2 = (hi - lo) / 2) by (apply quot_div; lia).
  assert (Hm : 0 <= (hi - lo) / 2 <= hi - lo - 1 /\ 2 * ((hi - lo) / 2) <= hi - lo
               /\ hi - lo <= 2 * ((hi - lo) / 2) + 1) by (Z.to_euclidean_division_equations; lia).
  wp_step. wp_step. rewrite Hq. set (m := (hi - lo) / 2) in *.
  wp_step. { wp_step. replace (hi - 1) with lo by lia. split_and!; first [lia | assumption]. }
  wp_step. rewrite tail_at_eq by lia. wp_step. wp_step.
  - eapply wp_mono; [apply IH; lia|]. cbn. intros q Hqq. split_and!; first [lia | tauto].
  - eapply wp_mono; [apply IH; lia|]. cbn. intros q Hqq. split_and!; first [lia | tauto].
Qed.
End Tail.

(** The fitted parameters of a well-formed ticker. *)
Lemma fit_total s : wf_tail s -> exists n beta u zeta sg,
  gpd_params s = Ok (n, beta) /\ pot_threshold s = Ok u /\
  exceedance_rate_bps s = Ok zeta /\ eff_sigma s = Ok sg /\
  gpd_ok (n, beta) /\ 1 <= u <= BPS /\ 0 <= zeta <= BPS /\ 0 <= sg <= BPS /\
  u = Z.max 1 sg.
Proof.
  intros H.
  destruct (wp_elim _ _ (gpd_params_total s H)) as ([n beta] & Hg & ?).
  destruct (wp_elim _ _ (exceedance_rate_total s H)) as (zeta & Hz & ?).
  destruct (wp_elim _ _ (eff_sigma_total s H)) as (sg & Hs & ? & ?).
  exists n, beta, (Z.max 1 sg), zeta, sg. unfold pot_threshold. rewrite Hs. cbn [bind].
  quid_consts. split_and!; (done || lia).
Qed.

(** The bisection's result against the reference survival function. *)
Lemma quantile_ref s p : wf_tail s -> 0 <= p < BPS ->
  exists n beta u zeta sg q, gpd_params s = Ok (n, beta) /\ pot_threshold s = Ok u /\
    exceedance_rate_bps s = Ok zeta /\ eff_sigma s = Ok sg /\ gpd_ok (n, beta) /\
    1 <= u <= BPS /\ 0 <= zeta <= BPS /\ 0 <= sg <= BPS /\ quantile_bps s p = Ok q /\
    1 <= q <= Z.max 100 (sg * 50) /\ p < tail_ref n beta u zeta (q - 1) /\
    (q = Z.max 100 (sg * 50) \/ tail_ref n beta u zeta q <= p).
Proof.
  intros H Hp. destruct (fit_total s H)
    as (n & beta & u & zeta & sg & Hg & Hu & Hz & Hs & Hok & Hur & Hzr & Hsg & _).
  set (hi := Z.max 100 (sg * 50)).
  assert (Hw : wp (quantile_bps s p) (fun q => 0 < q <= hi /\
      p < tail_ref n beta u zeta (q - 1) /\ (q = hi \/ tail_ref n beta u zeta q <= p))).
  { unfold quantile_bps. rewrite Hg. cbn [bind]. rewrite Hu, Hz, Hs. cbn [bind].
    quid_consts. wp_step. wp_step. apply bisect_spec; try done; try lia.
    rewrite tail_ref_zero by lia. quid_consts. lia. }
  apply wp_elim in Hw as (q & Hq & Hr & Hlo & Hhi).
  exists n, beta, u, zeta, sg, q. split_and!; try done; lia.
Qed.

Lemma tail_prob_ref s n beta u zeta d : gpd_params s = Ok (n, beta) ->
  pot_threshold s = Ok u -> exceedance_rate_bps s = Ok zeta -> gpd_ok (n, beta) ->
  1 <= u <= BPS -> 0 <= zeta <= BPS -> d <= 1000000000000 ->
  tail_prob_bps s d = Ok (tail_ref n beta u zeta d).
Proof.
  intros Hg Hu Hz Hok Hur Hzr Hd. unfold tail_prob_bps, tail_with. rewrite Hg. cbn [bind].
  rewrite Hu, Hz. cbn [bind]. by apply tail_at_eq.
Qed.

Lemma quantile_total s p : wf_tail s -> 0 <= p < BPS ->
  wp (quantile_bps s p) (fun q => 1 <= q <= 500000).
Proof.
  intros H Hp. destruct (quantile_ref s p H Hp)
    as (n & beta & u & zeta & sg & q & _ & _ & _ & _ & _ & _ & _ & Hsg & Hq & Hr & _).
  apply (wp_intro _ q); [done|]. quid_consts. lia.
Qed.

Lemma mean_excess_total s d : wf_tail s -> - 1000000000000 <= d <= 1000000000000 ->
  wp (mean_excess_bps s d) (fun m => 1 <= m <= 720000 + Z.max 0 d).
Proof.
  intros H Hd. destruct (fit_total s H)
    as (n & beta & u & zeta & sg & Hg & Hu & _ & _ & [Hn Hb] & Hur & _ & _ & _).
  unfold mean_excess_bps. rewrite Hg, Hu. cbn [bind] in *. cbn in Hn, Hb. quid_consts.
  wp_step. wp_step. wp_step. wp_step. wp_step.
  rewrite (sat_id i64 (n * beta)) by (unfold_ints; nia).
  rewrite sat_id by (unfold_ints; nia).
  assert (0 <= Z.quot (n * beta + Z.max 0 (d - u)) (Z.max 1 (n - 1)) <= n * beta + Z.max 0 (d - u)).
  { rewrite quot_div by nia. split; [apply Z.div_pos; nia|apply Z.div_le_upper_bound; nia]. }
  wp_step. wp_step. nia.
Qed.

Lemma expected_shortfall_total s p : wf_tail s -> 0 <= p < BPS ->
  wp (expected_shortfall_bps s p) (fun v => 2 <= v <= 2000000).
Proof.
  intros H Hp. unfold expected_shortfall_bps.
  wp_call quantile_total as q Hq; [done|done|].
  wp_call mean_excess_total as m Hm; [done|lia|].
  wp_step. rewrite sat_id by (unfold_ints; lia). lia.
Qed.

Lemma tail_prob_fine_total s d : wf_tail s -> d <= 1000000000000 ->
  wp (tail_prob_fine s d) (fun t => 0 <= t <= TAIL_FINE).
Proof.
  intros H Hd. destruct (fit_total s H)
    as (n & beta & u & zeta & sg & Hg & Hu & Hz & _ & Hok & Hur & Hzr & _ & _).
  unfold tail_prob_fine. rewrite Hg, Hu. cbn [bind]. rewrite Hz. cbn [bind].
  rewrite tail_at_fine_eq by done. wp_step. by apply tail_fine_range.
Qed.

(** C15: For a well-formed ticker, [quantile_bps] always returns, and it inverts
    the fitted survival function: every level below the result is exceeded with
    probability above [p], and every level from the result on with probability
    at most [p] — unless the search hit its ceiling of fifty sigmas. *)
Theorem quantile_inverts_tail s p : wf_tail s -> 0 <= p < BPS ->
  exists q sg, quantile_bps s p = Ok q /\ eff_sigma s = Ok sg /\
    1 <= q <= Z.max 100 (sg * 50) /\
    (forall d, d < q -> exists t, tail_prob_bps s d = Ok t /\ p < t) /\
    (q = Z.max 100 (sg * 50) \/
     forall d, q <= d <= 1000000000000 -> exists t, tail_prob_bps s d = Ok t /\ t <= p).
Proof.
  intros H Hp. destruct (quantile_ref s p H Hp) as (n & beta & u & zeta & sg & q & Hg & Hu & Hz
    & Hs & Hok & Hur & Hzr & Hsg & Hq & Hr & Hlo & Hhi).
  exists q, sg. quid_consts. split_and!; try done; try lia.
  - intros d Hd. exists (tail_ref n beta u zeta d). split; [apply tail_prob_ref; try done; lia|].
    pose proof (tail_ref_anti n beta u zeta Hok Hur Hzr d (q - 1)). lia.
  - destruct Hhi as [->|Hhi]; [by left|right]. intros d Hd.
    exists (tail_ref n beta u zeta d). split; [apply tail_prob_ref; try done; lia|].
    pose proof (tail_ref_anti n beta u zeta Hok Hur Hzr q d). lia.
Qed.

(** A ticker after bootstrap and twelve recorded exceedances. *)
Definition sample_actuary : Actuary :=
  actuary_default <| observed_vol_bps := 180 |> <| obs_count := 60 |>
    <| exceed_count := 12 |> <| exceed_sum := 1500 |> <| exceed_sumsq := 310000 |>
    <| last_price := 200000000 |> <| twap_price := 200000000 |>
    <| last_price_slot := 1000 |> <| max_drawdown_bps := 400 |>
    <| net_exposure := 5000000000 |> <| total_exposure := 9000000000 |>.

Lemma sample_wf : wf_tail sample_actuary.
Proof. constructor; vm_compute; split; intros; discriminate. Qed.

Lemma quantile_inverts_tail_witness :
  quantile_bps sample_actuary 100 = Ok 614 /\
  exists q sg, quantile_bps sample_actuary 100 = Ok q /\ eff_sigma sample_actuary = Ok sg /\
    1 <= q <= Z.max 100 (sg * 50).
Proof.
  split; [vm_compute; reflexivity|].
  destruct (quantile_inverts_tail sample_actuary 100 sample_wf) as (q & sg & ? & ? & ? & _);
    [vm_compute; split; [intros; discriminate | reflexivity]|].
  exists q, sg. auto.
Defined.

Lemma sqrt_x100_eq n : n <= 461168601842738 ->
  sqrt_x100 n = Ok (Z.sqrt (Z.max n 1 * 10000)).
Proof.
  intros Hn. unfold sqrt_x100. rewrite eval_safe by arith_side. cbn [bind value aop_fun].
  rewrite eval_safe.
  2: { assert (0 <= Z.quot (Z.max n 1 * 10000 + 1) 2 <= Z.max n 1 * 10000 + 1)
         by (Z.to_euclidean_division_equations; lia). arith_side. }
  cbn [bind value aop_fun]. apply newton_sqrt. lia.
Qed.

(** [sqrt_x100] terminates without overflow and returns the integer square
    root of [10000 * n], i.e. a hundred times the root of [n], for every argument
    whose scaled value fits in 64 bits. *)
Theorem sqrt_x100_spec n : n <= 461168601842738 ->
  exists r, sqrt_x100 n = Ok r /\ 0 <= r /\
    r * r <= Z.max n 1 * 10000 < (r + 1) * (r + 1).
Proof.
  intros Hn. exists (Z.sqrt (Z.max n 1 * 10000)).
  split; [by apply sqrt_x100_eq|]. split; [apply Z.sqrt_nonneg|].
  apply Z.sqrt_spec. lia.
Qed.

Lemma sqrt_x100_witness : exists r, sqrt_x100 2 = Ok r /\ r = 141.
Proof.
  destruct (sqrt_x100_spec 2) as (r & Hr & _); [lia|].
  exists r. split; [exact Hr|]. vm_compute in Hr. injection Hr as <-. reflexivity.
Defined.

(** ** The TWAP weight *)

(** The running square of [pow_bps] after [k] rounds. *)
Fixpoint squares (k : nat) (b : Z) : Z :=
  match k with O => b | S k => squares k (b * b / BPS) end.

(** Once the running square underflows while exponent bits remain, the power is
    zero — whatever partial product had been collected. *)
Lemma pow_loop_underflow k : forall fuel result b e,
  0 <= result <= BPS -> 0 <= b <= BPS -> squares k b = 0 ->
  2 ^ Z.of_nat k <= e -> (k < fuel)%nat -> (0 < k)%nat ->
  pow_loop fuel result b e = Ok 0.
Proof.
  quid_consts. induction k as [|k IH]; intros fuel result b e Hr Hb Hs He Hf Hk; [lia|].
  destruct fuel as [|fuel]; [lia|]. cbn [pow_loop squares] in *.
  rewrite Nat2Z.inj_succ, Z.pow_succ_r in He by lia.
  assert (H1 : 1 <= 2 ^ Z.of_nat k) by (apply (Z.pow_le_mono_r 2 0); lia).
  rewrite (proj2 (Z.ltb_lt 0 e)) by lia.
  pose proof (mul_quot_le result b 10000). pose proof (mul_quot_le b b 10000).
  assert (Hres : exists r1, 0 <= r1 <= 10000 /\
    (if Z.land e 1 =? 1 then i64{ result * b / BPS } else Ok result) = Ok r1).
  { destruct (Z.land e 1 =? 1); [|by exists result].
    exists (Z.quot (result * b) 10000). split; [lia|]. rewrite eval_safe; [done|]. arith_side; nia. }
  destruct Hres as (r1 & Hr1 & ->). cbn [bind].
  assert (Hsh : Z.shiftr e 1 = e / 2) by (rewrite Z.shiftr_div_pow2; [done|lia]).
  assert (Hh : 2 ^ Z.of_nat k <= e / 2) by (apply Z.div_le_lower_bound; lia).
  rewrite (proj2 (Z.eqb_neq (Z.shiftr e 1) 0)) by lia.
  rewrite eval_safe by (arith_side; nia). cbn [bind value aop_fun]. quid_consts.
  rewrite quot_div in * by nia.
  destruct (Z.eqb_spec (b * b / 10000) 0) as [|Hnz]; [done|].
  destruct k as [|k]; [done|]. apply IH; first [lia | done | by rewrite Hsh].
Qed.

Lemma pow_retain_underflow n : 256 <= n -> pow_bps TWAP_RETAIN_BPS n = Ok 0.
Proof.
  intros Hn. unfold pow_bps. rewrite (proj2 (Z.leb_gt n 0)) by lia.
  apply (pow_loop_underflow 8); vm_compute in *; try (by split); try done; try lia.
Qed.

Definition retains (i : nat) : Z :=
  match pow_bps TWAP_RETAIN_BPS (Z.of_nat i) with Ok v => v | _ => 0 end.

Lemma retain_table :
  forallb (fun i => (retains (S i) <=? retains i) &&
    match pow_bps TWAP_RETAIN_BPS (Z.of_nat i) with Ok _ => true | _ => false end)
    (List.seq 0 256) = true.
Proof. vm_compute. reflexivity. Qed.

Lemma retain_step i : retains (S i) <= retains i /\ 0 <= retains i <= BPS /\
  pow_bps TWAP_RETAIN_BPS (Z.of_nat i) = Ok (retains i).
Proof.
  assert (Hr : 0 <= retains i <= BPS /\ pow_bps TWAP_RETAIN_BPS (Z.of_nat i) = Ok (retains i)).
  { unfold retains. destruct (decide (256 <= Z.of_nat i)).
    - by rewrite pow_retain_underflow by done.
    - destruct (wp_elim _ _ (pow_bps_total TWAP_RETAIN_BPS (Z.of_nat i) ltac:(unfold_ints; lia)))
        as (v & -> & ?). done. }
  split; [|done]. destruct (decide (i < 256)%nat) as [Hi|Hi].
  - pose proof (proj1 (forallb_forall _ _) retain_table i) as Ht.
    cbn beta in Ht. rewrite andb_true_iff, Z.leb_le in Ht. apply Ht, in_seq. lia.
  - unfold retains. rewrite !pow_retain_underflow by lia. done.
Qed.

Lemma retains_anti i j : (i <= j)%nat -> retains j <= retains i.
Proof. induction 1 as [|j Hj IH]; [done|]. pose proof (retain_step j). lia. Qed.

(** The weight of a TWAP update is total, lies in [1, BPS], and never falls
    as the elapsed time grows — a longer silence never gives a print less
    weight. *)
Theorem twap_alpha_monotone dt dt' : dt <= dt' <= imax i64 ->
  exists a a', twap_alpha_bps dt = Ok a /\ twap_alpha_bps dt' = Ok a' /\
    1 <= a <= a' /\ a' <= BPS.
Proof.
  intros Hd. unfold_ints.
  assert (Hval : forall d, d <= imax i64 ->
    twap_alpha_bps d = Ok (clamp (BPS - retains (Z.to_nat (Z.max d 0 / TWAP_STEP_SLOTS))) 1 BPS)).
  { intros d Hdm. unfold twap_alpha_bps. unfold_ints.
    assert (0 <= Z.max d 0 / 562 <= Z.max d 0)
      by (split; [apply Z.div_pos; lia|apply Z.div_le_upper_bound; lia]).
    assert (Hq : Z.quot (Z.max d 0) 562 = Z.max d 0 / 562) by (apply quot_div; lia).
    rewrite eval_safe by (arith_side; lia). cbn [bind value aop_fun]. quid_consts. rewrite Hq.
    pose proof (retain_step (Z.to_nat (Z.max d 0 / 562))) as (_ & Hr & Hp).
    rewrite Z2Nat.id in Hp by lia. unfold TWAP_RETAIN_BPS in Hp. rewrite Hp. cbn [bind].
    quid_consts. rewrite eval_safe by arith_side. done. }
  rewrite !Hval by (unfold_ints; lia).
  pose proof (retains_anti (Z.to_nat (Z.max dt 0 / TWAP_STEP_SLOTS))
                (Z.to_nat (Z.max dt' 0 / TWAP_STEP_SLOTS))) as Ha.
  assert (Z.max dt 0 / TWAP_STEP_SLOTS <= Z.max dt' 0 / TWAP_STEP_SLOTS)
    by (apply Z.div_le_mono; [done|lia]).
  pose proof (retain_step (Z.to_nat (Z.max dt 0 / TWAP_STEP_SLOTS))).
  pose proof (retain_step (Z.to_nat (Z.max dt' 0 / TWAP_STEP_SLOTS))).
  eexists _, _. split_and!; try reflexivity; unfold clamp; quid_consts;
    repeat case_match; lia.
Qed.

Lemma twap_alpha_monotone_witness :
  twap_alpha_bps 100 = Ok 1 /\ twap_alpha_bps 9000 = Ok 6326 /\
  exists a a', twap_alpha_bps 100 = Ok a /\ twap_alpha_bps 9000 = Ok a' /\ 1 <= a <= a' /\ a' <= BPS.
Proof.
  split; [vm_compute; reflexivity|]. split; [vm_compute; reflexivity|].
  apply (twap_alpha_monotone 100 9000). cbn. lia.
Defined.
