(* ===== verification/Pricing.v ===== *)
(** * Pricing: margins, collars, fees and rates

    [svm/programs/quid/src/etc.rs], from [funding_rate_bps] to [rate_bps]: the
    quantities the position engine reads off one fitted tail.  The theorems show
    that on a well-formed ticker every one of them returns, and bound the margin,
    the ladder trigger, the collar and the premium — what [RiskLaws] promises to
    the position engine. *)
From S2P Require Import Prelude Actuary.

Definition INSOLVENCY_TARGET_BPS : Z := 100.
Definition REQUIRED_RETURN_BPS : Z := 1500.
Definition LADDER_TRIGGER_BPS : Z := 5000.

(** [sqrt(1 / 2r)], scaled by 100, for the ladder rate [r = MAX_TRANCHE_BPS]. *)
Definition unwind_exposure_x100 : outcome Z :=
  let den := Z.max (2 * MAX_TRANCHE_BPS) 1 in
  inv <- i64{ BPS * 10000 / den } ;;
  let r := Z.max inv 1 in
  y <- i64{ (r + 1) / 2 } ;;
  v <- newton_loop newton_fuel inv r y ;;
  Ok (Z.max v 100).

Record LossProfile := mkLossProfile {
  lp_margin_bps : Z;
  lp_capital_bps : Z;
  lp_expected_loss_bps : Z;
  lp_premium_bps : Z;
  lp_trigger_bps : Z
}.

Definition lp_max_leverage_pct (p : LossProfile) : outcome Z :=
  if lp_margin_bps p <=? 0 then Ok (imax i64) else
  v <- i64{ BPS * 100 / [lp_margin_bps p] } ;; Ok (Z.max v 100).

Definition mean_open_bps (windows : Z) : outcome Z :=
  let r := clamp MAX_TRANCHE_BPS 1 BPS in
  base <- i64{ BPS - r } ;;
  remaining <- pow_bps base windows ;;
  open <- i64{ BPS - remaining } ;;
  area <- i128{ open * BPS / r } ;;
  v <- i128{ area / [Z.max windows 1] } ;;
  Ok (clamp v 1 BPS).

(** Breach intensity at [distance_bps], in 1e8 units. *)
Definition hazard_bps (distance_bps : Z) (s : Actuary) : outcome Z :=
  t <- tail_prob_fine s (Z.max 0 distance_bps) ;;
  v <- i64{ 2 * t } ;;
  Ok (Z.min TAIL_FINE v).

(** Loss given breach. *)
Definition lgd_bps (collar : Z) (s : Actuary) : outcome Z :=
  overshoot <- bounded_mean_excess_bps s collar ;;
  residual <- i64{ BPS - [Z.min BPS MAX_TRANCHE_BPS] } ;;
  v <- i64{ overshoot * residual / BPS } ;;
  Ok (Z.max 1 v).

Definition adverse_bps (s : Actuary) (long : bool) : outcome Z :=
  aligned <- (if long then Ok (experience_bps s) else i64{ 0 - [experience_bps s] }) ;;
  Ok (clamp aligned 0 BPS).

Definition loss_profile (s : Actuary) (size ticker_net : Z) : outcome LossProfile :=
  q <- quantile_bps s INSOLVENCY_TARGET_BPS ;;
  let q1 := Z.max q 1 in
  ux <- unwind_exposure_x100 ;;
  lad <- i128{ q1 * ux / 100 } ;;
  let laddered := clamp lad 1 BPS in
  gap <- gap_quantile_bps s INSOLVENCY_TARGET_BPS ;;
  margin_bps <-
    (if gap <=? 0 then Ok laddered else
     sq0 <- i128{ laddered * laddered + gap * gap } ;;
     let sq := Z.min sq0 (imax i64) in
     r <- sqrt_x100 sq ;;
     Ok (clamp (Z.quot r 100) 1 BPS)) ;;
  let same_side := if ticker_net =? 0 then true
                   else Bool.eqb (0 <? ticker_net) (0 <=? size) in
  let capital_bps := if size =? 0 then 0
                     else if same_side then margin_bps else - margin_bps in
  trig <- i128{ margin_bps * LADDER_TRIGGER_BPS / BPS } ;;
  let trigger_bps := Z.max trig 1 in
  h <- hazard_bps trigger_bps s ;;
  l <- lgd_bps trigger_bps s ;;
  el <- i128{ h * l / TAIL_FINE } ;;
  let expected_loss_bps := cast i64 el in
  let long := 0 <=? size in
  adv <- adverse_bps s long ;;
  let premium_bps := sat i64 (expected_loss_bps + adv) in
  Ok (mkLossProfile margin_bps capital_bps expected_loss_bps premium_bps trigger_bps).

Definition margin_bps (s : Actuary) : outcome Z :=
  p <- loss_profile s 0 0 ;; Ok (lp_margin_bps p).

(** Signed funding rate, bps per year. *)
Definition funding_rate_bps (s : Actuary) : outcome Z :=
  let total := get_total s in
  if total <=? 0 then Ok 0 else
  let net := get_net s in
  m <- margin_bps s ;;
  k <- i64{ [sat i64 (m * REQUIRED_RETURN_BPS)] / BPS } ;;
  db <- i128{ total * FUNDING_DEADBAND_BPS / BPS } ;;
  let deadband := Z.max db 1 in
  v <- i128{ k * net / [Z.max (Z.abs net) deadband] } ;;
  Ok (cast i64 v).

Definition max_leverage_pct (s : Actuary) (slot util : Z) : outcome Z :=
  sig <- eff_sigma s ;;
  d <- i64{ slot - [last_price_slot s] } ;;
  let staleness := Z.max 0 d in
  if 3000 <? staleness then Ok 110 else
  k <- i64{ MAX_LEVERAGE_PCT * (BPS + 8 * STARTING_FLOOR_BPS) / BPS } ;;
  base <- i64{ k * BPS / (BPS + 8 * sig) } ;;
  sm <- staleness_mult s slot ;;
  sp <- i64{ (100 - sm) * base / 200 } ;;
  let stale_penalty := Z.max 0 sp in
  c <- confidence s ;;
  conf_penalty <- i64{ base * (100 - c) / 300 } ;;
  util_penalty <- (if 7500 <? util then i64{ base * (util - 7500) / 10000 } else Ok 0) ;;
  result <- i64{ base - stale_penalty - conf_penalty - util_penalty } ;;
  Ok (Z.max 110 (Z.min MAX_LEVERAGE_PCT result)).

(** The collar: expected shortfall of the tail, divided by leverage. *)
Definition collar_bps (lev : Z) (s : Actuary) : outcome Z :=
  sig <- eff_sigma s ;;
  if sig =? 0 then Ok STARTING_FLOOR_BPS else
  es <- (if 0 <? shortfall_bps s then Ok (shortfall_bps s)
         else expected_shortfall_bps s COLLAR_BREACH_BPS) ;;
  base <- (if 0 <? lev then i64{ es * 100 / lev } else Ok es) ;;
  Ok (Z.max sig (Z.min MAX_COLLAR_BPS base)).

(** The add/reduce x concentrate/offset fee matrix. *)
Definition compound_factor (exposure amount lev : Z) (s : Actuary) : outcome Z :=
  '(is_adding, is_hedging) <- classify s exposure amount ;;
  le <- i64{ lev - LEV_THRESHOLD } ;;
  let lev_excess := Z.max 0 le in
  imb <- imbalance_bps s ;;
  imb_abs <- abs_i64 imb ;;
  let imb_mag := Z.min BPS imb_abs in
  jump <- jump_regime s ;;
  match is_adding, is_hedging with
  | true, false =>
      penalty <- i64{ lev_excess * imb_mag / (BPS * 15) + lev_excess * jump / 400 } ;;
      v <- i64{ 100 + [Z.max 10 penalty] } ;; Ok (Z.min 300 v)
  | true, true =>
      penalty <- i64{ lev_excess * imb_mag / (BPS * 30) + lev_excess * jump / 600 } ;;
      v <- i64{ 100 + [Z.max 3 penalty] } ;; Ok (Z.min 200 v)
  | false, false =>
      penalty <- i64{ lev_excess * imb_mag / (BPS * 40) } ;;
      v <- i64{ 100 + penalty } ;; Ok (Z.min 150 v)
  | false, true =>
      discount <- i64{ lev_excess * imb_mag / (BPS * 50) } ;;
      v <- i64{ 100 - discount } ;; Ok (Z.max 70 v)
  end.

(** The inline square root of [fee_bps]. *)
Definition sqrt_frac (pool_frac : Z) : outcome Z :=
  y <- i64{ (pool_frac + 1) / 2 } ;;
  newton_loop newton_fuel pool_frac pool_frac y.

Definition momentum_mult (s : Actuary) (is_adding_risk : bool) : outcome Z :=
  if momentum_bps s <? 0 then
    let cascade_intensity := sat i64 (- momentum_bps s) in
    if is_adding_risk then
      v <- i64{ cascade_intensity / 15 } ;; i64{ 100 + [Z.min 150 v] }
    else
      v <- i64{ cascade_intensity / 333 } ;;
      w <- i64{ 100 - [Z.min 30 v] } ;; Ok (Z.max 70 w)
  else Ok 100.

Definition fee_bps (conc exposure amount : Z) (s : Actuary) (lev distance_bps : Z)
  : outcome Z :=
  sig <- eff_sigma s ;;
  if sig =? 0 then Ok MIN_FEE_BPS else
  am <- abs_i64 amount ;;
  ts <- i128{ am * lev / 100 } ;;
  let trade_size := cast i64 ts in
  if trade_size =? 0 then Ok MIN_FEE_BPS else
  tot <- i64{ [get_total s] + trade_size } ;;
  pf <- i64{ trade_size * BPS / [Z.max 1 tot] } ;;
  let pool_frac := Z.min BPS pf in
  sq <- sqrt_frac pool_frac ;;
  impact_mult <- i64{ 100 + sq * 50 / 100 } ;;
  imb <- imbalance_bps s ;;
  imb_abs <- abs_i64 imb ;;
  info_mult <- i64{ 100 + imb_abs * imb_abs / (BPS * 50) } ;;
  spread_bps <- i64{ sig * impact_mult * info_mult / (10000 * 150) } ;;
  '(is_adding_risk, _) <- classify s exposure amount ;;
  intensity <- hazard_bps distance_bps s ;;
  lev_fee <-
    (if is_adding_risk then
       f <- i64{ sig * lev / [Z.max 1 (MAX_LEVERAGE_PCT * 10)] } ;;
       g <- i64{ BPS + intensity } ;;
       i64{ [sat i64 (f * g)] / BPS }
     else Ok 0) ;;
  c300 <- i64{ conc / 300 } ;;
  let conc_bps := Z.max 2 c300 in
  collar <- collar_bps lev s ;;
  lgd <- lgd_bps collar s ;;
  gp <- i128{ intensity * lgd * MIN_HOLD_SECS / (BPS * SECONDS_PER_YEAR) } ;;
  let gap_bps := cast i64 gp in
  vel_bps <- i64{ [velocity s] * [velocity s] / 1000 } ;;
  base <- i64{ spread_bps + lev_fee + conc_bps + gap_bps + vel_bps } ;;
  cf <- compound_factor exposure amount lev s ;;
  mom_mult <- momentum_mult s is_adding_risk ;;
  total <- i64{ base * cf / 100 * mom_mult / 100 } ;;
  cap <- i64{ sig * lev / [Z.max 1 MAX_LEVERAGE_PCT] } ;;
  let dynamic_cap := Z.max 200 cap in
  Ok (Z.max MIN_FEE_BPS (Z.min dynamic_cap total)).

Definition crowding_bps (s : Actuary) (amount : Z) : outcome Z :=
  let net := get_net s in
  let total := get_total s in
  if (total <=? 0) || (amount =? 0) then Ok BPS else
  a <- abs_i64 net ;;
  l <- i64{ a * BPS / total } ;;
  let lean := Z.min l BPS in
  let same_side := ((0 <? net) && (0 <? amount)) || ((net <? 0) && (amount <? 0)) in
  if same_side then i64{ BPS + lean / 2 }
  else v <- i64{ BPS - lean / 2 } ;; Ok (Z.max (BPS / 2) v).

Definition solvency_bps (total_deposits max_liability : Z) : outcome Z :=
  if total_deposits =? 0 then i64{ 4 * BPS } else
  v <- u128{ max_liability * BPS / total_deposits } ;;
  let coverage := Z.min v (4 * BPS) in
  i64{ BPS + coverage }.

(** What the pool must reserve against one ticker's net book. *)
Definition ticker_reserve_dollars (net_value : Z) (s : Actuary) : outcome Z :=
  m0 <- margin_bps s ;;
  let m := cast u64 (Z.max m0 0) in
  v <- u128{ [sat u128 (net_value * m)] / BPS } ;;
  Ok (Z.min v (imax u64)).

Definition hazard_rate_bps (distance_bps collar amount : Z) (s : Actuary)
    (total_deposits max_liability : Z) : outcome Z :=
  intensity <- hazard_bps distance_bps s ;;
  lgd <- lgd_bps collar s ;;
  crowd <- crowding_bps s amount ;;
  solv <- solvency_bps total_deposits max_liability ;;
  scaled <- i128{ intensity * lgd * crowd * solv / (TAIL_FINE * BPS * BPS) } ;;
  Ok (clamp scaled 0 50000).

Definition rate_bps (util lev : Z) (s : Actuary) : outcome Z :=
  sig <- eff_sigma s ;;
  base <- i64{ sig * util / [Z.max 1 (BPS * BPS / 4000)] } ;;
  lev_norm <- i64{ lev * 100 / [Z.max 1 MAX_LEVERAGE_PCT] } ;;
  lev_adj <- (if 50 <? lev_norm then i64{ base * (lev_norm - 50) / 200 } else Ok 0) ;;
  t <- i64{ base + lev_adj } ;;
  Ok (Z.max MIN_FEE_BPS (Z.min 50000 t)).

(** ** One ticker's account *)
Record TickerRisk := mkTickerRisk {
  risk_ticker : list Z;      (* [u8; 8] *)
  actuary : Actuary;
  bump : Z;                  (* u8 *)
  funding_pot : Z;           (* u64 *)
  reserved : Z               (* u64 *)
}.

#[export] Instance eta_TickerRisk : Eta TickerRisk := fun r =>
  mkTickerRisk (risk_ticker r) (actuary r) (bump r) (funding_pot r) (reserved r).

(** What one position receives since its checkpoint, and the new checkpoint. *)
Definition funding_owed (r : TickerRisk) (signed_value checkpoint : Z) : outcome (Z * Z) :=
  let index := funding_index (actuary r) in
  if signed_value =? 0 then Ok (0, index) else
  let delta := sat i128 (index - checkpoint) in
  if delta =? 0 then Ok (0, index) else
  owed <- i128{ (0 - [sat i128 (signed_value * delta)]) / (BPS * SECONDS_PER_YEAR) } ;;
  Ok (clamp owed (imin i64) (imax i64), index).

(** * Theorems *)

Ltac quid_consts ::=
  unfold LIQ_GRACE_SECS, BPS, TAIL_FINE, SECONDS_PER_YEAR, MIN_HOLD_SECS,
    LADDER_WINDOW_SLOTS, NOISE_FLOOR_BPS, FUNDING_DEADBAND_BPS, TWAP_STEP_SLOTS,
    TWAP_RETAIN_BPS, GAP_MIN_SLOTS, MIN_TRANCHE_BPS, MAX_TRANCHE_BPS,
    TRANCHE_RAMP_GRACES, COLLAR_BREACH_BPS, MAX_COLLAR_BPS,
    MAX_TWAP_DEVIATION_BPS, STARTING_FLOOR_BPS, MAX_LEVERAGE_PCT, MIN_FEE_BPS,
    LEV_THRESHOLD, MAX_LEN, INSOLVENCY_TARGET_BPS, REQUIRED_RETURN_BPS,
    LADDER_TRIGGER_BPS in *.

(** ** Well-formed risk state

    [crowding_bps] multiplies the net exposure by [BPS] in 64 bits, which is
    where the bound on [net_exposure] comes from. *)
Definition MAX_NET : Z := 922337203685477.

Record wf_risk (s : Actuary) : Prop := {
  wr_tail : wf_tail s;
  wr_shortfall : 0 <= shortfall_bps s <= 2000000;
  wr_gap_vol : 0 <= gap_vol_bps s <= BPS;
  wr_gap_max : 0 <= gap_max_bps s <= BPS;
  wr_experience : - BPS <= experience_bps s <= BPS;
  wr_net : - MAX_NET <= net_exposure s <= MAX_NET;
  wr_total : in_range i64 (total_exposure s);
  wr_slot : 0 <= last_price_slot s <= imax i64
}.
#[export] Hint Resolve wr_tail wr_shortfall wr_gap_vol wr_gap_max wr_experience wr_net
  wr_total wr_slot : quid.

Lemma quot_bounds a b lo hi : 0 <= a -> 0 < b -> lo * b <= a -> a < (hi + 1) * b ->
  lo <= Z.quot a b <= hi.
Proof.
  intros. rewrite quot_div by lia. split; [apply Z.div_le_lower_bound; lia|].
  apply Z.lt_succ_r, Z.div_lt_upper_bound; lia.
Qed.

Lemma gap_quantile_total s p : wf_risk s -> 0 <= p < BPS ->
  wp (gap_quantile_bps s p) (fun g => 0 <= g <= BPS).
Proof.
  intros H Hp. pose proof (wr_gap_vol s H). pose proof (wr_gap_max s H).
  unfold gap_quantile_bps. wp_step; [wp_step; quid_consts; lia|].
  wp_call eff_sigma_total as sg Hsg; [eauto with quid|].
  wp_call quantile_total as q Hq; [eauto with quid|done|]. quid_consts.
  pose proof (quot_le_self (gap_vol_bps s * q) (Z.max sg 1)).
  pose proof (quot_le_self (gap_max_bps s) 2).
  wp_head. wp_step. wp_head. wp_step. wp_step.
  pose proof (clamp_range (Z.quot (gap_vol_bps s * q) (Z.max sg 1)) 0 10000). lia.
Qed.

Lemma hazard_total s d : wf_tail s -> d <= 1000000000000 ->
  wp (hazard_bps d s) (fun h => 0 <= h <= TAIL_FINE).
Proof.
  intros H Hd. unfold hazard_bps. wp_call tail_prob_fine_total as t Ht; [done|lia|].
  quid_consts. wp_head. wp_step. wp_step. lia.
Qed.

Lemma lgd_total s c : wf_tail s -> 0 <= c <= BPS ->
  wp (lgd_bps c s) (fun l => 1 <= l <= 730000).
Proof.
  intros H Hc. unfold lgd_bps, bounded_mean_excess_bps.
  assert (Hb : wp (overshoot <- mean_excess_bps s c ;;
      if net_exposure s <? 0 then
        left <- i64{ BPS - c } ;; Ok (Z.max 1 (Z.min overshoot (Z.max 0 left)))
      else Ok overshoot) (fun o => 1 <= o <= 730000)).
  { wp_call mean_excess_total as m Hm; [done|quid_consts; lia|]. quid_consts.
    wp_step; [wp_step; wp_step; wp_step; lia|wp_step; lia]. }
  wp_step. eapply wp_mono; [exact Hb|]. cbn beta. intros o Ho. quid_consts.
  wp_step. wp_step. wp_step.
  pose proof (quot_bounds (o * (10000 - Z.min 10000 185)) 10000 0 730000).
  wp_step. wp_step. lia.
Qed.

Lemma adverse_total s long : wf_risk s -> wp (adverse_bps s long) (fun v => 0 <= v <= BPS).
Proof.
  intros H. pose proof (wr_experience s H). unfold adverse_bps.
  assert (forall x, 0 <= clamp x 0 BPS <= BPS) by (intros; by apply clamp_range).
  destruct long; [by repeat wp_step|]. quid_consts. repeat wp_step. auto.
Qed.

Lemma unwind_exposure_value : unwind_exposure_x100 = Ok 519.
Proof. vm_compute. reflexivity. Qed.

(** What [loss_profile] promises. *)
Definition profile_ok (p : LossProfile) : Prop :=
  1 <= lp_margin_bps p <= BPS /\ 1 <= lp_trigger_bps p <= lp_margin_bps p /\
  lp_trigger_bps p <= BPS / 2 /\ Z.abs (lp_capital_bps p) <= lp_margin_bps p /\
  0 <= lp_expected_loss_bps p <= 730000 /\
  lp_expected_loss_bps p <= lp_premium_bps p <= lp_expected_loss_bps p + BPS.

(** The quadrature of the laddered and the gap margin. *)
Lemma combined_margin laddered gap : 1 <= laddered <= BPS -> 0 <= gap <= BPS ->
  wp (if gap <=? 0 then Ok laddered else
     sq0 <- i128{ laddered * laddered + gap * gap } ;;
     let sq := Z.min sq0 (imax i64) in
     r <- sqrt_x100 sq ;;
     Ok (clamp (Z.quot r 100) 1 BPS)) (fun m => 1 <= m <= BPS).
Proof.
  intros Hl Hg. quid_consts. wp_step; [by wp_step|]. wp_step. wp_step; try nia. cbv zeta.
  rewrite Z.min_l by (cbn; nia). rewrite sqrt_x100_eq by nia. wp_step. wp_step.
  by apply clamp_range.
Qed.

Lemma loss_profile_total s size net : wf_risk s -> wp (loss_profile s size net) profile_ok.
Proof.
  intros H. unfold loss_profile. rewrite unwind_exposure_value.
  wp_call quantile_total as q Hq; [eauto with quid|done|]. quid_consts.
  wp_go. wp_go.
  pose proof (clamp_range (Z.quot (Z.max q 1 * 519) 100) 1 10000 ltac:(lia)) as Hlad.
  set (laddered := clamp _ 1 10000) in *.
  wp_call gap_quantile_total as gap Hgap; [done|done|]. quid_consts.
  wp_call combined_margin as m Hm; [quid_consts; lia|quid_consts; lia|]. quid_consts.
  assert (Htrig : 0 <= Z.quot (m * 5000) 10000 <= 5000 /\ Z.quot (m * 5000) 10000 <= m).
  { rewrite quot_div by lia. split; [split; [apply Z.div_pos|apply Z.div_le_upper_bound]|
      apply Z.div_le_upper_bound]; lia. }
  wp_go. set (tr := Z.max (Z.quot (m * 5000) 10000) 1).
  wp_call hazard_total as h Hh; [eauto with quid|lia|]. quid_consts.
  wp_call lgd_total as l Hl; [eauto with quid|quid_consts; lia|].
  assert (Hel : 0 <= Z.quot (h * l) 100000000 <= 730000) by (apply quot_bounds; nia).
  wp_go. rewrite cast_id by (unfold_ints; lia).
  wp_call adverse_total as adv Hadv; [done|]. quid_consts.
  wp_go. rewrite sat_id by (unfold_ints; lia). unfold profile_ok; cbn. quid_consts.
  change (10000 / 2) with 5000.
  split_and!; repeat case_match; lia.
Qed.

Lemma margin_total s : wf_risk s -> wp (margin_bps s) (fun m => 1 <= m <= BPS).
Proof.
  intros H. unfold margin_bps. wp_call loss_profile_total as p Hp; [done|].
  wp_step. apply Hp.
Qed.

Lemma collar_total s lev : wf_risk s -> 0 <= lev <= imax i64 ->
  wp (collar_bps lev s) (fun c => 1 <= c <= BPS).
Proof.
  intros H Hl. pose proof (wr_shortfall s H). unfold collar_bps.
  wp_call eff_sigma_total as sg Hsg; [eauto with quid|]. unfold_ints. quid_consts.
  wp_step; [wp_step; lia|]. apply Z.eqb_neq in H1.
  wp_step.
  assert (Hes : wp (if 0 <? shortfall_bps s then Ok (shortfall_bps s)
                    else expected_shortfall_bps s 100) (fun e => 0 <= e <= 2000000)).
  { wp_step; [wp_step; lia|]. eapply wp_mono; [apply expected_shortfall_total;
      [eauto with quid|quid_consts; lia]|]. cbn. lia. }
  eapply wp_mono; [exact Hes|]. cbn beta. intros es He. wp_step.
  apply (wp_mono _ (fun base => 0 <= base)); [|intros; wp_step; lia].
  wp_step; [|wp_step; lia]. apply Z.ltb_lt in H2.
  pose proof (quot_le_self (es * 100) lev). wp_step. lia.
Qed.

Lemma crowding_total s amount : wf_risk s ->
  wp (crowding_bps s amount) (fun c => BPS / 2 <= c <= 3 * BPS / 2).
Proof.
  intros H. pose proof (wr_net s H). pose proof (wr_total s H). unfold MAX_NET in *.
  unfold crowding_bps, get_net, get_total. change (BPS / 2) with 5000. change (3 * BPS / 2) with 15000.
  quid_consts. wp_step; [wp_step; lia|]. apply orb_false_iff in H2 as [Ht _]. apply Z.leb_gt in Ht.
  unfold abs_i64. rewrite chk_ok by (unfold_ints; lia). wp_step. wp_step. unfold_ints.
  pose proof (quot_le_self (Z.abs (net_exposure s) * 10000) (total_exposure s)).
  wp_step. wp_step. set (lean := Z.min _ 10000).
  assert (Hlean : 0 <= Z.quot lean 2 <= 5000) by (apply quot_bounds; lia).
  wp_step; [wp_step; lia|]. wp_step. wp_step. wp_step. lia.
Qed.

Lemma solvency_total dep liab : in_range u64 dep -> in_range u64 liab ->
  wp (solvency_bps dep liab) (fun v => BPS <= v <= 5 * BPS).
Proof.
  intros Hd Hl. unfold solvency_bps. unfold_ints. quid_consts.
  wp_step; [wp_step; lia|]. apply Z.eqb_neq in H.
  pose proof (quot_le_self (liab * 10000) dep). wp_step. wp_step. wp_step. lia.
Qed.

Lemma hazard_rate_total s distance collar amount dep liab : wf_risk s ->
  distance <= 1000000000000 -> 0 <= collar <= BPS -> in_range u64 dep -> in_range u64 liab ->
  wp (hazard_rate_bps distance collar amount s dep liab) (fun v => 0 <= v <= 50000).
Proof.
  intros H Hd Hc Hdep Hl. unfold hazard_rate_bps.
  wp_call hazard_total as h Hh; [eauto with quid|done|].
  wp_call lgd_total as l Hlg; [eauto with quid|done|].
  wp_call crowding_total as c Hcr; [done|].
  wp_call solvency_total as v Hv; [done|done|].
  change (BPS / 2) with 5000 in Hcr. change (3 * BPS / 2) with 15000 in Hcr. quid_consts.
  assert (0 <= h * l <= 100000000 * 730000) by nia.
  assert (0 <= h * l * c <= 100000000 * 730000 * 15000) by nia.
  assert (0 <= h * l * c * v <= 100000000 * 730000 * 15000 * 50000) by nia.
  pose proof (quot_le_self (h * l * c * v) (100000000 * 10000 * 10000)).
  wp_head. wp_step. wp_step. by apply clamp_range.
Qed.

Lemma confidence_total s : wf_tail s -> wp (confidence s) (fun c => 0 <= c <= 98).
Proof.
  intros H. pose proof (wf_obs s H). unfold confidence.
  assert (0 <= Z.quot (obs_count s * 100) (obs_count s + 10) <= 98) by (apply quot_bounds; lia).
  by wp_go.
Qed.

Lemma staleness_total s slot : 0 <= last_price_slot s <= imax i64 -> 0 <= slot <= imax i64 ->
  wp (staleness_mult s slot) (fun v => 50 <= v <= 100).
Proof.
  intros Hl Hs. unfold staleness_mult. unfold_ints. wp_go.
  wp_step; [|wp_step; lia]. wp_go. wp_go. quot_facts. lia.
Qed.

Lemma max_leverage_total s slot util : wf_risk s -> 0 <= slot <= imax i64 ->
  0 <= util <= 1000000000000 ->
  wp (max_leverage_pct s slot util) (fun v => 110 <= v <= MAX_LEVERAGE_PCT).
Proof.
  intros H Hs Hu. pose proof (wr_slot s H). unfold max_leverage_pct. quid_consts.
  wp_call eff_sigma_total as sg Hsg; [eauto with quid|]. quid_consts. unfold_ints.
  wp_go. wp_step; [wp_step; lia|]. wp_go.
  change (Z.quot (1000 * (10000 + 8 * 200)) 10000) with 1160.
  assert (0 <= Z.quot (1160 * 10000) (10000 + 8 * sg) <= 1160) by (apply quot_bounds; lia).
  wp_go. set (base := Z.quot (1160 * 10000) (10000 + 8 * sg)) in *.
  wp_call staleness_total as sm Hsm; [cbn; lia|cbn; lia|].
  assert (0 <= Z.quot ((100 - sm) * base) 200 <= 1160) by (apply quot_bounds; nia).
  wp_go. wp_call confidence_total as c Hc; [eauto with quid|].
  assert (0 <= Z.quot (base * (100 - c)) 300 <= 1160) by (apply quot_bounds; nia).
  wp_go. wp_head.
  apply (wp_mono _ (fun p => 0 <= p <= 1160 * util)).
  { apply wp_if; intros Hx; [apply Z.ltb_lt in Hx|wp_step; lia].
    assert (0 <= base * (util - 7500) <= 1160 * util) by nia. wp_go. quot_facts. lia. }
  intros up Hup. wp_go. wp_go. lia.
Qed.

Lemma rate_total s util lev : wf_tail s -> 0 <= util <= 1000000000 -> 0 <= lev <= 1000000 ->
  wp (rate_bps util lev s) (fun r => MIN_FEE_BPS <= r <= 50000).
Proof.
  intros H Hu Hl. unfold rate_bps. wp_call eff_sigma_total as sg Hsg; [done|]. quid_consts.
  change (Z.max 1 (10000 * 10000 / 4000)) with 25000. change (Z.max 1 1000) with 1000.
  wp_go. wp_go. set (base := Z.quot (sg * util) 25000) in *.
  assert (Hb : 0 <= base <= 400000000) by (apply quot_bounds; nia).
  set (ln := Z.quot (lev * 100) 1000) in *. assert (Hln : 0 <= ln <= 100000) by (apply quot_bounds; nia).
  wp_head. apply (wp_mono _ (fun p => 0 <= p <= 400000000 * 100000)).
  { apply wp_if; intros Hx; [apply Z.ltb_lt in Hx|wp_step; lia].
    assert (0 <= base * (ln - 50) <= 400000000 * 100000) by nia.
    wp_go. quot_facts. lia. }
  intros adj Hadj. wp_go. wp_go. lia.
Qed.

(** ** The interface the position engine relies on *)
Class RiskLaws (a : Actuary) : Prop := {
  law_collar : forall lev, 0 <= lev <= imax i64 -> wp (collar_bps lev a) (fun c => 1 <= c <= BPS);
  law_profile : forall size net, wp (loss_profile a size net) profile_ok;
  law_hazard : forall distance collar amount dep liab,
    distance <= 1000000000000 -> 0 <= collar <= BPS -> in_range u64 dep -> in_range u64 liab ->
    wp (hazard_rate_bps distance collar amount a dep liab) (fun v => 0 <= v <= 50000);
  law_leverage : forall slot util, 0 <= slot <= imax i64 -> 0 <= util <= 1000000000000 ->
    wp (max_leverage_pct a slot util) (fun v => 110 <= v <= MAX_LEVERAGE_PCT)
}.

Lemma wf_risk_laws a : wf_risk a -> RiskLaws a.
Proof.
  intros H. constructor; eauto using collar_total, loss_profile_total, hazard_rate_total,
    max_leverage_total.
Qed.

Lemma sample_risk_wf : wf_risk sample_actuary.
Proof. constructor; [apply sample_wf | ..]; vm_compute; split; discriminate. Qed.

#[export] Instance sample_laws : RiskLaws sample_actuary := wf_risk_laws _ sample_risk_wf.

(** ** Properties *)

(** The margin is a function of the fitted tail alone. *)
Lemma profile_margin s size net size' net' p p' :
  loss_profile s size net = Ok p -> loss_profile s size' net' = Ok p' ->
  lp_margin_bps p = lp_margin_bps p' /\ lp_trigger_bps p = lp_trigger_bps p' /\
  lp_expected_loss_bps p = lp_expected_loss_bps p'.
Proof.
  unfold loss_profile. intros H H'.
  repeat (apply bind_ok in H as (? & ?E & H); rewrite E in H'; cbn [bind] in H'; clear E).
  apply bind_ok in H as (? & _ & H). apply bind_ok in H' as (? & _ & H').
  injection H as <-. injection H' as <-. done.
Qed.

(** One fitted tail prices every position.  On a well-formed ticker the loss
    profile of any position exists; the liquidation trigger lies between one
    basis point and half of the full range and never beyond the margin, the
    margin never exceeds the notional, neither depends on the size, side or book
    it is asked for, and the premium is the expected loss plus a loading of at
    most 100%. *)
Theorem loss_profile_sound s size net size' net' : wf_risk s ->
  exists p p', loss_profile s size net = Ok p /\ loss_profile s size' net' = Ok p' /\
    1 <= lp_trigger_bps p <= lp_margin_bps p /\ lp_margin_bps p <= BPS /\
    lp_trigger_bps p <= BPS / 2 /\
    lp_margin_bps p = lp_margin_bps p' /\ lp_trigger_bps p = lp_trigger_bps p' /\
    0 <= lp_expected_loss_bps p <= lp_premium_bps p /\
    lp_premium_bps p <= lp_expected_loss_bps p + BPS.
Proof.
  intros H. destruct (wp_elim _ _ (loss_profile_total s size net H)) as (p & Hp & Hok).
  destruct (wp_elim _ _ (loss_profile_total s size' net' H)) as (p' & Hp' & _).
  destruct (profile_margin _ _ _ _ _ _ _ Hp Hp') as (? & ? & _).
  destruct Hok as (? & ? & ? & _ & ? & ?). exists p, p'. split_and!; try done; lia.
Qed.

Lemma loss_profile_sound_witness :
  (exists p, loss_profile sample_actuary 7000000 5000000000 = Ok p /\
     lp_margin_bps p = 3186 /\ lp_trigger_bps p = 1593) /\
  exists p p', loss_profile sample_actuary 7000000 5000000000 = Ok p /\
    loss_profile sample_actuary (-7000000) 5000000000 = Ok p' /\
    lp_margin_bps p = lp_margin_bps p'.
Proof.
  split; [eexists; vm_compute; repeat split|].
  destruct (loss_profile_sound sample_actuary 7000000 5000000000 (-7000000) 5000000000 sample_risk_wf)
    as (p & p' & ? & ? & _ & _ & _ & ? & _).
  exists p, p'. auto.
Defined.

(** The collar as a function of sigma, shortfall and leverage. *)
Definition collar_of (sg es lev : Z) : Z :=
  if sg =? 0 then STARTING_FLOOR_BPS
  else Z.max sg (Z.min MAX_COLLAR_BPS (if 0 <? lev then es * 100 / lev else es)).

Lemma collar_closed s : wf_risk s -> exists sg es, eff_sigma s = Ok sg /\
  0 <= sg <= BPS /\ 0 <= es <= 2000000 /\
  forall lev, 0 <= lev <= imax i64 -> collar_bps lev s = Ok (collar_of sg es lev).
Proof.
  intros H. pose proof (wr_shortfall s H).
  destruct (wp_elim _ _ (eff_sigma_total s (wr_tail s H))) as (sg & Hs & Hsg & _).
  destruct (wp_elim _ _ (expected_shortfall_total s COLLAR_BREACH_BPS (wr_tail s H) ltac:(done)))
    as (es0 & Hes & Hb).
  exists sg, (if 0 <? shortfall_bps s then shortfall_bps s else es0).
  split_and!; try done; try lia; try (case_match; lia).
  intros lev Hl. unfold collar_bps, collar_of. rewrite Hs. cbn [bind]. case_match; [done|].
  replace (if 0 <? shortfall_bps s then Ok (shortfall_bps s)
           else expected_shortfall_bps s COLLAR_BREACH_BPS)
    with (Ok (if 0 <? shortfall_bps s then shortfall_bps s else es0))
    by (case_match; congruence).
  cbn [bind]. set (es := if 0 <? shortfall_bps s then _ else _).
  assert (0 <= es <= 2000000) by (unfold es; case_match; lia).
  destruct (Z.ltb_spec 0 lev); [|done].
  rewrite eval_safe by (unfold_ints; arith_side). cbn [bind value aop_fun].
  by rewrite quot_div by lia.
Qed.

(** The collar narrows with leverage.  On a well-formed ticker [collar_bps]
    returns for every leverage; it is at least the effective volatility, at most
    the larger of that and [MAX_COLLAR_BPS], and more leverage never widens it. *)
Theorem collar_antitone s lev lev' : wf_risk s -> 0 < lev <= lev' -> lev' <= imax i64 ->
  exists sg c c', eff_sigma s = Ok sg /\ collar_bps lev s = Ok c /\
    collar_bps lev' s = Ok c' /\ c' <= c /\ 1 <= c' /\ sg <= c' /\
    c <= Z.max sg MAX_COLLAR_BPS.
Proof.
  intros H Hl Hm. destruct (collar_closed s H) as (sg & es & Hs & Hsg & Hes & Hc).
  exists sg, (collar_of sg es lev), (collar_of sg es lev').
  rewrite !Hc by lia. unfold collar_of. quid_consts.
  assert (es * 100 / lev' <= es * 100 / lev) by (apply Z.div_le_compat_l; lia).
  rewrite !(proj2 (Z.ltb_lt 0 _)) by lia. split_and!; try done; case_match; lia.
Qed.

Lemma collar_antitone_witness :
  collar_bps 100 sample_actuary = Ok 788 /\ collar_bps 900 sample_actuary = Ok 190 /\
  exists sg c c', eff_sigma sample_actuary = Ok sg /\ collar_bps 100 sample_actuary = Ok c /\
    collar_bps 900 sample_actuary = Ok c' /\ c' <= c.
Proof.
  split; [vm_compute; reflexivity|]. split; [vm_compute; reflexivity|].
  destruct (collar_antitone sample_actuary 100 900 sample_risk_wf) as (sg & c & c' & ? & ? & ? & ? & _);
    [lia | vm_compute; discriminate |].
  exists sg, c, c'. auto.
Defined.

(** Breach intensity never rises with distance. *)
Lemma hazard_anti s d d' : wf_tail s -> d <= d' <= 1000000000000 ->
  exists h h', hazard_bps d s = Ok h /\ hazard_bps d' s = Ok h' /\ 0 <= h' <= h /\ h <= TAIL_FINE.
Proof.
  intros H Hd. destruct (fit_total s H)
    as (n & beta & u & zeta & sg & Hg & Hu & Hz & _ & Hok & Hur & Hzr & _ & _).
  assert (Hh : forall x, x <= 1000000000000 ->
    hazard_bps x s = Ok (Z.min TAIL_FINE (2 * tail_fine n beta u zeta (Z.max 0 x)))).
  { intros x Hx. unfold hazard_bps, tail_prob_fine. rewrite Hg. cbn [bind].
    rewrite Hu, Hz. cbn [bind]. rewrite tail_at_fine_eq by (try done; lia). cbn [bind].
    pose proof (tail_fine_range n beta u zeta Hok Hur Hzr (Z.max 0 x)). quid_consts.
    by rewrite eval_safe by arith_side. }
  rewrite !Hh by lia. do 2 eexists. split_and!; try reflexivity.
  all: pose proof (tail_fine_anti n beta u zeta Hok Hur Hzr (Z.max 0 d) (Z.max 0 d'));
    pose proof (tail_fine_range n beta u zeta Hok Hur Hzr (Z.max 0 d)); 
    pose proof (tail_fine_range n beta u zeta Hok Hur Hzr (Z.max 0 d')); lia.
Qed.

Lemma clamp_mono x y lo hi : lo <= hi -> x <= y -> clamp x lo hi <= clamp y lo hi.
Proof. unfold clamp. intros. repeat case_match; lia. Qed.

(** Moneyness.  Everything else equal, the running premium rate of a position
    never falls as it moves closer to its barrier, and it always lies between 0
    and 500% a year. *)
Theorem hazard_rate_antitone s d d' collar amount dep liab : wf_risk s ->
  d <= d' <= 1000000000000 -> 0 <= collar <= BPS -> in_range u64 dep -> in_range u64 liab ->
  exists r r', hazard_rate_bps d collar amount s dep liab = Ok r /\
    hazard_rate_bps d' collar amount s dep liab = Ok r' /\ 0 <= r' <= r /\ r <= 50000.
Proof.
  intros H Hd Hc Hdep Hl.
  destruct (hazard_anti s d d' (wr_tail s H) Hd) as (h & h' & Hh & Hh' & Hle & Hmax).
  destruct (wp_elim _ _ (lgd_total s collar (wr_tail s H) Hc)) as (l & Hlg & Hlb).
  destruct (wp_elim _ _ (crowding_total s amount H)) as (c & Hcr & Hcb).
  destruct (wp_elim _ _ (solvency_total dep liab Hdep Hl)) as (v & Hv & Hvb).
  change (BPS / 2) with 5000 in Hcb. change (3 * BPS / 2) with 15000 in Hcb.
  unfold hazard_rate_bps. rewrite Hh, Hh'. cbn [bind]. rewrite Hlg, Hcr, Hv. cbn [bind]. quid_consts.
  assert (Hm : forall x, 0 <= x <= 100000000 -> 0 <= x * l <= 73000000000000 /\
     0 <= x * l * c <= 73000000000000 * 15000 /\ 0 <= x * l * c * v <= 73000000000000 * 15000 * 50000).
  { intros x Hx. assert (0 <= x * l <= 73000000000000) by nia. set (y := x * l) in *.
    assert (0 <= y * c <= 73000000000000 * 15000) by nia. set (z := y * c) in *.
    split_and!; nia. }
  pose proof (Hm h ltac:(lia)) as (? & ? & ?). pose proof (Hm h' ltac:(lia)) as (? & ? & ?).
  rewrite !eval_safe by arith_side. cbn [bind value aop_fun].
  do 2 eexists. split_and!; try reflexivity.
  - apply clamp_range. lia.
  - apply clamp_mono; [lia|]. apply Z.quot_le_mono; [lia|]. nia.
  - apply clamp_range. lia.
Qed.

Lemma hazard_rate_antitone_witness :
  hazard_rate_bps 50 300 1 sample_actuary 1000000 200000 = Ok 219 /\
  exists r r', hazard_rate_bps 50 300 1 sample_actuary 1000000 200000 = Ok r /\
    hazard_rate_bps 900 300 1 sample_actuary 1000000 200000 = Ok r' /\ 0 <= r' <= r.
Proof.
  split; [vm_compute; reflexivity|].
  destruct (hazard_rate_antitone sample_actuary 50 900 300 1 1000000 200000 sample_risk_wf)
    as (r & r' & ? & ? & ? & _).
  1-4: vm_compute; split; discriminate.
  exists r, r'. auto.
Defined.

(** ** Funding *)

(** The margin alone, as a function of the two tails. *)
Definition margin_core (s : Actuary) : outcome Z :=
  q <- quantile_bps s INSOLVENCY_TARGET_BPS ;;
  ux <- unwind_exposure_x100 ;;
  lad <- i128{ [Z.max q 1] * ux / 100 } ;;
  let laddered := clamp lad 1 BPS in
  gap <- gap_quantile_bps s INSOLVENCY_TARGET_BPS ;;
  if gap <=? 0 then Ok laddered else
  sq0 <- i128{ laddered * laddered + gap * gap } ;;
  r <- sqrt_x100 (Z.min sq0 (imax i64)) ;;
  Ok (clamp (Z.quot r 100) 1 BPS).

Lemma profile_margin_core s size net p :
  loss_profile s size net = Ok p -> margin_core s = Ok (lp_margin_bps p).
Proof.
  unfold loss_profile, margin_core. intros H.
  do 4 (apply bind_ok in H as (? & E & H); rewrite E; cbn [bind]; clear E).
  apply bind_ok in H as (? & E & H). cbv zeta in E. rewrite E. repeat (apply bind_ok in H as (? & _ & H)). by injection H as <-.
Qed.

Lemma margin_core_total s : wf_risk s ->
  exists m, margin_bps s = Ok m /\ margin_core s = Ok m /\ 1 <= m <= BPS.
Proof.
  intros H. destruct (wp_elim _ _ (loss_profile_total s 0 0 H)) as (p & Hp & Hok & _).
  exists (lp_margin_bps p). unfold margin_bps. rewrite Hp.
  split_and!; try done; try apply Hok. by apply (profile_margin_core s 0 0).
Qed.

Lemma funding_mirror s : wf_risk s -> exists m f,
  margin_bps s = Ok m /\ funding_rate_bps s = Ok f /\
  funding_rate_bps (s <| net_exposure := - net_exposure s |>) = Ok (- f) /\
  0 <= f * net_exposure s /\ Z.abs f <= m * REQUIRED_RETURN_BPS / BPS /\
  (total_exposure s <= 0 -> f = 0).
Proof.
  intros H. destruct (margin_core_total s H) as (m & Hm & Hcore & Hr).
  set (s' := s <| net_exposure := - net_exposure s |>).
  assert (H' : wf_risk s').
  { destruct H as [Ht ? ? ? ? ? ? ?]. constructor; try done; [destruct Ht; by constructor|].
    cbn. lia. }
  destruct (margin_core_total s' H') as (m' & Hm' & Hcore' & _).
  assert (m' = m) as -> by (assert (margin_core s' = margin_core s) by done; congruence).
  exists m. pose proof (wr_net s H). pose proof (wr_total s H). unfold MAX_NET in *.
  unfold funding_rate_bps. rewrite Hm, Hm'. unfold get_total, get_net.
  change (total_exposure s') with (total_exposure s).
  change (net_exposure s') with (- net_exposure s).
  destruct (Z.leb_spec (total_exposure s) 0) as [|Htot].
  { exists 0. split_and!; try done; try lia. quid_consts. apply Z.div_pos; lia. }
  cbn [bind]. set (net := net_exposure s) in *. set (T := total_exposure s) in *. quid_consts.
  rewrite sat_id by (unfold_ints; lia).
  assert (Hk : 0 <= Z.quot (m * 1500) 10000 <= 1500) by (apply quot_bounds; lia).
  rewrite eval_safe by (unfold_ints; arith_side). cbn [bind value aop_fun].
  rewrite eval_safe by (unfold_ints; arith_side). cbn [bind value aop_fun].
  set (k := Z.quot (m * 1500) 10000) in *. rewrite Z.abs_opp.
  set (den := Z.max (Z.abs net) (Z.max (Z.quot (T * 500) 10000) 1)).
  assert (Hq : Z.abs (Z.quot (k * net) den) <= k).
  { rewrite <- Z.quot_abs by lia. rewrite Z.abs_mul, (Z.abs_eq k), (Z.abs_eq den) by lia.
    rewrite quot_div by lia. apply Z.div_le_upper_bound; [lia|]. nia. }
  assert (Hneg : Z.quot (k * - net) den = - Z.quot (k * net) den).
  { rewrite Z.mul_opp_r. apply Z.quot_opp_l. lia. }
  assert (Hkn : Z.abs (k * net) <= 1500 * 922337203685477) by nia.
  rewrite !eval_safe; [|cbn [safe value aop_fun]; rewrite ?Hneg; unfold_ints; lia ..].
  cbn [bind value aop_fun]. rewrite Hneg, !cast_id by (unfold_ints; lia).
  exists (Z.quot (k * net) den). split_and!; try done; try lia.
  - destruct (Z.le_gt_cases 0 net).
    + pose proof (Z.quot_pos (k * net) den). nia.
    + pose proof (Z.quot_pos (k * - net) den). nia.
  - assert (k = m * 1500 / 10000) by (apply quot_div; lia). lia.
Qed.

Lemma funding_total s : wf_risk s -> wp (funding_rate_bps s) (fun f => Z.abs f <= 1500).
Proof.
  intros H. destruct (funding_mirror s H) as (m & f & Hm & Hf & _ & _ & Hb & _).
  rewrite Hf. cbn. pose proof (wp_elim _ _ (margin_total s H)) as (m' & Hm' & Hr).
  rewrite Hm in Hm'. injection Hm' as <-. quid_consts.
  assert (m * 1500 / 10000 <= 1500) by (apply Z.div_le_upper_bound; lia). lia.
Qed.

(** Funding is antisymmetric and leans against the book.  The rate exists on
    every well-formed ticker, has the sign of the net exposure (longs pay when
    the book leans long), never exceeds the required return on the margin, is
    zero on an empty book, and mirroring the book negates it exactly — whatever
    one side pays the other is owed. *)
Theorem funding_antisymmetric s : wf_risk s -> exists m f,
  margin_bps s = Ok m /\ funding_rate_bps s = Ok f /\
  funding_rate_bps (s <| net_exposure := - net_exposure s |>) = Ok (- f) /\
  0 <= f * net_exposure s /\ Z.abs f <= m * REQUIRED_RETURN_BPS / BPS /\
  (total_exposure s <= 0 -> f = 0).
Proof. apply funding_mirror. Qed.

Lemma funding_antisymmetric_witness :
  funding_rate_bps sample_actuary = Ok 477 /\
  exists f, funding_rate_bps sample_actuary = Ok f /\
    funding_rate_bps (sample_actuary <| net_exposure := - net_exposure sample_actuary |>) = Ok (- f).
Proof.
  split; [vm_compute; reflexivity|].
  destruct (funding_antisymmetric sample_actuary sample_risk_wf) as (m & f & _ & ? & ? & _).
  exists f. auto.
Defined.
