(* ===== verification/Learning.v ===== *)
(** * Learning: how a ticker's state moves

    [svm/programs/quid/src/etc.rs]: the operations that mutate an [Actuary] — the
    premium and funding integrals, the price update (bootstrap, re-mark, gap
    path, session sample, fading memories, TWAP) and the recording of trades and
    outcomes.  [update_price] is split along its own sections and recomposed. *)
From S2P Require Import Prelude Actuary Pricing.

(** ** The premium and funding integrals *)
Definition accrue_premium_index (s : Actuary) (now util_bps : Z) : outcome Actuary :=
  if index_updated s =? 0 then Ok (s <| index_updated := now |>) else
  d <- i64{ now - [index_updated s] } ;;
  let dt := Z.max d 0 in
  if dt =? 0 then Ok s else
  r <- rate_bps util_bps 100 s ;;
  let base := cast u128 r in
  f <- funding_rate_bps s ;;
  fi <- i128{ f * dt } ;;
  Ok (s <| premium_index := sat u128 (premium_index s + sat u128 (base * dt)) |>
        <| funding_index := sat i128 (funding_index s + fi) |>
        <| index_updated := now |>).

(** ** Fading memories: five percent or ten bps a step, down to a floor *)
Definition fade_step (floor dd : Z) : outcome Z :=
  v <- i64{ dd - [Z.max 10 (Z.quot dd 20)] } ;; Ok (Z.max floor v).

Fixpoint fade_loop (steps : nat) (floor dd : Z) : outcome Z :=
  match steps with
  | O => Ok dd
  | S k =>
      dd <- fade_step floor dd ;;
      if dd <=? floor then Ok dd else fade_loop k floor dd
  end.

Definition fade_drawdown (s : Actuary) (dt : Z) : outcome Actuary :=
  vf <- vol_floor s ;;
  f1 <- i64{ vf * 2 } ;;
  f2 <- i64{ [observed_vol_bps s] * 2 } ;;
  let floor := Z.max f1 f2 in
  if (dt <=? 2000) || (max_drawdown_bps s <=? floor) then Ok s else
  st <- i64{ dt / 2000 } ;;
  dd <- fade_loop (Z.to_nat (Z.min 128 st)) floor (max_drawdown_bps s) ;;
  Ok (s <| max_drawdown_bps := dd |>).

(** ** Across-the-close moves *)
Definition observe_gap (s : Actuary) (change dt : Z) : outcome Actuary :=
  n <- i64{ [gap_count s] + 1 } ;;
  let s := s <| gap_count := Z.min 500 n |> in
  let alpha := if gap_count s <? 10 then 40 else 12 in
  v <- (if gap_vol_bps s =? 0 then Ok change
        else i64{ ([gap_vol_bps s] * (100 - alpha) + change * alpha) / 100 }) ;;
  let s := s <| gap_vol_bps := v |> in
  if gap_max_bps s <? change then Ok (s <| gap_max_bps := Z.min BPS change |>) else
  floor <- i64{ [gap_vol_bps s] * 2 } ;;
  if floor <? gap_max_bps s then
    st <- i64{ dt / GAP_MIN_SLOTS } ;;
    g <- fade_loop (Z.to_nat (Z.min 128 st)) floor (gap_max_bps s) ;;
    Ok (s <| gap_max_bps := g |>)
  else Ok s.

(** ** [update_price], section by section *)

(** The first print of a ticker. *)
Definition bootstrap (s : Actuary) (price slot : Z) : outcome Actuary :=
  let s := s <| last_price := price |> <| last_price_slot := slot |>
             <| twap_price := price |> <| last_trade_slot := slot |> in
  floor <- vol_floor s ;;
  dd <- i64{ floor * 2 } ;;
  n <- i64{ [obs_count s] + 1 } ;;
  let s := s <| observed_vol_bps := floor |> <| max_drawdown_bps := dd |>
             <| obs_count := Z.min 500 n |> in
  es <- expected_shortfall_bps s COLLAR_BREACH_BPS ;;
  Ok (s <| shortfall_bps := es |>).

Definition scale_exposure (v price old : Z) : outcome Z :=
  x <- i128{ v * price / old } ;; Ok (clamp x (imin i64) (imax i64)).

(** The book follows the price. *)
Definition remark_book (s : Actuary) (price : Z) : outcome Actuary :=
  let old := last_price s in
  if (0 <? old) && (0 <? price) && negb (price =? old) then
    n <- scale_exposure (net_exposure s) price old ;;
    t <- scale_exposure (total_exposure s) price old ;;
    Ok (s <| net_exposure := n |> <| total_exposure := Z.max t 0 |>)
  else Ok s.

(** [|p1 - p0| / max(p0, p1)] in bps. *)
Definition move_bps (price ref : Z) : outcome Z :=
  d <- i64{ price - ref } ;;
  a <- abs_i64 d ;;
  v <- i128{ a * BPS / [Z.max 1 (Z.max ref price)] } ;;
  Ok (cast i64 v).

Definition decay_counts (s : Actuary) (dt : Z) : outcome Actuary :=
  j <- i64{ [jump_count s] - dt / 1000 } ;;
  v <- i64{ [velocity s] - dt / 500 * 10 } ;;
  Ok (s <| jump_count := Z.max 0 j |> <| velocity := Z.max 0 v |>).

(** A move across a closed market. *)
Definition update_gap (s : Actuary) (price slot raw_change dt vf : Z) : outcome Actuary :=
  s <- observe_gap s raw_change dt ;;
  let s := if max_drawdown_bps s <? raw_change
           then s <| max_drawdown_bps := Z.min 5000 raw_change |> else s in
  s <- fade_drawdown s dt ;;
  let s := s <| last_price := price |> <| last_price_slot := slot |>
             <| window_ref_price := price |> <| window_since := slot |> in
  s <- decay_counts s dt ;;
  a <- twap_alpha_bps dt ;;
  tw <- i128{ ([twap_price s] * (BPS - a) + price * a) / BPS } ;;
  let s := s <| twap_price := cast i64 tw |> in
  q <- qualifies_gap raw_change vf ;;
  if (q : bool) then n <- i64{ [obs_count s] + 1 } ;; Ok (s <| obs_count := Z.min 500 n |>)
  else Ok s.

(** Opening the window; jumps and drawdowns of a single print. *)
Definition observe_print (s : Actuary) (old raw_change : Z) : outcome Actuary :=
  let s := if window_ref_price s =? 0
           then s <| window_ref_price := old |> <| window_since := last_price_slot s |> else s in
  if 0 <? observed_vol_bps s then
    t <- i64{ [observed_vol_bps s] * 3 } ;;
    s <- (if t <? raw_change then
            n <- i64{ [jump_count s] + 1 } ;; Ok (s <| jump_count := Z.min 20 n |>)
          else Ok s) ;;
    Ok (if max_drawdown_bps s <? raw_change
        then s <| max_drawdown_bps := Z.min 5000 raw_change |> else s)
  else Ok s.

(** One sample per closed window: (state, sampled, change, fell). *)
Definition sample_window (s : Actuary) (price slot : Z)
  : outcome (Actuary * bool * Z * bool) :=
  let elapsed := sat i64 (slot - window_since s) in
  if LADDER_WINDOW_SLOTS <=? elapsed then
    let refp := window_ref_price s in
    c <- move_bps price refp ;;
    c <- (if LADDER_WINDOW_SLOTS <? elapsed then
            x <- i64{ LADDER_WINDOW_SLOTS * 10000 / elapsed } ;;
            r <- sqrt_x100 x ;;
            v <- i128{ c * r / 10000 } ;; Ok (cast i64 v)
          else Ok c) ;;
    Ok (s <| window_ref_price := price |> <| window_since := slot |>,
        true, clamp c 0 BPS, price <? refp)
  else Ok (s, false, 0, false).

(** Peaks over threshold. *)
Definition record_excess (s : Actuary) (change : Z) : outcome Actuary :=
  u <- pot_threshold s ;;
  if u <? change then
    excess <- i64{ change - u } ;;
    sq <- i128{ excess * excess } ;;
    Ok (s <| exceed_count := sat i64 (exceed_count s + 1) |>
          <| exceed_sum := sat i64 (exceed_sum s + excess) |>
          <| exceed_sumsq := sat i128 (exceed_sumsq s + sq) |>)
  else Ok s.

Definition ema (old alpha change : Z) : outcome Z :=
  i64{ (old * (100 - alpha) + change * alpha) / 100 }.

(** The volatility EMAs on a qualified sample. *)
Definition learn_sample (s : Actuary) (change : Z) (down : bool) : outcome Actuary :=
  let base := 5 in
  let alpha := if down then Z.min 100 (Z.quot (base * 3) 2) else base in
  raw_vol <- ema (observed_vol_bps s) alpha change ;;
  let s := s <| observed_vol_bps := Z.max (Z.min 3000 raw_vol) 1 |> in
  s <- (if down then
          v <- ema (downside_vol_bps s) alpha change ;; Ok (s <| downside_vol_bps := v |>)
        else Ok s) ;;
  record_excess s change.

Definition learn (s : Actuary) (sampled : bool) (change : Z) (down : bool) (dt vf : Z)
  : outcome Actuary :=
  let qualifies := sampled && (NOISE_FLOOR_BPS <=? change) in
  s <- (if qualifies then n <- i64{ [obs_count s] + 1 } ;; Ok (s <| obs_count := Z.min 500 n |>)
        else Ok s) ;;
  if observed_vol_bps s =? 0 then
    if qualifies then
      v2 <- i64{ vf * 2 } ;;
      Ok (s <| observed_vol_bps := Z.max vf change |> <| max_drawdown_bps := Z.max v2 change |>)
    else Ok s
  else
    s <- (if qualifies then learn_sample s change down else Ok s) ;;
    fade_drawdown s dt.

(** Refreshing the shortfall, the decay clocks, the TWAP and the price. *)
Definition refresh (s : Actuary) (price slot dt : Z) : outcome Actuary :=
  es <- expected_shortfall_bps s COLLAR_BREACH_BPS ;;
  s <- decay_counts (s <| shortfall_bps := es |>) dt ;;
  a <- twap_alpha_bps dt ;;
  tw <- i128{ [twap_price s] * (BPS - a) / BPS + price * a / BPS } ;;
  Ok (s <| twap_price := cast i64 (Z.min tw (imax i64)) |>
        <| last_price := price |> <| last_price_slot := slot |>).

Definition update_price (s : Actuary) (price slot : Z) : outcome Actuary :=
  if last_price s =? 0 then bootstrap s price slot else
  let old := last_price s in
  d <- i64{ slot - [last_price_slot s] } ;;
  let dt := Z.max 1 d in
  s <- remark_book s price ;;
  raw_change <- move_bps price old ;;
  vf <- vol_floor s ;;
  if GAP_MIN_SLOTS <=? dt then update_gap s price slot raw_change dt vf else
  s <- observe_print s old raw_change ;;
  '(s, sampled, change, down) <- sample_window s price slot ;;
  s <- learn s sampled change down dt vf ;;
  refresh s price slot dt.

(** ** Trades and outcomes *)
Definition OUTCOME_ALPHA : Z := 8.

Definition record_outcome (s : Actuary) (pnl notional : Z) (long : bool) : outcome Actuary :=
  if (notional =? 0) || (pnl =? 0) then Ok s else
  v <- i128{ pnl * BPS / notional } ;;
  let bps := clamp v (- BPS) BPS in
  signed <- (if long then Ok bps else i64{ 0 - bps }) ;;
  e <- i64{ ([experience_bps s] * (100 - OUTCOME_ALPHA) + signed * OUTCOME_ALPHA) / 100 } ;;
  Ok (s <| experience_bps := e |>).

(** How much one trade adds to the velocity. *)
Definition local_velocity (size pool : Z) : outcome Z :=
  m <- i64{ pool / 1000 } ;;
  if size <? Z.max 1 m then Ok 0
  else if 0 <? pool then v <- i64{ size * 50 / pool } ;; Ok (Z.min 50 v)
  else Ok 5.

Definition update_momentum (s : Actuary) (abs_risk : Z) : outcome Actuary :=
  let oi := total_exposure s in
  last_oi <- (if last_trade_slot s =? 0 then Ok oi else i64{ oi - abs_risk }) ;;
  if 0 <? last_oi then
    delta <- i64{ (oi - last_oi) * BPS / last_oi } ;;
    let new_momentum := Z.max (- BPS) (Z.min BPS delta) in
    m <- i64{ [momentum_bps s] * 70 / 100 + new_momentum * 30 / 100 } ;;
    Ok (s <| momentum_bps := m |>)
  else Ok s.

Definition record_activity (s : Actuary) (expo value_delta slot size pool : Z)
  : outcome Actuary :=
  '(is_adding, _) <- classify s expo value_delta ;;
  abs_risk <- abs_i64 value_delta ;;
  n <- i64{ [net_exposure s] + value_delta } ;;
  let s := s <| net_exposure := n |> in
  t <- (if (is_adding : bool) then i64{ [total_exposure s] + abs_risk }
        else v <- i64{ [total_exposure s] - abs_risk } ;; Ok (Z.max 0 v)) ;;
  let s := s <| total_exposure := t |> in
  d <- i64{ slot - [last_trade_slot s] } ;;
  let dt := Z.max 0 d in
  s <- (if 0 <? dt then
          k <- i64{ 100 - dt * 20 } ;;
          v <- i64{ [velocity s] * [Z.max 10 k] / 100 } ;;
          Ok (s <| velocity := v |>)
        else Ok s) ;;
  local <- local_velocity size pool ;;
  s <- (if 0 <? local then v <- i64{ [velocity s] + local } ;; Ok (s <| velocity := Z.min 255 v |>)
        else Ok s) ;;
  s <- update_momentum s abs_risk ;;
  Ok (s <| last_trade_slot := slot |>).

(** * Theorems *)

(** ** The fading loop against its uncapped reference *)

(** One step without the floor. *)
Definition fade1 (dd : Z) : Z := dd - Z.max 10 (dd / 20).
Definition fades (k : nat) (dd : Z) : Z := Nat.iter k fade1 dd.

Lemma fade1_lt dd : fade1 dd < dd.
Proof. unfold fade1. lia. Qed.

Lemma fade1_mono a b : a <= b -> fade1 a <= fade1 b.
Proof. unfold fade1. intros. Z.div_mod_to_equations. lia. Qed.

Lemma fades_S k dd : fades (S k) dd = fades k (fade1 dd).
Proof. unfold fades. apply Nat.iter_succ_r. Qed.

Lemma fades_le k : forall dd, fades k dd <= dd.
Proof.
  induction k as [|k IH]; intros dd; [done|]. rewrite fades_S.
  pose proof (IH (fade1 dd)). pose proof (fade1_lt dd). lia.
Qed.

Lemma fades_mono k : forall a b, a <= b -> fades k a <= fades k b.
Proof.
  induction k as [|k IH]; intros a b H; [done|]. rewrite !fades_S. by apply IH, fade1_mono.
Qed.

Lemma fade_step_eq floor dd : 0 <= floor -> 0 <= dd <= imax i64 ->
  fade_step floor dd = Ok (Z.max floor (fade1 dd)).
Proof.
  intros Hf Hd. unfold fade_step, fade1. unfold_ints. rewrite (quot_div dd 20) by lia.
  rewrite eval_safe; [done|]. assert (0 <= dd / 20 <= dd) by (Z.div_mod_to_equations; lia).
  arith_side.
Qed.

Lemma fade_loop_eq floor : 0 <= floor -> forall k dd, floor <= dd <= imax i64 ->
  fade_loop k floor dd = Ok (Z.max floor (fades k dd)).
Proof.
  intros Hf. induction k as [|k IH]; intros dd Hd; [cbn; f_equal; lia|].
  cbn [fade_loop]. rewrite fade_step_eq by lia. cbn [bind]. rewrite fades_S.
  pose proof (fade1_lt dd). destruct (Z.leb_spec (Z.max floor (fade1 dd)) floor).
  - pose proof (fades_le k (fade1 dd)). f_equal. lia.
  - rewrite IH by lia. do 2 f_equal. f_equal. lia.
Qed.

Lemma fades_add a b dd : fades (a + b) dd = fades b (fades a dd).
Proof. unfold fades. rewrite Nat.add_comm. apply Nat.iter_add. Qed.

Lemma fades_exhausted k dd : (128 <= k)%nat -> dd <= 20000 -> fades k dd <= 0.
Proof.
  intros Hk Hd. replace k with (128 + (k - 128))%nat by lia. rewrite fades_add.
  transitivity (fades 128 dd); [apply fades_le|].
  transitivity (fades 128 20000); [by apply fades_mono|]. by vm_compute.
Qed.

(** The capped loop is the uncapped iteration. *)
Lemma fade_cap floor dd st : 0 <= floor <= dd -> dd <= 20000 -> 0 <= st ->
  fade_loop (Z.to_nat (Z.min 128 st)) floor dd = Ok (Z.max floor (fades (Z.to_nat st) dd)).
Proof.
  intros Hf Hd Hs. rewrite fade_loop_eq by (unfold_ints; lia). f_equal.
  destruct (Z.le_gt_cases st 128); [by rewrite Z.min_r by lia|].
  rewrite Z.min_l by lia. pose proof (fades_exhausted (Z.to_nat 128) dd).
  pose proof (fades_exhausted (Z.to_nat st) dd). lia.
Qed.

(** ** The invariant of a ticker, after at most [n] window samples *)
Record wf_learn (n : Z) (s : Actuary) : Prop := {
  wl_tail : wf_tail s;
  wl_seen : exceed_count s <= n;
  wl_price : 0 <= last_price s <= imax i64;
  wl_slot : 0 <= last_price_slot s <= imax i64;
  wl_twap : 0 <= twap_price s <= imax i64;
  wl_ref : 0 <= window_ref_price s <= imax i64;
  wl_since : 0 <= window_since s <= imax i64;
  wl_dd : 0 <= max_drawdown_bps s <= 20000;
  wl_jump : 0 <= jump_count s <= 20;
  wl_velocity : 0 <= velocity s <= 255;
  wl_gaps : 0 <= gap_count s <= 500;
  wl_gap_vol : 0 <= gap_vol_bps s <= BPS;
  wl_gap_max : 0 <= gap_max_bps s <= BPS;
  wl_down : 0 <= downside_vol_bps s <= BPS;
  wl_shortfall : 0 <= shortfall_bps s <= 2000000;
  wl_experience : - BPS <= experience_bps s <= BPS;
  wl_net : in_range i64 (net_exposure s);
  wl_total : 0 <= total_exposure s <= imax i64
}.

(** Opens the invariant of the current ticker, and closes one after an update. *)
Ltac wl_open :=
  match goal with
  | H : wf_learn _ _ |- _ => destruct H as [[] ?????????????????]
  end; unfold_ints; quid_consts.
Ltac wl_close := constructor; [constructor|..]; cbn; unfold_ints; quid_consts; try lia.

Lemma fade_drawdown_total n s dt : wf_learn n s -> 0 <= dt <= imax i64 ->
  wp (fade_drawdown s dt) (wf_learn n).
Proof.
  intros H Hdt. unfold fade_drawdown.
  wp_call vol_floor_total as vf Hvf; [apply H|apply H|].
  pose proof (wf_vol s (wl_tail n s H)). pose proof (wl_dd n s H). quid_consts.
  wp_go. wp_go. wp_head. wp_step; [by wp_step|].
  apply orb_false_iff in H2 as [Hl Hm]. apply Z.leb_gt in Hl, Hm. unfold_ints.
  assert (0 <= Z.quot dt 2000 <= dt) by (apply quot_le_self; lia).
  wp_go. wp_head. rewrite fade_cap by lia. wp_step. wp_step.
  pose proof (fades_le (Z.to_nat (Z.quot dt 2000)) (max_drawdown_bps s)).
  clear -H H0 H1 H2 H3 Hm Hvf. wl_open. wl_close.
Qed.

(** ** Measuring a move *)

(** [|p - r| / max(p, r)], in bps, over the integers. *)
Definition move_ref (price ref : Z) : Z := Z.abs (price - ref) * BPS / Z.max 1 (Z.max ref price).

Lemma move_ref_range p r : 0 <= p -> 0 <= r -> 0 <= move_ref p r <= BPS.
Proof.
  intros. unfold move_ref. quid_consts. split; [apply Z.div_pos; lia|].
  apply Z.div_le_upper_bound; lia.
Qed.

Lemma move_bps_eq p r : 0 <= p <= imax i64 -> 0 <= r <= imax i64 ->
  move_bps p r = Ok (move_ref p r).
Proof.
  intros Hp Hr. pose proof (move_ref_range p r). unfold move_bps, abs_i64. unfold_ints.
  rewrite eval_safe by arith_side. cbn [bind value aop_fun].
  rewrite chk_ok by (unfold_ints; lia). cbn [bind].
  assert (Hq : Z.quot (Z.abs (p - r) * BPS) (Z.max 1 (Z.max r p)) = move_ref p r)
    by (unfold move_ref; apply quot_div; quid_consts; lia).
  rewrite eval_safe; cbn [safe value aop_fun]; rewrite ?Hq.
  - cbn [bind]. rewrite cast_id; [done|]. quid_consts. unfold_ints. lia.
  - quid_consts. arith_side.
Qed.

Lemma ema_total old alpha change : 0 <= old <= BPS -> 0 <= change <= BPS -> 0 <= alpha <= 100 ->
  wp (ema old alpha change) (fun v => 0 <= v <= BPS).
Proof.
  intros. quid_consts. assert (0 <= Z.quot (old * (100 - alpha) + change * alpha) 100 <= 10000)
    by (apply quot_bounds; nia).
  unfold ema. wp_step; lia.
Qed.

Lemma decay_counts_total n s dt : wf_learn n s -> 0 <= dt <= imax i64 ->
  wp (decay_counts s dt) (wf_learn n).
Proof.
  intros H Hdt. pose proof H. wl_open. unfold decay_counts.
  assert (0 <= Z.quot dt 1000 <= dt) by (apply quot_le_self; lia).
  assert (0 <= Z.quot dt 500 <= 18446744073709551) by (apply quot_bounds; lia).
  wp_go. wp_go. wp_step. clear Hdt. wl_close.
Qed.

Ltac simpl_gap := cbn [modify gap_count gap_vol_bps gap_max_bps].

Lemma observe_gap_total n s change dt : wf_learn n s -> 0 <= change <= BPS ->
  0 <= dt <= imax i64 -> wp (observe_gap s change dt) (wf_learn n).
Proof.
  intros H Hc Hdt. pose proof H. wl_open. unfold observe_gap. wp_go. wp_head. simpl_gap.
  set (alpha := if Z.min 500 _ <? 10 then 40 else 12).
  assert (Ha : 0 <= alpha <= 100) by (unfold alpha; case_match; lia).
  apply (wp_mono _ (fun v => 0 <= v <= 10000)).
  { wp_step; [wp_step; lia|]. apply (ema_total (gap_vol_bps s)); quid_consts; lia. }
  intros v Hv. wp_head. simpl_gap. wp_step; [wp_step; wl_close|].
  wp_go. wp_step; [|wp_step; wl_close]. apply Z.ltb_lt in H1.
  assert (0 <= Z.quot dt 72000 <= dt) by (apply quot_le_self; lia).
  wp_go. quid_consts. wp_head. rewrite fade_cap by lia. wp_step. wp_step.
  pose proof (fades_le (Z.to_nat (Z.quot dt 72000)) (gap_max_bps s)). wl_close.
Qed.

Lemma bootstrap_total n s price slot : wf_learn n s -> 0 < price <= imax i64 ->
  0 <= slot <= imax i64 -> wp (bootstrap s price slot) (wf_learn n).
Proof.
  intros H Hp Hs. unfold bootstrap. pose proof H. wl_open.
  wp_call vol_floor_total as vf Hvf; [cbn; quid_consts; lia|cbn; lia|]. cbn in Hvf.
  wp_go. cbn [modify obs_count]. wp_go. wp_call expected_shortfall_total as es Hes;
    [constructor; cbn; quid_consts; lia|done|].
  wp_step. wl_close.
Qed.

Lemma scale_exposure_total v price old : in_range i64 v -> 0 < price <= imax i64 ->
  0 < old -> wp (scale_exposure v price old) (fun w => in_range i64 w /\ (0 <= v -> 0 <= w)).
Proof.
  intros Hv Hp Ho. unfold scale_exposure. unfold_ints.
  assert (Hq : - 85070591730234615865843651857942052864 <= Z.quot (v * price) old <=
    85070591730234615865843651857942052864 /\ (0 <= v -> 0 <= Z.quot (v * price) old)).
  { Z.to_euclidean_division_equations. nia. }
  wp_step. wp_step. wp_step. unfold clamp. repeat case_match; lia.
Qed.

Lemma remark_book_total n s price : wf_learn n s -> 0 < price <= imax i64 ->
  wp (remark_book s price) (fun s' => wf_learn n s' /\
    s' = s <| net_exposure := net_exposure s' |> <| total_exposure := total_exposure s' |>).
Proof.
  intros H Hp. unfold remark_book. wp_head. wp_step; [|by wp_step; destruct s].
  apply andb_true_iff in H0 as [H0 _]. apply andb_true_iff in H0 as [H0 _]. apply Z.ltb_lt in H0.
  pose proof H. wl_open.
  wp_call scale_exposure_total as v Hv; [unfold_ints; lia|unfold_ints; lia|lia|].
  wp_call scale_exposure_total as t Ht; [unfold_ints; lia|unfold_ints; lia|lia|].
  unfold_ints. wp_step. split; [wl_close|done].
Qed.

Lemma twap_alpha_total dt : dt <= imax i64 -> wp (twap_alpha_bps dt) (fun a => 1 <= a <= BPS).
Proof.
  intros Hd. unfold twap_alpha_bps. unfold_ints.
  assert (0 <= Z.quot (Z.max dt 0) 562 <= Z.max dt 0) by (apply quot_le_self; lia).
  wp_go. quid_consts. wp_call pow_bps_total as p Hp; [unfold_ints; lia|]. quid_consts.
  wp_go. wp_step. by apply clamp_range.
Qed.

(** A weighted mean of two prices stays in [i64]. *)
Lemma mean_price a p q : 0 <= a <= 10000 -> 0 <= p <= imax i64 -> 0 <= q <= imax i64 ->
  0 <= p * (10000 - a) + q * a <= 10000 * imax i64.
Proof. unfold_ints. nia. Qed.

Lemma update_gap_total n s price slot change dt vf : wf_learn n s ->
  0 < price <= imax i64 -> 0 <= slot <= imax i64 -> 0 <= change <= BPS ->
  0 <= dt <= imax i64 -> 0 <= vf <= BPS ->
  wp (update_gap s price slot change dt vf) (wf_learn n).
Proof.
  intros H Hp Hs Hc Hdt Hvf. unfold update_gap.
  wp_call observe_gap_total as s1 H1; [eassumption|done|done|]. cbv zeta.
  assert (H2 : wf_learn n (if max_drawdown_bps s1 <? change
    then s1 <| max_drawdown_bps := Z.min 5000 change |> else s1)).
  { clear H. case_match; [wl_open; wl_close|done]. }
  wp_call fade_drawdown_total as s2 H3; [exact H2|done|]. cbv zeta.
  wp_call (decay_counts_total n) as s3 H4; [|done|].
  { clear -H3 Hp Hs. wl_open. wl_close. }
  wp_call twap_alpha_total as a Ha; [lia|]. clear H H1 H2 H3. pose proof H4. wl_open.
  pose proof (mean_price a (twap_price s3) price). unfold_ints.
  assert (Hq : 0 <= Z.quot (twap_price s3 * (10000 - a) + price * a) 10000 <= 9223372036854775807)
    by (apply quot_bounds; lia).
  wp_go. rewrite cast_id by (unfold_ints; quid_consts; lia). unfold qualifies_gap.
  assert (0 <= Z.quot vf 4 <= vf) by (apply quot_le_self; lia).
  quid_consts. wp_go. wp_go. wp_step; [|wp_step; wl_close].
  cbn [modify obs_count]. wp_go. wp_step. wl_close.
Qed.

Lemma observe_print_total n s old change : wf_learn n s -> 0 <= old <= imax i64 ->
  0 <= change <= BPS -> wp (observe_print s old change) (wf_learn n).
Proof.
  intros H Ho Hc. unfold observe_print. cbv zeta.
  match goal with |- context [if ?b then ?x else s] => set (s1 := if b then x else s) end.
  assert (H1 : wf_learn n s1) by (unfold s1; case_match; [wl_open; wl_close|done]).
  clearbody s1. clear H. wp_step; [|by wp_step]. pose proof H1. wl_open. wp_go.
  apply wp_bind, (wp_mono _ (wf_learn n)).
  { wp_step; [|by wp_step]. wp_go. wp_step. wl_close. }
  intros s2 H2. wp_step. clear -H2 Hc. case_match; [wl_open; wl_close|done].
Qed.

Lemma sample_window_total n s price slot : wf_learn n s -> 0 < price <= imax i64 ->
  0 <= slot <= imax i64 ->
  wp (sample_window s price slot) (fun '(s', _, c, _) => wf_learn n s' /\ 0 <= c <= BPS).
Proof.
  intros H Hp Hs. unfold sample_window. cbv zeta. pose proof H. wl_open.
  rewrite sat_id by (unfold_ints; lia). wp_step; [|wp_step; split; [done|lia]].
  apply Z.leb_le in H0. wp_head. rewrite move_bps_eq by (unfold_ints; lia). wp_step.
  pose proof (move_ref_range price (window_ref_price s)) as Hm. quid_consts.
  set (c := move_ref _ _) in *. wp_head.
  apply (wp_mono _ (fun c => 0 <= c <= 10000)).
  2: { intros c' Hc'. wp_step. split; [wl_close|]. by apply clamp_range. }
  wp_step; [|wp_step; lia]. set (el := slot - window_since s) in *.
  assert (0 <= Z.quot (9000 * 10000) el <= 10000) by (apply quot_bounds; lia).
  wp_go. rewrite sqrt_x100_eq by lia.
  set (r := Z.sqrt _). assert (0 <= r <= 10000).
  { unfold r. split; [apply Z.sqrt_nonneg|]. change 10000 with (Z.sqrt 100000000) at 3.
    apply Z.sqrt_le_mono. lia. }
  assert (0 <= Z.quot (c * r) 10000 <= 10000) by (apply quot_bounds; nia).
  wp_step. wp_step. wp_go. wp_step. rewrite cast_id by (unfold_ints; lia). lia.
Qed.

Lemma record_excess_total n s change : wf_learn n s -> n < 1000000000000 -> 0 <= change <= BPS ->
  wp (record_excess s change) (wf_learn (n + 1)).
Proof.
  intros H Hn Hc. unfold record_excess. wp_call pot_threshold_total as u Hu; [apply H|].
  pose proof H. wl_open. wp_step; [|wp_step; wl_close]. apply Z.ltb_lt in H0.
  wp_go. wp_go. wp_step. rewrite !sat_id by (unfold_ints; nia). wl_close; nia.
Qed.

Lemma learn_sample_total n s change down : wf_learn n s -> n < 1000000000000 ->
  0 <= change <= BPS -> wp (learn_sample s change down) (wf_learn (n + 1)).
Proof.
  intros H Hn Hc. unfold learn_sample. cbv zeta. change (Z.quot (5 * 3) 2) with 7.
  set (alpha := if down then _ else _).
  assert (Ha : 0 <= alpha <= 100) by (unfold alpha; case_match; lia). clearbody alpha.
  pose proof H. wl_open. wp_call ema_total as v Hv; [quid_consts; lia..|]. cbv zeta.
  apply wp_bind, (wp_mono _ (wf_learn n)).
  { destruct down; [|wp_step; wl_close]. cbn [modify downside_vol_bps].
    wp_call ema_total as d Hd; [quid_consts; lia..|]. quid_consts. wp_step. wl_close. }
  intros s2 H2. by apply record_excess_total.
Qed.

Lemma learn_total n s sampled change down dt vf : wf_learn n s -> n < 1000000000000 ->
  0 <= change <= BPS -> 0 <= dt <= imax i64 -> 0 <= vf <= BPS ->
  wp (learn s sampled change down dt vf) (wf_learn (n + 1)).
Proof.
  intros H Hn Hc Hdt Hvf. unfold learn. cbv zeta. set (q := sampled && _). clearbody q.
  apply wp_bind, (wp_mono _ (wf_learn n)).
  { pose proof H. wl_open. destruct q; [|by wp_step]. wp_go. wp_step. wl_close. }
  clear H. intros s1 H. assert (Hup : forall x, wf_learn n x -> wf_learn (n + 1) x).
  { clear. intros x H. wl_open. wl_close. }
  wp_step.
  - destruct q; [|wp_step; auto]. quid_consts. wp_go. wp_step. wl_open. wl_close.
  - apply wp_bind, (wp_mono _ (wf_learn (n + 1))); [|intros; by apply fade_drawdown_total].
    destruct q; [by apply learn_sample_total|wp_step; auto].
Qed.

Lemma refresh_total n s price slot dt : wf_learn n s -> 0 < price <= imax i64 ->
  0 <= slot <= imax i64 -> 0 <= dt <= imax i64 -> wp (refresh s price slot dt) (wf_learn n).
Proof.
  intros H Hp Hs Hdt. unfold refresh.
  wp_call expected_shortfall_total as es Hes; [apply H|done|].
  wp_call (decay_counts_total n) as s1 H1; [wl_open; wl_close|done|].
  wp_call twap_alpha_total as a Ha; [lia|]. clear H. pose proof H1. wl_open.
  pose proof (mul_quot_le (twap_price s1) (10000 - a) 10000).
  pose proof (mul_quot_le price a 10000).
  wp_go. wp_step. quid_consts. rewrite cast_id by (unfold_ints; lia). wl_close.
Qed.

(** A print is always absorbed: no error, no panic, and the ticker stays
    well formed. *)
Lemma update_price_total n s price slot : wf_learn n s -> n < 1000000000000 ->
  0 < price <= imax i64 -> 0 <= slot <= imax i64 ->
  wp (update_price s price slot) (wf_learn (n + 1)).
Proof.
  intros H Hn Hp Hs. assert (Hup : forall x, wf_learn n x -> wf_learn (n + 1) x).
  { clear. intros x H. wl_open. wl_close. }
  unfold update_price. wp_step; [eapply wp_mono; [by apply bootstrap_total|auto]|]. cbv zeta.
  clear H0. pose proof (wl_slot n s H) as Hsl. pose proof (wl_price n s H) as Hold. unfold_ints. wp_go.
  set (dt := Z.max 1 (slot - last_price_slot s)).
  assert (Hdt : 0 <= dt <= imax i64) by (unfold_ints; lia). clearbody dt.
  wp_call remark_book_total as s1 H1; [exact H|unfold_ints; lia|]. destruct H1 as [H1 _].
  wp_head. rewrite move_bps_eq by (unfold_ints; lia). wp_step.
  pose proof (move_ref_range price (last_price s)) as Hm. set (c := move_ref _ _) in *.
  wp_call vol_floor_total as vf Hvf; [apply H1|apply H1|].
  pose proof (wf_vol s1 (wl_tail n s1 H1)).
  assert (0 <= vf <= BPS) by (quid_consts; lia).
  wp_step; [eapply wp_mono; [apply (update_gap_total n); unfold_ints; auto; lia|auto]|].
  wp_call (observe_print_total n) as s2 Hs2; [done|unfold_ints; lia|lia|].
  wp_call (sample_window_total n) as x Hx; [done|unfold_ints; lia..|].
  destruct x as [[[s3 smp] c'] dn], Hx as [Hs3 Hc'].
  wp_call (learn_total n) as s4 Hs4; [done..|].
  apply refresh_total; [done|unfold_ints; lia..|done].
Qed.

(** ** Prints inside a window *)

(** What the session and the gap tail are made of. *)
Definition tail_fit (s : Actuary) : list Z :=
  [observed_vol_bps s; downside_vol_bps s; obs_count s; exceed_count s; exceed_sum s;
   exceed_sumsq s; gap_vol_bps s; gap_max_bps s; gap_count s; experience_bps s;
   window_ref_price s; window_since s].

Lemma quantile_tail_fit s s' p : tail_fit s = tail_fit s' ->
  quantile_bps s p = quantile_bps s' p /\ gap_quantile_bps s p = gap_quantile_bps s' p.
Proof. destruct s, s'. unfold tail_fit. cbn. intros. by simplify_eq. Qed.

(** Reads a successful run backwards through its guards. *)
Ltac run_back H :=
  repeat (inv_ok H; try match type of H with
    | (if ?b then _ else _) = Ok _ => destruct b eqn:?
    | (let _ := _ in _) = Ok _ => cbv zeta in H
    end).

Lemma fade_drawdown_frame s dt s' : fade_drawdown s dt = Ok s' -> tail_fit s' = tail_fit s.
Proof. intros H. unfold fade_drawdown in H. by run_back H. Qed.

Lemma decay_counts_frame s dt s' : decay_counts s dt = Ok s' -> tail_fit s' = tail_fit s.
Proof. intros H. unfold decay_counts in H. by run_back H. Qed.

Lemma remark_book_frame s price s' : remark_book s price = Ok s' ->
  tail_fit s' = tail_fit s /\ last_price_slot s' = last_price_slot s.
Proof. intros H. unfold remark_book in H. by run_back H. Qed.

Lemma observe_print_frame s old change s' : window_ref_price s <> 0 ->
  observe_print s old change = Ok s' -> tail_fit s' = tail_fit s.
Proof.
  intros Hw H. unfold observe_print in H. rewrite (proj2 (Z.eqb_neq _ _) Hw) in H.
  cbv zeta in H. run_back H; [|done].
  assert (Hv : tail_fit v = tail_fit s) by (run_back H1; done).
  rewrite <- Hv. by destruct (max_drawdown_bps v <? change).
Qed.

Lemma learn_unsampled s c d dt vf s' : learn s false c d dt vf = Ok s' -> tail_fit s' = tail_fit s.
Proof.
  intros H. unfold learn in H. cbn [andb] in H. cbv zeta in H. run_back H; [done|].
  by eapply fade_drawdown_frame.
Qed.

Lemma refresh_frame s price slot dt s' : refresh s price slot dt = Ok s' ->
  tail_fit s' = tail_fit s /\ last_price s' = price /\ last_price_slot s' = slot.
Proof.
  intros H. unfold refresh in H. run_back H.
  match goal with E : decay_counts _ _ = Ok _ |- _ => apply decay_counts_frame in E end.
  split; [|done]. etransitivity; [|eassumption]. done.
Qed.

(** A session print that closes no window. *)
Definition in_window (s : Actuary) (p : Z * Z) : Prop :=
  0 < p.1 <= imax i64 /\ window_since s <= p.2 <= imax i64 /\
  p.2 < window_since s + LADDER_WINDOW_SLOTS.

Lemma window_print n s p : wf_learn n s -> n < 1000000000000 ->
  0 < last_price s -> window_ref_price s <> 0 -> window_since s <= last_price_slot s ->
  in_window s p ->
  wp (update_price s p.1 p.2) (fun s' => wf_learn n s' /\ tail_fit s' = tail_fit s /\
    last_price s' = p.1 /\ last_price_slot s' = p.2).
Proof.
  destruct p as [price slot]. intros H Hn Hl Hr Hw (Hp & Hs & Hin). cbn [fst snd] in *.
  pose proof (wl_since n s H) as Hsi.
  destruct (wp_elim _ _ (update_price_total n s price slot H Hn Hp ltac:(lia))) as (s' & E & H').
  rewrite E. cbn [wp]. assert (Hf : tail_fit s' = tail_fit s /\ last_price s' = price /\
    last_price_slot s' = slot).
  { clear H'. unfold update_price in E. rewrite (proj2 (Z.eqb_neq _ _)) in E by lia.
    cbv zeta in E. run_back E.
    1: { match goal with G : (GAP_MIN_SLOTS <=? _) = true |- _ => apply Z.leb_le in G end.
         quid_consts. lia. }
    match goal with G : remark_book _ _ = Ok ?x |- _ => apply remark_book_frame in G as [Fr Fs] end.
    match goal with G : observe_print _ _ _ = Ok ?x |- _ =>
      apply observe_print_frame in G; [|unfold tail_fit in Fr; congruence]; rename G into Fo end.
    match goal with G : sample_window ?x _ _ = Ok _ |- _ => rename G into Gw; unfold sample_window in Gw;
      assert (window_since x = window_since s) as Hx by (unfold tail_fit in *; congruence) end.
    rewrite Hx, sat_id in Gw by (unfold_ints; lia).
    rewrite (proj2 (Z.leb_gt _ _)) in Gw by lia. injection Gw as <-.
    run_back E.
    match goal with G : learn _ _ _ _ _ _ = Ok _ |- _ => apply learn_unsampled in G end.
    apply refresh_frame in E as (? & ? & ?). split_and!; congruence. }
  destruct Hf as (Hf & Hf2 & Hf3). split; [|done].
  assert (exceed_count s' = exceed_count s) by (unfold tail_fit in Hf; congruence).
  assert (exceed_count s <= n) by apply H. clear -H' H0 H1. wl_open. wl_close.
Qed.

Fixpoint run_prints (s : Actuary) (l : list (Z * Z)) : outcome Actuary :=
  match l with
  | [] => Ok s
  | p :: l => s <- update_price s p.1 p.2 ;; run_prints s l
  end.

(** Cadence is not a lever on the tail: however many prints arrive before
    the sampling window closes, and whatever their prices, every one of them is
    absorbed and the fitted session and gap quantiles are exactly what they were
    — at every probability. *)
Theorem window_prints_teach_nothing n s l : wf_learn n s -> n < 1000000000000 ->
  0 < last_price s -> window_ref_price s <> 0 -> window_since s <= last_price_slot s ->
  Forall (in_window s) l ->
  exists s', run_prints s l = Ok s' /\ tail_fit s' = tail_fit s /\
    forall p, quantile_bps s' p = quantile_bps s p /\ gap_quantile_bps s' p = gap_quantile_bps s p.
Proof.
  intros H Hn Hl Hr Hw Hf. assert (exists s', run_prints s l = Ok s' /\ tail_fit s' = tail_fit s)
    as (s' & Hs & Ht); [|exists s'; eauto using quantile_tail_fit].
  revert s H Hl Hr Hw Hf. induction l as [|p l IH]; intros s H Hl Hr Hw Hf; [by eexists|].
  apply Forall_cons in Hf as [Hp Hf]. cbn [run_prints].
  destruct (wp_elim _ _ (window_print n s p H Hn Hl Hr Hw Hp)) as (s1 & -> & H1 & Ft & Fp & Fs).
  cbn [bind]. destruct Hp as (Hp1 & Hp2 & Hp3).
  assert (Ht : window_since s1 = window_since s /\ window_ref_price s1 = window_ref_price s)
    by (unfold tail_fit in Ft; split; congruence).
  destruct Ht as [Hsi Hre].
  destruct (IH s1) as (s' & Hs' & Ht'); [done|lia|congruence|lia| |].
  - eapply Forall_impl; [exact Hf|]. unfold in_window. by rewrite Hsi.
  - exists s'. split; [done|congruence].
Qed.

(** Two prints opened this window; a third moves inside it. *)
Definition warm_actuary : Actuary :=
  match run_prints actuary_default [(1000000, 10); (1010000, 500)] with
  | Ok s => s | _ => actuary_default end.

Lemma warm_wf : wf_learn 2 warm_actuary.
Proof. constructor; [constructor|..]; vm_compute; intuition discriminate. Qed.

Lemma window_prints_teach_nothing_witness :
  exists s', run_prints warm_actuary [(1000000, 600); (1200000, 700); (900000, 8000)] = Ok s' /\
    tail_fit s' = tail_fit warm_actuary /\ max_drawdown_bps warm_actuary < max_drawdown_bps s'.
Proof.
  destruct (window_prints_teach_nothing 2 warm_actuary
    [(1000000, 600); (1200000, 700); (900000, 8000)] warm_wf) as (s' & Hs & Ht & _);
    [lia|by vm_compute|by vm_compute|by vm_compute| |].
  - repeat constructor; vm_compute; intuition discriminate.
  - exists s'. split; [exact Hs|]. split; [exact Ht|]. vm_compute in Hs. injection Hs as <-.
    vm_compute. reflexivity.
Defined.

(** ** The drawdown memory fades by time, not by call *)
Definition fade_ref (floor dd dt : Z) : Z :=
  if (dt <=? 2000) || (dd <=? floor) then dd
  else Z.max floor (fades (Z.to_nat (dt / 2000)) dd).

Lemma fade_drawdown_eq n s vf dt : wf_learn n s -> 0 <= dt <= imax i64 -> vol_floor s = Ok vf ->
  fade_drawdown s dt = Ok (s <| max_drawdown_bps := fade_ref (vf * 2) (max_drawdown_bps s) dt |>).
Proof.
  intros H Hdt Hv. pose proof (vol_floor_total s (wf_vol s (wl_tail n s H)) (wf_obs s (wl_tail n s H)))
    as Hb. rewrite Hv in Hb. cbn [wp] in Hb. unfold fade_drawdown, fade_ref. rewrite Hv. cbn [bind].
  wl_open. rewrite !eval_safe by arith_side. cbn [bind value aop_fun].
  rewrite (Z.max_l (vf * 2)) by lia.
  destruct ((dt <=? 2000) || _) eqn:E; [by destruct s|].
  apply orb_false_iff in E as [El Em]. apply Z.leb_gt in El, Em.
  assert (0 <= Z.quot dt 2000 <= dt) by (apply quot_le_self; lia).
  rewrite fade_cap by lia. cbn [bind]. by rewrite quot_div by lia.
Qed.

Lemma fades_anti j k dd : (j <= k)%nat -> fades k dd <= fades j dd.
Proof. intros. replace k with (j + (k - j))%nat by lia. rewrite fades_add. apply fades_le. Qed.

(** Splitting an interval never fades further. *)
Lemma fade_ref_split floor dd d1 d2 : 0 <= d1 -> 0 <= d2 ->
  fade_ref floor dd (d1 + d2) <= fade_ref floor (fade_ref floor dd d1) d2.
Proof.
  intros H1 H2. unfold fade_ref.
  assert (Hs : d1 / 2000 + d2 / 2000 <= (d1 + d2) / 2000) by (Z.div_mod_to_equations; lia).
  assert (0 <= d1 / 2000 /\ 0 <= d2 / 2000) by (split; apply Z.div_pos; lia).
  pose proof (fades_le (Z.to_nat ((d1 + d2) / 2000)) dd) as Hle.
  pose proof (fades_anti (Z.to_nat (d1 / 2000)) (Z.to_nat ((d1 + d2) / 2000)) dd ltac:(lia)) as Ha1.
  pose proof (fades_anti (Z.to_nat (d2 / 2000)) (Z.to_nat ((d1 + d2) / 2000)) dd ltac:(lia)) as Ha2.
  destruct (Z.leb_spec (d1 + d2) 2000), (Z.leb_spec dd floor), (Z.leb_spec d1 2000),
    (Z.leb_spec d2 2000); cbn [orb]; try (case_match; lia); try lia.
  destruct (Z.leb_spec (Z.max floor (fades (Z.to_nat (d1 / 2000)) dd)) floor); [lia|].
  rewrite (Z.max_r floor (fades (Z.to_nat (d1 / 2000)) dd)) by lia. rewrite <- fades_add.
  pose proof (fades_anti (Z.to_nat (d1 / 2000) + Z.to_nat (d2 / 2000))
    (Z.to_nat ((d1 + d2) / 2000)) dd ltac:(lia)). lia.
Qed.

(** The drawdown memory fades with elapsed time and the 128-step cap never
    binds: the loop equals the uncapped iteration, a silence of 256,000 slots
    always reaches the floor, and splitting an interval into two updates never
    fades the memory further than one update over the whole of it. *)
Theorem drawdown_fades_by_time n s d1 d2 : wf_learn n s -> 0 <= d1 -> 0 <= d2 ->
  d1 + d2 <= imax i64 ->
  exists vf whole first both, vol_floor s = Ok vf /\
    fade_drawdown s (d1 + d2) = Ok whole /\
    max_drawdown_bps whole = fade_ref (vf * 2) (max_drawdown_bps s) (d1 + d2) /\
    (256000 <= d1 + d2 -> max_drawdown_bps whole = Z.min (max_drawdown_bps s) (vf * 2)) /\
    fade_drawdown s d1 = Ok first /\ fade_drawdown first d2 = Ok both /\
    max_drawdown_bps whole <= max_drawdown_bps both.
Proof.
  intros H H1 H2 Hm. destruct (wp_elim _ _ (vol_floor_total s (wf_vol s (wl_tail n s H))
    (wf_obs s (wl_tail n s H)))) as (vf & Hv & Hvb).
  pose proof (fade_drawdown_eq n s vf d1 H ltac:(lia) Hv) as E1.
  pose proof (fade_drawdown_total n s d1 H ltac:(lia)) as Hf. rewrite E1 in Hf. cbn [wp] in Hf.
  exists vf. eexists _, _, _. split_and!; [done|eapply (fade_drawdown_eq n); [exact H|lia|exact Hv]|done| |exact E1| |].
  - intros Hd. cbn. unfold fade_ref. rewrite (proj2 (Z.leb_gt (d1 + d2) 2000)) by lia. cbn [orb].
    destruct (Z.leb_spec (max_drawdown_bps s) (vf * 2)); [lia|].
    assert (128 <= (d1 + d2) / 2000) by (apply Z.div_le_lower_bound; lia).
    pose proof (fades_exhausted (Z.to_nat ((d1 + d2) / 2000)) (max_drawdown_bps s)).
    pose proof (wl_dd n s H). pose proof (wf_vol s (wl_tail n s H)). lia.
  - eapply (fade_drawdown_eq n _ vf); [exact Hf|lia|]. rewrite <- Hv. by destruct s.
  - cbn. by apply fade_ref_split.
Qed.

Lemma drawdown_fades_by_time_witness :
  exists whole both, fade_drawdown (warm_actuary <| max_drawdown_bps := 5000 |>) 40000 = Ok whole /\
    max_drawdown_bps whole <= max_drawdown_bps both.
Proof.
  destruct (drawdown_fades_by_time 2 (warm_actuary <| max_drawdown_bps := 5000 |>) 15000 25000)
    as (vf & w & f & b & _ & Hw & _ & _ & _ & _ & Hle); [|lia|lia|by vm_compute|].
  - constructor; [constructor|..]; vm_compute; intuition discriminate.
  - exists w, b. split; [exact Hw|exact Hle].
Defined.

(** ** The life of a ticker *)
Inductive event :=
  | Print (price slot : Z)
  | Trade (expo value_delta slot size pool : Z)
  | Outcome (pnl notional : Z) (long : bool)
  | Accrue (now util_bps : Z).

Definition apply_event (s : Actuary) (e : event) : outcome Actuary :=
  match e with
  | Print p sl => update_price s p sl
  | Trade x v sl sz pl => record_activity s x v sl sz pl
  | Outcome p n l => record_outcome s p n l
  | Accrue now u => accrue_premium_index s now u
  end.

(** What the oracle and the runtime guarantee of an event's arguments. *)
Definition valid_event (e : event) : Prop :=
  match e with
  | Print p sl => 0 < p <= imax i64 /\ 0 <= sl <= imax i64
  | Outcome _ n _ => 0 <= n
  | _ => True
  end.

(** What [handle_in] writes into a ticker it creates, and again at every deposit
    naming it before its first print: "50% confidence" before any observation. *)
Definition fresh_count (s : Actuary) : Actuary := s <| obs_count := 10 |>.

(** [reaches n s]: some sequence of [n] events the program accepted leads from a
    ticker as [handle_in] creates it, in a zeroed account, to [s]. *)
Inductive reaches : Z -> Actuary -> Prop :=
  | reaches_fresh : reaches 0 (fresh_count actuary_default)
  | reaches_again n s : reaches n s -> last_price s = 0 -> reaches (n + 1) (fresh_count s)
  | reaches_event n s e s' : reaches n s -> valid_event e -> apply_event s e = Ok s' ->
      reaches (n + 1) s'.

Lemma wf_learn_weaken n s : wf_learn n s -> wf_learn (n + 1) s.
Proof. intros H. wl_open. wl_close. Qed.

Lemma record_outcome_inv n s pnl notional long s' : wf_learn n s -> 0 <= notional ->
  record_outcome s pnl notional long = Ok s' -> wf_learn n s'.
Proof.
  intros H Hn E. unfold record_outcome in E. run_back E; [done|].
  pose proof (clamp_range (Z.quot (pnl * BPS) notional) (- BPS) BPS ltac:(by vm_compute)) as Hc.
  set (b := clamp _ _ _) in *. clearbody b. unfold OUTCOME_ALPHA in *.
  assert (Hv : - BPS <= v <= BPS).
  { destruct long; [by simplify_eq|]. run_back E1. quid_consts. lia. }
  clear E0 E1 E2. wl_open. wl_close. Z.to_euclidean_division_equations. lia.
Qed.

Lemma local_velocity_inv size pool v : local_velocity size pool = Ok v -> 0 <= v <= 50.
Proof.
  intros H. unfold local_velocity in H. run_back H; try lia.
  split; [|lia]. apply Z.min_glb; [lia|]. apply Z.quot_pos; lia.
Qed.

Lemma update_momentum_inv n s r s' : wf_learn n s -> update_momentum s r = Ok s' -> wf_learn n s'.
Proof. intros H E. unfold update_momentum in E. run_back E; [|done]. clear -H. wl_open. wl_close. Qed.

Lemma accrue_index_inv n s now util s' : wf_learn n s ->
  accrue_premium_index s now util = Ok s' -> wf_learn n s'.
Proof.
  intros H E. unfold accrue_premium_index in E.
  run_back E; try done; clear -H; wl_open; wl_close.
Qed.

Lemma record_activity_inv n s x v sl sz pl s' : wf_learn n s ->
  record_activity s x v sl sz pl = Ok s' -> wf_learn n s'.
Proof.
  intros H E. unfold record_activity in E. apply bind_ok in E as ([add w] & _ & E).
  apply bind_ok in E as (risk & Hr & E). apply chk_inv in Hr as [-> Hr].
  apply bind_ok in E as (net & Hn & E). apply eval_inv in Hn as [-> Hn].
  cbn [safe value aop_fun] in *. cbv zeta in E.
  apply bind_ok in E as (t & Ht & E).
  assert (Htot : 0 <= t <= imax i64).
  { pose proof (wl_total n s H). destruct add; run_back Ht; unfold_ints; cbn in *; lia. }
  clear Ht. cbv zeta in E. apply bind_ok in E as (d & _ & E).
  apply bind_ok in E as (s1 & H1 & E).
  assert (Hs1 : wf_learn n s1).
  { clear E. destruct (0 <? Z.max 0 d) eqn:Ed; run_back H1; pose proof H; wl_open; wl_close.
    apply Z.ltb_lt in Ed. apply quot_bounds; nia. }
  apply bind_ok in E as (loc & Hl & E). apply local_velocity_inv in Hl.
  apply bind_ok in E as (s2 & H2 & E).
  assert (Hs2 : wf_learn n s2).
  { clear E. destruct (0 <? loc); run_back H2; [|done]. pose proof Hs1. clear H Htot Hr Hn.
    wl_open; wl_close. }
  apply bind_ok in E as (s3 & H3 & E). injection E as <-.
  apply update_momentum_inv with (n := n) in H3; [|done]. clear -H3. wl_open. wl_close.
Qed.

Lemma reaches_wf n s : reaches n s -> n <= 1000000000000 -> 0 <= n /\ wf_learn n s.
Proof.
  intros H. induction H as [|n s H IH Hz|n s e s' H IH Hv E]; intros Hn.
  { split; [lia|]. constructor; [constructor|..]; vm_compute; intuition discriminate. }
  { destruct IH as [Hp IH]; [lia|]. split; [lia|]. clear -IH. unfold fresh_count. wl_open. wl_close. }
  destruct IH as [Hp IH]; [lia|]. split; [lia|]. destruct e; cbn in Hv, E.
  - pose proof (update_price_total n s price slot IH ltac:(lia)) as Hw.
    destruct Hv as [Hv1 Hv2]. specialize (Hw Hv1 Hv2). by rewrite E in Hw.
  - by apply wf_learn_weaken; eapply record_activity_inv; [exact IH|..|exact E].
  - by apply wf_learn_weaken; eapply record_outcome_inv; [exact IH|..|exact E].
  - by apply wf_learn_weaken; eapply accrue_index_inv; [exact IH|..|exact E].
Qed.

Lemma wf_learn_risk n s : wf_learn n s -> - MAX_NET <= net_exposure s <= MAX_NET -> wf_risk s.
Proof. intros [] Hnet. constructor; try done. unfold_ints. lia. Qed.

Lemma accrue_index_total n s now util : wf_learn n s -> - MAX_NET <= net_exposure s <= MAX_NET ->
  0 <= index_updated s <= imax i64 -> 0 <= now <= imax i64 -> 0 <= util <= 1000000000 ->
  wp (accrue_premium_index s now util) (wf_learn n).
Proof.
  intros H Hnet Hi Hn Hu. pose proof (wl_tail n s H) as Ht.
  pose proof (wf_learn_risk n s H Hnet) as Hr.
  assert (wp (accrue_premium_index s now util) (fun _ => True)) as Hok.
  { unfold accrue_premium_index. apply wp_if; intros; [done|]. unfold_ints. wp_go. cbv zeta.
    set (dt := Z.max (now - index_updated s) 0). assert (0 <= dt <= now) by lia. clearbody dt.
    apply wp_if; intros; [done|].
    wp_call rate_total as r Hrt; [done|lia..|]. wp_call funding_total as f Hf; [done|].
    assert (Z.abs (f * dt) <= 1500 * 9223372036854775807) by nia. wp_go. done. }
  destruct (wp_elim _ _ Hok) as (s' & E & _). rewrite E. cbn. by eapply accrue_index_inv.
Qed.

(** C11: Every ticker the program can reach in fewer than 10^12 events — any
    interleaving of deposits before the first print, prints, trades, outcomes and
    accruals from the account [handle_in] creates, which starts at ten
    observations — absorbs the next print without error or panic.  While its net
    book is within [MAX_NET] the risk engine can price it: the loss profile (the
    margin, the trigger and the premium), the collar at any leverage and the
    hazard charged to a position are all defined and within their bounds. *)
Theorem reachable_ticker_priced n s : reaches n s -> n < 1000000000000 ->
  (forall price slot, 0 < price <= imax i64 -> 0 <= slot <= imax i64 ->
     exists s', update_price s price slot = Ok s' /\ reaches (n + 1) s') /\
  (- MAX_NET <= net_exposure s <= MAX_NET ->
     wp (loss_profile s 1 (net_exposure s)) profile_ok /\
     (forall lev, 0 <= lev <= imax i64 -> wp (collar_bps lev s) (fun c => 1 <= c <= BPS)) /\
     (forall distance collar amount dep liab, distance <= 1000000000000 -> 0 <= collar <= BPS ->
        in_range u64 dep -> in_range u64 liab ->
        wp (hazard_rate_bps distance collar amount s dep liab) (fun v => 0 <= v <= 50000))).
Proof.
  intros H Hn. destruct (reaches_wf n s H ltac:(lia)) as [Hp Hw]. split.
  - intros price slot Hpr Hs.
    destruct (wp_elim _ _ (update_price_total n s price slot Hw Hn Hpr Hs)) as (s' & E & _).
    exists s'. split; [done|]. by apply (reaches_event n s (Print price slot)).
  - intros Hnet. pose proof (wf_learn_risk n s Hw Hnet) as Hr.
    split; [by apply loss_profile_total|]. split; [intros; by apply collar_total|].
    intros. by apply hazard_rate_total.
Qed.

(** A ticker that printed, traded and settled an outcome. *)
Definition life : list event :=
  [Print 1000000 10; Accrue 1000 0; Trade 0 50000 20 50000 1000000; Print 1010000 500;
   Print 1100000 9600; Outcome 700 50000 true; Accrue 5000 2000].

Fixpoint lived (s : Actuary) (l : list event) : outcome Actuary :=
  match l with [] => Ok s | e :: l => s <- apply_event s e ;; lived s l end.

Lemma lived_reaches l : forall n s s', reaches n s -> Forall valid_event l -> lived s l = Ok s' ->
  reaches (n + Z.of_nat (length l)) s'.
Proof.
  induction l as [|e l IH]; intros n s s' H Hv E; cbn [lived length] in *.
  { injection E as <-. by rewrite Z.add_0_r. }
  apply Forall_cons in Hv as [Hv Hvs]. apply bind_ok in E as (s1 & E1 & E).
  replace (n + Z.of_nat (S (length l))) with (n + 1 + Z.of_nat (length l)) by lia.
  eapply IH; [|done|exact E]. by eapply reaches_event.
Qed.

Lemma reachable_ticker_priced_witness :
  exists s, lived (fresh_count actuary_default) life = Ok s /\ reaches 7 s /\
    exists s', update_price s 1050000 10000 = Ok s'.
Proof.
  destruct (lived (fresh_count actuary_default) life) as [s| |] eqn:E; [|by vm_compute in E..].
  assert (H : reaches 7 s).
  { apply (lived_reaches life 0 (fresh_count actuary_default)); [apply reaches_fresh| |exact E].
    repeat constructor; vm_compute; intuition discriminate. }
  clear E. exists s. split; [reflexivity|]. split; [exact H|].
  destruct (proj1 (reachable_ticker_priced 7 s H ltac:(lia)) 1050000 10000) as (s' & Hs' & _);
    [by vm_compute|by vm_compute|]. exists s'. exact Hs'.
Defined.
