(* ===== verification/Pool.v ===== *)
(** * The pool: units, pods, the depository and its depositors

    [svm/programs/quid/src/stay.rs], up to the tranche ladder: the conversion
    between share units and dollars, the position record [Stock], the pool
    record [Depository] with its capacity and redemption arithmetic, the account
    record [Depositor] and the operations that move dollars and dollar-seconds
    between an account and the pool.  [PoolStep] interleaves those operations
    over any number of accounts; the theorems show that the accounts' balances
    and tenures always sum to the pool's. *)
From S2P Require Import Prelude Actuary.

Definition SOL_YIELD_SCALE : Z := 1000000000000.
Definition REDEMPTION_MAX_MARGIN_BPS : Z := 20000.
Definition BPS_MAX : Z := 10000.
Definition PRICE_SCALE : Z := 1000000.

Ltac pool_consts :=
  unfold SOL_YIELD_SCALE, REDEMPTION_MAX_MARGIN_BPS, BPS_MAX, PRICE_SCALE in *.

(** ** Units and dollars *)
Definition units_value (units price : Z) : Z :=
  Z.min (sat u128 (units * price) / PRICE_SCALE) (imax u64).

Definition units_value_i (units price : Z) : Z :=
  clamp (Z.quot (sat i128 (units * price)) PRICE_SCALE) (imin i64) (imax i64).

Definition value_units (dollars price : Z) : Z :=
  if price =? 0 then 0
  else Z.min (sat u128 (dollars * PRICE_SCALE) / price) (imax u64).

(** ** Tickers: eight bytes, zero padded *)
Definition is_space (b : Z) : bool := ((9 <=? b) && (b <=? 13)) || (b =? 32).

Fixpoint trim_start (l : list Z) : list Z :=
  match l with
  | [] => []
  | b :: l' => if is_space b then trim_start l' else l
  end.

Definition trim (l : list Z) : list Z := rev (trim_start (rev (trim_start l))).

Definition pad_ticker (ticker : list Z) : list Z :=
  let bytes := take 8 (trim ticker) in
  bytes ++ replicate (8 - length bytes) 0.

(** ** Data *)
Definition Pubkey : Type := Z.

Record Stock := mkStock {
  ticker : list Z;              (* [u8; 8] *)
  pledged : Z;                  (* u64 *)
  exposure : Z;                 (* i64 *)
  updated : Z;                  (* i64 *)
  pod_collar_bps : Z;           (* u16 *)
  cost_basis : Z;               (* u64 *)
  interest_paid : Z;            (* u64 *)
  collar_dollar_seconds : Z;    (* u128 *)
  collar_dollars : Z;           (* u64 *)
  premium_checkpoint : Z;       (* u128 *)
  funding_checkpoint : Z;       (* i128 *)
  marked : Z;                   (* u64 *)
  breached_at : Z               (* i64 *)
}.

#[export] Instance eta_Stock : Eta Stock := fun p =>
  mkStock (ticker p) (pledged p) (exposure p) (updated p) (pod_collar_bps p)
    (cost_basis p) (interest_paid p) (collar_dollar_seconds p) (collar_dollars p)
    (premium_checkpoint p) (funding_checkpoint p) (marked p) (breached_at p).

Record Depository := mkDepository {
  bank_last_updated : Z;            (* i64 *)
  total_deposits : Z;               (* u64 *)
  total_deposit_seconds : Z;        (* u128 *)
  total_drawn : Z;                  (* u64 *)
  yield_pool : Z;                   (* u64 *)
  max_liability : Z;                (* u64 *)
  sol_lamports : Z;                 (* u64 *)
  sol_usd_contrib : Z;              (* u64 *)
  sol_star_shares : Z;              (* u64 *)
  sol_star_cost_lamports : Z;       (* u64 *)
  sol_star_credited_lamports : Z;   (* u64 *)
  sol_star_parked_at : Z;           (* i64 *)
  swept_at : Z;                     (* i64 *)
  swept_count : Z;                  (* u64 *)
  pool_realized_pnl : Z;            (* i64 *)
  pool_collar_dollar_seconds : Z;   (* u128 *)
  paper_in_transit : Z;             (* u64 *)
  unwind_demand : Z;                (* u64 *)
  paper_backed : Z;                 (* u64 *)
  sol_yield_index : Z               (* u128 *)
}.

#[export] Instance eta_Depository : Eta Depository := fun b =>
  mkDepository (bank_last_updated b) (total_deposits b) (total_deposit_seconds b)
    (total_drawn b) (yield_pool b) (max_liability b) (sol_lamports b)
    (sol_usd_contrib b) (sol_star_shares b) (sol_star_cost_lamports b)
    (sol_star_credited_lamports b) (sol_star_parked_at b) (swept_at b)
    (swept_count b) (pool_realized_pnl b) (pool_collar_dollar_seconds b)
    (paper_in_transit b) (unwind_demand b) (paper_backed b) (sol_yield_index b).

Definition depository_default : Depository :=
  mkDepository 0 0 0 0 0 0 0 0 0 0 0 0 0 0 0 0 0 0 0 0.

Record FlashLoan := mkFlashLoan {
  flash_lamports : Z;
  flash_token_mint : Pubkey;
  flash_token_amount : Z
}.

Record Depositor := mkDepositor {
  owner : Pubkey;
  deposited_quid : Z;               (* u64 *)
  deposited_lamports : Z;           (* u64 *)
  sol_pledged_usd : Z;              (* u64 *)
  deposit_seconds : Z;              (* u128 *)
  last_updated : Z;                 (* i64 *)
  drawn : Z;                        (* u64 *)
  balances : list Stock;
  realized_pnl : Z;                 (* i64 *)
  total_interest_paid : Z;          (* u64 *)
  total_collar_dollar_seconds : Z;  (* u128 *)
  sol_yield_checkpoint : Z          (* u128 *)
}.

#[export] Instance eta_Depositor : Eta Depositor := fun d =>
  mkDepositor (owner d) (deposited_quid d) (deposited_lamports d)
    (sol_pledged_usd d) (deposit_seconds d) (last_updated d) (drawn d) (balances d)
    (realized_pnl d) (total_interest_paid d) (total_collar_dollar_seconds d)
    (sol_yield_checkpoint d).

Definition depositor_default : Depositor := mkDepositor 0 0 0 0 0 0 0 [] 0 0 0 0.

(** ** [impl Stock] *)
Definition value_at (p : Stock) (price : Z) : Z := units_value (Z.abs (exposure p)) price.

Definition excursion (p : Stock) (now : Z) : outcome (Stock * Z) :=
  let p := if breached_at p =? 0 then p <| breached_at := now |> else p in
  e <- i64{ now - [breached_at p] } ;;
  Ok (p, Z.max e 0).

Definition spend_grace (p : Stock) : Stock :=
  p <| breached_at := sat i64 (breached_at p + LIQ_GRACE_SECS) |>.

(** ** [impl Depository] *)
Definition utilisation (b : Depository) (drawn_change : Z) : Depository :=
  if 0 <? drawn_change
  then b <| total_drawn := sat u64 (total_drawn b + drawn_change) |>
  else b <| total_drawn := sat u64 (total_drawn b - Z.abs drawn_change) |>.

Definition utilisation_bps (b : Depository) : outcome Z :=
  if total_deposits b =? 0 then Ok 0 else
  v <- u128{ [total_drawn b] * 10000 / [total_deposits b] } ;;
  Ok (cast i64 (cast u64 v)).

Definition accrue_sol_yield (b : Depository) (signed_usd : Z) : outcome (Depository * bool) :=
  let principal := sat u64 (sol_lamports b + sol_star_cost_lamports b) in
  if (principal =? 0) || (signed_usd =? 0) then Ok (b, false) else
  magnitude <- u128{ [sat u128 (Z.abs signed_usd * SOL_YIELD_SCALE)] / principal } ;;
  if 0 <? signed_usd then
    Ok (b <| sol_yield_index := sat u128 (sol_yield_index b + magnitude) |>, true)
  else if sol_yield_index b <? magnitude then Ok (b, false)
  else
    i <- u128{ [sol_yield_index b] - magnitude } ;;
    Ok (b <| sol_yield_index := i |>, true).

Definition has_capacity (b : Depository) (additional_collar : Z) : bool :=
  if total_deposits b =? 0 then false
  else sat u64 (max_liability b + additional_collar) <=? total_deposits b.

Definition withdrawable (b : Depository) : Z :=
  sat u64 (sat u64 (sat u64 (total_deposits b + yield_pool b) - max_liability b)
           - paper_in_transit b).

Definition unwindable_reserve (b : Depository) : Z :=
  sat u64 (max_liability b - paper_backed b).

Definition defer_redemption (b : Depository) (unmet : Z) : Depository :=
  let reachable := unwindable_reserve b in
  b <| unwind_demand := Z.min (sat u64 (unwind_demand b + unmet)) reachable |>.

Definition redemption_margin_bps (b : Depository) : outcome Z :=
  let reachable := unwindable_reserve b in
  if (unwind_demand b =? 0) || (reachable =? 0) then Ok 10000 else
  v <- u128{ [unwind_demand b] * 10000 / reachable } ;;
  let served := Z.min v 10000 in
  i64{ 10000 + served * (REDEMPTION_MAX_MARGIN_BPS - 10000) / 10000 }.

(** ** [impl Depositor]: the pool side *)
Definition adjust_deposit_seconds (d : Depositor) (b : Depository)
    (base amount_reduced current_time : Z) : outcome (Depositor * Depository) :=
  if (base =? 0) || (amount_reduced =? 0) then Ok (d, b) else
  dt <- i64{ current_time - [last_updated d] } ;;
  let time_delta := Z.max dt 0 in
  let before := sat u128 (deposit_seconds d + sat u128 (time_delta * base)) in
  let remaining := sat u64 (base - amount_reduced) in
  let kept := if in_rangeb u128 (before * remaining) then before * remaining / base else 0 in
  let forfeited := sat u128 (before - kept) in
  Ok (d <| deposit_seconds := kept |> <| last_updated := current_time |>,
      b <| total_deposit_seconds := sat u128 (total_deposit_seconds b - forfeited) |>).

Definition accrue_seconds (d : Depositor) (b : Depository) (now : Z)
  : outcome (Depositor * Depository) :=
  let dc := cast u64 (sat i64 (now - last_updated d)) in
  ds <- u128{ [deposited_quid d] * dc } ;;
  let d := d <| deposit_seconds := sat u128 (deposit_seconds d + ds) |> in
  let db := cast u64 (sat i64 (now - bank_last_updated b)) in
  bs <- u128{ [total_deposits b] * db } ;;
  Ok (d, b <| total_deposit_seconds := sat u128 (total_deposit_seconds b + bs) |>).

Definition update_drawn (d : Depositor) (change : Z) : Depositor :=
  if 0 <? change
  then d <| drawn := sat u64 (drawn d + change) |>
  else d <| drawn := sat u64 (drawn d - Z.abs change) |>.

Definition accrue (d : Depositor) (b : Depository) (now : Z) : outcome (Depositor * Depository) :=
  '(d, b) <- accrue_seconds d b now ;;
  Ok (d <| last_updated := now |>, b <| bank_last_updated := now |>).

Definition settle_sol_yield (d : Depositor) (b : Depository) : Depositor * Depository * Z :=
  if deposited_lamports d =? 0 then
    (d <| sol_yield_checkpoint := sol_yield_index b |>, b, 0)
  else
  let delta := sat u128 (sol_yield_index b - sol_yield_checkpoint d) in
  let d := d <| sol_yield_checkpoint := sol_yield_index b |> in
  if delta =? 0 then (d, b, 0) else
  let owed := Z.min (sat u128 (delta * deposited_lamports d) / SOL_YIELD_SCALE) (imax u64) in
  if 0 <? owed then
    (d <| sol_pledged_usd := sat u64 (sol_pledged_usd d + owed) |>,
     b <| sol_usd_contrib := sat u64 (sol_usd_contrib b + owed) |>, owed)
  else (d, b, owed).

Definition pool_deposit (d : Depositor) (b : Depository) (usd now : Z)
  : outcome (Depositor * Depository) :=
  '(d, b) <- accrue_seconds d b now ;;
  Ok (d <| deposited_quid := sat u64 (deposited_quid d + usd) |> <| last_updated := now |>,
      b <| total_deposits := sat u64 (total_deposits b + usd) |> <| bank_last_updated := now |>).

Definition pool_withdraw (d : Depositor) (b : Depository) (usd now : Z)
  : outcome (Depositor * Depository) :=
  '(d, b) <- accrue_seconds d b now ;;
  let new_total := sat u64 (total_deposits b - usd) in
  require (max_liability b <=? new_total) Undercollateralised ;;
  Ok (d <| deposited_quid := sat u64 (deposited_quid d - usd) |> <| last_updated := now |>,
      b <| bank_last_updated := now |> <| total_deposits := new_total |>).

(** ** [impl Depositor]: RAROC bookkeeping *)
Definition accumulate_collar_seconds (p : Stock) (current_time : Z) : outcome Stock :=
  dt <- i64{ current_time - [updated p] } ;;
  let elapsed := Z.max dt 0 in
  if (0 <? elapsed) && (0 <? pod_collar_bps p) then
    let cd := if 0 <? collar_dollars p then collar_dollars p
              else sat u64 (pledged p * pod_collar_bps p) / 10000 in
    Ok (p <| collar_dollar_seconds :=
               sat u128 (collar_dollar_seconds p + sat u128 (elapsed * cd)) |>)
  else Ok p.

Definition flush_raroc (d : Depositor) (cb ip cds transfer : Z) : outcome (Depositor * Z) :=
  net <- i64{ [cast i64 transfer] - [cast i64 cb] - [cast i64 ip] } ;;
  Ok (d <| realized_pnl := sat i64 (realized_pnl d + net) |>
        <| total_interest_paid := sat u64 (total_interest_paid d + ip) |>
        <| total_collar_dollar_seconds := sat u128 (total_collar_dollar_seconds d + cds) |>,
      net).

Definition flush_raroc_pool (b : Depository) (net cds : Z) : Depository :=
  b <| pool_realized_pnl := sat i64 (pool_realized_pnl b + net) |>
    <| pool_collar_dollar_seconds := sat u128 (pool_collar_dollar_seconds b + cds) |>.

Definition reset_raroc (d : Depositor) : Depositor :=
  d <| realized_pnl := 0 |> <| total_collar_dollar_seconds := 0 |>.

(** * Theorems *)

(** ** Units *)
Lemma sat_u128_le x : 0 <= x <= imax u128 -> sat u128 x = x.
Proof. intros. apply sat_id. unfold_ints. lia. Qed.

Lemma units_value_range u p : 0 <= units_value u p <= imax u64.
Proof.
  unfold units_value. pool_consts.
  pose proof (sat_in_range u128 (u * p) ltac:(done)) as H. unfold_ints.
  pose proof (Z.div_pos (sat u128 (u * p)) 1000000). unfold u128 in *. lia.
Qed.

Lemma units_value_eq u p : 0 <= u -> 0 <= p -> u * p <= imax u64 ->
  units_value u p = u * p / PRICE_SCALE.
Proof.
  intros. unfold units_value. pool_consts. unfold_ints. rewrite sat_u128_le by (unfold_ints; nia).
  apply Z.min_l. apply Z.div_le_upper_bound; lia.
Qed.

Lemma units_value_mono u u' p : 0 <= u <= u' -> 0 <= p -> units_value u p <= units_value u' p.
Proof.
  intros. unfold units_value. apply Z.min_le_compat_r, Z.div_le_mono; [done|].
  apply sat_mono. nia.
Qed.

(** Buying units for [d] dollars and valuing them back at the same price
    never returns more than [d], and loses at most the price of one micro-share
    plus the final truncation. *)
Theorem units_roundtrip d p : 0 <= d <= imax u64 -> 0 < p <= imax u64 ->
  d * PRICE_SCALE / p <= imax u64 ->
  d - p / PRICE_SCALE - 1 <= units_value (value_units d p) p <= d.
Proof.
  intros Hd Hp Hfit. unfold value_units. rewrite (proj2 (Z.eqb_neq p 0)) by lia.
  unfold_ints. pool_consts. rewrite sat_u128_le by (unfold_ints; nia).
  rewrite Z.min_l by done. unfold units_value. pool_consts.
  assert (Hb : 0 <= d * 1000000 / p) by (apply Z.div_pos; lia).
  pose proof (Z.mul_div_le (d * 1000000) p).
  pose proof (Z.mul_succ_div_gt (d * 1000000) p).
  set (u := d * 1000000 / p) in *.
  rewrite sat_u128_le by (unfold_ints; nia).
  assert (u * p / 1000000 <= d) by (apply Z.div_le_upper_bound; nia).
  rewrite Z.min_l by (unfold_ints; lia).
  split; [|done]. apply Z.div_le_lower_bound; [done|].
  pose proof (Z.mul_succ_div_gt p 1000000). nia.
Qed.

Lemma units_roundtrip_witness :
  value_units 5000000 123456789 = 40500 /\
  5000000 - 123456789 / PRICE_SCALE - 1
    <= units_value (value_units 5000000 123456789) 123456789 <= 5000000.
Proof.
  split; [vm_compute; reflexivity|].
  apply units_roundtrip; vm_compute; split || idtac; discriminate || reflexivity.
Defined.

(** ** Ranges of the pool record *)
Record wf_bank (b : Depository) : Prop := {
  wf_deposits : in_range u64 (total_deposits b);
  wf_drawn : in_range u64 (total_drawn b);
  wf_yield : in_range u64 (yield_pool b);
  wf_liability : in_range u64 (max_liability b);
  wf_transit : in_range u64 (paper_in_transit b);
  wf_demand : in_range u64 (unwind_demand b);
  wf_backed : in_range u64 (paper_backed b);
  wf_index : in_range u128 (sol_yield_index b)
}.
#[export] Hint Resolve wf_deposits wf_drawn wf_yield wf_liability wf_transit
  wf_demand wf_backed wf_index : quid.

Lemma default_wf_bank : wf_bank depository_default.
Proof. constructor; vm_compute; split; discriminate. Qed.

(** ** Redemption pressure *)

(** The margin multiplier as a closed formula. *)
Definition pressure (demand reserve : Z) : Z :=
  if (demand =? 0) || (reserve =? 0) then 10000
  else 10000 + Z.min (demand * 10000 / reserve) 10000.

Lemma redemption_margin_eq b : wf_bank b ->
  redemption_margin_bps b = Ok (pressure (unwind_demand b) (unwindable_reserve b)).
Proof.
  intros H. pose proof (wf_demand b H). unfold redemption_margin_bps, pressure.
  assert (Hr : in_range u64 (unwindable_reserve b)) by (by apply sat_in_range).
  set (r := unwindable_reserve b) in *. set (d := unwind_demand b) in *.
  destruct ((d =? 0) || (r =? 0)) eqn:E; [done|].
  apply orb_false_iff in E as [Ed Er]. apply Z.eqb_neq in Ed, Er. unfold_ints.
  assert (Hq : Z.quot (d * 10000) r = d * 10000 / r) by (apply quot_div; lia).
  assert (Hb : 0 <= d * 10000 / r <= d * 10000).
  { split; [apply Z.div_pos; lia|apply Z.div_le_upper_bound; nia]. }
  rewrite eval_safe by (cbn [safe value aop_fun]; rewrite Hq; arith_side).
  cbn [bind value aop_fun]. rewrite Hq. pool_consts.
  assert (Hm : Z.quot (Z.min (d * 10000 / r) 10000 * (20000 - 10000)) 10000
               = Z.min (d * 10000 / r) 10000).
  { rewrite quot_div by lia. replace (20000 - 10000) with 10000 by lia.
    apply Z.div_mul. lia. }
  rewrite eval_safe by (cbn [safe value aop_fun]; rewrite Hm; arith_side).
  cbn [value aop_fun]. by rewrite Hm.
Qed.

Lemma pressure_range d r : 0 <= d -> 0 <= r -> 10000 <= pressure d r <= 20000.
Proof.
  intros. unfold pressure. case_match; [lia|]. apply orb_false_iff in H1 as [? Er].
  apply Z.eqb_neq in Er. assert (0 <= d * 10000 / r) by (apply Z.div_pos; lia). lia.
Qed.

Lemma pressure_full d r : 0 < r <= d -> pressure d r = 20000.
Proof.
  intros. unfold pressure. rewrite !(proj2 (Z.eqb_neq _ _)) by lia. cbn [orb].
  assert (10000 <= d * 10000 / r) by (apply Z.div_le_lower_bound; lia). lia.
Qed.

Lemma pressure_mono d d' r : 0 <= d <= d' -> 0 <= r -> pressure d r <= pressure d' r.
Proof.
  intros. unfold pressure. destruct (Z.eqb_spec r 0).
  { rewrite !orb_true_r. lia. }
  rewrite !orb_false_r. destruct (Z.eqb_spec d 0), (Z.eqb_spec d' 0); try lia.
  - assert (0 <= d' * 10000 / r) by (apply Z.div_pos; lia). lia.
  - assert (d * 10000 / r <= d' * 10000 / r) by (apply Z.div_le_mono; lia). lia.
Qed.

(** Redemption pressure.  The margin multiplier always returns and lies
    between 1x and 2x; recording an unmet withdrawal keeps the recorded demand
    within the reserve a crank can free, never lowers the multiplier, and raises
    it to exactly 2x once the whole reachable reserve is demanded. *)
Theorem redemption_pressure b unmet : wf_bank b -> 0 <= unmet <= imax u64 ->
  let b' := defer_redemption b unmet in
  exists m m', redemption_margin_bps b = Ok m /\ redemption_margin_bps b' = Ok m' /\
    10000 <= m <= m' /\ m' <= REDEMPTION_MAX_MARGIN_BPS /\
    unwind_demand b' <= unwindable_reserve b' /\
    (0 < unwindable_reserve b <= unwind_demand b + unmet -> m' = REDEMPTION_MAX_MARGIN_BPS).
Proof.
  intros H Hu b'.
  assert (Hr : in_range u64 (unwindable_reserve b)) by (by apply sat_in_range).
  assert (Hsame : unwindable_reserve b' = unwindable_reserve b) by done.
  assert (Hd : unwind_demand b' = Z.min (sat u64 (unwind_demand b + unmet)) (unwindable_reserve b))
    by done.
  pose proof (wf_demand b H) as Hdem.
  pose proof (sat_in_range u64 (unwind_demand b + unmet) ltac:(done)) as Hs.
  assert (H' : wf_bank b').
  { destruct H. constructor; try done. rewrite Hd. unfold_ints. unfold u64 in *. lia. }
  rewrite !redemption_margin_eq by done. do 2 eexists. split_and!; try reflexivity.
  all: rewrite ?Hsame, ?Hd; pool_consts; set (r := unwindable_reserve b) in *;
    set (d := unwind_demand b) in *; unfold_ints.
  - apply pressure_range; lia.
  - assert (Hz : forall x, pressure x 0 = 10000) by (intros x; unfold pressure; by rewrite orb_true_r).
    destruct (decide (r = 0)) as [->|]; [by rewrite !Hz|].
    unfold sat, u64 in *; cbn [imin imax] in *. destruct (decide (d <= r)).
    + apply pressure_mono; lia.
    + rewrite !pressure_full by lia. done.
  - apply pressure_range; unfold u64 in *; lia.
  - lia.
  - intros. apply pressure_full. unfold sat, u64; cbn [imin imax]; lia.
Qed.

Definition sample_bank : Depository :=
  depository_default <| total_deposits := 1000000 |> <| max_liability := 300000 |>
    <| paper_backed := 100000 |> <| unwind_demand := 50000 |>.

Lemma sample_bank_wf : wf_bank sample_bank.
Proof. constructor; vm_compute; split; discriminate. Qed.

Lemma redemption_pressure_witness :
  redemption_margin_bps sample_bank = Ok 12500 /\
  redemption_margin_bps (defer_redemption sample_bank 400000) = Ok 20000 /\
  exists m m', redemption_margin_bps sample_bank = Ok m /\
    redemption_margin_bps (defer_redemption sample_bank 400000) = Ok m' /\ 10000 <= m <= m'.
Proof.
  split; [vm_compute; reflexivity|]. split; [vm_compute; reflexivity|].
  destruct (redemption_pressure sample_bank 400000 sample_bank_wf) as (m & m' & ? & ? & ? & _).
  { vm_compute. split; discriminate. }
  exists m, m'. auto.
Defined.

(** ** The pool as a transition system

    The methods of [Depositor] on their own: any number of accounts, any
    interleaving, clock never running backwards.  [Shares] runs the handlers,
    which withdraw by another path. *)
Record PoolState := mkPool { bank : Depository; accounts : list Depositor }.

Definition fresh_account (o : Pubkey) : Depositor := depositor_default <| owner := o |>.

Inductive PoolStep : PoolState -> PoolState -> Prop :=
| StepOpen b ds o :
    PoolStep (mkPool b ds) (mkPool b (ds ++ [fresh_account o]))
| StepDeposit b ds i d usd now d' b' :
    ds !! i = Some d -> bank_last_updated b <= now <= imax i64 ->
    0 <= usd -> total_deposits b + usd <= imax u64 ->
    pool_deposit d b usd now = Ok (d', b') ->
    PoolStep (mkPool b ds) (mkPool b' (<[i:=d']> ds))
| StepAccrue b ds i d now d' b' :
    ds !! i = Some d -> bank_last_updated b <= now <= imax i64 ->
    accrue d b now = Ok (d', b') ->
    PoolStep (mkPool b ds) (mkPool b' (<[i:=d']> ds))
| StepWithdraw b ds i d usd now d' b' :
    ds !! i = Some d -> bank_last_updated b <= now <= imax i64 ->
    0 <= usd <= deposited_quid d ->
    pool_withdraw d b usd now = Ok (d', b') ->
    PoolStep (mkPool b ds) (mkPool b' (<[i:=d']> ds)).

(** The dollar-seconds an account has earned up to the pool's clock. *)
Definition tenure (b : Depository) (d : Depositor) : Z :=
  deposit_seconds d + deposited_quid d * (bank_last_updated b - last_updated d).

Record pool_inv (s : PoolState) : Prop := {
  inv_clock : 0 <= bank_last_updated (bank s) <= imax i64;
  inv_total : 0 <= total_deposits (bank s) <= imax u64;
  inv_account : forall d, d ∈ accounts s ->
    0 <= deposited_quid d /\ 0 <= deposit_seconds d /\
    0 <= last_updated d <= bank_last_updated (bank s);
  inv_balance : sumZ deposited_quid (accounts s) = total_deposits (bank s);
  inv_tenure : sumZ (tenure (bank s)) (accounts s) = total_deposit_seconds (bank s);
  inv_seconds : total_deposit_seconds (bank s) <= imax u64 * bank_last_updated (bank s)
}.

Lemma cast_elapsed now t : 0 <= t <= now -> now <= imax i64 ->
  cast u64 (sat i64 (now - t)) = now - t.
Proof.
  intros. unfold_ints. rewrite sat_id by (unfold_ints; lia). apply cast_id. unfold_ints. lia.
Qed.

(** Advancing the clock adds the same dollar-seconds to both sides. *)
Lemma tenure_advance b b' ds :
  sumZ (tenure b') ds = sumZ (tenure b) ds
    + (bank_last_updated b' - bank_last_updated b) * sumZ deposited_quid ds.
Proof.
  rewrite <- sumZ_scale, <- sumZ_add. apply sumZ_ext. intros d. unfold tenure. lia.
Qed.

Section Accrual.
Context (s : PoolState) (i : nat) (d : Depositor) (now : Z).
Hypothesis Hinv : pool_inv s.
Hypothesis Hi : accounts s !! i = Some d.
Hypothesis Hnow : bank_last_updated (bank s) <= now <= imax i64.

Lemma account_bounds :
  0 <= deposited_quid d <= total_deposits (bank s) /\ 0 <= deposit_seconds d /\
  0 <= last_updated d <= bank_last_updated (bank s) /\
  tenure (bank s) d <= total_deposit_seconds (bank s).
Proof.
  destruct Hinv as [Hc Ht Ha Hb Hs Hx].
  destruct (Ha d) as (? & ? & ?); [by eapply list_elem_of_lookup_2|].
  rewrite <- Hb, <- Hs. split_and!; try lia.
  - apply (sumZ_elem _ _ i); [|done]. intros a Hin. by apply Ha.
  - apply (sumZ_elem _ _ i); [|done]. intros a Hin. destruct (Ha a Hin) as (? & ? & ?).
    unfold tenure. nia.
Qed.

Lemma accrue_seconds_exact :
  accrue_seconds d (bank s) now =
    Ok (d <| deposit_seconds := deposit_seconds d + deposited_quid d * (now - last_updated d) |>,
        (bank s) <| total_deposit_seconds := total_deposit_seconds (bank s)
           + total_deposits (bank s) * (now - bank_last_updated (bank s)) |>).
Proof.
  pose proof account_bounds as (Hq & Hds & Hl & Ht). destruct Hinv as [Hc Htot _ _ _ Hx].
  unfold accrue_seconds. rewrite !cast_elapsed by lia. unfold tenure in Ht. unfold_ints.
  rewrite eval_safe by (arith_side; nia). cbn [bind value aop_fun].
  rewrite eval_safe by (arith_side; nia). cbn [bind value aop_fun].
  rewrite !sat_u128_le by (unfold_ints; nia). done.
Qed.
End Accrual.

(** Replacing one account and the pool record preserves the invariant when
    their balances move together and their dollar-seconds do too. *)
Lemma pool_inv_update b ds i d d' b' : pool_inv (mkPool b ds) -> ds !! i = Some d ->
  bank_last_updated b <= bank_last_updated b' <= imax i64 ->
  0 <= deposited_quid d' -> 0 <= deposit_seconds d' ->
  0 <= last_updated d' <= bank_last_updated b' ->
  total_deposits b' = total_deposits b + (deposited_quid d' - deposited_quid d) ->
  total_deposits b' <= imax u64 ->
  total_deposit_seconds b' = total_deposit_seconds b
    + (total_deposits b - deposited_quid d) * (bank_last_updated b' - bank_last_updated b)
    + (tenure b' d' - tenure b d) ->
  total_deposit_seconds b' <= imax u64 * bank_last_updated b' ->
  pool_inv (mkPool b' (<[i:=d']> ds)).
Proof.
  intros Hinv Hi Hc Hq Hs Hl Ht Htm Hsec Hsm.
  pose proof (account_bounds _ _ _ Hinv Hi) as (Hqb & _ & _ & _).
  destruct Hinv as [Hc0 Ht0 Ha0 Hb0 Hten0 Hx0]. cbn [bank accounts] in *.
  constructor; cbn [bank accounts]; try lia.
  - intros a Ha. apply list_elem_of_lookup in Ha as [j Hj].
    destruct (decide (i = j)) as [<-|Hne].
    + rewrite list_lookup_insert_eq in Hj by (by eapply lookup_lt_Some). by simplify_eq.
    + rewrite list_lookup_insert_ne in Hj by done.
      destruct (Ha0 a) as (? & ? & ?); [by eapply list_elem_of_lookup_2|]. lia.
  - rewrite (sumZ_insert _ _ _ d) by done. lia.
  - rewrite (sumZ_insert _ _ _ d) by done. rewrite (tenure_advance b), Hten0, Hb0, Hsec.
    unfold tenure. lia.
Qed.

Lemma deposit_inv b ds i d usd now d' b' : pool_inv (mkPool b ds) -> ds !! i = Some d ->
  bank_last_updated b <= now <= imax i64 -> 0 <= usd -> total_deposits b + usd <= imax u64 ->
  pool_deposit d b usd now = Ok (d', b') -> pool_inv (mkPool b' (<[i:=d']> ds)).
Proof.
  intros Hinv Hi Hn Hu Hcap H. pose proof (account_bounds _ _ _ Hinv Hi) as (? & ? & ? & ?).
  pose proof (accrue_seconds_exact _ _ _ _ Hinv Hi Hn) as Ha. cbn [bank accounts] in *.
  unfold pool_deposit in H. rewrite Ha in H. cbn [bind] in H. injection H as <- <-.
  pose proof (inv_seconds _ Hinv). pose proof (inv_clock _ Hinv). cbn [bank] in *. unfold_ints.
  eapply (pool_inv_update b ds i d); try done; cbn; unfold tenure; cbn;
    rewrite ?sat_id by (unfold_ints; lia); unfold_ints; nia.
Qed.

Lemma accrue_inv b ds i d now d' b' : pool_inv (mkPool b ds) -> ds !! i = Some d ->
  bank_last_updated b <= now <= imax i64 ->
  accrue d b now = Ok (d', b') -> pool_inv (mkPool b' (<[i:=d']> ds)).
Proof.
  intros Hinv Hi Hn H. pose proof (account_bounds _ _ _ Hinv Hi) as (? & ? & ? & ?).
  pose proof (accrue_seconds_exact _ _ _ _ Hinv Hi Hn) as Ha. cbn [bank accounts] in *.
  unfold accrue in H. rewrite Ha in H. cbn [bind] in H. injection H as <- <-.
  pose proof (inv_seconds _ Hinv). pose proof (inv_total _ Hinv). cbn [bank] in *. unfold_ints.
  eapply (pool_inv_update b ds i d); try done; cbn; unfold tenure; cbn; unfold_ints; nia.
Qed.

Lemma withdraw_inv b ds i d usd now d' b' : pool_inv (mkPool b ds) -> ds !! i = Some d ->
  bank_last_updated b <= now <= imax i64 -> 0 <= usd <= deposited_quid d ->
  pool_withdraw d b usd now = Ok (d', b') -> pool_inv (mkPool b' (<[i:=d']> ds)).
Proof.
  intros Hinv Hi Hn Hu H. pose proof (account_bounds _ _ _ Hinv Hi) as (? & ? & ? & ?).
  pose proof (accrue_seconds_exact _ _ _ _ Hinv Hi Hn) as Ha. cbn [bank accounts] in *.
  unfold pool_withdraw in H. rewrite Ha in H. cbn [bind] in H.
  apply bind_ok in H as (? & _ & H). injection H as <- <-.
  pose proof (inv_seconds _ Hinv). pose proof (inv_total _ Hinv). cbn [bank] in *. unfold_ints.
  eapply (pool_inv_update b ds i d); try done; cbn; unfold tenure; cbn;
    rewrite ?sat_id by (unfold_ints; lia); unfold_ints; nia.
Qed.

(** Scaling a tenure by the fraction kept. *)
Lemma kept_seconds before base remaining : 0 <= before -> 0 <= remaining <= base -> 0 < base ->
  0 <= (if in_rangeb u128 (before * remaining) then before * remaining / base else 0) <= before.
Proof. intros. case_match; [by apply mul_div_le | lia]. Qed.

Lemma open_inv b ds o : pool_inv (mkPool b ds) -> pool_inv (mkPool b (ds ++ [fresh_account o])).
Proof.
  intros [Hc Ht Ha Hb Hs Hx]. cbn [bank accounts] in *.
  constructor; cbn [bank accounts]; try done.
  - intros d [Hd|Hd%list_elem_of_singleton]%elem_of_app; [by apply Ha|].
    subst. unfold fresh_account. cbn. lia.
  - rewrite sumZ_app. cbn. lia.
  - rewrite sumZ_app, Hs. unfold tenure. cbn. lia.
Qed.

(** The methods keep the shares exact.  From the empty pool, under every
    interleaving of account openings, [pool_deposit], [accrue] and
    [pool_withdraw], the balances of the accounts sum to [total_deposits] and the
    dollar-seconds they have earned up to the pool's clock sum to
    [total_deposit_seconds]; no counter saturates on the way.  [pool_withdraw] is
    the reference: the handlers do not call it. *)
Theorem pool_shares_sum s : rtc PoolStep (mkPool depository_default []) s ->
  sumZ deposited_quid (accounts s) = total_deposits (bank s) /\
  sumZ (tenure (bank s)) (accounts s) = total_deposit_seconds (bank s).
Proof.
  intros Hr. assert (Hinv : pool_inv s); [|by destruct Hinv].
  assert (H0 : pool_inv (mkPool depository_default [])).
  { constructor; cbn; try done; try lia. intros d Hd. by apply elem_of_nil in Hd. }
  revert H0. induction Hr as [|s1 s2 s3 Hstep _ IH]; [done|]. intros H1. apply IH. clear IH.
  destruct Hstep; eauto using open_inv, deposit_inv, accrue_inv, withdraw_inv.
Qed.

(** Two accounts deposit at different times, then the first withdraws. *)
Lemma pool_shares_sum_witness : exists s,
  rtc PoolStep (mkPool depository_default []) s /\ length (accounts s) = 2%nat /\
  total_deposits (bank s) = 1300 /\ total_deposit_seconds (bank s) = 35000 /\
  sumZ deposited_quid (accounts s) = total_deposits (bank s) /\
  sumZ (tenure (bank s)) (accounts s) = total_deposit_seconds (bank s).
Proof.
  assert (H : exists s, rtc PoolStep (mkPool depository_default []) s /\
    length (accounts s) = 2%nat /\ total_deposits (bank s) = 1300 /\
    total_deposit_seconds (bank s) = 35000).
  { eexists. split.
    - eapply rtc_l; [apply (StepOpen _ _ 1)|]. eapply rtc_l; [apply (StepOpen _ _ 2)|].
      eapply rtc_l; [eapply (StepDeposit _ _ 0 _ 1000 10); [vm_compute; reflexivity | vm_compute; split; discriminate | vm_compute; discriminate
        | vm_compute; discriminate | vm_compute; reflexivity]|].
      eapply rtc_l; [eapply (StepDeposit _ _ 1 _ 500 30); [vm_compute; reflexivity | vm_compute; split; discriminate | vm_compute; discriminate
        | vm_compute; discriminate | vm_compute; reflexivity]|].
      eapply rtc_l; [eapply (StepWithdraw _ _ 0 _ 200 40); [vm_compute; reflexivity | vm_compute; split; discriminate | vm_compute; split; discriminate
        | vm_compute; reflexivity]|].
      apply rtc_refl.
    - vm_compute. auto. }
  destruct H as (s & Hr & Hl & Ht & Hd). exists s.
  destruct (pool_shares_sum s Hr). split_and!; assumption.
Defined.

(** [pool_withdraw] is gated by solvency.  For every account of a pool that
    satisfies the invariant, the call errs with [Undercollateralised] exactly
    when the withdrawal would leave deposits below the reserve, and otherwise
    pays the account down by [usd] and leaves the reserve covered. *)
Theorem pool_withdraw_guard s i d usd now : pool_inv s -> accounts s !! i = Some d ->
  bank_last_updated (bank s) <= now <= imax i64 -> 0 <= usd <= deposited_quid d ->
  if max_liability (bank s) <=? total_deposits (bank s) - usd then
    exists d' b', pool_withdraw d (bank s) usd now = Ok (d', b') /\
      deposited_quid d' = deposited_quid d - usd /\
      total_deposits b' = total_deposits (bank s) - usd /\
      max_liability b' <= total_deposits b' /\ balances d' = balances d
  else pool_withdraw d (bank s) usd now = Err Undercollateralised.
Proof.
  intros Hinv Hi Hn Hu. pose proof (account_bounds _ _ _ Hinv Hi) as (? & ? & ? & ?).
  pose proof (inv_total _ Hinv).
  unfold pool_withdraw. rewrite (accrue_seconds_exact _ _ _ _ Hinv Hi Hn). cbn [bind].
  cbv zeta. cbn. rewrite sat_id by (unfold_ints; lia).
  destruct (Z.leb_spec (max_liability (bank s)) (total_deposits (bank s) - usd)) as [Hle|Hgt]; [|done].
  cbn. do 2 eexists. split; [reflexivity|]. cbn. rewrite sat_id by (unfold_ints; lia). auto.
Qed.

Lemma pool_withdraw_guard_witness :
  let s := mkPool (sample_bank <| total_deposits := 1000 |> <| max_liability := 700 |>)
                  [(fresh_account 7) <| deposited_quid := 1000 |>] in
  (exists d' b', pool_withdraw ((fresh_account 7) <| deposited_quid := 1000 |>) (bank s) 300 0 = Ok (d', b'))
  /\ pool_withdraw ((fresh_account 7) <| deposited_quid := 1000 |>) (bank s) 301 0 = Err Undercollateralised.
Proof.
  intros s. assert (Hinv : pool_inv s).
  { constructor; cbn; try done; try lia. intros d ->%list_elem_of_singleton. cbn. lia. }
  split.
  - destruct (pool_withdraw_guard s 0 _ 300 0 Hinv eq_refl) as (d' & b' & H & _);
      [cbn; lia | cbn; lia | exists d', b'; exact H].
  - apply (pool_withdraw_guard s 0 _ 301 0 Hinv eq_refl); cbn; lia.
Defined.

(** ** SOL carry *)

(** What [l] lamports earn over an index move of [delta]. *)
Definition carry (delta l : Z) : Z := delta * l / SOL_YIELD_SCALE.

Record wf_sol (d : Depositor) (b : Depository) : Prop := {
  wf_lamports : in_range u64 (deposited_lamports d);
  wf_checkpoint : 0 <= sol_yield_checkpoint d <= sol_yield_index b;
  wf_sol_fits : sol_yield_index b * deposited_lamports d <= imax u128;
  wf_sol_credit : carry (sol_yield_index b) (deposited_lamports d) <= imax u64;
  wf_sol_room : 0 <= sol_pledged_usd d /\
    sol_pledged_usd d + carry (sol_yield_index b) (deposited_lamports d) <= imax u64;
  wf_contrib_room : 0 <= sol_usd_contrib b /\
    sol_usd_contrib b + carry (sol_yield_index b) (deposited_lamports d) <= imax u64
}.

(** [settle_sol_yield] in closed form, without saturation. *)
Definition settled_carry (d : Depositor) (b : Depository) : Z :=
  carry (sol_yield_index b - sol_yield_checkpoint d) (deposited_lamports d).

Lemma settled_carry_range d b : wf_sol d b ->
  0 <= settled_carry d b <= carry (sol_yield_index b) (deposited_lamports d).
Proof.
  intros [Hl Hc Hf _ _ _]. unfold settled_carry, carry. unfold_ints. pool_consts. split.
  - apply Z.div_pos; nia.
  - apply Z.div_le_mono; nia.
Qed.

Lemma settle_sol_yield_eq d b : wf_sol d b -> settle_sol_yield d b =
  (d <| sol_yield_checkpoint := sol_yield_index b |>
     <| sol_pledged_usd := sol_pledged_usd d + settled_carry d b |>,
   b <| sol_usd_contrib := sol_usd_contrib b + settled_carry d b |>, settled_carry d b).
Proof.
  intros H. pose proof (settled_carry_range d b H) as Hr. destruct H as [Hl Hc Hf Hcr Hrm Hct].
  destruct d, b. unfold settle_sol_yield, settled_carry, modify in *. cbn in *.
  set (idx := sol_yield_index0) in *. set (l := deposited_lamports0) in *.
  set (c := sol_yield_checkpoint0) in *.
  destruct (Z.eqb_spec l 0) as [->|]; [unfold carry; by rewrite Z.mul_0_r, !Z.add_0_r|].
  rewrite (sat_id u128 (idx - c)) by (unfold_ints; nia).
  destruct (Z.eqb_spec (idx - c) 0) as [->|]; [unfold carry; by rewrite Z.mul_0_l, !Z.add_0_r|].
  rewrite (sat_id u128 ((idx - c) * l)) by (unfold_ints; nia).
  fold (carry (idx - c) l). set (k := carry (idx - c) l) in *. rewrite Z.min_l by lia.
  destruct (Z.ltb_spec 0 k).
  - rewrite !sat_id by (unfold_ints; lia). done.
  - replace k with 0 by lia. by rewrite !Z.add_0_r.
Qed.

Lemma carry_mono x y l : 0 <= l -> x <= y -> carry x l <= carry y l.
Proof. intros. apply Z.div_le_mono; [done|nia]. Qed.

(** The account and the pool after a settlement, at any later index. *)
Definition settled (d : Depositor) (b : Depository) : Depositor :=
  d <| sol_yield_checkpoint := sol_yield_index b |>
    <| sol_pledged_usd := sol_pledged_usd d + settled_carry d b |>.
Definition settled_bank (d : Depositor) (b : Depository) (i : Z) : Depository :=
  b <| sol_usd_contrib := sol_usd_contrib b + settled_carry d b |> <| sol_yield_index := i |>.

Lemma wf_sol_settled d b i : wf_sol d b -> wf_sol d (b <| sol_yield_index := i |>) ->
  sol_yield_index b <= i ->
  sol_pledged_usd d + 2 * carry i (deposited_lamports d) <= imax u64 ->
  sol_usd_contrib b + 2 * carry i (deposited_lamports d) <= imax u64 ->
  wf_sol (settled d b) (settled_bank d b i).
Proof.
  intros Hb [Hl Hc Hf Hcr Hrm Hct] Hi H1 H2. cbn in *.
  pose proof (settled_carry_range d b Hb) as Hs. destruct Hb as [_ Hc0 _ _ _ _]. unfold in_range in Hl.
  pose proof (carry_mono (sol_yield_index b) i (deposited_lamports d) ltac:(cbn in *; lia) Hi).
  constructor; cbn; try done; lia.
Qed.

(** Carry is paid once, to both marks, and claiming it in instalments gains
    nothing.  Settling credits the account's SOL mark and the pool's by the same
    amount; settling again at the same index pays nothing and changes nothing;
    and an account that settles in between two index moves receives no more —
    and at most one unit less — than one that settles only at the end. *)
Theorem sol_carry_paid_once d b i :
  wf_sol d b -> wf_sol d (b <| sol_yield_index := i |>) -> sol_yield_index b <= i ->
  sol_pledged_usd d + 2 * carry i (deposited_lamports d) <= imax u64 ->
  sol_usd_contrib b + 2 * carry i (deposited_lamports d) <= imax u64 ->
  exists d1 b1 x d2 b2 x',
    settle_sol_yield d b = (d1, b1, x) /\ settle_sol_yield d1 b1 = (d1, b1, 0) /\
    settle_sol_yield d1 (b1 <| sol_yield_index := i |>) = (d2, b2, x') /\
    sol_pledged_usd d2 - sol_pledged_usd d = x + x' /\
    sol_usd_contrib b2 - sol_usd_contrib b = x + x' /\
    exists d3 b3 y, settle_sol_yield d (b <| sol_yield_index := i |>) = (d3, b3, y) /\
      x + x' <= y <= x + x' + 1.
Proof.
  intros Hb Hi Hle Hr1 Hr2. pose proof Hb as [Hl Hck _ _ _ _]. unfold in_range in Hl. cbn in Hl.
  pose proof (carry_mono _ _ (deposited_lamports d) ltac:(lia) Hle) as Hm.
  assert (H0 : wf_sol (settled d b) (settled_bank d b (sol_yield_index b))).
  { apply wf_sol_settled; try done; try lia. by destruct b. }
  pose proof (wf_sol_settled d b i Hb Hi Hle Hr1 Hr2) as H1.
  exists (settled d b), (settled_bank d b (sol_yield_index b)), (settled_carry d b).
  do 3 eexists. split_and!.
  - rewrite (settle_sol_yield_eq d b Hb). done.
  - rewrite (settle_sol_yield_eq _ _ H0). unfold settled, settled_bank, settled_carry, carry.
    cbn. unfold modify. cbn. by rewrite !Z.sub_diag, Z.mul_0_l, !Z.add_0_r.
  - exact (settle_sol_yield_eq _ _ H1).
  - cbn. lia.
  - cbn. lia.
  - rewrite (settle_sol_yield_eq _ _ Hi). do 3 eexists. split; [reflexivity|].
    unfold settled_carry. cbn. unfold carry. pool_consts.
    set (l := deposited_lamports d). set (c := sol_yield_checkpoint d). set (j := sol_yield_index b).
    replace ((i - c) * l) with ((j - c) * l + (i - j) * l) by lia.
    Z.to_euclidean_division_equations. lia.
Qed.

Lemma sol_carry_paid_once_witness :
  let d := depositor_default <| deposited_lamports := 3000000000 |> in
  let b := depository_default <| sol_yield_index := 700000000 |> in
  exists d1 b1 x d2 b2 x',
    settle_sol_yield d b = (d1, b1, x) /\ settle_sol_yield d1 b1 = (d1, b1, 0) /\
    settle_sol_yield d1 (b1 <| sol_yield_index := 900000000 |>) = (d2, b2, x') /\
    x = 2100000 /\ x' = 600000.
Proof.
  intros d b.
  destruct (sol_carry_paid_once d b 900000000) as (d1 & b1 & x & d2 & b2 & x' & H1 & H2 & H3 & _).
  1, 2: constructor; vm_compute; repeat split; discriminate.
  1, 2, 3: vm_compute; discriminate.
  exists d1, b1, x, d2, b2, x'. split; [exact H1|]. split; [exact H2|]. split; [exact H3|].
  vm_compute in H1. injection H1 as <- <- <-. vm_compute in H3. injection H3 as <- <- <-.
  split; reflexivity.
Defined.
