(* ===== verification/Position.v ===== *)
(** * One position

    [svm/programs/quid/src/stay.rs]: the free functions and the private methods
    that act on a single pod — the liability re-mark, the premium, the
    liquidation tranche, the two cures ([post_variation_margin] and
    [reinstate_exposure]), the partial close, the size of a tranche, the funding
    settlement and one rung of the ladder.  The Rust functions mutate the pod and
    the depositor's free balance through [&mut]; here they return them. *)
From S2P Require Import Prelude Actuary Pricing Pool.

Definition collar_notional (exposure_value pledged : Z) : Z := Z.max exposure_value pledged.

(** ** [LiabilityUpdate] *)
Record LiabilityUpdate := mkLiabilityUpdate {
  old_collar_dollars : Z;
  new_collar_bps : Z;
  new_collar_dollars : Z
}.

Definition new_leverage (new_exposure new_pledged : Z) : outcome Z :=
  if 0 <? new_pledged then
    v <- u128{ new_exposure * 100 / new_pledged } ;; Ok (Z.min v (imax i64))
  else if 0 <? new_exposure then Ok (imax i64) else Ok 100.

Definition liability_compute (old_exposure old_collar_bps new_exposure new_pledged : Z)
    (a : Actuary) : outcome LiabilityUpdate :=
  let old_dollars := sat u64 (old_exposure * old_collar_bps) / 10000 in
  lev <- new_leverage new_exposure new_pledged ;;
  new_collar <- collar_bps lev a ;;
  let new_dollars :=
    sat u64 (collar_notional new_exposure new_pledged * cast u64 new_collar) / 10000 in
  Ok (mkLiabilityUpdate old_dollars (cast u16 new_collar) new_dollars).

(** [apply]: the depository argument is unused in the source. *)
Definition liability_apply (l : LiabilityUpdate) (p : Stock) : Stock :=
  p <| pod_collar_bps := new_collar_bps l |> <| collar_dollars := new_collar_dollars l |>.

(** ** Premium *)
Definition YEAR_BPS : Z := 31536000 * 10000.

Definition premium_due (exposure_value position_rate_bps dt base_bps_seconds pledged : Z)
  : outcome (Z * Z) :=
  let dt := Z.max dt 0 in
  let bps_seconds :=
    sat u128 (base_bps_seconds + sat u128 (Z.max position_rate_bps 0 * dt)) in
  if (bps_seconds =? 0) || (exposure_value =? 0) then Ok (0, dt) else
  a <- u128{ [sat u128 (exposure_value * bps_seconds)] / YEAR_BPS } ;;
  let accrued := Z.min a (imax u64) in
  if accrued <=? pledged then Ok (accrued, dt) else
  b <- u128{ [sat u128 (pledged * dt)] / [Z.max accrued 1] } ;;
  Ok (pledged, Z.min b dt).

(** ** The ladder *)
Definition tranche_size (size excursion util_bps : Z) : outcome Z :=
  speed_bps <- i64{ 5000 + 15000 * [clamp util_bps 1000 10000] / 10000 } ;;
  o <- i64{ excursion - LIQ_GRACE_SECS } ;;
  let over := Z.max o 0 in
  c <- i64{ over * 10000 / (LIQ_GRACE_SECS * TRANCHE_RAMP_GRACES) } ;;
  let climbed := Z.min c 10000 in
  frac <- i64{ MIN_TRANCHE_BPS + (MAX_TRANCHE_BPS - MIN_TRANCHE_BPS) * climbed / 10000 } ;;
  f <- i64{ frac * speed_bps / 10000 } ;;
  let frac_bps := clamp f MIN_TRANCHE_BPS MAX_TRANCHE_BPS in
  v <- u128{ size * frac_bps / 10000 } ;;
  Ok (Z.max (cast u64 v) 1).

Definition collar_amount (p : Stock) (price : Z) : Z :=
  let mark := if marked p =? 0 then collar_notional (value_at p price) (pledged p)
              else marked p in
  if 0 <? pod_collar_bps p then sat u64 (mark * pod_collar_bps p) / 10000 else mark / 10.

(** How far outside its band a pod is, in units. *)
Definition restoring_units (p : Stock) (price : Z) : Z :=
  let collar := collar_amount p price in
  let exposure_value := value_at p price in
  let mark := if marked p =? 0 then pledged p else marked p in
  let upper := sat u64 (mark + collar) in
  let lower := sat u64 (mark - collar) in
  let breach := if upper <? exposure_value then exposure_value - upper
                else if exposure_value <? lower then lower - exposure_value
                else 0 in
  value_units breach price.

(** (signed dollars, cost basis, interest paid, collar-dollar-seconds, closed). *)
Definition tranche_report : Type := Z * Z * Z * Z * bool.

Definition amortise_tranche (p : Stock) (price excursion util_bps : Z) (a : Actuary)
    (old_exposure_value current_time : Z) : outcome (Stock * tranche_report) :=
  let long := 0 <? exposure p in
  let mark := if marked p =? 0 then pledged p else marked p in
  let restoring := restoring_units p price in
  t <- tranche_size (Z.abs (exposure p)) excursion util_bps ;;
  let tranche := Z.min (Z.max t restoring) (Z.abs (exposure p)) in
  let p := spend_grace p in
  let p := p <| exposure :=
    if long then sat i64 (exposure p - cast i64 tranche)
    else sat i64 (exposure p + cast i64 tranche) |> in
  let unwound_value := units_value tranche price in
  let before := Z.max (sat u64 (Z.abs (exposure p) + tranche)) 1 in
  sm <- u128{ mark * tranche / before } ;;
  let slice_mark := cast u64 sm in
  sp <- u128{ [pledged p] * tranche / before } ;;
  let slice_pledge := cast u64 sp in
  let side := if long then 1 else -1 in
  slice_pnl <- i128{ (unwound_value - slice_mark) * side } ;;
  let consumed := if slice_pnl <? 0 then Z.min (cast u64 (Z.abs slice_pnl)) slice_pledge
                  else 0 in
  let retained := sat u64 (slice_pledge - consumed) in
  let p := p <| pledged := sat u64 (pledged p - consumed) |>
             <| marked := sat u64 (marked p - Z.min slice_mark (marked p)) |> in
  let p := if exposure p =? 0 then p <| breached_at := 0 |> <| marked := 0 |> else p in
  let p := p <| updated := current_time |> in
  let new_exp := value_at p price in
  l <- liability_compute old_exposure_value (pod_collar_bps p) new_exp (pledged p) a ;;
  let p := liability_apply l p in
  let dollars := - (Z.min (sat u64 (unwound_value - retained)) (imax i64)) in
  let closed := exposure p =? 0 in
  let report := (dollars, cost_basis p, interest_paid p, collar_dollar_seconds p, closed) in
  let p := if closed then p <| cost_basis := 0 |> <| interest_paid := 0 |>
                            <| collar_dollar_seconds := 0 |>
           else p in
  Ok (p, report).

(** ** The two cures

    [None]: the depositor cannot fund it and nothing changed.
    [Some (pod, dq, gross)]: the pod and free balance after paying [gross]. *)
Definition post_variation_margin (p : Stock) (dq : Z) (b : Depository) (a : Actuary)
    (old_exposure_value exposure_value excess current_time : Z)
  : outcome (option (Stock * Z * Z)) :=
  let gross := sat u64 (excess + excess / 250) in
  if dq <? gross then Ok None else
  let net := sat u64 (gross - gross / 250) in
  let mark := if negb (marked p =? 0) then marked p else pledged p in
  let side := if 0 <=? exposure p then 1 else -1 in
  mtm <- i128{ (exposure_value - mark) * side } ;;
  np <- i128{ [pledged p] + net + mtm } ;;
  let new_pledged := clamp np 0 (imax u64) in
  l <- liability_compute old_exposure_value (pod_collar_bps p) exposure_value new_pledged a ;;
  let increase := sat u64 (new_collar_dollars l - old_collar_dollars l) in
  require (has_capacity b increase) PoolAtCapacity ;;
  dq' <- u64{ dq - gross } ;;
  let p := p <| pledged := new_pledged |> <| marked := exposure_value |>
             <| breached_at := 0 |> <| updated := current_time |> in
  Ok (Some (liability_apply l p, dq', gross)).

Definition reinstate_exposure (p : Stock) (dq : Z) (b : Depository) (a : Actuary)
    (old_exposure_value exposure_value gap price current_time : Z) (by_owner : bool)
  : outcome (option (Stock * Z * Z)) :=
  if negb by_owner then Ok None else
  let gross := sat u64 (gap + gap / 250) in
  if (dq <? gross) || (price =? 0) then Ok None else
  let net := sat u64 (gross - gross / 250) in
  let new_exp := sat u64 (exposure_value + net) in
  l <- liability_compute old_exposure_value (pod_collar_bps p) new_exp (pledged p) a ;;
  let increase := sat u64 (new_collar_dollars l - old_collar_dollars l) in
  require (has_capacity b increase) PoolAtCapacity ;;
  dq' <- u64{ dq - gross } ;;
  let units := cast i64 (value_units net price) in
  units <- (if exposure p <? 0 then i64{ 0 - units } else Ok units) ;;
  let p := p <| exposure := sat i64 (exposure p + units) |>
             <| marked := sat u64 (marked p + net) |>
             <| breached_at := 0 |> <| updated := current_time |> in
  Ok (Some (liability_apply l p, dq', gross)).

(** ** Partial close *)
Definition pro_rata (closed_value position_value v : Z) : Z :=
  Z.min (sat u128 (v * closed_value) / Z.max position_value 1) v.

Record CloseReport := mkCloseReport {
  pledged_released : Z;
  cost_basis_released : Z;
  interest_on_closed : Z;
  raroc : Z * Z * Z;
  fully_closed : bool
}.

Definition settle_partial_close (p : Stock) (a : Actuary)
    (old_exposure_value closed_value position_value price current_time accrued_interest : Z)
  : outcome (Stock * CloseReport) :=
  let pr := pro_rata closed_value position_value in
  let on_closed := pr accrued_interest in
  let pl := pr (pledged p) in
  let cb := pr (cost_basis p) in
  let mk := pr (marked p) in
  let p := p <| pledged := sat u64 (pledged p - pl) |>
             <| cost_basis := sat u64 (cost_basis p - cb) |>
             <| marked := sat u64 (marked p - mk) |>
             <| updated := current_time |> in
  let new_exp := value_at p price in
  l <- liability_compute old_exposure_value (pod_collar_bps p) new_exp (pledged p) a ;;
  let closed := exposure p =? 0 in
  let rr := (cost_basis p, interest_paid p, collar_dollar_seconds p) in
  let p := if closed then p <| marked := 0 |> <| cost_basis := 0 |> <| interest_paid := 0 |>
                            <| collar_dollar_seconds := 0 |>
           else p in
  Ok (liability_apply l p, mkCloseReport pl cb on_closed rr closed).

(** ** Funding *)

(** The index and value of the first pod of a ticker. *)
Definition find_pod (l : list Stock) (t : list Z) : option (nat * Stock) :=
  list_find (fun p => ticker p = t) l.

Definition settle_funding (d : Depositor) (tk : list Z) (r : TickerRisk) (price : Z)
  : outcome (Depositor * TickerRisk * Z) :=
  match find_pod (balances d) (pad_ticker tk) with
  | None => Ok (d, r, 0)
  | Some (i, p) =>
      let signed_value := units_value_i (exposure p) price in
      '(owed, index) <- funding_owed r signed_value (funding_checkpoint p) ;;
      let p := p <| funding_checkpoint := index |> in
      if 0 <? owed then
        let pay := Z.min owed (funding_pot r) in
        pot <- u64{ [funding_pot r] - pay } ;;
        let p := p <| pledged := sat u64 (pledged p + pay) |> in
        Ok (d <| balances := <[i:=p]> (balances d) |>, r <| funding_pot := pot |>,
            Z.min pay (imax i64))
      else if owed <? 0 then
        let take := Z.min (Z.abs owed) (pledged p) in
        pl <- u64{ [pledged p] - take } ;;
        let p := p <| pledged := pl |> in
        Ok (d <| balances := <[i:=p]> (balances d) |>,
            r <| funding_pot := sat u64 (funding_pot r + take) |>,
            - (Z.min take (imax i64)))
      else Ok (d <| balances := <[i:=p]> (balances d) |>, r, 0)
  end.

(** ** One rung of the ladder *)
Definition get_pod (d : Depositor) (i : nat) : outcome Stock :=
  match balances d !! i with Some p => Ok p | None => Panic end.

Definition set_pod (d : Depositor) (i : nat) (p : Stock) : Depositor :=
  d <| balances := <[i:=p]> (balances d) |>.

Definition unwind_a_tranche (d : Depositor) (pod_index : nat) (price util_bps : Z)
    (a : Actuary) (b : Depository) (old_exposure_value current_time now accrued_interest : Z)
  : outcome (Depositor * Depository * (Z * Z)) :=
  p <- get_pod d pod_index ;;
  '(p, exc) <- excursion p now ;;
  if exc <=? LIQ_GRACE_SECS then
    Ok (set_pod d pod_index p, b, (0, accrued_interest))
  else
  '(p, (dollars, pod_cb, pod_ip, pod_cds, closed)) <-
    amortise_tranche p price exc util_bps a old_exposure_value current_time ;;
  let d := update_drawn (set_pod d pod_index p) dollars in
  let b := utilisation b dollars in
  if (closed : bool) then
    '(d, net) <- flush_raroc d pod_cb pod_ip pod_cds 0 ;;
    Ok (d, flush_raroc_pool b net pod_cds, (dollars, accrued_interest))
  else Ok (d, b, (dollars, accrued_interest)).

(** * Theorems *)

(** ** Premium *)

(** The premium an interval accrues before the pledge is considered. *)
Definition accrued_premium (exposure_value rate dt base : Z) : Z :=
  exposure_value * (base + Z.max rate 0 * Z.max dt 0) / YEAR_BPS.

(** Premiums are bounded by collateral and never forgiven.  The charge never
    exceeds the pledge; when the pledge covers the accrued premium it is charged
    in full for the whole interval; when it does not, the whole pledge is charged
    and the meter advances only over the share of the interval it pays for, so
    the unpaid seconds stay on the clock. *)
Theorem premium_due_sound ev rate dt base pl :
  0 <= ev <= imax u64 -> 0 <= base -> 0 <= pl <= imax u64 ->
  dt <= imax i64 ->
  ev * (base + Z.max rate 0 * Z.max dt 0) / YEAR_BPS <= imax u64 ->
  base + Z.max rate 0 * Z.max dt 0 <= imax u128 ->
  ev * (base + Z.max rate 0 * Z.max dt 0) <= imax u128 ->
  let acc := accrued_premium ev rate dt base in
  exists charge billed, premium_due ev rate dt base pl = Ok (charge, billed) /\
    0 <= charge <= pl /\ 0 <= billed <= Z.max dt 0 /\
    (acc <= pl -> charge = acc /\ billed = Z.max dt 0) /\
    (pl < acc -> charge = pl /\ billed * acc <= pl * Z.max dt 0 < (billed + 1) * acc).
Proof.
  intros Hev Hb Hpl Hdt Hfit Hsec Hprod acc. unfold premium_due. cbv zeta.
  set (t := Z.max dt 0) in *. set (r := Z.max rate 0) in *.
  rewrite (sat_u128_le (r * t)) by (unfold_ints; nia).
  rewrite (sat_u128_le (base + r * t)) by (unfold_ints; nia).
  assert (Hdef : acc = ev * (base + r * t) / YEAR_BPS) by done. clearbody acc.
  assert (Hacc : 0 <= acc <= imax u64).
  { rewrite Hdef. split; [apply Z.div_pos; [nia|done]|exact Hfit]. }
  destruct ((base + r * t =? 0) || (ev =? 0)) eqn:E.
  { assert (acc = 0) as ->.
    { rewrite Hdef. apply orb_true_iff in E as [E|E]; apply Z.eqb_eq in E;
        rewrite E, ?Z.mul_0_r, ?Z.mul_0_l; done. }
    exists 0, t. split_and!; first [done | lia | intros; exfalso; lia]. }
  rewrite (sat_u128_le (ev * _)) by (unfold_ints; nia).
  assert (Hq : Z.quot (ev * (base + r * t)) YEAR_BPS = acc)
    by (rewrite Hdef; apply quot_div; [nia|done]).
  rewrite eval_safe by (cbn [safe value aop_fun]; rewrite Hq; unfold YEAR_BPS; arith_side).
  cbn [bind value aop_fun]. rewrite Hq, Z.min_l by lia.
  destruct (Z.leb_spec acc pl) as [Hle|Hgt]; [exists acc, t; split_and!; first [done | lia | intros; exfalso; lia]|].
  rewrite (sat_u128_le (pl * t)) by (unfold_ints; nia). rewrite Z.max_l by lia.
  rewrite eval_safe by (pose proof (quot_le_self (pl * t) acc); arith_side).
  cbn [bind value aop_fun]. rewrite quot_div by nia.
  assert (Hbt : pl * t / acc <= t) by (apply Z.div_le_upper_bound; nia).
  assert (0 <= pl * t / acc) by (apply Z.div_pos; nia).
  exists pl, (pl * t / acc). rewrite Z.min_l by lia.
  pose proof (Z.mul_div_le (pl * t) acc). pose proof (Z.mul_succ_div_gt (pl * t) acc).
  split_and!; first [done | lia | intros; exfalso; lia | intros; split_and!; lia].
Qed.

Lemma premium_due_sound_witness :
  exists charge billed, premium_due 5000000000 3000 86400 0 1000000 = Ok (charge, billed) /\
    charge = 1000000 /\ billed = 21024.
Proof.
  destruct (premium_due_sound 5000000000 3000 86400 0 1000000) as (c & b & H & _ & _ & _ & _).
  1-7: vm_compute; try split; discriminate.
  exists c, b. split; [exact H|]. vm_compute in H. injection H as <- <-. split; reflexivity.
Defined.

(** ** The size of a tranche *)

(** The share of the position a tranche takes, in bps. *)
Definition tranche_bps (exc util : Z) : Z :=
  let speed := 5000 + 15000 * clamp util 1000 10000 / 10000 in
  let climbed := Z.min (Z.max (exc - LIQ_GRACE_SECS) 0 * 10000 / (3600 * 42)) 10000 in
  clamp ((25 + 160 * climbed / 10000) * speed / 10000) MIN_TRANCHE_BPS MAX_TRANCHE_BPS.

Lemma tranche_size_eq size exc util : 0 <= size <= imax i64 + 1 -> 0 <= exc <= 900000000000000 ->
  tranche_size size exc util = Ok (Z.max (size * tranche_bps exc util / 10000) 1).
Proof.
  intros Hs He. unfold tranche_size, tranche_bps. quid_consts. unfold_ints.
  pose proof (clamp_range util 1000 10000 ltac:(lia)) as Hu. set (u := clamp util 1000 10000) in *.
  assert (Hsp : 0 <= 15000 * u / 10000 <= 15000)
    by (split; [apply Z.div_pos|apply Z.div_le_upper_bound]; lia).
  assert (Hq1 : Z.quot (15000 * u) 10000 = 15000 * u / 10000) by (apply quot_div; lia).
  rewrite eval_safe by (cbn [safe value aop_fun]; rewrite Hq1; arith_side). cbn [bind value aop_fun].
  rewrite Hq1. set (sp := 15000 * u / 10000) in *.
  rewrite eval_safe by arith_side. cbn [bind value aop_fun].
  set (ov := Z.max (exc - 3600) 0) in *.
  assert (Hq2 : Z.quot (ov * 10000) (3600 * 42) = ov * 10000 / (3600 * 42)) by (apply quot_div; lia).
  assert (Hcl : 0 <= ov * 10000 / (3600 * 42) <= ov * 10000)
    by (split; [apply Z.div_pos|apply Z.div_le_upper_bound]; lia).
  rewrite eval_safe by (cbn [safe value aop_fun]; rewrite Hq2; arith_side). cbn [bind value aop_fun].
  rewrite Hq2. set (cl := Z.min (ov * 10000 / (3600 * 42)) 10000) in *.
  assert (Hq3 : Z.quot ((185 - 25) * cl) 10000 = 160 * cl / 10000) by (rewrite quot_div by lia; f_equal; lia).
  assert (Hf : 0 <= 160 * cl / 10000 <= 160) by (split; [apply Z.div_pos|apply Z.div_le_upper_bound]; lia).
  rewrite eval_safe by (cbn [safe value aop_fun]; rewrite Hq3; arith_side). cbn [bind value aop_fun].
  rewrite Hq3. set (fr := 25 + 160 * cl / 10000) in *.
  assert (Hq4 : Z.quot (fr * (5000 + sp)) 10000 = fr * (5000 + sp) / 10000) by (apply quot_div; nia).
  rewrite eval_safe by (cbn [safe value aop_fun]; rewrite <- ?Hq4; arith_side). cbn [bind value aop_fun].
  rewrite Hq4. pose proof (clamp_range (fr * (5000 + sp) / 10000) 25 185 ltac:(lia)) as Hfb.
  set (fb := clamp _ 25 185) in *.
  assert (Hq5 : Z.quot (size * fb) 10000 = size * fb / 10000) by (apply quot_div; nia).
  assert (Hv : 0 <= size * fb / 10000 <= size) by (apply mul_div_le; lia).
  rewrite eval_safe by (cbn [safe value aop_fun]; rewrite Hq5; arith_side). cbn [bind value aop_fun].
  rewrite Hq5, cast_id by (unfold_ints; lia). done.
Qed.

Lemma tranche_bps_range exc util : MIN_TRANCHE_BPS <= tranche_bps exc util <= MAX_TRANCHE_BPS.
Proof. apply clamp_range. done. Qed.

Lemma tranche_bps_mono exc exc' util util' : exc <= exc' -> util <= util' ->
  tranche_bps exc util <= tranche_bps exc' util'.
Proof.
  intros He Hu. unfold tranche_bps. quid_consts. apply clamp_mono; [lia|].
  apply Z.div_le_mono; [lia|].
  pose proof (clamp_mono util util' 1000 10000 ltac:(lia) Hu).
  pose proof (clamp_range util 1000 10000 ltac:(lia)).
  assert (15000 * clamp util 1000 10000 / 10000 <= 15000 * clamp util' 1000 10000 / 10000)
    by (apply Z.div_le_mono; lia).
  assert (0 <= 15000 * clamp util 1000 10000 / 10000) by (apply Z.div_pos; lia).
  assert (Hc : Z.max (exc - 3600) 0 * 10000 / (3600 * 42) <= Z.max (exc' - 3600) 0 * 10000 / (3600 * 42))
    by (apply Z.div_le_mono; lia).
  assert (0 <= Z.max (exc - 3600) 0 * 10000 / (3600 * 42)) by (apply Z.div_pos; lia).
  set (c := Z.min _ _). set (c' := Z.min (Z.max (exc' - 3600) 0 * 10000 / (3600 * 42)) _).
  assert (160 * c / 10000 <= 160 * c' / 10000) by (apply Z.div_le_mono; unfold c, c'; lia).
  assert (0 <= 160 * c / 10000) by (apply Z.div_pos; unfold c; lia).
  apply Z.mul_le_mono_nonneg; lia.
Qed.

(** The ladder is gentle and monotone.  A tranche always exists, takes at
    least one unit and otherwise between 25 and 185 bps of the position, and
    never shrinks when the excursion lengthens or the pool fills up. *)
Theorem tranche_size_ladder size exc exc' util util' :
  0 <= size <= imax i64 + 1 -> 0 <= exc <= exc' -> exc' <= 900000000000000 -> util <= util' ->
  exists t t', tranche_size size exc util = Ok t /\ tranche_size size exc' util' = Ok t' /\
    1 <= t <= t' /\ size * MIN_TRANCHE_BPS / 10000 <= t /\
    t' <= Z.max 1 (size * MAX_TRANCHE_BPS / 10000).
Proof.
  intros Hs He He' Hu. rewrite !tranche_size_eq by lia. do 2 eexists. split_and!; try reflexivity.
  all: pose proof (tranche_bps_mono exc exc' util util' ltac:(lia) Hu);
    pose proof (tranche_bps_range exc util); pose proof (tranche_bps_range exc' util').
  - lia.
  - apply Z.max_le_compat_r, Z.div_le_mono; nia.
  - etransitivity; [|apply Z.le_max_l]. apply Z.div_le_mono; [lia|]. quid_consts. nia.
  - rewrite Z.max_comm. apply Z.max_le_compat_l, Z.div_le_mono; nia.
Qed.

Lemma tranche_size_ladder_witness :
  tranche_size 1000000 3601 1000 = Ok 2500 /\ tranche_size 1000000 200000 9000 = Ok 18500 /\
  exists t t', tranche_size 1000000 3601 1000 = Ok t /\ tranche_size 1000000 200000 9000 = Ok t' /\
    1 <= t <= t'.
Proof.
  split; [vm_compute; reflexivity|]. split; [vm_compute; reflexivity|].
  destruct (tranche_size_ladder 1000000 3601 200000 1000 9000) as (t & t' & ? & ? & ? & _).
  1: vm_compute; split; discriminate.
  1-3: lia.
  exists t, t'. auto.
Defined.

(** ** Well-formed pods *)
Record wf_pod (p : Stock) : Prop := {
  wp_pledged : in_range u64 (pledged p);
  wp_exposure : - imax i64 <= exposure p <= imax i64;
  wp_updated : in_range i64 (updated p);
  wp_collar : in_range u16 (pod_collar_bps p);
  wp_marked : in_range u64 (marked p);
  wp_breached : in_range i64 (breached_at p)
}.
#[export] Hint Resolve wp_pledged wp_exposure wp_updated wp_collar wp_marked wp_breached : quid.

(** The reference a pod's P&L is measured from. *)
Definition mark_of (p : Stock) : Z := if marked p =? 0 then pledged p else marked p.

Lemma mark_of_range p : wf_pod p -> in_range u64 (mark_of p).
Proof. intros H. unfold mark_of. case_match; eauto with quid. Qed.

Lemma value_at_range p price : 0 <= value_at p price <= imax u64.
Proof. apply units_value_range. Qed.

Lemma value_units_range d price : 0 <= d -> 0 <= price -> 0 <= value_units d price <= imax u64.
Proof.
  intros. unfold value_units. case_match; [done|]. apply Z.eqb_neq in H1.
  pose proof (sat_in_range u128 (d * PRICE_SCALE) ltac:(done)) as Hr. unfold in_range in Hr.
  assert (0 <= sat u128 (d * PRICE_SCALE) / price) by (apply Z.div_pos; cbn in *; lia).
  unfold_ints. lia.
Qed.

Section Engine.
Context (a : Actuary) `{HL : RiskLaws a}.

Lemma leverage_range e pl : 0 <= e <= imax u64 -> 0 <= pl <= imax u64 ->
  wp (new_leverage e pl) (fun l => 0 <= l <= imax i64).
Proof.
  intros He Hp. unfold new_leverage. unfold_ints. apply wp_if; intros Hx.
  - apply Z.ltb_lt in Hx. wp_go. wp_go. quot_facts. lia.
  - wp_step; wp_step; lia.
Qed.

Lemma liability_total old oc e pl : 0 <= e <= imax u64 -> 0 <= pl <= imax u64 ->
  wp (liability_compute old oc e pl a)
     (fun l => 1 <= new_collar_bps l <= BPS /\ 0 <= new_collar_dollars l <= imax u64).
Proof.
  intros He Hp. unfold liability_compute. wp_call leverage_range as lev Hlev; [done|done|].
  wp_call law_collar as c Hc; [done|]. quid_consts.
  wp_go. cbn [new_collar_bps new_collar_dollars]. rewrite cast_id by (unfold_ints; lia).
  split; [lia|].
  match goal with |- 0 <= sat u64 ?x / _ <= _ => pose proof (sat_in_range u64 x ltac:(done)) as Hs;
    set (v := sat u64 x) in * end.
  unfold_ints. split; [apply Z.div_pos|apply Z.div_le_upper_bound]; lia.
Qed.

(** The rung a tranche takes: between one unit and the whole position. *)
Lemma rung_range p price exc util : wf_pod p -> exposure p <> 0 -> 0 <= price <= imax u64 ->
  0 <= exc <= 900000000000000 ->
  wp (tranche_size (Z.abs (exposure p)) exc util)
     (fun t => 1 <= Z.min (Z.max t (restoring_units p price)) (Z.abs (exposure p)) <= Z.abs (exposure p)).
Proof.
  intros Hp Hne Hpr He. pose proof (wp_exposure p Hp).
  rewrite tranche_size_eq by lia. apply wp_ok. lia.
Qed.

(** What closing [tr] units of a pod costs its pledge. *)
Definition slice_of (v tr e : Z) : Z := v * tr / Z.abs e.
Definition slice_loss (p : Stock) (tr price : Z) : Z :=
  let pnl := (units_value tr price - slice_of (mark_of p) tr (exposure p)) *
             (if 0 <? exposure p then 1 else -1) in
  if pnl <? 0 then Z.min (- pnl) (slice_of (pledged p) tr (exposure p)) else 0.

Lemma slice_range v tr e : 0 <= v -> 0 <= tr <= Z.abs e -> e <> 0 -> 0 <= slice_of v tr e <= v.
Proof. intros. unfold slice_of. apply mul_div_le; lia. Qed.

Lemma slice_loss_range p tr price : wf_pod p -> exposure p <> 0 -> 0 <= tr <= Z.abs (exposure p) ->
  0 <= slice_loss p tr price <= slice_of (pledged p) tr (exposure p).
Proof.
  intros Hp Hne Ht. unfold slice_loss.
  pose proof (slice_range (pledged p) tr (exposure p)). pose proof (wp_pledged p Hp). unfold_ints.
  case_match; lia.
Qed.

(** The pod and the report after one tranche. *)
Record tranche_ok (p : Stock) (price now : Z) (p' : Stock) (r : tranche_report) (tr : Z) : Prop := {
  tk_size : 1 <= tr <= Z.abs (exposure p);
  tk_exposure : exposure p' = exposure p - Z.sgn (exposure p) * tr;
  tk_pledged : pledged p' = pledged p - slice_loss p tr price;
  tk_marked : marked p' = if exposure p' =? 0 then 0
                          else marked p - Z.min (slice_of (mark_of p) tr (exposure p)) (marked p);
  tk_clock : breached_at p' = if exposure p' =? 0 then 0
                              else sat i64 (breached_at p + LIQ_GRACE_SECS);
  tk_meter : updated p' = now /\ ticker p' = ticker p;
  tk_collar : 1 <= pod_collar_bps p' <= BPS;
  tk_dollars : r.1.1.1.1 = - Z.min (sat u64 (units_value tr price -
                 (slice_of (pledged p) tr (exposure p) - slice_loss p tr price))) (imax i64);
  tk_closed : r.2 = (exposure p' =? 0)
}.

Lemma sgn_reduce e tr : e <> 0 -> 1 <= tr <= Z.abs e -> - imax i64 <= e <= imax i64 ->
  (if 0 <? e then sat i64 (e - cast i64 tr) else sat i64 (e + cast i64 tr)) = e - Z.sgn e * tr /\
  Z.abs (e - Z.sgn e * tr) + tr = Z.abs e.
Proof.
  intros Hne Ht He. rewrite cast_id by (unfold_ints; lia). unfold_ints.
  destruct (Z.ltb_spec 0 e); rewrite sat_id by (unfold_ints; lia); lia.
Qed.

Lemma amortise_total p price exc util old now : wf_pod p -> exposure p <> 0 ->
  0 <= price <= imax u64 -> 0 <= exc <= 900000000000000 ->
  wp (amortise_tranche p price exc util a old now)
     (fun '(p', r) => exists tr, tranche_ok p price now p' r tr).
Proof.
  intros Hp Hne Hpr He. pose proof (wp_exposure p Hp) as Hex. unfold amortise_tranche.
  wp_call rung_range as t Ht; [done|done|exact Hpr|done|].
  set (tr := Z.min (Z.max t (restoring_units p price)) (Z.abs (exposure p))) in *. clearbody tr.
  destruct (sgn_reduce (exposure p) tr Hne Ht Hex) as [Hred Hsum].
  fold (mark_of p). pose proof (mark_of_range p Hp) as Hmk. pose proof (wp_pledged p Hp) as Hpl.
  pose proof (wp_marked p Hp) as Hmkd.
  pose proof (slice_range (mark_of p) tr (exposure p)) as Hsm.
  pose proof (slice_range (pledged p) tr (exposure p)) as Hsp.
  pose proof (slice_loss_range p tr price Hp Hne ltac:(lia)) as Hloss.
  pose proof (units_value_range tr price) as Huv.
  cbv zeta. cbn [exposure pledged marked spend_grace modify]. rewrite Hred, Hsum.
  rewrite (sat_id u64 (Z.abs (exposure p))) by (unfold_ints; lia). rewrite Z.max_l by lia.
  unfold in_range in Hmk, Hpl, Hmkd. cbn [imin imax u64] in Hmk, Hpl, Hmkd.
  assert (Hqm : Z.quot (mark_of p * tr) (Z.abs (exposure p)) = slice_of (mark_of p) tr (exposure p))
    by (apply quot_div; nia).
  assert (Hqp : Z.quot (pledged p * tr) (Z.abs (exposure p)) = slice_of (pledged p) tr (exposure p))
    by (apply quot_div; nia).
  wp_head. apply wp_eval; [cbn [safe value aop_fun]; rewrite Hqm; unfold_ints; nia|].
  cbn [value aop_fun]. rewrite Hqm.
  wp_head. apply wp_eval; [cbn [safe value aop_fun]; rewrite Hqp; unfold_ints; nia|].
  cbn [value aop_fun]. rewrite Hqp, !(cast_id u64) by (unfold_ints; lia).
  wp_head. apply wp_eval.
  { cbn [safe value aop_fun]. unfold_ints. case_match; lia. }
  cbn [value aop_fun].
  set (pnl := (units_value tr price - slice_of (mark_of p) tr (exposure p)) * _).
  assert (Hc : (if pnl <? 0 then Z.min (cast u64 (Z.abs pnl)) (slice_of (pledged p) tr (exposure p)) else 0)
               = slice_loss p tr price).
  { unfold slice_loss. fold pnl. destruct (Z.ltb_spec pnl 0); [|done].
    rewrite cast_id; [f_equal; lia|]. unfold_ints. unfold pnl in *. case_match; lia. }
  rewrite Hc. clearbody pnl. set (loss := slice_loss p tr price) in *.
  rewrite (sat_id u64 (pledged p - loss)) by (unfold_ints; lia).
  rewrite (sat_id u64 (slice_of _ _ _ - loss)) by (unfold_ints; lia).
  rewrite (sat_id u64 (marked p - _)) by (unfold_ints; lia).
  destruct (exposure p - Z.sgn (exposure p) * tr =? 0) eqn:Ez; cbn [pod_collar_bps pledged modify].
  all: wp_call liability_total as l Hl; [apply value_at_range | cbn; lia |].
  all: cbn; rewrite Ez; apply wp_ok; exists tr; constructor; cbn; rewrite ?Ez; try done; try lia.
Qed.

(** A winning slice loses nothing. *)
Lemma winning_slice p tr price : wf_pod p -> exposure p <> 0 -> 1 <= tr <= Z.abs (exposure p) ->
  0 <= price -> Z.abs (exposure p) * price <= imax u64 ->
  (0 < exposure p /\ mark_of p <= value_at p price \/ exposure p < 0 /\ value_at p price < mark_of p) ->
  slice_loss p tr price = 0.
Proof.
  intros Hp Hne Ht Hpr Hfit Hwin. pose proof (mark_of_range p Hp) as Hm.
  unfold slice_loss, slice_of, value_at in *. rewrite units_value_eq in Hwin by (unfold_ints; lia).
  rewrite units_value_eq by (unfold_ints; nia). set (e := Z.abs (exposure p)) in *.
  set (m := mark_of p) in *. pool_consts. unfold_ints.
  assert (Hlong : m <= e * price / 1000000 -> m * tr / e <= tr * price / 1000000).
  { intros H. apply Z.div_le_lower_bound; [lia|].
    assert (e * (m * tr / e) <= m * tr) by (apply Z.mul_div_le; lia).
    assert (m * 1000000 <= e * price) by (pose proof (Z.mul_div_le (e * price) 1000000); lia).
    nia. }
  assert (Hshort : e * price / 1000000 < m -> tr * price / 1000000 <= m * tr / e).
  { intros H. apply Z.div_le_lower_bound; [lia|].
    assert (1000000 * (tr * price / 1000000) <= tr * price) by (apply Z.mul_div_le; lia).
    assert (e * price < m * 1000000) by (pose proof (Z.mul_succ_div_gt (e * price) 1000000); nia).
    nia. }
  rewrite (proj2 (Z.ltb_ge _ 0)); [done|].
  destruct Hwin as [[? Hw]|[? Hw]].
  - rewrite (proj2 (Z.ltb_lt 0 (exposure p))) by lia. specialize (Hlong Hw). lia.
  - rewrite (proj2 (Z.ltb_ge 0 (exposure p))) by lia. specialize (Hshort Hw). lia.
Qed.
End Engine.

(** A liquidation tranche is sound.  On any well-formed open position it
    returns; it moves the exposure strictly toward zero and never across it; it
    takes from the pledge no more than the slice lost — nothing at all when the
    position is winning — and never a negative amount; and it spends one grace
    period of the excursion unless the position closed, which stops the clock. *)
Theorem amortise_tranche_sound a p price exc util old now : RiskLaws a -> wf_pod p ->
  exposure p <> 0 -> 0 <= price -> Z.abs (exposure p) * price <= imax u64 -> price <= imax u64 ->
  0 <= exc <= 900000000000000 ->
  exists p' dollars cb ip cds closed,
    amortise_tranche p price exc util a old now = Ok (p', (dollars, cb, ip, cds, closed)) /\
    Z.abs (exposure p') < Z.abs (exposure p) /\ 0 <= exposure p' * exposure p /\
    0 <= pledged p' <= pledged p /\ dollars <= 0 /\ closed = (exposure p' =? 0) /\
    breached_at p' = (if closed then 0 else sat i64 (breached_at p + LIQ_GRACE_SECS)) /\
    ((0 < exposure p /\ mark_of p <= value_at p price
      \/ exposure p < 0 /\ value_at p price < mark_of p) -> pledged p' = pledged p).
Proof.
  intros HL Hp Hne Hpr Hfit Hpu He.
  destruct (wp_elim _ _ (amortise_total a p price exc util old now Hp Hne ltac:(lia) He))
    as ([p' [[[[dollars cb] ip] cds] closed]] & Heq & tr & [Htr Hx Hpl Hmk Hck Hmt Hcl Hd Hc]).
  cbn in Hd, Hc. exists p', dollars, cb, ip, cds, closed.
  pose proof (slice_loss_range p tr price Hp Hne ltac:(lia)).
  pose proof (slice_range (pledged p) tr (exposure p)). pose proof (wp_pledged p Hp).
  pose proof (sat_in_range u64 (units_value tr price -
    (slice_of (pledged p) tr (exposure p) - slice_loss p tr price)) ltac:(done)) as Hs.
  unfold in_range in *. cbn [imin imax u64] in *.
  subst closed. split_and!; try done; try lia.
  - rewrite Hx. destruct (Z.lt_trichotomy (exposure p) 0) as [?|[?|?]];
      [rewrite Z.sgn_neg by lia | lia | rewrite Z.sgn_pos by lia]; nia.
  - intros Hwin. rewrite Hpl, (winning_slice p tr price) by done. lia.
Qed.

(** A 5x short, well outside its band. *)
Definition sample_pod : Stock :=
  mkStock [71; 79; 79; 71; 0; 0; 0; 0] 2000000000 (-50000000) 86400 300 2000000000 0 0 0 0 0
    10000000000 90000.

Lemma sample_pod_wf : wf_pod sample_pod.
Proof. constructor; vm_compute; split; discriminate. Qed.

Lemma amortise_tranche_sound_witness :
  exists p' dollars cb ip cds closed,
    amortise_tranche sample_pod 230000000 7200 5000 sample_actuary 11500000000 100000
      = Ok (p', (dollars, cb, ip, cds, closed)) /\
    Z.abs (exposure p') < Z.abs (exposure sample_pod) /\ 0 <= pledged p' <= pledged sample_pod.
Proof.
  destruct (amortise_tranche_sound sample_actuary sample_pod 230000000 7200 5000 11500000000 100000)
    as (p' & d & cb & ip & cds & cl & ? & ? & _ & ? & _).
  - apply sample_laws.
  - apply sample_pod_wf.
  - vm_compute. discriminate.
  - vm_compute. discriminate.
  - vm_compute. discriminate.
  - vm_compute. discriminate.
  - lia.
  - exists p', d, cb, ip, cds, cl. auto.
Defined.

(** ** The ladder over time *)
Lemma set_pod_lookup d i p p' : balances d !! i = Some p -> balances (set_pod d i p') !! i = Some p'.
Proof. intros H. cbn. apply list_lookup_insert_eq. by eapply lookup_lt_Some. Qed.

Lemma update_drawn_balances d x : balances (update_drawn d x) = balances d.
Proof. unfold update_drawn. by case_match. Qed.

Lemma excursion_ok p now : in_range i64 (breached_at p) -> 0 <= now <= imax i64 ->
  0 <= breached_at p ->
  excursion p now = Ok (if breached_at p =? 0 then p <| breached_at := now |> else p,
                        if breached_at p =? 0 then 0 else Z.max (now - breached_at p) 0).
Proof.
  intros Hb Hn H0. unfold excursion. unfold_ints. case_match; cbv zeta; cbn [breached_at modify].
  - rewrite eval_safe by arith_side. cbn [bind value aop_fun]. do 2 f_equal. lia.
  - rewrite eval_safe by arith_side. done.
Qed.

(** One call of [unwind_a_tranche] on an open position whose clock is running:
    a wait inside the grace period, a rung after it. *)
Lemma unwind_running a d i p price util b old ct now acc : RiskLaws a ->
  balances d !! i = Some p -> wf_pod p -> exposure p <> 0 -> 0 < breached_at p ->
  0 <= price <= imax u64 -> 0 <= now <= 900000000000000 ->
  if now - breached_at p <=? LIQ_GRACE_SECS then
    unwind_a_tranche d i price util a b old ct now acc = Ok (set_pod d i p, b, (0, acc))
  else forall d' b' r, unwind_a_tranche d i price util a b old ct now acc = Ok (d', b', r) ->
    exists p' rep tr, balances d' = <[i:=p']> (balances d) /\ tranche_ok p price ct p' rep tr.
Proof.
  intros HL Hi Hp Hne Hck Hpr Hn. pose proof (wp_breached p Hp) as Hb.
  unfold unwind_a_tranche, get_pod. rewrite Hi. cbn [bind].
  rewrite excursion_ok by (unfold_ints; lia). cbn [bind]. rewrite (proj2 (Z.eqb_neq _ 0)) by lia.
  replace (Z.max (now - breached_at p) 0 <=? LIQ_GRACE_SECS)
    with (now - breached_at p <=? LIQ_GRACE_SECS) by (quid_consts; lia).
  case_match; [done|]. intros d' b' r Hrun.
  destruct (wp_elim _ _ (amortise_total a p price (Z.max (now - breached_at p) 0) util old ct
    Hp Hne Hpr ltac:(lia))) as ([p' rep] & Heq & tr & Hok).
  rewrite Heq in Hrun. cbn [bind] in Hrun. destruct rep as [[[[dl cb] ip] cds] cl].
  exists p', (dl, cb, ip, cds, cl), tr. split; [|done].
  destruct cl.
  - apply bind_ok in Hrun as ([d1 net] & Hf & Hrun). injection Hrun as <- _ _.
    unfold flush_raroc in Hf. apply bind_ok in Hf as (? & _ & Hf). injection Hf as <- _.
    cbn. by rewrite update_drawn_balances.
  - injection Hrun as <- _ _. by rewrite update_drawn_balances.
Qed.

(** Any sequence of cranks, at any prices, on a position that stays open; the
    counter is the number of cranks that moved it. *)
Inductive ladder (i : nat) (d0 : Depositor) (T : Z) : Z -> Depositor -> Prop :=
| ladder_nil : ladder i d0 T 0 d0
| ladder_crank k d p p' a price util b old ct now acc d' b' r :
    ladder i d0 T k d -> RiskLaws a -> balances d !! i = Some p ->
    0 <= price <= imax u64 -> in_range i64 ct -> 0 <= now <= T ->
    unwind_a_tranche d i price util a b old ct now acc = Ok (d', b', r) ->
    balances d' !! i = Some p' -> exposure p' <> 0 ->
    ladder i d0 T (if exposure p' =? exposure p then k else k + 1) d'.

Lemma tranche_wf p price ct p' rep tr : wf_pod p -> exposure p <> 0 -> in_range i64 ct ->
  tranche_ok p price ct p' rep tr -> wf_pod p'.
Proof.
  intros Hp Hne Hct [Htr Hx Hpl Hmk Hck [Hmt _] Hcl _ _].
  pose proof (slice_loss_range p tr price Hp Hne ltac:(lia)).
  pose proof (slice_range (pledged p) tr (exposure p)).
  pose proof (slice_range (mark_of p) tr (exposure p)).
  pose proof (mark_of_range p Hp). pose proof (wp_pledged p Hp). pose proof (wp_marked p Hp).
  pose proof (wp_exposure p Hp). unfold in_range in *. cbn [imin imax u64 i64 u16] in *.
  constructor; unfold in_range; cbn [imin imax u64 i64 u16]; quid_consts; try lia.
  - rewrite Hmk. case_match; lia.
  - rewrite Hck. case_match; [lia|]. apply (sat_in_range i64). cbn. lia.
Qed.

(** C7: The ladder is rate limited.  However often anyone cranks a position that
    stays open, at whatever prices, utilisations and tail states: the number of
    tranches taken by time [T] is at most the number of whole grace periods that
    have elapsed since the breach was first seen, each one spends exactly one
    grace period of the excursion, and each one closes at least one unit. *)
Theorem ladder_rate_limited i d0 T k d p0 : ladder i d0 T k d -> T <= 900000000000000 ->
  balances d0 !! i = Some p0 -> wf_pod p0 -> exposure p0 <> 0 -> 0 < breached_at p0 ->
  exists p, balances d !! i = Some p /\ 0 <= k /\
    (k = 0 \/ k * LIQ_GRACE_SECS < T - breached_at p0) /\
    breached_at p = breached_at p0 + k * LIQ_GRACE_SECS /\
    Z.abs (exposure p) + k <= Z.abs (exposure p0).
Proof.
  intros Hlad HT H0 Hwf0 Hne0 Hck0.
  cut (exists p, balances d !! i = Some p /\ 0 <= k /\
    (k = 0 \/ k * LIQ_GRACE_SECS < T - breached_at p0) /\
    breached_at p = breached_at p0 + k * LIQ_GRACE_SECS /\
    Z.abs (exposure p) + k <= Z.abs (exposure p0) /\ wf_pod p /\ exposure p <> 0).
  { intros (p & ? & ? & ? & ? & ? & _). by exists p. }
  induction Hlad as [|k d p p' a price util b old ct now acc d' b' r _ IH HL Hi Hpr Hct Hn Hrun Hi' Hne'].
  { exists p0. split_and!; try done; lia. }
  destruct IH as (p1 & Hp1 & Hk & Hrate & Hclock & Hexp & Hwf & Hne). simplify_eq.
  quid_consts. unfold_ints.
  pose proof (unwind_running a d i p price util b old ct now acc HL Hi Hwf Hne ltac:(lia)
    ltac:(unfold_ints; lia) ltac:(lia)) as Hstep.
  unfold LIQ_GRACE_SECS in Hstep. destruct (Z.leb_spec (now - breached_at p) 3600) as [Hwait|Hgo].
  - rewrite Hstep in Hrun. injection Hrun as <- _ _.
    rewrite (set_pod_lookup d i p p Hi) in Hi'. injection Hi' as <-.
    rewrite Z.eqb_refl. exists p. split_and!; try done; try lia. by apply (set_pod_lookup d i p).
  - destruct (Hstep _ _ _ Hrun) as (p2 & rep & tr & Hbal & Hok).
    assert (Hi2 : balances d' !! i = Some p2).
    { rewrite Hbal. apply list_lookup_insert_eq. by eapply lookup_lt_Some. }
    rewrite Hi' in Hi2. injection Hi2 as ->.
    pose proof (tranche_wf p price ct p2 rep tr Hwf Hne Hct Hok).
    destruct Hok as [Htr Hx _ _ Hc _ _ _ _]. pose proof (wp_exposure p Hwf) as Hxr. unfold_ints.
    destruct (sgn_reduce (exposure p) tr Hne Htr ltac:(unfold_ints; lia)) as [_ Hsum].
    rewrite <- Hx in Hsum. rewrite (proj2 (Z.eqb_neq (exposure p2) (exposure p))) by lia.
    rewrite (proj2 (Z.eqb_neq (exposure p2) 0)) in Hc by done. quid_consts.
    rewrite sat_id in Hc by (unfold_ints; lia).
    exists p2. split_and!; try done; try lia.
Qed.

Definition sample_depositor : Depositor :=
  depositor_default <| owner := 7 |> <| deposited_quid := 500000000 |>
    <| balances := [sample_pod] |> <| drawn := 10000000000 |>.

Definition sample_bank' : Depository :=
  depository_default <| total_deposits := 900000000000 |>.

Ltac crank_from H :=
  eapply (ladder_crank _ _ _ _ _ _ _ sample_actuary 230000000 5000 sample_bank 11500000000
    100000 100000 0);
  [exact H | exact sample_laws | vm_compute; reflexivity | vm_compute; split; discriminate
  | vm_compute; split; discriminate | vm_compute; split; discriminate | vm_compute; reflexivity
  | vm_compute; reflexivity | vm_compute; discriminate].

(** Three cranks in the same instant, 10000 seconds into the breach: two rungs. *)
Lemma ladder_rate_limited_witness : exists k d p,
  ladder 0 sample_depositor 100000 k d /\ k = 2 /\ balances d !! 0%nat = Some p /\
  k * LIQ_GRACE_SECS < 100000 - breached_at sample_pod.
Proof.
  assert (H : exists k d, ladder 0 sample_depositor 100000 k d /\ k = 2).
  { pose proof (ladder_nil 0 sample_depositor 100000) as H0.
    eassert (ladder 0 sample_depositor 100000 _ _) as H1 by crank_from H0.
    eassert (ladder 0 sample_depositor 100000 _ _) as H2 by crank_from H1.
    eassert (ladder 0 sample_depositor 100000 _ _) as H3 by crank_from H2.
    eexists _, _. split; [exact H3 | vm_compute; reflexivity]. }
  destruct H as (k & d & Hl & Hk).
  destruct (ladder_rate_limited 0 sample_depositor 100000 k d sample_pod Hl) as (p & Hp & _ & Hr & _).
  - lia.
  - reflexivity.
  - apply sample_pod_wf.
  - vm_compute. discriminate.
  - vm_compute. reflexivity.
  - exists k, d, p. split; [exact Hl|]. split; [exact Hk|]. split; [exact Hp|].
    destruct Hr as [Hr|Hr]; [rewrite Hk in Hr; discriminate | exact Hr].
Defined.

(** ** Curing a breach *)

(** What a position is worth to its holder: pledge plus P&L against the mark. *)
Definition side_of (p : Stock) : Z := if 0 <=? exposure p then 1 else -1.
Definition equity (p : Stock) (value : Z) : Z :=
  pledged p + (value - mark_of p) * side_of p.

(** What the depositor pays for an excess, and what of it reaches the pledge. *)
Definition gross_of (x : Z) : Z := x + x / 250.
Definition net_of (x : Z) : Z := gross_of x - gross_of x / 250.

Lemma net_of_le x : 0 <= x -> 0 <= net_of x <= x.
Proof. intros. unfold net_of, gross_of. Z.to_euclidean_division_equations. lia. Qed.

(** Variation margin, on every branch.  The call does nothing when the free
    balance cannot cover the excess plus its fee, errs with [PoolAtCapacity] when
    the re-marked collar does not fit the pool, and otherwise takes exactly the
    gross from the free balance, settles the unrealised profit or loss into the
    pledge, re-centres the mark on the current value and stops the excursion —
    leaving the holder's equity higher by exactly the net amount posted. *)
Theorem variation_margin_settles a p dq b old ev excess now : RiskLaws a -> wf_pod p ->
  0 <= dq <= imax u64 -> 0 < ev <= imax u64 -> 0 <= excess -> gross_of excess <= imax u64 ->
  0 <= equity p ev + net_of excess <= imax u64 ->
  let res := post_variation_margin p dq b a old ev excess now in
  if dq <? gross_of excess then res = Ok None
  else exists l, liability_compute old (pod_collar_bps p) ev (equity p ev + net_of excess) a = Ok l /\
    if has_capacity b (sat u64 (new_collar_dollars l - old_collar_dollars l)) then
      exists p', res = Ok (Some (p', dq - gross_of excess, gross_of excess)) /\
        equity p' ev = equity p ev + net_of excess /\ marked p' = ev /\
        exposure p' = exposure p /\ breached_at p' = 0 /\ updated p' = now
    else res = Err PoolAtCapacity.
Proof.
  intros HL Hp Hdq Hev Hx Hg Heq res. unfold res, post_variation_margin.
  pose proof (mark_of_range p Hp) as Hm. pose proof (wp_pledged p Hp) as Hpl.
  pose proof (net_of_le excess Hx) as Hn.
  assert (Hgr : 0 <= gross_of excess) by (unfold gross_of; Z.to_euclidean_division_equations; lia).
  assert (Hg250 : 0 <= gross_of excess / 250 <= gross_of excess)
    by (split; [apply Z.div_pos|apply Z.div_le_upper_bound]; lia).
  assert (Hng : net_of excess <= gross_of excess) by (unfold net_of; lia).
  unfold in_range in *. cbn [imin imax u64] in *.
  fold (gross_of excess). rewrite (sat_id u64 (gross_of excess)) by (unfold_ints; lia).
  destruct (Z.ltb_spec dq (gross_of excess)) as [|Hfund]; [done|].
  fold (net_of excess). rewrite (sat_id u64 (net_of excess)) by (unfold_ints; lia).
  replace (if negb (marked p =? 0) then marked p else pledged p) with (mark_of p)
    by (unfold mark_of; by destruct (marked p =? 0)).
  fold (side_of p). assert (Hs : side_of p = 1 \/ side_of p = -1) by (unfold side_of; case_match; lia).
  assert (Hmtm : - 18446744073709551615 <= (ev - mark_of p) * side_of p <= 18446744073709551615)
    by (destruct Hs as [-> | ->]; lia).
  rewrite eval_safe by (unfold_ints; cbn [safe value aop_fun]; unfold_ints; lia). cbn [bind value aop_fun].
  rewrite eval_safe by (unfold_ints; cbn [safe value aop_fun]; unfold_ints; lia). cbn [bind value aop_fun].
  replace (pledged p + net_of excess + (ev - mark_of p) * side_of p)
    with (equity p ev + net_of excess) by (unfold equity; lia).
  rewrite clamp_id by (cbn; lia).
  destruct (wp_elim _ _ (liability_total a old (pod_collar_bps p) ev (equity p ev + net_of excess)
    ltac:(cbn; lia) ltac:(cbn; lia))) as (l & Hl & _).
  exists l. split; [done|]. rewrite Hl. cbn [bind]. unfold require. case_match; [|done].
  cbn [bind]. rewrite eval_safe by (unfold_ints; cbn [safe value aop_fun]; unfold_ints; lia).
  cbn [bind value aop_fun]. eexists. split; [reflexivity|].
  unfold liability_apply. cbn. split_and!; try done.
  unfold equity at 1, mark_of at 1, side_of at 1. cbn. rewrite (proj2 (Z.eqb_neq ev 0)) by lia. lia.
Qed.

Lemma variation_margin_settles_witness :
  exists p', post_variation_margin sample_pod 600000000 sample_bank' sample_actuary
      10500000000 10500000000 500000000 100000 = Ok (Some (p', 98000000, 502000000)) /\
    equity p' 10500000000 = equity sample_pod 10500000000 + net_of 500000000.
Proof.
  pose proof (variation_margin_settles sample_actuary sample_pod 600000000 sample_bank'
    10500000000 10500000000 500000000 100000 sample_laws sample_pod_wf) as H.
  cbv zeta in H. assert (Hlt : (600000000 <? gross_of 500000000) = false) by (vm_compute; reflexivity).
  rewrite Hlt in H. destruct H as (l & Hl & H).
  1-5: vm_compute; try split; first [discriminate | reflexivity].
  vm_compute in Hl. injection Hl as <-.
  match type of H with if ?c then _ else _ =>
    assert (Hc : c = true) by (vm_compute; reflexivity); rewrite Hc in H end.
  destruct H as (p' & Hr & He & _). exists p'. split; [exact Hr | exact He].
Defined.

(** ** Closing a slice *)
Lemma pro_rata_range c v x : 0 <= c <= v -> 0 <= x <= imax u64 -> v <= imax u64 ->
  pro_rata c v x = x * c / Z.max v 1 /\ 0 <= pro_rata c v x <= x.
Proof.
  intros Hc Hx Hv. unfold pro_rata. unfold_ints. rewrite sat_u128_le by (unfold_ints; nia).
  pose proof (mul_div_le x c (Z.max v 1)). lia.
Qed.

Record wf_close (p : Stock) : Prop := {
  wc_pod : wf_pod p;
  wc_basis : in_range u64 (cost_basis p);
  wc_interest : in_range u64 (interest_paid p)
}.

(** The pod with a slice released. *)
Definition released (p : Stock) (c v now : Z) : Stock :=
  p <| pledged := pledged p - pro_rata c v (pledged p) |>
    <| cost_basis := cost_basis p - pro_rata c v (cost_basis p) |>
    <| marked := marked p - pro_rata c v (marked p) |>
    <| updated := now |>.

Lemma partial_close_eq a p old c v price now ai : RiskLaws a -> wf_close p ->
  0 <= c <= v -> v <= imax u64 -> exists l,
  settle_partial_close p a old c v price now ai =
    let q := released p c v now in
    Ok (liability_apply l (if exposure p =? 0 then q <| marked := 0 |> <| cost_basis := 0 |>
          <| interest_paid := 0 |> <| collar_dollar_seconds := 0 |> else q),
        mkCloseReport (pro_rata c v (pledged p)) (pro_rata c v (cost_basis p)) (pro_rata c v ai)
          (cost_basis q, interest_paid p, collar_dollar_seconds p) (exposure p =? 0)).
Proof.
  intros HL [Hp Hcb Hip] Hc Hv. pose proof (wp_pledged p Hp) as Hpl.
  pose proof (wp_marked p Hp) as Hmk. unfold in_range in Hpl, Hmk, Hcb, Hip.
  cbn [imin imax u64] in Hpl, Hmk, Hcb, Hip.
  destruct (pro_rata_range c v (pledged p) Hc ltac:(cbn; lia) Hv) as [_ Rpl].
  destruct (pro_rata_range c v (marked p) Hc ltac:(cbn; lia) Hv) as [_ Rmk].
  destruct (pro_rata_range c v (cost_basis p) Hc ltac:(cbn; lia) Hv) as [_ Rcb].
  unfold settle_partial_close. cbv zeta. rewrite !(sat_id u64) by (unfold_ints; lia).
  match goal with |- context [liability_compute old ?oc ?e ?pl a] =>
    destruct (wp_elim _ _ (liability_total a old oc e pl (value_at_range _ _) ltac:(cbn; lia)))
      as (l & Hl & _); rewrite Hl end.
  by exists l.
Qed.

(** A partial close releases exactly its share.  Collateral, cost basis and
    mark each fall by the closed fraction of what they were, rounded down, and
    what is released plus what stays is what was there; closing the whole value
    releases everything; the exposure is not touched and the report says whether
    the position is gone. *)
Theorem partial_close_conserves a p old c v price now ai : RiskLaws a -> wf_close p ->
  0 <= c <= v -> v <= imax u64 -> 0 <= ai <= imax u64 ->
  exists p' rep, settle_partial_close p a old c v price now ai = Ok (p', rep) /\
    pledged p' + pledged_released rep = pledged p /\
    pledged_released rep = pledged p * c / Z.max v 1 /\
    interest_on_closed rep <= ai /\
    (exposure p <> 0 -> cost_basis p' + cost_basis_released rep = cost_basis p /\
       marked p' = marked p - marked p * c / Z.max v 1) /\
    (c = v -> 0 < v -> pledged p' = 0) /\
    exposure p' = exposure p /\ fully_closed rep = (exposure p =? 0) /\
    (fully_closed rep = true -> marked p' = 0 /\ cost_basis p' = 0 /\ interest_paid p' = 0).
Proof.
  intros HL Hwf Hc Hv Hai. destruct (partial_close_eq a p old c v price now ai HL Hwf Hc Hv) as (l & ->).
  destruct Hwf as [Hp Hcb Hip]. pose proof (wp_pledged p Hp) as Hpl.
  pose proof (wp_marked p Hp) as Hmk. unfold in_range in *. cbn [imin imax u64] in *.
  destruct (pro_rata_range c v (pledged p) Hc ltac:(cbn; lia) Hv) as [Epl Rpl].
  destruct (pro_rata_range c v (marked p) Hc ltac:(cbn; lia) Hv) as [Emk Rmk].
  destruct (pro_rata_range c v ai Hc Hai Hv) as [Eai Rai].
  do 2 eexists. split; [reflexivity|]. unfold liability_apply, released.
  assert (Hfull : c = v -> 0 < v -> pro_rata c v (pledged p) = pledged p).
  { intros -> ?. rewrite Epl, Z.max_l by lia. apply Z.div_mul. lia. }
  destruct (exposure p =? 0) eqn:Ez; cbn; split_and!; try done; try lia.
Qed.

Lemma partial_close_conserves_witness :
  exists p' rep, settle_partial_close sample_pod sample_actuary 10000000000 2500000000 10000000000
      200000000 100000 4000 = Ok (p', rep) /\ pledged_released rep = 500000000 /\
    pledged p' + pledged_released rep = pledged sample_pod.
Proof.
  destruct (partial_close_conserves sample_actuary sample_pod 10000000000 2500000000 10000000000
    200000000 100000 4000 sample_laws) as (p' & rep & H & Hc & Hr & _).
  1: constructor; [exact sample_pod_wf | vm_compute; split; discriminate | vm_compute; split; discriminate].
  1-3: vm_compute; try split; discriminate.
  exists p', rep. split; [exact H|]. split; [rewrite Hr; vm_compute; reflexivity | exact Hc].
Defined.

(** ** Funding is zero-sum *)
Lemma find_pod_lookup l t i p : find_pod l t = Some (i, p) -> l !! i = Some p /\ ticker p = t.
Proof. unfold find_pod. intros H. apply list_find_Some in H as (? & ? & _). done. Qed.

Lemma funding_owed_total r v ck : in_range i64 v ->
  - 1000000000000000000 <= funding_index (actuary r) - ck <= 1000000000000000000 ->
  wp (funding_owed r v ck) (fun '(o, idx) => imin i64 <= o <= imax i64 /\
    idx = funding_index (actuary r) /\ (ck = funding_index (actuary r) -> o = 0)).
Proof.
  intros Hv Hd. unfold funding_owed. cbv zeta. unfold in_range in Hv. cbn [imin imax i64] in *.
  apply wp_if; intros Hz; [wp_step; split_and!; cbn; lia|].
  rewrite (sat_id i128 (_ - _)) by (unfold_ints; lia).
  apply wp_if; intros Hz2; [wp_step; split_and!; cbn; lia|]. apply Z.eqb_neq in Hz2.
  rewrite sat_id by (unfold_ints; nia).
  set (x := v * _). assert (Hx : - 10 ^ 37 <= x <= 10 ^ 37) by (unfold x; nia).
  change (10 ^ 37) with 10000000000000000000000000000000000000 in Hx.
  assert (Hq : - 10 ^ 37 <= Z.quot (0 - x) (10000 * 31536000) <= 10 ^ 37)
    by (change (10 ^ 37) with 10000000000000000000000000000000000000;
        Z.to_euclidean_division_equations; lia).
  change (10 ^ 37) with 10000000000000000000000000000000000000 in Hq. quid_consts.
  wp_go. wp_go. split_and!; try done; [| |intros; lia].
  all: match goal with |- context [clamp ?q _ _] => pose proof (clamp_range q (imin i64) (imax i64) ltac:(done)) end; cbn in *; lia.
Qed.

Lemma units_value_i_range u p : in_range i64 (units_value_i u p).
Proof. apply clamp_range. done. Qed.

(** Replacing the pod a search finds by one of the same ticker. *)
Lemma find_pod_insert l t i p p' : find_pod l t = Some (i, p) -> ticker p' = ticker p ->
  find_pod (<[i:=p']> l) t = Some (i, p').
Proof.
  unfold find_pod. intros Hf Htk. apply list_find_Some in Hf as (Hl & Ht & Hfirst).
  apply list_find_Some. split_and!.
  - apply list_lookup_insert_eq. by eapply lookup_lt_Some.
  - congruence.
  - intros j y Hj Hlt. rewrite list_lookup_insert_ne in Hj by lia. by eapply Hfirst.
Qed.

Lemma settle_again d tk r price i p p' : find_pod (balances d) (pad_ticker tk) = Some (i, p) ->
  ticker p' = ticker p -> funding_checkpoint p' = funding_index (actuary r) ->
  settle_funding (set_pod d i p') tk r price = Ok (set_pod d i p', r, 0).
Proof.
  intros Hf Htk Hck. unfold settle_funding. change (balances (set_pod d i p')) with (<[i:=p']> (balances d)).
  rewrite (find_pod_insert _ _ _ _ _ Hf Htk). unfold funding_owed. rewrite Hck, Z.sub_diag.
  replace (if _ =? 0 then Ok (0, _) else _) with (@Ok (Z * Z) (0, funding_index (actuary r)))
    by (by case_match).
  cbn [bind]. change (0 <? 0) with false. cbv iota. rewrite list_insert_insert_eq.
  rewrite <- Hck. do 3 f_equal. by destruct p', d.
Qed.

(** Funding is zero-sum and paid once.  Settling one position moves exactly
    what it gains out of, or what it loses into, the ticker's funding pot: the
    pledge and the pot together are conserved, a receiver never takes more than
    the pot holds and a payer never pays more than the pledge, the reported
    amount is the true change of the pledge, the checkpoint moves to the index,
    and settling again at the same index moves nothing. *)
Theorem funding_zero_sum d tk r price i p : find_pod (balances d) (pad_ticker tk) = Some (i, p) ->
  wf_pod p -> 0 <= funding_pot r -> pledged p + funding_pot r <= imax i64 ->
  - 1000000000000000000 <= funding_index (actuary r) - funding_checkpoint p <= 1000000000000000000 ->
  exists d' r' s p', settle_funding d tk r price = Ok (d', r', s) /\
    balances d' = <[i:=p']> (balances d) /\ deposited_quid d' = deposited_quid d /\
    pledged p' + funding_pot r' = pledged p + funding_pot r /\
    s = pledged p' - pledged p /\ 0 <= pledged p' /\ 0 <= funding_pot r' /\
    funding_checkpoint p' = funding_index (actuary r) /\ exposure p' = exposure p /\
    settle_funding d' tk r' price = Ok (d', r', 0).
Proof.
  intros Hf Hp Hpot Hsum Hdelta. pose proof (wp_pledged p Hp) as Hpl. unfold in_range in Hpl.
  cbn [imin imax u64 i64] in *. destruct (find_pod_lookup _ _ _ _ Hf) as [Hlook Htk].
  destruct (wp_elim _ _ (funding_owed_total r (units_value_i (exposure p) price) (funding_checkpoint p)
    (units_value_i_range _ _) Hdelta)) as ([owed idx] & Ho & Hor & -> & _).
  unfold settle_funding at 1. rewrite Hf, Ho. cbn [bind].
  set (q := p <| funding_checkpoint := funding_index (actuary r) |>).
  change (pledged q) with (pledged p). cbn [imin imax i64] in Hor.
  destruct (Z.ltb_spec 0 owed); [|destruct (Z.ltb_spec owed 0)]; cbn [imax i64].
  - rewrite eval_safe by arith_side. cbn [bind value aop_fun]. rewrite sat_id by (unfold_ints; lia).
    exists (set_pod d i (q <| pledged := pledged p + Z.min owed (funding_pot r) |>)).
    do 3 eexists. split; [reflexivity|]. split; [reflexivity|].
    cbn. split_and!; try done; try lia. by eapply settle_again.
  - rewrite eval_safe by arith_side. cbn [bind value aop_fun]. rewrite sat_id by (unfold_ints; lia).
    exists (set_pod d i (q <| pledged := pledged p - Z.min (Z.abs owed) (pledged p) |>)).
    do 3 eexists. split; [reflexivity|]. split; [reflexivity|].
    cbn. split_and!; try done; try lia. by eapply settle_again.
  - exists (set_pod d i q). do 3 eexists. split; [reflexivity|]. split; [reflexivity|].
    cbn. split_and!; try done; try lia. by eapply settle_again.
Qed.

Definition sample_ticker : list Z := [71; 79; 79; 71].

Definition sample_risk : TickerRisk :=
  mkTickerRisk (pad_ticker sample_ticker)
    (sample_actuary <| funding_index := 41212800 |>) 255 3000000 0.

Lemma funding_zero_sum_witness :
  exists d' r' s p', settle_funding sample_depositor sample_ticker sample_risk 200000000 = Ok (d', r', s) /\
    pledged p' + funding_pot r' = pledged sample_pod + funding_pot sample_risk /\
    s = pledged p' - pledged sample_pod /\ s = 1306849.
Proof.
  destruct (funding_zero_sum sample_depositor sample_ticker sample_risk 200000000 0 sample_pod)
    as (d' & r' & s & p' & H & _ & _ & Hc & Hs & _).
  - vm_compute. reflexivity.
  - apply sample_pod_wf.
  - vm_compute. discriminate.
  - vm_compute. discriminate.
  - vm_compute. split; discriminate.
  - exists d', r', s, p'. split; [exact H|]. split; [exact Hc|]. split; [exact Hs|].
    vm_compute in H. injection H as _ _ <-. reflexivity.
Defined.
