(* ===== verification/Repo.v ===== *)
(** * [Depositor::repo]: reposition or repossess

    [svm/programs/quid/src/stay.rs], [repo].  The method is one long sequence of
    computations and early returns; it is split here along its own sections —
    the figures read off the state ([repo_prepare]), the margin call, the premium
    debit, the long side (band checks, full close, partial close, adding) and the
    short side (band checks, redeeming, issuing) — and recomposed in [repo].
    [amount = 0] is the permissionless crank; a signed [amount] is the owner's
    trade in units. *)
From S2P Require Import Prelude Actuary Pricing Pool Position.

(** (delta, interest) and the two records the call mutates. *)
Definition repo_result : Type := Depositor * Depository * (Z * Z).

(** [min(x * y / z, u64::MAX)] in saturating [u128]. *)
Definition mul_div_u64 (x y z : Z) : Z := Z.min (sat u128 (x * y) / z) (imax u64).

(** The leverage, in percent; an unpledged position with exposure is unbounded. *)
Definition leverage_pct (exposure_value pledge : Z) : outcome Z :=
  if 0 <? pledge then
    v <- u128{ exposure_value * 100 / pledge } ;; Ok (Z.min v (imax i64))
  else if 0 <? exposure_value then Ok (imax i64) else Ok 100.

(** ** Figures read before anything moves *)
Record RepoCtx := mkCtx {
  c_old_value : Z;
  c_reducing : bool;
  c_had_mark : bool;
  c_mark : Z;
  c_band_bps : Z;
  c_required_bps : Z;
  c_collar_amt : Z;
  c_trigger_amt : Z;
  c_accrued : Z;
  c_billed : Z;
  c_util_bps : Z;
  c_max_lev : Z
}.

Definition is_reducing (amount expo : Z) : bool :=
  negb (amount =? 0) && negb (expo =? 0) && Bool.eqb (amount <? 0) (0 <? expo).

(** The band around the mark: margin, trigger, requirement and dollar widths. *)
Definition repo_band (p : Stock) (old_value : Z) (a : Actuary) (b : Depository)
  : outcome (LossProfile * (Z * Z * Z * Z)) :=
  let mark := if negb (marked p =? 0) then marked p else pledged p in
  signed_notional <-
    (if exposure p <? 0 then i64{ 0 - [cast i64 old_value] } else Ok (cast i64 old_value)) ;;
  profile <- loss_profile a signed_notional (net_exposure a) ;;
  let band_bps := clamp (lp_margin_bps profile) 1 10000 in
  let trig_bps := clamp (lp_trigger_bps profile) 1 band_bps in
  red <- redemption_margin_bps b ;;
  req <- i128{ band_bps * red / 10000 } ;;
  let required_bps := clamp req 1 BPS_MAX in
  let collar_amt := mul_div_u64 mark (cast u64 band_bps) 10000 in
  let trigger_amt := mul_div_u64 mark (cast u64 trig_bps) 10000 in
  Ok (profile, (band_bps, required_bps, collar_amt, trigger_amt)).

(** Distance to the nearest barrier, in bps of the position. *)
Definition distance_to_band (old_value mark collar_amt : Z) : Z :=
  let barrier := sat u64 (mark + collar_amt) in
  let lower := sat u64 (mark - collar_amt) in
  if 0 <? old_value then
    let to_upper := sat u64 (barrier - old_value) in
    let to_lower := sat u64 (old_value - lower) in
    let nearest := Z.min to_upper to_lower in
    Z.min (sat u128 (nearest * 10000) / old_value) (imax i64)
  else 10000.

Definition repo_prepare (p : Stock) (amount price current_time slot : Z) (a : Actuary)
    (b : Depository) : outcome RepoCtx :=
  let old_value := value_at p price in
  leverage <- leverage_pct old_value (pledged p) ;;
  collar <- collar_bps leverage a ;;
  let reducing := is_reducing amount (exposure p) in
  let had_mark := negb (marked p =? 0) in
  let mark := if had_mark then marked p else pledged p in
  '(profile, (band_bps, required_bps, collar_amt, trigger_amt)) <- repo_band p old_value a b ;;
  let time_elapsed := sat i64 (current_time - updated p) in
  conc <- utilisation_bps b ;;
  let distance := distance_to_band old_value mark collar_amt in
  let base_bps_seconds := sat u128 (premium_index a - premium_checkpoint p) in
  hz <- hazard_rate_bps distance collar amount a (total_deposits b) (max_liability b) ;;
  let position_rate := sat i64 (lp_premium_bps profile + hz) in
  '(accrued, billed) <-
    premium_due old_value position_rate time_elapsed base_bps_seconds (pledged p) ;;
  let util_bps := clamp conc 1000 10000 in
  max_lev <- max_leverage_pct a slot conc ;;
  Ok (mkCtx old_value reducing had_mark mark band_bps required_bps collar_amt trigger_amt
        accrued billed util_bps max_lev).

(** ** Long side *)

(** Both breach branches of the long side; [None] when neither fires. *)
Definition repo_long_bands (c : RepoCtx) (d : Depositor) (i : nat) (p : Stock)
    (b : Depository) (a : Actuary) (amount price current_time now : Z)
  : outcome (option repo_result) :=
  let upper := sat u64 (c_mark c + c_collar_amt c) in
  let value := c_old_value c in
  if (upper <? value) && negb (c_reducing c) then
    pvm <- post_variation_margin p (deposited_quid d) b a value value
             (sat u64 (value - upper)) current_time ;;
    match pvm with
    | Some (p', dq', gross) =>
        let d := update_drawn ((set_pod d i p') <| deposited_quid := dq' |>) (cast i64 gross) in
        Ok (Some (d, utilisation b (cast i64 gross), (cast i64 gross, c_accrued c)))
    | None =>
        if negb (amount =? 0) then Err Undercollateralised else
        r <- unwind_a_tranche (set_pod d i p) i price (c_util_bps c) a b value
               current_time now (c_accrued c) ;;
        Ok (Some r)
    end
  else
  let lower := sat u64 (c_mark c - c_trigger_amt c) in
  if (value <? lower) && (0 <? value) && negb (c_reducing c) then
    let gap := sat u64 (sat u64 (lower - value) - c_collar_amt c) in
    re <- reinstate_exposure p (deposited_quid d) b a value value gap price current_time
            (negb (amount =? 0)) ;;
    match re with
    | Some (p', dq', drained) =>
        let d := update_drawn ((set_pod d i p') <| deposited_quid := dq' |>) (cast i64 drained) in
        Ok (Some (d, utilisation b (cast i64 drained), (0, c_accrued c)))
    | None =>
        if amount =? 0 then
          r <- unwind_a_tranche (set_pod d i p) i price (c_util_bps c) a b value
                 current_time now (c_accrued c) ;;
          Ok (Some r)
        else Err Undercollateralised
    end
  else Ok None.

(** The excursion clock clears when the value is within the margin of the mark. *)
Definition clear_clock (c : RepoCtx) (value : Z) (p : Stock) : Stock :=
  if (value <=? sat u64 (c_mark c + c_collar_amt c))
     && (sat u64 (c_mark c - c_collar_amt c) <=? value)
  then p <| breached_at := 0 |> else p.

(** Full close of a long: collateral plus P&L against the mark. *)
Definition repo_long_close (c : RepoCtx) (d : Depositor) (i : nat) (p : Stock)
    (b : Depository) (a : Actuary) (amount price current_time redeem_dollars : Z)
  : outcome repo_result :=
  let mark := if negb (marked p =? 0) then marked p else pledged p in
  let released := pledged p in
  pnl <- i128{ redeem_dollars - mark } ;;
  t <- i128{ released + pnl - [c_accrued c] } ;;
  let total := cast u64 (Z.max t 0) in
  let from_pool := sat u64 (total - released) in
  let p := p <| pledged := 0 |> <| marked := 0 |> <| updated := current_time |> in
  let new_exp := value_at p price in
  l <- liability_compute (c_old_value c) (pod_collar_bps p) new_exp (pledged p) a ;;
  let p := liability_apply l p in
  let util_change := - (Z.min (units_value (Z.abs amount) price) (imax i64)) in
  let cb := cost_basis p in
  let ip := interest_paid p in
  let cds := collar_dollar_seconds p in
  let p := p <| cost_basis := 0 |> <| interest_paid := 0 |> <| collar_dollar_seconds := 0 |> in
  let d := update_drawn (set_pod d i p) util_change in
  let b := utilisation b util_change in
  '(d, net) <- flush_raroc d cb ip cds total ;;
  delta <- i64{ 0 - [cast i64 from_pool] } ;;
  Ok (d, flush_raroc_pool b net cds, (delta, total)).

(** Partial take-profit of a long. *)
Definition repo_long_partial (c : RepoCtx) (d : Depositor) (i : nat) (p : Stock)
    (b : Depository) (a : Actuary) (price current_time redeem_dollars : Z)
  : outcome repo_result :=
  let mark := if negb (marked p =? 0) then marked p else pledged p in
  let basis_slice :=
    cast u64 (sat u128 (mark * redeem_dollars) / Z.max (c_old_value c) 1) in
  '(p, rep) <- settle_partial_close p a (c_old_value c) redeem_dollars (c_old_value c)
                 price current_time (c_accrued c) ;;
  uc <- i128{ [pledged_released rep] + redeem_dollars - basis_slice
              - [interest_on_closed rep] } ;;
  let user_credit := cast u64 (Z.max uc 0) in
  let '(_, pod_ip, pod_cds) := raroc rep in
  let exp_after := if fully_closed rep then 0 else exposure p in
  util_change <- i64{ 0 - [cast i64 redeem_dollars] } ;;
  let d := update_drawn (set_pod d i p) util_change in
  let b := utilisation b util_change in
  '(d, b) <-
    (if exp_after =? 0 then
       '(d, net) <- flush_raroc d (cost_basis_released rep) pod_ip pod_cds user_credit ;;
       Ok (d, flush_raroc_pool b net pod_cds)
     else Ok (d, b)) ;;
  let delta_signal := sat u64 (pledged_released rep + c_accrued c) in
  Ok (d, b, (cast i64 delta_signal, user_credit)).

(** The margin gate shared by both sides: top the pledge up from the free
    balance, or shed exposure down to what pledge and balance can margin.
    Returns the pod, the free balance, the amount taken and, when exposure had to be
    cut, the dollars shed. *)
Definition margin_gate (c : RepoCtx) (p : Stock) (dq new_exp price : Z)
  : outcome (Stock * Z * Z * option Z) :=
  let band := cast u64 (c_band_bps c) in
  let required := mul_div_u64 new_exp band 10000 in
  if pledged p <? required then
    let short := sat u64 (required - pledged p) in
    if short <=? dq then
      dq' <- u64{ dq - short } ;;
      Ok (p <| pledged := sat u64 (pledged p + short) |>, dq', short, None)
    else
      let fundable := sat u64 (pledged p + dq) in
      let affordable := mul_div_u64 fundable 10000 (Z.max band 1) in
      let over := sat u64 (new_exp - affordable) in
      let shed := cast i64 (value_units over price) in
      let p := p <| exposure := if 0 <? exposure p then sat i64 (exposure p - shed)
                                else sat i64 (exposure p + shed) |> in
      let now_exp := value_at p price in
      let need := mul_div_u64 now_exp band 10000 in
      if pledged p <? need then
        let top := Z.min (sat u64 (need - pledged p)) dq in
        dq' <- u64{ dq - top } ;;
        Ok (p <| pledged := sat u64 (pledged p + top) |>, dq', top, Some over)
      else Ok (p, dq, 0, Some over)
  else Ok (p, dq, 0, None).

(** Units added enter the mark at today's price. *)
Definition remark (c : RepoCtx) (p : Stock) (final_exp : Z) : outcome Stock :=
  if negb (c_had_mark c) then Ok (p <| marked := final_exp |>) else
  m <- i128{ [marked p] + final_exp - [c_old_value c] } ;;
  Ok (p <| marked := cast u64 (Z.max m 0) |>).

Definition repo_long_add (c : RepoCtx) (d : Depositor) (i : nat) (p : Stock)
    (b : Depository) (a : Actuary) (amount price current_time : Z) : outcome repo_result :=
  let new_exp := units_value (cast u64 (exposure p)) price in
  post_lev <- leverage_pct new_exp (pledged p) ;;
  require (post_lev <=? c_max_lev c) Undercollateralised ;;
  '(p, dq, taken, _) <- margin_gate c p (deposited_quid d) new_exp price ;;
  let p := p <| updated := current_time |> in
  let final_exp := value_at p price in
  p <- remark c p final_exp ;;
  l <- liability_compute (c_old_value c) (pod_collar_bps p) final_exp (pledged p) a ;;
  (if 0 <? amount then
     require (has_capacity b (sat u64 (new_collar_dollars l - old_collar_dollars l)))
       PoolAtCapacity
   else Ok tt) ;;
  let p := liability_apply l p in
  uc <- i128{ final_exp - [c_old_value c] } ;;
  let util_change := clamp uc (imin i64) (imax i64) in
  let d := update_drawn ((set_pod d i p) <| deposited_quid := dq |>) util_change in
  Ok (d, utilisation b util_change, (cast i64 taken, c_accrued c)).

Definition repo_long (c : RepoCtx) (d : Depositor) (i : nat) (p : Stock) (b : Depository)
    (a : Actuary) (amount price current_time now : Z) : outcome repo_result :=
  early <- repo_long_bands c d i p b a amount price current_time now ;;
  match early with
  | Some r => Ok r
  | None =>
      let p := clear_clock c (c_old_value c) p in
      require (negb (amount =? 0)) InvalidAmount ;;
      let p := p <| exposure := sat i64 (exposure p + amount) |> in
      if amount <? 0 then
        let '(p, amount) :=
          if exposure p <? 0
          then (p <| exposure := 0 |>, sat i64 (amount + sat i64 (- exposure p)))
          else (p, amount) in
        let redeem_dollars := units_value (Z.abs amount) price in
        if exposure p =? 0
        then repo_long_close c d i p b a amount price current_time redeem_dollars
        else repo_long_partial c d i p b a price current_time redeem_dollars
      else repo_long_add c d i p b a amount price current_time
  end.

(** ** Short side *)

(** A winning short past its margin: post collateral or be unwound. *)
Definition repo_short_win (c : RepoCtx) (d : Depositor) (i : nat) (p : Stock)
    (b : Depository) (a : Actuary) (amount price current_time now value pivot : Z)
  : outcome repo_result :=
  let gap := sat u64 (pivot - value) in
  pvm <- post_variation_margin p (deposited_quid d) b a (c_old_value c) value gap current_time ;;
  match pvm with
  | Some (p', dq', gross) =>
      let d := update_drawn ((set_pod d i p') <| deposited_quid := dq' |>) (cast i64 gross) in
      Ok (d, utilisation b (cast i64 gross), (cast i64 gross, c_accrued c))
  | None =>
      if negb (amount =? 0) then Err Undercollateralised else
      '(p, exc) <- excursion p now ;;
      if exc <=? LIQ_GRACE_SECS then Ok (set_pod d i p, b, (0, c_accrued c)) else
      '(p, (dollars, pod_cb, pod_ip, pod_cds, closed)) <-
        amortise_tranche p price exc (c_util_bps c) a (c_old_value c) current_time ;;
      let d := update_drawn (set_pod d i p) dollars in
      let b := utilisation b dollars in
      if (closed : bool) then
        '(d, net) <- flush_raroc d pod_cb pod_ip pod_cds 0 ;;
        Ok (d, flush_raroc_pool b net pod_cds, (dollars, c_accrued c))
      else Ok (d, b, (dollars, c_accrued c))
  end.

(** A losing short past its trigger. *)
Definition repo_short_lose (c : RepoCtx) (d : Depositor) (i : nat) (p : Stock)
    (b : Depository) (a : Actuary) (amount price current_time now value upper : Z)
  : outcome repo_result :=
  pvm <- post_variation_margin p (deposited_quid d) b a (c_old_value c) value
           (sat u64 (value - upper)) current_time ;;
  match pvm with
  | Some (p', dq', gross) =>
      let d := update_drawn ((set_pod d i p') <| deposited_quid := dq' |>) (cast i64 gross) in
      Ok (d, utilisation b (cast i64 gross), (cast i64 gross, c_accrued c))
  | None =>
      if negb (amount =? 0) then Err Undercollateralised else
      unwind_a_tranche (set_pod d i p) i price (c_util_bps c) a b (c_old_value c)
        current_time now (c_accrued c)
  end.

(** Redeeming a short: released collateral plus basis minus exit. *)
Definition repo_short_redeem (c : RepoCtx) (d : Depositor) (i : nat) (p : Stock)
    (b : Depository) (a : Actuary) (amount price current_time old_exp : Z)
  : outcome repo_result :=
  let '(p, amount) :=
    if 0 <? exposure p then (p <| exposure := 0 |>, sat i64 (amount - exposure p))
    else (p, amount) in
  let redeem_dollars := units_value (Z.abs amount) price in
  let mark_s := if negb (marked p =? 0) then marked p else pledged p in
  '(p, rep) <- settle_partial_close p a (c_old_value c) redeem_dollars
                 (if 0 <? old_exp then old_exp else 1) price current_time (c_accrued c) ;;
  let cost_basis_share := cast u64 (sat u128 (mark_s * redeem_dollars) / Z.max old_exp 1) in
  signed_pnl <- i128{ cost_basis_share - redeem_dollars } ;;
  let user_credit := cast u64 (Z.max (sat i128 (pledged_released rep + signed_pnl)) 0) in
  let '(_, pod_ip, pod_cds) := raroc rep in
  let exp_after := if fully_closed rep then 0 else exposure p in
  util_change <- i64{ 0 - [cast i64 redeem_dollars] } ;;
  let d := update_drawn (set_pod d i p) util_change in
  let b := utilisation b util_change in
  '(d, b) <-
    (if exp_after =? 0 then
       '(d, net) <- flush_raroc d (cost_basis_released rep) pod_ip pod_cds user_credit ;;
       Ok (d, flush_raroc_pool b net pod_cds)
     else Ok (d, b)) ;;
  let delta_signal := sat u64 (pledged_released rep + c_accrued c) in
  Ok (d, b, (cast i64 delta_signal, user_credit)).

(** The margin gate of the short side also reports the shed dollars. *)
Definition repo_short_issue (c : RepoCtx) (d : Depositor) (p : Stock) (b : Depository)
    (price : Z) : outcome (Depositor * Stock * Depository) :=
  neg <- i64{ 0 - [exposure p] } ;;
  let new_exp := units_value (cast u64 neg) price in
  post_lev <- leverage_pct new_exp (pledged p) ;;
  require (post_lev <=? c_max_lev c) Undercollateralised ;;
  '(p', dq, _, over) <- margin_gate c p (deposited_quid d) new_exp price ;;
  let b := match over with
           | Some o => utilisation b (- (Z.min o (imax i64)))
           | None => b
           end in
  Ok (d <| deposited_quid := dq |>, p', b).

Definition repo_short (c : RepoCtx) (d : Depositor) (i : nat) (p : Stock) (b : Depository)
    (a : Actuary) (amount price current_time now : Z) : outcome repo_result :=
  neg <- i64{ 0 - [exposure p] } ;;
  let value := units_value (cast u64 neg) price in
  let pivot := sat u64 (c_mark c - c_collar_amt c) in
  if (value <=? pivot) && (0 <? value) && negb (c_reducing c) then
    repo_short_win c d i p b a amount price current_time now value pivot
  else if (pivot <? value) || (value =? 0) then
    let upper := sat u64 (c_mark c + c_trigger_amt c) in
    if (upper <? value) && negb (c_reducing c) then
      repo_short_lose c d i p b a amount price current_time now value upper
    else
    let p := clear_clock c value p in
    let p := p <| exposure := sat i64 (exposure p + amount) |> in
    if (0 <? amount) && (0 <? value) then
      repo_short_redeem c d i p b a amount price current_time value
    else
    '(d, p, b) <-
      (if amount <? 0 then repo_short_issue c d p b price else Ok (d, p, b)) ;;
    let p := p <| updated := current_time |> in
    let final_exp := value_at p price in
    p <- remark c p final_exp ;;
    l <- liability_compute (c_old_value c) (pod_collar_bps p) final_exp (pledged p) a ;;
    let p := liability_apply l p in
    uc <- i128{ final_exp - [c_old_value c] } ;;
    let util_change := clamp uc (imin i64) (imax i64) in
    let d := update_drawn (set_pod d i p) util_change in
    Ok (d, utilisation b util_change, (0, c_accrued c))
  else Ok (set_pod d i p, b, (0, 0)).

(** ** The method *)
Definition repo (d : Depositor) (tk : list Z) (amount price current_time slot : Z)
    (a : Actuary) (b : Depository) : outcome repo_result :=
  require (0 <? price) InvalidPrice ;;
  '(i, p) <- ok_or (find_pod (balances d) (pad_ticker tk)) DepositFirst ;;
  c <- repo_prepare p amount price current_time slot a b ;;
  let p := p <| premium_checkpoint := premium_index a |> in
  let short_of := sat u128 (c_old_value c * cast u64 (c_required_bps c)) / 10000 in
  if (amount =? 0) && (0 <? unwind_demand b) && (pledged p <? short_of)
     && (0 <? c_old_value c) then
    unwind_a_tranche (set_pod d i p) i price (c_util_bps c) a b (c_old_value c)
      current_time current_time (c_accrued c)
  else
  pl <- u64{ [pledged p] - [c_accrued c] } ;;
  let p := p <| pledged := pl |>
             <| interest_paid := sat u64 (interest_paid p + c_accrued c) |> in
  let now := current_time in
  let current_time := Z.min (sat i64 (updated p + c_billed c)) now in
  if (0 <? exposure p) || ((exposure p =? 0) && (0 <? amount))
  then repo_long c d i p b a amount price current_time now
  else repo_short c d i p b a amount price current_time now.

(** * Theorems *)

(** ** What each piece may do to the pod and the free balance *)

(** [e'] lies between zero and [e]. *)
Definition shrinks (e e' : Z) : Prop := 0 <= e * e' /\ Z.abs e' <= Z.abs e.

Lemma shrinks_refl e : shrinks e e.
Proof. unfold shrinks. nia. Qed.

Lemma tranche_size_pos size exc util t : tranche_size size exc util = Ok t -> 1 <= t.
Proof.
  unfold tranche_size. intros H. repeat (apply bind_ok in H as (? & _ & H)).
  injection H as <-. lia.
Qed.

Lemma amortise_shrinks p price exc util a old now p' rep : - imax i64 <= exposure p <= imax i64 ->
  amortise_tranche p price exc util a old now = Ok (p', rep) ->
  shrinks (exposure p) (exposure p') /\ ticker p' = ticker p.
Proof.
  intros He H. unfold amortise_tranche in H. cbv zeta in H.
  apply bind_ok in H as (t & Ht & H). apply tranche_size_pos in Ht.
  set (tr := Z.min _ _) in H. assert (Htr : 0 <= tr <= Z.abs (exposure p)) by (unfold tr; lia).
  clearbody tr. apply bind_ok in H as (sm & _ & H). apply bind_ok in H as (sp & _ & H).
  apply bind_ok in H as (pnl & _ & H). apply bind_ok in H as (l & _ & H).
  injection H as <- _. cbn [spend_grace exposure modify] in *.
  set (e' := if 0 <? exposure p then _ else _).
  assert (He' : e' = exposure p - Z.sgn (exposure p) * tr).
  { unfold e'. cbn [imax i64] in He. rewrite cast_id by (unfold_ints; lia).
    destruct (Z.ltb_spec 0 (exposure p)); rewrite sat_id by (unfold_ints; lia); lia. }
  assert (Hs : shrinks (exposure p) e').
  { rewrite He'. unfold shrinks. destruct (Z.lt_trichotomy (exposure p) 0) as [?|[Hz|?]];
      [rewrite Z.sgn_neg by lia | rewrite Hz in *; cbn | rewrite Z.sgn_pos by lia]; nia. }
  unfold liability_apply. cbn. destruct (e' =? 0) eqn:E; cbn; rewrite E; cbn; done.
Qed.

(** The account after a call that only shrank position [i]. *)
Definition only_shrank (d : Depositor) (i : nat) (e : Z) (d' : Depositor) : Prop :=
  exists p', balances d' = <[i:=p']> (balances d) /\ shrinks e (exposure p') /\
    deposited_quid d' <= deposited_quid d.

Lemma flush_raroc_same d cb ip cds t d' net : flush_raroc d cb ip cds t = Ok (d', net) ->
  balances d' = balances d /\ deposited_quid d' = deposited_quid d.
Proof. unfold flush_raroc. intros H. apply bind_ok in H as (? & _ & H). by injection H as <- _. Qed.

Lemma update_drawn_quid d x : deposited_quid (update_drawn d x) = deposited_quid d.
Proof. unfold update_drawn. by case_match. Qed.

Lemma set_set_pod d i p p' : balances (set_pod (set_pod d i p) i p') = <[i:=p']> (balances d).
Proof. cbn. apply list_insert_insert_eq. Qed.

(** The tail shared by every liquidation branch. *)
Lemma rung_shrank d i p dollars (closed : bool) b cb ip cds (acc : Z) d' b' r :
  (let d1 := update_drawn (set_pod d i p) dollars in
   let b1 := utilisation b dollars in
   if closed then
     '(d2, net) <- flush_raroc d1 cb ip cds 0 ;;
     Ok (d2, flush_raroc_pool b1 net cds, (dollars, acc))
   else Ok (d1, b1, (dollars, acc))) = Ok (d', b', r) ->
  balances d' = <[i:=p]> (balances d) /\ deposited_quid d' = deposited_quid d.
Proof.
  cbv zeta. intros H. destruct closed.
  - apply bind_ok in H as ([d2 net] & Hf & H). apply flush_raroc_same in Hf as [Hb Hq].
    injection H as <- _ _. rewrite Hb, Hq, update_drawn_balances, update_drawn_quid. done.
  - injection H as <- _ _. rewrite update_drawn_balances, update_drawn_quid. done.
Qed.

Lemma excursion_same p now p' e : excursion p now = Ok (p', e) -> exposure p' = exposure p.
Proof.
  unfold excursion. cbv zeta. intros H. apply bind_ok in H as (? & _ & H).
  injection H as <- _. by case_match.
Qed.

Lemma unwind_shrank d i p price util a b old ct now acc d' b' r :
  balances d !! i = Some p -> - imax i64 <= exposure p <= imax i64 ->
  unwind_a_tranche d i price util a b old ct now acc = Ok (d', b', r) ->
  only_shrank d i (exposure p) d'.
Proof.
  intros Hi He H. unfold unwind_a_tranche, get_pod in H. rewrite Hi in H. cbn [bind] in H.
  apply bind_ok in H as ([p1 exc] & Hx & H). apply excursion_same in Hx as Hx.
  destruct (exc <=? LIQ_GRACE_SECS).
  - injection H as <- _ _. exists p1. cbn. rewrite Hx. split_and!; [done|apply shrinks_refl|lia].
  - apply bind_ok in H as ([p2 [[[[dl cb] ip] cds] cl]] & Ham & H).
    apply amortise_shrinks in Ham as [Hs _]; [|by rewrite Hx]. rewrite Hx in Hs.
    apply rung_shrank in H as [Hb Hq]. exists p2. split_and!; [done|done|lia].
Qed.

Lemma pvm_same p dq b a old ev ex now p' dq' g : 0 <= ex ->
  post_variation_margin p dq b a old ev ex now = Ok (Some (p', dq', g)) ->
  exposure p' = exposure p /\ dq' <= dq.
Proof.
  intros Hex H. unfold post_variation_margin in H. cbv zeta in H. case_match; [done|].
  repeat (apply bind_ok in H as (?v & ?E & H)). injection H as <- <- _.
  unfold liability_apply. cbn. split; [done|].
  match goal with E : eval u64 _ = Ok _ |- _ => apply eval_inv in E as [-> _] end. cbn.
  pose proof (sat_in_range u64 (ex + ex / 250) ltac:(done)) as Hs. unfold in_range in Hs. cbn in *. lia.
Qed.

Lemma cured_shrank d i p p' dq' x e : exposure p' = e -> dq' <= deposited_quid d ->
  only_shrank (set_pod d i p) i e
    (update_drawn ((set_pod d i p') <| deposited_quid := dq' |>) x).
Proof.
  intros He Hdq. exists p'. rewrite update_drawn_balances, update_drawn_quid. cbn.
  rewrite He, list_insert_insert_eq. split_and!; [done|apply shrinks_refl|done].
Qed.

Lemma sat_u64_nonneg x : 0 <= sat u64 x.
Proof. pose proof (sat_in_range u64 x ltac:(done)) as H. apply H. Qed.

Section Crank.
Context (d : Depositor) (i : nat) (p : Stock) (b : Depository) (a : Actuary) (c : RepoCtx).
Context (price ct now : Z).
Hypothesis Hi : is_Some (balances d !! i).
Hypothesis He : - imax i64 <= exposure p <= imax i64.

Lemma only_shrank_base q e d' : only_shrank (set_pod d i q) i e d' -> only_shrank d i e d'.
Proof. intros (p' & Hb & Hs & Hq). exists p'. cbn in *. by rewrite list_insert_insert_eq in Hb. Qed.

Lemma unwind_from_pod util old acc d' b' r :
  unwind_a_tranche (set_pod d i p) i price util a b old ct now acc = Ok (d', b', r) ->
  only_shrank d i (exposure p) d'.
Proof.
  intros H. destruct Hi as [q Hq]. apply (only_shrank_base p).
  eapply unwind_shrank; [by eapply set_pod_lookup|done|exact H].
Qed.

Lemma long_crank r : repo_long c d i p b a 0 price ct now = Ok r -> only_shrank d i (exposure p) r.1.1.
Proof.
  destruct r as [[d' b'] z]. intros H. unfold repo_long in H.
  apply bind_ok in H as (early & Hearly & H). unfold repo_long_bands in Hearly. cbv zeta in Hearly.
  destruct (_ && negb (c_reducing c)).
  { apply bind_ok in Hearly as ([[[p' dq'] g]|] & Hpvm & Hearly).
    - injection Hearly as <-. injection H as <- _ _.
      apply pvm_same in Hpvm as [He' Hdq]; [|apply sat_u64_nonneg].
      apply (only_shrank_base p). by apply cured_shrank.
    - apply bind_ok in Hearly as (r & Hun & Hearly). injection Hearly as <-. injection H as ->.
      by eapply unwind_from_pod. }
  destruct (_ && negb (c_reducing c)); [|by injection Hearly as <-].
  cbn [reinstate_exposure negb Z.eqb bind] in Hearly.
  apply bind_ok in Hearly as (r & Hun & Hearly). injection Hearly as <-. injection H as ->.
  by eapply unwind_from_pod.
Qed.

Lemma short_win_crank value pivot r :
  repo_short_win c d i p b a 0 price ct now value pivot = Ok r -> only_shrank d i (exposure p) r.1.1.
Proof.
  destruct r as [[d' b'] z]. unfold repo_short_win. cbv zeta. intros H.
  apply bind_ok in H as ([[[p' dq'] g]|] & Hpvm & H).
  - injection H as <- _ _. apply pvm_same in Hpvm as [He' Hdq]; [|apply sat_u64_nonneg].
    apply (only_shrank_base p). by apply cured_shrank.
  - cbn [negb Z.eqb] in H. apply bind_ok in H as ([p1 exc] & Hx & H). apply excursion_same in Hx.
    destruct (exc <=? LIQ_GRACE_SECS).
    { injection H as <- _ _. exists p1. rewrite Hx. split_and!; [done|apply shrinks_refl|done]. }
    apply bind_ok in H as ([p2 [[[[dl cb] ip] cds] cl]] & Ham & H).
    apply amortise_shrinks in Ham as [Hs _]; [|by rewrite Hx]. rewrite Hx in Hs.
    apply rung_shrank in H as [Hb Hq]. exists p2. cbn [fst]. rewrite Hb, Hq. split_and!; done.
Qed.

Lemma short_lose_crank value upper r :
  repo_short_lose c d i p b a 0 price ct now value upper = Ok r -> only_shrank d i (exposure p) r.1.1.
Proof.
  destruct r as [[d' b'] z]. unfold repo_short_lose. intros H.
  apply bind_ok in H as ([[[p' dq'] g]|] & Hpvm & H).
  - injection H as <- _ _. apply pvm_same in Hpvm as [He' Hdq]; [|apply sat_u64_nonneg].
    apply (only_shrank_base p). by apply cured_shrank.
  - cbn [negb Z.eqb] in H. cbn [fst]. by eapply unwind_from_pod.
Qed.

Lemma short_crank r : repo_short c d i p b a 0 price ct now = Ok r -> only_shrank d i (exposure p) r.1.1.
Proof.
  unfold repo_short. intros H. apply bind_ok in H as (neg & _ & H). cbv zeta in H.
  destruct (_ && negb (c_reducing c)); [by eapply short_win_crank|].
  destruct (_ || _); [|injection H as <-; exists p; split_and!; [done|apply shrinks_refl|done]].
  destruct (_ && negb (c_reducing c)); [by eapply short_lose_crank|].
  cbn [Z.ltb Z.compare andb bind] in H.
  apply bind_ok in H as (p1 & Hrm & H). apply bind_ok in H as (l & _ & H).
  apply bind_ok in H as (uc & _ & H). injection H as <-. cbn [fst].
  exists (liability_apply l p1). rewrite update_drawn_balances, update_drawn_quid.
  split_and!; [done| |done].
  assert (Hp1 : exposure p1 = exposure p).
  { assert (Hsat : sat i64 (exposure (clear_clock c (units_value (cast u64 neg) price) p) + 0) = exposure p).
    { unfold clear_clock. case_match; cbn [exposure modify]; rewrite Z.add_0_r; apply sat_id;
        unfold_ints; cbn in He; lia. }
    unfold remark in Hrm. case_match; [|apply bind_ok in Hrm as (? & _ & Hrm)];
      injection Hrm as <-; cbn; exact Hsat. }
  unfold liability_apply. cbn. rewrite Hp1. apply shrinks_refl.
Qed.
End Crank.

Lemma crank_shrank d tk price now slot a b d' b' r i p :
  find_pod (balances d) (pad_ticker tk) = Some (i, p) -> - imax i64 <= exposure p <= imax i64 ->
  repo d tk 0 price now slot a b = Ok (d', b', r) -> only_shrank d i (exposure p) d'.
Proof.
  intros Hf He H. destruct (find_pod_lookup _ _ _ _ Hf) as [Hl _].
  assert (Hs : is_Some (balances d !! i)) by (by eexists).
  unfold repo in H. apply bind_ok in H as (? & _ & H). rewrite Hf in H. cbn [ok_or bind] in H.
  apply bind_ok in H as (c & _ & H). cbv zeta in H. cbn [Z.eqb andb] in H.
  destruct (_ && _); [apply unwind_from_pod in H; [exact H | exact Hs | exact He]|].
  apply bind_ok in H as (pl & _ & H). destruct (_ || _).
  - apply long_crank in H; [exact H | exact Hs | exact He].
  - apply short_crank in H; [exact H | exact Hs | exact He].
Qed.

(** C3: The crank only ever shrinks.  Whatever the state, price, tail and pool, a
    successful permissionless call ([amount = 0]) touches one position only,
    never moves its exposure away from zero nor across it, and never increases
    the owner's free balance. *)
Theorem crank_only_shrinks d tk price now slot a b d' b' r i p :
  find_pod (balances d) (pad_ticker tk) = Some (i, p) -> - imax i64 <= exposure p <= imax i64 ->
  repo d tk 0 price now slot a b = Ok (d', b', r) ->
  exists p', balances d' = <[i:=p']> (balances d) /\
    0 <= exposure p * exposure p' /\ Z.abs (exposure p') <= Z.abs (exposure p) /\
    deposited_quid d' <= deposited_quid d.
Proof.
  intros Hf He H. destruct (crank_shrank _ _ _ _ _ _ _ _ _ _ _ _ Hf He H) as (p' & ? & [? ?] & ?).
  by exists p'.
Qed.

(** A losing 5x short swept at +25%, 10000 seconds into its breach. *)
Lemma crank_only_shrinks_witness : exists d' b' r p',
  repo sample_depositor sample_ticker 0 250000000 100000 1000 sample_actuary sample_bank'
    = Ok (d', b', r) /\ balances d' = [p'] /\
  exposure p' = -41200000 /\ Z.abs (exposure p') <= Z.abs (exposure sample_pod).
Proof.
  assert (H : exists d' b' r, repo sample_depositor sample_ticker 0 250000000 100000 1000
    sample_actuary sample_bank' = Ok (d', b', r) /\
    exposure <$> balances d' = [-41200000]).
  { eexists _, _, _. split; vm_compute; reflexivity. }
  destruct H as (d' & b' & r & H & Hx).
  destruct (crank_only_shrinks sample_depositor sample_ticker 250000000 100000 1000 sample_actuary
    sample_bank' d' b' r 0 sample_pod) as (p' & Hb & _ & Hs & _).
  - vm_compute. reflexivity.
  - vm_compute. split; discriminate.
  - exact H.
  - exists d', b', r, p'. split; [exact H|]. cbn in Hb. rewrite Hb in Hx |- *.
    split; [reflexivity|]. split; [injection Hx as ->; reflexivity | exact Hs].
Defined.

(** ** The margin gate *)
Lemma mul_div_u64_mono x y k z : 0 < z -> 0 <= k -> x <= y -> mul_div_u64 x k z <= mul_div_u64 y k z.
Proof.
  intros. unfold mul_div_u64. apply Z.min_le_compat_r, Z.div_le_mono; [done|].
  apply sat_mono. nia.
Qed.

Lemma mul_div_u64_range x k z : 0 < z -> 0 <= mul_div_u64 x k z <= imax u64.
Proof.
  intros. unfold mul_div_u64. pose proof (sat_in_range u128 (x * k) ltac:(done)) as Hs.
  unfold in_range in Hs. assert (0 <= sat u128 (x * k) / z) by (apply Z.div_pos; cbn in *; lia).
  unfold_ints. lia.
Qed.

Lemma value_units_mono x y price : 0 <= price -> x <= y -> value_units x price <= value_units y price.
Proof.
  intros. unfold value_units. case_match; [lia|]. apply Z.eqb_neq in H1.
  apply Z.min_le_compat_r, Z.div_le_mono; [lia|]. apply sat_mono. pool_consts. lia.
Qed.

(** Valuing units and buying them back never gains a unit. *)
Lemma value_units_back u price : 0 <= u -> 0 < price -> value_units (units_value u price) price <= u.
Proof.
  intros Hu Hp. unfold value_units. rewrite (proj2 (Z.eqb_neq price 0)) by lia.
  pose proof (units_value_range u price) as Hv. unfold_ints. pool_consts.
  rewrite sat_u128_le by (unfold_ints; nia).
  transitivity (units_value u price * 1000000 / price); [lia|].
  apply Z.div_le_upper_bound; [lia|]. unfold units_value. pool_consts.
  assert (sat u128 (u * price) <= u * price) by (unfold sat, u128; cbn [imin imax]; nia).
  pose proof (Z.mul_div_le (sat u128 (u * price)) 1000000). lia.
Qed.

(** Cutting at most the whole position moves it toward zero. *)
Lemma shed_shrinks e x : - imax i64 <= e <= imax i64 -> 0 <= x <= Z.abs e ->
  shrinks e (if 0 <? e then sat i64 (e - cast i64 x) else sat i64 (e + cast i64 x)).
Proof.
  intros He Hx. cbn [imax i64] in He. rewrite cast_id by (unfold_ints; lia). unfold shrinks.
  destruct (Z.ltb_spec 0 e); rewrite sat_id by (unfold_ints; lia); nia.
Qed.

(** The collateral a position needs at its current value. *)
Definition requirement (c : RepoCtx) (value : Z) : Z :=
  mul_div_u64 value (cast u64 (c_band_bps c)) 10000.

(** The margin gate.  It always returns; collateral only moves between the
    free balance and the pledge, never out of either; the exposure is only ever
    cut, toward zero; and afterwards the pledge meets the requirement of the
    position that is left, or the whole free balance has been posted. *)
Theorem margin_gate_sound c p dq price : wf_pod p -> 0 <= dq -> pledged p + dq <= imax u64 ->
  0 < price ->
  exists p' dq' taken shed, margin_gate c p dq (value_at p price) price = Ok (p', dq', taken, shed) /\
    pledged p' + dq' = pledged p + dq /\ pledged p <= pledged p' /\ 0 <= dq' /\
    taken = pledged p' - pledged p /\ shrinks (exposure p) (exposure p') /\
    (requirement c (value_at p' price) <= pledged p' \/ dq' = 0).
Proof.
  intros Hp Hdq Hsum Hpr. pose proof (wp_exposure p Hp) as He. pose proof (wp_pledged p Hp) as Hpl. unfold in_range in Hpl.
  cbn [imin imax u64 i64] in *. unfold margin_gate, requirement. cbv zeta.
  set (band := cast u64 (c_band_bps c)). pose proof (value_at_range p price) as Hv.
  pose proof (mul_div_u64_range (value_at p price) band 10000 ltac:(lia)) as Hreq.
  cbn [imax u64] in *. destruct (Z.ltb_spec (pledged p) (mul_div_u64 (value_at p price) band 10000)) as [Hshort|Hfine].
  2: { exists p, dq, 0, None. split_and!; try done; try lia; apply shrinks_refl. }
  rewrite (sat_id u64 (_ - pledged p)) by (unfold_ints; lia).
  destruct (Z.leb_spec (mul_div_u64 (value_at p price) band 10000 - pledged p) dq) as [Hfund|Hcut].
  { rewrite eval_safe by arith_side. cbn [bind value aop_fun]. rewrite sat_id by (unfold_ints; lia).
    do 4 eexists. split; [reflexivity|]. cbn. unfold value_at. cbn. fold (value_at p price).
    split_and!; try lia; apply shrinks_refl. }
  set (over := sat u64 (value_at p price - mul_div_u64 _ 10000 _)).
  assert (Hover : 0 <= over <= value_at p price).
  { unfold over. match goal with |- context [mul_div_u64 ?x 10000 ?z] =>
      pose proof (mul_div_u64_range x 10000 z ltac:(lia)) end.
    unfold sat, u64 in *. cbn [imin imax] in *. lia. }
  assert (Hshed : 0 <= value_units over price <= Z.abs (exposure p)).
  { pose proof (value_units_range over price). pose proof (value_units_mono over (value_at p price) price).
    pose proof (value_units_back (Z.abs (exposure p)) price). unfold value_at in *. lia. }
  pose proof (shed_shrinks (exposure p) (value_units over price) ltac:(cbn; lia) Hshed) as Hs.
  set (e' := if 0 <? exposure p then _ else _) in *.
  change (value_at (p <| exposure := e' |>) price) with (units_value (Z.abs e') price).
  change (pledged (p <| exposure := e' |>)) with (pledged p).
  pose proof (mul_div_u64_range (units_value (Z.abs e') price) band 10000 ltac:(lia)) as Hneed.
  set (need := mul_div_u64 (units_value (Z.abs e') price) band 10000) in *. cbn [imax u64] in Hneed.
  destruct (Z.ltb_spec (pledged p) need) as [Htop|Hok].
  - rewrite (sat_id u64 (need - pledged p)) by (unfold_ints; lia).
    rewrite eval_safe by arith_side. cbn [bind value aop_fun]. rewrite sat_id by (unfold_ints; lia).
    do 4 eexists. split; [reflexivity|]. cbn. unfold value_at. cbn. fold need.
    split_and!; try done; lia.
  - do 4 eexists. split; [reflexivity|]. cbn. unfold value_at. cbn. fold need.
    split_and!; try done; lia.
Qed.

Definition sample_ctx : RepoCtx := mkCtx 0 false false 0 3186 3186 0 0 0 0 1000 1000.

(** A request for 10,000 of long exposure against 2,000 pledged and 500 free is
    cut to what 2,500 can margin. *)
Lemma margin_gate_sound_witness :
  let p := sample_pod <| exposure := 50000000 |> in
  exists p' dq' taken shed, margin_gate sample_ctx p 500000000 (value_at p 200000000) 200000000
      = Ok (p', dq', taken, shed) /\ pledged p' + dq' = pledged p + 500000000 /\
    exposure p' = 39234150 /\ shrinks (exposure p) (exposure p').
Proof.
  intros p. destruct (margin_gate_sound sample_ctx p 500000000 200000000)
    as (p' & dq' & t & sh & H & Hc & _ & _ & _ & Hs & _).
  - constructor; vm_compute; split; discriminate.
  - lia.
  - vm_compute. discriminate.
  - lia.
  - exists p', dq', t, sh. split; [exact H|]. split; [exact Hc|].
    split; [vm_compute in H; injection H as <- _ _ _; reflexivity | exact Hs].
Defined.

(** ** Behaviour at the edges of the band *)

Lemma repo_prepared d tk amount price now slot a b i p c :
  0 < price -> find_pod (balances d) (pad_ticker tk) = Some (i, p) ->
  repo_prepare p amount price now slot a b = Ok c -> unwind_demand b = 0 ->
  0 <= c_accrued c <= pledged p -> pledged p <= imax u64 ->
  repo d tk amount price now slot a b =
    let q := p <| premium_checkpoint := premium_index a |>
               <| pledged := pledged p - c_accrued c |>
               <| interest_paid := sat u64 (interest_paid p + c_accrued c) |> in
    let ct := Z.min (sat i64 (updated p + c_billed c)) now in
    if (0 <? exposure p) || ((exposure p =? 0) && (0 <? amount))
    then repo_long c d i q b a amount price ct now
    else repo_short c d i q b a amount price ct now.
Proof.
  intros Hpr Hf Hc Hu Hacc Hpl. unfold repo. rewrite (proj2 (Z.ltb_lt 0 price)) by done.
  cbn [require bind]. rewrite Hf. cbn [ok_or bind]. rewrite Hc. cbn [bind].
  rewrite Hu. change (0 <? 0) with false. rewrite andb_false_r. cbn [andb].
  change (pledged (p <| premium_checkpoint := premium_index a |>)) with (pledged p).
  cbn [imax u64] in Hpl. rewrite eval_safe by arith_side. cbn [bind value aop_fun].
  reflexivity.
Qed.

(** A crank that finds a long inside its band reverts.  Nothing it observed
    is kept: in particular the excursion clock of a long that has come back into
    its band is not cleared, although the same crank clears a short's. *)
Theorem in_band_long_crank_reverts d tk price now slot a b i p c :
  0 < price -> find_pod (balances d) (pad_ticker tk) = Some (i, p) -> 0 < exposure p ->
  repo_prepare p 0 price now slot a b = Ok c -> unwind_demand b = 0 ->
  0 <= c_accrued c <= pledged p -> pledged p <= imax u64 ->
  sat u64 (c_mark c - c_trigger_amt c) <= c_old_value c <= sat u64 (c_mark c + c_collar_amt c) ->
  repo d tk 0 price now slot a b = Err InvalidAmount.
Proof.
  intros Hpr Hf He Hc Hu Hacc Hpl Hband. erewrite repo_prepared by done. cbv zeta.
  rewrite (proj2 (Z.ltb_lt 0 (exposure p))) by done. cbn [orb]. unfold repo_long, repo_long_bands.
  cbv zeta. rewrite (proj2 (Z.ltb_ge _ (c_old_value c))) by lia. cbn [andb].
  rewrite (proj2 (Z.ltb_ge (c_old_value c) _)) by lia. done.
Qed.

Definition sample_long : Depositor :=
  sample_depositor <| balances := [sample_pod <| exposure := 50000000 |>] |>.

Lemma in_band_long_crank_reverts_witness :
  repo sample_long sample_ticker 0 201000000 100000 1000 sample_actuary sample_bank' = Err InvalidAmount.
Proof.
  eapply (in_band_long_crank_reverts sample_long sample_ticker 201000000 100000 1000 sample_actuary
    sample_bank' 0); [vm_compute; reflexivity | vm_compute; reflexivity | vm_compute; reflexivity
    | vm_compute; reflexivity | vm_compute; reflexivity | vm_compute; split; discriminate
    | vm_compute; discriminate | vm_compute; split; discriminate].
Defined.

(** A winning short cannot take its profit.  Once a short's value has fallen
    to the lower edge of its band, a trade that would reduce it succeeds, changes
    neither exposure nor free balance nor pool, pays nothing — and debits the
    premium while leaving the meter where it was, so the same seconds are billed
    again. *)
Theorem winning_short_trade_ignored d tk amount price now slot a b i p c :
  0 < price -> find_pod (balances d) (pad_ticker tk) = Some (i, p) ->
  - imax i64 <= exposure p < 0 -> 0 < amount ->
  repo_prepare p amount price now slot a b = Ok c -> unwind_demand b = 0 ->
  0 <= c_accrued c <= pledged p -> pledged p <= imax u64 ->
  0 < units_value (- exposure p) price <= sat u64 (c_mark c - c_collar_amt c) ->
  c_reducing c = true ->
  exists d' p', repo d tk amount price now slot a b = Ok (d', b, (0, 0)) /\
    balances d' = <[i:=p']> (balances d) /\ deposited_quid d' = deposited_quid d /\
    exposure p' = exposure p /\ pledged p' = pledged p - c_accrued c /\ updated p' = updated p.
Proof.
  intros Hpr Hf He Ha Hc Hu Hacc Hpl Hv Hred. erewrite repo_prepared by done. cbv zeta.
  rewrite (proj2 (Z.ltb_ge 0 (exposure p))) by lia. rewrite (proj2 (Z.eqb_neq (exposure p) 0)) by lia.
  cbn [orb andb]. unfold repo_short. cbn [exposure modify]. cbn [imax i64] in He.
  rewrite eval_safe by arith_side. cbn [bind value aop_fun]. cbv zeta.
  rewrite cast_id by (unfold_ints; lia). replace (0 - exposure p) with (- exposure p) by lia.
  rewrite Hred, andb_false_r. rewrite (proj2 (Z.ltb_ge _ (units_value _ _))) by lia.
  rewrite (proj2 (Z.eqb_neq (units_value _ _) 0)) by lia. cbn [orb].
  do 2 eexists. split; [reflexivity|]. done.
Qed.

Lemma winning_short_trade_ignored_witness : exists d' p',
  repo sample_depositor sample_ticker 50000000 120000000 100000 1000 sample_actuary sample_bank'
    = Ok (d', sample_bank', (0, 0)) /\ balances d' = [p'] /\
  exposure p' = -50000000 /\ pledged p' = 1999954201.
Proof.
  edestruct (winning_short_trade_ignored sample_depositor sample_ticker 50000000 120000000 100000 1000
    sample_actuary sample_bank' 0) as (d' & p' & H & Hb & _ & He & _).
  - vm_compute. reflexivity.
  - vm_compute. reflexivity.
  - vm_compute. split; [discriminate | reflexivity].
  - vm_compute. reflexivity.
  - vm_compute. reflexivity.
  - vm_compute. reflexivity.
  - vm_compute. split; discriminate.
  - vm_compute. discriminate.
  - vm_compute. split; [reflexivity | discriminate].
  - vm_compute. reflexivity.
  - exists d', p'. split; [exact H|]. split; [exact Hb|]. split; [exact He|].
    vm_compute in H. injection H as <-. injection Hb as <-. reflexivity.
Defined.

(** A dust short is an ungated door to the long side.  At sixty cents a share,
    an account with one dollar pledged and a short of one micro-share buys a
    million shares: neither the leverage cap, nor the margin requirement, nor the
    pool's capacity is consulted, and the pledge stays one dollar. *)
Theorem dust_short_opens_unmargined_long :
  let p := sample_pod <| exposure := -1 |> <| pledged := 1000000 |> <| marked := 0 |>
             <| updated := 100000 |> <| breached_at := 0 |> in
  let d := sample_depositor <| balances := [p] |> in
  exists d' b' r p', repo d sample_ticker 1000000000000 600000 100000 1000 sample_actuary
      (sample_bank' <| total_deposits := 1000000 |>) = Ok (d', b', r) /\
    balances d' = [p'] /\ exposure p' = 999999999999 /\ pledged p' = 1000000 /\
    value_at p' 600000 = 599999999999.
Proof. eexists _, _, _, _. split; [vm_compute; reflexivity|]. repeat split. Qed.

(** The owner of a breached long restarts the excursion for nothing.  A long
    that has fallen past its trigger, but by less than trigger plus margin, asks
    for one more unit: the call succeeds, buys nothing, charges nothing to the
    free balance — and clears [breached_at], although the position is exactly as
    far outside its band as before. *)
Theorem breached_long_resets_clock :
  exists d' b' r p', repo sample_long sample_ticker 1 156000000 100000 1000 sample_actuary sample_bank'
      = Ok (d', b', r) /\
    balances d' = [p'] /\ exposure p' = 50000000 /\ marked p' = 10000000000 /\
    deposited_quid d' = deposited_quid sample_long /\
    breached_at (sample_pod <| exposure := 50000000 |>) = 90000 /\ breached_at p' = 0 /\
    value_at p' 156000000 < marked p' - marked p' * 1593 / 10000.
Proof. eexists _, _, _, _. split; [vm_compute; reflexivity|]. repeat split. Qed.

(** ** Full closes *)

(** Money amounts small enough that RAROC bookkeeping cannot overflow. *)
Definition MONEY : Z := 2000000000000000000.

Record wf_money (p : Stock) (price : Z) : Prop := {
  wm_pod : wf_pod p;
  wm_pledged : pledged p <= MONEY;
  wm_marked : marked p <= MONEY;
  wm_basis : 0 <= cost_basis p <= MONEY;
  wm_interest : 0 <= interest_paid p <= MONEY;
  wm_value : value_at p price <= MONEY
}.

Lemma flush_raroc_total d cb ip cds t : 0 <= t <= 3 * MONEY -> 0 <= cb <= MONEY -> 0 <= ip <= MONEY ->
  exists d', flush_raroc d cb ip cds t = Ok (d', t - cb - ip) /\ balances d' = balances d /\
    deposited_quid d' = deposited_quid d.
Proof.
  unfold MONEY. intros. unfold flush_raroc. rewrite !cast_id by (unfold_ints; lia).
  rewrite eval_safe by arith_side. cbn [bind value aop_fun]. eexists. split; [reflexivity|]. done.
Qed.

Lemma close_reduces e : e <> 0 -> is_reducing (- e) e = true.
Proof.
  intros H. unfold is_reducing. rewrite !(proj2 (Z.eqb_neq _ 0)) by lia. cbn.
  destruct (Z.ltb_spec (- e) 0), (Z.ltb_spec 0 e); cbn; lia || done.
Qed.

Lemma prepare_fields p amount price now slot a b c : repo_prepare p amount price now slot a b = Ok c ->
  c_old_value c = value_at p price /\ c_reducing c = is_reducing amount (exposure p) /\
  c_had_mark c = negb (marked p =? 0) /\
  c_mark c = if negb (marked p =? 0) then marked p else pledged p.
Proof.
  unfold repo_prepare. cbv zeta. intros H. apply bind_ok in H as (? & _ & H).
  apply bind_ok in H as (? & _ & H). apply bind_ok in H as ([? [[[? ?] ?] ?]] & _ & H).
  apply bind_ok in H as (? & _ & H). apply bind_ok in H as (? & _ & H).
  apply bind_ok in H as ([? ?] & _ & H). apply bind_ok in H as (? & _ & H).
  injection H as <-. done.
Qed.

(** The pod of a full close after the premium debit. *)
Lemma charged_money c p v price a : wf_money p price -> 0 <= c_accrued c <= pledged p ->
  interest_paid p + c_accrued c <= MONEY ->
  wf_money ((clear_clock c v (p <| premium_checkpoint := premium_index a |>
      <| pledged := pledged p - c_accrued c |>
      <| interest_paid := sat u64 (interest_paid p + c_accrued c) |>)) <| exposure := 0 |>) price.
Proof.
  intros [[Hpl He Hup Hco Hmk Hbr] ? ? ? ? ?] Hacc Hip. unfold MONEY, in_range in *.
  cbn [imin imax u64 i64 u16] in *.
  assert (Hsat : sat u64 (interest_paid p + c_accrued c) = interest_paid p + c_accrued c)
    by (apply sat_id; unfold_ints; lia).
  unfold clear_clock. rewrite Hsat.
  case_match; (constructor; [constructor|..]); unfold in_range, MONEY;
    first [change (0 <= 2000000000000000000); lia | cbn; lia].
Qed.

(** What is left of a pod once its last unit is gone. *)
Definition spent (p' : Stock) : Prop :=
  exposure p' = 0 /\ pledged p' = 0 /\ marked p' = 0 /\ cost_basis p' = 0 /\ interest_paid p' = 0.

Lemma long_close_total c d i p b a price ct : RiskLaws a -> wf_money p price ->
  is_Some (balances d !! i) -> exposure p = 0 ->
  forall amount v, 0 <= v <= MONEY -> 0 <= c_accrued c <= MONEY ->
  exists d' b' p', let total := Z.max 0 (pledged p + (v - mark_of p) - c_accrued c) in
    repo_long_close c d i p b a amount price ct v =
      Ok (d', b', (- Z.max 0 (total - pledged p), total)) /\
    balances d' = <[i:=p']> (balances d) /\ deposited_quid d' = deposited_quid d /\ spent p'.
Proof.
  intros HL [Hp Hpl Hmk Hcb Hip Hval] Hi Hz amount v Hv Hacc.
  pose proof (mark_of_range p Hp) as Hm. pose proof (wp_pledged p Hp) as Hpr.
  unfold in_range in Hm, Hpr. cbn [imin imax u64] in *.
  assert (Hmm : mark_of p <= MONEY) by (unfold mark_of; case_match; lia).
  unfold repo_long_close. cbv zeta.
  replace (if negb (marked p =? 0) then marked p else pledged p) with (mark_of p)
    by (unfold mark_of; by destruct (marked p =? 0)).
  unfold MONEY in *. rewrite eval_safe by arith_side. cbn [bind value aop_fun].
  rewrite eval_safe by arith_side. cbn [bind value aop_fun].
  set (t := pledged p + (v - mark_of p) - c_accrued c).
  rewrite (Z.max_comm 0 t). rewrite (cast_id u64 (Z.max t 0)) by (unfold_ints; lia).
  match goal with |- context [liability_compute ?o ?oc ?e ?pl a] =>
    destruct (wp_elim _ _ (liability_total a o oc e pl (value_at_range _ _) ltac:(cbn; lia)))
      as (l & Hl & _); rewrite Hl end. cbn [bind].
  match goal with |- context [flush_raroc ?d0 ?cb0 ?ip0 ?cds0 ?t0] =>
    destruct (flush_raroc_total d0 cb0 ip0 cds0 t0) as (d' & Hf & Hb & Hq);
      [unfold MONEY; lia | unfold MONEY; cbn; lia | unfold MONEY; cbn; lia |]; rewrite Hf end.
  cbn [bind].
  replace (sat u64 (Z.max t 0 - pledged p)) with (Z.max 0 (Z.max t 0 - pledged p))
    by (unfold sat, u64; cbn [imin imax]; lia).
  rewrite (cast_id i64) by (unfold_ints; lia). rewrite eval_safe by arith_side.
  cbn [bind value aop_fun]. do 3 eexists. split; [reflexivity|].
  rewrite Hb, Hq, update_drawn_balances, update_drawn_quid. split_and!; try done.
Qed.

(** What closing a long pays.  Selling the whole of a long succeeds wherever
    its value stands, empties the position and pays out the pledge plus the
    profit or minus the loss against the mark, less the premium — twice: once
    out of the pledge when it is debited and once more from the payout. *)
Theorem long_full_close_payout d tk price now slot a b i p c : RiskLaws a -> 0 < price ->
  find_pod (balances d) (pad_ticker tk) = Some (i, p) -> wf_money p price -> 0 < exposure p ->
  marked p <> 0 -> repo_prepare p (- exposure p) price now slot a b = Ok c -> unwind_demand b = 0 ->
  0 <= c_accrued c <= pledged p -> interest_paid p + c_accrued c <= MONEY ->
  let total := Z.max 0 (pledged p - 2 * c_accrued c + (value_at p price - marked p)) in
  exists d' b' p' delta, repo d tk (- exposure p) price now slot a b = Ok (d', b', (delta, total)) /\
    balances d' = <[i:=p']> (balances d) /\ deposited_quid d' = deposited_quid d /\ spent p'.
Proof.
  intros HL Hpr Hf Hm He Hmk Hc Hu Hacc Hip total. destruct (prepare_fields _ _ _ _ _ _ _ _ Hc) as (Hov & Hred & _ & _).
  pose proof Hm as [Hp Hpl Hmkd Hcb Hipr Hval]. destruct (find_pod_lookup _ _ _ _ Hf) as [Hl _].
  pose proof (wp_exposure p Hp) as Hx. pose proof (value_at_range p price) as Hv. cbn [imax i64] in Hx.
  erewrite repo_prepared; [|done ..|unfold MONEY in *; cbn; lia]. cbv zeta.
  rewrite (proj2 (Z.ltb_lt 0 (exposure p))) by lia. cbn [orb]. unfold repo_long, repo_long_bands.
  rewrite Hred, close_reduces by lia. cbn [negb]. rewrite !andb_false_r. cbv zeta. cbn [bind].
  rewrite (proj2 (Z.eqb_neq (- exposure p) 0)) by lia. cbn [negb require bind].
  rewrite (proj2 (Z.ltb_lt (- exposure p) 0)) by lia.
  set (q := clear_clock _ _ _).
  assert (Hq : exposure q = exposure p) by (unfold q, clear_clock; by case_match).
  rewrite Hq. replace (exposure p + - exposure p) with 0 by lia. change (sat i64 0) with 0.
  change (exposure (q <| exposure := 0 |>)) with 0. change (0 <? 0) with false. cbv iota beta.
  change (0 =? 0) with true. cbv iota. rewrite Z.abs_opp.
  destruct (long_close_total c d i (q <| exposure := 0 |>) b a price
    (Z.min (sat i64 (updated p + c_billed c)) now) HL) with (amount := - exposure p) (v := value_at p price)
    as (d' & b' & p' & Hrun & Hb & Hdq & Hsp).
  - by apply charged_money.
  - by eexists.
  - done.
  - lia.
  - lia.
  - change (exposure (q <| exposure := 0 |>) =? 0) with true. cbv iota.
    fold (value_at p price). exists d', b', p'. eexists. split_and!; try done.
    rewrite Hrun. unfold mark_of.
    assert (Hfields : marked (q <| exposure := 0 |>) = marked p /\
      pledged (q <| exposure := 0 |>) = pledged p - c_accrued c)
      by (unfold q, clear_clock; by case_match).
    destruct Hfields as [-> ->]. rewrite (proj2 (Z.eqb_neq (marked p) 0)) by done.
    do 3 f_equal. unfold total. lia.
Qed.

Lemma short_redeem_total c d i p b a price ct v : RiskLaws a -> wf_money p price ->
  exposure p = 0 -> 0 < v <= MONEY -> 0 <= c_accrued c <= MONEY ->
  marked p <> 0 ->
  forall amount, units_value (Z.abs amount) price = v ->
  exists d' b' p' delta, repo_short_redeem c d i p b a amount price ct v =
      Ok (d', b', (delta, Z.max 0 (pledged p + (marked p - v)))) /\
    balances d' = <[i:=p']> (balances d) /\ deposited_quid d' = deposited_quid d /\ spent p'.
Proof.
  intros HL Hm Hz Hv Hacc Hmk amount Hred. pose proof Hm as [Hp Hpl Hmkd Hcb Hip Hval].
  pose proof (wp_pledged p Hp) as Hpr. pose proof (wp_marked p Hp) as Hmr.
  unfold in_range, MONEY in *. cbn [imin imax u64] in *.
  assert (Hcl : wf_close p) by (constructor; unfold in_range; cbn [imin imax u64]; try done; lia).
  assert (Hall : forall x, 0 <= x <= imax u64 -> pro_rata v v x = x).
  { intros x Hx. destruct (pro_rata_range v v x ltac:(lia) Hx ltac:(cbn; lia)) as [-> _].
    rewrite Z.max_l by lia. apply Z.div_mul. lia. }
  unfold repo_short_redeem. rewrite Hz. change (0 <? 0) with false. cbv iota beta zeta. rewrite Hred.
  rewrite (proj2 (Z.ltb_lt 0 v)) by lia.
  destruct (partial_close_eq a p (c_old_value c) v v price ct (c_accrued c) HL Hcl ltac:(lia)
    ltac:(cbn; lia)) as (l & ->). cbn [bind pledged_released raroc fully_closed interest_on_closed cost_basis_released].
  rewrite (proj2 (Z.eqb_neq (marked p) 0)) by done. cbn [negb].
  rewrite sat_u128_le by (unfold_ints; nia). rewrite (Z.max_l v 1), Z.div_mul by lia.
  rewrite (cast_id u64 (marked p)) by (unfold_ints; lia).
  rewrite eval_safe by arith_side. cbn [bind value aop_fun].
  rewrite !Hall by (cbn; lia). rewrite (sat_id i128) by (unfold_ints; lia).
  rewrite (cast_id u64) by (unfold_ints; lia). rewrite (cast_id i64 v) by (unfold_ints; lia).
  rewrite eval_safe by arith_side. cbn [bind value aop_fun]. rewrite Hz.
  change (0 =? 0) with true. cbv iota.
  match goal with |- context [flush_raroc ?d0 ?cb0 ?ip0 ?cds0 ?t0] =>
    destruct (flush_raroc_total d0 cb0 ip0 cds0 t0) as (d' & Hf & Hb & Hq);
      [unfold MONEY; lia | unfold MONEY; lia | unfold MONEY; lia |]; rewrite Hf end.
  cbn [bind]. rewrite (Z.max_comm _ 0). do 4 eexists. split; [reflexivity|].
  rewrite Hb, Hq, update_drawn_balances, update_drawn_quid. split_and!; [done|done|].
  unfold spent, liability_apply, released. cbn. rewrite Hall by (cbn; lia). lia.
Qed.

(** What closing a short pays.  Buying back the whole of a short that is not
    past the lower edge of its band succeeds, empties the position and credits
    the pledge plus the entry mark less the exit value, less the premium — once. *)
Theorem short_full_close_payout d tk price now slot a b i p c : RiskLaws a -> 0 < price ->
  find_pod (balances d) (pad_ticker tk) = Some (i, p) -> wf_money p price -> exposure p < 0 ->
  marked p <> 0 -> repo_prepare p (- exposure p) price now slot a b = Ok c -> unwind_demand b = 0 ->
  0 <= c_accrued c <= pledged p -> interest_paid p + c_accrued c <= MONEY ->
  sat u64 (c_mark c - c_collar_amt c) < value_at p price ->
  let credit := Z.max 0 (pledged p - c_accrued c + (marked p - value_at p price)) in
  exists d' b' p' delta, repo d tk (- exposure p) price now slot a b = Ok (d', b', (delta, credit)) /\
    balances d' = <[i:=p']> (balances d) /\ deposited_quid d' = deposited_quid d /\ spent p'.
Proof.
  intros HL Hpr Hf Hm He Hmk Hc Hu Hacc Hip Hpiv credit.
  destruct (prepare_fields _ _ _ _ _ _ _ _ Hc) as (Hov & Hred & _ & _).
  pose proof Hm as [Hp Hpl Hmkd Hcb Hipr Hval]. pose proof (wp_exposure p Hp) as Hx. cbn [imax i64] in Hx.
  pose proof (sat_u64_nonneg (c_mark c - c_collar_amt c)) as Hpos.
  erewrite repo_prepared; [|done ..|unfold MONEY in *; cbn; lia]. cbv zeta.
  rewrite (proj2 (Z.ltb_ge 0 (exposure p))) by lia. rewrite (proj2 (Z.eqb_neq (exposure p) 0)) by lia.
  cbn [orb andb]. unfold repo_short. cbn [exposure modify].
  rewrite eval_safe by arith_side. cbn [bind value aop_fun]. cbv zeta.
  rewrite cast_id by (unfold_ints; lia).
  replace (units_value (0 - exposure p) price) with (value_at p price)
    by (unfold value_at; f_equal; lia).
  rewrite Hred, close_reduces by lia. cbn [negb]. rewrite !andb_false_r.
  rewrite (proj2 (Z.ltb_lt _ (value_at p price))) by done. cbn [orb].
  set (q := clear_clock _ _ _).
  assert (Hq : exposure q = exposure p) by (unfold q, clear_clock; by case_match).
  rewrite Hq. replace (exposure p + - exposure p) with 0 by lia. change (sat i64 0) with 0.
  rewrite (proj2 (Z.ltb_lt 0 (- exposure p))), (proj2 (Z.ltb_lt 0 (value_at p price))) by lia. cbn [andb].
  assert (Hfields : marked (q <| exposure := 0 |>) = marked p /\
      pledged (q <| exposure := 0 |>) = pledged p - c_accrued c)
    by (unfold q, clear_clock; by case_match). destruct Hfields as [Hqm Hqp].
  destruct (short_redeem_total c d i (q <| exposure := 0 |>) b a price
    (Z.min (sat i64 (updated p + c_billed c)) now) (value_at p price) HL) with (amount := - exposure p)
    as (d' & b' & p' & delta & Hrun & Hb & Hdq & Hsp); try done; try lia.
  - by apply charged_money.
  - unfold value_at. by rewrite Z.abs_opp.
  - exists d', b', p', delta. split_and!; try done. rewrite Hrun, Hqm, Hqp. done.
Qed.

(** A tail whose premium integral has run 100 bps for 99 days. *)
Definition charging_actuary : Actuary := sample_actuary <| premium_index := 855360000 |>.

Lemma charging_laws : RiskLaws charging_actuary.
Proof.
  apply wf_risk_laws. constructor; [constructor; vm_compute; split; discriminate|..];
    vm_compute; split; discriminate.
Qed.

Lemma long_full_close_payout_witness : exists d' b' p' delta,
  repo sample_long sample_ticker (-50000000) 201000000 8640000 1000 charging_actuary sample_bank'
    = Ok (d', b', (delta, 1995482192)) /\ balances d' = [p'] /\ spent p'.
Proof.
  edestruct (long_full_close_payout sample_long sample_ticker 201000000 8640000 1000 charging_actuary
    sample_bank' 0) as (d' & b' & p' & delta & H & Hb & _ & Hs).
  - exact charging_laws.
  - vm_compute. reflexivity.
  - vm_compute. reflexivity.
  - constructor; [constructor; vm_compute; split; discriminate|..]; vm_compute;
      try split; discriminate.
  - vm_compute. reflexivity.
  - vm_compute. discriminate.
  - vm_compute. reflexivity.
  - vm_compute. reflexivity.
  - vm_compute. split; discriminate.
  - vm_compute. discriminate.
  - exists d', b', p', delta. split; [exact H|]. split; [exact Hb | exact Hs].
Defined.

Lemma short_full_close_payout_witness : exists d' b' p' delta,
  repo sample_depositor sample_ticker 50000000 201000000 8640000 1000 charging_actuary sample_bank'
    = Ok (d', b', (delta, 1922741096)) /\ balances d' = [p'] /\ spent p'.
Proof.
  edestruct (short_full_close_payout sample_depositor sample_ticker 201000000 8640000 1000 charging_actuary
    sample_bank' 0) as (d' & b' & p' & delta & H & Hb & _ & Hs).
  - exact charging_laws.
  - vm_compute. reflexivity.
  - vm_compute. reflexivity.
  - constructor; [constructor; vm_compute; split; discriminate|..]; vm_compute;
      try split; discriminate.
  - vm_compute. reflexivity.
  - vm_compute. discriminate.
  - vm_compute. reflexivity.
  - vm_compute. reflexivity.
  - vm_compute. split; discriminate.
  - vm_compute. discriminate.
  - vm_compute. reflexivity.
  - exists d', b', p', delta. split; [exact H|]. split; [exact Hb | exact Hs].
Defined.
