(* ===== verification/Renege.v ===== *)
(** * [Depositor::renege]: collateral in and out

    [svm/programs/quid/src/stay.rs], [renege].  Without a ticker, a negative
    amount draws collateral from every position, the largest pledge first; with a
    ticker it adds to or removes from one position, opening it when it does not
    exist.  Spent positions are pruned at the end. *)
From S2P Require Import Prelude Actuary Pool Position.

(** ** Visiting order: indices by pledge, largest first, ties in order *)
Fixpoint insert_desc (key : nat -> Z) (x : nat) (l : list nat) : list nat :=
  match l with
  | [] => [x]
  | y :: l' => if key y <=? key x then x :: l else y :: insert_desc key x l'
  end.

Definition sort_desc (key : nat -> Z) (l : list nat) : list nat :=
  foldr (insert_desc key) [] l.

Definition pledge_of (l : list Stock) (i : nat) : Z :=
  match l !! i with Some p => pledged p | None => 0 end.

Definition visit_order (l : list Stock) : list nat :=
  sort_desc (pledge_of l) (List.seq 0 (length l)).

(** The most one position may release. *)
Definition release_max (p : Stock) (price : Z) : Z :=
  let collar_amt := collar_amount p price in
  if 0 <? exposure p then
    let exposure_value := units_value (cast u64 (exposure p)) price in
    sat u64 (sat u64 (pledged p + collar_amt) - exposure_value)
  else if exposure p <? 0 then
    let exposure_value := value_at p price in
    sat u64 (exposure_value - sat u64 (pledged p - collar_amt))
  else pledged p.

(** One pod of the loop. *)
Definition release_pod (p : Stock) (deducted current_time : Z) : outcome Stock :=
  p <- accumulate_collar_seconds p current_time ;;
  let p := p <| pledged := sat u64 (pledged p - deducted) |>
             <| cost_basis := sat u64 (cost_basis p - deducted) |> in
  Ok (if exposure p =? 0 then p <| updated := current_time |> else p).

Fixpoint release_loop (order : list nat) (prices : option (list Z)) (current_time : Z)
    (l : list Stock) (deducting : Z) : outcome (list Stock * Z) :=
  match order with
  | [] => Ok (l, deducting)
  | i :: order =>
      if deducting =? 0 then Ok (l, deducting) else
      price <- ok_or (prices ≫= fun ps => ps !! i) NoPrice ;;
      p <- (match l !! i with Some p => Ok p | None => Panic end) ;;
      let deducted := Z.min (release_max p price) deducting in
      deducting <- u64{ deducting - deducted } ;;
      p <- release_pod p deducted current_time ;;
      release_loop order prices current_time (<[i:=p]> l) deducting
  end.

(** ** One position *)
Definition clip_remove (p : Stock) (value collar_amt amount : Z) : outcome Z :=
  if exposure p <? 0 then
    if pledged p <? value then
      m <- i64{ 0 - [cast i64 (sat u64 (collar_amt - sat u64 (value - pledged p)))] } ;;
      Ok (Z.max m amount)
    else if value <? pledged p then Err TakeProfit
    else Ok amount
  else if 0 <? exposure p then
    let max := if value <=? pledged p
               then sat u64 (collar_amt - sat u64 (pledged p - value))
               else sat u64 (collar_amt - sat u64 (value - pledged p)) in
    i64{ 0 - [cast i64 (Z.min max (Z.abs amount))] }
  else Ok amount.

Definition clip_add (p : Stock) (value collar_amt amount : Z) : outcome Z :=
  if exposure p <? 0 then
    if pledged p <? value then Ok (Z.min amount (cast i64 (sat u64 (value - pledged p))))
    else if value <? pledged p then Err TakeProfit
    else Ok amount
  else if 0 <? exposure p then
    let max := if value <=? pledged p
               then sat u64 (collar_amt - sat u64 (pledged p - value))
               else sat u64 (sat u64 (value + collar_amt) - pledged p) in
    Ok (cast i64 (Z.min max (cast u64 amount)))
  else Ok amount.

Definition adjust_pod (p : Stock) (amount price current_time : Z) : outcome Stock :=
  if negb (exposure p =? 0) && (price =? 0) then Err NoPrice else
  let value := value_at p price in
  let collar_amt := collar_amount p price in
  p <- (if amount <? 0 then
          require (Z.abs amount <=? pledged p) InvalidAmount ;;
          amount <- clip_remove p value collar_amt amount ;;
          p <- accumulate_collar_seconds p current_time ;;
          Ok (p <| pledged := sat u64 (pledged p - Z.abs amount) |>
                <| cost_basis := sat u64 (cost_basis p - Z.abs amount) |>)
        else
          amount <- clip_add p value collar_amt amount ;;
          Ok (p <| pledged := sat u64 (pledged p + cast u64 amount) |>
                <| cost_basis := sat u64 (cost_basis p + cast u64 amount) |>)) ;;
  Ok (if exposure p =? 0 then p <| updated := current_time |> else p).

Definition new_pod (t : list Z) (amount current_time : Z) : Stock :=
  mkStock t amount 0 current_time 0 amount 0 0 0 0 0 0 0.

Definition live_pod (p : Stock) : bool := (0 <? pledged p) || negb (exposure p =? 0).

Definition prune (d : Depositor) : Depositor :=
  d <| balances := List.filter live_pod (balances d) |>.

(** The branch without a ticker. *)
Definition renege_all (d : Depositor) (amount : Z) (prices : option (list Z))
    (current_time : Z) : outcome (Depositor * Z) :=
  '(l, rest) <- release_loop (visit_order (balances d)) prices current_time
                  (balances d) (Z.abs amount) ;;
  Ok (prune (d <| balances := l |>), cast i64 rest).

(** The branch with a ticker. *)
Definition renege_one (d : Depositor) (tk : list Z) (amount : Z) (prices : option (list Z))
    (current_time : Z) : outcome (Depositor * Z) :=
  let padded := pad_ticker tk in
  match find_pod (balances d) padded with
  | Some (i, p) =>
      let price := default 0 (prices ≫= head) in
      p <- adjust_pod p amount price current_time ;;
      Ok (prune ((set_pod d i p) <| last_updated := current_time |>), 0)
  | None =>
      require (0 <? amount) InvalidAmount ;;
      if MAX_LEN <=? Z.of_nat (length (balances d)) then Err MaxPositionsReached else
      Ok (prune (d <| balances := balances d ++ [new_pod padded (cast u64 amount) current_time] |>), 0)
  end.

Definition renege (d : Depositor) (tk : option (list Z)) (amount : Z)
    (prices : option (list Z)) (current_time : Z) : outcome (Depositor * Z) :=
  match tk with
  | None => if amount <? 0 then renege_all d amount prices current_time else Err UnknownSymbol
  | Some t => renege_one d t amount prices current_time
  end.

(** * Theorems *)

(** ** The visiting order is a permutation, largest pledge first *)
Lemma insert_desc_perm key x l : insert_desc key x l ≡ₚ x :: l.
Proof.
  induction l as [|y l IH]; cbn; [done|]. case_match; [done|]. rewrite IH. apply Permutation_swap.
Qed.

Lemma sort_desc_perm key l : sort_desc key l ≡ₚ l.
Proof. induction l as [|x l IH]; cbn; [done|]. by rewrite insert_desc_perm, IH. Qed.

Lemma visit_order_nodup l : NoDup (visit_order l).
Proof. unfold visit_order. rewrite sort_desc_perm. apply NoDup_ListNoDup, seq_NoDup. Qed.

Lemma visit_order_lt l i : i ∈ visit_order l -> (i < length l)%nat.
Proof.
  unfold visit_order. rewrite sort_desc_perm, list_elem_of_In, in_seq. lia.
Qed.

(** ** Releasing collateral *)
Record releasable (prices : list Z) (now : Z) (i : nat) (p : Stock) : Prop := {
  rl_price : exists x, prices !! i = Some x /\ 0 <= release_max p x <= pledged p;
  rl_pledged : in_range u64 (pledged p);
  rl_basis : in_range u64 (cost_basis p);
  rl_updated : 0 <= updated p <= imax i64
}.

Lemma release_pod_total p x now : in_range u64 (pledged p) -> 0 <= updated p <= imax i64 ->
  0 <= now <= imax i64 -> 0 <= x <= pledged p ->
  wp (release_pod p x now) (fun p' => pledged p' = pledged p - x /\
    exposure p' = exposure p /\ ticker p' = ticker p).
Proof.
  intros Hp Hu Hn Hx. unfold release_pod, in_range in *.
  cbn [imin imax u64 i64] in *.
  assert (Hacc : wp (accumulate_collar_seconds p now)
    (fun p' => pledged p' = pledged p /\ exposure p' = exposure p /\ ticker p' = ticker p)).
  { unfold accumulate_collar_seconds. wp_go. cbv zeta. wp_step; by wp_step. }
  apply wp_bind. eapply wp_mono; [exact Hacc|]. cbn beta. intros p' (Hpl & He & Ht). cbv zeta.
  wp_go. cbn [exposure modify]. case_match; cbn; rewrite Hpl, sat_id by (unfold_ints; lia); done.
Qed.

Lemma release_loop_total prices now : 0 <= now <= imax i64 ->
  forall order l req, NoDup order -> (forall i, i ∈ order -> (i < length l)%nat) ->
  (forall i p, i ∈ order -> l !! i = Some p -> releasable prices now i p) -> 0 <= req <= imax u64 ->
  Forall (fun p => 0 <= pledged p) l ->
  wp (release_loop order (Some prices) now l req) (fun '(l', rest) =>
    0 <= rest <= req /\ sumZ pledged l' + req = sumZ pledged l + rest /\
    ticker <$> l' = ticker <$> l /\ exposure <$> l' = exposure <$> l /\
    Forall (fun p => 0 <= pledged p) l').
Proof.
  intros Hn. induction order as [|i order IH]; intros l req Hnd Hlt Hrel Hreq Hpos; cbn [release_loop].
  { wp_step. split_and!; try done; lia. }
  apply wp_if; intros Hz; [wp_step; split_and!; try done; lia|].
  apply NoDup_cons in Hnd as [Hni Hnd].
  destruct (lookup_lt_is_Some_2 l i) as [p Hp]; [apply Hlt; by left|].
  destruct (Hrel i p) as [(x & Hx & Hmax) Hpl Hcb Hu]; [by left|done|].
  cbn [mbind option_bind]. rewrite Hx, Hp. cbn [ok_or bind].
  set (ded := Z.min (release_max p x) req). assert (Hd : 0 <= ded <= pledged p) by (unfold ded; lia).
  unfold_ints. wp_go. wp_call release_pod_total as p' Hp'; [done|done|done|lia|].
  destruct Hp' as (Hpl' & He' & Ht').
  eapply wp_mono; [apply IH; [done | intros j Hj; rewrite length_insert; apply Hlt; by right | | unfold_ints; lia
    | apply Forall_insert; [done|lia]]|].
  { intros j q Hj Hq. rewrite list_lookup_insert_ne in Hq by congruence. apply Hrel; [by right|done]. }
  intros [l' rest] (Hr & Hs & Htk & Hex & Hpos'). rewrite (sumZ_insert _ _ _ p) in Hs by done.
  split_and!; try lia; try done.
  - rewrite Htk, list_fmap_insert, Ht'. apply list_insert_id. by rewrite list_lookup_fmap, Hp.
  - rewrite Hex, list_fmap_insert, He'. apply list_insert_id. by rewrite list_lookup_fmap, Hp.
Qed.

Lemma sum_filter_live l : (forall p, p ∈ l -> 0 <= pledged p) ->
  sumZ pledged (List.filter live_pod l) = sumZ pledged l.
Proof.
  induction l as [|p l IH]; intros H; [done|]. cbn [List.filter].
  assert (0 <= pledged p) by (apply H; set_solver).
  rewrite sumZ_cons. destruct (live_pod p) eqn:E; [rewrite sumZ_cons, IH by set_solver; done|].
  rewrite IH by set_solver. unfold live_pod in E. apply orb_false_iff in E as [E _]. lia.
Qed.

(** ** Properties *)

(** Drawing collateral from every position conserves it.  Whenever no
    position may release more than its own pledge (see [short_over_release] for
    when it may), the call succeeds, the pledges fall by exactly what was paid —
    the request less the remainder reported back —, every position keeps its
    ticker and exposure, and the remaining positions are the live ones. *)
Theorem renege_all_conserves d amount prices now :
  (forall i p, balances d !! i = Some p -> releasable prices now i p) ->
  0 <= now <= imax i64 -> - imax i64 <= amount < 0 ->
  exists d' rest l', renege d None amount (Some prices) now = Ok (d', rest) /\
    0 <= rest <= - amount /\
    sumZ pledged (balances d') = sumZ pledged (balances d) - (- amount - rest) /\
    ticker <$> l' = ticker <$> balances d /\ exposure <$> l' = exposure <$> balances d /\
    balances d' = List.filter live_pod l' /\ deposited_quid d' = deposited_quid d.
Proof.
  intros Hrel Hn Ha. unfold renege, renege_all. rewrite (proj2 (Z.ltb_lt amount 0)) by lia.
  cbn [imax i64] in Ha. assert (Hpos : Forall (fun p => 0 <= pledged p) (balances d)).
  { apply Forall_forall. intros p Hp. apply list_elem_of_lookup in Hp as [i Hi].
    destruct (Hrel i p Hi) as [_ Hpl _ _]. unfold in_range in Hpl. cbn in Hpl. lia. }
  destruct (wp_elim _ _ (release_loop_total prices now Hn (visit_order (balances d)) (balances d)
    (Z.abs amount) (visit_order_nodup _) (visit_order_lt _) ltac:(eauto) ltac:(cbn; lia) Hpos))
    as ([l' rest] & Hrun & Hr & Hs & Htk & Hex & Hpos').
  rewrite Hrun. cbn [bind]. rewrite cast_id by (unfold_ints; lia).
  do 2 eexists. exists l'. split; [reflexivity|]. cbn [prune balances modify deposited_quid].
  rewrite sum_filter_live; [split_and!; try done; lia|].
  by apply Forall_forall.
Qed.

(** Two flat positions of 300 and 500; a request of 600 empties the larger first. *)
Definition flat_account : Depositor :=
  depositor_default <| balances := [new_pod [65; 0; 0; 0; 0; 0; 0; 0] 300 10;
                                    new_pod [66; 0; 0; 0; 0; 0; 0; 0] 500 10] |>.

Lemma renege_all_conserves_witness :
  exists d' rest, renege flat_account None (-600) (Some [1000000; 1000000]) 20 = Ok (d', rest) /\
    sumZ pledged (balances d') = 200 /\ rest = 0 /\ length (balances d') = 1%nat.
Proof.
  destruct (renege_all_conserves flat_account (-600) [1000000; 1000000] 20)
    as (d' & rest & l' & H & _ & Hs & _).
  - intros [|[|i]] p Hp; [| |discriminate]; vm_compute in Hp; injection Hp as <-.
    + constructor; [exists 1000000; split; [reflexivity|]|..]; vm_compute; split; discriminate.
    + constructor; [exists 1000000; split; [reflexivity|]|..]; vm_compute; split; discriminate.
  - vm_compute. split; discriminate.
  - vm_compute. split; [discriminate|reflexivity].
  - exists d', rest. vm_compute in H. injection H as <- <-. vm_compute. auto.
Defined.

(** A short may release more than it pledged.  An account whose only position
    is a 5x short with a pledge of 2,000 asks for 8,000: the call reports the
    whole request as released and leaves a pledge of zero, so the caller is told
    to pay out four times the collateral that was there. *)
Theorem short_over_release :
  sumZ pledged (balances sample_depositor) = 2000000000 /\
  exists d', renege sample_depositor None (-8000000000) (Some [200000000]) 100000 = Ok (d', 0) /\
    sumZ pledged (balances d') = 0.
Proof.
  split; [vm_compute; reflexivity|]. eexists. split; vm_compute; reflexivity.
Qed.

(** ** The book stays well formed *)
Lemma accumulate_same p now p' : accumulate_collar_seconds p now = Ok p' ->
  ticker p' = ticker p /\ exposure p' = exposure p /\ pledged p' = pledged p.
Proof.
  unfold accumulate_collar_seconds. intros H. apply bind_ok in H as (? & _ & H).
  case_match; injection H as <-; done.
Qed.

Lemma release_pod_ticker p x now p' : release_pod p x now = Ok p' -> ticker p' = ticker p.
Proof.
  unfold release_pod. intros H. apply bind_ok in H as (q & Hq & H).
  apply accumulate_same in Hq as (Ht & _). injection H as <-. case_match; by cbn.
Qed.

Lemma release_loop_tickers order prices now : forall l req l' rest,
  release_loop order prices now l req = Ok (l', rest) -> ticker <$> l' = ticker <$> l.
Proof.
  induction order as [|i order IH]; intros l req l' rest H; cbn [release_loop] in H.
  { by injection H as <- _. }
  case_match; [by injection H as <- _|].
  apply bind_ok in H as (x & _ & H). apply bind_ok in H as (p & Hp & H).
  apply bind_ok in H as (r & _ & H). apply bind_ok in H as (p' & Hp' & H).
  apply IH in H. destruct (l !! i) as [q|] eqn:Hi; [|done]. injection Hp as <-.
  rewrite H, list_fmap_insert, (release_pod_ticker _ _ _ _ Hp').
  apply list_insert_id. by rewrite list_lookup_fmap, Hi.
Qed.

Lemma adjust_pod_ticker p amount price now p' : adjust_pod p amount price now = Ok p' ->
  ticker p' = ticker p.
Proof.
  unfold adjust_pod. intros H. case_match; [done|]. apply bind_ok in H as (q & Hq & H).
  assert (ticker q = ticker p) as <-.
  { destruct (amount <? 0).
    - apply bind_ok in Hq as (? & _ & Hq). apply bind_ok in Hq as (? & _ & Hq).
      apply bind_ok in Hq as (p1 & Hacc & Hq). apply accumulate_same in Hacc as (<- & _).
      by injection Hq as <-.
    - apply bind_ok in Hq as (? & _ & Hq). by injection Hq as <-. }
  injection H as <-. by destruct (exposure q =? 0).
Qed.

(** Unique tickers, at most [MAX_LEN] positions. *)
Record book_ok (l : list Stock) : Prop := {
  bk_unique : NoDup (ticker <$> l);
  bk_length : Z.of_nat (length l) <= MAX_LEN
}.

Lemma filter_sublist {A} (f : A -> bool) l : sublist (List.filter f l) l.
Proof. induction l as [|x l IH]; cbn; [constructor|]. case_match; by constructor. Qed.

Lemma filter_book l : book_ok l -> book_ok (List.filter live_pod l).
Proof.
  intros [Hu Hl]. pose proof (filter_sublist live_pod l) as Hs. split.
  - eapply sublist_NoDup; [exact Hu|]. by apply fmap_sublist.
  - apply sublist_length in Hs. lia.
Qed.

Lemma book_same_tickers l l' : ticker <$> l' = ticker <$> l -> book_ok l -> book_ok l'.
Proof.
  intros Ht [Hu Hl]. split; [by rewrite Ht|].
  assert (length l' = length l) as -> by (by rewrite <- (length_fmap ticker l), <- Ht, length_fmap).
  done.
Qed.

Lemma book_push l t amount now : book_ok l -> find_pod l t = None ->
  Z.of_nat (length l) < MAX_LEN -> book_ok (l ++ [new_pod t amount now]).
Proof.
  intros [Hu Hl] Hf Hlt. split.
  - rewrite fmap_app. apply NoDup_app. split_and!; [done| |apply NoDup_singleton].
    intros x Hx Hx'. apply list_elem_of_singleton in Hx' as ->. cbn in Hx.
    apply list_elem_of_fmap in Hx as (p & Hp & Hin). unfold find_pod in Hf.
    apply list_find_None in Hf. rewrite Forall_forall in Hf. by apply (Hf p Hin).
  - rewrite length_app. cbn. lia.
Qed.

(** The book of positions stays well formed.  Every successful collateral
    call leaves at most one position per ticker, at most [MAX_LEN] positions, and
    only live ones — a pledge or an exposure — whatever the ticker, the amount
    and the prices. *)
Theorem renege_keeps_book d tk amount prices now d' rest :
  book_ok (balances d) -> renege d tk amount prices now = Ok (d', rest) ->
  book_ok (balances d') /\ Forall (fun p => live_pod p = true) (balances d').
Proof.
  intros Hb H.
  assert (Hp : exists d1, d' = prune d1 /\ book_ok (balances d1)).
  { destruct tk as [t|]; cbn [renege] in H.
    - unfold renege_one in H. cbv zeta in H. destruct (find_pod (balances d) (pad_ticker t)) as [[i p]|] eqn:Hf.
      + apply bind_ok in H as (p' & Hp' & H). injection H as <- _. eexists. split; [reflexivity|].
        apply adjust_pod_ticker in Hp'. destruct (find_pod_lookup _ _ _ _ Hf) as [Hl _].
        eapply book_same_tickers; [|exact Hb]. cbn. rewrite list_fmap_insert, Hp'.
        apply list_insert_id. by rewrite list_lookup_fmap, Hl.
      + apply bind_ok in H as (? & _ & H). destruct (Z.leb_spec MAX_LEN (Z.of_nat (length (balances d)))); [done|].
        injection H as <- _. eexists. split; [reflexivity|]. by apply book_push.
    - destruct (amount <? 0); [|done]. unfold renege_all in H.
      apply bind_ok in H as ([l r] & Hl & H). injection H as <- _. eexists. split; [reflexivity|].
      eapply book_same_tickers; [|exact Hb]. by eapply release_loop_tickers. }
  destruct Hp as (d1 & -> & Hb1). split; [by apply filter_book|].
  apply Forall_forall. intros p Hp. cbn in Hp. apply list_elem_of_In, filter_In in Hp. tauto.
Qed.

Lemma renege_keeps_book_witness : exists d' rest,
  renege flat_account (Some [67]) 700 None 20 = Ok (d', rest) /\
  length (balances d') = 3%nat /\ book_ok (balances d').
Proof.
  assert (Hr : exists d' rest, renege flat_account (Some [67]) 700 None 20 = Ok (d', rest) /\
    length (balances d') = 3%nat).
  { eexists _, _. split; vm_compute; reflexivity. }
  destruct Hr as (d' & rest & H & Hl). exists d', rest. split; [exact H|]. split; [exact Hl|].
  apply (renege_keeps_book flat_account (Some [67]) 700 None 20 d' rest); [|exact H].
  constructor; [|vm_compute; discriminate].
  apply NoDup_cons. split; [|apply NoDup_singleton].
  intros Hin%list_elem_of_singleton. discriminate Hin.
Defined.

(** Collateral cannot be added to or taken from an open position without its
    price, and the one price a single-position call reads is the first of the
    vector it is given, whichever position it is asked about. *)
Theorem renege_one_price d tk amount now x ps :
  renege d (Some tk) amount (Some (x :: ps)) now = renege d (Some tk) amount (Some [x]) now /\
  forall i p, find_pod (balances d) (pad_ticker tk) = Some (i, p) -> exposure p <> 0 ->
    renege d (Some tk) amount None now = Err NoPrice.
Proof.
  split; [done|]. intros i p Hf Hne. cbn [renege]. unfold renege_one. rewrite Hf.
  unfold adjust_pod. by rewrite (proj2 (Z.eqb_neq _ 0) Hne).
Qed.

Lemma renege_one_price_witness :
  renege sample_depositor (Some sample_ticker) 5 None 1 = Err NoPrice.
Proof.
  destruct (renege_one_price sample_depositor sample_ticker 5 1 0 []) as [_ H].
  apply (H 0%nat sample_pod); vm_compute; [reflexivity | discriminate].
Defined.
