(* ===== verification/Clutch.v ===== *)
(** * Clutch: the instruction handlers over accounts, pool and ticker

    [svm/programs/quid/src/clutch.rs]: the reserve reconciliation, the liquidation
    crank [amortise], the three dollar paths of [handle_out] (pool withdrawal,
    collateral withdrawal, trade) and the batch crank [handle_sweep].

    Outside the model: account validation and deserialization, the oracle
    (a handler takes the price it fetched, an [outcome] that may be an error) and
    the token program (a handler returns the amount it asks the vaults to pay).
    The owner and key comparisons of the handlers are kept. *)
From S2P Require Import Prelude Actuary Pricing Learning Pool Position Repo Renege.

(** ** The reserve of one ticker *)
Definition reconcile_ticker_reserve (r : TickerRisk) (b : Depository)
  : outcome (TickerRisk * Depository) :=
  let net := Z.abs (get_net (actuary r)) in
  target <- ticker_reserve_dollars net (actuary r) ;;
  let before := max_liability b in
  let b := b <| max_liability := sat u64 (sat u64 (max_liability b - reserved r) + target) |> in
  let r := r <| reserved := target |> in
  let freed := sat u64 (before - max_liability b) in
  Ok (r, b <| unwind_demand := sat u64 (unwind_demand b - freed) |>).

(** ** What every price-taking handler does first *)
Definition observe_market (r : TickerRisk) (b : Depository) (price now slot : Z)
  : outcome TickerRisk :=
  util <- utilisation_bps b ;;
  a <- accrue_premium_index (actuary r) now util ;;
  check_twap_deviation a (cast i64 price) ;;
  a <- update_price a (cast i64 price) slot ;;
  Ok (r <| actuary := a |>).

(** [deposit_seconds += balance * (now - since)], checked throughout. *)
Definition age (seconds balance since now : Z) : outcome Z :=
  dt <- i64{ now - since } ;;
  u128{ seconds + balance * [cast u128 dt] }.

(** The handlers find a position by comparing the bytes before the padding. *)
Fixpoint trim_nul (l : list Z) : list Z :=
  match l with
  | [] => []
  | x :: l => match trim_nul l with
              | [] => if x =? 0 then [] else [x]
              | y :: k => x :: y :: k
              end
  end.

Definition find_named (l : list Stock) (t : list Z) : option Stock :=
  List.find (fun p => bool_decide (trim_nul (ticker p) = t)) l.

(** ** [amortise]: one crank of one position *)

(** The pool is owed [delta]: the crank books it as earnings, less the cut. *)
Definition book_unwound (b : Depository) (r : TickerRisk) (prior_exposure delta interest slot : Z)
  : outcome (Depository * TickerRisk) :=
  d <- i64{ delta * (0 - 1) } ;;
  d <- i64{ d - [cast i64 interest] } ;;
  y <- u64{ [yield_pool b] + [cast u64 d] } ;;
  let b := b <| yield_pool := y |> in
  nd <- i64{ 0 - d } ;;
  a <- record_activity (actuary r) prior_exposure nd slot d (cast i64 (total_deposits b)) ;;
  '(r, b) <- reconcile_ticker_reserve (r <| actuary := a |>) b ;;
  Ok (b, r).

(** The position was cured: recover [delta] from the customer's collateral. *)
Definition book_cured (c : Depositor) (b : Depository) (r : TickerRisk) (prices : outcome (list Z))
    (prior_exposure delta now slot : Z) : outcome (Depositor * Depository * TickerRisk) :=
  ps <- prices ;;
  nd <- i64{ 0 - delta } ;;
  '(c, remainder) <- renege c None nd (Some ps) now ;;
  rec <- i64{ delta - remainder } ;;
  let recovered := cast u64 rec in
  dq <- u64{ [deposited_quid c] + recovered } ;;
  t <- u64{ [total_deposits b] + recovered } ;;
  let shortfall := cast u64 remainder in
  let from_yield := Z.min shortfall (yield_pool b) in
  y <- u64{ [yield_pool b] - from_yield } ;;
  rest <- u64{ shortfall - from_yield } ;;
  let b := b <| yield_pool := y |> <| total_deposits := sat u64 (t - rest) |> in
  a <- record_activity (actuary r) prior_exposure delta slot delta (cast i64 (total_deposits b)) ;;
  '(r, b) <- reconcile_ticker_reserve (r <| actuary := a |>) b ;;
  Ok (c <| deposited_quid := dq |>, b, r).

(** The commission lands in the liquidator's account and in the pool's total. *)
Definition pay_commission (l : Depositor) (b : Depository) (key commission now : Z)
  : outcome (Depositor * Depository) :=
  l <- (if owner l =? 0 then Ok (l <| owner := key |> <| last_updated := now |>)
        else s <- age (deposit_seconds l) (deposited_quid l) (last_updated l) now ;;
             Ok (l <| deposit_seconds := s |> <| last_updated := now |>)) ;;
  dq <- u64{ [deposited_quid l] + commission } ;;
  Ok (l <| deposited_quid := dq |>,
      b <| total_deposits := sat u64 (total_deposits b + commission) |>).

Definition amortise (c l : Depositor) (b : Depository) (r : TickerRisk) (t : list Z)
    (oracle : outcome Z) (prices : outcome (list Z)) (liquidating liquidator now slot : Z)
  : outcome (Depositor * Depositor * Depository * TickerRisk) :=
  require (owner c =? liquidating) InvalidUser ;;
  price <- oracle ;;
  r <- observe_market r b price now slot ;;
  cs <- age (deposit_seconds c) (deposited_quid c) (last_updated c) now ;;
  let c := c <| deposit_seconds := cs |> in
  bs <- age (total_deposit_seconds b) (total_deposits b) (bank_last_updated b) now ;;
  let b := b <| total_deposit_seconds := bs |> <| bank_last_updated := now |> in
  '(c, b, (delta, interest)) <- repo c t 0 price now slot (actuary r) b ;;
  require (negb (delta =? 0)) NotUndercollateralised ;;
  y <- u64{ [yield_pool b] + interest } ;;
  let b := b <| yield_pool := y |> in
  ad <- abs_i64 delta ;;
  let commission := ad / 250 in
  let prior_exposure := from_option exposure 0 (find_named (balances c) t) in
  '(c, b, r) <-
    (if delta <? 0 then
       '(b, r) <- book_unwound b r prior_exposure delta commission slot ;; Ok (c, b, r)
     else book_cured c b r prices prior_exposure delta now slot) ;;
  let c := reset_raroc c in
  '(l, b) <- pay_commission l b liquidator commission now ;;
  Ok (c, l, b, r).

(** ** [handle_out]: dollars out of the pool *)

(** The account's share of the earnings, by tenure, discounted by what it has
    itself drawn. *)
Definition earned_yield (c : Depositor) (b : Depository) : outcome Z :=
  let earned :=
    if (0 <? total_deposit_seconds b) && (0 <? yield_pool b)
    then Z.min (sat u128 (deposit_seconds c * yield_pool b) / total_deposit_seconds b) (yield_pool b)
    else 0 in
  discount <- (if 0 <? deposited_quid c then
                 v <- u128{ [drawn c] * 10000 / [deposited_quid c] } ;;
                 Ok (sat u64 (10000 - Z.min v 10000))
               else Ok 0) ;;
  Ok (sat u64 (earned * discount) / 10000).

(** What a request of [asked] is paid: the claim, the request and the account's
    share of the free capacity, whichever is least.  Returns the claim too. *)
Definition payable (c : Depositor) (b : Depository) (asked : Z) : outcome (Z * Z) :=
  e <- earned_yield c b ;;
  let max_value := sat u64 (deposited_quid c + e) in
  let backing := sat u64 (total_deposits b + yield_pool b) in
  let free := withdrawable b in
  let my_share := if 0 <? backing then Z.min (sat u128 (max_value * free) / backing) (imax u64)
                  else 0 in
  Ok (max_value, Z.min (Z.min max_value asked) my_share).

Definition pay_from_pool (c : Depositor) (b : Depository) (asked now : Z)
  : outcome (Depositor * Depository * Z) :=
  cs <- age (deposit_seconds c) (deposited_quid c) (last_updated c) now ;;
  let c := c <| deposit_seconds := cs |> in
  '(max_value, value) <- payable c b asked ;;
  let b := defer_redemption b (sat u64 (Z.min max_value asked - value)) in
  let from_principal := Z.min value (deposited_quid c) in
  t <- u64{ [total_deposits b] - from_principal } ;;
  let b := b <| total_deposits := t |>
             <| yield_pool := sat u64 (yield_pool b - sat u64 (value - from_principal)) |> in
  '(c, b) <- adjust_deposit_seconds c b (deposited_quid c) value now ;;
  dq <- u64{ [deposited_quid c] - [Z.min (deposited_quid c) value] } ;;
  Ok (c <| deposited_quid := dq |> <| last_updated := now |>, b, value).

(** With [exposure], collateral goes first and the pool pays the remainder. *)
Definition withdraw_dollars (c : Depositor) (b : Depository) (amount now : Z) (exposure : bool)
    (prices : outcome (list Z)) : outcome (Depositor * Depository * Z) :=
  require (amount <? 0) InvalidAmount ;;
  '(c, amount, amt) <-
    (if exposure then
       ps <- prices ;;
       a <- abs_i64 amount ;;
       '(c, rest) <- renege c None amount (Some ps) now ;;
       amt <- u64{ a - [cast u64 rest] } ;;
       Ok (c, rest, amt)
     else Ok (c, amount, 0)) ;;
  asked <- abs_i64 amount ;;
  if 0 <? asked then
    '(c, b, value) <- pay_from_pool c b asked now ;;
    amt <- u64{ amt + value } ;;
    Ok (c, b, amt)
  else Ok (c, b, amt).

(** ** [handle_out]: collateral out of one position *)
Definition withdraw_collateral (c : Depositor) (t : list Z) (amount now : Z)
    (prices : outcome (list Z)) : outcome (Depositor * Z) :=
  require (amount <? 0) InvalidAmount ;;
  ps <- prices ;;
  let held (c : Depositor) := from_option (fun x => pledged x.2) 0
                                (find_pod (balances c) (pad_ticker t)) in
  '(c', _) <- renege c (Some t) amount (Some ps) now ;;
  let released := sat u64 (held c - held c') in
  require (0 <? released) Undercollateralised ;;
  Ok (c', Z.min released (imax i64)).

(** ** [handle_out]: a trade *)

(** The fee on a full close, from the leverage and the distance to the barrier
    before the trade. *)
Definition trade_fee (p : Stock) (b : Depository) (a : Actuary) (amount price : Z) : outcome Z :=
  leverage <- (if 0 <? pledged p then
                 e <- abs_i64 (exposure p) ;;
                 l <- u64{ [cast u64 e] * price * 100 / [pledged p] } ;; Ok (cast i64 l)
               else Ok 100) ;;
  let exposure_value := units_value (Z.abs (exposure p)) price in
  collar_now <- collar_bps leverage a ;;
  let notional := collar_notional exposure_value (pledged p) in
  let barrier := sat u64 (notional + sat u64 (notional * cast u64 collar_now) / 10000) in
  let distance_bps :=
    if 0 <? exposure_value
    then Z.min (sat u128 (sat u64 (barrier - exposure_value) * 10000) / exposure_value) (imax i64)
    else 10000 in
  conc <- utilisation_bps b ;;
  fee_bps conc (exposure p) amount a leverage distance_bps.

(** What the pool absorbs, first from earnings, then from deposits. *)
Definition absorb (b : Depository) (signed_t_delta : Z) : outcome Depository :=
  if 0 <=? signed_t_delta
  then Ok (b <| yield_pool := sat u64 (yield_pool b + cast u64 signed_t_delta) |>)
  else
    l <- i128{ 0 - signed_t_delta } ;;
    let loss := cast u64 l in
    let from_yield := Z.min loss (yield_pool b) in
    y <- u64{ [yield_pool b] - from_yield } ;;
    rest <- u64{ loss - from_yield } ;;
    Ok (b <| yield_pool := y |> <| total_deposits := sat u64 (total_deposits b - rest) |>).

(** How the result of [repo] reaches the account and the pool: a wallet payout,
    a capitalised partial close, or nothing but the snapshots' difference.
    Returns the account, the change of the pool and the payout.  On a payout the
    source writes [-(x).saturating_sub(payout)]; the method call binds tighter
    than the sign, so the payout is negated with the rest. *)
Definition settle_trade (c : Depositor) (pre_dq pre_pledged prior_exposure delta interest fee now : Z)
    (t : list Z) : outcome (Depositor * Z * Z) :=
  let '(post_pledged, post_exposure) :=
    from_option (fun p => (pledged p, exposure p)) (0, 0) (find_named (balances c) t) in
  let dq_delta := sat i128 (deposited_quid c - pre_dq) in
  let pledged_delta := sat i128 (post_pledged - pre_pledged) in
  if delta <? 0 then
    f <- u128{ interest * [cast u128 fee] / 10000 } ;;
    let payout := sat u64 (interest - cast u64 f) in
    n <- i128{ 0 - [sat i128 (sat i128 (dq_delta + pledged_delta) - payout)] } ;;
    Ok (c, n, payout)
  else
  pe <- abs_i64 post_exposure ;;
  qe <- abs_i64 prior_exposure ;;
  if (0 <? interest) && (pe <? qe) then
    let c := c <| deposited_quid := sat u64 (deposited_quid c + interest) |> in
    let dq_delta_total := sat i128 (dq_delta + interest) in
    dt <- i64{ now - [last_updated c] } ;;
    let c := c <| last_updated := now |>
               <| deposit_seconds :=
                    sat u128 (deposit_seconds c + sat u128 (cast u128 dt * deposited_quid c)) |> in
    n <- i128{ 0 - [sat i128 (dq_delta_total + pledged_delta)] } ;;
    Ok (c, n, 0)
  else
    c <- (if 0 <? delta then
            dt <- i64{ now - [last_updated c] } ;;
            Ok (c <| last_updated := now |>
                  <| deposit_seconds :=
                       sat u128 (deposit_seconds c + sat u128 (cast u128 dt * pre_dq)) |>)
          else Ok c) ;;
    n <- i128{ 0 - [sat i128 (dq_delta + pledged_delta)] } ;;
    Ok (c, n, 0).

(** The ticker learns what was traded and what the borrower made. *)
Definition record_trade (r : TickerRisk) (b : Depository)
    (prior_exposure amount realised price slot : Z) : outcome (TickerRisk * Depository) :=
  let value_delta := units_value_i amount price in
  size <- abs_i64 value_delta ;;
  a <- record_activity (actuary r) prior_exposure value_delta slot size
         (cast i64 (total_deposits b)) ;;
  a <- (if negb (realised =? 0)
        then record_outcome a realised (units_value (Z.abs prior_exposure) price)
               (0 <? prior_exposure)
        else Ok a) ;;
  reconcile_ticker_reserve (r <| actuary := a |>) b.

Definition trade (c : Depositor) (b : Depository) (r : TickerRisk) (t : list Z)
    (amount now slot : Z) (oracle : outcome Z) : outcome (Depositor * Depository * TickerRisk * Z) :=
  price <- oracle ;;
  r <- observe_market r b price now slot ;;
  p <- ok_or (find_named (balances c) t) DepositFirst ;;
  fee <- trade_fee p b (actuary r) amount price ;;
  let pre_dq := deposited_quid c in
  let pre_realized := realized_pnl c in
  '(c, r, _) <- settle_funding c t r price ;;
  '(c, b, (delta, interest)) <- repo c t amount price now slot (actuary r) b ;;
  '(c, t_delta, payout) <-
    settle_trade c pre_dq (pledged p) (exposure p) delta interest fee now t ;;
  b <- absorb b t_delta ;;
  let realised := sat i64 (realized_pnl c - pre_realized) in
  '(r, b) <- record_trade r b (exposure p) amount realised price slot ;;
  Ok (c, b, r, payout).

(** ** [handle_out] without the native leg: the account, the pool, the ticker and
    the amount the vaults are asked to pay. *)
Definition handle_out (c : Depositor) (b : Depository) (r : option TickerRisk) (t : list Z)
    (amount signer now slot : Z) (exposure : bool) (oracle : outcome Z)
    (prices : outcome (list Z)) : outcome (Depositor * Depository * option TickerRisk * Z) :=
  require (negb (amount =? 0)) InvalidAmount ;;
  require (owner c =? signer) InvalidUser ;;
  bs <- age (total_deposit_seconds b) (total_deposits b) (bank_last_updated b) now ;;
  let b := b <| total_deposit_seconds := bs |> <| bank_last_updated := now |> in
  if bool_decide (t = []) then
    '(c, b, paid) <- withdraw_dollars c b amount now exposure prices ;; Ok (c, b, r, paid)
  else if negb exposure then
    '(c, paid) <- withdraw_collateral c t amount now prices ;; Ok (c, b, r, paid)
  else
    rk <- ok_or r UnknownSymbol ;;
    '(c, b, rk, paid) <- trade c b rk t amount now slot oracle ;; Ok (c, b, Some rk, paid).

(** ** [handle_sweep]: a batch of cranks at one price *)

(** One account of the batch.  A healthy, too fresh or unpriceable position leaves
    the account as it was; the ticker keeps what [settle_funding] did to it, and
    the pool what [repo] did (an error of an [amount = 0] call precedes any change
    of the pool).  Returns the cut and whether the account was touched. *)
Definition sweep_one (c : Depositor) (b : Depository) (r : TickerRisk) (t : list Z)
    (price now slot : Z) : outcome (Depositor * Depository * TickerRisk * Z * bool) :=
  '(c1, r, _) <- settle_funding c t r price ;;
  match repo c1 t 0 price now slot (actuary r) b with
  | Panic => Panic
  | Err _ => Ok (c, b, r, 0, false)
  | Ok (c2, b, (delta, interest)) =>
      if negb (delta =? 0) || existsb (fun p => bool_decide (ticker p = pad_ticker t)
                                        && negb (breached_at p =? 0)) (balances c2)
      then
        let cut := Z.abs delta / 250 in
        let b := b <| yield_pool := sat u64 (yield_pool b + interest) |> in
        if delta <? 0 then
          let credited := sat u64 (Z.abs delta - cut) in
          let b := b <| yield_pool := sat u64 (yield_pool b + credited) |> in
          nc <- i64{ 0 - [cast i64 credited] } ;;
          a <- record_activity (actuary r) 0 nc slot (cast i64 credited)
                 (cast i64 (total_deposits b)) ;;
          '(r, b) <- reconcile_ticker_reserve (r <| actuary := a |>) b ;;
          Ok (c2, b, r, cut, true)
        else
          let take := Z.min (cast u64 delta) (deposited_quid c2) in
          dq <- u64{ [deposited_quid c2] - take } ;;
          Ok (c2 <| deposited_quid := dq |>,
              b <| yield_pool := sat u64 (yield_pool b + take) |>, r, cut, true)
      else Ok (c, b, r, 0, false)
  end.

(** [None] stands for an account that is not a writable depositor of the program. *)
Fixpoint sweep_all (batch : list (option Depositor)) (b : Depository) (r : TickerRisk)
    (t : list Z) (price now slot commission touched : Z)
  : outcome (list (option Depositor) * Depository * TickerRisk * Z * Z) :=
  match batch with
  | [] => Ok ([], b, r, commission, touched)
  | None :: batch =>
      '(l, b, r, commission, touched) <- sweep_all batch b r t price now slot commission touched ;;
      Ok (None :: l, b, r, commission, touched)
  | Some c :: batch =>
      '(c, b, r, cut, hit) <- sweep_one c b r t price now slot ;;
      n <- (if (hit : bool) then u64{ touched + 1 } else Ok touched) ;;
      '(l, b, r, commission, touched) <-
        sweep_all batch b r t price now slot
          (if hit then sat u64 (commission + cut) else commission) n ;;
      Ok (Some c :: l, b, r, commission, touched)
  end.

Definition handle_sweep (batch : list (option Depositor)) (k : Depositor) (b : Depository)
    (r : TickerRisk) (t : list Z) (oracle : outcome Z) (cranker now slot : Z)
  : outcome (list (option Depositor) * Depositor * Depository * TickerRisk) :=
  price <- oracle ;;
  r <- observe_market r b price now slot ;;
  let elapsed := sat i64 (now - bank_last_updated b) in
  let b := b <| total_deposit_seconds :=
                  sat u128 (total_deposit_seconds b + sat u128 (total_deposits b * Z.max elapsed 0)) |>
             <| bank_last_updated := now |> in
  '(l, b, r, commission, touched) <- sweep_all batch b r t price now slot 0 0 ;;
  let b := b <| swept_at := now |> <| swept_count := sat u64 (swept_count b + touched) |> in
  let k := if owner k =? 0 then k <| owner := cranker |> <| last_updated := now |> else k in
  let k := k <| deposited_quid := sat u64 (deposited_quid k + commission) |> in
  Ok (l, k, b <| total_deposits := sat u64 (total_deposits b + commission) |>, r).

(** * Theorems *)

(** ** What [repo] leaves alone in the pool *)

(** The figures of the pool that only the handlers move. *)
Definition pool_core (b : Depository) : list Z :=
  [total_deposits b; yield_pool b; max_liability b; unwind_demand b; paper_in_transit b;
   paper_backed b; total_deposit_seconds b; bank_last_updated b].

Definition keeps_core (b : Depository) (r : repo_result) : Prop := pool_core r.1.2 = pool_core b.

Lemma utilisation_core b x : pool_core (utilisation b x) = pool_core b.
Proof. unfold utilisation. by case_match. Qed.

Lemma flush_pool_core b net cds : pool_core (flush_raroc_pool b net cds) = pool_core b.
Proof. done. Qed.

Create HintDb frames.

(** Runs a program, keeping what the frame lemmas say of the calls in it. *)
Ltac core_done :=
  unfold keeps_core in *; cbn [fst snd] in *;
  rewrite ?flush_pool_core, ?utilisation_core in *; congruence.
Ltac core_step :=
  cbn beta; cbv zeta;
  match goal with
  | |- ensures (bind _ _) _ =>
      eapply ensures_bind; [solve [auto with frames nocore] | intros ? ?]
  | |- ensures _ _ => solve [auto with frames nocore]
  | |- _ => ensures_step
  end.
Ltac core_go := repeat core_step; try core_done.

Lemma unwind_core d i price util a b old ct now acc :
  ensures (unwind_a_tranche d i price util a b old ct now acc) (keeps_core b).
Proof. unfold unwind_a_tranche. core_go. Qed.

(** Closing the books of a spent position. *)
Lemma flush_tail_core (spent : bool) d b cb ip cds t :
  ensures (if spent then '(d, net) <- flush_raroc d cb ip cds t ;; Ok (d, flush_raroc_pool b net cds)
           else Ok (d, b)) (fun r => pool_core r.2 = pool_core b).
Proof. core_go. Qed.
#[local] Hint Resolve unwind_core flush_tail_core : frames.

Section Core.
Context (c : RepoCtx) (d : Depositor) (i : nat) (p : Stock) (b : Depository) (a : Actuary).
Context (price ct now : Z).

Lemma long_bands_core amount : ensures (repo_long_bands c d i p b a amount price ct now)
  (fun o => forall r, o = Some r -> keeps_core b r).
Proof. unfold repo_long_bands. core_go; intros r [= <-]; core_done. Qed.

Lemma long_close_core amount redeem :
  ensures (repo_long_close c d i p b a amount price ct redeem) (keeps_core b).
Proof. unfold repo_long_close. core_go. Qed.

Lemma long_partial_core redeem :
  ensures (repo_long_partial c d i p b a price ct redeem) (keeps_core b).
Proof. unfold repo_long_partial. core_go. Qed.

Lemma long_add_core amount : ensures (repo_long_add c d i p b a amount price ct) (keeps_core b).
Proof. unfold repo_long_add. core_go. Qed.

Lemma short_win_core amount value pivot :
  ensures (repo_short_win c d i p b a amount price ct now value pivot) (keeps_core b).
Proof. unfold repo_short_win. core_go. Qed.

Lemma short_lose_core amount value upper :
  ensures (repo_short_lose c d i p b a amount price ct now value upper) (keeps_core b).
Proof. unfold repo_short_lose. core_go. Qed.

Lemma short_redeem_core amount old_exp :
  ensures (repo_short_redeem c d i p b a amount price ct old_exp) (keeps_core b).
Proof. unfold repo_short_redeem. core_go. Qed.

Lemma short_issue_core :
  ensures (repo_short_issue c d p b price) (fun r => pool_core r.2 = pool_core b).
Proof. unfold repo_short_issue. core_go. match goal with o : option Z |- _ => destruct o end; core_done. Qed.

Lemma short_maybe_issue_core (issue : bool) :
  ensures (if issue then repo_short_issue c d p b price else Ok (d, p, b))
    (fun r => pool_core r.2 = pool_core b).
Proof. destruct issue; [apply short_issue_core|by ensures_step]. Qed.
End Core.
#[local] Hint Resolve long_bands_core long_close_core long_partial_core long_add_core
  short_win_core short_lose_core short_redeem_core short_maybe_issue_core : frames.

Lemma repo_core d tk amount price now slot a b :
  ensures (repo d tk amount price now slot a b) (keeps_core b).
Proof.
  unfold repo. apply ensures_skip. intros _. apply ensures_skip. intros [i p].
  apply ensures_skip. intros c. cbv zeta. ensures_step; [core_go|].
  apply ensures_skip. intros pl. ensures_step.
  - unfold repo_long. core_step. ensures_step; [ensures_step; auto|]. core_go.
  - unfold repo_short. core_go.
Qed.

(** ** The free balance stays a machine integer *)
Create HintDb quids.
Definition quid_ok (d : Depositor) : Prop := in_range u64 (deposited_quid d).

Lemma eval_range t e : ensures (eval t e) (fun v => match e with Lit _ => True | _ => in_range t v end).
Proof. intros v H. apply eval_inv in H as [-> H]. destruct e; [done|]. by destruct H as (_ & _ & _ & H). Qed.

Lemma quid_drawn d x : quid_ok d -> quid_ok (update_drawn d x).
Proof. unfold quid_ok. by rewrite update_drawn_quid. Qed.

Lemma flush_quid d cb ip cds t : quid_ok d -> ensures (flush_raroc d cb ip cds t) (fun r => quid_ok r.1).
Proof. intros H [d' n] E. apply flush_raroc_same in E as [_ E]. unfold quid_ok. cbn. by rewrite E. Qed.

Definition cure_ok (o : option (Stock * Z * Z)) : Prop :=
  forall p dq g, o = Some (p, dq, g) -> in_range u64 dq.

Ltac quid_done :=
  try match goal with
  | |- cure_ok (Some _) => intros ? ? ? [= <- <- <-]; assumption
  | |- cure_ok None => by intros ? ? ? ?
  end.
Ltac quid_step :=
  cbn beta; cbv zeta;
  match goal with
  | |- ensures (bind (eval _ _) _) _ => eapply ensures_bind; [apply eval_range | let H := fresh in intros ? H; cbn in H]
  | |- ensures (bind _ _) _ =>
      eapply ensures_bind; [solve [auto using quid_drawn with quids nocore] | intros ? ?]
  | |- ensures _ _ => solve [auto using quid_drawn with quids nocore]
  | |- _ => ensures_step
  end.
Ltac quid_go := repeat quid_step; quid_done.

Lemma pvm_quid p dq b a old ev ex ct : ensures (post_variation_margin p dq b a old ev ex ct) cure_ok.
Proof. unfold post_variation_margin. quid_go. Qed.

Lemma reinstate_quid p dq b a old ev gap price ct own :
  ensures (reinstate_exposure p dq b a old ev gap price ct own) cure_ok.
Proof. unfold reinstate_exposure. quid_go. Qed.
#[local] Hint Resolve pvm_quid reinstate_quid flush_quid : quids.

Lemma gate_quid c p dq ev price : in_range u64 dq ->
  ensures (margin_gate c p dq ev price) (fun r => in_range u64 r.1.1.2).
Proof. intros H. unfold margin_gate. quid_go; cbn; done. Qed.

Lemma unwind_quid d i price util a b old ct now acc : quid_ok d ->
  ensures (unwind_a_tranche d i price util a b old ct now acc) (fun r => quid_ok r.1.1).
Proof.
  intros H. assert (Hs : forall p, quid_ok (set_pod d i p)) by done.
  unfold unwind_a_tranche. quid_go; cbn; auto using quid_drawn.
Qed.
#[local] Hint Resolve gate_quid unwind_quid : quids.

Ltac quid_end :=
  cbn [fst snd] in *;
  try match goal with |- forall r, Some _ = Some r -> _ => intros ? [= <-] end;
  try match goal with |- forall r, None = Some r -> _ => by intros ? ? end;
  cbn [fst snd] in *; unfold quid_ok in *; rewrite ?update_drawn_quid in *; cbn in *;
  first [assumption | match goal with H : cure_ok (Some _) |- _ => exact (H _ _ _ eq_refl) end].

Lemma flush_tail_quid (spent : bool) e b cb ip cds t : quid_ok e ->
  ensures (if spent then '(d, net) <- flush_raroc e cb ip cds t ;; Ok (d, flush_raroc_pool b net cds)
           else Ok (e, b)) (fun r => quid_ok r.1).
Proof. intros He. destruct spent; quid_go; quid_end. Qed.
#[local] Hint Resolve flush_tail_quid : quids.

Section Quid.
Context (c : RepoCtx) (d : Depositor) (i : nat) (p : Stock) (b : Depository) (a : Actuary).
Context (price ct now : Z) (Hd : quid_ok d).

Lemma set_pod_quid q : quid_ok (set_pod d i q).
Proof. exact Hd. Qed.

Lemma long_bands_quid amount : ensures (repo_long_bands c d i p b a amount price ct now)
  (fun o => forall r, o = Some r -> quid_ok r.1.1).
Proof. pose proof set_pod_quid. unfold repo_long_bands. quid_go; quid_end. Qed.

#[local] Hint Resolve long_bands_quid : quids.

Lemma long_close_quid amount redeem :
  ensures (repo_long_close c d i p b a amount price ct redeem) (fun r => quid_ok r.1.1).
Proof. pose proof set_pod_quid. unfold repo_long_close. quid_go; quid_end. Qed.

Lemma long_partial_quid redeem :
  ensures (repo_long_partial c d i p b a price ct redeem) (fun r => quid_ok r.1.1).
Proof. pose proof set_pod_quid. unfold repo_long_partial. quid_go; quid_end. Qed.

Lemma long_add_quid amount :
  ensures (repo_long_add c d i p b a amount price ct) (fun r => quid_ok r.1.1).
Proof. pose proof set_pod_quid. unfold repo_long_add. quid_go; quid_end. Qed.

Lemma short_win_quid amount value pivot :
  ensures (repo_short_win c d i p b a amount price ct now value pivot) (fun r => quid_ok r.1.1).
Proof. pose proof set_pod_quid. unfold repo_short_win. quid_go; quid_end. Qed.

Lemma short_lose_quid amount value upper :
  ensures (repo_short_lose c d i p b a amount price ct now value upper) (fun r => quid_ok r.1.1).
Proof. pose proof set_pod_quid. unfold repo_short_lose. quid_go; quid_end. Qed.

Lemma short_redeem_quid amount old_exp :
  ensures (repo_short_redeem c d i p b a amount price ct old_exp) (fun r => quid_ok r.1.1).
Proof. pose proof set_pod_quid. unfold repo_short_redeem. quid_go; quid_end. Qed.

Lemma short_maybe_issue_quid (issue : bool) :
  ensures (if issue then repo_short_issue c d p b price else Ok (d, p, b))
    (fun r => quid_ok r.1.1).
Proof. unfold repo_short_issue. quid_go; quid_end. Qed.
End Quid.
#[local] Hint Resolve long_bands_quid long_close_quid long_partial_quid long_add_quid
  short_win_quid short_lose_quid short_redeem_quid short_maybe_issue_quid : quids.

Lemma repo_quid d tk amount price now slot a b : quid_ok d ->
  ensures (repo d tk amount price now slot a b) (fun r => quid_ok r.1.1).
Proof.
  intros Hd. assert (Hs : forall i p, quid_ok (set_pod d i p)) by done.
  unfold repo. apply ensures_skip. intros _. apply ensures_skip. intros [i p].
  apply ensures_skip. intros c. cbv zeta. ensures_step; [quid_go|].
  apply ensures_skip. intros pl. ensures_step.
  - unfold repo_long. quid_step. ensures_step; [ensures_step; auto|]. quid_go.
  - unfold repo_short. quid_go; quid_end.
Qed.

(** ** The settlement of a trade *)

(** The scale of dollar amounts below which the 64-bit sums are exact. *)
Definition AMT : Z := 2305843009213693952.

(** The pledge behind ticker [t]. *)
Definition pledge_named (c : Depositor) (t : list Z) : Z :=
  from_option pledged 0 (find_named (balances c) t).

Lemma neg_sat_eval x : in_range i128 x -> in_range i128 (- x) ->
  eval i128 (Bin OSub (Lit 0) (Lit (sat i128 x))) = Ok (- x).
Proof.
  intros Hx Hn. rewrite sat_id by done. rewrite eval_safe.
  - cbn [value aop_fun]. f_equal; lia.
  - cbn [safe value aop_fun]. split_and!; try done.
Qed.

Lemma settle_trade_law c pre_dq pre_pl prior delta interest fee now t c' td payout :
  quid_ok c -> 0 <= pre_dq <= AMT -> 0 <= pre_pl <= AMT -> 0 <= pledge_named c t <= AMT ->
  deposited_quid c' <= AMT -> payout <= AMT ->
  settle_trade c pre_dq pre_pl prior delta interest fee now t = Ok (c', td, payout) ->
  0 <= payout /\ balances c' = balances c /\ 0 <= deposited_quid c' /\
  td = payout - (deposited_quid c' - pre_dq) - (pledge_named c t - pre_pl).
Proof.
  intros Hq Hdq Hpl Hpost Hd' Hp H. unfold quid_ok, AMT in *. unfold settle_trade in H.
  assert (Hq' : 0 <= deposited_quid c <= 18446744073709551615) by exact Hq. clear Hq.
  assert (Hn : exists pe, from_option (fun p => (pledged p, exposure p)) (0, 0)
    (find_named (balances c) t) = (pledge_named c t, pe)).
  { unfold pledge_named. destruct (find_named (balances c) t); eexists; reflexivity. }
  destruct Hn as [pe Hn]. rewrite Hn in H. cbv zeta in H.
  destruct (delta <? 0).
  - apply bind_ok in H as (f & _ & H). apply bind_ok in H as (n & Hn' & H). injection H as -> -> <-.
    assert (0 <= sat u64 (interest - cast u64 f)) by (unfold sat, u64; cbn; lia).
    set (po := sat u64 _) in *.
    rewrite !(sat_id i128 (deposited_quid c' - _)), !(sat_id i128 (pledge_named c' t - _)) in Hn'
      by (unfold_ints; lia).
    rewrite (sat_id i128 (_ + _)), neg_sat_eval in Hn' by (unfold_ints; lia).
    injection Hn' as <-. split_and!; try done; lia.
  - apply bind_ok in H as (x & _ & H). apply bind_ok in H as (y & _ & H).
    destruct ((0 <? interest) && _) eqn:Hi.
    + apply andb_true_iff in Hi as [Hi _]. apply Z.ltb_lt in Hi.
      apply bind_ok in H as (dt & _ & H). apply bind_ok in H as (n & Hn' & H).
      injection H as <- <- <-. cbn [deposited_quid modify] in *.
      assert (Hs : sat u64 (deposited_quid c + interest) = deposited_quid c + interest)
        by (unfold sat, u64 in *; cbn in *; lia). rewrite Hs in *.
      rewrite !(sat_id i128 (deposited_quid c - _)), !(sat_id i128 (pledge_named c t - _)) in Hn'
        by (unfold_ints; lia).
      rewrite (sat_id i128 (deposited_quid c - pre_dq + interest)), neg_sat_eval in Hn'
        by (unfold_ints; lia).
      injection Hn' as <-. split_and!; try done; lia.
    + apply bind_ok in H as (c1 & Hc & H). apply bind_ok in H as (n & Hn' & H). injection H as <- <- <-.
      assert (Hc1 : deposited_quid c1 = deposited_quid c /\ balances c1 = balances c).
      { destruct (0 <? delta); [apply bind_ok in Hc as (dt & _ & Hc)|]; by injection Hc as <-. }
      destruct Hc1 as [Hc1 Hc2].
      rewrite !(sat_id i128 (deposited_quid c - _)), !(sat_id i128 (pledge_named c t - _)) in Hn'
        by (unfold_ints; lia).
      rewrite neg_sat_eval in Hn' by (unfold_ints; lia).
      injection Hn' as <-. split_and!; try done; lia.
Qed.

Lemma absorb_law b td b' : 0 <= total_deposits b <= AMT -> 0 <= yield_pool b <= AMT ->
  - 3 * AMT <= td <= 3 * AMT -> absorb b td = Ok b' -> 0 < total_deposits b' + yield_pool b' ->
  total_deposits b' + yield_pool b' = total_deposits b + yield_pool b + td /\
  total_deposits b' <= total_deposits b /\
  (total_deposits b' < total_deposits b -> yield_pool b' = 0).
Proof.
  unfold AMT. intros Ht Hy Htd H Hs. unfold absorb in H. destruct (Z.leb_spec 0 td).
  - injection H as <-. cbn [yield_pool total_deposits modify] in *.
    rewrite (cast_id u64 td) in * by (unfold_ints; lia).
    unfold sat, u64 in *. cbn [imin imax] in *. lia.
  - apply bind_ok in H as (l & Hl & H). apply eval_inv in Hl as [-> _]. cbn [value aop_fun] in H.
    cbv zeta in H. rewrite cast_id in H by (unfold_ints; lia).
    apply bind_ok in H as (y & Hyv & H). apply eval_inv in Hyv as [-> _].
    apply bind_ok in H as (rest & Hr & H). apply eval_inv in Hr as [-> _].
    injection H as <-. cbn [value aop_fun total_deposits yield_pool modify] in *.
    unfold sat, u64 in *. cbn [imin imax] in *. lia.
Qed.

Lemma reconcile_frame r b : ensures (reconcile_ticker_reserve r b) (fun x =>
  total_deposits x.2 = total_deposits b /\ yield_pool x.2 = yield_pool b /\
  funding_pot x.1 = funding_pot r).
Proof. unfold reconcile_ticker_reserve. repeat ensures_step. done. Qed.

Lemma record_trade_frame r b e amt real price slot : ensures (record_trade r b e amt real price slot)
  (fun x => total_deposits x.2 = total_deposits b /\ yield_pool x.2 = yield_pool b).
Proof.
  unfold record_trade. do 3 ensures_step. intros x Hx. apply reconcile_frame in Hx. tauto.
Qed.

Lemma settle_trade_balances c pre_dq pre_pl prior delta interest fee now t :
  ensures (settle_trade c pre_dq pre_pl prior delta interest fee now t)
    (fun x => balances x.1.1 = balances c).
Proof.
  unfold settle_trade. cbv zeta. ensures_step. ensures_step; [by repeat ensures_step|].
  do 2 ensures_step. ensures_step; [by repeat ensures_step|].
  eapply ensures_bind with (P := fun x => balances x = balances c); [by repeat ensures_step|].
  intros. by repeat ensures_step.
Qed.

Lemma settle_funding_quid d tk r price :
  ensures (settle_funding d tk r price) (fun x => deposited_quid x.1.1 = deposited_quid d).
Proof. unfold settle_funding. by repeat ensures_step. Qed.

(** C4: What a trade leaves behind, on every branch.  Dollars held by the account's
    free balance, by the traded position and by the pool (deposits plus earnings)
    are together the same after a trade as before it when nothing is paid to the
    wallet — and larger by the payout when something is: the payout enters the
    pool's change with the wrong sign.  A loss is taken from earnings before it
    reaches deposits. *)
Theorem trade_settlement c b r t amount now slot price p c' b' r' payout :
  find_named (balances c) t = Some p ->
  0 <= deposited_quid c <= AMT -> 0 <= pledged p <= AMT ->
  0 <= total_deposits b <= AMT -> 0 <= yield_pool b <= AMT ->
  trade c b r t amount now slot (Ok price) = Ok (c', b', r', payout) ->
  deposited_quid c' <= AMT -> 0 <= pledge_named c' t <= AMT -> payout <= AMT ->
  0 < total_deposits b' + yield_pool b' ->
  deposited_quid c' + pledge_named c' t + total_deposits b' + yield_pool b' =
    deposited_quid c + pledged p + total_deposits b + yield_pool b + payout /\
  0 <= payout /\ total_deposits b' <= total_deposits b /\
  (total_deposits b' < total_deposits b -> yield_pool b' = 0).
Proof.
  intros Hf Hdq Hpl Ht Hy H Hdq' Hpl' Hpay Hpos. unfold trade in H. cbn [bind] in H.
  apply bind_ok in H as (r1 & _ & H). rewrite Hf in H. cbn [ok_or bind] in H.
  apply bind_ok in H as (fee & _ & H). cbv zeta in H.
  apply bind_ok in H as ([[c1 r2] s] & Hfund & H). apply settle_funding_quid in Hfund. cbn in Hfund.
  apply bind_ok in H as ([[c2 b2] [delta interest]] & Hrepo & H).
  pose proof (repo_core _ _ _ _ _ _ _ _ _ Hrepo) as Hcore. unfold keeps_core, pool_core in Hcore.
  cbn [fst snd] in Hcore. injection Hcore as Hbt Hby _ _ _ _ _ _.
  assert (Hq1 : quid_ok c1) by (unfold quid_ok, AMT in *; rewrite Hfund; unfold_ints; lia).
  pose proof (repo_quid _ _ _ _ _ _ _ _ Hq1 _ Hrepo) as Hq2. cbn [fst snd] in Hq2.
  apply bind_ok in H as ([[c3 td] po] & Hset & H). apply bind_ok in H as (b3 & Habs & H).
  apply bind_ok in H as ([r3 b4] & Hrec & H). apply record_trade_frame in Hrec as [Hrt Hry].
  injection H as <- <- <- <-. cbn [fst snd] in *.
  assert (Hname : balances c3 = balances c2 -> pledge_named c2 t = pledge_named c3 t)
    by (unfold pledge_named; by intros ->).
  assert (Hb32 : balances c3 = balances c2).
  { exact (settle_trade_balances _ _ _ _ _ _ _ _ _ _ Hset). }
  rewrite <- (Hname Hb32) in Hpl'.
  apply settle_trade_law in Hset as (Hpo & _ & Hd3 & ->); try done.
  apply absorb_law in Habs as (Hsum & Hle & Hfirst); rewrite ?Hbt, ?Hby, <- ?Hrt, <- ?Hry; try done;
    [|unfold AMT in *; lia]. rewrite <- (Hname Hb32). lia.
Qed.

(** A ticker quiet at 201, and a pool with something in its earnings. *)
Definition quiet_risk : TickerRisk :=
  sample_risk <| actuary := sample_actuary <| twap_price := 201000000 |>
                              <| last_price := 201000000 |> |> <| funding_pot := 0 |>.
Definition earning_bank : Depository :=
  sample_bank' <| bank_last_updated := 90000 |> <| yield_pool := 5000000000 |>.
Definition aged_long : Depositor := sample_long <| last_updated := 90000 |>.

(** Closing a five-fold long 50 dollars in profit: 2,040.775 dollars leave for the
    wallet, and the pool's earnings grow by 4,040.775. *)
Lemma trade_settlement_witness : exists c' b' r' payout,
  trade aged_long earning_bank quiet_risk sample_ticker (-50000000) 100000 1000 (Ok 201000000)
    = Ok (c', b', r', payout) /\ payout = 2040775000 /\ yield_pool b' = 9040775000 /\
  deposited_quid c' + pledge_named c' sample_ticker + total_deposits b' + yield_pool b' =
    500000000 + 2000000000 + 900000000000 + 5000000000 + payout.
Proof.
  destruct (trade aged_long earning_bank quiet_risk sample_ticker (-50000000) 100000 1000
    (Ok 201000000)) as [[[[c' b'] r'] payout]| |] eqn:E; [|by vm_compute in E..].
  assert (Hc : payout = 2040775000 /\ yield_pool b' = 9040775000 /\ deposited_quid c' = 500000000 /\
    pledge_named c' sample_ticker = 0 /\ total_deposits b' = 900000000000).
  { vm_compute in E. injection E as <- <- <- <-. split_and!; reflexivity. }
  destruct Hc as (Hp & Hy & Hq & Hpl & Ht). exists c', b', r', payout.
  split; [reflexivity|]. split; [exact Hp|]. split; [exact Hy|].
  destruct (trade_settlement aged_long earning_bank quiet_risk sample_ticker (-50000000) 100000 1000
    201000000 (sample_pod <| exposure := 50000000 |>) c' b' r' payout) as [Hlaw _];
    [vm_compute; reflexivity | vm_compute; split; discriminate.. | exact E | | | | | exact Hlaw];
    rewrite ?Hq, ?Hpl, ?Hp, ?Ht, ?Hy; vm_compute; try (split; discriminate); try discriminate; reflexivity.
Defined.

(** ** The reserve is the sum of the tickers' *)

Lemma ticker_reserve_bound net a x : wf_risk a -> 0 <= net <= imax u64 ->
  ticker_reserve_dollars net a = Ok x -> 0 <= x <= net.
Proof.
  intros Ha Hn H. unfold ticker_reserve_dollars in H. apply bind_ok in H as (m & Hm & H).
  pose proof (margin_total a Ha) as Hb. rewrite Hm in Hb. cbn [wp] in Hb. quid_consts.
  unfold_ints. cbv zeta in H. rewrite cast_id, sat_id in H by (unfold_ints; nia).
  apply bind_ok in H as (v & Hv & H). apply eval_inv in Hv as [-> _]. injection H as <-.
  cbn [value aop_fun]. pose proof (mul_quot_le net (Z.max m 0) 10000). lia.
Qed.

(** Every ticker of the program and the pool they share. *)
Record Book := mkBook { tickers : list TickerRisk; pool : Depository }.

(** The handlers move the reserve only by reconciling one ticker, after anything
    may have happened to that ticker's risk state. *)
Inductive BookStep : Book -> Book -> Prop :=
  | book_open rs b r : reserved r = 0 -> BookStep (mkBook rs b) (mkBook (rs ++ [r]) b)
  | book_trade rs b b' : max_liability b' = max_liability b -> BookStep (mkBook rs b) (mkBook rs b')
  | book_reconcile rs b i r a r' b' : rs !! i = Some r -> wf_risk a ->
      sumZ reserved rs - reserved r + Z.abs (net_exposure a) <= imax u64 ->
      reconcile_ticker_reserve (r <| actuary := a |>) b = Ok (r', b') ->
      BookStep (mkBook rs b) (mkBook (<[i:=r']> rs) b').

Definition book_inv (k : Book) : Prop :=
  (forall r, r ∈ tickers k -> 0 <= reserved r) /\
  sumZ reserved (tickers k) = max_liability (pool k) /\ max_liability (pool k) <= imax u64.

Lemma book_step_inv k k' : BookStep k k' -> book_inv k -> book_inv k'.
Proof.
  intros H (Hpos & Hsum & Hmax). destruct H as [rs b r Hr|rs b b' Hb|rs b i r a r' b' Hi Ha Hfit H];
    cbn [tickers pool] in *.
  - split_and!; cbn [tickers pool]; [|rewrite sumZ_app, sumZ_cons, Hr; change (sumZ reserved []) with 0; lia|done].
    intros x [Hx| ->%list_elem_of_singleton]%elem_of_app; [auto|lia].
  - unfold book_inv. cbn [tickers pool]. by rewrite Hb.
  - pose proof (sumZ_elem reserved rs i r Hpos Hi) as Hle.
    pose proof (Hpos r ltac:(by eapply list_elem_of_lookup_2)) as Hr0.
    unfold reconcile_ticker_reserve in H. apply bind_ok in H as (tg & Htg & H).
    apply ticker_reserve_bound in Htg; [|done|unfold get_net; cbn [actuary modify]; unfold_ints; lia].
    unfold get_net in Htg. injection H as <- <-. unfold book_inv.
    cbn [tickers pool max_liability reserved actuary modify] in *. unfold_ints.
    rewrite !sat_id by (unfold_ints; rewrite ?sat_id by (unfold_ints; lia); lia).
    split_and!; [|erewrite sumZ_insert by done; cbn [reserved modify]; lia|lia].
    intros x Hx. apply list_elem_of_lookup_1 in Hx as (j & Hj).
    apply list_lookup_insert_Some in Hj as [(_ & <- & _)|(_ & Hj)]; [cbn; lia|].
    apply Hpos. by eapply list_elem_of_lookup_2.
Qed.

(** The reserve is exactly the sum of what the tickers need.  Under every
    interleaving of ticker openings, trades and reconciliations, the pool's
    [max_liability] is the sum of the tickers' [reserved], each non-negative — so
    replacing one ticker's contribution never ratchets the total. *)
Theorem reserve_is_sum k : rtc BookStep (mkBook [] depository_default) k ->
  sumZ reserved (tickers k) = max_liability (pool k) /\
  forall r, r ∈ tickers k -> 0 <= reserved r <= max_liability (pool k).
Proof.
  intros H. assert (Hk : book_inv k).
  { assert (H0 : book_inv (mkBook [] depository_default))
      by (split_and!; cbn [tickers pool]; [intros r Hr; set_solver|done|done]).
    revert H0. induction H as [|k1 k2 k3 Hstep _ IH]; [done|]. intros H0. apply IH.
    exact (book_step_inv k1 k2 Hstep H0). }
  destruct Hk as (Hpos & Hsum & _). split; [done|]. intros r Hr. split; [auto|].
  apply list_elem_of_lookup_1 in Hr as (i & Hi). rewrite <- Hsum. by eapply sumZ_elem.
Qed.

(** Two tickers open and reconcile. *)
Lemma reserve_is_sum_witness : exists k, rtc BookStep (mkBook [] depository_default) k /\
  length (tickers k) = 2%nat /\ 0 < max_liability (pool k) /\
  sumZ reserved (tickers k) = max_liability (pool k).
Proof.
  assert (H : exists k, rtc BookStep (mkBook [] depository_default) k /\
    length (tickers k) = 2%nat /\ 0 < max_liability (pool k)).
  { eexists. split.
    - eapply rtc_l; [apply (book_open _ _ sample_risk); reflexivity|].
      eapply rtc_l; [apply (book_open _ _ sample_risk); reflexivity|].
      eapply rtc_l; [eapply (book_reconcile _ _ 0 _ sample_actuary); [vm_compute; reflexivity
        | exact sample_risk_wf | vm_compute; discriminate | vm_compute; reflexivity]|].
      eapply rtc_l; [eapply (book_reconcile _ _ 1 _ sample_actuary); [vm_compute; reflexivity
        | exact sample_risk_wf | vm_compute; discriminate | vm_compute; reflexivity]|].
      apply rtc_refl.
    - vm_compute. auto. }
  destruct H as (k & Hr & Hl & Hm). exists k. destruct (reserve_is_sum k Hr) as [Hs _].
  split_and!; assumption.
Defined.

(** ** Dollars out of the pool *)

Ltac imax_nums :=
  change (imax u64) with 18446744073709551615 in *; change (imax i64) with 9223372036854775807 in *;
  change (imax u128) with 340282366920938463463374607431768211455 in *.

(** An account and a pool whose figures fit their widths, with the account's
    balance inside the pool's total. *)
Record wf_claim (c : Depositor) (b : Depository) (now : Z) : Prop := {
  wc_dq : 0 <= deposited_quid c <= total_deposits b;
  wc_total : total_deposits b + yield_pool b <= imax u64;
  wc_yield : 0 <= yield_pool b;
  wc_drawn : 0 <= drawn c <= imax u64;
  wc_liability : 0 <= max_liability b;
  wc_transit : 0 <= paper_in_transit b;
  wc_seconds : 0 <= deposit_seconds c;
  wc_pool_seconds : 0 <= total_deposit_seconds b;
  wc_clock : 0 <= last_updated c <= now;
  wc_now : now <= imax i64
}.

Lemma age_eq s q since now : 0 <= s -> 0 <= q -> 0 <= since <= now -> now <= imax i64 ->
  s + q * (now - since) <= imax u128 -> age s q since now = Ok (s + q * (now - since)).
Proof.
  intros Hs Hq Ht Hn Hm. unfold age. unfold_ints. rewrite eval_safe by arith_side.
  cbn [bind value aop_fun]. rewrite cast_id by (unfold_ints; lia).
  rewrite eval_safe; [done|]. cbn [safe value aop_fun]. unfold_ints. split_and!; try done; nia.
Qed.

Lemma earned_bound c b : 0 <= deposit_seconds c -> 0 <= total_deposit_seconds b ->
  0 <= yield_pool b <= imax u64 -> 0 <= drawn c <= imax u64 -> 0 <= deposited_quid c ->
  wp (earned_yield c b) (fun e => 0 <= e <= yield_pool b).
Proof.
  intros Hs Ht Hy Hd Hq. change (imax u64) with 18446744073709551615 in *. unfold earned_yield.
  set (ea := if _ && _ then _ else 0).
  assert (He : 0 <= ea <= yield_pool b).
  { unfold ea. destruct ((0 <? total_deposit_seconds b) && _) eqn:E; [|lia].
    apply andb_true_iff in E as [E1 E2]. apply Z.ltb_lt in E1, E2.
    assert (0 <= sat u128 (deposit_seconds c * yield_pool b) / total_deposit_seconds b).
    { apply Z.div_pos; [|lia]. unfold sat, u128. cbn [imin imax]. lia. } lia. }
  clearbody ea. wp_head.
  apply (wp_mono _ (fun x => 0 <= x <= 10000)).
  { wp_step; [|wp_step; lia]. apply Z.ltb_lt in H.
    pose proof (quot_le_self (drawn c * 10000) (deposited_quid c)).
    wp_go. wp_step. unfold sat, u64. cbn [imin imax]. lia. }
  intros x Hx. wp_step. unfold sat, u64. cbn [imin imax].
  split; [apply Z.div_pos; lia|]. apply Z.div_le_upper_bound; nia.
Qed.

(** What an account is paid: never more than it asked or is owed, and never more
    than its share of what the pool can release. *)
Lemma payable_spec c b asked now : wf_claim c b now -> 0 <= asked -> exists e v,
  earned_yield c b = Ok e /\ payable c b asked = Ok (deposited_quid c + e, v) /\
  0 <= e <= yield_pool b /\ 0 <= v <= asked /\ v <= deposited_quid c + e /\
  v <= withdrawable b /\
  v * (total_deposits b + yield_pool b) <= (deposited_quid c + e) * withdrawable b.
Proof.
  intros [] Ha. change (imax u64) with 18446744073709551615 in *.
  destruct (wp_elim _ _ (earned_bound c b ltac:(lia) ltac:(lia) ltac:(unfold_ints; lia)
    ltac:(unfold_ints; lia) ltac:(lia))) as (e & He & Heb).
  unfold payable. rewrite He. cbn [bind]. cbv zeta.
  rewrite (sat_id u64 (deposited_quid c + e)), (sat_id u64 (total_deposits b + yield_pool b))
    by (unfold_ints; lia).
  assert (Hw : 0 <= withdrawable b <= total_deposits b + yield_pool b)
    by (unfold withdrawable, sat, u64; cbn [imin imax]; lia).
  set (F := withdrawable b) in *. set (B := total_deposits b + yield_pool b) in *.
  set (M := deposited_quid c + e) in *. assert (HM : 0 <= M <= B) by lia.
  rewrite sat_id by (unfold_ints; nia).
  exists e. eexists. split; [done|]. split; [reflexivity|].
  destruct (Z.ltb_spec 0 B); [|assert (M = 0 /\ F = 0) as [-> ->] by lia; lia].
  assert (Hd : 0 <= M * F / B <= F).
  { rewrite Z.mul_comm. apply mul_div_le; lia. }
  pose proof (Z.mul_div_le (M * F) B ltac:(lia)). change (imax u64) with 18446744073709551615.
  set (q := M * F / B) in *. fold M. split_and!; try lia.
  transitivity (q * B); [apply Z.mul_le_mono_nonneg_r; lia|lia].
Qed.

Lemma withdrawable_solvent b v : 0 <= total_deposits b -> 0 <= yield_pool b ->
  total_deposits b + yield_pool b <= imax u64 -> 0 <= max_liability b -> 0 <= paper_in_transit b ->
  v <= withdrawable b -> max_liability b + paper_in_transit b <= total_deposits b + yield_pool b ->
  max_liability b + paper_in_transit b <= total_deposits b + yield_pool b - v.
Proof. unfold withdrawable, sat, u64. cbn [imin imax]. lia. Qed.

Lemma adjust_seconds_spec c b v now : 0 <= last_updated c <= now -> now <= imax i64 ->
  exists c' b', adjust_deposit_seconds c b (deposited_quid c) v now = Ok (c', b') /\
    deposited_quid c' = deposited_quid c /\
    b' = b <| total_deposit_seconds := total_deposit_seconds b' |> /\
    (0 <= deposit_seconds c -> 0 < v -> 0 < deposited_quid c <= imax u64 ->
     (deposit_seconds c + deposited_quid c * (now - last_updated c)) * deposited_quid c <= imax u128 ->
     deposit_seconds c' = (deposit_seconds c + deposited_quid c * (now - last_updated c))
       * Z.max 0 (deposited_quid c - v) / deposited_quid c).
Proof.
  intros Hl Hn. unfold adjust_deposit_seconds.
  destruct ((deposited_quid c =? 0) || (v =? 0)) eqn:E.
  { exists c, b. split_and!; try done; [by destruct b|]. intros. lia. }
  imax_nums. rewrite eval_safe by arith_side. cbn [bind value aop_fun]. cbv zeta.
  eexists _, _. split; [reflexivity|]. cbn [deposited_quid deposit_seconds total_deposit_seconds modify].
  split_and!; [done|by destruct b|]. intros Hs Hv Hq Hb.
  rewrite (Z.max_l (now - _)) by lia. rewrite (Z.mul_comm (now - _)).
  set (x := deposited_quid c * (now - last_updated c)) in *. assert (0 <= x) by (unfold x; nia).
  assert (deposit_seconds c + x <= 340282366920938463463374607431768211455) by nia.
  rewrite (sat_id u128 x) by (unfold_ints; lia). rewrite (sat_id u128) by (unfold_ints; lia).
  assert (Hr : sat u64 (deposited_quid c - v) = Z.max 0 (deposited_quid c - v))
    by (unfold sat, u64; cbn [imin imax]; lia). rewrite Hr.
  rewrite (proj2 (in_rangeb_spec _ _)); [done|]. unfold_ints. nia.
Qed.

(** C8: A pool withdrawal pays what it may and no more.  It always returns; the
    payment never exceeds the request, the account's claim (balance plus earnings)
    or its share of what the pool can release; balance and deposits fall by the
    same principal and the rest comes out of earnings; a pool whose backing covers
    its reserve and its money in transit still does afterwards; what was asked and
    not paid is added to the redemption demand, within the reachable reserve.  The
    remaining tenure is computed from an interval that has been counted twice. *)
Theorem pool_payment_sound c b asked now : wf_claim c b now -> 0 <= asked ->
  deposit_seconds c + deposited_quid c * (now - last_updated c) <= imax u128 ->
  let dq := deposited_quid c in
  let aged := c <| deposit_seconds := deposit_seconds c + dq * (now - last_updated c) |> in
  exists c' b' e v, earned_yield aged b = Ok e /\ pay_from_pool c b asked now = Ok (c', b', v) /\
    0 <= v <= asked /\ v <= dq + e /\
    v * (total_deposits b + yield_pool b) <= (dq + e) * withdrawable b /\
    deposited_quid c' = dq - Z.min v dq /\
    total_deposits b' = total_deposits b - Z.min v dq /\
    yield_pool b' = yield_pool b - (v - Z.min v dq) /\
    (max_liability b + paper_in_transit b <= total_deposits b + yield_pool b ->
     max_liability b' + paper_in_transit b' <= total_deposits b' + yield_pool b') /\
    unwind_demand b' = Z.min (sat u64 (unwind_demand b + (Z.min (dq + e) asked - v)))
                         (unwindable_reserve b) /\
    (0 < v -> 0 < dq -> (deposit_seconds c + 2 * dq * (now - last_updated c)) * dq <= imax u128 ->
     deposit_seconds c' =
       (deposit_seconds c + 2 * dq * (now - last_updated c)) * Z.max 0 (dq - v) / dq).
Proof.
  intros H Ha Hfit dq aged. pose proof H as []. imax_nums.
  assert (Hw : wf_claim aged b now)
    by (unfold aged; constructor; cbn [deposited_quid deposit_seconds drawn last_updated modify];
        imax_nums; unfold dq; nia).
  destruct (payable_spec aged b asked now Hw Ha) as (e & v & He & Hp & Heb & Hv & Hvm & Hvf & Hsh).
  change (deposited_quid aged) with dq in *.
  unfold pay_from_pool. rewrite age_eq by (imax_nums; lia). cbn [bind]. fold dq. fold aged. cbv zeta.
  rewrite Hp. cbn [bind]. change (deposited_quid aged) with dq.
  set (b1 := defer_redemption b _).
  assert (Hb1 : total_deposits b1 = total_deposits b /\ yield_pool b1 = yield_pool b) by done.
  destruct Hb1 as [Hb1t Hb1y]. rewrite Hb1t, Hb1y.
  rewrite eval_safe by (arith_side; unfold dq in *; lia). cbn [bind value aop_fun].
  rewrite (sat_id u64 (v - _)) by (unfold_ints; lia).
  rewrite (sat_id u64 (yield_pool b - _)) by (unfold_ints; lia).
  set (b2 := (b1 <| total_deposits := _ |>) <| yield_pool := _ |>).
  destruct (adjust_seconds_spec aged b2 v now) as (c3 & b3 & Hadj & Hq3 & Hb3 & Hds);
    [done|imax_nums; lia|]. change (deposited_quid aged) with dq in *. rewrite Hadj. cbn [bind].
  rewrite Hq3. rewrite eval_safe by (arith_side; unfold dq in *; lia). cbn [bind value aop_fun].
  exists (c3 <| deposited_quid := dq - Z.min dq v |> <| last_updated := now |>), b3, e, v.
  rewrite Hb3. unfold b2, b1, defer_redemption.
  cbn [deposited_quid deposit_seconds total_deposits yield_pool max_liability paper_in_transit
       unwind_demand modify]. rewrite (Z.min_comm dq v).
  split_and!; try done; try lia.
  - intros Hs. pose proof (withdrawable_solvent b v ltac:(lia) ltac:(lia) ltac:(imax_nums; lia)
      ltac:(lia) ltac:(lia) Hvf Hs). lia.
  - rewrite (sat_id u64 (Z.min (dq + e) asked - v)) by (unfold_ints; lia). done.
  - intros Hv0 Hd0 Hfit2. unfold aged in Hds. cbn [deposit_seconds last_updated modify] in Hds.
    replace (deposit_seconds c + 2 * dq * (now - last_updated c)) with
      (deposit_seconds c + dq * (now - last_updated c) + dq * (now - last_updated c)) in * by lia.
    apply Hds; imax_nums; unfold dq in *; nia.
Qed.

(** Half of a pool of 100, of which 40 are reserved. *)
Definition half_account (o : Z) : Depositor := (fresh_account o) <| deposited_quid := 50000000 |>.
Definition reserved_bank : Depository :=
  depository_default <| total_deposits := 100000000 |> <| max_liability := 40000000 |>.

Lemma pool_payment_sound_witness : exists c' b' v,
  pay_from_pool (half_account 1) reserved_bank 50000000 1000 = Ok (c', b', v) /\
  v = 30000000 /\ deposited_quid c' = 20000000 /\ total_deposits b' = 70000000 /\
  unwind_demand b' = 20000000.
Proof.
  destruct (pool_payment_sound (half_account 1) reserved_bank 50000000 1000)
    as (c' & b' & e & v & _ & Hp & _); [|lia|vm_compute; discriminate|].
  - constructor; vm_compute; intuition discriminate.
  - exists c', b', v. split; [exact Hp|]. vm_compute in Hp. injection Hp as <- <- <-.
    split_and!; reflexivity.
Defined.

(** The first to withdraw is paid more.  Two accounts hold half of the same
    pool each and ask for everything at the same instant: the first receives 30,
    the second 21.43 — prorating against what is left does not make the order
    irrelevant. *)
Theorem first_out_gets_more : exists c1 b1 v1 c2 b2 v2,
  pay_from_pool (half_account 1) reserved_bank 50000000 1000 = Ok (c1, b1, v1) /\
  pay_from_pool (half_account 2) b1 50000000 1000 = Ok (c2, b2, v2) /\
  v1 = 30000000 /\ v2 = 21428571.
Proof.
  eexists _, _, _, _, _, _. split; [vm_compute; reflexivity|].
  split; [vm_compute; reflexivity|]. done.
Qed.

(** ** A position too large to trade *)

(** A position worth more than about 184,467 dollars cannot be traded.  The
    leverage figure of the trade handler multiplies units, price and a hundred in
    64 bits without scaling by [PRICE_SCALE], so for every such position and every
    trade — a close included — the call panics once the price is accepted. *)
Theorem large_position_cannot_trade c b r t amount now slot price p r' :
  find_named (balances c) t = Some p -> 0 < pledged p -> - imax i64 <= exposure p <= imax i64 ->
  0 < price -> observe_market r b price now slot = Ok r' ->
  imax u64 < Z.abs (exposure p) * price * 100 ->
  trade c b r t amount now slot (Ok price) = Panic.
Proof.
  intros Hf Hp He Hpr Ho Hbig. unfold trade. cbn [bind]. rewrite Ho. cbn [bind]. rewrite Hf.
  cbn [ok_or bind]. unfold trade_fee. rewrite (proj2 (Z.ltb_lt 0 _) Hp).
  unfold abs_i64. rewrite chk_ok by (unfold_ints; lia). cbn [bind].
  rewrite cast_id by (unfold_ints; lia). set (x := Z.abs (exposure p)) in *.
  assert (Hchk : forall y, imax u64 < y -> chk u64 y = Panic).
  { intros y Hy. unfold chk, in_rangeb. rewrite (proj2 (Z.leb_gt y _) Hy). by rewrite andb_false_r. }
  cbn [eval bind aop_fun divides_by_zero].
  destruct (Z.le_gt_cases (x * price) (imax u64)) as [Hle|Hgt].
  - rewrite (chk_ok u64 (x * price)) by (unfold_ints; unfold x; nia). cbn [bind].
    by rewrite Hchk.
  - by rewrite Hchk.
Qed.

(** 1,000 shares at 201 dollars, fully paid for. *)
Definition large_long : Depositor :=
  sample_depositor <| balances := [sample_pod <| exposure := 1000000000 |>
                                     <| pledged := 201000000000 |>] |>.

Lemma large_position_cannot_trade_witness :
  trade large_long earning_bank quiet_risk sample_ticker (-1000000000) 100000 1000 (Ok 201000000)
    = Panic.
Proof.
  destruct (observe_market quiet_risk earning_bank 201000000 100000 1000) as [r'| |] eqn:E;
    [|by vm_compute in E..].
  eapply (large_position_cannot_trade large_long earning_bank quiet_risk sample_ticker (-1000000000)
    100000 1000 201000000 _ r'); [vm_compute; reflexivity | vm_compute; reflexivity
    | vm_compute; split; discriminate | reflexivity | exact E | vm_compute; reflexivity].
Defined.

(** ** A sweep passes over the accounts that err *)
Ltac ne f := unfold f; never_errs_tac.

Lemma pow_loop_ne k : forall x b e, never_errs (pow_loop k x b e).
Proof. induction k as [|k IH]; intros x b e; cbn [pow_loop]; never_errs_tac. Qed.
#[local] Hint Resolve pow_loop_ne : noerr.

Lemma newton_loop_ne k : forall n x y, never_errs (newton_loop k n x y).
Proof. induction k as [|k IH]; intros n x y; cbn [newton_loop]; never_errs_tac. Qed.
#[local] Hint Resolve newton_loop_ne : noerr.

Lemma tail_loop_ne k : forall q nb den, never_errs (tail_loop k q nb den).
Proof. induction k as [|k IH]; intros q nb den; cbn [tail_loop]; never_errs_tac. Qed.
#[local] Hint Resolve tail_loop_ne : noerr.

Lemma vol_floor_ne s : never_errs (vol_floor s).
Proof. unfold vol_floor, pow_bps. never_errs_tac. Qed.
#[local] Hint Resolve vol_floor_ne : noerr.

Lemma gpd_params_ne s : never_errs (gpd_params s).
Proof. unfold gpd_params, pot_threshold, exceedance_rate_bps, eff_sigma. never_errs_tac. Qed.
#[local] Hint Resolve gpd_params_ne : noerr.

Lemma tail_at_fine_ne d n beta u z : never_errs (tail_at_fine d n beta u z).
Proof. ne tail_at_fine. Qed.
#[local] Hint Resolve tail_at_fine_ne : noerr.

Lemma bisect_ne k : forall p n beta u z lo hi, never_errs (bisect k p n beta u z lo hi).
Proof. induction k as [|k IH]; intros; cbn [bisect]; unfold tail_at; never_errs_tac. Qed.
#[local] Hint Resolve bisect_ne : noerr.

Lemma fit_ne s : never_errs (pot_threshold s) /\ never_errs (exceedance_rate_bps s).
Proof. split; unfold pot_threshold, exceedance_rate_bps, eff_sigma; never_errs_tac. Qed.

Lemma quantile_ne s p : never_errs (quantile_bps s p).
Proof. destruct (fit_ne s). unfold quantile_bps, eff_sigma. never_errs_tac. Qed.
#[local] Hint Resolve quantile_ne : noerr.

Lemma margin_ne s : never_errs (margin_bps s).
Proof.
  destruct (fit_ne s). unfold margin_bps, loss_profile, unwind_exposure_x100, gap_quantile_bps,
    hazard_bps, lgd_bps, bounded_mean_excess_bps, mean_excess_bps, tail_prob_fine, adverse_bps,
    sqrt_x100, eff_sigma. never_errs_tac.
Qed.
#[local] Hint Resolve margin_ne : noerr.

Lemma reconcile_ne r b : never_errs (reconcile_ticker_reserve r b).
Proof. unfold reconcile_ticker_reserve, ticker_reserve_dollars. never_errs_tac. Qed.

Lemma record_activity_ne s x v sl sz pl : never_errs (record_activity s x v sl sz pl).
Proof.
  unfold record_activity, classify, local_velocity, update_momentum, abs_i64. never_errs_tac.
Qed.

Lemma settle_funding_ne d t r price : never_errs (settle_funding d t r price).
Proof. unfold settle_funding, funding_owed. never_errs_tac. Qed.
#[local] Hint Resolve reconcile_ne record_activity_ne settle_funding_ne : noerr.

Lemma sweep_one_ne c b r t price now slot : never_errs (sweep_one c b r t price now slot).
Proof. unfold sweep_one. never_errs_tac. Qed.
#[local] Hint Resolve sweep_one_ne : noerr.

Lemma sweep_all_ne t price now slot batch : forall b r k n,
  never_errs (sweep_all batch b r t price now slot k n).
Proof. induction batch as [|[c|] batch IH]; intros; cbn [sweep_all]; never_errs_tac. Qed.

Lemma settle_funding_pod d t r price i p : find_pod (balances d) (pad_ticker t) = Some (i, p) ->
  ensures (settle_funding d t r price) (fun x => deposited_quid x.1.1 = deposited_quid d /\
    exists q, balances x.1.1 = <[i:=q]> (balances d) /\ exposure q = exposure p /\ ticker q = ticker p).
Proof.
  intros Hf. unfold settle_funding. rewrite Hf.
  repeat ensures_step; (split; [done|]); eexists; split; [reflexivity|done|reflexivity|done|reflexivity|done].
Qed.

(** The crank of a sweep: the position on [t] only shrank, nothing else in the book
    moved and the free balance did not grow. *)
Definition cranked (t : list Z) (c c' : Depositor) : Prop :=
  exists i p p', find_pod (balances c) (pad_ticker t) = Some (i, p) /\
    balances c' = <[i:=p']> (balances c) /\ shrinks (exposure p) (exposure p') /\
    deposited_quid c' <= deposited_quid c.

Definition sweepable (c : Depositor) : Prop :=
  quid_ok c /\ forall p, p ∈ balances c -> - imax i64 <= exposure p <= imax i64.

Lemma sweep_one_spec c b r t price now slot : sweepable c ->
  ensures (sweep_one c b r t price now slot) (fun x => let '(c', _, _, cut, hit) := x in
    if hit then cranked t c c' else c' = c /\ cut = 0).
Proof.
  intros [Hq He] x H. unfold sweep_one in H. apply bind_ok in H as ([[c1 r1] s] & Hfund & H).
  destruct (repo c1 t 0 price now slot (actuary r1) b) as [[[c2 b2] [delta interest]]|e|] eqn:Hrepo;
    [|by injection H as <-|done].
  destruct (find_pod (balances c) (pad_ticker t)) as [[i p]|] eqn:Hf.
  2: { unfold settle_funding in Hfund. rewrite Hf in Hfund. injection Hfund as <- <- <-.
       unfold repo in Hrepo. apply bind_ok in Hrepo as (? & _ & Hrepo). by rewrite Hf in Hrepo. }
  destruct (settle_funding_pod _ _ _ _ _ _ Hf _ Hfund) as (Hdq & q & Hb & Hx & Htk). cbn [fst snd] in *.
  destruct (find_pod_lookup _ _ _ _ Hf) as [Hl _].
  pose proof (He p ltac:(by eapply list_elem_of_lookup_2)) as Hep.
  assert (Hf1 : find_pod (balances c1) (pad_ticker t) = Some (i, q))
    by (rewrite Hb; by apply (find_pod_insert _ _ _ _ _ Hf)).
  destruct (crank_shrank _ _ _ _ _ _ _ _ _ _ _ _ Hf1 ltac:(lia) Hrepo) as (p' & Hb2 & Hsh & Hd2).
  assert (Hc : forall dq, dq <= deposited_quid c2 -> cranked t c (c2 <| deposited_quid := dq |>)).
  { intros dq Hle. exists i, p, p'. split_and!; [done| |by rewrite <- Hx|cbn; lia].
    cbn. by rewrite Hb2, Hb, list_insert_insert_eq. }
  assert (Hq2 : quid_ok c2).
  { apply (repo_quid _ _ _ _ _ _ _ _ (ltac:(unfold quid_ok in *; by rewrite Hdq)) _ Hrepo). }
  destruct (negb (delta =? 0) || _); [|by injection H as <-]. cbv zeta in H.
  destruct (delta <? 0).
  - apply bind_ok in H as (nc & _ & H). apply bind_ok in H as (a & _ & H).
    apply bind_ok in H as ([r2 b3] & _ & H). injection H as <-.
    specialize (Hc (deposited_quid c2) ltac:(lia)). by destruct c2.
  - apply bind_ok in H as (dq & Hdv & H). apply eval_inv in Hdv as [-> _]. injection H as <-.
    apply Hc. cbn [value aop_fun]. pose proof (cast_in_range u64 delta ltac:(by vm_compute)).
    unfold quid_ok in Hq2. unfold_ints. lia.
Qed.

(** How an entry of the batch may change. *)
Definition swept (t : list Z) (o o' : option Depositor) : Prop :=
  match o, o' with
  | None, None => True
  | Some c, Some c' => c' = c \/ cranked t c c'
  | _, _ => False
  end.

(** C9: What one account can do to a sweep.  No account makes the loop return a
    program error, whatever it holds: an entry that is not a depositor is skipped,
    and so is a position that [repo] refuses.  A sweep that returns left every
    account exactly as it was or moved its one position on the ticker toward zero,
    with the free balance not raised, when balances are [u64]s and exposures above
    [i64::MIN]; and the count of touched accounts is at most the size of the batch.
    Arithmetic that overflows still aborts the whole batch
    ([extreme_account_aborts_sweep]). *)
Theorem sweep_isolates_errors batch b r t price now slot k n :
  never_errs (sweep_all batch b r t price now slot k n) /\
  forall l b' r' k' n', (forall c, Some c ∈ batch -> sweepable c) ->
    sweep_all batch b r t price now slot k n = Ok (l, b', r', k', n') ->
    Forall2 (swept t) batch l /\ n <= n' <= n + Z.of_nat (length batch).
Proof.
  split; [apply sweep_all_ne|].
  revert b r k n. induction batch as [|[c|] batch IH]; intros b r k n l b' r' k' n' Hs H;
    cbn [sweep_all length] in H |- *.
  - injection H as <- <- <- <- <-. split; [constructor|lia].
  - apply bind_ok in H as ([[[[c1 b1] r1] cut] hit] & H1 & H).
    apply bind_ok in H as (m & Hm & H).
    apply bind_ok in H as ([[[[l1 b2] r2] k2] n2] & H2 & H). injection H as <- <- <- <- <-.
    apply IH in H2 as [HF Hn]; [|intros x Hx; by apply Hs, list_elem_of_further].
    apply sweep_one_spec in H1; [|apply Hs, list_elem_of_here].
    assert (n <= m <= n + 1).
    { destruct hit; [apply eval_inv in Hm as [-> _]; cbn; lia|injection Hm as <-; lia]. }
    split; [|lia]. constructor; [|done]. cbn. destruct hit; [by right|left; tauto].
  - apply bind_ok in H as ([[[[l1 b2] r2] k2] n2] & H2 & H). injection H as <- <- <- <- <-.
    apply IH in H2 as [HF Hn]; [|intros x Hx; by apply Hs, list_elem_of_further]. split; [by constructor|lia].
Qed.

(** A junk account, a healthy long and a five-fold short 20% under water. *)
Definition sample_batch : list (option Depositor) :=
  [None; Some (sample_long <| owner := 8 |>); Some (sample_depositor <| deposited_quid := 0 |>)].
Definition hot_risk : TickerRisk :=
  sample_risk <| actuary := sample_actuary <| twap_price := 240000000 |> <| last_price := 240000000 |>
      <| net_exposure := -12000000000 |> <| total_exposure := 12000000000 |> |>.

Lemma sweep_isolates_errors_witness : exists l b' r' k' n',
  sweep_all sample_batch earning_bank hot_risk sample_ticker 201000000 100000 1000 0 0
    = Ok (l, b', r', k', n') /\ Forall2 (swept sample_ticker) sample_batch l /\ n' <= 3.
Proof.
  destruct (sweep_all sample_batch earning_bank hot_risk sample_ticker 201000000 100000 1000 0 0)
    as [[[[[l b'] r'] k'] n']| |] eqn:E; [|by vm_compute in E..].
  destruct (proj2 (sweep_isolates_errors sample_batch earning_bank hot_risk sample_ticker 201000000
    100000 1000 0 0) l b' r' k' n') as [HF Hn]; [|exact E|].
  - clear E. intros c Hc. apply elem_of_cons in Hc as [Hc|Hc]; [discriminate Hc|].
    repeat (apply elem_of_cons in Hc as [[= ->]|Hc]; [
      split; [vm_compute; split; discriminate
             | intros p [= ->]%list_elem_of_singleton; vm_compute; split; discriminate]|]).
    destruct (proj1 (elem_of_nil _) Hc).
  - exists l, b', r', k', n'. split; [reflexivity|]. split; [exact HF|]. apply Hn.
Defined.

(** The limit: a position whose exposure is near the end of [i64] overflows inside
    the crank, and the panic aborts the batch, the accounts around it included. *)
Definition extreme_account : Depositor :=
  sample_long <| balances := [sample_pod <| exposure := -9000000000000000000 |>] |>.

Lemma extreme_account_aborts_sweep :
  sweep_all [Some (sample_depositor <| deposited_quid := 0 |>); Some extreme_account] earning_bank
    hot_risk sample_ticker 201000000 100000 1000 0 0 = Panic.
Proof. vm_compute. reflexivity. Qed.

(** ** Where the cranks and the ledger disagree *)

(** Cranking a five-fold short 20% under water takes 283 dollars of its pledge,
    books 1,693 dollars of earnings and 6.80 of commission, and records the buy-back
    as new short exposure: the ticker's net moves from -12,000 to -13,693. *)
Lemma short_crank_grows_book : exists c' l' b' r' p',
  amortise (sample_depositor <| last_updated := 90000 |> <| deposited_quid := 0 |>) depositor_default
    (sample_bank' <| bank_last_updated := 90000 |>) hot_risk sample_ticker (Ok 240000000)
    (Ok [240000000]) 7 9 100000 1000 = Ok (c', l', b', r') /\ balances c' = [p'] /\
  exposure p' = -42916667 /\ pledged sample_pod - pledged p' = 283333320 /\
  yield_pool b' = 1693199921 /\ deposited_quid l' = 6799999 /\
  net_exposure (actuary hot_risk) = -12000000000 /\ net_exposure (actuary r') = -13693199921.
Proof.
  eexists _, _, _, _, _. split; [vm_compute; reflexivity|]. split; [vm_compute; reflexivity|].
  split_and!; vm_compute; reflexivity.
Qed.

(** A sweep of a healthy position that owes funding credits the pot and leaves the
    account, its checkpoint included, as it was: sweeping again credits it again. *)
Lemma sweep_leaks_funding :
  let c := sample_long <| balances := [sample_pod <| exposure := 50000000 |> <| breached_at := 0 |>] |> in
  let r := sample_risk <| actuary := (actuary sample_risk) <| twap_price := 201000000 |> |> in
  exists b1 r1 b2 r2,
  sweep_one c earning_bank r sample_ticker 201000000 100000 1000 = Ok (c, b1, r1, 0, false) /\
  sweep_one c b1 r1 sample_ticker 201000000 100000 1000 = Ok (c, b2, r2, 0, false) /\
  funding_pot r1 - funding_pot r = 1313383 /\ funding_pot r2 - funding_pot r1 = 1313383.
Proof.
  cbv zeta. eexists _, _, _, _. split; [vm_compute; reflexivity|]. split; [vm_compute; reflexivity|].
  split; vm_compute; reflexivity.
Qed.
