(* ===== verification/Chain.v ===== *)
(** * The chain around the program: bytes, accounts, tokens and lamports

    What the handlers see of Solana.  Account data is a list of bytes read at
    fixed offsets with [from_le_bytes] and [from_be_bytes]; an account is an
    [AccountInfo]; the token program, the system program and the state they act
    on are the interface [Runtime], whose documented behaviour is [RuntimeLaws].
    [Ledger] is an executable implementation that satisfies the laws, used to
    evaluate the handlers on concrete states.  An instruction whose cross-program
    call fails is aborted as a whole, so a failed call is [Panic]. *)
From stdpp Require Import gmap.
From S2P Require Import Prelude Pool.

(** ** Bytes *)
Definition byte_ok (b : Z) : Prop := 0 <= b < 256.

Fixpoint from_le_bytes (l : list Z) : Z :=
  match l with
  | [] => 0
  | b :: l => b + 256 * from_le_bytes l
  end.

Fixpoint to_le_bytes (n : nat) (x : Z) : list Z :=
  match n with
  | O => []
  | S n => x mod 256 :: to_le_bytes n (x / 256)
  end.

Definition from_be_bytes (l : list Z) : Z := from_le_bytes (rev l).
Definition to_be_bytes (n : nat) (x : Z) : list Z := rev (to_le_bytes n x).

(** [data[a..b]], where a shorter slice panics. *)
Definition slice (data : list Z) (a b : nat) : outcome (list Z) :=
  if decide (b <= length data)%nat then Ok (take (b - a) (drop a data)) else Panic.

(** ** Accounts *)
Record AccountInfo := mkAccount {
  key : Pubkey;
  data : list Z;
  is_signer : bool;
  is_writable : bool
}.

(** Amount of an SPL token account, and decimals of a mint, as laid out in
    account data. *)
Definition token_amount (a : AccountInfo) : outcome Z :=
  require (bool_decide (72 <= length (data a))%nat) InvalidParameters ;;
  b <- slice (data a) 64 72 ;;
  Ok (from_le_bytes b).

(** ** The token and system programs *)
Class Runtime (W : Type) := {
  token_balance : W -> Pubkey -> Z;
  token_mint_of : W -> Pubkey -> Pubkey;
  mint_decimals : W -> Pubkey -> Z;
  lamports_of : W -> Pubkey -> Z;
  transfer_checked : W -> Pubkey -> Pubkey -> Pubkey -> Z -> Z -> outcome W;
  sys_transfer : W -> Pubkey -> Pubkey -> Z -> outcome W
}.

Definition moved (k from to : Pubkey) (n : Z) : Z :=
  (if k =? to then n else 0) - (if k =? from then n else 0).

(** A transfer moves exactly its amount (mints with a transfer fee are not
    registered) and touches nothing else; it is carried out when the accounts
    belong to the mint and the source holds enough. *)
Class RuntimeLaws (W : Type) `{Runtime W} : Prop := {
  transfer_moves : forall w f m t n d w', transfer_checked w f m t n d = Ok w' ->
    n <= token_balance w f /\
    (forall k, token_balance w' k = token_balance w k + moved k f t n) /\
    (forall k, lamports_of w' k = lamports_of w k) /\
    (forall k, token_mint_of w' k = token_mint_of w k) /\
    (forall k, mint_decimals w' k = mint_decimals w k);
  transfer_done : forall w f m t n d, 0 <= n <= token_balance w f ->
    token_mint_of w f = m -> token_mint_of w t = m -> mint_decimals w m = d ->
    exists w', transfer_checked w f m t n d = Ok w';
  sys_moves : forall w f t n w', sys_transfer w f t n = Ok w' ->
    n <= lamports_of w f /\
    (forall k, lamports_of w' k = lamports_of w k + moved k f t n) /\
    (forall k, token_balance w' k = token_balance w k) /\
    (forall k, token_mint_of w' k = token_mint_of w k) /\
    (forall k, mint_decimals w' k = mint_decimals w k);
  sys_done : forall w f t n, 0 <= n <= lamports_of w f ->
    exists w', sys_transfer w f t n = Ok w'
}.

(** ** An executable runtime *)
Record Ledger := mkLedger {
  tokens : gmap Z (Z * Z);          (* account -> mint, amount *)
  mints : gmap Z Z;                 (* mint -> decimals *)
  native : gmap Z Z                 (* account -> lamports *)
}.

Definition led_token (w : Ledger) (k : Pubkey) : Z := (default (0, 0) (tokens w !! k)).2.
Definition led_mint (w : Ledger) (k : Pubkey) : Pubkey := (default (0, 0) (tokens w !! k)).1.
Definition led_decimals (w : Ledger) (m : Pubkey) : Z := default 0 (mints w !! m).
Definition led_lamports (w : Ledger) (k : Pubkey) : Z := default 0 (native w !! k).

Definition credit_token (w : Ledger) (k n : Z) : Ledger :=
  mkLedger (<[k := (led_mint w k, led_token w k + n)]> (tokens w)) (mints w) (native w).
Definition credit_native (w : Ledger) (k n : Z) : Ledger :=
  mkLedger (tokens w) (mints w) (<[k := led_lamports w k + n]> (native w)).

Definition led_transfer (w : Ledger) (f m t n d : Z) : outcome Ledger :=
  if (0 <=? n) && (n <=? led_token w f) && (led_mint w f =? m) && (led_mint w t =? m)
     && (led_decimals w m =? d)
  then Ok (credit_token (credit_token w f (- n)) t n) else Panic.

Definition led_sys (w : Ledger) (f t n : Z) : outcome Ledger :=
  if (0 <=? n) && (n <=? led_lamports w f)
  then Ok (credit_native (credit_native w f (- n)) t n) else Panic.

#[export] Instance ledger_runtime : Runtime Ledger := {
  token_balance := led_token;
  token_mint_of := led_mint;
  mint_decimals := led_decimals;
  lamports_of := led_lamports;
  transfer_checked := led_transfer;
  sys_transfer := led_sys
}.

(** * Lemmas *)

(** ** Codecs *)
Lemma to_le_length n x : length (to_le_bytes n x) = n.
Proof. revert x. induction n as [|n IH]; intros x; cbn; [done|by rewrite IH]. Qed.

Lemma to_le_bytes_ok n x : Forall byte_ok (to_le_bytes n x).
Proof.
  revert x. induction n as [|n IH]; intros x; cbn; constructor; auto.
  unfold byte_ok. pose proof (Z.mod_pos_bound x 256). lia.
Qed.

Lemma le_decode_encode n x : from_le_bytes (to_le_bytes n x) = x mod 256 ^ Z.of_nat n.
Proof.
  revert x. induction n as [|n IH]; intros x; cbn [to_le_bytes from_le_bytes].
  { by rewrite Z.mod_1_r. }
  rewrite IH, Nat2Z.inj_succ, Z.pow_succ_r by lia.
  symmetry. rewrite Z.mul_comm. rewrite Z.mul_comm.
  apply Z.rem_mul_r; lia.
Qed.

Lemma le_encode_decode l : Forall byte_ok l -> to_le_bytes (length l) (from_le_bytes l) = l.
Proof.
  induction 1 as [|b l Hb _ IH]; [done|]. cbn [length to_le_bytes from_le_bytes].
  unfold byte_ok in Hb. f_equal.
  - rewrite Z.mul_comm, Z_mod_plus_full, Z.mod_small; lia.
  - rewrite Z.mul_comm, Z.div_add, Z.div_small by lia. by rewrite Z.add_0_l.
Qed.

Lemma from_le_range l : Forall byte_ok l -> 0 <= from_le_bytes l < 256 ^ Z.of_nat (length l).
Proof.
  induction 1 as [|b l Hb _ IH]; [done|]. cbn [length from_le_bytes].
  rewrite Nat2Z.inj_succ, Z.pow_succ_r by lia. unfold byte_ok in Hb. lia.
Qed.

Lemma to_be_length n x : length (to_be_bytes n x) = n.
Proof. unfold to_be_bytes. by rewrite length_rev, to_le_length. Qed.

Lemma to_be_bytes_ok n x : Forall byte_ok (to_be_bytes n x).
Proof. apply Forall_rev, to_le_bytes_ok. Qed.

Lemma be_decode_encode n x : 0 <= x < 256 ^ Z.of_nat n -> from_be_bytes (to_be_bytes n x) = x.
Proof.
  intros. unfold from_be_bytes, to_be_bytes. rewrite rev_involutive, le_decode_encode.
  by apply Z.mod_small.
Qed.

Lemma be_encode_decode l : Forall byte_ok l -> to_be_bytes (length l) (from_be_bytes l) = l.
Proof.
  intros. unfold from_be_bytes, to_be_bytes. rewrite <- (length_rev l).
  rewrite le_encode_decode by (by apply Forall_rev). apply rev_involutive.
Qed.

Lemma from_be_range l : Forall byte_ok l -> 0 <= from_be_bytes l < 256 ^ Z.of_nat (length l).
Proof.
  intros. unfold from_be_bytes. rewrite <- (length_rev l).
  by apply from_le_range, Forall_rev.
Qed.

Lemma slice_ok l a b : (b <= length l)%nat -> slice l a b = Ok (take (b - a) (drop a l)).
Proof. intros. unfold slice. by rewrite decide_True. Qed.

Lemma slice_bytes l a b s : Forall byte_ok l -> (a <= b)%nat -> slice l a b = Ok s ->
  Forall byte_ok s /\ length s = (b - a)%nat.
Proof.
  intros Hl Hab. unfold slice. destruct (decide _); [|done]. intros [= <-].
  split; [by apply Forall_take, Forall_drop|]. rewrite length_take, length_drop. lia.
Qed.

Lemma pow256_8 : 256 ^ Z.of_nat 8 = imax u64 + 1.
Proof. reflexivity. Qed.

(** ** The executable runtime satisfies the laws *)
Lemma led_token_credit w k j n :
  led_token (credit_token w k n) j = led_token w j + if j =? k then n else 0.
Proof.
  unfold led_token, credit_token; cbn. destruct (Z.eqb_spec j k) as [->|].
  - by rewrite lookup_insert_eq.
  - rewrite lookup_insert_ne by done. lia.
Qed.

Lemma led_mint_credit w k j n : led_mint (credit_token w k n) j = led_mint w j.
Proof.
  unfold led_mint, credit_token; cbn. destruct (Z.eq_dec j k) as [->|].
  - by rewrite lookup_insert_eq.
  - by rewrite lookup_insert_ne.
Qed.

Lemma led_lamports_credit w k j n :
  led_lamports (credit_native w k n) j = led_lamports w j + if j =? k then n else 0.
Proof.
  unfold led_lamports, credit_native; cbn. destruct (Z.eqb_spec j k) as [->|].
  - by rewrite lookup_insert_eq.
  - rewrite lookup_insert_ne by done. lia.
Qed.

Lemma led_transfer_inv w f m t n d w' : led_transfer w f m t n d = Ok w' ->
  0 <= n <= led_token w f /\ w' = credit_token (credit_token w f (- n)) t n.
Proof.
  unfold led_transfer. destruct (_ && _) eqn:E; [|done]. intros [= <-].
  rewrite !andb_true_iff in E. split; [lia|done].
Qed.

#[export] Instance ledger_laws : RuntimeLaws Ledger.
Proof.
  split; cbn.
  - intros w f m t n d w' H. apply led_transfer_inv in H as [Hn ->].
    split_and!; intros; rewrite ?led_token_credit, ?led_mint_credit; try done; [lia|].
    unfold moved. repeat case_match; lia.
  - intros w f m t n d Hn Hf Ht Hd. unfold led_transfer.
    rewrite Hf, Ht, Hd, !Z.eqb_refl. destruct (Z.leb_spec 0 n), (Z.leb_spec n (led_token w f));
      try lia. eauto.
  - intros w f t n w'. unfold led_sys. destruct (_ && _) eqn:E; [|done]. intros [= <-].
    rewrite !andb_true_iff in E.
    split_and!; intros; rewrite ?led_lamports_credit; try done; [lia|].
    unfold moved. repeat case_match; lia.
  - intros w f t n Hn. unfold led_sys.
    destruct (Z.leb_spec 0 n), (Z.leb_spec n (led_lamports w f)); try lia. eauto.
Qed.
