(* ===== verification/Vaults.v ===== *)
(** * Vaults: token units, accounting units and the pro-rata payout

    [svm/programs/quid/src/entra.rs]: the conversion between the raw units of a
    mint and the six-decimal accounting units of the pool ([to_accounting],
    [from_accounting]), the native leg of a payout ([NativeLeg::pay]) and
    [transfer_from_vaults], which splits a payment over the primary vault, the
    alternate vaults found in the remaining accounts and the native leg.

    A payout threads the runtime state through its cross-program calls.  The
    derivation of a vault's address ([find_program_address]) is a parameter. *)
From stdpp Require Import gmap.
From S2P Require Import Prelude Pool Chain.

Definition ACCOUNTING_DECIMALS : Z := 6.

(** ** Raw token units and accounting units *)

(** [10u64.checked_pow(e)]. *)
Definition checked_pow10 (e : Z) : option Z :=
  if in_rangeb u64 (10 ^ e) then Some (10 ^ e) else None.

(** [a.checked_mul(b)]. *)
Definition checked_mul (a b : Z) : option Z :=
  if in_rangeb u64 (a * b) then Some (a * b) else None.

Definition to_accounting (amount decimals : Z) : outcome Z :=
  if decimals =? ACCOUNTING_DECIMALS then Ok amount else
  if ACCOUNTING_DECIMALS <? decimals then
    div <- ok_or (checked_pow10 (decimals - ACCOUNTING_DECIMALS)) InvalidParameters ;;
    u64{ amount / div }
  else
    mul <- ok_or (checked_pow10 (ACCOUNTING_DECIMALS - decimals)) InvalidParameters ;;
    ok_or (checked_mul amount mul) InvalidParameters.

Definition from_accounting (units decimals : Z) : outcome Z :=
  if decimals =? ACCOUNTING_DECIMALS then Ok units else
  if ACCOUNTING_DECIMALS <? decimals then
    mul <- ok_or (checked_pow10 (decimals - ACCOUNTING_DECIMALS)) InvalidParameters ;;
    ok_or (checked_mul units mul) InvalidParameters
  else
    div <- ok_or (checked_pow10 (ACCOUNTING_DECIMALS - decimals)) InvalidParameters ;;
    u64{ units / div }.

Definition is_approved_mint (mint : Pubkey) (registered_mints : list Pubkey) : bool :=
  bool_decide (mint ∈ registered_mints).

(** ** The native leg *)
Record NativeLeg := mkNativeLeg {
  leg_pool : Pubkey;
  leg_recipient : Pubkey;
  leg_lamports : Z;
  leg_value : Z;
  leg_paid : Z
}.

#[export] Instance eta_NativeLeg : Eta NativeLeg := fun l =>
  mkNativeLeg (leg_pool l) (leg_recipient l) (leg_lamports l) (leg_value l) (leg_paid l).

(** ** The payout *)

(** An alternate vault accepted by the scan: the triplet of accounts, its
    balance in accounting units and the decimals of its mint. *)
Record AltVault := mkAlt {
  alt_mint : AccountInfo;
  alt_vault : AccountInfo;
  alt_user_ata : AccountInfo;
  alt_bal : Z;
  alt_dec : Z
}.

(** The primary vault of a payout, with its mint and the user's account. *)
Record Primary := mkPrimary {
  pv_vault : Pubkey;
  pv_mint : Pubkey;
  pv_user : Pubkey;
  pv_amount : Z;
  pv_dec : Z
}.

Section Payout.
Context {W : Type} `{Runtime W}.
Variable vault_pda : Pubkey -> Pubkey.

Definition leg_pay (leg : NativeLeg) (w : W) (take : Z) : outcome (NativeLeg * W * Z) :=
  if (take =? 0) || (leg_value leg =? 0) then Ok (leg, w, 0) else
  q <- u128{ [sat u128 (leg_lamports leg * take)] / [leg_value leg] } ;;
  let out := Z.min q (leg_lamports leg) in
  if out =? 0 then Ok (leg, w, 0) else
  w <- sys_transfer w (leg_pool leg) (leg_recipient leg) out ;;
  Ok (leg <| leg_paid := sat u64 (leg_paid leg + out) |>, w, out).

(** The scan over [mint, vault, user account] triplets.  A triplet whose mint is
    not approved, whose vault is not the derived address or whose data is too
    short is skipped; a trailing partial triplet is ignored. *)
Fixpoint scan_alts (registered : list Pubkey) (rem : list AccountInfo) (total : Z)
  : outcome (list AltVault * Z) :=
  match rem with
  | mint_info :: vault_info :: ata :: rest =>
      if negb (is_approved_mint (key mint_info) registered) then scan_alts registered rest total
      else if negb (key vault_info =? vault_pda (key mint_info)) then
        scan_alts registered rest total
      else if bool_decide (length (data vault_info) < 72)%nat then
        scan_alts registered rest total
      else
        b <- slice (data vault_info) 64 72 ;;
        let decimals := default 6 (data mint_info !! 44%nat) in
        bal <- to_accounting (from_le_bytes b) decimals ;;
        if 0 <? bal then
          '(l, total) <- scan_alts registered rest (sat u64 (total + bal)) ;;
          Ok (mkAlt mint_info vault_info ata bal decimals :: l, total)
        else scan_alts registered rest total
  | _ => Ok ([], total)
  end.

(** The share of one vault. *)
Definition vault_share (bal to_send total : Z) : outcome Z :=
  v <- u128{ bal * to_send / total } ;; Ok (cast u64 v).

Definition pay_primary (w : W) (pv : Primary) (primary_bal to_send total : Z) : outcome (W * Z) :=
  if 0 <? primary_bal then
    share <- vault_share primary_bal to_send total ;;
    let take := Z.min (Z.min share primary_bal) to_send in
    if 0 <? take then
      raw_take <- from_accounting take (pv_dec pv) ;;
      w <- transfer_checked w (pv_vault pv) (pv_mint pv) (pv_user pv) raw_take (pv_dec pv) ;;
      Ok (w, take)
    else Ok (w, 0)
  else Ok (w, 0).

(** The alternate vaults in turn; the last one takes the whole remainder. *)
Fixpoint pay_alts (w : W) (alts : list AltVault) (to_send total sent : Z) : outcome (W * Z) :=
  match alts with
  | [] => Ok (w, sent)
  | a :: alts =>
      let remaining := sat u64 (to_send - sent) in
      if remaining =? 0 then Ok (w, sent) else
      take <- (match alts with
               | [] => Ok (Z.min remaining (alt_bal a))
               | _ => share <- vault_share (alt_bal a) to_send total ;;
                      Ok (Z.min (Z.min share (alt_bal a)) remaining)
               end) ;;
      if take =? 0 then pay_alts w alts to_send total sent else
      raw <- from_accounting take (alt_dec a) ;;
      w <- transfer_checked w (key (alt_vault a)) (key (alt_mint a)) (key (alt_user_ata a))
             raw (alt_dec a) ;;
      sent <- u64{ sent + take } ;;
      pay_alts w alts to_send total sent
  end.

Definition pay_native (w : W) (native : option NativeLeg) (to_send sent : Z)
  : outcome (W * option NativeLeg * Z) :=
  match native with
  | None => Ok (w, None, sent)
  | Some leg =>
      let remaining := sat u64 (to_send - sent) in
      if 0 <? remaining then
        let take := Z.min remaining (leg_value leg) in
        '(leg, w, out) <- leg_pay leg w take ;;
        if 0 <? out then s <- u64{ sent + take } ;; Ok (w, Some leg, s)
        else Ok (w, Some leg, sent)
      else Ok (w, Some leg, sent)
  end.

Definition transfer_from_vaults (w : W) (pv : Primary) (rem : list AccountInfo)
    (registered : list Pubkey) (requested : Z) (native : option NativeLeg)
  : outcome (W * option NativeLeg * Z) :=
  primary_bal <- to_accounting (pv_amount pv) (pv_dec pv) ;;
  let native_bal := from_option leg_value 0 native in
  '(alts, total) <- scan_alts registered rem (sat u64 (primary_bal + native_bal)) ;;
  if total =? 0 then Ok (w, native, 0) else
  let to_send := Z.min requested total in
  '(w, sent) <- pay_primary w pv primary_bal to_send total ;;
  '(w, sent) <- pay_alts w alts to_send total sent ;;
  pay_native w native to_send sent.
End Payout.

(** * Theorems *)

(** ** Conversion *)
Definition scale_of (decimals : Z) : Z := 10 ^ Z.abs (decimals - ACCOUNTING_DECIMALS).

Lemma pow10_pos e : 0 <= e -> 0 < 10 ^ e.
Proof. intros. apply Z.pow_pos_nonneg; lia. Qed.

Lemma scale_pos d : 0 < scale_of d.
Proof. unfold scale_of. apply pow10_pos. lia. Qed.

(** The two conversions, as arithmetic. *)
Lemma to_accounting_spec a d v : 0 <= a <= imax u64 -> to_accounting a d = Ok v <->
  scale_of d <= imax u64 /\
  ((6 <= d /\ v = a / scale_of d) \/ (d < 6 /\ v = a * scale_of d /\ v <= imax u64)).
Proof.
  intros Ha. unfold to_accounting, checked_pow10, checked_mul, scale_of, ACCOUNTING_DECIMALS.
  destruct (Z.eqb_spec d 6) as [->|Hd].
  { rewrite Z.sub_diag. change (10 ^ Z.abs 0) with 1. rewrite Z.div_1_r. cbn.
    split; [intros [= <-]; split; [done|left; lia]|]. intros [_ [[_ ->]|?]]; [done|lia]. }
  destruct (Z.ltb_spec 6 d) as [Hlt|Hge].
  - rewrite Z.abs_eq by lia. pose proof (pow10_pos (d - 6) ltac:(lia)) as Hp.
    set (p := 10 ^ (d - 6)) in *.
    destruct (in_rangeb u64 p) eqn:E; cbn [ok_or bind].
    2: { split; [done|]. intros [Hs _]. apply not_true_iff_false in E. exfalso. apply E.
         apply in_rangeb_spec. unfold_ints. lia. }
    apply in_rangeb_spec in E.
    assert (Hq : eval u64 (Bin ODiv (Lit a) (Lit p)) = Ok (a / p)).
    { rewrite eval_safe; [cbn; by rewrite quot_div by lia|].
      cbn [safe value aop_fun]. pose proof (quot_le_self a p). unfold_ints. lia. }
    rewrite Hq. unfold_ints. split; [intros [= <-]; split; [lia|left; lia]|].
    intros [_ [[_ ->]|?]]; [done|lia].
  - rewrite Z.abs_neq by lia. replace (- (d - 6)) with (6 - d) by lia.
    pose proof (pow10_pos (6 - d) ltac:(lia)) as Hp. set (p := 10 ^ (6 - d)) in *.
    destruct (in_rangeb u64 p) eqn:E; cbn [ok_or bind].
    2: { split; [done|]. intros [Hs _]. apply not_true_iff_false in E. exfalso. apply E.
         apply in_rangeb_spec. unfold_ints. lia. }
    apply in_rangeb_spec in E.
    destruct (in_rangeb u64 (a * p)) eqn:E2; cbn [ok_or].
    + apply in_rangeb_spec in E2. unfold_ints.
      split; [intros [= <-]; split; [lia|right; lia]|]. intros [_ [?|(_ & -> & _)]]; [lia|done].
    + split; [done|]. intros [_ [?|(_ & -> & Hv)]]; [lia|]. exfalso.
      apply not_true_iff_false in E2. apply E2. apply in_rangeb_spec. unfold_ints. nia.
Qed.

(** Leaving accounting units for a mint of [d] decimals is entering them from a
    mint of [12 - d]. *)
Lemma from_accounting_mirror u d : from_accounting u d = to_accounting u (12 - d).
Proof.
  unfold from_accounting, to_accounting, ACCOUNTING_DECIMALS.
  destruct (Z.eqb_spec d 6), (Z.eqb_spec (12 - d) 6); try lia; [done|].
  destruct (Z.ltb_spec 6 d), (Z.ltb_spec 6 (12 - d)); try lia.
  - by replace (6 - (12 - d)) with (d - 6) by lia.
  - by replace (12 - d - 6) with (6 - d) by lia.
Qed.

Lemma scale_mirror d : scale_of (12 - d) = scale_of d.
Proof. unfold scale_of, ACCOUNTING_DECIMALS. f_equal. lia. Qed.

Lemma from_accounting_spec u d v : 0 <= u <= imax u64 -> from_accounting u d = Ok v <->
  scale_of d <= imax u64 /\
  ((d <= 6 /\ v = u / scale_of d) \/ (6 < d /\ v = u * scale_of d /\ v <= imax u64)).
Proof.
  intros Hu. rewrite from_accounting_mirror, to_accounting_spec, scale_mirror by done.
  split; intros [Hs Hc]; split; try done; destruct Hc; [left|right|left|right]; lia.
Qed.

Lemma to_accounting_range a d v : 0 <= a <= imax u64 -> to_accounting a d = Ok v ->
  0 <= v <= imax u64.
Proof.
  intros Ha Hv. pose proof (scale_pos d).
  destruct (proj1 (to_accounting_spec a d v Ha) Hv) as [Hs [[? ->]|(? & -> & ?)]]; [|nia].
  split; [apply Z.div_pos; lia|]. apply Z.div_le_upper_bound; nia.
Qed.

(** Whatever raw amount a mint credits can be paid back: converting it to
    accounting units and back succeeds, returns the amount itself up to less than
    one accounting unit of dust (none at six decimals or fewer), never more, and
    converting once more gives the same accounting figure. *)
Theorem accounting_roundtrip a d v : 0 <= a <= imax u64 -> to_accounting a d = Ok v ->
  exists r, from_accounting v d = Ok r /\ r <= a < r + scale_of d /\
    (d <= 6 -> r = a) /\ to_accounting r d = Ok v.
Proof.
  intros Ha Hv. pose proof (to_accounting_range a d v Ha Hv) as Hr.
  pose proof (scale_pos d). destruct (proj1 (to_accounting_spec a d v Ha) Hv) as [Hs Hc].
  pose proof (Z.mul_div_le a (scale_of d) ltac:(lia)).
  pose proof (Z.mul_succ_div_gt a (scale_of d) ltac:(lia)).
  destruct Hc as [[Hd ->]|(Hd & -> & Hm)].
  - exists (a / scale_of d * scale_of d). split.
    { apply from_accounting_spec; [done|]. split; [done|].
      destruct (Z.eq_dec d 6) as [->|]; [left|right; lia].
      change (scale_of 6) with 1. rewrite !Z.div_1_r. lia. }
    split; [lia|]. split.
    { intros. replace d with 6 by lia. change (scale_of 6) with 1. rewrite Z.div_1_r. lia. }
    apply to_accounting_spec; [nia|]. split; [done|left; split; [lia|]]. by rewrite Z.div_mul by lia.
  - exists a. split.
    { apply from_accounting_spec; [done|]. split; [done|left; split; [lia|]]. by rewrite Z.div_mul by lia. }
    split; [lia|]. split; [done|]. apply to_accounting_spec; [done|]. split; [done|right; lia].
Qed.

Lemma accounting_roundtrip_witness :
  to_accounting 1234567890 9 = Ok 1234567 /\
  exists r, from_accounting 1234567 9 = Ok r /\ r <= 1234567890 < r + scale_of 9 /\
    (9 <= 6 -> r = 1234567890) /\ to_accounting r 9 = Ok 1234567.
Proof.
  split; [vm_compute; reflexivity|].
  apply accounting_roundtrip; vm_compute; [split; discriminate|reflexivity].
Defined.

(** ** The payout *)
Section PayoutLaws.
Context {W : Type} `{RuntimeLaws W}.
Variable vault_pda : Pubkey -> Pubkey.

Lemma vault_share_eq bal s t : 0 <= bal <= imax u64 -> 0 <= s <= t -> 0 < t <= imax u64 ->
  vault_share bal s t = Ok (bal * s / t) /\ 0 <= bal * s / t <= bal.
Proof.
  intros Hb Hs Ht. pose proof (mul_div_le bal s t ltac:(lia) ltac:(lia) ltac:(lia)).
  split; [|done]. unfold vault_share. rewrite eval_safe.
  - cbn [bind value aop_fun]. rewrite quot_div by nia. by rewrite cast_id by (unfold_ints; lia).
  - cbn [safe value aop_fun]. rewrite quot_div by nia. unfold_ints. repeat split; nia.
Qed.

(** A vault able to pay its accounting balance: the holding behind it, in a mint
    of at least six decimals, and a user account of the same mint. *)
Definition can_pay (w : W) (vault mint user : Pubkey) (dec bal : Z) : Prop :=
  6 <= dec /\ 0 <= token_balance w vault <= imax u64 /\
  to_accounting (token_balance w vault) dec = Ok bal /\
  token_mint_of w vault = mint /\ token_mint_of w user = mint /\ mint_decimals w mint = dec.

Lemma can_pay_take w v m u dec bal t : can_pay w v m u dec bal -> 0 <= t <= bal ->
  exists w', from_accounting t dec = Ok (t * scale_of dec) /\
    transfer_checked w v m u (t * scale_of dec) dec = Ok w'.
Proof.
  intros (Hd & Hr & Hb & Hv & Hu & Hm) Ht. pose proof (scale_pos dec) as Hp.
  pose proof (to_accounting_range _ _ _ Hr Hb).
  destruct (proj1 (to_accounting_spec _ _ _ Hr) Hb) as [Hs [[_ ->]|]]; [|lia].
  pose proof (Z.mul_div_le (token_balance w v) (scale_of dec) ltac:(lia)).
  edestruct (transfer_done w v m u (t * scale_of dec) dec) as [w' Hw]; try done; [nia|].
  exists w'. split; [|done]. apply from_accounting_spec; [unfold_ints; lia|]. split; [done|].
  destruct (Z.eq_dec dec 6) as [->|]; [left|right; nia].
  change (scale_of 6) with 1. rewrite Z.div_1_r. lia.
Qed.

Lemma can_pay_frame w w' v m u dec bal f t n md d : can_pay w v m u dec bal ->
  transfer_checked w f md t n d = Ok w' -> f <> v -> t <> v -> can_pay w' v m u dec bal.
Proof.
  intros (? & ? & ? & ? & ? & ?) Ht Hne Hne'. apply transfer_moves in Ht as (_ & Hb & _ & Hmt & Hmd).
  assert (token_balance w' v = token_balance w v) as He.
  { rewrite Hb. unfold moved. destruct (Z.eqb_spec v t), (Z.eqb_spec v f); congruence || lia. }
  unfold can_pay. rewrite He, !Hmt, Hmd. done.
Qed.

(** Induction over a list read three elements at a time. *)
Lemma triples_ind {A} (P : list A -> Prop) :
  (forall l, (length l < 3)%nat -> P l) -> (forall a b c l, P l -> P (a :: b :: c :: l)) ->
  forall l, P l.
Proof.
  intros Hs Hc l. induction (well_founded_ltof _ (@length A) l) as [l _ IH].
  destruct l as [|a [|b [|c l]]]; try (apply Hs; cbn; lia).
  apply Hc, IH. unfold ltof. cbn. lia.
Qed.

(** The scan adds up what it accepts, and accepts only vaults with a balance. *)
Lemma scan_total reg rem : forall t alts total, scan_alts vault_pda reg rem t = Ok (alts, total) ->
  Forall (fun a => 0 < alt_bal a) alts /\
  (0 <= t -> t + sumZ alt_bal alts <= imax u64 -> total = t + sumZ alt_bal alts).
Proof.
  induction rem as [rem Hshort|mi vi ata rest IH] using triples_ind; intros t alts total Hs.
  { destruct rem as [|? [|? [|]]]; cbn [length] in Hshort; try lia;
      injection Hs as <- <-; cbn; (split; [done|lia]). }
  cbn [scan_alts] in Hs.
  repeat match type of Hs with (if ?b then _ else _) = _ => destruct b; [by apply IH|] end.
  inv_ok Hs. destruct (Z.ltb_spec 0 v0) as [Hpos|]; [|by apply IH].
  apply bind_ok in Hs as ([l tot] & Hrec & Hs). injection Hs as <- <-.
  apply IH in Hrec as [Hl Htot]. split; [by constructor|].
  rewrite sumZ_cons. cbn [alt_bal]. intros Ht Hsum.
  assert (0 <= sumZ alt_bal l).
  { apply sumZ_nonneg. intros a Ha. apply Z.lt_le_incl. by eapply Forall_forall in Hl. }
  rewrite sat_id in Htot by (unfold_ints; lia). lia.
Qed.

Definition alt_can_pay (w : W) (pv : Primary) (a : AltVault) : Prop :=
  key (alt_vault a) <> pv_vault pv /\ key (alt_vault a) <> pv_user pv /\
  can_pay w (key (alt_vault a)) (key (alt_mint a)) (key (alt_user_ata a)) (alt_dec a) (alt_bal a).

(** The vaults of a payout are different accounts, and no user account is one of
    them. *)
Definition apart (alts : list AltVault) : Prop :=
  NoDup (map (fun a => key (alt_vault a)) alts) /\
  forall a b, a ∈ alts -> b ∈ alts -> key (alt_user_ata a) <> key (alt_vault b).

(** What the alternates are to pay: the proportional share rounded down, and for
    the last one whatever is left, within its balance. *)
Fixpoint alt_takes (alts : list AltVault) (s total sent : Z) : list Z :=
  match alts with
  | [] => []
  | [a] => [Z.min (s - sent) (alt_bal a)]
  | a :: rest => let t := alt_bal a * s / total in t :: alt_takes rest s total (sent + t)
  end.

Fixpoint alts_move (alts : list AltVault) (takes : list Z) (k : Z) : Z :=
  match alts, takes with
  | a :: alts, t :: takes =>
      moved k (key (alt_vault a)) (key (alt_user_ata a)) (t * scale_of (alt_dec a))
      + alts_move alts takes k
  | _, _ => 0
  end.

Lemma moved_0 k f t : moved k f t 0 = 0.
Proof. unfold moved. by repeat case_match. Qed.

Lemma pay_primary_spec w pv bal s t : can_pay w (pv_vault pv) (pv_mint pv) (pv_user pv) (pv_dec pv) bal ->
  0 <= s <= t -> 0 < t <= imax u64 -> bal <= t ->
  wp (pay_primary w pv bal s t) (fun '(w', sent) =>
    sent = bal * s / t /\
    (forall k, token_balance w' k =
       token_balance w k + moved k (pv_vault pv) (pv_user pv) (sent * scale_of (pv_dec pv))) /\
    (forall a, alt_can_pay w pv a -> alt_can_pay w' pv a)).
Proof.
  intros Hcp Hs Ht Hb. pose proof (to_accounting_range _ _ _ (proj1 (proj2 Hcp)) (proj1 (proj2 (proj2 Hcp)))) as Hr.
  destruct (vault_share_eq bal s t) as [Hsh Hle]; try lia.
  assert (bal * s / t <= s).
  { apply Z.div_le_upper_bound; nia. }
  unfold pay_primary. destruct (Z.ltb_spec 0 bal) as [Hpos|].
  - rewrite Hsh. cbn [bind]. rewrite !Z.min_l by lia.
    destruct (Z.ltb_spec 0 (bal * s / t)).
    + destruct (can_pay_take _ _ _ _ _ _ (bal * s / t) Hcp) as (w' & Hf & Htr); [lia|].
      rewrite Hf. cbn [bind]. rewrite Htr. cbn [bind wp].
      split_and!; [done| |].
      * by destruct (transfer_moves _ _ _ _ _ _ _ Htr) as (_ & Hbal & _).
      * intros a (Ha1 & Ha2 & Ha3). split_and!; try done. by eapply can_pay_frame.
    + cbn. replace (bal * s / t) with 0 by lia. split_and!; try done.
      intros k. rewrite moved_0. lia.
  - cbn. replace bal with 0 by lia. rewrite Z.mul_0_l, Z.div_0_l by lia. split_and!; try done.
    intros k. rewrite moved_0. lia.
Qed.

(** Rounding loses less than one unit. *)
Lemma floor_share b s T : 0 < T ->
  b * s / T * T <= b * s <= b * s / T * T + (T - 1).
Proof.
  intros HT. pose proof (Z.div_mod (b * s) T ltac:(lia)). pose proof (Z.mod_pos_bound (b * s) T HT). lia.
Qed.

Lemma all_empty alts : Forall (fun a => 0 < alt_bal a) alts -> sumZ alt_bal alts <= 0 -> alts = [].
Proof.
  intros [|a l Ha Hl]; [done|]. rewrite sumZ_cons.
  assert (0 <= sumZ alt_bal l); [|lia].
  apply sumZ_nonneg. intros b Hb. rewrite Forall_forall in Hl. apply Hl in Hb. lia.
Qed.

(** [n] vaults have paid [sent] of [s], in proportion: never more than their part
    of the request, and less by under one unit each. *)
Definition in_proportion (alts : list AltVault) (s T sent n : Z) : Prop :=
  sent * T <= s * (T - sumZ alt_bal alts) <= sent * T + n * (T - 1).

Lemma in_proportion_step a alts s T sent n : 0 < T -> in_proportion (a :: alts) s T sent n ->
  in_proportion alts s T (sent + alt_bal a * s / T) (n + 1).
Proof.
  unfold in_proportion. intros HT Hin. rewrite sumZ_cons in Hin.
  pose proof (floor_share (alt_bal a) s T HT). nia.
Qed.

(** What the alternates take: within each balance, together no more than what is
    left of the request, and short of it by less than the number of vaults that
    rounded. *)
Lemma alt_takes_spec alts s T : Forall (fun a => 0 < alt_bal a) alts -> 0 <= s <= T -> 0 < T ->
  forall sent n, 1 <= n -> 0 <= sent <= s -> in_proportion alts s T sent n ->
  Forall2 (fun t a => 0 <= t <= alt_bal a) (alt_takes alts s T sent) alts /\
  sent + sumZ id (alt_takes alts s T sent) <= s /\
  s - (sent + sumZ id (alt_takes alts s T sent)) <= n - 1 + Z.of_nat (length alts - 1).
Proof.
  intros Hpos Hs HT. induction Hpos as [|a alts Ha Hpos IH]; intros sent n Hn Hsent Hprop.
  { unfold in_proportion in Hprop. cbn in *. split; [constructor|]. split; [lia|].
    enough (s - sent < n) by lia. nia. }
  assert (Hsum : 0 <= sumZ alt_bal alts).
  { apply sumZ_nonneg. intros b Hb. rewrite Forall_forall in Hpos. apply Hpos in Hb. lia. }
  destruct alts as [|a' alts].
  - unfold in_proportion in Hprop. cbn in *. split; [constructor; [lia|constructor]|]. split; [lia|].
    enough (s - sent - alt_bal a < n) by lia. nia.
  - pose proof (in_proportion_step _ _ _ _ _ _ HT Hprop) as Hnext.
    pose proof (floor_share (alt_bal a) s T HT) as Hf.
    assert (Hsh : 0 <= alt_bal a * s / T <= alt_bal a) by (apply mul_div_le; lia).
    assert (Hle : sent + alt_bal a * s / T <= s) by (unfold in_proportion in Hnext; nia).
    destruct (IH (sent + alt_bal a * s / T) (n + 1)) as (I1 & I2 & I3); [lia|lia|done|].
    set (t := alt_bal a * s / T) in *.
    change (alt_takes (a :: a' :: alts) s T sent) with (t :: alt_takes (a' :: alts) s T (sent + t)).
    rewrite sumZ_cons. cbn [length id]. split; [by constructor|]. unfold id in *. cbn [length] in I3. lia.
Qed.

(** Nothing is left: nothing more is taken. *)
Lemma alt_takes_done alts T sent k : Forall (fun a => 0 < alt_bal a) alts -> 0 < T -> 0 <= sent ->
  in_proportion alts sent T sent 1 ->
  sumZ id (alt_takes alts sent T sent) = 0 /\ alts_move alts (alt_takes alts sent T sent) k = 0.
Proof.
  intros Hpos HT Hs Hprop. destruct Hpos as [|a alts Ha Hpos]; [done|].
  assert (Hz : sent = 0).
  { unfold in_proportion in Hprop. rewrite sumZ_cons in Hprop.
    assert (0 <= sumZ alt_bal alts).
    { apply sumZ_nonneg. intros b Hb. rewrite Forall_forall in Hpos. apply Hpos in Hb. lia. } nia. }
  clear Hprop. subst sent. assert (Hall : Forall (fun a => 0 < alt_bal a) (a :: alts)) by (by constructor).
  clear Ha Hpos Hs. induction Hall as [|b l Hb Hl IH]; [done|]. destruct l as [|c l].
  - cbn [alt_takes alts_move]. rewrite Z.sub_diag, Z.min_l by lia. cbn. rewrite moved_0. done.
  - change (alt_takes (b :: c :: l) 0 T 0) with
      (alt_bal b * 0 / T :: alt_takes (c :: l) 0 T (0 + alt_bal b * 0 / T)).
    rewrite Z.mul_0_r, Z.div_0_l, Z.add_0_l by lia. rewrite sumZ_cons. cbn [alts_move].
    rewrite Z.mul_0_l, moved_0. exact IH.
Qed.
(** One transfer out of an alternate leaves the others able to pay. *)
Lemma alts_keep_paying w w' pv a alts n : apart (a :: alts) ->
  transfer_checked w (key (alt_vault a)) (key (alt_mint a)) (key (alt_user_ata a)) n (alt_dec a) = Ok w' ->
  Forall (alt_can_pay w pv) alts -> Forall (alt_can_pay w' pv) alts.
Proof.
  intros [Hnd Hua] Htr Hall. cbn in Hnd. apply NoDup_cons in Hnd as [Hni _].
  rewrite Forall_forall in *. intros b Hb. destruct (Hall b Hb) as (? & ? & Hcp).
  split_and!; [done|done|]. eapply can_pay_frame; [done|exact Htr| |].
  - intros He. apply Hni. rewrite He. apply (list_elem_of_fmap_2 (fun a => key (alt_vault a))). done.
  - apply Hua; [left|by right].
Qed.

Lemma apart_tail a alts : apart (a :: alts) -> apart alts.
Proof.
  intros [Hnd Hua]. cbn in Hnd. apply NoDup_cons in Hnd as [_ Hnd]. split; [done|].
  intros x y Hx Hy. apply Hua; by right.
Qed.

(** The loop makes exactly the reference's transfers. *)
Lemma pay_alts_spec pv s T alts : Forall (fun a => 0 < alt_bal a) alts ->
  0 <= s <= T -> 0 < T <= imax u64 -> sumZ alt_bal alts <= T ->
  forall w sent n, 1 <= n -> 0 <= sent <= s -> apart alts -> Forall (alt_can_pay w pv) alts ->
  in_proportion alts s T sent n ->
  wp (pay_alts w alts s T sent) (fun '(w', sent') =>
    sent' = sent + sumZ id (alt_takes alts s T sent) /\
    forall k, token_balance w' k = token_balance w k + alts_move alts (alt_takes alts s T sent) k).
Proof.
  intros Hpos Hs HT. induction Hpos as [|a alts Ha Hpos IH]; intros Hsum w sent n Hn Hsent Hap Hcan Hprop.
  { cbn. split; [lia|]. intros k. lia. }
  assert (Hrest : 0 <= sumZ alt_bal alts).
  { apply sumZ_nonneg. intros b Hb. rewrite Forall_forall in Hpos. apply Hpos in Hb. lia. }
  rewrite sumZ_cons in Hsum.
  cbn [pay_alts]. rewrite sat_id by (unfold_ints; lia). destruct (Z.eqb_spec (s - sent) 0) as [Hz|Hz].
  { cbn [wp]. replace s with sent in * by lia.
    assert (Hp1 : in_proportion (a :: alts) sent T sent 1).
    { unfold in_proportion in *. rewrite sumZ_cons in *. nia. }
    destruct (alt_takes_done (a :: alts) T sent 0) as [-> _]; [by constructor|lia..|done|].
    split; [lia|]. intros k.
    destruct (alt_takes_done (a :: alts) T sent k) as [_ ->]; [by constructor|lia..|done|]. lia. }
  inversion Hcan as [|? ? (Hne1 & Hne2 & Hcp) Hcan']; subst.
  pose proof (to_accounting_range _ _ _ (proj1 (proj2 Hcp)) (proj1 (proj2 (proj2 Hcp)))) as Hr.
  set (t := match alts with [] => Z.min (s - sent) (alt_bal a) | _ => alt_bal a * s / T end).
  assert (Htake : 0 <= t <= alt_bal a /\ sent + t <= s /\
    (match alts with
     | [] => Ok (Z.min (s - sent) (alt_bal a))
     | _ => share <- vault_share (alt_bal a) s T ;; Ok (Z.min (Z.min share (alt_bal a)) (s - sent))
     end) = Ok t /\
    alt_takes (a :: alts) s T sent = t :: alt_takes alts s T (sent + t)).
  { destruct alts as [|b alts]; [unfold t; split_and!; try lia; done|].
    destruct (vault_share_eq (alt_bal a) s T) as [Hsh Hle]; try lia.
    pose proof (in_proportion_step _ _ _ _ _ _ (proj1 HT) Hprop) as Hnext.
    assert (sent + alt_bal a * s / T <= s) by (unfold in_proportion in Hnext; nia).
    unfold t. rewrite Hsh. cbn [bind]. rewrite !Z.min_l by lia. split_and!; try lia; done. }
  destruct Htake as (Ht & Hts & Hrun & Htakes). rewrite Hrun, Htakes. cbn [bind]. clear Hrun.
  assert (Hcont : forall w1, Forall (alt_can_pay w1 pv) alts ->
    wp (pay_alts w1 alts s T (sent + t)) (fun '(w', sent') =>
      sent' = sent + t + sumZ id (alt_takes alts s T (sent + t)) /\
      forall k, token_balance w' k = token_balance w1 k + alts_move alts (alt_takes alts s T (sent + t)) k)).
  { intros w1 Hc1. destruct alts as [|b alts]; [cbn; split; [lia|intros; lia]|].
    apply (IH ltac:(lia) w1 (sent + t) (n + 1)); [lia|lia|by eapply apart_tail|done|].
    apply in_proportion_step; [lia|done]. }
  rewrite sumZ_cons. cbn [alts_move]. unfold id at 1. destruct (Z.eqb_spec t 0) as [Ht0|Ht0].
  - eapply wp_mono; [rewrite <- (Z.add_0_r sent) at 1; rewrite <- Ht0; by apply Hcont|].
    intros [w' sent'] [-> Hb]. split; [lia|]. intros k. rewrite Hb, Ht0, Z.mul_0_l, moved_0. lia.
  - destruct (can_pay_take _ _ _ _ _ _ t Hcp) as (w1 & Hf & Htr); [lia|].
    rewrite Hf. cbn [bind]. rewrite Htr. cbn [bind].
    destruct (transfer_moves _ _ _ _ _ _ _ Htr) as (_ & Hbal & _).
    rewrite eval_safe by (arith_side). cbn [bind value aop_fun].
    eapply wp_mono; [apply Hcont; by eapply alts_keep_paying|].
    intros [w' sent'] [-> Hb]. split; [lia|]. intros k. rewrite Hb, Hbal. lia.
Qed.

(** C5: A payout over the primary vault and any number of alternates.  When every
    vault can pay the balance the scan credits it with, the vaults are different
    accounts and their sum fits in a [u64], the call returns and no transfer fails;
    it pays at most the request, and at most what there is, and falls short of it
    by fewer accounting units than there are alternates, so by nothing with one
    alternate or none; the primary vault pays its proportional share rounded down,
    each alternate but the last the same, the last what is left within its
    balance, none more than it holds; no other token account changes. *)
Theorem payout_exact w pv rem reg requested alts total bal :
  0 <= requested <= imax u64 -> pv_amount pv = token_balance w (pv_vault pv) ->
  can_pay w (pv_vault pv) (pv_mint pv) (pv_user pv) (pv_dec pv) bal ->
  scan_alts vault_pda reg rem bal = Ok (alts, total) ->
  Forall (alt_can_pay w pv) alts -> apart alts -> bal + sumZ alt_bal alts <= imax u64 ->
  wp (transfer_from_vaults vault_pda w pv rem reg requested None) (fun '(w', _, sent) =>
    let T := bal + sumZ alt_bal alts in
    let s := Z.min requested T in
    let t0 := bal * s / T in
    let takes := alt_takes alts s T t0 in
    sent = t0 + sumZ id takes /\ sent <= s /\ s - sent <= Z.of_nat (length alts - 1) /\
    0 <= t0 <= bal /\ Forall2 (fun t a => 0 <= t <= alt_bal a) takes alts /\
    forall k, token_balance w' k = token_balance w k
      + moved k (pv_vault pv) (pv_user pv) (t0 * scale_of (pv_dec pv))
      + alts_move alts takes k).
Proof.
  intros Hq Hamt Hcp Hscan Halts Hap Hfit.
  pose proof (to_accounting_range _ _ _ (proj1 (proj2 Hcp)) (proj1 (proj2 (proj2 Hcp)))) as Hr.
  destruct (scan_total _ _ _ _ _ Hscan) as [Hpos Htot]. specialize (Htot ltac:(lia) Hfit).
  assert (Hsum : 0 <= sumZ alt_bal alts).
  { apply sumZ_nonneg. intros b Hb. rewrite Forall_forall in Hpos. apply Hpos in Hb. lia. }
  unfold transfer_from_vaults. rewrite Hamt, (proj1 (proj2 (proj2 Hcp))). cbn [bind from_option].
  rewrite Z.add_0_r, sat_id by (unfold_ints; lia). rewrite Hscan. cbn [bind]. subst total.
  set (T := bal + sumZ alt_bal alts) in *. set (s := Z.min requested T).
  destruct (Z.eqb_spec T 0) as [Hz|Hz].
  { assert (alts = []) as -> by (apply (all_empty alts Hpos); unfold T in Hz; lia).
    cbn [wp]. assert (bal = 0) as -> by (unfold T in Hz; cbn in Hz; lia). cbv zeta.
    assert (Ht0 : 0 * s / T = 0) by (rewrite Z.mul_0_l; apply Zdiv_0_l). rewrite Ht0.
    cbn. split_and!; try lia; [constructor|]. intros k. rewrite moved_0. lia. }
  assert (Hprop : in_proportion alts s T (bal * s / T) 1).
  { unfold in_proportion. replace (T - sumZ alt_bal alts) with bal by (unfold T; lia).
    pose proof (floor_share bal s T ltac:(lia)). lia. }
  assert (H0s : 0 <= bal * s / T <= bal) by (apply mul_div_le; lia).
  assert (Hle : bal * s / T <= s) by (apply Z.div_le_upper_bound; nia).
  destruct (alt_takes_spec alts s T Hpos ltac:(lia) ltac:(lia) (bal * s / T) 1 ltac:(lia) ltac:(lia) Hprop)
    as (T1 & T2 & T3).
  eapply wp_bind, wp_mono; [apply (pay_primary_spec w pv bal s T Hcp); lia|].
  intros [w1 sent] (-> & Hbal1 & Hkeep).
  eapply wp_bind, wp_mono.
  { apply (pay_alts_spec pv s T alts Hpos ltac:(lia) ltac:(lia) ltac:(lia) w1 _ 1); try done; try lia.
    eapply Forall_impl; [exact Halts|exact Hkeep]. }
  intros [w2 sent] [-> Hbal2]. cbn [pay_native wp]. split_and!; try done; try lia.
  intros k. rewrite Hbal2, Hbal1. lia.
Qed.
End PayoutLaws.

(** Two vaults: 600 dollars in a six-decimal mint, 300 in a nine-decimal one. *)
Definition sample_pda (m : Pubkey) : Pubkey := m - 90.
Definition sample_world : Ledger :=
  mkLedger {[10 := (100, 600000000); 11 := (101, 300000000000);
             20 := (100, 0); 21 := (101, 5)]} {[100 := 6; 101 := 9]} {[1 := 50]}.
Definition sample_primary : Primary := mkPrimary 10 100 20 600000000 6.
Definition sample_alt_mint : AccountInfo := mkAccount 101 (replicate 44 0 ++ [9]) false false.
Definition sample_alt_vault : AccountInfo :=
  mkAccount 11 (replicate 64 0 ++ to_le_bytes 8 300000000000) false true.
Definition sample_rem : list AccountInfo :=
  [sample_alt_mint; sample_alt_vault; mkAccount 21 [] false true].

Lemma sample_can_pay : can_pay sample_world 10 100 20 6 600000000.
Proof. repeat (split; [vm_compute; (split; discriminate) || reflexivity || discriminate|]). reflexivity. Qed.

Lemma sample_alt_can_pay :
  Forall (alt_can_pay sample_world sample_primary)
    [mkAlt sample_alt_mint sample_alt_vault (mkAccount 21 [] false true) 300000000 9].
Proof.
  constructor; [|done]. split; [done|]. split; [done|].
  repeat (split; [vm_compute; (split; discriminate) || reflexivity || discriminate|]). reflexivity.
Qed.

Lemma sample_apart : apart
  [mkAlt sample_alt_mint sample_alt_vault (mkAccount 21 [] false true) 300000000 9].
Proof.
  split; [apply NoDup_singleton|].
  intros a b ->%list_elem_of_singleton ->%list_elem_of_singleton. discriminate.
Qed.

Lemma payout_exact_witness : exists w',
  transfer_from_vaults sample_pda sample_world sample_primary sample_rem [100; 101] 500000000 None
    = Ok (w', None, 500000000) /\
  token_balance w' 20 = 333333333 /\ token_balance w' 21 = 166666667005.
Proof.
  destruct (wp_elim _ _ (payout_exact sample_pda sample_world sample_primary sample_rem [100; 101]
    500000000 [mkAlt sample_alt_mint sample_alt_vault (mkAccount 21 [] false true) 300000000 9]
    900000000 600000000 ltac:(vm_compute; split; discriminate) eq_refl sample_can_pay
    ltac:(vm_compute; reflexivity) sample_alt_can_pay sample_apart
    ltac:(vm_compute; discriminate))) as ([[w' n] s] & Hrun & Hs & _ & _ & _ & _ & Hbal).
  exists w'. cbv zeta in Hbal. pose proof (Hbal 20) as H20. pose proof (Hbal 21) as H21.
  assert (s = 500000000) as -> by (rewrite Hs; vm_compute; reflexivity).
  assert (n = None) as -> by (revert Hrun; vm_compute; congruence).
  split; [exact Hrun|]. rewrite H20, H21. split; vm_compute; reflexivity.
Defined.

(** Three vaults with one accounting unit each and a request of two: the rounded
    shares are zero, the last vault pays its unit, and one of the two is not paid,
    although the pool holds it. *)
Definition unit_mint (m : Pubkey) : AccountInfo := mkAccount m (replicate 44 0 ++ [6]) false false.
Definition unit_vault (v : Pubkey) : AccountInfo :=
  mkAccount v (replicate 64 0 ++ to_le_bytes 8 1) false true.
Definition unit_world : Ledger :=
  mkLedger {[10 := (100, 1); 11 := (101, 1); 12 := (102, 1); 20 := (100, 0); 21 := (101, 0);
             22 := (102, 0)]} {[100 := 6; 101 := 6; 102 := 6]} {[1 := 50]}.

Lemma two_alternates_short : exists w',
  transfer_from_vaults sample_pda unit_world (mkPrimary 10 100 20 1 6)
    [unit_mint 101; unit_vault 11; mkAccount 21 [] false true;
     unit_mint 102; unit_vault 12; mkAccount 22 [] false true] [100; 101; 102] 2 None
    = Ok (w', None, 1).
Proof. eexists. vm_compute. reflexivity. Qed.
