(* ===== verification/Oracle.v ===== *)
(** * Oracle: reading a price account

    [svm/programs/quid/src/etc.rs]: the feed tables ([get_hex], [get_account]),
    the hex decoding of a feed id, [fetch_price_inner] with its freshness and
    confidence gates, and [fetch_multiple_prices].

    The ticker tables are parameters (lookups tried in the source's order), and so
    is the double-precision scaling of a mantissa and its exponent to
    micro-dollars, [scaled], whose [powi] the language leaves unspecified to the
    last bit; its conversion by [as u64] saturates. *)
From Stdlib Require Import Ascii String.
From S2P Require Import Prelude Actuary Pool Chain.
Open Scope list_scope.

Definition MAX_PRICE_AGE : Z := 300.
Definition MAX_CONFIDENCE_BPS : Z := 500.

(** A string literal is its bytes. *)
Definition bytes_of (s : string) : list Z :=
  map (fun c => Z.of_N (N_of_ascii c)) (list_ascii_of_string s).

(** The native ticker, and the feed and account the source names for it. *)
Definition SOL_TICKER : list Z := bytes_of "SOL".
Definition SOL_HEX : list Z :=
  bytes_of "0xef0d8b6fda2ceba41da15d4095d1da392a0d2f8ed0c6c7bc0f4cfac8c280b56d".
Definition SOL_ACCOUNT : list Z := bytes_of "7UVimffxr9ow1uXYxsr4LHAcV58mLzhmwaeKvJ1pjLiE".

(** ** Decoding a feed id *)
Definition hex_digit (c : Z) : option Z :=
  if (48 <=? c) && (c <=? 57) then Some (c - 48)
  else if (97 <=? c) && (c <=? 102) then Some (c - 87)
  else if (65 <=? c) && (c <=? 70) then Some (c - 55)
  else None.

(** [u8::from_str_radix(s, 16)] on one or two characters: a leading plus sign
    followed by a digit is accepted. *)
Definition u8_from_hex (s : list Z) : option Z :=
  match s with
  | [c] => hex_digit c
  | [c1; c2] =>
      if c1 =? 43 then hex_digit c2
      else match hex_digit c1, hex_digit c2 with
           | Some a, Some b => Some (16 * a + b)
           | _, _ => None
           end
  | _ => None
  end.

Definition strip_0x (s : list Z) : list Z :=
  match s with
  | 48 :: 120 :: s' => s'
  | _ => s
  end.

(** [chunks(2)], at most 32 of them, into an array that starts as zeros. *)
Fixpoint decode_chunks (n : nat) (s : list Z) : outcome (list Z) :=
  match n with
  | O => Ok []
  | S n =>
      match s with
      | [] => Ok (replicate (S n) 0)
      | c1 :: rest =>
          let chunk := match rest with c2 :: _ => [c1; c2] | [] => [c1] end in
          b <- ok_or (u8_from_hex chunk) UnknownSymbol ;;
          l <- decode_chunks n (drop 1 rest) ;;
          Ok (b :: l)
      end
  end.

Definition decode_feed (hex : list Z) : outcome (list Z) := decode_chunks 32 (strip_0x hex).

(** Two's complement reading of an unsigned field. *)
Definition as_i64 (x : Z) : Z := cast i64 x.
Definition i32 : ity := Ity (-2147483648) 2147483647.

Section Feeds.
Variable hex_maps account_maps : list (list Z -> option (list Z)).
Variable parse_key : list Z -> option Pubkey.
Variable scaled : Z -> Z -> Z.

Fixpoint first_some {A B} (l : list (A -> option B)) (a : A) : option B :=
  match l with
  | [] => None
  | f :: l => match f a with Some b => Some b | None => first_some l a end
  end.

Definition get_hex (t : list Z) : option (list Z) :=
  if bool_decide (t = SOL_TICKER) then Some SOL_HEX else first_some hex_maps t.

Definition get_account (t : list Z) : option (list Z) :=
  if bool_decide (t = SOL_TICKER) then Some SOL_ACCOUNT else first_some account_maps t.

Definition fetch_price_inner (t : list Z) (account_info : option AccountInfo) (max_age now : Z)
  : outcome (Z * Z) :=
  hex <- ok_or (get_hex t) UnknownSymbol ;;
  account <- ok_or account_info NoPrice ;;
  require (bool_decide (101 <= length (data account))%nat) NoPrice ;;
  feed_id <- slice (data account) 41 73 ;;
  expected_bytes <- decode_feed hex ;;
  require (bool_decide (feed_id = expected_bytes)) NoPrice ;;
  pb <- slice (data account) 73 81 ;;
  let price := cast i64 (from_le_bytes pb) in
  cb <- slice (data account) 81 89 ;;
  let confidence := from_le_bytes cb in
  eb <- slice (data account) 89 93 ;;
  let exponent := cast i32 (from_le_bytes eb) in
  tb <- slice (data account) 93 101 ;;
  let publish_time := cast i64 (from_le_bytes tb) in
  age <- i64{ now - publish_time } ;;
  age <- chk i64 (Z.abs age) ;;
  require (age <=? max_age) NoPrice ;;
  let price_abs := Z.abs price in
  conf_ratio_bps <- (if 0 <? price_abs then u64{ confidence * BPS / price_abs }
                     else u64{ MAX_CONFIDENCE_BPS + 1 }) ;;
  require (conf_ratio_bps <=? MAX_CONFIDENCE_BPS) PriceUncertain ;;
  m <- u64{ conf_ratio_bps * 100 / MAX_CONFIDENCE_BPS } ;;
  conf_mult <- i64{ 100 + [Z.min 100 (cast i64 m)] } ;;
  let adjusted_price := sat u64 (scaled price exponent) in
  require (0 <? adjusted_price) NoPrice ;;
  Ok (adjusted_price, conf_mult).

Definition fetch_price_with_confidence (t : list Z) (a : option AccountInfo) (now : Z) :=
  fetch_price_inner t a MAX_PRICE_AGE now.

Definition fetch_price (t : list Z) (a : option AccountInfo) (now : Z) : outcome Z :=
  '(price, _) <- fetch_price_with_confidence t a now ;; Ok price.

(** [trim_end_matches('\0')]. *)
Definition trim_end_nul (l : list Z) : list Z :=
  rev ((fix go l := match l with 0 :: l' => go l' | _ => l end) (rev l)).

Fixpoint fetch_multiple_prices (positions : list Stock) (rem : list AccountInfo) (now : Z)
  : outcome (list Z) :=
  match positions with
  | [] => Ok []
  | pod :: positions =>
      let t := trim_end_nul (ticker pod) in
      k <- ok_or (get_account t) UnknownSymbol ;;
      pubkey <- ok_or (parse_key k) UnknownSymbol ;;
      acct <- ok_or (List.find (fun a => key a =? pubkey) rem) Tickers ;;
      p <- fetch_price t (Some acct) now ;;
      ps <- fetch_multiple_prices positions rem now ;;
      Ok (p :: ps)
  end.

End Feeds.

(** * Theorems *)

(** A price account: a header, the feed id, then the four fields and the rest. *)
Definition price_account (k : Pubkey) (hdr feed : list Z) (price conf expo time : Z)
    (tail : list Z) : AccountInfo :=
  mkAccount k (hdr ++ feed ++ to_le_bytes 8 price ++ to_le_bytes 8 conf ++ to_le_bytes 4 expo
               ++ to_le_bytes 8 time ++ tail) false false.

Lemma slice_at d l m r a b : d = l ++ m ++ r -> length l = a -> (a + length m = b)%nat ->
  slice d a b = Ok m.
Proof.
  intros -> Hl Hm. rewrite slice_ok by (rewrite !length_app; lia).
  rewrite drop_app_length' by lia. rewrite take_app_length' by lia. done.
Qed.

(** Reading a field back at its own width. *)
Lemma field_signed n t x : 256 ^ Z.of_nat n = imax t - imin t + 1 ->
  in_range t x -> cast t (from_le_bytes (to_le_bytes n x)) = x.
Proof.
  intros Hw Hx. rewrite le_decode_encode, Hw. unfold cast.
  rewrite Zminus_mod_idemp_l. apply cast_id. done.
Qed.

Lemma field_u64 x : in_range u64 x -> from_le_bytes (to_le_bytes 8 x) = x.
Proof.
  intros. rewrite le_decode_encode. apply Z.mod_small. rewrite pow256_8. unfold_ints. lia.
Qed.

Lemma decode_chunks_length n : forall s l, decode_chunks n s = Ok l -> length l = n.
Proof.
  induction n as [|n IH]; intros s l Hl; cbn [decode_chunks] in Hl; [by injection Hl as <-|].
  destruct s as [|c s]; [injection Hl as <-; cbn; by rewrite length_replicate|].
  inv_ok Hl. cbn. f_equal. by eapply IH.
Qed.

(** Where the fields of a price account are. *)
Lemma price_account_layout k hdr feed price conf expo time tail :
  length hdr = 41%nat -> length feed = 32%nat ->
  let d := data (price_account k hdr feed price conf expo time tail) in
  (101 <= length d)%nat /\ slice d 41 73 = Ok feed /\ slice d 73 81 = Ok (to_le_bytes 8 price) /\
  slice d 81 89 = Ok (to_le_bytes 8 conf) /\ slice d 89 93 = Ok (to_le_bytes 4 expo) /\
  slice d 93 101 = Ok (to_le_bytes 8 time).
Proof.
  intros Hh Hf. cbn [data price_account].
  split; [rewrite !length_app, !to_le_length; lia|].
  set (p := to_le_bytes 8 price). set (c := to_le_bytes 8 conf).
  set (e := to_le_bytes 4 expo). set (t := to_le_bytes 8 time).
  split_and!; [apply (slice_at _ hdr feed (p ++ c ++ e ++ t ++ tail))
    |apply (slice_at _ (hdr ++ feed) p (c ++ e ++ t ++ tail))
    |apply (slice_at _ (hdr ++ feed ++ p) c (e ++ t ++ tail))
    |apply (slice_at _ (hdr ++ feed ++ p ++ c) e (t ++ tail))
    |apply (slice_at _ (hdr ++ feed ++ p ++ c ++ e) t tail)];
    rewrite <- ?app_assoc, ?length_app; subst p c e t; rewrite ?to_le_length; (done || lia).
Qed.

Section Reads.
Variable hex_maps : list (list Z -> option (list Z)).
Variable scaled : Z -> Z -> Z.

(** What reading a price account returns, on every branch.  The account is
    accepted exactly when it is fresh, its confidence band is within 5% of the
    price and the scaled price is positive; the multiplier grows from 100 to 200
    with the band.  The account's key and owner play no part: any account holding
    these bytes is read, whoever wrote it. *)
Theorem price_account_read t hex feed k hdr price conf expo time tail max_age now :
  get_hex hex_maps t = Some hex -> decode_feed hex = Ok feed -> length hdr = 41%nat ->
  in_range i64 price -> in_range u64 (conf * BPS) -> in_range i32 expo -> in_range i64 time ->
  in_range i64 (now - time) -> in_range i64 (Z.abs (now - time)) ->
  fetch_price_inner hex_maps scaled t
    (Some (price_account k hdr feed price conf expo time tail)) max_age now =
    if max_age <? Z.abs (now - time) then Err NoPrice
    else if (price =? 0) || (MAX_CONFIDENCE_BPS <? conf * BPS / Z.abs price) then Err PriceUncertain
    else if scaled price expo <=? 0 then Err NoPrice
    else Ok (Z.min (imax u64) (scaled price expo),
             100 + conf * BPS / Z.abs price * 100 / MAX_CONFIDENCE_BPS).
Proof.
  intros Hhex Hfeed Hhdr Hp Hc He Ht Hage Habs.
  destruct (price_account_layout k hdr feed price conf expo time tail Hhdr
    (decode_chunks_length _ _ _ Hfeed)) as (Hl & H1 & H2 & H3 & H4 & H5).
  assert (in_range u64 conf) as Hc' by (unfold BPS in Hc; unfold_ints; lia).
  unfold fetch_price_inner. rewrite Hhex. cbn [ok_or bind].
  rewrite bool_decide_true by done. cbn [require bind].
  rewrite H1, Hfeed. cbn [bind]. rewrite bool_decide_true by done. cbn [require bind].
  rewrite H2, H3, H4, H5. cbn [bind].
  rewrite !field_signed, field_u64 by (reflexivity || done).
  rewrite eval_safe by (cbn [safe value aop_fun]; split_and!; done). cbn [bind value aop_fun].
  rewrite chk_ok by done. cbn [bind]. unfold require. rewrite Z.leb_antisym.
  destruct (Z.ltb_spec max_age (Z.abs (now - time))); [done|]. cbn [negb bind].
  unfold BPS, MAX_CONFIDENCE_BPS in *.
  destruct (Z.eqb_spec price 0) as [->|Hnz].
  { cbn. done. }
  rewrite (proj2 (Z.ltb_lt 0 (Z.abs price))) by lia.
  assert (0 <= conf * 10000 / Z.abs price <= conf * 10000) as Hq.
  { rewrite <- quot_div by (unfold_ints; lia). apply quot_le_self; unfold_ints; lia. }
  rewrite eval_safe.
  2: { cbn [safe value aop_fun]. rewrite quot_div by (unfold_ints; lia). unfold_ints. repeat split; lia. }
  cbn [bind value aop_fun orb]. rewrite quot_div by (unfold_ints; lia). rewrite Z.leb_antisym.
  destruct (Z.ltb_spec 500 (conf * 10000 / Z.abs price)); [done|]. cbn [negb bind].
  set (q := conf * 10000 / Z.abs price) in *.
  assert (0 <= q * 100 / 500 <= 100) as Hm by (split; [apply Z.div_pos|apply Z.div_le_upper_bound]; lia).
  rewrite eval_safe.
  2: { cbn [safe value aop_fun]. rewrite quot_div by lia. unfold_ints. repeat split; lia. }
  cbn [bind value aop_fun]. rewrite quot_div, cast_id, Z.min_r by (unfold_ints; lia).
  rewrite eval_safe by (cbn [safe value aop_fun]; unfold_ints; lia). cbn [bind value aop_fun].
  unfold sat. destruct (Z.ltb_spec 0 (Z.max (imin u64) (Z.min (imax u64) (scaled price expo))));
    destruct (Z.leb_spec (scaled price expo) 0); unfold u64 in *; cbn [imin imax] in *; try lia; cbn [bind]; [|done].
  do 2 f_equal. lia.
Qed.
End Reads.

(** An account written by anyone, at any key, that claims SOL trades at 150
    dollars with a 15 cent band. *)
Definition written_by_anyone (k : Pubkey) : AccountInfo :=
  price_account k (replicate 41 0) (match decode_feed SOL_HEX with Ok l => l | _ => [] end)
    15000000000 15000000 (-8) 990 [].

Lemma price_account_read_witness :
  fetch_price_inner [] (fun p _ => p / 100) SOL_TICKER (Some (written_by_anyone 666)) 300 1000
  = Ok (150000000, 102).
Proof.
  unfold written_by_anyone. rewrite (price_account_read [] _ SOL_TICKER SOL_HEX).
  - vm_compute; reflexivity.
  - vm_compute; reflexivity.
  - vm_compute; reflexivity.
  - vm_compute; reflexivity.
  - vm_compute; split; discriminate.
  - vm_compute; split; discriminate.
  - vm_compute; split; discriminate.
  - vm_compute; split; discriminate.
  - vm_compute; split; discriminate.
  - vm_compute; split; discriminate.
Defined.
