(* ===== verification/Tables.v ===== *)
(** * Tables: the tickers this build ships

    [svm/programs/quid/src/etc.rs]: the feed ids and price accounts of the five
    ticker classes, the xStock mints, and the lookups over them
    ([deliverable_mint], [is_deliverable]).  A perfect-hash map is the association
    list of its entries, in the source's order; commented-out entries are absent.
    The theorem joins the tables to the price reader of the oracle file. *)
From Stdlib Require Import Ascii String.
From stdpp Require Import gmap.
From S2P Require Import Prelude Actuary Pool Chain Oracle.
Open Scope list_scope.

Definition XSTOCK_MINTS : list (string * string) := [
  ("A", "Xs5drDwMFxkcChq5cU49EX2oTQUVWQ64qsSL5bVQoS3");
  ("AAPL", "XsbEhLAtcf6HdfpFZ5xEMdqW8nfAvcsP5bdudRLJzJp");
  ("ABBV", "XswbinNKyPmzTa5CskMbCPvMW6G5CMnZXZEeQSSQoie");
  ("ABNB", "XscSc1zjbVizEnhCzzehJ9fzztm3WRKdn9pjmriKDuN");
  ("ABT", "XsHtf5RpxsQ7jeJ9ivNewouZKJHbPxhPoEy6yYvULr7");
  ("ADBE", "XsDZMGEU8zadWFCkTtPBoPWYcUX3JHVmghnwf2Mve2q");
  ("ADI", "Xs3CytsvJshAYy1TQjq2o2yVWCyEGinNpvkB6f3Qs31");
  ("ADM", "XsK6kBQe7QDQVmW1PupBZCc4oBpPbsRdPgvqCqvfCXX");
  ("ADP", "XsCBDrb61PyQqTJp7uHhD4vj1MkD5UK6jpxUBbgG7i1");
  ("ADSK", "Xs2jBYo5VxMmuNjpBnMShsLB26dtK75bt42ag93ZdHU");
  ("AEE", "XssLKajmwH79hK14cqp65fFg2Eyteh23nmSaJpKRmzx");
  ("AEP", "XsP8GpS93XjmDg5oVVCVqZsffkWadVCqZYp4BFFJnJm");
  ("AFL", "XsQ2JJPzG5EMvkRPSshA1mmpVvGPKBNYQmvuEnzpJhZ");
  ("AIG", "XsTg4SHooxeYYvQK5Q2wdKBKY46UdtZkF2LfNwbHEtu");
  ("AIZ", "Xs7U7QD6amUpjuEZ1VM3rx5TSrKtJ3r7xU1aRcTHhw8");
  ("AJG", "XsYka4UhXnzoqmdPCfqX8EZBQcN2MkrG4gJt4SxGvsN");
  ("AKAM", "XsJW9EhZBVQawVj1aGFweU2LwQjZCvyHVYb3vXq8s99");
  ("ALAB", "XsuJLDjTibUFnh1gNgnXeDSjQTVffnaWFKzUht5rVvc");
  ("ALB", "XsGea4488p7ydWQTQMYxtvCXDJiAJwgt4HsoKiKrGa3");
  ("ALGN", "XsmMYEkQRXZ9CodFfqGEwNvtqVZdsDLHoYqPVm2EpHX");
  ("ALL", "Xs1kbMkmahb44LPLLdjscSYZ4c2HUu4WNfgk8P7ndQf");
  ("AMAT", "XsQZdaWUAGC4R3fgD2N1fupKvJfJq6YM51ccnsLUWFA");
  ("AMD", "XsXcJ6GZ9kVnjqGsjBnktRcuwMBmvKWh8S93RefZ1rF");
  ("AME", "XsVNxwvuQghf6TYBmCck75ddYD3KiWozujR8C67bPXC");
  ("AMGN", "XsgKwBMbv8LDzEYRgbKtyqsub6QB56PQVzgTGbiGaNe");
  ("AMP", "XsqWwT9y8ajA8LXQEy7msQmM6ExkP8Va3XYcr7oVhXg");
  ("AMT", "XsvYPZkrDDg7259oDv5E76HSmeLWgHPgNEQ44KVbJJU");
  ("AMZN", "Xs3eBt7uRfJX8QUs4suhyU8p2M6DoUDrJyWBa8LLZsg");
  ("ANET", "XsrsM2RgtYxXqxmy4iWgxQJUkkHG1U5wzi74sVNUW8m");
  ("APA", "Xs5b8FFins32GgTH2FURV3Y873yA85jc4kZ6r8H9YyR");
  ("APD", "XsdeDQyocwoXYq4rvm3eAxN4uDUqww78i9nKLABhp6h");
  ("APH", "XsvqNba1k4wF5ZEZ6Nrx8AXUDkKzAFuj4HaVDEemyYH");
  ("APLD", "Xs2ZEuDVSQkNnXHqfqEYKVShLHpecyKfdfpEYwiHtQE");
  ("APO", "XsosRSUc3n5pod3YNNyQ7go6811xWYd3YME2uEQohEx");
  ("APP", "XsPdAVBi8Zc1xvv53k4JcMrQaEDTgkGqKYeh7AYgPHV");
  ("ARM", "XswUFSYE5CWsZM3X3yo6e2pZvxcAzx912DonGvgUFka");
  ("ASML", "XshuHQ6o6SVpUNawvnnTMxsZ4tacZsNgVCLorv7TkFq");
  ("ATO", "Xsz1UqWKSjB4X7zcvXV6XVL5eBA2YaRqEjXZVP6GXwZ");
  ("AVGO", "XsgSaSvNSqLTtFuyWPBhK9196Xb9Bbdyjj4fH3cPJGo");
  ("AVY", "XsAfpyk9U7qUZKq9STpXyzDaoQjGRe6Yqo7TYebpxkx");
  ("AWK", "XsUQA7YBvJyBXDrQy23WNydKWdhVCPRVMxEF6MgXytd");
  ("AXON", "Xshh7vNfHqyqbnfuvhn8o53wXcuUbBYKASPq8DEHPbx");
  ("AZN", "Xs3ZFkPYT2BN7qBMqf1j1bfTeTm1rFzEFSsQ1z3wAKU");
  ("AZO", "XsfLtqmidw4ouMrdWvH5usSs3r77Usm6rXGygxhRTjz");
  ("BA", "XsBcnKnZMsPaerLiUQ4eMFy4Fjysot4RugYXYDjiqCP");
  ("BAC", "XswsQk4duEQmCbGzfqUUWYmi7pV7xpJ9eEmLHXCaEQP");
  ("BALL", "Xsy9RdWC26fp8c84BB2SD4eE74vG1478YKjxAwjRRQY");
  ("BBY", "Xsac5qkc4B254kpnb2qneeu6qsNX1fPtACeuNEiXWMR");
  ("BDX", "Xs3yrczxLidKAArdTKepU5NV8KUmwFM11NMyYbGqWDZ");
  ("BE", "XsmGSEqT6VXpVis3aVBDxaNwPgHNXbkjkVUCncsLkNB");
  ("BIIB", "Xsv9aoiWTdvBzVpvetL7LBkuS9xvceDdbLkfqMbTVDx");
  ("BITX", "XsraCsjDB8cYn672MZSxCzZBhrodEPXD7pWd5EiRUhm");
  ("BKR", "XsBE7iAzaJEBpSwG5JZ7zQTWNgTaerweBy7nJCachaJ");
  ("BMNR", "XsrBCwaH8c46xiqXBChzobgufRKxQxAWUWbndgBNzFn");
  ("BMY", "Xsa3dm4UT6TdzPJV75UiuGUeGywYUnfSNhsV5nHPZEu");
  ("BR", "XsvEMALzsRVnPED4KEAd7pivT5ho9vgqzqZxQxNBkWW");
  ("BRO", "Xs9hw3a4acJr629NUzDbEC376rv3AhfmwvXm9BNnD9G");
  ("BSX", "Xs7vm4sZj1LiNLvnxUCyUTuxRMTt4WGJfdbCASTYhN9");
  ("BWA", "Xs34rXKEs63rPs3qWZeAubRmSVJNG5hSy6Ubt7Qag2F");
  ("BX", "XsYtTeabUTJnkxWrHZUChwcKpNq6BbqPbWs9ZgLk4Xa");
  ("C", "XsM1FstDXh1pA4uNXzvJdAop9SRJnnRdWt2o8A2mLpN");
  ("CAH", "XsrstNGy7STAR22txNru2ahbEwdBadFJwYRCBNEQYBS");
  ("CARR", "XsvQh2FdVWMpbNsnYAbDNg38GtAWBEjcweJR42yRTgy");
  ("CAT", "XsRvd1meWQ9kW1SrZPa1jokQqmBoPWWjd6wGTgdp5E6");
  ("CBRE", "XsTJV8FFx22kv41kMcuHawx8eoDybUnLxiiEscw317x");
  ("CCI", "XsbPN4VFi14geuC8D2Tb2u37kQM83VSkfMUyvXsWWoC");
  ("CDNS", "XsrB8RyBpbMWm8zCQutdT2n95BgNj4rJFfxuhHFjk2v");
  ("CDW", "XsMmhKdFMiFdNFBcznYHx2zAU1SLtMnUL2G6bRzPpaY");
  ("CEG", "Xssu2cDLdZXZYrq17frTVrb3meumRCAzEf7pXyxoWVN");
  ("CF", "XsH9yfX7GuRbCDnNvD4A7x8gvMc8sc8Htz1fQd7VYWw");
  ("CFG", "Xsp9avBowUQeip8NfLXcwfw5VT74kc72BafgYPXN74a");
  ("CHD", "Xs712gQLCYkFSYJwdu3pE5itNfyKwsXQ1HEGZF8Esc5");
  ("CHRW", "Xsm5zBfHeiGWjraGLwT8DwJhYGjUfhESs7QANcYVp8E");
  ("CHTR", "XstvDoqmcKjMHZP8FoWy3Ee2EkCf4KZgqNtg21WFW3X");
  ("CI", "XsGfYyioN9bfk6M6RGKvucDq8grQehqkBz8ziEtT124");
  ("CINF", "XsNufzbQz3zzhuGTSBi73Rds6wo1ghjn74ooK7ZbLVX");
  ("CL", "XsWzjAeMsR9pMX1aKkq7uDKpr11daUHkmjXya15yCqd");
  ("CLX", "XshmkFbMrRMtVb2HoJw1nc9jGMKNjTWcutT86YpMbKi");
  ("CMCSA", "XsvKCaNsxg2GN8jjUmq71qukMJr7Q1c5R2Mk9P8kcS8");
  ("CME", "Xsx234fZF5KMZ5catYi7m9P682Pk9TWWHF5jAfYGZJk");
  ("CMG", "XsR1ktNCRYDoDNxhaSxF6NX2HyT4ACSQBgPRLpXTWmm");
  ("CMI", "XsqZ16VmoeszDniTfGTnwPBMv7j7uSDArddziagHWit");
  ("CMS", "Xs6Udev3M1atxRjjXCjAg24BdjYuLs6Qj7eTh7XjEjW");
  ("CNC", "XsegJtRFtvC3qqhNYdN2QXxumd2fjvWQmithQZ33ehS");
  ("CNP", "Xsx9i1A6e4xc9r5Gxxy4uZV4YSmwAXBJScvGLRv4nH2");
  ("COF", "Xstd4ems8vhfGwTngpXCzgnSvJ4oD7E5gExUue2KEZX");
  ("COIN", "Xs7ZdzSHLU9ftNJsii5fCeJhoRWSC32SQGzGQtePxNu");
  ("COO", "XsWetupD7QGe8e5fXsJAPHYFXFTUdYVjT44hJMsVDtY");
  ("COR", "Xsst4VThLi3nvYTsNCVwJi1z23LfXrdyKmhArkrSn1n");
  ("CPAY", "XsPtqd1RVDcZzSmeVwY253J4EHVUqMSrR9FcFmjZjqq");
  ("CPNG", "XsoVbMATH8hMemisZZvGCc9YEkve3Yiirr2VtinKTuw");
  ("CPRT", "XshHba6o5aAUPJFL19gmvSn4KRk6N44JVgiFt6UoRsB");
  ("CPT", "XsvoRXtZZfwvkLhp4qKPR9B9mcbuWakDUWnPszYw2BT");
  ("CRCL", "XsueG8BtpquVJX9LVLLEGuViXUungE6WmK5YZ3p3bd1");
  ("CRM", "XsczbcQ3zfcgAEt9qHQES8pxKAVG5rujPSHQEXi4kaN");
  ("CRWD", "Xs7xXqkcK7K8urEqGg52SECi79dRp2cEKKuYjUePYDw");
  ("CRWV", "Xs3trfdPXSZuxBJsgau6HRfu8SdrCirkwHpPNgSpJz9");
  ("CSCO", "Xsr3pdLQyXvDJBFgpR5nexCEZwXvigb8wbPYp4YoNFf");
  ("CSGP", "XsJH1qPyJgbJiYo2KZXNirCQxC3QqQgYE1iNHY3Ecm2");
  ("CSX", "XskJzVZDKvqm999PGat2ifznPVmmDXn4Zi1LZ7Y5CVr");
  ("CTAS", "XszBTLtg8oMmEWsZHbJJwViiB6unNh2ei1e6miArqps");
  ("CTSH", "XsMNmV7wVizphwXgMtXTVhLDpqmKPdfoYPK3JTXXnYW");
  ("CTVA", "XsJXYLby91CWhGhTXds9oxjoc8EdsLy2iuxmq55U1Y3");
  ("CVS", "XsKWyokwxJfb5aVBfDJYGte4wk2NPMNFo6SivouPeSy");
  ("CVX", "XsNNMt7WTNA2sV3jrb1NNfNgapxRF5i4i6GcnTRRHts");
  ("D", "XsiYzgRPqPjAaJjpDMo2CaQ7c9khuCwD7Hj1po2dxSj");
  ("DAL", "XsQVuhV5fBEb3b8TauFuRimcXSJdVrKqFgQTVqLZiq9");
  ("DASH", "XsuW1yxtbifjEYojFLmoavTWBT7hsuUXXeReAWK9X91");
  ("DDOG", "XsQJQHNMLiZCBHgJfq2yK95BFraouUdSspv1aD8jCgQ");
  ("DE", "Xsh3Lt6pLpH65udstiFuZThJ6gyQTL6ryVXtNwEy5zd");
  ("DECK", "XsbahiFKw3f3pgsAwREvQZAdERbV1NGUjWnkzUaBz91");
  ("DELL", "Xsu7Tc5J2fVUE4H5vYAiSr34cvLJeCsYPMjAYnayQn6");
  ("DFDV", "Xs2yquAgsHByNzx68WJC55WHjHBvG9JsMB7CWjTLyPy");
  ("DG", "Xsuex5gGigmPKMs6hsYpHbcg8HwBbBdWkGKub9MQbea");
  ("DGX", "XsFyCPFNa7os3PvzuYQJcpws9WQS6bci2W8zqesHwPN");
  ("DHI", "XsiNAvTHpvygKjMqb8Hz5Nqeo8NTAsWzT6DYLH287FA");
  ("DHR", "Xseo8tgCZfkHxWS9xbFYeKFyMSbWEvZGFV1Gh53GtCV");
  ("DIS", "Xsg93jDV656ULQ5u9yT2x5DS9b4xGD8aDCtfESSW6Bb");
  ("DLR", "Xstp4CYu1181rhhi7w32Lj6wQZ2VDjFhQNKZwZARk5G");
  ("DLTR", "XsPWGRNQF1Thif9qaadTNtF8xfHTb8sjvw1NC46hkED");
  ("DOC", "XsgtMhyQgTevrWQNyLpHxwQeRAeaxQEtoiV1pNyxmfy");
  ("DOV", "XsXG3ytqNM8wMwxbZnbZjY3wFua4nU58ZR6Lwr5wSDp");
  ("DOW", "XsKWMeTN8wmhrkoWKy6tXAj6476Guj8zonzQu7jivqP");
  ("DRI", "XsTNaRrDQtFJi56TAQbmk6tHzWQvihWGoafKSJzbJdY");
  ("DTE", "XsVK4gk4X1ANBSKF9DGjy9WseKhBfMUuEmP8v7J8u2G");
  ("DUK", "XswU7kXY6dGgMqpiWW2jKSYVZMsCWv5LKcLaFBgYzPv");
  ("DVN", "Xs8WNVWbYNsHsqEu9WTb9AazMfG7wFxFat11V6mVK1x");
  ("DXCM", "Xsspestq9YiZofYG2pvuHgYM1aKdRNocveBodzrGjbg");
  ("ECL", "XsPPAW5wuUa1ALN1NstEkUAajbwycXTRxtWoLfFriy4");
  ("ED", "XsESyqE7kRmE1RVQDmo4aiMGMXogeY1Sdo8FQKwAmco");
  ("EFX", "Xs3dfAaDSQMVrDcEVbxypK4UeXhCbDBK2AgAWCHwqmq");
  ("EG", "XsvYonMjAxFXYW6PKBz9jFEuvX6xAhm9BifzxgLzurb");
  ("EIX", "Xsm4TwT5UtCCjkcrj2eMZDPNCTdBeJacMmRCrxoXpZ8");
  ("EL", "XsTisPuTVM8VVHagEyeGR7CBt6TUD93AEhptETHWMsd");
  ("ELV", "XsJbC4TFupSLpxNwsfq9o1BB5tdTT7eZ3YNerVvE49H");
  ("EMR", "Xskqq9tKh2gc1PBJHf2q6jMgBpt3AojT3HVkWhjoY5h");
  ("EOG", "XsfBx5h3LBhypgy7goD4i8nAfLU8ZZ5QBSQUtASRVox");
  ("EQIX", "XsBo6pg8N9kk7YnL69NnBBSZBWDkF1gHWjTAXpYuAVo");
  ("EQT", "XsvS1ZY358vAjNJ7s3fz13s64ZqYF36rgUDR8yVJkuA");
  ("ES", "XsgPX8MYf23yPRv9DrT5ofHn4mThBZgkhboLHz5uSx7");
  ("ESS", "XsZsYW1U5exCzHqwsxwjTDABR2SW9MzKccXSkAgx47N");
  ("ETR", "XssZsJPrzg7n9Sc1stfPcB4vygcVeMfz5uZK2gPwNdv");
  ("EVRG", "XswxMcsrN9WpDhX7wDf53ZFGWNhcWYKSa6UY26AgpET");
  ("EW", "XsSfT8eYeR2NqYFwCNLRNfDARHUTXvLeSnGbw2UKqrA");
  ("EXC", "XswJRi3vQhng81dGRXnaUjpyCzM89pwvYyHveT2xzEB");
  ("EXE", "XsodbeGRpfyAzq1MMqZu7u1vCYNKNDuYrCtofaT1PJK");
  ("EXPD", "XsJB61YjcXkEf114fDGMMnWhhFf8a1x12Z6hARUUeAM");
  ("EXR", "XseFccApcVhrqASiXFM97ZkX7a2uDWbUWjC4T82LgAT");
  ("F", "XsBNJXGu68cBH5hgFxdqZkeh8cMQv32jeEtZtYTYvfS");
  ("FANG", "XsdLjeamzdsWW5aBhsGVAaQFcZtCL6yF9nhtWfszGT3");
  ("FAST", "Xs58AdBQTkqkejRvfMrGMQMML1m5xMQKVfKgPmqNhwg");
  ("FCNCA", "XsccgtwEgwSxTh553v8iVLxNUrbHJfdnaJUjxgZfr48");
  ("FCX", "XsT9Z9BYM5Bp2JAuKVgw1XLdENGyvQwC5C2gAuzeKyY");
  ("FDX", "XsEmsxmtT12GBiqtvTxoNaipTBNEdUs6oq7pwHFHTb7");
  ("FE", "XsLpCFJxUb43H6da8YzrS4j79wuddw8Z4GETup7hKMc");
  ("FERG", "XsfdW27Z6gk5otDjYw5R2ad7PP1dKoR1Qx2ayurRBGc");
  ("FFIV", "XspZSVf3tmPqV7QXqNzCjmvv11nnAtQ4n4YwPxykt3U");
  ("FICO", "XsiZh3X1uThVm4bNh8PzyXVNe3v11oS6v2DCGdkboUL");
  ("FIS", "XsTdkPyDNVtJYUjV7VhyZwtqQmA2Lg4DdTkRjYPD2gQ");
  ("FITB", "XsVsC5yPcJKdeuZDejjymo2KJTuE3zdXZoSVuTXA7qv");
  ("FSLR", "XsSbcq8MZso4DLAMgtRKjzCvgozdh4sje8PLj45kxJZ");
  ("FTNT", "XsWrVR5F8eUgoienkVAQLwjvtzEAUoWWcwhcDzu3qRX");
  ("FTV", "XsvL1QcWfqpUM7CQzcNsicatBTZK2dgJRTor3SHUXdD");
  ("GD", "Xsgk6nv6V81zQms4mcvUiEtLDdVueXfWPRCaxayqkSN");
  ("GDX", "XsVRhRg9eRE9PrsoPsAt5Mifa8mfjm9R3vdw6orp54j");
  ("GE", "XsfsBjSZoXXKJsxoSt8TyLYsjhBAKFaDPZTCQbFRirP");
  ("GEHC", "XsQoxoLVogLGYRRRcFwjdcFQVLxFpCuYfDtvh3vJ2Ft");
  ("GEN", "Xso2H7vbDS6HVokLUecSG5GvWAZXjH7PEHAH9rAYXUP");
  ("GEV", "XswXzAsMV9kebQjCVtr1btvrQgQ7C4C9kKgH4QYAVzw");
  ("GILD", "XsmAFboVqfDwGPgXfd7oCunvYAYSzzkuKE2BDRzwjGy");
  ("GIS", "XsKfQxVh7wasRmzPQEs4qvnmayt5KTX1CqvQdJ8XcSJ");
  ("GL", "Xs2yt21rb2HpuMxE2EBHpcfd8mGdDPDysgWjVaDDR5w");
  ("GLD", "Xsv9hRk1z5ystj9MhnA7Lq4vjSsLwzL2nxrwmwtD3re");
  ("GLW", "Xsg3UgvjxpUgV3WZx9Wt9deLx7qvKYp6ZLY6xMY2Dfq");
  ("GLXY", "Xs3c2aZenyRQwXjki5MDxJEJ2km27ef2rWQMFWx7QKJ");
  ("GM", "XsSFgHPgZgYNSuz1ttNHNp8zUBBMZGngFcMMfKPK6JQ");
  ("GME", "Xsf9mBktVB9BSU5kf4nHxPq5hCBJ2j2ui3ecFGxPRGc");
  ("GNRC", "XsAiJ9xc1eBoVEz4npaJqySHLrpCoyo1oFfJJpYSXPW");
  ("GOOGL", "XsCPL9dNWBMvFtTmwcCA5v3xWPSMEBCszbQdiLLq6aN");
  ("GPC", "XsAB7oiJL94kURXya1i35Rv9ZoY9EoJSWM3dQ9mZp7t");
  ("GPN", "XsKbuY5Wyzz7Zzz6uxi69hHdxhrE53d746Sb1jBZyD1");
  ("GS", "XsgaUyp4jd1fNBCxgtTKkW64xnnhQcvgaxzsbAq5ZD1");
  ("GWW", "XsSuZjygy7yrbyZJNzBj78ysrKDFMv11HrPPwBUE2Dn");
  ("HAL", "XsYq2q3UxkwdHmhxJf5wbuXfDWuy5mYP5xsDBVEDK8Q");
  ("HAS", "XsRgwrznvMYsZ1i7ckfxjk6RWR4npsmZT3kqHuRfrva");
  ("HBAN", "XsuFbhEyBaWikFEfA3QM92rr9VVYm79Lip4cC5rnSp5");
  ("HCA", "XsJ5MSaKx3Y6bKEfmrRmovGEdRM53KWqEEHuaNUsQpD");
  ("HD", "XszjVtyhowGjSC5odCqBpW1CtXXwXjYokymrk7fGKD3");
  ("HIG", "XsLw8Pw975zbR4QPQkAorVYM6qQq21jSztyDoskVz5x");
  ("HIMS", "XsprHSJzwz3qmHcEf7j7WcUk6hMUL4sPLuAdWaSY1oh");
  ("HLT", "Xs66hB4NftAJmu73aeBc6RXQC4DX4LwU4xvnfsz581r");
  ("HON", "XsRbLZthfABAPAfumWNEJhPyiKDW6TvDVeAeW7oKqA2");
  ("HOOD", "XsvNBAYkrDRNhA7wPHQfX3ZUXZyZLdnCQDfHZ56bzpg");
  ("HPE", "Xszp97B7zgeyNUFkymHdxXp3Y5KTZ1rzd2bAL9TW34t");
  ("HPQ", "Xs23PmjqLoJvcLJ2LyMzi17HmkFua1yZsmcxWd4q8Zz");
  ("HST", "XsYbh3CsZ4qCMcfPKEtHAYbePTywhwCkFvdN7Hx3bHA");
  ("HSY", "XscEuBenD5X7CMVdh6MKzTSBQLsKNqmsoLiXHrQMitH");
  ("HUBB", "XsCz2AUyFUuadE9zxfs7ywkbMvaQNeVTeNBK15L43Qc");
  ("HUM", "XseFxRyaaJixiAzKBrSZAAKSLMQKVYceUGadwUAsQ7L");
  ("HWM", "XsCX8NnXq3qx6zUxXxWwjV2yQnGc9C5y6UyXvE6RG7r");
  ("IBM", "XspwhyYPdWVM8XBHZnpS9hgyag9MKjLRyE3tVfmCbSr");
  ("ICE", "XsG6o69zE7mQCeFf6utyMx9Q89cJjGV4vTwi3wFHrkN");
  ("IDXX", "Xs2AVjDnFK6ShEvX6QfSFodHpy8znSBhimB4kvTFTa1");
  ("IEMG", "XsFnZawJdLdXfBSEt5Vw29K5vdBiHotdPLjUPafpfHs");
  ("IEX", "XsYoSPpGDGNwgn5HDxgwFxbcrsf8Xjr4Lc62j33JjfK");
  ("IFF", "XsXhUW1Mcpff3vCZWb7v3USU5Zpg1nvFPyfzF3XD6NP");
  ("IJR", "XsyZcb97BzETAqi9BoP2C9D196MiMNBisGMVNje2Thz");
  ("INCY", "XspemH4yD2PcDuZP4g8whQEeve3jrGbX331ksyaR9G3");
  ("INTC", "XshPgPdXFRWB8tP1j82rebb2Q9rPgGX37RuqzohmArM");
  ("INTU", "XsfodJMz7SyMNsSgATVDcbuMiQDqQoAiRTL1xuyHNUn");
  ("INVH", "XsQFmCYjvPGgqYYAth5zNhW8NSCabdamgM1kXMorJs7");
  ("IP", "XsS6AVyq5YpDA5yCUYuwxvkk5hvKvFxAt5tUJik9Y5H");
  ("IQV", "Xstzb2X8HbtJVUephHsF7XknnwiBRYMxWoLyfUBWaoC");
  ("IR", "XsWx5RzivC8d5XwnLiMcgQqqhXiDnrTDwFCDap1o6NW");
  ("IRM", "XssP4Vb5pahDsdKUXy74gD34DzotHCYKGXegd1KHdiA");
  ("ISRG", "XsgBcHP3frsQGHr5EoDdoPZMANk52Y4JPg5BYx98NwL");
  ("ITA", "XsXoAR52Q2NYFkYiNqhCq4FauvyA1tdRsrmEYNf9fuh");
  ("ITW", "Xs7NEcjqek7SN135xwSafr721njNVyenBdd7NDG2cYo");
  ("IWM", "XsbELVbLGBkn7xfMfyYuUipKGt1iRUc2B7pYRvFTFu3");
  ("J", "Xs2ry2jjmvy67pYFweVbdeoPPRdUjnbBEubtXguWbXK");
  ("JBHT", "Xs5CSFf663gjowEA7ANX8ZhPe4AkLWMqLbriVu1JmUV");
  ("JBL", "XsnZQ49Abxr3RJgRSxYd4azhUg4MQVT3amiyaq84oA1");
  ("JNJ", "XsGVi5eo1Dh2zUpic4qACcjuWGjNv8GCt3dm5XcX6Dn");
  ("JPM", "XsMAqkcKsUewDrzVkait4e5u4y8REgtyS7jWgCpLV2C");
  ("JPST", "XsCAXu7xTaZMG9b9KJhNWYapuvNjxPuE4SysZq8uvMq");
  ("KDP", "XsdvuTpWkg6TSzpGJrdEwUwtWT7UrUzMxYTLhUZs9s9");
  ("KEY", "Xs5GgkWgze4XgU7NC5iXJqvbGufxQBJKH5JRN2MSPWQ");
  ("KEYS", "XsXzXSMoSdF3gczdPhECXHN3TwfkUpNkthUvpEJVbDn");
  ("KHC", "XszMPpjvc5nyynUGktkn7JkqkfFYxunE29Rxi4Vo8C5");
  ("KIM", "XseurSPz9hnmd6k1eQT52a8QC53QcoCoD4qVbPmWzCC");
  ("KKR", "XsTd1xJRAwAddguKdxYPGoS3qhctGsJb1ue4Rm6URFa");
  ("KLAC", "Xsw2uU1i8tHjbgstUbtt3m6kg7BS7AgG5aj8z7ddmmN");
  ("KMB", "XsNnfg6KXzaRsH8PE9T9YEahq3MQpSZ3dQAa4hcL1SN");
  ("KMI", "XsQxeWjN2M3Spr5YHRQiM1oQ8fgpJWtdBdg1E2ZrjFg");
  ("KO", "XsaBXg8dU5cPM6ehmVctMkVqoiRG2ZjMo1cyBJ3AykQ");
  ("KR", "XsHyXCSuYHca6SxpSLb2taKiWkoJA48pVcnqyFguHf5");
  ("KVUE", "XsDDkXqF1sr1ixW4Y93Geqfd2LbrWxokCjQf9poGN3c");
  ("L", "XsUn5iqqryPGjArLc1FWnzaquVsCjTPciXQGkRyWfho");
  ("LDOS", "Xs5VFGqt7aQ3Dykyk7A4NFL9K2z3x2BAnEDzvokY9Us");
  ("LEN", "XsHjfVcciZyPmujpSYXKGyQZ3k4yyzxnUXE6CYdZ3AD");
  ("LHX", "XssE4tb3kc3f5V5cRL6dsuffP9wDm915W4bAsyNf62A");
  ("LII", "Xs4MEQwg4mtEjAbtBzKsmrDccxX64Y4emF2yJptPJ3q");
  ("LLY", "Xsnuv4omNoHozR6EEW5mXkw8Nrny5rB3jVfLqi6gKMH");
  ("LMT", "XssULacY8D3z3a8HoQuLid8wdJHcZLGpSST9MkNFzox");
  ("LNT", "Xs1WFZQyEwCZwEyZHRxTzd2KoEoa6MVfv2aZeAc2HXK");
  ("LOW", "XsixDLxXcKZBcRBddYiPZjB9FJcKMTLd4B7VBeKo3pB");
  ("LRCX", "XsSN912SN4Whn2xn59vWZHt1uLbw9WnoNGp5MigmHFf");
  ("LUV", "XseRUafvQDXZSddDFpsXQPBNggurszyztkh4TEnvEuM");
  ("LVS", "Xs9bwo2tkrKRJxr9787rKj2bKcQUMFNtbzruYTrxdst");
  ("LYV", "XsFU9pEZTmFTwGowKZkVtagbF5ivCJ4WTyPEZrzVFzY");
  ("MA", "XsApJFV9MAktqnAc6jqzsHVujxkGm9xcSUffaBoYLKC");
  ("MAA", "XsUGoD9Dik1iNBgsjSzdjt7psrGgWpQ29DQr825e8Le");
  ("MAR", "Xs85zRMSv4KTRqSNjZSFWgEXEyb3esxUBzhTj377DH8");
  ("MARA", "XsguBZPkM9BDmxspmWe29EmrYZBv21ENcC27Pqh7grB");
  ("MAS", "XsNZFvmZv6zEeAxgF5L72Nt6A2K8Uo6u7aRDLm7Smvc");
  ("MCD", "XsqE9cRRpzxcGKDXj1BJ7Xmg4GRhZoyY1KpmGSxAWT2");
  ("MCHP", "Xs9GioXYhWaR1Pt7HLiNRgkHynWdPPWcdZWdUCHkZNj");
  ("MCK", "XsnoiYFyBemVokJpx3ddt6mPB3v2HepSevRLXSfj3Y5");
  ("MCO", "XseTVygt2sUPQsfYbYVMXzV1AeMRE6Usj9DEWwStMe3");
  ("MDB", "Xs12gqhuCeC9gpUdN6uDJQfpyKNf9Y4uK2TKY6c7NrZ");
  ("MDLZ", "Xs3hGRD2NSyUUC1fjK5gKe8hXQgLoqxjR5WtYL1NBbg");
  ("MET", "XsGhGG2TNXuJLFL5q7pAomKtMVc2YvVqs4G1hyBZLfw");
  ("META", "Xsa62P5mvPszXL1krVUnU5ar38bBSVcWAB6fmPCo5Zu");
  ("MKC", "XscRMWo5xvLxenVLxmodRqZC3UJwACXoxAEEGQzrzKd");
  ("MLM", "Xsvi61uutcLdAsa5NxJ2c9geLgzUFM3tMtpJ44eoegt");
  ("MMM", "XsTEo8W2L8JprN57bmJgatDT84z57ReJYizr5f32BfP");
  ("MO", "XsztStxbbGZE63p8DyD8YCpzyWFJwwy2PNcyaf3cZz8");
  ("MPC", "XsyqGLaBLmGCZstuUrvo7iWhJkZgg4KEBtcxVFBsYSg");
  ("MPWR", "Xs9YEeNWvRwWK4wPHPaitx9mFyfU6hbUY539BLJSHCN");
  ("MRK", "XsnQnU7AdbRZYe2akqqpibDdXjkieGFfSkbkjX1Sd1X");
  ("MRNA", "XsViHjyRbiSBskjizb1gszGTmZqtAH8TuqwJ7sB5AcP");
  ("MRVL", "XsuxRGDzbLjnJ72v74b7p9VY6N66uYgTCyfwwRjVCJA");
  ("MS", "XsUucbjDLYbER4WNNffn1eQ9cDnAcFVfLgSZeLHPDZS");
  ("MSCI", "Xs4BPW5YU7RsXMmCt6CyDphWH3YLtyaXDXEzZDmj33G");
  ("MSFT", "XspzcW1PRtgf6Wj92HCiZdjzKCyFekVD8P5Ueh3dRMX");
  ("MSI", "Xsa1gZ38panjmJwh6cr9QQ1YpRBEzVfxrykWSsiWvJe");
  ("MSTR", "XsP7xzNPvEHS1m6qfanPUGjNmdnmsLKEoNAnHjdxxyZ");
  ("MTB", "XsMXtu6uQkfvxCYURytUcQvhFCoqvphtoezVBh42CfZ");
  ("MTD", "XsXb7oGeK1N5Jk9mm9VD4ZQrXsu9NULWP3C3n7hhDWp");
  ("MU", "XsQLZycSZ7QnBBdBXQaTbQdiUcbRqjNJgyBGAMzhHav");
  ("NDAQ", "XsLSwcujLXXgCPZWPZKRsksbZrWupPMNKmg6A71g2Ba");
  ("NDSN", "Xsgfrh1tHEuCADVTuQDZiG5LRcVYeEU1wKT3YKuucbA");
  ("NEE", "Xs4f5EbxL1bB89N7ADF7smF8fXxifJa3t6SexZufBWA");
  ("NEM", "XssuE11NLek5vAeHNS2Jm8PFvT4PE7dtnpZwasWTGDT");
  ("NET", "XsR3LAMkzuPP8DnfYaiB2grTWqkBVy286gjJVErK1bi");
  ("NFLX", "XsEH7wWfJJu2ZT3UCFeVfALnVA6CP5ur7Ee11KmzVpL");
  ("NI", "XsC3CiuRAFKN99m2ye6q7xrYMx4NuBdr1JR2gVWgFLD");
  ("NKE", "XsGYpMvKbVt6ViHqRd7cF3s746dAMFBQWcC49hB9VVP");
  ("NOC", "Xs1eyZcwrzzYW3hDjfpm7PiJrC9RyFszsHpqfTeUTCE");
  ("NOW", "XsBnEFd2EtpwBRNVfN8qLZcVUnuqXRaGCSEEFChLfxL");
  ("NRG", "XsZ9qtReiaokaUfW3bEUx2AU4Zmcjk9Y95nEtFMqEXn");
  ("NSC", "Xs4UsCDQKKJqHjidgoZBHUW9emLD4njpLPsYesp4ZpZ");
  ("NTAP", "XsjLc87ewHkMhsxhNRLy4TZFG64ycoZb23hLc2WW7iZ");
  ("NTRS", "XsRx9hY5BQWniDRahLNtV4uyyvQcnaRgrqw5ops842R");
  ("NUE", "XsvdeDvbEfZkvfEUixS9SydEfJopFFD6NJjXZN1haYr");
  ("NVDA", "Xsc9qvGR1efVDFGLrVsmkzv3qi45LTBjeUKSPmx9qEh");
  ("NVO", "XsfAzPzYrYjd4Dpa9BU3cusBsvWfVB9gBcyGC87S57n");
  ("O", "XsyMphR2LaL2YBiorsZYFhdN96xKTSi64L3pmiAHLc3");
  ("ODFL", "XsuEQKUzuiMTMwFTm6MHBeTvknFU585gwu9u4CNKjQD");
  ("OKE", "XspDMNC416uCcUbngqyAwzk1phuRYdmm6AMsWo3EHd4");
  ("OKLO", "XsJb1p4Ks6VFggq68JyMz7S3kdRfkqh4wA6EMyxi4DD");
  ("OMC", "XscmXyJYjYbGNhxQsPjjRYsEwscg6uPFJzR6Af7Qi18");
  ("ON", "XsTzZxvfNdVESw8oEn7cNPnfQ4SGk7ncBSezfU6dxa7");
  ("OPEN", "XsGtpmjhmC8kyjVSWL4VicGu36ceq9u55PTgF8bhGv6");
  ("ORCL", "XsjFwUPiLofddX5cWFHW35GCbXcSu1BCUGfxoQAQjeL");
  ("ORLY", "XsZCRtj2wRfksr19c4Bf4L2WBB5EYPmr1nBQS1yXApD");
  ("OTIS", "XszGT2Jo6bZz2SZBmhPstvo2xSs37q67nUJS7gtAfvx");
  ("OXY", "XsRNiTxDeRvxTEMTV5BC98N7cTZXxjNdLnudR8YeB2b");
  ("PALL", "XsTTtPA5V19YwHKDv4xeVXNM6kdsQNJvg3MyWkRUckt");
  ("PANW", "XsQ6NfzzLH8nspjrB9X8R2K64Zz7Tnxqu12juDiMPMW");
  ("PAYX", "Xsuo3Vd8T7MVAx3miKJ1beX4sGutzdL3GJsjk1yFbxA");
  ("PCAR", "Xs1rnpzumX77Zz3nVrRGbDYzTM4PM7vgvS4BLTG6ckQ");
  ("PCG", "XsPq3VY73br4wpgi2a4b3jAdvuhstpknXVJ2fA4vNmk");
  ("PEG", "XsUytoK53kCKfXC61Dn3ZM8sjyVBUpScF111pfMG69U");
  ("PEP", "Xsv99frTRUeornyvCfvhnDesQDWuvns1M852Pez91vF");
  ("PFE", "XsAtbqkAP1HJxy7hFDeq7ok6yM43DQ9mQ1Rh861X8rw");
  ("PFG", "XsChiU9gDeWj7HYrqioNUn8C81jaHZwegfGQdQXHnhd");
  ("PG", "XsYdjDjNUygZ7yGKfQaB6TxLh2gC6RRjzLtLAGJrhzV");
  ("PGR", "XsGDHfnSNxofQ2qXzcty9r4HB5HFszUCrQhjN7mbEcw");
  ("PH", "XskVc7XiWmSqvzbjhA2LqGHQhvBdBNfatfeTpNru6KP");
  ("PKG", "Xstq2wirnUgqHdMvvWafGVbdtg9y845zxAy7iVixkRU");
  ("PLD", "XsnXCL5FtHLHH1jW5Nknd5BjuazxnnkCAGR6fWPwPJL");
  ("PLTR", "XsoBhf2ufR8fTyNSjqfU71DYGaE6Z3SUGAidpzriAA4");
  ("PM", "Xsba6tUnSjDae2VcopDB6FGGDaxRrewFCDa5hKn5vT3");
  ("PNC", "Xss1A59GFZcvyuTXLXMyYdJ7e9kpHq6AFKNjcVZ1rjA");
  ("PNW", "XsaZESJuX1EC73t54PmbirdQ5JHPHQsPnMB54bgZLp4");
  ("PPG", "XsoCb51izF2MpU5XghroQDRxtJ2vtcMY9v5Mk1pqaBr");
  ("PPL", "Xs12SMK4MA7sLVS8eTged2pXns736u3qe2a1a9io6he");
  ("PPLT", "Xst6eFD4YT6sz9RLMysN9SyvaZWtraSdVJQGu5ZkAme");
  ("PRU", "XsPhDoJMMgARN4eB8apaPNFUjVBKqx3WtRS4ddBwKVw");
  ("PSA", "XsBLm8wotoJMHjonHcr1btz9RwLa3EWjhtbs3DbQphg");
  ("PSX", "XsYvZVxiNdjuHQQzdCmf4TMSTBgvarV2gLi2akooV8V");
  ("PTC", "Xs25CGQuYuoXrMMWUSxo9WmvnQZyFzBChaHbUPXzm6b");
  ("PWR", "XsLR2VCGNzYVLfJGEwwNZsRYDZBGyBnoQH5rPGvwodA");
  ("PYPL", "XshWQWYVp5ff8CrAEsGmLVKD47nBWi3Ygn5v8wXK27G");
  ("QCOM", "XsUUG8bjFN2KvzLTpzavvEKdAjMAeLTZiTeAQJ9uhvB");
  ("QQQ", "Xs8S1uUs1zvS2p7iwtsG3b6fkhpvmwz4GYU3gWAmWHZ");
  ("RBLX", "Xss5RAku5EH6UViFdvW7ss9xQjwQLsrs2opPMhb3k43");
  ("RDDT", "XsXEEJX7WoXfre8ZqYx1M1yXnEwd1Ww3YhvfESA2DzE");
  ("REG", "XsJzAzVt6H498zDafSaWj3htVDYQPmh23jUAM2Rt2qn");
  ("REGN", "XsWkTtvUXJgrvxvgGuHRRqk6iwDuviEQZw4uJFUUGgX");
  ("RF", "Xsk2PGWHCQweEwYWNqA72KbuUdNz518MBzHSaBDLowq");
  ("RIOT", "Xs31mE5EiqjSHEaiX9QDKCN6NvSGCqpJ6f1FNq2wri5");
  ("RIVN", "XsoxDMY8s3ZV7zD4Yd87wAvURyxA8VXkd7w6HNuQkzj");
  ("RJF", "XsgQwodongKCYRux621fuQzxQRv3fyXQKyPzc2CJ7Ys");
  ("RKLB", "XsKSh3QDynp6oms9yHjZXbZo3pKzUBoqUFKPHS2g9Bh");
  ("RL", "XstJ1deKwoZVAzj1oF14s7g8ZPLumJKyiQXysym5duM");
  ("RMD", "XsjsQvjH8BEXCjrgNiVhmhFiYPcNRXGj262fDupfV1A");
  ("ROK", "XsnR8Rtrd8yFDGP3g2HwLdGiw58UcXjggXzgkL3pNYz");
  ("ROKU", "Xss4k5HDz8CwyNnbZixMs3XgaXvnMoWtpxeqzFK6wvA");
  ("ROL", "XsY112rrZJhJE1J1Z8BTSk135spPGHuGRCfnvr5pSdQ");
  ("ROP", "XsCbNmXqgaDVDTpXaATSrki9ATKwu1wzfhcYwPriMns");
  ("ROST", "XsPYJyoTnjc471VCHEERVBVrJ7xuQhDYWddPw6koNVV");
  ("RSG", "XsUkTUDE9hCG9GLEpw3STiGuf58hYmpymiF3z1nPh3A");
  ("RTX", "XsN53tgjZA4QU8iuedPNHxxCbDqKcJqbrT1f8jBXzdC");
  ("SBAC", "Xs3BuKwwLLSgKCKPBeSN5Wje5gP8McsHrt6pnqWzjhs");
  ("SBET", "XsEoih2x6nZuUjFwzGoba6MFmtzCkzW2c4YAm6baQbq");
  ("SBUX", "Xs9gd8SGbYQn9kkUYQayn46BdqQbvvUshEF6ZpRAzM7");
  ("SCCO", "XsQD8itHh5CdrWMiH8cZPB55KSATjdXsxcSJJ14YCFD");
  ("SCHF", "XsWAnFM77x6YvpdaZoos79R12o4Yj4r7EVkaTWddzhU");
  ("SCHW", "XsK5U9qwT9ErPXnpgDzV9voTGASZbZnNTYTGVxCqPii");
  ("SGOV", "XsYD72ntjj7ZwoFDZCDmN2gamTcLpnywqvG7PQN5vCN");
  ("SHW", "XsfgitU15HiJX9UJN2fhcpbfRr5P8XJXvC1nuJs3jAr");
  ("SJM", "XsqtzaHCKV2zsgRYitGJtcecfmBkdJsdrpSXZgQryHE");
  ("SLV", "XsxAd6okt8y1RRK6gNg7iJaqiWNiq5Md5EDf3ZrF2dm");
  ("SMCI", "XsMxAoJP47FQGLsVUvSS2QfBaHdNsd7DRU6nWRL8RSa");
  ("SMH", "XstuBvLo7soZzj3beCCPonHpR3eUfPNSeQzw35Swons");
  ("SMR", "XsrwdnwLHjVnyy7fgE2Pdwjp3czEm73jPjkSC5xzUBw");
  ("SNA", "XsKxGKYM3RsRvdgzAZXAh7HZiReynB5pxvoTLRMJiF9");
  ("SNDK", "Xswbpc8UqU6e1j9QZEWCjBMjyvz4twqD7PCy6j2e7jj");
  ("SNOW", "Xs3QCTNpPWTFYRQ9yPv9gsvWKNJGk45UQ1bb1w7xznc");
  ("SNPS", "XsfGN1hFHbigfAzUY1nLRjrECm3ohGzVcim5pMqgp9d");
  ("SO", "Xs5nNLYnMuwBTMQ7KnfCgfsDBa9WehDa1EZqzicarZm");
  ("SOFI", "Xsipo31rLh5EqPMR2cArn6kVPAD83C6rxbmCrT9Wu5u");
  ("SOXL", "XsdZDkoMdUb6iKDAKKappuM7C1Q2HmTqC8jNujbfmCu");
  ("SOXX", "XsEsHeiNZf88sABxu74TPuXbQThdaQGdzPVZUBicjtQ");
  ("SPG", "XsUXFEjcDYrp7NuzHtC88JLyirmnLpA8nde1e8eRxEn");
  ("SPY", "XsoCS1TfEyfFhfvj8EtZ528L3CaKBDBRqRapnBbDF2W");
  ("SRE", "XsbicvsCUHE9ja8gTsjzruDxQTKeyij94i3phx3NuNf");
  ("STLD", "Xsw7mKDicsyZ7dgSMfFxhX5nbgat3uG9V1nCxDy6Gvp");
  ("STRC", "Xs78JED6PFZxWc2wCEPspZW9kL3Se5J7L5TChKgsidH");
  ("STT", "Xs6QWdM8Lgdf3gUfmhZfZDu8DKcoMyxjgyU46R28RUR");
  ("STZ", "Xs6eATub8cqKdztx4asCRFMSzMwtNqAUWiDaUPXxUtD");
  ("SWK", "XsNotS1p6BsTADzMaZVu14SJbuH9V4CYYyRZ8mn6WAQ");
  ("SYF", "XsWMBE3QzwuS7pJET8GUyaGzjNJG49RToPBYWdGHUTG");
  ("SYK", "XshACd866qcdJYTotipkEHNKKnjDHJJkUciUxKVenE3");
  ("SYY", "XszobR4az4oYsssmwsFov326662q84g7UPXzRgrGvfS");
  ("TDG", "XsaY4eSxkNswy2kg8j7CWS7v154y5kkxYRiqX2ffpVZ");
  ("TDY", "XsBKXQehs7BBCZ8YbJ8X5B37BE1ymf9KyMJwbj6Jpoy");
  ("TEAM", "XsLhefHBtc8r9nStXgXtu9tHeEWYRXxSXrpbnfwTJ7v");
  ("TER", "Xsbe4fwmjVQEWEPkzfyxqNdPUUK7X9dKfTJrZdDbNgx");
  ("TFC", "XspgPjzWCN6w4b8xHyfN8NRXrgdNMYx5nsWgiGGeK4R");
  ("TJX", "XsPWZN3FYcrvpEnxrQqogbVZtxpRX9tFomymKw2dWJS");
  ("TMO", "Xs8drBWy3Sd5QY3aifG9kt9KFs2K3PGZmx7jWrsrk57");
  ("TMUS", "XswCi2U1G6Ppbw1QhG45yKb8UKuR1FKLJrquv2FZSD4");
  ("TONX", "XscE4GUcsYhcyZu5ATiGUMmhxYa1D5fwbpJw4K6K4dp");
  ("TPL", "XsNpiekiQLb87S2VqmaYjez6sNSrjoK78nCPAF8uaCF");
  ("TPR", "Xs2zWfkYjSCCW4fdC1L36rz77YzTcQtji7ewjWPvuWW");
  ("TQQQ", "XsjQP3iMAaQ3kQScQKthQpx9ALRbjKAjQtHg6TFomoc");
  ("TRGP", "XsmhtZrbnheSvztwRW82ZqZqMjaRnAQqyWERFh1A4Kr");
  ("TRMB", "XsJ8MXED4y4NCxfX6ZE9XJiXLXLgBNzEYDtmnx2hbZ1");
  ("TROW", "Xs8urJdzBSFLaKqxZiMackbXDkyZbwPeAwz7PepQ1eD");
  ("TRV", "Xsxd1sqLaPsmmmYTZHr2GnNufXXiH5rZcahP99TyeDr");
  ("TSCO", "XsYMTZRVKs9he9redAPMhaBbCbmZvUxMTApsfCZsKzt");
  ("TSLA", "XsDoVfqeBukxuZHWhdvWHBhgEHjGNst4MLodqsJHzoB");
  ("TSM", "XsafvsGtzFqqHgTnA3aPC83EAMkacU5mcGtcSayhpVV");
  ("TSN", "XsWV8voFNehNEbuBW8cEAMWwjicXCYskUT4616PFZ6a");
  ("TTWO", "XssvmC28hqLgtT5kf8R8eAv3mejy4XftJ6MXB8QywTa");
  ("TXN", "XsU4fHhJEFcrwNh4RYuHmWdaoCfsrWKEm4UEs3zTJwH");
  ("TXT", "XsjWGbe4McmJXNRd6hQYsS8dEsPKTfT38fxSebugRbn");
  ("TYL", "XsiSQ5MUFoAwjrGB1x3FsXTthfwJnJgHVXj9tDKuvr8");
  ("UAL", "XsKq6Ac27X857u18jH8MrWQ3bEA5ZfUSGriawpyu8xw");
  ("UBER", "XsAsZLF4MmsvS1sDxRMrUz7REjHfwbC9UAMXSRBqgEB");
  ("UDR", "XstJ29hJ96UCddwezTPe9mXLiamEApRt85ChkTSRh5f");
  ("ULTA", "Xse5GAs99zAj5bzMAbwjooLn4AHn1Ny6nUcN6vt5vrR");
  ("UNH", "XszvaiXGPwvk2nwb3o9C1CX4K6zH8sez11E6uyup6fe");
  ("UNP", "Xsehrw5hHiQ16Vfxxctj8ewUhtRCzbCrBYS278ctAAy");
  ("UPS", "XsnqNkeDhvaK8C5B3Z4D1ciCupVAgkw1AdS3U2uEn26");
  ("URI", "XsLR9avpksMgLqB5Mw3jBNjzdvSDUKGw4onApxDGE6x");
  ("USB", "Xsieiissncd7uzAW2kwNJPDKBfWcyvdibgxSMQindKF");
  ("V", "XsqgsbXwWogGJsNcVZ3TyVouy2MbTkfCFhCGGGcQZ2p");
  ("VGK", "XsosCAu1L8Ebpr4SdBDV1EboYDRTWCH8j79UnHYzvbN");
  ("VICI", "XsN9HmM3TqbY317obKz1fYbRvR81MT9qbL5eUSiGto3");
  ("VLO", "XsmMjZH2ex52ecoCqBN1sMADoWQziXpe9j6z6QVmafF");
  ("VLTO", "Xs6mp36rvKSo7vTM588J1HUZF1sbNjK3KSz12fNM7P5");
  ("VMC", "XsAtnoftgxL6kJErDeCL8m2e364mAYgEbSfSKxi4ctJ");
  ("VOO", "Xsd7TduTbjuYCFL7Uoujb8SbkZLmUsuYNLn7KdvX21x");
  ("VRSK", "XsBDavbmVc22RNAgsHwUDEeC8f8VVCKLCcxFbfFUEzW");
  ("VRSN", "Xsy4NX4cCf4YjN6iwypnQ8crXtNkyA2K3jypAX5NfQ6");
  ("VRT", "XsLUiVEwYeoneKpgR1C2Q4DBUZhX4xDktSCfQqq8zmn");
  ("VRTX", "XsgCWpLUC3pv6JmNAFtkYmuwSaikShy8QZRuripgBzn");
  ("VT", "XsEdDDTcVGJU6nvdRdVnj53eKTrsCkvtrVfXGmUK68V");
  ("VTI", "XsssYEQjzxBCFgvYFFNuhJFBeHNdLWYeUSP8F45cDr9");
  ("VTR", "XsEvH8WR4t5FU5GT1cfsmPnvrmEknd4UXA68uJ1F25L");
  ("VTRS", "Xs9uh84WXf2F4P4UVRLvNGwv753ArA69kUk6r4GKVoA");
  ("VUG", "XsNVBwVGqtDqmA2Waoiux5mfykH8nepLK74z3ZoQWK2");
  ("VXUS", "XsLT5v4DAd1kwViPQh3SZiT5kzJfNLxzJxJN1dySZTe");
  ("VZ", "Xs4VKGG8TTan8UN3mC1ufsDMamBtBLE4Ahfkyv2tfuy");
  ("WAB", "XsGFoZFgiRxDk49QCAQUArX84V88t7Bz3fsExp7HLuX");
  ("WAT", "XsGmxpiwpg9oBuRoyczLkXs7j82v9Rb4BTHwTkvXnNA");
  ("WBD", "XsZUSqxAXKJkEimvD4CoVvEb4WUC92TFgj5zRtBxFeL");
  ("WDAY", "XsDa7zkFPXdu1wz29JLEV2XtWvrLdb16s4yH1LcKQ5r");
  ("WDC", "XsmopJuh6C6uNFJa3KaVoYqEtrf3Y7M5LYwRLKLER3h");
  ("WEC", "Xsxq7WqXpiNFrdWSd6CA27LXmCsCrGyC9C3uaebmaqU");
  ("WELL", "XsuKHFvcZLWvhk8XcprK4tiAZRefQ4nfTyNs6b9BArz");
  ("WFC", "XspHXejQ3A4VeimAqR1mAkvgTWgpmmoNR5CUhwCqzqr");
  ("WM", "XscZ13Vr2dH9GV8vxVAgFsXz2YMoDCAz3QanuCcwsr5");
  ("WMB", "Xso4umc25VxszLT64SYNT7TMeZudAC75xwNo7qFjJFu");
  ("WMT", "Xs151QeqTCiuKtinzfRATnUESM2xTU6V9Wy8Vy538ci");
  ("WRB", "XsnARtma2bEi2x1JuKuznZa1QzQkLaedxHW6KeUCz8J");
  ("WSM", "XsxjGDiXTcvRjbHgAkngyJgix766hJHKB3XLzNiRSro");
  ("WST", "XsptQPquxvzKZ7pZTXNhvtXRxFP8vvC6BmS6QL1PALe");
  ("WY", "XsrTDXGz8cxi4s4vQrX63NhrtZZmPEFkgbsJQG7UERR");
  ("XEL", "Xsr6MgLKmoEmN4aL78MQ2q98R8wJnZ3FaCZUMwkNbNU");
  ("XLE", "Xs54CrhmpVp6uxZXwgSTegrRH2kShh88XFPzgf4BExu");
  ("XOM", "XsaHND8sHyfMfsWPj6kSdd5VwvCayZvjYgKmmcNL5qh");
  ("XOP", "XsAk6BoV4kBXUM6WXodKyM21CN92G9jArwAzFvbh3LX");
  ("XYL", "XsqFzD9CqfpnmTiFH631bcvQcDReVTMFZMSjk5aXQZL");
  ("XYZ", "XsDP3d7dBNMVVZT6W5abD9jxZPGbrenPaj322sWn9Ct");
  ("YUM", "XsNor8pbicnexAYvgvq3p8EXwyRj9UzjYu92ZnrJLqC");
  ("ZBH", "XsE48wmot6dKRcCGVQUXFSrpnRZ4U4yC762ZktjkoGW");
  ("ZBRA", "Xsxe5ypvCfynj9q9bJgB2Y88sZNCnxtEb9icgdbsPFT");
  ("ZS", "Xsb1a2VbaT6rLLq48qcgMQ1iPbs5fW2JZZURBxKfhY6");
  ("ZTS", "XsRPgsEQ3dFR84DhMv18jtob5D77FivAsTTsv1jCYmv")]%string.

Definition FX_USD_HEX_MAP : list (string * string) := [
  ("AED", "0x3bbf6718b6094fc9cc2f047fc280f40c6dc865859b3a4a80846064df1eff0c12");
  ("AFN", "0x5bff6251f6231b9a9ef9ab940b18bd753d48e9b7ddf3214e44d9c67f7980d79f");
  ("AOA", "0xd4bd2c4174efaef9f9d54a62ac2753ce24a4e9144149417e09bab4ee764a17c3");
  ("ARS", "0x8902172deb18026d0f84cd34d6f1d30a70708b83d05495aff40938b092bec450");
  ("AWG", "0x18155f3da331698fbc9bfb7c2a2f60eced2f7e4cc53ec7258d831995a8e3112a");
  ("BBD", "0x264985bc0497800d84d030faa5b0f880779a1dfe56e861771b0b9606f0ec0e46");
  ("BDT", "0x43b06726ad42d4365d8491d880ce1abe6f9b8a48bc590d4a67faf7374e76c8a7");
  ("BGN", "0xdaa447750fc060f763b90c264a3b392435d9aadd2ca8c9f713e435477038988d");
  ("BHD", "0x5ffcfc486abc5de731029f752c5df414edc69f135deaab067624b9cda0ab2747");
  ("BMD", "0x088095ced8a5dca2edcc01db97e77893e6bd26598cb96ce2e249abf3565b0c65");
  ("BRL", "0xd2db4dbf1aea74e0f666b0e8f73b9580d407f5e5cf931940b06dc633d7a95906");
  ("BSD", "0xf772711a45c0d9fc9e7bbc38ee7c49016b415ec567e4c501335ae446584f7af9");
  ("BWP", "0xba7898c34e6b7ffc472bad521a67efd11ca9a046562fe63c4059c7de2bcbd590");
  ("BZD", "0x523367a85965fec1e69ff6fb60c53847ae045e65c62e3e9591424bceb7632994");
  ("CAD", "0x3112b03a41c910ed446852aacf67118cb1bec67b2cd0b9a214c58cc0eaa2ecca");
  ("CHF", "0x0b1e3297e69f162877b577b0d6a47a0d63b2392bc8499e6540da4187a63e28f8");
  ("CLP", "0xd407a4b25cae3f9ec063af35c1d7feb9aa55be71d3f2a01b6de719dbcc3e84c7");
  ("CNH", "0xeef52e09c878ad41f6a81803e3640fe04dceea727de894edd4ea117e2e332e66");
  ("CNY", "0x4a134870158ad1ea98bc4e4eb8e4ca824a32e69d4f3da380377c09936ba23954");
  ("COP", "0xcaffb53eda8972cf729e59166e64f893960db66fa89ff5cd4702caf2ef4edf8d");
  ("CRC", "0xf11add73fcf779b993203cc12422046d077f96a2987a8ffc8d8a4b21a42f5d1e");
  ("CUP", "0x5351f9c2376b35cdc88a710d3feca1cb891c9de1983dc9aa6504cd6ef3418eb2");
  ("CVE", "0x7c2a4f8a99a5543696fc65e68db3016af9258982d70037b7e8f683600dde19a7");
  ("CZK", "0xffe0b5050b12dd66e892d95a0470f5f8ddedd4e64991250112db58ebf2970499");
  ("DJF", "0xd1c0cc8247785e714141b8de5967c96a03ebe768e746586f32599966ef1392a2");
  ("DKK", "0x0df79792804744b7b799aebc0e514754de7b208cb06ae66bc16c67210fef3112");
  ("DOP", "0x561901230ac69c31a2bfa74c3f707946a50fd296fff9e187ac79bcb89dff8cbe");
  ("DZD", "0x588c5da8b06b22e5afca889422a327ee4bfb05da0a5d6f7769aac79aa07c0331");
  ("EGP", "0xb6b6addd0750cb48e816234b7630f358e8aa290190fb4eb5166a38c4542952f8");
  ("GEL", "0xf0b09bad378fbe87ede21bfb89397def4d8ccf6431d808171690aa17be7940f0");
  ("GHS", "0xcdbc5039dad626cc503512321a527f18a1d8d2a168dc248ee4f487be93139272");
  ("GNF", "0xe6a40d8e4ad29355240b8e0e1e34383fdd063226746fae2d39aa8ee49bc19986");
  ("GTQ", "0xb5b41cfeef0a1b891833bd45ccf2143913bef841b73aac8b19c8559f2f407c41");
  ("GYD", "0x0370226ab351f99540e37774c7f80bcdad79f9d5e68085d4e79e76a036c85c00");
  ("HKD", "0x19d75fde7fee50fe67753fdc825e583594eb2f51ae84e114a5246c4ab23aff4c");
  ("HNL", "0x8648fa8a95b12ac8c16f8f6a99ded59d37b0d0d7307991c8f4731057c3b5bd19");
  ("HRK", "0x1c0ba56ada6b5792c600fe0ccf38e7c04ab767342ed17490124c4cbb383fb83d");
  ("HTG", "0xdc560e5dcd7bf7f7a663636b658e194e076f24602d6b3952c00523ab86f53328");
  ("HUF", "0xf2709f4b9c20bf25c08a0d751faa0d202ec74a9254ceacbd6519bd33ef5293b3");
  ("IDR", "0x6693afcd49878bbd622e46bd805e7177932cf6ab0b1c91b135d71151b9207433");
  ("ILS", "0x158666978da811cac711193ff8bbb6f3a19c0da582fae820d933c6b9ceec6998");
  ("INR", "0x0ac0f9a2886fc2dd708bc66cc2cea359052ce89d324f45d95fadbc6c4fcf1809");
  ("IQD", "0xedede887ac79d38482dd9347c41664e065ffa125d1c6a06b9e4b303aebfddaa2");
  ("ISK", "0x8f1bccba435caa5a250d1a2ffe88266baa13dc4acab6f9cd97fd32e69566e4fd");
  ("JMD", "0x839d7f9505ccdbd34830767ce4838d7afcaa732258ebf7f99838ba0ee3cae36c");
  ("JOD", "0x1b21fe2cebeef5042f87513a6870bf905df7302f0b3c01d962ff72e6441b5e8e");
  ("JPY", "0xef2c98c804ba503c6a707e38be4dfbb16683775f195b091252bf24693042fd52");
  ("KES", "0x33cc660971b0e63062d2f67b7183ba17f67b246d4a7170788649979258f7d007");
  ("KRW", "0xe539120487c29b4defdf9a53d337316ea022a2688978a468f9efd847201be7e3");
  ("KWD", "0xde25b49ce878b079789faf324b98c48f4659e532dba131811af2e8a8c09d1e94");
  ("KZT", "0x1782b93c1fa65fe091e0bc504080cb4f4f1c39bf8350de952473a9b3c9a151b1");
  ("LAK", "0xeea0c110b88ccb32116111b29e2af364aaac8132189ed674767fd84a9885643c");
  ("LKR", "0xf777260f0edb73350d08d49a06aa6629e6b50473015ffb52037694e4d277ad69");
  ("LRD", "0xaf6ea6082f6b7ee52c48f79a8916ef8026089a669e5badfe2243cba26e2c24bd");
  ("LYD", "0xfe0c9032855167166f9a8bc072e19d9d1d642581c5eb611ab9c67e0370158f17");
  ("MAD", "0xd23d9dd73b502074685a8c0b6692723805a9a847d760b2534ab667ca80eb6798");
  ("MDL", "0xfabd1104f4c27c5657a2ef928569e0e3683778700595b898a3535fca23325e66");
  ("MUR", "0x6887223d3d6c8c737cbe66ffe2d38006cb76eea0d7c7db418b6c83f75cece7d2");
  ("MWK", "0xe7c1c00d4fda3005c14eb31b781c9d9e4581ace53a2577ee23066988b8d8b46b");
  ("MXN", "0xe13b1c1ffb32f34e1be9545583f01ef385fde7f42ee66049d30570dc866b77ca");
  ("MYR", "0x6049eac22964b1ac2119e54c98f3caa165817d84273a121ee122fafb664a8094");
  ("MZN", "0xc27ec5e190f7daa21bd1ca76aad9248f2b3a605ac27af09024c4f2525b2693d2");
  ("NGN", "0x2f1601cdfed62c03d39fce4720f5d53e8517af244915fbd24ce8175bb25ab318");
  ("NIO", "0x1c36c9f372d46401ab54d763cc579274ccb62074e48673d866ddbeee81373f22");
  ("NOK", "0x235ddea9f40e9af5814dbcc83a418b98e3ee8df1e34e1ae4d45cf5de596023a3");
  ("NPR", "0x8bf6416ebd1197c7608c29213a1bde2228b447868c513d9d98c0a8c51294bf2f");
  ("OMR", "0xfc36301a54afb4c54f168c62d9ba0380d36cdc51665b1af7c705062b303f7c71");
  ("PAB", "0x7eef2f1166786940c49c7eb10dc2bf3b3bc7060673b0e99e70591a887119cf9d");
  ("PEN", "0x5a90fd584136ff7969fc54c6642430e3c50af8ff234ed0e697555ea7b192446a");
  ("PGK", "0x136f55829547f002a5b94f670b6514f7ed3a9985ee22b027a12e64ef0b118016");
  ("PHP", "0x2bda7f268b52bfbc3f2e124c31445247647350db313caadc6771e6299e0a68c9");
  ("PKR", "0x80515916a4ebc78a8f6066ecebc52fb31ba581afb932eabacd3d6f3377e13cb1");
  ("PLN", "0x07cd9b7bb0575a74a7eec1ea357fb01aff3a5d9a1b567394dbdf87ddb5bf777b");
  ("QAR", "0x52daa34a2e3309bffd0b87c53050d352a810678452825b770f2866b6d45cb536");
  ("RON", "0x4f59bd91914d02ee5b5dd6db1484f9dc66feb7b5e2bb2f9b96370538c9ce7b94");
  ("RSD", "0x868e5f04365e32fbd0adc632e440603ea55eb91f2e041f6018e77751b0d54022");
  ("RUB", "0x88ffad9776cccef301dbfc83d0a9308682b27b28660b619923285643513e864e");
  ("RWF", "0x2f425f5904e2a110eed99894f228e047a483baa6bd7bfb9f4501629b60a98e83");
  ("SAR", "0x3e95c98e63a45438e1f242419f9867660b88eeeecf697aed33f188366f2b7006");
  ("SDG", "0xe616275897f6f91309baafc8ee7f5f3c159967e260dc76afe051eabf27bdaaad");
  ("SEK", "0x8ccb376aa871517e807358d4e3cf0bc7fe4950474dbe6c9ffc21ef64e43fc676");
  ("SGD", "0x396a969a9c1480fa15ed50bc59149e2c0075a72fe8f458ed941ddec48bdb4918");
  ("SLL", "0x76c892db8fa9c2b5f559d688f7bb883201397752d19246893f43294fe1029d93");
  ("SOS", "0x502587bf88ee47d01f47a4ffd6eda417d04001bd66167d496e495621c238ffad");
  ("STD", "0x60ccec455a2dc0f75619b146937e7644e1d85c1a8c8b955ba70ffcc7c888ee24");
  ("THB", "0xab1bdad3d2984801e48480cca22df5d709fdfd2149246c9aef6e06a17a0a9394");
  ("TND", "0x7e4f6ce047acde1f5c03951f49bf8a57c6b0b1e1e2e07252a2b570e258eff3d6");
  ("TRY", "0x032a2eba1c2635bf973e95fb62b2c0705c1be2603b9572cc8d5edeaf8744e058");
  ("TWD", "0x489f02f2f13584026d63fd397c80ed3b414a2820c4d43da0306fc007fcd5a8e0");
  ("TZS", "0xabfb0c861c25124c54a818ec7bb9b02243bff01e9014ecf3e50808f5736f8f8e");
  ("UAH", "0xba61380cd5bf29c82ca3c59dba3a03b2d55629492da025fe9101ac6a32293af1");
  ("UGX", "0x1f946ee84ce82dbbaa0fec69cdd4cb9e911076788c77c6f36d42a3491a284ce1");
  ("UYU", "0x3aa6f03c8ad1cb1a65d65f4726eb91f56fcc30c6fd90c150e6b054d4e80eaa8b");
  ("UZS", "0x8e884806b4eb41b002e824c08218a72bf108fd88ef9d6140183c7b2977402f3f");
  ("VES", "0x3ea0d13827d48a2ea191a0336f41d89fd1cdb75168863729e8c5ef08d13cfa76");
  ("VND", "0x325e6af848703dacd63f82091d119a3ec8669bb9441b337e821e749f3edd5381");
  ("VUV", "0x8fdb50013272d8e5f8caafda8975db12b9bc070506a518a11cace26d6a81e7d3");
  ("XOF", "0x78ce64c90dff33ef2f48e999eb4638ec44da416d5dd99dc6ddd7aeaffec64f0c");
  ("YER", "0x385b66d2a9a024998ff88cf49f144ffce7eacba5ef5d0a585fcf1aa5587dda75");
  ("ZAR", "0x389d889017db82bf42141f23b61b8de938a4e2d156e36312175bebf797f493f1");
  ("ZMW", "0xe6ee7f0254857de0602c124de8cc8c91e3db17928125454e691c03763239dede")]%string.

Definition FX_USD_ACCOUNT_MAP : list (string * string) := [
  ("AED", "G6fveTAErHAQNvbVwMJrjgVzEshKLp6ir2aReLHmKpFD");
  ("AFN", "6DuZwTW6A4wtsQexVQGn4RSDd7uNAMEX3i6d1yH9bjVQ");
  ("AOA", "BvQwg9ehyx8vYLpsVvq1q5ha2Yn4uizCKwjgYe4GWSU1");
  ("ARS", "63QuVDExAKfPe2S13FyZAZvyYgjrQFQFEVD61emMHLaj");
  ("AWG", "y4FHqXihsEEbYCF8NS24JELBhchwQhxhkJAKNfjmqPh");
  ("BBD", "7twMk7EL7osSXGEoeCVxc6Ed91aYL9hPAw9YmUxgy36T");
  ("BDT", "HjMR5e4jpgPGrdYUjpBSXacsQ5jFRdaoA6YwqGUTzjn4");
  ("BGN", "2ucZkLL4gtKrDzKyT1tvZTePQNCc7oxrkkZ3xZXerQu4");
  ("BHD", "FFvr43H2zyYRrdnd89WPC55P4PU1LihLuR2MDdJHRWjh");
  ("BMD", "H6hiWcjnZR8rsgJ2xBhiAuukoG5swsi7E9MUcbvCpfkt");
  ("BRL", "nBWiPMtkBwntztmjV3mwWAwHEY5K4VtQ9niiMkKKjXA");
  ("BSD", "J1x5sm7BAh59MfR8jojZ3Zt7yGXay4dmMBTunamMAJsz");
  ("BWP", "3t554C6KwH8B5ux1SfepVbYonpxNnoqT95HrKJpzLSQJ");
  ("BZD", "6ygar8mm5DZsemfD8PJqpnd3kjpE3bppHGCjRwUJChvG");
  ("CAD", "Vy9fodPDPBx3Wjb93KnbawwtUMr5F6cG4nu7SqX4RZK");
  ("CHF", "2ZqJFpxWzbu39KHRq95L8q9jRzi31a4NWcpDfZy5eUjb");
  ("CLP", "GruNktZeF8Lv2TsHN65QMZFQkxKKgcGCrWVXuJXoFfEm");
  ("CNH", "CBh4vU47hYJPDL7gAQLWiQdy6UYAR5z5k2JEvuyZXqYt");
  ("CNY", "AZWcqqxgMxLiMQfyWGU47nJyB2LoTrRVBtMnaLc7cm95");
  ("COP", "D2yhJgFdbFbaYxE6DbaqKqZkYgXgr7TSQeXd8vQA3DRj");
  ("CRC", "9TCFiV6FZtyjY6bReK7aThP3DmJ37jCfsu16zJgU7cW6");
  ("CUP", "Dw2LQ3Q8bZYXDYZ7WM4FTHitfzDfufzziyJtG4Ru5yJi");
  ("CVE", "8Jg2x87eQtukFBEFH663pKupwPikowgqxXHPQYyFj12C");
  ("CZK", "7SB1mPw2NCkae8kqvrwNQueFbPp875GPKMcNfhcPXEtV");
  ("DJF", "5jPQxZAeNgst9b8Hxxnq93n7m1RgCvejiCKdwRRhUmy2");
  ("DKK", "CE1vkPzKRd2wFz8tnstCSqerAzzHpi1RohgV69JJBwRg");
  ("DOP", "7aG2J6dJoTtMrp9p7osDFHhXzJ7884YcLLUJ2DF3Zv6c");
  ("DZD", "8oC2eqPusLmgoEhQhMGnuKttqE8vj83ymRtgmrk1GsmV");
  ("EGP", "C9Zqoox8CnvBRKSKRMA2dQzNhwF7BRG7hUdNNkcTAKw8");
  ("GEL", "BEcDzY311BbVKsjnpyDKP87cBssEWaxAc91HszpmZ5TS");
  ("GHS", "5y8qkBU8zZ4fwu1sNG17khD9y6FNUWKXBkQ3JVngsjW3");
  ("GNF", "HN7SbTua8hYzQNbyN4SNKjEjEeVogGp1ExHZUWHQdG4c");
  ("GTQ", "5UYbzrEjvvWqGiTsSnZSW6tmKKJw8A76VcQpvwneu6WX");
  ("GYD", "8kp4nKyyb4GLs8cq1jDrw139B6QUfjgpdg8w2YgF9vPr");
  ("HKD", "FZ7ozvwdrUSh9j3gm53bbosigcuzAK9iGU4nruhS5i77");
  ("HNL", "EsyJwuibN6ZSM2YPfvm1Qv9ErtD1pqhcHu3uuq8rMEqg");
  ("HRK", "FAvF6XJLfZL4sEcHi4jbJAKLM7ofnL9KMxMzFdNaJEf4");
  ("HTG", "77bNjrLExweu474ncX9WjR5DTYyXwP5ZNau4oYxYqV8C");
  ("HUF", "GTVoQknT2upsMJmyUGhQuEdjpWsfV6zrm8T3LphQYck9");
  ("IDR", "HFJeS2anCyazSEqhte8zpm7GiATXE2khVRP3GAGU9BG7");
  ("ILS", "Froq79mU1i7to9vZKbfPtzdHoFg8WiZveNrCr8HfSH9j");
  ("INR", "7WuwYK2AzuhN2xZL9EZvUmgstWFLJcx54kHnZcK4quCn");
  ("IQD", "4saEyDnphdh6YVQ64Yt3KNjU3j8evxsGpVUxqKYLGWPj");
  ("ISK", "6MYXorFNfSrrEyvYGzdetYw7SLtzctEyCwGUgVpHTZn1");
  ("JMD", "HKaLNBaaacAB3zTdvHm49z3eEvA9HtWixHF6vcCX2uq7");
  ("JOD", "AJjwD75MDYj2onvEtmdwyoaaAZKXUKT4hB46sjmHpX4b");
  ("JPY", "AMpTDXYcq8WaDR4FG8JW239vuwzAGqeS4fJSqGZi9V2P");
  ("KES", "HHDze4wAkzJDT6vxuoKU1sjCEUeuUbmssR9vY1nBHLky");
  ("KRW", "6XEGST96g6mU1DBDrpTrN7J2HyHVDXAgWtd7FbVDuFA1");
  ("KWD", "43gJcfZukWT1WF935GeJY6shiAiYh2wRRgDirE7HeuWC");
  ("KZT", "ngfZuNBhKkziWfuke2UdZUZEy4J6E5ZiYQrFQM5A4TT");
  ("LAK", "GttJr6BFVTfKREkMLv18iLSpZ9ruq9rjLD84K5FfG9Pb");
  ("LKR", "7cbHCu5WrBartBjBigCU3aFJ1sTTjzEwR2QkdruJgvR5");
  ("LRD", "FwAyrbxbb2FsY7qxywwF9pccGRa57YmuAGD1Cg2DfxGZ");
  ("LYD", "61fN1jwSktnnQCMVTRHGGVGLkgthQGvGxsLxfmMKEJL1");
  ("MAD", "9nKWnjTDEno9NZd5ezz8hCHTn3A3AoDEBA4QSr96FqnW");
  ("MDL", "3zpPk9UJCadzST4xTiR5LNKNEshiceWD8rddZgTmnZDr");
  ("MUR", "nNWtRLeE6qgtVuDr2bpgtEq3oki465wRu8Wq9zj7ED1");
  ("MWK", "71VbzrWj5dxvhQr6wAQGJa9zjrg6j3kv4CHwUsJqUf8U");
  ("MXN", "8SFnFrqM9b67n4UziDAcs9D5LwGc1X4bc8zF4g5BG1Ux");
  ("MYR", "DL7C7XFJNPpYaeoeJ3fnVM2F5PkZWQUC96JkeoMEoaG5");
  ("MZN", "GzZWg1L18wy6EQcN68cg5EriJmyicSiqjfwD7d2syoPc");
  ("NGN", "4BUjZRThYpFYfrEPK4nN1SUMgy5NkGYoweSKEMqz3yrg");
  ("NIO", "3jQsrqY8GLTLVY1XyVmpj4HPRzfDmACCABYEykF24Qfu");
  ("NOK", "Dw4EWbwEFZcqJMqMoqbqqo4FyRU8mH7JAhBcPEBEFZ1r");
  ("NPR", "2b5RvVP9Wna4uazM9hPfhaua3dHNhBP2Los3o82pMzVg");
  ("OMR", "8EVwpfkP9hsiCraL8ofTy1iniAKJoPdgwxXpUCVULwPL");
  ("PAB", "31KsFfpcVvSwHnp5oJ4pAjy1BuJY11UZ8zfEoQJfYB5z");
  ("PEN", "ASCzhfuPvgMoKiEkLDzFJesZtiK5pM6Rk7nAxZkaZg3");
  ("PGK", "13x7oRd4w1nX1EvyZjh8gG2QNaenv55YbN6RLfFs8QJs");
  ("PHP", "H768cagbB4LB1gck3B52HEJfwqckHKaVg5FEn2kEFyos");
  ("PKR", "AnnbN4NgzVTDYDxYcNkqffYFF76W4EZh3VRWAwdMCPZ8");
  ("PLN", "EoqQQR6dQ7jMrKoRmaJ3Zzmns7n3Zq9P4cAD7fLSKod7");
  ("QAR", "A5LUcBJz4ACKL2ka8mAhtZmfcqHB6nzxPm4WHHeMuLYE");
  ("RON", "8Yf8jZDDAeRD3VKihrSPwxiPBmGLnR7ZJn4RoPPHDHDg");
  ("RSD", "BNTUQVyT4h4c5R1WA3Lv4xfLrLsBkAodstNwVeEmXqu3");
  ("RUB", "AXbsr6xu9QABXNLHZNbVh2tRBbQgTFH8Saog1t6RV3Y8");
  ("RWF", "HzqWHzq8HScSFe555eM7A8TzuDiT7KVJSoo9aKRwG5oq");
  ("SAR", "FuB4MRmqG8qUdca7W9Smtdoyy6VvoMd358fqm4xnAS8R");
  ("SDG", "HWZQ4uZ5Xfx2CbncxgLxZK95zQqAPF2JKnnPZhp6JNRd");
  ("SEK", "E4Xy2b51cWfHkSJ4TF5Atzk6f3brtNvtVoXrwHiEq68D");
  ("SGD", "9CcDaoEeBHHcFxRosnWu4RunqZPHceYSqWnNVVf8yMaU");
  ("SLL", "A9Z8CQKkmyGECLyLmVU6XppjJD4xDUBoB5Nt7TKMPdid");
  ("SOS", "2Lau7wuf79femfroDFWJpHcFNEQzH1iT2iRh4N9E2gX7");
  ("STD", "4c4pG37NQxJpgHAWmHWfEsyp34GhAAfhiUZTBxwChWu3");
  ("THB", "EsTPhNChiA5HPFgZAukw3QyAHKG8dAgj1SXDRcCrhqEH");
  ("TND", "8K68a4qbzKCuZtDGzrQYfBApX4WArEFRYQ47GuacvCen");
  ("TRY", "5LPi11NKFgrpMu7iaxXXYuVCsezqYkEmJGP5n3f7w85F");
  ("TWD", "7SPJB581S7e8BEpUUFCarYC8kta5nSBSYSkAtbSKts8K");
  ("TZS", "rAQaRVJHMqZLbMK7qVaas1F59kxh48DoVUf7wYYdBfG");
  ("UAH", "73HbEB5oZZfspHYCzQDtyjWU9pdJWiwMZFcXdNPzMZ9y");
  ("UGX", "HPEQmZ2uehVYBVwmqKCHn9KwBffEn5T6G8dMKaZKSChw");
  ("UYU", "EUhf99nFbpphRp3hgpSAjpoxwkoQkL4sozYJJScKASmp");
  ("UZS", "FLmqSqETZTEJ1WUNxVBHGi44P1ZiQ9JF4eHNaWWXSvkW");
  ("VES", "2vNeNFNifpR6itFPREzVAZ5wnkhW2UezY13mSnSQypsd");
  ("VND", "5bK7uNQTzbH7CnkufvyJVVEFgsAGsv8Y8a58wPLeHr6U");
  ("VUV", "BQFBxvHoaznTvcsXwF3g6BfrcfzV1GY63FcipPkSZYGy");
  ("XOF", "7Rh7Lfpr8XF5pWZk4mAHWBoSojEZdTPdWsdeuMkX8PRu");
  ("YER", "E1nPsh9gW5m3KhYKQc5UanhFqnWocKSoyR8S3nWMHkuZ");
  ("ZAR", "6uNmE6c8aXB47nE9YvUebyxDpArRmnNTaEoqxA1URtSR");
  ("ZMW", "Gwdo8kwkfV92xVaSMeyuPvTH7SiBx6kwTRpcXwXPgrAM")]%string.

Definition COMMODITIES_HEX_MAP : list (string * string) := [
  ("BRENTF6", "0x14cc780e57246819f68589d9646f507e70b637d14ac0dff2d384cfbc792a0256");
  ("BRENTZ5", "0x7e990daa483e54a9a2b25ed3312285c867a049b5b3c84d27fe8c2ad9e0d24c57");
  ("UKOIL", "0x27f0d5e09a830083e5491795cac9ca521399c8f7fd56240d09484b14e614d57a");
  ("USOIL", "0x925ca92ff005ae943c158e3563f59698ce7e75c5a8c8dd43303a0a154887b3e6");
  ("WTIF6", "0x0f402711648215fd68b3ac1deafc9f7edd072d59fbfd0ac720c723d048e64908");
  ("WTIZ5", "0x0c62848c8afee091f2c132eef944e3075c6de476129efc872a4202d81ca34f99")]%string.

Definition METALS_HEX_MAP : list (string * string) := [
  ("XAG", "0xf2fb02c32b055c805e7238d628e5e9dadef274376114eb1f012337cabe93871e");
  ("XAU", "0x765d2ba906dbc32ca17cc11f5310a89e9ee1f6420508c63861f2f8ba4ee34bb2");
  ("XPD", "0x80367e9664197f37d89a07a804dffd2101c479c7c4e8490501bc9d9e1e7f9021");
  ("XPT", "0x398e4bbc7cbf89d6648c21e08019d878967677753b3096799595c78f805a34e5")]%string.

Definition COMMODITIES_ACCOUNT_MAP : list (string * string) := [
  ("BRENTF6", "A9x3QCFRFZUrkTXzzsEv1jREx1U7RqieE7yfi5a2MBqR");
  ("BRENTZ5", "CPHr8dZ1V6YvwnB9i6zLAWzZKUNMmYN5Ti915HQY721Y");
  ("UKOIL", "2w9jhzYm9puy47VTNUpAhpVdSZyGSQUq7u7JVmJJ7TVc");
  ("USOIL", "4LPPjSGx5s3fvANM78zVhVFhEUQSJGHc1PUFKRjR76sX");
  ("WTIF6", "4rriGpoRbLXkk7nJBxUCnBT474faTW9q8ACWW2v1Tdif");
  ("WTIZ5", "3MBVC4DW1KsJcH1CB61XNHMo7CPkKW21gFNUku1sJ33q")]%string.

Definition METALS_ACCOUNT_MAP : list (string * string) := [
  ("XAG", "H9JxsWwtDZxjSL6m7cdCVsWibj3JBMD9sxqLjadoZnot");
  ("XAU", "2uPQGpm8X4ZkxMHxrAW1QuhXcse1AHEgPih6Xp9NuEWW");
  ("XPD", "FBy4Q8ezfPhUpz9T7dHDMvq99xo843EUjmW9j7HdSubw");
  ("XPT", "3cqhrj49qGbSfvaWCRCsTE9314NUKuUwM1REkiS2dRKe")]%string.

Definition RATES_HEX_MAP : list (string * string) := [
  ("BGCR", "0x853d8ab1fd2382e2228f8832fc05a05cd3907b0606222d219fd0ca4ed5814a48");
  ("EFFR", "0x7b4dec92f417eaaa9505157f49aa76893e70a53e9704bc48c0c77b0b45d7b3da");
  ("OBFR", "0xaf83c3680722a0b0139414679efade7265f9f7e8e4aa91d233ca1d0a3aabaac6");
  ("SOFR", "0x0f5fd558019a7cad9eaa012cd7228c65f2b7ed31db3f66ec557087a769df0f67");
  ("TGCR", "0x41b939f91bc6c3e3f270a0d1ade8e8d0dcb6b4a6268e372ee375540eeb674a03");
  ("US10Y", "0x9c196541230ba421baa2a499214564312a46bb47fb6b61ef63db2f70d3ce34c1");
  ("US1M", "0x60076f4fc0dfd634a88b5c3f41e7f8af80b403ca365442b81e582ceb8fc421a2");
  ("US1Y", "0xeee4c1ea716cd1396080c52c13ed29fe54dd2f97944a7ad76ae37cc22c27c5e4");
  ("US20Y", "0xda57db027e01bfad54b12833638a100923e5b637c012ab746d8a32f06c9b325c");
  ("US2Y", "0x7d01ec0cb9d38918cd497f97b24cb6cea5552993f5da05863886e6a2d33ee0aa");
  ("US30Y", "0x424c69939fc52a459f6dde758d80f74a3628c0e9b48bfc142df1270c9b9131be");
  ("US3M", "0x5f112a41dc65a8d2b37c533a2fc6f5efed3a385a03c1fb33e534a3857a90c97b");
  ("US3Y", "0x25ac38864cd1802a9441e82d4b3e0a4eed9938a1849b8d2dcd788e631e3b288c");
  ("US5Y", "0x7d220b081152db0d74a93d3ce383c61d0ec5250c6dd2b2cdb2d1e4b8919e1a6e");
  ("US6M", "0x2400f68d24f1320272d82dd4ac99395166ed7ce172c6c5cd6cf775a697f2dacc");
  ("US7Y", "0x2087a47ebf7bb31aee61ffd003a71efe2bed0dda16746ddde63f498f68ece6ce")]%string.

Definition RATES_ACCOUNT_MAP : list (string * string) := [
  ("BGCR", "GdPpSzyW8dS6qr8cbmKutn263tUZHo1BZFY152TvuDLP");
  ("EFFR", "2g79DLRiuSJM75f6wbiqryA55CU7ZZYTnocbfeJUAJjw");
  ("OBFR", "GQTuTiFzbhap9FCGmSpywY14zBGhb8BknRP5hiPhBEgT");
  ("SOFR", "6QWz4yTU2qZJfjH2CbVThCG5Y3j4YCngh5EBeGyCjLER");
  ("TGCR", "74JzKNRvCmpomS7xqow4WP5Fr9QxkFDAKWuSMSzsnmbe");
  ("US10Y", "3NaLNXNAJgFK2eCe5nCFBugKSMVJXzDBweHqh5mdYBRB");
  ("US1M", "G8LxKrgMPibhzrc3nSoU7vWMV6ZXYErp7kaeLXqgApGi");
  ("US1Y", "Cdf11VeqksYJRAZMr1ZMSxStNeFq5mhCqRHDMh4eXCEC");
  ("US20Y", "AtKNKNZKxEpeBsBMr42vWZ4roDeQCSpBfTCRhEzXwSzJ");
  ("US2Y", "7PRCyJ1rPAUTW9N6Fd6oUXE5zjvapAk5VHJtdmEi3Yrp");
  ("US30Y", "94woK2CUvgZadCoiriEhMT5ctqBRGigyPMwceTCEthi6");
  ("US3M", "BUGT4iZ2JUoVYyw19qMAMsErhnybwzykePd2W4WKGowy");
  ("US3Y", "7xyMxg8iGxamXqtffGNCswSfR5odB3zVGyXFud57e9SS");
  ("US5Y", "EdUZZqsRp3q42UYHZLwuL376CvDEp2wPL9hFq4HX3Dre");
  ("US6M", "AWR1GgYRiwvzY1HKW4MLFwieqg6L1JLswKEuXVm1pdjs");
  ("US7Y", "a4ioJFd96V6WXMH92r7fq1XLNqNvjx3PswFB7QF8Eg5")]%string.

Definition US_EQUITIES_HEX_MAP : list (string * string) := [
  ("A", "0x95924710b36b19bdf82353dc921cb512a89b8213eecddf362a5212677d72a54c");
  ("AAPL", "0x49f6b65cb1de6b10eaf75e7c03ca029c306d0357e91b5311b175084a5ad55688");
  ("ABBV", "0x019ae7cb58ee716ebdd1288b057373d60224fc98a9a43ee373c6b0df1f3ffdf5");
  ("ABNB", "0xccab508da0999d36e1ac429391d67b3ac5abf1900978ea1a56dab6b1b932168e");
  ("ABT", "0x4aac40f432e039ab06236eb9bd3c58347f953d8f05b29aaac295b99cc47ee429");
  ("ACN", "0x68848984b74a7766ad23cdccd8e78e9ef339dcfb86b7e96990f27447c20967ed");
  ("ADBE", "0xdf82dc88ea742bb42bdb845e5fc3ca4eef2354c67357d338221e8a696891b4ca");
  ("ADI", "0xa388977cbd7b063e456a31267919d86395af058a7558e892dde3c6b38c6240bb");
  ("ADM", "0x0c4659250a9acd91536227c64e4d8dd65074ec21c3537ca554ea2aaeee00dd95");
  ("ADP", "0x147e4b877552f9832b87f04038b21da4a3054fd2ae654bed4cb92548bb33f4b4");
  ("ADSK", "0x3d3b04f0e32bd28246e6fd6d0e863e621827a6da9e979e7a7df5516aa28e9591");
  ("AEE", "0x3ba9d201026abdc250a275d59f722abeef1bdcdc7364fedbaecef61c7da788b9");
  ("AEP", "0xef333b80d26fb3630c870da74de7a52b4c5f40ead3cfd841a9d0fa6bb4186b5b");
  ("AFL", "0xf8b4d7aa681488438f9e51351567f3977480736923a4b75d326625f36f025836");
  ("AIG", "0x9140533c3a5bd8c00b087c2d6e3b396f2767910484e61349a643f2e32a69f753");
  ("AIZ", "0x0807c53eeceb8d3cb15096905d94839971f34cb2cffcda0358c0a8294cfa72ff");
  ("AJG", "0xe26394da01c493bf0606d33395ad72c97a9d0e0cd68b31ace8832c6451a1f5ff");
  ("AKAM", "0xacaab0049c5381f27cec309af76efc0d6f375922183d2df23a20768780ee652d");
  ("ALAB", "0xa2c896238e03d8126369b445ed0157a9cfaccf095510a68b9100beb8885c0e47");
  ("ALB", "0x4db91e379e36addcdb1cc75dcb03022bd95d5d95148c41d268348d12cbd27c18");
  ("ALGN", "0x973f5dc5c6c960f20c98c0d14d76c050fdf31b393059ca724fbfd746aa5b44dc");
  ("ALL", "0xe99bb427a3e84a107c6e3108cd81608bfb1c54bba024374cae15da93da756c02");
  ("AMAT", "0xb9bc74cc1243b706efacf664ed206d08ab1dda79e8b87752c7c44b3bdf1b9e08");
  ("AMD", "0x3622e381dbca2efd1859253763b1adc63f7f9abb8e76da1aa8e638a57ccde93e");
  ("AME", "0x79adceba85771f08b71af57b027e0cf98a040738bca2a70ed3f89736a718f77c");
  ("AMGN", "0x10946973bfcc936b423d52ee2c5a538d96427626fe6d1a7dae14b1c401d1e794");
  ("AMP", "0xa63586143073186f23c7f8439ab75b558b9be60f37f395feae47d4329f509ee2");
  ("AMT", "0x8a80397a6e962b6e260d620e3c68d08ab94bdc82fd27d2c506d41b8a52280364");
  ("AMZN", "0xb5d0e0fa58a1f8b81498ae670ce93c872d14434b72c364885d4fa1b257cbb07a");
  ("ANET", "0x31cc7558642dc348a3e2894146a998031438de8ccc56b7af2171bcd5e5d83eda");
  ("APA", "0xbb118ccad2f8d1df2d4f173abacaed772b8443abfcf6eacee1207a5e5d9c105c");
  ("APD", "0x3a4d69933f6e8e251a730e1d04ae7fdd53a2b20a1d111bbccf263209375646a0");
  ("APH", "0xd0723436221cd8ca5f2f11c38920271d77950e7ed0cec1a764459b465cb88651");
  ("APLD", "0x7fc1e64946aff450748e8f60644d052ae787e5708dc48c6c73c546ee94218cc3");
  ("APO", "0x40176a5dd12a53bb1f31e848c9363863dd6f8e755f35ef56d2182fc7f1d03853");
  ("APP", "0x54f128939505878cf4412abc5a533255ce07e85833849170deb67deff0533aa7");
  ("ARM", "0x957bf692b35cc62f222dbf4dc6929130df42fe17c9f03373f44c01f78b05391e");
  ("ASML", "0x1a6e324589a0e355919fb1c0389edc3fdf4c46034626bd82aad4e47714cfa94f");
  ("ATO", "0xe045f185730daa0a656655aed1317710b047bda0a7e74d74b24f112d37bcde53");
  ("AVGO", "0xd0c9aef79b28308b256db7742a0a9b08aaa5009db67a52ea7fa30ed6853f243b");
  ("AVY", "0xd302d0bf304b2a9a186d58733a2fd9d29a9f4ed7c91b74df44071c614f81363c");
  ("AWK", "0x36f47f658e232e48e4d922d9cdb9d553f71795d05e2655312e11ab853189484c");
  ("AXON", "0x9e2f2b1adb8ac673c4a8dd6f4e4bc7d289df5f1527efd593c69ffd866faaba44");
  ("AZN", "0x7fb3b27d9039f8ca0a435fe0fdf724a3a5a2309ab62ad07ca775e5ab2100c1be");
  ("AZO", "0x3b9f8ee08c4dedaf70133256945518df1f037449c9d81cc678907694bdad3f0f");
  ("BA", "0x8419416ba640c8bbbcf2d464561ed7dd860db1e38e51cec9baf1e34c4be839ae");
  ("BAC", "0x21debc1718a4b76ff74dadf801c261d76c46afaafb74d9645b65e00b80f5ee3e");
  ("BALL", "0x906e8ef631023ae858c46e558604401c827c69f503795b4603d29f69e57afbef");
  ("BBY", "0x1de9dba93a2de170417a6e113204ec0a7fcb594643a14e590a3d6ba1adef0017");
  ("BDX", "0x97ee6da593bd5e1e73b1edccc05f901a89b698abcb56d31221e73bb9684a4ede");
  ("BE", "0xa955f59cec6006d55ac21ab009c92662f2d9250bc22b86fcce16e7962c129c4f");
  ("BIIB", "0x1fba752348cffe265d87fd24eb641664234a089ff11947ac8d1bcfaa9430c453");
  ("BITX", "0x6acec4867e7c4b0610d0422ff34cdd368552e846ea9df4fc2bbb4681126f724f");
  ("BKR", "0x2792f57bf9f228b8e0d12053938e5eb1002f00c4fd76e0f21679b0b5ea576428");
  ("BMNR", "0x54e2e127c93950de5a710100fd1cd387aba1ec8920850efdb05da5fee57d2e32");
  ("BMY", "0x01d1d77d2d98cb38f163ecb6c1c0e3b8d60bbd5aa23c915b282f0228ac7d9967");
  ("BR", "0x945c4b4ca2c3526335c4b559f7948620d54c80323a56db7b70f5333671fd2416");
  ("BRO", "0xccf32dd36514b9028f6d5af01976fcf20e7a5d6a0adb040af5b6c84f1c76c600");
  ("BSX", "0xd699ec7e73369362480f83d2a6f6ec778fa2947a45f1e94309cf893689d35262");
  ("BTBT", "0xff62267568a8f48ec7b1805eb989a8c96da713b335caf20275def485da7984c9");
  ("BWA", "0x20e3150670edc7674cf130f844934de184fb497c271499d6c4b9ffad3c41ff0f");
  ("BX", "0x9b25e42163e85658664651dac0915b2e0474fe6f5e19541e48ba2356f11a9f32");
  ("C", "0xe7e7aac1ac0524cd3666fae4ecafae5e1fee880c11f3a7b4b7ea61bd6e434a63");
  ("CAH", "0x970e53ff78966bd9cbd5c4fba2254484b2e7b5e117403b635b0ca482d7346ff0");
  ("CARR", "0x98057002daf66705e7542c2934f246bed459c2deeacc465f2f2b137649faa5be");
  ("CAT", "0xad04597ba688c350a97265fcb60585d6a80ebd37e147b817c94f101a32e58b4c");
  ("CBRE", "0xc153deece90e57f0c4b2bd1b693deed41e32a8117fd6eb8269a49e71d5080292");
  ("CCI", "0xd346bf2b5a30cbcb8092c1eed6afe9e747bb5a6a63ed7c008164cb280c64754c");
  ("CDNS", "0xa2168b2c613dcd4b8c0f50e255b61a1c5dfdf750eddaf09bade719b9ceb573a0");
  ("CDW", "0x3cb1afe7c1f9633ec2245e2ae902d431989d86e67fe69a999ea4736365226049");
  ("CEG", "0xa541bc5c4b69961442e45e9198c7cce151ff9c2a1003f620c6d4a9785c77a4d9");
  ("CF", "0xe2bad4d409637556216267dbb29fcb27d23e263ae12ab5acbb68b309ba17783d");
  ("CFG", "0xc7c24c987c84f7c76bde1a1d50ff04624422d9ac68bd8f039a57a30e24dc524b");
  ("CHD", "0x29f6892fec85377d66086b3c323e298c2a0bf133551e9a0a91c150b95517aec5");
  ("CHRW", "0xf2df0a854dc8f45e9c6f93bb7e4e2720c920b2a5208afba18075a87fb5a6f6ed");
  ("CHTR", "0x1585a2b6467e2bf7788d6c58ab4b0f2259610d5997f8aa7b6c160417250c71f8");
  ("CI", "0x50792163ea9ceb6e4142a4ae35845e4ca4c559b89bbf6cb3d426f79534717401");
  ("CINF", "0x2bdf663a6dacfbb4f986adc98d833cbdd206ab64d6f5fb0cd5470e91bb3985a0");
  ("CL", "0x89b83912f0fe0c5091de834750cac3de2ff16b74b6a99bab7cbae25dd6585f4c");
  ("CLX", "0x772e16ce4ffa670ed237b51edf04a153137998d06162517f75ad0baa45e118c4");
  ("CMCSA", "0x1bd6720eea4df323c076c9bbc1e98e8f5fe4bd16584e56468c5fb6b1a6072725");
  ("CME", "0x8773fef6b95d156416c3025d3a7b6f90b4a88b206038dde8000b1acddb714906");
  ("CMG", "0xc1046358a2b78d92a2ad45b9d3c271350ab9335b478df21a390b8924cad91563");
  ("CMI", "0x069463ea9b6c8741e39498539365f385d4fdf0acea213d1efdb6ddc30101d0dd");
  ("CMS", "0x25be29dc1eae3448537076cf0d14ef2c43dbfd5de043256ead46fa01a19b425b");
  ("CNC", "0x46c5fc6eefc5becf2f8dc3656357c21ef585feaf74bc94f0fc58f6f33fae1205");
  ("CNP", "0xbf3a21d6b8dbb4df9e75df58c124be8248239c005d117fdb9e0f0ff434d1dfa8");
  ("COF", "0x857c3a552953250d5b19db7341f3deaed12ff623f2db451e30581c266b23ab58");
  ("COIN", "0xfee33f2a978bf32dd6b662b65ba8083c6773b494f8401194ec1870c640860245");
  ("COO", "0xed5a005efa0f84a8acfab450ce4429c3dd57f7cd3284d04eb0c65820e062e85f");
  ("COR", "0xec3594578eb750e3b9393433e983263baa18018db14e1d220c6845bf2fe480a3");
  ("CPAY", "0x221834e0bb6002d75833e2aa4dcc4fdd26b8300a40e4546978946c3dff272c29");
  ("CPNG", "0x5557d206aa0dd037fc082f03bbd78653f01465d280ea930bc93251f0eb60c707");
  ("CPRT", "0x9bffd1e8d7b5f6c4890216b89d30393cf7284c540a9e0843c92490b58167302a");
  ("CPT", "0xd71412c0ef13b400c49514108d5236f47c5c30906ac8ae7c65b40bca8a6a984b");
  ("CRCL", "0x92b8527aabe59ea2b12230f7b532769b133ffb118dfbd48ff676f14b273f1365");
  ("CRM", "0xfeff234600320f4d6bb5a01d02570a9725c1e424977f2b823f7231e6857bdae8");
  ("CRWD", "0xbaed936d3c6c2e34104e92c6b015b97ce96adc5ab4f04230c1270e1162e7a270");
  ("CRWV", "0x2a78b78189d6d6eff30a825e4698fd14a0b1ca659bb0079bb7e80521c0e8c75d");
  ("CSCO", "0x3f4b77dd904e849f70e1e812b7811de57202b49bc47c56391275c0f45f2ec481");
  ("CSGP", "0xc858b58bd00ea15770243cf7410c5fbcd09b4ff12775d6279464a2508d660932");
  ("CSX", "0x74f3621e920f9a9d78595ed957c9090007d19e82f7c0edbe89a392bafec62c64");
  ("CTAS", "0x3aac822069ed803b272ade5510441f32b97501963cad9598ae61238bd8843aa5");
  ("CTSH", "0x440045c78d204a0ec4aba5fdeebcc10a7eb9cd3a3df4a89e3aa917653db8ef04");
  ("CTVA", "0x5fcafa59eadb26d764ed8de3d1ce071a4a9337dddf093ee8a7bace713aed7f22");
  ("CVS", "0x016eb8866d4455bcce669bc745835fd1f00be9c9205602abb3a2b3cc31e993ff");
  ("CVX", "0xf464e36fd4ef2f1c3dc30801a9ab470dcdaaa0af14dd3cf6ae17a7fca9e051c5");
  ("D", "0xa4102a6d0a6a6e5bf66fa3599411d688f8b253d38db982a266c5eec6ba042c8a");
  ("DAL", "0x8af4d43c43e35e6849f686e831f8201d3e868e921ac22de97d6acebde95d2829");
  ("DASH", "0xaf9f76555c0147ec660100ff1639eb128e48c4f16b0aec229b736c04e082de23");
  ("DDOG", "0x5c49964b5e5420d84e445a2f5e9e3965cf3a82a275d83f8efc30cdeeaf2d062f");
  ("DE", "0xc2d23f236142a519929b147c4dbe8720475724918c8b8473db0283f8cf044184");
  ("DECK", "0xd31cf7d2e7a6a971b74c72815830c642d10a3c4cb170163b30833db9fb1d3d60");
  ("DELL", "0xa2950270a22ce39a22cb3488ba91e60474cd93c6d01da2ecc5a97c1dd40f4995");
  ("DFDV", "0x02a0c5a149bbb9e33a75eb56b8ecd36953b9e1725a821568271948412870e109");
  ("DG", "0xdf48fe2e8442694202366ab9de55554ecc68c9e0cfa385fc692c6905a3887d34");
  ("DGX", "0xeccf190dca034f378b3b3051e70da93e882c08c665befbf01bacd866c1976fef");
  ("DHI", "0xa2c9466d7558768573d83ad57735177d8448098d0a87aca9ca2ae9a9585bbdcc");
  ("DHR", "0x725ae6c67201359f9601d6ee8228c821f0abc93fef5cc509acfcee3f7bc2a388");
  ("DIS", "0x703e36203020ae6761e6298975764e266fb869210db9b35dd4e4225fa68217d0");
  ("DLR", "0x5af7f961ea231d5f4bd19dc99d1fd43f6de67ab57b73779f9ebe65a6a4ab64d5");
  ("DLTR", "0x5d9f295f1afeaa993f9e07600158a1b8566c27e003a929d123f9b6c97164da0e");
  ("DOC", "0x0adae539549d8495edc5cfc14dfed8974fe440a8c195df187d1a75bb3bb7b441");
  ("DOV", "0xb9a51a477586da4fca62f1c20002b1f72d715733aa242cda5e99ca37beffdf0e");
  ("DOW", "0xf3b50961ff387a3d68217e2715637d0add6013e7ecb83c36ae8062f97c46929e");
  ("DRI", "0xf2f92d342955b934fa72137c7ed461dfd3e3112a7b962070440190b8184a7ab5");
  ("DTE", "0xa751259432cd627edc50b32f22010b355486a5743fff310ad8d9946d45c48d4b");
  ("DUK", "0x914c7f24178681e916139175ca651271ea14c340c4ba5e0c7787162020a9e79b");
  ("DVN", "0xba9e386c7cff73f68e17ee14f3f8a190afa842621527ec5f542968c516759df4");
  ("DXCM", "0x7afba60a06a553edc3339b53c2e46c2700b076b3f9c9067b88b93f0a12213fbf");
  ("ECL", "0x60bd1ddb5b55fc99af50cba723ceeecc68067a8e23cc2df420df5b36873744e2");
  ("ED", "0x04fefda6091b212f5445fd4286eacfa417f58c10e42fded88fabb17beb208fea");
  ("EFX", "0xefd52d85fdad1aec47798b6955efd22fccd1e88ec942d3dfb3cbddb8ea2a577b");
  ("EG", "0x1ebf3dd05546ce87c5a2892404717bca81a7b191f893244ad27f6ced751ae38d");
  ("EIX", "0x920b1e06e2f2920c682534620a82c7991accd0637b1fb58a5631357ce42a4e29");
  ("EL", "0xce8211e981a578b4ba9f2f7eb01c40643dc1d0860f57178d76c9bec95c88462f");
  ("ELV", "0x5fc195aa6556b6b2ce09bd3308c6b872bf9b85682d54ec92ed910172b319a9f0");
  ("EMR", "0xe1c0e5aaf1842d3efb806d14a7cd21160d4b7c0f96746e0fa1227ae961bf3929");
  ("EOG", "0x8a6a338e7cd256a83e4f27d7cf7ebe4983cae694a00762ef25c6c7da5607124e");
  ("EQIX", "0x66eb6cfa3a28e8e7cad538a55872ac0e41a2741ca66a29c1dc5540f2b1fb6fb6");
  ("EQT", "0xad81a87631f8ab7f09897d7001e46e206afa727c419d93f31591a8edefdf37cb");
  ("ES", "0xe0b9598e00ab485a49941feceb653d02e7b50f8e0074d5fab1d561add4f8c125");
  ("ESS", "0xcac64835d33852ea56d0da42bc2057a1e5baa66360ba368630e0cabc1b9fa2bc");
  ("ETR", "0xdd3baa1ebafa53b0a8b1e208f2e8df9dfed597f8b93d0fead0e84d8f4a0336d9");
  ("EVRG", "0x8fa90a86d593ae81e23fe16272b1d572d971d4f7a749e01841b91fec6d24e10e");
  ("EW", "0x54a39d1072d96389f124055a1da65d20f3b130719a2b615009ef30afecc7146a");
  ("EXC", "0x9beecfa17137405edde62ca98241e24c86d217282f8e193ee6c8fc40aae01092");
  ("EXE", "0x4133729094ce33b46a9f0ac2341333489282512991d786ce1e10ad270f3d9e31");
  ("EXPD", "0x6aae0b67e75b4ebd942e31b61020aa08489b33787256e66e63c7f5085eba47e6");
  ("EXR", "0x0b47051e9531b81dc79bfdaa7f2483d23a7eb2f99b6816c815284a6fdef83346");
  ("F", "0x6c267962d46cec4a5baf6105de67ef08e1306f75973ce6eb8db8527f06e28f33");
  ("FANG", "0xd3d57d3634cff1c062a1b87cc93a92b8dacc6537f9f7d155e81ed48bb9fd75f9");
  ("FAST", "0xf5d11dd2f66a2cc27fa25caf2c7fd45caa33045e8e3d55dc825ca830c68397b5");
  ("FCNCA", "0x97ef77ead4c77fb95010b1361387272a6813de89cffe615aea7274f10f1bfcc5");
  ("FCX", "0x2b5735ead9b057b3fb96a422740ab26bdfcb1f2b5d4cd9d052f45311ef0f2952");
  ("FDX", "0x1d36f0faa0688b4250f12560718e9989138e20a3a8a77c0b4144792e363a6cb0");
  ("FE", "0x0c1b5aa4ee8447c6251ddf07225edf15d4e6b9796a59afc349a3a9c4575e2c1f");
  ("FERG", "0x0662e765a145ce6d7bfa0251da10c9d2c7125916ecd1e2174f65ffe50c4fa83c");
  ("FFIV", "0x730aa1975c578f652b6f48667a8bc4ab1e499273cb4742198075b5494b47a29e");
  ("FICO", "0x84df202649f46e6362e38abcf5cd6947bc7e4379e8e281f1d02b382355c13aa3");
  ("FIS", "0x50e1734e9f300ebe0af038055c76c1495a3b7a6389edce24eedcb1df9061120d");
  ("FITB", "0x46a08c0ec7e78c610b835e7e6268f1f6aea10788890b2d72057f7a62a646ab2d");
  ("FSLR", "0x787a166618ea8831a100371b51be91328b0171d0ac57265007b30f10e03de4e6");
  ("FTNT", "0x7c09a3b332c3efc8c9a90da4ab26bb9eca53e1f147a0960cf458980d1aba97ef");
  ("FTV", "0x8872d930ce5c58a3a4dab23a34e4bcdb6b0793573723c9a1945bcdd6e097b83c");
  ("GD", "0x894e9c429f83fe4f35fda679568348418bafe5a0a68e1cccc8e51a137e879ce9");
  ("GDX", "0xbe25a3ca6904edff6de0a1c3ad5a9eaf12a87bced4d1c7823d7afe16160001f6");
  ("GE", "0xe1d3115c6e7ac649faca875b3102f1000ab5e06b03f6903e0d699f0f5315ba86");
  ("GEHC", "0x673e1dd093b996eeec37946467e9ad79dc4a613ba8c1c9c06ce2a0ae605051f3");
  ("GEN", "0x1112194b9abe505c202d243be6f5de5a9c80e40a09082e07f06b6805d04ae54d");
  ("GEV", "0x57e28b0f0ab18923f5c987629c0c714b9b46c87e729ed95ed6e23e466e8d1e0c");
  ("GILD", "0x29148f7de5819fe7467e99f5f0b22e8fb124d958d8f668c3c17e607d7ed1eb09");
  ("GIS", "0x771e3685ccdb5ea732fc6e562b72d9f9217823d7ab4884acb2d085c4ee0bc8a0");
  ("GL", "0xd7e307b27dd075c7296b0e75e14a481b3adb588be47ca032403e1d721e3e352c");
  ("GLD", "0xe190f467043db04548200354889dfe0d9d314c08b8d4e62fabf4d5a3140fecca");
  ("GLW", "0x6ef62b860055ef6819af274064e5aa597aa9d0963ce3109c51d996264844776e");
  ("GLXY", "0x67e031d1723e5c89e4a826d80b2f3b41a91b05ef6122d523b8829a02e0f563aa");
  ("GM", "0xdf8109bbec79e2b24ce326c3be5ca0036a88ed20800ec0aa54ccc2bc7811bd3b");
  ("GME", "0x6f9cd89ef1b7fd39f667101a91ad578b6c6ace4579d5f7f285a4b06aa4504be6");
  ("GNRC", "0x27514c8e57a0fad5e095546852c0903319b66ab07f7526b5ac1540886d6d944e");
  ("GOOGL", "0x5a48c03e9b9cb337801073ed9d166817473697efff0d138874e0f6a33d6d5aa6");
  ("GPC", "0x045d3f99bd576f475f195276d699ad1dbeedfcab92f29f1b8159f02bd9ee07d7");
  ("GPN", "0xcb179114c1a25a33def036ff8a3bf7260cd8035b7e3225e84754953f91e7e2f5");
  ("GS", "0x9c68c0c6999765cf6e27adf75ed551b34403126d3b0d5b686a2addb147ed4554");
  ("GWW", "0xbf20e149c45ec15b78eb4a61d0bbae625acc0dadacf9c3b76c3bb8de9346d3ec");
  ("HAL", "0x8ecca7012d5cd82620c1222acd6296cb4a34fea7dae4bf93bc51ddc471830a53");
  ("HAS", "0xab3a0f9d8e8565e58225a4e8bbe6bdf0ae8894aa3a1081aec1cf728fa61d7e4f");
  ("HBAN", "0x92594609a3d435e8e880e36f6ac87794edbe9d3ac3df18fbfdab3b5dd33425db");
  ("HCA", "0xdc85ae0ea74bb56972b162f1c9c48727015b774c25fd0e3c150cc18ce28bf2e5");
  ("HD", "0xb3a83dbe70b62241b0f916212e097465a1b31085fa30da3342dd35468ca17ca5");
  ("HIG", "0xb8a84e7acb92be6f24b60cec80e87b84ec46780774e15d9791fc018b7ad49492");
  ("HIMS", "0x2132cbc333161e94b91da745ed73b1450410fdc870f2235bf628c28da358b652");
  ("HLT", "0x02e83f2c834b9f2e495066b17da13c7caa5551a8378c6dff7f217166d9194588");
  ("HON", "0x107918baaaafb79cd9df1c8369e44ac21136d95f3ca33f2373b78f24ba1e3e6a");
  ("HOOD", "0x306736a4035846ba15a3496eed57225b64cc19230a50d14f3ed20fd7219b7849");
  ("HPE", "0x069b87074893c37fd250990df7409d7e19cd649bea8e28904a0fd49915f4e53a");
  ("HPQ", "0xd1d6eb75702d0e80582c2d5a2df1849b9c83d7afbe99a2d474317f1f356e5659");
  ("HST", "0xae35d2d68b05a98d8041dae04fed0a3a6e5a3a1007a5d5d10d62169d208271b8");
  ("HSY", "0x824852f734257f78f21791d6082fa7d3380da95a16d248d50a6e9706d0a0fbec");
  ("HUBB", "0x492f2b794efb3721b4243406d73cf68f34097b103ba690d0dbcafddb5a10cb7e");
  ("HUM", "0x6469e80c4a4a3bed520e0882051c6f0dbc8d57c217b16662db6cfd3f6288de2c");
  ("HWM", "0xb8f2bb034ab00c83a9a4e4bc4f8254c139631f56f11deb6f99f00c34ce032478");
  ("IBM", "0xcfd44471407f4da89d469242546bb56f5c626d5bef9bd8b9327783065b43c3ef");
  ("ICE", "0xb2e33e4daa44d9b0c0783ededd335520a0f7eeed7608ff60c93c7c2294b2d813");
  ("IDXX", "0xb28cc2e71cd5b1638c7aeefae54ceed579be828e52a56de0431fd428cca67791");
  ("IEMG", "0x96b1207c795f31283f5e44c527a1db18cacfb68de745a0de326611b0b5af3fc3");
  ("IEX", "0x9e7c3edfc8ebb80bf14d7d9d2ffa589387859b20c401476bbcf69566512c097b");
  ("IFF", "0x970222a3ff77f133b83c49989d8d8fcbad034fcc601f457e4a45cee6bfe5be36");
  ("IJR", "0xca0bac9d1826b4a222320f58d47ed66bdc95722124578ed50803674ccd99a775");
  ("INCY", "0x7815579f89646eef8d679057e84ffa69158e3f5f1bfa5b5cbd9a65e38a4c2a3a");
  ("INTC", "0xc1751e085ee292b8b3b9dd122a135614485a201c35dfc653553f0e28c1baf3ff");
  ("INTU", "0x43ef64ff6af44e0648f0328ee56e88fee57943b0aa077c24ef175bb9ecd37133");
  ("INVH", "0x3238d1e2df1760cacca8510e997cf6d45076a1b066e4e201d18881bf27aaf4ba");
  ("IP", "0xd7b753e70cea474508a2f0cd0ae5b7ac67662eb648a88afe68f04759464ccc8d");
  ("IQV", "0xeab2a462fdee81002bc99e22cbaceb1b0fcbeceed8fa28a6d2f567880eb24e4d");
  ("IR", "0x2abd60bfdf45bf74d29e1d4bcc815f0f1a81093cd51f49040e2856b1115fcd08");
  ("IRM", "0xdcc697370beafb46fade6467328cd2f268b4b4e41c23b2189e649e21d120d76d");
  ("ISRG", "0xad4dc1db82c47e0822afef9d9eca7bf693cdad20dd61fcd5aa1b6895b1b90190");
  ("ITA", "0x79f7f0b79a6b7fdc0d7d9e8b6337fd709b8eea9dc6f57b6174c84816cae88bfd");
  ("ITW", "0x2b610a0d95397c20582741b53d61d5e79bab7bebbd5793546e90662f8f6ce0b9");
  ("IWM", "0xeff690a187797aa225723345d4612abec0bf0cec1ae62347c0e7b1905d730879");
  ("J", "0x04ac3a2e7287b5fe9733a415bc7c81d4d4ffdfebc3b7d726b9552623444f8036");
  ("JBHT", "0x27af75b9414384273378f90ccc53bec01dc8adf3662c4f7e6ec0645622af55bb");
  ("JBL", "0xd8226a5920c7fbfe9bf9b159ab25855fb07c66b28c0941c1d36b247e382add95");
  ("JNJ", "0x12848738d5db3aef52f51d78d98fc8b8b8450ffb19fb3aeeb67d38f8c147ff63");
  ("JPM", "0x7f4f157e57bfcccd934c566df536f34933e74338fe241a5425ce561acdab164e");
  ("JPST", "0x52734824218d0361974ca000862f511aefdb51d608b762f16d59e372754b8909");
  ("KDP", "0x7b4b63935159e95489a446817966b95798bf92730d5a2439a9b164022c55671b");
  ("KEY", "0x2f7524ff6f342a9ee55328570d30a64eadd3ef6b8673fcb9015ed11845130e43");
  ("KEYS", "0x0a89d9c67435e8563fbf1bd1d3da9578fd07edfc2af55e92acf532cc9951a90a");
  ("KHC", "0x4e9e00488e093d440381d5cc21ac74da5d78f13d83665b7d140cbc84760cc95c");
  ("KIM", "0xf3d7864c65d3a6c00bd148c1daf95361de93ee36619180b194f656b053d6e80e");
  ("KKR", "0xaef0db13545e411bfc9d17e7eba913b0a5376c6af415a33240b546f773b25105");
  ("KLAC", "0x9c27675f282bfe54b5d0a7b187b29b09184d32d4462de7e3060629c7b8895aad");
  ("KMB", "0x894f78037ec2465fbbd50c75abb95a5059d5d9ca5f092e2e6736685885569322");
  ("KMI", "0xf709b8c2869054ca5c3cef0a3a1a97ff4960aff3f3b4eb611022079b1ff73e50");
  ("KO", "0x9aa471dccea36b90703325225ac76189baf7e0cc286b8843de1de4f31f9caa7d");
  ("KR", "0xff6a38e7adcdaf6d9e02c4c597defcdd328c1e4fe98977c8cc6b27a2673e4f8b");
  ("KVUE", "0xa31b64345bf1601d1cf1cfdb7a1f628982fab0a4365947b3c4fa2230faea971d");
  ("L", "0xdbceeed2f816d22ae5371206fa28c8da7615537eced46373185f4bde8af54d27");
  ("LDOS", "0xdf36d39cf7b927c357284441fde4115922d0d6180d4813e525047ea3a3c57f4b");
  ("LEN", "0x8cac856141272010adc7a18017523804afef935e0fb8b80f58cb120133c6ed34");
  ("LHX", "0x87039ec0fdfba15a4cfc68d257f509182baa1281bf9e79cbb6eca09dbe694e7a");
  ("LII", "0xea444ab0d128898102e59ad785374bb37b93fc1e2ae232591de288474df84d07");
  ("LIN", "0x9146c5c900d9aea9579819cf50d1ae18b54dea58eea3c9a198102e4e458e652b");
  ("LLY", "0x70dcf5fd56553d0023693e4b590336a8c9bcfd0d98dd9f093b1f697820d98325");
  ("LMT", "0x880d96a272d5ccbb3cd6f6aacb881a996cb4976b3f252b58c595cd2a418b6ea9");
  ("LNT", "0x0cfd0022c6dce91015449034e1189551e6037a51b60b820ddc9a255e9782c3c0");
  ("LOW", "0xab31ec9dbcacacfb26e5ea6c249d69f5ae8b9c691aac6ccc5919b6107efa1c3a");
  ("LRCX", "0x01a67883f58bd0f0e9cf8f52f21d7cf78c144d7e7ae32ce9256420834b33fb75");
  ("LUV", "0xf8554a560dd9f59f36aff9ea5536d1c281141907ebc010b2fa94f411f912e30b");
  ("LVS", "0xaa0eed91fe7b824ad9931f8601647bec51870c76f7a5d6ead18c3df9ecb3c553");
  ("LYV", "0xf75c8eea6033c8100271292fa6f77d50347a8cd010959116fa0ac3ba7315e9b8");
  ("MA", "0x639db3fe6951d2465bd722768242e68eb0285f279cb4fa97f677ee8f80f1f1c0");
  ("MAA", "0x8b624894cc6534a0442a22cce2324c3950fc74c848e7f10faf028ae160a762d6");
  ("MAR", "0xb530350ede7b5d1876f37fe416799e8f15beaca77c82295a3857f02c913df0f2");
  ("MARA", "0x0fc2ad77a9ab75bcbc3ebd7a9ff60facd08c517309e2d684baa979c910a0e43e");
  ("MAS", "0x40dc86c2c74546803ea869c71c0aebd332d83ca417e7c60f41b71919f8d8421e");
  ("MCD", "0xd3178156b7c0f6ce10d6da7d347952a672467b51708baaf1a57ffe1fb005824a");
  ("MCHP", "0x1f1a9da5ed94f81694aaf250155adc7c6cde842e4a3ee6e6b4cb6fc23c85667b");
  ("MCK", "0x374c080d60c3d055199df45e3c54accd5f04f190f61cd050dae28dd2519871a6");
  ("MCO", "0x81ec776dd73898187779458dcd0c282a91322c7bd5fcb38b565f1b94bd8adff0");
  ("MDB", "0x91fc07facc1b1ec2e8336dfa66e2b5f0892af06f491c606f67690bf4c55aaee6");
  ("MDLZ", "0x67af944e59c35746d41b15c061fa2552ea958accfc6169a69f1e05033c507fd2");
  ("MDT", "0x1d762c633d4166a8d061518e187047afda1868cc524990262d8144e39dbb815f");
  ("MET", "0xa1603db75317c40a21301cc11d58ffd69bea273f3473bfed479b4325300fc721");
  ("META", "0x78a3e3b8e676a8f73c439f5d749737034b139bbbe899ba5775216fba596607fe");
  ("MKC", "0xf84d53799267676ca75d07bae921233dcc9d856d1b7616a728fdad0a71ed6159");
  ("MLM", "0x58dfd9c50639f1a6c7ea8a1a94d07d69989b51a4265801420895c292fd68e7d4");
  ("MMM", "0xfd05a384ba19863cbdfc6575bed584f041ef50554bab3ab482eabe4ea58d9f81");
  ("MO", "0xad17639d5c5f937b0069f09a455c613c5b6feb8cf0ffb725de3942af96c0434b");
  ("MPC", "0xf324ae399346b21a3f40e9a07984750dfde9a9d7b40999fb1c6d98a4243f5eed");
  ("MPWR", "0xe51d5a490b7ff684e72104f092096d33ad8f6d0bbc617fbe893e23358f8e1c72");
  ("MRK", "0xc81114e16ec3cbcdf20197ac974aed5a254b941773971260ce09e7caebd6af46");
  ("MRNA", "0x4083b0b1471123cf4d3e8edee7890940cafad866f06cadae638c23e555a1f4fc");
  ("MRVL", "0x7aef4e90557add5289266340ccd1e1aa7a225f1220206b07aaf98e53101ce116");
  ("MS", "0x97b55381ff94c6c0a22f3e0c8cdc2186a3561bf3dfe3cfaebf4786c9318b770f");
  ("MSCI", "0xcb9be05a0205676c4959845ada37452d3b9613d6602addd0ec223bdb33d81c8b");
  ("MSFT", "0xd0ca23c1cc005e004ccf1db5bf76aeb6a49218f43dac3d4b275e92de12ded4d1");
  ("MSI", "0xcc7851b525bd7f0d8ce00e409d59d6cd5ecdfbc5a2df1aaee3c4948426976100");
  ("MSTR", "0xe1e80251e5f5184f2195008382538e847fafc36f751896889dd3d1b1f6111f09");
  ("MTB", "0x1525917fe1d100b6af40bb6f40f71059a6a4c52a1849c964ef33a06412bc9f46");
  ("MTD", "0x3d35ab79cabfe67134efe88b5526ff9340121f4641d3f33728fb6801afdb07f2");
  ("MU", "0x152244dc24665ca7dd3f257b8f442dc449b6346f48235b7b229268cb770dda2d");
  ("NDAQ", "0x1d4ad1c94a6828b41d3165abd4ee59491a9cc9194e2b8a672fc0aa2ad228ab47");
  ("NDSN", "0x6727509d8f206c8615b61a01039caa23b45271196e603daebb0366d5e864666f");
  ("NEE", "0xb058f7874b57f820aa7ff6034a8515add8095b5831e83fc8d02c1dccd4ac099c");
  ("NEM", "0x29caf4d900d3080e56306ac41a9856735b89cb4df6813dd7b83e9eb96c04700d");
  ("NET", "0xd3a9e76862950b2f21a7037fd64df913794b14d0e2938a9d383b0b7387ca0081");
  ("NFLX", "0x8376cfd7ca8bcdf372ced05307b24dced1f15b1afafdeff715664598f15a3dd2");
  ("NI", "0xe526b83aaac81d79736671ff6b948326194290a0c2f34a711df3e34b8afa6000");
  ("NKE", "0x67649450b4ca4bfff97cbaf96d2fd9e40f6db148cb65999140154415e4378e14");
  ("NOC", "0x5f848f61c44e1c9b21ddac0fcac5536344e80ad21df3271c2f069f57229fab81");
  ("NOW", "0x69d2eebcc3c62889f1c0105ff347f296eb435cba8d2e4705a486fd47a8fe1a1b");
  ("NRG", "0xcbb7674d9eebacf3a81a54109dca655d805f04d902bc61b2157e8a2d95b00492");
  ("NSC", "0x337129e71cdd78ee403dcde32b49632c088baa665aac6302dce0f4d3d1339196");
  ("NTAP", "0x5d929fdc829ffa55be5b1fd8b4d140ab555b1c71ec098c3ed5bce70d5911d753");
  ("NTRS", "0xf10492d0a522ca19f17cf8d54267abb2cca8ddb80d4bd528750223e3156a8aef");
  ("NUE", "0x7e535de06269b98ea0dfd8b238b80254a41be0092acf72c4464b269cd500716e");
  ("NVDA", "0xb1073854ed24cbc755dc527418f52b7d271f6cc967bbf8d8129112b18860a593");
  ("NVO", "0x8dde322496e031d942b9eee8ca769d618cd2e69b18196644369379f5a1e7c23d");
  ("O", "0xd2f530f73cad1b04094adbc1ef8d4525f67f2c812bae70af63e8027a9787d75c");
  ("ODFL", "0x4b8faa3f61c5764a6662179f8aa41c0cb36cb84d796be6d953944ecae87fdc94");
  ("OKE", "0x878b4560531e95bf028235e52d0e7116a022d3529326adc99c2d3a20994eb733");
  ("OKLO", "0x0d283a095e94dff4d4e607614ed686eb53e548238fb3af231148c276ecefe83e");
  ("OMC", "0x113967e03bb7a347e3669bcb49cf0c6cd27ddc38439c9f009dec0bf9f0edb137");
  ("ON", "0x35f08f92f05ab4fd2117f8d857238f5eb25213fefe95e7ba042babea512a0a5b");
  ("OPEN", "0xb4ef19d348a726dad5a655bcac5fe6e09c83af142bf1006b45d0f9ca4d5a46b5");
  ("ORCL", "0xe47ff732eaeb6b4163902bdee61572659ddf326511917b1423bae93fcdf3153c");
  ("ORLY", "0xd06528b28300de3b1a83a3acb383096ecad3e25c320f6d4a6a2745b70f7b1462");
  ("OTIS", "0x34df4b686b9b9b24d6c2d149e3b6d73df825ae85933c1c74965cc48bb10943f2");
  ("OXY", "0x54ba7b095dfa286f556cd41d4bfefe956ebd4df3d9eec8fe0188d0727f07e344");
  ("PALL", "0xfeeb371f721e75853604c47104967f0ab3fa92b988837013f5004f749a8a0599");
  ("PANW", "0x3b00df0661ccb3109d11ff301c1aa4e88b8d647cb477b089ba225149e6e1b7bb");
  ("PAYX", "0x31df914d63247bdda62c7c423c497729ef50d89eeab208eb1db42503271713fa");
  ("PCAR", "0x6262b2695c0ea3371d0a0a3fb3c34ff12fdbf7a61046ec94db3665d47bbaf829");
  ("PCG", "0x026e4a35b33c438e4c75b2bf8f5f8298b26165eff133b1da2b4559985ecab11e");
  ("PEG", "0xb0d68bb7055327a5ec773094129a00f6794ae064b9286a1b55eb2b975bc17dc0");
  ("PEP", "0xbe230eddb16aad5ad273a85e581e74eb615ebf67d378f885768d9b047df0c843");
  ("PFE", "0x0704ad7547b3dfee329266ee53276349d48e4587cb08264a2818288f356efd1d");
  ("PFG", "0xf2be31eeb67f9e2bb7228aaab13fd3a7b836cfc3e6832b876d488363c21dd24a");
  ("PG", "0xad2fda41998f4e7be99a2a7b27273bd16f183d9adfc014a4f5e5d3d6cd519bf4");
  ("PGR", "0x1ab9bd7ed68a12736e9feb89044e6ab23b1abfa7b66e06f85653752ec0a890e1");
  ("PH", "0x9c86a3b6d84699fcc4c0f2e76f34d4b70c6c8230803cb35ae89278de9c6932a9");
  ("PKG", "0x84ce9993f3e19e52be7d567c8bf7714407cab2afa0d3a752ac09bc49b0153663");
  ("PLD", "0x627b06aefb92e6b71c4a92f867c7df2718f73c25de2da7b3be1089cc1fe0e9b8");
  ("PLTR", "0x11a70634863ddffb71f2b11f2cff29f73f3db8f6d0b78c49f2b5f4ad36e885f0");
  ("PM", "0xa32f875eb39e23f087ea0db141b00857630c2c5011bfbe53a2a4d186f37cb583");
  ("PNC", "0x424c3c551dcb2c25f9a9de69ebb83586ccd6dd2a79fd2c62650803b1acac3105");
  ("PNW", "0x735a2411c6c532f7f871e5b7370e9e62bac91784a9a620992f5f9de8dcf366b2");
  ("PPG", "0x0a2d049aa48d4b77c4db199ae38a10a1e3d5130abd27b5cab7db548409da74d5");
  ("PPL", "0x1542f78dd90dfacbc39b00223999d5b6790a2f976d251d11c47b4c06e39eb06c");
  ("PPLT", "0x782410278b6c8aa2d437812281526012808404aa14c243f73fb9939eeb88d430");
  ("PRU", "0x6987f2cab2c2be6cb897220d99dd5665835e6d204f022d4b6d0701d9351b3138");
  ("PSA", "0x4b0077352f8790088c9e9c76d8490b06b94f75501c0027783ef310e378348d95");
  ("PSX", "0x16b28b05e3491528ff9ece996c65075c3d2af3027131b11da425c6930b1e5932");
  ("PTC", "0x8890509a8bea0d0ec4791ea315042061eac7fbde3a77a91a2b33564d799348f5");
  ("PWR", "0xa189b9eee6d023e3b79a726804aeb748d54e52cf6ebcebe0f7d5c8dae4988357");
  ("PYPL", "0x773c3b11f6be58e8151966a9f5832696d8cd08884ccc43ac8965a7ebea911533");
  ("QCOM", "0x54350ebf587c3f14857efcfec50e5c4f6e10220770c2266e9fe85bd5e42e4022");
  ("QQQ", "0x9695e2b96ea7b3859da9ed25b7a46a920a776e2fdae19a7bcfdf2b219230452d");
  ("RBLX", "0xd62134a195739141d0649991f11fe0f9cd9eb83fd890bc3ba41dfdd18c1a49f4");
  ("RDDT", "0xc0ece6b9254797f4384bda1ba3f2c33259f552c7849a86b3029e811be5ea9227");
  ("REG", "0x6ae7403d57a08b736dfa40ee8294e6d5108f69280cbd9fe452ed445eb45e08c0");
  ("REGN", "0x2a45d16204f3588259fddf5a81a1129efab873571a4cef38641e16bfeac364ef");
  ("RF", "0x14f4bd2b349f33dcc150c1874b863be7b1b39b190e508d9fc54a37397b29a1c4");
  ("RIOT", "0x46417522a59b245c5af35c33c13426d991b36514c4c85aaefe1cf787e7daad90");
  ("RIVN", "0x1e59e3164331ce560683eae0c69efe9650ff1bc834225772ddb330aa808f72f0");
  ("RJF", "0x96bccfb1661326a6a9717d248fa743762d65da0798656b24108ea48d4982758f");
  ("RKLB", "0x40589e289317e4fbd997b1a267606e20a1cc7c3e4689f9e5a5992957917816c8");
  ("RL", "0x80f271ae66ee740f4a8f2c2d33575592a6daf7f881133e4d8c0a4df0fc67315a");
  ("RMD", "0xe9f11baaade6cf979251d4c9e6c30657ed29275952a04b125915e475c31a5e63");
  ("ROK", "0xc531c5d85ae89ad23e0f455be0a9170e2924a4b6922d62d5b1e076023f7b7235");
  ("ROKU", "0xb7113dfc953e2884fed9d8eef5154d696b8296bbf7267caf5ad218e49f97ea4e");
  ("ROL", "0x0991357d942869150d5d10750b3e066855a56b1459b25dca044b59b9a3fbc779");
  ("ROP", "0x375d3fff7889b3bfdee5cfccdc5d4d3e67eed3b7d9599e29cea59b1baaa0b83a");
  ("ROST", "0x093d0ce5cbf3150e271db36706a0cf42b9dd7e62b1bc70fef09c0e2ee80434d5");
  ("RSG", "0xe3f0d3e53a6f645cd1d7e2927708a17d8bfb12b00c61b99d441f9ad590d2d8fe");
  ("RTX", "0x97c483cc4172de7ac1a3cc0814f442e4747e64008723f2705d6e9fdff3ba4d3d");
  ("SBAC", "0x15d10cdf550966316121a3e07b86eec98be08afa1f3abc634818156d32094b31");
  ("SBET", "0x6b5bedda9e9d6354c5b93659cba6747d21b527437022da6e5f32e3b53e485a04");
  ("SBUX", "0x86cd9abb315081b136afc72829058cf3aaf1100d4650acb2edb6a8e39f03ef75");
  ("SCCO", "0xa00be224b07426d688475926b6a7a8b007f1420734629b596ae6132c75bc5976");
  ("SCHF", "0x601671d8a16a9f456d9a16d0bf203dd80d5076cc95ddca29cb5c7f8024dbeba6");
  ("SCHW", "0xd437b2f1470d5f007f18a5565eaab1ed182d97204d80b7dd3dac29839f61c9e6");
  ("SGOV", "0x8d6a29bb5ed522931d711bb12c4bbf92af986936e52af582032913b5ffcbf4d5");
  ("SHW", "0x5418e711244ca3c599e0f6a2b3b217833e81f110ae53afadd4a0809808c7baae");
  ("SJM", "0x9794052f000f3bc2bfa29662035ca0fa65d316ab901e2b4d4238a2bc30637ee6");
  ("SLV", "0x6fc08c9963d266069cbd9780d98383dabf2668322a5bef0b9491e11d67e5d7e7");
  ("SMCI", "0x8f34132a42f8bb7a47568d77a910f97174a30719e16904e9f2915d5b2c6c2d52");
  ("SMH", "0x2487b620e66468404ba251bfaa6b8382774010cbb5d504ac48ec263e0b1934aa");
  ("SMR", "0x69155365daba71df19c2c0416467b64581052cfa75f44b77f352a92698b81639");
  ("SNA", "0x40ee2e8a06ac2de84d6cea61c4519a35755d59c255c545db964c5e2ed840a1e8");
  ("SNDK", "0xc86a1f20cd7d5d07932baea30bcd8e479b775c4f51f82526bf1de6dc79fa3f76");
  ("SNOW", "0x14291d2651ecf1f9105729bdc59553c1ce73fb3d6c931dd98a9d2adddc37e00f");
  ("SNPS", "0xaf00c68cb77107c1f4e8ff5c7e8a28892931fd2790ff9ca54969625d27b66e63");
  ("SO", "0x650293cd51d63cac28ecb03823af05d8192dad724156af6ed4a90b1708057bf2");
  ("SOFI", "0x72fae0e0683c186f5ce9444afac9909cf5d60b499f4f9569dd75442f19c625c8");
  ("SOXL", "0x53008e9cb71db278f91d7ee0011434af626548018b5f9d4c11000c387eac46fb");
  ("SOXX", "0x3c3973e95c24fab3808a8fd9f25fb06ee92422fea20d814c1a850b307cbf31b9");
  ("SPG", "0xe5b009001bb93e2c5405c6c1f24a2ea178f378997cfd2e3fa8103bcc8df66985");
  ("SPY", "0x19e09bb805456ada3979a7d1cbb4b6d63babc3a0f8e8a9509f68afa5c4c11cd5");
  ("SRE", "0x2b6b8daa571caf41933359e3fa3e1497db49fa39bb0964f02e4fee4e3035b22a");
  ("STLD", "0x3bc436e6c024059b3493e4332b32d0cbdd2b8ecf84544261838137eb1f299525");
  ("STRC", "0x27c7bbc9755d847f7fc63620c2edcc6a91d2c0c67a28c7999907b59c505b3c17");
  ("STT", "0xa72ff152372a1a9b75e40c7da828be1e53129bfb0338436afab007bad29aa42c");
  ("STZ", "0xbcbe7f4f918381ad7891595dabea1c1a0b662e48cc533d48f308aa4883a0802d");
  ("SWK", "0xcc7233f28c816dae39aa0bd524029f89e5951bd308523228ecac6891d7a18a7b");
  ("SYF", "0x19182efb2c0ed89266ee1db3a1e8d3e46c9af1542232ed168e88bcb38db3b64f");
  ("SYK", "0x1e2fea8c5028e09489fbcb31014e9e7833e08eea78922eaa69d96cf1b37206c2");
  ("SYY", "0xda937ffe337d2111782ba3910b7b4191764724c3adc69e3074d5da7e25a7dfb4");
  ("TDG", "0xd381a4fd877aab599ca1270f5a099d8583ee60159b66c6b6b1ad3018ae89c8fe");
  ("TDY", "0xce974508b0d8eafcb71d4acca8df29adccc8af76844d7fa7f2e10d459d65b8fc");
  ("TEAM", "0x2bb7815db4d6081ddfda9befcacac28c63a3f4349fdd5b35accf47b52f35a746");
  ("TER", "0x58ab181e7512766728d2cc3581839bbb913e6cd24457ba422cbe2a33df64416e");
  ("TFC", "0xd39e81603a92c5b911f9a46432c50de459c6ab6d854e53b00ad65354e14728d7");
  ("TJX", "0x1e0192ac474db72a6937c45460929dcef6efebf4d4b493685d020d1bc3b265a2");
  ("TMO", "0x244fdf268ed7ecfad2cf84529c46d0fcef7a643428ff4ef8b16e8dbb63e0f2d9");
  ("TMUS", "0x0b231ca4307d25e4600067bfb06f576474bcabd74fb50eeaa0906ac1b457f365");
  ("TONX", "0xe9988572f440d07b8a602f57a0a5a916e60ab85baad5ce1cffef5e98b2841caf");
  ("TPL", "0x5b839599042f75b23fab4ced6a448aa6d1c367879e25a77b87f4a9dfa98bf4bd");
  ("TPR", "0x86fcbb7f5166af4a0e298643e725f8af62e93b96891d478dd347165e3c7716a2");
  ("TQQQ", "0x5aa9f82dc2e0f5f8271fd163e980010101517da59f4b72b71c7056a5950b2f9d");
  ("TRGP", "0xe3fdb99fc6ce4b1b118b16abafb68242e7feef6e8e75f2ad435072ab83b5c3f7");
  ("TRMB", "0x9016be1a1eed6240724a40e2629a02c08ef6d87fafc772b856ebdbe3d174e6ba");
  ("TROW", "0xc58e1fe6b3a7df2a45f72bb291914f509d949951a76be1920b66fff1d1681f46");
  ("TRV", "0xd45392f678a1287b8412ed2aaa326def204a5c234df7cb5552d756c332283d81");
  ("TSCO", "0x17739c3c2b2888751a75bada52253281c29b5ec25b39a8aecdbe63e11283e219");
  ("TSLA", "0x16dad506d7db8da01c87581c87ca897a012a153557d4d578c3b9c9e1bc0632f1");
  ("TSM", "0xe722560a66e4ab00522ef20a38fa2ba5d1b41f1c5404723ed895d202a7af7cc4");
  ("TSN", "0x0e83585b37891c7ed22e02b3319c0dc85e1315eccc85deba649c86525c880b36");
  ("TTWO", "0x782a6a261306f01ab2ad004062a2832107360eefdcf8c83223e0ff7ca7ebde8d");
  ("TXN", "0xc5b94c7ece9c3ac984e1439a8fac86270d0f988bbbcc838b456e2d7311754bdc");
  ("TXT", "0x2fc0a41f1d62126539e3b1ca29029e66d991724b2189f63059a5f5682129ab28");
  ("TYL", "0xd78290ea68a7d23aa44291bf9075a7bdeda18f7aabb32b095cdf175ec5cee785");
  ("UAL", "0xcba6d204bc8c77c733d1f1acc5288d00dc4361046fe4559f2f6fb750321b0afa");
  ("UBER", "0xc04665f62a0eabf427a834bb5da5f27773ef7422e462d40c7468ef3e4d39d8f1");
  ("UDR", "0x22bc4962a6ab104d6e5f25665cabfca04730bfa959ebfc3def3ba43b19d0ba03");
  ("ULTA", "0x6187f28a5c56dfd380dfa2b718b4062f8c3ae8a0e32f7c11078e76b31269f49c");
  ("UNH", "0x05380f8817eb1316c0b35ac19c3caa92c9aa9ea6be1555986c46dce97fed6afd");
  ("UNP", "0xb095647f688415d4102a858e1b25c1af15750f0e516a0d561cb35ebe30deb183");
  ("UPS", "0xc446b836e3e1bf1610f29c51f9102e1d5ea2db1da64c39fcdc797d99df097bcc");
  ("URI", "0x111dca3c1265a35337c6b2ed06245c5b504c255f92c5ba0c03a67d8913d3e83f");
  ("USB", "0x3490a2ca9b5db045ea37d86c2d5dd69f893417fb3b9937b4bcd61d17f0bf0c20");
  ("V", "0xc719eb7bab9b2bc060167f1d1680eb34a29c490919072513b545b9785b73ee90");
  ("VGK", "0x0648195b6826d833f3c4eb261c81223a90ceb3a26e86e9b18f6e11f0212cad18");
  ("VICI", "0x952cd0607b5624c28971ade6d2e6a26bbbbfcc857ba1d41b85945a425524f4cc");
  ("VLO", "0x216f728010a42b2b21bbd9c5971ea682d3424c88b1449b405ba6cbf7b7ebcab5");
  ("VLTO", "0xd5d2e23ef78e6c8601b8154c882af2f62b87cc18e38e1c3af04f7301d1b20977");
  ("VMC", "0x564701856b900a263842e4d8b12cb312b9e4de0f2fb102c83fa07d1055c6d81b");
  ("VOO", "0x236b30dd09a9c00dfeec156c7b1efd646c0f01825a1758e3e4a0679e3bdff179");
  ("VRSK", "0x15681a80c2f4913251886bc5b5dd9f92aaf47b072e3eef68b5c618036067e06c");
  ("VRSN", "0xc7ae3c077945639c2e0ed7199d1e6655f8c76027e07bccea53d9b6f79d8075fd");
  ("VRT", "0x84dad6b760396a7904d04a3d83039a3fc18f10819fd97d023ac5535997d70108");
  ("VRTX", "0xac9de86ae3dcff03514bde733f5793f1446b2cd31f1539a1c449acc3e76cacc1");
  ("VT", "0xb167b163565d841b1477cb942bf3b2d28214f3eedf343de7536d6e5b6250d45b");
  ("VTI", "0x26c67e91769aeba33a09469c705a1863794014dac416e4270661f489309ae862");
  ("VTR", "0xc80a26da95814c361751e40849861cada3bd51641c57e1e89bb629c1cce92f1c");
  ("VTRS", "0x42431247c835486c45f19e180981765e3e6cca8ff603a34fe7de85368c861639");
  ("VUG", "0x8c64b089d95170429ba39ec229a0a6fc36b267e09c3210fbb9d9eb2d4c203bc5");
  ("VXUS", "0x48a13d42218646bba8cc114cd394a283b11c0e07dd14a885efd5caec640c5289");
  ("VZ", "0x6672325a220c0ee1166add709d5ba2e51c185888360c01edc76293257ef68b58");
  ("WAB", "0x6168b785e90c735e2c546abe61198534877802f639f829dcba65ecb332d2a097");
  ("WAT", "0x7e388b88e025d2b0eb8bcb72118ac8679890aa93e19e8e55e6784483796e4e64");
  ("WBD", "0x0cb5822ffa7443a58afb6f9d483a9c1a9a1f89737b4b851523ab2bf86d049755");
  ("WDAY", "0xa3ae4e6fb2cef300b62c34b4611048dfd64e148faa08e912b31e17f1da61d875");
  ("WDC", "0x37a782cf9bb6061d4cca34a419fb1ae5a8edf71ae8843206ea88b4ba696d4706");
  ("WEC", "0xcfcacb3755c77aec69ff8f89f4dfe735ca478ad7290766bd4f7bc04f5af1ab68");
  ("WELL", "0xb80f709aba6c306d3c61b6b9f9dc652d61d8a9a458580f7d4b5195b4f4a674c5");
  ("WFC", "0x67ac585d05128c7b6a88660be04acd18b2bddd6308e98b71b9f3ba0f0e781296");
  ("WM", "0x7f78c101ca799a5b63f5e5c1e56a43b3a361233900160c172e2ec2980e91b4eb");
  ("WMB", "0x6921035babdc51587962f9a1350a2c2ca5840b64bbf9057ab75a20cc663b32c3");
  ("WMT", "0x327ae981719058e6fb44e132fb4adbf1bd5978b43db0661bfdaefd9bea0c82dc");
  ("WRB", "0x30f0fb9ca84c9dfdbfdbcb57d59e7d4ef6a5c1581acea44577f9a89af396e1b7");
  ("WSM", "0x1e8a3f5c885a4749a611ea8081185b6c3b614556ec2f5469ff031701c12ff319");
  ("WST", "0x8d6c09c254828092b322966daafb6cadb58b697f696d37bdb53379e060b8974e");
  ("WY", "0x5fbd1cf24b414fee1a0f112d82315f10fd0de1eb6c916831f6f2cfdc7a32a0a6");
  ("XEL", "0x5522f751cd656ddd88a22959a35dd63fe6dbf82aeba4fc9b8edef367b8c7e208");
  ("XLE", "0x8bf649e08e5a86129c57990556c8eec30e296069b524f4639549282bc5c07bb4");
  ("XOM", "0x4a1a12070192e8db9a89ac235bb032342a390dde39389b4ee1ba8e41e7eae5d8");
  ("XOP", "0xc706cce81639eed699bf23a427ea8742ac6e7cc775b2a8a8e70cba8a49393e42");
  ("XYL", "0xfb22c42b25ae97f3c8cbca53b892684cbd7f48d44da6f8f411e134e5791b30f9");
  ("XYZ", "0x6d64b1981512c242162d6ba54f6bda35c59f726f2e075a42994fc9a33c6c2d55");
  ("YUM", "0x39763876ae1b3c2402f6d1e2f40d33fb4493ddd97d9edc42e64bd61f718b0eb7");
  ("ZBH", "0x222e85396bf2545e6591fdfbbb326e5d334781ede02749dcf1b81472e4128807");
  ("ZBRA", "0xbe758135d2cea02b8c821e609cdc84d9c5c0e9d82a81b9534d3444b39fbf70bd");
  ("ZS", "0x16164a6568478238fc3102145ad51d973598850073ace86ceda7c89cb7b74598");
  ("ZTS", "0xc79170bfddf87b4c4ef6f1cefbe92b23eaac21ce29cbffc2bb24cab51dcf10d6")]%string.

Definition US_EQUITIES_ACCOUNT_MAP : list (string * string) := [
  ("A", "G9NbZpQWyrFHC3yRh1ztxTnVnrTHXCLiwr2C2pcFN5cR");
  ("AAPL", "DJ2FyTgUAkEtXW3U5P9PF19meFTRtW4ZWKKFgACfVbUy");
  ("ABBV", "D5C8M5NCYPpMRyEC2uvqPCD8cVKYT4a3J7fcTPXoKD4E");
  ("ABNB", "8JQLofEg3SjAUJpXdScaF7W8KbRSXCx6KENJbZgkZnGb");
  ("ABT", "6VW7PRdfFRXiMcJ5MpfbEfTnSS2wPdAtNG5fEFzCc4xM");
  ("ACN", "9qJaPV9rJ3BBwRLaj2RmfraFhxPBqc2EJQeBwiBtwN8Y");
  ("ADBE", "D56gkpWR3VfxwWS38XuRWZvkEi41qjyvcG4oQvAjG6Qd");
  ("ADI", "92WQ6asHDLSWuBDUzyvKvDjjNBnE32v2DtUSqfxWxc7h");
  ("ADM", "85n4wKjfVE2sFNLsDZFXmP9JPVeen3UR4mhqpUURdGwV");
  ("ADP", "HUKnNFKPk2pXUkcK7HoKpwUdt37BB9RKZn8DKndamFd9");
  ("ADSK", "D1eU1JbUE6TQa8B464c9SEJbnhukhdCsQ2fYT52UF9UJ");
  ("AEE", "A4A4Sjkw9EofoiDT4PDymrGVfWCuGP1AJpE8TLbeBfDj");
  ("AEP", "FvzW5THNDr2iAPsu2rLXGMJ3oWEH6ER4buBbW5Ecsr1F");
  ("AFL", "CGVrRbgpiL5tTrfCmdNdGxhN3SDhQTtYJnALVn8sUo7g");
  ("AIG", "37xUVWMyTMhB6yd1ZCQsZ1mhis5cxLByJXjZjjWdZNkW");
  ("AIZ", "8AVYNsaRgAr3DMM8EUVT4BAF79b3yDkKAxcs1K1LXiaG");
  ("AJG", "GN5NRoQWp2tAjtWqx4HaAQbjnbdk8j3osowbamoRkzHb");
  ("AKAM", "HD39MoLQPEcbzLK1d1uLdcGcwUMsatLWycHXmEj2hy1v");
  ("ALAB", "BVFqAsiEXP3E7QiNFGWRgVJveTKSWA6P9pRcVNb2iYh9");
  ("ALB", "8YTZ8RDq7XEcXRg9nEJxVjyD1kpmAcK3UgATJc3gDtyg");
  ("ALGN", "2emCnHiVBE4f7cB1pYMY7jMnE6gyx1D9oN1iukFx5K9j");
  ("ALL", "9rzbJNLCtgHEnVhLcpnoq8VxJRWNYHrSzcjG9ACz3YLc");
  ("AMAT", "FaPu2RMkS7DDReY2Fn9Avk5UtHNrP4ToFopPbwYnKPV2");
  ("AMD", "8XEoc9ZbC2DvVqQVkQJEXx2mszRVMhHgT3W1nZALVkKU");
  ("AME", "5t8GXpQpsS44uFQA8U5vR6vEQkFtZujbTf3C3RCLY2ki");
  ("AMGN", "GKHRTMyLzvkbvAZMfU8Ta1QfmNgbdbjfSrZd67nskCpD");
  ("AMP", "4KtfsLMNBQQiKqT5iFWNBrnLyphEy7MS7jTC2uZ8pvrB");
  ("AMT", "BXqYJQmwyLGVXU7HfDGPaWV5Pjh1XRCiaBTMyPzAiffr");
  ("AMZN", "GBkjjFxbaFY9TBHpAPypk5JBchpPPve2jskAcd9zuFNd");
  ("ANET", "7BU9edH69WAF35jXrmysPiGViKUFoP68dWxPMKY9nvD3");
  ("APA", "9e3rSHjrpporZCLbSP2HuGtTJSD2T9ify7VZ3m13vtNk");
  ("APD", "3w2a23UeKk5KMwE56XFyrExxQ5Z9YE6bcBoLHAsAR4Ci");
  ("APH", "ABDMKZKjJBiWBDNAZCdVqZqdSTekq3S817NDmbaxbEW6");
  ("APLD", "CxgNAd7ri9CBmEK7LPZbqvy5yupFkV9xcPXRLNGf7sxo");
  ("APO", "3Se6EUQGQsgYUuVoKLdMNxg5gZx2hV8DSQMwVjchrJ5n");
  ("APP", "CFAG6KFtYXzr54ndzTw8MBGYCtvLNsYkeczdQxbRFhp4");
  ("ARM", "CuAVuHfdHZvrmceVJCooAPh3VpSzzPjYMi5KZPmE8AEe");
  ("ASML", "FDBKgU5To4QGwYQp6FLn56AQKaiWXLzTxKZZfs8htnrp");
  ("ATO", "Bzk3h5iiyNhmdFxRt5BNuDJoZPvctULBuSJXGccw3toS");
  ("AVGO", "2jgfs5FsDQkdCrgcCKHEd7p9KNtKAyWznMSyu21WbFgS");
  ("AVY", "2HJWq7PSZqsqYmPZeTjtrLsqpXFaMny4hKqstu7mStuw");
  ("AWK", "4ZwW6J6oszVAdMmePW9cYnb99DUNfqbtz1Kg1RkCo8Px");
  ("AXON", "7NyCXTFrTtdaQyhBFXsxtuCSkPTqiWNBXTydeVMmdVAT");
  ("AZN", "9eg61vdeQHV7HwJrG6ukmebzvVmGnxcQzis6kWo1stVy");
  ("AZO", "6iz4SUFcvrGprzccS6zwKHu2HSdpqTCiSWpb1qeaLooP");
  ("BA", "BiDrtXqVojAocxBafVBD9B2ppZtS2saStuALEhF3wsMW");
  ("BAC", "9KcsjFiNv9KezHD1e1FtjFRRUB8gw76XC1qnRbPsFH7F");
  ("BALL", "5Nx9ZueizPdB2MurhkwQGeHUyqJkNU8PintcRXHxehdH");
  ("BBY", "9v2iptQ6nxGzEu9k7rNDf1MZfE26MfWwDURt6moNvGtU");
  ("BDX", "99xBEvXwGYMFxWD3QYVtDvyDNXBV4X41jQkmQY9CDowk");
  ("BE", "DiPP5CdC16EJHRQ5XVjYzry79vvVjNHjhfqCN8krwwkB");
  ("BIIB", "994NUCEQhgCeBqNpZLU4BKhrqPuF8915Cqzix2N3QbFS");
  ("BITX", "2ARNy3Gho9cJnvYfRdxeNrFBFnK7MGqaNUAcDjtF4EMg");
  ("BKR", "3iW6M2FDczQFcAr5tzorv5NQ8mUAhx1HRYjc619ZKUkQ");
  ("BMNR", "FeokwKhBX2gfb743aqB8QH7mDbKnDD4xXadQQQsdVY7P");
  ("BMY", "5MuQDYXyYE6fdN6rivGQJuDAKEtPvwjqjjYzVEm3CpiA");
  ("BR", "GMfrbkYMXnpyQkdU6uDGasM6WgX5okCqoxYoHH8yjmC9");
  ("BRO", "GeHEg19cM5sMsdpjnkPWZMMvR6CxKz9udnxU79wXDSn6");
  ("BSX", "DGq9KrZ1F7Hymieh8Q4kxAs4s2EPM2Q2CTmXUgtWr3UE");
  ("BTBT", "FBNSUorKbtPXtEEQhxiTq9UQuBUrTwZn9QVBKQxZ5GE3");
  ("BWA", "AwNWzum8bJ186Rdk3xJkNW3jAVFBGds3hYLsxgjn3Ac7");
  ("BX", "9LyAygu4dLXxSJtQ1gWFDA1Q2gFev642tQmuC3yPXn3f");
  ("C", "4J9MQi2b6vG4aBCGPhTyMTAv63vyjWDSr4vzjhUxVFv5");
  ("CAH", "6irVNGx4qQCx3g3WCNmFPuqkfmkYSEPyem3dpwQtEzdN");
  ("CARR", "AWm4F7YQejkT22SDXHe3eGjRAThZbtDRZfV9wzUXmhSw");
  ("CAT", "77dgA24BpzpUThrZWxBJcQqLnT91ix9NvRjykERUkPsx");
  ("CBRE", "EECpvR23dyFtB35ZLqnCGyy5P8vDcixfuuvZyv8TmZQu");
  ("CCI", "BNmQdmH5PocNhof4UM2jUUunQQzMPrR1rBP9x3U5WuaS");
  ("CDNS", "C5dHp6x4G5C7yTQy3NrTBaKTTe9nPT9XUP3UDs9Lkohy");
  ("CDW", "9p512BXmCuoiDRECVoaLjuKFWfE9T7aLnWJAoZmX7155");
  ("CEG", "G7TEwUWiBsRw9NR7n3KquNBacKtWgYD8phGhAHzmbZdu");
  ("CF", "J4qcc7i64dJXoMEaGMkTcZfmmb1V86jNeMAFaRovbxdY");
  ("CFG", "Bg7UGrae26be2nnKwFRhY6ybo4rV5fF6FC5uq94FKVq5");
  ("CHD", "D1gJtsjo271Hcm5sSou5pCoD4YTRSWnBA37brAjExzZG");
  ("CHRW", "7QRgNm9LEg5vreZo88zBgXhSNVMG2ZoAfAYeMEfDDd1x");
  ("CHTR", "472XMxLP8ZCkmQE8qNjq6PVRsEg6c3867jhZFE9sryxW");
  ("CI", "J2t5kjKDvTwAdxRrezRCTicTsEV6dNfkH7ZcLsSCCuU1");
  ("CINF", "8NRuBkNRJnaupvvsQHn9h6vdc8AZmEVhXtK8V6YRW559");
  ("CL", "3Gtk6cC4Sno6XfWsg1V8qKTn2UAZWJnN9SMwCXdJS3KB");
  ("CLX", "Amj69Ythtz4p3L6RKzJqhxrkMVGXk7utA66pfE4iRLEM");
  ("CMCSA", "CC7UBGJjBG3Gar6HkNywnfA5vK8XYuK2XxKYYQ9GYVUC");
  ("CME", "q4YnpYcQBUpySA6pwdc4TfPLmeHFouq4xr5DaCAqNv2");
  ("CMG", "BiKg39DBvk2G2LrAvhFfWyZMRwDLL9UKXNW43HhPgNRL");
  ("CMI", "FvePcXN9kS5QiZ7eX38mHYVoMx8Exvi3S2tPkiGn365G");
  ("CMS", "8zVtXJoez9WqobNZc1emmmUPptJyQq6iL5eBDNckFgz1");
  ("CNC", "A9BcGDCnxKKAJ5Q9kh4nKoQ3oKbxumL9z4hPb65cjSRA");
  ("CNP", "AoRCuF1NF5WEWBsr4NFzGFUWhuf9uU5JtHkc7or3wF67");
  ("COF", "FRgFfVXSn9YcWnEu3usraXcW4WYBdz9mrLJKC96VzZjz");
  ("COIN", "91JXaWGHr57awfqhXQP2TxrkLX6CpvtBaaRjz1PEQqXn");
  ("COO", "9MQMoTNZjRDvU2unxJTvy52u6g3md458GsuT8nLZv4pd");
  ("COR", "BTTR5tNw2MBEoLFsrVXzB8pBnymNtdjwdrrPSdCR1Ezb");
  ("CPAY", "5MGxZ9ofrmJkjqe6NwKwKapgDc6s4DL2RerYfdkXogx7");
  ("CPNG", "69WMzmrtYUayoqGvW8vZC2toWNvrPNwJ2m8yfMypk6Rm");
  ("CPRT", "DLGWp1RecrtwtqcoDJ3Pqpq1CpR37DxTMU8P7xTyW3kt");
  ("CPT", "D54AeNrmhhwm4U29AZL3ZbXxKJHCcU48LpZRjFoHzjKt");
  ("CRCL", "7zWGncBP5aGTDmEK7Ej4GYwGc2kXFHZJZFxmq28ocCaG");
  ("CRM", "57Njqzi6yFM4kChHGDLGjrpM2QLpU4khpMZCwpaf7PQ5");
  ("CRWD", "8zWQVp313FFdanpZoQeDohp5HE7ugoJE2VaX4sYPHj4e");
  ("CRWV", "8RBiu583PsoEKWmkQYBnkmpg4zQWX3tdKwg7Tqi3gTky");
  ("CSCO", "42SMgNidC8uyjFkvQMPuPKyeSpzxPKo5YMbpG7FgLf4K");
  ("CSGP", "BBWbUQBpKWjHBaR5AJVbKXzcnFiiMPFZoUxnTfyhdtZj");
  ("CSX", "2oCWBzcboTbME5rsiCiY5Nqw9L12W9L5S27szo7zoK1c");
  ("CTAS", "CbowQbpgNSNGQwU6mogFEUzPd7hjBqUDpYUpKQbjyzHX");
  ("CTSH", "AnTFpPfppWqVMadVJTPaCwRCLc1hoMVNLzmsVSqCxRQa");
  ("CTVA", "5bMw3XK5aYJGw5crxKUioA4xaPNaN2NgdrBgr9GmGvjY");
  ("CVS", "F6DfSaQosvyTqKskD7WRSzzTrora9G8w37iF3tuj98cM");
  ("CVX", "Amo1jErie3G7oMF2GTMprbeFRw3PWnecLsAULSZq9t7p");
  ("D", "tBwHZDKBQydvpJk7ajaTopmNLzWidTieSPWgH4YPiBQ");
  ("DAL", "GoMybphPaJPG5zWci41Vcqa3skoM42RMqVRDgLcex77R");
  ("DASH", "3KKGMpEgGmrrhnzoL53XdEecYKygFTVVt39bfxAmj94A");
  ("DDOG", "oCJXTVn534dC2xMqksXe4VSiK4pYttibJJhG1FmmJYt");
  ("DE", "2KL9BY8nMwrs2QxKetTNngUWC5GycmB17sirPAGphnUc");
  ("DECK", "8kFkbj1cZ7Fw9mr3wUUR5C5WvH74xs9DFeFau4TWe66n");
  ("DELL", "5i5yznJfsFrExdaFNZHQJKpWZnAfUCo9QywdCUBACDgM");
  ("DFDV", "4QiuoA2EKaSMEK2kLSSQREtRcrxUQ86bM4HHGyCPRgfJ");
  ("DG", "94B1cCHSghJRPfEpcZ1cMarn7Bm4oKd9xZSBLeQ3tSXe");
  ("DGX", "EQCtTqDDKYhN5dJjH9Tq36EN6YDrGarqcE8WySs8Pu4Q");
  ("DHI", "8AKMgWNU9tC5ZeNWW6511ak1wbaTp6iwEEurLeWw399L");
  ("DHR", "54f3QWxFrEDByLpuen8k9qaSTYiCRcAcpzWcH6pbZ7Ht");
  ("DIS", "EyE4m9Ez9WkLNjBxsY9gyPmcDmZJ5od9NouFtyNRStXG");
  ("DLR", "DZ7c6ytvjDbNBsvxLSo6gsw5zWdbajBBSTJhQFvX6PhS");
  ("DLTR", "BoNrSo6J9nYuuzQxwDUxSEGK3o98iVaUJXCLbMuuczcD");
  ("DOC", "CYrkBij8yvSNyj5QVj3PotJBJACjqSF1qHGkmy3iyh9A");
  ("DOV", "2HLDBX2n6G3RC2iWApXXgAr5BVg9jRTP3UCeY4BvEuZA");
  ("DOW", "6r7t7b7iXgqaLJks4YYeLozbUANbfmd8GGkbqrNRySzy");
  ("DRI", "Hnjk1gSM9U3SM4hFvL5sh1FM9xp1Zu6ntaoam6RbQ89r");
  ("DTE", "4asXUfKhDKvh8Q7qRuS2oXc6uoCDd2kncJJudB89iw6S");
  ("DUK", "DEwhxgy9niTjQwcJ1paZvuaqqJER8xQhsz7ddnjNQ932");
  ("DVN", "72E1f22VjjDAVYnwhFkjzPhEekdEJwZyUEn2igtoFwQE");
  ("DXCM", "JC7UkysgMDgRdimjEwo8RorjWJkQVXiKn7WsDVpV2dBs");
  ("ECL", "7WRJV8UWADqDaWV9NFskVFWGU1GUpPH36JvptZAbvxdz");
  ("ED", "2NbEsoMhZzCAtPQcot4Qj2JSa4gwH9nHJLPqn5AWWiJ5");
  ("EFX", "CmgjHGvRsHX6ES9Nw5rNH4ojcbFRYCRrwHRVK2at7FrT");
  ("EG", "7A63FvsBsneanMJ449b4uHNikqQMT7gJFVwhQcuJntWd");
  ("EIX", "3yx7pHkB4dzoqS2S21BSzQfoHf38h5jPCBHAeCEJhoFV");
  ("EL", "5nnqL5SQ1q1wK2j4ohFb6Gwke6C9kTmufjNkdvYmrFqK");
  ("ELV", "ACbztfAbViwBaLss9VYbG1KwDRN9iKJA1JvMhFGByk3t");
  ("EMR", "GGV2UWqmCHHUYukuQoDnCfnx3QmtN7U6SQM3q7GekMGE");
  ("EOG", "C9VRittkLjiSNX9f9kdoSoyS49Aj8y3E7g7C6trDN8NE");
  ("EQIX", "3jJ1KdBEwsHDnz6rFCLCnHhaf2qhQYwcN65pPg3Zuy5o");
  ("EQT", "Yy9Lj6pB42zFNQipEZDbBQRKxHaw84qNRfcq4Y68d6N");
  ("ES", "BFKJrREbjYvT2HYmdXrpibBCnKCa7znhfJxx2jvR6FnV");
  ("ESS", "6crwpFxjorDChLcUyAJXeZ9tzQDpVMuVH1MwEdKrDZcA");
  ("ETR", "5AFNGthm8kmjKJ3JV8jXoZ7AXMoVcyEQxtrGzXfqoxYD");
  ("EVRG", "3m4iMsCLJ8B16Pn8brWUptVGJh5j3HSKRdRwf7eTHqHo");
  ("EW", "BhBVcQXCwNNvCSBn2PArnXGNge2ZxfP5RyNf6q7ieYyo");
  ("EXC", "D4CUFvc7W1VxTwQnDMEnjt7tbiRxVtf3e2S737HoJ5Fb");
  ("EXE", "6yNGZYzo6awMVDjXgUCkktN6hSoMZmX5xFUs3oQg26A2");
  ("EXPD", "HXb2ZapWCjkzh7yTtLezTM7t2nJo66AELUoehx4FTX2L");
  ("EXR", "4U4JeUbxr2t8P4AD6YXCz2mj4keoExvDtdbmHaTNutg1");
  ("F", "BSXB3MLN3oNDLBUaEckE6dtt3W2vLnV5ftbaqrkvDBNs");
  ("FANG", "A8BBT9KAXM1WNtkxK5SLoEQt91LM4AXRueNCmef91W8t");
  ("FAST", "J9c58up92oiip8Uw88tqKuAuRj2q41W4G5ryqmKE4zx9");
  ("FCNCA", "H42SwFTjam2e3p4v8ZHfCU2F7hA44ZG7BCyqKB2b5Y2V");
  ("FCX", "FLou9gXWdfPXCSpGefgpVcyTuAUXQvK1zW7XqkntFouM");
  ("FDX", "29K7RXkx4own9GRj56ePDAeZAmUJCqk583JL75utGFu2");
  ("FE", "CQhmvWC8yRb6sDmcBhDGFP21eesLB7P4i23v9ZjcTobQ");
  ("FERG", "GHFhD9ijnME1HQ3zqisnh5Nf21nNiYwrgS2F6ydJDpCm");
  ("FFIV", "5CMwKhv6euLqH2VwQLYAR5WRCLudHRZhib8VVmKweUHR");
  ("FICO", "6hUwYATeQg1iZ3mQWDQTQELLs8M8My7yvjEzG4P41Po6");
  ("FIS", "AQLp3CRjz9f6wRLGJcnfy5XZboMyxKDa1jtAhYieMaWo");
  ("FITB", "9QQveDeLFNeG3HFDssv9RnudBNLgE852rwyyQXK3cB8x");
  ("FSLR", "DnYcpEaU8RWgi5gStgmQiLdhM7HEG675Uf9UVmFYSvgg");
  ("FTNT", "AVYkQoRZUn859b4HYdGEh9V2UMUYfaKqFAZJRScWqkui");
  ("FTV", "9qRNYbNSuf97ombm9Qp3GDdC1FXTJev6HSPfpZrCR1fR");
  ("GD", "EGvWXdSkkPo4KZiSYbmeqRrnpjJA4zu3BsZmdvcZcceQ");
  ("GDX", "8btq5Ru8GspsjT5DUr3WDM1U2LmU2Gnj1Tzj4tkyJ77E");
  ("GE", "wLEfzCQTGWb7eY8x5GeZ7fdAqKYtuKSchXwESKsESJv");
  ("GEHC", "8dyiRJYNua9zwz3hmwGuMfJ2fxfR3AHzKpv4cW7KdsBg");
  ("GEN", "FSrLMjSjdJwt3M13nqfxMW9HycEQbrgQpomBbQ5oKrnp");
  ("GEV", "8BjMMMerpTSFoaYyrLw275rWHcfVpx9jaZWonhxR3xyG");
  ("GILD", "82yvPknk4GUEhXRfvy4ndwVK2T3nNWmi5Xo7FZjAsGCV");
  ("GIS", "7RLnCvjiLqafH29nLrruH9nXjMpvYpCmjbXiscLqQR9N");
  ("GL", "EDP2HNx5cuhmALxVPqUitoFciNmL4PxiJxwQLPFgXmxZ");
  ("GLD", "4ZVfYJzpww4uQ6qaVnonfKVgPeZ6kHZ3mE8W3hK7eiFf");
  ("GLW", "J7Lygt6e8L16oQkE2JwZFy3sZLukGnPtJBxpH6XM9Jcm");
  ("GLXY", "EHEfCJoRUewTW91Lv2k33eLW72JkbxbVH6YsisTskg1n");
  ("GM", "ETtEn7wJgXnL796Bd9Pzr35wxRysecW6aSqTbuu6bVMb");
  ("GME", "6AvVgYACju3WKAMSMZibU8UtDeQhF6si9f1vyrdthiJp");
  ("GNRC", "72b7kYnXoCb9nj5uMDff7RoakKay8pQhPa12QZqv3PYE");
  ("GOOGL", "HShKFQqhYkUiXpVyyLmrAALXwWqHB7ikLmPbrwJzpRNh");
  ("GPC", "EroLoHENcafPgpJJ47rk8bbhN5Ym6Rp8sY8w6TxRS2qv");
  ("GPN", "DEBMtyhWhuDAkAKB5Uy7LGpfbD1UxfQ9qBYmkNBtFrVX");
  ("GS", "BWraZvJJf5kDc87FKgMLSVRHZYffyjGypeLKz68yYHEy");
  ("GWW", "CvWW577GhR2cFwxCQDaL9bnVkYbfG66wQcFwYXtdhWmR");
  ("HAL", "9RVCkXTJUZWbG6KceHcoTpodtV6JAsHSbRoniE1WsBvb");
  ("HAS", "B6T1NbLsoYz2go5LAZezA4Nmm8UCs73QKNL48tPVFLia");
  ("HBAN", "GuRENz5nGoqgTuJZ9NjgRGS34Danz6sPDSjNidATDapc");
  ("HCA", "D15x6HcmbqqZkmUHRWi8FhLhFxLyMpWExRHjWa9HVsKn");
  ("HD", "4UMygEBxQLrxM91iibNAft6qgPznGyLTAzjXyuv5znct");
  ("HIG", "7uQjTWWa3E4TAb97YaQkyuxStJ7NRR9vHD368niF2HLW");
  ("HIMS", "8fnWtZJsXpe8T6xRxb5qNLWrMYGQxphw4mMyPtAkPmq6");
  ("HLT", "5rm3PVui93wvTJQPAzgEAFWAcCYhqRxfareX8YoEYWMC");
  ("HON", "94624SXQM3bCz8DRQNWfXfcWHkW5GEhRG8244ikg52Hp");
  ("HOOD", "5tZizzQN776ZWTibPJKecjk1DkTSDHu47dXM3SxR5D5i");
  ("HPE", "Zo8m26E9KQxz4mAmmL6Aj1DVj36XFdebNp28JgsvFrj");
  ("HPQ", "9CkesYfveE7z4Z36u9bFi5STE8ZeZRn4GaU38EKzJZgf");
  ("HST", "EkXP76BWke25DLMnSqDc6Cz1fc9C9kHdxqxMBizJ9V12");
  ("HSY", "78B6s83WefoqV8UbaZzr8v8tNw5SxMEEEHRmNfCyRvSc");
  ("HUBB", "6A4hBRZ2jzzyNyTAFcj82kUM9YprwA2dFNMtZTeCLzeP");
  ("HUM", "8D6E37611JxTjkUFKXSnX3hrtRS4XnVwcbrQw7erMhLG");
  ("HWM", "8WjAXtRpNyPfJjsV1Z9SVcn8M9hzwGtmLV7n7nL3UbAc");
  ("IBM", "BWAvrRns3hMisVc5Xde5sAM3EiE1hkNbk7LctwRTy6o1");
  ("ICE", "35EwpYv5yeqhgeEb3T5XWGhZEV8keBw9gJStywEttKUL");
  ("IDXX", "ADGRcLbANy4yfoj23VbMvnKphJG2TjvyGPsSLqzvv6mY");
  ("IEMG", "8oaQjwDTgwbj7tvCsnXYdxe7ctr71cASceeZ3BDJdWEJ");
  ("IEX", "CdQBQJ7RFbg9H5dcmsX7qynQFbfSiSZxqhdfPgrJf1EY");
  ("IFF", "Ei8eiPeBEsc1gBr65PAiRzsrgyUA7GrhroGokqt8U7Av");
  ("IJR", "DDF9AbSGj7fhNHwnxrvjUyTN8QFhLVQNd7jD5uqJ8YfS");
  ("INCY", "7GgT7UajXtSChpCG5vhSRrp8W55dPb1jDfUFZGYWRXcM");
  ("INTC", "GSLaP27qiAxWr5HrskKCurbTZ7su4TRGDGWXJv6ZJbij");
  ("INTU", "7XXq7CaHeoRRQgqqYkPBGnNSVgnvYL8ufjyywxuosGVf");
  ("INVH", "83LCpn8mqSrVnAQzf2W1v6ueo4vWG13i3LVS78tk4Y15");
  ("IP", "EqVSEhMeLPgzTXnmp49jYdhPVYFE7MZKTYJkyDsBJVbX");
  ("IQV", "Bh4UeuNP3d571iurfG826hAPh3C7mZTfgYfuQgfMDiYF");
  ("IR", "BziTAzRDzNC1i8Dt3wx2ByTYMBp17L3qafFjdZ96yufn");
  ("IRM", "4croPE7DaQHwgEJozuRrAuDyq76c9eLcFrPvX3tbZCRi");
  ("ISRG", "EkSRHbWKFCUMksLPf67yak7W3diUoaaNAX3p21nfma5j");
  ("ITA", "7SjwU2muYH4VzMePq38Le6JTuLQa9mWh7YB69snhnpVk");
  ("ITW", "Eb2iKz2TzrsXpcXtZEra2GRpVmMNJA17rgdbrTzjzKRr");
  ("IWM", "JB5qxBAeY2e3V8oAVPaPPyLt3D4QDJxSDPxReJoxwsub");
  ("J", "GySTzoJytMy2gkQrutM11Y48J2RBp4SMLhXVejNnYWFL");
  ("JBHT", "AoFP33j2GZHM5RGUMGufxkeisquSTPrhgQy5P2JuSuXJ");
  ("JBL", "GmWSmP8tj34ihPvivFWh35EDmiecVX1MkP4mV3vg13S2");
  ("JNJ", "CQdAm1hHV4bymL6AovtQmPQVDxhRjdRXQodSaidwQA9f");
  ("JPM", "9gx1FfCkrtdBkr3q7RtZj4WceQmgf2VDmvU7BAoWeABE");
  ("JPST", "DeEc2Vani55XbR2zUciYvmFXyMrY7cLiucUNFE9f9CVP");
  ("KDP", "BpfVBvxrYnXvHb4D9WX6MnVBdzms5vvzKy6zH1EQjist");
  ("KEY", "F9DXz46EWoDphi9PdUWBLZHDR5Lx5ScNqpjaA3AssNMd");
  ("KEYS", "6NgBpsgFRbGBnVxeVFuFMDNRooA5SxUhpmdBb8gwq2ds");
  ("KHC", "AsTb5hU8ANkUNyWVQwxsTaJUbYC222mSEuFGfVt2yejA");
  ("KIM", "9pmcnsaWbyfeganKsgz3uSKdUVDprB9Jdt3QKfjC3G8M");
  ("KKR", "7LoNBynR3Mbn1gaeqiGDHeKQcMfjW54xP1VWYyUgnASw");
  ("KLAC", "9258kWxnei5pSfbwQBMiNoiESmcbjLNxte4cDQF7YLmb");
  ("KMB", "BbJawVBZVAA5Js3arkyhzASmmBBH3TLxWYZXpz9w7avN");
  ("KMI", "2EWDw1w7nuU5wc7zuiNXRoGLNuQw6EzGuM4cJH3hvJ3t");
  ("KO", "58TvF41sXqh2bYD5hzgVH25Ns3tLzx6Qxy39tkvhUHCa");
  ("KR", "8Fqv25TVzSaUfApNBWQsbovXNBkafEig4UP15JJxy3Bm");
  ("KVUE", "5EbG5ZZwhFNhLLHx7J4UPM5wP59GxYypUKvdwzBf6oFb");
  ("L", "31gHEJsCYYtceojZtkPdnr7QLmYCu8YivFubSMZyacYL");
  ("LDOS", "FCpsRrvRPioKF8dp74dhHKqebGQnrdY1P5HWWgRGWSw4");
  ("LEN", "HskJNB95akC8VDZQJxtk2umxf4oJduSBiDrVSprak8PT");
  ("LHX", "DpBqa8ANPXvqtvZJagnazJnBXPFbgvvES4N3mQiNR1sR");
  ("LII", "9Vzo4W7kpCSJcM6AomJTyttSVQFNXZ71Gqtpq6MBj434");
  ("LIN", "Emx6u78iiJebBvQ8RC8hSSvWvbVyiiY1LjGnTyh8PNDS");
  ("LLY", "AmhgzXb37V3YegqdXoDTGL5QVhSV83dESyadboJwc7sQ");
  ("LMT", "D1FiDNxk78GdVCy4A9yjWPDQn3fbKhECG1fsZfjCeNgw");
  ("LNT", "7tfsRPTvUmhyowpVnUVa6zfdMPwT497gC2JsCDCCDBrc");
  ("LOW", "9eRnJFrDn5U7WB62bDxE4wRaVoQwcBxg8qPKzo4cAtzk");
  ("LRCX", "HbyZkgVWWgvZ3BpFLqiNChzRSaWLdDxe7fZduvwuUxeR");
  ("LUV", "Fh9YudixnjDBGvMRznfrDrbidv19K1RLTQkKYbmo29T3");
  ("LVS", "82Stv2Qs7T7Y6EG53GQREFxCxfw1ve2KFnMFQzce4dWE");
  ("LYV", "6xdphq8X48C2y2cmAgkTXnuRm7hhhy3VUxbWiPkoZj16");
  ("MA", "EcDQMonpX4Resc4PG2PEDX5sQr7B83125i5CvR8PkXhv");
  ("MAA", "57anznGDxNL2VioEMwgCeidQcW7syMDnDbnoL3SJW3fG");
  ("MAR", "7VxzgD8HA16ZRXh3WakmzpBHeGD7YrrYUW1udxNH8GXP");
  ("MARA", "54ZTFKKfvxAFiMqwzHhNFFmMFM1rbrKyhx69LhF8uvyw");
  ("MAS", "HoNtTdopD6dKWhpdnDJL4wVZ5pWsDv48xhXirRQHU9df");
  ("MCD", "4gRz4DRNxWauuA6nWVw286qWdn7yzeMFupqXakAG2Bza");
  ("MCHP", "F1oJ1MQSyu7JLsovCXWWowcwjh6X4rV7CRu4CaqrgGvn");
  ("MCK", "GsGHji3Y8AuErbJAMHc3ckMMCrvcbvCqjqKpX5STNGT");
  ("MCO", "9NDECT5RZxKBQvzB5mH8Wtd1Zzx2Y5FjtUFkvtzxVScB");
  ("MDB", "3Gq2oduR4PdWki6xcgpVLoGRdgERjQoorizqAsBwrq1A");
  ("MDLZ", "HJpMbnReMBZtvZub6vP5RbHkU6NpzZ3Vugj4PiFggJYh");
  ("MDT", "8omTDnnZtkn67inbN4pECDwHCkXkfprPpwux5SxR6vAd");
  ("MET", "y1fnLwqcWHXFhyoBwPRx68UK1fvUwxUiS3TQiL1ECwB");
  ("META", "GsKrMNoa1Mqjpif4SYk2WjdduWZP699hXRdP51yBM6K2");
  ("MKC", "3epjRDRG2TXkqoWbKqXo7otobKbsCBPXyMVkHYsZSv3S");
  ("MLM", "GUZCfvFkMX4ReU9D8m61UFHufBLnNWkYZzm5XR2mBiB8");
  ("MMM", "F6vafPxpGJPo2aQPwVckFiXnF5za73XQ54sXNougqRba");
  ("MO", "9XFw9reKhjwNQwr934YyuGv6hyiFAQwZHZsZsi9PAAFr");
  ("MPC", "BYYaN6MWZd7aQmi9zidJYX4vJbdDaooWeEP7uufDGwnB");
  ("MPWR", "AqBx2RsxRTfJfipauMCeWysnuXxxW3Q6YNgahn468koi");
  ("MRK", "DhRmDbSn8nU2ehYR8WJF6H3bgqpQ7q4LSxgUSCMmxrad");
  ("MRNA", "HqW8UxP81jp84mghMSCobAXVhhx4zfwwn1offcg7rSU9");
  ("MRVL", "52qQ3UGpSP3ugajCHcgkzJDC76unhtaUutapy4wBvkKa");
  ("MS", "FACHDfRCrANrayis6KMq3bDWJmiJUNRpEH3m4QTVagva");
  ("MSCI", "4aCvUjMoQpKXGjrCKoiY1JvUXfdpEodfu2mCZMjd4hbN");
  ("MSFT", "7VYuuJxz8w2rLA9tJG2KZ9T1fSMcjC7uECoYA6nDaqtK");
  ("MSI", "ECLMtDD1EQzoc2ysE7jE9cwjAKiz2LmxueRzkjkTxSSD");
  ("MSTR", "HJGvGyWrAXdZPG4Q7LNkkKja72FDkJW7ixuyg3u6vZyP");
  ("MTB", "Fdvr33Z4jv1Q9JSkEmgPq6jjfLktNXpDx78ohNs54pBM");
  ("MTD", "7JBGauGXZutsGfVn1CS6ixtqGhMtt3kmce8c5MT4xJj2");
  ("MU", "DNgPodPW65bwT4HyeVs6C49UNUdJcdNKuGq8sMCDvzGy");
  ("NDAQ", "2T5FxrWaJspPutoJZZjuDs3KfwRuhpCm1QrgEtJMsnXB");
  ("NDSN", "CjbaWb5TqGt7iDCvanoGbC6TvCA41CxwFDVbPUR3y4YQ");
  ("NEE", "77oftNcgvh7ZihVBeBHGxv237bBkqq3cLqpaRbwtsH8n");
  ("NEM", "7Go37SXKdHjPzYC2aVVsPNtK1Z7opCm7ZCKZVQLsi8U5");
  ("NET", "3JHPxemYMtDDEMDTjiVKtNwgw9W1WbW3ae6Ej68tjbba");
  ("NFLX", "BcKrDiVyQ2fsTJ4dDHLNV2Tbyqz8uS1JfhmSwBrX69Ci");
  ("NI", "2tKBxzCgS3RsT2RiWZ6w8rrD4SPEfcsThXVPGd3TcXLY");
  ("NKE", "FysHfG3sfuuz8g94KayzzYVJMiGpr1bYwwSe84gAXDKZ");
  ("NOC", "DbW3wfnCh36HxJg7cD1AuaicKmNZYnrVJfJs8gNBH8Hy");
  ("NOW", "6NGnoyGgnhX9sXrc3gBey1bviWVnKQaDFVJJDeB7r8pH");
  ("NRG", "ABTonSqKJumReDmvyuUmMhJCBmq5X5V9u5C4rPjxXtmK");
  ("NSC", "nxLQKdPTcyDHvHQBRMR5F4neS9r11NFkvwH9zCyVLK6");
  ("NTAP", "CsyRGC1q4F4uQCczsHhp3P5WspkZczFAgC1ctNf7Q64q");
  ("NTRS", "FwAiHfmAZ9YMD3D6Tni8nmRiErhC7ebezXGYDAFCh5iQ");
  ("NUE", "4yh9Fy8jytGb2pRH57YQFTSqr9nq6ZUZcJKFBkSkBG7f");
  ("NVDA", "2w1Tg1XTZbUib7srfRoStJ4v5JXVsK7roQEGMsMaGZFC");
  ("NVO", "96q5heUgagmBhXZLBYCk3dvbhoPewy7tLbdVsJvp1Jq");
  ("O", "FgfXBGt7UGM4pbbP1xqgCRuWn4i9Jgt1kBCkQwbKVy1");
  ("ODFL", "DcqeXnpGegGsJk58NmEtN21mpYLsFTzHW8BH2VqyeaJv");
  ("OKE", "EueeRwXBRqS1shPPtgvJp5QjywNe6k1kfm6e6SfNM6iQ");
  ("OKLO", "iNomEizwKqSbRBashHkQXmwkaYghXeeP7oEHSyiPPPc");
  ("OMC", "AtvAAX37J5KJggF1Qyube6Zeodw2BVRH61j8TztjVagD");
  ("ON", "2skeExP1XKiEnDQkwqaGduB3xCUZsPBEtVZynPGRsZue");
  ("OPEN", "EaGNet7Tgy3HWjq6XecGf6jafZ8dZncr7AxPqrx77E5J");
  ("ORCL", "63Vt5pXYVJKdaaU1m3JaPdfpojaSFdrK2cSVcReh39FN");
  ("ORLY", "Eu9RhDcoz9QNW4ooajef4BYbsrigfDXTuVmpHstv32SH");
  ("OTIS", "C3eGURhMBQ8W8tpnxcWz36fkosAahiMPZ99MLVLhsH6N");
  ("OXY", "DJLD3Bv3bGam1UgGF6pQawchTzJAZBEfHAPoASNowkeM");
  ("PALL", "6bEHHqcTif5SsCyNFZeHz4EdAorTMD5ik4rcYSckUeWF");
  ("PANW", "9xDnZfb6b94jnZABEFBx58gWjirocfG8Pc4nVofNPW6Y");
  ("PAYX", "AZwYafZVWMcjk3DKPudDnkH9yrh1z7Ng5qzPVpAEySkE");
  ("PCAR", "GQCs2UU2z3qqM7vbP6FWL8Ej9gdt1Ngs2GE9qFFDobmm");
  ("PCG", "2Jw91uVUhigFTBLD7cnEL3K72j9jUMg4BHEDT3nyh4UL");
  ("PEG", "CyCN7Kma73FuDCeXwstPozGoYZvLsJ8J6mpmjjHCN2J6");
  ("PEP", "48poNkAU9LTF7ovyfXfmxRfzAEyjJpCVvAbvPuSWUvNY");
  ("PFE", "Cxdyfj8XK7f9rPCsbaJkv3Dd48diMxMwEvd7jFcmsT8j");
  ("PFG", "6KNtfgvYAZhhLjaeevVE8XbmLfRNdTY6yCU9Z1Avg7j2");
  ("PG", "7tx25xetumfviLcWULGt4ab3SqViLwoTvAJSaxd3d2aQ");
  ("PGR", "3PnvhrD2XruA4LEHvBeWrNoAsgSvZyedksm3A85e8k7P");
  ("PH", "BBmCPnDKhJfMTMUwrWJ4whbCeB2W3nc5EBpgcuXdmjww");
  ("PKG", "9E3fkEUuz3w4ru171rwW4JGU6guQZs9wrW7DDxdmGh5n");
  ("PLD", "CKf4cpYKmbNwy3jYeV8418TM1c6ntoNXH1NN94bAwgw2");
  ("PLTR", "7RP45Z6dsTrHQakMg7xha1RLZGk1x2pVViBjpUMpzdBK");
  ("PM", "9aqrvHn77TCX18DnEigaYtr4V2c9gSjMt3Gcz4C7MWXY");
  ("PNC", "GNidZ9JcZP8WT4hBpT9bf3EqM2ZxSbXSfUd1jvrVfDg8");
  ("PNW", "6JQZx1dc6JxvpkitLuYMqoPvk59qKMV8gP7EWTr6wjKx");
  ("PPG", "FHFZfj2mtJF7L9d592Cjx5kBaTCTcRM1pGMSTT1EzrXb");
  ("PPL", "7UQkNFWyCw5ttYRkSmMJhPgFtmjGqcur8NVphdZwrPP6");
  ("PPLT", "49GevGdn2PP8z1NE8VVyqYWTYZSapYUoL5azSZrRyXvB");
  ("PRU", "7sKCwvxxkw3z3fWBXaa6r6ygFCg4fjCubMPbBu3mVWtm");
  ("PSA", "HL5vXDe2nr5LZRZBHD9QUzy4MzuHEpMmyL5yLy8ZdBKK");
  ("PSX", "DfZJ6efrFXjwXrvG9WbpNcA1Bw9CBS8kL8vYCJuCGPC4");
  ("PTC", "CAwjk6LrneVdMJv9WFE6fJEZVqZ1LtsbvyfC8gJDSLv5");
  ("PWR", "CckRmwAedGmeHrJwLjAmAdSAqmzjDaucB3JuPs2CUuCd");
  ("PYPL", "9uQ8fQy35gRXDrWTZVoLJpa3kVNhwiiR5qmns5aQwXrg");
  ("QCOM", "3bewRSsY2JYJ6acojBstows9ahEj8b4trNyy1DPxKKwk");
  ("QQQ", "EwssJrQ7UVz6itHEaQQsKWikhZ3iHddyxRhmR7pTvwt5");
  ("RBLX", "AXQnhaLdgvrCn2y1WMC8Bu2e1nqThxGWy7rctKKLvPC6");
  ("RDDT", "SvaUrANXtemRQDMMMtkUVzHcpHLDrLFC9nWSniKCzLY");
  ("REG", "FQ2SJxU5W1bzUxEdkk1beDzCEKxXguJASeyrmXRYq7jR");
  ("REGN", "GxGiQ6hnn4uvwjvALzhikrA7HsodxLqWW81SqLBJhYvt");
  ("RF", "Dx1FQvMYDJci8CVTFzyJvanZV5mag5P511g1oao3WrdC");
  ("RIOT", "BhpnFXWJw98mqBRR55NNC6M8wDfGifesU9Fu6L8DKXwB");
  ("RIVN", "3wjeAuVmk6gpAMP9vsruRHPF2gXfepE7rgvuYNbA8SGi");
  ("RJF", "f14MwyjiPrSHenJ7LaVSiWJAAgTsoSK8RpfudAMYNEi");
  ("RKLB", "H2tjxYMHGVN9F8S7ewVaECDZtRpVxgfrtAMEGtRDvqYe");
  ("RL", "DZKW4WiBUE35nRoyCnK8mJ7TvgDL3dHY5cV8NuYBgPGL");
  ("RMD", "EKz8Qmf96wmGGTLRmp7HypEqKfmcBig4Px3hjDPpM4nt");
  ("ROK", "Hq7jezBDTSaQPw9r9pGygQo5hZs5c8YtyCq2GA1PjpvZ");
  ("ROKU", "3Txug1YaayeYjKMn8GbAU7emv8ya7ZJ7BvRUJh1NDZC6");
  ("ROL", "4WyUu2gacSRqVQCgJm5L7hY32y53Hya5BkXE7QbQ1zs9");
  ("ROP", "FHLdpUSBwKyKLH7vA75wdcWZTReKNL7tz5RuCGRuZ5Ds");
  ("ROST", "EiqoYS7pJs9JAXqL23j6XZuDnDKGZ2KRGKbbdyT3skGA");
  ("RSG", "HPKMw7WF5KED8WC2oYfVZFkGYTjbttWecbTqtYpsQfmP");
  ("RTX", "ASUY3VT4D59iLKnFSmhj51Vfj871hn8RfDuwtxmNzxKK");
  ("SBAC", "6GCJYchZdgceJiuCN5TdjwnDSQKxRC9tMLGuaJKtiqWT");
  ("SBET", "2GtsSys3KcsCCQALcPoLRyrsDxDxFMCHcapiCEhAmAX3");
  ("SBUX", "EtYMxZyhx2NwkacFs249jPYqdsdTSamEoQm9aesfHT4X");
  ("SCCO", "GjMosk26jexQVqe9E7Jb9Lf6zGM6XxShAoAqgrtCzJj1");
  ("SCHF", "51zPAtQtcjrFUUrtdyJtAfMb5YtuRCAvdWTurExt4Tbk");
  ("SCHW", "H2Nj4PaTz1G5koT6LdxCPVk9LwoTKnX9L8zFL1px6R2y");
  ("SGOV", "8xUpE4x6q5867pPuuA88wnaypz6P81mcqHFUVfS9AdkY");
  ("SHW", "9SU5j1U9PpJqiqQFVtDn4EgijeCfaFk5MANTsTLUHHGg");
  ("SJM", "sHdmXepK4hXrf9Y6NRsxi8UNqhVVCUARhbpC7rrnzNf");
  ("SLV", "6CU2PU2QVgsp4C32QXzBoniR8takTSsbcBKx4vKQiJbS");
  ("SMCI", "CgvTuHjgJqZfnuefTCQWp8gqTNpQPNQBcL5hwK8FT4QE");
  ("SMH", "95mhJ83VSFmi5NTnnzdiDySz3cA5r2EPG25mvVnQxqPr");
  ("SMR", "7X2Q92nXT7zCbjvfYARbEgkcqLUuJXjJQvywVjMG4oPS");
  ("SNA", "9P9faM6gLFZyKapECqKS8Dy329TvirZYQJsnCNKKpooe");
  ("SNDK", "H23YCk4YueuYxPS3E5BqbA9NA6dv1CRjBNG4aX4E7x6z");
  ("SNOW", "4VB7ghiccpsmSqRWCryZkBrZ9ysE62ChPZD3UkL9UAEb");
  ("SNPS", "B8Rn7JBCkDHvkYVpLMcsHBAohZUumJ8PDgMU4wjGsGbA");
  ("SO", "HCRPYb3GZ47Bv3tYGoV6GJ1uE59n2BXdm2hPJDzt2gSM");
  ("SOFI", "7tA4qYw2m8HoJLUDQDFcWnynZudASpXExvpJ1Q7SKaEQ");
  ("SOXL", "agcCTwC9r1yPoX5aqMeiv6dcU9bt8VNTJatk9AQ3vf5");
  ("SOXX", "9FEm3W99nSTDsa2gSrZhxm2k1x82zJ6NBMAruEKnkFTS");
  ("SPG", "Ao5R7ibdeEmdU5edfVCimePjRHfkkZUi22fJMAFaNYjN");
  ("SPY", "9owhtgrdLiUMAH9JKxYFt5pUY4Luy4EzzLhdcWPVuDyy");
  ("SRE", "9RQTs5rfkAuCEmPJVkPTUmH1nY6WBH7RdzuWWgbwCrMB");
  ("STLD", "3yWhq9AqbHtu4TiogLjzNyowvGxf2ajPzXun8uckkgqM");
  ("STRC", "GcEfvXPFyoWLfZeKCoA2gRwLCQds49anRfVzVRcU9cai");
  ("STT", "HBG8P5DTP4xwTFgdPNgysdD3ugG4jtgUnfz913aNAnML");
  ("STZ", "B9bWByErU1RQHEhN3WpMCrLPinRXLw2Vh5wALaxnXaLs");
  ("SWK", "9CckArbp9gvujmXb1euYiw4CGi26XmEKcZ33U18FTSh");
  ("SYF", "ATyMnCFWT29JYch6aX6NZAH8gwcUF6VZUNK7tY2yphNK");
  ("SYK", "9EBBbrJds5M9GUJ42T9dimEL43A6ri5jyrxLf8shqLP8");
  ("SYY", "6dT34JGic12JhtLTAGKnyefumcq7zyHhY3oVhn1NdQep");
  ("TDG", "3BSL3aDxLMYVXBfpsvKmBwUj1Yf5mACAdBdhCxHt5J54");
  ("TDY", "94jdKUVw8ApGxbnBeGoppsxsGB5xGXr6TD1vsnreEKuF");
  ("TEAM", "xNDpE3gDZ4wiw4dDpVxKPPKYRxv7aDzYB9shPwV2Ya7");
  ("TER", "GpD9mHgdxeMmxn2cdqacLhUGFwtsYNDiDHZANVjxMjua");
  ("TFC", "Dhv9BHDTjqGzMzpaCwMPHArnJZvWcWUsrFMLBKupQxPw");
  ("TJX", "2P9ZmKnfDKUZDcGonr6dG5rTuwk6VWPayvdoxTTLVMzU");
  ("TMO", "5f9eekiFMRESBFgdCS7CPaJGtt6kZAPsMtaFraeGjDRD");
  ("TMUS", "2EnQA2vsoYVnP4BR5XGvVLYMMyYHmwKtt1RAuffeqvqs");
  ("TONX", "DHNrJSpgdECxR1V1kVJ2mvrSBz4rGCXaajhonwAwXGiU");
  ("TPL", "CqXMWLVER86fowG9SsxUD44ArYzMbsN9LFSJS79XZutV");
  ("TPR", "FUywmYXAzYH9RZ9E6Z5eTgdCuwnaPQTZvoffUFMdYZuV");
  ("TQQQ", "G26hTVgVSWRyNpsNcgxgwB7KGLGsWStZTqSMmAY3KPza");
  ("TRGP", "DnHoRoThLDsyG7mNrmJsSMkMxUpq2hRgAGQvfYYQeWza");
  ("TRMB", "E2Ww5ZoefzVyJtpPD8MW72zjj27iXLT6yZEg1BCcnB5W");
  ("TROW", "5u9HAcMcgHaHgsvDpjFZiJLLBf555zVgF2SXU7GP1xiZ");
  ("TRV", "4JY4e5wenScTGyCCmFtP8niZ9KB8v7jm7CmwKN8KX3uk");
  ("TSCO", "2QzFV5PKCzHiSwz9ocXjX5JbgJ3QoHK67cuNo4xXMpTw");
  ("TSLA", "E8WFH8brgP58arcuW2wwsPHiomYrSvrgWTsRLZLAEZUQ");
  ("TSM", "6TZfpihtCtH1FdDt3yoexKYkv5iTZwmjBAfUVoKrT883");
  ("TSN", "Bj8PEV1PV6VbmVniDpq6bMB6NGqAURKBuRSBw33a8wLs");
  ("TTWO", "AziCaTkry8WCCC6HW986SYCPnyg11qgJ7Kse8oPRwj5U");
  ("TXN", "J8WL4E1HmYLRZCrXmuLefq5gwoxNLArs798jaqKWSXU9");
  ("TXT", "h15MuQxRdMmpai5ZzX1BCXtsXwjmEXktDiDNVJ8VrrP");
  ("TYL", "6fqWZep7gqzfS6F5JmG6gQq7c9bFU69GbYf7shBQv4g6");
  ("UAL", "tvJsgSUuDXMVEN8VMUzw6JdFjF9vtXdznVyCeutX3Fu");
  ("UBER", "FnAEMDQgAoCieWdLLKqH7uX4VbdHDqXZcodKhpTWYNwU");
  ("UDR", "9HBPSCvqb5jii9KwaAzaXBZ16ESTrVzZdYQN5SSeMDKW");
  ("ULTA", "BCmesHcGJCKjMmh3JfoAdJEPcALvRBEM1hWVe6fHSCaZ");
  ("UNH", "HBCUey2zP688M1XcH5CXj5sr7P9YqNDb6ERTnjDziKLW");
  ("UNP", "CYKf1vRDpnoFKdL63avvJDGmgFV8o2URysvZiBzjHAAu");
  ("UPS", "H86qrn9FACsm4C9VSLDe6AtGRwMq4rMwEbrk2t2aPeLs");
  ("URI", "GbroHCbJTryVFkexCAtJU7kcD47dcYG5MNqjNQzpn6X1");
  ("USB", "yvP9fiS95pAJ4juNFuB5hns2ZcZU2FRSnVQM1AZ5PB5");
  ("V", "FEfstxF9Nw8S5qrr7E2dEgWyxpJ4R199N8miXg1gyJiW");
  ("VGK", "N7sdUkYKeTQeNbCmqQ81G1ynVTCbKYMTrujgjsqWue5");
  ("VICI", "HUTWr5B7S8mr31Pker4aQn8a864gFEN1JFWpZZhzPRcc");
  ("VLO", "52nGXfk7KTTtt5pdmXKWTmwQyZv47rnCBCGWwwQztkPK");
  ("VLTO", "4ATCMhuJFbNYDgoxC6MBma3Xj9NAwJbRUnau3vrfQsSS");
  ("VMC", "BQpkGyPH8apCZ8HLXEEtdocL7QwkJmZvE7R6iD48nJhj");
  ("VOO", "LVreNUP8XfYuhsVQgXEm9csBUKiLTESKrxCFYdZ4HjN");
  ("VRSK", "7MCymzW8ALfoE2b4GkjbUXpURidjCyNCyHMV5zpgpF6K");
  ("VRSN", "BZZYv7E4p2zFJxgBPpd2guCAmPzx7jxLXT2PbySs8M8K");
  ("VRT", "5msPnUQzbQcQkKwcHEYwYTafp3ggJLpgjamk3m3yi3eZ");
  ("VRTX", "CmuiU9H1WmLZrPnfJLZ4DuktUJwDU3mpKFosnihAWbTn");
  ("VT", "7gXLSDdbJM4Yqu935BRM4ityFBwQDN1gPqEgZ8ecNwY2");
  ("VTI", "EewkdT43FNdobmBKYDbbrtRZa3zMshboFQ5cTZinMSmw");
  ("VTR", "DBFTjTdubfJ5wACoobjtk6MEeMzXwXpY7Jn66RzX7bCj");
  ("VTRS", "2KQZgxv7CKr6mwb2uuZvyDfJvyHsdim1avQwogBENdUY");
  ("VUG", "FeaFEyLsmsbQHCrdf6TeYCw71JCULqCKjhRj2dG7Ctpz");
  ("VXUS", "5fXKkTAUKirGymuVm93vjHeNKC7V7W5PYFSedMiJ1dbB");
  ("VZ", "7mCKHgVHdLXX4ucU3AeJGL3UZBXHobAieNaxgrQkGn8N");
  ("WAB", "5YNaTUxrAb7zEcqcppo4tCV65rNFLXqH5rqY4noFsKe6");
  ("WAT", "CLwSdyiy3LVK29dB6xkAawbKCH55R6zXnXjxYd3poPN4");
  ("WBD", "BhHpEkLvcfGXZqMxd8izbX5LxwEs8KhAmVqGMB7rMBkW");
  ("WDAY", "8MsGsVZcGK9jMPeqmckc9VNeSPaarb424JwWwdKxTXvd");
  ("WDC", "5EqP7fS8JvcrKj8u31gyctujmEhmpKUzvPU1uzBUBKNs");
  ("WEC", "BL2RWLLYDvXkZStRNVznrreUEVfU4JFJEq9Y5uQB5J7");
  ("WELL", "HseiXjuvAhbTaknXCzQUu3SMxcYXp9PE63oUfP7K9CwA");
  ("WFC", "5ZTJShizo4G4HmLw9rD7rmrMauQwX6nfmDRtq4hNU6uH");
  ("WM", "3NQ4XJkWKDd1ScguZC8qLUj1FthjEdu8Fz5Zc1yXkZkE");
  ("WMB", "FSUtXqA4fhaQ4jt8aNvpGjixqmBrMUuUNwNxRW9kJ4uX");
  ("WMT", "68gHDJZokg2awMMRy47XjN2e3u1tvpVFzmqNPxhBvF1E");
  ("WRB", "5e9Xm12UtsiXn2QpHAHsgzPBwe56ofbg5Z1zQ5o6P5Le");
  ("WSM", "4AD5Jz2CXp5CF8aVRMD2T9bEtntuTBwKiADvr9huaxj6");
  ("WST", "2kFFEmurditBA5BCBSvjqiNfBD2TJKKH4V8WHh4YffuG");
  ("WY", "HC1HUjSv2MtGtNuHHEUWqXiSZgYUxkjXejpeL5hM92MT");
  ("XEL", "3cLk6CWZmYdiGknMVfAQc2w1QyRryVyYqre2tDHDwDpX");
  ("XLE", "ABRCBiZuU1WtuvX3ZEUYDX4sqeDs3MXKvwWCwnz77kkC");
  ("XOM", "8EV2DC3WqFBYffRekh48haP9dRm6HpXwXBYKgjUqM42M");
  ("XOP", "5nwvrE3Zc1czjn9mnNiixFXdXNTfq2FcnUh4N3AiFcLP");
  ("XYL", "EBekCMfN9VYQqELDNQQbV4kr371vgmgEDAdmBxNXYeHc");
  ("XYZ", "DeAzUJXkyCyXkEar3uC4Trg7hTysCYXJNe7BkV6XnBx6");
  ("YUM", "Au8vW1TrGoxbZJXkfhYpwNWHoB4zy5AGd6pa5WsmGJbM");
  ("ZBH", "2iy57EL48DmDzZNxvTvhox8HoH2an8KZq3KzLJFz6Su3");
  ("ZBRA", "6y91twHcvwFwG5JcWoLMwVErh9SRGH2WuN2DAW7Qrx9k");
  ("ZS", "6u9UVJEKgRecSWFK4Q4Z1gXekWAYSxz9DXStMSDQu97g");
  ("ZTS", "BY19AvHEL1Cpy3usWMaggjAPXH3geLmea4GfNpaPGzsW")]%string.

(** [map.get(ticker)]. *)
Fixpoint get (m : list (string * string)) (t : list Z) : option (list Z) :=
  match m with
  | [] => None
  | (k, v) :: m => if bool_decide (bytes_of k = t) then Some (bytes_of v) else get m t
  end.

Definition deliverable_mint (t : list Z) : option (list Z) := get XSTOCK_MINTS t.
Definition is_deliverable (t : list Z) : bool :=
  match get XSTOCK_MINTS t with Some _ => true | None => false end.

(** The maps in the order the lookups try them. *)
Definition hex_tables : list (list (string * string)) :=
  [US_EQUITIES_HEX_MAP; COMMODITIES_HEX_MAP; METALS_HEX_MAP; RATES_HEX_MAP; FX_USD_HEX_MAP].
Definition account_tables : list (list (string * string)) :=
  [US_EQUITIES_ACCOUNT_MAP; COMMODITIES_ACCOUNT_MAP; METALS_ACCOUNT_MAP; RATES_ACCOUNT_MAP;
   FX_USD_ACCOUNT_MAP].
Definition shipped_hex : list (list Z -> option (list Z)) := map get hex_tables.
Definition shipped_accounts : list (list Z -> option (list Z)) := map get account_tables.

(** * Theorems *)

Lemma get_elem m t v : get m t = Some v -> exists k s, (k, s) ∈ m /\ bytes_of k = t /\ bytes_of s = v.
Proof.
  induction m as [|[k s] m IH]; cbn [get]; [done|]. case_bool_decide as E.
  - intros [= <-]. exists k, s. split_and!; [left|done..].
  - intros (k' & s' & ? & ?)%IH. exists k', s'. by split; [right|].
Qed.

Lemma first_some_elem ms t v : first_some (map get ms) t = Some v ->
  exists k s, (k, s) ∈ concat ms /\ bytes_of k = t /\ bytes_of s = v.
Proof.
  induction ms as [|m ms IH]; cbn [map first_some concat]; [done|].
  destruct (get m t) eqn:E.
  - intros [= <-]. apply get_elem in E as (k & s & ? & ?). exists k, s. split; [|done].
    apply elem_of_app. by left.
  - intros (k & s & ? & ?)%IH. exists k, s. split; [|done]. apply elem_of_app. by right.
Qed.

(** Every ticker with its feed id, as one list. *)
Definition all_feeds : list (string * string) :=
  ("SOL", "0xef0d8b6fda2ceba41da15d4095d1da392a0d2f8ed0c6c7bc0f4cfac8c280b56d")%string
    :: concat hex_tables.

Definition feed_number (e : string * string) : Z :=
  match decode_feed (bytes_of e.2) with Ok l => from_be_bytes l | _ => -1 end.

Definition entry_ok (e : string * string) : bool :=
  (0 <=? feed_number e) && (String.length e.2 =? 66)%nat && (String.length e.1 <=? 8)%nat.

Lemma entries_ok : forallb entry_ok all_feeds = true.
Proof. by vm_compute. Qed.

(** The two halves of each class list the same tickers, in the same order. *)
Lemma same_tickers : map (map fst) hex_tables = map (map fst) account_tables.
Proof. by vm_compute. Qed.

(** The feed ids are pairwise distinct, and so are the mints. *)
Fixpoint nodupb (l : list Z) : bool :=
  match l with
  | [] => true
  | x :: l => negb (existsb (Z.eqb x) l) && nodupb l
  end.

Lemma nodupb_spec l : nodupb l = true -> NoDup l.
Proof.
  induction l as [|x l IH]; cbn [nodupb]; [constructor|]. rewrite andb_true_iff, negb_true_iff.
  intros [Hx Hl]. constructor; [|auto]. intros Hin. apply not_true_iff_false in Hx. apply Hx.
  apply existsb_exists. exists x. split; [by apply list_elem_of_In|apply Z.eqb_refl].
Qed.

Lemma feeds_distinct : nodupb (map feed_number all_feeds) = true.
Proof. by vm_compute. Qed.

Lemma get_hex_elem t h : get_hex shipped_hex t = Some h ->
  exists e, e ∈ all_feeds /\ bytes_of e.1 = t /\ bytes_of e.2 = h.
Proof.
  unfold get_hex. case_bool_decide as E.
  - intros [= <-]. exists ("SOL", "0xef0d8b6fda2ceba41da15d4095d1da392a0d2f8ed0c6c7bc0f4cfac8c280b56d")%string.
    split_and!; [left|by rewrite E|done].
  - intros (k & s & ? & ?)%first_some_elem. exists (k, s). by split; [right|].
Qed.

Lemma get_hex_inj t1 t2 h1 h2 feed : get_hex shipped_hex t1 = Some h1 -> get_hex shipped_hex t2 = Some h2 ->
  decode_feed h1 = Ok feed -> decode_feed h2 = Ok feed -> t1 = t2.
Proof.
  intros (e1 & H1 & <- & <-)%get_hex_elem (e2 & H2 & <- & <-)%get_hex_elem D1 D2.
  apply list_elem_of_lookup in H1 as [i H1]. apply list_elem_of_lookup in H2 as [j H2].
  assert (i = j) as ->; [|by assert (e1 = e2) as -> by congruence].
  apply (NoDup_lookup _ _ _ (from_be_bytes feed) (nodupb_spec _ feeds_distinct));
    rewrite list_lookup_fmap, ?H1, ?H2; cbn [fmap option_fmap option_map];
    unfold feed_number; by rewrite ?D1, ?D2.
Qed.

Lemma same_keys_get m1 m2 t : map fst m1 = map fst m2 ->
  (exists v, get m1 t = Some v) <-> exists v, get m2 t = Some v.
Proof.
  revert m2. induction m1 as [|[k v] m1 IH]; intros [|[k2 v2] m2] E; cbn in E; simplify_eq; [done|].
  cbn [get]. case_bool_decide; [split; intros _; eexists; reflexivity|auto].
Qed.

Lemma same_keys_first t : forall ms1 ms2, map (map fst) ms1 = map (map fst) ms2 ->
  (exists v, first_some (map get ms1) t = Some v) <-> exists v, first_some (map get ms2) t = Some v.
Proof.
  induction ms1 as [|m1 ms1 IH]; intros [|m2 ms2] E; cbn in E; [done..|].
  injection E as Em Es. pose proof (same_keys_get m1 m2 t Em) as Hk. specialize (IH ms2 Es).
  cbn [map first_some]. destruct (get m1 t), (get m2 t); [split; intros _; by eexists| | |done].
  - destruct (proj1 Hk) as [? [=]]. by eexists.
  - destruct (proj2 Hk) as [? [=]]. by eexists.
Qed.

(** What an accepted account shows: it carries the ticker's feed id. *)
Lemma fetch_feed maps scaled t a age now p : fetch_price_inner maps scaled t a age now = Ok p ->
  exists hex feed acct, get_hex maps t = Some hex /\ a = Some acct /\
    slice (data acct) 41 73 = Ok feed /\ decode_feed hex = Ok feed.
Proof.
  unfold fetch_price_inner. intros H.
  apply bind_ok in H as (hex & Hhex & H). apply bind_ok in H as (acct & Ha & H).
  apply bind_ok in H as (? & _ & H). apply bind_ok in H as (feed & Hs & H).
  apply bind_ok in H as (exp & Hd & H). apply bind_ok in H as (? & He & _).
  apply require_ok, bool_decide_eq_true in He. subst exp. exists hex, feed, acct.
  destruct (get_hex maps t), a; try done. cbn in Hhex, Ha. simplify_eq. done.
Qed.

Lemma bytes_of_length s : length (bytes_of s) = String.length s.
Proof.
  unfold bytes_of. rewrite length_map.
  induction s as [|c s IH]; [done|]. cbn [list_ascii_of_string Datatypes.length String.length]. by rewrite IH.
Qed.

Lemma get_hex_ticker t h : get_hex shipped_hex t = Some h -> (length t <= 8)%nat.
Proof.
  intros (e & He & <- & _)%get_hex_elem. rewrite bytes_of_length.
  pose proof (proj1 (forallb_forall _ _) entries_ok e (proj1 (list_elem_of_In _ _) He)) as Hok.
  unfold entry_ok in Hok. rewrite !andb_true_iff in Hok.
  apply Nat.leb_le, Hok.
Qed.

Lemma get_hex_account t h : get_hex shipped_hex t = Some h ->
  exists acct, get_account shipped_accounts t = Some acct.
Proof.
  unfold get_hex, get_account. case_bool_decide; [eauto|]. intros E.
  exact (proj1 (same_keys_first t hex_tables account_tables same_tickers) (ex_intro _ h E)).
Qed.

(** The shipped tables keep the feeds apart.  A price account is accepted for at
    most one ticker, so no position can be priced with another ticker's feed,
    whatever account the caller supplies; and a ticker that can be priced fits the
    eight bytes positions store and has a published price account, so it can also be
    found by [fetch_multiple_prices]. *)
Theorem one_feed_one_ticker scaled t1 t2 a age1 age2 now1 now2 p1 p2 :
  fetch_price_inner shipped_hex scaled t1 a age1 now1 = Ok p1 ->
  fetch_price_inner shipped_hex scaled t2 a age2 now2 = Ok p2 ->
  t1 = t2 /\ (length t1 <= 8)%nat /\ exists acct, get_account shipped_accounts t1 = Some acct.
Proof.
  intros (h1 & f1 & a1 & G1 & -> & S1 & D1)%fetch_feed (h2 & f2 & a2 & G2 & [= ->] & S2 & D2)%fetch_feed.
  rewrite S1 in S2. injection S2 as ->. split; [by eapply get_hex_inj|].
  split; [by eapply get_hex_ticker|by eapply get_hex_account].
Qed.

Definition aapl : list Z := bytes_of "AAPL".
Definition aapl_account : AccountInfo :=
  price_account 1 (replicate 41 0)
    (match decode_feed (default [] (get_hex shipped_hex aapl)) with Ok l => l | _ => [] end)
    18000000 1000 (-5) 990 [].

Lemma one_feed_one_ticker_witness : exists t2 p1 p2,
  fetch_price_inner shipped_hex (fun p _ => p) aapl (Some aapl_account) 300 1000 = Ok p1 /\
  fetch_price_inner shipped_hex (fun p _ => p) t2 (Some aapl_account) 900 1100 = Ok p2 /\
  aapl = t2 /\ (length aapl <= 8)%nat /\ exists acct, get_account shipped_accounts aapl = Some acct.
Proof.
  destruct (fetch_price_inner shipped_hex (fun p _ => p) aapl (Some aapl_account) 300 1000) as [p1| |] eqn:E1;
    [|vm_compute in E1; discriminate E1..].
  destruct (fetch_price_inner shipped_hex (fun p _ => p) aapl (Some aapl_account) 900 1100) as [p2| |] eqn:E2;
    [|vm_compute in E2; discriminate E2..].
  exists aapl, p1, p2. split; [reflexivity|]. split; [exact E2|].
  exact (one_feed_one_ticker (fun p _ => p) aapl aapl (Some aapl_account) 300 900 1000 1100 p1 p2 E1 E2).
Defined.

(** ** Deliverable tickers *)
Lemma deliverable_subset : forallb (fun k => match get US_EQUITIES_HEX_MAP k with Some _ => true | None => false end)
  (map (fun e => bytes_of e.1) XSTOCK_MINTS) = true.
Proof. by vm_compute. Qed.

(** Everything the pool can be asked to deliver can be priced: a ticker with an
    xStock mint has a feed and a price account. *)
Theorem deliverable_priced t m : deliverable_mint t = Some m ->
  exists hex acct, get_hex shipped_hex t = Some hex /\ get_account shipped_accounts t = Some acct.
Proof.
  intros (k & s & Hin & <- & _)%get_elem.
  pose proof (proj1 (forallb_forall _ _) deliverable_subset (bytes_of k)) as Hp. cbv beta in Hp.
  destruct (get US_EQUITIES_HEX_MAP (bytes_of k)) as [v|] eqn:E.
  - assert (exists h, get_hex shipped_hex (bytes_of k) = Some h) as [h Hh].
    { unfold get_hex. case_bool_decide; [eexists; reflexivity|]. unfold shipped_hex, hex_tables. cbn [map first_some].
      rewrite E. eexists. reflexivity. }
    destruct (get_hex_account _ _ Hh) as [acct Ha]. exists h, acct. split; assumption.
  - discriminate Hp. apply in_map_iff. exists (k, s). split; [reflexivity|apply list_elem_of_In, Hin].
Qed.

Lemma deliverable_priced_witness : exists m hex acct, deliverable_mint aapl = Some m /\
  get_hex shipped_hex aapl = Some hex /\ get_account shipped_accounts aapl = Some acct.
Proof.
  destruct (deliverable_mint aapl) as [m|] eqn:E; [|vm_compute in E; discriminate E].
  destruct (deliverable_priced aapl m E) as (hex & acct & H1 & H2). exists m, hex, acct.
  split; [reflexivity|]. split; assumption.
Defined.
