(* ===== verification/Config.v ===== *)
(** * Config: the program's settings

    [svm/programs/quid/src/entra.rs]: the account [ProgramConfig], [init_config]
    and [update_config] with the validation of the SOL* parking settings.  The
    admin constraint of the account context is part of [update_config]. *)
From S2P Require Import Prelude Pool Chain.


Definition MIN_BUFFER_BPS : Z := 2000.
Definition SOL_STAR_HAIRCUT_BPS : Z := 40.

Definition USD_STAR : Pubkey := from_be_bytes
  [13; 9; 93; 190; 135; 153; 95; 149; 60; 27; 94; 58; 32; 167; 130; 124;
   150; 157; 208; 228; 203; 99; 252; 41; 160; 227; 239; 15; 132; 98; 27; 92].

(** [Pubkey::default()]. *)
Definition default_key : Pubkey := 0.

Record ProgramConfig := mkConfig {
  admin : Pubkey;
  token_mint : Pubkey;
  registered_mints : list Pubkey;
  config_bump : Z;
  flash_authority : Pubkey;
  config_version : Z;
  kestrel_program : Pubkey;
  sol_star_mint : Pubkey;
  sol_buffer_bps : Z;               (* u16 *)
  sol_star_haircut_bps : Z;         (* u16 *)
  sol_park_band_bps : Z             (* u16 *)
}.

#[export] Instance eta_Config : Eta ProgramConfig := fun c =>
  mkConfig (admin c) (token_mint c) (registered_mints c) (config_bump c) (flash_authority c)
    (config_version c) (kestrel_program c) (sol_star_mint c) (sol_buffer_bps c)
    (sol_star_haircut_bps c) (sol_park_band_bps c).

(** The account as [init] allocates it: zeroes. *)
Definition config_zero : ProgramConfig := mkConfig 0 0 [0; 0] 0 0 0 0 0 0 0 0.

Definition init_config (payer mint bump : Z) : ProgramConfig :=
  config_zero <| admin := payer |> <| token_mint := mint |> <| config_bump := bump |>
    <| registered_mints := [mint; USD_STAR] |>
    <| kestrel_program := default_key |> <| sol_star_mint := default_key |>
    <| sol_buffer_bps := 5000 |> <| sol_star_haircut_bps := SOL_STAR_HAIRCUT_BPS |>
    <| sol_park_band_bps := 1000 |>.

Record KestrelCfg := mkKestrelCfg {
  k_program : Pubkey;
  k_mint : Pubkey;
  k_buffer_bps : Z;
  k_haircut_bps : Z;
  k_band_bps : Z
}.

Definition check_kestrel (bank : option Depository) (k : KestrelCfg) : outcome unit :=
  require (MIN_BUFFER_BPS <=? k_buffer_bps k) InvalidParameters ;;
  require ((k_buffer_bps k <=? 10000) && (k_haircut_bps k <=? 10000)) InvalidParameters ;;
  room <- eval u32 (Bin OSub (Lit 10000) (Lit (k_buffer_bps k))) ;;
  require (k_band_bps k <=? room) InvalidParameters ;;
  if negb (k_program k =? default_key)
  then require (negb (k_mint k =? default_key)) InvalidParameters
  else
    b <- ok_or bank InvalidParameters ;;
    require (sol_star_shares b =? 0) SolStarStillParked.

Definition update_config (c : ProgramConfig) (bank : option Depository) (signer : Pubkey)
    (new_admin set_flash_authority : option Pubkey) (kestrel : option KestrelCfg)
  : outcome ProgramConfig :=
  require (signer =? admin c) Unauthorized ;;
  match kestrel with Some k => check_kestrel bank k | None => Ok tt end ;;
  let c := match new_admin with Some a => c <| admin := a |> | None => c end in
  let c := match set_flash_authority with
           | Some a => c <| flash_authority := a |>
           | None => c
           end in
  let c := match kestrel with
           | Some k => c <| kestrel_program := k_program k |> <| sol_star_mint := k_mint k |>
                         <| sol_buffer_bps := k_buffer_bps k |>
                         <| sol_star_haircut_bps := k_haircut_bps k |>
                         <| sol_park_band_bps := k_band_bps k |>
           | None => c
           end in
  Ok c.

(** * Theorems *)

(** ** The settings every component may rely on *)
Record valid_config (c : ProgramConfig) : Prop := {
  vc_buffer : MIN_BUFFER_BPS <= sol_buffer_bps c <= 10000;
  vc_haircut : 0 <= sol_star_haircut_bps c <= 10000;
  vc_band : 0 <= sol_park_band_bps c <= 10000 - sol_buffer_bps c;
  vc_mint : kestrel_program c <> default_key -> sol_star_mint c <> default_key;
  vc_mints : registered_mints c = [token_mint c; USD_STAR]
}.

(** Settings arrive as 16-bit numbers. *)
Definition u16_cfg (k : option KestrelCfg) : Prop :=
  match k with
  | Some k => in_range u16 (k_buffer_bps k) /\ in_range u16 (k_haircut_bps k) /\
              in_range u16 (k_band_bps k)
  | None => True
  end.

Inductive config_reachable (mint : Pubkey) : ProgramConfig -> Prop :=
| config_init payer bump : config_reachable mint (init_config payer mint bump)
| config_update c bank signer na fa k c' : config_reachable mint c -> u16_cfg k ->
    update_config c bank signer na fa k = Ok c' -> config_reachable mint c'.

Lemma check_kestrel_ok bank k u : check_kestrel bank k = Ok u ->
  MIN_BUFFER_BPS <= k_buffer_bps k <= 10000 /\ k_haircut_bps k <= 10000 /\
  k_band_bps k <= 10000 - k_buffer_bps k /\
  (k_program k <> default_key -> k_mint k <> default_key) /\
  (k_program k = default_key -> exists b, bank = Some b /\ sol_star_shares b = 0).
Proof.
  intros Hk. unfold check_kestrel in Hk. inv_ok Hk. rewrite andb_true_iff in Hk1.
  split_and!; try lia; destruct (Z.eqb_spec (k_program k) default_key) as [E|E];
    intros E'; try contradiction; cbn [negb] in Hk.
  - apply require_ok in Hk. by destruct (Z.eqb_spec (k_mint k) default_key).
  - destruct bank as [b|]; [|done]. cbn [ok_or bind] in Hk. apply require_ok in Hk.
    exists b. split; [done|lia].
Qed.

(** C13: Every configuration the program can reach is valid: the buffer share is
    between 20% and 100%, the haircut a fraction, the parking band fits under the
    non-buffer share, an enabled issuer has a mint, and the two deposit mints are
    the ones fixed at initialisation, whatever sequence of updates any admin
    makes. *)
Theorem reachable_config_valid mint c : config_reachable mint c ->
  valid_config c /\ token_mint c = mint.
Proof.
  induction 1 as [payer bump|c bank signer na fa k c' _ [[Hb Hh Hd Hm Hr] Ht] Hu Hc].
  { split; [|done]. split; cbn; unfold MIN_BUFFER_BPS, SOL_STAR_HAIRCUT_BPS; (lia || done). }
  unfold update_config in Hc. apply bind_ok in Hc as (_ & _ & Hc).
  apply bind_ok in Hc as (u & Hk & Hc). injection Hc as <-.
  destruct k as [k|]; cbn [u16_cfg] in Hu.
  - apply check_kestrel_ok in Hk as (? & ? & ? & ? & _).
    destruct Hu as (? & ? & ?). unfold_ints.
    split; [split|]; destruct na, fa; cbn; (lia || done).
  - split; [split|]; destruct na, fa; cbn; done.
Qed.

Lemma reachable_config_valid_witness :
  exists c, config_reachable 7 c /\ kestrel_program c = 5 /\ valid_config c /\ token_mint c = 7.
Proof.
  pose (c := (init_config 1 7 255) <| admin := 2 |> <| kestrel_program := 5 |> <| sol_star_mint := 6 |>
    <| sol_buffer_bps := 4000 |> <| sol_star_haircut_bps := 40 |> <| sol_park_band_bps := 500 |>).
  assert (config_reachable 7 c) as Hr.
  { eapply (config_update 7 (init_config 1 7 255) None 1 (Some 2) None
      (Some (mkKestrelCfg 5 6 4000 40 500))); [apply config_init| |vm_compute; reflexivity].
    vm_compute; repeat split; discriminate. }
  exists c. split; [exact Hr|]. split; [reflexivity|]. apply reachable_config_valid, Hr.
Defined.

(** Switching the issuer off is refused while its token is held, for every
    configuration and bank; but pointing the settings at a different program and
    mint is accepted with any amount still parked, which leaves the old holding
    addressed by nothing. *)
Theorem repoint_while_parked c b signer k : signer = admin c ->
  MIN_BUFFER_BPS <= k_buffer_bps k <= 10000 -> 0 <= k_haircut_bps k <= 10000 ->
  0 <= k_band_bps k <= 10000 - k_buffer_bps k -> sol_star_shares b <> 0 ->
  if k_program k =? default_key
  then update_config c (Some b) signer None None (Some k) = Err SolStarStillParked
  else k_mint k <> default_key -> exists c',
    update_config c (Some b) signer None None (Some k) = Ok c' /\
    kestrel_program c' = k_program k /\ sol_star_mint c' = k_mint k.
Proof.
  intros -> Hb Hh Hd Hs.
  assert (check_kestrel (Some b) k =
    if k_program k =? default_key then Err SolStarStillParked
    else require (negb (k_mint k =? default_key)) InvalidParameters) as Hk.
  { unfold check_kestrel. rewrite !(proj2 (Z.leb_le _ _)) by lia. cbn [require bind andb].
    rewrite eval_safe by (cbn [safe value aop_fun]; unfold u32, MIN_BUFFER_BPS in *; unfold_ints; lia).
    cbn [bind value aop_fun]. rewrite (proj2 (Z.leb_le _ _)) by lia. cbn [require bind].
    destruct (k_program k =? default_key); [|done]. cbn [negb ok_or bind].
    by rewrite (proj2 (Z.eqb_neq _ _) Hs). }
  unfold update_config. rewrite Z.eqb_refl. cbn [require bind]. rewrite Hk.
  destruct (k_program k =? default_key); [done|]. intros Hm.
  rewrite (proj2 (Z.eqb_neq _ _) Hm). cbn. eauto.
Qed.

Lemma repoint_while_parked_witness :
  let c := (init_config 1 7 255) <| kestrel_program := 5 |> <| sol_star_mint := 6 |> in
  let b := depository_default <| sol_star_shares := 1000 |> in
  exists c', update_config c (Some b) 1 None None (Some (mkKestrelCfg 8 9 5000 40 1000)) = Ok c' /\
    kestrel_program c' = 8 /\ sol_star_mint c' = 9.
Proof.
  apply (repoint_while_parked ((init_config 1 7 255) <| kestrel_program := 5 |> <| sol_star_mint := 6 |>)
    (depository_default <| sol_star_shares := 1000 |>) 1 (mkKestrelCfg 8 9 5000 40 1000));
    vm_compute; (reflexivity || (split; discriminate) || discriminate).
Defined.
