(* ===== verification/Sol.v ===== *)
(** * Sol: the native pool, its buffer and its parked tranche

    [svm/programs/quid/src/entra.rs], the SOL* section: the buffer floor and the
    parking band, the conservative dollar mark of lamports, the round trip with
    the SOL* issuer ([SolStarLegs::park], [unpark]), [park_idle_sol] and
    [unpark_for_withdrawal]; [svm/programs/quid/src/clutch.rs]: the native
    withdrawal [withdraw_native] and [handle_refresh_sol_collateral].

    The issuer is foreign code: [Issuer] is what the program calls on it and on
    the token program for wrapped SOL, [IssuerLaws] the documented behaviour used
    (a read-only account keeps its lamports, closing an account moves its lamports
    to the destination, wrapped SOL is backed by lamports).  Account data is read
    live, so [token_amount] of an account is its balance in the runtime state. *)
From stdpp Require Import gmap.
From S2P Require Import Prelude Actuary Pricing Learning Pool Chain Config.

(** ** Arithmetic of the buffer *)
Definition sol_total_lamports (b : Depository) : Z :=
  sat u64 (sol_lamports b + sol_star_cost_lamports b).

Definition required_buffer (b : Depository) (buffer_bps : Z) : Z :=
  let bps := Z.max buffer_bps MIN_BUFFER_BPS in
  cast u64 (sat u128 (sol_total_lamports b * bps) / 10000).

Definition park_band (b : Depository) (band_bps : Z) : Z :=
  cast u64 (sat u128 (sol_total_lamports b * band_bps) / 10000).

Definition credited_lamports (b : Depository) : Z :=
  sat u64 (sol_lamports b + sol_star_credited_lamports b).

Definition adjust_sol_credit (b : Depository) (usd : Z) : outcome Depository :=
  if 0 <=? usd then
    let v := cast u64 usd in
    Ok (b <| sol_usd_contrib := sat u64 (sol_usd_contrib b + v) |>
          <| yield_pool := sat u64 (yield_pool b + v) |>)
  else
    let v := Z.abs usd in
    let from_yield := Z.min v (yield_pool b) in
    y <- u64{ [yield_pool b] - from_yield } ;;
    Ok (b <| sol_usd_contrib := sat u64 (sol_usd_contrib b - v) |> <| yield_pool := y |>).

Definition collar_adjusted_usd (lamports price : Z) (a : Actuary) : outcome Z :=
  c <- collar_bps 100 a ;;
  let collar := cast u64 c in
  let raw := Z.min (sat u128 (lamports * price) / 1000000000) (imax u64) in
  Ok (sat u64 (raw - sat u64 (raw * collar) / 10000)).

(** ** The issuer of SOL* and the wrapped SOL accounts *)
Definition WSOL_MINT : Pubkey := from_be_bytes
  [6; 155; 136; 87; 254; 171; 129; 132; 251; 104; 127; 99; 70; 24; 192; 53;
   218; 196; 57; 220; 26; 235; 59; 85; 152; 160; 240; 0; 0; 0; 0; 1].
Definition MINT_TOKEN_DISC : list Z := [172; 137; 183; 14; 207; 110; 234; 56].
Definition BURN_TOKEN_DISC : list Z := [185; 165; 216; 246; 144; 31; 70; 74].
Definition BURN_PARAMS_SYNC : Z := 0.
Definition SOL_STAR_LEGS : nat := 9.

Record AccountMeta := mkMeta { meta_key : Pubkey; meta_signer : bool; meta_writable : bool }.
Definition meta_new (k : Pubkey) (signer : bool) : AccountMeta := mkMeta k signer true.
Definition meta_readonly (k : Pubkey) (signer : bool) : AccountMeta := mkMeta k signer false.

(** Library constants and the derivation of associated token accounts. *)
Record Ids := mkIds {
  spl_token : Pubkey;
  spl_token_2022 : Pubkey;
  spl_ata : Pubkey;
  ata_of : Pubkey -> Pubkey -> Pubkey -> Pubkey
}.

Class Issuer (W : Type) := {
  data_is_empty : W -> Pubkey -> bool;
  create_idempotent : W -> Pubkey -> Pubkey -> Pubkey -> Pubkey -> Pubkey -> outcome W;
  sync_native : W -> Pubkey -> outcome W;
  close_account : W -> Pubkey -> Pubkey -> outcome W;
  invoke_issuer : W -> Pubkey -> list AccountMeta -> list Z -> outcome W
}.

Class IssuerLaws (W : Type) `{Runtime W} `{Issuer W} : Prop := {
  create_frame : forall w payer ata auth mint tp w',
    create_idempotent w payer ata auth mint tp = Ok w' -> ata <> auth -> payer <> auth ->
    lamports_of w' auth = lamports_of w auth /\
    (forall k, token_balance w' k = token_balance w k \/ token_balance w' k = 0);
  sync_frame : forall w k w', sync_native w k = Ok w' ->
    forall j, lamports_of w' j = lamports_of w j;
  close_moves : forall w k dest w', close_account w k dest = Ok w' -> k <> dest ->
    lamports_of w' dest = lamports_of w dest + lamports_of w k /\
    token_balance w k <= lamports_of w k;
  invoke_readonly : forall w p metas d w' k s, invoke_issuer w p metas d = Ok w' ->
    mkMeta k s false ∈ metas -> (forall s', mkMeta k s' true ∉ metas) ->
    lamports_of w' k = lamports_of w k
}.

Record SolStarLegs := mkLegs {
  l_sol_pool : Pubkey;
  l_wsol_mint : Pubkey;
  l_sol_star_mint : Pubkey;
  l_pool_wsol : Pubkey;
  l_pool_sol_star : Pubkey;
  l_kestrel_program : Pubkey;
  l_kestrel_token : Pubkey;
  l_collateral_vault : Pubkey;
  l_token_program : Pubkey;
  l_sol_star_token_program : Pubkey;
  l_associated_token_program : Pubkey;
  l_system_program : Pubkey
}.

Section Legs.
Variable ids : Ids.

Definition is_token_program (k : Pubkey) : bool :=
  (k =? spl_token ids) || (k =? spl_token_2022 ids).

Definition from_remaining (c : ProgramConfig) (sol_pool token_program system_program : Pubkey)
    (rest : list Pubkey) : outcome (option SolStarLegs) :=
  match rest with
  | kestrel_token :: collateral_vault :: wsol_mint :: star_mint :: pool_wsol :: pool_sol_star
      :: kestrel :: star_tp :: atp :: _ =>
      require (kestrel =? kestrel_program c) InvalidSettlementProgram ;;
      require (star_mint =? sol_star_mint c) InvalidMint ;;
      require (wsol_mint =? WSOL_MINT) InvalidMint ;;
      require (atp =? spl_ata ids) InvalidParameters ;;
      require (is_token_program star_tp) InvalidParameters ;;
      require (pool_wsol =? ata_of ids sol_pool wsol_mint token_program) InvalidParameters ;;
      require (pool_sol_star =? ata_of ids sol_pool star_mint star_tp) InvalidParameters ;;
      Ok (Some (mkLegs sol_pool wsol_mint star_mint pool_wsol pool_sol_star kestrel kestrel_token
            collateral_vault token_program star_tp atp system_program))
  | _ => Ok None
  end.

Context {W : Type} `{Runtime W} `{Issuer W}.

Definition ensure_ata (w : W) (payer ata auth mint tp : Pubkey) : outcome W :=
  if data_is_empty w ata then create_idempotent w payer ata auth mint tp else Ok w.

Definition ensure_atas (l : SolStarLegs) (w : W) (payer : Pubkey) : outcome W :=
  w <- ensure_ata w payer (l_pool_wsol l) (l_sol_pool l) (l_wsol_mint l) (l_token_program l) ;;
  ensure_ata w payer (l_pool_sol_star l) (l_sol_pool l) (l_sol_star_mint l)
    (l_sol_star_token_program l).

Definition park (l : SolStarLegs) (w : W) (payer lamports : Z) : outcome (W * Z) :=
  w <- ensure_atas l w payer ;;
  w <- sys_transfer w (l_sol_pool l) (l_pool_wsol l) lamports ;;
  require (is_token_program (l_token_program l)) InvalidParameters ;;
  w <- sync_native w (l_pool_wsol l) ;;
  let before := token_balance w (l_pool_sol_star l) in
  w <- invoke_issuer w (l_kestrel_program l)
         [meta_readonly (l_sol_pool l) true; meta_new (l_kestrel_token l) false;
          meta_new (l_sol_star_mint l) false; meta_readonly (l_wsol_mint l) false;
          meta_new (l_pool_wsol l) false; meta_new (l_pool_sol_star l) false;
          meta_new (l_collateral_vault l) false;
          meta_readonly (l_sol_star_token_program l) false;
          meta_readonly (l_token_program l) false]
         (MINT_TOKEN_DISC ++ to_le_bytes 8 lamports) ;;
  let shares_out := sat u64 (token_balance w (l_pool_sol_star l) - before) in
  require (0 <? shares_out) InsufficientFunds ;;
  require (token_balance w (l_pool_wsol l) =? 0) InvalidAmount ;;
  Ok (w, shares_out).

Definition unpark (l : SolStarLegs) (w : W) (payer shares : Z) : outcome (W * Z) :=
  w <- ensure_atas l w payer ;;
  let wsol_before := token_balance w (l_pool_wsol l) in
  let none := l_kestrel_program l in
  w <- invoke_issuer w (l_kestrel_program l)
         [meta_readonly (l_sol_pool l) true; meta_new payer true;
          meta_new (l_kestrel_token l) false; meta_new (l_sol_star_mint l) false;
          meta_new (l_pool_sol_star l) false; meta_readonly (l_wsol_mint l) false;
          meta_new (l_pool_wsol l) false; meta_new (l_collateral_vault l) false;
          meta_readonly none false; meta_readonly none false; meta_readonly none false;
          meta_readonly (l_sol_star_token_program l) false;
          meta_readonly (l_token_program l) false;
          meta_readonly (l_associated_token_program l) false;
          meta_readonly (l_system_program l) false]
         (BURN_TOKEN_DISC ++ BURN_PARAMS_SYNC :: to_le_bytes 8 shares) ;;
  let lamports_out := sat u64 (token_balance w (l_pool_wsol l) - wsol_before) in
  require (0 <? lamports_out) InsufficientFunds ;;
  require (is_token_program (l_token_program l)) InvalidParameters ;;
  w <- close_account w (l_pool_wsol l) (l_sol_pool l) ;;
  Ok (w, lamports_out).

(** ** Parking what the buffer does not need *)
Definition park_idle_sol (b : Depository) (c : ProgramConfig) (l : SolStarLegs) (w : W)
    (payer sol_price : Z) (a : Actuary) (now : Z) : outcome (Depository * W * Z) :=
  require (negb (kestrel_program c =? default_key)) Unauthorized ;;
  let floor := required_buffer b (sol_buffer_bps c) in
  let band := park_band b (sol_park_band_bps c) in
  if sol_lamports b <? sat u64 (floor + band) then Ok (b, w, 0) else
  let lamports := sat u64 (sol_lamports b - floor) in
  if lamports <? band then Ok (b, w, 0) else
  '(w, shares_out) <- park l w payer lamports ;;
  let haircut_lamports := cast u64 (sat u128 (lamports * sol_star_haircut_bps c) / 10000) in
  let b := b <| sol_lamports := sat u64 (sol_lamports b - lamports) |>
             <| sol_star_shares := sat u64 (sol_star_shares b + shares_out) |>
             <| sol_star_cost_lamports := sat u64 (sol_star_cost_lamports b + lamports) |>
             <| sol_star_credited_lamports :=
                  sat u64 (sol_star_credited_lamports b + sat u64 (lamports - haircut_lamports)) |>
             <| sol_star_parked_at := now |> in
  usd <- collar_adjusted_usd haircut_lamports sol_price a ;;
  n <- i64{ 0 - [Z.min usd (imax i64)] } ;;
  b <- adjust_sol_credit b n ;;
  Ok (b, w, lamports).

(** ** Unparking for a withdrawal the buffer cannot cover *)
Definition unpark_shares (b : Depository) (deficit : Z) : outcome Z :=
  q <- u128{ ([sat u128 (deficit * sol_star_shares b)] + [sol_star_cost_lamports b] - 1)
             / [sol_star_cost_lamports b] } ;;
  Ok (Z.min q (sol_star_shares b)).

Definition tranche_pro_rata (b : Depository) (v shares : Z) : Z :=
  if sol_star_shares b =? 0 then 0
  else cast u64 (sat u128 (v * shares) / sol_star_shares b).

Definition unpark_for_withdrawal (b : Depository) (c : ProgramConfig) (l : SolStarLegs) (w : W)
    (payer wanted sol_price : Z) (a : Actuary) (max_haircut_bps : Z)
  : outcome (Depository * W * Z) :=
  let deficit := sat u64 (wanted - sol_lamports b) in
  if deficit =? 0 then Ok (b, w, 0) else
  require (0 <? max_haircut_bps) UnparkConsentRequired ;;
  require ((0 <? sol_star_shares b) && (0 <? sol_star_cost_lamports b)) InsufficientFunds ;;
  shares <- unpark_shares b deficit ;;
  let cost_released := tranche_pro_rata b (sol_star_cost_lamports b) shares in
  let credit_released := tranche_pro_rata b (sol_star_credited_lamports b) shares in
  '(w, lamports_out) <- unpark l w payer shares ;;
  let bound_bps := Z.min (sol_star_haircut_bps c) max_haircut_bps in
  let tolerated :=
    sat u64 (cost_released - cast u64 (sat u128 (cost_released * bound_bps) / 10000)) in
  require (tolerated <=? lamports_out) InsufficientFunds ;;
  let b := b <| sol_star_shares := sat u64 (sol_star_shares b - shares) |>
             <| sol_star_cost_lamports := sat u64 (sol_star_cost_lamports b - cost_released) |>
             <| sol_star_credited_lamports :=
                  sat u64 (sol_star_credited_lamports b - credit_released) |>
             <| sol_lamports := sat u64 (sol_lamports b + lamports_out) |> in
  got <- collar_adjusted_usd lamports_out sol_price a ;;
  was <- collar_adjusted_usd credit_released sol_price a ;;
  let signed := sat i64 (Z.min got (imax i64) - Z.min was (imax i64)) in
  '(b, booked) <- accrue_sol_yield b signed ;;
  b <- (if negb booked then adjust_sol_credit b signed else Ok b) ;;
  Ok (b, w, sat u64 (cost_released - lamports_out)).

(** ** The native withdrawal *)
Definition locked_share (c : Depositor) (lamports : Z) : Z :=
  if deposited_lamports c =? 0 then 0
  else cast u64 (sat u128 (lamports * sol_pledged_usd c) / deposited_lamports c).

(** Moves the books by the final figure; returns the lamports to send. *)
Definition book_withdrawal (c : Depositor) (b : Depository) (lamports : Z)
  : Depositor * Depository :=
  let locked_fraction := locked_share c lamports in
  (c <| sol_pledged_usd := sat u64 (sol_pledged_usd c - locked_fraction) |>
     <| deposited_lamports := sat u64 (deposited_lamports c - lamports) |>,
   b <| sol_usd_contrib := sat u64 (sol_usd_contrib b - locked_fraction) |>
     <| sol_lamports := sat u64 (sol_lamports b - lamports) |>).

Definition withdraw_native (c : Depositor) (b : Depository) (r : option TickerRisk)
    (cfg : ProgramConfig) (w : W) (sol_pool token_program system_program signer : Pubkey)
    (rest : list Pubkey) (oracle : outcome Z) (lamports max_haircut_bps now slot rent_floor : Z)
  : outcome (Depositor * Depository * TickerRisk * W * Z) :=
  let lamports := if lamports =? 0 then deposited_lamports c else lamports in
  require (0 <? lamports) InvalidAmount ;;
  require (lamports <=? deposited_lamports c) InsufficientFunds ;;
  sol_price <- oracle ;;
  risk <- ok_or r UnknownSymbol ;;
  util <- utilisation_bps b ;;
  a <- accrue_premium_index (actuary risk) now util ;;
  a <- update_price a (cast i64 sol_price) slot ;;
  let risk := risk <| actuary := a |> in
  legs <- from_remaining cfg sol_pool token_program system_program rest ;;
  '(b, w, forfeit) <-
    (match legs with
     | Some l => unpark_for_withdrawal b cfg l w signer lamports sol_price a max_haircut_bps
     | None => require (lamports <=? sol_lamports b) InsufficientFunds ;; Ok (b, w, 0)
     end) ;;
  let '(c, b, _) := settle_sol_yield c b in
  let spendable := sat u64 (lamports_of w sol_pool - rent_floor) in
  let lamports := Z.min lamports (sat u64 (spendable + forfeit)) in
  require (0 <? lamports) InsufficientFunds ;;
  let '(c, b) := book_withdrawal c b lamports in
  let paid := sat u64 (lamports - forfeit) in
  w <- sys_transfer w sol_pool signer paid ;;
  Ok (c, b, risk, w, paid).

(** ** The permissionless re-mark *)
Definition handle_refresh_sol_collateral (c : Depositor) (b : Depository) (risk : TickerRisk)
    (depositor : Pubkey) (oracle : outcome Z) (slot : Z)
  : outcome (Depositor * Depository * TickerRisk) :=
  require (owner c =? depositor) InvalidUser ;;
  sol_price <- oracle ;;
  a <- update_price (actuary risk) (cast i64 sol_price) slot ;;
  let risk := risk <| actuary := a |> in
  if (deposited_lamports c =? 0) || (sol_pledged_usd c =? 0) then Ok (c, b, risk) else
  current_floor <- collar_adjusted_usd (deposited_lamports c) sol_price a ;;
  if sol_pledged_usd c <=? current_floor then Ok (c, b, risk) else
  let reduction := sat u64 (sol_pledged_usd c - current_floor) in
  Ok (c <| sol_pledged_usd := current_floor |>,
      b <| sol_usd_contrib := sat u64 (sol_usd_contrib b - reduction) |>, risk).
End Legs.

(** * Theorems *)

(** ** Ranges of the native book *)
Record wf_sol (b : Depository) : Prop := {
  ws_hot : in_range u64 (sol_lamports b);
  ws_cost : in_range u64 (sol_star_cost_lamports b);
  ws_shares : in_range u64 (sol_star_shares b);
  ws_yield : in_range u64 (yield_pool b);
  ws_total : sol_lamports b + sol_star_cost_lamports b <= imax u64
}.

Lemma bps_share_le x bps : 0 <= x <= imax u64 -> 0 <= bps <= 10000 ->
  cast u64 (sat u128 (x * bps) / 10000) = x * bps / 10000 /\ 0 <= x * bps / 10000 <= x.
Proof.
  intros Hx Hb. pose proof (mul_div_le x bps 10000 ltac:(lia) Hb ltac:(lia)).
  split; [|done]. rewrite sat_id by (unfold_ints; nia). rewrite cast_id by (unfold_ints; lia). done.
Qed.

Lemma required_buffer_eq b bps : wf_sol b -> MIN_BUFFER_BPS <= bps <= 10000 ->
  required_buffer b bps = (sol_lamports b + sol_star_cost_lamports b) * bps / 10000 /\
  0 <= required_buffer b bps <= sol_lamports b + sol_star_cost_lamports b.
Proof.
  intros [? ? _ _ ?] Hb. unfold required_buffer, sol_total_lamports. unfold MIN_BUFFER_BPS in *.
  rewrite Z.max_l by lia. rewrite (sat_id u64) by (unfold_ints; lia).
  destruct (bps_share_le (sol_lamports b + sol_star_cost_lamports b) bps) as [-> ?];
    [unfold_ints; lia..|done].
Qed.

Lemma park_band_eq b bps : wf_sol b -> 0 <= bps <= 10000 ->
  park_band b bps = (sol_lamports b + sol_star_cost_lamports b) * bps / 10000 /\
  0 <= park_band b bps <= sol_lamports b + sol_star_cost_lamports b.
Proof.
  intros [? ? _ _ ?] Hb. unfold park_band, sol_total_lamports.
  rewrite (sat_id u64) by (unfold_ints; lia).
  destruct (bps_share_le (sol_lamports b + sol_star_cost_lamports b) bps) as [-> ?];
    [unfold_ints; lia..|done].
Qed.

(** The dollars an adjustment moves: a loss is taken from the shared earnings. *)
Lemma adjust_sol_credit_eq b usd : in_range u64 (yield_pool b) -> in_range i64 usd ->
  adjust_sol_credit b usd =
    if 0 <=? usd
    then Ok (b <| sol_usd_contrib := sat u64 (sol_usd_contrib b + usd) |>
               <| yield_pool := sat u64 (yield_pool b + usd) |>)
    else Ok (b <| sol_usd_contrib := sat u64 (sol_usd_contrib b - Z.abs usd) |>
               <| yield_pool := yield_pool b - Z.min (Z.abs usd) (yield_pool b) |>).
Proof.
  intros ? Hu. unfold adjust_sol_credit. destruct (Z.leb_spec 0 usd).
  - rewrite cast_id by (unfold_ints; lia). done.
  - rewrite eval_safe; [done|]. cbn [safe value aop_fun]. unfold_ints. lia.
Qed.

Lemma collar_usd_range lamports price a v : collar_adjusted_usd lamports price a = Ok v ->
  0 <= v <= imax u64.
Proof.
  unfold collar_adjusted_usd. intros Hv. inv_ok Hv.
  pose proof (sat_in_range u64 (Z.min (sat u128 (lamports * price) / 1000000000) (imax u64)
    - sat u64 (Z.min (sat u128 (lamports * price) / 1000000000) (imax u64) * cast u64 v0) / 10000)
    ltac:(done)). done.
Qed.

(** The lamport side of the pool, untouched by the dollar bookkeeping. *)
Definition lamport_side (b : Depository) : list Z :=
  [sol_lamports b; sol_star_shares b; sol_star_cost_lamports b; sol_star_credited_lamports b;
   total_deposits b; max_liability b; total_drawn b].

Lemma accrue_sol_frame b s : ensures (accrue_sol_yield b s) (fun r => lamport_side r.1 = lamport_side b).
Proof. unfold accrue_sol_yield. repeat ensures_step; done. Qed.

Lemma adjust_frame b s : ensures (adjust_sol_credit b s) (fun r => lamport_side r = lamport_side b).
Proof. unfold adjust_sol_credit. repeat ensures_step; done. Qed.

Lemma settle_sol_frame c b : lamport_side (settle_sol_yield c b).1.2 = lamport_side b /\
  deposited_lamports (settle_sol_yield c b).1.1 = deposited_lamports c /\
  deposited_quid (settle_sol_yield c b).1.1 = deposited_quid c.
Proof. unfold settle_sol_yield. repeat case_match; done. Qed.

(** The shares burned for a deficit release at least its cost, or everything. *)
Lemma unpark_shares_spec b deficit : wf_sol b -> 0 <= deficit <= imax u64 ->
  0 < sol_star_shares b -> 0 < sol_star_cost_lamports b ->
  wp (unpark_shares b deficit) (fun n => 0 <= n <= sol_star_shares b /\
    let cost := tranche_pro_rata b (sol_star_cost_lamports b) n in
    0 <= cost <= sol_star_cost_lamports b /\ Z.min deficit (sol_star_cost_lamports b) <= cost /\
    cost * sol_star_shares b <= deficit * sol_star_shares b + sol_star_cost_lamports b).
Proof.
  intros [_ Hc Hs _ _] Hd Hs0 Hc0. unfold unpark_shares.
  set (S := sol_star_shares b) in *. set (C := sol_star_cost_lamports b) in *.
  unfold_ints. assert (0 <= deficit * S <= 18446744073709551615 * 18446744073709551615) by nia.
  rewrite (sat_id u128) by (unfold_ints; lia).
  set (q := (deficit * S + C - 1) / C).
  assert (0 <= q <= deficit * S + C - 1) as Hq.
  { split; [apply Z.div_pos; lia|]. apply Z.div_le_upper_bound; nia. }
  assert (deficit * S <= q * C) as Hcov.
  { pose proof (Z.mul_succ_div_gt (deficit * S + C - 1) C). unfold q. nia. }
  wp_head. apply wp_eval.
  { cbn [safe value aop_fun]. rewrite quot_div by lia. fold q. unfold_ints. repeat split; lia. }
  cbn [value aop_fun]. rewrite quot_div by lia. fold q. cbn [wp].
  set (n := Z.min q S). assert (0 <= n <= S) as Hn by lia. split; [done|].
  unfold tranche_pro_rata. fold S. rewrite (proj2 (Z.eqb_neq S 0)) by lia.
  pose proof (mul_div_le C n S ltac:(lia) ltac:(lia) ltac:(lia)) as Hb.
  rewrite (sat_id u128) by (unfold_ints; nia). rewrite cast_id by (unfold_ints; lia).
  split; [done|]. split.
  2: { pose proof (Z.mul_div_le (deficit * S + C - 1) C ltac:(lia)). pose proof (Z.mul_div_le (C * n) S ltac:(lia)).
       fold S. nia. }
  destruct (Z.le_ge_cases q S) as [Hle|Hge].
  - transitivity deficit; [lia|]. apply Z.div_le_lower_bound; [lia|]. unfold n. rewrite Z.min_l by done. nia.
  - unfold n. rewrite (Z.min_r q) by done. rewrite Z.div_mul by lia. lia.
Qed.

Section SolLaws.
Variable ids : Ids.
Context {W : Type} `{Runtime W} `{Issuer W}.

(** What parking does to the books. *)
Definition parked_bank (b : Depository) (lamports shares haircut usd now : Z) : Depository :=
  b <| sol_lamports := sol_lamports b - lamports |>
    <| sol_star_shares := sat u64 (sol_star_shares b + shares) |>
    <| sol_star_cost_lamports := sol_star_cost_lamports b + lamports |>
    <| sol_star_credited_lamports := sat u64 (sol_star_credited_lamports b + (lamports - haircut)) |>
    <| sol_star_parked_at := now |>
    <| sol_usd_contrib := sat u64 (sol_usd_contrib b - usd) |>
    <| yield_pool := yield_pool b - Z.min usd (yield_pool b) |>.

(** The law behind the next theorem, shared with the custody argument. *)
Lemma park_idle_law b c l w payer price a now b' w' n :
  wf_sol b -> valid_config c ->
  park_idle_sol ids b c l w payer price a now = Ok (b', w', n) ->
  let total := sol_lamports b + sol_star_cost_lamports b in
  let floor := total * sol_buffer_bps c / 10000 in
  let band := total * sol_park_band_bps c / 10000 in
  if sol_lamports b <? floor + band then b' = b /\ w' = w /\ n = 0
  else exists shares usd, n = sol_lamports b - floor /\ band <= n /\
    park ids l w payer n = Ok (w', shares) /\ 0 <= usd <= imax i64 /\
    b' = parked_bank b n shares (n * sol_star_haircut_bps c / 10000) usd now.
Proof.
  intros Hwf Hc Hrun total floor band. pose proof Hwf as [Hhot Hcost _ Hy Htot].
  destruct Hc as [Hbuf Hcut Hband _ _].
  destruct (required_buffer_eq b (sol_buffer_bps c) Hwf Hbuf) as [Ef Hf].
  destruct (park_band_eq b (sol_park_band_bps c) Hwf) as [Eb Hb];
    [unfold MIN_BUFFER_BPS in *; lia|].
  fold total in Ef, Eb, Hf, Hb. fold floor in Ef. fold band in Eb.
  unfold park_idle_sol in Hrun. rewrite Ef, Eb in *.
  apply bind_ok in Hrun as (? & _ & Hrun).
  assert (floor + band <= total) as Hfit.
  { unfold floor, band. rewrite <- Z.div_add_l by lia.
    apply Z.div_le_upper_bound; [lia|]. pose proof (Z.mul_div_le (total * sol_buffer_bps c) 10000).
    unfold MIN_BUFFER_BPS in *. nia. }
  rewrite (sat_id u64 (floor + band)) in Hrun by (unfold_ints; lia).
  destruct (Z.ltb_spec (sol_lamports b) (floor + band)); [by injection Hrun as <- <- <-|].
  rewrite (sat_id u64 (sol_lamports b - floor)) in Hrun by (unfold_ints; lia).
  rewrite (proj2 (Z.ltb_ge _ band)) in Hrun by lia.
  apply bind_ok in Hrun as ([w1 shares] & Hp & Hrun). cbv zeta in Hrun.
  destruct (bps_share_le (sol_lamports b - floor) (sol_star_haircut_bps c)) as [Eh Hh];
    [unfold_ints; lia..|]. rewrite Eh in Hrun.
  apply bind_ok in Hrun as (usd & Husd & Hrun). pose proof (collar_usd_range _ _ _ _ Husd) as Hu.
  apply bind_ok in Hrun as (m & Hm & Hrun). apply eval_inv in Hm as [-> _]. cbn [value aop_fun] in Hrun.
  apply bind_ok in Hrun as (b1 & Hadj & Hrun). injection Hrun as <- <- <-.
  exists shares, (Z.min usd (imax i64)).
  split_and!; try done; try (unfold_ints; lia).
  rewrite adjust_sol_credit_eq in Hadj by (cbn; unfold_ints; lia).
  set (u := Z.min usd (imax i64)) in *. assert (0 <= u) by (unfold u; unfold_ints; lia).
  set (n := sol_lamports b - floor) in *. set (h := n * sol_star_haircut_bps c / 10000) in *.
  unfold parked_bank.
  rewrite (sat_id u64 (sol_lamports b - n)), (sat_id u64 (n - h)),
    (sat_id u64 (sol_star_cost_lamports b + n)) in Hadj by (unfold_ints; lia).
  destruct (Z.leb_spec 0 (0 - u)); injection Hadj as <-; cbn.
  - replace u with 0 by lia. rewrite (sat_id u64 (yield_pool b + _)) by (unfold_ints; lia).
    rewrite Z.min_l by (unfold_ints; lia). change (0 - 0) with 0. rewrite !Z.sub_0_r, !Z.add_0_r. done.
  - by replace (Z.abs (0 - u)) with u by lia.
Qed.

(** Parking acts only when the hot side is a full band clear of its floor,
    and then moves exactly the excess over the floor: the buffer left is the
    configured share of the pool, never below a fifth, and the total at cost is
    unchanged.  The haircut, marked in dollars, is taken from the earnings shared by
    the dollar depositors. *)
Theorem park_keeps_buffer b c l w payer price a now b' w' n :
  wf_sol b -> valid_config c ->
  park_idle_sol ids b c l w payer price a now = Ok (b', w', n) ->
  let total := sol_lamports b + sol_star_cost_lamports b in
  let floor := total * sol_buffer_bps c / 10000 in
  let band := total * sol_park_band_bps c / 10000 in
  if sol_lamports b <? floor + band then b' = b /\ w' = w /\ n = 0
  else exists shares usd, n = sol_lamports b - floor /\ band <= n /\
    park ids l w payer n = Ok (w', shares) /\ 0 <= usd <= imax i64 /\
    b' = parked_bank b n shares (n * sol_star_haircut_bps c / 10000) usd now.
Proof. apply park_idle_law. Qed.

(** The law behind the next theorem, shared with the custody argument. *)
Lemma unpark_law b c l w payer wanted price a max_bps b' w' forfeit :
  wf_sol b -> valid_config c -> 0 <= wanted <= imax u64 -> 0 <= max_bps <= imax u16 ->
  unpark_for_withdrawal ids b c l w payer wanted price a max_bps = Ok (b', w', forfeit) ->
  if wanted <=? sol_lamports b then b' = b /\ w' = w /\ forfeit = 0
  else 0 < max_bps /\ exists shares out released,
    unpark ids l w payer shares = Ok (w', out) /\ 0 <= released <= sol_star_cost_lamports b /\
    Z.min wanted (sol_lamports b + sol_star_cost_lamports b) <= sol_lamports b + released /\
    released * sol_star_shares b
      <= (wanted - sol_lamports b) * sol_star_shares b + sol_star_cost_lamports b /\
    forfeit = Z.max 0 (released - out) /\
    forfeit <= released * Z.min (sol_star_haircut_bps c) max_bps / 10000 /\
    sol_lamports b' = sat u64 (sol_lamports b + out) /\
    sol_star_cost_lamports b' = sol_star_cost_lamports b - released /\
    total_deposits b' = total_deposits b /\ max_liability b' = max_liability b /\
    total_drawn b' = total_drawn b.
Proof.
  intros Hwf Hc Hw Hm Hrun. pose proof Hwf as [Hhot Hcost Hsh _ _]. destruct Hc as [_ Hcut _ _ _].
  unfold unpark_for_withdrawal in Hrun.
  destruct (Z.leb_spec wanted (sol_lamports b)) as [Hle|Hgt].
  { replace (sat u64 (wanted - sol_lamports b)) with 0 in Hrun by (unfold sat; unfold_ints; lia).
    by injection Hrun as <- <- <-. }
  rewrite (sat_id u64 (wanted - _)) in Hrun by (unfold_ints; lia).
  rewrite (proj2 (Z.eqb_neq _ 0)) in Hrun by lia.
  apply bind_ok in Hrun as (? & Hcons & Hrun). apply require_ok in Hcons.
  split; [lia|]. apply bind_ok in Hrun as (? & Hpos & Hrun). apply require_ok in Hpos.
  rewrite andb_true_iff in Hpos. apply bind_ok in Hrun as (shares & Hs & Hrun).
  destruct (wp_elim _ _ (unpark_shares_spec b (wanted - sol_lamports b) Hwf ltac:(unfold_ints; lia)
    ltac:(lia) ltac:(lia))) as (n & Hn & Hr1 & Hr2 & Hr3 & Hr4).
  rewrite Hn in Hs. injection Hs as <-. cbv zeta in Hr2, Hr3, Hr4, Hrun.
  set (rel := tranche_pro_rata b (sol_star_cost_lamports b) n) in *.
  apply bind_ok in Hrun as ([w1 out] & Hu & Hrun).
  set (bound := Z.min (sol_star_haircut_bps c) max_bps) in *.
  destruct (bps_share_le rel bound) as [Et Ht]; [unfold_ints; lia..|]. rewrite Et in Hrun.
  rewrite (sat_id u64 (rel - _)) in Hrun by (unfold_ints; lia).
  apply bind_ok in Hrun as (? & Htol & Hrun). apply require_ok in Htol.
  apply bind_ok in Hrun as (got & _ & Hrun). apply bind_ok in Hrun as (was & _ & Hrun).
  apply bind_ok in Hrun as ([b2 booked] & Hacc & Hrun). apply accrue_sol_frame in Hacc. cbn [fst] in Hacc.
  apply bind_ok in Hrun as (b3 & Hadj & Hrun). injection Hrun as <- <- <-.
  assert (lamport_side b3 = lamport_side b2) as Hside.
  { destruct booked; cbn [negb] in Hadj; [by injection Hadj as <-|by apply adjust_frame in Hadj]. }
  rewrite Hacc in Hside. unfold lamport_side in Hside. cbn in Hside.
  injection Hside as E1 _ E3 _ E5 E6 E7.
  exists n, out, rel. rewrite E1, E3, E5, E6, E7.
  assert (0 <= out) by lia.
  split_and!; try done; try lia; [unfold sat; unfold_ints; lia..|].
  rewrite sat_id by (unfold_ints; lia). done.
Qed.

(** Forcing the parked tranche open: never without the caller's consent,
    never when the buffer suffices, and at a cost to the caller of at most the
    tighter of the configured and the consented haircut on what is released.  What
    is released covers the deficit whenever the tranche can and exceeds it by at
    most one share, and no dollar principal, liability or drawn amount moves. *)
Theorem forced_unpark_bounded b c l w payer wanted price a max_bps b' w' forfeit :
  wf_sol b -> valid_config c -> 0 <= wanted <= imax u64 -> 0 <= max_bps <= imax u16 ->
  unpark_for_withdrawal ids b c l w payer wanted price a max_bps = Ok (b', w', forfeit) ->
  if wanted <=? sol_lamports b then b' = b /\ w' = w /\ forfeit = 0
  else 0 < max_bps /\ exists shares out released,
    unpark ids l w payer shares = Ok (w', out) /\ 0 <= released <= sol_star_cost_lamports b /\
    Z.min wanted (sol_lamports b + sol_star_cost_lamports b) <= sol_lamports b + released /\
    released * sol_star_shares b
      <= (wanted - sol_lamports b) * sol_star_shares b + sol_star_cost_lamports b /\
    forfeit = Z.max 0 (released - out) /\
    forfeit <= released * Z.min (sol_star_haircut_bps c) max_bps / 10000 /\
    sol_lamports b' = sat u64 (sol_lamports b + out) /\
    sol_star_cost_lamports b' = sol_star_cost_lamports b - released /\
    total_deposits b' = total_deposits b /\ max_liability b' = max_liability b /\
    total_drawn b' = total_drawn b.
Proof. apply unpark_law. Qed.
(** The other fields stay machine integers. *)
Lemma unpark_ranges b c l w payer wanted price a max_bps :
  in_range u64 (sol_star_shares b) -> in_range u64 (yield_pool b) ->
  ensures (unpark_for_withdrawal ids b c l w payer wanted price a max_bps)
    (fun r => in_range u64 (sol_star_shares r.1.1) /\ in_range u64 (yield_pool r.1.1)).
Proof.
  intros Hs Hy. unfold unpark_for_withdrawal. cbv zeta. destruct (_ =? 0); [by apply ensures_ok|].
  do 3 (apply ensures_skip; intros). apply ensures_skip. intros [w1 out].
  do 3 (apply ensures_skip; intros).
  apply (ensures_bind _ _ (fun r => in_range u64 (sol_star_shares r.1) /\ in_range u64 (yield_pool r.1))).
  { intros [b1 bk] Hacc. unfold accrue_sol_yield in Hacc. cbn in Hacc.
    repeat match type of Hacc with
    | (if ?x then _ else _) = _ => destruct x
    | bind _ _ = _ => apply bind_ok in Hacc as (? & _ & Hacc)
    end; injection Hacc as <- <-; cbn; (split; [by apply sat_in_range|done]). }
  intros [b1 bk] [Hs1 Hy1]. cbn [fst] in *.
  apply (ensures_bind _ _ (fun r => in_range u64 (sol_star_shares r) /\ in_range u64 (yield_pool r)));
    [|by intros b2 Hb2; apply ensures_ok].
  destruct bk; cbn [negb]; [by apply ensures_ok|]. intros b2 Hadj. unfold adjust_sol_credit in Hadj.
  destruct (0 <=? _); [injection Hadj as <-; cbn; split; [done|by apply sat_in_range]|].
  apply bind_ok in Hadj as (y & Hy2 & Hadj). apply eval_inv in Hy2 as [-> Hsafe].
  injection Hadj as <-. cbn in *. split; [done|]. unfold_ints. lia.
Qed.

(** ** The native withdrawal *)

(** The market inputs under which the risk engine accepts a print. *)
Record market_ok (n : Z) (a : Actuary) (b : Depository) (price now slot : Z) : Prop := {
  mk_learn : wf_learn n a;
  mk_prints : n < 1000000000000;
  mk_net : - MAX_NET <= net_exposure a <= MAX_NET;
  mk_index : 0 <= index_updated a <= imax i64;
  mk_now : 0 <= now <= imax i64;
  mk_price : 0 < price <= imax i64;
  mk_slot : 0 <= slot <= imax i64;
  mk_drawn : 0 <= total_drawn b <= 100000 * total_deposits b;
  mk_deposits : in_range u64 (total_deposits b)
}.

Lemma utilisation_total b : 0 <= total_drawn b <= 100000 * total_deposits b ->
  in_range u64 (total_deposits b) -> wp (utilisation_bps b) (fun u => 0 <= u <= 1000000000).
Proof.
  intros Hd Ht. unfold utilisation_bps. apply wp_if; intros Hz; [cbn; lia|].
  apply Z.eqb_neq in Hz. set (d := total_drawn b) in *. set (t := total_deposits b) in *. unfold_ints.
  assert (0 <= Z.quot (d * 10000) t <= 1000000000) as Hq by (apply quot_bounds; lia).
  wp_head. apply wp_eval.
  { cbn [safe value aop_fun]. unfold_ints. repeat split; lia. }
  cbn [value aop_fun wp]. rewrite !cast_id by (unfold_ints; rewrite ?cast_id by (unfold_ints; lia); lia).
  done.
Qed.

Lemma market_observed n a b price now slot : market_ok n a b price now slot ->
  exists u a1 a2, utilisation_bps b = Ok u /\ accrue_premium_index a now u = Ok a1 /\
    update_price a1 (cast i64 price) slot = Ok a2 /\ wf_learn (n + 1) a2.
Proof.
  intros [Hl Hn Hnet Hi Hnow Hp Hs Hd Ht].
  destruct (wp_elim _ _ (utilisation_total b Hd Ht)) as (u & Hu & Hur).
  destruct (wp_elim _ _ (accrue_index_total n a now u Hl Hnet Hi Hnow Hur)) as (a1 & Ha & Hw).
  rewrite cast_id by (unfold_ints; lia).
  destruct (wp_elim _ _ (update_price_total n a1 price slot Hw Hn Hp Hs)) as (a2 & Hup & Hw2).
  by exists u, a1, a2.
Qed.

Lemma from_remaining_short c p t s rest : (length rest < SOL_STAR_LEGS)%nat ->
  from_remaining ids c p t s rest = Ok None.
Proof.
  unfold SOL_STAR_LEGS. intros Hl. do 9 (destruct rest as [|? rest]; [done|]). cbn in Hl. lia.
Qed.

Context `{!RuntimeLaws W}.

(** *** Lamports of the pool across the issuer's round trip *)
Section Native.
Context `{!IssuerLaws W}.

(** The accounts a caller supplies for the round trip do not include the pool. *)
Definition legs_apart (l : SolStarLegs) (payer : Pubkey) : Prop :=
  l_sol_pool l ∉ [payer; l_kestrel_token l; l_sol_star_mint l; l_pool_wsol l; l_pool_sol_star l;
                  l_collateral_vault l].

Lemma from_remaining_apart c pool tp sp rest l payer : pool ∉ rest -> payer <> pool ->
  from_remaining ids c pool tp sp rest = Ok (Some l) -> l_sol_pool l = pool /\ legs_apart l payer.
Proof.
  intros Hr Hp Hf. unfold from_remaining in Hf. do 9 (destruct rest as [|? rest]; [done|]).
  inv_ok Hf. split; [done|]. unfold legs_apart. cbn. rewrite !not_elem_of_cons in Hr |- *.
  split_and!; try apply not_elem_of_nil; try apply Hr. congruence.
Qed.

Lemma ensure_ata_native w payer ata pool mint tp w' : ensure_ata w payer ata pool mint tp = Ok w' ->
  ata <> pool -> payer <> pool -> (forall k, 0 <= token_balance w k) ->
  lamports_of w' pool = lamports_of w pool /\ (forall k, 0 <= token_balance w' k).
Proof.
  unfold ensure_ata. intros Hc Ha Hp Hn. destruct (data_is_empty w ata); [|by injection Hc as <-].
  apply create_frame in Hc as [Hl Ht]; try done. split; [done|]. intros k.
  specialize (Hn k). destruct (Ht k); lia.
Qed.

Lemma ensure_atas_native l w payer w' : ensure_atas l w payer = Ok w' -> legs_apart l payer ->
  (forall k, 0 <= token_balance w k) ->
  lamports_of w' (l_sol_pool l) = lamports_of w (l_sol_pool l) /\ (forall k, 0 <= token_balance w' k).
Proof.
  unfold ensure_atas, legs_apart. intros Hc Ha Hn. apply bind_ok in Hc as (w1 & H1 & H2).
  apply ensure_ata_native in H1 as [E1 Hn1]; [|set_solver..|done].
  apply ensure_ata_native in H2 as [E2 Hn2]; [|set_solver..|done]. split; [lia|done].
Qed.

(** Parking takes exactly the parked lamports from the pool. *)
Lemma park_native l w payer n w' shares : park ids l w payer n = Ok (w', shares) ->
  legs_apart l payer -> (forall k, 0 <= token_balance w k) ->
  lamports_of w' (l_sol_pool l) = lamports_of w (l_sol_pool l) - n.
Proof.
  intros Hp Ha Hn. unfold park in Hp. apply bind_ok in Hp as (w1 & He & Hp).
  apply ensure_atas_native in He as [E1 _]; try done.
  apply bind_ok in Hp as (w2 & Ht & Hp). apply sys_moves in Ht as (_ & Hm & _).
  apply bind_ok in Hp as (? & _ & Hp). apply bind_ok in Hp as (w3 & Hs & Hp).
  apply bind_ok in Hp as (w4 & Hi & Hp). apply bind_ok in Hp as (? & _ & Hp).
  apply bind_ok in Hp as (? & _ & Hp). injection Hp as <- _. unfold legs_apart in Ha.
  rewrite (invoke_readonly _ _ _ _ _ (l_sol_pool l) true Hi).
  - rewrite (sync_frame _ _ _ Hs), Hm, E1. unfold moved. rewrite Z.eqb_refl.
    rewrite (proj2 (Z.eqb_neq _ _)) by set_solver. lia.
  - unfold meta_readonly. set_solver.
  - intros s'. unfold meta_readonly, meta_new. rewrite !not_elem_of_cons. set_solver.
Qed.

(** Unparking brings back at least what it reports. *)
Lemma unpark_native l w payer shares w' out : unpark ids l w payer shares = Ok (w', out) ->
  legs_apart l payer -> (forall k, 0 <= token_balance w k) ->
  0 < out /\ lamports_of w (l_sol_pool l) + out <= lamports_of w' (l_sol_pool l).
Proof.
  intros Hp Ha Hn. unfold unpark in Hp. apply bind_ok in Hp as (w1 & He & Hp).
  apply ensure_atas_native in He as [E1 Hn1]; try done. specialize (Hn1 (l_pool_wsol l)).
  cbv zeta in Hp. apply bind_ok in Hp as (w2 & Hi & Hp).
  apply bind_ok in Hp as (? & Hpos & Hp). apply require_ok in Hpos.
  apply bind_ok in Hp as (? & _ & Hp). apply bind_ok in Hp as (w3 & Hc & Hp). injection Hp as <- <-.
  unfold legs_apart in Ha. apply close_moves in Hc as [Hl Hb]; [|set_solver].
  rewrite Hl, (invoke_readonly _ _ _ _ _ (l_sol_pool l) true Hi).
  - unfold sat in *. unfold_ints. lia.
  - unfold meta_readonly. set_solver.
  - intros s'. unfold meta_readonly, meta_new. rewrite !not_elem_of_cons. set_solver.
Qed.
End Native.

(** What a successful native withdrawal did to the books, the buffer path and the
    forced unwind alike. *)
Lemma withdraw_native_inv c b r cfg w pool tp sp signer rest oracle lamports max_bps now slot rent
    c' b' r' w' paid :
  0 <= lamports -> 0 <= deposited_lamports c <= imax u64 ->
  withdraw_native ids c b r cfg w pool tp sp signer rest oracle lamports max_bps now slot rent
    = Ok (c', b', r', w', paid) ->
  let wanted := if lamports =? 0 then deposited_lamports c else lamports in
  exists L b1 w1 forfeit price a,
    0 < L <= wanted /\ wanted <= deposited_lamports c /\
    ((b1 = b /\ w1 = w /\ forfeit = 0 /\ wanted <= sol_lamports b) \/
     exists l, from_remaining ids cfg pool tp sp rest = Ok (Some l) /\
       unpark_for_withdrawal ids b cfg l w signer wanted price a max_bps = Ok (b1, w1, forfeit)) /\
    L = Z.min wanted (sat u64 (sat u64 (lamports_of w1 pool - rent) + forfeit)) /\
    paid = sat u64 (L - forfeit) /\ sys_transfer w1 pool signer paid = Ok w' /\
    deposited_lamports c' = deposited_lamports c - L /\ deposited_quid c' = deposited_quid c /\
    lamport_side b' = lamport_side (b1 <| sol_lamports := sat u64 (sol_lamports b1 - L) |>) /\
    yield_pool b' = yield_pool b1.
Proof.
  intros Hl Hd Hrun wanted. unfold withdraw_native in Hrun. fold wanted in Hrun.
  apply bind_ok in Hrun as (? & Hpos & Hrun). apply require_ok in Hpos.
  apply bind_ok in Hrun as (? & Hle & Hrun). apply require_ok in Hle.
  apply bind_ok in Hrun as (price & _ & Hrun). apply bind_ok in Hrun as (risk & _ & Hrun).
  apply bind_ok in Hrun as (u & _ & Hrun). apply bind_ok in Hrun as (a1 & _ & Hrun).
  apply bind_ok in Hrun as (a & _ & Hrun). apply bind_ok in Hrun as (legs & Hlegs & Hrun).
  apply bind_ok in Hrun as ([[b1 w1] forfeit] & Hmid & Hrun).
  pose proof (settle_sol_frame c b1) as (Hside & Hdl & Hdq).
  assert (yield_pool (settle_sol_yield c b1).1.2 = yield_pool b1) as Hy.
  { unfold settle_sol_yield. by repeat case_match. }
  destruct (settle_sol_yield c b1) as [[c1 b2] owed]. cbn [fst snd] in *.
  apply bind_ok in Hrun as (? & Hpos2 & Hrun). apply require_ok in Hpos2.
  set (L := Z.min wanted _) in *. assert (0 < L <= wanted) as HL by (split; [lia|apply Z.le_min_l]).
  unfold book_withdrawal in Hrun. cbv zeta in Hrun.
  apply bind_ok in Hrun as (w2 & Ht & Hrun). injection Hrun as <- <- <- <- <-.
  exists L, b1, w1, forfeit, price, a. cbn. unfold lamport_side in Hside.
  injection Hside as E1 E2 E3 E4 E5 E6 E7. rewrite Hdl, (sat_id u64 (deposited_lamports c - L)) by (unfold_ints; lia).
  split_and!; try done; try lia.
  - destruct legs as [l|]; [right; by exists l|left].
    apply bind_ok in Hmid as (? & Hreq & Hmid). apply require_ok in Hreq. injection Hmid as <- <- <-.
    split_and!; (done || lia).
  - unfold lamport_side. cbn. by rewrite E1, E2, E3, E4, E5, E6, E7.
Qed.

(** A depositor whose request fits in the hot buffer is paid, in full and in
    lamports, with no cooperation from anyone else: given a price and a native
    balance that backs the ledger above its rent floor, the call succeeds, sends
    exactly the request, and lowers the claim, the hot ledger and the pool's
    lamports by that figure.  The accrued carry changes neither the lamports paid nor the
    dollar balance. *)
Theorem hot_withdrawal_live n c b risk cfg w pool tp sp signer rest price lamports max_bps now slot rent :
  market_ok n (actuary risk) b price now slot -> wf_sol b ->
  (length rest < SOL_STAR_LEGS)%nat -> signer <> pool ->
  0 < lamports <= deposited_lamports c -> lamports <= sol_lamports b ->
  deposited_lamports c <= imax u64 -> 0 <= rent -> lamports + rent <= lamports_of w pool <= imax u64 ->
  wp (withdraw_native ids c b (Some risk) cfg w pool tp sp signer rest (Ok price) lamports max_bps
        now slot rent) (fun '(c', b', _, w', paid) =>
    paid = lamports /\ deposited_lamports c' = deposited_lamports c - lamports /\
    sol_lamports b' = sol_lamports b - lamports /\
    sol_star_cost_lamports b' = sol_star_cost_lamports b /\
    lamports_of w' signer = lamports_of w signer + lamports /\
    lamports_of w' pool = lamports_of w pool - lamports /\
    deposited_quid c' = deposited_quid c).
Proof.
  intros Hmk Hwf Hrest Hne Hl Hhot Hmax Hrent Hpool.
  destruct (market_observed _ _ _ _ _ _ Hmk) as (u & a1 & a2 & Hu & Ha & Hup & _).
  unfold withdraw_native. rewrite (proj2 (Z.eqb_neq lamports 0)) by lia.
  rewrite (proj2 (Z.ltb_lt 0 lamports)), (proj2 (Z.leb_le lamports _)) by lia.
  cbn [require bind ok_or]. rewrite Hu. cbn [bind]. rewrite Ha. cbn [bind]. rewrite Hup. cbn [bind].
  rewrite from_remaining_short by done. cbn [bind]. rewrite (proj2 (Z.leb_le lamports _)) by lia.
  cbn [require bind].
  pose proof (settle_sol_frame c b) as (Hside & Hdl & Hdq).
  destruct (settle_sol_yield c b) as [[c1 b1] owed]. cbn [fst snd] in *.
  unfold lamport_side in Hside. injection Hside as E1 _ E3 _ _ _ _.
  destruct Hwf as [Hh _ _ _ _].
  rewrite (sat_id u64 (lamports_of w pool - rent)), Z.add_0_r, (sat_id u64 (lamports_of w pool - rent)),
    Z.min_l by (unfold_ints; lia).
  rewrite (proj2 (Z.ltb_lt 0 lamports)) by lia. cbn [require bind].
  unfold book_withdrawal. cbv zeta. rewrite Z.sub_0_r, (sat_id u64 lamports) by (unfold_ints; lia).
  destruct (sys_done w pool signer lamports) as [w' Hw']; [lia|]. rewrite Hw'. cbn [bind wp].
  destruct (sys_moves _ _ _ _ _ Hw') as (_ & Hm & _).
  cbn. rewrite !Hm, Hdl, E1, E3, Hdq. unfold moved.
  rewrite !sat_id by (unfold_ints; lia).
  destruct (Z.eqb_spec signer signer), (Z.eqb_spec pool pool), (Z.eqb_spec signer pool),
    (Z.eqb_spec pool signer); try congruence; split_and!; (done || lia).
Qed.
End SolLaws.

(** ** An executable issuer

    On [Ledger]: minting takes wrapped SOL one for one, burning returns it less
    40 bps.  Only writable accounts are touched. *)
Definition meta_at (metas : list AccountMeta) (i : nat) : option Pubkey :=
  match metas !! i with
  | Some m => if meta_writable m then Some (meta_key m) else None
  | None => None
  end.

Definition led_create (w : Ledger) (ata mint : Pubkey) : Ledger :=
  mkLedger (<[ata := (mint, 0)]> (tokens w)) (mints w) (native w).

Definition led_sync (w : Ledger) (k : Pubkey) : Ledger :=
  mkLedger (<[k := (led_mint w k, led_lamports w k)]> (tokens w)) (mints w) (native w).

Definition led_close (w : Ledger) (k dest : Pubkey) : outcome Ledger :=
  if led_token w k <=? led_lamports w k
  then Ok (mkLedger (base.delete k (tokens w)) (mints w)
             (<[dest := led_lamports w dest + led_lamports w k]> (<[k := 0]> (native w))))
  else Panic.

Definition led_issuer (w : Ledger) (metas : list AccountMeta) (d : list Z) : outcome Ledger :=
  if bool_decide (take 8 d = MINT_TOKEN_DISC) then
    let n := from_le_bytes (drop 8 d) in
    match meta_at metas 4, meta_at metas 5, meta_at metas 6 with
    | Some wsol, Some star, Some vault =>
        if n <=? led_token w wsol
        then Ok (credit_native (credit_native (credit_token (credit_token w wsol (- n)) star n)
                   wsol (- n)) vault n)
        else Panic
    | _, _, _ => Panic
    end
  else
    let n := from_le_bytes (drop 9 d) in
    let out := n - n / 250 in
    match meta_at metas 4, meta_at metas 6, meta_at metas 7 with
    | Some star, Some wsol, Some vault =>
        if (n <=? led_token w star) && (out <=? led_lamports w vault)
        then Ok (credit_native (credit_native (credit_token (credit_token w star (- n)) wsol out)
                   wsol out) vault (- out))
        else Panic
    | _, _, _ => Panic
    end.

#[export] Instance ledger_issuer : Issuer Ledger := {
  data_is_empty w k := bool_decide (tokens w !! k = None);
  create_idempotent w payer ata auth mint tp := Ok (led_create w ata mint);
  sync_native w k := Ok (led_sync w k);
  close_account := led_close;
  invoke_issuer w p metas d := led_issuer w metas d
}.

Lemma meta_at_writable metas i k : meta_at metas i = Some k -> exists s, mkMeta k s true ∈ metas.
Proof.
  unfold meta_at. destruct (metas !! i) as [[k' s wr]|] eqn:E; [|done]. cbn.
  destruct wr; [|done]. intros [= <-]. exists s. by eapply list_elem_of_lookup_2.
Qed.

#[export] Instance ledger_issuer_laws : IssuerLaws Ledger.
Proof.
  split; cbn.
  - intros w payer ata auth mint tp w' [= <-] _ _. split; [done|]. intros k.
    unfold led_token, led_create; cbn. destruct (Z.eq_dec k ata) as [->|].
    + right. by rewrite lookup_insert_eq.
    + left. by rewrite lookup_insert_ne.
  - by intros w k w' [= <-].
  - intros w k dest w' Hc Hne. unfold led_close in Hc.
    destruct (Z.leb_spec (led_token w k) (led_lamports w k)); [|done]. injection Hc as <-.
    unfold led_lamports at 1. cbn. rewrite lookup_insert_eq. done.
  - intros w p metas d w' k s Hi _ Hro.
    assert (forall i j, meta_at metas i = Some j -> k <> j) as Hne.
    { intros i j Hj ->. apply meta_at_writable in Hj as [s' Hj]. by apply (Hro s'). }
    unfold led_issuer in Hi.
    destruct (bool_decide _);
      repeat match type of Hi with
      | match ?o with _ => _ end = _ => destruct o eqn:?; try done
      end; injection Hi as <-;
      rewrite !led_lamports_credit;
      repeat match goal with
      | Hm : meta_at metas _ = Some ?j |- context [k =? ?j] =>
          rewrite (proj2 (Z.eqb_neq k j)) by (by eapply Hne)
      end; unfold led_lamports, credit_token; cbn; lia.
Qed.

(** ** A thousand SOL, half of it parked *)
Definition sol_ids : Ids := mkIds 1001 1002 1003 (fun _ m _ => if m =? WSOL_MINT then 501 else 502).
Definition sol_cfg : ProgramConfig :=
  (init_config 1 7 255) <| kestrel_program := 5 |> <| sol_star_mint := 6 |>.
Definition sol_rest : list Pubkey := [601; 602; WSOL_MINT; 6; 501; 502; 5; 1001; 1003].
Definition sol_legs : SolStarLegs := mkLegs 500 WSOL_MINT 6 501 502 5 601 602 1001 1001 1003 1004.
Definition sol_world : Ledger := mkLedger ∅ ∅ {[500 := 1000000000000; 9 := 5000000000]}.
Definition sol_bank : Depository :=
  depository_default <| sol_lamports := 999000000000 |> <| yield_pool := 1000000000 |>
    <| total_deposits := 5000000000 |>.
Definition sol_price_now : Z := 150000000.

Lemma sol_cfg_valid : valid_config sol_cfg.
Proof. split; cbn; unfold MIN_BUFFER_BPS, SOL_STAR_HAIRCUT_BPS; (lia || done). Qed.

Lemma sol_bank_wf : wf_sol sol_bank.
Proof. split; vm_compute; (split; discriminate) || discriminate. Qed.

Lemma park_keeps_buffer_witness : exists b' w' shares usd,
  park_idle_sol sol_ids sol_bank sol_cfg sol_legs sol_world 9 sol_price_now warm_actuary 77
    = Ok (b', w', 499500000000) /\
  b' = parked_bank sol_bank 499500000000 shares 1998000000 usd 77.
Proof.
  destruct (park_idle_sol sol_ids sol_bank sol_cfg sol_legs sol_world 9 sol_price_now warm_actuary 77)
    as [[[b' w'] n]| |] eqn:E; [|vm_compute in E; discriminate E..].
  pose proof (park_keeps_buffer sol_ids sol_bank sol_cfg sol_legs sol_world 9 sol_price_now
    warm_actuary 77 b' w' n sol_bank_wf sol_cfg_valid E) as Hp. clear E. cbv zeta in Hp.
  match type of Hp with (if ?b then _ else _) => replace b with false in Hp by (vm_compute; reflexivity) end.
  destruct Hp as (shares & usd & -> & _ & _ & _ & ->).
  exists (parked_bank sol_bank 499500000000 shares 1998000000 usd 77), w', shares, usd.
  split; reflexivity.
Defined.

(** The bank after that parking, at a mark of 250 dollars of haircut. *)
Definition parked_sample : Depository :=
  parked_bank sol_bank 499500000000 499500000000 1998000000 250000000 77.
Definition parked_world : Ledger :=
  mkLedger {[502 := (6, 499500000000)]} ∅ {[500 := 500500000000; 602 := 499500000000; 9 := 5000000000]}.

Lemma parked_sample_wf : wf_sol parked_sample.
Proof. split; vm_compute; (split; discriminate) || discriminate. Qed.

Lemma forced_unpark_bounded_witness : exists b' w' forfeit,
  unpark_for_withdrawal sol_ids parked_sample sol_cfg sol_legs parked_world 9 600000000000
    sol_price_now warm_actuary 40 = Ok (b', w', forfeit) /\
  0 < forfeit <= 402000000 /\ total_deposits b' = total_deposits parked_sample.
Proof.
  destruct (unpark_for_withdrawal sol_ids parked_sample sol_cfg sol_legs parked_world 9 600000000000
    sol_price_now warm_actuary 40) as [[[b' w'] forfeit]| |] eqn:E; [|vm_compute in E; discriminate E..].
  pose proof (forced_unpark_bounded sol_ids parked_sample sol_cfg sol_legs parked_world 9 600000000000
    sol_price_now warm_actuary 40 b' w' forfeit parked_sample_wf sol_cfg_valid
    ltac:(vm_compute; split; discriminate) ltac:(vm_compute; split; discriminate) E) as Hp.
  exists b', w', forfeit. split; [reflexivity|].
  assert (forfeit = 402000000) as -> by (vm_compute in E; injection E; intros; symmetry; assumption).
  clear E. split; [lia|].
  match type of Hp with (if ?b then _ else _) => replace b with false in Hp by (vm_compute; reflexivity) end.
  destruct Hp as (_ & shares & out & rel & _ & _ & _ & _ & _ & _ & _ & _ & Ht & _). exact Ht.
Defined.

Definition sol_risk : TickerRisk := mkTickerRisk [83; 79; 76; 0; 0; 0; 0; 0] warm_actuary 255 0 0.
Definition sol_holder : Depositor :=
  depositor_default <| owner := 9 |> <| deposited_lamports := 40000000000 |>
    <| sol_pledged_usd := 5000000000 |>.

Lemma sol_market : market_ok 2 (actuary sol_risk) parked_sample sol_price_now 1000 30000.
Proof. split; [apply warm_wf|..]; vm_compute; repeat split; (reflexivity || discriminate). Qed.

Lemma hot_withdrawal_live_witness : exists c' b' r' w',
  withdraw_native sol_ids sol_holder parked_sample (Some sol_risk) sol_cfg parked_world 500 1001 1004 9 []
    (Ok sol_price_now) 25000000000 0 1000 30000 890880 = Ok (c', b', r', w', 25000000000) /\
  deposited_lamports c' = 15000000000.
Proof.
  destruct (wp_elim _ _ (hot_withdrawal_live sol_ids 2 sol_holder parked_sample sol_risk sol_cfg
    parked_world 500 1001 1004 9 [] sol_price_now 25000000000 0 1000 30000 890880 sol_market
    parked_sample_wf ltac:(vm_compute; lia) ltac:(discriminate)
    ltac:(vm_compute; split; [reflexivity|discriminate]) ltac:(vm_compute; discriminate)
    ltac:(vm_compute; discriminate) ltac:(vm_compute; discriminate)
    ltac:(vm_compute; split; discriminate)))
    as ([[[[c' b'] r'] w'] paid] & E & -> & Hd & _).
  exists c', b', r', w'. split; [exact E|exact Hd].
Defined.
