(* ===== verification/Flash.v ===== *)
(** * Flash: atomic loans of the hot buffer and of the vaults

    [handle_flash_borrow] of [svm/programs/quid/src/entra.rs] and
    [handle_flash_repay] of [svm/programs/quid/src/clutch.rs], with the account
    constraints of their contexts.  The instructions of the transaction after the
    current one are an argument, as the instructions sysvar lists them; the
    derivation of a vault address from a bump is a parameter. *)
From S2P Require Import Prelude Actuary Pricing Learning Pool Chain Config Sol.

Definition FLASH_REPAY_DISC : list Z := [182; 143; 19; 23; 39; 221; 184; 78].
Definition WITHDRAW_DISC : list Z := [183; 18; 70; 156; 148; 109; 161; 34].
Definition FLASH_TIP_BPS : Z := 5.

#[export] Instance eta_FlashLoan : Eta FlashLoan := fun f =>
  mkFlashLoan (flash_lamports f) (flash_token_mint f) (flash_token_amount f).

Definition no_loan : FlashLoan := mkFlashLoan 0 default_key 0.

(** ** The rest of the transaction *)
Record Ix := mkIx { ix_program : Pubkey; ix_data : list Z }.

(** Looks for the repayment among the later instructions, refusing a withdrawal
    found before it. *)
Fixpoint scan_repay (program : Pubkey) (later : list Ix) : outcome bool :=
  match later with
  | [] => Ok false
  | ix :: later =>
      if (ix_program ix =? program) && bool_decide (8 <= length (ix_data ix))%nat then
        if bool_decide (take 8 (ix_data ix) = FLASH_REPAY_DISC) then Ok true
        else
          require (negb (bool_decide (take 8 (ix_data ix) = WITHDRAW_DISC))) FlashLoanActive ;;
          scan_repay program later
      else scan_repay program later
  end.

Section FlashHandlers.
Variable ids : Ids.
Variable vault_at : Pubkey -> Z -> option Pubkey.
Context {W : Type} `{Runtime W}.

(** The four accounts of a token leg: vault, mint, user account, token program.
    [exact_mint] is the mint the leg must be in, if one is already fixed. *)
Definition token_leg (ra : list AccountInfo) (bump : Z) (mint_check : Pubkey -> bool)
  : outcome (AccountInfo * AccountInfo * AccountInfo * AccountInfo) :=
  match ra with
  | vault :: mint :: ata :: prog :: _ =>
      expected <- ok_or (vault_at (key mint) bump) InvalidParameters ;;
      require (key vault =? expected) InvalidSettlementProgram ;;
      require (mint_check (key mint)) InvalidMint ;;
      require (is_token_program ids (key prog)) InvalidParameters ;;
      Ok (vault, mint, ata, prog)
  | _ => Err InvalidParameters
  end.

(** [d[44]] of a mint account. *)
Definition read_decimals (mint : AccountInfo) : outcome Z :=
  require (bool_decide (45 <= length (data mint))%nat) InvalidParameters ;;
  match data mint !! 44%nat with Some d => Ok d | None => Panic end.

Definition handle_flash_borrow (cfg : ProgramConfig) (b : Depository) (f : FlashLoan) (w : W)
    (program authority borrower sol_pool : Pubkey) (later : list Ix) (ra : list AccountInfo)
    (lamports token_amt bump : Z) : outcome (Depository * FlashLoan * W) :=
  require (authority =? flash_authority cfg) InvalidSettlementProgram ;;
  require ((flash_lamports f =? 0) && (flash_token_mint f =? default_key)
           && (flash_token_amount f =? 0)) FlashLoanActive ;;
  require ((0 <? lamports) || (0 <? token_amt)) InvalidAmount ;;
  require (negb ((0 <? lamports) && (0 <? token_amt))) InvalidAmount ;;
  found <- scan_repay program later ;;
  require found FlashRepayMissing ;;
  if 0 <? lamports then
    require (lamports <=? sol_lamports b) InsufficientFunds ;;
    let b := b <| sol_usd_contrib := 0 |>
               <| sol_lamports := sat u64 (sol_lamports b - lamports) |> in
    w <- sys_transfer w sol_pool borrower lamports ;;
    Ok (b, f <| flash_lamports := lamports |>, w)
  else
    '(vault, mint, ata, _) <- token_leg ra bump (fun m => bool_decide (m ∈ registered_mints cfg)) ;;
    vault_amount <- token_amount vault ;;
    require (token_amt <=? vault_amount) InsufficientFunds ;;
    decimals <- read_decimals mint ;;
    w <- transfer_checked w (key vault) (key mint) (key ata) token_amt decimals ;;
    Ok (b, f <| flash_token_mint := key mint |> <| flash_token_amount := token_amt |>, w).

(** The tip of a SOL loan, booked as the SOL depositors' carry. *)
Definition book_tip (b : Depository) (tip price : Z) (a : Actuary) : outcome Depository :=
  if 0 <? tip then
    v <- collar_adjusted_usd tip price a ;;
    let tip_usd := Z.min v (imax i64) in
    if 0 <? tip_usd then
      '(b, booked) <- accrue_sol_yield b tip_usd ;;
      if negb booked then adjust_sol_credit b tip_usd else Ok b
    else Ok b
  else Ok b.

Definition handle_flash_repay (b : Depository) (f : FlashLoan) (risk : TickerRisk) (w : W)
    (repayer sol_pool : Pubkey) (ra : list AccountInfo) (oracle : outcome Z)
    (tip_lamports tip_token bump slot : Z)
  : outcome (Depository * FlashLoan * TickerRisk * W) :=
  if 0 <? flash_token_amount f then
    let total := sat u64 (flash_token_amount f + tip_token) in
    '(vault, mint, ata, _) <- token_leg ra bump (fun m => m =? flash_token_mint f) ;;
    decimals <- read_decimals mint ;;
    w <- transfer_checked w (key ata) (key mint) (key vault) total decimals ;;
    Ok (b, f <| flash_token_mint := default_key |> <| flash_token_amount := 0 |>, risk, w)
  else
    require (0 <? flash_lamports f) NoActiveFlashLoan ;;
    let principal := flash_lamports f in
    let min_tip := sat u128 (principal * FLASH_TIP_BPS) / 10000 in
    require (min_tip <=? tip_lamports) InsufficientFunds ;;
    let total := sat u64 (principal + tip_lamports) in
    w <- sys_transfer w repayer sol_pool total ;;
    let f := f <| flash_lamports := 0 |> in
    let b := b <| sol_lamports := sat u64 (sol_lamports b + total) |> in
    sol_price <- oracle ;;
    a <- update_price (actuary risk) (cast i64 sol_price) slot ;;
    restored <- collar_adjusted_usd (credited_lamports b) sol_price a ;;
    let b := b <| sol_usd_contrib := restored |> in
    b <- book_tip b tip_lamports sol_price a ;;
    Ok (b, f, risk <| actuary := a |>, w).
End FlashHandlers.

(** * Theorems *)

(** [ix] is a call of this program's instruction with discriminator [d]. *)
Definition calls (program : Pubkey) (d : list Z) (ix : Ix) : Prop :=
  ix_program ix = program /\ (8 <= length (ix_data ix))%nat /\ take 8 (ix_data ix) = d.

(** The scan succeeds exactly when a repayment follows with no withdrawal of this
    program before it. *)
Lemma scan_repay_spec p later : scan_repay p later = Ok true <->
  exists pre repay post, later = pre ++ repay :: post /\ calls p FLASH_REPAY_DISC repay /\
    Forall (fun ix => ~ calls p WITHDRAW_DISC ix /\ ~ calls p FLASH_REPAY_DISC ix) pre.
Proof.
  induction later as [|ix later IH]; cbn [scan_repay].
  { split; [done|]. intros ([|] & ? & ? & ? & _); done. }
  assert (forall d, calls p d ix <-> (ix_program ix =? p) && bool_decide (8 <= length (ix_data ix))%nat
    = true /\ take 8 (ix_data ix) = d) as Hc.
  { intros d. unfold calls. rewrite andb_true_iff, bool_decide_eq_true, Z.eqb_eq. tauto. }
  assert ((exists pre repay post, ix :: later = pre ++ repay :: post /\ calls p FLASH_REPAY_DISC repay /\
      Forall (fun ix => ~ calls p WITHDRAW_DISC ix /\ ~ calls p FLASH_REPAY_DISC ix) pre) <->
    calls p FLASH_REPAY_DISC ix \/ (~ calls p WITHDRAW_DISC ix /\ ~ calls p FLASH_REPAY_DISC ix /\
      exists pre repay post, later = pre ++ repay :: post /\ calls p FLASH_REPAY_DISC repay /\
      Forall (fun ix => ~ calls p WITHDRAW_DISC ix /\ ~ calls p FLASH_REPAY_DISC ix) pre)) as ->.
  { split.
    - intros ([|x pre] & rp & post & E & Hr & Hf); simplify_eq/=; [by left|right].
      inversion Hf; subst. split_and!; [tauto..|]. by exists pre, rp, post.
    - intros [Hr|(H1 & H2 & pre & rp & post & -> & Hr & Hf)].
      + by exists [], ix, later.
      + exists (ix :: pre), rp, post. split_and!; try done. by constructor. }
  rewrite <- IH, !Hc. clear IH Hc. destruct (_ && _); [|intuition congruence].
  destruct (bool_decide_reflect (take 8 (ix_data ix) = FLASH_REPAY_DISC)); [intuition congruence|].
  destruct (bool_decide_reflect (take 8 (ix_data ix) = WITHDRAW_DISC)); cbn [negb require bind];
    intuition congruence.
Qed.

Section FlashLaws.
Variable ids : Ids.
Variable vault_at : Pubkey -> Z -> option Pubkey.
Context {W : Type} `{RuntimeLaws W}.

(** What a successful SOL borrow did. *)
Lemma borrow_sol_inv cfg b f w p auth who pool later ra n t bump b' f' w' : 0 < n ->
  handle_flash_borrow ids vault_at cfg b f w p auth who pool later ra n t bump = Ok (b', f', w') ->
  auth = flash_authority cfg /\ f = no_loan /\ scan_repay p later = Ok true /\ n <= sol_lamports b /\
  sys_transfer w pool who n = Ok w' /\ f' = f <| flash_lamports := n |> /\
  b' = b <| sol_usd_contrib := 0 |> <| sol_lamports := sat u64 (sol_lamports b - n) |>.
Proof.
  intros Hn Hrun. unfold handle_flash_borrow in Hrun.
  apply bind_ok in Hrun as (? & Ha & Hrun). apply require_ok in Ha.
  apply bind_ok in Hrun as (? & Hf & Hrun). apply require_ok in Hf. rewrite !andb_true_iff in Hf.
  apply bind_ok in Hrun as (? & _ & Hrun). apply bind_ok in Hrun as (? & _ & Hrun).
  apply bind_ok in Hrun as (found & Hs & Hrun). apply bind_ok in Hrun as (? & Hfd & Hrun).
  apply require_ok in Hfd. subst found. rewrite (proj2 (Z.ltb_lt 0 n)) in Hrun by done.
  apply bind_ok in Hrun as (? & Hle & Hrun). apply require_ok in Hle.
  apply bind_ok in Hrun as (w1 & Ht & Hrun). injection Hrun as <- <- <-.
  split_and!; try done; [lia| |lia]. destruct f as [fl fm ft]. cbn in Hf. unfold no_loan, default_key in *.
  f_equal; lia.
Qed.

(** C12: A loan is granted only to the configured caller, only while none is
    outstanding, and only in a transaction whose later instructions contain a repayment
    with no withdrawal of this program before it. *)
Theorem flash_window_closed cfg b f w p auth who pool later ra n t bump r :
  handle_flash_borrow ids vault_at cfg b f w p auth who pool later ra n t bump = Ok r ->
  auth = flash_authority cfg /\ f = no_loan /\
  exists pre repay post, later = pre ++ repay :: post /\ calls p FLASH_REPAY_DISC repay /\
    Forall (fun ix => ~ calls p WITHDRAW_DISC ix) pre.
Proof.
  intros Hrun. unfold handle_flash_borrow in Hrun.
  apply bind_ok in Hrun as (? & Ha & Hrun). apply require_ok in Ha.
  apply bind_ok in Hrun as (? & Hf & Hrun). apply require_ok in Hf. rewrite !andb_true_iff in Hf.
  apply bind_ok in Hrun as (? & _ & Hrun). apply bind_ok in Hrun as (? & _ & Hrun).
  apply bind_ok in Hrun as (found & Hs & Hrun). apply bind_ok in Hrun as (? & Hfd & _).
  apply require_ok in Hfd. subst found. apply scan_repay_spec in Hs as (pre & rp & post & -> & Hr & Hp).
  split; [lia|]. split.
  - destruct f as [fl fm ft]. cbn in Hf. unfold no_loan, default_key in *. f_equal; lia.
  - exists pre, rp, post. split_and!; try done. eapply Forall_impl; [exact Hp|]. by intros ? [].
Qed.

Lemma book_tip_frame b tip price a : ensures (book_tip b tip price a)
  (fun r => lamport_side r = lamport_side b).
Proof.
  unfold book_tip. destruct (0 <? tip); [|by apply ensures_ok]. apply ensures_skip. intros v. cbv zeta.
  destruct (0 <? _); [|by apply ensures_ok].
  eapply ensures_bind; [apply accrue_sol_frame|]. intros [b1 bk] Hb. cbn [fst] in Hb.
  destruct bk; cbn [negb]; [by apply ensures_ok|]. rewrite <- Hb. apply adjust_frame.
Qed.

(** What a successful SOL repayment did. *)
Lemma repay_sol_inv b f risk w who pool ra oracle tip tt bump slot b' f' r' w' :
  flash_token_amount f = 0 ->
  handle_flash_repay ids vault_at b f risk w who pool ra oracle tip tt bump slot = Ok (b', f', r', w') ->
  0 < flash_lamports f /\ sat u128 (flash_lamports f * FLASH_TIP_BPS) / 10000 <= tip /\
  sys_transfer w who pool (sat u64 (flash_lamports f + tip)) = Ok w' /\
  f' = f <| flash_lamports := 0 |> /\
  lamport_side b' =
    lamport_side (b <| sol_lamports := sat u64 (sol_lamports b + sat u64 (flash_lamports f + tip)) |>).
Proof.
  intros Hz Hrun. unfold handle_flash_repay in Hrun. rewrite Hz in Hrun. cbn [Z.ltb Z.compare] in Hrun.
  apply bind_ok in Hrun as (? & Hpos & Hrun). apply require_ok in Hpos.
  apply bind_ok in Hrun as (? & Htip & Hrun). apply require_ok in Htip.
  apply bind_ok in Hrun as (w1 & Ht & Hrun). apply bind_ok in Hrun as (price & _ & Hrun).
  apply bind_ok in Hrun as (a & _ & Hrun). apply bind_ok in Hrun as (restored & _ & Hrun).
  apply bind_ok in Hrun as (b1 & Hb & Hrun). injection Hrun as <- <- <- <-.
  apply book_tip_frame in Hb. rewrite Hb. split_and!; try done; lia.
Qed.

(** A SOL loan that is repaid leaves the pool richer by exactly the tip, in
    lamports and on the hot ledger, the loan record clear, and nothing else of the
    lamport side or the dollar side moved; the tip is at least five basis points of
    the loan. *)
Theorem flash_round_trip cfg b w p auth who pool later ra n t bump b1 f1 w1
    risk w2 payer ra' oracle tip tt bump' slot b2 f2 risk' w3 :
  0 < n -> 0 <= sol_lamports b -> sol_lamports b + tip <= imax u64 -> 0 <= tip ->
  who <> pool -> payer <> pool ->
  handle_flash_borrow ids vault_at cfg b no_loan w p auth who pool later ra n t bump = Ok (b1, f1, w1) ->
  lamports_of w2 pool = lamports_of w1 pool ->
  handle_flash_repay ids vault_at b1 f1 risk w2 payer pool ra' oracle tip tt bump' slot
    = Ok (b2, f2, risk', w3) ->
  f2 = no_loan /\ lamports_of w3 pool = lamports_of w pool + tip /\
  lamport_side b2 = lamport_side (b <| sol_lamports := sol_lamports b + tip |>) /\
  n * FLASH_TIP_BPS / 10000 <= tip.
Proof.
  intros Hn Hb Hmax Htip Hne1 Hne2 Hbor Hmid Hrep.
  apply borrow_sol_inv in Hbor as (_ & _ & _ & Hle & Ht1 & -> & ->); [|done].
  apply repay_sol_inv in Hrep as (_ & Hfee & Ht2 & -> & Hside); [|done].
  cbn in Hfee, Ht2, Hside |- *. unfold FLASH_TIP_BPS in *. rewrite sat_id in Hfee by (unfold_ints; lia).
  rewrite (sat_id u64 (n + tip)) in Ht2, Hside by (unfold_ints; lia).
  rewrite (sat_id u64 (sol_lamports b - n)), sat_id in Hside by (unfold_ints; lia).
  apply sys_moves in Ht1 as (_ & Hm1 & _). apply sys_moves in Ht2 as (_ & Hm2 & _).
  split_and!; try done.
  - rewrite Hm2, Hmid, Hm1. unfold moved. rewrite !Z.eqb_refl.
    rewrite (proj2 (Z.eqb_neq pool who)), (proj2 (Z.eqb_neq pool payer)) by done. lia.
  - rewrite Hside. by replace (sol_lamports b - n + (n + tip)) with (sol_lamports b + tip) by lia.
Qed.

(** A second loan is refused while one is outstanding, in either asset. *)
Lemma flash_exclusive cfg b f w p auth who pool later ra n t bump :
  f <> no_loan -> auth = flash_authority cfg ->
  handle_flash_borrow ids vault_at cfg b f w p auth who pool later ra n t bump = Err FlashLoanActive.
Proof.
  intros Hf ->. unfold handle_flash_borrow. rewrite Z.eqb_refl. cbn [require bind].
  destruct ((flash_lamports f =? 0) && (flash_token_mint f =? default_key)
            && (flash_token_amount f =? 0)) eqn:E; [|done].
  rewrite !andb_true_iff in E. exfalso. apply Hf.
  destruct f as [fl fm ft]. cbn in E. unfold no_loan, default_key in *. f_equal; lia.
Qed.
End FlashLaws.

(** ** A loan inside one transaction *)
Definition flash_cfg : ProgramConfig := sol_cfg <| flash_authority := 44 |>.
Definition flash_later : list Ix := [mkIx 8 [1; 2; 3]; mkIx 77 (FLASH_REPAY_DISC ++ [0])].
Definition no_vaults : Pubkey -> Z -> option Pubkey := fun _ _ => None.

Lemma flash_window_closed_witness : exists r,
  handle_flash_borrow sol_ids no_vaults flash_cfg sol_bank no_loan sol_world 77 44 9 500 flash_later []
    100000000000 0 0 = Ok r /\
  exists pre repay post, flash_later = pre ++ repay :: post /\ calls 77 FLASH_REPAY_DISC repay /\
    Forall (fun ix => ~ calls 77 WITHDRAW_DISC ix) pre.
Proof.
  destruct (handle_flash_borrow sol_ids no_vaults flash_cfg sol_bank no_loan sol_world 77 44 9 500
    flash_later [] 100000000000 0 0) as [r| |] eqn:E; [|vm_compute in E; discriminate E..].
  exists r. split; [reflexivity|].
  exact (proj2 (proj2 (flash_window_closed sol_ids no_vaults flash_cfg sol_bank no_loan sol_world 77 44
    9 500 flash_later [] 100000000000 0 0 r E))).
Defined.

Lemma flash_round_trip_witness : exists b1 f1 w1 b2 f2 r2 w3,
  handle_flash_borrow sol_ids no_vaults flash_cfg sol_bank no_loan sol_world 77 44 9 500 flash_later []
    100000000000 0 0 = Ok (b1, f1, w1) /\
  handle_flash_repay sol_ids no_vaults b1 f1 sol_risk w1 9 500 [] (Ok sol_price_now) 50000000 0 0 30000
    = Ok (b2, f2, r2, w3) /\
  f2 = no_loan /\ lamports_of w3 500 = 1000050000000 /\ sol_lamports b2 = 999050000000.
Proof.
  destruct (handle_flash_borrow sol_ids no_vaults flash_cfg sol_bank no_loan sol_world 77 44 9 500
    flash_later [] 100000000000 0 0) as [[[b1 f1] w1]| |] eqn:E1; [|vm_compute in E1; discriminate E1..].
  destruct (handle_flash_repay sol_ids no_vaults b1 f1 sol_risk w1 9 500 [] (Ok sol_price_now)
    50000000 0 0 30000) as [[[[b2 f2] r2] w3]| |] eqn:E2;
    [|vm_compute in E1; injection E1 as <- <- <-; vm_compute in E2; discriminate E2..].
  exists b1, f1, w1, b2, f2, r2, w3. split; [reflexivity|]. split; [exact E2|].
  destruct (flash_round_trip sol_ids no_vaults flash_cfg sol_bank sol_world 77 44 9 500 flash_later []
    100000000000 0 0 b1 f1 w1 sol_risk w1 9 [] (Ok sol_price_now) 50000000 0 0 30000 b2 f2 r2 w3
    ltac:(reflexivity) ltac:(vm_compute; discriminate) ltac:(vm_compute; discriminate)
    ltac:(discriminate) ltac:(discriminate) ltac:(discriminate) E1 eq_refl E2) as (Hf & Hl & Hs & _).
  clear E1 E2. split; [exact Hf|]. split; [exact Hl|].
  unfold lamport_side in Hs. injection Hs as Hs _ _ _ _ _ _. exact Hs.
Defined.
