(* ===== verification/Entra.v ===== *)
(** * Entra: deposits

    [handle_in] of [svm/programs/quid/src/entra.rs], both legs: native SOL, which
    grows the lamport book and may park the excess of the buffer, and tokens,
    which are credited to the pool or pledged to one position.  The symbol table
    is a parameter ([known]), the price an argument. *)
From stdpp Require Import gmap.
From S2P Require Import Prelude Actuary Pricing Learning Pool Position Renege Chain Vaults Oracle Config Sol.

(** The accounts of the context [Stockup], with the mint's decimals and the bump
    of the ticker account. *)
Record Stockup := mkStockup {
  s_signer : Pubkey;
  s_mint : Pubkey;
  s_decimals : Z;
  s_vault : Pubkey;
  s_quid : option Pubkey;
  s_sol_pool : option Pubkey;
  s_token_program : Pubkey;
  s_system_program : Pubkey;
  s_risk_bump : Z;
  s_rest : list Pubkey               (* remaining accounts past the price feed *)
}.

Section Deposit.
Variable ids : Ids.
Variable known : list Z -> bool.
Context {W : Type} `{Runtime W} `{Issuer W}.

(** A ticker account seen for the first time. *)
Definition fresh_risk (r : TickerRisk) (t : list Z) (risk_bump : Z) : TickerRisk :=
  r <| risk_ticker := pad_ticker t |> <| bump := risk_bump |>
    <| actuary := fresh_count (actuary r) |>.

Definition claim_owner (c : Depositor) (signer : Pubkey) : Depositor :=
  if owner c =? default_key then c <| owner := signer |> else c.

Definition deposit_native (c : Depositor) (b : Depository) (r : option TickerRisk)
    (cfg : ProgramConfig) (w : W) (x : Stockup) (sol_pool : Pubkey) (oracle : outcome Z)
    (amount : Z) (t : list Z) (now slot : Z)
  : outcome (Depositor * Depository * option TickerRisk * W) :=
  require (0 <? amount) InvalidAmount ;;
  risk <- ok_or r UnknownSymbol ;;
  require (bool_decide (t = SOL_TICKER)) UnknownSymbol ;;
  sol_price <- oracle ;;
  let risk := if bool_decide (risk_ticker risk = replicate 8 0)
              then fresh_risk risk SOL_TICKER (s_risk_bump x) else risk in
  util <- utilisation_bps b ;;
  a <- accrue_premium_index (actuary risk) now util ;;
  a <- update_price a (cast i64 sol_price) slot ;;
  let risk := risk <| actuary := a |> in
  let '(c, b, _) := settle_sol_yield c b in
  let b := b <| sol_lamports := sat u64 (sol_lamports b + amount) |> in
  let c := c <| deposited_lamports := sat u64 (deposited_lamports c + amount) |> in
  w <- sys_transfer w (s_signer x) sol_pool amount ;;
  sol_usd_floor <- collar_adjusted_usd amount sol_price a ;;
  let c := c <| sol_pledged_usd := sat u64 (sol_pledged_usd c + sol_usd_floor) |> in
  let b := b <| sol_usd_contrib := sat u64 (sol_usd_contrib b + sol_usd_floor) |> in
  legs <- from_remaining ids cfg sol_pool (s_token_program x) (s_system_program x) (s_rest x) ;;
  match legs with
  | Some l =>
      '(b, w, _) <- park_idle_sol ids b cfg l w (s_signer x) sol_price a now ;;
      Ok (c, b, Some risk, w)
  | None => Ok (c, b, Some risk, w)
  end.

Definition deposit_tokens (c : Depositor) (b : Depository) (r : option TickerRisk) (w : W)
    (x : Stockup) (amount : Z) (t : list Z) (now : Z)
  : outcome (Depositor * Depository * option TickerRisk * W) :=
  require (100000000 <=? amount) InvalidAmount ;;
  from <- ok_or (s_quid x) InvalidMint ;;
  w <- transfer_checked w from (s_mint x) (s_vault x) amount (s_decimals x) ;;
  credited <- to_accounting amount (s_decimals x) ;;
  require (0 <? credited) InvalidAmount ;;
  if bool_decide (t = []) then
    '(c, b) <- pool_deposit c b credited now ;;
    Ok (c, b, r, w)
  else
    '(c, b) <- accrue c b now ;;
    if negb (known t) then Err UnknownSymbol else
    let r := match r with
             | Some risk => Some (if last_price (actuary risk) =? 0
                                  then fresh_risk risk t (s_risk_bump x) else risk)
             | None => None
             end in
    '(c, _) <- renege c (Some t) (cast i64 credited) None now ;;
    Ok (c <| last_updated := now |>, b <| bank_last_updated := now |>, r, w).

Definition handle_in (c : Depositor) (b : Depository) (r : option TickerRisk)
    (cfg : ProgramConfig) (w : W) (x : Stockup) (oracle : outcome Z) (amount : Z) (t : list Z)
    (now slot : Z) : outcome (Depositor * Depository * option TickerRisk * W) :=
  require (is_approved_mint (s_mint x) (registered_mints cfg)) InvalidMint ;;
  let c := claim_owner c (s_signer x) in
  match s_sol_pool x with
  | Some sol_pool => deposit_native c b r cfg w x sol_pool oracle amount t now slot
  | None => deposit_tokens c b r w x amount t now
  end.
End Deposit.

(** * Theorems *)

(** Ageing an account changes its dollar-seconds only. *)
Lemma accrue_seconds_frame d b now : ensures (accrue_seconds d b now) (fun '(d', b') =>
  deposited_quid d' = deposited_quid d /\ deposited_lamports d' = deposited_lamports d /\
  balances d' = balances d /\ total_deposits b' = total_deposits b /\
  sol_lamports b' = sol_lamports b).
Proof. unfold accrue_seconds. repeat ensures_step. done. Qed.

Section DepositLaws.
Variable ids : Ids.
Variable known : list Z -> bool.
Context {W : Type} `{RuntimeLaws W} `{Issuer W}.

(** What a successful native deposit did. *)
Lemma deposit_native_inv c b r cfg w x pool oracle amount t now slot c' b' r' w' :
  deposit_native ids c b r cfg w x pool oracle amount t now slot = Ok (c', b', r', w') ->
  exists b1 w1, 0 < amount /\ sys_transfer w (s_signer x) pool amount = Ok w1 /\
    deposited_lamports c' = sat u64 (deposited_lamports c + amount) /\
    lamport_side b1 = lamport_side (b <| sol_lamports := sat u64 (sol_lamports b + amount) |>) /\
    yield_pool b1 = yield_pool b /\
    ((b' = b1 /\ w' = w1) \/ exists l price a n,
       from_remaining ids cfg pool (s_token_program x) (s_system_program x) (s_rest x) = Ok (Some l) /\
       park_idle_sol ids b1 cfg l w1 (s_signer x) price a now = Ok (b', w', n)).
Proof.
  intros Hrun. unfold deposit_native in Hrun.
  apply bind_ok in Hrun as (? & Hpos & Hrun). apply require_ok in Hpos.
  apply bind_ok in Hrun as (risk & _ & Hrun). apply bind_ok in Hrun as (? & _ & Hrun).
  apply bind_ok in Hrun as (price & _ & Hrun). cbv zeta in Hrun.
  apply bind_ok in Hrun as (u & _ & Hrun). apply bind_ok in Hrun as (a1 & _ & Hrun).
  apply bind_ok in Hrun as (a & _ & Hrun).
  pose proof (settle_sol_frame c b) as (Hside & Hdl & _).
  assert (yield_pool (settle_sol_yield c b).1.2 = yield_pool b) as Hy.
  { unfold settle_sol_yield. by repeat case_match. }
  destruct (settle_sol_yield c b) as [[c1 b1] owed]. cbn [fst snd] in *.
  apply bind_ok in Hrun as (w1 & Ht & Hrun). apply bind_ok in Hrun as (usd & _ & Hrun).
  apply bind_ok in Hrun as (legs & Hl & Hrun).
  unfold lamport_side in Hside. injection Hside as E1 E2 E3 E4 E5 E6 E7.
  eexists _, w1. split; [lia|]. split; [done|].
  destruct legs as [l|].
  - apply bind_ok in Hrun as ([[b2 w2] n] & Hp & Hrun). injection Hrun as <- <- <- <-.
    split; [cbn; by rewrite Hdl|]. split; [|split; [|right; exists l, price, a, n; by split]];
      unfold lamport_side; cbn; congruence.
  - injection Hrun as <- <- <- <-.
    split; [cbn; by rewrite Hdl|]. split; [|split; [|left; by split]];
      unfold lamport_side; cbn; congruence.
Qed.

(** A token deposit into the pool: only a registered mint is accepted; the
    vault receives exactly the tokens sent; account and pool are credited the same
    dollars, the tokens' value at six decimals whatever the mint's own; the lamport
    side is untouched. *)
Theorem token_deposit_credits c b r cfg w x oracle amount now slot c' b' r' w' :
  s_sol_pool x = None -> 0 <= amount <= imax u64 ->
  handle_in ids known c b r cfg w x oracle amount [] now slot = Ok (c', b', r', w') ->
  exists from v, s_quid x = Some from /\ s_mint x ∈ registered_mints cfg /\ 100000000 <= amount /\
    to_accounting amount (s_decimals x) = Ok v /\ 0 < v /\
    (forall k, token_balance w' k = token_balance w k + moved k from (s_vault x) amount) /\
    deposited_quid c' = sat u64 (deposited_quid c + v) /\
    total_deposits b' = sat u64 (total_deposits b + v) /\
    deposited_lamports c' = deposited_lamports c /\ sol_lamports b' = sol_lamports b /\
    balances c' = balances c /\ r' = r.
Proof.
  intros Hpool Ha Hrun. unfold handle_in in Hrun. rewrite Hpool in Hrun.
  apply bind_ok in Hrun as (? & Hm & Hrun). apply require_ok in Hm.
  apply bool_decide_eq_true in Hm. unfold deposit_tokens in Hrun.
  apply bind_ok in Hrun as (? & Hmin & Hrun). apply require_ok in Hmin.
  apply bind_ok in Hrun as (from & Hfrom & Hrun). destruct (s_quid x) as [k|]; [|done].
  injection Hfrom as ->. apply bind_ok in Hrun as (w1 & Ht & Hrun).
  apply bind_ok in Hrun as (v & Hv & Hrun). apply bind_ok in Hrun as (? & Hpos & Hrun).
  apply require_ok in Hpos. cbn in Hrun. apply bind_ok in Hrun as ([c1 b1] & Hp & Hrun).
  injection Hrun as <- <- <- <-. apply transfer_moves in Ht as (_ & Hb & _).
  unfold pool_deposit in Hp. apply bind_ok in Hp as ([c2 b2] & Hs & Hp).
  apply accrue_seconds_frame in Hs as (E1 & E2 & E3 & E4 & E5). injection Hp as <- <-.
  exists from, v. cbn. rewrite E1, E2, E3, E4, E5. unfold claim_owner.
  split_and!; try done; try lia; by destruct (owner c =? default_key).
Qed.

(** Collateral cannot be added to an open position: a token deposit naming a
    ticker the account is exposed to fails with [NoPrice], whatever the amount,
    because the deposit passes no price to the collateral adjustment. *)
Theorem deposit_to_open_position_reverts c b r cfg w x oracle amount t now slot i p from v w1 c1 b1 :
  s_sol_pool x = None -> is_approved_mint (s_mint x) (registered_mints cfg) = true ->
  100000000 <= amount -> s_quid x = Some from ->
  transfer_checked w from (s_mint x) (s_vault x) amount (s_decimals x) = Ok w1 ->
  to_accounting amount (s_decimals x) = Ok v -> 0 < v -> t <> [] -> known t = true ->
  accrue (claim_owner c (s_signer x)) b now = Ok (c1, b1) ->
  find_pod (balances c) (pad_ticker t) = Some (i, p) -> exposure p <> 0 ->
  handle_in ids known c b r cfg w x oracle amount t now slot = Err NoPrice.
Proof.
  intros Hpool Hm Hmin Hq Ht Hv Hpos Hne Hk Hacc Hfind Hexp.
  assert (balances c1 = balances c) as Hbal.
  { unfold accrue in Hacc. apply bind_ok in Hacc as ([c2 b2] & Hs & Hacc).
    apply accrue_seconds_frame in Hs as (_ & _ & Hb & _). injection Hacc as <- <-.
    cbn. rewrite Hb. unfold claim_owner. by destruct (_ =? _). }
  unfold handle_in. rewrite Hm, Hpool. cbn [require bind]. unfold deposit_tokens.
  rewrite (proj2 (Z.leb_le _ _) Hmin), Hq. cbn [require bind ok_or]. rewrite Ht. cbn [bind].
  rewrite Hv. cbn [bind]. rewrite (proj2 (Z.ltb_lt _ _) Hpos). cbn [require bind].
  rewrite bool_decide_false by done. rewrite Hacc. cbn [bind]. rewrite Hk. cbn [negb].
  unfold renege, renege_one. rewrite Hbal, Hfind. unfold adjust_pod.
  rewrite (proj2 (Z.eqb_neq _ _) Hexp). done.
Qed.
End DepositLaws.

(** ** Deposits on a concrete pool *)
Definition deposit_world : Ledger :=
  mkLedger {[10 := (7, 600000000000); 20 := (7, 900000000000)]} {[7 := 9]} ∅.
Definition deposit_ctx : Stockup := mkStockup 9 7 9 10 (Some 20) None 1001 1004 255 [].

Lemma token_deposit_credits_witness : exists c' b' w',
  handle_in sol_ids (fun _ => true) depositor_default sol_bank None sol_cfg deposit_world deposit_ctx
    (Err NoPrice) 250000000123 [] 1000 30000 = Ok (c', b', None, w') /\
  deposited_quid c' = 250000000 /\ total_deposits b' = 5250000000.
Proof.
  destruct (handle_in sol_ids (fun _ => true) depositor_default sol_bank None sol_cfg deposit_world
    deposit_ctx (Err NoPrice) 250000000123 [] 1000 30000) as [[[[c' b'] r'] w']| |] eqn:E;
    [|vm_compute in E; discriminate E..].
  destruct (token_deposit_credits sol_ids (fun _ => true) depositor_default sol_bank None sol_cfg
    deposit_world deposit_ctx (Err NoPrice) 250000000123 1000 30000 c' b' r' w' eq_refl
    ltac:(vm_compute; split; discriminate) E)
    as (from & v & _ & _ & _ & Hv & _ & _ & Hq & Ht & _ & _ & _ & ->). clear E.
  vm_compute in Hv. injection Hv as <-.
  exists c', b', w'. split; [reflexivity|]. split; [exact Hq|exact Ht].
Defined.

Definition open_holder : Depositor :=
  depositor_default <| owner := 9 |>
    <| balances := [(new_pod (pad_ticker [65]) 200000000 0) <| exposure := 3000000 |>] |>.

Lemma deposit_to_open_position_reverts_witness :
  handle_in sol_ids (fun _ => true) open_holder sol_bank None sol_cfg deposit_world deposit_ctx
    (Err NoPrice) 250000000123 [65] 1000 30000 = Err NoPrice.
Proof.
  eapply (deposit_to_open_position_reverts sol_ids (fun _ => true) open_holder sol_bank None sol_cfg
    deposit_world deposit_ctx (Err NoPrice) 250000000123 [65] 1000 30000).
  - reflexivity.
  - vm_compute; reflexivity.
  - lia.
  - reflexivity.
  - vm_compute; reflexivity.
  - vm_compute; reflexivity.
  - lia.
  - discriminate.
  - reflexivity.
  - vm_compute; reflexivity.
  - vm_compute; reflexivity.
  - vm_compute; discriminate.
Defined.
