(* ===== verification/Shares.v ===== *)
(** * Shares: the dollar ledger under the live handlers

    The invariant the pool's comments promise ("what remains still sums"),
    checked on the code that runs: [handle_in] of
    [svm/programs/quid/src/entra.rs], both legs, and [handle_out] of
    [svm/programs/quid/src/clutch.rs] on its dollar and its collateral branch,
    over any number of accounts.  Balances sum to [total_deposits]; the
    dollar-seconds of the accounts sum to [total_deposit_seconds] up to two
    quantities the model keeps track of: the intervals a dollar withdrawal counts
    twice, and the intervals a collateral withdrawal drops. *)
From stdpp Require Import gmap.
From S2P Require Import Prelude Actuary Pricing Learning Pool Position Renege Clutch Chain Vaults Oracle Config Sol Entra.

(** The pool, its accounts and the two tallies.  The tallies are not in the code:
    they say by how much the code's two sums may differ. *)
Record DollarState := mkDollars {
  d_bank : Depository;
  d_accounts : list Depositor;
  counted_twice : Z;
  dropped : Z
}.

(** The dollar-seconds an account earned since it was last touched. *)
Definition untouched (d : Depositor) (now : Z) : Z := deposited_quid d * (now - last_updated d).

Section Steps.
Variable ids : Ids.
Variable known : list Z -> bool.
Context {W : Type} `{Runtime W} `{Issuer W}.

Inductive DollarStep : DollarState -> DollarState -> Prop :=
| DollarOpen b ds tw dr o :
    DollarStep (mkDollars b ds tw dr) (mkDollars b (ds ++ [fresh_account o]) tw dr)
| DollarIn b ds tw dr i d r cfg w x oracle amount t now slot d' b' r' w' :
    ds !! i = Some d -> bank_last_updated b <= now <= imax i64 ->
    handle_in ids known d b r cfg w x oracle amount t now slot = Ok (d', b', r', w') ->
    total_deposits b' < imax u64 ->
    DollarStep (mkDollars b ds tw dr) (mkDollars b' (<[i:=d']> ds) tw dr)
| DollarOut b ds tw dr i d r amount signer now slot exposed oracle prices d' b' r' paid :
    ds !! i = Some d -> bank_last_updated b <= now <= imax i64 ->
    handle_out d b r [] amount signer now slot exposed oracle prices = Ok (d', b', r', paid) ->
    DollarStep (mkDollars b ds tw dr) (mkDollars b' (<[i:=d']> ds) (tw + untouched d now) dr)
| CollateralOut b ds tw dr i d r t amount signer now slot oracle prices d' b' r' paid :
    ds !! i = Some d -> bank_last_updated b <= now <= imax i64 -> t <> [] ->
    handle_out d b r t amount signer now slot false oracle prices = Ok (d', b', r', paid) ->
    DollarStep (mkDollars b ds tw dr) (mkDollars b' (<[i:=d']> ds) tw (dr + untouched d now)).
End Steps.

(** * Theorems *)

Record dollar_inv (s : DollarState) : Prop := {
  dinv_clock : 0 <= bank_last_updated (d_bank s) <= imax i64;
  dinv_total : 0 <= total_deposits (d_bank s) <= imax u64;
  dinv_account : forall d, d ∈ d_accounts s ->
    0 <= deposited_quid d /\ 0 <= deposit_seconds d <= 2 * imax u64 * last_updated d /\
    0 <= last_updated d <= bank_last_updated (d_bank s);
  dinv_balance : sumZ deposited_quid (d_accounts s) = total_deposits (d_bank s);
  dinv_seconds : 0 <= total_deposit_seconds (d_bank s)
    <= imax u64 * bank_last_updated (d_bank s);
  dinv_twice : sumZ (tenure (d_bank s)) (d_accounts s)
    <= total_deposit_seconds (d_bank s) + counted_twice s;
  dinv_dropped : total_deposit_seconds (d_bank s)
    <= sumZ (tenure (d_bank s)) (d_accounts s) + dropped s;
  dinv_tallies : 0 <= counted_twice s /\ 0 <= dropped s
}.

Lemma dollar_bounds s i d : dollar_inv s -> d_accounts s !! i = Some d ->
  0 <= deposited_quid d <= total_deposits (d_bank s) /\
  0 <= deposit_seconds d <= 2 * imax u64 * last_updated d /\
  0 <= last_updated d <= bank_last_updated (d_bank s).
Proof.
  intros [_ _ Ha Hb _ _ _ _] Hi.
  destruct (Ha d) as (? & ? & ?); [by eapply list_elem_of_lookup_2|].
  rewrite <- Hb. split_and!; try lia. apply (sumZ_elem _ _ i); [|done]. intros a Hin. by apply Ha.
Qed.

(** What one operation on account [d] must satisfy: [moved] is the change of the
    sum of tenures, of which the pool's counter may miss the growth of one tally
    and exceed it by the growth of the other. *)
Lemma dollar_inv_update b ds tw dr i d d' b' tw' dr' (moved : Z) :
  dollar_inv (mkDollars b ds tw dr) -> ds !! i = Some d ->
  bank_last_updated b <= bank_last_updated b' <= imax i64 ->
  0 <= deposited_quid d' -> 0 <= deposit_seconds d' <= 2 * imax u64 * last_updated d' ->
  0 <= last_updated d' <= bank_last_updated b' ->
  total_deposits b' = total_deposits b + (deposited_quid d' - deposited_quid d) ->
  total_deposits b' <= imax u64 ->
  moved = (total_deposits b - deposited_quid d) * (bank_last_updated b' - bank_last_updated b)
          + (tenure b' d' - tenure b d) ->
  0 <= total_deposit_seconds b' <= imax u64 * bank_last_updated b' ->
  total_deposit_seconds b + moved <= total_deposit_seconds b' + (tw' - tw) ->
  total_deposit_seconds b' <= Z.max 0 (total_deposit_seconds b + moved + (dr' - dr)) ->
  tw <= tw' -> dr <= dr' ->
  dollar_inv (mkDollars b' (<[i:=d']> ds) tw' dr').
Proof.
  intros Hinv Hi Hc Hq Hs Hl Ht Htm Hmv Hsec Hup Hlo Htw Hdr.
  pose proof (dollar_bounds _ _ _ Hinv Hi) as (Hqb & _ & _).
  destruct Hinv as [Hc0 Ht0 Ha0 Hb0 Hs0 Hu0 Hl0 [H1 H2]].
  cbn [d_bank d_accounts counted_twice dropped] in *.
  assert (Hacc : forall a, a ∈ <[i:=d']> ds ->
    0 <= deposited_quid a /\ 0 <= deposit_seconds a <= 2 * imax u64 * last_updated a /\
    0 <= last_updated a <= bank_last_updated b').
  { intros a Ha. apply list_elem_of_lookup in Ha as [j Hj].
    destruct (decide (i = j)) as [<-|Hne].
    - rewrite list_lookup_insert_eq in Hj by (by eapply lookup_lt_Some). by simplify_eq.
    - rewrite list_lookup_insert_ne in Hj by done.
      destruct (Ha0 a) as (? & ? & ?); [by eapply list_elem_of_lookup_2|]. lia. }
  assert (Hsum : sumZ (tenure b') (<[i:=d']> ds) = sumZ (tenure b) ds + moved).
  { rewrite (sumZ_insert _ _ _ d) by done. rewrite (tenure_advance b), Hb0, Hmv.
    unfold tenure. lia. }
  constructor; cbn [d_bank d_accounts counted_twice dropped]; try done; try lia.
  - rewrite (sumZ_insert _ _ _ d) by done. lia.
  - enough (0 <= sumZ (tenure b') (<[i:=d']> ds)) by lia.
    apply sumZ_nonneg. intros a (? & ? & ?)%Hacc. unfold tenure. nia.
Qed.

(** ** Ageing *)
Section Ageing.
Context (b : Depository) (d : Depositor) (now : Z).
Hypothesis Hq : 0 <= deposited_quid d <= total_deposits b.
Hypothesis Ht : 0 <= total_deposits b <= imax u64.
Hypothesis Hd : 0 <= deposit_seconds d <= 2 * imax u64 * last_updated d.
Hypothesis Hl : 0 <= last_updated d <= bank_last_updated b.
Hypothesis Hs : 0 <= total_deposit_seconds b <= imax u64 * bank_last_updated b.
Hypothesis Hn : bank_last_updated b <= now <= imax i64.

Lemma accrue_seconds_run : accrue_seconds d b now =
  Ok (d <| deposit_seconds := deposit_seconds d + untouched d now |>,
      b <| total_deposit_seconds := total_deposit_seconds b
             + total_deposits b * (now - bank_last_updated b) |>).
Proof.
  unfold accrue_seconds, untouched. rewrite !cast_elapsed by lia. unfold_ints.
  rewrite eval_safe by (arith_side; nia). cbn [bind value aop_fun].
  rewrite eval_safe by (arith_side; nia). cbn [bind value aop_fun].
  rewrite !sat_u128_le by (unfold_ints; nia). done.
Qed.

Lemma age_bank : age (total_deposit_seconds b) (total_deposits b) (bank_last_updated b) now =
  Ok (total_deposit_seconds b + total_deposits b * (now - bank_last_updated b)).
Proof. apply age_eq; try lia. unfold_ints. nia. Qed.

Lemma age_account : age (deposit_seconds d) (deposited_quid d) (last_updated d) now =
  Ok (deposit_seconds d + untouched d now).
Proof. unfold untouched. apply age_eq; try lia. unfold_ints. nia. Qed.
End Ageing.

(** ** What the handlers do to the dollar ledger *)

(** The fields of the ledger, of an account and of the pool. *)
Definition account_view (d : Depositor) : Z * Z * Z :=
  (deposited_quid d, deposit_seconds d, last_updated d).
Definition pool_view (b : Depository) : Z * Z * Z :=
  (total_deposits b, total_deposit_seconds b, bank_last_updated b).

(** The collateral adjustment touches the clock of the account at most. *)
Lemma renege_view d tk amount prices now : ensures (renege d tk amount prices now)
  (fun r => deposited_quid r.1 = deposited_quid d /\ deposit_seconds r.1 = deposit_seconds d /\
     (last_updated r.1 = last_updated d \/ last_updated r.1 = now) /\
     (tk = None -> last_updated r.1 = last_updated d)).
Proof.
  destruct tk as [t|]; cbn [renege].
  - unfold renege_one. repeat ensures_step; cbn; split_and!; auto; done.
  - unfold renege_all. repeat ensures_step; cbn; auto.
Qed.

Lemma adjust_credit_view b s : ensures (adjust_sol_credit b s) (fun r => pool_view r = pool_view b).
Proof. unfold adjust_sol_credit. repeat ensures_step; done. Qed.

Lemma settle_sol_view c b : account_view (settle_sol_yield c b).1.1 = account_view c /\
  pool_view (settle_sol_yield c b).1.2 = pool_view b.
Proof. unfold settle_sol_yield. repeat case_match; done. Qed.

Section Native.
Variable ids : Ids.
Variable known : list Z -> bool.
Context {W : Type} `{Runtime W} `{Issuer W}.

Lemma park_view b cfg l w payer price a now : ensures (park_idle_sol ids b cfg l w payer price a now)
  (fun r => pool_view r.1.1 = pool_view b).
Proof.
  unfold park_idle_sol. apply ensures_skip; intros _. cbv zeta.
  repeat (case_match; [by apply ensures_ok|]).
  apply ensures_skip; intros [w1 n1]. apply ensures_skip; intros usd. apply ensures_skip; intros n.
  eapply ensures_bind; [apply adjust_credit_view|]. intros b' Hb. apply ensures_ok. cbn in *. done.
Qed.

(** A native deposit leaves the dollar ledger alone; a token deposit without a
    ticker is [pool_deposit]; one with a ticker ages the account and the pool. *)
Lemma handle_in_view d b r cfg w x oracle amount t now slot d' b' r' w' :
  handle_in ids known d b r cfg w x oracle amount t now slot = Ok (d', b', r', w') ->
  let c := claim_owner d (s_signer x) in
  (account_view d' = account_view c /\ pool_view b' = pool_view b) \/
  (exists v, 0 < v /\ pool_deposit c b v now = Ok (d', b')) \/
  (exists d1 b1, accrue c b now = Ok (d1, b1) /\
     account_view d' = account_view d1 /\ pool_view b' = pool_view b1).
Proof.
  intros Hrun c. unfold handle_in in Hrun. apply bind_ok in Hrun as (_ & _ & Hrun). fold c in Hrun.
  destruct (s_sol_pool x) as [pool|].
  - left. unfold deposit_native in Hrun. do 7 apply bind_ok in Hrun as (? & _ & Hrun).
    pose proof (settle_sol_view c b) as [Hc Hb].
    destruct (settle_sol_yield c b) as [[c1 b1] owed]. cbn [fst snd] in *.
    do 3 apply bind_ok in Hrun as (? & _ & Hrun). case_match.
    + apply bind_ok in Hrun as ([[b2 w2] n] & Hp & Hrun). injection Hrun as <- <- <- <-.
      apply park_view in Hp. cbn in Hp. split; [exact Hc|]. rewrite Hp. exact Hb.
    + injection Hrun as <- <- <- <-. split; [exact Hc|exact Hb].
  - right. unfold deposit_tokens in Hrun. do 4 apply bind_ok in Hrun as (? & _ & Hrun).
    apply bind_ok in Hrun as (? & Hv & Hrun). apply require_ok in Hv. case_match.
    + left. apply bind_ok in Hrun as ([c1 b1] & Hp & Hrun). injection Hrun as <- <- <- <-.
      eexists. split; [|exact Hp]. lia.
    + right. apply bind_ok in Hrun as ([c1 b1] & Ha & Hrun). exists c1, b1. split; [done|].
      case_match; [done|]. apply bind_ok in Hrun as ([c2 rest] & Hr & Hrun).
      apply renege_view in Hr as (E1 & E2 & _). injection Hrun as <- <- <- <-.
      unfold accrue in Ha. apply bind_ok in Ha as ([c3 b3] & _ & Ha). injection Ha as <- <-.
      cbn in *. unfold account_view, pool_view. cbn. by rewrite E1, E2.
Qed.
End Native.

Lemma triple_eq (a b c a' b' c' : Z) : a = a' -> b = b' -> c = c' -> (a, b, c) = (a', b', c').
Proof. by intros -> -> ->. Qed.

(** A dollar payment out of a pool already aged to [now]: principal leaves the
    account and the pool together; the tenure kept is taken out of one that
    counts the last interval once or twice, and what is forfeited leaves the
    pool's counter as far as that reaches. *)
Lemma pay_view d b asked now d' b' v :
  0 <= deposited_quid d <= total_deposits b -> total_deposits b <= imax u64 ->
  0 <= deposit_seconds d <= 2 * imax u64 * last_updated d ->
  0 <= last_updated d <= bank_last_updated b -> bank_last_updated b = now -> now <= imax i64 ->
  0 <= total_deposit_seconds b <= imax u64 * now -> 0 <= asked ->
  pay_from_pool d b asked now = Ok (d', b', v) ->
  exists p kept twice, 0 <= p <= deposited_quid d /\ 0 <= twice <= untouched d now /\
    0 <= kept <= deposit_seconds d + untouched d now + twice /\
    account_view d' = (deposited_quid d - p, kept, now) /\
    pool_view b' = (total_deposits b - p,
      Z.max 0 (total_deposit_seconds b - (deposit_seconds d + untouched d now + twice - kept)), now).
Proof.
  intros Hq Ht Hd Hl Hc Hn Hs Ha Hrun. assert (Hu : 0 <= untouched d now) by (unfold untouched; nia).
  unfold pay_from_pool in Hrun. rewrite (age_account b) in Hrun by (rewrite ?Hc; lia).
  cbn [bind] in Hrun. cbv zeta in Hrun.
  apply bind_ok in Hrun as ([mv sum] & Hp & Hrun).
  assert (Hv : 0 <= sum).
  { unfold payable in Hp. apply bind_ok in Hp as (e & _ & Hp). injection Hp as _ <-. cbn.
    pose proof (sat_in_range u64 (deposited_quid d + e) ltac:(done)).
    case_match; [|unfold_ints; lia].
    match goal with |- context [sat u128 ?z / ?w] =>
      assert (0 <= sat u128 z / w) by (apply Z.div_pos; [apply (sat_in_range u128 z ltac:(done)) | lia]) end.
    unfold_ints. lia. }
  apply bind_ok in Hrun as (t & Htot & Hrun). apply eval_inv in Htot as [-> _].
  apply bind_ok in Hrun as ([c1 b1] & Hadj & Hrun). apply bind_ok in Hrun as (dq & Hdq & Hrun).
  apply eval_inv in Hdq as [-> _]. injection Hrun as <- <- <-. cbn [value aop_fun] in *.
  unfold adjust_deposit_seconds in Hadj.
  cbn [deposited_quid deposit_seconds last_updated modify] in Hadj.
  destruct ((deposited_quid d =? 0) || (sum =? 0)) eqn:E.
  - injection Hadj as <- <-. exists (Z.min sum (deposited_quid d)), (deposit_seconds d + untouched d now), 0.
    unfold account_view, pool_view. cbn. split_and!; try lia; apply triple_eq; lia.
  - apply orb_false_iff in E as [E1 E2]. apply Z.eqb_neq in E1, E2.
    rewrite eval_safe in Hadj by (unfold_ints; arith_side). cbn [bind value aop_fun] in Hadj.
    rewrite (Z.max_l (now - _)), (Z.mul_comm (now - _)) in Hadj by lia. fold (untouched d now) in Hadj.
    assert (Hub : untouched d now <= imax u64 * (now - last_updated d)) by (unfold untouched; nia).
    rewrite (sat_u128_le (untouched d now)) in Hadj by (unfold_ints; nia).
    rewrite (sat_u128_le (_ + _)) in Hadj by (unfold_ints; nia).
    assert (Hrem : 0 <= sat u64 (deposited_quid d - sum) <= deposited_quid d)
      by (unfold sat, u64; cbn [imin imax]; unfold_ints; lia).
    set (before := deposit_seconds d + untouched d now + untouched d now) in *.
    set (kept := if in_rangeb u128 _ then _ else _) in Hadj.
    assert (Hk : 0 <= kept <= before) by (apply kept_seconds; unfold before; lia).
    injection Hadj as <- <-. exists (Z.min sum (deposited_quid d)), kept, (untouched d now).
    unfold account_view, pool_view. cbn. split_and!; try (unfold before in *; lia).
    + apply triple_eq; lia.
    + rewrite (sat_u128_le (before - kept)) by (unfold before in *; unfold_ints; nia).
      apply triple_eq; try lia. unfold sat, u128. cbn [imin imax]. unfold before in *.
      unfold_ints. nia.
Qed.

(** ** The steps keep the invariant *)
Lemma open_dollars b ds tw dr o : dollar_inv (mkDollars b ds tw dr) ->
  dollar_inv (mkDollars b (ds ++ [fresh_account o]) tw dr).
Proof.
  intros [Hc Ht Ha Hb Hs Hu Hl Htl]. cbn [d_bank d_accounts counted_twice dropped] in *.
  constructor; cbn [d_bank d_accounts counted_twice dropped]; try done.
  - intros d [Hd|Hd%list_elem_of_singleton]%elem_of_app; [by apply Ha|].
    subst. unfold fresh_account. cbn. lia.
  - rewrite sumZ_app. cbn. lia.
  - rewrite sumZ_app. unfold tenure at 2. cbn. lia.
  - rewrite sumZ_app. unfold tenure at 2. cbn. lia.
Qed.

(** A step given by its views. *)
Lemma dollar_inv_view b ds tw dr i d d' b' tw' dr' q s l T S L :
  dollar_inv (mkDollars b ds tw dr) -> ds !! i = Some d ->
  account_view d' = (q, s, l) -> pool_view b' = (T, S, L) ->
  bank_last_updated b <= L <= imax i64 -> 0 <= q -> 0 <= s <= 2 * imax u64 * l -> 0 <= l <= L ->
  T = total_deposits b + (q - deposited_quid d) -> T <= imax u64 -> 0 <= S <= imax u64 * L ->
  let moved := (total_deposits b - deposited_quid d) * (L - bank_last_updated b)
    + (s + q * (L - l) - (deposit_seconds d + untouched d (bank_last_updated b))) in
  total_deposit_seconds b + moved <= S + (tw' - tw) ->
  S <= Z.max 0 (total_deposit_seconds b + moved + (dr' - dr)) ->
  tw <= tw' -> dr <= dr' -> dollar_inv (mkDollars b' (<[i:=d']> ds) tw' dr').
Proof.
  intros Hinv Hi Hd Hb. unfold account_view in Hd. unfold pool_view in Hb.
  injection Hd as <- <- <-. injection Hb as <- <- <-. intros.
  eapply (dollar_inv_update b ds tw dr i d); eauto.
Qed.

Lemma claim_view d o : account_view (claim_owner d o) = account_view d.
Proof. unfold claim_owner. by case_match. Qed.

Section Preservation.
Variable ids : Ids.
Variable known : list Z -> bool.
Context {W : Type} `{Runtime W} `{Issuer W}.
Context (b : Depository) (ds : list Depositor) (tw dr : Z) (i : nat) (d : Depositor) (now : Z).
Hypothesis Hinv : dollar_inv (mkDollars b ds tw dr).
Hypothesis Hi : ds !! i = Some d.
Hypothesis Hn : bank_last_updated b <= now <= imax i64.

Lemma in_dollars r cfg w x oracle amount t slot d' b' r' w' :
  handle_in ids known d b r cfg w x oracle amount t now slot = Ok (d', b', r', w') ->
  total_deposits b' < imax u64 -> dollar_inv (mkDollars b' (<[i:=d']> ds) tw dr).
Proof.
  intros Hrun Hcap. pose proof (dollar_bounds _ _ _ Hinv Hi) as (Hq & Hs & Hl). cbn [d_bank] in *.
  pose proof Hinv as [Hc Ht _ _ Hsec _ _ _]. cbn [d_bank] in *.
  pose proof (claim_view d (s_signer x)) as Hcv. unfold account_view in Hcv. injection Hcv as E1 E2 E3.
  assert (Hrunv : forall c, deposited_quid c = deposited_quid d -> deposit_seconds c = deposit_seconds d ->
    last_updated c = last_updated d -> accrue_seconds c b now =
      Ok (c <| deposit_seconds := deposit_seconds d + untouched d now |>,
          b <| total_deposit_seconds := total_deposit_seconds b
             + total_deposits b * (now - bank_last_updated b) |>)).
  { intros c F1 F2 F3. rewrite accrue_seconds_run by (rewrite ?F1, ?F2, ?F3; lia).
    unfold untouched. by rewrite F1, F2, F3. }
  apply handle_in_view in Hrun as [[Hd Hb]|[(v & Hv & Hp)|(d1 & b1 & Ha & Hd & Hb)]].
  - rewrite claim_view in Hd. unfold account_view in Hd at 2. unfold pool_view in Hb at 2.
    eapply (dollar_inv_view b ds tw dr i d); try done; unfold untouched; try lia.
  - unfold pool_deposit in Hp. rewrite Hrunv in Hp by done. cbn [bind] in Hp. injection Hp as <- <-.
    cbn in Hcap. rewrite E1. assert (Hsat : total_deposits b + v < imax u64).
    { revert Hcap. unfold sat, u64. cbn [imin imax]. unfold_ints. lia. }
    eapply (dollar_inv_view b ds tw dr i d); [done|done|reflexivity|reflexivity|..]; cbn;
      rewrite ?sat_id by (unfold_ints; lia); unfold untouched; unfold_ints; nia.
  - unfold accrue in Ha. rewrite Hrunv in Ha by done. cbn [bind] in Ha. injection Ha as <- <-.
    unfold account_view in Hd at 2. unfold pool_view in Hb at 2. cbn in Hd, Hb. rewrite E1 in Hd.
    eapply (dollar_inv_view b ds tw dr i d); try done; unfold untouched; unfold_ints; nia.
Qed.

(** Both branches of [handle_out] start by ageing the pool. *)
Definition aged_pool : Depository :=
  b <| total_deposit_seconds := total_deposit_seconds b + total_deposits b * (now - bank_last_updated b) |>
    <| bank_last_updated := now |>.

Lemma out_dollars r amount signer slot exposed oracle prices d' b' r' paid :
  handle_out d b r [] amount signer now slot exposed oracle prices = Ok (d', b', r', paid) ->
  dollar_inv (mkDollars b' (<[i:=d']> ds) (tw + untouched d now) dr).
Proof.
  intros Hrun. pose proof (dollar_bounds _ _ _ Hinv Hi) as (Hq & Hs & Hl). cbn [d_bank] in *.
  pose proof Hinv as [Hc Ht _ _ Hsec _ _ _]. cbn [d_bank] in *.
  assert (Hu : 0 <= untouched d now) by (unfold untouched; nia).
  unfold handle_out in Hrun. do 2 apply bind_ok in Hrun as (? & _ & Hrun).
  rewrite (age_bank b d) in Hrun by lia. cbn [bind] in Hrun. cbv zeta in Hrun. fold aged_pool in Hrun.
  rewrite bool_decide_true in Hrun by done.
  apply bind_ok in Hrun as ([[c1 b1] amt] & Hw & Hrun). injection Hrun as <- <- <- <-.
  unfold withdraw_dollars in Hw. apply bind_ok in Hw as (? & _ & Hw).
  apply bind_ok in Hw as ([[c2 rest] amt1] & Hcoll & Hw).
  assert (Hv : account_view c2 = account_view d).
  { destruct exposed; [|by injection Hcoll as <- <- <-].
    do 2 apply bind_ok in Hcoll as (? & _ & Hcoll).
    apply bind_ok in Hcoll as ([c3 rest'] & Hr & Hcoll).
    apply renege_view in Hr as (F1 & F2 & _ & F3). apply bind_ok in Hcoll as (? & _ & Hcoll).
    injection Hcoll as <- <- <-. cbn in *. unfold account_view. by rewrite F1, F2, F3. }
  unfold account_view in Hv. injection Hv as E1 E2 E3.
  apply bind_ok in Hw as (asked & _ & Hw). destruct (Z.ltb_spec 0 asked).
  - apply bind_ok in Hw as ([[c4 b4] v] & Hp & Hw). apply bind_ok in Hw as (? & _ & Hw).
    injection Hw as <- <- <-.
    eapply pay_view in Hp as (p & kept & twice & Hp & Htw & Hk & Hd & Hb);
      try (unfold aged_pool; cbn; rewrite ?E1, ?E2, ?E3; first [lia | unfold_ints; nia]).
    unfold untouched in Htw, Hk, Hb. rewrite E1, E3 in *. rewrite E2 in *. fold (untouched d now) in *.
    cbn in Hb. eapply (dollar_inv_view b ds tw dr i d); [done|done|exact Hd|exact Hb|..];
      unfold untouched in *; unfold_ints; nia.
  - injection Hw as <- <- <-.
    eapply (dollar_inv_view b ds tw dr i d); [done|done|reflexivity|reflexivity|..]; cbn;
      rewrite ?E1, ?E2, ?E3; unfold untouched in *; unfold_ints; nia.
Qed.

Lemma collateral_dollars r t amount signer slot oracle prices d' b' r' paid : t <> [] ->
  handle_out d b r t amount signer now slot false oracle prices = Ok (d', b', r', paid) ->
  dollar_inv (mkDollars b' (<[i:=d']> ds) tw (dr + untouched d now)).
Proof.
  intros Hne Hrun. pose proof (dollar_bounds _ _ _ Hinv Hi) as (Hq & Hs & Hl). cbn [d_bank] in *.
  pose proof Hinv as [Hc Ht _ _ Hsec _ _ _]. cbn [d_bank] in *.
  assert (Hu : 0 <= untouched d now) by (unfold untouched; nia).
  unfold handle_out in Hrun. do 2 apply bind_ok in Hrun as (? & _ & Hrun).
  rewrite (age_bank b d) in Hrun by lia. cbn [bind] in Hrun. cbv zeta in Hrun. fold aged_pool in Hrun.
  rewrite bool_decide_false in Hrun by done. cbn [negb] in Hrun.
  apply bind_ok in Hrun as ([c1 amt] & Hw & Hrun). injection Hrun as <- <- <- <-.
  unfold withdraw_collateral in Hw. do 2 apply bind_ok in Hw as (? & _ & Hw).
  apply bind_ok in Hw as ([c2 rest] & Hr & Hw). apply bind_ok in Hw as (? & _ & Hw).
  injection Hw as <- <-. apply renege_view in Hr as (F1 & F2 & F3 & _). cbn in F1, F2, F3.
  eapply (dollar_inv_view b ds tw dr i d); [done|done|reflexivity|reflexivity|..]; cbn;
    rewrite ?F1, ?F2; destruct F3 as [F3|F3]; rewrite ?F3; unfold untouched in *; unfold_ints; nia.
Qed.
End Preservation.

Definition no_dollars : DollarState := mkDollars depository_default [] 0 0.

(** C2: The dollar ledger under the live handlers.  From the empty pool, under
    every interleaving of account openings, [handle_in] (native, dollar and
    collateral deposits) and [handle_out] on its dollar and collateral branches, by
    any number of accounts with a clock that does not run backwards and deposits
    that stay below [u64::MAX], the balances of the accounts sum to
    [total_deposits] exactly, and the dollar-seconds they have earned up to the
    pool's clock differ from [total_deposit_seconds] by no more than two tallies:
    above it by at most the intervals that dollar withdrawals counted a second
    time, below it by at most the intervals that collateral withdrawals dropped.
    Without withdrawals of an account that was not touched in the same second the
    two are equal.  Trades and liquidations, which move balances by their result,
    are not steps of this run. *)
Theorem dollar_ledger_sums ids known {W} `{Runtime W} `{Issuer W} s :
  rtc (DollarStep ids known (W := W)) no_dollars s ->
  sumZ deposited_quid (d_accounts s) = total_deposits (d_bank s) /\
  sumZ (tenure (d_bank s)) (d_accounts s) <= total_deposit_seconds (d_bank s) + counted_twice s /\
  total_deposit_seconds (d_bank s) <= sumZ (tenure (d_bank s)) (d_accounts s) + dropped s.
Proof.
  intros Hr. assert (Hinv : dollar_inv s); [|by destruct Hinv].
  assert (Hstart : dollar_inv no_dollars).
  { constructor; cbn; try done; try lia. intros d Hd. by apply elem_of_nil in Hd. }
  revert Hstart. induction Hr as [|s1 s2 s3 Hstep _ IH]; [done|]. intros Hs. apply IH. clear IH.
  destruct Hstep; eauto using open_dollars, in_dollars, out_dollars, collateral_dollars.
Qed.

(** ** The two tallies are needed *)
Definition aged_account (o : Pubkey) : Depositor :=
  (fresh_account o) <| deposited_quid := 200000000 |> <| last_updated := 10 |>
    <| balances := [new_pod (pad_ticker [65]) 200000000 10] |>.
Definition two_deposits : Depository :=
  depository_default <| total_deposits := 400000000 |> <| bank_last_updated := 10 |>.

(** The two sums after account 9 acted and account 8 did not. *)
Definition two_sums (r : outcome (Depositor * Depository * option TickerRisk * Z)) : option (Z * Z) :=
  match r with
  | Ok (d, b, _, _) => Some (sumZ (tenure b) [d; aged_account 8], total_deposit_seconds b)
  | _ => None
  end.

(** Half of one balance is withdrawn after 100 seconds: the accounts then claim
    40,000,000,000 dollar-seconds of a counter that holds 20,000,000,000. *)
Lemma withdrawal_counts_twice :
  two_sums (handle_out (aged_account 9) two_deposits None [] (-100000000) 9 110 30000 false
    (Err NoPrice) (Err NoPrice)) = Some (40000000000, 20000000000).
Proof. vm_compute. reflexivity. Qed.

(** Collateral is withdrawn instead: the seconds of the account are gone, and
    half of the counter belongs to nobody. *)
Lemma collateral_drops_tenure :
  two_sums (handle_out (aged_account 9) two_deposits None [65] (-50000000) 9 110 30000 false
    (Err NoPrice) (Ok [1000000])) = Some (20000000000, 40000000000).
Proof. vm_compute. reflexivity. Qed.

(** ** A run: two depositors, a dollar withdrawal, collateral in and out *)
Definition second_ctx : Stockup := mkStockup 8 7 9 10 (Some 20) None 1001 1004 255 [].
Definition both_worlds : Ledger :=
  mkLedger {[10 := (7, 600000000000); 20 := (7, 900000000000)]} {[7 := 9]} ∅.

Ltac dollar_in n ctx amount t now :=
  eapply rtc_l; [eapply (DollarIn sol_ids (fun _ => true) _ _ _ _ n _ None sol_cfg both_worlds ctx
    (Err NoPrice) amount t now 30000);
    [vm_compute; reflexivity | vm_compute; split; discriminate | vm_compute; reflexivity
    | vm_compute; reflexivity]|].

Lemma dollar_ledger_sums_witness : exists s,
  rtc (DollarStep sol_ids (fun _ => true) (W := Ledger)) no_dollars s /\
  length (d_accounts s) = 2%nat /\
  sumZ deposited_quid (d_accounts s) = total_deposits (d_bank s) /\
  sumZ (tenure (d_bank s)) (d_accounts s) <= total_deposit_seconds (d_bank s) + counted_twice s /\
  total_deposit_seconds (d_bank s) <= sumZ (tenure (d_bank s)) (d_accounts s) + dropped s.
Proof.
  assert (H : exists s, rtc (DollarStep sol_ids (fun _ => true) (W := Ledger)) no_dollars s /\
    length (d_accounts s) = 2%nat).
  { eexists. split.
    - eapply rtc_l; [apply (DollarOpen _ _ _ _ _ _ default_key)|].
      eapply rtc_l; [apply (DollarOpen _ _ _ _ _ _ default_key)|].
      dollar_in 0%nat deposit_ctx 200000000000 (@nil Z) 10.
      dollar_in 1%nat second_ctx 200000000000 (@nil Z) 10.
      eapply rtc_l; [eapply (DollarOut _ _ _ _ _ _ 0 _ None (-100000000) 9 110 30000 false
        (Err NoPrice) (Err NoPrice)); [vm_compute; reflexivity | vm_compute; split; discriminate
        | vm_compute; reflexivity]|].
      dollar_in 1%nat second_ctx 200000000000 [65] 120.
      eapply rtc_l; [eapply (CollateralOut _ _ _ _ _ _ 1 _ None [65] (-50000000) 8 220 30000
        (Err NoPrice) (Ok [1000000])); [vm_compute; reflexivity | vm_compute; split; discriminate
        | discriminate | vm_compute; reflexivity]|].
      apply rtc_refl.
    - vm_compute. reflexivity. }
  destruct H as (s & Hr & Hl). exists s.
  destruct (dollar_ledger_sums sol_ids (fun _ => true) s Hr) as (? & ? & ?).
  split_and!; assumption.
Defined.
