(* ===== verification/Custody.v ===== *)
(** * Custody: every SOL depositor's claim is backed, across handlers

    The handlers of [entra.rs] and [clutch.rs] that move lamports, interleaved in
    any order over any number of accounts: native deposits (with parking), native
    withdrawals (with forced unwinds), re-marks, flash loans and their repayment, and any
    other instruction, which may change the dollar side only.  The abstract
    specification is a vault that owes each account a number of lamports and holds
    assets; [custody_refines] shows that the handlers implement it, whatever the
    issuer, the prices and the callers do. *)
From stdpp Require Import gmap.
From S2P Require Import Prelude Actuary Pricing Learning Pool Chain Vaults Oracle Config Sol Flash Entra.

(** ** The abstract vault *)
Record Vault := mkVault { v_claims : list Z; v_assets : Z }.

Inductive vstep : Vault -> Vault -> Prop :=
| v_deposit l m i x a : l !! i = Some x -> 0 <= a ->
    vstep (mkVault l m) (mkVault (<[i := x + a]> l) (m + a))
| v_withdraw l m i x a : l !! i = Some x -> 0 <= a <= x ->
    vstep (mkVault l m) (mkVault (<[i := x - a]> l) (m - a))
| v_earn l m g : 0 <= g -> vstep (mkVault l m) (mkVault l (m + g)).

Definition owed (v : Vault) : Z := sumZ id (v_claims v).

Lemma vstep_backed v v' : vstep v v' -> owed v <= v_assets v -> owed v' <= v_assets v'.
Proof.
  unfold owed. destruct 1 as [l m i x a Hi Ha|l m i x a Hi Ha|l m g Hg]; cbn [v_claims v_assets]; intros Hb;
    try rewrite (sumZ_insert id l i x) by done; unfold id in *; lia.
Qed.

(** ** The concrete system *)
Section Custody.
Variable ids : Ids.
Variable vault_at : Pubkey -> Z -> option Pubkey.
Variable known : list Z -> bool.
Variable pool : Pubkey.
Context {W : Type} `{Runtime W} `{Issuer W}.

Record Custody := mkCustody {
  cw : W;
  cbank : Depository;
  cflash : FlashLoan;
  caccts : list Depositor
}.

(** Lamports at hand, lent out, and parked at cost. *)
Definition assets (s : Custody) : Z :=
  lamports_of (cw s) pool + flash_lamports (cflash s) + sol_star_cost_lamports (cbank s).

Definition abs (s : Custody) : Vault := mkVault (deposited_lamports <$> caccts s) (assets s).

(** One instruction.  The native supply is below [u64::MAX]; a caller's accounts
    for the issuer do not include the pool itself; a request that opens the parked
    tranche is worth at least one share, at a haircut of at most one half. *)
Inductive cstep : Custody -> Custody -> Prop :=
| c_deposit s i c r cfg x oracle amount t now slot c' b' r' w' :
    caccts s !! i = Some c -> valid_config cfg -> s_sol_pool x = Some pool ->
    pool ∉ s_rest x -> s_signer x <> pool -> (forall k, 0 <= token_balance (cw s) k) ->
    assets s + amount <= imax u64 ->
    handle_in ids known c (cbank s) r cfg (cw s) x oracle amount t now slot = Ok (c', b', r', w') ->
    cstep s (mkCustody w' b' (cflash s) (<[i := c']> (caccts s)))
| c_withdraw s i c r cfg tp sp signer rest oracle lamports max_bps now slot rent c' b' r' w' paid :
    caccts s !! i = Some c -> valid_config cfg -> sol_star_haircut_bps cfg <= 5000 ->
    pool ∉ rest -> signer <> pool -> (forall k, 0 <= token_balance (cw s) k) ->
    assets s <= imax u64 -> 0 <= lamports -> 0 <= max_bps <= imax u16 -> 0 <= rent ->
    (let wanted := if lamports =? 0 then deposited_lamports c else lamports in
     sol_star_cost_lamports (cbank s) <= sol_star_shares (cbank s) * wanted) ->
    withdraw_native ids c (cbank s) r cfg (cw s) pool tp sp signer rest oracle lamports max_bps now
      slot rent = Ok (c', b', r', w', paid) ->
    cstep s (mkCustody w' b' (cflash s) (<[i := c']> (caccts s)))
| c_refresh s i c risk who oracle slot c' b' r' :
    caccts s !! i = Some c ->
    handle_refresh_sol_collateral c (cbank s) risk who oracle slot = Ok (c', b', r') ->
    cstep s (mkCustody (cw s) b' (cflash s) (<[i := c']> (caccts s)))
| c_borrow s cfg p auth who later ra n t bump b' f' w' : 0 < n -> who <> pool ->
    handle_flash_borrow ids vault_at cfg (cbank s) (cflash s) (cw s) p auth who pool later ra n t bump
      = Ok (b', f', w') ->
    cstep s (mkCustody w' b' f' (caccts s))
| c_repay s risk who ra oracle tip tt bump slot b' f' r' w' : flash_token_amount (cflash s) = 0 ->
    who <> pool -> 0 <= tip -> assets s + tip <= imax u64 ->
    handle_flash_repay ids vault_at (cbank s) (cflash s) risk (cw s) who pool ra oracle tip tt bump slot
      = Ok (b', f', r', w') ->
    cstep s (mkCustody w' b' f' (caccts s))
| c_other s w' b' f' l' : (* any instruction that leaves the lamport side alone *)
    lamports_of (cw s) pool <= lamports_of w' pool ->
    flash_lamports f' = flash_lamports (cflash s) ->
    sol_lamports b' = sol_lamports (cbank s) -> sol_star_shares b' = sol_star_shares (cbank s) ->
    sol_star_cost_lamports b' = sol_star_cost_lamports (cbank s) -> in_range u64 (yield_pool b') ->
    deposited_lamports <$> l' = deposited_lamports <$> caccts s ->
    cstep s (mkCustody w' b' f' l').

Record custody_inv (s : Custody) : Prop := {
  ci_backed : owed (abs s) <= assets s;
  ci_hot : 0 <= sol_lamports (cbank s) <= lamports_of (cw s) pool;
  ci_cost : 0 <= sol_star_cost_lamports (cbank s);
  ci_shares : in_range u64 (sol_star_shares (cbank s));
  ci_yield : in_range u64 (yield_pool (cbank s));
  ci_flash : 0 <= flash_lamports (cflash s);
  ci_claims : Forall (Z.le 0) (deposited_lamports <$> caccts s)
}.
End Custody.
Arguments mkCustody {W}.
Arguments cw {W}.
Arguments cbank {W}.
Arguments cflash {W}.
Arguments caccts {W}.

(** * Theorems *)
Section CustodyLaws.
Variable ids : Ids.
Variable vault_at : Pubkey -> Z -> option Pubkey.
Variable known : list Z -> bool.
Variable pool : Pubkey.
Context {W : Type} `{RuntimeLaws W} `{!Issuer W} `{!IssuerLaws W}.

Lemma claim_bound (s : Custody) i c : custody_inv pool s -> caccts s !! i = Some c ->
  0 <= deposited_lamports c <= assets pool s.
Proof.
  intros [Hb _ _ _ _ _ Hc] Hi. rewrite Forall_fmap, Forall_forall in Hc.
  split; [by apply Hc, (list_elem_of_lookup_2 _ i)|]. etransitivity; [|exact Hb].
  unfold owed, abs. cbn. apply (sumZ_elem id _ i); [|by rewrite list_lookup_fmap, Hi].
  intros a (c' & -> & Hin)%list_elem_of_fmap. by apply Hc.
Qed.

Lemma inv_wf_sol (s : Custody) : custody_inv pool s -> assets pool s <= imax u64 -> wf_sol (cbank s).
Proof.
  intros [_ Hh Hc Hs Hy Hf _] Ha. unfold assets in Ha.
  split; try done; unfold_ints; lia.
Qed.

(** What one step owes the invariant and the specification: new assets, and one
    account's new claim. *)
Lemma step_done (s : Custody) i c w b f c' : custody_inv pool s -> caccts s !! i = Some c ->
  let s' := mkCustody w b f (<[i := c']> (caccts s)) in
  rtc vstep (abs pool s) (mkVault (<[i := deposited_lamports c']> (deposited_lamports <$> caccts s))
                            (assets pool s')) ->
  0 <= sol_lamports b <= lamports_of w pool -> 0 <= sol_star_cost_lamports b ->
  in_range u64 (sol_star_shares b) -> in_range u64 (yield_pool b) -> 0 <= flash_lamports f ->
  0 <= deposited_lamports c' -> rtc vstep (abs pool s) (abs pool s') /\ custody_inv pool s'.
Proof.
  intros Hinv Hi s' Hr Hh Hc Hs Hy Hf Hd.
  assert (abs pool s' = mkVault (<[i := deposited_lamports c']> (deposited_lamports <$> caccts s))
    (assets pool s')) as Habs by (unfold abs, s'; cbn; by rewrite list_fmap_insert).
  rewrite <- Habs in Hr. split; [done|]. split; try done.
  - assert (owed (abs pool s') <= v_assets (abs pool s')); [|done].
    assert (owed (abs pool s) <= v_assets (abs pool s)) as Hb by apply Hinv. revert Hb.
    clear -Hr. induction Hr as [|x y z Hxy _ IH]; [done|]. intros. by apply IH, (vstep_backed x).
  - unfold s'. cbn. rewrite list_fmap_insert. apply Forall_insert; [apply Hinv|done].
Qed.

(** A withdrawal followed by an unearmarked gain. *)
Lemma withdraw_earn l m i x a m' : l !! i = Some x -> 0 <= a <= x -> m - a <= m' ->
  rtc vstep (mkVault l m) (mkVault (<[i := x - a]> l) m').
Proof.
  intros Hi Ha Hm. eapply rtc_l; [by apply (v_withdraw l m i x a)|].
  replace m' with (m - a + (m' - (m - a))) by lia. apply rtc_once, v_earn. lia.
Qed.

(** The pool across a deposit that may park. *)
Lemma deposit_refines (s : Custody) i c r cfg x oracle amount t now slot c' b' r' w' :
  custody_inv pool s -> caccts s !! i = Some c -> valid_config cfg -> s_sol_pool x = Some pool ->
  pool ∉ s_rest x -> s_signer x <> pool -> (forall k, 0 <= token_balance (cw s) k) ->
  assets pool s + amount <= imax u64 ->
  handle_in ids known c (cbank s) r cfg (cw s) x oracle amount t now slot = Ok (c', b', r', w') ->
  let s' := mkCustody w' b' (cflash s) (<[i := c']> (caccts s)) in
  rtc vstep (abs pool s) (abs pool s') /\ custody_inv pool s'.
Proof.
  intros Hinv Hi Hcfg Hx Hrest Hsig Hnn Hsup Hrun. unfold handle_in in Hrun. rewrite Hx in Hrun.
  apply bind_ok in Hrun as (_ & _ & Hrun).
  apply deposit_native_inv in Hrun as (b1 & w1 & Hpos & Ht & Hd & Hside & Hy1 & Hpark).
  pose proof (claim_bound _ _ _ Hinv Hi) as Hcl. pose proof Hinv as [_ Hh Hc Hsh Hy Hf _].
  assert (deposited_lamports (claim_owner c (s_signer x)) = deposited_lamports c) as Eo.
  { unfold claim_owner. by destruct (_ =? _). }
  unfold assets in *. rewrite Eo, sat_id in Hd by (unfold_ints; lia).
  unfold lamport_side in Hside. cbn in Hside. injection Hside as E1 E2 E3 _ _ _ _.
  rewrite sat_id in E1 by (unfold_ints; lia).
  apply sys_moves in Ht as (_ & Hm & Htok & _). specialize (Hm pool).
  unfold moved in Hm. rewrite Z.eqb_refl, (proj2 (Z.eqb_neq _ _)) in Hm by done.
  assert (forall w2 b2, lamports_of w2 pool + sol_star_cost_lamports b2
      = lamports_of w1 pool + sol_star_cost_lamports b1 ->
    0 <= sol_lamports b2 <= lamports_of w2 pool -> 0 <= sol_star_cost_lamports b2 ->
    in_range u64 (sol_star_shares b2) -> in_range u64 (yield_pool b2) ->
    let s' := mkCustody w2 b2 (cflash s) (<[i := c']> (caccts s)) in
    rtc vstep (abs pool s) (abs pool s') /\ custody_inv pool s') as Hfin.
  { intros w2 b2 Ha ? ? ? ? s'. eapply step_done; try done; [|lia].
    unfold assets. cbn. rewrite Hd.
    replace (lamports_of w2 pool + flash_lamports (cflash s) + sol_star_cost_lamports b2)
      with (assets pool s + amount) by (unfold assets; lia).
    apply rtc_once, v_deposit; [by rewrite list_lookup_fmap, Hi|lia]. }
  destruct Hpark as [[-> ->]|(l & price & a & n & Hl & Hp)].
  { apply Hfin; try lia; [by rewrite E2|by rewrite Hy1]. }
  destruct (from_remaining_apart ids _ _ _ _ _ _ (s_signer x) Hrest Hsig Hl) as [El Hap].
  assert (wf_sol b1) as Hwf by (split; rewrite ?E1, ?E2, ?E3, ?Hy1; try done; unfold_ints; lia).
  apply (park_idle_law ids) in Hp; [|done..]. cbv zeta in Hp.
  destruct (_ <? _) eqn:Elt; [destruct Hp as (-> & -> & _); apply Hfin; try lia;
    [by rewrite E2|by rewrite Hy1]|].
  destruct Hp as (shares & usd & -> & Hband & Hp & Hu & ->).
  assert (forall k, 0 <= token_balance w1 k) as Hnn1 by (intros k; by rewrite Htok).
  pose proof (park_native ids _ _ _ _ _ _ Hp Hap Hnn1) as Hlam. rewrite El in Hlam. apply Z.ltb_ge in Elt. unfold parked_bank.
  set (fl := (sol_lamports b1 + sol_star_cost_lamports b1) * sol_buffer_bps cfg / 10000) in *.
  assert (0 <= fl) by (apply Z.div_pos; [apply Z.mul_nonneg_nonneg;
    [lia|pose proof (vc_buffer cfg Hcfg); unfold MIN_BUFFER_BPS in *; lia]|lia]).
  apply Hfin; cbn; try lia.
  - assert (fl <= sol_lamports b1); [|lia].
    assert (0 <= (sol_lamports b1 + sol_star_cost_lamports b1) * sol_park_band_bps cfg / 10000); [|lia].
    apply Z.div_pos; [apply Z.mul_nonneg_nonneg; [lia|apply Hcfg]|lia].
  - by apply sat_in_range.
  - rewrite Hy1. unfold_ints. lia.
Qed.

(** A forfeit never exceeds a request worth at least a share. *)
Lemma forfeit_fits rel S C deficit wanted h forfeit : 0 <= deficit <= wanted -> 0 < S -> 0 <= rel ->
  rel * S <= deficit * S + C -> C <= S * wanted -> 0 <= h <= 5000 ->
  forfeit <= rel * h / 10000 -> forfeit <= wanted.
Proof.
  intros Hd HS Hr Hrel HC Hh Hf. assert (rel <= 2 * wanted) by nia.
  etransitivity; [exact Hf|]. apply Z.div_le_upper_bound; [lia|]. nia.
Qed.

Lemma withdraw_refines (s : Custody) i c r cfg tp sp signer rest oracle lamports max_bps now slot rent
    c' b' r' w' paid :
  custody_inv pool s -> caccts s !! i = Some c -> valid_config cfg -> sol_star_haircut_bps cfg <= 5000 ->
  pool ∉ rest -> signer <> pool -> (forall k, 0 <= token_balance (cw s) k) ->
  assets pool s <= imax u64 -> 0 <= lamports -> 0 <= max_bps <= imax u16 -> 0 <= rent ->
  (let wanted := if lamports =? 0 then deposited_lamports c else lamports in
   sol_star_cost_lamports (cbank s) <= sol_star_shares (cbank s) * wanted) ->
  withdraw_native ids c (cbank s) r cfg (cw s) pool tp sp signer rest oracle lamports max_bps now
    slot rent = Ok (c', b', r', w', paid) ->
  let s' := mkCustody w' b' (cflash s) (<[i := c']> (caccts s)) in
  rtc vstep (abs pool s) (abs pool s') /\ custody_inv pool s'.
Proof.
  intros Hinv Hi Hcfg Hcut Hrest Hsig Hnn Hsup Hl Hmb Hrent Hdust Hrun.
  pose proof (claim_bound _ _ _ Hinv Hi) as Hcl. pose proof Hinv as [_ Hh Hc Hsh Hy Hf _].
  pose proof (inv_wf_sol _ Hinv Hsup) as Hwf.
  apply withdraw_native_inv in Hrun
    as (L & b1 & w1 & forfeit & price & a & HL & Hw & Hmid & EL & Ep & Ht & Hd & _ & Hside & Hyp);
    [|lia|lia].
  set (wanted := if lamports =? 0 then _ else _) in *. cbv zeta in Hdust.
  unfold lamport_side in Hside. cbn in Hside. injection Hside as E1 E2 E3 _ _ _ _.
  apply sys_moves in Ht as (Hpaid & Hm & _). specialize (Hm pool). unfold moved in Hm.
  rewrite Z.eqb_refl, (proj2 (Z.eqb_neq _ _)) in Hm by done.
  assert (0 <= forfeit -> forfeit <= L -> lamports_of (cw s) pool + sol_star_cost_lamports (cbank s)
      <= lamports_of w1 pool + sol_star_cost_lamports b1 + forfeit ->
    0 <= sol_lamports b1 <= lamports_of w1 pool -> 0 <= sol_star_cost_lamports b1 ->
    in_range u64 (sol_star_shares b1) -> in_range u64 (yield_pool b1) ->
    let s' := mkCustody w' b' (cflash s) (<[i := c']> (caccts s)) in
    rtc vstep (abs pool s) (abs pool s') /\ custody_inv pool s') as Hfin.
  { intros Hf0 HfL Ha Hhot Hc1 Hs1 Hy1 s'. rewrite sat_id in Ep by (unfold assets in *; unfold_ints; lia).
    eapply step_done; try done; try lia; [|rewrite E1; unfold sat; unfold_ints; lia|by rewrite E2|by rewrite Hyp].
    rewrite Hd. apply withdraw_earn; [by rewrite list_lookup_fmap, Hi|lia|].
    unfold assets, s'. cbn. lia. }
  unfold assets in Hcl, Hsup.
  destruct Hmid as [(-> & -> & -> & Hle)|(l & Hlegs & Hun)].
  { apply Hfin; try lia; done. }
  destruct (from_remaining_apart ids _ _ _ _ _ _ signer Hrest Hsig Hlegs) as [El Hap].
  pose proof (unpark_ranges ids _ _ _ _ _ _ _ _ _ Hsh Hy _ Hun) as [Hsh1 Hy1]. cbn [fst] in Hsh1, Hy1.
  apply (unpark_law ids) in Hun; [|done|done|unfold_ints; lia|done].
  destruct (Z.leb_spec wanted (sol_lamports (cbank s))).
  { destruct Hun as (-> & -> & ->). apply Hfin; try lia; done. }
  destruct Hun as (_ & shares & out & rel & Hu & Hrel & _ & Hshare & Ef & Hfb & Eh & Ec & _).
  pose proof (unpark_native ids _ _ _ _ _ _ Hu Hap Hnn) as [Hout Hlam]. rewrite El in Hlam.
  assert (forfeit <= wanted) as Hfw.
  { unfold_ints. destruct (Z.eq_dec (sol_star_shares (cbank s)) 0) as [Hz|]; [lia|].
    eapply (forfeit_fits rel (sol_star_shares (cbank s)) (sol_star_cost_lamports (cbank s))
      (wanted - sol_lamports (cbank s)) wanted (sol_star_haircut_bps cfg)); try lia.
    - pose proof (vc_haircut cfg Hcfg). lia.
    - etransitivity; [exact Hfb|]. apply Z.div_le_mono; [lia|]. apply Z.mul_le_mono_nonneg_l; [lia|apply Z.le_min_l]. }
  apply Hfin; try lia; try done.
  - rewrite EL. unfold sat. unfold_ints. lia.
  - rewrite Eh. unfold sat. unfold_ints. lia.
Qed.

(** A step that moves no claim and loses no asset. *)
Lemma step_keeps (s : Custody) w b f : custody_inv pool s ->
  let s' := mkCustody w b f (caccts s) in
  assets pool s <= assets pool s' ->
  0 <= sol_lamports b <= lamports_of w pool -> 0 <= sol_star_cost_lamports b ->
  in_range u64 (sol_star_shares b) -> in_range u64 (yield_pool b) -> 0 <= flash_lamports f ->
  rtc vstep (abs pool s) (abs pool s') /\ custody_inv pool s'.
Proof.
  intros Hinv s' Ha Hh Hc Hs Hy Hf. split.
  - unfold abs. change (caccts s') with (caccts s). set (g := assets pool s' - assets pool s).
    replace (assets pool s') with (assets pool s + g) by lia. apply rtc_once, v_earn. lia.
  - pose proof Hinv as [Hb _ _ _ _ _ Hcl]. split; try done.
    change (owed (abs pool s)) with (owed (abs pool s')) in Hb. lia.
Qed.

Lemma sol_remark_frame c b risk who oracle slot : ensures
  (handle_refresh_sol_collateral c b risk who oracle slot)
  (fun r => deposited_lamports r.1.1 = deposited_lamports c /\ lamport_side r.1.2 = lamport_side b /\
            yield_pool r.1.2 = yield_pool b).
Proof. unfold handle_refresh_sol_collateral. repeat ensures_step; done. Qed.

Lemma book_tip_yield b tip price a : in_range u64 (yield_pool b) ->
  ensures (book_tip b tip price a) (fun r => in_range u64 (yield_pool r)).
Proof.
  intros Hy. unfold book_tip. destruct (0 <? tip); [|by apply ensures_ok].
  apply ensures_skip. intros v. cbv zeta. destruct (0 <? Z.min v _); [|by apply ensures_ok].
  apply (ensures_bind _ _ (fun r => in_range u64 (yield_pool r.1))).
  { intros [b1 bk] Hacc. unfold accrue_sol_yield in Hacc.
    repeat match type of Hacc with
    | (let _ := _ in _) = _ => cbv zeta in Hacc
    | (if ?x then _ else _) = _ => destruct x
    | bind _ _ = _ => apply bind_ok in Hacc as (? & _ & Hacc)
    end; injection Hacc as <- <-; done. }
  intros [b1 bk] Hy1. cbn [fst] in Hy1. destruct bk; cbn [negb]; [by apply ensures_ok|].
  intros b2 Hadj. unfold adjust_sol_credit in Hadj.
  destruct (0 <=? _); [injection Hadj as <-; cbn; by apply sat_in_range|].
  apply bind_ok in Hadj as (y & Hy2 & Hadj). apply eval_inv in Hy2 as [-> Hsafe].
  injection Hadj as <-. cbn in *. unfold_ints. lia.
Qed.

Lemma repay_yield b f risk w who ra oracle tip tt bump slot : in_range u64 (yield_pool b) ->
  flash_token_amount f = 0 ->
  ensures (handle_flash_repay ids vault_at b f risk w who pool ra oracle tip tt bump slot)
    (fun r => in_range u64 (yield_pool r.1.1.1)).
Proof.
  intros Hy Hz. unfold handle_flash_repay. rewrite Hz. cbn [Z.ltb Z.compare].
  do 6 (apply ensures_skip; intros). cbv zeta.
  eapply ensures_bind; [by apply book_tip_yield|]. intros b2 Hb2. by apply ensures_ok.
Qed.

Lemma cstep_refines s s' : custody_inv pool s -> cstep ids vault_at known pool s s' ->
  rtc vstep (abs pool s) (abs pool s') /\ custody_inv pool s'.
Proof.
  intros Hinv Hst. destruct Hst as
    [s i c r cfg x oracle amount t now slot c' b' r' w' Hi Hcfg Hx Hrest Hsig Hnn Hsup Hrun
    |s i c r cfg tp sp signer rest oracle lamports mb now slot rent c' b' r' w' paid Hi Hcfg Hcut
       Hrest Hsig Hnn Hsup Hl Hmb Hrent Hdust Hrun
    |s i c risk who oracle slot c' b' r' Hi Hrun
    |s cfg p auth who later ra n t bump b' f' w' Hn Hne Hrun
    |s risk who ra oracle tip tt bump slot b' f' r' w' Hz Hne Htip Hsup Hrun
    |s w' b' f' l' Hl Hf Hh Hs Hc Hy Ha].
  - by eapply deposit_refines.
  - exact (withdraw_refines s i c r cfg tp sp signer rest oracle lamports mb now slot rent c' b' r' w' paid
      Hinv Hi Hcfg Hcut Hrest Hsig Hnn Hsup Hl Hmb Hrent Hdust Hrun).
  - apply sol_remark_frame in Hrun as (Hd & Hside & Hy). cbn [fst snd] in *.
    unfold lamport_side in Hside. injection Hside as E1 E2 E3 _ _ _ _.
    pose proof (claim_bound _ _ _ Hinv Hi). pose proof Hinv as [_ ? ? ? ? ? _].
    eapply step_done; try done; rewrite ?E1, ?E2, ?E3, ?Hy, ?Hd; try done; [|lia].
    rewrite list_insert_id by (by rewrite list_lookup_fmap, Hi). unfold abs, assets. cbn.
    rewrite E3. done.
  - apply borrow_sol_inv in Hrun as (_ & Hf & _ & Hle & Ht & -> & ->); [|done].
    apply sys_moves in Ht as (Hmax & Hm & _). specialize (Hm pool). unfold moved in Hm.
    rewrite Z.eqb_refl, (proj2 (Z.eqb_neq _ _)) in Hm by done.
    pose proof Hinv as [_ ? ? ? ? ? _]. apply step_keeps; try done; unfold assets; cbn; rewrite ?Hf; cbn;
      unfold sat; unfold_ints; lia.
  - pose proof Hinv as [_ Hh Hc Hs Hy Hf _].
    pose proof (repay_yield _ _ _ _ _ _ _ _ _ _ _ Hy Hz _ Hrun) as Hy'. cbn [fst] in Hy'.
    apply repay_sol_inv in Hrun as (Hpos & _ & Ht & -> & Hside); [|done].
    unfold lamport_side in Hside. cbn in Hside. injection Hside as E1 E2 E3 _ _ _ _.
    unfold assets in Hsup. rewrite (sat_id u64 (flash_lamports (cflash s) + tip)) in Ht, E1 by (unfold_ints; lia).
    rewrite sat_id in E1 by (unfold_ints; lia).
    apply sys_moves in Ht as (_ & Hm & _). specialize (Hm pool). unfold moved in Hm.
    rewrite Z.eqb_refl, (proj2 (Z.eqb_neq _ _)) in Hm by done.
    apply step_keeps; try done; unfold assets; cbn; rewrite ?E1, ?E2, ?E3; try done; lia.
  - pose proof Hinv as [Hb ? ? ? ? ? Hcl]. split.
    + unfold abs. cbn [caccts]. rewrite Ha.
      replace (assets pool (mkCustody w' b' f' l')) with
        (assets pool s + (lamports_of w' pool - lamports_of (cw s) pool)) by (unfold assets; cbn; lia).
      apply rtc_once, v_earn. lia.
    + split; cbn; rewrite ?Hh, ?Hc, ?Hs, ?Hf; try done; try lia.
      * unfold owed, abs in *. cbn in *. rewrite Ha. unfold assets in *. cbn. lia.
      * by rewrite Ha.
Qed.

(** C1: The lamport handlers implement the vault they promise.  Whatever the
    interleaving of deposits, withdrawals, re-marks, flash loans and other
    instructions, and whatever the issuer and the oracle answer, every run of the handlers
    is a run of the abstract vault; in particular the lamports owed to all accounts
    together never exceed what the pool holds, has lent and has parked at cost, and
    the hot ledger never exceeds the native balance. *)
Theorem custody_refines s s' : custody_inv pool s -> rtc (cstep ids vault_at known pool) s s' ->
  rtc vstep (abs pool s) (abs pool s') /\
  sumZ deposited_lamports (caccts s') <= assets pool s' /\
  sol_lamports (cbank s') <= lamports_of (cw s') pool.
Proof.
  intros Hinv Hr.
  assert (rtc vstep (abs pool s) (abs pool s') /\ custody_inv pool s') as [Hv [Hb Hh _ _ _ _ _]].
  { induction Hr as [|x y z Hxy _ IH]; [by split|].
    destruct (cstep_refines x y Hinv Hxy) as [H1 H2]. destruct (IH H2). split; [by etransitivity|done]. }
  split; [done|]. split; [|lia].
  unfold owed, abs in Hb. cbn in Hb. etransitivity; [|exact Hb]. apply Z.eq_le_incl.
  clear. unfold sumZ. induction (caccts s') as [|c l IH]; cbn; [done|]. by rewrite IH.
Qed.
End CustodyLaws.

(** ** A deposit of four SOL, then a withdrawal of one *)
Definition opening : Custody :=
  mkCustody (mkLedger ∅ ∅ {[500 := 1000000; 9 := 5000000000]}) (sol_bank <| sol_lamports := 0 |>) no_loan
    [depositor_default].
Definition native_ctx : Stockup := mkStockup 9 7 9 10 None (Some 500) 1001 1004 255 [].

Lemma opening_inv : custody_inv 500 opening.
Proof. split; try (vm_compute; repeat split; discriminate). by constructor. Qed.

Definition first_deposit :=
  handle_in sol_ids (fun _ => true) depositor_default (cbank opening) (Some sol_risk) sol_cfg (cw opening)
    native_ctx (Ok sol_price_now) 4000000000 SOL_TICKER 1000 30000.
Definition holding : Custody := Eval vm_compute in
  match first_deposit with Ok (c, b, _, w) => mkCustody w b no_loan [c] | _ => opening end.
Definition holder : Depositor := Eval vm_compute in default depositor_default (caccts holding !! 0%nat).
Definition marked_risk : option TickerRisk := Eval vm_compute in
  match first_deposit with Ok (_, _, r, _) => r | _ => None end.
Definition first_withdrawal :=
  withdraw_native sol_ids holder (cbank holding) (Some sol_risk) sol_cfg (cw holding) 500 1001 1004 9 []
    (Ok sol_price_now) 1000000000 0 1000 30000 890880.

Lemma deposit_runs : first_deposit = Ok (holder, cbank holding, marked_risk, cw holding).
Proof. by vm_compute. Qed.

Lemma deposit_step c' b' r' w' : first_deposit = Ok (c', b', r', w') ->
  cstep sol_ids no_vaults (fun _ => true) 500 opening (mkCustody w' b' no_loan [c']).
Proof.
  unfold first_deposit. intros Hrun.
  apply (c_deposit sol_ids no_vaults (fun _ => true) 500 opening 0 depositor_default (Some sol_risk)
    sol_cfg native_ctx (Ok sol_price_now) 4000000000 SOL_TICKER 1000 30000 c' b' r' w');
    [reflexivity|apply sol_cfg_valid|reflexivity|apply not_elem_of_nil|discriminate| |
     vm_compute; discriminate|exact Hrun].
  intros k. cbn. unfold led_token. cbn. rewrite lookup_empty. cbn. lia.
Qed.

Lemma withdrawal_step c' b' r' w' paid : first_withdrawal = Ok (c', b', r', w', paid) ->
  cstep sol_ids no_vaults (fun _ => true) 500 holding (mkCustody w' b' no_loan [c']).
Proof.
  unfold first_withdrawal. intros Hrun.
  refine (c_withdraw sol_ids no_vaults (fun _ => true) 500 holding 0 _ (Some sol_risk) sol_cfg 1001 1004 9 []
    (Ok sol_price_now) 1000000000 0 1000 30000 890880 c' b' r' w' paid _ _ _ _ _ _ _ _ _ _ _ Hrun);
    [reflexivity|apply sol_cfg_valid|vm_compute; discriminate|apply not_elem_of_nil|discriminate| | | |
     vm_compute; split; discriminate|lia|]; [| vm_compute; discriminate..].
  intros k. clear. cbn. unfold led_token. cbn. destruct k; cbn; lia.
Qed.

Lemma custody_refines_witness : exists c b r' w paid,
  first_deposit = Ok (holder, cbank holding, marked_risk, cw holding) /\
  first_withdrawal = Ok (c, b, r', w, paid) /\
  rtc vstep (abs 500 opening) (abs 500 (mkCustody w b no_loan [c])) /\
  deposited_lamports c + 0 <= assets 500 (mkCustody w b no_loan [c]) /\
  sol_lamports b <= lamports_of w 500.
Proof.
  destruct first_withdrawal as [[[[[c b] r'] w] paid]| |] eqn:E; [|vm_compute in E; discriminate E..].
  exists c, b, r', w, paid. split; [exact deposit_runs|]. split; [reflexivity|].
  apply (custody_refines sol_ids no_vaults (fun _ => true) 500 opening (mkCustody w b no_loan [c]));
    [apply opening_inv|].
  exact (rtc_l _ _ holding _ (deposit_step _ _ _ _ deposit_runs) (rtc_once _ _ (withdrawal_step _ _ _ _ _ E))).
Defined.
