(* ===== verification/Backing.v ===== *)
(** * Backing: the paper behind the book

    The backing section of [svm/programs/quid/src/entra.rs]: the admin's wiring
    ([set_backing]), the two permissionless legs that exchange dollars for the
    instrument and back ([issue_paper], [redeem_paper]) with their shared
    preflight, the gauge they read ([live_cover], [unfunded_bps]) and the
    bookkeeping of a redemption's proceeds ([reconcile]).  The account constraints
    of the contexts are part of the handlers.

    The two derived vault addresses and the printed form of a key are parameters.
    The risk account is an argument: its seeds tie it to the ticker of the call, and
    nothing ties that ticker to the instrument. *)
From stdpp Require Import gmap.
From S2P Require Import Prelude Actuary Pricing Pool Chain Vaults Config Oracle Tables.

Definition MIN_ORDER_DOLLARS : Z := 1000000000.
Definition BACKING_COOLDOWN_SECS : Z := 3600.
Definition MAX_BACKING_STALENESS_SLOTS : Z := 6000.
Definition FUND_ABOVE_BPS : Z := 7500.
Definition RELEASE_BELOW_BPS : Z := 5000.
Definition BPS_I : Z := 10000.

Record Backing := mkBacking {
  bk_bump : Z;
  bk_mint : Pubkey;
  issuance : Pubkey;
  redemption : Pubkey;
  funded : Z;                       (* u64 *)
  spent : Z;                        (* u64 *)
  min_order : Z;                    (* u64 *)
  max_order : Z;                    (* u64 *)
  last_flow : Z                     (* i64 *)
}.

#[export] Instance eta_Backing : Eta Backing := fun h =>
  mkBacking (bk_bump h) (bk_mint h) (issuance h) (redemption h) (funded h) (spent h)
    (min_order h) (max_order h) (last_flow h).

(** ** The gauge *)
Definition live_cover (paper_units decimals : Z) (risk : TickerRisk) : outcome Z :=
  let price := last_price (actuary risk) in
  if (price <=? 0) || (paper_units =? 0) then Ok 0 else
  v <- to_accounting paper_units decimals ;;
  Ok (units_value v (cast u64 price)).

Definition unfunded_bps (bank : Depository) (funded : Z) : outcome Z :=
  if total_deposits bank =? 0 then Ok (imax i64) else
  let uncovered := sat u64 (max_liability bank - funded) in
  r <- u128{ uncovered * BPS_I / [total_deposits bank] } ;;
  Ok (cast i64 (Z.min r (imax i64))).

(** ** Wiring *)
Section Wiring.
Variable key_string : Pubkey -> list Z.

Definition set_backing (cfg : ProgramConfig) (h : Backing) (signer : Pubkey) (bump : Z) (ticker : list Z)
    (issuance' redemption' mint min_order' max_order' : Z) : outcome Backing :=
  require (signer =? admin cfg) Unauthorized ;;
  expect <- ok_or (deliverable_mint ticker) NotDeliverable ;;
  require (bool_decide (key_string mint = expect)) InvalidMint ;;
  require (negb (issuance' =? default_key) && negb (redemption' =? default_key)) InvalidParameters ;;
  require (MIN_ORDER_DOLLARS <=? min_order') InvalidParameters ;;
  require ((min_order' <=? max_order') || (max_order' =? 0)) InvalidParameters ;;
  require ((bk_mint h =? default_key) || (bk_mint h =? mint) || (funded h =? 0)) BackingStillHeld ;;
  Ok (h <| bk_bump := bump |> <| bk_mint := mint |> <| issuance := issuance' |>
        <| redemption := redemption' |> <| min_order := min_order' |> <| max_order := max_order' |>).
End Wiring.

(** ** The legs *)
Definition backing_preflight (h : Backing) (risk : TickerRisk) (now slot : Z) : outcome Z :=
  require (BACKING_COOLDOWN_SECS <=? sat i64 (now - last_flow h)) DeliveryCoolingDown ;;
  require (sat i64 (cast i64 slot - last_price_slot (actuary risk)) <=? MAX_BACKING_STALENESS_SLOTS)
    PriceTooStaleToDeliver ;;
  require (0 <? max_order h) DeliveryHalted ;;
  Ok now.

Section Legs.
Variable vault_pda paper_pda : Pubkey -> Pubkey.
Context {W : Type} `{Runtime W}.

(** The accounts of a flow: the mints, and where the leg sends to. *)
Record BackingFlow := mkFlow {
  stable_mint : Pubkey;
  backing_mint : Pubkey;
  sweep_destination : Pubkey
}.

Definition flow_accounts (cfg : ProgramConfig) (h : Backing) (x : BackingFlow) : outcome unit :=
  require (bool_decide (stable_mint x ∈ registered_mints cfg)) InvalidMint ;;
  require (backing_mint x =? bk_mint h) InvalidMint.

Definition issue_paper (cfg : ProgramConfig) (bank : Depository) (h : Backing) (risk : TickerRisk) (w : W)
    (x : BackingFlow) (amount now slot : Z) : outcome (Depository * Backing * W) :=
  flow_accounts cfg h x ;;
  require (sweep_destination x =? issuance h) InvalidParameters ;;
  cover <- live_cover (token_balance w (paper_pda (backing_mint x)))
             (mint_decimals w (backing_mint x)) risk ;;
  gauge <- unfunded_bps bank cover ;;
  require (FUND_ABOVE_BPS <=? gauge) FundingWithinBand ;;
  now <- backing_preflight h risk now slot ;;
  require (min_order h <=? amount) BelowMinimumTicket ;;
  require (amount <=? max_order h) AboveMaximumTicket ;;
  require (sat u64 (cover + amount) <=? max_liability bank) ExceedsNetExposure ;;
  let decimals := mint_decimals w (stable_mint x) in
  raw <- from_accounting amount decimals ;;
  w <- transfer_checked w (vault_pda (stable_mint x)) (stable_mint x) (sweep_destination x) raw decimals ;;
  let h := h <| spent := sat u64 (spent h + amount) |> <| funded := cover |> in
  let bank := bank <| paper_backed := cover |> in
  Ok (bank, h <| last_flow := now |>, w).

Definition redeem_paper (cfg : ProgramConfig) (bank : Depository) (h : Backing) (risk : TickerRisk) (w : W)
    (x : BackingFlow) (raw_amount now slot : Z) : outcome (Depository * Backing * W) :=
  flow_accounts cfg h x ;;
  require (sweep_destination x =? redemption h) InvalidParameters ;;
  let held := token_balance w (paper_pda (backing_mint x)) in
  require ((0 <? raw_amount) && (raw_amount <=? held)) NoPaperHeld ;;
  let decimals := mint_decimals w (backing_mint x) in
  cover_now <- live_cover held decimals risk ;;
  gauge <- unfunded_bps bank cover_now ;;
  require (gauge <=? RELEASE_BELOW_BPS) FundingWithinBand ;;
  now <- backing_preflight h risk now slot ;;
  r <- u128{ [spent h] * raw_amount / [Z.max held 1] } ;;
  let released := Z.min r (spent h) in
  w <- transfer_checked w (paper_pda (backing_mint x)) (backing_mint x) (sweep_destination x) raw_amount
         decimals ;;
  let h := h <| spent := sat u64 (spent h - released) |> in
  left_over <- live_cover (sat u64 (held - raw_amount)) decimals risk ;;
  let h := h <| funded := left_over |> in
  let bank := bank <| paper_backed := funded h |> in
  let bank := bank <| paper_in_transit := sat u64 (paper_in_transit bank + released) |> in
  Ok (bank, h <| last_flow := now |>, w).
End Legs.

Definition reconcile (cfg : ProgramConfig) (bank : Depository) (h : Backing) (signer : Pubkey)
    (proceeds_dollars now : Z) : outcome (Depository * Backing) :=
  require (signer =? admin cfg) Unauthorized ;;
  let basis := paper_in_transit bank in
  bank <- (if 0 <? basis then
             let bank := bank <| paper_in_transit := 0 |> in
             if basis <=? proceeds_dollars then
               gain <- u64{ proceeds_dollars - basis } ;;
               Ok (bank <| yield_pool := sat u64 (yield_pool bank + gain) |>)
             else
               loss <- u64{ basis - proceeds_dollars } ;;
               Ok (bank <| yield_pool := sat u64 (yield_pool bank - loss) |>)
           else Ok bank) ;;
  Ok (bank, h <| last_flow := now |>).

(** * Theorems *)

(** ** The gauge *)
Definition gauge (bank : Depository) (cover : Z) : Z :=
  if total_deposits bank =? 0 then imax i64
  else Z.min (Z.max 0 (max_liability bank - cover) * BPS_I / total_deposits bank) (imax i64).

Lemma unfunded_spec bank f : in_range u64 (total_deposits bank) -> in_range u64 (max_liability bank) ->
  0 <= f -> unfunded_bps bank f = Ok (gauge bank f).
Proof.
  intros Hd Hl Hf. unfold unfunded_bps, gauge. destruct (Z.eqb_spec (total_deposits bank) 0); [done|].
  replace (sat u64 (max_liability bank - f)) with (Z.max 0 (max_liability bank - f))
    by (unfold sat; unfold_ints; lia).
  set (u := Z.max 0 (max_liability bank - f)). assert (0 <= u <= imax u64) by (unfold_ints; lia).
  assert (0 <= u * BPS_I / total_deposits bank <= u * BPS_I).
  { rewrite <- quot_div by (unfold BPS_I; unfold_ints; lia).
    apply quot_le_self; unfold BPS_I; unfold_ints; lia. }
  rewrite eval_safe.
  2: { cbn [safe value aop_fun]. rewrite quot_div by (unfold BPS_I in *; unfold_ints; lia).
       unfold BPS_I in *. unfold_ints. repeat split; lia. }
  cbn [bind value aop_fun]. rewrite quot_div by (unfold BPS_I; unfold_ints; lia).
  rewrite cast_id; [done|]. unfold BPS_I in *. unfold_ints. lia.
Qed.

Lemma gauge_antitone bank c c' : in_range u64 (total_deposits bank) -> c <= c' ->
  gauge bank c' <= gauge bank c.
Proof.
  intros Hd Hc. unfold gauge. destruct (Z.eqb_spec (total_deposits bank) 0); [done|].
  apply Z.min_le_compat_r, Z.div_le_mono; [unfold_ints; lia|]. unfold BPS_I. lia.
Qed.

Lemma live_cover_range u d risk v : 0 <= u <= imax u64 -> live_cover u d risk = Ok v -> in_range u64 v.
Proof.
  intros Hu. unfold live_cover. destruct (_ || _); [intros [= <-]; by unfold_ints|].
  intros H. inv_ok H. apply units_value_range.
Qed.

Lemma sat_ge t x n : imin t < n -> n <= sat t x -> n <= x.
Proof. unfold sat. lia. Qed.

(** Readings of successful legs. *)
Lemma preflight_inv h risk now slot n : backing_preflight h risk now slot = Ok n ->
  n = now /\ BACKING_COOLDOWN_SECS <= now - last_flow h /\
  sat i64 (cast i64 slot - last_price_slot (actuary risk)) <= MAX_BACKING_STALENESS_SLOTS /\
  0 < max_order h.
Proof.
  unfold backing_preflight. intros H. inv_ok H. split_and!; try lia.
  apply (sat_ge i64); [by unfold BACKING_COOLDOWN_SECS|lia].
Qed.

Section LegLaws.
Variable vault_pda paper_pda : Pubkey -> Pubkey.
Context {W : Type} `{RuntimeLaws W}.
Variable cfg : ProgramConfig.

(** A pool whose fields are machine words and whose instrument balance is one. *)
Record wf_backing (bank : Depository) (h : Backing) : Prop := {
  wb_deposits : in_range u64 (total_deposits bank);
  wb_liability : in_range u64 (max_liability bank);
  wb_yield : in_range u64 (yield_pool bank);
  wb_transit : in_range u64 (paper_in_transit bank);
  wb_spent : in_range u64 (spent h)
}.

Lemma issue_inv bank h risk (w : W) x amount now slot bank' h' w' :
  wf_backing bank h -> 0 <= token_balance w (paper_pda (backing_mint x)) <= imax u64 ->
  in_range u64 amount ->
  issue_paper vault_pda paper_pda cfg bank h risk w x amount now slot = Ok (bank', h', w') ->
  exists cover raw,
    live_cover (token_balance w (paper_pda (backing_mint x))) (mint_decimals w (backing_mint x)) risk
      = Ok cover /\
    FUND_ABOVE_BPS <= gauge bank cover /\ BACKING_COOLDOWN_SECS <= now - last_flow h /\
    min_order h <= amount <= max_order h /\
    (cover + amount <= max_liability bank \/ max_liability bank = imax u64) /\
    from_accounting amount (mint_decimals w (stable_mint x)) = Ok raw /\
    transfer_checked w (vault_pda (stable_mint x)) (stable_mint x) (issuance h) raw
      (mint_decimals w (stable_mint x)) = Ok w' /\
    bank' = bank <| paper_backed := cover |> /\
    h' = h <| spent := sat u64 (spent h + amount) |> <| funded := cover |> <| last_flow := now |>.
Proof.
  intros [Hd Hl _ _ _] Hp Ha Hrun. unfold issue_paper in Hrun.
  apply bind_ok in Hrun as (? & _ & Hrun). apply bind_ok in Hrun as (? & Hdst & Hrun). apply require_ok in Hdst.
  apply bind_ok in Hrun as (cover & Hc & Hrun). apply bind_ok in Hrun as (g & Hg & Hrun).
  apply bind_ok in Hrun as (? & Hband & Hrun). apply require_ok in Hband.
  apply bind_ok in Hrun as (n & Hpre & Hrun). apply preflight_inv in Hpre as (-> & Hcool & _).
  apply bind_ok in Hrun as (? & Hmin & Hrun). apply require_ok in Hmin.
  apply bind_ok in Hrun as (? & Hmax & Hrun). apply require_ok in Hmax.
  apply bind_ok in Hrun as (? & Hexp & Hrun). apply require_ok in Hexp. cbv zeta in Hrun.
  apply bind_ok in Hrun as (raw & Hraw & Hrun). apply bind_ok in Hrun as (w1 & Ht & Hrun).
  injection Hrun as <- <- <-. pose proof (live_cover_range _ _ _ _ Hp Hc) as Hcr.
  rewrite unfunded_spec in Hg by (try done; unfold_ints; lia). injection Hg as <-.
  exists cover, raw. replace (issuance h) with (sweep_destination x) by lia.
  split_and!; try done; try lia. unfold sat in Hexp. unfold_ints. lia.
Qed.

Lemma redeem_inv bank h risk (w : W) x raw now slot bank' h' w' :
  wf_backing bank h -> 0 <= token_balance w (paper_pda (backing_mint x)) <= imax u64 ->
  redeem_paper paper_pda cfg bank h risk w x raw now slot = Ok (bank', h', w') ->
  let held := token_balance w (paper_pda (backing_mint x)) in
  let dec := mint_decimals w (backing_mint x) in
  let released := spent h * raw / held in
  exists cover rest,
    0 < raw <= held /\ live_cover held dec risk = Ok cover /\
    gauge bank cover <= RELEASE_BELOW_BPS /\ BACKING_COOLDOWN_SECS <= now - last_flow h /\
    0 <= released <= spent h /\ live_cover (held - raw) dec risk = Ok rest /\
    transfer_checked w (paper_pda (backing_mint x)) (backing_mint x) (redemption h) raw dec = Ok w' /\
    bank' = bank <| paper_backed := rest |>
                 <| paper_in_transit := sat u64 (paper_in_transit bank + released) |> /\
    h' = h <| spent := spent h - released |> <| funded := rest |> <| last_flow := now |>.
Proof.
  intros [Hd Hl _ _ Hs] Hp Hrun held dec released. unfold redeem_paper in Hrun. fold held dec in Hrun, Hp.
  apply bind_ok in Hrun as (? & _ & Hrun). apply bind_ok in Hrun as (? & Hdst & Hrun). apply require_ok in Hdst.
  cbv zeta in Hrun. apply bind_ok in Hrun as (? & Hraw & Hrun). apply require_ok in Hraw.
  rewrite andb_true_iff in Hraw.
  apply bind_ok in Hrun as (cover & Hc & Hrun). apply bind_ok in Hrun as (g & Hg & Hrun).
  apply bind_ok in Hrun as (? & Hband & Hrun). apply require_ok in Hband.
  apply bind_ok in Hrun as (n & Hpre & Hrun). apply preflight_inv in Hpre as (-> & Hcool & _).
  apply bind_ok in Hrun as (r & Hr & Hrun). apply bind_ok in Hrun as (w1 & Ht & Hrun).
  apply bind_ok in Hrun as (rest & Hrest & Hrun). injection Hrun as <- <- <-.
  pose proof (live_cover_range _ _ _ _ Hp Hc) as Hcr.
  rewrite unfunded_spec in Hg by (try done; unfold_ints; lia). injection Hg as <-.
  apply eval_inv in Hr as [-> _]. cbn [value aop_fun] in *.
  rewrite Z.max_l, quot_div by (unfold_ints; nia).
  assert (0 <= released <= spent h) as Hrel by (apply mul_div_le; unfold_ints; lia).
  fold released. rewrite Z.min_l by lia.
  rewrite (sat_id u64 (held - raw)) in Hrest by (unfold_ints; lia).
  rewrite (sat_id u64 (spent h - released)) by (unfold_ints; lia).
  exists cover, rest. replace (redemption h) with (sweep_destination x) by lia. split_and!; try done; lia.
Qed.
End LegLaws.

(** ** Histories of the backing account

    The handlers that write the account, in any order, with every other instruction
    in between.  The last three fields record the history: dollars ever issued,
    basis ever reconciled, and when the legs ran. *)
Section History.
Variable key_string : Pubkey -> list Z.
Variable vault_pda paper_pda : Pubkey -> Pubkey.
Context {W : Type} `{RuntimeLaws W}.

Record Books := mkBooks {
  k_bank : Depository;
  k_backing : Backing;
  k_world : W;
  k_clock : Z;
  k_issued : Z;
  k_booked : Z;
  k_flows : list Z
}.

Inductive flow_step : Books -> Books -> Prop :=
| fs_issue s cfg risk x amount now slot b' h' w' : k_clock s <= now -> in_range u64 amount ->
    (forall k, 0 <= token_balance (k_world s) k <= imax u64) -> k_issued s + amount <= imax u64 ->
    issue_paper vault_pda paper_pda cfg (k_bank s) (k_backing s) risk (k_world s) x amount now slot
      = Ok (b', h', w') ->
    flow_step s (mkBooks b' h' w' now (k_issued s + amount) (k_booked s) (now :: k_flows s))
| fs_redeem s cfg risk x raw now slot b' h' w' : k_clock s <= now ->
    (forall k, 0 <= token_balance (k_world s) k <= imax u64) ->
    redeem_paper paper_pda cfg (k_bank s) (k_backing s) risk (k_world s) x raw now slot = Ok (b', h', w') ->
    flow_step s (mkBooks b' h' w' now (k_issued s) (k_booked s) (now :: k_flows s))
| fs_reconcile s cfg signer proceeds now b' h' : k_clock s <= now ->
    reconcile cfg (k_bank s) (k_backing s) signer proceeds now = Ok (b', h') ->
    flow_step s (mkBooks b' h' (k_world s) now (k_issued s)
      (k_booked s + paper_in_transit (k_bank s)) (k_flows s))
| fs_set s cfg signer bump t i r m lo hi h' :
    set_backing key_string cfg (k_backing s) signer bump t i r m lo hi = Ok h' ->
    flow_step s (mkBooks (k_bank s) h' (k_world s) (k_clock s) (k_issued s) (k_booked s) (k_flows s))
| fs_other s b' w' now : k_clock s <= now -> wf_backing b' (k_backing s) ->
    paper_in_transit b' = paper_in_transit (k_bank s) ->
    flow_step s (mkBooks b' (k_backing s) w' now (k_issued s) (k_booked s) (k_flows s)).

Fixpoint spaced (last : Z) (flows : list Z) : Prop :=
  match flows with
  | [] => True
  | t :: flows => t <= last /\ spaced (t - BACKING_COOLDOWN_SECS) flows
  end.

Lemma spaced_mono a b l : a <= b -> spaced a l -> spaced b l.
Proof. destruct l; cbn; [done|]. intros ? []. split; [lia|done]. Qed.

Record books_inv (s : Books) : Prop := {
  bi_wf : wf_backing (k_bank s) (k_backing s);
  bi_booked : 0 <= k_booked s;
  bi_issued : k_issued s <= imax u64;
  bi_ledger : spent (k_backing s) + paper_in_transit (k_bank s) + k_booked s = k_issued s;
  bi_flows : spaced (last_flow (k_backing s)) (k_flows s);
  bi_clock : last_flow (k_backing s) <= k_clock s
}.

Lemma reconcile_inv cfg bank h signer p now bank' h' :
  reconcile cfg bank h signer p now = Ok (bank', h') ->
  signer = admin cfg /\ h' = h <| last_flow := now |> /\
  bank' = if 0 <? paper_in_transit bank
          then bank <| paper_in_transit := 0 |>
                    <| yield_pool := sat u64 (yield_pool bank + (p - paper_in_transit bank)) |>
          else bank.
Proof.
  unfold reconcile. intros Hr. apply bind_ok in Hr as (? & Hs & Hr). apply require_ok in Hs.
  apply bind_ok in Hr as (b & Hb & Hr). injection Hr as <- <-. split; [lia|]. split; [done|].
  destruct (0 <? paper_in_transit bank); [|by injection Hb as <-]. cbv zeta in Hb.
  destruct (paper_in_transit bank <=? p); inv_ok Hb; [done|].
  replace (yield_pool bank + (p - paper_in_transit bank))
    with (yield_pool bank - (paper_in_transit bank - p)) by lia. done.
Qed.

Lemma set_backing_frame cfg h signer bump t i r m lo hi h' :
  set_backing key_string cfg h signer bump t i r m lo hi = Ok h' ->
  spent h' = spent h /\ last_flow h' = last_flow h /\ funded h' = funded h.
Proof. unfold set_backing. intros Hs. inv_ok Hs. done. Qed.

Lemma flow_step_inv s s' : books_inv s -> flow_step s s' -> books_inv s'.
Proof.
  intros [Hwf Hk Hi Hl Hf Hc] Hst. pose proof Hwf as [Hd Hml Hy Ht Hs].
  destruct Hst as [s cfg risk x a now slot b' h' w' Hn Ha Hw Hmax Hrun
    |s cfg risk x raw now slot b' h' w' Hn Hw Hrun
    |s cfg signer p now b' h' Hn Hrun|s cfg signer bump t i r m lo hi h' Hrun|s b' w' now Hn Hwf' Et].
  - apply issue_inv in Hrun as (cover & r & _ & _ & Hcool & _ & _ & _ & _ & -> & ->); [|done..].
    rewrite sat_id by (unfold_ints; lia). unfold BACKING_COOLDOWN_SECS in *.
    split; cbn; try done; try lia; [split; cbn; unfold_ints; lia|].
    split; [lia|]. eapply spaced_mono; [|exact Hf]. unfold BACKING_COOLDOWN_SECS. lia.
  - apply redeem_inv in Hrun as (cover & rest & _ & _ & _ & Hcool & Hrel & _ & _ & -> & ->); [|done..].
    set (rel := spent (k_backing s) * raw / _) in *. rewrite sat_id by (unfold_ints; lia).
    unfold BACKING_COOLDOWN_SECS in *.
    split; cbn; try done; try lia; [split; cbn; unfold_ints; lia|].
    split; [lia|]. eapply spaced_mono; [|exact Hf]. unfold BACKING_COOLDOWN_SECS. lia.
  - apply reconcile_inv in Hrun as (_ & -> & ->).
    assert (spaced now (k_flows s)) by (eapply spaced_mono; [|exact Hf]; lia).
    destruct (Z.ltb_spec 0 (paper_in_transit (k_bank s))); split; cbn; try done; try (unfold_ints; lia);
      split; cbn; try done. by apply sat_in_range.
  - apply set_backing_frame in Hrun as (E1 & E2 & E3).
    split; cbn; rewrite ?E1, ?E2; try done. split; cbn; rewrite ?E1; done.
  - split; cbn; rewrite ?Et; try done; lia.
Qed.

(** C10: The cost ledger of the backing is exact and its legs are rate limited.  From
    a fresh account, after any sequence of issues, redemptions, reconciliations,
    re-wirings and other instructions, every dollar ever sent to the issuer is in
    exactly one place: still spent on paper held, in transit back, or reconciled;
    and any two legs, in either direction, ran at least an hour apart. *)
Theorem backing_ledger_exact s s' : books_inv s -> rtc flow_step s s' ->
  spent (k_backing s') + paper_in_transit (k_bank s') + k_booked s' = k_issued s' /\
  0 <= spent (k_backing s') /\ 0 <= paper_in_transit (k_bank s') /\
  spaced (last_flow (k_backing s')) (k_flows s').
Proof.
  intros Hi Hr. assert (books_inv s') as [[_ _ _ Ht Hs] _ _ Hl Hf _].
  { induction Hr as [|x y z Hxy _ IH]; [done|]. eauto using flow_step_inv. }
  split_and!; try done; unfold_ints; lia.
Qed.

(** The two legs have hysteresis: in a state where paper may be bought, none may
    be sent back on the same mark, by anyone and in any amount, and the purchase
    leaves the pool's cover within its liability. *)
Theorem backing_hysteresis cfg cfg' bank h risk (w : W) x x' amount raw now now' slot slot' r :
  wf_backing bank h -> (forall k, 0 <= token_balance w k <= imax u64) -> in_range u64 amount ->
  issue_paper vault_pda paper_pda cfg bank h risk w x amount now slot = Ok r ->
  (forall r', redeem_paper paper_pda cfg' bank h risk w x' raw now' slot' <> Ok r') /\
  (max_liability bank < imax u64 ->
   exists cover, live_cover (token_balance w (paper_pda (bk_mint h))) (mint_decimals w (bk_mint h)) risk
     = Ok cover /\ cover + amount <= max_liability bank).
Proof.
  intros Hwf Hw Ha Hi. destruct r as [[b1 h1] w1].
  assert (backing_mint x = bk_mint h) as Ex.
  { unfold issue_paper, flow_accounts in Hi. inv_ok Hi. lia. }
  apply issue_inv in Hi as (cover & raw1 & Hc & Hg & _ & _ & Hle & _); [|done..]. rewrite Ex in Hc.
  split; [|intros; exists cover; split; [done|lia]].
  intros [[b2 h2] w2] Hr. assert (backing_mint x' = bk_mint h) as Ex'.
  { unfold redeem_paper, flow_accounts in Hr. inv_ok Hr. lia. }
  apply redeem_inv in Hr as (cover' & rest & _ & Hc' & Hg' & _); [|done..]. rewrite Ex' in Hc'.
  rewrite Hc in Hc'. injection Hc' as <-. unfold FUND_ABOVE_BPS, RELEASE_BELOW_BPS in *. lia.
Qed.

(** Paper the pool holds can always be sent back once the book allows it: with
    the gauge at or below the release level, the cooldown over, the feed fresh and
    the market open, redeeming any part of the holding succeeds, whatever the cost
    basis, the cached cover and the order minimum are. *)
Theorem redeem_never_locked cfg bank h risk (w : W) x raw now slot cover rest :
  let held := token_balance w (paper_pda (bk_mint h)) in
  let dec := mint_decimals w (bk_mint h) in
  wf_backing bank h -> 0 < raw <= held -> held <= imax u64 ->
  stable_mint x ∈ registered_mints cfg -> backing_mint x = bk_mint h -> sweep_destination x = redemption h ->
  token_mint_of w (paper_pda (bk_mint h)) = bk_mint h -> token_mint_of w (redemption h) = bk_mint h ->
  live_cover held dec risk = Ok cover -> live_cover (held - raw) dec risk = Ok rest ->
  gauge bank cover <= RELEASE_BELOW_BPS ->
  BACKING_COOLDOWN_SECS <= now - last_flow h <= imax i64 ->
  cast i64 slot - last_price_slot (actuary risk) <= MAX_BACKING_STALENESS_SLOTS ->
  0 < max_order h ->
  exists bank' h' w', redeem_paper paper_pda cfg bank h risk w x raw now slot = Ok (bank', h', w').
Proof.
  intros held dec Hwf Hraw Hheld Hst Emint Edst Hm1 Hm2 Hc Hrest Hg Hcool Hfresh Hmax.
  pose proof Hwf as [Hd Hl _ _ Hs].
  destruct (transfer_done w (paper_pda (bk_mint h)) (bk_mint h) (redemption h) raw dec) as [w' Hw'];
    [fold held; lia|done..|].
  unfold redeem_paper, flow_accounts. rewrite Emint, Edst. fold held dec.
  rewrite bool_decide_true, !Z.eqb_refl by done. cbn [require bind]. cbv zeta.
  rewrite (proj2 (Z.ltb_lt 0 raw)), (proj2 (Z.leb_le raw held)) by lia. cbn [andb require bind].
  rewrite Hc. cbn [bind].
  assert (in_range u64 cover) as Hcr by (eapply live_cover_range; [|exact Hc]; lia).
  rewrite unfunded_spec by (try done; unfold_ints; lia). cbn [bind].
  rewrite (proj2 (Z.leb_le _ _)) by done. cbn [require bind].
  unfold backing_preflight. rewrite (sat_id i64 (now - _)) by (unfold_ints; unfold BACKING_COOLDOWN_SECS in *; lia).
  rewrite (proj2 (Z.leb_le _ (now - _))) by lia. cbn [require bind].
  rewrite (proj2 (Z.leb_le (sat i64 _) _))
    by (unfold sat; unfold_ints; unfold MAX_BACKING_STALENESS_SLOTS in *; lia).
  rewrite (proj2 (Z.ltb_lt _ _)) by done. cbn [require bind].
  assert (0 <= Z.quot (spent h * raw) held <= spent h) by (apply mul_quot_le; unfold_ints; lia).
  rewrite eval_safe by (cbn [safe value aop_fun]; rewrite Z.max_l by lia; unfold_ints; repeat split; nia).
  cbn [bind]. rewrite Hw'. cbn [bind]. rewrite (sat_id u64 (held - raw)) by (unfold_ints; lia).
  rewrite Hrest. cbn [bind]. eauto.
Qed.

(** Booking a redemption releases the whole claim and moves the yield pool by
    exactly the difference between proceeds and cost, while earnings can pay it;
    principal, liability and cover are untouched.  A shortfall larger than the yield
    pool empties it and the rest is dropped from the books. *)
Theorem reconcile_books_pnl cfg bank h signer p now bank' h' :
  in_range u64 (yield_pool bank) -> 0 < paper_in_transit bank ->
  reconcile cfg bank h signer p now = Ok (bank', h') ->
  signer = admin cfg /\ paper_in_transit bank' = 0 /\ total_deposits bank' = total_deposits bank /\
  max_liability bank' = max_liability bank /\ paper_backed bank' = paper_backed bank /\
  spent h' = spent h /\ funded h' = funded h /\
  (in_range u64 (yield_pool bank + (p - paper_in_transit bank)) ->
   yield_pool bank' - yield_pool bank = p - paper_in_transit bank) /\
  (yield_pool bank + p < paper_in_transit bank -> yield_pool bank' = 0).
Proof.
  intros Hy Ht Hr. apply reconcile_inv in Hr as (-> & -> & ->). rewrite (proj2 (Z.ltb_lt _ _)) by done.
  split_and!; try done; cbn.
  - intros Hin. rewrite sat_id by done. lia.
  - intros. unfold sat. unfold_ints. lia.
Qed.

(** The guard against changing instrument while paper is held reads the cached
    cover, which an issue sets to what the vault held before delivery.  So once a
    first order has been sent, and for as long as no further leg has run, the admin
    can point the backing at another instrument: the order's whole cost stays on the
    books and the paper it buys lands in a vault the legs no longer reach. *)
Theorem rewire_strands_order cfg bank h risk (w : W) x amount now slot bank' h' w' bump t i r m lo hi expect :
  wf_backing bank h -> in_range u64 amount -> token_balance w (paper_pda (backing_mint x)) = 0 ->
  spent h + amount <= imax u64 ->
  issue_paper vault_pda paper_pda cfg bank h risk w x amount now slot = Ok (bank', h', w') ->
  deliverable_mint t = Some expect -> key_string m = expect -> m <> bk_mint h ->
  i <> default_key -> r <> default_key -> MIN_ORDER_DOLLARS <= lo <= hi ->
  exists h'', set_backing key_string cfg h' (admin cfg) bump t i r m lo hi = Ok h'' /\
    bk_mint h'' <> bk_mint h /\ spent h'' = spent h + amount.
Proof.
  intros Hwf Ha Hp Hs Hrun Ht Hk Hm Hi Hr Hlo.
  apply issue_inv in Hrun as (cover & raw & Hc & _ & _ & _ & _ & _ & _ & _ & ->); [|try done..].
  2: { rewrite Hp. by unfold_ints. }
  rewrite Hp in Hc. unfold live_cover in Hc. rewrite orb_true_r in Hc. injection Hc as <-.
  rewrite sat_id by (destruct Hwf; unfold_ints; lia).
  eexists. unfold set_backing. rewrite Z.eqb_refl. cbn [require bind]. rewrite Ht. cbn [ok_or bind].
  rewrite bool_decide_true by done. rewrite (proj2 (Z.eqb_neq i _)), (proj2 (Z.eqb_neq r _)) by done.
  rewrite (proj2 (Z.leb_le MIN_ORDER_DOLLARS lo)), (proj2 (Z.leb_le lo hi)) by lia.
  cbn [negb andb orb require bind]. cbn. rewrite orb_true_r. cbn. done.
Qed.
End History.

(** ** A worked round trip

    A book at 80% of its ceiling buys 2,000 dollars of an instrument priced at 200
    dollars; once the liability has fallen, half of the paper goes back. *)
Definition bk_cfg : ProgramConfig := init_config 1 100 255.
Definition bk_pool (liability : Z) : Depository :=
  depository_default <| total_deposits := 10000000000 |> <| max_liability := liability |>.
Definition bk_wired : Backing := mkBacking 254 200 300 301 0 0 1000000000 5000000000 0.
Definition bk_risk (t : list Z) (price : Z) : TickerRisk :=
  mkTickerRisk t (actuary_default <| last_price := price |> <| last_price_slot := 40000 |>) 253 0 0.
Definition bk_vault (m : Pubkey) : Pubkey := m + 1000.
Definition bk_paper (m : Pubkey) : Pubkey := m + 2000.
Definition bk_world (paper : Z) : Ledger :=
  mkLedger {[1100 := (100, 9000000000); 300 := (100, 0); 2200 := (200, paper); 301 := (200, 0)]}
    {[100 := 6; 200 := 8]} ∅.
Definition buy : BackingFlow := mkFlow 100 200 300.
Definition sell : BackingFlow := mkFlow 100 200 301.
Definition own_risk : TickerRisk := bk_risk aapl 200000000.
Definition first_issue :=
  issue_paper bk_vault bk_paper bk_cfg (bk_pool 8000000000) bk_wired own_risk (bk_world 0) buy 2000000000 4000 41000.

Lemma bk_words n k : 0 <= n <= imax u64 -> 0 <= token_balance (bk_world n) k <= imax u64.
Proof.
  intros Hn. cbn [token_balance ledger_runtime]. unfold led_token, bk_world. cbn [tokens].
  repeat (rewrite lookup_insert; case_decide; [cbn; unfold_ints; lia|]).
  rewrite lookup_singleton. case_decide; cbn; unfold_ints; lia.
Qed.

Lemma bk_wf l h : in_range u64 l -> in_range u64 (spent h) -> wf_backing (bk_pool l) h.
Proof. intros Hl Hs. split; cbn; try done; by unfold_ints. Qed.

Definition start : Books := mkBooks (bk_pool 8000000000) bk_wired (bk_world 0) 1000 0 0 [].

Lemma start_inv : books_inv start.
Proof. split; cbn; try done; try lia. Qed.

(** An issue, then the proceeds of nothing reconciled an hour later. *)
Lemma backing_ledger_exact_witness : exists b h w b' h',
  first_issue = Ok (b, h, w) /\ reconcile bk_cfg b h 1 0 9000 = Ok (b', h') /\
  (spent h' + paper_in_transit b' + (0 + paper_in_transit b) = 0 + 2000000000 /\
   0 <= spent h' /\ 0 <= paper_in_transit b' /\ spaced (last_flow h') [4000]).
Proof.
  destruct first_issue as [[[b h] w]| |] eqn:E; [|vm_compute in E; discriminate E..].
  destruct (reconcile bk_cfg b h 1 0 9000) as [[b' h']| |] eqn:R.
  2, 3: unfold first_issue in E; vm_compute in E; injection E as <- <- _; vm_compute in R; discriminate R.
  exists b, h, w, b', h'. split; [reflexivity|]. split; [exact R|].
  apply (backing_ledger_exact (fun _ => []) bk_vault bk_paper start
    (mkBooks b' h' w 9000 (0 + 2000000000) (0 + paper_in_transit b) [4000]) start_inv).
  unfold first_issue in E.
  refine (rtc_l _ _ _ _ (fs_issue (fun _ => []) bk_vault bk_paper start bk_cfg own_risk buy 2000000000 4000 41000
    b h w _ _ _ _ E) (rtc_once _ _ (fs_reconcile (fun _ => []) bk_vault bk_paper
      (mkBooks b h w 4000 (0 + 2000000000) 0 [4000]) bk_cfg 1 0 9000 b' h' _ R)));
    cbn; try (unfold_ints; lia).
  intros k. apply (bk_words 0 k). unfold_ints. lia.
Defined.

Lemma backing_hysteresis_witness : exists r cover, first_issue = Ok r /\
  (forall r', redeem_paper bk_paper bk_cfg (bk_pool 8000000000) bk_wired own_risk (bk_world 0) sell 5 4000 41000
    <> Ok r') /\
  live_cover 0 8 own_risk = Ok cover /\ cover + 2000000000 <= 8000000000.
Proof.
  destruct first_issue as [r| |] eqn:E; [|vm_compute in E; discriminate E..].
  destruct (backing_hysteresis bk_vault bk_paper bk_cfg bk_cfg (bk_pool 8000000000) bk_wired own_risk
    (bk_world 0) buy sell 2000000000 5 4000 4000 41000 41000 r) as [H1 H2].
  - apply bk_wf; vm_compute; split; discriminate.
  - intros k. apply bk_words. vm_compute; split; discriminate.
  - vm_compute; split; discriminate.
  - exact E.
  - destruct H2 as (cover & Hc & Hle); [reflexivity|].
    exists r, cover. split; [reflexivity|]. split; [exact H1|]. split; [exact Hc|exact Hle].
Defined.

Definition bk_held : Backing := bk_wired <| spent := 0 |> <| min_order := 5000000000 |>.

(** The basis is zero and the holding far below the order minimum. *)
Lemma redeem_never_locked_witness : exists b h w,
  redeem_paper bk_paper bk_cfg (bk_pool 4000000000) bk_held own_risk (bk_world 1000) sell 400 4000 41000
  = Ok (b, h, w).
Proof.
  apply (redeem_never_locked bk_paper bk_cfg (bk_pool 4000000000) bk_held own_risk (bk_world 1000) sell 400
    4000 41000 2000 1200); try (vm_compute; repeat split; discriminate); try (vm_compute; reflexivity).
  left.
Defined.

Definition bk_in_transit : Depository :=
  (bk_pool 4000000000) <| yield_pool := 300 |> <| paper_in_transit := 1000 |>.

(** Proceeds of 900 for a basis of 1000: a loss of 100 out of earnings of 300. *)
Lemma reconcile_books_pnl_witness : exists b h,
  reconcile bk_cfg bk_in_transit bk_held 1 900 9000 = Ok (b, h) /\ yield_pool b - 300 = 900 - 1000.
Proof.
  destruct (reconcile bk_cfg bk_in_transit bk_held 1 900 9000) as [[b h]| |] eqn:E;
    [|vm_compute in E; discriminate E..].
  exists b, h. split; [reflexivity|].
  apply (reconcile_books_pnl bk_cfg bk_in_transit bk_held 1 900 9000 b h);
    [vm_compute; split; discriminate|reflexivity|exact E|vm_compute; split; discriminate].
Defined.

Lemma rewire_strands_order_witness : exists b h w h'', first_issue = Ok (b, h, w) /\
  set_backing (fun _ => default [] (deliverable_mint aapl)) bk_cfg h 1 254 aapl 400 401 201 1000000000 1000000000
    = Ok h'' /\ bk_mint h'' <> 200 /\ spent h'' = 0 + 2000000000.
Proof.
  destruct first_issue as [[[b h] w]| |] eqn:E; [|vm_compute in E; discriminate E..].
  destruct (deliverable_mint aapl) as [expect|] eqn:D; [|vm_compute in D; discriminate D].
  destruct (rewire_strands_order (fun _ => expect) bk_vault bk_paper bk_cfg (bk_pool 8000000000) bk_wired own_risk
    (bk_world 0) buy 2000000000 4000 41000 b h w 254 aapl 400 401 201 1000000000 1000000000 expect)
    as (h'' & Hset & Hm & Hs).
  - apply bk_wf; vm_compute; split; discriminate.
  - vm_compute; split; discriminate.
  - reflexivity.
  - vm_compute; discriminate.
  - exact E.
  - exact D.
  - reflexivity.
  - discriminate.
  - discriminate.
  - discriminate.
  - vm_compute; split; discriminate.
  - exists b, h, w, h''. split; [reflexivity|]. split; [exact Hset|]. split; [exact Hm|exact Hs].
Defined.

(** Nothing ties the mark to the instrument.  The risk account of a leg is found
    by a ticker the caller names, and the backing record does not say which ticker
    its instrument has; here one and the same pool, at the same moment, may buy
    paper on the instrument's own price and may be made to give all of it back on
    the price of another ticker. *)
Theorem mark_is_callers_choice : exists bank h (w : Ledger) risk risk' now slot,
  risk_ticker risk <> risk_ticker risk' /\
  (exists r, issue_paper bk_vault bk_paper bk_cfg bank h risk w buy 1000000000 now slot = Ok r) /\
  (forall raw r, redeem_paper bk_paper bk_cfg bank h risk w sell raw now slot <> Ok r) /\
  exists b' h' w', redeem_paper bk_paper bk_cfg bank h risk' w sell
      (token_balance w (bk_paper (bk_mint h))) now slot = Ok (b', h', w') /\
    token_balance w' (bk_paper (bk_mint h)) = 0.
Proof.
  exists (bk_pool 8000000000), (bk_wired <| spent := 100000000 |>), (bk_world 50000000), own_risk,
    (bk_risk [88; 65; 85] 50000000000), 4000, 41000.
  split; [by vm_compute|]. split; [eexists; by vm_compute|]. split.
  - intros raw r Hr. destruct r as [[b' h'] w'].
    apply redeem_inv in Hr as (cover & rest & _ & Hc & Hg & _).
    + vm_compute in Hc. injection Hc as <-. by vm_compute in Hg.
    + apply bk_wf; vm_compute; split; discriminate.
    + apply bk_words. vm_compute; split; discriminate.
  - do 3 eexists. split; by vm_compute.
Qed.
