(* ===== verification/LZ.v ===== *)
(** * LZ: the bridge to Ethereum

    [svm/programs/quid/src/LZ.rs] and the receive handler of
    [svm/programs/quid/src/lib.rs]: the OApp store and its initialisation, the
    payload codec, [bridge_home] (burn here, release there), [lz_receive] with
    [handle_oft_receive] (mint here what was locked there), the account view for
    the executor ([lz_receive_types_handler]) and the endpoint calls.

    The endpoint, the token program, the serialiser of the call parameters and the
    derivation of program addresses are parameters: a class of runtime operations
    with the laws the bridge relies on.  Account constraints without an error of
    this program end the instruction, as a panic does. *)
From stdpp Require Import gmap.
From S2P Require Import Prelude Pool Chain Vaults Config Sol.

Definition LZ_ENDPOINT_PROGRAM : Pubkey := from_be_bytes
  [90; 173; 118; 218; 81; 75; 110; 29; 207; 17; 3; 126;
   144; 77; 172; 61; 55; 95; 82; 92; 159; 186; 252; 177;
   149; 7; 183; 137; 7; 216; 193; 139].
Definition SOLANA_EID : Z := 30168.
Definition ETHEREUM_EID : Z := 30101.
Definition OFT_BRIDGE_MSG_LEN : nat := 40.
Definition OFT_SHARED_DECIMALS : Z := 6.
Definition QD_LOCAL_DECIMALS : Z := 9.
Definition SD_TO_LOCAL : Z := 1000.
Definition SEND_DISC : list Z := [102; 251; 20; 187; 65; 75; 12; 69].
Definition CLEAR_DISC : list Z := [250; 39; 28; 213; 123; 163; 133; 5].
Definition REGISTER_DISC : list Z := [129; 89; 71; 68; 11; 82; 210; 125].

Record EnforcedOptions := mkOptions { opt_send : list Z; opt_send_and_call : list Z }.

Definition get_enforced_options (o : EnforcedOptions) (composed_msg : option (list Z)) : list Z :=
  match composed_msg with None => opt_send o | Some _ => opt_send_and_call o end.

Record OAppStore := mkStore {
  store_admin : Pubkey;
  store_bump : Z;
  peer_address : list Z;            (* [u8; 32] *)
  store_mint : Pubkey;
  enforced_options : EnforcedOptions
}.

Record LzReceiveParams := mkReceive {
  src_eid : Z;
  sender : list Z;                  (* [u8; 32] *)
  nonce : Z;
  guid : list Z;                    (* [u8; 32] *)
  message : list Z;
  extra_data : list Z
}.

Record SendParams := mkSend {
  dst_eid : Z;
  send_receiver : list Z;           (* [u8; 32] *)
  send_message : list Z;
  send_options : list Z;
  native_fee : Z;
  lz_token_fee : Z
}.

Record ClearParams := mkClear {
  clear_receiver : Pubkey;
  clear_src_eid : Z;
  clear_sender : list Z;
  clear_nonce : Z;
  clear_guid : list Z;
  clear_message : list Z
}.

Record InitOAppStoreParams := mkInitStore {
  init_peer : list Z;
  init_mint : Pubkey;
  init_options_send : list Z
}.

(** ** The parties outside *)
Class Bridge (W : Type) := {
  supply_of : W -> Pubkey -> Z;
  acct_amount : W -> Pubkey -> Z;
  acct_mint : W -> Pubkey -> Pubkey;
  acct_owner : W -> Pubkey -> Pubkey;
  outbox : W -> list SendParams;
  inbox : W -> list ClearParams;    (* verified and not yet cleared *)
  ser_send : SendParams -> list Z;
  ser_clear : ClearParams -> list Z;
  ser_register : Pubkey -> list Z;
  burn : W -> Pubkey -> Pubkey -> Pubkey -> Z -> outcome W;
  invoke_signed : W -> Pubkey -> list AccountMeta -> list Z -> outcome W
}.

(** The SPL mint instruction as this program builds it: mint, destination, and the
    store as the signing authority. *)
Definition mint_to_metas (mint recipient store : Pubkey) : list AccountMeta :=
  [meta_new mint false; meta_new recipient false; meta_readonly store true].

Class BridgeLaws (ids : Ids) (W : Type) `{Bridge W} : Prop := {
  burn_burns : forall w mint from auth n w', burn w mint from auth n = Ok w' ->
    n <= acct_amount w from /\
    (forall m, supply_of w' m = supply_of w m - if m =? mint then n else 0) /\
    outbox w' = outbox w /\ inbox w' = inbox w;
  send_queues : forall w metas p w',
    invoke_signed w LZ_ENDPOINT_PROGRAM metas (SEND_DISC ++ ser_send p) = Ok w' ->
    outbox w' = outbox w ++ [p] /\ (forall m, supply_of w' m = supply_of w m) /\ inbox w' = inbox w;
  clear_settles : forall w metas p w',
    invoke_signed w LZ_ENDPOINT_PROGRAM metas (CLEAR_DISC ++ ser_clear p) = Ok w' ->
    (exists l1 l2, inbox w = l1 ++ p :: l2 /\ inbox w' = l1 ++ l2) /\
    (forall m, supply_of w' m = supply_of w m) /\ outbox w' = outbox w;
  mint_mints : forall w prog mint recipient store n w', is_token_program ids prog = true ->
    in_range u64 n ->
    invoke_signed w prog (mint_to_metas mint recipient store) (7 :: to_le_bytes 8 n) = Ok w' ->
    (forall m, supply_of w' m = supply_of w m + if m =? mint then n else 0) /\
    outbox w' = outbox w /\ inbox w' = inbox w
}.

(** A seeds constraint of the account context. *)
Definition anchor_seeds (b : bool) : outcome unit := if b then Ok tt else Panic.

Definition wrap_in_oft_format (send_to : list Z) (amount_sd : Z) : list Z :=
  send_to ++ to_be_bytes 8 amount_sd.

Section OApp.
Variable store_pda : Z -> option Pubkey.       (* of [OAPP_STORE_SEED, [bump]] *)
Context {W : Type} `{Bridge W}.

(** ** Endpoint calls *)
Definition endpoint_cpi (w : W) (endpoint_program : Pubkey) (discriminator : list Z)
    (accounts : list AccountInfo) (signer_seeds : list Z) (params : list Z) : outcome W :=
  let ix_data := discriminator ++ params in
  let signers := omap store_pda signer_seeds in
  let metas := map (fun acc => mkMeta (key acc) (is_signer acc || bool_decide (key acc ∈ signers))
                                 (is_writable acc)) accounts in
  invoke_signed w endpoint_program metas ix_data.

Definition cpi_send (w : W) (ep : Pubkey) (accounts : list AccountInfo) (seeds : list Z)
    (p : SendParams) : outcome W := endpoint_cpi w ep SEND_DISC accounts seeds (ser_send p).
Definition cpi_clear (w : W) (ep : Pubkey) (accounts : list AccountInfo) (seeds : list Z)
    (p : ClearParams) : outcome W := endpoint_cpi w ep CLEAR_DISC accounts seeds (ser_clear p).
Definition cpi_register_oapp (w : W) (ep : Pubkey) (accounts : list AccountInfo) (seeds : list Z)
    (delegate : Pubkey) : outcome W := endpoint_cpi w ep REGISTER_DISC accounts seeds (ser_register delegate).

(** ** Sending home *)
Definition bridge_home (w : W) (store : OAppStore) (signer mint from endpoint_program : Pubkey)
    (remaining : list AccountInfo) (amount : Z) (to : list Z) (fee : Z) : outcome W :=
  require (mint =? store_mint store) InvalidMint ;;
  require (acct_mint w from =? store_mint store) InvalidMint ;;
  require (acct_owner w from =? signer) Unauthorized ;;
  require (endpoint_program =? LZ_ENDPOINT_PROGRAM) InvalidSettlementProgram ;;
  amount_sd <- u64{ amount / SD_TO_LOCAL } ;;
  require (0 <? amount_sd) InvalidAmount ;;
  let burn_amount := sat u64 (amount_sd * SD_TO_LOCAL) in
  w <- burn w mint from signer burn_amount ;;
  let recipient := replicate 12 0 ++ to in
  cpi_send w LZ_ENDPOINT_PROGRAM remaining [store_bump store]
    (mkSend ETHEREUM_EID (peer_address store) (wrap_in_oft_format recipient amount_sd)
       (get_enforced_options (enforced_options store) None) fee 0).

(** ** Receiving *)
Definition handle_oft_receive (w : W) (store_key expected_mint : Pubkey) (msg : list Z)
    (mint_info recipient_info token_prog : AccountInfo) : outcome W :=
  require (bool_decide (OFT_BRIDGE_MSG_LEN <= length msg)%nat) InvalidMessageFormat ;;
  require (negb (expected_mint =? default_key)) InvalidParameters ;;
  to_bytes <- slice msg 0 32 ;;
  amount_bytes <- slice msg 32 40 ;;
  let amount_sd := from_be_bytes amount_bytes in
  require (0 <? amount_sd) InvalidParameters ;;
  let recipient := from_be_bytes to_bytes in
  require (key mint_info =? expected_mint) InvalidMint ;;
  require (bool_decide (64 <= length (data recipient_info))%nat) InvalidParameters ;;
  owner <- slice (data recipient_info) 32 64 ;;
  require (from_be_bytes owner =? recipient) InvalidParameters ;;
  amount_local <- ok_or (checked_mul amount_sd SD_TO_LOCAL) InvalidParameters ;;
  invoke_signed w (key token_prog) (mint_to_metas (key mint_info) (key recipient_info) store_key)
    (7 :: to_le_bytes 8 amount_local).

Variable oapp_pda : Pubkey -> Pubkey.
Variable nonce_pda : Pubkey -> Z -> list Z -> Pubkey.
Variable payload_pda : Pubkey -> Z -> list Z -> Z -> Pubkey.
Variable endpoint_pda : Pubkey.

(** The named accounts of [LzReceive]. *)
Record LzReceive := mkLz {
  lz_store : AccountInfo;
  lz_registry : AccountInfo;
  lz_nonce : AccountInfo;
  lz_payload : AccountInfo;
  lz_endpoint : AccountInfo;
  lz_program : Pubkey
}.

Definition lz_receive (w : W) (store : OAppStore) (x : LzReceive) (remaining : list AccountInfo)
    (p : LzReceiveParams) : outcome W :=
  anchor_seeds (bool_decide (store_pda (store_bump store) = Some (key (lz_store x)))) ;;
  anchor_seeds (key (lz_registry x) =? oapp_pda (key (lz_store x))) ;;
  anchor_seeds (key (lz_nonce x) =? nonce_pda (key (lz_store x)) (src_eid p) (sender p)) ;;
  anchor_seeds (key (lz_payload x) =? payload_pda (key (lz_store x)) (src_eid p) (sender p) (nonce p)) ;;
  anchor_seeds (key (lz_endpoint x) =? endpoint_pda) ;;
  require (lz_program x =? LZ_ENDPOINT_PROGRAM) InvalidSettlementProgram ;;
  require (bool_decide (length (message p) = OFT_BRIDGE_MSG_LEN)) InvalidMessageFormat ;;
  match remaining with
  | mint_info :: recipient_info :: token_prog :: _ =>
      require (src_eid p =? ETHEREUM_EID) InvalidParameters ;;
      require (bool_decide (peer_address store = sender p)) InvalidParameters ;;
      w <- cpi_clear w LZ_ENDPOINT_PROGRAM
             [lz_store x; lz_registry x; lz_nonce x; lz_payload x; lz_endpoint x] [store_bump store]
             (mkClear (key (lz_store x)) (src_eid p) (sender p) (nonce p) (guid p) (message p)) ;;
      handle_oft_receive w (key (lz_store x)) (store_mint store) (message p)
        mint_info recipient_info token_prog
  | _ => Err InsufficientAccounts
  end.

(** ** The executor's view *)
Definition lz_receive_types_handler (ids : Ids) (store : OAppStore) (mint_info_key mint_program : Pubkey)
    (p : LzReceiveParams) : outcome (list AccountMeta) :=
  require (mint_info_key =? store_mint store) InvalidMint ;;
  require (bool_decide (length (message p) = OFT_BRIDGE_MSG_LEN)) InvalidMessageFormat ;;
  require (src_eid p =? ETHEREUM_EID) InvalidParameters ;;
  to_bytes <- slice (message p) 0 32 ;;
  let recipient := from_be_bytes to_bytes in
  let recipient_ata := ata_of ids recipient (store_mint store) mint_program in
  Ok [mkMeta (store_mint store) false true; mkMeta recipient_ata false true;
      mkMeta mint_program false false].

(** ** Standing the bridge up *)
Variable programdata_pda : Pubkey -> Pubkey.   (* of [program], under the loader *)

(** The two constraints on the accounts [program] and [program_data]. *)
Definition upgrade_authority_gate (payer program : Pubkey) (program_data : AccountInfo) : outcome unit :=
  require (programdata_pda program =? key program_data) InvalidParameters ;;
  let d := data program_data in
  if bool_decide (length d < 45)%nat then Err InvalidParameters else
  variant <- slice d 0 4 ;;
  if negb (from_le_bytes variant =? 3) then Err InvalidParameters else
  has <- slice d 12 13 ;;
  if negb (bool_decide (has = [1])) then Err Unauthorized else
  authority <- slice d 13 45 ;;
  require (from_be_bytes authority =? payer) Unauthorized.

Definition init_oapp_store_handler (w : W) (cfg : ProgramConfig) (payer program : Pubkey)
    (program_data : AccountInfo) (bump : Z) (remaining : list AccountInfo) (p : InitOAppStoreParams)
  : outcome (OAppStore * W) :=
  upgrade_authority_gate payer program program_data ;;
  require (init_mint p =? token_mint cfg) InvalidMint ;;
  let store := mkStore payer bump (init_peer p) (init_mint p) (mkOptions (init_options_send p) []) in
  w <- (if bool_decide (remaining = []) then Ok w
        else cpi_register_oapp w LZ_ENDPOINT_PROGRAM remaining [bump] (store_admin store)) ;;
  Ok (store, w).
End OApp.

(** * Theorems *)

(** ** The payload *)
Lemma oft_header to n tail : length to = 32%nat -> 0 <= n <= imax u64 ->
  let msg := wrap_in_oft_format to n ++ tail in
  (40 <= length msg)%nat /\ slice msg 0 32 = Ok to /\
  slice msg 32 40 = Ok (to_be_bytes 8 n) /\ from_be_bytes (to_be_bytes 8 n) = n.
Proof.
  intros Hl Hn. unfold wrap_in_oft_format. rewrite <- app_assoc. cbv zeta.
  assert (length (to ++ to_be_bytes 8 n ++ tail) = (40 + length tail)%nat) as Hlen
    by (rewrite !length_app, to_be_length; lia).
  split; [lia|]. rewrite !slice_ok by lia. split_and!.
  - f_equal. rewrite drop_0. by apply take_app_length'.
  - f_equal. rewrite drop_app_length' by lia. apply take_app_length'. by rewrite to_be_length.
  - apply be_decode_encode. rewrite pow256_8. lia.
Qed.

Section BridgeTheorems.
Variable ids : Ids.
Variable store_pda : Z -> option Pubkey.
Variable oapp_pda : Pubkey -> Pubkey.
Variable nonce_pda : Pubkey -> Z -> list Z -> Pubkey.
Variable payload_pda : Pubkey -> Z -> list Z -> Z -> Pubkey.
Variable endpoint_pda : Pubkey.
Variable programdata_pda : Pubkey -> Pubkey.
Context {W : Type} `{Bridge W}.

Lemma receive_spec (w : W) store_key mint to n tail mi ri tp :
  length to = 32%nat -> 0 < n -> n * SD_TO_LOCAL <= imax u64 -> mint <> default_key -> key mi = mint ->
  (64 <= length (data ri))%nat -> from_be_bytes (take 32 (drop 32 (data ri))) = from_be_bytes to ->
  handle_oft_receive w store_key mint (wrap_in_oft_format to n ++ tail) mi ri tp =
    invoke_signed w (key tp) (mint_to_metas mint (key ri) store_key) (7 :: to_le_bytes 8 (n * SD_TO_LOCAL)).
Proof.
  intros Hto Hn Hmax Hm Hk Hd Ho. unfold SD_TO_LOCAL in *.
  destruct (oft_header to n tail Hto) as (Hl & H1 & H2 & H3); [unfold_ints; lia|].
  unfold handle_oft_receive, OFT_BRIDGE_MSG_LEN. rewrite bool_decide_true by done.
  rewrite (proj2 (Z.eqb_neq _ _)) by done. cbn [require negb bind]. rewrite H1, H2. cbn [bind]. cbv zeta.
  rewrite H3, (proj2 (Z.ltb_lt _ _)) by done. cbn [require bind]. rewrite Hk, Z.eqb_refl. cbn [require bind].
  rewrite bool_decide_true by done. cbn [require bind]. rewrite slice_ok by done. cbn [bind Nat.sub].
  rewrite Ho, Z.eqb_refl. cbn [require bind]. unfold checked_mul.
  change SD_TO_LOCAL with 1000. rewrite (proj2 (in_rangeb_spec u64 (n * 1000))) by (unfold_ints; lia). done.
Qed.

(** The two ends of the wire agree: what [wrap_in_oft_format] encodes,
    [handle_oft_receive] decodes.  A payload for a recipient and an amount, with or
    without a trailing label, mints exactly a thousand local units per shared unit
    into an account of that recipient, and nothing else about the payload matters. *)
Theorem oft_roundtrip (w : W) store_key mint to n tail mi ri tp :
  length to = 32%nat -> 0 < n -> n * SD_TO_LOCAL <= imax u64 -> mint <> default_key -> key mi = mint ->
  (64 <= length (data ri))%nat -> from_be_bytes (take 32 (drop 32 (data ri))) = from_be_bytes to ->
  handle_oft_receive w store_key mint (wrap_in_oft_format to n ++ tail) mi ri tp =
    invoke_signed w (key tp) (mint_to_metas mint (key ri) store_key) (7 :: to_le_bytes 8 (n * SD_TO_LOCAL)) /\
  length (wrap_in_oft_format to n) = OFT_BRIDGE_MSG_LEN.
Proof.
  intros Hto **. split; [by apply receive_spec|].
  unfold wrap_in_oft_format. rewrite length_app, to_be_length, Hto. done.
Qed.

(** ** Supply across the bridge *)
Definition msg_sd (msg : list Z) : Z := from_be_bytes (take 8 (drop 32 msg)).

(** Local units the peer has locked for us and that are still to be minted, and
    local units burned here that the peer is to release. *)
Definition ours (store : OAppStore) (k : Pubkey) (p : ClearParams) : bool :=
  (clear_receiver p =? k) && (clear_src_eid p =? ETHEREUM_EID)
  && bool_decide (clear_sender p = peer_address store).
Definition due_in (store : OAppStore) (k : Pubkey) (w : W) : Z :=
  SD_TO_LOCAL * sumZ (fun p => if ours store k p then msg_sd (clear_message p) else 0) (inbox w).
Definition due_out (w : W) : Z := SD_TO_LOCAL * sumZ (fun p => msg_sd (send_message p)) (outbox w).
Definition bridged (store : OAppStore) (k : Pubkey) (w : W) : Z :=
  supply_of w (store_mint store) + due_in store k w + due_out w.

Inductive bridge_step (store : OAppStore) (k : Pubkey) : W -> W -> Prop :=
| bs_home w signer mint from ep rem amount to fee w' : in_range u64 amount -> length to = 20%nat ->
    bridge_home store_pda w store signer mint from ep rem amount to fee = Ok w' ->
    bridge_step store k w w'
| bs_receive w x mi ri tp rest p w' : key (lz_store x) = k -> is_token_program ids (key tp) = true ->
    lz_receive store_pda oapp_pda nonce_pda payload_pda endpoint_pda w store x (mi :: ri :: tp :: rest) p
      = Ok w' ->
    bridge_step store k w w'.

Context `{!BridgeLaws ids W}.

Lemma home_conserves store k w signer mint from ep rem amount to fee w' : in_range u64 amount ->
  length to = 20%nat -> bridge_home store_pda w store signer mint from ep rem amount to fee = Ok w' ->
  bridged store k w' = bridged store k w.
Proof.
  intros Ha Hto Hrun. unfold bridge_home in Hrun.
  apply bind_ok in Hrun as (? & Hm & Hrun). apply require_ok in Hm.
  do 3 (apply bind_ok in Hrun as (? & _ & Hrun)).
  apply bind_ok in Hrun as (n & Hn & Hrun). apply eval_inv in Hn as [-> _]. cbn [value aop_fun] in Hrun.
  set (n := Z.quot amount SD_TO_LOCAL) in *.
  assert (n * SD_TO_LOCAL <= amount) as Hle.
  { subst n. unfold SD_TO_LOCAL. rewrite quot_div by (unfold_ints; lia).
    pose proof (Z.mul_div_le amount 1000). lia. }
  apply bind_ok in Hrun as (? & Hpos & Hrun). apply require_ok in Hpos. cbv zeta in Hrun.
  unfold SD_TO_LOCAL in Hle. rewrite (sat_id u64 (n * _)) in Hrun by (unfold SD_TO_LOCAL; unfold_ints; lia).
  apply bind_ok in Hrun as (w1 & Hb & Hrun). apply burn_burns in Hb as (_ & Hs & Ho & Hi).
  unfold cpi_send, endpoint_cpi in Hrun. apply send_queues in Hrun as (Ho' & Hs' & Hi').
  unfold bridged, due_in, due_out. rewrite Hi', Hi, Ho', Ho, Hs', Hs, sumZ_app, sumZ_cons.
  cbn [send_message]. replace (store_mint store =? mint) with true by lia.
  assert (length (replicate 12 0 ++ to) = 32%nat) as H32 by (rewrite length_app, length_replicate; lia).
  generalize dependent (replicate 12 0 ++ to). intros to32 _ H32.
  destruct (oft_header to32 n [] H32) as (Hl & _ & H2 & H3); [unfold_ints; lia|].
  rewrite app_nil_r in *. rewrite slice_ok in H2 by done. injection H2 as H2. cbn [Nat.sub] in H2.
  assert (msg_sd (wrap_in_oft_format to32 n) = n) as -> by (unfold msg_sd; by rewrite H2, H3).
  cbn [sumZ foldr]. lia.
Qed.

Lemma receive_conserves store k w x mi ri tp rest p w' : key (lz_store x) = k ->
  is_token_program ids (key tp) = true ->
  lz_receive store_pda oapp_pda nonce_pda payload_pda endpoint_pda w store x (mi :: ri :: tp :: rest) p
    = Ok w' -> bridged store k w' = bridged store k w.
Proof.
  intros Hk Htp Hrun. unfold lz_receive in Hrun.
  do 6 (apply bind_ok in Hrun as (? & _ & Hrun)).
  apply bind_ok in Hrun as (? & Hlen & Hrun). apply require_ok, bool_decide_eq_true in Hlen.
  apply bind_ok in Hrun as (? & He & Hrun). apply require_ok in He.
  apply bind_ok in Hrun as (? & Hp & Hrun). apply require_ok, bool_decide_eq_true in Hp.
  apply bind_ok in Hrun as (w1 & Hc & Hrun). unfold cpi_clear, endpoint_cpi in Hc.
  apply clear_settles in Hc as ((l1 & l2 & Hi & Hi') & Hs & Ho).
  unfold handle_oft_receive in Hrun.
  do 2 (apply bind_ok in Hrun as (? & _ & Hrun)).
  apply bind_ok in Hrun as (tb & _ & Hrun). apply bind_ok in Hrun as (ab & Hab & Hrun). cbv zeta in Hrun.
  apply bind_ok in Hrun as (? & _ & Hrun). apply bind_ok in Hrun as (? & Hmi & Hrun). apply require_ok in Hmi.
  do 3 (apply bind_ok in Hrun as (? & _ & Hrun)).
  apply bind_ok in Hrun as (n & Hn & Hrun). unfold checked_mul in Hn.
  destruct (in_rangeb u64 (from_be_bytes ab * SD_TO_LOCAL)) eqn:Er; [|done]. cbn in Hn. injection Hn as <-.
  apply mint_mints in Hrun as (Hs' & Ho' & Hi''); [|done|by apply in_rangeb_spec].
  assert (msg_sd (message p) = from_be_bytes ab) as Hsd.
  { unfold msg_sd. unfold OFT_BRIDGE_MSG_LEN in Hlen. rewrite slice_ok in Hab by lia. by injection Hab as <-. }
  unfold bridged, due_in, due_out. rewrite Hi'', Hi', Hi, Ho', Ho, Hs', Hs, !sumZ_app, sumZ_cons.
  replace (store_mint store =? key mi) with true by lia.
  replace (ours store k _) with true; [cbn [clear_message]; rewrite Hsd; lia|].
  unfold ours. cbn. rewrite Hk, Z.eqb_refl, He. symmetry. by apply bool_decide_eq_true.
Qed.

(** C6: The bridge neither creates nor destroys QD.  Over any sequence of transfers
    home and deliveries (each delivery handed a genuine token program), the supply
    here, plus what the peer has locked and is still to be delivered, plus what was
    burned here and is to be released there, does not change: dust below a shared
    unit is never burned, and no message mints twice. *)
Theorem bridge_conserves store k w w' : rtc (bridge_step store k) w w' ->
  bridged store k w' = bridged store k w.
Proof.
  induction 1 as [|x y z Hxy _ IH]; [done|]. rewrite IH. destruct Hxy.
  - by eapply home_conserves.
  - by eapply receive_conserves.
Qed.

(** ** Delivery *)

(** The constraints of the account context. *)
Definition lz_context (store : OAppStore) (x : LzReceive) (p : LzReceiveParams) : Prop :=
  store_pda (store_bump store) = Some (key (lz_store x)) /\
  key (lz_registry x) = oapp_pda (key (lz_store x)) /\
  key (lz_nonce x) = nonce_pda (key (lz_store x)) (src_eid p) (sender p) /\
  key (lz_payload x) = payload_pda (key (lz_store x)) (src_eid p) (sender p) (nonce p) /\
  key (lz_endpoint x) = endpoint_pda /\ lz_program x = LZ_ENDPOINT_PROGRAM.

(** Settling the message with the endpoint. *)
Definition settle (w : W) (store : OAppStore) (x : LzReceive) (p : LzReceiveParams) : outcome W :=
  cpi_clear store_pda w LZ_ENDPOINT_PROGRAM
    [lz_store x; lz_registry x; lz_nonce x; lz_payload x; lz_endpoint x] [store_bump store]
    (mkClear (key (lz_store x)) (src_eid p) (sender p) (nonce p) (guid p) (message p)).

Lemma delivery_runs w store x mi ri tp rest p w1 to n :
  lz_context store x p -> settle w store x p = Ok w1 -> src_eid p = ETHEREUM_EID ->
  sender p = peer_address store -> message p = wrap_in_oft_format to n -> length to = 32%nat ->
  0 < n -> n * SD_TO_LOCAL <= imax u64 -> store_mint store <> default_key -> key mi = store_mint store ->
  (64 <= length (data ri))%nat -> from_be_bytes (take 32 (drop 32 (data ri))) = from_be_bytes to ->
  lz_receive store_pda oapp_pda nonce_pda payload_pda endpoint_pda w store x (mi :: ri :: tp :: rest) p
  = invoke_signed w1 (key tp) (mint_to_metas (store_mint store) (key ri) (key (lz_store x)))
      (7 :: to_le_bytes 8 (n * SD_TO_LOCAL)).
Proof.
  intros (C1 & C2 & C3 & C4 & C5 & C6) Hset He Hs Hm Hto Hn Hmax Hmint Hmi Hd Ho.
  unfold lz_receive. rewrite C2, C3, C4, C5, C6, !Z.eqb_refl, bool_decide_true by done.
  cbn [anchor_seeds require bind].
  rewrite bool_decide_true by (rewrite Hm; unfold wrap_in_oft_format; by rewrite length_app, to_be_length, Hto).
  rewrite (proj2 (Z.eqb_eq (src_eid p) _)), bool_decide_true by done. cbn [require bind].
  unfold settle in Hset. rewrite Hset. cbn [bind]. rewrite Hm.
  rewrite <- (app_nil_r (wrap_in_oft_format to n)). by apply receive_spec.
Qed.

(** The executor's view delivers.  The accounts [lz_receive_types_handler] names
    for a message are the ones [lz_receive] indexes: passed in that order, with the
    endpoint settling the message and the named token account belonging to the
    recipient, the handler passes all its checks and comes down to minting the
    message's amount into that account under the mint's own token program. *)
Theorem types_view_delivers w store x p view mint_program ri rest w1 to n :
  lz_receive_types_handler ids store (store_mint store) mint_program p = Ok view ->
  lz_context store x p -> settle w store x p = Ok w1 -> sender p = peer_address store ->
  message p = wrap_in_oft_format to n -> length to = 32%nat -> 0 < n -> n * SD_TO_LOCAL <= imax u64 ->
  store_mint store <> default_key -> meta_key <$> view !! 1%nat = Some (key ri) ->
  (64 <= length (data ri))%nat -> from_be_bytes (take 32 (drop 32 (data ri))) = from_be_bytes to ->
  exists mi tp, map meta_key view = [key mi; key ri; key tp] /\ key tp = mint_program /\
    key ri = ata_of ids (from_be_bytes to) (store_mint store) mint_program /\
    lz_receive store_pda oapp_pda nonce_pda payload_pda endpoint_pda w store x (mi :: ri :: tp :: rest) p
    = invoke_signed w1 mint_program (mint_to_metas (store_mint store) (key ri) (key (lz_store x)))
        (7 :: to_le_bytes 8 (n * SD_TO_LOCAL)).
Proof.
  intros Hv Hc Hset Hs Hm Hto Hn Hmax Hmint Hri Hd Ho. unfold lz_receive_types_handler in Hv.
  rewrite Z.eqb_refl in Hv. cbn [require bind] in Hv.
  apply bind_ok in Hv as (? & _ & Hv). apply bind_ok in Hv as (? & He & Hv). apply require_ok in He.
  apply bind_ok in Hv as (tb & Ht & Hv). injection Hv as <-. cbn in Hri. injection Hri as Hri.
  destruct (oft_header to n [] Hto) as (_ & H1 & _); [unfold SD_TO_LOCAL in *; unfold_ints; lia|].
  rewrite app_nil_r, <- Hm, Ht in H1. injection H1 as ->.
  exists (mkAccount (store_mint store) [] false true), (mkAccount mint_program [] false false).
  split; [cbn; by rewrite Hri|]. split; [done|]. split; [by symmetry|].
  eapply (delivery_runs w store x (mkAccount (store_mint store) [] false true) ri
    (mkAccount mint_program [] false false)); try done. lia.
Qed.

(** The store's signature is handed to whatever program the caller lists third.
    [lz_receive] checks every account but the token program, and then calls it with
    the store, the mint authority of QD, marked as a signer: for every program key
    the delivery of a settled message is a signed call of that program. *)
Theorem caller_program_gets_signature w store x mi ri tp rest p w1 to n :
  lz_context store x p -> settle w store x p = Ok w1 -> src_eid p = ETHEREUM_EID ->
  sender p = peer_address store -> message p = wrap_in_oft_format to n -> length to = 32%nat ->
  0 < n -> n * SD_TO_LOCAL <= imax u64 -> store_mint store <> default_key -> key mi = store_mint store ->
  (64 <= length (data ri))%nat -> from_be_bytes (take 32 (drop 32 (data ri))) = from_be_bytes to ->
  exists metas d, mkMeta (key (lz_store x)) true false ∈ metas /\
    lz_receive store_pda oapp_pda nonce_pda payload_pda endpoint_pda w store x (mi :: ri :: tp :: rest) p
    = invoke_signed w1 (key tp) metas d.
Proof.
  intros. eexists _, _. split; [|by eapply delivery_runs]. unfold mint_to_metas, meta_readonly.
  right. right. left.
Qed.

(** The store can be stood up by the upgrade authority of any program.  The gate
    reads the upgrade authority of the account [program], and nothing says that it
    is this program: whoever deployed some upgradeable program passes it, chooses the
    peer whose messages mint QD, and becomes the admin. *)
Theorem init_gate_any_program w cfg payer program pd bump p slot_bytes tail :
  programdata_pda program = key pd -> 0 <= payer < 256 ^ 32 -> length slot_bytes = 8%nat ->
  data pd = [3; 0; 0; 0] ++ slot_bytes ++ [1] ++ to_be_bytes 32 payer ++ tail ->
  init_mint p = token_mint cfg ->
  init_oapp_store_handler store_pda programdata_pda w cfg payer program pd bump [] p =
    Ok (mkStore payer bump (init_peer p) (token_mint cfg) (mkOptions (init_options_send p) []), w).
Proof.
  intros Hpd Hp Hs Hd Hm. unfold init_oapp_store_handler, upgrade_authority_gate.
  rewrite Hpd, Z.eqb_refl. cbn [require bind]. cbv zeta. rewrite Hd.
  do 9 (destruct slot_bytes as [|? slot_bytes]; try done).
  cbn [app]. set (a := to_be_bytes 32 payer).
  assert (length a = 32%nat) as Ha by apply to_be_length.
  rewrite bool_decide_false by (cbn [length]; rewrite length_app; lia).
  rewrite !slice_ok by (cbn [length]; rewrite length_app; lia).
  cbn [bind drop Nat.sub take from_le_bytes]. cbn [Z.eqb Z.add Z.mul Pos.eqb negb].
  rewrite bool_decide_true by done. cbn [negb bind].
  rewrite drop_0, take_app_length' by done. subst a. rewrite be_decode_encode by done.
  rewrite Hm, !Z.eqb_refl. cbn [negb require bind]. rewrite bool_decide_true by done. done.
Qed.
End BridgeTheorems.

(** ** An executable endpoint and token program

    Parameters are serialised through their countable encoding.  Program 666 is a
    stranger's: called with a signer, it uses that signature to mint to itself. *)
#[export] Instance SendParams_eq_dec : EqDecision SendParams.
Proof. solve_decision. Defined.
#[export] Instance ClearParams_eq_dec : EqDecision ClearParams.
Proof. solve_decision. Defined.
#[export] Program Instance SendParams_countable : Countable SendParams :=
  inj_countable' (fun p => (dst_eid p, send_receiver p, send_message p, send_options p, native_fee p, lz_token_fee p))
    (fun '(a, b, c, d, e, f) => mkSend a b c d e f) _.
Next Obligation. by intros []. Qed.
#[export] Program Instance ClearParams_countable : Countable ClearParams :=
  inj_countable' (fun p => (clear_receiver p, clear_src_eid p, clear_sender p, clear_nonce p, clear_guid p,
                            clear_message p))
    (fun '(a, b, c, d, e, f) => mkClear a b c d e f) _.
Next Obligation. by intros []. Qed.

Record Sim := mkSim {
  sim_supply : gmap Z Z;
  sim_accts : gmap Z (Z * Z * Z);   (* account -> mint, owner, amount *)
  sim_out : list SendParams;
  sim_in : list ClearParams
}.

Definition sim_ser {A} `{Countable A} (a : A) : list Z := [Zpos (encode a)].
Definition sim_de {A} `{Countable A} (l : list Z) : option A :=
  match l with [Zpos p] => decode p | _ => None end.

Definition sim_add (w : Sim) (m n : Z) : Sim :=
  mkSim (<[m := default 0 (sim_supply w !! m) + n]> (sim_supply w)) (sim_accts w) (sim_out w) (sim_in w).

Fixpoint remove_first {A} `{EqDecision A} (a : A) (l : list A) : option (list A) :=
  match l with
  | [] => None
  | b :: l => if decide (b = a) then Some l else option_map (cons b) (remove_first a l)
  end.

Definition sim_endpoint (w : Sim) (d : list Z) : outcome Sim :=
  if bool_decide (take 8 d = SEND_DISC) then
    match sim_de (A := SendParams) (drop 8 d) with
    | Some p => Ok (mkSim (sim_supply w) (sim_accts w) (sim_out w ++ [p]) (sim_in w))
    | None => Panic
    end
  else if bool_decide (take 8 d = CLEAR_DISC) then
    match sim_de (A := ClearParams) (drop 8 d) with
    | Some p => match remove_first p (sim_in w) with
                | Some l => Ok (mkSim (sim_supply w) (sim_accts w) (sim_out w) l)
                | None => Panic
                end
    | None => Panic
    end
  else Ok w.

Definition sim_invoke (w : Sim) (prog : Pubkey) (metas : list AccountMeta) (d : list Z) : outcome Sim :=
  if prog =? LZ_ENDPOINT_PROGRAM then sim_endpoint w d else
  match metas with
  | m :: _ =>
      if prog =? 666 then
        if existsb meta_signer metas then Ok (sim_add w (meta_key m) 1000000000000000) else Ok w
      else if (prog =? 6) && bool_decide (take 1 d = [7])
      then Ok (sim_add w (meta_key m) (from_le_bytes (drop 1 d))) else Panic
  | [] => Panic
  end.

Definition sim_acct (w : Sim) (k : Pubkey) : Z * Z * Z := default (0, 0, 0) (sim_accts w !! k).

#[export] Instance sim_bridge : Bridge Sim := {
  supply_of w m := default 0 (sim_supply w !! m);
  acct_amount w k := (sim_acct w k).2;
  acct_mint w k := (sim_acct w k).1.1;
  acct_owner w k := (sim_acct w k).1.2;
  outbox := sim_out;
  inbox := sim_in;
  ser_send := sim_ser;
  ser_clear := sim_ser;
  ser_register k := [k];
  burn w mint from auth n :=
    if n <=? (sim_acct w from).2 then Ok (sim_add w mint (- n)) else Panic;
  invoke_signed := sim_invoke
}.

Lemma sim_de_ser {A} `{Countable A} (a : A) : sim_de (sim_ser a) = Some a.
Proof. unfold sim_de, sim_ser. apply decode_encode. Qed.

Lemma remove_first_some {A} `{EqDecision A} (a : A) l l' : remove_first a l = Some l' ->
  exists l1 l2, l = l1 ++ a :: l2 /\ l' = l1 ++ l2.
Proof.
  revert l'. induction l as [|b l IH]; cbn; [done|]. intros l'. case_decide as E.
  - intros [= <-]. subst b. by exists [], l.
  - destruct (remove_first a l) as [r|]; [|done]. intros [= <-].
    destruct (IH r eq_refl) as (l1 & l2 & -> & ->). by exists (b :: l1), l2.
Qed.

Lemma sim_add_supply w m n k :
  default 0 (sim_supply (sim_add w m n) !! k) = default 0 (sim_supply w !! k) + if k =? m then n else 0.
Proof.
  cbn. destruct (Z.eqb_spec k m) as [->|].
  - by rewrite lookup_insert_eq.
  - rewrite lookup_insert_ne by done. lia.
Qed.

Definition sim_ids : Ids := mkIds 6 6 8 (fun o m p => o + 7 * m + p).

#[export] Instance sim_laws : BridgeLaws sim_ids Sim.
Proof.
  split; cbn [burn invoke_signed supply_of outbox inbox acct_amount ser_send ser_clear sim_bridge].
  - intros w mint from auth n w'. destruct (Z.leb_spec n (sim_acct w from).2); [|done]. intros [= <-].
    split_and!; try done. intros m. rewrite sim_add_supply. destruct (m =? mint);
      [apply Z.add_opp_r|by rewrite Z.add_0_r, Z.sub_0_r].
  - intros w metas p w' Hi. unfold sim_invoke in Hi. rewrite Z.eqb_refl in Hi. unfold sim_endpoint in Hi.
    rewrite take_app_length', drop_app_length', sim_de_ser in Hi by done.
    rewrite bool_decide_true in Hi by done. by injection Hi as <-.
  - intros w metas p w' Hi. unfold sim_invoke in Hi. rewrite Z.eqb_refl in Hi. unfold sim_endpoint in Hi.
    rewrite take_app_length', drop_app_length', sim_de_ser in Hi by done.
    rewrite bool_decide_false, bool_decide_true in Hi by done.
    destruct (remove_first p (sim_in w)) eqn:E; [|done]. injection Hi as <-. by apply remove_first_some in E.
  - intros w prog mint ri st n w' Hp Hn Hi. unfold is_token_program in Hp. cbn in Hp.
    assert (prog = 6) as -> by lia. unfold sim_invoke in Hi. unfold mint_to_metas in Hi.
    rewrite (proj2 (Z.eqb_neq 6 LZ_ENDPOINT_PROGRAM)) in Hi by (by vm_compute).
    cbn [Z.eqb Pos.eqb andb] in Hi. change (take 1 (7 :: to_le_bytes 8 n)) with [7] in Hi.
    assert (from_le_bytes (drop 1 (7 :: to_le_bytes 8 n)) = n) as En.
    { change (drop 1 (7 :: to_le_bytes 8 n)) with (to_le_bytes 8 n).
      rewrite le_decode_encode, pow256_8, Z.mod_small; [done|]. unfold_ints. lia. }
    rewrite bool_decide_true, En in Hi by done. injection Hi as <-. split_and!; try done.
    apply sim_add_supply.
Qed.

(** ** A message that is delivered, and one that is not what it seems *)
Definition peer : list Z := replicate 12 0 ++ replicate 20 171.
Definition sim_store : OAppStore := mkStore 1 255 peer 77 (mkOptions [0; 3] []).
Definition sim_pda (bump : Z) : option Pubkey := if bump =? 255 then Some 5000 else None.
Definition alice : list Z := to_be_bytes 32 4242.
Definition letter : LzReceiveParams :=
  mkReceive ETHEREUM_EID peer 1 (replicate 32 9) (wrap_in_oft_format alice 250) [].
Definition sim_world : Sim :=
  mkSim {[77 := 900000]} {[800 := (77, 9, 700000)]} []
    [mkClear 5000 ETHEREUM_EID peer 1 (replicate 32 9) (wrap_in_oft_format alice 250)].
Definition info (k : Pubkey) : AccountInfo := mkAccount k [] false true.
Definition sim_accounts : LzReceive := mkLz (info 5000) (info 5001) (info 5002) (info 5003) (info 5004)
  LZ_ENDPOINT_PROGRAM.
Definition alice_ata (k : Pubkey) : AccountInfo := mkAccount k (to_be_bytes 32 77 ++ alice ++ replicate 101 0) false true.
Definition sim_receive (tp : Pubkey) : outcome Sim :=
  lz_receive sim_pda (fun _ => 5001) (fun _ _ _ => 5002) (fun _ _ _ _ => 5003) 5004 sim_world sim_store
    sim_accounts [info 77; alice_ata 900; info tp] letter.

Lemma oft_roundtrip_witness :
  handle_oft_receive sim_world 5000 77 (wrap_in_oft_format alice 250 ++ [1; 2; 3]) (info 77) (alice_ata 900) (info 6)
  = Ok (sim_add sim_world 77 250000) /\ length (wrap_in_oft_format alice 250) = 40%nat.
Proof.
  destruct (oft_roundtrip sim_world 5000 77 alice 250 [1; 2; 3] (info 77) (alice_ata 900) (info 6))
    as [Hr Hl]; try (vm_compute; reflexivity); try (vm_compute; discriminate).
  - vm_compute. repeat constructor.
  - split; [|exact Hl]. rewrite Hr. vm_compute. reflexivity.
Defined.

(** One delivery and one transfer home of 123,456 local units, of which 456 are dust
    and stay. *)
Lemma bridge_conserves_witness : exists w1 w2, sim_receive 6 = Ok w1 /\
  bridge_home sim_pda w1 sim_store 9 77 800 LZ_ENDPOINT_PROGRAM [] 123456 (replicate 20 7) 10 = Ok w2 /\
  bridged sim_store 5000 w2 = bridged sim_store 5000 sim_world.
Proof.
  destruct (sim_receive 6) as [w1| |] eqn:E1; [|vm_compute in E1; discriminate E1..].
  destruct (bridge_home sim_pda w1 sim_store 9 77 800 LZ_ENDPOINT_PROGRAM [] 123456 (replicate 20 7) 10)
    as [w2| |] eqn:E2.
  2, 3: vm_compute in E1; injection E1 as <-; vm_compute in E2; discriminate E2.
  exists w1, w2. split; [reflexivity|]. split; [exact E2|].
  apply (bridge_conserves sim_ids sim_pda (fun _ => 5001) (fun _ _ _ => 5002) (fun _ _ _ _ => 5003) 5004).
  apply (rtc_l _ _ w1); [|apply rtc_once].
  - exact (bs_receive sim_ids sim_pda (fun _ => 5001) (fun _ _ _ => 5002) (fun _ _ _ _ => 5003) 5004 sim_store 5000
      sim_world sim_accounts (info 77) (alice_ata 900) (info 6) [] letter w1 eq_refl eq_refl E1).
  - refine (bs_home sim_ids sim_pda _ _ _ _ sim_store 5000 w1 9 77 800 LZ_ENDPOINT_PROGRAM [] 123456
      (replicate 20 7) 10 w2 _ eq_refl E2). vm_compute; split; discriminate.
Defined.

Lemma sim_context : lz_context sim_pda (fun _ => 5001) (fun _ _ _ => 5002) (fun _ _ _ _ => 5003) 5004
  sim_store sim_accounts letter.
Proof. repeat split. Qed.

Lemma types_view_delivers_witness : exists view mi tp w1,
  lz_receive_types_handler sim_ids sim_store 77 6 letter = Ok view /\
  map meta_key view = [key mi; key (alice_ata 4787); key tp] /\
  lz_receive sim_pda (fun _ => 5001) (fun _ _ _ => 5002) (fun _ _ _ _ => 5003) 5004 sim_world sim_store
    sim_accounts [mi; alice_ata 4787; tp] letter
  = invoke_signed w1 6 (mint_to_metas 77 4787 5000) (7 :: to_le_bytes 8 250000).
Proof.
  destruct (lz_receive_types_handler sim_ids sim_store 77 6 letter) as [view| |] eqn:Ev;
    [|vm_compute in Ev; discriminate Ev..].
  destruct (settle sim_pda sim_world sim_store sim_accounts letter) as [w1| |] eqn:Es;
    [|vm_compute in Es; discriminate Es..].
  destruct (types_view_delivers sim_ids sim_pda (fun _ => 5001) (fun _ _ _ => 5002) (fun _ _ _ _ => 5003) 5004
    sim_world sim_store sim_accounts letter view 6 (alice_ata 4787) [] w1 alice 250)
    as (mi & tp & Hv & _ & _ & Hr);
    [exact Ev|exact sim_context|exact Es|reflexivity|reflexivity|reflexivity|reflexivity
    |vm_compute; discriminate|discriminate| |vm_compute; repeat constructor|reflexivity|].
  - vm_compute in Ev. injection Ev as <-. reflexivity.
  - exists view, mi, tp, w1. split; [reflexivity|]. split; [exact Hv|exact Hr].
Defined.

(** A letter for 250 shared units, delivered with the stranger's program: the supply
    rises by ten to the fifteenth. *)
Lemma caller_program_gets_signature_witness :
  (exists metas d w1, mkMeta 5000 true false ∈ metas /\ sim_receive 666 = invoke_signed w1 666 metas d) /\
  exists w', sim_receive 666 = Ok w' /\ supply_of w' 77 - supply_of sim_world 77 = 1000000000000000.
Proof.
  split.
  - destruct (settle sim_pda sim_world sim_store sim_accounts letter) as [w1| |] eqn:Es;
      [|vm_compute in Es; discriminate Es..].
    destruct (caller_program_gets_signature sim_pda (fun _ => 5001) (fun _ _ _ => 5002) (fun _ _ _ _ => 5003) 5004
      sim_world sim_store sim_accounts (info 77) (alice_ata 900) (info 666) [] letter w1 alice 250)
      as (metas & d & Hm & Hr);
      [exact sim_context|exact Es|reflexivity|reflexivity|reflexivity|reflexivity|reflexivity
      |vm_compute; discriminate|discriminate|reflexivity|vm_compute; repeat constructor|reflexivity|].
    exists metas, d, w1. split; [exact Hm|exact Hr].
  - destruct (sim_receive 666) as [w'| |] eqn:E; [|vm_compute in E; discriminate E..].
    exists w'. split; [reflexivity|]. vm_compute in E. injection E as <-. vm_compute. reflexivity.
Defined.

(** The deployer of program 31337 points the bridge at a peer of its own. *)
Definition own_program_data : AccountInfo :=
  mkAccount 31338 ([3; 0; 0; 0] ++ replicate 8 0 ++ [1] ++ to_be_bytes 32 1234 ++ []) false false.

Lemma init_gate_any_program_witness :
  init_oapp_store_handler sim_pda (fun k => k + 1) sim_world (init_config 1 77 255) 1234 31337 own_program_data
    255 [] (mkInitStore (replicate 32 66) 77 [])
  = Ok (mkStore 1234 255 (replicate 32 66) 77 (mkOptions [] []), sim_world).
Proof.
  apply (init_gate_any_program sim_pda (fun k => k + 1) sim_world (init_config 1 77 255) 1234 31337
    own_program_data 255 (mkInitStore (replicate 32 66) 77 []) (replicate 8 0) []);
    try reflexivity. vm_compute; split; [discriminate|reflexivity].
Defined.
