(* ===== verification/Abi.v ===== *)
(** * Abi: the hop's calldata encoder

    [quid-ln/quid-hop/src/evm_codec.rs] and [abi.rs]: the ABI tokens, their
    head/tail encoding, and the calldata builders of every call the hop sends to
    Ethereum.  The encoder is compared with an independent decoder written from the
    Solidity ABI: a type says how its values are laid out, and decoding follows
    offsets from the start of the enclosing tuple.

    Byte strings are lists of integers; a 256-bit integer is a [Z].  The hash
    function is a parameter.  [debug_assert!] is absent from release builds and is
    not part of the encoder; [unreachable!] arms are empty and never reached, since
    [encode_tuple] calls [head_static] on static and [tail] on dynamic tokens only. *)
From Stdlib Require Import String.
From S2P Require Import Prelude Pool Chain.
Open Scope list_scope.

(** ** Tokens *)
Inductive Tok :=
| Uint (v : Z)
| Address (a : list Z)                     (* 20 bytes *)
| FixedBytes32 (b : list Z)                (* 32 bytes *)
| Bytes (b : list Z)
| BytesArray (items : list (list Z))
| FixedBytes32Array (items : list (list Z))
| Tuple (fields : list Tok)
| UintArray (items : list Z)
| TupleArray (items : list (list Tok))
| StaticWords (words : list (list Z)).

(** Right-aligns a [u64] in its word. *)
Definition word_u64 (n : nat) : list Z := replicate 24 0 ++ to_be_bytes 8 (Z.of_nat n).
Definition address_word (a : list Z) : list Z := replicate 12 0 ++ a.

Definition is_dynamic (t : Tok) : bool :=
  match t with
  | Bytes _ | BytesArray _ | FixedBytes32Array _ | UintArray _ | TupleArray _ => true
  | Tuple _ => true
  | _ => false
  end.

Definition head_static (t : Tok) : list Z :=
  match t with
  | Uint v => to_be_bytes 32 v
  | Address a => address_word a
  | FixedBytes32 b => b
  | StaticWords words => concat words
  | _ => []
  end.

Definition head_len (t : Tok) : nat :=
  match t with
  | StaticWords words => length words * 32
  | _ => 32
  end.

Definition encode_bytes (b : list Z) : list Z :=
  word_u64 (length b) ++ b ++ replicate ((32 - length b mod 32) mod 32) 0.

(** The offset table and the elements of an array of dynamic elements. *)
Fixpoint elements (off : nat) (encs : list (list Z)) (out tails : list Z) : list Z :=
  match encs with
  | [] => out ++ tails
  | enc :: encs => elements (off + length enc) encs (out ++ word_u64 off) (tails ++ enc)
  end.
Definition encode_array (encs : list (list Z)) : list Z :=
  elements (length encs * 32) encs (word_u64 (length encs)) [].

(** The loop of [encode_tuple]; a token comes with its tail. *)
Fixpoint tuple_loop (head_len : nat) (toks : list (Tok * list Z)) (head tail : list Z) : list Z :=
  match toks with
  | [] => head ++ tail
  | (t, tl) :: toks =>
      if is_dynamic t then
        let off := (head_len + length tail)%nat in
        tuple_loop head_len toks (head ++ word_u64 off) (tail ++ tl)
      else tuple_loop head_len toks (head ++ head_static t) tail
  end.
Definition heads_len (toks : list Tok) : nat := sum_list (map head_len toks).
Definition with_tails (tail : Tok -> list Z) (toks : list Tok) : list Z :=
  tuple_loop (heads_len toks) (map (fun t => (t, tail t)) toks) [] [].

Fixpoint tail (t : Tok) : list Z :=
  match t with
  | Bytes b => encode_bytes b
  | BytesArray items => encode_array (map encode_bytes items)
  | FixedBytes32Array items => word_u64 (length items) ++ concat items
  | Tuple fields => with_tails tail fields
  | UintArray items => word_u64 (length items) ++ concat (map (to_be_bytes 32) items)
  | TupleArray items => encode_array (map (with_tails tail) items)
  | _ => []
  end.

Definition encode_tuple (toks : list Tok) : list Z := with_tails tail toks.
Definition encode_struct (toks : list Tok) : list Z := word_u64 32 ++ encode_tuple toks.

(** ** Calldata *)
Record OpenParams := mkOpenParams {
  funding_block_hash_be : list Z;          (* 32 bytes *)
  funding_block_height : Z;                (* u64 *)
  funding_tx_index : Z;                    (* u64 *)
  lp_pubkey : list Z;                      (* 33 bytes *)
  hop_pubkey : list Z;                     (* 33 bytes *)
  lp_identity_pubkey : list Z;             (* 33 bytes *)
  amount_sats : Z;                         (* u64 *)
  funding_taproot : list Z                 (* 32 bytes *)
}.

Record OpenAuth := mkOpenAuth {
  btc_recipient : list Z;                  (* 32 bytes *)
  btc_recipient_pop : list Z;
  lp_payment_point : list Z
}.

Record ExitArming := mkExit {
  prev_values : list Z;                    (* u64 each *)
  prev_scripts : list (list Z);
  cltv_deadline : Z;                       (* u64 *)
  checkpoint_sats : Z;                     (* u64 *)
  signed_exit_tx : list Z
}.

Record TxInclusion := mkInclusion {
  raw : list Z;
  block_hash_be : list Z;                  (* 32 bytes *)
  tx_height : Z;                           (* u64 *)
  tx_index : Z;                            (* u64 *)
  merkle_proof : list (list Z)             (* 32 bytes each *)
}.

Record PpWithdrawal := mkWithdrawal { processooor : list Z; pp_data : list Z }.
Record PpRelayData := mkRelayData {
  recipient : list Z; fee_recipient : list Z; relay_fee_bps : Z }.

Definition open_params_tokens (p : OpenParams) : list Tok :=
  [FixedBytes32 (funding_block_hash_be p); Uint (funding_block_height p); Uint (funding_tx_index p);
   Bytes (lp_pubkey p); Bytes (hop_pubkey p); Bytes (lp_identity_pubkey p); Uint (amount_sats p);
   FixedBytes32 (funding_taproot p)].
Definition open_auth_tokens (a : OpenAuth) : list Tok :=
  [FixedBytes32 (btc_recipient a); Bytes (btc_recipient_pop a); Bytes (lp_payment_point a)].
Definition exit_tokens (x : ExitArming) : list Tok :=
  [UintArray (prev_values x); BytesArray (prev_scripts x); Uint (cltv_deadline x);
   Uint (checkpoint_sats x); Bytes (signed_exit_tx x)].

Definition bytes_le (a b : list Z) : bool :=
  (fix go a b := match a, b with
                 | [], _ => true
                 | _, [] => false
                 | x :: a, y :: b => if x <? y then true else if y <? x then false else go a b
                 end) a b.
Definition sort_funding_pubkeys (a b : list Z) : list Z * list Z :=
  if bytes_le a b then (a, b) else (b, a).

Definition SIG_OPEN_CHANNEL : string :=
  "openChannel((bytes32,uint64,uint256,bytes,bytes,bytes,uint256,bytes32),bytes,bytes32[],(bytes32,bytes,bytes),(uint64[],bytes[],uint64,uint256,bytes)[])".
Definition SIG_SPLICE : string :=
  "splice(bytes32,(bytes32,uint64,uint256,bytes,bytes,bytes,uint256,bytes32),bytes,bytes32[],(uint64[],bytes[],uint64,uint256,bytes)[])".
Definition SIG_RECORD_CLOSE : string :=
  "recordClose(bytes32,(bytes32,uint64,uint256,bytes,bytes,bytes,uint256,bytes32),(bytes,bytes32,bytes32[],uint256))".
Definition SIG_RECORD_FORCE_CLOSE_PERMISSIONLESS : string :=
  "recordForceClosePermissionless(bytes32,(bytes,bytes32,bytes32[],uint256))".
Definition SIG_DELIVER_SWAP_OUT_ONCHAIN : string :=
  "deliverSwapOutOnchain(bytes32,bytes32,(bytes32,uint64,uint256,bytes,bytes,bytes,uint256,bytes32),bytes,bytes32[],bytes,(uint64[],bytes[],uint64,uint256,bytes)[])".
Definition SIG_EMIT_DEAD_MAN_EXIT : string :=
  "emitDeadManExit(bytes32,(bytes32,uint64,uint256,bytes,bytes,bytes,uint256,bytes32),(uint64[],bytes[],uint64,uint256,bytes))".
Definition SIG_REQUEST_SWAP_OUT_ONCHAIN : string :=
  "requestSwapOutOnchain(address,uint256,uint256,bytes32)".
Definition SIG_REGISTER_CHANNEL_CLAIM : string := "registerChannelClaim(bytes32)".
Definition SIG_SETTLE_SWAP_IN_PROVEN : string :=
  "settleSwapInProven((address,address,uint256,uint16),(bytes32,uint32,bytes32,uint256,bytes32[]),bytes)".
Definition SIG_PP_RELAY : string := "relay((address,bytes),(bytes,uint256[8]),uint256)".
Definition SIG_SET_BTC_RECIPIENT : string := "setBtcRecipient(bytes32,bytes)".
Definition SNARK_SCALAR_FIELD : Z :=
  0x30644e72e131a029b85045b68181585d2833e84879b9709143e1f593f0000001.

(** The argument lists, as the builders write them. *)
Definition args_open_channel (p : OpenParams) (raw_funding_tx : list Z) (proof : list (list Z))
    (auth : OpenAuth) (exits : list ExitArming) : list Tok :=
  [Tuple (open_params_tokens p); Bytes raw_funding_tx; FixedBytes32Array proof;
   Tuple (open_auth_tokens auth); TupleArray (map exit_tokens exits)].
Definition args_splice (channel_id : list Z) (p : OpenParams) (raw_splice_tx : list Z)
    (proof : list (list Z)) (exits : list ExitArming) : list Tok :=
  [FixedBytes32 channel_id; Tuple (open_params_tokens p); Bytes raw_splice_tx; FixedBytes32Array proof;
   TupleArray (map exit_tokens exits)].
Definition args_settle_swap_in_proven (seller token : list Z) (price_per_btc slippage_bps : Z)
    (user_refund : list Z) (cltv_height : Z) (inc : TxInclusion) : list Tok :=
  [Tuple [Address seller; Address token; Uint price_per_btc; Uint slippage_bps];
   Tuple [FixedBytes32 user_refund; Uint cltv_height; FixedBytes32 (block_hash_be inc);
          Uint (tx_index inc); FixedBytes32Array (merkle_proof inc)];
   Bytes (raw inc)].
Definition args_deliver_swap_out (swap_id channel_id : list Z) (p : OpenParams) (raw_splice_tx : list Z)
    (proof : list (list Z)) (swapper_script : list Z) (exits : list ExitArming) : list Tok :=
  [FixedBytes32 swap_id; FixedBytes32 channel_id; Tuple (open_params_tokens p); Bytes raw_splice_tx;
   FixedBytes32Array proof; Bytes swapper_script; TupleArray (map exit_tokens exits)].
Definition args_emit_dead_man_exit (channel_id : list Z) (p : OpenParams) (x : ExitArming) : list Tok :=
  [FixedBytes32 channel_id; Tuple (open_params_tokens p); Tuple (exit_tokens x)].
Definition tx_proof (raw_tx block_hash : list Z) (proof : list (list Z)) (index : Z) : Tok :=
  Tuple [Bytes raw_tx; FixedBytes32 block_hash; FixedBytes32Array proof; Uint index].
Definition args_record_close (channel_id : list Z) (p : OpenParams) (raw_tx block_hash : list Z)
    (proof : list (list Z)) (index : Z) : list Tok :=
  [FixedBytes32 channel_id; Tuple (open_params_tokens p); tx_proof raw_tx block_hash proof index].
Definition args_record_force_close (channel_id raw_tx block_hash : list Z) (proof : list (list Z))
    (index : Z) : list Tok :=
  [FixedBytes32 channel_id; tx_proof raw_tx block_hash proof index].
Definition args_pp_relay (w : PpWithdrawal) (proof : list Z) (pub_signals : list Z) (scope : Z) : list Tok :=
  [Tuple [Address (processooor w); Bytes (pp_data w)];
   Tuple [Bytes proof; StaticWords (map (to_be_bytes 32) pub_signals)]; Uint scope].
Definition args_request_swap_out (token : list Z) (usd_amount min_sats : Z) (swap_id : list Z) : list Tok :=
  [Address token; Uint usd_amount; Uint min_sats; FixedBytes32 swap_id].

Section Hashing.
Variable keccak256 : list Z -> list Z.

Definition str_bytes (s : string) : list Z :=
  map (fun c => Z.of_N (Ascii.N_of_ascii c)) (list_ascii_of_string s).
Definition encode_call (signature : string) (args : list Tok) : list Z :=
  take 4 (keccak256 (str_bytes signature)) ++ encode_tuple args.

Definition keys_hash (lp hop : list Z) : list Z := keccak256 (encode_tuple [Bytes lp; Bytes hop]).
Definition channel_id (lp hop txid : list Z) (vout : Z) : list Z :=
  keccak256 (encode_tuple [Bytes lp; Bytes hop; FixedBytes32 txid; Uint vout]).
Definition encode_open_channel p tx proof auth exits :=
  encode_call SIG_OPEN_CHANNEL (args_open_channel p tx proof auth exits).
Definition encode_splice id p tx proof exits := encode_call SIG_SPLICE (args_splice id p tx proof exits).
Definition encode_settle_swap_in_proven seller token price slip refund cltv inc :=
  encode_call SIG_SETTLE_SWAP_IN_PROVEN (args_settle_swap_in_proven seller token price slip refund cltv inc).
Definition encode_deliver_swap_out_onchain swap_id id p tx proof script exits :=
  encode_call SIG_DELIVER_SWAP_OUT_ONCHAIN (args_deliver_swap_out swap_id id p tx proof script exits).
Definition encode_emit_dead_man_exit id p x :=
  encode_call SIG_EMIT_DEAD_MAN_EXIT (args_emit_dead_man_exit id p x).
Definition encode_register_channel_claim id := encode_call SIG_REGISTER_CHANNEL_CLAIM [FixedBytes32 id].
Definition encode_record_close id p tx bh proof i :=
  encode_call SIG_RECORD_CLOSE (args_record_close id p tx bh proof i).
Definition encode_record_force_close_permissionless id tx bh proof i :=
  encode_call SIG_RECORD_FORCE_CLOSE_PERMISSIONLESS (args_record_force_close id tx bh proof i).
Definition encode_pp_relay w proof signals scope :=
  encode_call SIG_PP_RELAY (args_pp_relay w proof signals scope).
Definition encode_set_btc_recipient key pop :=
  encode_call SIG_SET_BTC_RECIPIENT [FixedBytes32 key; Bytes pop].
Definition encode_request_swap_out_onchain token usd sats id :=
  encode_call SIG_REQUEST_SWAP_OUT_ONCHAIN (args_request_swap_out token usd sats id).

Definition pp_withdrawal_context (w : PpWithdrawal) (scope : Z) : Z :=
  from_be_bytes (keccak256 (encode_tuple [Tuple [Address (processooor w); Bytes (pp_data w)]; Uint scope]))
    mod SNARK_SCALAR_FIELD.
End Hashing.

(** [PpRelayData::decode]. *)
Definition relay_addr (w : list Z) : option (list Z) :=
  if existsb (fun b => negb (b =? 0)) (take 12 w) then None else Some (take 20 (drop 12 w)).
Definition relay_decode (d : list Z) : option PpRelayData :=
  if negb (length d =? 96)%nat then None else
  match relay_addr (take 32 d), relay_addr (take 32 (drop 32 d)) with
  | Some r, Some f => Some (mkRelayData r f (from_be_bytes (take 32 (drop 64 d))))
  | _, _ => None
  end.

(** * The Solidity ABI, as a decoder

    Types, whether a type is dynamic, how many bytes it takes in the head of its
    tuple, and decoding.  An all-static tuple is laid out inline, without an offset. *)
Inductive Ty :=
| TUint (bits : nat)
| TAddress
| TBytes32
| TBytes
| TBytesArr
| TBytes32Arr
| TUintArr (bits : nat)
| TTuple (tys : list Ty)
| TTupleArr (tys : list Ty)
| TWords (n : nat).                        (* uint256[n] *)

Fixpoint ty_dyn (ty : Ty) : bool :=
  match ty with
  | TBytes | TBytesArr | TBytes32Arr | TUintArr _ | TTupleArr _ => true
  | TTuple tys => existsb ty_dyn tys
  | _ => false
  end.

Fixpoint ty_head (ty : Ty) : nat :=
  match ty with
  | TTuple tys => if existsb ty_dyn tys then 32 else sum_list (map ty_head tys)
  | TWords n => 32 * n
  | _ => 32
  end%nat.

Definition word_at (d : list Z) (pos : nat) : option (list Z) :=
  if (pos + 32 <=? length d)%nat then Some (take 32 (drop pos d)) else None.
Definition nat_at (d : list Z) (pos : nat) : option nat :=
  w ← word_at d pos; Some (Z.to_nat (from_be_bytes w)).

Definition dec_uint (bits : nat) (d : list Z) (pos : nat) : option Z :=
  w ← word_at d pos;
  if from_be_bytes w <? 2 ^ Z.of_nat bits then Some (from_be_bytes w) else None.

Fixpoint collect {A} (f : nat -> option A) (i n : nat) : option (list A) :=
  match n with
  | O => Some []
  | S n => a ← f i; l ← collect f (S i) n; Some (a :: l)
  end.

Definition dec_bytes (d : list Z) : option (list Z) :=
  n ← nat_at d 0;
  if (32 + n <=? length d)%nat then Some (take n (drop 32 d)) else None.

(** The elements of an array of dynamic elements, found through its offset table. *)
Definition dec_array {A} (dec : list Z -> option A) (d : list Z) : option (list A) :=
  n ← nat_at d 0;
  let body := drop 32 d in
  collect (fun i => off ← nat_at body (32 * i); dec (drop off body)) 0 n.

Section Fields.
Variable dec : Ty -> list Z -> option Tok.
Fixpoint dec_fields (tys : list Ty) (d : list Z) (pos : nat) : option (list Tok) :=
  match tys with
  | [] => Some []
  | ty :: tys =>
      t ← (if ty_dyn ty then off ← nat_at d pos; dec ty (drop off d) else dec ty (drop pos d));
      l ← dec_fields tys d (pos + ty_head ty);
      Some (t :: l)
  end.
End Fields.

Fixpoint dec (ty : Ty) (d : list Z) : option Tok :=
  match ty with
  | TUint bits => Uint <$> dec_uint bits d 0
  | TAddress => w ← word_at d 0;
                if bool_decide (take 12 w = replicate 12 0) then Some (Address (drop 12 w)) else None
  | TBytes32 => FixedBytes32 <$> word_at d 0
  | TBytes => Bytes <$> dec_bytes d
  | TBytesArr => BytesArray <$> dec_array dec_bytes d
  | TBytes32Arr => n ← nat_at d 0; FixedBytes32Array <$> collect (fun i => word_at d (32 + 32 * i)) 0 n
  | TUintArr bits => n ← nat_at d 0; UintArray <$> collect (fun i => dec_uint bits d (32 + 32 * i)) 0 n
  | TTuple tys => Tuple <$> dec_fields dec tys d 0
  | TTupleArr tys =>
      if existsb ty_dyn tys then TupleArray <$> dec_array (fun e => dec_fields dec tys e 0) d
      else n ← nat_at d 0;
           TupleArray <$> collect (fun i => dec_fields dec tys (drop (32 + i * sum_list (map ty_head tys)) d) 0) 0 n
  | TWords n => StaticWords <$> collect (fun i => word_at d (32 * i)) 0 n
  end.

Definition abi_decode (tys : list Ty) (d : list Z) : option (list Tok) := dec_fields dec tys d 0.

(** Tokens of a type.  A tuple must have a dynamic field: that is what the encoder
    supports. *)
Inductive has_ty : Ty -> Tok -> Prop :=
| ht_uint bits v : (bits <= 256)%nat -> 0 <= v < 2 ^ Z.of_nat bits -> has_ty (TUint bits) (Uint v)
| ht_address a : length a = 20%nat -> has_ty TAddress (Address a)
| ht_bytes32 b : length b = 32%nat -> has_ty TBytes32 (FixedBytes32 b)
| ht_bytes b : has_ty TBytes (Bytes b)
| ht_bytes_arr l : has_ty TBytesArr (BytesArray l)
| ht_bytes32_arr l : Forall (fun b => length b = 32%nat) l -> has_ty TBytes32Arr (FixedBytes32Array l)
| ht_uint_arr bits l : (bits <= 256)%nat -> Forall (fun v => 0 <= v < 2 ^ Z.of_nat bits) l ->
    has_ty (TUintArr bits) (UintArray l)
| ht_tuple tys fs : Forall2 has_ty tys fs -> existsb ty_dyn tys = true -> has_ty (TTuple tys) (Tuple fs)
| ht_tuple_arr tys l : Forall (Forall2 has_ty tys) l -> existsb ty_dyn tys = true ->
    has_ty (TTupleArr tys) (TupleArray l)
| ht_words n l : length l = n -> Forall (fun b => length b = 32%nat) l -> has_ty (TWords n) (StaticWords l).

(** * Lemmas *)

(** ** Words *)
Definition fits (n : nat) : Prop := Z.of_nat n < 2 ^ 64.

Lemma word_length n : length (word_u64 n) = 32%nat.
Proof. unfold word_u64. by rewrite length_app, length_replicate, to_be_length. Qed.

Lemma from_le_zeros l k : from_le_bytes (l ++ replicate k 0) = from_le_bytes l.
Proof.
  induction l as [|b l IH]; cbn [app from_le_bytes]; [|by rewrite IH].
  induction k as [|k IH]; [done|]. cbn [replicate from_le_bytes]. rewrite IH. done.
Qed.

Lemma from_be_zeros l k : from_be_bytes (replicate k 0 ++ l) = from_be_bytes l.
Proof.
  unfold from_be_bytes. rewrite rev_app_distr.
  replace (rev (replicate k 0)) with (replicate k 0); [apply from_le_zeros|].
  induction k as [|k IH]; [done|]. cbn [replicate rev]. rewrite <- IH. apply (replicate_S_end k 0).
Qed.

Lemma word_value n : fits n -> from_be_bytes (word_u64 n) = Z.of_nat n.
Proof.
  intros Hn. unfold word_u64. rewrite from_be_zeros. apply be_decode_encode.
  unfold fits in Hn. change (256 ^ Z.of_nat 8) with (2 ^ 64). lia.
Qed.

Lemma word_at_app pre w rest pos : length pre = pos -> length w = 32%nat ->
  word_at (pre ++ w ++ rest) pos = Some w.
Proof.
  intros Hp Hw. unfold word_at. rewrite (proj2 (Nat.leb_le _ _)) by (rewrite !length_app; lia).
  by rewrite drop_app_length', take_app_length' by done.
Qed.

Lemma nat_at_app pre n rest pos : length pre = pos -> fits n ->
  nat_at (pre ++ word_u64 n ++ rest) pos = Some n.
Proof.
  intros Hp Hn. unfold nat_at. rewrite word_at_app by (done || apply word_length). cbn [mbind option_bind].
  by rewrite word_value, Nat2Z.id.
Qed.

Lemma nat_at_head n rest : fits n -> nat_at (word_u64 n ++ rest) 0 = Some n.
Proof. exact (nat_at_app [] n rest 0 eq_refl). Qed.

Lemma dec_uint_app bits v pre rest pos : length pre = pos -> (bits <= 256)%nat ->
  0 <= v < 2 ^ Z.of_nat bits -> dec_uint bits (pre ++ to_be_bytes 32 v ++ rest) pos = Some v.
Proof.
  intros Hp Hb Hv. unfold dec_uint. rewrite word_at_app by (done || apply to_be_length). cbn [mbind option_bind].
  rewrite be_decode_encode.
  - by rewrite (proj2 (Z.ltb_lt _ _)) by lia.
  - split; [lia|]. eapply Z.lt_le_trans; [apply Hv|].
    change (256 ^ Z.of_nat 32) with (2 ^ 256). apply Z.pow_le_mono_r; lia.
Qed.

Lemma word_at_head w rest : length w = 32%nat -> word_at (w ++ rest) 0 = Some w.
Proof. exact (word_at_app [] w rest 0 eq_refl). Qed.

Lemma dec_bytes_app b rest : fits (length b) -> dec_bytes (encode_bytes b ++ rest) = Some b.
Proof.
  intros Hb. unfold dec_bytes, encode_bytes. rewrite <- !app_assoc.
  rewrite nat_at_head by done. cbn [mbind option_bind].
  rewrite (proj2 (Nat.leb_le _ _)) by (rewrite !length_app, word_length; lia). f_equal.
  rewrite drop_app_length' by (by rewrite word_length). by rewrite take_app_length'.
Qed.

(** Reading consecutive words. *)
Lemma collect_words {A} (f : nat -> option A) (enc : A -> list Z) (base : nat) d :
  forall l pre rest i, d = pre ++ concat (map enc l) ++ rest -> length pre = (base + 32 * i)%nat ->
  Forall (fun a => length (enc a) = 32%nat) l ->
  (forall a pre rest i, In a l -> d = pre ++ enc a ++ rest -> length pre = (base + 32 * i)%nat -> f i = Some a) ->
  collect f i (length l) = Some l.
Proof.
  induction l as [|a l IH]; intros pre rest i Hd Hp Hl Hf; [done|]. cbn [collect length].
  inversion Hl as [|? ? Ha Hl']; subst x l0. cbn [map concat] in Hd. rewrite <- app_assoc in Hd.
  rewrite (Hf a pre (concat (map enc l) ++ rest) i) by (done || by left). cbn [mbind option_bind].
  rewrite (IH (pre ++ enc a) rest (S i)); [done|by rewrite <- app_assoc|rewrite length_app; lia|done|].
  intros b ? ? ? Hb. apply Hf. by right.
Qed.

(** ** Arrays of dynamic elements *)
Fixpoint offsets (off : nat) (encs : list (list Z)) : list Z :=
  match encs with
  | [] => []
  | enc :: encs => word_u64 off ++ offsets (off + length enc) encs
  end.

Lemma offsets_length off encs : length (offsets off encs) = (32 * length encs)%nat.
Proof.
  revert off. induction encs as [|e encs IH]; intros off; cbn [offsets length]; [done|].
  rewrite length_app, word_length, IH. lia.
Qed.

Lemma encode_array_eq encs :
  encode_array encs = word_u64 (length encs) ++ offsets (length encs * 32) encs ++ concat encs.
Proof.
  unfold encode_array. generalize (length encs * 32)%nat (word_u64 (length encs)). intros off out.
  enough (forall tails, elements off encs out tails = out ++ offsets off encs ++ tails ++ concat encs) as E
    by apply (E []).
  revert off out. induction encs as [|e encs IH]; intros off out tails; cbn [elements offsets concat].
  { by rewrite app_nil_r. }
  rewrite IH. by rewrite <- !app_assoc.
Qed.

Lemma collect_elements {A} (f : list Z -> option A) (enc : A -> list Z) body :
  forall l pre tp rest i n off, body = pre ++ offsets off (map enc l) ++ tp ++ concat (map enc l) ++ rest ->
  length pre = (32 * i)%nat -> (32 * i + 32 * length l = 32 * n)%nat -> off = (32 * n + length tp)%nat ->
  fits (off + length (concat (map enc l))) ->
  (forall a rest, In a l -> f (enc a ++ rest) = Some a) ->
  collect (fun i => off ← nat_at body (32 * i); f (drop off body)) i (length l) = Some l.
Proof.
  induction l as [|a l IH]; intros pre tp rest i n off Hb Hp Hn Ho Hfit Hf; [done|].
  cbn [collect length map concat offsets] in *. unfold fits in *. rewrite length_app in Hfit.
  set (offs := offsets (off + length (enc a)) (map enc l)) in *.
  assert (length offs = (32 * length l)%nat) as Hoffs by (unfold offs; by rewrite offsets_length, length_map).
  assert (nat_at body (32 * i) = Some off) as ->.
  { rewrite Hb, <- app_assoc. apply nat_at_app; [done|]. unfold fits. lia. }
  cbn [mbind option_bind].
  assert (drop off body = enc a ++ concat (map enc l) ++ rest) as ->.
  { replace body with ((pre ++ word_u64 off ++ offs ++ tp) ++ enc a ++ concat (map enc l) ++ rest)
      by (rewrite Hb; by rewrite <- !app_assoc).
    apply drop_app_length'. rewrite !length_app, word_length. lia. }
  rewrite Hf by (by left). cbn [mbind option_bind].
  rewrite (IH (pre ++ word_u64 off) (tp ++ enc a) rest (S i) n (off + length (enc a))%nat); [done|..].
  - rewrite Hb. by rewrite <- !app_assoc.
  - rewrite length_app, word_length. lia.
  - lia.
  - rewrite length_app. lia.
  - lia.
  - intros. apply Hf. by right.
Qed.

Lemma dec_array_app {A} (f : list Z -> option A) (enc : A -> list Z) l rest :
  fits (length (encode_array (map enc l))) -> (forall a rest, In a l -> f (enc a ++ rest) = Some a) ->
  dec_array f (encode_array (map enc l) ++ rest) = Some l.
Proof.
  rewrite encode_array_eq, !length_app, word_length, offsets_length, length_map. intros Hfit Hf.
  unfold dec_array. rewrite <- !app_assoc.
  rewrite nat_at_head by (unfold fits in *; lia). cbn [mbind option_bind].
  rewrite drop_app_length' by (by rewrite word_length).
  apply (collect_elements f enc _ l [] [] rest 0 (length l) (length l * 32)%nat);
    cbn [length app]; try done; try lia. unfold fits in *. lia.
Qed.

(** ** Tuples *)
Fixpoint heads (hl off : nat) (toks : list Tok) : list Z :=
  match toks with
  | [] => []
  | t :: toks =>
      if is_dynamic t then word_u64 (hl + off) ++ heads hl (off + length (tail t)) toks
      else head_static t ++ heads hl off toks
  end.
Definition tails (toks : list Tok) : list Z :=
  concat (map (fun t => if is_dynamic t then tail t else []) toks).

Lemma encode_tuple_eq toks : encode_tuple toks = heads (heads_len toks) 0 toks ++ tails toks.
Proof.
  unfold encode_tuple, with_tails. generalize (heads_len toks). intros hl.
  enough (forall h t, tuple_loop hl (map (fun t => (t, tail t)) toks) h t =
    h ++ heads hl (length t) toks ++ t ++ tails toks) as E by apply (E [] []).
  unfold tails. induction toks as [|x toks IH]; intros h t; cbn [map tuple_loop heads concat].
  { by rewrite app_nil_r. }
  destruct (is_dynamic x); rewrite IH, ?length_app, <- !app_assoc; done.
Qed.

(** What a token of a type looks like in the head. *)
Lemma has_ty_head ty t : has_ty ty t -> ty_dyn ty = is_dynamic t /\ ty_head ty = head_len t /\
  (is_dynamic t = false -> length (head_static t) = head_len t).
Proof.
  destruct 1 as [b v _ _|a Ha|b Hb|b|l|l _|b l _ _|tys fs _ Hd|tys l _ _|n l Hn Hl];
    cbn [ty_dyn is_dynamic ty_head head_len head_static]; split_and!; intros;
    first [done|by rewrite Hd|lia|by apply to_be_length|idtac].
  - unfold address_word. rewrite length_app, length_replicate. lia.
  - subst n. clear H. induction Hl as [|w l Hw _ IH]; [done|]. cbn [concat length]. rewrite length_app. lia.
Qed.

Lemma heads_length hl toks : forall tys off, Forall2 has_ty tys toks ->
  length (heads hl off toks) = heads_len toks.
Proof.
  unfold heads_len. induction toks as [|t toks IH]; intros tys off Ht; [done|].
  inversion Ht as [|ty ? tys' ? Hty Hts]; subst. destruct (has_ty_head _ _ Hty) as (_ & _ & Hs).
  cbn [heads map sum_list]. destruct (is_dynamic t) eqn:Ed; rewrite length_app, (IH tys') by done.
  - rewrite word_length. destruct t; try done; cbn [head_len]; lia.
  - rewrite Hs by done. done.
Qed.

(** The bytes a token contributes where its type is read. *)
Definition body (t : Tok) : list Z := if is_dynamic t then tail t else head_static t.
Definition decodes (ty : Ty) : Prop := forall t rest, has_ty ty t -> fits (length (body t)) ->
  dec ty (body t ++ rest) = Some t.

Lemma fields_decode d toks : forall tys pre tp rest hl off pos,
  Forall decodes tys -> Forall2 has_ty tys toks ->
  d = pre ++ heads hl off toks ++ tp ++ tails toks ++ rest ->
  length pre = pos -> (pos + heads_len toks = hl)%nat -> length tp = off ->
  fits (hl + off + length (tails toks)) -> dec_fields dec tys d pos = Some toks.
Proof.
  unfold heads_len, tails. induction toks as [|t toks IH];
    intros tys pre tp rest hl off pos Hdec Hty Hd Hp Hhl Ho Hfit;
    inversion Hty as [|ty ? tys' ? Ht Hts]; subst tys; [done|].
  apply Forall_cons in Hdec as [Hd1 Hd2]. cbn [dec_fields map sum_list concat heads] in *.
  change (id (head_len t)) with (head_len t) in Hhl.
  destruct (has_ty_head _ _ Ht) as (Edyn & Ehd & Hst). rewrite Edyn, Ehd.
  unfold fits in *. rewrite length_app in Hfit. set (ts := concat (map _ toks)) in *.
  specialize (Hd1 t). unfold body in Hd1. destruct (is_dynamic t) eqn:Ed.
  - assert (head_len t = 32%nat) as E32 by (destruct t; done).
    set (hs := heads hl (off + length (tail t)) toks) in *.
    assert (length hs = sum_list (map head_len toks)) as Hlen by (by eapply heads_length).
    assert (nat_at d pos = Some (hl + off)%nat) as ->.
    { rewrite Hd, <- !app_assoc. apply nat_at_app; [done|]. unfold fits. lia. }
    cbn [mbind option_bind].
    assert (drop (hl + off) d = tail t ++ ts ++ rest) as ->.
    { replace d with ((pre ++ word_u64 (hl + off) ++ hs ++ tp) ++ tail t ++ ts ++ rest)
        by (rewrite Hd; by rewrite <- !app_assoc).
      apply drop_app_length'. rewrite !length_app, word_length. lia. }
    rewrite Hd1 by (done || unfold fits; lia). cbn [mbind option_bind].
    rewrite (IH tys' (pre ++ word_u64 (hl + off)) (tp ++ tail t) rest hl (off + length (tail t))%nat);
      [done|done|done| | | | |].
    + rewrite Hd. by rewrite <- !app_assoc.
    + rewrite length_app, word_length. lia.
    + lia.
    + rewrite length_app. lia.
    + lia.
  - specialize (Hst eq_refl). cbn [app length] in Hd, Hfit.
    assert (drop pos d = head_static t ++ heads hl off toks ++ tp ++ ts ++ rest) as ->.
    { rewrite Hd, <- !app_assoc. by apply drop_app_length'. }
    rewrite Hd1; [|done|unfold fits; lia]. cbn [mbind option_bind].
    rewrite (IH tys' (pre ++ head_static t) tp rest hl off); [done|done|done| | | | |].
    + rewrite Hd. by rewrite <- !app_assoc.
    + rewrite length_app. lia.
    + lia.
    + done.
    + lia.
Qed.

(** ** Every type decodes *)
Section TyInd.
Variable P : Ty -> Prop.
Hypothesis H_tuple : forall tys, Forall P tys -> P (TTuple tys).
Hypothesis H_tuple_arr : forall tys, Forall P tys -> P (TTupleArr tys).
Hypothesis H_leaf : forall ty, match ty with TTuple _ | TTupleArr _ => False | _ => True end -> P ty.
Fixpoint Ty_nested_ind (ty : Ty) : P ty :=
  let all := fix all (l : list Ty) : Forall P l :=
    match l with [] => Forall_nil_2 _ | ty :: l => Forall_cons_2 _ _ _ (Ty_nested_ind ty) (all l) end in
  match ty with
  | TTuple tys => H_tuple tys (all tys)
  | TTupleArr tys => H_tuple_arr tys (all tys)
  | ty => H_leaf ty I
  end.
End TyInd.

Lemma tuple_decodes tys fs rest : Forall decodes tys -> Forall2 has_ty tys fs ->
  fits (length (encode_tuple fs)) -> dec_fields dec tys (encode_tuple fs ++ rest) 0 = Some fs.
Proof.
  intros Hd Ht Hf. rewrite encode_tuple_eq in *. rewrite length_app in Hf.
  rewrite (heads_length _ _ tys) in Hf by done.
  apply (fields_decode _ fs tys [] [] rest (heads_len fs) 0); try done; [by rewrite <- app_assoc|].
  cbn [length]. unfold fits in *. lia.
Qed.

Lemma concat_words l : Forall (fun b : list Z => length b = 32%nat) l -> length (concat l) = (length l * 32)%nat.
Proof. induction 1 as [|w l Hw _ IH]; [done|]. cbn [concat length]. rewrite length_app. lia. Qed.

Lemma elem_length (encs : list (list Z)) e : In e encs -> (length e <= length (encode_array encs))%nat.
Proof.
  intros Hin. rewrite encode_array_eq, !length_app.
  enough (length e <= length (concat encs))%nat by lia. clear -Hin.
  induction encs as [|x encs IH]; [done|]. cbn [concat]. rewrite length_app.
  destruct Hin as [->|Hin]; [lia|]. specialize (IH Hin). lia.
Qed.

Lemma encode_bytes_length b : (length b <= length (encode_bytes b))%nat.
Proof. unfold encode_bytes. rewrite !length_app. lia. Qed.

Lemma leaf_decodes ty : match ty with TTuple _ | TTupleArr _ => False | _ => True end -> decodes ty.
Proof.
  intros Hleaf t rest Ht. destruct Ht as [b v Hb Hv|a Ha|b Hb|b|l|l Hl|b l Hb Hl|tys fs _ _|tys l _ _|n l Hn Hl];
    try done; unfold body; cbn [is_dynamic tail head_static dec]; intros Hf.
  - pose proof (dec_uint_app b v [] rest 0 eq_refl Hb Hv) as E. cbn [app] in E. by rewrite E.
  - unfold address_word in *. rewrite word_at_head by (rewrite length_app, length_replicate; lia). cbn [mbind option_bind].
    rewrite bool_decide_true by done. done.
  - by rewrite word_at_head.
  - pose proof (encode_bytes_length b). rewrite dec_bytes_app; [done|unfold fits in *; lia].
  - rewrite (dec_array_app dec_bytes encode_bytes l rest); [done|done|]. intros x r Hin.
    apply dec_bytes_app. pose proof (elem_length (map encode_bytes l) (encode_bytes x) (in_map _ _ _ Hin)).
    pose proof (encode_bytes_length x). unfold fits in *. lia.
  - rewrite <- app_assoc. rewrite length_app, word_length, concat_words in Hf by done.
    rewrite nat_at_head by (unfold fits in *; lia). cbn [mbind option_bind].
    rewrite (collect_words _ id 32 (word_u64 (length l) ++ concat l ++ rest) l (word_u64 (length l)) rest 0);
      [done|by rewrite map_id|by rewrite word_length|done|].
    intros x pre r i Hin -> Hp. apply word_at_app; [done|]. rewrite Forall_forall in Hl.
    by apply Hl, list_elem_of_In.
  - rewrite <- app_assoc.
    assert (Forall (fun b => length b = 32%nat) (map (to_be_bytes 32) l)) as Hw
      by (apply Forall_fmap, Forall_true; intros; apply to_be_length).
    rewrite length_app, word_length, concat_words, length_map in Hf by done.
    rewrite nat_at_head by (unfold fits in *; lia). cbn [mbind option_bind].
    rewrite (collect_words _ (to_be_bytes 32) 32 (word_u64 (length l) ++ concat (map (to_be_bytes 32) l) ++ rest)
      l (word_u64 (length l)) rest 0); [done|done|by rewrite word_length| |].
    + apply Forall_true. intros. apply to_be_length.
    + intros x pre r i Hin -> Hp. apply dec_uint_app; [done|done|]. rewrite Forall_forall in Hl.
      by apply Hl, list_elem_of_In.
  - subst n. rewrite (collect_words _ id 0 (concat l ++ rest) l [] rest 0);
      [done|by rewrite map_id|done|done|].
    intros x pre r i Hin -> Hp. apply word_at_app; [done|]. rewrite Forall_forall in Hl.
    by apply Hl, list_elem_of_In.
Qed.

Lemma all_decode ty : decodes ty.
Proof.
  induction ty as [tys IH|tys IH|ty Hl] using Ty_nested_ind; [..|by apply leaf_decodes].
  - intros t rest Ht. inversion Ht as [| | | | | | |? fs Hfs Hdyn| |]; subst. unfold body. cbn [is_dynamic tail dec].
    intros Hf. by rewrite tuple_decodes.
  - intros t rest Ht. inversion Ht as [| | | | | | | |? l Hl Hdyn|]; subst. unfold body. cbn [is_dynamic tail dec].
    rewrite Hdyn. intros Hf.
    rewrite (dec_array_app (fun e => dec_fields dec tys e 0) (with_tails tail) l rest); [done|done|].
    intros fs r Hin. rewrite Forall_forall in Hl. apply tuple_decodes; [done|by apply Hl, list_elem_of_In|].
    pose proof (elem_length (map (with_tails tail) l) (with_tails tail fs) (in_map _ _ _ Hin)).
    unfold fits, encode_tuple in *. lia.
Qed.

(** ** Theorems *)

(** C14: The encoder implements the Solidity ABI on everything it supports: whatever
    nesting of tuples with a dynamic field, arrays of tuples, byte strings, words and
    fixed arrays the arguments have, the decoder written from the ABI reads exactly
    the arguments back, whatever follows the payload. *)
Theorem abi_roundtrip tys toks rest : Forall2 has_ty tys toks ->
  Z.of_nat (length (encode_tuple toks)) < 2 ^ 64 ->
  abi_decode tys (encode_tuple toks ++ rest) = Some toks.
Proof. intros Ht Hf. apply tuple_decodes; [|done|done]. apply Forall_true, all_decode. Qed.

(** ** Signatures

    The canonical spelling of a type, from which the contract's selector is
    computed. *)
Definition dec_digit (n : nat) : string := String (Ascii.ascii_of_nat (48 + n)) EmptyString.
Fixpoint dec_string (fuel n : nat) : string :=
  match fuel with
  | O => EmptyString
  | S fuel => ((if Nat.ltb n 10 then EmptyString else dec_string fuel (Nat.div n 10)) ++
               dec_digit (Nat.modulo n 10))%string
  end.

Fixpoint commas (l : list string) : string :=
  match l with
  | [] => EmptyString
  | [s] => s
  | s :: l => (s ++ "," ++ commas l)%string
  end.

Fixpoint spell (ty : Ty) : string :=
  match ty with
  | TUint bits => "uint" ++ dec_string 4 bits
  | TAddress => "address"
  | TBytes32 => "bytes32"
  | TBytes => "bytes"
  | TBytesArr => "bytes[]"
  | TBytes32Arr => "bytes32[]"
  | TUintArr bits => "uint" ++ dec_string 4 bits ++ "[]"
  | TTuple tys => "(" ++ commas (map spell tys) ++ ")"
  | TTupleArr tys => "(" ++ commas (map spell tys) ++ ")[]"
  | TWords n => "uint256[" ++ dec_string 4 n ++ "]"
  end%string.
Definition signature (name : string) (tys : list Ty) : string :=
  (name ++ "(" ++ commas (map spell tys) ++ ")")%string.

Definition ty_open_params : list Ty := [TBytes32; TUint 64; TUint 256; TBytes; TBytes; TBytes; TUint 256; TBytes32].
Definition ty_open_auth : list Ty := [TBytes32; TBytes; TBytes].
Definition ty_exit : list Ty := [TUintArr 64; TBytesArr; TUint 64; TUint 256; TBytes].
Definition ty_tx_proof : list Ty := [TBytes; TBytes32; TBytes32Arr; TUint 256].

Record wf_open_params (p : OpenParams) : Prop := {
  wo_hash : length (funding_block_hash_be p) = 32%nat;
  wo_height : in_range u64 (funding_block_height p);
  wo_index : in_range u64 (funding_tx_index p);
  wo_amount : in_range u64 (amount_sats p);
  wo_taproot : length (funding_taproot p) = 32%nat
}.
Record wf_exit (x : ExitArming) : Prop := {
  we_values : Forall (in_range u64) (prev_values x);
  we_cltv : in_range u64 (cltv_deadline x);
  we_sats : in_range u64 (checkpoint_sats x)
}.
Definition words (l : list (list Z)) : Prop := Forall (fun b => length b = 32%nat) l.

Lemma u64_uint b v : (64 <= b <= 256)%nat -> in_range u64 v -> has_ty (TUint b) (Uint v).
Proof.
  intros Hb Hv. constructor; [lia|]. unfold_ints. split; [lia|].
  apply (Z.lt_le_trans _ (2 ^ 64)); [lia|]. apply Z.pow_le_mono_r; lia.
Qed.

Lemma open_params_typed p : wf_open_params p -> has_ty (TTuple ty_open_params) (Tuple (open_params_tokens p)).
Proof.
  intros [H1 H2 H3 H4 H5]. constructor; [|done].
  repeat (apply Forall2_cons; split); try done; try (by constructor); by apply u64_uint; [lia|].
Qed.

Lemma exit_typed x : wf_exit x -> Forall2 has_ty ty_exit (exit_tokens x).
Proof.
  intros [H1 H2 H3]. repeat (apply Forall2_cons; split); try done; try (by constructor);
    try (by apply u64_uint; [lia|]).
  constructor; [lia|]. eapply Forall_impl; [exact H1|]. intros v Hv. unfold_ints. lia.
Qed.

Lemma exits_typed xs : Forall wf_exit xs -> has_ty (TTupleArr ty_exit) (TupleArray (map exit_tokens xs)).
Proof.
  intros Hx. constructor; [|done]. apply Forall_fmap. eapply Forall_impl; [exact Hx|].
  intros x. apply exit_typed.
Qed.

Lemma open_auth_typed a : length (btc_recipient a) = 32%nat ->
  has_ty (TTuple ty_open_auth) (Tuple (open_auth_tokens a)).
Proof. intros. constructor; [|done]. repeat (apply Forall2_cons; split); try done; by constructor. Qed.

Lemma tx_proof_typed tx bh proof i : length bh = 32%nat -> words proof -> in_range u64 i ->
  has_ty (TTuple ty_tx_proof) (tx_proof tx bh proof i).
Proof.
  intros. constructor; [|done]. repeat (apply Forall2_cons; split); try done; try (by constructor).
  by apply u64_uint; [lia|].
Qed.

Section Calls.
Variable keccak256 : list Z -> list Z.
Hypothesis keccak_length : forall l, length (keccak256 l) = 32%nat.

(** A payload reaches the function the signature names with the arguments meant:
    the signature is spelt from the argument types, and decoding at those types
    what follows the selector gives the arguments. *)
Definition reaches (payload : list Z) (sig name : string) (tys : list Ty) (args : list Tok) : Prop :=
  sig = signature name tys /\ take 4 payload = take 4 (keccak256 (str_bytes sig)) /\
  (fits (length payload) -> abi_decode tys (drop 4 payload) = Some args).

Lemma call_reaches sig name tys args : sig = signature name tys -> Forall2 has_ty tys args ->
  reaches (encode_call keccak256 sig args) sig name tys args.
Proof.
  intros Hs Ht. unfold reaches, encode_call.
  assert (length (take 4 (keccak256 (str_bytes sig))) = 4%nat) as H4 by (rewrite length_take, keccak_length; lia).
  split; [done|]. rewrite take_app_length', drop_app_length' by done. split; [done|].
  rewrite length_app. intros Hf. rewrite <- (app_nil_r (encode_tuple args)).
  apply tuple_decodes; [apply Forall_true, all_decode|done|]. unfold fits in *. lia.
Qed.

(** The channel calls reach the contract: opening, splicing, delivering a swap,
    arming an exit, recording a close and a force close each carry a signature spelt
    from the very types of the arguments encoded, and decode to those arguments. *)
Theorem channel_calls_reach id swap_id p tx proof auth exits x script bh i :
  length id = 32%nat -> length swap_id = 32%nat -> wf_open_params p -> words proof ->
  length (btc_recipient auth) = 32%nat -> Forall wf_exit exits -> wf_exit x ->
  length bh = 32%nat -> in_range u64 i ->
  reaches (encode_open_channel keccak256 p tx proof auth exits) SIG_OPEN_CHANNEL "openChannel"
    [TTuple ty_open_params; TBytes; TBytes32Arr; TTuple ty_open_auth; TTupleArr ty_exit]
    (args_open_channel p tx proof auth exits) /\
  reaches (encode_splice keccak256 id p tx proof exits) SIG_SPLICE "splice"
    [TBytes32; TTuple ty_open_params; TBytes; TBytes32Arr; TTupleArr ty_exit] (args_splice id p tx proof exits) /\
  reaches (encode_deliver_swap_out_onchain keccak256 swap_id id p tx proof script exits)
    SIG_DELIVER_SWAP_OUT_ONCHAIN "deliverSwapOutOnchain"
    [TBytes32; TBytes32; TTuple ty_open_params; TBytes; TBytes32Arr; TBytes; TTupleArr ty_exit]
    (args_deliver_swap_out swap_id id p tx proof script exits) /\
  reaches (encode_emit_dead_man_exit keccak256 id p x) SIG_EMIT_DEAD_MAN_EXIT "emitDeadManExit"
    [TBytes32; TTuple ty_open_params; TTuple ty_exit] (args_emit_dead_man_exit id p x) /\
  reaches (encode_record_close keccak256 id p tx bh proof i) SIG_RECORD_CLOSE "recordClose"
    [TBytes32; TTuple ty_open_params; TTuple ty_tx_proof] (args_record_close id p tx bh proof i) /\
  reaches (encode_record_force_close_permissionless keccak256 id tx bh proof i)
    SIG_RECORD_FORCE_CLOSE_PERMISSIONLESS "recordForceClosePermissionless"
    [TBytes32; TTuple ty_tx_proof] (args_record_force_close id tx bh proof i).
Proof.
  intros Hid Hsw Hp Hpr Ha Hx Hx1 Hb Hi.
  pose proof (open_params_typed _ Hp). pose proof (exits_typed _ Hx). pose proof (open_auth_typed _ Ha).
  pose proof (tx_proof_typed tx bh proof i Hb Hpr Hi). pose proof (exit_typed _ Hx1).
  split_and!; apply call_reaches; try (by vm_compute);
    repeat (apply Forall2_cons; split); try done; by constructor.
Qed.

Definition ty_settle : list Ty :=
  [TTuple [TAddress; TAddress; TUint 256; TUint 16];
   TTuple [TBytes32; TUint 32; TBytes32; TUint 256; TBytes32Arr]; TBytes].

(** Read at the contract's types, the first word is the seller, whatever follows. *)
Lemma settle_reads_offset n rest seller l1 l2 :
  abi_decode ty_settle (word_u64 n ++ rest) = Some (Tuple (Address seller :: l1) :: l2) ->
  seller = drop 12 (word_u64 n).
Proof.
  unfold abi_decode, ty_settle. cbn [dec_fields ty_dyn existsb orb dec]. rewrite !drop_0.
  intros Hd. apply bind_Some in Hd as (t & Ht & Hd).
  apply bind_Some in Hd as (l & _ & [= -> _]).
  apply fmap_Some in Ht as (fs & Hfs & [= <-]).
  apply bind_Some in Hfs as (t0 & Ht0 & Hfs). apply bind_Some in Hfs as (l' & _ & [= -> _]).
  rewrite word_at_head in Ht0 by apply word_length. cbn [mbind option_bind] in Ht0.
  case_bool_decide; [|done]. congruence.
Qed.

(** C16: Settling a proven swap-in does not reach the contract.  Its terms are an
    all-static tuple, which Solidity lays out inline, and the encoder writes an
    offset for it: the seller the contract reads is the number 96, so for any other
    seller the payload does not decode to the arguments, whatever they are. *)
Theorem settle_swap_in_misencoded seller token price slip refund cltv inc :
  seller <> replicate 19 0 ++ [96] ->
  SIG_SETTLE_SWAP_IN_PROVEN = signature "settleSwapInProven" ty_settle /\
  abi_decode ty_settle (drop 4 (encode_settle_swap_in_proven keccak256 seller token price slip refund cltv inc))
    <> Some (args_settle_swap_in_proven seller token price slip refund cltv inc).
Proof.
  intros Hne. split; [by vm_compute|].
  unfold encode_settle_swap_in_proven, encode_call.
  rewrite drop_app_length' by (rewrite length_take, keccak_length; lia).
  rewrite encode_tuple_eq. intros Hd. apply Hne.
  unfold args_settle_swap_in_proven in Hd. cbn [heads is_dynamic] in Hd. rewrite <- !app_assoc in Hd.
  apply settle_reads_offset in Hd. rewrite Hd. by vm_compute.
Qed.

(** The swap and the relay calls reach their contracts as the channel calls do. *)
Lemma other_calls_reach id key pop token usd sats swap_id w proof signals scope :
  length id = 32%nat -> length key = 32%nat -> length token = 20%nat -> length swap_id = 32%nat ->
  0 <= usd < 2 ^ 256 -> in_range u64 sats -> length (processooor w) = 20%nat ->
  length signals = 8%nat -> 0 <= scope < 2 ^ 256 ->
  reaches (encode_register_channel_claim keccak256 id) SIG_REGISTER_CHANNEL_CLAIM "registerChannelClaim"
    [TBytes32] [FixedBytes32 id] /\
  reaches (encode_set_btc_recipient keccak256 key pop) SIG_SET_BTC_RECIPIENT "setBtcRecipient"
    [TBytes32; TBytes] [FixedBytes32 key; Bytes pop] /\
  reaches (encode_request_swap_out_onchain keccak256 token usd sats swap_id)
    SIG_REQUEST_SWAP_OUT_ONCHAIN "requestSwapOutOnchain" [TAddress; TUint 256; TUint 256; TBytes32]
    (args_request_swap_out token usd sats swap_id) /\
  reaches (encode_pp_relay keccak256 w proof signals scope) SIG_PP_RELAY "relay"
    [TTuple [TAddress; TBytes]; TTuple [TBytes; TWords 8]; TUint 256] (args_pp_relay w proof signals scope).
Proof.
  intros Hid Hk Ht Hs Hu Hm Hp Hg Hc.
  assert (forall v, 0 <= v < 2 ^ 256 -> has_ty (TUint 256) (Uint v)) as H256
    by (intros v Hv; constructor; [done|exact Hv]).
  split_and!; apply call_reaches; try (by vm_compute);
    repeat (apply Forall2_cons; split); try done; try (by constructor); try (by apply H256);
    [by apply u64_uint; [lia|]|constructor; [|done]..].
  - repeat (apply Forall2_cons; split); try done; by constructor.
  - repeat (apply Forall2_cons; split); try done; [by constructor|]. constructor; [by rewrite length_map|].
    apply Forall_fmap, Forall_true. intros. apply to_be_length.
Qed.
End Calls.

(** Encodings of typed arguments are equal only for equal arguments, so equal channel
    ids or key hashes of different channels would be hash collisions. *)
Lemma encode_tuple_inj tys a b : Forall2 has_ty tys a -> Forall2 has_ty tys b ->
  fits (length (encode_tuple a)) -> encode_tuple a = encode_tuple b -> a = b.
Proof.
  intros Ha Hb Hf He.
  pose proof (tuple_decodes tys a [] (Forall_true _ _ all_decode) Ha Hf) as H1.
  rewrite He in Hf. pose proof (tuple_decodes tys b [] (Forall_true _ _ all_decode) Hb Hf) as H2.
  rewrite He in H1. congruence.
Qed.

(** The order of the funding keys does not depend on who is named first. *)
Lemma bytes_le_total a b : bytes_le a b = false -> bytes_le b a = true.
Proof.
  revert b. induction a as [|x a IH]; intros [|y b]; cbn; try done.
  destruct (x <? y) eqn:E1; [done|]. destruct (y <? x) eqn:E2; [done|]. apply IH.
Qed.
Lemma bytes_le_antisym a b : bytes_le a b = true -> bytes_le b a = true -> a = b.
Proof.
  revert b. induction a as [|x a IH]; intros [|y b]; cbn; try done.
  destruct (x <? y) eqn:E1, (y <? x) eqn:E2; try done; [exfalso; lia|].
  intros H1 H2. f_equal; [lia|by apply IH].
Qed.
Lemma sort_funding_pubkeys_comm a b : sort_funding_pubkeys a b = sort_funding_pubkeys b a.
Proof.
  unfold sort_funding_pubkeys. destruct (bytes_le a b) eqn:E1, (bytes_le b a) eqn:E2; try done.
  - by rewrite (bytes_le_antisym a b).
  - apply bytes_le_total in E1. congruence.
Qed.

(** The relay data a withdrawal carries is what [abi.encode] of its three fields
    decodes to. *)
Lemma relay_decode_encode r f bps : length r = 20%nat -> length f = 20%nat -> 0 <= bps < 2 ^ 256 ->
  relay_decode (encode_tuple [Address r; Address f; Uint bps]) = Some (mkRelayData r f bps).
Proof.
  intros Hr Hf Hb. rewrite encode_tuple_eq. unfold tails. cbn [heads is_dynamic head_static map concat app].
  rewrite !app_nil_r. unfold relay_decode, address_word.
  assert (forall a : list Z, length a = 20%nat -> relay_addr (replicate 12 0 ++ a) = Some a) as Ha.
  { intros a Ha. unfold relay_addr. rewrite take_app_length', drop_app_length' by done.
    rewrite take_ge by lia. done. }
  rewrite !length_app, !length_replicate, to_be_length, Hr, Hf. cbn [Nat.add Nat.eqb negb].
  rewrite take_app_length' by (rewrite length_app, length_replicate; lia).
  rewrite drop_app_length' by (rewrite length_app, length_replicate; lia).
  rewrite take_app_length' by (rewrite length_app, length_replicate; lia).
  rewrite Ha by done. rewrite Ha by done.
  rewrite app_assoc, drop_app_length' by (rewrite !length_app, !length_replicate; lia).
  rewrite take_ge by (by rewrite to_be_length).
  rewrite be_decode_encode; [done|]. change (256 ^ Z.of_nat 32) with (2 ^ 256). lia.
Qed.

(** ** Witnesses *)
Definition w_hash (_ : list Z) : list Z := replicate 32 7.
Definition w_params : OpenParams :=
  mkOpenParams (replicate 32 1) 800000 3 (replicate 33 2) (replicate 33 3) (replicate 33 4) 500000 (replicate 32 5).
Definition w_exit : ExitArming := mkExit [100; 200] [[1; 2; 3]; []] 900000 400000 [9; 9].
Definition w_auth : OpenAuth := mkOpenAuth (replicate 32 6) [1] [2; 3].

Lemma w_params_wf : wf_open_params w_params.
Proof. split; try done; by unfold_ints. Qed.
Lemma w_exit_wf : wf_exit w_exit.
Proof. split; [repeat constructor|..]; by unfold_ints. Qed.
Lemma w_hash_length l : length (w_hash l) = 32%nat.
Proof. done. Qed.

Lemma abi_roundtrip_witness :
  abi_decode [TTupleArr ty_exit; TUint 16] (encode_tuple [TupleArray [exit_tokens w_exit]; Uint 5] ++ [1; 2])
    = Some [TupleArray [exit_tokens w_exit]; Uint 5].
Proof.
  apply abi_roundtrip; [|by vm_compute].
  apply Forall2_cons; split; [apply (exits_typed [w_exit]); repeat constructor; apply w_exit_wf|].
  apply Forall2_cons; split; [constructor; [lia|by unfold_ints]|done].
Defined.

Lemma channel_calls_reach_witness :
  abi_decode [TBytes32; TTuple ty_open_params; TTuple ty_exit]
    (drop 4 (encode_emit_dead_man_exit w_hash (replicate 32 8) w_params w_exit))
  = Some (args_emit_dead_man_exit (replicate 32 8) w_params w_exit).
Proof.
  destruct (channel_calls_reach w_hash w_hash_length (replicate 32 8) (replicate 32 9) w_params [1; 2]
    [replicate 32 0] w_auth [w_exit] w_exit [0; 20] (replicate 32 3) 4) as (_ & _ & _ & (_ & _ & Hr) & _).
  - done.
  - done.
  - apply w_params_wf.
  - repeat constructor.
  - done.
  - repeat constructor; apply w_exit_wf.
  - apply w_exit_wf.
  - done.
  - by unfold_ints.
  - apply Hr. by vm_compute.
Defined.

Lemma settle_swap_in_misencoded_witness :
  let inc := mkInclusion [1; 2] (replicate 32 3) 800000 4 [replicate 32 0] in
  abi_decode ty_settle (drop 4 (encode_settle_swap_in_proven w_hash (replicate 20 1) (replicate 20 2)
    60000000000 100 (replicate 32 4) 850000 inc))
  <> Some (args_settle_swap_in_proven (replicate 20 1) (replicate 20 2) 60000000000 100 (replicate 32 4) 850000 inc).
Proof. apply (settle_swap_in_misencoded w_hash w_hash_length). done. Defined.
