(* ===== verification/Signer.v ===== *)
(** * Signer: the validating channel signer

    [quid-ln/quid-ln/src/validating_signer.rs], with the nonce derivation of
    [taproot_signer.rs] and the on-chain comparand of
    [quid-bridge/src/channel_truth.rs].  The signer sits between an untrusted node
    and the funding key of a channel: every request is checked against a policy state
    before the inner signer is asked.

    A method is a state transformer that may refuse; a refusal keeps the changes made
    before it, as in the source.  Hashes, MuSig2 and the inner signer are parameters
    ([Musig], [Inner]); so are the sighashes of the transaction library.  A mutex is
    poisoned only by a panic while it is held, which no method does. *)
From stdpp Require Import gmap.
From Stdlib Require Import String.
From S2P Require Import Prelude Pool Chain Abi.
Open Scope list_scope.

Notation bytes := (list Z).

(** ** A state monad with refusal *)
Definition M (S A : Type) : Type := S -> S * option A.
Definition ret {S A} (a : A) : M S A := fun s => (s, Some a).
Definition refuse {S A} : M S A := fun s => (s, None).
Definition mlet {S A B} (m : M S A) (f : A -> M S B) : M S B :=
  fun s => match m s with (s, Some a) => f a s | (s, None) => (s, None) end.
(** A read that may fail, and a check. *)
Definition asks {S A} (f : S -> option A) : M S A := fun s => (s, f s).
Definition ensure {S} (b : bool) : M S unit := fun s => (s, if b then Some tt else None).

Declare Scope signer_scope.
Delimit Scope signer_scope with signer.
Notation "'let*' x ':=' m 'in' k" := (mlet m (fun x => k))
  (at level 200, x pattern, m at level 100, k at level 200) : signer_scope.
Notation "'do' m 'in' k" := (mlet m (fun _ : unit => k))
  (at level 200, m at level 100, k at level 200) : signer_scope.
Open Scope signer_scope.

(** ** What is outside *)
Record Spices := mkSpices { sp_message : option bytes; sp_extra : option bytes }.

Class Musig := {
  KeyAgg : Type;
  Scalar : Type;
  SecKey : Type;
  sha256 : bytes -> bytes;
  hmac : bytes -> bytes -> bytes;                      (* key, message *)
  key_agg_tweaked : bytes -> bytes -> option KeyAgg;   (* of the two sorted keys *)
  aggregated_xonly : KeyAgg -> bytes;
  round_nonce : KeyAgg -> bytes -> nat -> Spices -> option bytes;
  round_sign : KeyAgg -> bytes -> nat -> Spices -> nat -> bytes -> SecKey -> bytes -> option Scalar
}.

Record TxOut := mkTxOut { to_value : Z; to_script : bytes }.
#[export] Instance TxOut_eq_dec : EqDecision TxOut.
Proof. solve_decision. Defined.
Record Tx := mkTx { tx_prevouts : list (bytes * Z); tx_outputs : list TxOut }.
Record CommitmentTx := mkCommitment { commitment_number : Z; commitment_built : Tx }.
Record ClosingTx := mkClosing { to_holder_value_sat : Z; to_holder_script : bytes; closing_built : Tx }.
Record HTLCDescriptor := mkHtlc { htlc_outpoint : bytes * Z; htlc_tx_output : TxOut }.

(** The wrapped signer; the funding key depends on the splice it belongs to. *)
Class Inner {X : Musig} := {
  funding_pubkey : option bytes -> bytes;
  funding_seckey : option bytes -> SecKey;
  commitment_seed : bytes;
  keyspend_sighash : Tx -> Z -> bytes -> option bytes;              (* input 0, value, script *)
  splice_sighash : Tx -> nat -> list TxOut -> option bytes;
  htlc_sigs : CommitmentTx -> option (list bytes);
  inner_secret : Z -> option bytes;
  inner_validate : CommitmentTx -> bool;
  inner_sign_holder : CommitmentTx -> option bytes;
  inner_sign_counterparty : CommitmentTx -> option bytes;
  inner_sign_closing : ClosingTx -> option bytes;
  inner_sign_htlc : Tx -> nat -> HTLCDescriptor -> option bytes;
  inner_sign_splice : Tx -> nat -> bytes
}.

(** ** The policy state: commitment numbers count down *)
Definition INITIAL_COMMITMENT_NUMBER : Z := 2 ^ 48 - 1.

Record MonotonicState := mkMono {
  highest_holder_commitment_signed : option Z;
  highest_counterparty_commitment_signed : option Z;
  lowest_secret_released : option Z;
  nonce_bindings : gmap bytes bytes
}.
#[export] Instance mono_eta : Eta MonotonicState := fun r =>
  mkMono (highest_holder_commitment_signed r) (highest_counterparty_commitment_signed r)
    (lowest_secret_released r) (nonce_bindings r).
Definition mono0 : MonotonicState := mkMono None None None ∅.

Definition check_no_regression (reached : option Z) (idx : Z) : bool :=
  match reached with Some reached => negb (reached <? idx) | None => true end.
Definition check_not_revoked (released : option Z) (idx : Z) : bool :=
  match released with Some released => negb (released <=? idx) | None => true end.
Definition advance (reached : option Z) (idx : Z) : Z :=
  match reached with Some reached => Z.min reached idx | None => idx end.

Definition record_holder_commitment (idx : Z) (st : MonotonicState) : option MonotonicState :=
  if check_no_regression (highest_holder_commitment_signed st) idx &&
     check_not_revoked (lowest_secret_released st) idx
  then Some (st <| highest_holder_commitment_signed :=
               Some (advance (highest_holder_commitment_signed st) idx) |>)
  else None.

Definition record_counterparty_commitment (idx : Z) (st : MonotonicState) : option MonotonicState :=
  if check_no_regression (highest_counterparty_commitment_signed st) idx
  then Some (st <| highest_counterparty_commitment_signed :=
               Some (advance (highest_counterparty_commitment_signed st) idx) |>)
  else None.

Definition record_secret_release (idx : Z) (st : MonotonicState) : option MonotonicState :=
  if match lowest_secret_released st with Some prev => prev <? idx | None => false end then None
  else Some (st <| lowest_secret_released := Some (advance (lowest_secret_released st) idx) |>).

(** ** The context and the signer *)
Record TaprootSignerContext := mkCtx {
  counterparty_funding_pubkey : bytes;                 (* 33 bytes *)
  funding_value_sat : Z;                               (* u64 *)
  counterparty_closing_nonce : option bytes;
  closing_round : Z;                                   (* u64 *)
  splice_parent_funding_txid : option bytes
}.

Inductive TruthVerdict := NotRecorded | Match | Mismatch.
#[export] Instance TruthVerdict_eq_dec : EqDecision TruthVerdict.
Proof. solve_decision. Defined.
Inductive FundingRole := Lp | Hop.

(** The comparand is attached once and named by its number; what it answers is an
    argument of the call that reads it. *)
Record Signer := mkSigner {
  expected_holder_close_script : bytes;
  policy : MonotonicState;
  taproot_ctx : option TaprootSignerContext;
  ctx_poisoned : bool;
  truth : option (Z * FundingRole);
  truth_recorded : bool;
  splice_continuation : gmap bytes TxOut
}.
#[export] Instance signer_eta : Eta Signer := fun r =>
  mkSigner (expected_holder_close_script r) (policy r) (taproot_ctx r) (ctx_poisoned r) (truth r)
    (truth_recorded r) (splice_continuation r).

Definition signer_new (script : bytes) : Signer := mkSigner script mono0 None false None false ∅.

Definition policy_step (f : MonotonicState -> option MonotonicState) : M Signer unit := fun s =>
  match f (policy s) with
  | Some p => (s <| policy := p |>, Some tt)
  | None => (s, None)
  end.

Definition set_truth_source (id : Z) (role : FundingRole) (s : Signer) : Signer * bool :=
  match truth s with
  | Some _ => (s, false)
  | None => (s <| truth := Some (id, role) |>, true)
  end.

Definition check_closing_payout_script (c : ClosingTx) (expected : bytes) : bool :=
  if to_holder_value_sat c =? 0 then true else bool_decide (to_holder_script c = expected).

Definition check_holder_htlc_tx (tx : Tx) (input : nat) (d : HTLCDescriptor) : bool :=
  match tx_prevouts tx !! input with
  | None => false
  | Some op => bool_decide (op = htlc_outpoint d) &&
               bool_decide (htlc_tx_output d ∈ tx_outputs tx)
  end.

(** ** Nonce derivation *)
Definition COUNTERPARTY_COMMITMENT_NONCE_TAG : bytes := str_bytes "quid/musig2/counterparty-commitment".
Definition DEAD_MAN_EXIT_NONCE_TAG : bytes := str_bytes "quid/musig2/dead-man-exit".
Definition CLOSING_NONCE_BASE : Z := 18446744073709551615.
Definition closing_nonce_height (round : Z) : Z := sat u64 (CLOSING_NONCE_BASE - round).

(** Which of the three rounds a partial is made in. *)
Inductive Round := HolderLocal | CounterpartyRound | DeadMan.
#[export] Instance Round_eq_dec : EqDecision Round.
Proof. solve_decision. Defined.

(** A partial signature, with what it was made from. *)
Record Signed {X : Musig} := mkSigned {
  sg_partial : Scalar;
  sg_pubnonce : bytes;                                 (* ours, 66 bytes *)
  sg_cp_nonce : bytes;                                 (* theirs, 66 bytes *)
  sg_message : bytes;                                  (* 32 bytes *)
  sg_round : Round;
  sg_height : Z
}.

Section Signing.
Context {X : Musig} {I : Inner}.

Definition derive_secnonce_seed (root : bytes) (height : Z) : bytes :=
  hmac (sha256 root) (to_be_bytes 8 height).
Definition derive_secnonce_seed_domain (root : bytes) (height : Z) (domain : bytes) : bytes :=
  hmac (sha256 root) (domain ++ to_be_bytes 8 height).

Definition splice_nonce_height (prev_funding_txid : bytes) (candidate_index : Z) : Z :=
  let h := sha256 (str_bytes "quid-taproot-splice-nonce" ++ prev_funding_txid ++ to_be_bytes 8 candidate_index) in
  let raw := from_be_bytes (take 8 h) in
  cast u64 (2 ^ 48 + Z.land raw (2 ^ 56 - 1)).

(** [channel_key_agg_ctx]: sorted keys, our slot. *)
Definition channel_key_agg_ctx (lp hop mine : bytes) : option (KeyAgg * nat) :=
  let '(lo, hi) := if negb (bytes_le hop lp) then (lp, hop) else (hop, lp) in
  ctx ← key_agg_tweaked lo hi;
  if bool_decide (mine = lo) then Some (ctx, 0%nat)
  else if bool_decide (mine = hi) then Some (ctx, 1%nat) else None.

(** The seed and the spices of a round. *)
Definition round_seed (r : Round) (height : Z) : bytes :=
  match r with
  | HolderLocal => derive_secnonce_seed commitment_seed height
  | CounterpartyRound => derive_secnonce_seed_domain commitment_seed height COUNTERPARTY_COMMITMENT_NONCE_TAG
  | DeadMan => derive_secnonce_seed_domain commitment_seed height DEAD_MAN_EXIT_NONCE_TAG
  end.
Definition round_spices (r : Round) (cp_nonce message : bytes) : Spices :=
  match r with
  | HolderLocal => mkSpices None None
  | CounterpartyRound => mkSpices (Some message) (Some cp_nonce)
  | DeadMan => mkSpices (Some message) None
  end.

(** [our_key_path_partial_holder_local], [_counterparty] and [_deadman]. *)
Definition our_key_path_partial (r : Round) (ka : KeyAgg) (our cp : nat) (sk : SecKey) (height : Z)
    (cp_nonce message : bytes) : option Signed :=
  let seed := round_seed r height in
  let spices := round_spices r cp_nonce message in
  nonce ← round_nonce ka seed our spices;
  s ← round_sign ka seed our spices cp cp_nonce sk message;
  Some (mkSigned X s nonce cp_nonce message r height).

Definition local_pubnonce (ka : KeyAgg) (our : nat) (height : Z) : option bytes :=
  round_nonce ka (round_seed HolderLocal height) our (round_spices HolderLocal [] []).
Definition local_pubnonce_deadman (ka : KeyAgg) (our : nat) (height : Z) (message : bytes) : option bytes :=
  round_nonce ka (round_seed DeadMan height) our (round_spices DeadMan [] message).

(** ** Checks *)
Definition bind_nonce (our_pubnonce cp_nonce message : bytes) (st : MonotonicState) : option MonotonicState :=
  let agg := sha256 (cp_nonce ++ message) in
  match nonce_bindings st !! our_pubnonce with
  | Some prev => if bool_decide (prev = agg)
                 then Some (st <| nonce_bindings := <[our_pubnonce := agg]> (nonce_bindings st) |>)
                 else None
  | None => Some (st <| nonce_bindings := <[our_pubnonce := agg]> (nonce_bindings st) |>)
  end.

Definition sorted_pair (a b : bytes) : bytes * bytes := if bytes_le a b then (a, b) else (b, a).

(** What the comparand answers for a pair of keys and a funded value, or that the
    chain could not be read. *)
Definition Truth : Type := bytes -> bytes -> Z -> option TruthVerdict.

Definition scope_pair (c : TaprootSignerContext) : bytes * bytes :=
  sorted_pair (funding_pubkey (splice_parent_funding_txid c)) (counterparty_funding_pubkey c).
Definition ask (v : Truth) (c : TaprootSignerContext) : option TruthVerdict :=
  v (scope_pair c).1 (scope_pair c).2 (funding_value_sat c).

(** [v1] and [v2] answer the first and the second read. *)
Definition check_against_chain (v1 v2 : Truth) (ctx : TaprootSignerContext)
    (prev : option TaprootSignerContext) (s : Signer) : Signer * bool :=
  match truth s with
  | None => (s, true)
  | Some _ =>
      match ask v1 ctx with
      | None => (s, false)
      | Some Match => (s <| truth_recorded := true |>, true)
      | Some Mismatch =>
          match prev with
          | None => (s, false)
          | Some prev =>
              if bool_decide (splice_parent_funding_txid prev = splice_parent_funding_txid ctx) then (s, false)
              else match ask v2 prev with
                   | Some Match => (s <| truth_recorded := true |>, true)
                   | _ => (s, false)
                   end
          end
      | Some NotRecorded => (s, negb (truth_recorded s))
      end
  end.

Definition key_agg_for (c : TaprootSignerContext) : option (KeyAgg * nat * nat * Z * bytes) :=
  let holder := funding_pubkey (splice_parent_funding_txid c) in
  '(ka, our) ← channel_key_agg_ctx holder (counterparty_funding_pubkey c) holder;
  Some (ka, our, (1 - our)%nat, funding_value_sat c, 81 :: 32 :: aggregated_xonly ka).

Definition taproot_key_agg (s : Signer) : option (KeyAgg * nat * nat * Z * bytes) :=
  if ctx_poisoned s then None else c ← taproot_ctx s; key_agg_for c.

Definition taproot_holder_funding_key (s : Signer) : SecKey :=
  funding_seckey (c ← taproot_ctx s; splice_parent_funding_txid c).

(** The two contradictions of the context in force that poison the signer. *)
Definition regressed_round (prev ctx : TaprootSignerContext) : bool := closing_round ctx <? closing_round prev.
Definition rebound_identity (prev ctx : TaprootSignerContext) : bool :=
  bool_decide (splice_parent_funding_txid prev = splice_parent_funding_txid ctx) &&
  (negb (bool_decide (counterparty_funding_pubkey ctx = counterparty_funding_pubkey prev)) ||
   negb (funding_value_sat ctx =? funding_value_sat prev)).
Definition contradicts (prev : option TaprootSignerContext) (ctx : TaprootSignerContext) : bool :=
  match prev with
  | Some prev => regressed_round prev ctx || rebound_identity prev ctx
  | None => false
  end.

Definition record_scope (ctx : TaprootSignerContext) (s : Signer) : Signer :=
  match splice_parent_funding_txid ctx, key_agg_for ctx with
  | Some parent, Some (_, _, _, value, spk) =>
      s <| splice_continuation := <[parent := mkTxOut value spk]> (splice_continuation s) |>
  | _, _ => s
  end.

Definition provide_taproot_context (v1 v2 : Truth) (ctx : TaprootSignerContext) (s : Signer) : Signer :=
  if contradicts (taproot_ctx s) ctx then s <| ctx_poisoned := true |> else
  let '(s, ok) := check_against_chain v1 v2 ctx (taproot_ctx s) s in
  if negb ok then s <| ctx_poisoned := true |> else
  (record_scope ctx s) <| taproot_ctx := Some ctx |>.

Definition check_splice_continues_funding (tx : Tx) (prev_funding_txid : bytes) (s : Signer) : option unit :=
  expected ← splice_continuation s !! prev_funding_txid;
  if bool_decide (length (filter (fun o => o = expected) (tx_outputs tx)) = 1%nat) then Some tt else None.

(** ** Methods *)
Definition release_commitment_secret (idx : Z) : M Signer bytes :=
  do policy_step (record_secret_release idx) in asks (fun _ => inner_secret idx).

Definition validate_holder_commitment (c : CommitmentTx) : M Signer unit :=
  do policy_step (record_holder_commitment (commitment_number c)) in ensure (inner_validate c).

Definition sign_holder_commitment (c : CommitmentTx) : M Signer bytes :=
  do policy_step (record_holder_commitment (commitment_number c)) in asks (fun _ => inner_sign_holder c).

Definition sign_counterparty_commitment (c : CommitmentTx) : M Signer bytes :=
  do policy_step (record_counterparty_commitment (commitment_number c)) in
  asks (fun _ => inner_sign_counterparty c).

Definition sign_closing_transaction (c : ClosingTx) : M Signer bytes :=
  let* script := asks (fun s => Some (expected_holder_close_script s)) in
  do ensure (check_closing_payout_script c script) in asks (fun _ => inner_sign_closing c).

Definition sign_holder_htlc_transaction (tx : Tx) (input : nat) (d : HTLCDescriptor) : M Signer bytes :=
  do ensure (check_holder_htlc_tx tx input d) in asks (fun _ => inner_sign_htlc tx input d).

(** The splice of an ECDSA channel: the trait has no error to return, and nothing
    is checked. *)
Definition sign_splice_shared_input (tx : Tx) (input : nat) : M Signer bytes :=
  asks (fun _ => Some (inner_sign_splice tx input)).

(** The shared end of every MuSig2 method: the partial is made, its nonce bound. *)
Definition sign_bound (r : Round) (ka : KeyAgg) (our cp : nat) (height : Z) (cp_nonce message : bytes) :
    M Signer Signed :=
  let* sg := asks (fun s => our_key_path_partial r ka our cp (taproot_holder_funding_key s) height cp_nonce message) in
  do policy_step (bind_nonce (sg_pubnonce sg) cp_nonce message) in ret sg.

Definition generate_local_nonce_pair (commitment_number : Z) (s : Signer) : option bytes :=
  '(ka, our, _, _, _) ← taproot_key_agg s; local_pubnonce ka our commitment_number.

Definition generate_splice_nonce (prev_funding_txid : bytes) (candidate : Z) (s : Signer) : option bytes :=
  '(ka, our, _, _, _) ← taproot_key_agg s; local_pubnonce ka our (splice_nonce_height prev_funding_txid candidate).

Definition partially_sign_counterparty_commitment (cp_nonce : bytes) (c : CommitmentTx) :
    M Signer (Signed * list bytes) :=
  do policy_step (record_counterparty_commitment (commitment_number c)) in
  let* (ka, our, cp, value, spk) := asks taproot_key_agg in
  let* message := asks (fun _ => keyspend_sighash (commitment_built c) value spk) in
  let* sg := sign_bound CounterpartyRound ka our cp (commitment_number c) cp_nonce message in
  let* sigs := asks (fun _ => htlc_sigs c) in
  ret (sg, sigs).

Definition finalize_holder_commitment (c : CommitmentTx) (cp_nonce : bytes) : M Signer Signed :=
  do policy_step (record_holder_commitment (commitment_number c)) in
  let* (ka, our, cp, value, spk) := asks taproot_key_agg in
  let* message := asks (fun _ => keyspend_sighash (commitment_built c) value spk) in
  sign_bound HolderLocal ka our cp (commitment_number c) cp_nonce message.

Definition partially_sign_closing_transaction (c : ClosingTx) : M Signer Signed :=
  let* script := asks (fun s => Some (expected_holder_close_script s)) in
  do ensure (check_closing_payout_script c script) in
  let* (ka, our, cp, value, spk) := asks taproot_key_agg in
  let* (cp_nonce, round) := asks (fun s => ctx ← taproot_ctx s; n ← counterparty_closing_nonce ctx;
                                          Some (n, closing_round ctx)) in
  let* message := asks (fun _ => keyspend_sighash (closing_built c) value spk) in
  sign_bound HolderLocal ka our cp (closing_nonce_height round) cp_nonce message.

Definition partially_sign_splice_shared_input (tx : Tx) (input : nat) (prevouts : list TxOut)
    (cp_nonce prev_funding_txid : bytes) (candidate : Z) : M Signer Signed :=
  do asks (check_splice_continues_funding tx prev_funding_txid) in
  let* (ka, our, cp, _, _) := asks taproot_key_agg in
  let* message := asks (fun _ => splice_sighash tx input prevouts) in
  sign_bound HolderLocal ka our cp (splice_nonce_height prev_funding_txid candidate) cp_nonce message.

Definition deadman_exit_pubnonce (height : Z) (message : bytes) (s : Signer) : option bytes :=
  '(ka, our, _, _, _) ← taproot_key_agg s; local_pubnonce_deadman ka our height message.

Definition deadman_exit_partial (cp_nonce : bytes) (height : Z) (message : bytes) : M Signer Signed :=
  let* (ka, our, cp, _, _) := asks taproot_key_agg in
  sign_bound DeadMan ka our cp height cp_nonce message.

(** ** The comparand on the chain

    [OnChainChannelTruth::verify]: the six words [channels(channelId)] returns, read
    when the channel id is known. *)
Definition CHANNELS_WORDS : nat := 6.
Definition W_AMOUNT_SATS : nat := 0.
Definition W_KEYS_HASH : nat := 5.
Definition truth_word (b : bytes) (i : nat) : option bytes :=
  if ((i + 1) * 32 <=? length b)%nat then Some (take 32 (drop (i * 32) b)) else None.

Definition truth_read (cid : option bytes) (call : bytes -> option bytes) : option (option bytes) :=
  match cid with
  | None => Some None
  | Some cid => b ← call cid; if (length b <? CHANNELS_WORDS * 32)%nat then None else Some (Some b)
  end.

Definition truth_verify (keccak256 : bytes -> bytes) (cid : option bytes) (call : bytes -> option bytes)
    (k0 k1 : bytes) (value : Z) : option TruthVerdict :=
  r ← truth_read cid call;
  match r with
  | None => Some NotRecorded
  | Some b =>
      kh ← truth_word b W_KEYS_HASH;
      if forallb (fun x => x =? 0) kh then Some NotRecorded
      else if negb (bool_decide (kh = keys_hash keccak256 k0 k1)) then Some Mismatch
      else w ← truth_word b W_AMOUNT_SATS;
           if existsb (fun x => negb (x =? 0)) (take 24 w) then None
           else if negb (from_be_bytes (take 8 (drop 24 w)) =? value) then Some Mismatch
           else Some Match
  end.

(** ** Requests

    What the node may ask, in any order.  The justice, counterparty-HTLC, anchor and
    announcement methods and the nonce advertisements neither check nor change the
    policy state, sign no spend of the funding output and are not requests of the
    machine. *)
Inductive Req :=
| AttachTruth (id : Z) (role : FundingRole)
| Provide (v1 v2 : Truth) (ctx : TaprootSignerContext)
| ReleaseSecret (idx : Z)
| ValidateHolder (c : CommitmentTx)
| SignHolder (c : CommitmentTx)
| SignCounterparty (c : CommitmentTx)
| SignClosing (c : ClosingTx)
| SignHolderHtlc (tx : Tx) (input : nat) (d : HTLCDescriptor)
| SignSplice (tx : Tx) (input : nat)
| PartialCounterparty (cp_nonce : bytes) (c : CommitmentTx)
| FinalizeHolder (c : CommitmentTx) (cp_nonce : bytes)
| PartialClosing (c : ClosingTx)
| PartialSplice (tx : Tx) (input : nat) (prevouts : list TxOut) (cp_nonce txid : bytes) (candidate : Z)
| DeadmanPartial (cp_nonce : bytes) (height : Z) (message : bytes).

Inductive Reply := Refused | Done | Secret (b : bytes) | Signature (b : bytes) | PartialReply (sg : Signed).

Definition answer {A} (f : A -> Reply) (r : Signer * option A) : Signer * Reply :=
  (r.1, match r.2 with Some a => f a | None => Refused end).

Definition handle (q : Req) (s : Signer) : Signer * Reply :=
  match q with
  | AttachTruth id role => let '(s, b) := set_truth_source id role s in (s, if b then Done else Refused)
  | Provide v1 v2 ctx => (provide_taproot_context v1 v2 ctx s, Done)
  | ReleaseSecret idx => answer Secret (release_commitment_secret idx s)
  | ValidateHolder c => answer (fun _ => Done) (validate_holder_commitment c s)
  | SignHolder c => answer Signature (sign_holder_commitment c s)
  | SignCounterparty c => answer Signature (sign_counterparty_commitment c s)
  | SignClosing c => answer Signature (sign_closing_transaction c s)
  | SignHolderHtlc tx i d => answer Signature (sign_holder_htlc_transaction tx i d s)
  | SignSplice tx i => answer Signature (sign_splice_shared_input tx i s)
  | PartialCounterparty n c => answer (fun r => PartialReply r.1) (partially_sign_counterparty_commitment n c s)
  | FinalizeHolder c n => answer PartialReply (finalize_holder_commitment c n s)
  | PartialClosing c => answer PartialReply (partially_sign_closing_transaction c s)
  | PartialSplice tx i po n txid k => answer PartialReply (partially_sign_splice_shared_input tx i po n txid k s)
  | DeadmanPartial n h m => answer PartialReply (deadman_exit_partial n h m s)
  end.

Fixpoint run (qs : list Req) (s : Signer) : Signer * list (Req * Reply) :=
  match qs with
  | [] => (s, [])
  | q :: qs => let '(s, r) := handle q s in let '(s, tr) := run qs s in (s, (q, r) :: tr)
  end.

(** * Lemmas *)

(** ** Inversion of the monad *)
Lemma mlet_inv {A B} (m : M Signer A) (f : A -> M Signer B) s s' b :
  mlet m f s = (s', Some b) -> exists s1 a, m s = (s1, Some a) /\ f a s1 = (s', Some b).
Proof. unfold mlet. destruct (m s) as [s1 [a|]]; naive_solver. Qed.

Lemma asks_inv {A} (f : Signer -> option A) s s' a : asks f s = (s', Some a) -> s' = s /\ f s = Some a.
Proof. unfold asks. naive_solver. Qed.

Lemma ensure_inv b s s' u : @ensure Signer b s = (s', Some u) -> s' = s /\ b = true.
Proof. unfold ensure. destruct b; naive_solver. Qed.

Lemma policy_step_inv f s s' u : policy_step f s = (s', Some u) ->
  exists p, f (policy s) = Some p /\ s' = s <| policy := p |>.
Proof. unfold policy_step. destruct (f (policy s)); naive_solver. Qed.

Lemma ret_inv {A} (a b : A) (s s' : Signer) : ret a s = (s', Some b) -> s' = s /\ b = a.
Proof. unfold ret. naive_solver. Qed.

Lemma answer_inv {A} (f : A -> Reply) m s' r : answer f m = (s', r) -> r <> Refused ->
  exists a, m = (s', Some a) /\ r = f a.
Proof. destruct m as [s1 [a|]]; cbn; intros [= <- <-]; [eauto|done]. Qed.

(** ** How the state evolves *)
Definition lowered (a b : option Z) : Prop :=
  match a with Some a => exists b', b = Some b' /\ b' <= a | None => True end.

Record evolves (s s' : Signer) : Prop := {
  ev_script : expected_holder_close_script s' = expected_holder_close_script s;
  ev_bindings : nonce_bindings (policy s) ⊆ nonce_bindings (policy s');
  ev_holder : lowered (highest_holder_commitment_signed (policy s)) (highest_holder_commitment_signed (policy s'));
  ev_counterparty : lowered (highest_counterparty_commitment_signed (policy s))
                            (highest_counterparty_commitment_signed (policy s'));
  ev_secret : lowered (lowest_secret_released (policy s)) (lowest_secret_released (policy s'));
  ev_poison : ctx_poisoned s = true -> ctx_poisoned s' = true;
  ev_recorded : truth_recorded s = true -> truth_recorded s' = true;
  ev_truth : forall t, truth s = Some t -> truth s' = Some t
}.

Lemma lowered_refl a : lowered a a.
Proof. destruct a; cbn; [eauto with lia|done]. Qed.
Lemma lowered_trans a b c : lowered a b -> lowered b c -> lowered a c.
Proof. destruct a; cbn; [|done]. intros (? & -> & ?) (? & -> & ?). eauto with lia. Qed.
Lemma lowered_advance a i : lowered a (Some (advance a i)).
Proof. destruct a; cbn; [|done]. eexists. split; [done|lia]. Qed.

#[local] Instance evolves_pre : PreOrder evolves.
Proof.
  split.
  - intros s. split; auto using lowered_refl.
  - intros a b c [] []. split; try (by etrans); eauto using lowered_trans.
Qed.

Create HintDb signer.
#[local] Hint Resolve lowered_refl lowered_advance : signer.

(** A method keeps a relation whatever it returns. *)
Definition keeps {A} (R : Signer -> Signer -> Prop) (m : M Signer A) : Prop := forall s, R s (m s).1.

Section Keeps.
Context (R : Signer -> Signer -> Prop) `{!PreOrder R}.
Lemma keeps_let {A B} (m : M Signer A) (f : A -> M Signer B) :
  keeps R m -> (forall a, keeps R (f a)) -> keeps R (mlet m f).
Proof.
  intros Hm Hf s. specialize (Hm s). unfold mlet. destruct (m s) as [s1 [a|]]; cbn in *; [|done].
  specialize (Hf a s1). by etrans.
Qed.
Lemma keeps_asks {A} (f : Signer -> option A) : keeps R (asks f).
Proof. intros s. reflexivity. Qed.
Lemma keeps_ensure b : keeps R (ensure b).
Proof. intros s. reflexivity. Qed.
Lemma keeps_ret {A} (a : A) : keeps R (ret a).
Proof. intros s. reflexivity. Qed.
Lemma keeps_policy f : (forall s p, f (policy s) = Some p -> R s (s <| policy := p |>)) -> keeps R (policy_step f).
Proof. intros H s. unfold policy_step. destruct (f (policy s)) eqn:E; cbn; [by apply H|reflexivity]. Qed.
End Keeps.

Lemma holder_evolves idx : keeps evolves (policy_step (record_holder_commitment idx)).
Proof.
  apply keeps_policy; [apply _|]. intros s p. unfold record_holder_commitment.
  destruct (_ && _); [|done]. intros [= <-]. split; cbn; auto with signer.
Qed.
Lemma counterparty_evolves idx : keeps evolves (policy_step (record_counterparty_commitment idx)).
Proof.
  apply keeps_policy; [apply _|]. intros s p. unfold record_counterparty_commitment.
  destruct (check_no_regression _ _); [|done]. intros [= <-]. split; cbn; auto with signer.
Qed.
Lemma secret_evolves idx : keeps evolves (policy_step (record_secret_release idx)).
Proof.
  apply keeps_policy; [apply _|]. intros s p. unfold record_secret_release.
  case_match; [done|]. intros [= <-]. split; cbn; auto with signer.
Qed.
Lemma bind_nonce_grows n c m st p : bind_nonce n c m st = Some p ->
  p = st <| nonce_bindings := <[n := sha256 (c ++ m)]> (nonce_bindings st) |> /\
  nonce_bindings st ⊆ nonce_bindings p.
Proof.
  unfold bind_nonce. destruct (nonce_bindings st !! n) as [prev|] eqn:E.
  - case_bool_decide as Hp; [|done]. intros [= <-]. subst prev. split; [done|]. cbn.
    by rewrite insert_id.
  - intros [= <-]. split; [done|]. cbn. by apply insert_subseteq.
Qed.
Lemma bind_evolves n c m : keeps evolves (policy_step (bind_nonce n c m)).
Proof.
  apply keeps_policy; [apply _|]. intros s p Hb. apply bind_nonce_grows in Hb as [-> Hg].
  split; cbn in *; auto with signer.
Qed.
#[local] Hint Resolve holder_evolves counterparty_evolves secret_evolves bind_evolves : signer.

Ltac evolve := repeat match goal with
  | |- keeps evolves (mlet _ _) => apply keeps_let; [apply _| |intros]
  | |- keeps evolves (asks _) => apply keeps_asks; apply _
  | |- keeps evolves (ensure _) => apply keeps_ensure; apply _
  | |- keeps evolves (ret _) => apply keeps_ret; apply _
  | |- keeps evolves (let '(_, _) := ?x in _) => destruct x
  | |- keeps evolves (policy_step _) => by auto with signer
  | |- keeps evolves (match ?x with _ => _ end) => destruct x
  end.

Lemma sign_bound_evolves r ka our cp h n m : keeps evolves (sign_bound r ka our cp h n m).
Proof. unfold sign_bound. evolve. Qed.

Lemma check_evolves v1 v2 ctx prev s : evolves s (check_against_chain v1 v2 ctx prev s).1.
Proof.
  unfold check_against_chain. repeat case_match; try reflexivity; split; cbn; auto with signer.
Qed.
Lemma provide_evolves v1 v2 ctx s : evolves s (provide_taproot_context v1 v2 ctx s).
Proof.
  unfold provide_taproot_context. destruct (contradicts _ _); [split; cbn; auto with signer|].
  pose proof (check_evolves v1 v2 ctx (taproot_ctx s) s) as Hc.
  destruct (check_against_chain _ _ _ _ _) as [s1 []]; cbn [negb fst] in *; etrans; try exact Hc;
    [|split; cbn; auto with signer].
  unfold record_scope. repeat case_match; split; cbn; auto with signer.
Qed.

Lemma answer_fst {A} (f : A -> Reply) r : (answer f r).1 = r.1.
Proof. done. Qed.

Lemma handle_evolves q s : evolves s (handle q s).1.
Proof.
  destruct q; cbn [handle]; rewrite ?answer_fst.
  1: { unfold set_truth_source. destruct (truth s) eqn:E; cbn; [reflexivity|].
       split; cbn; auto with signer. by rewrite E. }
  1: apply provide_evolves.
  all: match goal with |- evolves ?s (?m ?s).1 => enough (keeps evolves m) as H by exact (H s) end;
    unfold release_commitment_secret, validate_holder_commitment, sign_holder_commitment,
      sign_counterparty_commitment, sign_closing_transaction, sign_holder_htlc_transaction, sign_splice_shared_input,
      partially_sign_counterparty_commitment, finalize_holder_commitment,
      partially_sign_closing_transaction, partially_sign_splice_shared_input, deadman_exit_partial, sign_bound;
    evolve.
Qed.

Lemma run_cons q qs s : run (q :: qs) s =
  ((run qs (handle q s).1).1, (q, (handle q s).2) :: (run qs (handle q s).1).2).
Proof. cbn [run]. destruct (handle q s) as [s1 r]. cbn. by destruct (run qs s1). Qed.

Lemma run_evolves qs s : evolves s (run qs s).1.
Proof.
  revert s. induction qs as [|q qs IH]; intros s; [reflexivity|].
  rewrite run_cons. cbn [fst]. etrans; [apply handle_evolves|apply IH].
Qed.

(** An entry of a trace was answered in some state of the run, which the later
    states evolve from. *)
Lemma run_split qs s tr1 q r tr2 : (run qs s).2 = tr1 ++ (q, r) :: tr2 ->
  exists qs1 qs2 s1, run qs1 s = (s1, tr1) /\ r = (handle q s1).2 /\
    run qs2 (handle q s1).1 = ((run qs s).1, tr2).
Proof.
  revert s tr1. induction qs as [|q0 qs IH]; intros s tr1 Htr.
  { by destruct tr1. }
  rewrite run_cons in Htr |- *. cbn [fst snd] in *. destruct tr1 as [|e tr1].
  - injection Htr as -> <- <-. exists [], qs, s. split_and!; [done|done|]. by destruct (run qs _).
  - injection Htr as <- Htr. destruct (IH _ _ Htr) as (qs1 & qs2 & s1 & H1 & -> & H2).
    exists (q0 :: qs1), qs2, s1. split_and!; [|done|done]. rewrite run_cons, H1. done.
Qed.

(** ** What an answer says about the state it was given in *)
Lemma sign_bound_inv r ka our cp h n m s s' sg : sign_bound r ka our cp h n m s = (s', Some sg) ->
  our_key_path_partial r ka our cp (taproot_holder_funding_key s) h n m = Some sg /\
  nonce_bindings (policy s') !! sg_pubnonce sg = Some (sha256 (sg_cp_nonce sg ++ sg_message sg)).
Proof.
  unfold sign_bound. intros H. apply mlet_inv in H as (s1 & sg1 & H1 & H).
  apply asks_inv in H1 as [-> H1]. apply mlet_inv in H as (s2 & u & H2 & H).
  apply ret_inv in H as [-> ->]. apply policy_step_inv in H2 as (p & Hb & ->).
  split; [done|]. unfold our_key_path_partial in H1.
  apply bind_Some in H1 as (nonce & _ & H1). apply bind_Some in H1 as (sc & _ & [= <-]).
  apply bind_nonce_grows in Hb as [-> _]. cbn. by rewrite lookup_insert_eq.
Qed.

(** Takes apart a successful method. *)
Ltac peel H := repeat match type of H with
  | mlet _ _ _ = (_, Some _) =>
      let s1 := fresh "s" in let a := fresh "a" in let H1 := fresh "Hm" in
      apply mlet_inv in H as (s1 & a & H1 & H)
  | (let '(_, _) := ?x in _) _ = _ => destruct x
  | (match ?x with _ => _ end) _ = _ => destruct x
  end;
  repeat match goal with
  | H1 : asks _ _ = (_, Some _) |- _ => apply asks_inv in H1 as [? H1]; subst
  | H1 : ensure _ _ = (_, Some _) |- _ => apply ensure_inv in H1 as [? H1]; subst
  | H1 : policy_step _ _ = (_, Some _) |- _ => apply policy_step_inv in H1 as (? & H1 & ?); subst
  | H1 : ret _ _ = (_, Some _) |- _ => apply ret_inv in H1 as [? ?]; subst
  end.

Definition is_partial (r : Reply) : bool := match r with PartialReply _ => true | _ => false end.

(** A partial leaves only a signer that is not poisoned, and with its nonce bound. *)
Lemma partial_inv q s s' sg : handle q s = (s', PartialReply sg) ->
  ctx_poisoned s = false /\
  nonce_bindings (policy s') !! sg_pubnonce sg = Some (sha256 (sg_cp_nonce sg ++ sg_message sg)).
Proof.
  intros H. destruct q; cbn [handle] in H;
    try (apply answer_inv in H as (a & H & Hr); [|done]); try discriminate Hr;
    try (by destruct (set_truth_source _ _ _) as [? []]); try discriminate H.
  all: try (injection Hr as ->);
    unfold partially_sign_counterparty_commitment, finalize_holder_commitment,
      partially_sign_closing_transaction, partially_sign_splice_shared_input, deadman_exit_partial in H; peel H.
  all: match goal with Hk : taproot_key_agg ?t = Some _ |- _ =>
    assert (ctx_poisoned t = false) as Hp by (unfold taproot_key_agg in Hk; by destruct (ctx_poisoned t)) end;
    cbn in Hp; split; [exact Hp|].
  all: match goal with
    | Hs : sign_bound _ _ _ _ _ _ _ _ = _ |- _ => apply sign_bound_inv in Hs as [_ Hs]; exact Hs
    end.
Qed.

Lemma evolves_bound s s' n a : evolves s s' -> nonce_bindings (policy s) !! n = Some a ->
  nonce_bindings (policy s') !! n = Some a.
Proof. intros He Hn. exact (lookup_weaken _ _ _ _ Hn (ev_bindings _ _ He)). Qed.

Lemma run_binds qs s tr1 q sg tr2 : (run qs s).2 = tr1 ++ (q, PartialReply sg) :: tr2 ->
  nonce_bindings (policy (run qs s).1) !! sg_pubnonce sg = Some (sha256 (sg_cp_nonce sg ++ sg_message sg)).
Proof.
  intros Htr. apply run_split in Htr as (qs1 & qs2 & s1 & H1 & Hr & H2).
  destruct (handle q s1) as [s2 r] eqn:Eh. cbn in Hr. subst r. cbn [fst] in H2.
  destruct (partial_inv _ _ _ _ Eh) as [_ Hb]. eapply evolves_bound; [|exact Hb].
  pose proof (run_evolves qs2 s2) as He. by rewrite H2 in He.
Qed.

(** Which commitment a request asks us to put our name to, on our side. *)
Definition holder_commitment (q : Req) : option Z :=
  match q with
  | ValidateHolder c | SignHolder c | FinalizeHolder c _ => Some (commitment_number c)
  | _ => None
  end.
Definition counterparty_commitment (q : Req) : option Z :=
  match q with
  | SignCounterparty c | PartialCounterparty _ c => Some (commitment_number c)
  | _ => None
  end.

Lemma holder_inv q s s' r i : handle q s = (s', r) -> r <> Refused -> holder_commitment q = Some i ->
  check_no_regression (highest_holder_commitment_signed (policy s)) i = true /\
  check_not_revoked (lowest_secret_released (policy s)) i = true /\
  lowered (Some i) (highest_holder_commitment_signed (policy s')).
Proof.
  intros H Hr Hq. pose proof (handle_evolves q s) as Hev. rewrite H in Hev. cbn [fst] in Hev.
  enough (exists p s1, record_holder_commitment i (policy s) = Some p /\ policy s1 = p /\ evolves s1 s') as
    (p & s1 & Hp & <- & He).
  { unfold record_holder_commitment in Hp. destruct (_ && _) eqn:E; [|done].
    apply andb_prop in E as [-> ->]. injection Hp as Hp. split_and!; [done..|].
    apply (lowered_trans _ (highest_holder_commitment_signed (policy s1))); [|apply He].
    rewrite <- Hp. cbn. eexists. split; [done|]. unfold advance. case_match; lia. }
  destruct q; cbn [holder_commitment] in Hq; try discriminate Hq; injection Hq as <-; cbn [handle] in H;
    (apply answer_inv in H as (a & H & _); [|done]);
    unfold validate_holder_commitment, sign_holder_commitment, finalize_holder_commitment in H.
  1, 2: peel H; eexists _, _; split_and!; [eassumption| |reflexivity]; done.
  apply mlet_inv in H as (s1 & u & H1 & H). apply policy_step_inv in H1 as (p & H1 & ->).
  exists p, (s <| policy := p |>). split_and!; [exact H1|reflexivity|].
  match type of H with ?m ?t = _ => assert (keeps evolves m) as Hk by (unfold sign_bound; evolve);
    specialize (Hk t); rewrite H in Hk; exact Hk end.
Qed.

Lemma counterparty_inv q s s' r i : handle q s = (s', r) -> r <> Refused -> counterparty_commitment q = Some i ->
  check_no_regression (highest_counterparty_commitment_signed (policy s)) i = true /\
  lowered (Some i) (highest_counterparty_commitment_signed (policy s')).
Proof.
  intros H Hr Hq.
  enough (exists p s1, record_counterparty_commitment i (policy s) = Some p /\ policy s1 = p /\ evolves s1 s') as
    (p & s1 & Hp & <- & He).
  { unfold record_counterparty_commitment in Hp. destruct (check_no_regression _ _) eqn:E; [|done].
    injection Hp as Hp. split; [done|].
    apply (lowered_trans _ (highest_counterparty_commitment_signed (policy s1))); [|apply He].
    rewrite <- Hp. cbn. eexists. split; [done|]. unfold advance. case_match; lia. }
  destruct q; cbn [counterparty_commitment] in Hq; try discriminate Hq; injection Hq as <-; cbn [handle] in H;
    (apply answer_inv in H as (a & H & _); [|done]);
    unfold sign_counterparty_commitment, partially_sign_counterparty_commitment in H;
    apply mlet_inv in H as (s1 & u & H1 & H); apply policy_step_inv in H1 as (p & H1 & ->);
    exists p, (s <| policy := p |>); (split_and!; [exact H1|reflexivity|]);
    match type of H with ?m ?t = _ => assert (keeps evolves m) as Hk by (unfold sign_bound; evolve);
      specialize (Hk t); rewrite H in Hk; exact Hk end.
Qed.

Lemma secret_inv i s s' r : handle (ReleaseSecret i) s = (s', r) -> r <> Refused ->
  lowered (Some i) (lowest_secret_released (policy s')).
Proof.
  cbn [handle]. intros H Hr. apply answer_inv in H as (a & H & _); [|done].
  unfold release_commitment_secret in H. peel H. rename Hm into Hs. unfold record_secret_release in Hs.
  case_match; [done|]. injection Hs as <-. cbn. eexists. split; [done|]. unfold advance. case_match; lia.
Qed.

Lemma not_revoked_lt r i a : check_not_revoked r i = true -> lowered (Some a) r -> i < a.
Proof. intros Hc (b & -> & Hb). cbn in Hc. apply negb_true_iff, Z.leb_gt in Hc. lia. Qed.
Lemma no_regression_le r i a : check_no_regression r i = true -> lowered (Some a) r -> i <= a.
Proof. intros Hc (b & -> & Hb). cbn in Hc. apply negb_true_iff, Z.ltb_ge in Hc. lia. Qed.

(** Two answers of one run: the second was given in a state that evolves from the
    state the first left. *)
Lemma run_later qs s tr1 q1 r1 tr2 q2 r2 tr3 :
  (run qs s).2 = tr1 ++ (q1, r1) :: tr2 ++ (q2, r2) :: tr3 ->
  exists s1 s2, handle q1 s1 = ((handle q1 s1).1, r1) /\ evolves (handle q1 s1).1 s2 /\
    handle q2 s2 = ((handle q2 s2).1, r2).
Proof.
  intros Htr. apply run_split in Htr as (qs1 & qs2 & s1 & _ & -> & H2).
  assert ((run qs2 (handle q1 s1).1).2 = tr2 ++ (q2, r2) :: tr3) as Htr by (by rewrite H2).
  apply run_split in Htr as (qs3 & qs4 & s2 & H3 & -> & _). exists s1, s2.
  split_and!; [by destruct (handle q1 s1)| |by destruct (handle q2 s2)].
  pose proof (run_evolves qs3 (handle q1 s1).1) as He. by rewrite H3 in He.
Qed.

(** ** Methods touch the policy state only *)
Definition policy_only (s s' : Signer) : Prop := exists p, s' = s <| policy := p |>.
#[local] Instance policy_only_pre : PreOrder policy_only.
Proof.
  split.
  - intros s. exists (policy s). by destruct s.
  - intros a b c [p ->] [p' ->]. exists p'. done.
Qed.

Definition is_method (q : Req) : bool := match q with AttachTruth _ _ | Provide _ _ _ => false | _ => true end.

Lemma method_policy_only q s : is_method q = true -> policy_only s (handle q s).1.
Proof.
  assert (forall f, keeps policy_only (policy_step f)) as Hp.
  { intros f. apply keeps_policy; [apply _|]. intros. by eexists. }
  destruct q; intros Hq; try discriminate Hq; cbn [handle]; rewrite answer_fst;
    match goal with |- policy_only ?s (?m ?s).1 => enough (keeps policy_only m) as H by exact (H s) end;
    unfold release_commitment_secret, validate_holder_commitment, sign_holder_commitment,
      sign_counterparty_commitment, sign_closing_transaction, sign_holder_htlc_transaction, sign_splice_shared_input,
      partially_sign_counterparty_commitment, finalize_holder_commitment,
      partially_sign_closing_transaction, partially_sign_splice_shared_input, deadman_exit_partial, sign_bound;
    repeat match goal with
    | |- keeps policy_only (mlet _ _) => apply keeps_let; [apply _| |intros]
    | |- keeps policy_only (asks _) => apply keeps_asks; apply _
    | |- keeps policy_only (ensure _) => apply keeps_ensure; apply _
    | |- keeps policy_only (ret _) => apply keeps_ret; apply _
    | |- keeps policy_only (policy_step _) => apply Hp
    | |- keeps policy_only (match ?x with _ => _ end) => destruct x
    end.
Qed.

(** ** Contexts and the chain *)

(** The chain shows the offered scope, or the one it replaces. *)
Definition confirmed (v1 v2 : Truth) (prev : option TaprootSignerContext) (ctx : TaprootSignerContext) : Prop :=
  ask v1 ctx = Some Match \/
  exists p, prev = Some p /\ splice_parent_funding_txid p <> splice_parent_funding_txid ctx /\
    ask v1 ctx = Some Mismatch /\ ask v2 p = Some Match.

Lemma check_against_chain_spec v1 v2 ctx prev s t : truth s = Some t ->
  let r := check_against_chain v1 v2 ctx prev s in
  (r.2 = true <-> confirmed v1 v2 prev ctx \/ (ask v1 ctx = Some NotRecorded /\ truth_recorded s = false)) /\
  (r.1 = s \/ (r.1 = s <| truth_recorded := true |> /\ confirmed v1 v2 prev ctx)) /\
  (confirmed v1 v2 prev ctx -> truth_recorded r.1 = true).
Proof.
  intros Ht. unfold check_against_chain, confirmed. rewrite Ht.
  destruct (ask v1 ctx) as [[]|] eqn:E1.
  - cbn. split_and!; [|by left|naive_solver]. rewrite negb_true_iff. naive_solver.
  - cbn. naive_solver.
  - destruct prev as [p|]; [|naive_solver]. case_bool_decide; [naive_solver|].
    destruct (ask v2 p) as [[]|] eqn:E2; cbn; naive_solver.
  - cbn. naive_solver.
Qed.

Definition scope_output (ctx : TaprootSignerContext) : option TxOut :=
  '(_, _, _, value, spk) ← key_agg_for ctx; Some (mkTxOut value spk).

Lemma record_scope_lookup ctx s k o : splice_continuation (record_scope ctx s) !! k = Some o ->
  splice_continuation s !! k = Some o \/ (splice_parent_funding_txid ctx = Some k /\ scope_output ctx = Some o).
Proof.
  unfold record_scope, scope_output. destruct (splice_parent_funding_txid ctx) as [parent|]; [|by left].
  destruct (key_agg_for ctx) as [[[[[ka our] cp] value] spk]|]; [|by left]. cbn.
  destruct (decide (k = parent)) as [->|Hn].
  - rewrite lookup_insert_eq. intros [= <-]. by right.
  - rewrite lookup_insert_ne by done. by left.
Qed.

Lemma check_scopes v1 v2 ctx prev s :
  splice_continuation (check_against_chain v1 v2 ctx prev s).1 = splice_continuation s.
Proof. unfold check_against_chain. by repeat case_match. Qed.

Lemma handle_scopes q s k o : splice_continuation (handle q s).1 !! k = Some o ->
  splice_continuation s !! k = Some o \/
  exists v1 v2 ctx, q = Provide v1 v2 ctx /\ splice_parent_funding_txid ctx = Some k /\ scope_output ctx = Some o.
Proof.
  destruct (is_method q) eqn:Eq.
  { destruct (method_policy_only q s Eq) as [p ->]. by left. }
  destruct q; try discriminate Eq; cbn [handle].
  { unfold set_truth_source. destruct (truth s); by left. }
  unfold provide_taproot_context. destruct (contradicts _ _); [by left|].
  pose proof (check_scopes v1 v2 ctx (taproot_ctx s) s) as Hs.
  destruct (check_against_chain _ _ _ _ _) as [s1 []]; cbn [negb fst] in *; [|rewrite <- Hs; by left].
  intros H. cbn in H. apply record_scope_lookup in H as [H|[H1 H2]]; [rewrite <- Hs; by left|].
  right. eauto 10.
Qed.

Lemma run_scopes qs s k o : splice_continuation (run qs s).1 !! k = Some o ->
  splice_continuation s !! k = Some o \/
  exists v1 v2 ctx, In (Provide v1 v2 ctx) (map fst (run qs s).2) /\
    splice_parent_funding_txid ctx = Some k /\ scope_output ctx = Some o.
Proof.
  revert s. induction qs as [|q qs IH]; intros s; [by left|]. rewrite run_cons. cbn [fst snd map]. intros H.
  apply IH in H as [H|(v1 & v2 & ctx & Hin & H1 & H2)].
  - apply handle_scopes in H as [H|(v1 & v2 & ctx & -> & H1 & H2)]; [by left|]. right.
    exists v1, v2, ctx. split_and!; [by left|done..].
  - right. exists v1, v2, ctx. split_and!; [by right|done..].
Qed.

(** ** Theorems *)

(** C17: No nonce is ever used for two messages.  Whatever the node asks of one
    signer, in any order and on every key-path — commitment, splice, cooperative
    close, dead-man exit — two partial signatures that left it under the same public
    nonce sign the same message against the same counterparty nonce, unless SHA-256
    collides on the two. *)
Theorem nonce_never_reused script qs q1 sg1 q2 sg2 :
  In (q1, PartialReply sg1) (run qs (signer_new script)).2 ->
  In (q2, PartialReply sg2) (run qs (signer_new script)).2 ->
  sg_pubnonce sg1 = sg_pubnonce sg2 ->
  length (sg_cp_nonce sg1) = length (sg_cp_nonce sg2) ->
  (sg_cp_nonce sg1 = sg_cp_nonce sg2 /\ sg_message sg1 = sg_message sg2) \/
  (sg_cp_nonce sg1 ++ sg_message sg1 <> sg_cp_nonce sg2 ++ sg_message sg2 /\
   sha256 (sg_cp_nonce sg1 ++ sg_message sg1) = sha256 (sg_cp_nonce sg2 ++ sg_message sg2)).
Proof.
  intros H1 H2 Hn Hl. apply in_split in H1 as (a1 & b1 & H1). apply in_split in H2 as (a2 & b2 & H2).
  apply run_binds in H1, H2. rewrite Hn, H2 in H1. injection H1 as Heq.
  destruct (decide (sg_cp_nonce sg1 ++ sg_message sg1 = sg_cp_nonce sg2 ++ sg_message sg2)) as [E|E].
  - left. by apply app_inj_1 in E.
  - right. by split.
Qed.

(** C18: Revoked states stay revoked.  In every run, once a revocation secret has left
    the signer, no holder commitment at or behind it is validated or signed again, by
    either signature scheme; and the commitments of both sides only ever advance. *)
Theorem revoked_never_signed script qs tr1 q1 r1 tr2 q2 r2 tr3 a b :
  (run qs (signer_new script)).2 = tr1 ++ (q1, r1) :: tr2 ++ (q2, r2) :: tr3 ->
  r1 <> Refused -> r2 <> Refused ->
  (q1 = ReleaseSecret a -> holder_commitment q2 = Some b -> b < a) /\
  (holder_commitment q1 = Some a -> holder_commitment q2 = Some b -> b <= a) /\
  (counterparty_commitment q1 = Some a -> counterparty_commitment q2 = Some b -> b <= a).
Proof.
  intros Htr Hr1 Hr2. apply run_later in Htr as (s1 & s2 & H1 & He & H2).
  split_and!; intros Hq1 Hq2.
  - subst q1. apply secret_inv in H1; [|done]. destruct (holder_inv _ _ _ _ _ H2 Hr2 Hq2) as (_ & Hn & _).
    eapply not_revoked_lt; [exact Hn|]. eapply lowered_trans; [exact H1|apply He].
  - destruct (holder_inv _ _ _ _ _ H1 Hr1 Hq1) as (_ & _ & H1').
    destruct (holder_inv _ _ _ _ _ H2 Hr2 Hq2) as (Hn & _).
    eapply no_regression_le; [exact Hn|]. eapply lowered_trans; [exact H1'|apply He].
  - destruct (counterparty_inv _ _ _ _ _ H1 Hr1 Hq1) as (_ & H1').
    destruct (counterparty_inv _ _ _ _ _ H2 Hr2 Hq2) as (Hn & _).
    eapply no_regression_le; [exact Hn|]. eapply lowered_trans; [exact H1'|apply He].
Qed.

Lemma handle_truth q s t : truth s = Some t -> truth_recorded s = true -> ctx_poisoned (handle q s).1 = false ->
  forall v1 v2 ctx, q = Provide v1 v2 ctx -> confirmed v1 v2 (taproot_ctx s) ctx.
Proof.
  intros Ht Hr Hp v1 v2 ctx ->. cbn [handle fst] in Hp. unfold provide_taproot_context in Hp.
  destruct (contradicts _ _); [discriminate Hp|].
  destruct (check_against_chain_spec v1 v2 ctx (taproot_ctx s) s t Ht) as (Hok & _ & _).
  destruct (check_against_chain _ _ _ _ _) as [s1 []]; cbn [negb fst snd] in *; [|discriminate Hp].
  destruct Hok as [Hok _]. destruct (Hok eq_refl) as [H|[_ H]]; [done|congruence].
Qed.

(** The context in force after a trace in which none was refused. *)
Definition last_offered (tr : list (Req * Reply)) (c : option TaprootSignerContext) : option TaprootSignerContext :=
  fold_left (fun c e => match e.1 with Provide _ _ ctx => Some ctx | _ => c end) tr c.

Lemma provide_accepted v1 v2 ctx s : ctx_poisoned (provide_taproot_context v1 v2 ctx s) = false ->
  taproot_ctx (provide_taproot_context v1 v2 ctx s) = Some ctx /\
  (ask v1 ctx = Some Match -> truth s <> None -> truth_recorded (provide_taproot_context v1 v2 ctx s) = true).
Proof.
  unfold provide_taproot_context. destruct (contradicts _ _); [done|].
  destruct (check_against_chain v1 v2 ctx (taproot_ctx s) s) as [s1 []] eqn:E; cbn [negb]; [|done].
  intros _. split; [done|]. intros Hm Ht. unfold check_against_chain in E.
  destruct (truth s) as [t|]; [|done]. rewrite Hm in E. injection E as <-.
  unfold record_scope. by repeat case_match.
Qed.

Lemma run_last_offered qs s : ctx_poisoned (run qs s).1 = false ->
  taproot_ctx (run qs s).1 = last_offered (run qs s).2 (taproot_ctx s).
Proof.
  revert s. induction qs as [|q qs IH]; intros s; [done|]. rewrite run_cons. cbn [fst snd]. intros Hp.
  rewrite IH by done. unfold last_offered. cbn [fold_left fst]. f_equal.
  assert (Hp1 : ctx_poisoned (handle q s).1 = false).
  { apply not_true_iff_false. intros E. apply (ev_poison _ _ (run_evolves qs _)) in E. congruence. }
  destruct (is_method q) eqn:Eq.
  { destruct (method_policy_only q s Eq) as [p ->]. by destruct q. }
  destruct q; try discriminate Eq; cbn [handle] in *.
  - unfold set_truth_source. by destruct (truth s).
  - cbn [fst] in *. by apply provide_accepted in Hp1 as [-> _].
Qed.

(** A truth source that was attached stays. *)
Lemma run_attached qs s id role : In (AttachTruth id role, Done) (run qs s).2 -> truth (run qs s).1 <> None.
Proof.
  intros Hin. apply in_split in Hin as (a & b & Htr). apply run_split in Htr as (qs1 & qs2 & s1 & _ & Hr & H2).
  cbn [handle] in Hr, H2. unfold set_truth_source in Hr, H2. destruct (truth s1) as [t|]; [done|].
  cbn beta iota in H2. cbn [fst] in H2. apply (f_equal fst) in H2. cbn [fst] in H2. rewrite <- H2.
  rewrite (ev_truth _ _ (run_evolves qs2 _) (id, role)) by reflexivity. done.
Qed.

(** A partial signature shows that the signer had not been stopped before. *)
Lemma partial_unpoisoned qs s a q sg b : (run qs s).2 = a ++ (q, PartialReply sg) :: b ->
  ctx_poisoned s = false.
Proof.
  intros Htr. apply run_split in Htr as (qs1 & qs2 & s1 & H1 & Hr & _).
  destruct (handle q s1) as [s2 r] eqn:Eh. cbn in Hr. subst r. apply partial_inv in Eh as [Hp _].
  pose proof (run_evolves qs1 s) as He. rewrite H1 in He. cbn [fst] in He.
  apply not_true_iff_false. intros E. apply (ev_poison _ _ He) in E. congruence.
Qed.

(** C19: The comparand cannot be taken out of play once it has spoken.  A truth source
    was attached to the signer and the chain matched a context [c0] offered after
    that: then every context offered later and before a partial signature leaves was
    confirmed by the chain when it was offered, either itself or, when it declares a
    splice, through the context offered immediately before it; a context the chain
    contradicts, does not know, or cannot be asked about stops the signer for good.
    Before that first match a context the chain does not know yet is accepted
    ([unrecorded_context_accepted]). *)
Theorem signed_contexts_confirmed script qs id role a0 v1 v2 c0 r0 a w1 w2 ctx r b q sg tr :
  (run qs (signer_new script)).2 =
    a0 ++ (Provide v1 v2 c0, r0) :: a ++ (Provide w1 w2 ctx, r) :: b ++ (q, PartialReply sg) :: tr ->
  In (AttachTruth id role, Done) a0 -> ask v1 c0 = Some Match ->
  exists prev, last_offered a (Some c0) = Some prev /\ confirmed w1 w2 (Some prev) ctx.
Proof.
  intros Htr Hat Hm. apply run_split in Htr as (qs1 & qs2 & s1 & H1 & _ & H2).
  assert (Ht : truth s1 <> None).
  { pose proof (run_attached qs1 (signer_new script) id role) as Ht. rewrite H1 in Ht. by apply Ht. }
  set (s2 := (handle (Provide v1 v2 c0) s1).1) in *.
  assert (Htr2 : (run qs2 s2).2 = a ++ (Provide w1 w2 ctx, r) :: b ++ (q, PartialReply sg) :: tr) by (by rewrite H2).
  assert (Hp2 : ctx_poisoned s2 = false).
  { apply (partial_unpoisoned qs2 _ (a ++ (Provide w1 w2 ctx, r) :: b) q sg tr). rewrite Htr2. by rewrite <- app_assoc. }
  destruct (provide_accepted v1 v2 c0 s1 Hp2) as [Hc0 Hrec]. specialize (Hrec Hm Ht).
  apply run_split in Htr2 as (qs3 & qs4 & s3 & H3 & _ & H4).
  assert (Htr4 : (run qs4 (handle (Provide w1 w2 ctx) s3).1).2 = b ++ (q, PartialReply sg) :: tr) by (by rewrite H4).
  apply partial_unpoisoned in Htr4 as Hp4.
  pose proof (run_evolves qs3 s2) as He. rewrite H3 in He. cbn [fst] in He.
  pose proof (provide_evolves v1 v2 c0 s1) as He1. fold s2 in He1.
  destruct (truth s1) as [t|] eqn:Et; [|done]. apply (ev_truth _ _ He1) in Et.
  assert (Hp3 : ctx_poisoned s3 = false).
  { apply not_true_iff_false. intros E. apply (ev_poison _ _ (handle_evolves (Provide w1 w2 ctx) s3)) in E. congruence. }
  pose proof (run_last_offered qs3 s2) as Hl. rewrite H3 in Hl. cbn [fst snd] in Hl. specialize (Hl Hp3).
  change (taproot_ctx s2 = Some c0) in Hc0. rewrite Hc0 in Hl.
  assert (Hsome : exists prev, last_offered a (Some c0) = Some prev).
  { clear. revert c0. induction a as [|[[] x] a IH]; intros c0; cbn; [by eexists|..]; apply IH. }
  destruct Hsome as [prev Hprev]. exists prev. split; [done|]. rewrite <- Hprev, <- Hl.
  eapply handle_truth; [by apply He|by apply He|exact Hp4|reflexivity].
Qed.

(** The window before the first match: a context the chain has no record of is put
    in force, and the signer signs for it. *)
Lemma unrecorded_context_accepted v1 v2 ctx s : truth s <> None -> truth_recorded s = false ->
  contradicts (taproot_ctx s) ctx = false -> ask v1 ctx = Some NotRecorded ->
  taproot_ctx (provide_taproot_context v1 v2 ctx s) = Some ctx /\
  ctx_poisoned (provide_taproot_context v1 v2 ctx s) = ctx_poisoned s.
Proof.
  intros Ht Hr Hc Ha. unfold provide_taproot_context, check_against_chain. rewrite Hc, Ha, Hr.
  destruct (truth s); [|done]. cbn [negb]. split; [done|]. unfold record_scope. by repeat case_match.
Qed.

(** C20: A MuSig2 splice is signed only when it re-creates the channel.  A partial
    signature for a splice of a taproot channel leaves only when, among the outputs of
    the transaction, exactly one is the funding output, at the value and under the
    aggregate of our rotated key and the counterparty's, of a context that was offered
    for this very splice.  The ECDSA method for the shared input of a splice has no
    such check ([ecdsa_splice_unchecked]). *)
Theorem splice_keeps_channel script qs tr1 tx input prevouts cp_nonce txid k sg tr2 :
  (run qs (signer_new script)).2 = tr1 ++ (PartialSplice tx input prevouts cp_nonce txid k, PartialReply sg) :: tr2 ->
  exists v1 v2 ctx o, In (Provide v1 v2 ctx) (map fst tr1) /\ splice_parent_funding_txid ctx = Some txid /\
    scope_output ctx = Some o /\ length (filter (fun x => x = o) (tx_outputs tx)) = 1%nat.
Proof.
  intros Htr. apply run_split in Htr as (qs1 & qs2 & s1 & Hs1 & Hr & _).
  destruct (handle _ s1) as [s2 r] eqn:Eh. cbn in Hr. subst r. cbn [handle] in Eh.
  apply answer_inv in Eh as (a & Eh & _); [|done]. unfold partially_sign_splice_shared_input in Eh. peel Eh.
  match goal with H : check_splice_continues_funding _ _ _ = Some _ |- _ => rename H into Hc end.
  unfold check_splice_continues_funding in Hc. apply bind_Some in Hc as (o & Ho & Hc).
  case_bool_decide as Hl; [|done].
  assert (splice_continuation (run qs1 (signer_new script)).1 !! txid = Some o) as Ho' by (by rewrite Hs1).
  apply run_scopes in Ho' as [Hno|(v1 & v2 & ctx & Hin & H1 & H2)]; [discriminate Hno|].
  rewrite Hs1 in Hin. exists v1, v2, ctx, o. by split_and!.
Qed.

(** The other method that signs the shared input of a splice refuses nothing, in any
    state, a stopped signer included. *)
Lemma ecdsa_splice_unchecked tx input s :
  handle (SignSplice tx input) s = (s, Signature (inner_sign_splice tx input)).
Proof. reflexivity. Qed.

(** What leaves for a cooperative close pays the holder to the committed script, and
    what leaves for a holder HTLC spends the outpoint and pays the output its
    descriptor names. *)
Lemma close_pays_holder q s s' r c : handle q s = (s', r) -> r <> Refused ->
  q = SignClosing c \/ q = PartialClosing c ->
  to_holder_value_sat c = 0 \/ to_holder_script c = expected_holder_close_script s.
Proof.
  intros H Hr Hq.
  enough (check_closing_payout_script c (expected_holder_close_script s) = true) as Hc.
  { unfold check_closing_payout_script in Hc. case_match; [left; lia|]. right. by case_bool_decide. }
  destruct Hq as [-> | ->]; cbn [handle] in H; (apply answer_inv in H as (a & H & _); [|done]);
    unfold sign_closing_transaction, partially_sign_closing_transaction in H;
    apply mlet_inv in H as (s1 & sc & H1 & H); apply asks_inv in H1 as [-> [= <-]];
    apply mlet_inv in H as (s2 & u & H1 & H); by apply ensure_inv in H1 as [_ H1].
Qed.

Lemma htlc_pays_descriptor tx i d s s' r : handle (SignHolderHtlc tx i d) s = (s', r) -> r <> Refused ->
  tx_prevouts tx !! i = Some (htlc_outpoint d) /\ htlc_tx_output d ∈ tx_outputs tx.
Proof.
  cbn [handle]. intros H Hr. apply answer_inv in H as (a & H & _); [|done].
  unfold sign_holder_htlc_transaction in H. apply mlet_inv in H as (s1 & u & H1 & _).
  apply ensure_inv in H1 as [_ Hc]. unfold check_holder_htlc_tx in Hc.
  destruct (tx_prevouts tx !! i) as [op|]; [|done]. apply andb_prop in Hc as [H1 H2].
  apply bool_decide_eq_true in H1 as ->. by apply bool_decide_eq_true in H2.
Qed.

(** ** The comparand read from the chain *)

(** A match says the record was there and both facts of it are the candidate's. *)
Lemma truth_verify_match keccak cid call k0 k1 v : truth_verify keccak cid call k0 k1 v = Some Match ->
  exists c b w, cid = Some c /\ call c = Some b /\
    truth_word b W_KEYS_HASH = Some (keys_hash keccak k0 k1) /\ truth_word b W_AMOUNT_SATS = Some w /\
    from_be_bytes (take 8 (drop 24 w)) = v.
Proof.
  unfold truth_verify. intros H. apply bind_Some in H as (r & Hr & H).
  unfold truth_read in Hr. destruct cid as [c|]; [|by injection Hr as <-].
  apply bind_Some in Hr as (b & Hb & Hr). destruct (_ <? _)%nat; [done|]. injection Hr as <-.
  apply bind_Some in H as (kh & Hkh & H). destruct (forallb _ kh); [done|].
  case_bool_decide as Hk; [|done]. cbn [negb] in H. apply bind_Some in H as (w & Hw & H).
  destruct (existsb _ _); [done|]. destruct (_ =? v) eqn:Ev; [|done]. subst kh.
  exists c, b, w. split_and!; try done. lia.
Qed.

Lemma keys_hash_inj keccak a b a' b' : length a = 33%nat -> length b = 33%nat ->
  keys_hash keccak a b = keys_hash keccak a' b' -> (a = a' /\ b = b') \/
  (encode_tuple [Bytes a; Bytes b] <> encode_tuple [Bytes a'; Bytes b'] /\
   keccak (encode_tuple [Bytes a; Bytes b]) = keccak (encode_tuple [Bytes a'; Bytes b'])).
Proof.
  intros Ha Hb Hk.
  destruct (decide (encode_tuple [Bytes a; Bytes b] = encode_tuple [Bytes a'; Bytes b'])) as [E|E]; [left|by right].
  enough ([Bytes a; Bytes b] = [Bytes a'; Bytes b']) as [= -> ->] by done.
  apply (encode_tuple_inj [TBytes; TBytes]); [..|done].
  1, 2: repeat (apply Forall2_cons; split); try done; by constructor.
  rewrite encode_tuple_eq. unfold tails, encode_bytes. cbn [heads is_dynamic map concat tail].
  unfold fits, encode_bytes. rewrite !length_app, !word_length, !length_replicate, Ha, Hb. cbn. lia.
Qed.

(** A forged channel is refused from the first context on.  When the chain has a
    record of the channel, a node that offers a first context with other funding keys
    or another funded value than those recorded stops the signer, unless Keccak-256
    collides on the two key pairs. *)
Theorem forged_context_refused keccak s t cid b k0 k1 w ctx :
  truth s = Some t -> taproot_ctx s = None -> ctx_poisoned s = false ->
  length k0 = 33%nat -> length k1 = 33%nat ->
  truth_word b W_KEYS_HASH = Some (keys_hash keccak k0 k1) ->
  existsb (fun x => negb (x =? 0)) (keys_hash keccak k0 k1) = true ->
  truth_word b W_AMOUNT_SATS = Some w ->
  let answers := truth_verify keccak (Some cid) (fun _ => Some b) in
  ctx_poisoned (provide_taproot_context answers answers ctx s) = false ->
  funding_value_sat ctx = from_be_bytes (take 8 (drop 24 w)) /\
  (scope_pair ctx = (k0, k1) \/
   keccak (encode_tuple [Bytes k0; Bytes k1]) =
     keccak (encode_tuple [Bytes (scope_pair ctx).1; Bytes (scope_pair ctx).2]) /\
   encode_tuple [Bytes k0; Bytes k1] <> encode_tuple [Bytes (scope_pair ctx).1; Bytes (scope_pair ctx).2]).
Proof.
  intros Ht Hc Hp H0 H1 Hk Hz Hw answers Hok. unfold provide_taproot_context in Hok. rewrite Hc in Hok.
  cbn [contradicts] in Hok.
  destruct (check_against_chain_spec answers answers ctx None s t Ht) as (Hs & _ & _).
  destruct (check_against_chain _ _ _ _ _) as [s1 []]; cbn [negb snd] in *; [|discriminate Hok].
  destruct Hs as [Hs _]. destruct (Hs eq_refl) as [[Hm|(p & ? & _)]|[Hn _]]; [|done|].
  - apply truth_verify_match in Hm as (c & b' & w' & [= <-] & [= <-] & Hk' & Hw' & Hv).
    rewrite Hw in Hw'. injection Hw' as <-. split; [done|].
    rewrite Hk in Hk'. injection Hk' as Hk'.
    destruct (keys_hash_inj _ _ _ _ _ H0 H1 Hk') as [[-> ->]|[? ?]]; [left; by destruct (scope_pair ctx)|by right].
  - exfalso. unfold ask, answers, truth_verify, truth_read in Hn. cbn [mbind option_bind] in Hn.
    destruct (_ <? _)%nat; [done|]. cbn [mbind option_bind] in Hn. rewrite Hk in Hn. cbn [mbind option_bind] in Hn.
    assert (forallb (fun x => x =? 0) (keys_hash keccak k0 k1) = false) as E.
    { apply existsb_exists in Hz as (x & Hx & Hz). apply not_true_iff_false. intros Hf.
      rewrite forallb_forall in Hf. apply Hf in Hx. by rewrite Hx in Hz. }
    rewrite E in Hn. case_bool_decide; [|done]. rewrite Hw in Hn. cbn in Hn. repeat case_match; done.
Qed.

(** ** Nonce heights and rounds *)

(** The heights of the three families of holder-local nonces: commitments below
    [2^48], splices above them, closes at the top — as long as the closing round has
    not come down to the others, which the saturating subtraction does not prevent. *)
Lemma splice_height_range txid k : 2 ^ 48 <= splice_nonce_height txid k < 2 ^ 48 + 2 ^ 56.
Proof.
  unfold splice_nonce_height. cbv zeta. set (raw := from_be_bytes _).
  change (2 ^ 56 - 1) with (Z.ones 56). rewrite Z.land_ones by lia.
  pose proof (Z.mod_pos_bound raw (2 ^ 56)). rewrite cast_id; [lia|]. unfold_ints. lia.
Qed.
Lemma closing_height_range round : 0 <= round < 2 ^ 63 -> 2 ^ 63 <= closing_nonce_height round <= 2 ^ 64 - 1.
Proof. intros. unfold closing_nonce_height, CLOSING_NONCE_BASE. rewrite sat_id; unfold_ints; lia. Qed.
Lemma closing_height_reaches_commitments idx : 0 <= idx <= INITIAL_COMMITMENT_NUMBER ->
  exists round, in_range u64 round /\ closing_nonce_height round = idx.
Proof.
  intros H. exists (CLOSING_NONCE_BASE - idx). unfold closing_nonce_height, CLOSING_NONCE_BASE, INITIAL_COMMITMENT_NUMBER in *.
  split; [unfold_ints; lia|]. rewrite sat_id; unfold_ints; lia.
Qed.

(** The HMAC inputs of the three rounds differ, at every pair of heights. *)
Lemma seed_inputs_distinct h h' :
  COUNTERPARTY_COMMITMENT_NONCE_TAG ++ to_be_bytes 8 h <> to_be_bytes 8 h' /\
  DEAD_MAN_EXIT_NONCE_TAG ++ to_be_bytes 8 h <> to_be_bytes 8 h' /\
  COUNTERPARTY_COMMITMENT_NONCE_TAG ++ to_be_bytes 8 h <> DEAD_MAN_EXIT_NONCE_TAG ++ to_be_bytes 8 h'.
Proof.
  split_and!; intros E; apply (f_equal length) in E; rewrite ?length_app, ?to_be_length in E;
    vm_compute in E; discriminate.
Qed.

(** A holder-local nonce depends on the height alone; the other rounds bind the
    message, so if the nonce function hides no two inputs behind one nonce, one nonce
    is one message, whatever was forgotten in between. *)
Lemma holder_local_nonce_fixed ka our cp sk h n m n' m' a b :
  our_key_path_partial HolderLocal ka our cp sk h n m = Some a ->
  our_key_path_partial HolderLocal ka our cp sk h n' m' = Some b -> sg_pubnonce a = sg_pubnonce b.
Proof.
  unfold our_key_path_partial. intros Ha Hb.
  apply bind_Some in Ha as (x & Hx & Ha). apply bind_Some in Ha as (y & _ & [= <-]).
  apply bind_Some in Hb as (x' & Hx' & Hb). apply bind_Some in Hb as (y' & _ & [= <-]).
  cbn in *. congruence.
Qed.

Lemma counterparty_partial_restart_safe ka our cp sk h n m n' m' a b :
  (forall seed sp sp' x, round_nonce ka seed our sp = Some x -> round_nonce ka seed our sp' = Some x -> sp = sp') ->
  our_key_path_partial CounterpartyRound ka our cp sk h n m = Some a ->
  our_key_path_partial CounterpartyRound ka our cp sk h n' m' = Some b ->
  sg_pubnonce a = sg_pubnonce b -> n = n' /\ m = m'.
Proof.
  intros Hinj Ha Hb. unfold our_key_path_partial in *.
  apply bind_Some in Ha as (x & Hx & Ha). apply bind_Some in Ha as (y & _ & [= <-]).
  apply bind_Some in Hb as (x' & Hx' & Hb). apply bind_Some in Hb as (y' & _ & [= <-]).
  cbn. intros <-. specialize (Hinj _ _ _ _ Hx Hx'). by injection Hinj.
Qed.

(** ** What the policy lets through *)

(** The identity of a funding scope can be replaced.  The keys and the value of a
    scope may change only when a splice is declared; but declaring one and then
    returning to the first scope is two declared splices, and nothing remembers what
    the first scope was.  Without a comparand, any key and any value can be put in the
    place of the ones in force, and the signer goes on signing. *)
Theorem scope_identity_replaced v1 v2 s c mid c' :
  truth s = None -> ctx_poisoned s = false -> taproot_ctx s = Some c ->
  splice_parent_funding_txid mid <> splice_parent_funding_txid c ->
  splice_parent_funding_txid c' = splice_parent_funding_txid c ->
  closing_round c <= closing_round mid <= closing_round c' ->
  let s' := provide_taproot_context v1 v2 c' (provide_taproot_context v1 v2 mid s) in
  taproot_ctx s' = Some c' /\ ctx_poisoned s' = false /\ taproot_key_agg s' = key_agg_for c'.
Proof.
  intros Ht Hp Hc Hm Hc' Hr s'. unfold taproot_key_agg.
  assert (forall x s, truth s = None -> ctx_poisoned s = false -> contradicts (taproot_ctx s) x = false ->
    taproot_ctx (provide_taproot_context v1 v2 x s) = Some x /\
    ctx_poisoned (provide_taproot_context v1 v2 x s) = false /\ truth (provide_taproot_context v1 v2 x s) = None) as Hstep.
  { intros x s1 H1 H2 H3. unfold provide_taproot_context, check_against_chain. rewrite H3, H1. cbn [negb].
    unfold record_scope. repeat case_match; done. }
  assert (forall a b, splice_parent_funding_txid a <> splice_parent_funding_txid b -> closing_round a <= closing_round b ->
    contradicts (Some a) b = false) as Hcon.
  { intros a b Hab Hle. cbn. unfold regressed_round, rebound_identity. rewrite bool_decide_false by done.
    rewrite (proj2 (Z.ltb_ge _ _)) by lia. done. }
  destruct (Hstep mid s) as (H1 & H2 & H3); [done..|rewrite Hc; apply Hcon; [by intros ?|lia]|].
  destruct (Hstep c' (provide_taproot_context v1 v2 mid s)) as (H4 & H5 & _); [done..|rewrite H1; apply Hcon; [congruence|lia]|].
  fold s' in H4, H5. by rewrite H4, H5.
Qed.

(** A signed commitment can be revoked at once.  The order of a release and a
    signature is checked one way only: after signing the holder commitment that is
    current, the signer releases the revocation secret of that same commitment, with
    no newer one in place, so whoever broadcasts it can be punished for it. *)
Theorem current_commitment_revocable script c sig sec :
  inner_sign_holder c = Some sig -> inner_secret (commitment_number c) = Some sec ->
  (run [SignHolder c; ReleaseSecret (commitment_number c)] (signer_new script)).2 =
  [(SignHolder c, Signature sig); (ReleaseSecret (commitment_number c), Secret sec)].
Proof.
  intros Hs Hr. cbn [run]. cbn -[signer_new]. unfold mlet, policy_step, asks. cbn. by rewrite Hs, Hr.
Qed.

(** What a counterparty commitment needs.  The partial signature is given exactly
    when the commitment does not regress, a context is in force and has not been
    contradicted, the transaction can be hashed and signed, the nonce is free or bound
    to this very message, and the HTLCs can be signed. *)
Theorem counterparty_partial_iff s n c : (exists sg, (handle (PartialCounterparty n c) s).2 = PartialReply sg) <->
  exists ctx ka our cp value spk m sg,
    check_no_regression (highest_counterparty_commitment_signed (policy s)) (commitment_number c) = true /\
    ctx_poisoned s = false /\ taproot_ctx s = Some ctx /\ key_agg_for ctx = Some (ka, our, cp, value, spk) /\
    keyspend_sighash (commitment_built c) value spk = Some m /\
    our_key_path_partial CounterpartyRound ka our cp (funding_seckey (splice_parent_funding_txid ctx))
      (commitment_number c) n m = Some sg /\
    (forall a, nonce_bindings (policy s) !! sg_pubnonce sg = Some a -> a = sha256 (n ++ m)) /\
    is_Some (htlc_sigs c).
Proof.
  cbn [handle]. unfold answer, partially_sign_counterparty_commitment. cbn [snd]. split.
  - intros [sg H]. destruct (mlet _ _ _) as [s' [[sg' sigs]|]] eqn:E; [|done]. cbn in H. injection H as ->.
    apply mlet_inv in E as (s1 & u & H1 & E). apply policy_step_inv in H1 as (p & H1 & ->).
    apply mlet_inv in E as (s2 & [[[[ka our] cp] value] spk] & H2 & E). apply asks_inv in H2 as [-> H2].
    apply mlet_inv in E as (s3 & m & H3 & E). apply asks_inv in H3 as [-> H3].
    apply mlet_inv in E as (s4 & sg' & H4 & E). apply mlet_inv in E as (s5 & sigs' & H5 & E).
    apply asks_inv in H5 as [-> H5]. apply ret_inv in E as [-> [= -> ->]].
    unfold record_counterparty_commitment in H1. destruct (check_no_regression _ _) eqn:Er; [|done].
    injection H1 as <-. unfold taproot_key_agg in H2. cbn in H2.
    destruct (ctx_poisoned s) eqn:Ep; [done|]. apply bind_Some in H2 as (ctx & Hctx & H2).
    unfold sign_bound in H4. apply mlet_inv in H4 as (s6 & sg2 & H6 & H4). apply asks_inv in H6 as [-> H6].
    apply mlet_inv in H4 as (s7 & u2 & H7 & H4). apply ret_inv in H4 as [-> ->].
    apply policy_step_inv in H7 as (p2 & H7 & _).
    exists ctx, ka, our, cp, value, spk, m, sg2. split_and!; try done.
    + unfold taproot_holder_funding_key in H6. cbn in H6. rewrite Hctx in H6. exact H6.
    + intros a Ha. unfold bind_nonce in H7. cbn in H7. rewrite Ha in H7. by case_bool_decide.
  - intros (ctx & ka & our & cp & value & spk & m & sg & Hr & Hp & Hctx & Hk & Hm & Hs & Hb & [sigs Hh]).
    exists sg. unfold mlet, policy_step, asks, record_counterparty_commitment, sign_bound, ret.
    rewrite Hr. unfold taproot_key_agg. cbn. rewrite Hp, Hctx. cbn. rewrite Hk, Hm.
    unfold mlet, asks, taproot_holder_funding_key. cbn. rewrite Hctx. cbn. rewrite Hs.
    unfold policy_step, bind_nonce. cbn.
    assert (sg_cp_nonce sg = n) as <-.
    { unfold our_key_path_partial in Hs. apply bind_Some in Hs as (x & _ & Hs). by apply bind_Some in Hs as (y & _ & [= <-]). }
    destruct (nonce_bindings (policy s) !! sg_pubnonce sg) as [a|] eqn:E.
    + rewrite bool_decide_true by (by apply Hb). cbn. by rewrite Hh.
    + cbn. by rewrite Hh.
Qed.
End Signing.

(** ** Witnesses

    A transparent instance: hashes are the identity, keys are their bytes, and a
    signature is empty. *)
#[local] Instance toy_musig : Musig := {|
  KeyAgg := bytes * bytes; Scalar := unit; SecKey := unit;
  sha256 := fun l => l; hmac := fun k m => k ++ m;
  key_agg_tweaked := fun a b => Some (a, b);
  aggregated_xonly := fun ka => take 32 ka.1;
  round_nonce := fun _ seed _ sp => Some (seed ++ default [] (sp_message sp) ++ default [] (sp_extra sp));
  round_sign := fun _ _ _ _ _ _ _ _ => Some tt
|}.
#[local] Instance toy_inner : Inner := {|
  funding_pubkey := fun p => replicate 33 (match p with Some _ => 5 | None => 4 end);
  funding_seckey := fun _ => tt;
  commitment_seed := replicate 32 1;
  keyspend_sighash := fun tx v _ => Some (replicate 32 (v + Z.of_nat (length (tx_outputs tx))));
  splice_sighash := fun tx i _ => Some (replicate 32 (Z.of_nat (length (tx_outputs tx))));
  htlc_sigs := fun _ => Some [];
  inner_secret := fun i => Some [i];
  inner_validate := fun _ => true;
  inner_sign_holder := fun c => Some [commitment_number c];
  inner_sign_counterparty := fun c => Some [commitment_number c];
  inner_sign_closing := fun _ => Some [];
  inner_sign_htlc := fun _ _ _ => Some [];
  inner_sign_splice := fun _ _ => [1]
|}.

Definition w_ctx : TaprootSignerContext := mkCtx (replicate 33 7) 1000 (Some (replicate 66 3)) 0 None.
Definition w_txid : bytes := replicate 32 9.
Definition w_rotated : TaprootSignerContext := mkCtx (replicate 33 8) 900 None 0 (Some w_txid).
Definition w_com : CommitmentTx := mkCommitment 100 (mkTx [] []).
Definition w_known : Truth := fun _ _ _ => Some Match.
Definition w_close (n : nat) : ClosingTx := mkClosing 0 [] (mkTx [] (replicate n (mkTxOut 1 []))).

(** Two closes of one round, before and after a restart: one nonce, two messages. *)
Lemma restart_reuses_nonce : exists sg1 sg2,
  (run [Provide w_known w_known w_ctx; PartialClosing (w_close 1)] (signer_new [])).2 =
    [(Provide w_known w_known w_ctx, Done); (PartialClosing (w_close 1), PartialReply sg1)] /\
  (run [Provide w_known w_known w_ctx; PartialClosing (w_close 2)] (signer_new [])).2 =
    [(Provide w_known w_known w_ctx, Done); (PartialClosing (w_close 2), PartialReply sg2)] /\
  sg_pubnonce sg1 = sg_pubnonce sg2 /\ sg_message sg1 <> sg_message sg2.
Proof. eexists _, _. split_and!; [reflexivity|reflexivity|reflexivity|by vm_compute]. Qed.

Lemma nonce_never_reused_witness :
  let qs := [Provide w_known w_known w_ctx; PartialClosing (w_close 1); PartialClosing (w_close 1)] in
  exists q sg, In (q, PartialReply sg) (run qs (signer_new [])).2 /\
    (sg_cp_nonce sg = sg_cp_nonce sg /\ sg_message sg = sg_message sg \/
     sg_cp_nonce sg ++ sg_message sg <> sg_cp_nonce sg ++ sg_message sg /\
     sha256 (sg_cp_nonce sg ++ sg_message sg) = sha256 (sg_cp_nonce sg ++ sg_message sg)).
Proof.
  eexists _, _. split; [right; left; reflexivity|].
  eapply (nonce_never_reused []
    [Provide w_known w_known w_ctx; PartialClosing (w_close 1); PartialClosing (w_close 1)]);
    [right; left; reflexivity|right; right; left; reflexivity|reflexivity|reflexivity].
Defined.

Lemma revoked_never_signed_witness : 99 < 100.
Proof.
  refine (proj1 (revoked_never_signed [] [ReleaseSecret 100; SignHolder (mkCommitment 99 (mkTx [] []))]
    [] (ReleaseSecret 100) (Secret [100]) [] (SignHolder (mkCommitment 99 (mkTx [] []))) (Signature [99]) []
    100 99 _ _ _) _ _); first [done|reflexivity].
Defined.

Lemma signed_contexts_confirmed_witness : exists prev,
  last_offered [] (Some w_ctx) = Some prev /\ confirmed w_known w_known (Some prev) w_rotated.
Proof.
  eapply (signed_contexts_confirmed []
    [AttachTruth 1 Lp; Provide w_known w_known w_ctx; Provide w_known w_known w_rotated;
     DeadmanPartial (replicate 66 2) 5 (replicate 32 6)] 1 Lp
    [(AttachTruth 1 Lp, Done)] w_known w_known w_ctx Done [] w_known w_known w_rotated Done []);
    [reflexivity|left; reflexivity|reflexivity].
Defined.

Definition w_splice : Tx := mkTx [(w_txid, 0)] [mkTxOut 900 (81 :: 32 :: replicate 32 5); mkTxOut 50 [1]].
Lemma splice_keeps_channel_witness :
  exists v1 v2 ctx o, In (Provide v1 v2 ctx) [Provide w_known w_known w_rotated] /\
    splice_parent_funding_txid ctx = Some w_txid /\ scope_output ctx = Some o /\
    length (filter (fun x => x = o) (tx_outputs w_splice)) = 1%nat.
Proof.
  eapply (splice_keeps_channel [] [Provide w_known w_known w_rotated; PartialSplice w_splice 0 [] (replicate 66 2) w_txid 0]
    [(Provide w_known w_known w_rotated, Done)]). reflexivity.
Defined.

Definition w_record : bytes :=
  replicate 24 0 ++ to_be_bytes 8 1000 ++ replicate 128 0 ++
  keys_hash w_hash (replicate 33 4) (replicate 33 7).
Lemma forged_context_refused_witness :
  funding_value_sat w_ctx = 1000 /\
  (scope_pair w_ctx = (replicate 33 4, replicate 33 7) \/
   w_hash (encode_tuple [Bytes (replicate 33 4); Bytes (replicate 33 7)]) =
     w_hash (encode_tuple [Bytes (scope_pair w_ctx).1; Bytes (scope_pair w_ctx).2]) /\
   encode_tuple [Bytes (replicate 33 4); Bytes (replicate 33 7)] <>
     encode_tuple [Bytes (scope_pair w_ctx).1; Bytes (scope_pair w_ctx).2]).
Proof.
  apply (forged_context_refused w_hash ((signer_new []) <| truth := Some (1, Lp) |>) (1, Lp) [] w_record
    (replicate 33 4) (replicate 33 7) (take 32 w_record) w_ctx); reflexivity.
Defined.

Lemma scope_identity_replaced_witness :
  let c' := mkCtx (replicate 33 66) 1 None 0 None in
  let s := provide_taproot_context w_known w_known w_ctx (signer_new []) in
  taproot_ctx (provide_taproot_context w_known w_known c' (provide_taproot_context w_known w_known w_rotated s)) = Some c'.
Proof.
  intros c' s. apply (scope_identity_replaced w_known w_known s w_ctx w_rotated c');
    [reflexivity|reflexivity|reflexivity|discriminate|reflexivity|cbn; lia].
Defined.

Lemma current_commitment_revocable_witness :
  (run [SignHolder w_com; ReleaseSecret 100] (signer_new [])).2 =
  [(SignHolder w_com, Signature [100]); (ReleaseSecret 100, Secret [100])].
Proof. apply (current_commitment_revocable [] w_com [100] [100]); reflexivity. Defined.
