(* ===== verification/Freshness.v ===== *)
(** * Freshness: the guard against rolled-back channel state

    [quid-ln/quid-hop/src/freshness.rs] (the anchor and the boot check),
    [quid-ln/quid-bridge/src/freshness_ledger.rs] (the on-chain ledger, its queue and
    the committer thread), the two writers of [quid-hop/src/persister.rs], the boot
    checks of [quid-hop/src/node.rs], and [commitFreshness] and
    [commitManagerFreshness] of [evm/src/BTCChannels.sol].

    The host of the enclave keeps the channel state and may serve an old copy of it
    after a restart.  Every write is therefore numbered, the number is committed to a
    counter on Ethereum, and at boot nothing older than the counter is loaded.

    A [World] is the process ([Proc], lost at a restart), the counters as they are
    and as the last agreed read sees them, and, per key, the highest write
    acknowledged to the node and the highest write answered with a failure, neither of
    which the program stores.  The network decides what becomes
    of a transaction ([Net]), the host what its disk answers and what it serves.
    Mutexes are poisoned only by a panic while they are held, which none of these
    methods does; the committer ends only with the process. *)
From Stdlib Require Import String.
From stdpp Require Import gmap strings.
From S2P Require Import Prelude Pool Chain Abi.
Open Scope list_scope.

(** ** Keys *)
Definition MANAGER_FRESHNESS_KEY : string := "channel-manager".

Definition hex_char (n : Z) : Ascii.ascii :=
  Ascii.ascii_of_N (Z.to_N (if n <? 10 then 48 + n else 87 + n)).
(** Lower-case, two digits a byte. *)
Definition hex32 (b : list Z) : string :=
  string_of_list_ascii (concat (map (fun x => [hex_char (x / 16); hex_char (x mod 16)]) b)).

(** ** The counters on Ethereum *)
Record Counters := mkCounters {
  freshnessSeq : gmap (list Z) Z;
  managerFreshnessSeq : Z                    (* of this hop *)
}.
#[export] Instance counters_eta : Eta Counters := fun r => mkCounters (freshnessSeq r) (managerFreshnessSeq r).
Definition MAX_FRESHNESS_JUMP : Z := 1000000.

(** [None] is a revert. *)
Definition bump (cur seq : Z) : option Z :=
  if seq <=? cur then None else if MAX_FRESHNESS_JUMP <? seq - cur then None else Some seq.
Definition commitFreshness (c : Counters) (cid : list Z) (seq : Z) : option Counters :=
  v ← bump (default 0 (freshnessSeq c !! cid)) seq;
  Some (c <| freshnessSeq := <[cid := v]> (freshnessSeq c) |>).
Definition commitManagerFreshness (c : Counters) (seq : Z) : option Counters :=
  v ← bump (managerFreshnessSeq c) seq; Some (c <| managerFreshnessSeq := v |>).

(** ** The process *)
Record Proc := mkProc {
  cache : gmap string Z;                     (* LedgerFreshnessAnchor::cache *)
  confirmed : gmap string Z;                 (* QueuedFreshnessLedger::confirmed *)
  queue : list (string * Z);                 (* the channel to the committer *)
  shutdown : bool;
  manager_seq : Z                            (* AtomicU64 *)
}.
#[export] Instance proc_eta : Eta Proc := fun r =>
  mkProc (cache r) (confirmed r) (queue r) (shutdown r) (manager_seq r).
Definition proc0 : Proc := mkProc ∅ ∅ [] false 0.

(** What becomes of a transaction: it is not mined and the sender gets an error; it
    is mined; it is mined and the sender gets an error all the same. *)
Inductive Net := Lost | Mined | MinedUnseen.

Inductive Freshness := Fresh | Stale (loaded anchored : Z).
Inductive Status := Completed | InProgress.

Definition MAX_UNCONFIRMED_LAG : Z := 128.
Definition lag_exceeds_bound (seq confirmed : Z) : bool := MAX_UNCONFIRMED_LAG <? sat u64 (seq - confirmed).

Section Freshness.
(** [channel_id_hex], the resolver in production; it undoes [hex32]. *)
Variable resolver : string -> option (list Z).

(** *** [BtcChannelsFreshnessLedger] *)
Definition ledger_highest (view : Counters) (monitor : string) : option (option Z) :=
  seq ← (if decide (monitor = MANAGER_FRESHNESS_KEY) then Some (managerFreshnessSeq view)
         else cid ← resolver monitor; Some (default 0 (freshnessSeq view !! cid)));
  Some (if seq =? 0 then None else Some seq).

(** The transaction, and what the sender learns. *)
Definition send_commit (c : Counters) (call : option Counters) (net : Net) : Counters * option unit :=
  match net with
  | Lost => (c, None)
  | Mined => match call with Some c' => (c', Some tt) | None => (c, None) end
  | MinedUnseen => (default c call, None)
  end.
Definition ledger_store (c : Counters) (monitor : string) (seq : Z) (net : Net) : Counters * option unit :=
  if decide (monitor = MANAGER_FRESHNESS_KEY) then send_commit c (commitManagerFreshness c seq) net
  else match resolver monitor with
       | None => (c, None)
       | Some cid => send_commit c (commitFreshness c cid seq) net
       end.

(** *** [QueuedFreshnessLedger::store] *)
Definition queued_store (p : Proc) (monitor : string) (seq : Z) : Proc * option unit :=
  if lag_exceeds_bound seq (default 0 (confirmed p !! monitor)) then (p, None)
  else (p <| queue := queue p ++ [(monitor, seq)] |>, Some tt).

(** *** [LedgerFreshnessAnchor] *)
Definition commit (p : Proc) (monitor : string) (update_id : Z) : Proc * option unit :=
  let entry := default 0 (cache p !! monitor) in
  if update_id <=? entry then (p <| cache := <[monitor := entry]> (cache p) |>, Some tt)
  else queued_store (p <| cache := <[monitor := update_id]> (cache p) |>) monitor update_id.

(** The ledger read may fail. *)
Definition highest (p : Proc) (read : string -> option (option Z)) (monitor : string) :
    Proc * option (option Z) :=
  match cache p !! monitor with
  | Some v => (p, Some (Some v))
  | None =>
      match read monitor with
      | None => (p, None)
      | Some None => (p, Some None)
      | Some (Some u) => (p <| cache := <[monitor := u]> (cache p) |>, Some (Some u))
      end
  end.

Definition verify (p : Proc) (read : string -> option (option Z)) (monitor : string) (loaded : Z) :
    Proc * option Freshness :=
  let '(p, h) := highest p read monitor in
  (p, h ← h; Some (match h with
                   | Some anchored => if loaded <? anchored then Stale loaded anchored else Fresh
                   | None => Fresh
                   end)).

(** *** The writers *)

(** [HopPersister::write_monitor]; [disk] answers the attempts. *)
Fixpoint write_monitor (attempts : nat) (p : Proc) (cid : option (list Z)) (update_id : Z) (disk : nat -> bool) :
    Proc * Status :=
  match attempts with
  | O => (p <| shutdown := true |>, InProgress)
  | S n =>
      if disk n then
        match cid with
        | None => (p, Completed)
        | Some oc =>
            match commit p (hex32 oc) update_id with
            | (p, Some _) => (p, Completed)
            | (p, None) => (p <| shutdown := true |>, InProgress)
            end
        end
      else write_monitor n p cid update_id disk
  end.

(** [persist_manager]: the number goes up even when the write then fails. *)
Definition persist_manager (p : Proc) (disk_ok : bool) : Proc * option Z :=
  let seq := cast u64 (manager_seq p + 1) in
  let p := p <| manager_seq := seq |> in
  if negb disk_ok then (p, None) else
  match commit p MANAGER_FRESHNESS_KEY seq with
  | (p, Some _) => (p, Some seq)
  | (p, None) => (p <| shutdown := true |>, None)
  end.

(** *** The committer *)
Definition raise (m : gmap string Z) (item : string * Z) : gmap string Z :=
  let e := default 0 (m !! item.1) in
  <[item.1 := if e <? item.2 then item.2 else e]> m.
Definition coalesce (first : string * Z) (rest : list (string * Z)) : gmap string Z :=
  foldl raise (<[first.1 := first.2]> ∅) rest.

Definition commit_one (c : Counters) (p : Proc) (item : string * Z) (net : Net) : Counters * Proc :=
  match ledger_store c item.1 item.2 net with
  | (c, Some _) => (c, p <| confirmed := raise (confirmed p) item |>)
  | (c, None) => (c, p)
  end.
Fixpoint commit_batch (c : Counters) (p : Proc) (items : list (string * Z)) (nets : nat -> Net) : Counters * Proc :=
  match items with
  | [] => (c, p)
  | item :: items =>
      let '(c, p) := commit_one c p item (nets (length items)) in commit_batch c p items nets
  end.

(** *** Boot: a new process, with what the host serves *)
Fixpoint boot_monitors (p : Proc) (read : string -> option (option Z)) (mons : list (option (list Z) * Z)) :
    option Proc :=
  match mons with
  | [] => Some p
  | (cid, update_id) :: mons =>
      match cid with
      | None => boot_monitors p read mons
      | Some oc =>
          match verify p read (hex32 oc) update_id with
          | (p, Some Fresh) => boot_monitors p read mons
          | _ => None
          end
      end
  end.
Definition boot (read : string -> option (option Z)) (mons : list (option (list Z) * Z)) (mgr : option Z) :
    option Proc :=
  p ← boot_monitors proc0 read mons;
  match mgr with
  | None => Some p
  | Some seq =>
      match verify p read MANAGER_FRESHNESS_KEY seq with
      | (p, Some Fresh) => Some (p <| manager_seq := seq |>)
      | _ => None
      end
  end.

(** ** Runs *)
Record World := mkWorld {
  proc : Proc;
  counters : Counters;
  agreed : Counters;
  acked : gmap string Z;
  failed : gmap string Z
}.
Definition world0 : World := mkWorld proc0 (mkCounters ∅ 0) (mkCounters ∅ 0) ∅ ∅.
Definition seen (w : World) (m : string) : Z := default 0 (acked w !! m).
Definition refused (w : World) (m : string) : Z := default 0 (failed w !! m).

(** A write the node is told is durable, before or after the process raised its
    shutdown flag; and one it is told is not (yet). *)
Definition highest_of (l : gmap string Z) (m : string) (id : Z) : gmap string Z :=
  <[m := Z.max (default 0 (l !! m)) id]> l.
Definition acknowledge (w : World) (m : string) (id : Z) : gmap string Z := highest_of (acked w) m id.
Definition refuse (w : World) (m : string) (id : Z) : gmap string Z := highest_of (failed w) m id.

Inductive Action :=
| WriteMonitor (cid : option (list Z)) (update_id : Z) (disk : nat -> bool)
| PersistManager (disk_ok : bool)
| Commit (k : nat) (items : list (string * Z)) (nets : nat -> Net)   (* the first k queued *)
| Bury                                                               (* the agreed read catches up *)
| Restart (reads : string -> bool) (mons : list (option (list Z) * Z)) (mgr : option Z).

Definition act (w : World) (a : Action) : option World :=
  let p := proc w in
  match a with
  | WriteMonitor cid id disk =>
      match write_monitor 3 p cid id disk with
      | (p', Completed) =>
          Some (mkWorld p' (counters w) (agreed w)
            (match cid with Some oc => acknowledge w (hex32 oc) id | None => acked w end) (failed w))
      | (p', InProgress) =>
          Some (mkWorld p' (counters w) (agreed w) (acked w)
            (match cid with Some oc => refuse w (hex32 oc) id | None => failed w end))
      end
  | PersistManager ok =>
      match persist_manager p ok with
      | (p', Some seq) =>
          Some (mkWorld p' (counters w) (agreed w) (acknowledge w MANAGER_FRESHNESS_KEY seq) (failed w))
      | (p', None) =>
          Some (mkWorld p' (counters w) (agreed w) (acked w) (refuse w MANAGER_FRESHNESS_KEY (manager_seq p')))
      end
  | Commit k items nets =>
      match take k (queue p) with
      | [] => None
      | first :: rest =>
          if decide (items ≡ₚ map_to_list (coalesce first rest)) then
            let '(c, p') := commit_batch (counters w) (p <| queue := drop k (queue p) |>) items nets in
            Some (mkWorld p' c (agreed w) (acked w) (failed w))
          else None
      end
  | Bury => Some (mkWorld p (counters w) (counters w) (acked w) (failed w))
  | Restart reads mons mgr =>
      p' ← boot (fun m => if reads m then ledger_highest (agreed w) m else None) mons mgr;
      Some (mkWorld p' (counters w) (agreed w) (acked w) (failed w))
  end.

Fixpoint acts (w : World) (l : list Action) : option World :=
  match l with
  | [] => Some w
  | a :: l => w ← act w a; acts w l
  end.

(** * Lemmas *)

(** ** Counters *)
Definition counter (c : Counters) (m : string) : Z :=
  if decide (m = MANAGER_FRESHNESS_KEY) then managerFreshnessSeq c
  else match resolver m with Some cid => default 0 (freshnessSeq c !! cid) | None => 0 end.

Definition grown (c c' : Counters) : Prop := forall m, counter c m <= counter c' m.
#[local] Instance grown_pre : PreOrder grown.
Proof. split; [intros c m; lia|intros a b c H1 H2 m; specialize (H1 m); specialize (H2 m); lia]. Qed.

Lemma bump_inv cur seq v : bump cur seq = Some v -> v = seq /\ cur < seq.
Proof. unfold bump. repeat case_match; try done. intros [= <-]. lia. Qed.

Lemma ledger_highest_inv view m h : ledger_highest view m = Some h ->
  h = (if counter view m =? 0 then None else Some (counter view m)).
Proof.
  unfold ledger_highest, counter. intros H. apply bind_Some in H as (seq & Hs & [= <-]).
  destruct (decide _); [by injection Hs as ->|]. apply bind_Some in Hs as (cid & -> & [= ->]). done.
Qed.

(** A commit raises its own counter to the number sent, and lowers none. *)
Lemma ledger_store_inv c m seq net c' r : ledger_store c m seq net = (c', r) ->
  grown c c' /\ (r = Some tt -> counter c' m = seq).
Proof.
  unfold ledger_store. intros H.
  assert (forall call, send_commit c call net = (c', r) ->
    (forall c1, call = Some c1 -> grown c c1 /\ counter c1 m = seq) -> grown c c' /\ (r = Some tt -> counter c' m = seq)) as Hsend.
  { intros call Hs Hc. unfold send_commit in Hs. destruct net, call as [c1|]; cbn in Hs; injection Hs as <- <-;
      try (by split; [reflexivity|]); destruct (Hc c1 eq_refl); by split. }
  destruct (decide (m = MANAGER_FRESHNESS_KEY)) as [Em|Em].
  - apply (Hsend _ H). intros c1 H1. unfold commitManagerFreshness in H1.
    apply bind_Some in H1 as (v & Hv & [= <-]). apply bump_inv in Hv as [-> Hv].
    unfold grown, counter. cbn. split; [|by rewrite decide_True]. intros k. case_match; lia.
  - destruct (resolver m) as [cid|] eqn:Er; [|injection H as <- <-; by split; [reflexivity|]].
    apply (Hsend _ H). intros c1 H1. unfold commitFreshness in H1.
    apply bind_Some in H1 as (v & Hv & [= <-]). apply bump_inv in Hv as [-> Hv].
    unfold grown, counter. cbn. split.
    + intros k. case_match; [lia|]. destruct (resolver k) as [cid'|]; [|lia].
      destruct (decide (cid' = cid)) as [->|]; [rewrite lookup_insert_eq; cbn; lia|by rewrite lookup_insert_ne].
    + rewrite decide_False, Er by done. by rewrite lookup_insert_eq.
Qed.

(** ** The anchor *)
Lemma lag_ok seq c : lag_exceeds_bound seq c = false -> seq <= c + MAX_UNCONFIRMED_LAG.
Proof. unfold lag_exceeds_bound, MAX_UNCONFIRMED_LAG, sat. unfold_ints. lia. Qed.
Lemma lag_bad seq c : 0 <= seq - c -> MAX_UNCONFIRMED_LAG < seq - c -> lag_exceeds_bound seq c = true.
Proof. unfold lag_exceeds_bound, MAX_UNCONFIRMED_LAG, sat. unfold_ints. lia. Qed.

Definition cached (p : Proc) (m : string) : Z := default 0 (cache p !! m).
Definition sure (p : Proc) (m : string) : Z := default 0 (confirmed p !! m).

Lemma commit_inv p m id p' r : commit p m id = (p', r) ->
  confirmed p' = confirmed p /\ shutdown p' = shutdown p /\ manager_seq p' = manager_seq p /\
  cached p' m = Z.max (cached p m) id /\ (forall k, k <> m -> cached p' k = cached p k) /\
  ((id <= cached p m /\ r = Some tt /\ queue p' = queue p) \/
   (cached p m < id <= sure p m + MAX_UNCONFIRMED_LAG /\ r = Some tt /\ queue p' = queue p ++ [(m, id)]) \/
   (cached p m < id /\ lag_exceeds_bound id (sure p m) = true /\ r = None /\ queue p' = queue p)).
Proof.
  unfold commit, queued_store, cached, sure. intros H.
  assert (forall v k, k <> m -> default 0 (<[m := v]> (cache p) !! k) = default 0 (cache p !! k)) as Hne
    by (intros; by rewrite lookup_insert_ne).
  destruct (Z.leb_spec id (default 0 (cache p !! m))).
  - injection H as <- <-. cbn. rewrite lookup_insert_eq. cbn. split_and!; try done; [lia|auto|]. left. done.
  - cbn in H. destruct (lag_exceeds_bound id (default 0 (confirmed p !! m))) eqn:E; injection H as <- <-; cbn;
      rewrite lookup_insert_eq; cbn; (split_and!; [done..|lia|auto|]); right; [right|left]; split_and!; try done.
    by apply lag_ok in E.
Qed.

Lemma write_monitor_inv n p cid id disk p' st : write_monitor n p cid id disk = (p', st) ->
  (p' = p <| shutdown := true |> /\ st = InProgress) \/
  (cid = None /\ p' = p /\ st = Completed) \/
  exists oc p1 r, cid = Some oc /\ commit p (hex32 oc) id = (p1, r) /\
    match r with
    | Some _ => p' = p1 /\ st = Completed
    | None => p' = p1 <| shutdown := true |> /\ st = InProgress
    end.
Proof.
  induction n as [|n IH]; cbn [write_monitor]; [intros [= <- <-]; by left|].
  destruct (disk n); [|exact IH]. destruct cid as [oc|]; [|intros [= <- <-]; right; by left].
  destruct (commit p (hex32 oc) id) as [p1 r] eqn:E. intros H. right; right.
  exists oc, p1, r. split_and!; [done..|]. destruct r; by injection H as <- <-.
Qed.

(** ** The committer *)
Lemma raise_lookup m item k : default 0 (raise m item !! k) =
  if decide (k = item.1) then Z.max (default 0 (m !! k)) item.2 else default 0 (m !! k).
Proof.
  unfold raise. destruct (decide (k = item.1)) as [->|Hn].
  - rewrite lookup_insert_eq. cbn. case_match; lia.
  - by rewrite lookup_insert_ne.
Qed.

Lemma raise_fresh m item k : k <> item.1 -> raise m item !! k = m !! k.
Proof. intros. unfold raise. by rewrite lookup_insert_ne. Qed.

Lemma commit_one_inv c p item net c' p' : commit_one c p item net = (c', p') ->
  grown c c' /\ cache p' = cache p /\ shutdown p' = shutdown p /\ queue p' = queue p /\ manager_seq p' = manager_seq p /\
  (forall k, k <> item.1 -> confirmed p' !! k = confirmed p !! k) /\
  ((forall m, sure p m <= counter c m) -> forall m, sure p' m <= counter c' m).
Proof.
  unfold commit_one. destruct (ledger_store c item.1 item.2 net) as [c1 r] eqn:E.
  apply ledger_store_inv in E as [Hg Hv]. destruct r as [[]|]; intros [= <- <-]; split_and!; try done.
  - intros k Hk. cbn. by apply raise_fresh.
  - intros Hs m. unfold sure in *. cbn. rewrite raise_lookup. specialize (Hs m). specialize (Hg m).
    specialize (Hv eq_refl). destruct (decide (m = item.1)) as [->|]; lia.
  - intros Hs m. specialize (Hs m). specialize (Hg m). lia.
Qed.

Lemma commit_batch_inv c p items nets c' p' : commit_batch c p items nets = (c', p') ->
  grown c c' /\ cache p' = cache p /\ shutdown p' = shutdown p /\ queue p' = queue p /\ manager_seq p' = manager_seq p /\
  (forall k, ~ In k (map fst items) -> confirmed p' !! k = confirmed p !! k) /\
  ((forall m, sure p m <= counter c m) -> forall m, sure p' m <= counter c' m).
Proof.
  revert c p. induction items as [|item items IH]; intros c p; cbn [commit_batch].
  { intros [= <- <-]. split_and!; try done. }
  destruct (commit_one c p item _) as [c1 p1] eqn:E. apply commit_one_inv in E as (G1 & C1 & S1 & Q1 & M1 & F1 & V1).
  intros H. apply IH in H as (G2 & C2 & S2 & Q2 & M2 & F2 & V2).
  split_and!; try congruence; [by etrans| |auto]. intros k Hk. cbn in Hk.
  rewrite F2, F1; [done|intros ->; by apply Hk; left|intros Hi; apply Hk; by right].
Qed.

Definition in_queue (k : string) (l : list (string * Z)) : Prop := In k (map fst l).

Lemma coalesce_keys k first rest v : coalesce first rest !! k = Some v -> in_queue k (first :: rest).
Proof.
  unfold coalesce, in_queue.
  enough (forall l m, foldl raise m l !! k = Some v -> is_Some (m !! k) \/ In k (map fst l)) as H.
  { intros Hl. apply H in Hl as [[x Hx]|Hl]; [|by right].
    destruct (decide (k = first.1)) as [->|Hn]; [by left|]. by rewrite lookup_insert_ne in Hx. }
  induction l as [|item l IH]; intros m Hl; cbn in *; [left; by eexists|].
  apply IH in Hl as [Hm|Hl]; [|by right; right].
  destruct (decide (k = item.1)) as [->|Hn]; [by right; left|]. left. by rewrite raise_fresh in Hm.
Qed.

(** The batch writes, per monitor, the highest number queued for it. *)
Lemma coalesce_max first rest k : 0 <= first.2 ->
  default 0 (coalesce first rest !! k) =
  foldr (fun item acc => if decide (item.1 = k) then Z.max item.2 acc else acc) 0 (first :: rest).
Proof.
  intros Hf. unfold coalesce. set (g := fun item acc => if decide _ then _ else _).
  assert (forall l m, default 0 (foldl raise m l !! k) = Z.max (default 0 (m !! k)) (foldr g 0 l) \/
    default 0 (m !! k) < 0) as H.
  { induction l as [|item l IH]; intros m; cbn [foldl foldr].
    { destruct (Z.lt_ge_cases (default 0 (m !! k)) 0); [by right|left; lia]. }
    destruct (Z.lt_ge_cases (default 0 (m !! k)) 0) as [|Hm]; [by right|].
    destruct (IH (raise m item)) as [->|Hn]; rewrite raise_lookup in *; unfold g at 2;
      destruct (decide (k = item.1)) as [E|E]; try lia; [left; rewrite (decide_True (P := item.1 = k)) by done; lia|].
    left. by rewrite (decide_False (P := item.1 = k)) by done. }
  destruct (H rest (<[first.1 := first.2]> ∅)) as [->|Hn]; cbn [foldr]; unfold g at 2;
    destruct (decide (first.1 = k)) as [<-|E]; rewrite ?lookup_insert_eq, ?lookup_insert_ne, ?lookup_empty in * by done;
    cbn in *; try lia.
  enough (0 <= foldr g 0 rest) by lia. clear. unfold g. induction rest as [|x l IH]; cbn; [lia|]. case_match; lia.
Qed.

(** ** Boot *)
Section Boot.
Variable read : string -> option (option Z).

(** Everything cached was read. *)
Definition from_reads (p : Proc) : Prop := forall m u, cache p !! m = Some u -> read m = Some (Some u).

Lemma verify_inv p m v p' f : from_reads p -> verify p read m v = (p', Some f) ->
  p' = p <| cache := cache p' |> /\ from_reads p' /\
  exists h, read m = Some h /\ (f = Fresh -> match h with Some a => a <= v | None => True end).
Proof.
  unfold verify, highest. intros Hp. destruct (cache p !! m) as [u|] eqn:E.
  - cbn. intros [= <- <-]. split_and!; [by destruct p|done|]. exists (Some u). split; [by apply Hp|].
    case_match; [done|lia].
  - destruct (read m) as [[u|]|] eqn:Er; cbn; intros [= <- <-].
    + split_and!; [done| |]; [|exists (Some u); split; [done|]; case_match; [done|lia]].
      intros k w. cbn. destruct (decide (k = m)) as [->|Hn].
      * rewrite lookup_insert_eq. by intros [= <-].
      * rewrite lookup_insert_ne by done. apply Hp.
    + split_and!; [by destruct p|done|]. by exists None.
Qed.

Lemma boot_monitors_inv mons : forall p p', from_reads p -> boot_monitors p read mons = Some p' ->
  p' = p <| cache := cache p' |> /\ from_reads p' /\
  forall oc v, In (Some oc, v) mons -> exists h, read (hex32 oc) = Some h /\
    match h with Some a => a <= v | None => True end.
Proof.
  induction mons as [|[[oc|] v] mons IH]; intros p p' Hp; cbn [boot_monitors].
  - intros [= <-]. split_and!; [by destruct p|done|done].
  - destruct (verify p read (hex32 oc) v) as [p1 [[|]|]] eqn:E; try done.
    destruct (verify_inv _ _ _ _ _ Hp E) as (E1 & Hp1 & h & Hh & Hf). intros H.
    destruct (IH _ _ Hp1 H) as (E2 & Hp' & Hm). split_and!; [rewrite E2, E1; done|done|].
    intros oc' v' [[= <- <-]|Hin]; [|by apply Hm]. exists h. split; [done|by apply Hf].
  - intros H. destruct (IH _ _ Hp H) as (E2 & Hp' & Hm). split_and!; [done|done|].
    intros oc' v' [?|Hin]; [done|by apply Hm].
Qed.

Lemma boot_inv mons mgr p : boot read mons mgr = Some p ->
  confirmed p = ∅ /\ queue p = [] /\ shutdown p = false /\ manager_seq p = default 0 mgr /\ from_reads p /\
  (forall oc v, In (Some oc, v) mons -> exists h, read (hex32 oc) = Some h /\
    match h with Some a => a <= v | None => True end) /\
  (forall v, mgr = Some v -> exists h, read MANAGER_FRESHNESS_KEY = Some h /\
    match h with Some a => a <= v | None => True end).
Proof.
  unfold boot. intros H. apply bind_Some in H as (p1 & H1 & H).
  apply boot_monitors_inv in H1 as (E1 & Hp1 & Hm); [|by intros ? ? ?].
  destruct mgr as [seq|].
  - destruct (verify p1 read MANAGER_FRESHNESS_KEY seq) as [p2 [[|]|]] eqn:E; try done. injection H as <-.
    destruct (verify_inv _ _ _ _ _ Hp1 E) as (E2 & Hp2 & h & Hh & Hf). rewrite E2, E1 in *. cbn.
    split_and!; try done. intros v [= <-]. exists h. split; [done|by apply Hf].
  - injection H as <-. rewrite E1 in *. split_and!; done.
Qed.
End Boot.

(** ** The invariant

    What may be held or acknowledged of a key: 128 above its counter, or a number
    that was answered with a failure before. *)
Definition allowed (w : World) (m : string) : Z :=
  Z.max (counter (counters w) m + MAX_UNCONFIRMED_LAG) (refused w m).

Record Inv (w : World) : Prop := {
  inv_confirmed : forall m, sure (proc w) m <= counter (counters w) m;
  inv_cached : forall m, cached (proc w) m <= allowed w m;
  inv_acked : forall m, seen w m <= allowed w m;
  inv_agreed : grown (agreed w) (counters w);
  inv_nonneg : forall m, 0 <= counter (counters w) m
}.

Lemma inv_init : Inv world0.
Proof.
  assert (forall m, counter (mkCounters ∅ 0) m = 0) as H0.
  { intros m. unfold counter. repeat case_match; done. }
  split; [intros m|intros m|intros m|intros m; reflexivity|intros m]; unfold allowed; cbn [counters world0];
    rewrite H0; [change (sure _ m) with 0|change (cached _ m) with 0|change (seen _ m) with 0|];
    unfold MAX_UNCONFIRMED_LAG; lia.
Qed.

Lemma highest_of_lookup l m id k : default 0 (highest_of l m id !! k) =
  if decide (k = m) then Z.max (default 0 (l !! m)) id else default 0 (l !! k).
Proof.
  unfold highest_of. destruct (decide (k = m)) as [->|Hn].
  - by rewrite lookup_insert_eq.
  - by rewrite lookup_insert_ne.
Qed.

(** Offering a number to the anchor: an accepted one is allowed, and a refused one
    is held only by having been refused. *)
Lemma commit_bounded w p' m id r : Inv w -> commit (proc w) m id = (p', r) ->
  (forall k, sure p' k <= counter (counters w) k) /\
  (forall k, k <> m -> cached p' k <= allowed w k) /\
  (r = Some tt -> cached p' m <= allowed w m /\ id <= allowed w m) /\
  cached p' m <= Z.max (allowed w m) id.
Proof.
  intros [Hs Hc _ _ _] H. apply commit_inv in H as (E1 & E2 & E3 & E4 & E5 & Hr).
  pose proof (Hc m) as Hm. split_and!.
  - intros k. specialize (Hs k). unfold sure in *. by rewrite E1.
  - intros k Hk. rewrite E5 by done. apply Hc.
  - intros Hok. specialize (Hs m). rewrite E4. unfold allowed in *.
    destruct Hr as [(? & _)|[(? & _)|(_ & _ & ? & _)]]; [lia|lia|congruence].
  - rewrite E4. lia.
Qed.

(** The steps of a writer: the number was accepted and is acknowledged, or it was
    refused and counts as such. *)
Lemma inv_accepted w p m id : Inv w -> (forall k, sure p k <= counter (counters w) k) ->
  (forall k, k <> m -> cached p k <= allowed w k) -> cached p m <= allowed w m -> id <= allowed w m ->
  Inv (mkWorld p (counters w) (agreed w) (acknowledge w m id) (failed w)).
Proof.
  intros [_ _ Ha Hg H0] Hs Hk Hm Hid. split; try done; intros k; cbn [proc].
  - unfold allowed, refused in *. cbn. destruct (decide (k = m)) as [->|]; auto.
  - unfold seen, allowed, refused in *. cbn. unfold acknowledge. rewrite highest_of_lookup.
    destruct (decide (k = m)) as [->|]; [|apply Ha]. specialize (Ha m). unfold seen in Ha. lia.
Qed.

Lemma inv_refused w p m id : Inv w -> (forall k, sure p k <= counter (counters w) k) ->
  (forall k, k <> m -> cached p k <= allowed w k) -> cached p m <= Z.max (allowed w m) id ->
  Inv (mkWorld p (counters w) (agreed w) (acked w) (refuse w m id)).
Proof.
  intros [_ _ Ha Hg H0] Hs Hk Hm.
  assert (forall k, allowed (mkWorld p (counters w) (agreed w) (acked w) (refuse w m id)) k =
    if decide (k = m) then Z.max (allowed w m) id else allowed w k) as Hal.
  { intros k. unfold allowed, refused. cbn. unfold refuse. rewrite highest_of_lookup.
    destruct (decide (k = m)) as [->|]; lia. }
  split; try done; intros k; rewrite Hal; cbn [proc].
  - destruct (decide (k = m)) as [->|]; auto.
  - specialize (Ha k). unfold seen in *. cbn. destruct (decide (k = m)) as [->|]; [lia|done].
Qed.

Lemma inv_act w a w' : Inv w -> act w a = Some w' -> Inv w'.
Proof.
  intros Hi. pose proof Hi as [Hs Hc Ha Hg H0]. destruct a as [cid id disk|ok|k items nets| |reads mons mgr]; cbn [act].
  - destruct (write_monitor _ _ _ _ _) as [p' st] eqn:E. apply write_monitor_inv in E as [[-> ->]|[(-> & -> & ->)|H]].
    + intros [= <-]. destruct cid as [oc|]; [|by split]. apply inv_refused; [done|done| |].
      * intros k _. apply Hc.
      * specialize (Hc (hex32 oc)). change (cached (proc w) (hex32 oc) <= Z.max (allowed w (hex32 oc)) id). lia.
    + intros [= <-]. by split.
    + destruct H as (oc & p1 & r & -> & Hcm & Hr). pose proof (commit_bounded _ _ _ _ _ Hi Hcm) as (B1 & B2 & B3 & B4).
      destruct r as [[]|]; destruct Hr as [-> ->]; intros [= <-].
      * apply inv_accepted; try done; by apply B3.
      * by apply inv_refused.
  - destruct (persist_manager (proc w) ok) as [p' r] eqn:E. unfold persist_manager in E.
    set (seq := cast u64 (manager_seq (proc w) + 1)) in *.
    set (w1 := mkWorld ((proc w) <| manager_seq := seq |>) (counters w) (agreed w) (acked w) (failed w)).
    assert (Inv w1) as Hi1 by (by split).
    destruct ok; cbn [negb] in E.
    2: { injection E as <- <-. intros [= <-]. apply (inv_refused w1); [done|done| |].
         - intros k _. apply Hc.
         - specialize (Hc MANAGER_FRESHNESS_KEY). change (cached (proc w) MANAGER_FRESHNESS_KEY <=
             Z.max (allowed w MANAGER_FRESHNESS_KEY) seq). lia. }
    destruct (commit _ _ _) as [p1 r1] eqn:Ec.
    pose proof (commit_inv _ _ _ _ _ Ec) as (_ & _ & Em & _).
    pose proof (commit_bounded w1 _ _ _ _ Hi1 Ec) as (B1 & B2 & B3 & B4).
    destruct r1 as [[]|]; injection E as <- <-; intros [= <-].
    + apply (inv_accepted w1); try done; by apply B3.
    + apply (inv_refused w1); try done. cbn. rewrite Em. exact B4.
  - destruct (take k _) as [|first rest]; [done|]. destruct (decide _); [|done].
    destruct (commit_batch _ _ _ _) as [c p'] eqn:E. apply commit_batch_inv in E as (G & C & S & Q & M & F & V).
    intros [= <-]. split; cbn [proc counters acked].
    + apply V. exact Hs.
    + intros m. specialize (Hc m). specialize (G m). unfold cached, allowed, refused in *. rewrite C. cbn. lia.
    + intros m. specialize (Ha m). specialize (G m). unfold seen, allowed, refused in *. cbn. lia.
    + by etrans.
    + intros m. specialize (H0 m). specialize (G m). lia.
  - intros [= <-]. split; try done.
  - intros H. apply bind_Some in H as (p & Hb & [= <-]). apply boot_inv in Hb as (E1 & E2 & E3 & _ & Hr & _).
    split; try done; cbn [proc counters].
    + intros m. unfold sure. rewrite E1, lookup_empty. apply H0.
    + intros m. unfold cached, allowed. specialize (H0 m).
      destruct (cache p !! m) as [u|] eqn:Eu; cbn; [|unfold MAX_UNCONFIRMED_LAG; lia].
      apply Hr in Eu. destruct (reads m); [|done]. apply ledger_highest_inv in Eu.
      destruct (_ =? 0); [done|]. injection Eu as ->. specialize (Hg m). unfold MAX_UNCONFIRMED_LAG. lia.
Qed.

Lemma inv_acts l w w' : Inv w -> acts w l = Some w' -> Inv w'.
Proof.
  revert w. induction l as [|a l IH]; intros w Hi; cbn [acts]; [by intros [= <-]|].
  intros H. apply bind_Some in H as (w1 & H1 & H). eapply IH; [|exact H]. by eapply inv_act.
Qed.

(** ** Theorems *)

(** C21: How far a host can roll a channel back.  In every run of writes, commits,
    lost transactions and restarts, a boot that goes through was served, for every
    monitor with a channel id and for the manager, a state no older than the highest
    write the node was ever told is durable, less 128 updates, less the commits the
    agreed read of the counter does not show yet.  The one exception is a highest
    write not above a number that had been answered with a failure: the anchor
    acknowledges such a number when it is offered again ([refused_then_acknowledged]),
    by a process that has raised its shutdown flag. *)
Theorem rollback_bounded l w reads mons mgr w' :
  acts world0 l = Some w -> act w (Restart reads mons mgr) = Some w' ->
  let bounded m v :=
    seen w m <= v + MAX_UNCONFIRMED_LAG + (counter (counters w) m - counter (agreed w) m) \/
    seen w m <= refused w m in
  (forall oc v, In (Some oc, v) mons -> 0 <= v -> bounded (hex32 oc) v) /\
  (forall v, mgr = Some v -> 0 <= v -> bounded MANAGER_FRESHNESS_KEY v).
Proof.
  intros Hl Hb bounded. apply inv_acts in Hl; [|apply inv_init]. cbn [act] in Hb.
  apply bind_Some in Hb as (p & Hb & _). apply boot_inv in Hb as (_ & _ & _ & _ & _ & Hm & Hg).
  assert (forall m v h, 0 <= v -> (if reads m then ledger_highest (agreed w) m else None) = Some h ->
    match h with Some a => a <= v | None => True end -> bounded m v) as Hkey.
  { intros m v h Hv Hh Hle. destruct (reads m); [|done]. apply ledger_highest_inv in Hh.
    pose proof (inv_acked _ Hl m) as Ha. unfold allowed in Ha. unfold bounded.
    destruct (Z.eqb_spec (counter (agreed w) m) 0); subst h; lia. }
  split.
  - intros oc v Hin Hv. destruct (Hm oc v Hin) as (h & Hh & Hle). by eapply Hkey.
  - intros v Hv H0. destruct (Hg v Hv) as (h & Hh & Hle). by eapply Hkey.
Qed.

(** What a write with a working disk answers: it is acknowledged exactly when its
    number is not above what the anchor holds, or within the bound of what this
    process has seen confirmed. *)
Lemma write_completed_iff p oc id disk : disk 2%nat = true ->
  (write_monitor 3 p (Some oc) id disk).2 = Completed <->
  id <= cached p (hex32 oc) \/ lag_exceeds_bound id (sure p (hex32 oc)) = false.
Proof.
  intros Hd. cbn [write_monitor]. rewrite Hd. destruct (commit p (hex32 oc) id) as [p1 r] eqn:E.
  apply commit_inv in E as (_ & _ & _ & _ & _ & Hr).
  destruct Hr as [(H & -> & _)|[((H & H') & -> & _)|(H & Hl & -> & _)]]; cbn.
  - naive_solver.
  - split; [|done]. intros _. right. destruct (lag_exceeds_bound _ _) eqn:E; [|done].
    unfold lag_exceeds_bound, sat, MAX_UNCONFIRMED_LAG in *. unfold_ints. lia.
  - split; [done|]. intros [?|?]; [lia|congruence].
Qed.

(** A number that was refused is acknowledged when it is offered again: the anchor
    takes it before the ledger refuses it. *)
Lemma refused_then_acknowledged p oc id disk : disk 2%nat = true ->
  (write_monitor 3 p (Some oc) id disk).2 = InProgress ->
  (write_monitor 3 (write_monitor 3 p (Some oc) id disk).1 (Some oc) id disk).2 = Completed.
Proof.
  intros Hd Hr. apply write_completed_iff; [done|]. left.
  revert Hr. cbn [write_monitor]. rewrite Hd. destruct (commit p (hex32 oc) id) as [p1 r] eqn:E.
  apply commit_inv in E as (_ & _ & _ & Hm & _). destruct r; [done|]. intros _. unfold cached in *. cbn. lia.
Qed.

(** ** Restarts *)
Definition is_restart (a : Action) : bool := match a with Restart _ _ _ => true | _ => false end.

Record Unconfirmed (K S0 : Z) (m : string) (w : World) : Prop := {
  un_confirmed : confirmed (proc w) !! m = None;
  un_queue : ~ in_queue m (queue (proc w));
  un_cached : cached (proc w) m <= Z.max K (refused w m);
  un_acked : seen w m <= Z.max S0 (Z.max K (refused w m))
}.

Lemma hex32_not_manager oc : hex32 oc <> MANAGER_FRESHNESS_KEY.
Proof.
  intros H. apply (f_equal list_ascii_of_string) in H. unfold hex32 in H.
  rewrite list_ascii_of_string_of_list_ascii in H. apply (f_equal length) in H.
  assert (exists n, length (concat (map (fun x => [hex_char (x / 16); hex_char (x mod 16)]) oc)) = (2 * n)%nat) as [n Hn].
  { exists (length oc). clear H. induction oc as [|b oc IH]; [done|]. cbn [map concat app length]. rewrite IH. lia. }
  rewrite Hn in H. vm_compute (length _) in H. lia.
Qed.

Lemma in_queue_app k l l' : in_queue k (l ++ l') <-> in_queue k l \/ in_queue k l'.
Proof. unfold in_queue. rewrite map_app. apply in_app_iff. Qed.

Lemma commit_unconfirmed p p1 m k id r : commit p k id = (p1, r) -> confirmed p !! m = None ->
  ~ in_queue m (queue p) -> (k = m -> MAX_UNCONFIRMED_LAG < id) ->
  confirmed p1 !! m = None /\ ~ in_queue m (queue p1) /\ (k <> m -> cached p1 m = cached p m) /\
  (k = m -> cached p1 m = Z.max (cached p m) id) /\ (k = m -> r = Some tt -> id <= cached p m).
Proof.
  intros H Hc Hq Hk. apply commit_inv in H as (E1 & E2 & E3 & E4 & E5 & Hr). split_and!.
  - by rewrite E1.
  - destruct Hr as [(_ & _ & ->)|[((_ & Hle) & _ & ->)|(_ & _ & _ & ->)]]; [done| |done].
    rewrite in_queue_app. intros [?|[Hm|[]]]; [done|]. cbn in Hm. subst k. specialize (Hk eq_refl).
    unfold sure in Hle. rewrite Hc in Hle. cbn in Hle. lia.
  - intros Hn. apply E5. congruence.
  - by intros ->.
  - intros -> ->. specialize (Hk eq_refl). destruct Hr as [(Hle & _)|[((_ & Hle) & _)|(_ & _ & ? & _)]]; [done|exfalso|done].
    unfold sure in Hle. rewrite Hc in Hle. cbn in Hle. lia.
Qed.

(** Whatever a write of another key, or a failed write of this one, records. *)
Lemma unconfirmed_failed K S0 m w p k id : Unconfirmed K S0 m w -> confirmed p !! m = None ->
  ~ in_queue m (queue p) -> cached p m <= Z.max (cached (proc w) m) (if decide (k = m) then id else 0) ->
  0 <= K -> Unconfirmed K S0 m (mkWorld p (counters w) (agreed w) (acked w) (refuse w k id)).
Proof.
  intros [Hc Hq Hk Ha] H1 H2 H3 H0. unfold seen, refused in *.
  split; try done; unfold seen, refused in *; cbn in *; unfold refuse; rewrite highest_of_lookup;
    destruct (decide (k = m)) as [->|Hn]; try rewrite (decide_True (P := m = m)) by done;
    try rewrite (decide_False (P := m = k)) by congruence; lia.
Qed.

Lemma unconfirmed_acked K S0 m w p k id : Unconfirmed K S0 m w -> confirmed p !! m = None ->
  ~ in_queue m (queue p) -> cached p m <= cached (proc w) m -> (k = m -> id <= cached (proc w) m) ->
  Unconfirmed K S0 m (mkWorld p (counters w) (agreed w) (acknowledge w k id) (failed w)).
Proof.
  intros [Hc Hq Hk Ha] H1 H2 H3 H4. unfold seen, refused in *.
  split; try done; unfold seen, refused in *; cbn in *; [lia|]. unfold acknowledge. rewrite highest_of_lookup.
  destruct (decide (m = k)) as [->|]; [|lia]. specialize (H4 eq_refl). lia.
Qed.

Lemma unconfirmed_act K S0 oc w a w' : let m := hex32 oc in 0 <= K -> Unconfirmed K S0 m w -> is_restart a = false ->
  (forall oc' id disk, a = WriteMonitor (Some oc') id disk -> hex32 oc' = m -> MAX_UNCONFIRMED_LAG < id) ->
  act w a = Some w' -> Unconfirmed K S0 m w'.
Proof.
  intros m HK Hu Hr Hid. pose proof Hu as [Hc Hq Hk Ha].
  destruct a as [cid id disk|ok|k items nets| |]; try discriminate Hr; cbn [act].
  - destruct (write_monitor _ _ _ _ _) as [p' st] eqn:E. apply write_monitor_inv in E as [[-> ->]|[(-> & -> & ->)|H]].
    + intros [= <-]. destruct cid as [oc'|]; [|by split]. apply unconfirmed_failed; try done.
      change (cached (proc w) m <= Z.max (cached (proc w) m) (if decide (hex32 oc' = m) then id else 0)). lia.
    + intros [= <-]. by split.
    + destruct H as (oc' & p1 & r & -> & Hcm & H).
      destruct (commit_unconfirmed _ _ m _ _ _ Hcm Hc Hq) as (U1 & U2 & U3 & U4 & U5); [by eapply Hid|].
      destruct r as [[]|]; destruct H as [-> ->]; intros [= <-].
      * apply unconfirmed_acked; try done; [|intros E; by apply U5].
        destruct (decide (hex32 oc' = m)) as [E|E]; [rewrite U4 by done; specialize (U5 E eq_refl); lia|by rewrite U3].
      * apply unconfirmed_failed; try done. cbn. destruct (decide (hex32 oc' = m)) as [E|E].
        -- change (cached p1 m <= Z.max (cached (proc w) m) id). rewrite U4 by done. lia.
        -- change (cached p1 m <= Z.max (cached (proc w) m) 0). rewrite U3 by done. lia.
  - destruct (persist_manager (proc w) ok) as [p' r] eqn:E. unfold persist_manager in E.
    assert (MANAGER_FRESHNESS_KEY <> m) as Hne by (intros E1; by destruct (hex32_not_manager oc)).
    destruct ok; cbn [negb] in E.
    2: { injection E as <- <-. intros [= <-]. apply unconfirmed_failed; try done.
         rewrite decide_False by done. change (cached (proc w) m <= Z.max (cached (proc w) m) 0). lia. }
    destruct (commit _ _ _) as [p1 r1] eqn:Ec.
    destruct (commit_unconfirmed _ _ m _ _ _ Ec) as (U1 & U2 & U3 & _); [done|done|done|].
    specialize (U3 Hne). change (cached p1 m = cached (proc w) m) in U3.
    destruct r1 as [[]|]; injection E as <- <-; intros [= <-].
    + apply unconfirmed_acked; try done. lia.
    + apply unconfirmed_failed; try done. rewrite decide_False by done.
      change (cached p1 m <= Z.max (cached (proc w) m) 0). lia.
  - destruct (take k (queue (proc w))) as [|first rest] eqn:Et; [done|]. destruct (decide _) as [Hp|]; [|done].
    destruct (commit_batch _ _ _ _) as [c p'] eqn:E. apply commit_batch_inv in E as (_ & C & S & Q & _ & F & _).
    intros [= <-]. split; cbn [proc acked].
    + rewrite F; [done|]. intros Hin. apply Hq. rewrite <- (take_drop k (queue (proc w))), Et.
      apply in_queue_app. left. apply in_map_iff in Hin as ([k' v] & <- & Hin). apply list_elem_of_In in Hin.
      rewrite Hp in Hin. apply elem_of_map_to_list in Hin. by eapply coalesce_keys.
    + rewrite Q. cbn. intros Hin. apply Hq. rewrite <- (take_drop k (queue (proc w))). apply in_queue_app. by right.
    + unfold cached. rewrite C. exact Hk.
    + exact Ha.
  - intros [= <-]. by split.
Qed.

Lemma unconfirmed_acts K S0 oc l w w' : let m := hex32 oc in 0 <= K -> Unconfirmed K S0 m w -> forallb (fun a => negb (is_restart a)) l = true ->
  (forall oc' id disk, In (WriteMonitor (Some oc') id disk) l -> hex32 oc' = m -> MAX_UNCONFIRMED_LAG < id) ->
  acts w l = Some w' -> Unconfirmed K S0 m w'.
Proof.
  intros m HK. revert w. induction l as [|a l IH]; intros w Hu Hr Hid; cbn [acts]; [by intros [= <-]|].
  cbn in Hr. apply andb_prop in Hr as [Hr1 Hr2]. apply negb_true_iff in Hr1.
  intros H. apply bind_Some in H as (w1 & H1 & H). eapply (IH w1); [|done| |done].
  - eapply unconfirmed_act; [done|done|done| |done]. intros oc' id disk ->. apply (Hid oc' id disk). by left.
  - intros oc' id disk Hin. apply (Hid oc' id disk). by right.
Qed.

(** A channel past its 128th update does not survive a restart.  What a process has
    seen confirmed is kept in memory only and starts empty, while the numbers go on
    from where they were: until the process ends, no update of the channel beyond what
    the chain held at boot is acknowledged that was not answered with a failure first,
    however well the network works, and the first one asked for shuts the node down. *)
Theorem restart_wedges_channel w reads mons mgr w1 l w2 oc :
  act w (Restart reads mons mgr) = Some w1 -> acts w1 l = Some w2 -> 0 <= cached (proc w1) (hex32 oc) ->
  forallb (fun a => negb (is_restart a)) l = true ->
  (forall oc' id disk, In (WriteMonitor (Some oc') id disk) l -> hex32 oc' = hex32 oc -> MAX_UNCONFIRMED_LAG < id) ->
  seen w2 (hex32 oc) <= Z.max (seen w (hex32 oc)) (Z.max (cached (proc w1) (hex32 oc)) (refused w2 (hex32 oc))) /\
  forall id disk, MAX_UNCONFIRMED_LAG < id -> cached (proc w2) (hex32 oc) < id ->
    (write_monitor 3 (proc w2) (Some oc) id disk).2 = InProgress /\
    shutdown (write_monitor 3 (proc w2) (Some oc) id disk).1 = true.
Proof.
  intros Hb Hl HK Hr Hid. cbn [act] in Hb. apply bind_Some in Hb as (p & Hb & [= <-]).
  apply boot_inv in Hb as (E1 & E2 & _). cbn [proc] in HK.
  apply (unconfirmed_acts (cached p (hex32 oc)) (seen w (hex32 oc)) oc) in Hl as [Hc Hq Hk Ha]; [|done|split|done|done].
  - split; [exact Ha|]. intros id disk H1 H2.
    destruct (write_monitor 3 _ _ id disk) as [p' st] eqn:E.
    apply write_monitor_inv in E as [[-> ->]|[(? & _)|(oc' & p1 & r & [= <-] & Hcm & H)]]; [done|done|].
    destruct (commit_unconfirmed _ _ (hex32 oc) _ _ _ Hcm Hc Hq) as (_ & _ & _ & _ & U); [done|].
    destruct r as [[]|]; destruct H as [-> ->]; [|done]. specialize (U eq_refl eq_refl). lia.
  - cbn. by rewrite E1, lookup_empty.
  - cbn. rewrite E2. by intros [].
  - unfold cached. cbn. lia.
  - unfold seen. cbn. lia.
Qed.

(** The same for the manager, which every node has. *)
Lemma restart_wedges_manager p : confirmed p !! MANAGER_FRESHNESS_KEY = None ->
  MAX_UNCONFIRMED_LAG <= manager_seq p -> in_range u64 (manager_seq p + 1) ->
  cached p MANAGER_FRESHNESS_KEY <= manager_seq p ->
  (persist_manager p true).2 = None /\ shutdown (persist_manager p true).1 = true.
Proof.
  intros Hc Hs Hr Hk. unfold persist_manager. rewrite cast_id by done. cbn [negb].
  destruct (commit _ _ _) as [p1 r] eqn:E. apply commit_inv in E as (_ & _ & _ & _ & _ & H).
  unfold cached, sure in *. cbn in H. rewrite Hc in H. cbn in H.
  destruct H as [(? & _)|[((_ & ?) & _)|(_ & _ & -> & _)]]; [lia|lia|done].
Qed.
End Freshness.

(** ** Witnesses *)
Definition w_cid : list Z := replicate 32 171.
Definition w_key : string := hex32 w_cid.
Definition w_resolver (m : string) : option (list Z) := if decide (m = w_key) then Some w_cid else None.
Definition w_good : nat -> bool := fun _ => true.
Definition w_mined : nat -> Net := fun _ => Mined.

(** One update committed, a later one still queued when the host restarts. *)
Definition w_run : list Action :=
  [WriteMonitor (Some w_cid) 5 w_good; Commit 1 [(w_key, 5)] w_mined; Bury; WriteMonitor (Some w_cid) 7 w_good].
Definition w_before : World := default world0 (acts w_resolver world0 w_run).
Definition w_restart : Action := Restart (fun _ => true) [(Some w_cid, 6)] None.
Definition w_after : World := default world0 (act w_resolver w_before w_restart).

Lemma w_run_ok : acts w_resolver world0 w_run = Some w_before.
Proof. by vm_compute. Qed.
Lemma w_restart_ok : act w_resolver w_before w_restart = Some w_after.
Proof. by vm_compute. Qed.

Lemma rollback_bounded_witness :
  seen w_before w_key <= 6 + MAX_UNCONFIRMED_LAG
    + (counter w_resolver (counters w_before) w_key - counter w_resolver (agreed w_before) w_key) \/
  seen w_before w_key <= refused w_before w_key.
Proof.
  exact (proj1 (rollback_bounded w_resolver w_run w_before _ _ _ w_after w_run_ok w_restart_ok)
    w_cid 6 (or_introl eq_refl) ltac:(lia)).
Defined.

(** A channel at update 200, restarted with everything confirmed: its next update. *)
Definition w_settled : World :=
  mkWorld proc0 (mkCounters {[w_cid := 200]} 0) (mkCounters {[w_cid := 200]} 0) {[w_key := 200]} ∅.
Definition w_boot : Action := Restart (fun _ => true) [(Some w_cid, 200)] None.
Definition w_booted : World := default world0 (act w_resolver w_settled w_boot).
Lemma w_boot_ok : act w_resolver w_settled w_boot = Some w_booted.
Proof. by vm_compute. Qed.

Lemma restart_wedges_channel_witness :
  (write_monitor 3 (proc w_booted) (Some w_cid) 201 w_good).2 = InProgress /\
  shutdown (write_monitor 3 (proc w_booted) (Some w_cid) 201 w_good).1 = true.
Proof.
  refine (proj2 (restart_wedges_channel w_resolver w_settled _ _ _ w_booted [] w_booted w_cid w_boot_ok eq_refl _ eq_refl _) 201 w_good _ _).
  - by vm_compute.
  - by intros ? ? ? [].
  - by vm_compute.
  - by vm_compute.
Defined.
