(* ===== verification/EvmTx.v ===== *)
(** * EvmTx: what the hot key signs

    [quid-ln/quid-bridge/src/signer.rs] (the EIP-1559 envelope and its RLP),
    [evm_validating_signer.rs] (the policy checked before signing),
    [TxFields] of [client.rs] and [selector4] of [abi.rs].

    The RLP writers append to a buffer; here they return what they append.  Hashing
    and ECDSA are parameters.  The envelope is compared with an independent decoder. *)
From Stdlib Require Import String.
From stdpp Require Import strings.
From S2P Require Import Prelude Pool Chain Abi.
Open Scope list_scope.

(** ** RLP *)
Fixpoint minimal_le (fuel : nat) (n : Z) : list Z :=
  match fuel with
  | O => []
  | S fuel => if 0 <? n then Z.land n 255 :: minimal_le fuel (Z.shiftr n 8) else []
  end.
(** A [usize] has eight bytes. *)
Definition minimal_be (n : Z) : list Z := rev (minimal_le 8 n).

Definition rlp_len_header (base : Z) (len : nat) : list Z :=
  if (len <? 56)%nat then [base + Z.of_nat len]
  else let lb := minimal_be (Z.of_nat len) in base + 55 + Z.of_nat (length lb) :: lb.
Definition rlp_str (b : list Z) : list Z :=
  match b with
  | [x] => if x <? 128 then [x] else rlp_len_header 128 1 ++ b
  | _ => rlp_len_header 128 (length b) ++ b
  end.
Fixpoint strip_zeros (be : list Z) : list Z :=
  match be with
  | [] => []
  | b :: be => if b =? 0 then strip_zeros be else b :: be
  end.
Definition rlp_uint (be : list Z) : list Z := rlp_str (strip_zeros be).
Definition rlp_list (payload : list Z) : list Z := rlp_len_header 192 (length payload) ++ payload.

(** ** The transaction *)
Record TxFields := mkTxFields {
  chain_id_ : Z;                             (* u64 *)
  nonce : Z;                                 (* u64 *)
  max_priority_fee_per_gas : Z;              (* u128 *)
  max_fee_per_gas : Z;                       (* u128 *)
  gas_limit : Z;                             (* u64 *)
  tx_to : list Z;                            (* 20 bytes *)
  value : Z;                                 (* U256 *)
  tx_data : list Z
}.

Definition unsigned_fields (f : TxFields) : list Z :=
  rlp_uint (to_be_bytes 8 (chain_id_ f)) ++ rlp_uint (to_be_bytes 8 (nonce f)) ++
  rlp_uint (to_be_bytes 16 (max_priority_fee_per_gas f)) ++ rlp_uint (to_be_bytes 16 (max_fee_per_gas f)) ++
  rlp_uint (to_be_bytes 8 (gas_limit f)) ++ rlp_str (tx_to f) ++ rlp_uint (to_be_bytes 32 (value f)) ++
  rlp_str (tx_data f) ++ rlp_list [].

(** ** The policy *)
Definition SIG_REVERSE_SWAP_OUT : string := "reverseSwapOut(bytes32,bool)".
Definition HOP_BTCCHANNELS_SIGS : list string :=
  [SIG_OPEN_CHANNEL; SIG_SPLICE; SIG_RECORD_CLOSE; SIG_RECORD_FORCE_CLOSE_PERMISSIONLESS;
   SIG_DELIVER_SWAP_OUT_ONCHAIN; SIG_EMIT_DEAD_MAN_EXIT; SIG_REVERSE_SWAP_OUT; SIG_SETTLE_SWAP_IN_PROVEN;
   SIG_REGISTER_CHANNEL_CLAIM].
Definition HOP_SIGNED_FN_SIGS : list string :=
  ["markMigrationNonceUsed(bytes32)"; "commitFreshness(bytes32,uint64)"; "commitManagerFreshness(uint64)";
   "addBlockHeaderBatch(bytes[])"; "rebalance(address,uint256,uint256,uint256,bytes)"; "syncLev(address)";
   "protectFromQuid(address,uint256)"; "compound(address)"; "syncLev(address)"; "leverBorrow(uint256)";
   "deleverWithdraw(uint256)"; "repay(uint256)"; "rebalanceWbtc(address,uint256,uint256,uint256,bytes)"].
Definition ADDRESS_ZERO : list Z := replicate 20 0.

Record EvmTxPolicy := mkPolicy { allowed_to : list (list Z); allowed_selectors : list (list Z) }.
Inductive Refusal := NonZeroValue | UnknownContract | NoSelector | UnknownSelector.

Section Signing.
Variable keccak256 : list Z -> list Z.
(** The recoverable signature of a digest: parity and 64 compact bytes. *)
Variable sign_ecdsa : list Z -> Z * list Z.

Definition selector4 (sig : string) : list Z := take 4 (keccak256 (str_bytes sig)).

Definition signed_sigs : list string := HOP_SIGNED_FN_SIGS ++ HOP_BTCCHANNELS_SIGS ++ [SIG_PP_RELAY].
Definition policy_new (allowed : list (list Z)) : EvmTxPolicy :=
  mkPolicy (filter (fun a => a <> ADDRESS_ZERO) allowed) (map selector4 signed_sigs).

Definition policy_check (p : EvmTxPolicy) (f : TxFields) : unit + Refusal :=
  if negb (value f =? 0) then inr NonZeroValue
  else if negb (bool_decide (tx_to f ∈ allowed_to p)) then inr UnknownContract
  else if (length (tx_data f) <? 4)%nat then inr NoSelector
  else if negb (bool_decide (take 4 (tx_data f) ∈ allowed_selectors p)) then inr UnknownSelector
  else inl tt.

Definition signed_fields (f : TxFields) (y : Z) (compact : list Z) : list Z :=
  unsigned_fields f ++ rlp_uint [y] ++ rlp_uint (take 32 compact) ++ rlp_uint (take 32 (drop 32 compact)).

Definition sign_eip1559 (policy : option EvmTxPolicy) (f : TxFields) : list Z + Refusal :=
  match (match policy with Some p => policy_check p f | None => inl tt end) with
  | inr e => inr e
  | inl _ =>
      let sighash := keccak256 (2 :: rlp_list (unsigned_fields f)) in
      let '(y, compact) := sign_ecdsa sighash in
      inl (2 :: rlp_list (signed_fields f y compact))
  end.
End Signing.

(** * RLP, as a decoder

    One item at the front of the input: a string, or the payload of a list. *)
Inductive Item := IStr (b : list Z) | IList (payload : list Z).

Definition split_at (n : nat) (d : list Z) : option (list Z * list Z) :=
  if (n <=? length d)%nat then Some (take n d, drop n d) else None.
Definition long_len (ll : nat) (d : list Z) : option (nat * list Z) :=
  '(lb, d) ← split_at ll d; Some (Z.to_nat (from_be_bytes lb), d).
Definition dec_item (d : list Z) : option (Item * list Z) :=
  match d with
  | [] => None
  | x :: d =>
      if x <? 128 then Some (IStr [x], d)
      else if x <? 184 then '(b, d) ← split_at (Z.to_nat (x - 128)) d; Some (IStr b, d)
      else if x <? 192 then '(n, d) ← long_len (Z.to_nat (x - 183)) d; '(b, d) ← split_at n d; Some (IStr b, d)
      else if x <? 248 then '(b, d) ← split_at (Z.to_nat (x - 192)) d; Some (IList b, d)
      else '(n, d) ← long_len (Z.to_nat (x - 247)) d; '(b, d) ← split_at n d; Some (IList b, d)
  end.
Fixpoint dec_items (fuel : nat) (d : list Z) : option (list Item) :=
  match d, fuel with
  | [], _ => Some []
  | _, O => None
  | _, S fuel => '(i, d) ← dec_item d; l ← dec_items fuel d; Some (i :: l)
  end.

(** A type-2 envelope: the tag, and a list of items to its very end. *)
Definition dec_envelope (raw : list Z) : option (list Item) :=
  match raw with
  | tag :: d =>
      if negb (tag =? 2) then None else
      '(i, rest) ← dec_item d;
      match i, rest with
      | IList payload, [] => dec_items 12 payload
      | _, _ => None
      end
  | [] => None
  end.

Definition fields_of (chain n prio fee gas : list Z) (to : list Z) (v : list Z) (data : list Z) : TxFields :=
  mkTxFields (from_be_bytes chain) (from_be_bytes n) (from_be_bytes prio) (from_be_bytes fee) (from_be_bytes gas)
    to (from_be_bytes v) data.
Definition dec_signed (raw : list Z) : option (TxFields * Z * Z * Z) :=
  l ← dec_envelope raw;
  match l with
  | [IStr chain; IStr n; IStr prio; IStr fee; IStr gas; IStr to; IStr v; IStr data; IList []; IStr y; IStr r; IStr s] =>
      Some (fields_of chain n prio fee gas to v data, from_be_bytes y, from_be_bytes r, from_be_bytes s)
  | _ => None
  end.
Definition dec_unsigned (raw : list Z) : option TxFields :=
  l ← dec_envelope raw;
  match l with
  | [IStr chain; IStr n; IStr prio; IStr fee; IStr gas; IStr to; IStr v; IStr data; IList []] =>
      Some (fields_of chain n prio fee gas to v data)
  | _ => None
  end.

(** * Lemmas *)
Lemma minimal_le_value fuel n : 0 <= n < 256 ^ Z.of_nat fuel -> from_le_bytes (minimal_le fuel n) = n.
Proof.
  revert n. induction fuel as [|fuel IH]; intros n Hn; cbn [minimal_le from_le_bytes].
  { cbn in Hn. lia. }
  rewrite Nat2Z.inj_succ, Z.pow_succ_r in Hn by lia.
  destruct (Z.ltb_spec 0 n); [|cbn; lia]. cbn [from_le_bytes].
  change 255 with (Z.ones 8). rewrite Z.land_ones, Z.shiftr_div_pow2 by lia. change (2 ^ 8) with 256.
  rewrite IH; [pose proof (Z.div_mod n 256); lia|]. split; [apply Z.div_pos; lia|].
  apply Z.div_lt_upper_bound; lia.
Qed.

Lemma minimal_le_length fuel n : (length (minimal_le fuel n) <= fuel)%nat.
Proof. revert n. induction fuel as [|fuel IH]; intros n; cbn; [lia|]. case_match; cbn; [specialize (IH (Z.shiftr n 8)); lia|lia]. Qed.

Lemma minimal_be_value n : 0 <= n < 2 ^ 64 -> from_be_bytes (minimal_be n) = n.
Proof.
  intros Hn. unfold from_be_bytes, minimal_be. rewrite rev_involutive. apply minimal_le_value.
  change (256 ^ Z.of_nat 8) with (2 ^ 64). lia.
Qed.

Lemma minimal_be_length n : 0 < n -> (1 <= length (minimal_be n) <= 8)%nat.
Proof.
  intros Hn. unfold minimal_be. rewrite length_rev. split; [|apply minimal_le_length].
  cbn [minimal_le]. rewrite (proj2 (Z.ltb_lt _ _)) by done. cbn. lia.
Qed.

Lemma split_at_app b rest : split_at (length b) (b ++ rest) = Some (b, rest).
Proof.
  unfold split_at. rewrite (proj2 (Nat.leb_le _ _)) by (rewrite length_app; lia).
  by rewrite take_app_length, drop_app_length.
Qed.

Lemma long_len_app n rest : 0 <= n < 2 ^ 64 ->
  long_len (length (minimal_be n)) (minimal_be n ++ rest) = Some (Z.to_nat n, rest).
Proof. intros Hn. unfold long_len. rewrite split_at_app. cbn [mbind option_bind]. by rewrite minimal_be_value. Qed.

(** A length header of a string or a list announces its length. *)
Lemma dec_item_str b rest : fits (length b) -> dec_item (rlp_len_header 128 (length b) ++ b ++ rest) = Some (IStr b, rest).
Proof.
  intros Hf. unfold fits in Hf. unfold rlp_len_header. destruct (Nat.ltb_spec (length b) 56); cbn [app dec_item].
  - rewrite (proj2 (Z.ltb_ge _ _)), (proj2 (Z.ltb_lt _ _)) by lia.
    replace (Z.to_nat (128 + Z.of_nat (length b) - 128)) with (length b) by lia. by rewrite split_at_app.
  - pose proof (minimal_be_length (Z.of_nat (length b)) ltac:(lia)) as Hl.
    rewrite (proj2 (Z.ltb_ge _ 128)), (proj2 (Z.ltb_ge _ 184)), (proj2 (Z.ltb_lt _ 192)) by lia.
    replace (Z.to_nat (128 + 55 + Z.of_nat (length (minimal_be (Z.of_nat (length b)))) - 183))
      with (length (minimal_be (Z.of_nat (length b)))) by lia.
    rewrite long_len_app by lia. cbn [mbind option_bind]. rewrite Nat2Z.id. by rewrite split_at_app.
Qed.

Lemma dec_item_list b rest : fits (length b) -> dec_item (rlp_list b ++ rest) = Some (IList b, rest).
Proof.
  intros Hf. unfold fits in Hf. unfold rlp_list, rlp_len_header. rewrite <- app_assoc.
  destruct (Nat.ltb_spec (length b) 56); cbn [app dec_item].
  - rewrite (proj2 (Z.ltb_ge _ 128)), (proj2 (Z.ltb_ge _ 184)), (proj2 (Z.ltb_ge _ 192)), (proj2 (Z.ltb_lt _ 248)) by lia.
    replace (Z.to_nat (192 + Z.of_nat (length b) - 192)) with (length b) by lia. by rewrite split_at_app.
  - pose proof (minimal_be_length (Z.of_nat (length b)) ltac:(lia)) as Hl.
    rewrite (proj2 (Z.ltb_ge _ 128)), (proj2 (Z.ltb_ge _ 184)), (proj2 (Z.ltb_ge _ 192)), (proj2 (Z.ltb_ge _ 248)) by lia.
    replace (Z.to_nat (192 + 55 + Z.of_nat (length (minimal_be (Z.of_nat (length b)))) - 247))
      with (length (minimal_be (Z.of_nat (length b)))) by lia.
    rewrite long_len_app by lia. cbn [mbind option_bind]. rewrite Nat2Z.id. by rewrite split_at_app.
Qed.

Lemma dec_rlp_str b rest : fits (length b) -> dec_item (rlp_str b ++ rest) = Some (IStr b, rest).
Proof.
  intros Hf. unfold rlp_str. destruct b as [|x [|y b]]; [|destruct (Z.ltb_spec x 128)|];
    try (rewrite <- app_assoc; by apply (dec_item_str _ rest)).
  - cbn [app dec_item]. by rewrite (proj2 (Z.ltb_lt _ _)).
  - rewrite <- app_assoc. exact (dec_item_str [x] rest Hf).
Qed.

Lemma strip_zeros_length be : (length (strip_zeros be) <= length be)%nat.
Proof. induction be as [|b be IH]; cbn; [lia|]. case_match; cbn; lia. Qed.

Lemma strip_zeros_value be : from_be_bytes (strip_zeros be) = from_be_bytes be.
Proof.
  induction be as [|b be IH]; cbn [strip_zeros]; [done|]. destruct (Z.eqb_spec b 0) as [->|]; [|done].
  rewrite IH. exact (eq_sym (from_be_zeros be 1)).
Qed.

Lemma dec_rlp_uint be rest : (length be <= 64)%nat -> dec_item (rlp_uint be ++ rest) = Some (IStr (strip_zeros be), rest).
Proof. intros Hl. apply dec_rlp_str. pose proof (strip_zeros_length be). unfold fits. lia. Qed.

Lemma uint_value n x : 0 <= x < 256 ^ Z.of_nat n -> from_be_bytes (strip_zeros (to_be_bytes n x)) = x.
Proof. intros. rewrite strip_zeros_value. by apply be_decode_encode. Qed.

Record wf_fields (f : TxFields) : Prop := {
  wt_chain : in_range u64 (chain_id_ f); wt_nonce : in_range u64 (nonce f);
  wt_prio : in_range u128 (max_priority_fee_per_gas f); wt_fee : in_range u128 (max_fee_per_gas f);
  wt_gas : in_range u64 (gas_limit f); wt_to : length (tx_to f) = 20%nat;
  wt_value : 0 <= value f < 2 ^ 256; wt_data : Z.of_nat (length (tx_data f)) < 2 ^ 62
}.

(** What an item of the payload is, whatever follows it. *)
Definition encodes (b : list Z) (i : Item) : Prop := forall rest, dec_item (b ++ rest) = Some (i, rest).

Lemma encodes_uint be : (length be <= 64)%nat -> encodes (rlp_uint be) (IStr (strip_zeros be)).
Proof. intros H rest. by apply dec_rlp_uint. Qed.

Lemma encodes_str b : fits (length b) -> encodes (rlp_str b) (IStr b).
Proof. intros H rest. by apply dec_rlp_str. Qed.

Lemma encodes_list b : fits (length b) -> encodes (rlp_list b) (IList b).
Proof. intros H rest. by apply dec_item_list. Qed.

(** A concatenation of encoded items decodes item by item. *)
Lemma dec_items_concat enc fuel :
  Forall (fun p => encodes p.1 p.2) enc -> (length enc <= fuel)%nat ->
  dec_items fuel (concat (map fst enc)) = Some (map snd enc).
Proof.
  intros H. revert fuel. induction H as [|[b i] enc Hb _ IH]; intros [|fuel] Hf; cbn [length] in Hf; try lia; try done.
  cbn [map concat fst snd] in *. specialize (Hb (concat (map fst enc))). cbn [fst snd] in Hb.
  destruct (b ++ concat (map fst enc)) as [|z d] eqn:E; [done|].
  cbn [dec_items]. rewrite Hb. cbn [mbind option_bind]. rewrite IH by lia. done.
Qed.

Lemma dec_envelope_of enc : Forall (fun p => encodes p.1 p.2) enc -> (length enc <= 12)%nat ->
  fits (length (concat (map fst enc))) -> dec_envelope (2 :: rlp_list (concat (map fst enc))) = Some (map snd enc).
Proof.
  intros H Hl Hf. unfold dec_envelope. cbn [Z.eqb negb].
  pose proof (dec_item_list _ [] Hf) as Hi. rewrite app_nil_r in Hi. rewrite Hi.
  cbn [mbind option_bind]. by apply dec_items_concat.
Qed.

(** The nine items every envelope starts with, and the three of the signature. *)
Definition unsigned_items (f : TxFields) : list (list Z * Item) :=
  let uint be := (rlp_uint be, IStr (strip_zeros be)) in
  [uint (to_be_bytes 8 (chain_id_ f)); uint (to_be_bytes 8 (nonce f));
   uint (to_be_bytes 16 (max_priority_fee_per_gas f)); uint (to_be_bytes 16 (max_fee_per_gas f));
   uint (to_be_bytes 8 (gas_limit f)); (rlp_str (tx_to f), IStr (tx_to f)); uint (to_be_bytes 32 (value f));
   (rlp_str (tx_data f), IStr (tx_data f)); (rlp_list [], IList [])].
Definition signature_items (y : Z) (compact : list Z) : list (list Z * Item) :=
  let uint be := (rlp_uint be, IStr (strip_zeros be)) in
  [uint [y]; uint (take 32 compact); uint (take 32 (drop 32 compact))].

Lemma unsigned_fields_items f : unsigned_fields f = concat (map fst (unsigned_items f)).
Proof. unfold unsigned_fields, unsigned_items. cbn [map concat fst]. by rewrite app_nil_r. Qed.

Lemma signed_fields_items f y c : signed_fields f y c = concat (map fst (unsigned_items f ++ signature_items y c)).
Proof.
  unfold signed_fields. rewrite unsigned_fields_items, map_app, concat_app. f_equal.
  unfold signature_items. cbn [map concat fst]. by rewrite app_nil_r.
Qed.

Lemma unsigned_items_encode f : wf_fields f -> Forall (fun p => encodes p.1 p.2) (unsigned_items f).
Proof.
  intros []. repeat constructor; cbn [fst snd];
    (apply encodes_uint || apply encodes_str || apply encodes_list);
    rewrite ?to_be_length; unfold fits; cbn; lia.
Qed.

Lemma signature_items_encode y c : Forall (fun p => encodes p.1 p.2) (signature_items y c).
Proof.
  unfold signature_items. rewrite !Forall_cons, Forall_nil. cbn [fst snd].
  split_and!; [| | |done]; apply encodes_uint; rewrite ?length_take; cbn [length]; lia.
Qed.

Lemma rlp_len_header_length base n : (length (rlp_len_header base n) <= 9)%nat.
Proof.
  unfold rlp_len_header. case_match; cbn [length]; [lia|].
  unfold minimal_be. rewrite length_rev. pose proof (minimal_le_length 8 (Z.of_nat n)). lia.
Qed.

Lemma rlp_str_length b : (length (rlp_str b) <= 9 + length b)%nat.
Proof.
  unfold rlp_str. pose proof (rlp_len_header_length 128 (length b)).
  destruct b as [|x [|y b]]; [|case_match|]; rewrite ?length_app; cbn [length] in *; lia.
Qed.

Lemma rlp_uint_length be : (length (rlp_uint be) <= 9 + length be)%nat.
Proof. unfold rlp_uint. pose proof (rlp_str_length (strip_zeros be)). pose proof (strip_zeros_length be). lia. Qed.

Lemma signed_fields_fit f y c : wf_fields f -> fits (length (unsigned_fields f)) /\ fits (length (signed_fields f y c)).
Proof.
  intros []. unfold signed_fields, unsigned_fields, fits. rewrite !length_app.
  pose proof (rlp_uint_length (to_be_bytes 8 (chain_id_ f))). pose proof (rlp_uint_length (to_be_bytes 8 (nonce f))).
  pose proof (rlp_uint_length (to_be_bytes 16 (max_priority_fee_per_gas f))).
  pose proof (rlp_uint_length (to_be_bytes 16 (max_fee_per_gas f))).
  pose proof (rlp_uint_length (to_be_bytes 8 (gas_limit f))). pose proof (rlp_uint_length (to_be_bytes 32 (value f))).
  pose proof (rlp_str_length (tx_to f)). pose proof (rlp_str_length (tx_data f)).
  pose proof (rlp_uint_length [y]). pose proof (rlp_uint_length (take 32 c)).
  pose proof (rlp_uint_length (take 32 (drop 32 c))). rewrite !to_be_length in *. rewrite !length_take in *.
  change (length (rlp_list [])) with 1%nat. cbn [length] in *. lia.
Qed.

Lemma fields_of_items f : wf_fields f ->
  fields_of (strip_zeros (to_be_bytes 8 (chain_id_ f))) (strip_zeros (to_be_bytes 8 (nonce f)))
    (strip_zeros (to_be_bytes 16 (max_priority_fee_per_gas f))) (strip_zeros (to_be_bytes 16 (max_fee_per_gas f)))
    (strip_zeros (to_be_bytes 8 (gas_limit f))) (tx_to f) (strip_zeros (to_be_bytes 32 (value f))) (tx_data f) = f.
Proof.
  intros []. unfold fields_of. unfold in_range in *.
  rewrite !uint_value by (unfold_ints; cbn in *; lia). by destruct f.
Qed.

(** The preimage of the sighash decodes to exactly the fields that were checked. *)
Lemma unsigned_roundtrip f : wf_fields f -> dec_unsigned (2 :: rlp_list (unsigned_fields f)) = Some f.
Proof.
  intros Hf. unfold dec_unsigned. pose proof (proj1 (signed_fields_fit f 0 [] Hf)) as Hl.
  rewrite unsigned_fields_items in *.
  rewrite dec_envelope_of by (try apply unsigned_items_encode; try assumption; cbn; lia).
  cbn [mbind option_bind unsigned_items map snd]. by rewrite fields_of_items.
Qed.

Lemma signed_roundtrip f y c : wf_fields f -> 0 <= y ->
  dec_signed (2 :: rlp_list (signed_fields f y c))
  = Some (f, y, from_be_bytes (take 32 c), from_be_bytes (take 32 (drop 32 c))).
Proof.
  intros Hf Hy. unfold dec_signed. pose proof (proj2 (signed_fields_fit f y c Hf)) as Hl.
  rewrite signed_fields_items in *.
  rewrite dec_envelope_of; [|apply Forall_app_2; [by apply unsigned_items_encode|apply signature_items_encode]
                            |cbn; lia|assumption].
  rewrite map_app. cbn [mbind option_bind unsigned_items signature_items map snd app].
  rewrite fields_of_items, !strip_zeros_value by done.
  f_equal. repeat f_equal. unfold from_be_bytes. cbn. lia.
Qed.

(** * The policy *)
Section Policy.
Variable keccak256 : list Z -> list Z.
Variable sign_ecdsa : list Z -> Z * list Z.
Abbreviation policy := (policy_new keccak256).
Abbreviation sign := (sign_eip1559 keccak256 sign_ecdsa).

(** What a policy lets through, exactly. *)
Lemma policy_check_iff allowed f :
  policy_check (policy allowed) f = inl tt <->
  value f = 0 /\ tx_to f ∈ allowed /\ tx_to f <> ADDRESS_ZERO /\ (4 <= length (tx_data f))%nat /\
  exists sig, sig ∈ signed_sigs /\ take 4 (tx_data f) = selector4 keccak256 sig.
Proof.
  unfold policy_check, policy_new. cbn [allowed_to allowed_selectors].
  assert (Hsel : take 4 (tx_data f) ∈ map (selector4 keccak256) signed_sigs <->
    exists sig, sig ∈ signed_sigs /\ take 4 (tx_data f) = selector4 keccak256 sig).
  { rewrite list_elem_of_fmap. firstorder. }
  rewrite <- Hsel. pose proof (list_elem_of_filter (fun a => a <> ADDRESS_ZERO) allowed (tx_to f)) as Hto.
  destruct (Z.eqb_spec (value f) 0), (Nat.ltb_spec (length (tx_data f)) 4); cbn [negb];
    repeat case_bool_decide; cbn [negb]; split; intros; simplify_eq; split_and?; try tauto; try lia.
Qed.

(** Every call the codec builds for the hop, sent without ether to an allowed contract,
    is signed. *)
Lemma codec_calls_signable allowed f sig args : length (keccak256 (str_bytes sig)) = 32%nat ->
  sig ∈ HOP_BTCCHANNELS_SIGS ++ [SIG_PP_RELAY] -> tx_data f = encode_call keccak256 sig args ->
  value f = 0 -> tx_to f ∈ allowed -> tx_to f <> ADDRESS_ZERO ->
  exists raw, sign (Some (policy allowed)) f = inl raw.
Proof.
  intros Hk Hs Hd Hv Ht Hz. unfold sign_eip1559.
  replace (policy_check (policy allowed) f) with (inl tt : unit + Refusal);
    [destruct (sign_ecdsa _) as [y c]; by eexists|].
  symmetry. apply policy_check_iff. rewrite Hd. unfold encode_call. rewrite length_app, length_take, Hk.
  split_and!; [done..|lia|]. exists sig. unfold signed_sigs. rewrite elem_of_app. split; [tauto|].
  unfold selector4. rewrite take_app_le by (rewrite length_take, Hk; lia). by rewrite take_take.
Qed.

(** [leverSupply(uint256)], the supply leg of the native rail, is on no list: unless its
    selector collides with a listed one, the signer refuses it whatever the contract. *)
Lemma lever_supply_refused allowed f args :
  tx_data f = selector4 keccak256 "leverSupply(uint256)" ++ args ->
  length (keccak256 (str_bytes "leverSupply(uint256)")) = 32%nat ->
  (forall sig, sig ∈ signed_sigs -> selector4 keccak256 sig = selector4 keccak256 "leverSupply(uint256)" ->
    sig = "leverSupply(uint256)"%string) ->
  exists e, sign (Some (policy allowed)) f = inr e.
Proof.
  intros Hd Hk Hinj. unfold sign_eip1559.
  destruct (policy_check (policy allowed) f) as [[]|e] eqn:E; [|by exists e]. exfalso.
  apply policy_check_iff in E as (_ & _ & _ & _ & sig & Hs & Ht). rewrite Hd in Ht.
  rewrite take_app_le in Ht by (unfold selector4; rewrite length_take, Hk; lia).
  unfold selector4 in Ht at 1. rewrite take_take in Ht. rewrite (Hinj sig Hs (eq_sym Ht)) in Hs. clear -Hs.
  assert (~ "leverSupply(uint256)"%string ∈ signed_sigs) as H; [|tauto].
  apply (bool_decide_unpack (~ "leverSupply(uint256)"%string ∈ signed_sigs)). by vm_compute.
Qed.

(** Two transactions with one signing preimage are the same transaction. *)
Lemma preimage_injective f g : wf_fields f -> wf_fields g ->
  rlp_list (unsigned_fields f) = rlp_list (unsigned_fields g) -> f = g.
Proof.
  intros Hf Hg H. pose proof (unsigned_roundtrip f Hf) as E. rewrite H, unsigned_roundtrip in E by done. congruence.
Qed.
End Policy.

(** * Properties *)

(** What the hot key signs is the transaction it was given.  For every transaction whose
    fields fit their widths, the raw bytes decode, with an independent decoder, to those very
    fields with the signature's parity and two halves, and the bytes that were hashed
    for the signature decode to the same fields. *)
Theorem eip1559_roundtrip keccak256 sign_ecdsa policy f raw :
  wf_fields f -> (forall d, 0 <= (sign_ecdsa d).1) ->
  sign_eip1559 keccak256 sign_ecdsa policy f = inl raw ->
  let pre := 2 :: rlp_list (unsigned_fields f) in
  let sig := sign_ecdsa (keccak256 pre) in
  dec_unsigned pre = Some f /\
  dec_signed raw = Some (f, sig.1, from_be_bytes (take 32 sig.2), from_be_bytes (take 32 (drop 32 sig.2))).
Proof.
  intros Hf Hy H pre sig. subst pre sig. split; [by apply unsigned_roundtrip|].
  unfold sign_eip1559 in H. case_match; [|done]. specialize (Hy (keccak256 (2 :: rlp_list (unsigned_fields f)))).
  destruct (sign_ecdsa _) as [y c]. injection H as <-. by apply signed_roundtrip.
Qed.

(** C22: the policy bounds what leaves the enclave.  A transaction signed under a policy decodes
    to one that moves no ether, goes to one of the configured contracts and not to the zero
    address, and starts with the selector of a listed function. *)
Theorem signed_tx_policed keccak256 sign_ecdsa allowed f raw :
  wf_fields f -> (forall d, 0 <= (sign_ecdsa d).1) ->
  sign_eip1559 keccak256 sign_ecdsa (Some (policy_new keccak256 allowed)) f = inl raw ->
  exists g y r s fn args, dec_signed raw = Some (g, y, r, s) /\ value g = 0 /\ tx_to g ∈ allowed /\
    tx_to g <> ADDRESS_ZERO /\ fn ∈ signed_sigs /\ tx_data g = selector4 keccak256 fn ++ args.
Proof.
  intros Hf Hy H. unfold sign_eip1559 in H. destruct (policy_check _ f) as [[]|] eqn:E; [|done].
  apply policy_check_iff in E as (Hv & Ht & Hz & _ & fn & Hfn & Hs).
  specialize (Hy (keccak256 (2 :: rlp_list (unsigned_fields f)))).
  destruct (sign_ecdsa _) as [y c]. injection H as <-.
  do 5 eexists. exists (drop 4 (tx_data f)). split; [by apply signed_roundtrip|].
  rewrite <- Hs, take_drop. by split_and!.
Qed.

(** ** Witnesses *)
Module Sample.
(** A hash of the right length and a fixed signature. *)
Definition hash (m : list Z) : list Z := take 32 (m ++ replicate 32 0).
Definition sign (d : list Z) : Z * list Z := (1, replicate 31 0 ++ [7] ++ d).
Definition contract : list Z := replicate 19 0 ++ [204].
Definition tx : TxFields :=
  mkTxFields 1 0 1 300 100000 contract 0 (encode_register_channel_claim hash (replicate 32 5)).
Definition raw : list Z := match sign_eip1559 hash sign (Some (policy_new hash [contract])) tx with inl r => r | _ => [] end.

Lemma tx_wf : wf_fields tx.
Proof. by vm_compute. Qed.
Lemma tx_signed : sign_eip1559 hash sign (Some (policy_new hash [contract])) tx = inl raw.
Proof. by vm_compute. Qed.
End Sample.

Lemma eip1559_roundtrip_witness :
  exists s, dec_signed Sample.raw = Some (Sample.tx, 1, 7, s).
Proof.
  eexists. refine (eq_trans (proj2 (eip1559_roundtrip Sample.hash Sample.sign _ Sample.tx Sample.raw Sample.tx_wf _ Sample.tx_signed)) _).
  - intros d. done.
  - by vm_compute.
Defined.

Lemma signed_tx_policed_witness :
  exists g y r s fn args, dec_signed Sample.raw = Some (g, y, r, s) /\ value g = 0 /\ tx_to g ∈ [Sample.contract] /\
    tx_to g <> ADDRESS_ZERO /\ fn ∈ signed_sigs /\ tx_data g = selector4 Sample.hash fn ++ args.
Proof.
  refine (signed_tx_policed Sample.hash Sample.sign [Sample.contract] Sample.tx Sample.raw Sample.tx_wf _ Sample.tx_signed).
  intros d. done.
Defined.
