(* ===== verification/Spv.v ===== *)
(** * Spv: Merkle branches for the light client

    [quid-ln/quid-hop/src/spv.rs] (whole) and, of [evm_codec.rs], [is_commitment_tx],
    [legacy_bytes] and [tx_inclusion].

    The double SHA-256, the consensus encoding of a transaction and the block explorer
    are parameters.  Indices are [nat]: a [usize] that stays below a list's length. *)
From stdpp Require Import list.
From S2P Require Import Prelude Pool Chain Abi.
Open Scope list_scope.

(** A transaction, as far as this code looks at it. *)
Record TxIn := mkTxIn { sequence : Z; witness : list (list Z) }.
Record Transaction := mkTx { lock_time : Z; input : list TxIn; rest_of_tx : list Z }.

Definition is_commitment_tx (tx : Transaction) : bool :=
  let locktime_top := Z.shiftr (lock_time tx) 24 in
  match input tx with
  | [] => false
  | inp :: _ => let seq_top := Z.shiftr (sequence inp) 24 in (locktime_top =? 32) && (seq_top =? 128)
  end.
Definition strip_witness (tx : Transaction) : Transaction :=
  mkTx (lock_time tx) (map (fun i => mkTxIn (sequence i) []) (input tx)) (rest_of_tx tx).
Definition spv_block_hash_be (h : list Z) : list Z := rev h.

(** The four failures of the explorer, and the one of the block. *)
Inductive InclusionError := ClientFailed | NotFound | Unconfirmed | NoHeight | NotInBlock.
Record TxStatus := mkStatus { block_hash : option (list Z); block_height : option Z }.
(** What the explorer answers: [None] is a failed request. *)
Record Client := mkClient {
  get_tx : list Z -> option (option Transaction);
  get_tx_status : list Z -> option TxStatus;
  get_block_txids : list Z -> option (list (list Z))
}.

Section Merkle.
Variable sha256d : list Z -> list Z.
Variable consensus_encode : Transaction -> list Z.

Definition hash_pair (a b : list Z) : list Z := sha256d (a ++ b).
Definition legacy_bytes (tx : Transaction) : list Z := consensus_encode (strip_witness tx).

(** One turn of the outer loop: an odd layer repeats its last node, then the nodes are
    hashed two by two. *)
Definition pad (layer : list (list Z)) : list (list Z) :=
  if Nat.odd (length layer) then match last layer with Some l => layer ++ [l] | None => layer end else layer.
Fixpoint pair_up (layer : list (list Z)) : list (list Z) :=
  match layer with
  | a :: b :: layer => hash_pair a b :: pair_up layer
  | _ => []
  end.
Fixpoint branch_loop (fuel : nat) (layer : list (list Z)) (idx : nat) (branch : list (list Z))
  : option (list (list Z) * list Z) :=
  if (1 <? length layer)%nat then
    match fuel with
    | O => None
    | S fuel =>
        let layer := pad layer in
        sib ← layer !! Nat.lxor idx 1;
        branch_loop fuel (pair_up layer) (idx / 2) (branch ++ [sib])
    end
  else root ← layer !! O; Some (branch, root).

(** [None] is a panic. *)
Definition merkle_branch (txids : list (list Z)) (index : nat) : option (list (list Z) * list Z) :=
  if (index <? length txids)%nat then branch_loop (length txids) txids index [] else None.

Fixpoint fold_branch (h : list Z) (branch : list (list Z)) (idx : nat) : list Z :=
  match branch with
  | [] => h
  | sib :: branch =>
      fold_branch (if (Nat.land idx 1 =? 0)%nat then hash_pair h sib else hash_pair sib h) branch (Nat.shiftr idx 1)
  end.
Definition verify_branch (txid : list Z) (branch : list (list Z)) (index : nat) (root : list Z) : bool :=
  bool_decide (fold_branch txid branch index = root).

Fixpoint position (x : list Z) (l : list (list Z)) : option nat :=
  match l with
  | [] => None
  | y :: l => if decide (y = x) then Some O else S <$> position x l
  end.

(** Txids are kept in their internal byte order. *)
Definition tx_inclusion (c : Client) (txid : list Z) : TxInclusion + InclusionError :=
  match get_tx c txid with
  | None => inr ClientFailed
  | Some None => inr NotFound
  | Some (Some tx) =>
      let raw := legacy_bytes tx in
      match get_tx_status c txid with
      | None => inr ClientFailed
      | Some (mkStatus None _) => inr Unconfirmed
      | Some (mkStatus (Some _) None) => inr NoHeight
      | Some (mkStatus (Some bh) (Some h)) =>
          match get_block_txids c bh with
          | None => inr ClientFailed
          | Some txids =>
              match position txid txids with
              | None => inr NotInBlock
              | Some index =>
                  match merkle_branch txids index with
                  | Some (branch, _) => inl (mkInclusion raw (spv_block_hash_be bh) h (Z.of_nat index) branch)
                  | None => inr NotInBlock     (* the panic: excluded below *)
                  end
              end
          end
      end
  end.

(** * The Merkle tree of a block, level by level *)
Definition level_up (layer : list (list Z)) : list (list Z) := pair_up (pad layer).
Fixpoint root_loop (fuel : nat) (layer : list (list Z)) : option (list Z) :=
  match layer, fuel with
  | [], _ => None
  | [r], _ => Some r
  | _, O => None
  | _, S fuel => root_loop fuel (level_up layer)
  end.
Definition merkle_root (txids : list (list Z)) : option (list Z) := root_loop (length txids) txids.
(** Its height: how many siblings a branch has. *)
Fixpoint depth_loop (fuel n : nat) : nat :=
  match fuel with
  | O => O
  | S fuel => if (1 <? n)%nat then S (depth_loop fuel ((n + 1) / 2)) else O
  end.
Definition depth (n : nat) : nat := depth_loop n n.

(** Two different pairs with one hash. *)
Definition collision : Prop :=
  exists a b c d, (a, b) <> (c, d) /\ hash_pair a b = hash_pair c d.
End Merkle.

(** * Lemmas *)
Lemma land_1 i : Nat.land i 1 = (i mod 2)%nat.
Proof. exact (Nat.land_ones i 1). Qed.

Lemma shiftr_1 i : Nat.shiftr i 1 = (i / 2)%nat.
Proof. by rewrite Nat.shiftr_div_pow2. Qed.

Lemma lxor_even k : Nat.lxor (2 * k) 1 = (2 * k + 1)%nat.
Proof.
  symmetry. apply Nat.add_nocarry_lxor. rewrite land_1. rewrite (Nat.mul_comm 2 k). by apply Nat.Div0.mod_mul.
Qed.

Lemma lxor_odd k : Nat.lxor (2 * k + 1) 1 = (2 * k)%nat.
Proof. by rewrite <- lxor_even, Nat.lxor_assoc, Nat.lxor_nilpotent, Nat.lxor_0_r. Qed.

Lemma even_or_odd i : exists k, (i / 2 = k /\ (i = 2 * k /\ i mod 2 = 0 \/ i = 2 * k + 1 /\ i mod 2 = 1))%nat.
Proof.
  exists (i / 2)%nat. split; [done|]. pose proof (Nat.div_mod_eq i 2). pose proof (Nat.mod_upper_bound i 2). lia.
Qed.

Lemma pad_length l : length (pad l) = (2 * ((length l + 1) / 2))%nat.
Proof.
  unfold pad. destruct (even_or_odd (length l)) as (k & _ & [[E M]|[E M]]).
  - replace (Nat.odd (length l)) with false.
    + rewrite E. rewrite (Nat.mul_comm 2 k), Nat.div_add_l by lia. cbn. lia.
    + symmetry. rewrite <- Nat.negb_even, E, Nat.even_mul. done.
  - replace (Nat.odd (length l)) with true.
    + destruct (last l) as [x|] eqn:El; [|by apply last_None in El as ->].
      rewrite length_app, E. replace (2 * k + 1 + 1)%nat with ((k + 1) * 2)%nat by lia.
      rewrite Nat.div_mul by lia. cbn. lia.
    + symmetry. rewrite E. rewrite Nat.odd_add, Nat.odd_mul. done.
Qed.

Lemma pad_prefix l i x : l !! i = Some x -> pad l !! i = Some x.
Proof.
  intros H. unfold pad. case_match; [|done]. case_match; [|done]. by apply lookup_app_l_Some.
Qed.

Section Facts.
Variable sha256d : list Z -> list Z.
Abbreviation H := (hash_pair sha256d).
Abbreviation up := (level_up sha256d).

Lemma pair_up_lookup l k a b :
  l !! (2 * k)%nat = Some a -> l !! (2 * k + 1)%nat = Some b -> pair_up sha256d l !! k = Some (H a b).
Proof.
  revert l. induction k as [|k IH]; intros [|x [|y l]]; [done|done|cbn; congruence|done| |].
  - by replace (2 * S k)%nat with (S (S (2 * k))) by lia.
  - replace (2 * S k + 1)%nat with (S (S (2 * k + 1))) by lia. replace (2 * S k)%nat with (S (S (2 * k))) by lia.
    exact (IH l).
Qed.

Lemma pair_up_length l : length (pair_up sha256d l) = (length l / 2)%nat.
Proof.
  enough (forall n l, (length l <= n)%nat -> length (pair_up sha256d l) = (length l / 2)%nat) by eauto.
  clear l. induction n as [|n IH]; intros [|a [|b l]] Hl; cbn [pair_up length] in *; try done; [lia|].
  rewrite IH by lia. by replace (S (S (length l))) with (1 * 2 + length l)%nat by lia; rewrite Nat.div_add_l by lia.
Qed.

Lemma up_length l : length (up l) = ((length l + 1) / 2)%nat.
Proof. unfold level_up. rewrite pair_up_length, pad_length. rewrite Nat.mul_comm. apply Nat.div_mul. lia. Qed.

(** The sibling of node [i], and the parent both make. *)
Lemma up_lookup l i x : l !! i = Some x -> (1 < length l)%nat ->
  exists s, pad l !! Nat.lxor i 1 = Some s /\
    up l !! (i / 2)%nat = Some (if (Nat.land i 1 =? 0)%nat then H x s else H s x).
Proof.
  intros Hx Hl. pose proof (lookup_lt_Some _ _ _ Hx) as Hi. pose proof (pad_length l) as Hp.
  pose proof (Nat.div_mod_eq (length l + 1) 2) as Hd. pose proof (Nat.mod_upper_bound (length l + 1) 2) as Hm.
  apply pad_prefix in Hx. rewrite land_1. unfold level_up.
  destruct (even_or_odd i) as (k & -> & [[-> M]|[-> M]]); rewrite M; cbn [Nat.eqb].
  - rewrite lxor_even. destruct (lookup_lt_is_Some_2 (pad l) (2 * k + 1)) as [s Hs]; [lia|].
    exists s. split; [done|]. by apply pair_up_lookup.
  - rewrite lxor_odd. destruct (lookup_lt_is_Some_2 (pad l) (2 * k)) as [s Hs]; [lia|].
    exists s. split; [done|]. by apply pair_up_lookup.
Qed.

Lemma up_shrinks l : (1 < length l)%nat -> (0 < length (up l) < length l)%nat.
Proof.
  intros Hl. rewrite up_length. pose proof (Nat.div_mod_eq (length l + 1) 2).
  pose proof (Nat.mod_upper_bound (length l + 1) 2). lia.
Qed.

Lemma branch_loop_S fuel l i br : (1 < length l)%nat ->
  branch_loop sha256d (S fuel) l i br
  = (sib ← pad l !! Nat.lxor i 1; branch_loop sha256d fuel (up l) (i / 2) (br ++ [sib])).
Proof. intros Hl. cbn [branch_loop]. by rewrite (proj2 (Nat.ltb_lt _ _)). Qed.

Lemma root_loop_S fuel l : (1 < length l)%nat -> root_loop sha256d (S fuel) l = root_loop sha256d fuel (up l).
Proof. intros Hl. by destruct l as [|a [|b l]]; cbn in Hl; [lia|lia|]. Qed.

Lemma parent_lt l i : (i < length l)%nat -> (1 < length l)%nat -> (i / 2 < length (up l))%nat.
Proof.
  intros Hi Hl. destruct (lookup_lt_is_Some_2 l i Hi) as [x Hx].
  destruct (up_lookup l i x Hx Hl) as (s & _ & Hs). by apply lookup_lt_Some in Hs.
Qed.

(** The loop returns, with the block's root and a branch from the node to it. *)
Lemma branch_loop_spec fuel l i x br : (length l <= fuel)%nat -> l !! i = Some x ->
  exists b r, branch_loop sha256d fuel l i br = Some (br ++ b, r) /\ root_loop sha256d fuel l = Some r /\
    fold_branch sha256d x b i = r /\ length b = depth_loop fuel (length l).
Proof.
  revert l i x br. induction fuel as [|fuel IH]; intros l i x br Hf Hx;
    [pose proof (lookup_lt_Some _ _ _ Hx); lia|].
  destruct (decide (1 < length l)%nat) as [Hl|Hl].
  - destruct (up_lookup l i x Hx Hl) as (s & Hs & Hu). pose proof (up_shrinks l Hl).
    rewrite branch_loop_S, root_loop_S, Hs by done. cbn [mbind option_bind].
    destruct (IH (up l) (i / 2)%nat _ (br ++ [s]) ltac:(lia) Hu) as (b & r & E & Er & Ef & El).
    exists (s :: b), r. rewrite E, <- app_assoc. split_and!; [done|done| |].
    + cbn [fold_branch]. by rewrite shiftr_1.
    + cbn [length depth_loop]. rewrite (proj2 (Nat.ltb_lt _ _)) by done. by rewrite El, up_length.
  - pose proof (lookup_lt_Some _ _ _ Hx). destruct l as [|a [|b l]]; cbn in *; try lia.
    destruct i; [|lia]. cbn in Hx. exists [], x. rewrite app_nil_r. by simplify_eq.
Qed.

(** One step of a branch that folds to the right parent was the right step. *)
Lemma parent_inj i x y s s' :
  (if (Nat.land i 1 =? 0)%nat then H x s else H s x) = (if (Nat.land i 1 =? 0)%nat then H y s' else H s' y) ->
  x = y \/ collision sha256d.
Proof.
  intros E. destruct (decide (x = y)) as [|Hne]; [by left|]. right. case_match; unfold collision;
    do 4 eexists; (split; [|exact E]); congruence.
Qed.

Lemma branch_loop_sound fuel l i x y br r : (length l <= fuel)%nat -> l !! i = Some x ->
  length br = depth_loop fuel (length l) -> root_loop sha256d fuel l = Some r ->
  fold_branch sha256d y br i = r -> x = y \/ collision sha256d.
Proof.
  revert l i x y br. induction fuel as [|fuel IH]; intros l i x y br Hf Hx Hb Hr Hy;
    [pose proof (lookup_lt_Some _ _ _ Hx); lia|].
  destruct (decide (1 < length l)%nat) as [Hl|Hl].
  - destruct (up_lookup l i x Hx Hl) as (s & Hs & Hu). pose proof (up_shrinks l Hl).
    rewrite root_loop_S in Hr by done. cbn [depth_loop] in Hb. rewrite (proj2 (Nat.ltb_lt _ _)) in Hb by done.
    destruct br as [|s' br]; [done|]. cbn [fold_branch length] in *. rewrite shiftr_1 in Hy. injection Hb as Hb.
    destruct (IH (up l) (i / 2)%nat _ _ br ltac:(lia) Hu ltac:(by rewrite up_length) Hr Hy) as [E|]; [|by right].
    by eapply parent_inj.
  - pose proof (lookup_lt_Some _ _ _ Hx). destruct l as [|a [|b l]]; cbn in *; try lia.
    destruct i; [|lia]. cbn in Hx. destruct br; cbn in *; [|done]. left. by simplify_eq.
Qed.

Lemma position_spec x l i : position x l = Some i -> l !! i = Some x.
Proof.
  revert i. induction l as [|y l IH]; intros i; cbn; [done|]. case_decide; [intros; by simplify_eq/=|].
  destruct (position x l); cbn; [|done]. intros. simplify_eq/=. by apply IH.
Qed.

Lemma merkle_branch_total txids i : (i < length txids)%nat -> exists b r, merkle_branch sha256d txids i = Some (b, r).
Proof.
  intros Hi. destruct (lookup_lt_is_Some_2 txids i Hi) as [x Hx]. unfold merkle_branch.
  rewrite (proj2 (Nat.ltb_lt _ _)) by done.
  destruct (branch_loop_spec (length txids) txids i x [] ltac:(lia) Hx) as (b & r & E & _). by exists b, r.
Qed.
End Facts.

(** For every block and every position in it the branch is computed and verifies: the loop ends
    for every number of transactions, its root is the block's Merkle root whatever the position,
    the branch has one sibling per level, and folding the transaction with it gives the root. *)
Lemma branch_verifies sha256d txids i x : txids !! i = Some x ->
  exists b r, merkle_branch sha256d txids i = Some (b, r) /\ merkle_root sha256d txids = Some r /\
    length b = depth (length txids) /\ verify_branch sha256d x b i r = true.
Proof.
  intros Hx. pose proof (lookup_lt_Some _ _ _ Hx) as Hi. unfold merkle_branch, merkle_root, depth, verify_branch.
  rewrite (proj2 (Nat.ltb_lt _ _)) by done.
  destruct (branch_loop_spec sha256d (length txids) txids i x [] ltac:(lia) Hx) as (b & r & E & Er & Ef & El).
  exists b, r. split_and!; [done..|]. by rewrite bool_decide_true.
Qed.

(** The test for a commitment transaction, on the two 32-bit words: a locktime of zero or of a
    block height is none. *)
Lemma is_commitment_tx_iff tx : is_commitment_tx tx = true <->
  exists inp rest, input tx = inp :: rest /\ 32 * 2 ^ 24 <= lock_time tx < 33 * 2 ^ 24 /\
    128 * 2 ^ 24 <= sequence inp < 129 * 2 ^ 24.
Proof.
  assert (forall x k, Z.shiftr x 24 = k <-> k * 2 ^ 24 <= x < (k + 1) * 2 ^ 24) as Hs.
  { intros x k. rewrite Z.shiftr_div_pow2 by lia. pose proof (Z.div_mod x (2 ^ 24)).
    pose proof (Z.mod_pos_bound x (2 ^ 24)). nia. }
  unfold is_commitment_tx. destruct (input tx) as [|inp rest]; [split; [done|by intros (? & ? & ? & _)]|].
  rewrite andb_true_iff, !Z.eqb_eq, !Hs. split; [intros []; by exists inp, rest|].
  intros (? & ? & E & ? & ?). by injection E as <- <-.
Qed.

(** The tree never fails: an inclusion is refused only for want of an answer. *)
Lemma inclusion_total sha256d consensus_encode c txid tx bh h txids :
  get_tx c txid = Some (Some tx) -> get_tx_status c txid = Some (mkStatus (Some bh) (Some h)) ->
  get_block_txids c bh = Some txids -> txid ∈ txids ->
  exists p, tx_inclusion sha256d consensus_encode c txid = inl p.
Proof.
  intros H1 H2 H3 H4. unfold tx_inclusion. rewrite H1, H2, H3.
  destruct (position txid txids) as [i|] eqn:Ep.
  - apply position_spec in Ep. destruct (branch_verifies sha256d txids i txid Ep) as (b & r & -> & _). by eexists.
  - exfalso. clear -H4 Ep. induction H4 as [x l|x y l _ IH]; cbn in Ep; case_decide; try done.
    apply IH. by destruct (position x l).
Qed.

(** * Properties *)

(** A branch proves nothing else.  A branch of the block's depth that verifies at position [i]
    against the block's root is for the transaction at that position, or two different pairs
    of nodes with the same hash are at hand. *)
Theorem branch_binds sha256d txids i x y br r :
  txids !! i = Some x -> merkle_root sha256d txids = Some r -> length br = depth (length txids) ->
  verify_branch sha256d y br i r = true -> y = x \/ collision sha256d.
Proof.
  intros Hx Hr Hl Hv. apply bool_decide_eq_true in Hv.
  destruct (branch_loop_sound sha256d (length txids) txids i x y br r) as [->|]; auto.
Qed.

(** C23: what is sent to the contract for a confirmed transaction: the bytes without witnesses, the
    block hash reversed, and a proof that folds the transaction to the Merkle root of the block the
    explorer named.  It fails only where the explorer has no answer: never in the tree. *)
Theorem inclusion_proof_valid sha256d consensus_encode c txid p :
  tx_inclusion sha256d consensus_encode c txid = inl p ->
  exists tx bh h txids r, get_tx c txid = Some (Some tx) /\ get_tx_status c txid = Some (mkStatus (Some bh) (Some h)) /\
    get_block_txids c bh = Some txids /\ merkle_root sha256d txids = Some r /\
    raw p = consensus_encode (strip_witness tx) /\ rev (block_hash_be p) = bh /\ tx_height p = h /\
    txids !! Z.to_nat (tx_index p) = Some txid /\
    verify_branch sha256d txid (merkle_proof p) (Z.to_nat (tx_index p)) r = true.
Proof.
  unfold tx_inclusion. destruct (get_tx c txid) as [[tx|]|]; [|done..].
  destruct (get_tx_status c txid) as [[[bh|] [h|]]|]; [|done..].
  destruct (get_block_txids c bh) as [txids|] eqn:Et; [|done].
  destruct (position txid txids) as [i|] eqn:Ep; [|done]. apply position_spec in Ep.
  destruct (branch_verifies sha256d txids i txid Ep) as (b & r & -> & Hr & _ & Hv). intros E. injection E as <-.
  exists tx, bh, h, txids, r. cbn. unfold spv_block_hash_be. rewrite rev_involutive, Nat2Z.id. by split_and!.
Qed.

(** ** Witnesses: five transactions, so two levels repeat a node *)
Module SpvSample.
Definition hash (m : list Z) : list Z := [foldl (fun acc b => (acc * 31 + b + 7) mod 65537) 1 m].
Definition txids : list (list Z) := [[1]; [2]; [3]; [4]; [5]].
Definition tx : Transaction := mkTx 0 [mkTxIn 4294967293 [[1; 2]]] [].
Definition client : Client :=
  mkClient (fun _ => Some (Some tx)) (fun _ => Some (mkStatus (Some [9; 8]) (Some 100))) (fun _ => Some txids).
Definition encode (t : Transaction) : list Z := lock_time t :: concat (concat (map witness (input t))).
Definition proof : TxInclusion :=
  match tx_inclusion hash encode client [5] with inl p => p | inr _ => mkInclusion [] [] 0 0 [] end.
Definition root : list Z := default [] (merkle_root hash txids).
End SpvSample.

Lemma branch_binds_witness : [5] = [5] \/ collision SpvSample.hash.
Proof.
  apply (branch_binds SpvSample.hash SpvSample.txids 4 [5] [5] (merkle_proof SpvSample.proof) SpvSample.root);
    by vm_compute.
Defined.

Lemma inclusion_proof_valid_witness :
  tx_index SpvSample.proof = 4 /\
  exists tx bh h txids r, get_tx SpvSample.client [5] = Some (Some tx) /\
    get_tx_status SpvSample.client [5] = Some (mkStatus (Some bh) (Some h)) /\
    get_block_txids SpvSample.client bh = Some txids /\ merkle_root SpvSample.hash txids = Some r /\
    raw SpvSample.proof = SpvSample.encode (strip_witness tx) /\ rev (block_hash_be SpvSample.proof) = bh /\
    tx_height SpvSample.proof = h /\ txids !! Z.to_nat (tx_index SpvSample.proof) = Some [5] /\
    verify_branch SpvSample.hash [5] (merkle_proof SpvSample.proof) (Z.to_nat (tx_index SpvSample.proof)) r = true.
Proof.
  split; [by vm_compute|].
  apply (inclusion_proof_valid SpvSample.hash SpvSample.encode SpvSample.client [5] SpvSample.proof). by vm_compute.
Defined.
