(* ===== verification/Rebalance.v ===== *)
(** * Rebalance: growing a drained channel

    [quid-ln/quid-hop/src/rebalancer.rs] (whole, less its logging), [initiate_splice] of
    [node.rs] and [spendable_utxos] of [quid-ln/src/wallet.rs].

    The wallet's outputs and balance, the explorer, the channel list and
    [splice_channel] are other people's: each is a parameter, and each turn of the loop
    sees its own values, since the loop waits between them. *)
From Stdlib Require Import Sorted.
From stdpp Require Import gmap list.
From S2P Require Import Prelude Pool Chain.
Open Scope list_scope.

(** ** The decision *)
Definition MIN_ECONOMIC_GROW_SATS : Z := 250000.
Definition SPLICE_FUNDING_FEERATE_SAT_PER_KW : Z := 2000.
Definition HOP_MAX_INBOUND_IN_FLIGHT_PCT : Z := 50.
Definition CHANNEL_MAX_FUNDING_SATS : Z := 5 * 100000000.
Definition FORCE_CLOSE_AVOIDANCE_MAX_FEE_SATS : Z := 1000.

Record RebalanceConfig := mkConfig { wallet_reserve_sats : Z; poll_interval_secs : Z }.
Definition default_config : RebalanceConfig := mkConfig (FORCE_CLOSE_AVOIDANCE_MAX_FEE_SATS * 10) 30.

Record ChannelSnapshot := mkSnap {
  channel_value_satoshis : Z; next_outbound_htlc_limit_msat : Z; max_inbound_in_flight_percent : Z; is_usable : bool
}.
Inductive BlockReason :=
  | InsufficientWallet (spendable_sats need_sats : Z)
  | ChannelCapReached (channel_value : Z).
Inductive SpliceDecision := Healthy | Splice (grow_sats : Z) | Blocked (r : BlockReason).

Definition per_swap_ceiling_msat (s : ChannelSnapshot) : Z :=
  let pct := Z.min (max_inbound_in_flight_percent s) 100 in
  sat u64 (sat u64 (channel_value_satoshis s * 1000) * pct) / 100.

Definition want_grow_sats (s : ChannelSnapshot) : Z :=
  let target_msat := sat u64 (per_swap_ceiling_msat s * 2) in
  let deficit_msat := sat u64 (target_msat - next_outbound_htlc_limit_msat s) in
  (deficit_msat + 999) / 1000.

Definition decide_splice (s : ChannelSnapshot) (confirmed_wallet_sats : Z) (cfg : RebalanceConfig) (cap_sats : Z)
  : SpliceDecision :=
  if negb (is_usable s) then Healthy else
  let ceiling_msat := per_swap_ceiling_msat s in
  if ceiling_msat =? 0 then Healthy else
  if ceiling_msat <=? next_outbound_htlc_limit_msat s then Healthy else
  let cap_headroom := sat u64 (cap_sats - channel_value_satoshis s) in
  if cap_headroom <? MIN_ECONOMIC_GROW_SATS then Blocked (ChannelCapReached (channel_value_satoshis s)) else
  let grow_sats := Z.min (want_grow_sats s) cap_headroom in
  let spendable := sat u64 (confirmed_wallet_sats - wallet_reserve_sats cfg) in
  if spendable <? MIN_ECONOMIC_GROW_SATS then Blocked (InsufficientWallet spendable MIN_ECONOMIC_GROW_SATS) else
  let grow_sats := Z.min grow_sats spendable in
  if grow_sats <? MIN_ECONOMIC_GROW_SATS then
    if spendable <=? cap_headroom then Blocked (InsufficientWallet spendable MIN_ECONOMIC_GROW_SATS)
    else Blocked (ChannelCapReached (channel_value_satoshis s))
  else Splice grow_sats.

(** ** Starting a splice *)
Record LocalOutput := mkOutput {
  op_txid : list Z; op_vout : Z; out_value : Z; script_pubkey : list Z;
  confirmation_height : option Z                 (* [None]: not confirmed *)
}.
Definition spendable_utxos (reserved : list (list Z * Z)) (get_utxos : list LocalOutput) : list LocalOutput :=
  filter (fun u => (op_txid u, op_vout u) ∉ reserved) get_utxos.

(** [sort_by_key]: the oldest first, equal heights in their order. *)
Definition height_key (u : LocalOutput) : Z := default 4294967295 (confirmation_height u).
Fixpoint insert_by_height (u : LocalOutput) (l : list LocalOutput) : list LocalOutput :=
  match l with
  | [] => [u]
  | v :: l => if height_key u <=? height_key v then u :: v :: l else v :: insert_by_height u l
  end.
Definition sort_by_height (l : list LocalOutput) : list LocalOutput := foldr insert_by_height [] l.

Definition is_p2wpkh (spk : list Z) : bool :=
  match spk with
  | a :: b :: _ => (length spk =? 22)%nat && (a =? 0) && (b =? 20)
  | _ => false
  end.
Inductive SpliceError := GetTxFailed | PrevTxNotFound | InputNotP2tr | InsufficientFunds | SpliceChannelFailed.

Section Splicing.
Variables PrevTx FundingTxInput : Type.
Variable get_tx : list Z -> option (option PrevTx).
Variable new_p2tr_key_spend : PrevTx -> Z -> option FundingTxInput.
(** The contribution: its value and inputs. *)
Variable splice_channel : Z -> list FundingTxInput -> Z -> bool.

Fixpoint select_inputs (target : Z) (utxos : list LocalOutput) (inputs : list FundingTxInput) (total : Z)
  : (list FundingTxInput * Z) + SpliceError :=
  match utxos with
  | [] => inl (inputs, total)
  | u :: utxos =>
      if target <=? total then inl (inputs, total)
      else if negb (is_p2wpkh (script_pubkey u)) then select_inputs target utxos inputs total
      else match get_tx (op_txid u) with
           | None => inr GetTxFailed
           | Some None => inr PrevTxNotFound
           | Some (Some prevtx) =>
               match new_p2tr_key_spend prevtx (op_vout u) with
               | None => inr InputNotP2tr
               | Some i => select_inputs target utxos (inputs ++ [i]) (sat u64 (total + out_value u))
               end
           end
  end.

Definition initiate_splice (reserved : list (list Z * Z)) (get_utxos : list LocalOutput) (grow_sats feerate : Z)
  : unit + SpliceError :=
  let utxos := sort_by_height (filter (fun u => is_Some (confirmation_height u)) (spendable_utxos reserved get_utxos)) in
  let target := sat u64 (grow_sats + 20000) in
  match select_inputs target utxos [] 0 with
  | inr e => inr e
  | inl (inputs, total) =>
      if negb (target <=? total) then inr InsufficientFunds
      else if splice_channel grow_sats inputs feerate then inl tt else inr SpliceChannelFailed
  end.
End Splicing.

(** ** One pass over the channels *)
Record ChannelDetails := mkDetails {
  channel_id : list Z; counterparty : list Z; value_sats : Z; limit_msat : Z; usable : bool
}.
Definition snapshot_of (c : ChannelDetails) : ChannelSnapshot :=
  mkSnap (value_sats c) (limit_msat c) HOP_MAX_INBOUND_IN_FLIGHT_PCT (usable c).

(** What one turn reads: the wallet's confirmed balance, how [initiate_splice] ends, and
    the channels as listed afterwards. *)
Record Turn := mkTurn { confirmed : Z; splice_ok : bool; relist : list ChannelDetails }.
Definition find_channel (cid : list Z) (l : list ChannelDetails) : option ChannelDetails :=
  snd <$> list_find (fun c => channel_id c = cid) l.

Definition self_release (active : gset (list Z)) (cid : list Z) (t : Turn) : gset (list Z) :=
  if bool_decide (cid ∈ active) then
    match find_channel cid (relist t) with
    | Some c =>
        let s := snapshot_of c in
        if is_usable s && (per_swap_ceiling_msat s <=? next_outbound_htlc_limit_msat s) then active ∖ {[cid]} else active
    | None => active
    end
  else active.

(** One channel: the set of claimed slots, and the splice started, if one was. *)
Definition rebalance_one (cfg : RebalanceConfig) (active : gset (list Z)) (chan : ChannelDetails) (t : Turn)
  : gset (list Z) * option (list Z * Z) :=
  let cid := channel_id chan in
  if bool_decide (cid ∈ active) then (active, None)
  else
    let s := snapshot_of chan in
    match decide_splice s (confirmed t) cfg CHANNEL_MAX_FUNDING_SATS with
    | Healthy | Blocked _ => (self_release active cid t, None)
    | Splice grow =>
        let claimed := {[cid]} ∪ active in
        if splice_ok t then (self_release claimed cid t, Some (cid, grow))
        else (self_release (claimed ∖ {[cid]}) cid t, None)
    end.

Fixpoint rebalance_loop (cfg : RebalanceConfig) (active : gset (list Z)) (chans : list ChannelDetails) (turns : nat -> Turn)
  : gset (list Z) * list (list Z * Z) :=
  match chans with
  | [] => (active, [])
  | c :: chans =>
      let '(active, started) := rebalance_one cfg active c (turns O) in
      let '(active, log) := rebalance_loop cfg active chans (fun n => turns (S n)) in
      (active, from_option (fun x => [x]) [] started ++ log)
  end.
Definition rebalance_capacity_tick (cfg : RebalanceConfig) (hop_node_pk : list Z) (list_channels : list ChannelDetails)
    (turns : nat -> Turn) (active : gset (list Z)) : gset (list Z) * list (list Z * Z) :=
  rebalance_loop cfg active (filter (fun c => counterparty c = hop_node_pk) list_channels) turns.

(** A run of the orchestrator: one pass after the other, on one set of slots. *)
Fixpoint ticks (cfg : RebalanceConfig) (pk : list Z) (envs : list (list ChannelDetails * (nat -> Turn)))
    (active : gset (list Z)) : gset (list Z) * list (list Z * Z) :=
  match envs with
  | [] => (active, [])
  | (chans, turns) :: envs =>
      let '(active, l1) := rebalance_capacity_tick cfg pk chans turns active in
      let '(active, l2) := ticks cfg pk envs active in (active, l1 ++ l2)
  end.

(** * The decision: lemmas *)

(** The channel as the splice would leave it. *)
Definition grown (s : ChannelSnapshot) (g : Z) : ChannelSnapshot :=
  mkSnap (channel_value_satoshis s + g) (next_outbound_htlc_limit_msat s + 1000 * g)
    (max_inbound_in_flight_percent s) (is_usable s).

Lemma decide_splice_iff s w cfg cap g :
  decide_splice s w cfg cap = Splice g <->
  is_usable s = true /\ per_swap_ceiling_msat s <> 0 /\ next_outbound_htlc_limit_msat s < per_swap_ceiling_msat s /\
  MIN_ECONOMIC_GROW_SATS <= want_grow_sats s /\
  MIN_ECONOMIC_GROW_SATS <= sat u64 (cap - channel_value_satoshis s) /\
  MIN_ECONOMIC_GROW_SATS <= sat u64 (w - wallet_reserve_sats cfg) /\
  g = Z.min (Z.min (want_grow_sats s) (sat u64 (cap - channel_value_satoshis s))) (sat u64 (w - wallet_reserve_sats cfg)).
Proof.
  unfold decide_splice. set (h := sat u64 (cap - _)). set (sp := sat u64 (w - _)). set (want := want_grow_sats s).
  set (c := per_swap_ceiling_msat s).
  destruct (is_usable s); cbn [negb]; [|split; [done|intros [? _]; done]].
  destruct (Z.eqb_spec c 0); [split; [done|lia]|].
  destruct (Z.leb_spec c (next_outbound_htlc_limit_msat s)); [split; [done|lia]|].
  destruct (Z.ltb_spec h MIN_ECONOMIC_GROW_SATS); [split; [done|lia]|].
  destruct (Z.ltb_spec sp MIN_ECONOMIC_GROW_SATS); [split; [done|lia]|].
  destruct (Z.ltb_spec (Z.min (Z.min want h) sp) MIN_ECONOMIC_GROW_SATS).
  - destruct (sp <=? h); (split; [done|lia]).
  - split; [intros E; injection E as <-; split_and!; try done; lia|intros (_ & _ & _ & _ & _ & _ & ->); done].
Qed.

(** At the hop's half, and below the point where the products saturate. *)
Definition half_scale (s : ChannelSnapshot) : Prop :=
  max_inbound_in_flight_percent s = HOP_MAX_INBOUND_IN_FLIGHT_PCT /\
  0 <= channel_value_satoshis s <= 360000000000000 /\ 0 <= next_outbound_htlc_limit_msat s <= 2 ^ 63.

Lemma half_ceiling s : half_scale s -> per_swap_ceiling_msat s = 500 * channel_value_satoshis s.
Proof.
  intros (Hp & Hv & _). unfold per_swap_ceiling_msat. rewrite Hp. unfold HOP_MAX_INBOUND_IN_FLIGHT_PCT, sat.
  cbn [imin imax u64]. set (v := channel_value_satoshis s) in *.
  replace (Z.max 0 (Z.min 18446744073709551615 (v * 1000))) with (v * 1000) by lia.
  replace (Z.max 0 (Z.min 18446744073709551615 (v * 1000 * Z.min 50 100))) with (500 * v * 100) by lia.
  by rewrite Z.div_mul.
Qed.

Lemma half_want s : half_scale s -> next_outbound_htlc_limit_msat s <= 1000 * channel_value_satoshis s ->
  1000 * channel_value_satoshis s - next_outbound_htlc_limit_msat s <= 1000 * want_grow_sats s
    < 1000 * channel_value_satoshis s - next_outbound_htlc_limit_msat s + 1000.
Proof.
  intros Hs Hl. unfold want_grow_sats. rewrite (half_ceiling s Hs). destruct Hs as (_ & Hv & Hm).
  unfold sat. cbn [imin imax u64]. set (v := channel_value_satoshis s) in *. set (l := next_outbound_htlc_limit_msat s) in *.
  replace (Z.max 0 (Z.min 18446744073709551615 (500 * v * 2))) with (1000 * v) by lia.
  replace (Z.max 0 (Z.min 18446744073709551615 (1000 * v - l))) with (1000 * v - l) by lia.
  pose proof (Z.div_mod (1000 * v - l + 999) 1000). pose proof (Z.mod_pos_bound (1000 * v - l + 999) 1000). lia.
Qed.

(** What is left over one full swap-in after the whole growth: half of what there was
    before, to within half a satoshi.  A drained channel is left with none. *)
Lemma headroom_after s : half_scale s -> channel_value_satoshis s <= CHANNEL_MAX_FUNDING_SATS -> next_outbound_htlc_limit_msat s < per_swap_ceiling_msat s ->
  let s' := grown s (want_grow_sats s) in
  let left := next_outbound_htlc_limit_msat s' - per_swap_ceiling_msat s' in
  next_outbound_htlc_limit_msat s <= 2 * left < next_outbound_htlc_limit_msat s + 1000.
Proof.
  intros Hs Hc Hl s' left. unfold CHANNEL_MAX_FUNDING_SATS in Hc. rewrite half_ceiling in Hl by done.
  pose proof Hs as (Hp & Hv & Hm). pose proof (half_want s Hs ltac:(lia)) as Hw.
  assert (half_scale s') as Hs'.
  { unfold half_scale, s', grown; cbn. split_and!; [done|lia..]. }
  subst left. rewrite (half_ceiling s' Hs'). unfold s', grown. cbn. lia.
Qed.

(** A channel of less than the floor can never be grown: its whole deficit is below it. *)
Lemma small_channel_never_grown s w cfg cap g : half_scale s ->
  channel_value_satoshis s < MIN_ECONOMIC_GROW_SATS -> decide_splice s w cfg cap <> Splice g.
Proof.
  intros Hs Hv E. apply decide_splice_iff in E as (_ & _ & Hl & Hw & _). rewrite half_ceiling in Hl by done.
  pose proof Hs as (_ & ? & ?). pose proof (half_want s Hs ltac:(lia)).
  unfold MIN_ECONOMIC_GROW_SATS in *. lia.
Qed.

(** And the reason given is the cap, with the cap and the wallet both far away. *)
Lemma small_channel_blames_cap :
  decide_splice (mkSnap 200000 0 HOP_MAX_INBOUND_IN_FLIGHT_PCT true) 1000000000 default_config CHANNEL_MAX_FUNDING_SATS
  = Blocked (ChannelCapReached 200000).
Proof. done. Qed.

(** * The slots: lemmas *)
Lemma self_release_other active cid d t : cid <> d -> cid ∈ active -> cid ∈ self_release active d t.
Proof. intros Hne Hin. unfold self_release. repeat case_match; set_solver. Qed.

Lemma rebalance_one_keeps cfg active c t cid : cid ∈ active ->
  let r := rebalance_one cfg active c t in cid ∈ r.1 /\ forall d g, r.2 = Some (d, g) -> d <> cid.
Proof.
  intros Hin r. subst r. unfold rebalance_one. case_bool_decide as Hc; [by split|].
  assert (cid <> channel_id c) as Hne by congruence.
  destruct (decide_splice _ _ _ _) as [|g|r]; [|case_match|]; cbn [fst snd]; split; try (intros; congruence);
    apply self_release_other; set_solver.
Qed.

Lemma rebalance_loop_keeps cfg chans turns active cid : cid ∈ active ->
  let r := rebalance_loop cfg active chans turns in cid ∈ r.1 /\ forall g, (cid, g) ∉ r.2.
Proof.
  revert turns active. induction chans as [|c chans IH]; intros turns active Hin; cbn [rebalance_loop].
  { split; [done|]. intros g. apply not_elem_of_nil. }
  pose proof (rebalance_one_keeps cfg active c (turns O) cid Hin) as [Hin' Hs].
  destruct (rebalance_one cfg active c (turns O)) as [a1 started]. cbn [fst snd] in *.
  specialize (IH (fun n => turns (S n)) a1 Hin'). destruct (rebalance_loop cfg a1 chans _) as [a2 log]. cbn [fst snd] in *.
  destruct IH as [IHi IHl]. split; [done|]. intros g Hg. apply elem_of_app in Hg as [Hg|Hg]; [|by apply (IHl g)].
  destruct started as [[d g']|]; cbn in Hg; [|by apply not_elem_of_nil in Hg].
  apply list_elem_of_singleton in Hg. injection Hg as -> ->. by apply (Hs d g').
Qed.

(** A pass starts no splice on a channel whose slot is taken, and never two on one channel
    it has not seen resolved. *)
Lemma started_claims cfg active c t d g : (rebalance_one cfg active c t).2 = Some (d, g) ->
  d = channel_id c /\ (d ∉ active) /\
  decide_splice (snapshot_of c) (confirmed t) cfg CHANNEL_MAX_FUNDING_SATS = Splice g /\
  (d ∈ (rebalance_one cfg active c t).1 \/
   exists c', find_channel d (relist t) = Some c' /\
     per_swap_ceiling_msat (snapshot_of c') <= next_outbound_htlc_limit_msat (snapshot_of c')).
Proof.
  unfold rebalance_one. case_bool_decide as Hc; [done|].
  destruct (decide_splice _ _ _ _) as [|g'|r] eqn:E; [done| |done]. case_match; [|done]. cbn [fst snd].
  intros Hs. injection Hs as <- <-. split_and!; [done..|].
  unfold self_release. rewrite bool_decide_true by set_solver.
  destruct (find_channel (channel_id c) (relist t)) as [c'|] eqn:Ef; [|left; set_solver].
  destruct (andb _ _) eqn:El; [|left; set_solver]. right. exists c'. split; [done|].
  apply andb_true_iff in El as [_ El]. by apply Z.leb_le.
Qed.

(** * Starting a splice: lemmas *)
Definition is_p2tr (spk : list Z) : bool :=
  match spk with
  | a :: b :: _ => (length spk =? 34)%nat && (a =? 81) && (b =? 32)
  | _ => false
  end.

Lemma p2tr_not_p2wpkh spk : is_p2tr spk = true -> is_p2wpkh spk = false.
Proof.
  destruct spk as [|a [|b spk]]; cbn [is_p2tr is_p2wpkh]; try done.
  rewrite !andb_true_iff, !Z.eqb_eq. intros [[_ ->] _]. by rewrite andb_false_r.
Qed.

Lemma insert_by_height_perm u l : Permutation (insert_by_height u l) (u :: l).
Proof.
  induction l as [|v l IH]; cbn; [done|]. case_match; [done|]. rewrite IH. apply Permutation_swap.
Qed.

Lemma sort_by_height_perm l : Permutation (sort_by_height l) l.
Proof. induction l as [|u l IH]; cbn; [done|]. by rewrite insert_by_height_perm, IH. Qed.

Abbreviation by_height := (fun u v => height_key u <= height_key v).

Lemma insert_by_height_sorted u l : StronglySorted by_height l -> StronglySorted by_height (insert_by_height u l).
Proof.
  intros H. induction H as [|v m Hm IHm Hv]; cbn; [repeat constructor|].
  destruct (Z.leb_spec (height_key u) (height_key v)).
  - constructor; [by constructor|]. constructor; [done|]. eapply Forall_impl; [exact Hv|]. cbn. lia.
  - constructor; [done|]. rewrite insert_by_height_perm. constructor; [lia|done].
Qed.

(** The outputs come oldest first. *)
Lemma sort_by_height_sorted l : StronglySorted by_height (sort_by_height l).
Proof. induction l; cbn; [constructor|]. by apply insert_by_height_sorted. Qed.

Section Inputs.
Context {PrevTx FundingTxInput : Type} (get_tx : list Z -> option (option PrevTx)).
Context (new_p2tr_key_spend : PrevTx -> Z -> option FundingTxInput) (splice_channel : Z -> list FundingTxInput -> Z -> bool).
Abbreviation select := (select_inputs PrevTx FundingTxInput get_tx new_p2tr_key_spend).
Abbreviation initiate := (initiate_splice PrevTx FundingTxInput get_tx new_p2tr_key_spend splice_channel).

Lemma select_skips target utxos inputs total :
  Forall (fun u => is_p2wpkh (script_pubkey u) = false) utxos -> select target utxos inputs total = inl (inputs, total).
Proof.
  intros H. induction H as [|u utxos Hu _ IH]; cbn; [done|]. case_match; [done|]. by rewrite Hu.
Qed.

(** The documented behaviour of the two services: an input is made only of an output that
    is P2TR, and the explorer returns the transaction that made the wallet's output. *)
Context (output_script : PrevTx -> Z -> option (list Z)).
Hypothesis spend_is_p2tr : forall t v i, new_p2tr_key_spend t v = Some i ->
  exists spk, output_script t v = Some spk /\ is_p2tr spk = true.

Lemma select_none target utxos inputs total r :
  (forall u t, u ∈ utxos -> get_tx (op_txid u) = Some (Some t) -> output_script t (op_vout u) = Some (script_pubkey u)) ->
  select target utxos inputs total = inl r -> r = (inputs, total).
Proof.
  intros Hu. induction utxos as [|u utxos IH]; cbn; [congruence|].
  assert (forall v t, v ∈ utxos -> get_tx (op_txid v) = Some (Some t) -> output_script t (op_vout v) = Some (script_pubkey v))
    as Hu' by (intros; apply Hu; [by apply list_elem_of_further|done]).
  case_match; [congruence|]. destruct (is_p2wpkh (script_pubkey u)) eqn:Ew; cbn [negb]; [|auto].
  destruct (get_tx (op_txid u)) as [[t|]|] eqn:Et; [|done..].
  destruct (new_p2tr_key_spend t (op_vout u)) as [i|] eqn:Ei; [|done]. exfalso.
  apply spend_is_p2tr in Ei as (spk & Ho & Hp). rewrite (Hu u t (list_elem_of_here _ _) Et) in Ho. injection Ho as <-.
  apply p2tr_not_p2wpkh in Hp. congruence.
Qed.

(** Whatever the wallet holds, no splice is ever started. *)
Lemma splice_in_refused reserved utxos grow rate : 0 <= grow ->
  (forall u t, u ∈ utxos -> get_tx (op_txid u) = Some (Some t) -> output_script t (op_vout u) = Some (script_pubkey u)) ->
  exists e, initiate reserved utxos grow rate = inr e.
Proof.
  intros Hg Hu. unfold initiate_splice. destruct (select _ _ _ _) as [[inputs total]|e] eqn:E; [|by exists e].
  apply select_none in E; [|intros u t; rewrite sort_by_height_perm; unfold spendable_utxos;
    rewrite !list_elem_of_filter; intros (_ & _ & ?); by apply Hu].
  injection E as -> ->. assert (0 < sat u64 (grow + 20000)) by (unfold sat; cbn [imin imax u64]; lia).
  rewrite (proj2 (Z.leb_gt _ _)) by done. by eexists.
Qed.
End Inputs.

(** * Properties *)

(** The bounds of a growth.  When a splice is decided, the channel is live and cannot
    forward a full swap-in; the growth is at least the economic floor, keeps the channel within
    its cap and the wallet above its force-close reserve, and is exactly the deficit cut
    to those two.  Conversely a splice is decided whenever the deficit and both margins reach
    the floor. *)
Theorem splice_decision_bounded s w cfg cap :
  in_range u64 (channel_value_satoshis s) -> in_range u64 w -> in_range u64 (wallet_reserve_sats cfg) ->
  in_range u64 cap -> 0 <= next_outbound_htlc_limit_msat s ->
  let headroom := cap - channel_value_satoshis s in
  let spendable := w - wallet_reserve_sats cfg in
  (forall g, decide_splice s w cfg cap = Splice g ->
     is_usable s = true /\ next_outbound_htlc_limit_msat s < per_swap_ceiling_msat s /\
     MIN_ECONOMIC_GROW_SATS <= g /\ channel_value_satoshis s + g <= cap /\ g + wallet_reserve_sats cfg <= w /\
     g = Z.min (want_grow_sats s) (Z.min headroom spendable)) /\
  (is_usable s = true -> next_outbound_htlc_limit_msat s < per_swap_ceiling_msat s ->
   MIN_ECONOMIC_GROW_SATS <= Z.min (want_grow_sats s) (Z.min headroom spendable) ->
   exists g, decide_splice s w cfg cap = Splice g).
Proof.
  intros Hv Hw Hr Hc Hl headroom spendable. subst headroom spendable. unfold in_range in *. cbn [imin imax u64] in *.
  assert (forall x, x <= 18446744073709551615 -> sat u64 x = Z.max 0 x) as Hsat by (intros; unfold sat; cbn; lia).
  split.
  - intros g E. apply decide_splice_iff in E as (Hu & _ & Ht & Hwant & Hh & Hs & ->).
    unfold MIN_ECONOMIC_GROW_SATS in *. rewrite !Hsat in * by lia. split_and!; try done; lia.
  - intros Hu Ht Hm. eexists. apply decide_splice_iff. unfold MIN_ECONOMIC_GROW_SATS in *.
    rewrite !Hsat by lia. split_and!; try done; lia.
Qed.

(** A claimed slot is never given back.  Once a channel's slot is claimed when a pass
    begins, it is claimed after every later pass, whatever the channel, the wallet and the
    peer do in between, and no later pass starts a splice on that channel: the release that is meant
    to follow a locked splice is out of reach. *)
Theorem slot_never_freed cfg pk envs active cid : cid ∈ active ->
  let r := ticks cfg pk envs active in cid ∈ r.1 /\ forall g, (cid, g) ∉ r.2.
Proof.
  revert active. induction envs as [|[chans turns] envs IH]; intros active Hin; cbn [ticks].
  { split; [done|]. intros g. apply not_elem_of_nil. }
  pose proof (rebalance_loop_keeps cfg (filter (fun c => counterparty c = pk) chans) turns active cid Hin) as [Hi Hl].
  unfold rebalance_capacity_tick. destruct (rebalance_loop _ _ _ _) as [a1 l1]. cbn [fst snd] in *.
  specialize (IH a1 Hi). destruct (ticks cfg pk envs a1) as [a2 l2]. cbn [fst snd] in *. destruct IH as [IHi IHl].
  split; [done|]. intros g Hg. apply elem_of_app in Hg as [Hg|Hg]; [by apply (Hl g)|by apply (IHl g)].
Qed.

(** The wallet's own outputs are all taproot, and the loop that gathers inputs for a
    splice takes only P2WPKH ones: whatever the wallet holds and the explorer answers, it gathers
    nothing and the splice is refused for want of funds. *)
Theorem splice_in_never_starts PrevTx FundingTxInput get_tx new_p2tr_key_spend splice_channel reserved utxos grow rate :
  Forall (fun u => is_p2tr (script_pubkey u) = true) utxos -> 0 <= grow ->
  initiate_splice PrevTx FundingTxInput get_tx new_p2tr_key_spend splice_channel reserved utxos grow rate
  = inr InsufficientFunds.
Proof.
  intros Hu Hg. unfold initiate_splice. rewrite select_skips.
  - assert (0 < sat u64 (grow + 20000)) by (unfold sat; cbn [imin imax u64]; lia).
    by rewrite (proj2 (Z.leb_gt _ _)).
  - rewrite sort_by_height_perm. unfold spendable_utxos. rewrite Forall_forall in *.
    intros u. rewrite !list_elem_of_filter. intros (_ & _ & Hin). by apply p2tr_not_p2wpkh, Hu.
Qed.

(** ** Witnesses *)
Module RebalanceSample.
Definition drained : ChannelSnapshot := mkSnap 1000000 0 HOP_MAX_INBOUND_IN_FLIGHT_PCT true.
Definition chan (limit : Z) : ChannelDetails := mkDetails [1] [2] 1000000 limit true.
(** A pass that starts a splice, and one after the splice has locked. *)
Definition first : list ChannelDetails * (nat -> Turn) := ([chan 0], fun _ => mkTurn 10000000 true [chan 0]).
Definition later : list ChannelDetails * (nat -> Turn) := ([chan 1000000000], fun _ => mkTurn 10000000 true [chan 1000000000]).
Definition utxo : LocalOutput := mkOutput [3] 0 100000000 ([81; 32] ++ replicate 32 7) (Some 800000).

(** The first pass claims the slot; the channel is healthy again and the slot is not freed. *)
Lemma claimed_by_first : ticks default_config [2] [first] ∅ = ({[ [1] ]}, [([1], 1000000)]).
Proof. by vm_compute. Qed.
End RebalanceSample.

Lemma splice_decision_bounded_witness :
  decide_splice RebalanceSample.drained 310000 default_config CHANNEL_MAX_FUNDING_SATS = Splice 300000 /\
  300000 + wallet_reserve_sats default_config <= 310000.
Proof.
  assert (decide_splice RebalanceSample.drained 310000 default_config CHANNEL_MAX_FUNDING_SATS = Splice 300000) as E by done.
  split; [exact E|].
  refine (proj1 (proj2 (proj2 (proj2 (proj2 (proj1 (splice_decision_bounded RebalanceSample.drained 310000 default_config
    CHANNEL_MAX_FUNDING_SATS _ _ _ _ _) 300000 E)))))); by vm_compute.
Defined.

Lemma slot_never_freed_witness :
  [1] ∈ (ticks default_config [2] [RebalanceSample.later; RebalanceSample.first]
          (ticks default_config [2] [RebalanceSample.first] ∅).1).1.
Proof.
  refine (proj1 (slot_never_freed default_config [2] [RebalanceSample.later; RebalanceSample.first] _ [1] _)).
  by vm_compute.
Defined.

Lemma splice_in_never_starts_witness :
  initiate_splice unit unit (fun _ => Some (Some tt)) (fun _ _ => Some tt) (fun _ _ _ => true) [] [RebalanceSample.utxo] 300000 2000
  = inr InsufficientFunds.
Proof. apply splice_in_never_starts; [by repeat constructor|lia]. Defined.
