(* ===== verification/LevKeeper.v ===== *)
(** * LevKeeper: the leverage keepers' decisions and passes

    [quid-ln/quid-bridge/src/lev_keeper.rs] up to its chain binding (the decision, the dwell
    timer, the ETH pass, the compound sweep, the open set read from logs, the venue scores),
    the pass of [lev_keeper_btc.rs], and [get_logs_chunked] of [eth_logs.rs].

    A pass is its trace of calls: what the chain answers to a call is a parameter that may
    depend on every call before it.  Addresses are byte lists. *)
From stdpp Require Import gmap list.
From S2P Require Import Prelude Pool Chain.
Open Scope list_scope.

Abbreviation LpAddr := (list Z).

(** ** The decision *)
Record LevKeeperConfig := mkKeeperConfig {
  poll_interval_secs : Z; target_range_bps : Z; safety_margin_bps : Z; min_rebalance_usd : Z
}.
Definition default_keeper : LevKeeperConfig := mkKeeperConfig 300 300 1500 50000000.

Record PositionView := mkView {
  current_ltv_bps : Z; il_ltv_bps : Z; target_ltv_bps : Z; pool_ltv_bps : Z; venue_liq_ltv_bps : Z;
  collateral_usd : Z; deliverable_floor_ok : bool; move_persisted : bool; mature_quid_usd : Z; wbtc_mode : bool
}.
#[export] Instance view_eta : Eta PositionView := fun r => mkView
  (current_ltv_bps r) (il_ltv_bps r) (target_ltv_bps r) (pool_ltv_bps r) (venue_liq_ltv_bps r)
  (collateral_usd r) (deliverable_floor_ok r) (move_persisted r) (mature_quid_usd r) (wbtc_mode r).

Inductive KeeperAction :=
  | Hold
  | DeLever (to_ltv_bps : Z) (urgent : bool)
  | ReLever (to_ltv_bps : Z)
  | ProtectFromQuid (repay_usd : Z).

Definition repay_to_target_usd (v : PositionView) : Z :=
  let cur := current_ltv_bps v in
  let tgt := target_ltv_bps v in
  if (cur <=? tgt) || (10000 <=? cur) then 0 else
  let collateral := sat u64 (collateral_usd v * 10000) / (10000 - cur) in
  sat u64 (collateral * (cur - tgt)) / 10000.

Definition economic (v : PositionView) (cfg : LevKeeperConfig) : bool :=
  let gap_bps := Z.abs (il_ltv_bps v - target_ltv_bps v) in
  let move_usd := sat u64 (collateral_usd v * gap_bps) / 10000 in
  min_rebalance_usd cfg <=? move_usd.

Definition upper (v : PositionView) (cfg : LevKeeperConfig) : Z := sat u32 (target_ltv_bps v + target_range_bps cfg).
Definition lower (v : PositionView) (cfg : LevKeeperConfig) : Z := sat u32 (target_ltv_bps v - target_range_bps cfg).
Definition urgent_threshold (v : PositionView) (cfg : LevKeeperConfig) : Z :=
  sat u32 (venue_liq_ltv_bps v - safety_margin_bps cfg).

Definition decide (v : PositionView) (cfg : LevKeeperConfig) : KeeperAction :=
  if urgent_threshold v cfg <=? Z.max (pool_ltv_bps v) (current_ltv_bps v) then
    let repay := Z.min (repay_to_target_usd v) (mature_quid_usd v) in
    if (0 <? mature_quid_usd v) && (0 <? repay) then ProtectFromQuid repay
    else DeLever (target_ltv_bps v) true
  else if negb (move_persisted v) then Hold
  else if upper v cfg <? il_ltv_bps v then
    if negb (economic v cfg) then Hold else DeLever (target_ltv_bps v) false
  else if (il_ltv_bps v <? lower v cfg) && deliverable_floor_ok v && economic v cfg then ReLever (target_ltv_bps v)
  else Hold.

Definition out_of_range (v : PositionView) (cfg : LevKeeperConfig) : bool :=
  (upper v cfg <? il_ltv_bps v) || (il_ltv_bps v <? lower v cfg).

(** ** The dwell timer *)
Abbreviation DwellTracker := (gmap (list Z) Z).
Definition persisted (d : DwellTracker) (lp : LpAddr) (out : bool) (now dwell : Z) : DwellTracker * bool :=
  if negb out then (delete lp d, false)
  else match d !! lp with
       | Some t0 => (d, dwell <=? sat u64 (now - t0))
       | None => (<[lp := now]> d, dwell <=? sat u64 (now - now))
       end.

(** ** The pass *)
Inductive Call :=
  | CProtect (lp : LpAddr) (repay_usd : Z)
  | CRebalance (lp : LpAddr)
  | CSync (lp : LpAddr)
  | CRebalanceWbtc (lp : LpAddr)
  | CDebtDelta (lp : LpAddr)
  | CCompound (lp : LpAddr).

Record Sorted3 := mkSorted { s_urgent : list LpAddr; s_protect : list (LpAddr * Z); s_rebal : list LpAddr }.

Section Pass.
(** Whether a call succeeds, given the calls already made. *)
Variable reply : list Call -> Call -> bool.
Variable position_view : LpAddr -> option PositionView.
Variable cfg : LevKeeperConfig.
Variables now dwell_secs : Z.

Definition observe (d : DwellTracker) (lp : LpAddr) (v : PositionView) : DwellTracker * PositionView :=
  let '(d, p) := persisted d lp (out_of_range v cfg) now dwell_secs in (d, v <| move_persisted := p |>).

Fixpoint sort_positions (d : DwellTracker) (lps : list LpAddr) (acc : Sorted3) : DwellTracker * Sorted3 :=
  match lps with
  | [] => (d, acc)
  | lp :: lps =>
      match position_view lp with
      | None => sort_positions d lps acc
      | Some v =>
          let '(d, v) := observe d lp v in
          sort_positions d lps
            match decide v cfg with
            | ProtectFromQuid repay => mkSorted (s_urgent acc) (s_protect acc ++ [(lp, repay)]) (s_rebal acc)
            | DeLever _ true => mkSorted (s_urgent acc ++ [lp]) (s_protect acc) (s_rebal acc)
            | DeLever _ false | ReLever _ => mkSorted (s_urgent acc) (s_protect acc) (s_rebal acc ++ [lp])
            | Hold => acc
            end
      end
  end.

(** A call, and the one that follows it when it succeeds. *)
Definition call_then (c : Call) (next : option Call) (tr : list Call) : list Call :=
  if reply tr c then tr ++ c :: from_option (fun n => [n]) [] next else tr ++ [c].

Fixpoint run_all {A} (first : A -> Call) (next : A -> option Call) (l : list A) (tr : list Call) : list Call :=
  match l with
  | [] => tr
  | x :: l => run_all first next l (call_then (first x) (next x) tr)
  end.
Definition run_protect := run_all (fun p : LpAddr * Z => CProtect p.1 p.2) (fun p => Some (CSync p.1)).
Definition run_urgent := run_all CRebalance (fun lp => Some (CSync lp)).
Definition run_rebal := run_all CRebalance (fun _ => None).

(** [None]: the open set could not be read, and nothing is done. *)
Definition tick (open_positions : option (list LpAddr)) (d : DwellTracker) : DwellTracker * list Call :=
  match open_positions with
  | None => (d, [])
  | Some lps =>
      let '(d, s) := sort_positions d lps (mkSorted [] [] []) in
      (d, run_rebal (s_rebal s) (run_urgent (s_urgent s) (run_protect (s_protect s) [])))
  end.
End Pass.

(** ** The compound sweep *)
Definition COMPOUND_GAS : Z := 200000.
Definition compound_pays_for_itself (pending_wei gas_price_wei : Z) : bool :=
  sat u128 (gas_price_wei * COMPOUND_GAS) <=? pending_wei / 2.
Fixpoint compound_tick (pending_and_gas : LpAddr -> option (Z * Z)) (lps : list LpAddr) : list Call :=
  match lps with
  | [] => []
  | lp :: lps =>
      match pending_and_gas lp with
      | Some (pending, gas) =>
          if compound_pays_for_itself pending gas then CCompound lp :: compound_tick pending_and_gas lps
          else compound_tick pending_and_gas lps
      | None => compound_tick pending_and_gas lps
      end
  end.

(** ** The BTC pass *)
Record Sorted5 := mkSorted5 {
  b_urgent : list LpAddr; b_protect : list (LpAddr * Z); b_delever : list LpAddr; b_relever : list LpAddr; b_wbtc : list LpAddr
}.
Definition btc_sort (lp : LpAddr) (v : PositionView) (a : KeeperAction) (s : Sorted5) : Sorted5 :=
  let '(mkSorted5 u p dl rl w) := s in
  if wbtc_mode v then
    match a with
    | ProtectFromQuid repay => mkSorted5 u (p ++ [(lp, repay)]) dl rl w
    | Hold => s
    | _ => mkSorted5 u p dl rl (w ++ [lp])
    end
  else
    match a with
    | ProtectFromQuid repay => mkSorted5 u (p ++ [(lp, repay)]) dl rl w
    | DeLever _ true => mkSorted5 (u ++ [lp]) p dl rl w
    | DeLever _ false => mkSorted5 u p (dl ++ [lp]) rl w
    | ReLever _ => mkSorted5 u p dl (rl ++ [lp]) w
    | Hold => s
    end.

Section BtcPass.
Variable reply : list Call -> Call -> bool.
Variable position_view : LpAddr -> option PositionView.
Variable cfg : LevKeeperConfig.
Variables now dwell_secs : Z.

Fixpoint btc_sort_positions (d : DwellTracker) (lps : list LpAddr) (acc : Sorted5) : DwellTracker * Sorted5 :=
  match lps with
  | [] => (d, acc)
  | lp :: lps =>
      match position_view lp with
      | None => btc_sort_positions d lps acc
      | Some v => let '(d, v) := observe cfg now dwell_secs d lp v in btc_sort_positions d lps (btc_sort lp v (decide v cfg) acc)
      end
  end.

(** The native rail is not wired: [do_delever] and [do_relever] read the debt and send nothing. *)
Definition do_native := run_all reply CDebtDelta (fun _ => None).
Definition btc_tick (open_positions : option (list LpAddr)) (d : DwellTracker) : DwellTracker * list Call :=
  match open_positions with
  | None => (d, [])
  | Some lps =>
      let '(d, s) := btc_sort_positions d lps (mkSorted5 [] [] [] [] []) in
      let tr := run_all reply (fun p => CProtect p.1 p.2) (fun _ => None) (b_protect s) [] in
      let tr := run_all reply CRebalanceWbtc (fun _ => None) (b_wbtc s) tr in
      (d, do_native (b_relever s) (do_native (b_delever s) (do_native (b_urgent s) tr)))
  end.
End BtcPass.

Definition usd_to_vbtc_sats (usd_1e18 px : Z) : Z :=
  if px =? 0 then 0 else sat u64 (sat u128 (usd_1e18 * 100000000) / px).

(** ** The open set, from logs *)
Record Log := mkLog { topics : list (list Z); block : Z }.

Section Logs.
(** One [eth_getLogs]: [None] a failed call, [Some None] an answer that is not a list. *)
Variable rpc_logs : Z -> Z -> option (option (list Log)).
Fixpoint logs_loop (fuel : nat) (start to step : Z) (out : list Log) : option (list Log) :=
  if start <=? to then
    match fuel with
    | O => None
    | S fuel =>
        let end_ := Z.min (sat u64 (start + (step - 1))) to in
        logs ← rpc_logs start end_;
        let out := out ++ default [] logs in
        if end_ =? to then Some out else logs_loop fuel (end_ + 1) to step out
    end
  else Some out.
Definition get_logs_chunked (from to span : Z) : option (list Log) :=
  let step := Z.max span 1 in logs_loop (Z.to_nat ((to - from) / step) + 1) from to step [].
End Logs.

Definition log_lp (l : Log) : option LpAddr := drop 12 <$> topics l !! 1%nat.
Definition book_log (is_open : bool) (last : gmap LpAddr (Z * bool)) (l : Log) : gmap LpAddr (Z * bool) :=
  match log_lp l with
  | None => last
  | Some lp =>
      match last !! lp with
      | Some (b, _) =>
          if is_open && (block l <=? b) then last
          else if negb is_open && (block l <? b) then last
          else <[lp := (block l, is_open)]> last
      | None => <[lp := (block l, is_open)]> last
      end
  end.
Definition book (opened closed : list Log) : gmap LpAddr (Z * bool) :=
  foldl (book_log false) (foldl (book_log true) ∅ opened) closed.
Definition LP_LOG_SPAN : Z := 10000.
Definition open_lps_from_logs (opened_logs closed_logs : Z -> Z -> option (option (list Log))) (from tip : Z) : option (list LpAddr) :=
  opened ← get_logs_chunked opened_logs from tip LP_LOG_SPAN;
  closed ← get_logs_chunked closed_logs from tip LP_LOG_SPAN;
  Some (map fst (filter (fun p => p.2.2 = true) (map_to_list (book opened closed)))).

(** ** Venue scores *)
Record VenueQuote := mkQuote { venue : LpAddr; borrow_rate_ray : Z; route_cost_bps : Z; fundable : bool }.
Definition checked_u128 (x : Z) : option Z := if in_rangeb u128 x then Some x else None.
Definition score_bps (q : VenueQuote) (horizon_days : Z) : option Z :=
  if negb (fundable q) then None else
  scaled ← checked_u128 (borrow_rate_ray q * 10000);
  carried ← checked_u128 (scaled / 10 ^ 27 * horizon_days);
  Some (carried / 365 + route_cost_bps q).
Definition better (best : option (LpAddr * Z * Z)) (s rc : Z) : bool :=
  match best with
  | None => true
  | Some (_, bs, brc) => (s <? bs) || ((s =? bs) && (rc <? brc))
  end.
Definition pick_loop (horizon_days : Z) (best : option (LpAddr * Z * Z)) (qs : list VenueQuote) : option (LpAddr * Z * Z) :=
  foldl (fun best q => match score_bps q horizon_days with
                       | Some s => if better best s (route_cost_bps q) then Some (venue q, s, route_cost_bps q) else best
                       | None => best
                       end) best qs.
Definition pick_cheapest (qs : list VenueQuote) (horizon_days : Z) : option (LpAddr * Z) :=
  fst <$> pick_loop horizon_days None qs.

(** * The decision: lemmas *)
Definition is_urgent (v : PositionView) (cfg : LevKeeperConfig) : bool :=
  urgent_threshold v cfg <=? Z.max (pool_ltv_bps v) (current_ltv_bps v).

(** Near liquidation nothing holds the keeper back: not the dwell, not the floor, not the
    size of the move. *)
Lemma decide_urgent v cfg : is_urgent v cfg = true ->
  decide v cfg = DeLever (target_ltv_bps v) true \/
  exists r, decide v cfg = ProtectFromQuid r /\ 0 < r <= mature_quid_usd v /\ r <= repay_to_target_usd v.
Proof.
  unfold is_urgent, decide. intros ->. cbn zeta. destruct (_ && _) eqn:E; [right|by left].
  apply andb_true_iff in E as [E1 E2]. apply Z.ltb_lt in E1, E2. eexists. split; [done|]. lia.
Qed.

(** Elsewhere a move needs the dwell, the range and the size, and upward the floor too. *)
Lemma decide_calm v cfg : is_urgent v cfg = false ->
  match decide v cfg with
  | Hold => True
  | DeLever t u => u = false /\ t = target_ltv_bps v /\ move_persisted v = true /\ upper v cfg < il_ltv_bps v /\
      economic v cfg = true
  | ReLever t => t = target_ltv_bps v /\ move_persisted v = true /\ il_ltv_bps v < lower v cfg /\
      deliverable_floor_ok v = true /\ economic v cfg = true
  | ProtectFromQuid _ => False
  end.
Proof.
  unfold is_urgent, decide. intros ->. destruct (move_persisted v); cbn [negb]; [|done].
  destruct (Z.ltb_spec (upper v cfg) (il_ltv_bps v)).
  { destruct (economic v cfg) eqn:E; cbn [negb]; by split_and?. }
  destruct (_ && _) eqn:E; [|done]. apply andb_true_iff in E as [E E3]. apply andb_true_iff in E as [E1 E2].
  apply Z.ltb_lt in E1. by split_and!.
Qed.

(** The dwell decides nothing near liquidation. *)
Lemma decide_urgent_dwell v cfg p : is_urgent v cfg = true -> decide (v <| move_persisted := p |>) cfg = decide v cfg.
Proof. unfold is_urgent, decide. cbn. intros H. unfold urgent_threshold in *. cbn in *. rewrite H. done. Qed.

Lemma is_urgent_dwell v cfg p : is_urgent (v <| move_persisted := p |>) cfg = is_urgent v cfg.
Proof. done. Qed.

(** An alarm of the pool is answered by moving every position to its own target, and a
    position below its target has to be levered up for that. *)
Lemma pool_alarm_levers_up v cfg : urgent_threshold v cfg <= pool_ltv_bps v ->
  current_ltv_bps v <= target_ltv_bps v -> il_ltv_bps v < target_ltv_bps v ->
  exists t, decide v cfg = DeLever t true /\ il_ltv_bps v < t.
Proof.
  intros Hp Hc Hi. exists (target_ltv_bps v). split; [|done].
  destruct (decide_urgent v cfg) as [E|(r & _ & Hr & Hr')].
  - unfold is_urgent. apply Z.leb_le. lia.
  - done.
  - exfalso. unfold repay_to_target_usd in Hr'. rewrite (proj2 (Z.leb_le _ _)) in Hr' by done. cbn in Hr'. lia.
Qed.

(** * The pass: lemmas *)
Section PassFacts.
Variable reply : list Call -> Call -> bool.
Variable position_view : LpAddr -> option PositionView.
Variable cfg : LevKeeperConfig.
Variables now dwell_secs : Z.
Abbreviation pass := (tick reply position_view cfg now dwell_secs).

Lemma run_all_spec {A} (first : A -> Call) next l tr : exists suf, run_all reply first next l tr = tr ++ suf /\
  (forall x, x ∈ l -> first x ∈ suf) /\ (forall c, c ∈ suf -> exists x, x ∈ l /\ (c = first x \/ next x = Some c)).
Proof.
  revert tr. induction l as [|x l IH]; intros tr; cbn [run_all].
  { exists []. rewrite app_nil_r. split_and!; [done|..]; intros x Hx; by apply not_elem_of_nil in Hx. }
  assert (exists s1, call_then reply (first x) (next x) tr = tr ++ s1 /\ first x ∈ s1 /\
    forall c, c ∈ s1 -> c = first x \/ next x = Some c) as (s1 & -> & H1 & H2).
  { unfold call_then. case_match; eexists; (split; [done|]); (split; [apply list_elem_of_here|]); intros c;
    [destruct (next x) as [n|]; cbn; [rewrite elem_of_cons|]|]; rewrite list_elem_of_singleton; intuition congruence. }
  destruct (IH (tr ++ s1)) as (s2 & -> & H3 & H4). exists (s1 ++ s2). rewrite <- app_assoc. split_and!; [done|..].
  - intros y. rewrite elem_of_cons, elem_of_app. intros [->|]; auto.
  - intros c. rewrite elem_of_app. intros [Hc|Hc].
    + exists x. split; [apply list_elem_of_here|auto].
    + destruct (H4 c Hc) as (y & ? & ?). exists y. split; [by apply list_elem_of_further|done].
Qed.

(** What an action near liquidation is, read off the view alone. *)
Definition urgent_b (v : PositionView) : bool := match decide v cfg with DeLever _ true => true | _ => false end.
Definition protect_b (v : PositionView) : option Z := match decide v cfg with ProtectFromQuid r => Some r | _ => None end.
Definition urgent_lp (lp : LpAddr) : bool := from_option urgent_b false (position_view lp).
Definition protect_lp (lp : LpAddr) : option (LpAddr * Z) := v ← position_view lp; r ← protect_b v; Some (lp, r).

Lemma urgent_b_dwell v p : urgent_b (v <| move_persisted := p |>) = urgent_b v /\ protect_b (v <| move_persisted := p |>) = protect_b v.
Proof.
  destruct (is_urgent v cfg) eqn:E.
  - unfold urgent_b, protect_b. by rewrite decide_urgent_dwell.
  - pose proof (decide_calm v cfg E) as H1. pose proof (decide_calm (v <| move_persisted := p |>) cfg) as H2.
    rewrite is_urgent_dwell in H2. specialize (H2 E). unfold urgent_b, protect_b.
    destruct (decide v cfg) as [|? u|?|?]; [|destruct H1 as [-> _]| |done];
      (destruct (decide _ cfg) as [|? u'|?|?]; [|destruct H2 as [-> _]| |]; done).
Qed.

(** The urgent and the protected positions, in the order of the open set; the rest are neither. *)
Lemma sort_positions_spec d lps acc :
  let s := (sort_positions position_view cfg now dwell_secs d lps acc).2 in
  s_urgent s = s_urgent acc ++ filter (fun lp => urgent_lp lp = true) lps /\
  s_protect s = s_protect acc ++ omap protect_lp lps /\
  exists l, s_rebal s = s_rebal acc ++ l /\
    Forall (fun lp => lp ∈ lps /\ urgent_lp lp = false /\ protect_lp lp = None) l.
Proof.
  revert d acc. induction lps as [|lp lps IH]; intros d acc; cbn [sort_positions].
  { cbn. rewrite !app_nil_r. split_and!; [done..|]. exists []. by rewrite app_nil_r. }
  assert (forall l, Forall (fun x => x ∈ lps /\ urgent_lp x = false /\ protect_lp x = None) l ->
    Forall (fun x => x ∈ lp :: lps /\ urgent_lp x = false /\ protect_lp x = None) l) as Hmono.
  { intros l Hl. eapply Forall_impl; [exact Hl|]. intros x (? & ? & ?). split_and!; [by apply list_elem_of_further|done..]. }
  rewrite filter_cons. cbn [omap list_omap].
  destruct (position_view lp) as [v|] eqn:Ev.
  2: { assert (urgent_lp lp = false /\ protect_lp lp = None) as [-> ->] by (unfold urgent_lp, protect_lp; by rewrite Ev).
    destruct (IH d acc) as (-> & -> & l & -> & Hl). split_and!; [done..|]. exists l. auto. }
  destruct (observe cfg now dwell_secs d lp v) as [d' v'] eqn:Eo.
  assert (urgent_lp lp = urgent_b v' /\ protect_lp lp = (fun r => (lp, r)) <$> protect_b v') as [Hu Hp].
  { unfold observe in Eo. destruct (persisted _ _ _ _ _) as [? p]. injection Eo as _ <-.
    destruct (urgent_b_dwell v p) as [-> ->]. unfold urgent_lp, protect_lp. rewrite Ev. cbn. by destruct (protect_b v). }
  rewrite Hp. unfold urgent_b in Hu. unfold protect_b in Hp |- *.
  destruct (decide v' cfg) as [|t [|]|t|r] eqn:Ed; cbn in *; rewrite Hu;
    match goal with |- context [sort_positions _ _ _ _ d' lps ?a] => destruct (IH d' a) as (-> & -> & l & -> & Hl) end;
    cbn [s_urgent s_protect s_rebal].
  all: rewrite <- ?app_assoc; split_and!; try done.
  all: try (exists l; by auto).
  all: exists (lp :: l); (split; [done|]); constructor; [split_and!; [apply list_elem_of_here|done..]|auto].
Qed.

Lemma protect_b_urgent v r : protect_b v = Some r -> urgent_b v = false.
Proof. unfold protect_b, urgent_b. by case_match. Qed.

(** The trace of a pass: the protections, then the urgent positions, then the rest. *)
Lemma tick_trace lps d : exists tp tu tr,
  (pass (Some lps) d).2 = tp ++ tu ++ tr /\
  (forall c, c ∈ tp -> exists lp r, protect_lp lp = Some (lp, r) /\ (c = CProtect lp r \/ c = CSync lp)) /\
  (forall lp r, lp ∈ lps -> protect_lp lp = Some (lp, r) -> CProtect lp r ∈ tp) /\
  (forall lp, lp ∈ lps -> urgent_lp lp = true -> CRebalance lp ∈ tu) /\
  (forall c, c ∈ tu -> exists lp, urgent_lp lp = true /\ (c = CRebalance lp \/ c = CSync lp)) /\
  (forall c, c ∈ tr -> exists lp, urgent_lp lp = false /\ protect_lp lp = None /\ c = CRebalance lp).
Proof.
  unfold tick. pose proof (sort_positions_spec d lps (mkSorted [] [] [])) as (Hu & Hp & l & Hr & Hl).
  destruct (sort_positions _ _ _ _ d lps _) as [d' s]. cbn [fst snd] in *. cbn in Hu, Hp, Hr.
  destruct (run_all_spec (fun p : LpAddr * Z => CProtect p.1 p.2) (fun p => Some (CSync p.1)) (s_protect s) []) as (tp & Ep & P1 & P2).
  destruct (run_all_spec CRebalance (fun lp => Some (CSync lp)) (s_urgent s) tp) as (tu & Eu & U1 & U2).
  destruct (run_all_spec CRebalance (fun _ => None) (s_rebal s) (tp ++ tu)) as (tr & Er & R1 & R2).
  exists tp, tu, tr. unfold run_protect, run_urgent, run_rebal. rewrite Ep. cbn [app]. rewrite Eu, Er, <- app_assoc.
  rewrite Hp in P1, P2. rewrite Hu in U1, U2. rewrite Hr in R1, R2. split_and!; [done|..].
  - intros c Hc. destruct (P2 c Hc) as ([lp r] & Hin & Hor). apply list_elem_of_omap in Hin as (x & _ & Hx).
    assert (x = lp) as -> by (unfold protect_lp in Hx; destruct (position_view x) as [v|]; cbn in Hx; [destruct (protect_b v)|];
      cbn in Hx; congruence).
    exists lp, r. split; [done|]. cbn in Hor. destruct Hor as [|Hor]; [by left|right; congruence].
  - intros lp r Hin Hx. apply (P1 (lp, r)). apply list_elem_of_omap. by exists lp.
  - intros lp Hin Hx. apply U1. by apply list_elem_of_filter.
  - intros c Hc. destruct (U2 c Hc) as (lp & Hin & Hor). apply list_elem_of_filter in Hin as [Hx _].
    exists lp. split; [done|]. destruct Hor; [by left|right; congruence].
  - intros c Hc. destruct (R2 c Hc) as (lp & Hin & Hor). rewrite Forall_forall in Hl.
    destruct (Hl lp Hin) as (_ & ? & ?). exists lp. split_and!; [done..|]. by destruct Hor.
Qed.
End PassFacts.

(** A run: every pass with its own answers, views and clock. *)
Record PassEnv := mkPassEnv {
  e_reply : list Call -> Call -> bool; e_view : LpAddr -> option PositionView; e_now : Z; e_open : option (list LpAddr)
}.
Fixpoint keeper_run (cfg : LevKeeperConfig) (dwell_secs : Z) (envs : list PassEnv) (d : DwellTracker) : list Call :=
  match envs with
  | [] => []
  | e :: envs =>
      let '(d, tr) := tick (e_reply e) (e_view e) cfg (e_now e) dwell_secs (e_open e) d in
      tr ++ keeper_run cfg dwell_secs envs d
  end.

(** * The dwell: lemmas *)

(** One position's observations, oldest first: whether it was out of range, and when. *)
Fixpoint observe_all (d : DwellTracker) (lp : LpAddr) (dwell : Z) (os : list (bool * Z)) : DwellTracker :=
  match os with
  | [] => d
  | (out, now) :: os => observe_all (persisted d lp out now dwell).1 lp dwell os
  end.

(** The timer starts at the first of an unbroken row of observations out of range. *)
Lemma observe_all_start lp dwell os t0 : observe_all ∅ lp dwell os !! lp = Some t0 ->
  exists os1 os2, os = os1 ++ (true, t0) :: os2 /\ Forall (fun o => o.1 = true) os2.
Proof.
  enough (forall d, observe_all d lp dwell os !! lp = Some t0 ->
    (d !! lp = Some t0 /\ Forall (fun o => o.1 = true) os) \/
    exists os1 os2, os = os1 ++ (true, t0) :: os2 /\ Forall (fun o => o.1 = true) os2) as H.
  { intros E. destruct (H ∅ E) as [[E' _]|]; [|done]. exfalso. revert E'. exact (lookup_empty_Some (M := gmap LpAddr) lp t0). }
  induction os as [|[out now] os IH]; intros d; cbn [observe_all]; [left; by split|].
  intros E. destruct (IH _ E) as [[E' Hf]|(os1 & os2 & -> & Hf)].
  2: { right. by exists ((out, now) :: os1), os2. }
  unfold persisted in E'. destruct out; cbn [negb] in E'.
  - destruct (d !! lp) as [t|] eqn:Ed; cbn in E'.
    + left. split; [congruence|]. by constructor.
    + rewrite lookup_insert_eq in E'. injection E' as <-. right. by exists [], os.
  - cbn in E'. by rewrite lookup_delete_eq in E'.
Qed.

(** A move counts as persisted only when it was seen out of range at every observation for
    the whole dwell. *)
Lemma persisted_sound lp dwell os now : (persisted (observe_all ∅ lp dwell os) lp true now dwell).2 = true ->
  0 < dwell -> exists t0 os1 os2, os = os1 ++ (true, t0) :: os2 /\ Forall (fun o => o.1 = true) os2 /\ dwell <= now - t0.
Proof.
  unfold persisted. cbn [negb]. intros E Hd. destruct (_ !! lp) as [t0|] eqn:Et; cbn in E; apply Z.leb_le in E.
  - apply observe_all_start in Et as (os1 & os2 & -> & Hf). exists t0, os1, os2. split_and!; [done..|].
    unfold sat in E. cbn in E. lia.
  - unfold sat in E. cbn in E. lia.
Qed.

(** But time in which the position is not observed counts too: closed or unreadable, it keeps
    its start. *)
Lemma unobserved_keeps_start reply view cfg now dwell lps d lp :
  Forall (fun x => x <> lp) lps -> (tick reply view cfg now dwell (Some lps) d).1 !! lp = d !! lp.
Proof.
  intros Hl. unfold tick. set (acc := mkSorted [] [] []). clearbody acc.
  enough ((sort_positions view cfg now dwell d lps acc).1 !! lp = d !! lp) as H by (by destruct (sort_positions _ _ _ _ _ _ _)).
  revert d acc. induction Hl as [|x lps Hx _ IH]; intros d acc; cbn [sort_positions]; [done|].
  destruct (view x) as [v|]; [|apply IH]. unfold observe, persisted.
  destruct (out_of_range v cfg); cbn [negb]; [destruct (d !! x)|]; rewrite IH; try done.
  - by rewrite lookup_insert_ne.
  - by rewrite lookup_delete_ne.
Qed.

(** * The open set: lemmas *)

(** The latest block with a log of [lp]. *)
Definition last_block (lp : LpAddr) (logs : list Log) : option Z :=
  foldl (fun m l => if bool_decide (log_lp l = Some lp) then Some (match m with Some b => Z.max b (block l) | None => block l end) else m)
    None logs.

Lemma book_log_other is_open m l lp : log_lp l <> Some lp -> book_log is_open m l !! lp = m !! lp.
Proof.
  intros Hne. unfold book_log. destruct (log_lp l) as [x|]; [|done]. assert (x <> lp) by congruence.
  destruct (m !! x) as [[b ?]|]; [repeat case_match|]; rewrite ?lookup_insert_ne; done.
Qed.

Lemma book_log_own is_open m l lp : log_lp l = Some lp -> book_log is_open m l =
  match m !! lp with
  | Some (b, _) => if is_open && (block l <=? b) then m else if negb is_open && (block l <? b) then m
                   else <[lp := (block l, is_open)]> m
  | None => <[lp := (block l, is_open)]> m
  end.
Proof. intros E. unfold book_log. by rewrite E. Qed.

Lemma book_opened lp logs : foldl (book_log true) ∅ logs !! lp = (fun b => (b, true)) <$> last_block lp logs.
Proof.
  unfold last_block. induction logs as [|l logs IH] using rev_ind; [cbn; by rewrite lookup_empty|].
  rewrite !foldl_app. cbn [foldl]. case_bool_decide as El; [|by rewrite book_log_other].
  rewrite (book_log_own _ _ _ _ El), IH. destruct (foldl _ None logs) as [b|]; cbn [fmap option_fmap option_map andb negb].
  - destruct (Z.leb_spec (block l) b); [rewrite IH; cbn; by rewrite Z.max_l|].
    rewrite lookup_insert_eq. by rewrite Z.max_r by lia.
  - by rewrite lookup_insert_eq.
Qed.

Lemma book_closed lp m logs : foldl (book_log false) m logs !! lp =
  match last_block lp logs with
  | None => m !! lp
  | Some c => match m !! lp with
              | Some (b, o) => if c <? b then Some (b, o) else Some (c, false)
              | None => Some (c, false)
              end
  end.
Proof.
  unfold last_block. induction logs as [|l logs IH] using rev_ind; [done|].
  rewrite !foldl_app. cbn [foldl]. case_bool_decide as El; [|by rewrite book_log_other].
  rewrite (book_log_own _ _ _ _ El), IH. destruct (foldl (fun m l => _) None logs) as [c|], (m !! lp) as [[b o]|];
    cbn [andb negb].
  - destruct (Z.ltb_spec c b).
    + destruct (Z.ltb_spec (block l) b).
      * rewrite IH. rewrite !(proj2 (Z.ltb_lt _ _)) by lia. done.
      * rewrite lookup_insert_eq. rewrite (proj2 (Z.ltb_ge _ _)) by lia. by rewrite Z.max_r by lia.
    + destruct (Z.ltb_spec (block l) c).
      * rewrite IH. rewrite !(proj2 (Z.ltb_ge _ _)) by lia. by rewrite Z.max_l by lia.
      * rewrite lookup_insert_eq. rewrite (proj2 (Z.ltb_ge _ _)) by lia. by rewrite Z.max_r by lia.
  - destruct (Z.ltb_spec (block l) c); [rewrite IH; by rewrite Z.max_l by lia|].
    rewrite lookup_insert_eq. by rewrite Z.max_r by lia.
  - destruct (Z.ltb_spec (block l) b); [done|]. by rewrite lookup_insert_eq.
  - by rewrite lookup_insert_eq.
Qed.

(** One query in place of many. *)
Lemma logs_loop_complete (all : list Log) fuel start to step out :
  0 <= start -> to <= imax u64 -> 1 <= step -> (to - start) / step < Z.of_nat fuel ->
  exists l, logs_loop (fun a b => Some (Some (filter (fun x => a <= block x <= b) all))) fuel start to step out = Some (out ++ l) /\
    (forall x, x ∈ l <-> x ∈ all /\ start <= block x <= to).
Proof.
  revert start out. induction fuel as [|fuel IH]; intros start out H0 Hto Hs Hf; cbn [logs_loop].
  - destruct (Z.leb_spec start to).
    + exfalso. pose proof (Z.div_pos (to - start) step). lia.
    + exists []. rewrite app_nil_r. split; [done|]. intros x. rewrite elem_of_nil. lia.
  - destruct (Z.leb_spec start to) as [Hle|].
    2: { exists []. rewrite app_nil_r. split; [done|]. intros x. rewrite elem_of_nil. lia. }
    cbn [mbind option_bind default from_option id]. replace (Z.min (sat u64 (start + (step - 1))) to) with (Z.min (start + (step - 1)) to)
      by (unfold sat; cbn [imin imax u64] in *; lia).
    set (e := Z.min (start + (step - 1)) to). destruct (Z.eqb_spec e to) as [Ee|Ee].
    + eexists. split; [done|]. intros x. rewrite list_elem_of_filter, Ee. tauto.
    + assert (e = start + step - 1) as He by lia.
      destruct (IH (e + 1) (out ++ filter (fun x => start <= block x <= e) all)) as (l & -> & Hl); [lia..| |].
      { rewrite He. replace (to - (start + step - 1 + 1)) with (to - start + (-1) * step) by lia.
        rewrite Z.div_add by lia. lia. }
      exists (filter (fun x => start <= block x <= e) all ++ l). rewrite app_assoc. split; [done|].
      intros x. rewrite elem_of_app, list_elem_of_filter, Hl. split.
      * intros [[? ?]|[? ?]]; (split; [done|lia]).
      * intros [Hx Hb]. destruct (Z.le_gt_cases (block x) e); [left; split; [lia|done]|right; split; [done|lia]].
Qed.

Lemma get_logs_complete (all : list Log) from to span : 0 <= from -> from <= to -> to <= imax u64 ->
  exists l, get_logs_chunked (fun a b => Some (Some (filter (fun x => a <= block x <= b) all))) from to span = Some l /\
    (forall x, x ∈ l <-> x ∈ all /\ from <= block x <= to).
Proof.
  intros H0 Hft Hto. unfold get_logs_chunked. pose proof (Z.div_pos (to - from) (Z.max span 1)).
  apply (logs_loop_complete all _ from to (Z.max span 1) []); lia.
Qed.

Lemma last_block_spec lp logs :
  match last_block lp logs with
  | None => forall l, l ∈ logs -> log_lp l <> Some lp
  | Some b => (exists l, l ∈ logs /\ log_lp l = Some lp /\ block l = b) /\
              forall l, l ∈ logs -> log_lp l = Some lp -> block l <= b
  end.
Proof.
  unfold last_block. induction logs as [|l logs IH] using rev_ind.
  { intros l Hl. by apply not_elem_of_nil in Hl. }
  rewrite foldl_app. cbn [foldl].
  assert (forall x, x ∈ logs ++ [l] <-> x ∈ logs \/ x = l) as Hin by (intros; rewrite elem_of_app, list_elem_of_singleton; done).
  case_bool_decide as El; destruct (foldl _ None logs) as [b|].
  - destruct IH as [(x & Hx & Hxl & <-) Hmax]. split.
    + destruct (Z.max_spec (block x) (block l)) as [[_ ->]|[_ ->]]; [exists l|exists x]; rewrite Hin; auto.
    + intros y Hy Hyl. apply Hin in Hy as [Hy| ->]; [specialize (Hmax y Hy Hyl)|]; lia.
  - split; [exists l; rewrite Hin; auto|]. intros y Hy Hyl. apply Hin in Hy as [Hy| ->]; [by destruct (IH y Hy)|lia].
  - destruct IH as [(x & Hx & Hxl & Hb) Hmax]. split; [exists x; rewrite Hin; auto|].
    intros y Hy Hyl. apply Hin in Hy as [Hy| ->]; [by apply Hmax|done].
  - intros y Hy. apply Hin in Hy as [Hy| ->]; [by apply IH|done].
Qed.

(** Who is in the book, from the logs alone. *)
Lemma book_open_iff opened closed lp : (exists b, book opened closed !! lp = Some (b, true)) <->
  exists l, l ∈ opened /\ log_lp l = Some lp /\ forall c, c ∈ closed -> log_lp c = Some lp -> block c < block l.
Proof.
  unfold book. rewrite book_closed, book_opened.
  pose proof (last_block_spec lp opened) as Ho. pose proof (last_block_spec lp closed) as Hc.
  destruct (last_block lp opened) as [bo|]; cbn [fmap option_fmap option_map].
  - destruct Ho as [(l & Hl & Hll & <-) Hmax]. destruct (last_block lp closed) as [bc|].
    + destruct Hc as [(c & Hc & Hcl & <-) Hcm]. destruct (Z.ltb_spec (block c) (block l)); split.
      * intros _. exists l. split_and!; [done..|]. intros c' Hc' Hcl'. specialize (Hcm c' Hc' Hcl'). lia.
      * intros _. by eexists.
      * intros [? ?]. congruence.
      * intros (l' & Hl' & Hll' & Hall). specialize (Hall c Hc Hcl). specialize (Hmax l' Hl' Hll'). lia.
    + split; [|by eexists]. intros _. exists l. split_and!; [done..|]. intros c Hin Hcl. by destruct (Hc c Hin).
  - assert (forall l, l ∈ opened -> log_lp l = Some lp -> False) as Hno by (intros l Hl Hll; by destruct (Ho l Hl)).
    split; [|intros (l & Hl & Hll & _); by destruct (Hno l)].
    destruct (last_block lp closed); intros [? ?]; congruence.
Qed.

(** * Venue scores: lemmas *)

(** What the loop keeps is the cheapest seen, the lower toll on a tie. *)
Lemma pick_loop_min h qs best :
  match pick_loop h best qs with
  | None => best = None /\ forall q, q ∈ qs -> score_bps q h = None
  | Some (v, s, rc) =>
      (best = Some (v, s, rc) \/ exists q, q ∈ qs /\ venue q = v /\ score_bps q h = Some s /\ route_cost_bps q = rc) /\
      (forall q s', q ∈ qs -> score_bps q h = Some s' -> s < s' \/ s = s' /\ rc <= route_cost_bps q) /\
      (forall v' s' rc', best = Some (v', s', rc') -> s < s' \/ s = s' /\ rc <= rc')
  end.
Proof.
  revert best. induction qs as [|q qs IH]; intros best; cbn [pick_loop foldl].
  { destruct best as [[[v s] rc]|]; [|split; [done|]; intros q Hq; by apply not_elem_of_nil in Hq]. split_and!.
    - by left.
    - intros q s' Hq. by apply not_elem_of_nil in Hq.
    - intros v' s' rc' E. simplify_eq. right. lia. }
  match goal with |- context [foldl _ ?b qs] => specialize (IH b); unfold pick_loop in IH end.
  destruct (foldl _ _ qs) as [[[v s] rc]|] eqn:Ef.
  - destruct IH as (H1 & H2 & H3). destruct (score_bps q h) as [sq|] eqn:Eq.
    2: { split_and!; [destruct H1 as [|(x & ? & ?)]; [by left|right; exists x; split; [by apply list_elem_of_further|done]]| |done].
      intros x s' Hx Hs. apply elem_of_cons in Hx as [->|Hx]; [congruence|by apply (H2 x)]. }
    unfold better in *. destruct best as [[[bv bs] brc]|].
    + destruct (_ || _) eqn:Eb.
      * apply orb_true_iff in Eb. rewrite andb_true_iff, Z.eqb_eq, !Z.ltb_lt in Eb. specialize (H3 _ _ _ eq_refl). split_and!.
        -- right. destruct H1 as [E|(x & ? & ?)]; [simplify_eq; exists q; split; [apply list_elem_of_here|done]|].
           exists x. split; [by apply list_elem_of_further|done].
        -- intros x s' Hx Hs. apply elem_of_cons in Hx as [->|Hx]; [|by apply (H2 x)]. rewrite Eq in Hs. injection Hs as <-. done.
        -- intros v' s' rc' E. injection E as <- <- <-. lia.
      * apply orb_false_iff in Eb. rewrite andb_false_iff, Z.eqb_neq, !Z.ltb_ge in Eb. specialize (H3 _ _ _ eq_refl) as H3'. split_and!; [| |done].
        -- destruct H1 as [|(x & ? & ?)]; [by left|right; exists x; split; [by apply list_elem_of_further|done]].
        -- intros x s' Hx Hs. apply elem_of_cons in Hx as [->|Hx]; [|by apply (H2 x)]. rewrite Eq in Hs. injection Hs as <-. lia.
    + specialize (H3 _ _ _ eq_refl). split_and!; [| |done].
      * right. destruct H1 as [E|(x & ? & ?)]; [simplify_eq; exists q; split; [apply list_elem_of_here|done]|].
        exists x. split; [by apply list_elem_of_further|done].
      * intros x s' Hx Hs. apply elem_of_cons in Hx as [->|Hx]; [|by apply (H2 x)]. rewrite Eq in Hs. injection Hs as <-. done.
  - destruct IH as [Hb Hn]. destruct (score_bps q h) eqn:Eq.
    { destruct (better best _ _) eqn:Eb; [done|]. by rewrite Hb in Eb. }
    split; [done|].
    intros x Hx. apply elem_of_cons in Hx as [->|Hx]; [done|by apply Hn].
Qed.

(** * Properties *)

(** No position near liquidation is passed over.  In every pass, whichever reads
    and calls fail, a position whose own or pooled LTV has reached the margin is either protected from
    the owner's matured balance or rebalanced, and before its rebalance only
    positions that are near liquidation too are rebalanced.  Neither the dwell nor the
    size of the move nor the floor is asked. *)
Theorem urgent_served_first reply view cfg now dwell lps d lp v :
  lp ∈ lps -> view lp = Some v -> is_urgent v cfg = true ->
  let tr := (tick reply view cfg now dwell (Some lps) d).2 in
  (exists r, decide v cfg = ProtectFromQuid r /\ 0 < r <= mature_quid_usd v /\ CProtect lp r ∈ tr) \/
  (exists t1 t2, tr = t1 ++ CRebalance lp :: t2 /\
    forall x, CRebalance x ∈ t1 -> exists w, view x = Some w /\ is_urgent w cfg = true).
Proof.
  intros Hin Hv Hu tr. subst tr.
  destruct (tick_trace reply view cfg now dwell lps d) as (tp & tu & tr & -> & P1 & P2 & U1 & U2 & _).
  destruct (decide_urgent v cfg Hu) as [E|(r & E & Hr & _)].
  - right. assert (CRebalance lp ∈ tu) as Hlp by (apply U1; [done|]; unfold urgent_lp, urgent_b; rewrite Hv; cbn; by rewrite E).
    apply list_elem_of_split in Hlp as (a & b & ->). exists (tp ++ a), (b ++ tr). rewrite <- !app_assoc. split; [done|].
    intros x Hx. apply elem_of_app in Hx as [Hx|Hx].
    + destruct (P1 _ Hx) as (? & ? & _ & [?|?]); congruence.
    + destruct (U2 (CRebalance x)) as (y & Hy & [Ey|Ey]); [rewrite elem_of_app; by left| |congruence]. injection Ey as <-.
      unfold urgent_lp in Hy. destruct (view x) as [w|]; [|done]. exists w. split; [done|]. cbn in Hy. unfold urgent_b in Hy.
      destruct (is_urgent w cfg) eqn:Ew; [done|]. pose proof (decide_calm w cfg Ew) as Hc.
      destruct (decide w cfg) as [|t []|t|r]; try done. by destruct Hc.
  - left. exists r. split_and!; [done|lia..|]. rewrite elem_of_app. left. apply P2; [done|].
    unfold protect_lp, protect_b. rewrite Hv. cbn. by rewrite E.
Qed.

(** A failed protection is retried for ever.  As long as the chain reports the same view
    of a position that would be protected from its owner's balance, no pass of any run rebalances it,
    even when every attempt to protect it fails. *)
Theorem failed_protect_never_delevers cfg dwell envs d lp v r :
  decide v cfg = ProtectFromQuid r -> Forall (fun e => e_view e lp = Some v) envs ->
  CRebalance lp ∉ keeper_run cfg dwell envs d.
Proof.
  intros Hd Hf. revert d. induction Hf as [|e envs He _ IH]; intros d; cbn [keeper_run]; [apply not_elem_of_nil|].
  destruct (tick _ _ _ _ _ _ d) as [d' tr] eqn:E. rewrite elem_of_app. intros [Hx|Hx]; [|by apply (IH d')].
  destruct (e_open e) as [lps|]; [|cbn in E; injection E as _ <-; by apply not_elem_of_nil in Hx].
  destruct (tick_trace (e_reply e) (e_view e) cfg (e_now e) dwell lps d) as (tp & tu & tr' & Et & P1 & _ & _ & U2 & R).
  rewrite E in Et. cbn in Et. subst tr. rewrite !elem_of_app in Hx. destruct Hx as [Hx|[Hx|Hx]].
  - destruct (P1 _ Hx) as (? & ? & _ & [?|?]); congruence.
  - destruct (U2 _ Hx) as (y & Hy & [Ey|Ey]); [|congruence]. injection Ey as <-.
    unfold urgent_lp, urgent_b in Hy. rewrite He in Hy. cbn in Hy. by rewrite Hd in Hy.
  - destruct (R _ Hx) as (y & _ & Hp & Ey). injection Ey as <-. unfold protect_lp, protect_b in Hp.
    rewrite He in Hp. cbn in Hp. by rewrite Hd in Hp.
Qed.

(** C27: who the keeper looks after.  Against a node that serves every log of the asked
    blocks, the scan ends for every range, and an owner is listed exactly when a log of its
    opening lies in a later block than every log of its closing: a position closed and opened
    again within one block is not looked after. *)
Theorem open_set_from_logs opened closed from tip : 0 <= from <= tip -> tip <= imax u64 ->
  let node all a b := Some (Some (filter (fun x => a <= block x <= b) all)) in
  let scanned l := from <= block l <= tip in
  exists lps, open_lps_from_logs (node opened) (node closed) from tip = Some lps /\
    forall lp, lp ∈ lps <-> exists l, l ∈ opened /\ scanned l /\ log_lp l = Some lp /\
      forall c, c ∈ closed -> scanned c -> log_lp c = Some lp -> block c < block l.
Proof.
  intros [H0 Hft] Hto node scanned. unfold open_lps_from_logs, node.
  destruct (get_logs_complete opened from tip LP_LOG_SPAN H0 Hft Hto) as (lo & -> & Ho).
  destruct (get_logs_complete closed from tip LP_LOG_SPAN H0 Hft Hto) as (lc & -> & Hc).
  cbn [mbind option_bind]. eexists. split; [done|]. intros lp.
  transitivity (exists b, book lo lc !! lp = Some (b, true)).
  - rewrite list_elem_of_fmap. split.
    + intros ([x [b o]] & -> & Hp). apply list_elem_of_filter in Hp as [Ho' Hp]. cbn in Ho'. subst o.
      apply elem_of_map_to_list in Hp. by exists b.
    + intros [b Hb]. exists (lp, (b, true)). split; [done|]. apply list_elem_of_filter. split; [done|].
      by apply elem_of_map_to_list.
  - rewrite book_open_iff. unfold scanned. split; intros (l & H1).
    + destruct H1 as (Hl & Hll & Hall). apply Ho in Hl as [? ?]. exists l. do 3 (split; [done|]).
      intros c Hcin Hs Hcl. apply Hall; [by apply Hc|done].
    + destruct H1 as (Hl & Hs & Hll & Hall). exists l. split; [by apply Ho|]. split; [done|].
      intros c Hcin Hcl. apply Hc in Hcin as [? ?]. by apply Hall.
Qed.

(** ** Witnesses *)
Module KeeperSample.
Definition near : PositionView := mkView 7200 7200 3000 7300 8600 100000000000 true false 0 false.
Definition lazy_move : PositionView := mkView 3000 3400 3000 3000 8600 100000000000 true false 0 false.
Definition with_quid : PositionView := mkView 7200 7200 3000 7300 8600 100000000000 true false 1 false.
Definition view (lp : LpAddr) : option PositionView :=
  match lp with [1] => Some lazy_move | [2] => Some near | [3] => None | _ => Some with_quid end.
(** Every call fails. *)
Definition env (t : Z) : PassEnv := mkPassEnv (fun _ _ => false) view t (Some [[1]; [2]; [3]; [4]]).
Definition log (lp : Z) (b : Z) : Log := mkLog [[0]; replicate 12 0 ++ [lp]] b.

Lemma sample_trace : (tick (fun _ _ => false) view default_keeper 100 0 (Some [[1]; [2]; [3]; [4]]) ∅).2
  = [CProtect [4] 1; CRebalance [2]; CRebalance [1]].
Proof. by vm_compute. Qed.
End KeeperSample.

Lemma urgent_served_first_witness :
  let tr := (tick (fun _ _ => false) KeeperSample.view default_keeper 100 0 (Some [[1]; [2]; [3]; [4]]) ∅).2 in
  (exists r, decide KeeperSample.near default_keeper = ProtectFromQuid r /\ 0 < r <= mature_quid_usd KeeperSample.near /\ CProtect [2] r ∈ tr) \/
  (exists t1 t2, tr = t1 ++ CRebalance [2] :: t2 /\
    forall x, CRebalance x ∈ t1 -> exists w, KeeperSample.view x = Some w /\ is_urgent w default_keeper = true).
Proof.
  apply (urgent_served_first (fun _ _ => false) KeeperSample.view default_keeper 100 0 [[1]; [2]; [3]; [4]] ∅ [2] KeeperSample.near).
  - apply (bool_decide_unpack _). by vm_compute.
  - done.
  - by vm_compute.
Defined.

Lemma failed_protect_never_delevers_witness :
  CRebalance [4] ∉ keeper_run default_keeper 0 [KeeperSample.env 100; KeeperSample.env 400; KeeperSample.env 700] ∅.
Proof.
  apply (failed_protect_never_delevers default_keeper 0 _ ∅ [4] KeeperSample.with_quid 1); [by vm_compute|].
  by repeat constructor.
Defined.

Lemma open_set_from_logs_witness :
  exists lps, open_lps_from_logs
      (fun a b => Some (Some (filter (fun x => a <= block x <= b) [KeeperSample.log 1 5; KeeperSample.log 2 20005; KeeperSample.log 2 7])))
      (fun a b => Some (Some (filter (fun x => a <= block x <= b) [KeeperSample.log 2 20005]))) 0 30000 = Some lps /\
    [1] ∈ lps.
Proof.
  destruct (open_set_from_logs [KeeperSample.log 1 5; KeeperSample.log 2 20005; KeeperSample.log 2 7] [KeeperSample.log 2 20005] 0 30000)
    as (lps & E & H); [lia|cbn; lia|].
  exists lps. split; [exact E|]. apply H. exists (KeeperSample.log 1 5). split; [apply list_elem_of_here|]. split; [by vm_compute|]. split; [done|].
  intros c Hc _ Hl. apply list_elem_of_singleton in Hc as ->. by vm_compute in Hl.
Defined.
