(* ===== verification/Planner.v ===== *)
(** * Planner: the keepers' routes and the calls that carry them

    The second half of [quid-ln/quid-bridge/src/lev_keeper.rs]: pool words, venue
    discovery behind its cache, quotes, the choice of a route ([best_plan_quoted],
    [prefer_fetched], [plan_for_lp]), and the calldata the two keepers send
    ([lev_keeper.rs], [lev_keeper_btc.rs], [abi.rs]).

    The chain is one function from a call to its answer, the same throughout a plan; the
    hash and the 1inch quote are parameters.  A 256-bit operator wraps. *)
From Stdlib Require Import String.
From stdpp Require Import gmap strings.
From S2P Require Import Prelude Pool Chain Abi EvmTx LevKeeper.
Open Scope list_scope.

Definition u256 : ity := Ity 0 (2 ^ 256 - 1).
Definition wrap256 (x : Z) : Z := x mod 2 ^ 256.

(** ** Words *)
Definition u64_word (n : Z) : list Z := replicate 24 0 ++ to_be_bytes 8 n.
Definition u256_word (n : Z) : list Z := to_be_bytes 32 n.
Definition word_to_lpaddr (w : list Z) : option (list Z) :=
  if (32 <=? length w)%nat then Some (take 20 (drop 12 w)) else None.
Definition v2_word (pool : list Z) : list Z := replicate 12 0 ++ pool.
(** [w[0] |= 1 << 5] on a byte that is zero. *)
Definition v3_word (pool : list Z) : list Z := Z.lor 0 (Z.shiftl 1 5) :: replicate 11 0 ++ pool.

Definition hex_lit_pool : list Z :=
  [0x88; 0xe6; 0xa0; 0xc2; 0xdd; 0xd2; 0x6f; 0xee; 0xb6; 0x4f; 0x03; 0x9a; 0x2c; 0x41; 0x29; 0x6f; 0xcb; 0x3f; 0x56; 0x40].
(** The override of the environment, when it is set and parses as a [u128]. *)
Definition dex_word (env : option Z) : list Z :=
  match env with
  | Some n => replicate 16 0 ++ to_be_bytes 16 n
  | None => v3_word hex_lit_pool
  end.
Definition dex_word_wbtc (env : option Z) : list Z :=
  match env with
  | Some n => replicate 16 0 ++ to_be_bytes 16 n
  | None => v3_word [0x99; 0xac; 0x8c; 0xa7; 0x08; 0x7f; 0xa4; 0xa2; 0xa1; 0xfb; 0x63; 0x57; 0x26; 0x99; 0x65; 0xa2; 0x01; 0x4a; 0xbc; 0x35]
  end.

(** ** Tables *)
Definition WETH_ADDR : list Z :=
  [0xc0; 0x2a; 0xaa; 0x39; 0xb2; 0x23; 0xfe; 0x8d; 0x0a; 0x0e; 0x5c; 0x4f; 0x27; 0xea; 0xd9; 0x08; 0x3c; 0x75; 0x6c; 0xc2].
Definition WBTC_ADDR : list Z :=
  [0x22; 0x60; 0xfa; 0xc5; 0xe5; 0x54; 0x2a; 0x77; 0x3a; 0xa4; 0x4f; 0xbc; 0xfe; 0xdf; 0x7c; 0x19; 0x3b; 0xc2; 0xc5; 0x99].
Definition USDC_ADDR : list Z :=
  [0xa0; 0xb8; 0x69; 0x91; 0xc6; 0x21; 0x8b; 0x36; 0xc1; 0xd1; 0x9d; 0x4a; 0x2e; 0x9e; 0xb0; 0xce; 0x36; 0x06; 0xeb; 0x48].
Definition USDT_ADDR : list Z :=
  [0xda; 0xc1; 0x7f; 0x95; 0x8d; 0x2e; 0xe5; 0x23; 0xa2; 0x20; 0x62; 0x06; 0x99; 0x45; 0x97; 0xc1; 0x3d; 0x83; 0x1e; 0xc7].
Definition UNIV3_FACTORY : list Z :=
  [0x1f; 0x98; 0x43; 0x1c; 0x8a; 0xd9; 0x85; 0x23; 0x63; 0x1a; 0xe4; 0xa5; 0x9f; 0x26; 0x73; 0x46; 0xea; 0x31; 0xf9; 0x84].
Definition QUOTER_V2 : list Z :=
  [0x61; 0xff; 0xe0; 0x14; 0xba; 0x17; 0x98; 0x9e; 0x74; 0x3c; 0x5f; 0x6c; 0xb2; 0x1b; 0xf9; 0x69; 0x75; 0x30; 0xb2; 0x1e].
Definition V4_STATE_VIEW : list Z :=
  [0x7f; 0xfe; 0x42; 0xc4; 0xa5; 0xde; 0xea; 0x5b; 0x0f; 0xec; 0x41; 0xc9; 0x4c; 0x13; 0x6c; 0xf1; 0x15; 0x59; 0x72; 0x27].
Definition V4_QUOTER : list Z :=
  [0x52; 0xf0; 0xe2; 0x4d; 0x1c; 0x21; 0xc8; 0xa0; 0xcb; 0x1e; 0x5a; 0x5d; 0xd6; 0x19; 0x85; 0x56; 0xbd; 0x9e; 0x12; 0x03].
Definition V2_FACTORIES : list (list Z) :=
  [[0x5c; 0x69; 0xbe; 0xe7; 0x01; 0xef; 0x81; 0x4a; 0x2b; 0x6a; 0x3e; 0xdd; 0x4b; 0x16; 0x52; 0xcb; 0x9c; 0xc5; 0xaa; 0x6f];
   [0xc0; 0xae; 0xe4; 0x78; 0xe3; 0x65; 0x8e; 0x26; 0x10; 0xc5; 0xf7; 0xa4; 0xa2; 0xe1; 0x77; 0x7c; 0xe9; 0xe4; 0xf2; 0xac]].
Definition FEE_TIERS : list Z := [100; 500; 3000; 10000].
Definition V4_TIERS : list (Z * Z) := [(100, 1); (500, 10); (3000, 60); (10000, 200)].
Definition HUBS : list (list Z) := [USDC_ADDR; USDT_ADDR; WETH_ADDR].
Definition DEPTH_MULTIPLE : Z := 4.
Definition V2_DEPTH_MULTIPLE : Z := 100.
Definition VENUE_CACHE_TTL : Z := 3600.
Definition SEL_UNOSWAP : list Z := [0x83; 0x80; 0x0a; 0x8e].
Definition SEL_UNOSWAP2 : list Z := [0x87; 0x70; 0xba; 0x91].

Inductive Venue := V3 (pool : list Z) (fee : Z) | V4 (fee tick_spacing : Z) | V2 (pool : list Z).
Record Plan := mkPlan { dex : list Z; dex2 : list Z; hops : list (list Z); fetched : list Z }.

Definition venue_word (v : Venue) : option (list Z) :=
  match v with
  | V3 pool _ => Some (v3_word pool)
  | V2 pool => Some (v2_word pool)
  | V4 _ _ => None
  end.
Definition route_bytes (p : Plan) : list Z :=
  if negb (length (fetched p) =? 0)%nat then fetched p
  else match length (hops p) with
       | 1%nat => SEL_UNOSWAP ++ replicate 96 0 ++ concat (hops p)
       | 2%nat => SEL_UNOSWAP2 ++ replicate 96 0 ++ concat (hops p)
       | _ => []
       end.

Abbreviation Cache := (gmap (list Z * list Z * Z) (Z * list Venue)).

(** ** Asking the chain *)
Section Chain.
Variable eth_call_raw : list Z -> string -> list Z -> option (list Z).
Variable keccak256 : list Z -> list Z.

Definition nonzero_addr (r : option (list Z)) : option (list Z) :=
  w ← r; p ← word_to_lpaddr w; if bool_decide (p = replicate 20 0) then None else Some p.
Definition v2_pair (factory a b : list Z) : option (list Z) :=
  nonzero_addr (eth_call_raw factory "getPair(address,address)" (address_word a ++ address_word b)).
Definition pool_for (a b : list Z) (fee : Z) : option (list Z) :=
  nonzero_addr (eth_call_raw UNIV3_FACTORY "getPool(address,address,uint24)" (address_word a ++ address_word b ++ u64_word fee)).
Definition nonzero_word (r : option (list Z)) : option Z :=
  w ← r; if (length w <? 32)%nat then None else
  let out := from_be_bytes (take 32 w) in if out =? 0 then None else Some out.
Definition quote_hop (tin tout : list Z) (amt fee : Z) : option Z :=
  nonzero_word (eth_call_raw QUOTER_V2 "quoteExactInputSingle((address,address,uint256,uint24,uint160))"
    (address_word tin ++ address_word tout ++ u256_word amt ++ u64_word fee ++ replicate 32 0)).
Definition deep_enough_mult (pool token : list Z) (amt mult : Z) : bool :=
  match eth_call_raw token "balanceOf(address)" (address_word pool) with
  | Some b => if (length b <? 32)%nat then false else sat u256 (amt * mult) <=? from_be_bytes (take 32 b)
  | None => false
  end.
Definition deep_enough (pool token : list Z) (amt : Z) : bool := deep_enough_mult pool token amt DEPTH_MULTIPLE.

(** Constant product with the fee of three thousandths. *)
Definition v2_out (rin rout amt : Z) : Z :=
  let ain := wrap256 (amt * 997) in wrap256 (ain * rout) / wrap256 (wrap256 (rin * 1000) + ain).
Definition v2_quote (pool tin : list Z) (amt : Z) : option Z :=
  r ← eth_call_raw pool "getReserves()" [];
  if (length r <? 64)%nat then None else
  let r0 := from_be_bytes (take 32 r) in
  let r1 := from_be_bytes (take 32 (drop 32 r)) in
  t ← eth_call_raw pool "token0()" []; t0 ← word_to_lpaddr t;
  let '(rin, rout) := if bool_decide (t0 = tin) then (r0, r1) else (r1, r0) in
  if (rin =? 0) || (rout =? 0) then None else Some (v2_out rin rout amt).
Definition sorted_tokens (a b : list Z) : list Z * list Z := if bytes_le a b then (a, b) else (b, a).
Definition v4_quote (tin tout : list Z) (amt fee ts : Z) : option Z :=
  let '(c0, c1) := sorted_tokens tin tout in
  nonzero_word (eth_call_raw V4_QUOTER "quoteExactInputSingle(((address,address,uint24,int24,address),bool,uint128,bytes))"
    (u64_word 32 ++ address_word c0 ++ address_word c1 ++ u64_word fee ++ u64_word ts ++ replicate 32 0 ++
     u64_word (if bool_decide (tin = c0) then 1 else 0) ++ u256_word amt ++ u64_word 256 ++ replicate 32 0)).
Definition v4_pool_has_liquidity (a b : list Z) (fee ts : Z) : bool :=
  let '(c0, c1) := sorted_tokens a b in
  let id := keccak256 (address_word c0 ++ address_word c1 ++ u64_word fee ++ u64_word ts ++ replicate 32 0) in
  match eth_call_raw V4_STATE_VIEW "getLiquidity(bytes32)" id with
  | Some r => (32 <=? length r)%nat && negb (from_be_bytes (take 32 r) =? 0)
  | None => false
  end.

(** ** Discovery and its cache *)
Definition discover (a b : list Z) (amt : Z) (gated : bool) : list Venue :=
  omap (fun fee => pool ← pool_for a b fee; if negb gated || deep_enough pool a amt then Some (V3 pool fee) else None) FEE_TIERS ++
  omap (fun f => pool ← v2_pair f a b; if negb gated || deep_enough_mult pool a amt V2_DEPTH_MULTIPLE then Some (V2 pool) else None) V2_FACTORIES ++
  omap (fun t => if v4_pool_has_liquidity a b t.1 t.2 then Some (V4 t.1 t.2) else None) V4_TIERS.

(** [256 - leading_zeros], the bit length. *)
Definition bucket (amt : Z) : Z := if amt <=? 0 then 0 else Z.log2 amt + 1.
Definition cache_key (a b : list Z) (amt : Z) : list Z * list Z * Z := (sorted_tokens a b, bucket amt).
Definition venues_for (now : Z) (c : Cache) (a b : list Z) (amt : Z) : Cache * list Venue :=
  let key := cache_key a b amt in
  let fresh :=
    let out := discover a b amt true in
    ((if (length out =? 0)%nat then c else <[key := (now, out)]> c), out) in
  match c !! key with
  | Some (at_, v) => if now - at_ <? VENUE_CACHE_TTL then (c, v) else fresh
  | None => fresh
  end.

(** ** Choosing *)
Definition quote (v : Venue) (tin tout : list Z) (amt : Z) : option Z :=
  match v with
  | V3 _ fee => quote_hop tin tout amt fee
  | V2 pool => v2_quote pool tin amt
  | V4 fee ts => v4_quote tin tout amt fee ts
  end.
(** A venue that no word can name is skipped before it is quoted. *)
Definition offer (tin tout : list Z) (amt : Z) (v : Venue) : option (Venue * Z) :=
  match venue_word v with
  | None => None
  | Some _ => out ← quote v tin tout amt; Some (v, out)
  end.
(** [if best.is_none_or(|(_, b)| out > b) { best = Some(..) }] *)
Definition keep_better {A} (best r : option (A * Z)) : option (A * Z) :=
  match r with
  | None => best
  | Some (_, out) => match best with
                     | Some (_, b) => if b <? out then r else best
                     | None => r
                     end
  end.
Definition best_of (tin tout : list Z) (amt : Z) (vs : list Venue) : option (Venue * Z) :=
  foldl (fun best v => keep_better best (offer tin tout amt v)) None vs.
Definition best_direct (now : Z) (c : Cache) (tin tout : list Z) (amt : Z) : Cache * option (Venue * Z) :=
  let '(c, vs) := venues_for now c tin tout amt in (c, best_of tin tout amt vs).

Definition one_hop (w : list Z) : Plan := mkPlan w (replicate 32 0) [w] [].
Definition two_hops (w1 w2 : list Z) : Plan := mkPlan w2 w1 [w1; w2] [].
Definition word_and_out (r : option (Venue * Z)) : option (list Z * Z) :=
  '(v, out) ← r; w ← venue_word v; Some (w, out).

(** One pass of the loop over [HUBS]: the route through a hub, and the better of it and the
    best so far. *)
Definition via_hub (now : Z) (c : Cache) (tin tout : list Z) (amt : Z) (hub : list Z) : Cache * option (Plan * Z) :=
  if bool_decide (hub = tin) || bool_decide (hub = tout) then (c, None) else
  let '(c, first) := best_direct now c tin hub amt in
  match word_and_out first with
  | None => (c, None)
  | Some (w1, mid) =>
      let '(c, second) := best_direct now c hub tout mid in
      (c, '(w2, out) ← word_and_out second; Some (two_hops w1 w2, out))
  end.
Definition try_hub (now : Z) (tin tout : list Z) (amt : Z) (s : Cache * option (Plan * Z)) (hub : list Z)
  : Cache * option (Plan * Z) :=
  let '(c, r) := via_hub now s.1 tin tout amt hub in (c, keep_better s.2 r).
Definition best_plan_quoted (now : Z) (c : Cache) (tin tout : list Z) (amt : Z) : Cache * option (Plan * Z) :=
  let '(c, direct) := best_direct now c tin tout amt in
  let best := '(w, out) ← word_and_out direct; Some (one_hop w, out) in
  foldl (try_hub now tin tout amt) (c, best) HUBS.
End Chain.

Section Deciding.
Variable env : option Z.                   (* [QUID_LEV_DEX_WORD] *)
Definition default_plan : Plan := one_hop (dex_word env).
Definition prefer_fetched (planned : option (Plan * Z)) (fetched_ : option (Z * list Z)) : option Plan :=
  let base := fst <$> planned in
  let base_out := default 0 (snd <$> planned) in
  match fetched_ with
  | Some (out, data) =>
      if base_out <? out then
        let p := default default_plan base in Some (mkPlan (dex p) (dex2 p) (hops p) data)
      else base
  | None => base
  end.

(** What the manager and the position's venue answer, and the 1inch quote, which is [None]
    without a key and may depend on the pair and the size. *)
Variable eth_read : list Z -> string -> list Z -> option (list Z).
Variable eth_call_raw : list Z -> string -> list Z -> option (list Z).
Variable keccak256 : list Z -> list Z.
Variable oneinch : list Z -> list Z -> Z -> option (Z * list Z).

Definition venue_stable_of (lm lp : list Z) : option (list Z) :=
  pw ← eth_read lm "pos(address)" (address_word lp);
  if (length pw <? 32)%nat then None else
  s ← eth_read (take 20 (drop 12 pw)) "stable()" [];
  if (length s <? 32)%nat then None else Some (take 20 (drop 12 s)).

Definition word_u256 (w : list Z) : option Z :=
  if (length w <? 32)%nat then None else Some (from_be_bytes (take 32 w)).
Definition usd18_of (lm lp : list Z) : option Z :=
  match eth_read lm "netEquityUsd(address)" (address_word lp) ≫= word_u256 with
  | Some v => Some v
  | None =>
      g ← eth_read lm "grossCollateral(address)" (address_word lp);
      if (length g <? 32)%nat then None else
      c ← eth_read lm "collValueUsd(uint256)" (take 32 g);
      d ← eth_read lm "debtUsd(address)" (address_word lp);
      coll ← word_u256 c; debt ← word_u256 d;
      Some (if debt <? coll then coll - debt else 0)
  end.
Definition ranking_size (lm lp stable : list Z) : option Z :=
  usd18 ← usd18_of lm lp;
  if usd18 =? 0 then None else
  d ← eth_read stable "decimals()" [];
  dec ← word_u256 d;
  if 18 <? dec then None else Some (usd18 / 10 ^ (18 - dec)).

Definition plan_for_lp (now : Z) (c : Cache) (lm lp volatile : list Z) : Cache * Plan :=
  match (stable ← venue_stable_of lm lp; amt ← ranking_size lm lp stable; Some (stable, amt)) with
  | None => (c, default_plan)
  | Some (stable, amt) =>
      let '(c, planned) := best_plan_quoted eth_call_raw keccak256 now c stable volatile amt in
      (c, default default_plan (prefer_fetched planned (oneinch stable volatile amt)))
  end.
End Deciding.

(** ** Calldata *)
Section Calldata.
Variable keccak256 : list Z -> list Z.
Definition pad_route (route : list Z) : list Z :=
  if (length route mod 32 =? 0)%nat then route else route ++ replicate (32 - length route mod 32) 0.
Definition rebalance_words (lp : list Z) (p : Plan) : list Z :=
  let route := route_bytes p in
  address_word lp ++ u64_word 0 ++ dex p ++ dex2 p ++ u64_word 160 ++ u64_word (Z.of_nat (length route)) ++ pad_route route.
Definition SIG_REBALANCE : string := "rebalance(address,uint256,uint256,uint256,bytes)".
Definition SIG_REBALANCE_WBTC : string := "rebalanceWbtc(address,uint256,uint256,uint256,bytes)".
Definition rebalance_data (lp : list Z) (p : Plan) : list Z := selector4 keccak256 SIG_REBALANCE ++ rebalance_words lp p.
Definition rebalance_wbtc_data (lp : list Z) (p : Plan) : list Z := selector4 keccak256 SIG_REBALANCE_WBTC ++ rebalance_words lp p.
Definition sync_lev_data (lp : list Z) : list Z := selector4 keccak256 "syncLev(address)" ++ address_word lp.
Definition compound_data (lp : list Z) : list Z := selector4 keccak256 "compound(address)" ++ address_word lp.
Definition protect_data (lp : list Z) : list Z :=
  selector4 keccak256 "protectFromQuid(address,uint256)" ++ address_word lp ++ replicate 32 0.
(** [send_leg]: a signature and at most one word. *)
Definition leg_data (sig : string) (arg : option (list Z)) : list Z := selector4 keccak256 sig ++ default [] arg.
End Calldata.

(** * Properties *)

(** ** The better of two offers *)
Lemma keep_better_cases {A} (best r : option (A * Z)) : keep_better best r = best \/ keep_better best r = r.
Proof. destruct r as [[x o]|], best as [[y b]|]; cbn; auto. destruct (b <? o); auto. Qed.

(** [dominates best o]: something is held, and it offers at least [o]. *)
Definition dominates {A} (best : option (A * Z)) (o : Z) : Prop := exists x b, best = Some (x, b) /\ o <= b.

Lemma dominates_self {A} (x : A) o : dominates (Some (x, o)) o.
Proof. exists x, o. split; [done|lia]. Qed.
Lemma keep_better_old {A} (best r : option (A * Z)) o : dominates best o -> dominates (keep_better best r) o.
Proof.
  intros (x & b & -> & Hb). destruct r as [[y o']|]; cbn; [|by exists x, b].
  destruct (b <? o') eqn:E; [exists y, o'|exists x, b]; split; (done || lia).
Qed.
Lemma keep_better_new {A} (best : option (A * Z)) x o : dominates (keep_better best (Some (x, o))) o.
Proof.
  destruct best as [[y b]|]; cbn; [|apply dominates_self].
  destruct (b <? o) eqn:E; [apply dominates_self|exists y, b; split; [done|lia]].
Qed.
Create HintDb planner.
#[local] Hint Resolve dominates_self keep_better_old keep_better_new : planner.

Section Choice.
Variable eth_call_raw : list Z -> string -> list Z -> option (list Z).
Variable keccak256 : list Z -> list Z.
Abbreviation offer := (offer eth_call_raw).
Abbreviation best_of := (best_of eth_call_raw).
Abbreviation discover := (discover eth_call_raw keccak256).
Abbreviation venues_for := (venues_for eth_call_raw keccak256).
Abbreviation best_direct := (best_direct eth_call_raw keccak256).
Abbreviation via_hub := (via_hub eth_call_raw keccak256).
Abbreviation try_hub := (try_hub eth_call_raw keccak256).
Abbreviation best_plan_quoted := (best_plan_quoted eth_call_raw keccak256).

Lemma best_fold_from tin tout amt vs best r :
  foldl (fun best v => keep_better best (offer tin tout amt v)) best vs = r ->
  (r = best \/ exists v, v ∈ vs /\ offer tin tout amt v = r) /\
  (forall o, dominates best o -> dominates r o) /\
  (forall v v' o, v ∈ vs -> offer tin tout amt v = Some (v', o) -> dominates r o).
Proof.
  revert best. induction vs as [|v vs IH]; intros best; cbn [foldl].
  { intros <-. split_and!; [by left|done|]. intros ??? Hv. by apply not_elem_of_nil in Hv. }
  intros Hr. apply IH in Hr as (Hc & Hd & Hv). split_and!.
  - destruct Hc as [->|(v' & Hv' & E)]; [|right; exists v'; split; [by apply list_elem_of_further|done]].
    destruct (keep_better_cases best (offer tin tout amt v)) as [->|E]; [by left|].
    right. exists v. rewrite E. split; [apply list_elem_of_here|done].
  - intros o Ho. apply Hd. eauto with planner.
  - intros v' v'' o [->|Hv']%elem_of_cons Ho; [|eauto]. apply Hd. rewrite Ho. eauto with planner.
Qed.

(** The venue chosen is one of the candidates, has a word, and is quoted what is reported;
    no candidate with a word is quoted more. *)
Lemma best_of_spec tin tout amt vs :
  match best_of tin tout amt vs with
  | Some (v, out) => v ∈ vs /\ offer tin tout amt v = Some (v, out)
  | None => True
  end /\
  forall v v' o, v ∈ vs -> offer tin tout amt v = Some (v', o) -> dominates (best_of tin tout amt vs) o.
Proof.
  destruct (best_fold_from tin tout amt vs None _ eq_refl) as (Hc & _ & Hv).
  split; [|exact Hv]. fold (best_of tin tout amt vs) in Hc.
  destruct (best_of tin tout amt vs) as [[v out]|]; [|done].
  destruct Hc as [Hc|(v' & Hv' & E)]; [done|].
  assert (v' = v) as ->; [|done].
  revert E. unfold Planner.offer. destruct (venue_word v') as [w|]; [|done].
  destruct (quote _ v' tin tout amt); cbn; [|done]. by intros [= -> _].
Qed.

(** ** Candidates *)

(** A venue the discovery found for the pair, in one of its two directions, at a size of the
    same bit length. *)
Definition listed (a b : list Z) (amt : Z) (v : Venue) : Prop :=
  exists amt', bucket amt' = bucket amt /\ (v ∈ discover a b amt' true \/ v ∈ discover b a amt' true).
Definition CacheOk (c : Cache) : Prop :=
  forall a b amt at_ vs, c !! cache_key a b amt = Some (at_, vs) -> forall v, v ∈ vs -> listed a b amt v.

Lemma same_key a b amt a' b' amt' : cache_key a b amt = cache_key a' b' amt' ->
  bucket amt = bucket amt' /\ ((a = a' /\ b = b') \/ (a = b' /\ b = a')).
Proof. unfold cache_key, sorted_tokens. repeat case_match; naive_solver. Qed.

Lemma cache_ok_empty : CacheOk ∅.
Proof. intros a b amt at_ vs H. by rewrite lookup_empty in H. Qed.

Lemma venues_for_ok now c a b amt : CacheOk c ->
  CacheOk (venues_for now c a b amt).1 /\ forall v, v ∈ (venues_for now c a b amt).2 -> listed a b amt v.
Proof.
  intros Hc. unfold Planner.venues_for.
  set (fresh := (_, discover a b amt true)).
  assert (CacheOk fresh.1 /\ forall v, v ∈ fresh.2 -> listed a b amt v) as Hf.
  { subst fresh. cbn [fst snd]. split; [|intros v Hv; exists amt; auto].
    destruct (_ =? 0)%nat; [done|]. intros a' b' amt' at_ vs Hl v Hv.
    apply lookup_insert_Some in Hl as [[Hk [= -> <-]]|[_ Hl]]; [|by eapply Hc].
    apply same_key in Hk as (Hb & Hp). exists amt. split; [done|]. destruct Hp as [[-> ->]|[-> ->]]; auto. }
  destruct (c !! cache_key a b amt) as [[at_ vs]|] eqn:E; [|done].
  destruct (now - at_ <? VENUE_CACHE_TTL); [|done]. cbn. split; [done|]. by apply Hc with (at_ := at_).
Qed.

(** A venue listed for the pair, with a word [w], quoted [out]. *)
Definition priced_hop (tin tout : list Z) (amt : Z) (w : list Z) (out : Z) : Prop :=
  exists v, listed tin tout amt v /\ venue_word v = Some w /\ quote eth_call_raw v tin tout amt = Some out.

Lemma best_direct_cache now c c' tin tout amt r :
  best_direct now c tin tout amt = (c', r) -> CacheOk c -> CacheOk c'.
Proof.
  unfold Planner.best_direct. intros E Hc. pose proof (venues_for_ok now c tin tout amt Hc) as [H _].
  destruct (venues_for now c tin tout amt). by injection E as <- _.
Qed.
Lemma best_direct_priced now c c' tin tout amt r w out :
  best_direct now c tin tout amt = (c', r) -> CacheOk c -> word_and_out r = Some (w, out) ->
  priced_hop tin tout amt w out.
Proof.
  unfold Planner.best_direct. intros E Hc. revert E.
  pose proof (venues_for_ok now c tin tout amt Hc) as [_ Hl].
  destruct (venues_for now c tin tout amt) as [c1 vs]. cbn [snd] in Hl. intros [= -> <-].
  destruct (best_of_spec tin tout amt vs) as [Hb _].
  destruct (best_of tin tout amt vs) as [[v o]|]; [|done]. destruct Hb as [Hv%Hl Ho].
  revert Ho. unfold Planner.offer, word_and_out. cbn [mbind option_bind].
  destruct (venue_word v) as [w'|] eqn:Ew; [|done]. destruct (quote _ v tin tout amt) as [o'|] eqn:Eq; cbn [mbind option_bind]; [|done].
  intros [= ->] [= -> ->]. by exists v.
Qed.

(** The routes the search prices: one venue, or two through a hub, each hop quoted at what
    the hop before it delivers. *)
Inductive PricedRoute (tin tout : list Z) (amt : Z) : Plan -> Z -> Prop :=
| priced_direct w out : priced_hop tin tout amt w out -> PricedRoute tin tout amt (one_hop w) out
| priced_via hub w1 mid w2 out : hub ∈ HUBS -> hub <> tin -> hub <> tout ->
    priced_hop tin hub amt w1 mid -> priced_hop hub tout mid w2 out ->
    PricedRoute tin tout amt (two_hops w1 w2) out.
Definition priced_best (tin tout : list Z) (amt : Z) (r : option (Plan * Z)) : Prop :=
  match r with Some (p, out) => PricedRoute tin tout amt p out | None => True end.

Lemma via_hub_ok now c tin tout amt hub : hub ∈ HUBS -> CacheOk c ->
  CacheOk (via_hub now c tin tout amt hub).1 /\ priced_best tin tout amt (via_hub now c tin tout amt hub).2.
Proof.
  intros Hin Hc. unfold Planner.via_hub.
  destruct (bool_decide (hub = tin)) eqn:E1; [done|]. destruct (bool_decide (hub = tout)) eqn:E2; [done|]. cbn [orb].
  apply bool_decide_eq_false in E1, E2.
  destruct (best_direct now c tin hub amt) as [c1 first] eqn:D1.
  assert (CacheOk c1) by eauto using best_direct_cache.
  destruct (word_and_out first) as [[w1 mid]|] eqn:W1; [|done].
  destruct (best_direct now c1 hub tout mid) as [c2 second] eqn:D2. cbn [fst snd].
  split; [eauto using best_direct_cache|].
  destruct (word_and_out second) as [[w2 out]|] eqn:W2; [|done]. cbn.
  eapply priced_via; eauto using best_direct_priced.
Qed.

Lemma try_hub_step now tin tout amt s hub :
  try_hub now tin tout amt s hub =
  ((via_hub now s.1 tin tout amt hub).1, keep_better s.2 (via_hub now s.1 tin tout amt hub).2).
Proof. unfold Planner.try_hub. by destruct (via_hub now s.1 tin tout amt hub). Qed.

Lemma hubs_keep now tin tout amt hubs s o :
  dominates s.2 o -> dominates (foldl (try_hub now tin tout amt) s hubs).2 o.
Proof.
  revert s. induction hubs as [|h hubs IH]; intros s Hs; [done|]. cbn [foldl]. apply IH.
  rewrite try_hub_step. by apply keep_better_old.
Qed.
(** What every state of the search satisfies. *)
Definition search_ok (tin tout : list Z) (amt : Z) (s : Cache * option (Plan * Z)) : Prop :=
  CacheOk s.1 /\ priced_best tin tout amt s.2.
Lemma hubs_ok now tin tout amt hubs s : hubs ⊆ HUBS ->
  search_ok tin tout amt s -> search_ok tin tout amt (foldl (try_hub now tin tout amt) s hubs).
Proof.
  revert s. induction hubs as [|h hubs IH]; intros s Hin [Hc Hs]; [done|]. cbn [foldl]. apply IH; [set_solver|].
  rewrite try_hub_step. destruct (via_hub_ok now s.1 tin tout amt h) as [Hc' Hp]; [set_solver|done|].
  split; [done|]. cbn [snd].
  by destruct (keep_better_cases s.2 (via_hub now s.1 tin tout amt h).2) as [->| ->].
Qed.

(** The first plan and the cache the loop over the hubs starts from. *)
Definition direct_plan (now : Z) (c : Cache) (tin tout : list Z) (amt : Z) : Cache * option (Plan * Z) :=
  let '(c, direct) := best_direct now c tin tout amt in (c, '(w, out) ← word_and_out direct; Some (one_hop w, out)).

Lemma best_plan_unfold now c tin tout amt :
  best_plan_quoted now c tin tout amt = foldl (try_hub now tin tout amt) (direct_plan now c tin tout amt) HUBS.
Proof. unfold Planner.best_plan_quoted, direct_plan. by destruct (best_direct now c tin tout amt). Qed.

Lemma direct_plan_ok now c tin tout amt : CacheOk c -> search_ok tin tout amt (direct_plan now c tin tout amt).
Proof.
  intros Hc. unfold direct_plan, search_ok. destruct (best_direct now c tin tout amt) as [c1 d] eqn:D. cbn [fst snd].
  split; [eauto using best_direct_cache|]. destruct (word_and_out d) as [[w out]|] eqn:W; [|done]. cbn. eapply priced_direct, best_direct_priced; eauto.
Qed.

Lemma direct_plan_best now c tin tout amt v v' o :
  v ∈ (venues_for now c tin tout amt).2 -> offer tin tout amt v = Some (v', o) ->
  dominates (direct_plan now c tin tout amt).2 o.
Proof.
  intros Hv Ho. unfold direct_plan, Planner.best_direct. destruct (venues_for now c tin tout amt) as [c1 vs].
  cbn [snd] in *. destruct (best_of_spec tin tout amt vs) as [Hb Hd].
  destruct (Hd v v' o Hv Ho) as (x & b & E & Hle). rewrite E in Hb |- *. destruct Hb as [_ Hx].
  unfold word_and_out. cbn [mbind option_bind]. revert Hx. unfold Planner.offer.
  destruct (venue_word x) as [w|]; [|done]. intros _. cbn. by exists (one_hop w), b.
Qed.

Lemma best_plan_ok now c tin tout amt : CacheOk c -> search_ok tin tout amt (best_plan_quoted now c tin tout amt).
Proof. intros Hc. rewrite best_plan_unfold. apply hubs_ok; [done|]. by apply direct_plan_ok. Qed.

(** With a cache filled by discovery, the route chosen is one the search priced, with the
    quote reported: a single venue, or two through a hub, the second quoted at what the first
    delivers, each hop a venue discovered for its pair at a size of the same bit length.  No
    candidate of the pair that a word can name is quoted more, and no route through a hub
    either, each hub taken with the cache as it was when the loop reached it; so nothing is
    chosen only when none of them had a quote.  The cache stays one filled by discovery. *)
Theorem best_plan_optimal now c tin tout amt : CacheOk c ->
  let r := (best_plan_quoted now c tin tout amt).2 in
  CacheOk (best_plan_quoted now c tin tout amt).1 /\
  (forall p out, r = Some (p, out) -> PricedRoute tin tout amt p out) /\
  (forall v v' o, v ∈ (venues_for now c tin tout amt).2 -> offer tin tout amt v = Some (v', o) -> dominates r o) /\
  (forall pre hub post p o, HUBS = pre ++ hub :: post ->
     (via_hub now (foldl (try_hub now tin tout amt) (direct_plan now c tin tout amt) pre).1 tin tout amt hub).2 = Some (p, o) ->
     dominates r o).
Proof.
  intros Hc r. subst r. destruct (best_plan_ok now c tin tout amt Hc) as [Hc' Hp]. split; [done|].
  rewrite best_plan_unfold in Hp |- *. split_and!.
  - intros p out E. by rewrite E in Hp.
  - intros v v' o Hv Ho. eapply hubs_keep, direct_plan_best; eauto.
  - intros pre hub post p o Hh E. rewrite Hh, foldl_app. cbn [foldl]. apply hubs_keep.
    rewrite try_hub_step. cbn [snd]. rewrite E. apply keep_better_new.
Qed.

(** ** What a listed venue is *)
Lemma bucket_double amt amt' : bucket amt' = bucket amt -> amt <= 2 * amt' \/ amt <= 0.
Proof.
  unfold bucket. destruct (amt' <=? 0) eqn:E', (amt <=? 0) eqn:E; try lia.
  - pose proof (Z.log2_nonneg amt). lia.
  - intros H. left. pose proof (Z.log2_spec amt ltac:(lia)). pose proof (Z.log2_spec amt' ltac:(lia)).
    replace (Z.log2 amt) with (Z.log2 amt') in * by lia. rewrite Z.pow_succ_r in * by apply Z.log2_nonneg. lia.
Qed.

Definition balance (token pool : list Z) : Z :=
  default 0 (b ← eth_call_raw token "balanceOf(address)" (address_word pool); word_u256 b).
Lemma deep_balance pool token amt mult : deep_enough_mult eth_call_raw pool token amt mult = true ->
  sat u256 (amt * mult) <= balance token pool.
Proof.
  unfold deep_enough_mult, balance. destruct (eth_call_raw _ _ _) as [b|]; [|done]. cbn [mbind option_bind].
  unfold word_u256. destruct (length b <? 32)%nat; [done|]. cbn. lia.
Qed.

(** The pool a venue names, and how many times the size it must hold. *)
Definition pool_of (v : Venue) : option (list Z * Z) :=
  match v with V3 pool _ => Some (pool, DEPTH_MULTIPLE) | V2 pool => Some (pool, V2_DEPTH_MULTIPLE) | V4 _ _ => None end.

Lemma discover_pool a b amt v pool mult : v ∈ discover a b amt true -> pool_of v = Some (pool, mult) ->
  ((exists fee, pool_for eth_call_raw a b fee = Some pool) \/ exists f, v2_pair eth_call_raw f a b = Some pool) /\
  sat u256 (amt * mult) <= balance a pool.
Proof.
  unfold Planner.discover. rewrite !elem_of_app, !list_elem_of_omap. cbn [negb orb].
  intros [(fee & _ & H)|[(f & _ & H)|(t & _ & H)]] Hp.
  - destruct (pool_for _ a b fee) as [q|] eqn:E; [|done]. cbn [mbind option_bind] in H.
    destruct (deep_enough _ q a amt) eqn:D; [|done]. injection H as <-. injection Hp as -> <-.
    split; [eauto|]. by apply deep_balance.
  - destruct (v2_pair _ f a b) as [q|] eqn:E; [|done]. cbn [mbind option_bind] in H.
    destruct (deep_enough_mult _ q a amt _) eqn:D; [|done]. injection H as <-. injection Hp as -> <-.
    split; [eauto|]. by apply deep_balance.
  - destruct (v4_pool_has_liquidity _ _ _ _ _ _); [|done]. by injection H as <-.
Qed.

(** The gate asks for a multiple of the size, held in the token sold.  Through the cache it
    promises half of that multiple, held in one of the two tokens. *)
Lemma listed_depth a b amt v pool mult : 0 <= amt < 2 ^ 248 -> listed a b amt v -> pool_of v = Some (pool, mult) ->
  amt * (mult / 2) <= balance a pool \/ amt * (mult / 2) <= balance b pool.
Proof.
  intros Ha (amt' & Hb & Hv) Hp.
  assert (0 < mult <= 100 /\ mult = 2 * (mult / 2)) as [Hm Hm2]
    by (destruct v; cbn in Hp; try done; injection Hp as _ <-; by vm_compute).
  assert (forall t, sat u256 (amt' * mult) <= t -> 0 <= amt' -> amt * (mult / 2) <= t) as Hs.
  { intros t Ht H0. unfold sat in Ht. cbn [imin imax u256] in Ht. apply bucket_double in Hb. nia. }
  destruct (Z.le_gt_cases 0 amt') as [H0|H0]; [destruct Hv as [Hv|Hv]; [left|right];
    destruct (discover_pool _ _ _ _ _ _ Hv Hp) as [_ Hd]; auto|].
  assert (amt = 0) as ->; [|destruct Hv as [Hv|Hv]; [left|right];
    destruct (discover_pool _ _ _ _ _ _ Hv Hp) as [_ Hd]; unfold sat in Hd; cbn [imin imax u256] in Hd; nia].
  apply bucket_double in Hb. lia.
Qed.

(** ** Words *)
Definition word_ok (w : list Z) : Prop := length w = 32%nat /\ Forall byte_ok w.
Definition chain_bytes : Prop := forall to sig args r, eth_call_raw to sig args = Some r -> Forall byte_ok r.

Lemma address_ok to sig args p : chain_bytes -> nonzero_addr (eth_call_raw to sig args) = Some p ->
  length p = 20%nat /\ Forall byte_ok p.
Proof.
  intros Hb. unfold nonzero_addr, word_to_lpaddr. destruct (eth_call_raw to sig args) as [w|] eqn:E; [|done].
  cbn [mbind option_bind]. destruct (32 <=? length w)%nat eqn:El; [|done]. cbn [mbind option_bind].
  case_bool_decide; [done|]. intros [= <-]. apply Nat.leb_le in El.
  split; [rewrite length_take, length_drop; lia|]. apply Forall_take, Forall_drop. by eapply Hb.
Qed.
Lemma v2_word_ok pool : length pool = 20%nat -> Forall byte_ok pool -> word_ok (v2_word pool).
Proof.
  intros Hl Hp. split; [unfold v2_word; rewrite length_app, length_replicate; lia|].
  apply Forall_app_2; [|done]. by repeat (constructor; [done|]).
Qed.
Lemma v3_word_ok pool : length pool = 20%nat -> Forall byte_ok pool -> word_ok (v3_word pool).
Proof.
  intros Hl Hp. split; [unfold v3_word; cbn [length]; rewrite length_app, length_replicate; lia|].
  constructor; [done|]. apply Forall_app_2; [|done]. by repeat (constructor; [done|]).
Qed.
Lemma listed_word_ok a b amt v w : chain_bytes -> listed a b amt v -> venue_word v = Some w -> word_ok w.
Proof.
  intros Hb (amt' & _ & Hv) Hw.
  assert (exists pool mult, pool_of v = Some (pool, mult) /\ (w = v3_word pool \/ w = v2_word pool)) as (pool & mult & Hp & Hc)
    by (clear -Hw; destruct v; cbn in *; naive_solver).
  assert (length pool = 20%nat /\ Forall byte_ok pool) as [H1 H2].
  { destruct Hv as [Hv|Hv]; pose proof (discover_pool _ _ _ _ _ _ Hv Hp) as [[(? & E)|(? & E)] _];
      exact (address_ok _ _ _ _ Hb E). }
  destruct Hc as [-> | ->]; [by apply v3_word_ok|by apply v2_word_ok].
Qed.
End Choice.

(** ** The calls *)

(** The argument list the hand-written words stand for. *)
Definition args_rebalance (lp : list Z) (p : Plan) : list Tok :=
  [Address lp; Uint 0; Uint (from_be_bytes (dex p)); Uint (from_be_bytes (dex2 p)); Bytes (route_bytes p)].

Lemma word_roundtrip w : word_ok w -> to_be_bytes 32 (from_be_bytes w) = w.
Proof. intros [Hl Hb]. rewrite <- Hl. by apply be_encode_decode. Qed.
Lemma word_range w : word_ok w -> 0 <= from_be_bytes w < 2 ^ Z.of_nat 256.
Proof. intros [Hl Hb]. pose proof (from_be_range w Hb) as H. rewrite Hl in H. by change (2 ^ Z.of_nat 256) with (256 ^ Z.of_nat 32). Qed.

Lemma pad_route_spec r : pad_route r = r ++ replicate ((32 - length r mod 32) mod 32) 0.
Proof.
  unfold pad_route. pose proof (Nat.mod_upper_bound (length r) 32 ltac:(done)) as H.
  destruct (length r mod 32 =? 0)%nat eqn:E.
  - apply Nat.eqb_eq in E. rewrite E. change (replicate _ _) with (@nil Z). by rewrite app_nil_r.
  - apply Nat.eqb_neq in E. by rewrite (Nat.mod_small (32 - _)) by lia.
Qed.

(** The words the keepers write by hand are the ABI encoding of the arguments. *)
Lemma rebalance_words_encode lp p : word_ok (dex p) -> word_ok (dex2 p) ->
  rebalance_words lp p = encode_tuple (args_rebalance lp p).
Proof.
  intros H1 H2. unfold rebalance_words, encode_tuple, with_tails, args_rebalance.
  cbn [map tuple_loop is_dynamic head_static Abi.tail heads_len sum_list head_len app length Nat.add].
  rewrite !word_roundtrip, pad_route_spec by done. unfold encode_bytes, word_u64, u64_word.
  rewrite <- !app_assoc. reflexivity.
Qed.

Lemma rebalance_words_decode lp p : length lp = 20%nat -> word_ok (dex p) -> word_ok (dex2 p) ->
  Z.of_nat (length (rebalance_words lp p)) < 2 ^ 64 ->
  abi_decode [TAddress; TUint 256; TUint 256; TUint 256; TBytes] (rebalance_words lp p) = Some (args_rebalance lp p).
Proof.
  intros Hlp H1 H2. rewrite rebalance_words_encode by done. intros Hf.
  rewrite <- (app_nil_r (encode_tuple _)). apply tuple_decodes; [apply Forall_true, all_decode| |done].
  repeat constructor; try done; by apply word_range.
Qed.

(** ** The plan that is sent *)

(** The shape of a plan: one hop named by [dex], or two, of which [dex2] is the first and
    [dex] the second.  Which pools the words name is the matter of [plan_source]. *)
Definition plan_ok (p : Plan) : Prop :=
  word_ok (dex p) /\ word_ok (dex2 p) /\
  ((dex2 p = replicate 32 0 /\ hops p = [dex p]) \/ hops p = [dex2 p; dex p]).

Lemma zero_word_ok : word_ok (replicate 32 0).
Proof. split; [done|]. by repeat (constructor; [done|]). Qed.
Lemma dex_word_ok env : word_ok (dex_word env).
Proof.
  destruct env as [n|]; [|split; [done|]; by repeat (constructor; [done|])].
  split; [unfold dex_word; by rewrite length_app, length_replicate, to_be_length|].
  apply Forall_app_2; [by repeat (constructor; [done|])|apply to_be_bytes_ok].
Qed.
Lemma one_hop_ok w : word_ok w -> plan_ok (one_hop w).
Proof. intros H. split_and!; [done|apply zero_word_ok|by left]. Qed.
Lemma two_hops_ok w1 w2 : word_ok w1 -> word_ok w2 -> plan_ok (two_hops w1 w2).
Proof. intros H1 H2. split_and!; [done|done|by right]. Qed.
#[local] Hint Resolve one_hop_ok two_hops_ok dex_word_ok : planner.

Lemma priced_route_ok eth_call_raw keccak256 tin tout amt p out : chain_bytes eth_call_raw ->
  PricedRoute eth_call_raw keccak256 tin tout amt p out -> plan_ok p.
Proof.
  intros Hb [w o (v & Hl & Hw & _)|hub w1 mid w2 o _ _ _ (v1 & Hl1 & Hw1 & _) (v2 & Hl2 & Hw2 & _)];
    eauto using listed_word_ok with planner.
Qed.

Lemma prefer_fetched_ok env planned f p :
  (forall q o, planned = Some (q, o) -> plan_ok q) -> prefer_fetched env planned f = Some p -> plan_ok p.
Proof.
  intros Hp. assert (plan_ok (default_plan env)) as Hd by (unfold default_plan; auto with planner).
  assert (forall q, fst <$> planned = Some q -> plan_ok q) as Hq.
  { intros q. destruct planned as [[r o]|]; [|done]. cbn. intros [= <-]. by eapply Hp. }
  unfold prefer_fetched. destruct f as [[o data]|]; [|auto].
  destruct (_ <? o); [|auto]. intros [= <-].
  destruct (fst <$> planned) as [q|] eqn:E; [exact (Hq q eq_refl)|exact Hd].
Qed.

Lemma plan_for_lp_ok env eth_read eth_call_raw keccak256 oneinch now c lm lp volatile :
  chain_bytes eth_call_raw -> CacheOk eth_call_raw keccak256 c ->
  let '(c', p) := plan_for_lp env eth_read eth_call_raw keccak256 oneinch now c lm lp volatile in
  CacheOk eth_call_raw keccak256 c' /\ plan_ok p.
Proof.
  intros Hb Hc. assert (plan_ok (default_plan env)) as Hd by (unfold default_plan; auto with planner).
  unfold plan_for_lp. destruct (_ ≫= _) as [[stable amt]|]; [|done].
  destruct (best_plan_ok eth_call_raw keccak256 now c stable volatile amt Hc) as [Hc' Hp].
  destruct (best_plan_quoted _ _ _ _ _ _ _) as [c' planned]. cbn [fst snd] in *. split; [done|].
  destruct (prefer_fetched env planned _) as [p|] eqn:E; [|done]. cbn.
  eapply prefer_fetched_ok; [|done]. intros q o ->. by eapply priced_route_ok.
Qed.

Lemma route_bytes_nonempty p : plan_ok p -> route_bytes p <> [].
Proof.
  intros (_ & _ & H). unfold route_bytes. destruct (fetched p) eqn:E; cbn; [|done].
  by destruct H as [[_ ->]| ->].
Qed.

Definition plan_words (p : Plan) : list Z * list Z * list (list Z) := (dex p, dex2 p, hops p).

(** Where the words come from: a route the search priced, from the position's stable to the
    volatile token at the size of the position, each hop a pool the chain lists for its pair;
    or the word of the environment, only when the position cannot be read or no such route
    was found. *)
Definition plan_source (env : option Z) (eth_read eth_call_raw : list Z -> string -> list Z -> option (list Z))
    (keccak256 : list Z -> list Z) (now : Z) (c : Cache) (lm lp volatile : list Z) (p : Plan) : Prop :=
  (exists stable amt q out, venue_stable_of eth_read lm lp = Some stable /\
     ranking_size eth_read lm lp stable = Some amt /\
     PricedRoute eth_call_raw keccak256 stable volatile amt q out /\ plan_words p = plan_words q) \/
  (plan_words p = plan_words (default_plan env) /\
   forall stable amt, venue_stable_of eth_read lm lp = Some stable -> ranking_size eth_read lm lp stable = Some amt ->
     (best_plan_quoted eth_call_raw keccak256 now c stable volatile amt).2 = None).

Lemma prefer_fetched_words env planned f :
  plan_words (default (default_plan env) (prefer_fetched env planned f)) =
  plan_words (default (default_plan env) (fst <$> planned)).
Proof. unfold prefer_fetched. by destruct f as [[o data]|]; [destruct (_ <? o)|]; destruct planned as [[]|]. Qed.

Lemma plan_for_lp_source env eth_read eth_call_raw keccak256 oneinch now c lm lp volatile :
  CacheOk eth_call_raw keccak256 c ->
  plan_source env eth_read eth_call_raw keccak256 now c lm lp volatile
    (plan_for_lp env eth_read eth_call_raw keccak256 oneinch now c lm lp volatile).2.
Proof.
  intros Hc. unfold plan_source, plan_for_lp. destruct (venue_stable_of eth_read lm lp) as [stable|]; [|by right].
  cbn [mbind option_bind]. destruct (ranking_size eth_read lm lp stable) as [amt|] eqn:Er; [|right; split; [done|congruence]].
  cbn [mbind option_bind].
  destruct (best_plan_ok eth_call_raw keccak256 now c stable volatile amt Hc) as [_ Hp].
  destruct (best_plan_quoted eth_call_raw keccak256 now c stable volatile amt) as [c' planned] eqn:Eb. cbn [snd] in *.
  rewrite prefer_fetched_words. destruct planned as [[q out]|]; [left; by exists stable, amt, q, out|right].
  split; [done|]. intros st a [= <-] Ea. rewrite Er in Ea. injection Ea as <-. by rewrite Eb.
Qed.

(** C24: What a keeper sends.  Whatever the chain and the aggregator answer, the call carries
    a plan of two words of 32 bytes that mirror the hops, the first hop in [dex2], and a route
    that is never empty, so the arm that would fall back to the contract's default venue is
    not reached.  The words name the route that was priced for the position, from its stable
    to the volatile token of the leg, or else, when the position cannot be read or nothing was
    priced, the one configured word, whatever the token of the leg
    ([unplanned_wbtc_gets_weth_pool], [override_never_v3]); the aggregator can replace the
    route and not the words.  Both hand-written calls decode, with the decoder of the Solidity
    ABI, to the position's owner, a zero floor, the two words and the route, and the signing
    policy accepts them for every allowed contract. *)
Theorem keeper_call_sound env eth_read eth_call_raw keccak256 oneinch now c lm lp volatile allowed f :
  chain_bytes eth_call_raw -> CacheOk eth_call_raw keccak256 c -> (forall d, length (keccak256 d) = 32%nat) ->
  length lp = 20%nat ->
  let p := (plan_for_lp env eth_read eth_call_raw keccak256 oneinch now c lm lp volatile).2 in
  Z.of_nat (length (rebalance_words lp p)) < 2 ^ 64 ->
  (tx_data f = rebalance_data keccak256 lp p \/ tx_data f = rebalance_wbtc_data keccak256 lp p) ->
  value f = 0 -> tx_to f ∈ allowed -> tx_to f <> ADDRESS_ZERO ->
  plan_ok p /\ plan_source env eth_read eth_call_raw keccak256 now c lm lp volatile p /\ route_bytes p <> [] /\
  abi_decode [TAddress; TUint 256; TUint 256; TUint 256; TBytes] (drop 4 (tx_data f)) = Some (args_rebalance lp p) /\
  policy_check (policy_new keccak256 allowed) f = inl tt.
Proof.
  intros Hb Hc Hk Hlp p Hf Hd Hv Ht Hz.
  pose proof (plan_for_lp_ok env eth_read eth_call_raw keccak256 oneinch now c lm lp volatile Hb Hc) as H.
  assert (plan_ok p) as Hp by (subst p; clear -H; destruct (plan_for_lp _ _ _ _ _ _ _ _ _ _); tauto).
  assert (exists sig, sig ∈ signed_sigs /\ tx_data f = selector4 keccak256 sig ++ rebalance_words lp p) as (sig & Hs & Hd').
  { destruct Hd as [-> | ->]; eexists; (split; [|reflexivity]);
      apply (bool_decide_unpack (_ ∈ signed_sigs)); by vm_compute. }
  assert (length (selector4 keccak256 sig) = 4%nat) as H4 by (unfold selector4; rewrite length_take, Hk; lia).
  split_and!; [done|by apply plan_for_lp_source|by apply route_bytes_nonempty| |].
  - rewrite Hd', drop_app_length' by done. destruct Hp as (H1 & H2 & _). by apply rebalance_words_decode.
  - apply policy_check_iff. rewrite Hd'. split_and!; [done..|rewrite length_app; lia|].
    exists sig. by rewrite take_app_length'.
Qed.

(** ** Samples *)
Module Sample.
Definition word (z : Z) : list Z := to_be_bytes 32 z.
Definition dai : list Z := replicate 20 7.
Definition pool1 : list Z := replicate 20 11.
Definition pool2 : list Z := replicate 20 12.
(** One pool for DAI/USDC at the lowest tier and one for USDC/WETH at the second; both are
    deep, the first hop returns 90 and the second 30. *)
Definition chain (to : list Z) (sig : string) (args : list Z) : option (list Z) :=
  if bool_decide (to = UNIV3_FACTORY) then
    Some (if bool_decide (args = address_word dai ++ address_word USDC_ADDR ++ u64_word 100) then address_word pool1
          else if bool_decide (args = address_word USDC_ADDR ++ address_word WETH_ADDR ++ u64_word 500) then address_word pool2
          else word 0)
  else if bool_decide (to = QUOTER_V2) then
    Some (word (if bool_decide (take 32 args = address_word dai) then 90 else 30))
  else if bool_decide (sig = "balanceOf(address)"%string) then Some (word 1000000)
  else None.
Definition hash (_ : list Z) : list Z := replicate 32 1.
Definition manager : list Z := replicate 20 21.
Definition venue : list Z := replicate 20 22.
Definition owner : list Z := replicate 20 23.
Definition reads (to : list Z) (sig : string) (_ : list Z) : option (list Z) :=
  if bool_decide (to = manager) then
    Some (if bool_decide (sig = "pos(address)"%string) then address_word venue else word (100 * 10 ^ 18))
  else if bool_decide (to = venue) then Some (address_word dai)
  else if bool_decide (to = dai) then Some (word 0)
  else None.
Definition no_quote (_ _ : list Z) (_ : Z) : option (Z * list Z) := None.
Definition plan : Plan := (plan_for_lp None reads chain hash no_quote 0 ∅ manager owner WETH_ADDR).2.

Lemma chain_ok : chain_bytes chain.
Proof.
  intros to sig args r. unfold chain, word.
  repeat case_bool_decide; try done; intros [= <-];
    first [apply to_be_bytes_ok | by repeat (constructor; [done|])].
Qed.
End Sample.

Lemma best_plan_optimal_witness :
  PricedRoute Sample.chain Sample.hash Sample.dai WETH_ADDR 100 (two_hops (v3_word Sample.pool1) (v3_word Sample.pool2)) 30.
Proof.
  apply (best_plan_optimal Sample.chain Sample.hash 0 ∅ Sample.dai WETH_ADDR 100 (cache_ok_empty _ _)).
  by vm_compute.
Defined.

Lemma keeper_call_sound_witness :
  let f := mkTxFields 1 2 3 4 5 Sample.manager 0 (rebalance_data Sample.hash Sample.owner Sample.plan) in
  abi_decode [TAddress; TUint 256; TUint 256; TUint 256; TBytes] (drop 4 (tx_data f))
    = Some (args_rebalance Sample.owner Sample.plan) /\
  policy_check (policy_new Sample.hash [Sample.manager]) f = inl tt.
Proof.
  intros f.
  assert (Z.of_nat (length (rebalance_words Sample.owner Sample.plan)) < 2 ^ 64) as Hf by (by vm_compute).
  exact (proj2 (proj2 (proj2 (keeper_call_sound None Sample.reads Sample.chain Sample.hash Sample.no_quote 0 ∅
    Sample.manager Sample.owner WETH_ADDR [Sample.manager] f Sample.chain_ok (cache_ok_empty _ _)
    (fun _ => eq_refl) eq_refl Hf (or_introl eq_refl) eq_refl
    (list_elem_of_here _ _) ltac:(discriminate))))).
Defined.

(** ** The override of the venue word *)

(** The override is read as a [u128] and written into the low half, so the protocol bits stay
    clear whatever its value: it never names a V3 pool, and a V2 pool only when the first four
    bytes of its address are zero. *)
Lemma override_never_v3 n pool : dex_word (Some n) <> v3_word pool.
Proof. by vm_compute. Qed.
Lemma override_v2_low n pool : dex_word (Some n) = v2_word pool -> take 4 pool = replicate 4 0.
Proof.
  unfold dex_word, v2_word. change (replicate 16 0) with (replicate 12 0 ++ replicate 4 0).
  rewrite <- app_assoc. intros <-%app_inv_head. reflexivity.
Qed.

(** ** The constant-product quote *)

(** With reserves of 112 bits, as pairs keep them, and a size below [2 ^ 128] no operation
    wraps and the divisor is positive; the output is below the reserve. *)
Lemma v2_out_exact rin rout amt : 0 < rin < 2 ^ 112 -> 0 < rout < 2 ^ 112 -> 0 <= amt < 2 ^ 128 ->
  v2_out rin rout amt = (amt * 997 * rout) / (rin * 1000 + amt * 997) /\ v2_out rin rout amt < rout.
Proof.
  intros Hi Ho Ha. assert (v2_out rin rout amt = (amt * 997 * rout) / (rin * 1000 + amt * 997)) as E.
  { unfold v2_out, wrap256. rewrite !(Z.mod_small (amt * 997)) by lia. rewrite (Z.mod_small (rin * 1000)) by lia.
    rewrite (Z.mod_small (amt * 997 * rout)); [|split; [lia|]].
    - rewrite Z.mod_small by lia. done.
    - apply Z.lt_le_trans with (2 ^ 138 * 2 ^ 112); [|by vm_compute]. apply Z.mul_lt_mono_nonneg; lia. }
  split; [done|]. rewrite E. apply Z.div_lt_upper_bound; lia.
Qed.

(** A position that cannot be planned is sent the WETH/USDC pool also when the leg buys WBTC;
    the WBTC word is a different one and nothing sends it. *)
Lemma unplanned_wbtc_gets_weth_pool eth_read eth_call_raw keccak256 oneinch now c lm lp :
  venue_stable_of eth_read lm lp = None ->
  dex (plan_for_lp None eth_read eth_call_raw keccak256 oneinch now c lm lp WBTC_ADDR).2 = v3_word hex_lit_pool /\
  v3_word hex_lit_pool <> dex_word_wbtc None.
Proof. intros H. unfold plan_for_lp. rewrite H. split; [done|by vm_compute]. Qed.
