(* ===== verification/Transport.v ===== *)
(** * Transport: JSON-RPC over several endpoints

    [quid-ln/quid-bridge/src/transport.rs] and the validation of [config.rs]: how a call is
    routed by its method, the quorum that reads must reach, and the bounds a configuration
    must satisfy before the daemon starts.

    An endpoint is a function from a call to its answer, [inr] being a transport failure or a
    JSON-RPC error with its message.  An object is the list of its members in the order of
    the map that holds them, so that equality of values is equality of lists. *)
From Stdlib Require Import String Ascii.
From stdpp Require Import gmap strings.
From S2P Require Import Prelude.
Open Scope list_scope.

(** ** Values *)
Inductive Value :=
| Null
| Bool (b : bool)
| Number (n : Z)
| Str (s : string)
| Array (l : list Value)
| Object (l : list (string * Value)).

Definition as_str (v : Value) : option string := match v with Str s => Some s | _ => None end.
Definition as_array (v : Value) : option (list Value) := match v with Array l => Some l | _ => None end.
Definition is_null (v : Value) : bool := match v with Null => true | _ => false end.
Definition is_object (v : Value) : bool := match v with Object _ => true | _ => false end.
Definition get_index (v : Value) (i : nat) : option Value := match v with Array l => l !! i | _ => None end.
Fixpoint assoc (k : string) (l : list (string * Value)) : option Value :=
  match l with
  | [] => None
  | (k', v) :: l => if String.eqb k k' then Some v else assoc k l
  end.
Definition get_key (v : Value) (k : string) : option Value := match v with Object l => assoc k l | _ => None end.

Fixpoint value_eqb (a b : Value) : bool :=
  match a, b with
  | Null, Null => true
  | Bool x, Bool y => Bool.eqb x y
  | Number x, Number y => x =? y
  | Str x, Str y => String.eqb x y
  | Array l, Array m =>
      (fix go l m := match l, m with
                     | [], [] => true
                     | x :: l, y :: m => value_eqb x y && go l m
                     | _, _ => false
                     end) l m
  | Object l, Object m =>
      (fix go l m := match l, m with
                     | [], [] => true
                     | (k, x) :: l, (k', y) :: m => String.eqb k k' && value_eqb x y && go l m
                     | _, _ => false
                     end) l m
  | _, _ => false
  end.

(** ** Responses *)
Abbreviation Answer := (Value + string)%type.

Definition parse_rpc_response (resp : Value) : Answer :=
  match get_key resp "error" with
  | Some e => if is_null e then match get_key resp "result" with Some v => inl v | None => inr "missing result"%string end
              else inr "JSON-RPC error"%string
  | None => match get_key resp "result" with Some v => inl v | None => inr "missing result"%string end
  end.

(** ** Routing *)
Inductive MethodClass := Agreement | Broadcast | FirstHealthy.

Definition lower_char (c : ascii) : ascii :=
  let n := nat_of_ascii c in if ((65 <=? n) && (n <=? 90))%nat then ascii_of_nat (n + 32) else c.
Fixpoint to_ascii_lowercase (s : string) : string :=
  match s with
  | EmptyString => EmptyString
  | String c s => String (lower_char c) (to_ascii_lowercase s)
  end.

Definition dynamic_tags : list string := ["latest"; "pending"; "earliest"; "safe"; "finalized"]%string.
Definition is_concrete_block_tag (tag : Value) : bool :=
  match as_str tag with
  | Some s => let lower := to_ascii_lowercase s in
              negb (existsb (String.eqb lower) dynamic_tags) && String.prefix "0x" lower
  | None => is_object tag
  end.

Definition if_concrete (tag : option Value) : MethodClass :=
  match tag with
  | Some tag => if is_concrete_block_tag tag then Agreement else FirstHealthy
  | None => FirstHealthy
  end.
Definition classify (method : string) (params : Value) : MethodClass :=
  if String.eqb method "eth_sendRawTransaction" then Broadcast
  else if String.eqb method "eth_call" then if_concrete (get_index params 1)
  else if String.eqb method "eth_getBlockByNumber" then if_concrete (get_index params 0)
  else if String.eqb method "eth_getLogs" then
    let filter := get_index params 0 in
    match (f ← filter; get_key f "fromBlock"), (f ← filter; get_key f "toBlock") with
    | Some f, Some t => if is_concrete_block_tag f && is_concrete_block_tag t then Agreement else FirstHealthy
    | _, _ => FirstHealthy
    end
  else if String.eqb method "eth_getBlockByHash" || String.eqb method "eth_chainId" || String.eqb method "eth_getCode" then Agreement
  else FirstHealthy.

(** ** The quorum transport *)
Abbreviation Endpoint := (string -> Value -> Answer).
Record QuorumJsonRpc := mkQuorum { endpoints : list Endpoint; quorum : nat; send_endpoints : list Endpoint }.

(** [clamp(1, endpoints.len())]; the list is asserted not to be empty. *)
Definition quorum_new (eps : list Endpoint) (q : nat) : option QuorumJsonRpc :=
  if (length eps =? 0)%nat then None
  else Some (mkQuorum eps (if (q <? 1)%nat then 1 else if (length eps <? q)%nat then length eps else q)%nat []).
Definition with_send_endpoints (r : QuorumJsonRpc) (eps : list Endpoint) : QuorumJsonRpc :=
  mkQuorum (endpoints r) (quorum r) eps.

(** Counting an answer: its new count, and the tally with it. *)
Fixpoint tally_up (v : Value) (tally : list (Value * nat)) : option (nat * list (Value * nat)) :=
  match tally with
  | [] => None
  | (w, c) :: tally =>
      if value_eqb w v then Some (S c, (w, S c) :: tally)
      else '(n, tally) ← tally_up v tally; Some (n, (w, c) :: tally)
  end.
Fixpoint agreement_loop (q : nat) (method : string) (params : Value) (eps : list Endpoint)
    (tally : list (Value * nat)) : Answer :=
  match eps with
  | [] => inr "quorum NOT reached"%string
  | ep :: eps =>
      match ep method params with
      | inl v =>
          match tally_up v tally with
          | Some (n, tally) => if (q <=? n)%nat then inl v else agreement_loop q method params eps tally
          | None => if (q <=? 1)%nat then inl v else agreement_loop q method params eps (tally ++ [(v, 1%nat)])
          end
      | inr _ => agreement_loop q method params eps tally
      end
  end.
Definition call_agreement (r : QuorumJsonRpc) (method : string) (params : Value) : Answer :=
  agreement_loop (quorum r) method params (endpoints r) [].

Fixpoint broadcast_loop (method : string) (params : Value) (eps : list Endpoint) (first_ok : option Value)
    (last_err : option string) : Answer :=
  match eps with
  | [] => match first_ok with
          | Some v => inl v
          | None => inr (default "broadcast: all endpoints failed"%string last_err)
          end
  | ep :: eps =>
      match ep method params with
      | inl v => broadcast_loop method params eps (match first_ok with None => Some v | _ => first_ok end) last_err
      | inr e => broadcast_loop method params eps first_ok (Some e)
      end
  end.
Definition call_broadcast (eps : list Endpoint) (method : string) (params : Value) : Answer :=
  broadcast_loop method params eps None None.

Fixpoint first_healthy_loop (method : string) (params : Value) (eps : list Endpoint) (last_err : option string) : Answer :=
  match eps with
  | [] => inr (default "first-healthy: no endpoints"%string last_err)
  | ep :: eps => match ep method params with
                 | inl v => inl v
                 | inr e => first_healthy_loop method params eps (Some e)
                 end
  end.
Definition call_first_healthy (r : QuorumJsonRpc) (method : string) (params : Value) : Answer :=
  first_healthy_loop method params (endpoints r) None.

Definition quorum_call (r : QuorumJsonRpc) (method : string) (params : Value) : Answer :=
  match classify method params with
  | Agreement => call_agreement r method params
  | Broadcast => call_broadcast (if (length (send_endpoints r) =? 0)%nat then endpoints r else send_endpoints r) method params
  | FirstHealthy => call_first_healthy r method params
  end.

(** ** Configuration *)
Record BridgeConfig := mkConfig {
  rpc_url : string;
  rpc_urls : list string;
  rpc_quorum : nat;                        (* usize *)
  chain_id : Z;                            (* u64 *)
  btc_channels : list Z;                   (* 20 bytes *)
  min_confirmations : Z;                   (* u64 *)
  min_cltv_headroom_blocks : Z;            (* u32 *)
  settle_max_retries : Z;                  (* u32 *)
  retry_backoff_secs : Z;                  (* u64 *)
  cfg_max_fee_per_gas : Z;                 (* u128 *)
  cfg_max_priority_fee_per_gas : Z;        (* u128 *)
  cfg_gas_limit : Z;                       (* u64 *)
  receipt_poll_attempts : nat;             (* u32 *)
  receipt_poll_secs : Z;                   (* u64 *)
  fee_bump_attempts : nat;                 (* u32 *)
  fee_bump_pct : Z;                        (* u32 *)
  settle_min_confirmations : Z;            (* u64 *)
  max_log_block_span : Z;                  (* u64 *)
  swap_out_poll_secs : Z;                  (* u64 *)
  btc_vault : list Z;                      (* 20 bytes *)
  spv_gateway : list Z;                    (* 20 bytes *)
  relay_batch_max : Z;                     (* u64 *)
  relay_gas_limit : Z;                     (* u64 *)
  relay_poll_secs : Z;                     (* u64 *)
  relay_reorg_lookback : Z;                (* u64 *)
  channel_reconcile_secs : Z;              (* u64 *)
  relayer_defer_inflight : nat             (* usize *)
}.

Definition rpc_endpoint_list (c : BridgeConfig) : list string :=
  if (length (rpc_urls c) =? 0)%nat then [rpc_url c] else rpc_urls c.

(** [u.trim().is_empty()] for ASCII. *)
Definition is_space (c : ascii) : bool :=
  let n := nat_of_ascii c in ((n =? 32) || ((9 <=? n) && (n <=? 13)))%nat.
Fixpoint blank (s : string) : bool :=
  match s with EmptyString => true | String c s => is_space c && blank s end.

Inductive ConfigFault :=
| ZeroChainId | ZeroContract | ZeroMaxFee | PriorityAboveMax | BumpTooSmall | ZeroGas | ZeroConfirmations
| ZeroPolls | ZeroBatch | ZeroSpan | ZeroInterval | NoEndpoint | ZeroQuorum | QuorumAboveEndpoints | SingleQuorum
| TooFewEndpoints | QuorumBelowTwo | NoMajority.

Definition zero_address (a : list Z) : bool := bool_decide (a = replicate 20 0).
Definition validate (c : BridgeConfig) : option ConfigFault :=
  if chain_id c =? 0 then Some ZeroChainId
  else if zero_address (btc_channels c) || zero_address (btc_vault c) || zero_address (spv_gateway c) then Some ZeroContract
  else if cfg_max_fee_per_gas c =? 0 then Some ZeroMaxFee
  else if cfg_max_fee_per_gas c <? cfg_max_priority_fee_per_gas c then Some PriorityAboveMax
  else if fee_bump_pct c <? 113 then Some BumpTooSmall
  else if (cfg_gas_limit c =? 0) || (relay_gas_limit c =? 0) then Some ZeroGas
  else if (min_confirmations c =? 0) || (settle_min_confirmations c =? 0) then Some ZeroConfirmations
  else if (receipt_poll_attempts c =? 0)%nat then Some ZeroPolls
  else if relay_batch_max c =? 0 then Some ZeroBatch
  else if max_log_block_span c =? 0 then Some ZeroSpan
  else if (swap_out_poll_secs c =? 0) || (relay_poll_secs c =? 0) then Some ZeroInterval
  else
    let effective := rpc_endpoint_list c in
    if (length effective =? 0)%nat || forallb blank effective then Some NoEndpoint
    else if (rpc_quorum c <? 1)%nat then Some ZeroQuorum
    else if (length effective <? rpc_quorum c)%nat then Some QuorumAboveEndpoints
    else if (length effective =? 1)%nat && negb (rpc_quorum c =? 1)%nat then Some SingleQuorum
    else None.
Definition validate_hardened (c : BridgeConfig) : option ConfigFault :=
  match validate c with
  | Some e => Some e
  | None =>
      let len := length (rpc_endpoint_list c) in
      if (len <? 2)%nat then Some TooFewEndpoints
      else if (rpc_quorum c <? 2)%nat then Some QuorumBelowTwo
      else if (2 * rpc_quorum c <=? len)%nat then Some NoMajority
      else None
  end.

(** * Properties *)

(** ** Equality of values *)
Section ValueInd.
Variable P : Value -> Prop.
Hypothesis Pnull : P Null.
Hypothesis Pbool : forall b, P (Bool b).
Hypothesis Pnum : forall n, P (Number n).
Hypothesis Pstr : forall s, P (Str s).
Hypothesis Parr : forall l, Forall P l -> P (Array l).
Hypothesis Pobj : forall l, Forall (fun kv => P kv.2) l -> P (Object l).

Fixpoint value_rect' (v : Value) : P v :=
  match v with
  | Null => Pnull
  | Bool b => Pbool b
  | Number n => Pnum n
  | Str s => Pstr s
  | Array l => Parr l ((fix go l : Forall P l :=
                          match l with
                          | [] => Forall_nil_2 P
                          | x :: l => Forall_cons_2 P x l (value_rect' x) (go l)
                          end) l)
  | Object l => Pobj l ((fix go l : Forall (fun kv => P kv.2) l :=
                           match l with
                           | [] => Forall_nil_2 _
                           | kv :: l => Forall_cons_2 _ kv l (value_rect' kv.2) (go l)
                           end) l)
  end.
End ValueInd.

Lemma value_eqb_eq a b : value_eqb a b = true <-> a = b.
Proof.
  revert b. induction a using value_rect'; intros []; cbn [value_eqb]; try (split; intros; congruence).
  - rewrite Bool.eqb_true_iff. split; congruence.
  - rewrite Z.eqb_eq. split; congruence.
  - rewrite String.eqb_eq. split; congruence.
  - rename l0 into m. transitivity (l = m); [|split; congruence]. revert m.
    induction H as [|x l Hx _ IH]; intros [|y m]; try (split; intros; congruence).
    rewrite andb_true_iff, Hx, IH. split; [intros []; congruence|intros [= -> ->]; done].
  - rename l0 into m. transitivity (l = m); [|split; congruence]. revert m.
    induction H as [|[k x] l Hx _ IH]; intros [|[k' y] m]; try (split; intros; congruence).
    cbn [snd] in Hx. rewrite !andb_true_iff, String.eqb_eq, Hx, IH.
    split; [intros [[]]; congruence|intros [= -> -> ->]; done].
Qed.
#[export] Instance value_eq_dec : EqDecision Value.
Proof. intros a b. destruct (value_eqb a b) eqn:E; [left; by apply value_eqb_eq|right; by rewrite <- value_eqb_eq, E]. Defined.
Lemma value_eqb_decide a b : value_eqb a b = bool_decide (a = b).
Proof. apply eq_true_iff_eq. by rewrite value_eqb_eq, bool_decide_eq_true. Qed.

(** ** Agreement *)

(** The values the endpoints answer, in order; how many of a list of values are [v], and how
    many are not. *)
Definition values (method : string) (params : Value) (eps : list Endpoint) : list Value :=
  omap (fun ep : Endpoint => match ep method params with inl v => Some v | inr _ => None end) eps.
Definition votes (v : Value) (l : list Value) : nat := length (filter (fun w => w = v) l).
Definition against (v : Value) (l : list Value) : nat := length (filter (fun w => w <> v) l).

Lemma votes_app v l m : votes v (l ++ m) = (votes v l + votes v m)%nat.
Proof. unfold votes. by rewrite filter_app, length_app. Qed.
Lemma votes_cons v w l : votes v (w :: l) = ((if bool_decide (w = v) then 1 else 0) + votes v l)%nat.
Proof. unfold votes. rewrite filter_cons. by destruct (base.decide (w = v)), (bool_decide_reflect (w = v)). Qed.
Lemma votes_against v w l : v <> w -> (votes v l <= against w l)%nat.
Proof.
  intros Hne. unfold votes, against. induction l as [|x l IH]; [done|]. rewrite !filter_cons.
  destruct (base.decide (x = v)), (base.decide (x <> w)); cbn [length]; try lia. exfalso. apply n. congruence.
Qed.
Lemma votes_elem v l : (0 < votes v l)%nat <-> v ∈ l.
Proof.
  induction l as [|x l IH]; [split; [cbn; lia|by intros ?%not_elem_of_nil]|].
  rewrite votes_cons, elem_of_cons. clear -IH. destruct (bool_decide_reflect (x = v)) as [->|Hn]; [split; [by left|lia]|].
  rewrite Nat.add_0_l, IH. split; [by right|intros [?|?]; [congruence|done]].
Qed.

(** The count a tally keeps for a value. *)
Fixpoint tally_of (v : Value) (tally : list (Value * nat)) : option nat :=
  match tally with
  | [] => None
  | (w, c) :: tally => if value_eqb w v then Some c else tally_of v tally
  end.
Lemma tally_up_none v tally : tally_up v tally = None <-> tally_of v tally = None.
Proof.
  induction tally as [|[w c] tally IH]; [done|]. cbn [tally_up tally_of]. destruct (value_eqb w v); [done|].
  rewrite <- IH. destruct (tally_up v tally) as [[n t]|]; by cbn.
Qed.
Lemma tally_up_some v tally n tally' : tally_up v tally = Some (n, tally') ->
  exists c, tally_of v tally = Some c /\ n = S c /\
    forall w, tally_of w tally' = if bool_decide (w = v) then Some (S c) else tally_of w tally.
Proof.
  revert n tally'. induction tally as [|[x c] tally IH]; intros n tally'; [done|]. cbn [tally_up tally_of].
  rewrite !value_eqb_decide. case_bool_decide as Hx.
  - intros [= <- <-]. exists c. split_and!; [done..|]. intros w. cbn [tally_of]. rewrite value_eqb_decide, Hx.
    repeat case_bool_decide; congruence.
  - destruct (tally_up v tally) as [[m t]|]; [|done]. cbn. intros [= <- <-].
    destruct (IH m t eq_refl) as (d & Hd & -> & Hw). exists d. split_and!; [done..|]. intros w. cbn [tally_of].
    rewrite value_eqb_decide, Hw. repeat case_bool_decide; congruence.
Qed.
Lemma tally_of_snoc v w c tally : tally_of w tally = None ->
  tally_of v (tally ++ [(w, c)]) = if bool_decide (v = w) then Some c else tally_of v tally.
Proof.
  induction tally as [|[x d] tally IH]; cbn [tally_of app]; rewrite ?value_eqb_decide.
  - intros _. repeat case_bool_decide; congruence.
  - destruct (bool_decide_reflect (x = w)); [done|]. intros H. rewrite IH by done.
    repeat case_bool_decide; congruence.
Qed.

(** The tally counts what was answered so far, and nothing has reached the quorum. *)
Definition tally_ok (q : nat) (pre : list Value) (tally : list (Value * nat)) : Prop :=
  forall v, (votes v pre < q)%nat /\ tally_of v tally = (if bool_decide (v ∈ pre) then Some (votes v pre) else None).

Lemma votes_snoc v w l : votes v (l ++ [w]) = (votes v l + if bool_decide (w = v) then 1 else 0)%nat.
Proof. rewrite votes_app, votes_cons. change (votes v []) with 0%nat. lia. Qed.

Lemma tally_ok_snoc q pre tally tally' v : tally_ok q pre tally -> (votes v (pre ++ [v]) < q)%nat ->
  (forall w, tally_of w tally' = if bool_decide (w = v) then Some (votes v (pre ++ [v])) else tally_of w tally) ->
  tally_ok q (pre ++ [v]) tally'.
Proof.
  intros Ht Hq Hw w. rewrite Hw. destruct (Ht w) as [Hb E]. destruct (bool_decide_reflect (w = v)) as [Hwv|Hwv].
  - subst w. split; [done|]. rewrite bool_decide_true by set_solver. done.
  - rewrite votes_snoc, bool_decide_false, Nat.add_0_r by congruence. split; [done|]. rewrite E.
    destruct (bool_decide_reflect (w ∈ pre)), (bool_decide_reflect (w ∈ pre ++ [v])); set_solver.
Qed.

(** What the loop returns, over the answers before it and those it collects. *)
Lemma agreement_loop_spec q method params eps pre tally : (1 <= q)%nat -> tally_ok q pre tally ->
  match agreement_loop q method params eps tally with
  | inl v => (q <= votes v (pre ++ values method params eps))%nat
  | inr _ => forall v, (votes v (pre ++ values method params eps) < q)%nat
  end.
Proof.
  intros Hq. revert pre tally. induction eps as [|ep eps IH]; intros pre tally Ht; cbn [agreement_loop].
  { intros v. cbn. rewrite app_nil_r. apply Ht. }
  unfold values. cbn [omap list_omap]. destruct (ep method params) as [v|e]; [|by apply IH].
  fold (values method params eps). change (v :: values method params eps) with ([v] ++ values method params eps).
  rewrite app_assoc. destruct (Ht v) as [Hb Hv].
  destruct (tally_up v tally) as [[n tally']|] eqn:E.
  - apply tally_up_some in E as (c & Hc & -> & Hw). rewrite Hc in Hv. case_bool_decide; [|done].
    injection Hv as ->. assert (S (votes v pre) = votes v (pre ++ [v])) as Es
      by (rewrite votes_snoc, bool_decide_true by done; lia).
    destruct (q <=? S (votes v pre))%nat eqn:El.
    + apply Nat.leb_le in El. rewrite votes_app. lia.
    + apply Nat.leb_gt in El. apply IH. apply tally_ok_snoc with tally; [done|lia|]. by rewrite <- Es.
  - apply tally_up_none in E. rewrite E in Hv. case_bool_decide as Hin; [done|].
    assert (votes v pre = 0%nat) as H0 by (rewrite <- votes_elem in Hin; lia).
    assert (votes v (pre ++ [v]) = 1%nat) as H1 by (rewrite votes_snoc, bool_decide_true, H0 by done; lia).
    destruct (q <=? 1)%nat eqn:El.
    + apply Nat.leb_le in El. rewrite votes_app. lia.
    + apply Nat.leb_gt in El. apply IH. apply tally_ok_snoc with tally; [done|lia|].
      intros w. rewrite tally_of_snoc by done. by rewrite H1.
Qed.

Lemma tally_ok_nil q : (1 <= q)%nat -> tally_ok q [] [].
Proof. intros Hq v. split; [cbn; lia|done]. Qed.

Lemma agreement_spec r method params : (1 <= quorum r)%nat -> classify method params = Agreement ->
  match quorum_call r method params with
  | inl v => (quorum r <= votes v (values method params (endpoints r)))%nat
  | inr _ => forall v, (votes v (values method params (endpoints r)) < quorum r)%nat
  end.
Proof.
  intros Hq Hc. unfold quorum_call. rewrite Hc.
  exact (agreement_loop_spec (quorum r) method params (endpoints r) [] [] Hq (tally_ok_nil _ Hq)).
Qed.

(** A read that needs agreement returns nothing but the truth as long as fewer endpoints than
    the quorum lie, whoever they are, and returns it when a quorum tells it. *)
Lemma agreed_read_true r method params t : (1 <= quorum r)%nat -> classify method params = Agreement ->
  (against t (values method params (endpoints r)) < quorum r)%nat ->
  (forall v, quorum_call r method params = inl v -> v = t) /\
  ((quorum r <= votes t (values method params (endpoints r)))%nat -> quorum_call r method params = inl t).
Proof.
  intros Hq Hc Ha. pose proof (agreement_spec r method params Hq Hc) as H.
  assert (forall v, quorum_call r method params = inl v -> v = t) as Ht.
  { intros v E. rewrite E in H. destruct (base.decide (v = t)) as [|Hne]; [done|].
    pose proof (votes_against v t (values method params (endpoints r)) Hne). lia. }
  split; [done|]. intros Hv. destruct (quorum_call r method params) as [v|e]; [by rewrite (Ht v)|].
  specialize (H t). lia.
Qed.

Lemma votes_against_length v l : (votes v l + against v l = length l)%nat.
Proof.
  unfold votes, against. induction l as [|x l IH]; [done|]. rewrite !filter_cons.
  destruct (base.decide (x = v)), (base.decide (x <> v)); cbn [length]; first [lia | congruence | exfalso; auto].
Qed.
Lemma values_length method params eps : (length (values method params eps) <= length eps)%nat.
Proof. unfold values. induction eps as [|ep eps IH]; cbn; [lia|]. destruct (ep method params); cbn; lia. Qed.

(** What a hardened configuration fixes: at least two endpoints, a quorum of at least two and
    of more than half of them, and the other bounds. *)
Lemma hardened_bounds c : validate_hardened c = None ->
  (2 <= rpc_quorum c <= length (rpc_endpoint_list c))%nat /\ (length (rpc_endpoint_list c) < 2 * rpc_quorum c)%nat /\
  113 <= fee_bump_pct c /\ cfg_max_priority_fee_per_gas c <= cfg_max_fee_per_gas c /\ relay_batch_max c <> 0 /\
  (1 <= receipt_poll_attempts c)%nat.
Proof.
  unfold validate_hardened, validate. intros H.
  repeat (match type of H with context [if ?b then _ else _] => destruct b eqn:? end; [done|]).
  rewrite !Z.ltb_ge, !Nat.ltb_ge, !Nat.leb_gt, !Nat.eqb_neq, !Z.eqb_neq in *. split_and!; lia.
Qed.

(** C25: under a configuration that passes the hardened checks, a read that needs agreement is
    answered by more than half of the endpoints; when fewer of them than the quorum lie, what
    it returns is the truth; and when at most the endpoints beyond the quorum lie or are
    silent, it does return it. *)
Theorem hardened_reads_true c eps r method params : validate_hardened c = None ->
  length eps = length (rpc_endpoint_list c) -> quorum_new eps (rpc_quorum c) = Some r ->
  classify method params = Agreement ->
  let l := values method params eps in
  (forall v, quorum_call r method params = inl v -> (length eps < 2 * votes v l)%nat) /\
  (forall t v, (against t l < rpc_quorum c)%nat -> quorum_call r method params = inl v -> v = t) /\
  (forall t, (length eps - votes t l <= length eps - rpc_quorum c)%nat -> quorum_call r method params = inl t).
Proof.
  intros Hv Hl Hr Hc l. destruct (hardened_bounds c Hv) as (Hq & Hm & _).
  assert (endpoints r = eps /\ quorum r = rpc_quorum c) as [He Hqr].
  { unfold quorum_new in Hr. destruct (length eps =? 0)%nat; [done|].
    destruct (Nat.ltb_spec (rpc_quorum c) 1), (Nat.ltb_spec (length eps) (rpc_quorum c)); try lia.
    by injection Hr as <-. }
  pose proof (agreement_spec r method params ltac:(lia) Hc) as H. rewrite He, Hqr in H. fold l in H.
  assert (length l <= length eps)%nat as Hlen by apply values_length. split_and!.
  - intros v E. rewrite E in H. lia.
  - intros t v Ha E. refine (proj1 (agreed_read_true r method params t ltac:(lia) Hc _) v E). by rewrite He, Hqr.
  - intros t Ht. pose proof (votes_against_length t l).
    refine (proj2 (agreed_read_true r method params t ltac:(lia) Hc _) _); rewrite He, Hqr; fold l; lia.
Qed.

(** ** Samples *)
Module TransportSample.
Definition says (s : string) : Endpoint := fun _ _ => inl (Str s).
Definition down : Endpoint := fun _ _ => inr "timeout"%string.
Definition cfg : BridgeConfig :=
  mkConfig "http://a" ["http://a"; "http://b"; "http://c"] 2 1 (replicate 20 1) 6 40 3 0 1000000000 1000000 300000
    3 1 3 125 2 10000 5 (replicate 20 2) (replicate 20 3) 100 5000000 5 144 300 20.
Definition eps : list Endpoint := [says "0x99"; says "0x1"; says "0x1"].
Definition rpc : QuorumJsonRpc := mkQuorum eps 2 [].
End TransportSample.

Lemma hardened_reads_true_witness :
  quorum_call TransportSample.rpc "eth_chainId" (Array []) = inl (Str "0x1").
Proof.
  refine (proj2 (proj2 (hardened_reads_true TransportSample.cfg TransportSample.eps TransportSample.rpc "eth_chainId" (Array [])
    _ _ _ _)) (Str "0x1") _); by vm_compute.
Defined.
