(* ===== verification/Client.v ===== *)
(** * Client: the hop's Ethereum client

    [quid-ln/quid-bridge/src/client.rs], [hexutil.rs] and the outcome type of [evm.rs]: reads
    pinned to a block, sending with replacement by fee, and the settlement calls that decide
    whether bitcoin is claimed.

    The client is sequential: the lock around the nonce has no other holder here.  The
    transport answers the n-th call with [rpc n], so that every behaviour of the network over
    time is a function; the state counts the calls and records every transaction handed to the
    network.  A failed call carries its message, since the retry logic reads it.  Messages are
    ASCII; sleeping only lets the network move on. *)
From Stdlib Require Import String Ascii Sorted.
From stdpp Require Import gmap strings.
From S2P Require Import Prelude Pool Chain Abi EvmTx Transport.
Open Scope list_scope.

(** ** Hexadecimal *)
Definition hex_digit (n : Z) : ascii := ascii_of_nat (Z.to_nat (if n <? 10 then 48 + n else 87 + n)).
Definition digit_value (c : ascii) : option Z :=
  let n := Z.of_nat (nat_of_ascii c) in
  if (48 <=? n) && (n <=? 57) then Some (n - 48)
  else if (97 <=? n) && (n <=? 102) then Some (n - 87)
  else if (65 <=? n) && (n <=? 70) then Some (n - 55)
  else None.

(** [format!("{:x}")] *)
Fixpoint hex_digits (fuel : nat) (n : Z) (acc : string) : string :=
  match fuel with
  | O => acc
  | S fuel => let acc := String (hex_digit (n mod 16)) acc in
              if n / 16 =? 0 then acc else hex_digits fuel (n / 16) acc
  end.
Definition fmt_hex (n : Z) : string := ("0x" ++ hex_digits 16 n "")%string.
Fixpoint hex_encode (l : list Z) : string :=
  match l with
  | [] => ""
  | b :: l => String (hex_digit (b / 16)) (String (hex_digit (b mod 16)) (hex_encode l))
  end.
Definition hex_data (l : list Z) : string := ("0x" ++ hex_encode l)%string.

(** [trim_start_matches("0x")] *)
Fixpoint trim0x (s : string) : string :=
  match s with
  | String "0" (String "x" s) => trim0x s
  | _ => s
  end.
(** [from_str_radix(_, 16)]: an optional plus sign, at least one digit, no overflow. *)
Fixpoint radix16 (max : Z) (s : string) (acc : Z) : option Z :=
  match s with
  | EmptyString => Some acc
  | String c s => d ← digit_value c;
                  let acc := acc * 16 + d in if max <? acc then None else radix16 max s acc
  end.
Definition from_str_radix16 (max : Z) (s : string) : option Z :=
  match s with
  | EmptyString => None
  | String "+" EmptyString => None
  | String "+" s => radix16 max s 0
  | s => radix16 max s 0
  end.
Definition hex_u64 (s : string) : option Z := from_str_radix16 (imax u64) (trim0x s).
Fixpoint hex_decode (s : string) : option (list Z) :=
  match s with
  | EmptyString => Some []
  | String a (String b s) => x ← digit_value a; y ← digit_value b; l ← hex_decode s; Some (x * 16 + y :: l)
  | _ => None
  end.
Definition hex_bytes (s : string) : option (list Z) := hex_decode (trim0x s).

Definition parse_quantity (v : Value) : option Z := s ← as_str v; hex_u64 s.

(** [word_to_uint::<u64>]: the first word, when it fits. *)
Definition word_to_u64 (bytes : list Z) : option Z :=
  if (length bytes <? 32)%nat then None else
  let n := from_be_bytes (take 32 bytes) in if imax u64 <? n then None else Some n.

Fixpoint contains (pat s : string) : bool :=
  String.prefix pat s || match s with EmptyString => false | String _ s => contains pat s end.

Definition AGREED_READ_DEPTH : Z := 6.
Definition SWAP_IN_SETTLED_LOOKBACK_BLOCKS : Z := 100000.
Definition SWAP_IN_SETTLED_SIG : string := "SwapInSettled(address,bytes32,uint256,uint256,address)".

Record Mined := mkMined { success : bool; block_ : Z }.
Inductive SettleOutcome := Delivered (consumed_sats : Z) | AlreadySettled (consumed_sats : Z) | Undeliverable.

(** [decode_consumed_from_logs]: the last log that decodes. *)
Definition consumed_of (sats : Z) (log : Value) : option Z :=
  d ← get_key log "data"; s ← as_str d; data ← hex_bytes s;
  if (length data <? 64)%nat then None else
  c ← word_to_u64 (take 32 (drop 32 data)); Some (Z.min c sats).
Fixpoint first_some {A B} (f : A -> option B) (l : list A) : option B :=
  match l with
  | [] => None
  | x :: l => match f x with Some b => Some b | None => first_some f l end
  end.
Definition decode_consumed_from_logs (logs : Value) (sats : Z) : option Z :=
  arr ← as_array logs; first_some (consumed_of sats) (rev arr).

(** ** Calls *)
Record World := mkWorld { calls : nat; sent_log : list TxFields }.
Definition M (A : Type) : Type := World -> World * (A + string).
#[export] Instance M_ret : MRet M := fun A a w => (w, inl a).
#[export] Instance M_bind : MBind M := fun A B f m w =>
  let '(w, r) := m w in match r with inl a => f a w | inr e => (w, inr e) end.
Definition bail {A} (e : string) : M A := fun w => (w, inr e).
Definition or_bail {A} (e : string) (o : option A) : M A := match o with Some a => mret a | None => bail e end.
(** [m.map(Ok)]: the failure as a value. *)
Definition try_ {A} (m : M A) : M (A + string) := fun w => let '(w, r) := m w in (w, inl r).

Section Client.
Variable rpc : nat -> string -> Value -> Answer.
Variable keccak256 : list Z -> list Z.
Variable show_address : list Z -> string.
(** The hot key: its address, and what it signs or why it refuses. *)
Variable address : list Z.
Variable sign : TxFields -> list Z + string.
Variable cfg : BridgeConfig.

Definition call (method : string) (params : Value) : M Value :=
  fun w => (mkWorld (S (calls w)) (sent_log w), rpc (calls w) method params).
Definition record_send (f : TxFields) : M unit := fun w => (mkWorld (calls w) (sent_log w ++ [f]), inl tt).

Definition eth_call_at (to : list Z) (sig : string) (arg : list Z) (tag : string) : M Value :=
  call "eth_call" (Array [Object [("to"%string, Str (show_address to));
                                  ("data"%string, Str (hex_data (selector4 keccak256 sig ++ arg)))]; Str tag]).
Definition eth_call_raw_at_block (to : list Z) (sig : string) (arg : list Z) (tag : string) : M (list Z) :=
  v ← eth_call_at to sig arg tag;
  s ← or_bail "eth_call: no result" (as_str v);
  or_bail "invalid hex" (hex_bytes s).
Definition eth_call_raw (to : list Z) (sig : string) (arg : list Z) : M (list Z) := eth_call_raw_at_block to sig arg "latest".
Definition any_nonzero (l : list Z) : bool := existsb (fun b => negb (b =? 0)) l.
Definition eth_call_bool (to : list Z) (sig : string) (arg : list Z) : M bool :=
  l ← eth_call_raw to sig arg; mret (any_nonzero l).
Definition block_number_of : M Z :=
  v ← call "eth_blockNumber" (Array []); or_bail "invalid hex quantity" (parse_quantity v).
Definition agreed_read_block : M Z := n ← block_number_of; mret (sat u64 (n - AGREED_READ_DEPTH)).
Definition eth_call_raw_agreed (to : list Z) (sig : string) (arg : list Z) : M (list Z) :=
  b ← agreed_read_block; eth_call_raw_at_block to sig arg (fmt_hex b).
Definition eth_call_bool_agreed (to : list Z) (sig : string) (arg : list Z) : M bool :=
  l ← eth_call_raw_agreed to sig arg; mret (any_nonzero l).
(** The last word of the answer; slicing a short word panics, which ends the boot. *)
Definition is_main_hop : M bool :=
  ret ← eth_call_raw_agreed (btc_channels cfg) "MAIN_HOP()" [];
  if (length ret <? 32)%nat then bail "short word"
  else mret (bool_decide (drop 12 (drop (length ret - 32) ret) = address)).

(** ** Sending *)
Definition get_nonce : M Z :=
  v ← call "eth_getTransactionCount" (Array [Str (show_address address); Str "pending"]);
  or_bail "invalid hex quantity" (parse_quantity v).
Definition suggested_gas_price : M Z :=
  v ← call "eth_gasPrice" (Array []);
  s ← or_bail "eth_gasPrice: no result" (as_str v);
  or_bail "invalid digit" (from_str_radix16 (imax u128) (trim0x s)).
Definition bump_fee (fee : Z) : option Z :=
  let ceiling := cfg_max_fee_per_gas cfg in
  let min_valid := sat u128 (sat u128 (fee + fee / 8) + 1) in
  if ceiling <? min_valid then None
  else let bumped := sat u128 (fee * fee_bump_pct cfg) / 100 in
       Some (Z.min (Z.max bumped min_valid) ceiling).
Definition send_raw (raw : list Z) : M string :=
  v ← call "eth_sendRawTransaction" (Array [Str (hex_data raw)]);
  or_bail "eth_sendRawTransaction: no tx hash in result" (as_str v).
Definition fetch_receipt (tx_hash : string) : M (option Mined) :=
  v ← call "eth_getTransactionReceipt" (Array [Str tx_hash]);
  if is_null v then mret None else
  s ← or_bail "receipt missing status" (s ← get_key v "status"; as_str s);
  st ← or_bail "invalid hex quantity" (hex_u64 s);
  b ← or_bail "receipt missing blockNumber" (b ← get_key v "blockNumber"; as_str b);
  bl ← or_bail "invalid hex quantity" (hex_u64 b);
  mret (Some (mkMined (st =? 1) bl)).
Fixpoint poll_receipt (attempts : nat) (tx_hash : string) : M (option Mined) :=
  match attempts with
  | O => mret None
  | S attempts => r ← fetch_receipt tx_hash;
                  match r with Some m => mret (Some m) | None => poll_receipt attempts tx_hash end
  end.
Definition await_receipt (tx_hash : string) : M (option Mined) := poll_receipt (receipt_poll_attempts cfg) tx_hash.
Fixpoint first_mined (hashes : list string) : M (option Mined) :=
  match hashes with
  | [] => mret None
  | h :: hashes => r ← fetch_receipt h;
                   match r with Some m => mret (Some m) | None => first_mined hashes end
  end.
Definition benign (e : string) : bool :=
  let msg := to_ascii_lowercase e in
  contains "nonce too low" msg || contains "already known" msg ||
  contains "replacement transaction underpriced" msg || contains "replacement underpriced" msg.

Record Bump := mkBump { max_fee : Z; prio : Z; sent : list string; last_hash : option string; send_this_round : bool }.
(** What one round of the loop comes to. *)
Inductive Round := Done (m : Mined) | Next (b : Bump) | Break (b : Bump).

Definition escalate (b : Bump) : Bump :=
  match bump_fee (max_fee b) with
  | Some next_max =>
      let p := match bump_fee (prio b) with Some p => Z.min p next_max | None => next_max end in
      mkBump next_max p (sent b) (last_hash b) true
  | None => mkBump (max_fee b) (prio b) (sent b) (last_hash b) false
  end.
Definition await_round (b : Bump) (tx_hash : string) : M Round :=
  r ← await_receipt tx_hash;
  match r with Some m => mret (Done m) | None => mret (Next (escalate b)) end.
Definition tx_fields (to data : list Z) (gas nonce : Z) (b : Bump) : TxFields :=
  mkTxFields (chain_id cfg) nonce (prio b) (max_fee b) gas to 0 data.
Definition submit_round (to data : list Z) (gas nonce : Z) (b : Bump) : M Round :=
  if send_this_round b then
    let f := tx_fields to data gas nonce b in
    match sign f with
    | inr e => bail e
    | inl raw =>
        _ ← record_send f;
        r ← try_ (send_raw raw);
        match r with
        | inl h => await_round (mkBump (max_fee b) (prio b) (sent b ++ [h]) (Some h) true) h
        | inr e =>
            if negb (benign e) then bail e else
            m ← first_mined (sent b);
            match m with
            | Some m => mret (Done m)
            | None => match last_hash b with
                      | Some h => await_round b h
                      | None => mret (Next b)
                      end
            end
        end
    end
  else match last_hash b with
       | Some h => await_round b h
       | None => mret (Break b)
       end.
Definition exhausted (b : Bump) : M Mined :=
  m ← first_mined (sent b);
  match m with Some m => mret m | None => bail "tx not mined" end.
Fixpoint submit_loop (attempts : nat) (to data : list Z) (gas nonce : Z) (b : Bump) : M Mined :=
  match attempts with
  | O => exhausted b
  | S attempts =>
      r ← submit_round to data gas nonce b;
      match r with
      | Done m => mret m
      | Next b => submit_loop attempts to data gas nonce b
      | Break b => exhausted b
      end
  end.
Definition submit (to data : list Z) (gas : Z) : M Mined :=
  nonce ← get_nonce;
  suggested ← suggested_gas_price;
  let max_fee := Z.max (Z.min suggested (cfg_max_fee_per_gas cfg)) 1 in
  let prio := Z.min (cfg_max_priority_fee_per_gas cfg) max_fee in
  submit_loop (S (fee_bump_attempts cfg)) to data gas nonce (mkBump max_fee prio [] None true).
Definition send_tx (to data : list Z) (gas : Z) : M bool := m ← submit to data gas; mret (success m).

(** ** Settling *)
Definition swap_in_used_at (payment_hash : list Z) (block : Z) : M bool :=
  l ← eth_call_raw_at_block (btc_channels cfg) "swapInUsed(bytes32)" payment_hash (fmt_hex block); mret (any_nonzero l).
Fixpoint await_burial (attempts : nat) (payment_hash : list Z) (depth block : Z) : M bool :=
  match attempts with
  | O => bail "settle block not buried within budget"
  | S attempts =>
      n ← block_number_of;
      if depth <=? sat u64 (n - block) + 1 then swap_in_used_at payment_hash block
      else await_burial attempts payment_hash depth block
  end.
Definition swap_in_used_buried (payment_hash : list Z) (depth block : Z) : M bool :=
  used ← swap_in_used_at payment_hash block;
  if negb used then mret false
  else if depth <=? 1 then mret true
  else await_burial (receipt_poll_attempts cfg) payment_hash depth block.
Definition consumed_query (payment_hash : list Z) (from to : Z) : Value :=
  Array [Object [("fromBlock"%string, Str (fmt_hex from)); ("toBlock"%string, Str (fmt_hex to));
                 ("address"%string, Str (show_address (btc_channels cfg)));
                 ("topics"%string, Array [Str (hex_data (keccak256 (str_bytes SWAP_IN_SETTLED_SIG))); Null;
                                          Str (hex_data payment_hash)])]].
(** A failed read is [None], not a failure. *)
Definition read_consumed_sats (payment_hash : list Z) (from to sats : Z) : M (option Z) :=
  r ← try_ (call "eth_getLogs" (consumed_query payment_hash from to));
  mret (match r with inl v => decode_consumed_from_logs v sats | inr _ => None end).

Definition settle_swap_in_proven (seller token : list Z) (price slippage : Z) (user_refund : list Z) (cltv : Z)
    (inclusion : TxInclusion) (deposit_txid : list Z) (deposited_sats : Z) : M SettleOutcome :=
  let data := encode_settle_swap_in_proven keccak256 seller token price slippage user_refund cltv inclusion in
  let depth := settle_min_confirmations cfg in
  mined ← submit (btc_channels cfg) data (cfg_gas_limit cfg);
  used ← swap_in_used_buried deposit_txid depth (block_ mined);
  if used : bool then
    if success mined then
      c ← read_consumed_sats deposit_txid (block_ mined) (block_ mined) deposited_sats;
      c ← or_bail "settle delivered but SwapInSettled unreadable" c;
      mret (Delivered c)
    else
      t ← try_ block_number_of;
      let tip := match t with inl n => n | inr _ => block_ mined end in
      c ← read_consumed_sats deposit_txid (sat u64 (tip - SWAP_IN_SETTLED_LOOKBACK_BLOCKS)) tip deposited_sats;
      c ← or_bail "prior settle's SwapInSettled unreadable" c;
      mret (AlreadySettled c)
  else if success mined then bail "proven settle mined but swapInUsed unconfirmed"
  else mret Undeliverable.

Definition reverse_swap_out_calldata (swap_id : list Z) (require_full : bool) : list Z :=
  selector4 keccak256 SIG_REVERSE_SWAP_OUT ++ swap_id ++ to_be_bytes 32 (if require_full then 1 else 0).
Definition reverse_swap_out (swap_id : list Z) (require_full : bool) : M SettleOutcome :=
  let data := reverse_swap_out_calldata swap_id require_full in
  mined ← submit (btc_channels cfg) data (cfg_gas_limit cfg);
  used ← swap_in_used_buried swap_id (settle_min_confirmations cfg) (block_ mined);
  if used : bool then mret (if success mined then Delivered 0 else AlreadySettled 0)
  else if success mined then bail "reversal mined but swapInUsed unconfirmed"
  else mret Undeliverable.

(** ** The migration nonce *)
Fixpoint confirm_nonce (attempts : nat) (nonce : list Z) (depth : Z) : M unit :=
  match attempts with
  | O => bail "markMigrationNonceUsed not confirmed within budget"
  | S attempts =>
      n ← block_number_of;
      l ← eth_call_raw_at_block (btc_channels cfg) "migrationNonceUsed(bytes32)" nonce (fmt_hex (sat u64 (n - depth)));
      if any_nonzero l then mret tt else confirm_nonce attempts nonce depth
  end.
Definition consume (nonce : list Z) : M unit :=
  ok ← send_tx (btc_channels cfg) (selector4 keccak256 "markMigrationNonceUsed(bytes32)" ++ nonce) (cfg_gas_limit cfg);
  if negb ok then bail "markMigrationNonceUsed reverted"
  else confirm_nonce (receipt_poll_attempts cfg) nonce (Z.max AGREED_READ_DEPTH (settle_min_confirmations cfg)).

(** ** Checks at start *)
Definition verify_btc_channels_has_code : M unit :=
  v ← call "eth_getCode" (Array [Str (show_address (btc_channels cfg)); Str "latest"]);
  let code := default "0x"%string (as_str v) in
  if String.eqb code "0x" || String.eqb code "0x0" || String.eqb code "" then bail "btc_channels has no code" else mret tt.
Definition verify_chain_id : M unit :=
  v ← call "eth_chainId" (Array []);
  got ← or_bail "invalid hex quantity" (parse_quantity v);
  if negb (got =? chain_id cfg) then bail "wrong chain" else mret tt.
End Client.

(** * Properties *)

(** ** Numbers as text *)
Lemma hex_digit_value n : 0 <= n < 16 -> digit_value (hex_digit n) = Some n.
Proof.
  intros Hn. assert (Forall (fun n => digit_value (hex_digit n) = Some n) (map Z.of_nat (seq 0 16))) as H
    by (by vm_compute; repeat constructor).
  rewrite Forall_forall in H. apply H. apply list_elem_of_In, in_map_iff. exists (Z.to_nat n).
  split; [lia|]. apply in_seq. lia.
Qed.
Lemma radix16_digits fuel n s max : 0 <= n < 16 ^ Z.of_nat fuel -> n <= max ->
  radix16 max (hex_digits fuel n s) 0 = radix16 max s n.
Proof.
  revert n s. induction fuel as [|fuel IH]; intros n s Hn Hm; [cbn in *; by replace n with 0 by lia|].
  rewrite Nat2Z.inj_succ, Z.pow_succ_r in Hn by lia. pose proof (Z.div_mod n 16 ltac:(lia)).
  pose proof (Z.mod_pos_bound n 16 ltac:(lia)). cbn [hex_digits].
  assert (forall k, k = n / 16 -> radix16 max (String (hex_digit (n mod 16)) s) k = radix16 max s n) as Hd.
  { intros k ->. cbn [radix16]. rewrite hex_digit_value by lia. cbn [mbind option_bind].
    replace (n / 16 * 16 + n mod 16) with n by lia. by destruct (Z.ltb_spec max n); [lia|]. }
  destruct (Z.eqb_spec (n / 16) 0) as [E|E]; [by apply Hd|].
  rewrite IH; [by apply Hd| |lia]. split; [apply Z.div_pos; lia|apply Z.div_lt_upper_bound; lia].
Qed.

(** Only digits: nothing to trim, and no sign. *)
Fixpoint all_digits (s : string) : bool :=
  match s with
  | EmptyString => true
  | String c s => match digit_value c with Some _ => all_digits s | None => false end
  end.
Lemma trim0x_digits s : all_digits s = true -> trim0x s = s.
Proof.
  destruct s as [|a [|b s]]; [done|by destruct a as [[][][][][][][][]]|].
  destruct a as [[][][][][][][][]]; try reflexivity. by destruct b as [[][][][][][][][]].
Qed.
Lemma from_str_digits s max : all_digits s = true -> s <> ""%string -> from_str_radix16 max s = radix16 max s 0.
Proof. destruct s as [|a s]; [done|]. intros H _. by destruct a as [[][][][][][][][]]. Qed.
Lemma hex_digits_all fuel n s : 0 <= n -> all_digits s = true -> all_digits (hex_digits fuel n s) = true.
Proof.
  revert n s. induction fuel as [|fuel IH]; intros n s Hn Hs; [done|]. cbn [hex_digits].
  pose proof (Z.mod_pos_bound n 16 ltac:(lia)).
  assert (all_digits (String (hex_digit (n mod 16)) s) = true) as Hd
    by (cbn [all_digits]; by rewrite hex_digit_value by lia).
  destruct (n / 16 =? 0); [done|]. apply IH; [apply Z.div_pos; lia|done].
Qed.
Lemma hex_digits_nonempty fuel n s : (0 < fuel)%nat \/ s <> ""%string -> hex_digits fuel n s <> ""%string.
Proof.
  revert n s. induction fuel as [|fuel IH]; intros n s [H|H]; cbn [hex_digits]; try done; try lia;
    (destruct (n / 16 =? 0); [done|apply IH; by right]).
Qed.

(** A block number survives being written and read. *)
Lemma fmt_hex_roundtrip n : 0 <= n <= imax u64 -> hex_u64 (fmt_hex n) = Some n.
Proof.
  intros Hn. unfold hex_u64, fmt_hex. change (trim0x (_ +:+ ?s)) with (trim0x s).
  assert (all_digits (hex_digits 16 n "") = true) as Hd by (apply hex_digits_all; [lia|done]).
  rewrite trim0x_digits by done. rewrite from_str_digits by (done || (apply hex_digits_nonempty; left; lia)).
  rewrite radix16_digits; [done| |lia]. change (16 ^ Z.of_nat 16) with (imax u64 + 1). lia.
Qed.

(** ** Which calls need agreement *)
Lemma hex_tag_concrete s : is_concrete_block_tag (Str ("0x" ++ s)) = true.
Proof. change ("0x" +:+ s) with (String "0" (String "x" s)). cbn. by destruct (to_ascii_lowercase s). Qed.
Lemma fmt_hex_concrete n : is_concrete_block_tag (Str (fmt_hex n)) = true.
Proof. apply hex_tag_concrete. Qed.
Lemma pinned_call_agreed q n : classify "eth_call" (Array [q; Str (fmt_hex n)]) = Agreement.
Proof. unfold classify. cbn -[fmt_hex is_concrete_block_tag]. by rewrite fmt_hex_concrete. Qed.
Lemma latest_call_unchecked q : classify "eth_call" (Array [q; Str "latest"]) = FirstHealthy.
Proof. reflexivity. Qed.

(** ** Running a call *)
Lemma bind_inl {A B} (m : M A) (f : A -> M B) w w' b : (m ≫= f) w = (w', inl b) ->
  exists w1 a, m w = (w1, inl a) /\ f a w1 = (w', inl b).
Proof. unfold mbind, M_bind. destruct (m w) as [w1 [a|e]]; [|done]. by exists w1, a. Qed.
Lemma or_bail_inl {A} e (o : option A) w w' a : or_bail e o w = (w', inl a) -> o = Some a /\ w' = w.
Proof. destruct o; cbn; [|done]. by intros [= <- <-]. Qed.
Ltac run H := apply bind_inl in H as (? & ? & ? & H).

(** A computation that hands nothing to the network. *)
Definition quiet {A} (m : M A) : Prop := forall w, sent_log (m w).1 = sent_log w.
Lemma quiet_ret {A} (a : A) : quiet (mret a).
Proof. done. Qed.
Lemma quiet_bail {A} e : quiet (bail e : M A).
Proof. done. Qed.
Lemma quiet_bind {A B} (m : M A) (f : A -> M B) : quiet m -> (forall a, quiet (f a)) -> quiet (m ≫= f).
Proof.
  intros Hm Hf w. unfold mbind, M_bind. specialize (Hm w). destruct (m w) as [w1 [a|e]]; cbn in *; [|done].
  by rewrite Hf.
Qed.
Lemma quiet_or_bail {A} e (o : option A) : quiet (or_bail e o).
Proof. by destruct o. Qed.
Lemma quiet_try {A} (m : M A) : quiet m -> quiet (try_ m).
Proof. intros Hm w. unfold try_. specialize (Hm w). by destruct (m w). Qed.
Create HintDb quiet.
#[export] Hint Resolve quiet_ret quiet_bail quiet_bind quiet_or_bail quiet_try : quiet.

Section ClientFacts.
Variable rpc : nat -> string -> Value -> Answer.
Variable keccak256 : list Z -> list Z.
Variable show_address : list Z -> string.
Variable address : list Z.
Variable sign : TxFields -> list Z + string.
Variable cfg : BridgeConfig.
Abbreviation call := (call rpc).
Abbreviation swap_in_used_at := (swap_in_used_at rpc keccak256 show_address cfg).
Abbreviation await_burial := (await_burial rpc keccak256 show_address cfg).
Abbreviation swap_in_used_buried := (swap_in_used_buried rpc keccak256 show_address cfg).
Abbreviation read_consumed_sats := (read_consumed_sats rpc keccak256 show_address cfg).
Abbreviation submit := (submit rpc show_address address sign cfg).
Abbreviation consumed_query := (consumed_query keccak256 show_address cfg).

(** ** Replacement by fee *)
Lemma quiet_call method params : quiet (call method params).
Proof. done. Qed.
#[local] Hint Resolve quiet_call : quiet.
Ltac quiet := repeat (apply quiet_bind; [|intros ?]); repeat case_match; auto with quiet.

Lemma quiet_fetch h : quiet (fetch_receipt rpc h).
Proof. unfold fetch_receipt. quiet; repeat (apply quiet_bind; [|intros ?]); auto with quiet. Qed.
#[local] Hint Resolve quiet_fetch : quiet.
Lemma quiet_poll n h : quiet (poll_receipt rpc n h).
Proof. induction n as [|n IH]; cbn [poll_receipt]; quiet. Qed.
Lemma quiet_first_mined l : quiet (first_mined rpc l).
Proof. induction l as [|h l IH]; cbn [first_mined]; quiet. Qed.
Lemma quiet_send_raw raw : quiet (send_raw rpc raw).
Proof. unfold send_raw. quiet. Qed.
Lemma quiet_block_number : quiet (block_number_of rpc).
Proof. unfold block_number_of. quiet. Qed.
#[local] Hint Resolve quiet_poll quiet_first_mined quiet_send_raw quiet_block_number : quiet.
Lemma quiet_await_round b h : quiet (await_round rpc cfg b h).
Proof. unfold await_round, await_receipt. quiet. Qed.
#[local] Hint Resolve quiet_await_round : quiet.

(** Fees that replace others: the same again, or both raised by more than an eighth. *)
Definition raised (a b : Z) : Prop := a + a / 8 + 1 <= b.
Definition fees_step (a b : Z * Z) : Prop := a = b \/ (raised a.1 b.1 /\ raised a.2 b.2).
Definition fees (f : TxFields) : Z * Z := (max_fee_per_gas f, max_priority_fee_per_gas f).
Definition bump_fees (b : Bump) : Z * Z := (max_fee b, prio b).
Definition fees_ok (p : Z * Z) : Prop := 1 <= p.1 <= cfg_max_fee_per_gas cfg /\ 0 <= p.2 <= p.1.
Definition same_call (to data : list Z) (gas nonce_ : Z) (f : TxFields) : Prop :=
  chain_id_ f = chain_id cfg /\ nonce f = nonce_ /\ gas_limit f = gas /\ tx_to f = to /\ value f = 0 /\ tx_data f = data.

Lemma raised_trans a b c : 0 <= a -> raised a b -> raised b c -> raised a c.
Proof. unfold raised. intros. assert (0 <= a / 8) by (apply Z.div_pos; lia). assert (a / 8 <= b / 8) by (apply Z.div_le_mono; lia). lia. Qed.
Lemma fees_trans a b c : 0 <= a.1 -> 0 <= a.2 -> fees_step a b -> fees_step b c -> fees_step a c.
Proof.
  intros H1 H2 [->|[Ha Hb]] [->|[Hc Hd]]; [by left|by right|by right|].
  right. split; eapply raised_trans; eauto.
Qed.

Hypothesis ceiling_u128 : 0 <= cfg_max_fee_per_gas cfg < imax u128.
Hypothesis pct_ok : 0 <= fee_bump_pct cfg.

Lemma bump_fee_raises a b : 0 <= a <= cfg_max_fee_per_gas cfg -> bump_fee cfg a = Some b ->
  raised a b /\ b <= cfg_max_fee_per_gas cfg.
Proof.
  intros Ha. unfold bump_fee, raised. destruct (Z.ltb_spec (cfg_max_fee_per_gas cfg) (sat u128 (sat u128 (a + a / 8) + 1))) as [|Hc]; [done|].
  intros [= <-]. assert (0 <= a / 8) by (apply Z.div_pos; lia). unfold sat, u128 in *. cbn [imin imax] in *. lia.
Qed.
Lemma bump_fee_none a b : 0 <= b <= a -> bump_fee cfg a <> None -> bump_fee cfg b <> None.
Proof.
  intros Hab. unfold bump_fee. assert (b / 8 <= a / 8) by (apply Z.div_le_mono; lia). assert (0 <= b / 8) by (apply Z.div_pos; lia).
  assert (sat u128 (sat u128 (b + b / 8) + 1) <= sat u128 (sat u128 (a + a / 8) + 1)) by (repeat apply sat_mono || apply Zplus_le_compat_r; try apply sat_mono; lia).
  destruct (Z.ltb_spec (cfg_max_fee_per_gas cfg) (sat u128 (sat u128 (a + a / 8) + 1))); [done|].
  destruct (Z.ltb_spec (cfg_max_fee_per_gas cfg) (sat u128 (sat u128 (b + b / 8) + 1))); [lia|done].
Qed.

Lemma escalate_step b : fees_ok (bump_fees b) ->
  fees_ok (bump_fees (escalate cfg b)) /\ fees_step (bump_fees b) (bump_fees (escalate cfg b)).
Proof.
  intros [Hm Hp]. unfold bump_fees in *. cbn [fst snd] in *. unfold escalate.
  destruct (bump_fee cfg (max_fee b)) as [n|] eqn:En; [|split; [done|by left]].
  destruct (bump_fee_raises (max_fee b) n ltac:(lia) En) as [Hr Hc].
  destruct (bump_fee cfg (prio b)) as [p|] eqn:Ep.
  - destruct (bump_fee_raises (prio b) p ltac:(lia) Ep) as [Hq _]. unfold fees_ok, fees_step, raised in *. cbn [max_fee prio fst snd].
    assert (0 <= prio b / 8) by (apply Z.div_pos; lia). assert (prio b / 8 <= max_fee b / 8) by (apply Z.div_le_mono; lia). lia.
  - exfalso. by apply (bump_fee_none (max_fee b) (prio b)); [lia|rewrite En|].
Qed.

(** What a run appends to the log of transactions. *)
Definition appends {A} (m : M A) (P : list TxFields -> (A + string) -> Prop) : Prop :=
  forall w, exists l, sent_log (m w).1 = sent_log w ++ l /\ P l (m w).2.
Lemma quiet_appends {A} (m : M A) (P : list TxFields -> (A + string) -> Prop) :
  quiet m -> (forall r, P [] r) -> appends m P.
Proof. intros Hq HP w. exists []. rewrite app_nil_r. split; [apply Hq|apply HP]. Qed.

Lemma appends_bind {A B} (m : M A) (f : A -> M B) (P : list TxFields -> (B + string) -> Prop) :
  quiet m -> (forall a, appends (f a) P) -> (forall e, P [] (inr e)) -> appends (m ≫= f) P.
Proof.
  intros Hm Hf HP w. unfold mbind, M_bind. specialize (Hm w). destruct (m w) as [w1 [a|e]]; cbn [fst] in Hm.
  - destruct (Hf a w1) as (l & E & Hl). exists l. by rewrite E, Hm.
  - exists []. rewrite app_nil_r. split; [done|apply HP].
Qed.

(** The transactions of a loop that starts from the fees [p]: at most [k], all the same call,
    each the same again or a valid replacement of the one before. *)
Definition ladder (to data : list Z) (gas nonce_ : Z) (k : nat) (p : Z * Z) (l : list TxFields) : Prop :=
  (length l <= k)%nat /\ Forall (same_call to data gas nonce_) l /\ Forall (fun f => fees_ok (fees f)) l /\
  Sorted (fun f g => fees_step (fees f) (fees g)) l /\
  match l with f :: _ => fees_step p (fees f) | [] => True end.

Lemma ladder_nil to data gas n k p : ladder to data gas n k p [].
Proof. split_and!; [cbn; lia|constructor..|done]. Qed.
Lemma ladder_weaken to data gas n k p q l : fees_ok p -> fees_step p q ->
  ladder to data gas n k q l -> ladder to data gas n (S k) p l.
Proof.
  intros [Hp1 Hp2] Hs (Hl & H1 & H2 & H3 & H4). split_and!; [lia|done..|]. destruct l as [|f l]; [done|].
  eapply fees_trans; eauto; lia.
Qed.
Lemma ladder_cons to data gas n k b l : fees_ok (bump_fees b) -> ladder to data gas n k (bump_fees b) l ->
  ladder to data gas n (S k) (bump_fees b) (tx_fields cfg to data gas n b :: l).
Proof.
  intros Hok (Hl & H1 & H2 & H3 & H4). split_and!; [cbn; lia| | | |by left].
  - by constructor.
  - by constructor.
  - constructor; [done|]. destruct l as [|f l]; constructor. exact H4.
Qed.

(** One round: it sends the fees it has, or nothing, and passes on fees that may replace them. *)
Definition round_post (to data : list Z) (gas n : Z) (b : Bump) (l : list TxFields) (r : Round + string) : Prop :=
  (l = [] \/ l = [tx_fields cfg to data gas n b]) /\
  forall b', r = inl (Next b') -> fees_ok (bump_fees b') /\ fees_step (bump_fees b) (bump_fees b').

Lemma await_round_next b h w w' b' : await_round rpc cfg b h w = (w', inl (Next b')) -> b' = escalate cfg b.
Proof. intros H. unfold await_round in H. run H. destruct x0; cbn in H; [done|]. by injection H as _ <-. Qed.
Lemma await_round_post b b0 h : fees_ok (bump_fees b) -> bump_fees b0 = bump_fees b ->
  appends (await_round rpc cfg b0 h) (fun l r => l = [] /\
    forall b', r = inl (Next b') -> fees_ok (bump_fees b') /\ fees_step (bump_fees b) (bump_fees b')).
Proof.
  intros Hok E w. exists []. rewrite app_nil_r. split; [apply quiet_await_round|]. split; [done|].
  intros b' Hb. destruct (await_round rpc cfg b0 h w) as [w' r] eqn:Ew. cbn in Hb. subst r.
  apply await_round_next in Ew as ->. rewrite <- E in *. by apply escalate_step.
Qed.

Lemma submit_round_post to data gas n b : fees_ok (bump_fees b) ->
  appends (submit_round rpc sign cfg to data gas n b) (round_post to data gas n b).
Proof.
  intros Hok w. unfold submit_round. destruct (send_this_round b).
  2: { destruct (last_hash b) as [h|].
       - destruct (await_round_post b b h Hok eq_refl w) as (l & E & -> & Hr). exists []. split; [done|]. split; [by left|done].
       - exists []. rewrite app_nil_r. split; [done|]. by split; [left|]. }
  destruct (sign (tx_fields cfg to data gas n b)) as [raw|e]; [|exists []; rewrite app_nil_r; split; [done|]; by split; [left|]].
  exists [tx_fields cfg to data gas n b].
  unfold mbind, M_bind, record_send, try_. cbn [fst snd].
  set (w1 := mkWorld (calls w) (sent_log w ++ [tx_fields cfg to data gas n b])).
  pose proof (quiet_send_raw raw w1) as Hq. destruct (send_raw rpc raw w1) as [w2 [h|e]]; cbn [fst] in Hq; cbn [fst snd].
  - destruct (await_round_post b (mkBump (max_fee b) (prio b) (sent b ++ [h]) (Some h) true) h Hok eq_refl w2) as (l & E & -> & Hr).
    rewrite E, app_nil_r, Hq. split; [done|]. split; [by right|done].
  - destruct (benign e); cbn [negb]; [|unfold bail; cbn [fst snd]; rewrite Hq; split; [done|]; by split; [right|]].
    pose proof (quiet_first_mined (sent b) w2) as Hq2. destruct (first_mined rpc (sent b) w2) as [w3 [m|e2]]; cbn [fst snd] in *;
      [|rewrite Hq2, Hq; split; [done|]; by split; [right|]].
    destruct m as [m|]; [cbn; rewrite Hq2, Hq; split; [done|]; by split; [right|]|].
    destruct (last_hash b) as [h|].
    + destruct (await_round_post b b h Hok eq_refl w3) as (l & E & -> & Hr).
      rewrite E, app_nil_r, Hq2, Hq. split; [done|]. split; [by right|done].
    + cbn. rewrite Hq2, Hq. split; [done|]. split; [by right|]. intros b' [= <-]. split; [done|by left].
Qed.

Lemma submit_loop_ladder to data gas n k b : fees_ok (bump_fees b) ->
  appends (submit_loop rpc sign cfg k to data gas n b) (fun l _ => ladder to data gas n k (bump_fees b) l).
Proof.
  assert (forall b', quiet (exhausted rpc b')) as Hex by (intros b'; unfold exhausted; quiet).
  revert b. induction k as [|k IH]; intros b Hok; cbn [submit_loop].
  { apply quiet_appends; [done|]. intros r. apply ladder_nil. }
  intros w. destruct (submit_round_post to data gas n b Hok w) as (l & El & Hl & Hn).
  unfold mbind, M_bind. destruct (submit_round rpc sign cfg to data gas n b w) as [w1 r]. cbn [fst snd] in *.
  assert (forall l2 q, fees_ok q -> fees_step (bump_fees b) q -> ladder to data gas n k q l2 ->
            ladder to data gas n (S k) (bump_fees b) (l ++ l2)) as Hjoin.
  { intros l2 q Hq Hs Hl2. destruct Hl as [-> | ->]; [eapply ladder_weaken; eauto|]. apply ladder_cons; [done|].
    destruct Hl2 as (A & B & C & D & E). split_and!; [done..|]. destruct l2; [done|]. destruct Hok. eapply fees_trans; eauto; lia. }
  assert (ladder to data gas n (S k) (bump_fees b) l) as Hl1
    by (rewrite <- (app_nil_r l); apply (Hjoin [] (bump_fees b) Hok); [by left|apply ladder_nil]).
  destruct r as [[m|b'|b']|e]; [by exists l| | |by exists l].
  - destruct (Hn b' eq_refl) as [Hok' Hs]. destruct (IH b' Hok' w1) as (l2 & E2 & Hl2).
    exists (l ++ l2). rewrite E2, El, app_assoc. split; [done|]. by eapply Hjoin.
  - exists l. by rewrite (Hex b').
Qed.

Lemma submit_ladder to data gas : 1 <= cfg_max_fee_per_gas cfg -> 0 <= cfg_max_priority_fee_per_gas cfg ->
  appends (submit to data gas) (fun l _ => exists n p, ladder to data gas n (S (fee_bump_attempts cfg)) p l).
Proof.
  intros Hc Hp. unfold Client.submit. apply appends_bind; [unfold get_nonce; quiet| |intros e; exists 0, (0, 0); apply ladder_nil].
  intros n. apply appends_bind; [unfold suggested_gas_price; quiet| |intros e; exists 0, (0, 0); apply ladder_nil].
  intros s w1.
  destruct (submit_loop_ladder to data gas n (S (fee_bump_attempts cfg))
    (mkBump (Z.max (Z.min s (cfg_max_fee_per_gas cfg)) 1) (Z.min (cfg_max_priority_fee_per_gas cfg) (Z.max (Z.min s (cfg_max_fee_per_gas cfg)) 1)) [] None true))
    with (w := w1) as (l & E & Hl).
  - unfold fees_ok, bump_fees. cbn [max_fee prio fst snd]. lia.
  - exists l. split; [done|]. by eexists n, _.
Qed.

(** Every run of [submit], however the network behaves, hands it at most one transaction
    more than the configured replacements, all with one nonce, destination, calldata and gas
    limit and without ether; each is the one before again or pays more than an eighth more
    both as maximum and as priority, within the configured ceiling, the priority never above
    the maximum. *)
Theorem submit_fee_ladder to data gas w : 1 <= cfg_max_fee_per_gas cfg -> 0 <= cfg_max_priority_fee_per_gas cfg ->
  exists l n, sent_log (submit to data gas w).1 = sent_log w ++ l /\
    (length l <= S (fee_bump_attempts cfg))%nat /\ Forall (same_call to data gas n) l /\
    Forall (fun f => fees_ok (fees f)) l /\ Sorted (fun f g => fees_step (fees f) (fees g)) l.
Proof. intros Hc Hp. destruct (submit_ladder to data gas Hc Hp w) as (l & E & n & p & H1 & H2 & H3 & H4 & _). by exists l, n. Qed.
End ClientFacts.

(** ** What a settlement may rest on

    The transport is the quorum transport, with endpoints that change from call to call.  The
    truth is what the chain holds at the blocks asked for; fewer endpoints than the quorum
    answer otherwise, each time. *)
Section Settlement.
Variable r : nat -> QuorumJsonRpc.
Variable truth : string -> Value -> Value.
Hypothesis quorum_pos : forall n, (1 <= quorum (r n))%nat.
Hypothesis few_liars : forall n method params, classify method params = Agreement ->
  (against (truth method params) (values method params (endpoints (r n))) < quorum (r n))%nat.
Variable keccak256 : list Z -> list Z.
Variable show_address : list Z -> string.
Variable address : list Z.
Variable sign : TxFields -> list Z + string.
Variable cfg : BridgeConfig.
Definition quorum_rpc (n : nat) (method : string) (params : Value) : Answer := quorum_call (r n) method params.

(** What a view of the contract holds at a block, in truth: some byte is not zero. *)
Definition view_query (sig : string) (arg : list Z) (block : Z) : Value :=
  Array [Object [("to"%string, Str (show_address (btc_channels cfg)));
                 ("data"%string, Str (hex_data (selector4 keccak256 sig ++ arg)))]; Str (fmt_hex block)].
Definition true_view (sig : string) (arg : list Z) (block : Z) : option bool :=
  s ← as_str (truth "eth_call" (view_query sig arg block)); l ← hex_bytes s; Some (any_nonzero l).
(** What the settlement logs say, in truth. *)
Definition true_consumed (txid : list Z) (from to sats : Z) : option Z :=
  decode_consumed_from_logs (truth "eth_getLogs" (consumed_query keccak256 show_address cfg txid from to)) sats.

Lemma agreed_call method params w w' v : classify method params = Agreement ->
  call quorum_rpc method params w = (w', inl v) -> v = truth method params.
Proof.
  intros Hc. unfold call, quorum_rpc. intros [= _ E].
  exact (proj1 (agreed_read_true (r (calls w)) method params _ (quorum_pos _) Hc (few_liars _ _ _ Hc)) v E).
Qed.
Lemma pinned_view sig arg block w w' l :
  eth_call_raw_at_block quorum_rpc keccak256 show_address (btc_channels cfg) sig arg (fmt_hex block) w = (w', inl l) ->
  true_view sig arg block = Some (any_nonzero l).
Proof.
  intros H. unfold eth_call_raw_at_block, eth_call_at in H. run H.
  apply agreed_call in H0 as ->; [|apply pinned_call_agreed].
  run H. apply or_bail_inl in H0 as [Hs ->]. apply or_bail_inl in H as [Hl _].
  unfold true_view, view_query. rewrite Hs. cbn [mbind option_bind]. by rewrite Hl.
Qed.
Lemma used_at_true h block w w' u : swap_in_used_at quorum_rpc keccak256 show_address cfg h block w = (w', inl u) ->
  true_view "swapInUsed(bytes32)" h block = Some u.
Proof. intros H. unfold swap_in_used_at in H. run H. apply pinned_view in H0. by injection H as _ <-. Qed.
Lemma await_burial_true n h depth block w w' u :
  await_burial quorum_rpc keccak256 show_address cfg n h depth block w = (w', inl u) ->
  true_view "swapInUsed(bytes32)" h block = Some u.
Proof.
  revert w. induction n as [|n IH]; intros w H; cbn [await_burial] in H; [done|]. run H.
  destruct (depth <=? _); [by apply used_at_true in H|by apply IH in H].
Qed.
Lemma buried_true h depth block w w' u :
  swap_in_used_buried quorum_rpc keccak256 show_address cfg h depth block w = (w', inl u) ->
  true_view "swapInUsed(bytes32)" h block = Some u.
Proof.
  intros H. unfold swap_in_used_buried in H. run H. apply used_at_true in H0. destruct x0; cbn [negb] in H.
  - destruct (depth <=? 1); [by injection H as _ <-|by apply await_burial_true in H].
  - by injection H as _ <-.
Qed.
Lemma consumed_query_agreed txid from to :
  classify "eth_getLogs" (consumed_query keccak256 show_address cfg txid from to) = Agreement.
Proof. unfold classify, consumed_query. cbn -[fmt_hex is_concrete_block_tag]. by rewrite !fmt_hex_concrete. Qed.
Lemma read_consumed_true txid from to sats w w' c :
  read_consumed_sats quorum_rpc keccak256 show_address cfg txid from to sats w = (w', inl (Some c)) ->
  true_consumed txid from to sats = Some c.
Proof.
  intros H. unfold read_consumed_sats in H. run H. unfold try_ in H0.
  destruct (call quorum_rpc "eth_getLogs" _ w) as [w1 a] eqn:E. injection H0 as <- <-.
  injection H as _ H. destruct a as [v|e]; [|done]. apply agreed_call in E as ->; [exact H|apply consumed_query_agreed].
Qed.

Lemma first_some_spec {A B} (f : A -> option B) l b : first_some f l = Some b -> exists a, a ∈ l /\ f a = Some b.
Proof.
  induction l as [|a l IH]; cbn [first_some]; [done|]. destruct (f a) eqn:E.
  - intros [= ->]. exists a. split; [apply list_elem_of_here|done].
  - intros (x & Hx & Hf)%IH. exists x. split; [by apply list_elem_of_further|done].
Qed.
Lemma decode_consumed_le logs sats c : decode_consumed_from_logs logs sats = Some c -> c <= sats.
Proof.
  unfold decode_consumed_from_logs. destruct (as_array logs) as [arr|]; [|done]. cbn [mbind option_bind].
  intros (log & _ & H)%first_some_spec. unfold consumed_of in H.
  destruct (get_key log "data") as [d|]; [|done]. cbn [mbind option_bind] in H.
  destruct (as_str d) as [s|]; [|done]. cbn [mbind option_bind] in H.
  destruct (hex_bytes s) as [data|]; [|done]. cbn [mbind option_bind] in H.
  destruct (length data <? 64)%nat; [done|]. destruct (word_to_u64 _) as [n|]; [|done]. cbn in H. injection H as <-. lia.
Qed.

(** What a settlement reports is what the chain holds, as long as fewer endpoints than the
    quorum lie on each read, whichever they are: a deposit is reported delivered, or settled
    before, only when the contract has marked it, and with the satoshis its settlement log
    records, never more than were deposited; it is reported undeliverable only when the
    contract had not marked it at the block the receipt named.  Every other end is an error. *)
Theorem settlement_true seller token price slippage user_refund cltv inclusion txid sats w w' o :
  settle_swap_in_proven quorum_rpc keccak256 show_address address sign cfg
    seller token price slippage user_refund cltv inclusion txid sats w = (w', inl o) ->
  match o with
  | Delivered c => exists b, true_view "swapInUsed(bytes32)" txid b = Some true /\
                     true_consumed txid b b sats = Some c /\ c <= sats
  | AlreadySettled c => exists b from to, true_view "swapInUsed(bytes32)" txid b = Some true /\
                          true_consumed txid from to sats = Some c /\ c <= sats
  | Undeliverable => exists b, true_view "swapInUsed(bytes32)" txid b = Some false
  end.
Proof.
  intros H. unfold settle_swap_in_proven in H. run H. run H. apply buried_true in H1.
  destruct x2; [|destruct (success x0); [done|]; injection H as _ <-; by eexists].
  destruct (success x0); run H.
  - run H. apply or_bail_inl in H3 as [-> ->]. injection H as _ <-. apply read_consumed_true in H2.
    eexists. split_and!; [done..|]. by eapply decode_consumed_le.
  - run H. run H. apply or_bail_inl in H4 as [-> ->]. injection H as _ <-. apply read_consumed_true in H3.
    eexists _, _, _. split_and!; [done..|]. by eapply decode_consumed_le.
Qed.

(** A seed is exported only after its nonce is marked on the chain. *)
Lemma consume_confirmed nonce w w' :
  consume quorum_rpc keccak256 show_address address sign cfg nonce w = (w', inl tt) ->
  exists b, true_view "migrationNonceUsed(bytes32)" nonce b = Some true.
Proof.
  intros H. unfold consume in H. run H. destruct x0; [|done]. cbn [negb] in H. clear H0. revert x H.
  induction (receipt_poll_attempts cfg) as [|n IH]; intros x H; cbn [confirm_nonce] in H; [done|].
  run H. run H. apply pinned_view in H1. destruct (any_nonzero x3) eqn:E; [by eexists|]. by eapply IH.
Qed.
End Settlement.

(** ** What one endpoint still decides *)

(** The height a pinned read is taken at comes from the first endpoint that answers, so that
    endpoint alone chooses the block: whatever the others know of the tip, the read is the
    agreed read at the block it likes. *)
Lemma first_endpoint_picks_block r keccak256 show_address to sig arg w ep eps b :
  endpoints (r (calls w)) = ep :: eps -> 0 <= b <= imax u64 - AGREED_READ_DEPTH ->
  ep "eth_blockNumber"%string (Array []) = inl (Str (fmt_hex (b + AGREED_READ_DEPTH))) ->
  eth_call_raw_agreed (quorum_rpc r) keccak256 show_address to sig arg w =
  eth_call_raw_at_block (quorum_rpc r) keccak256 show_address to sig arg (fmt_hex b) (mkWorld (S (calls w)) (sent_log w)).
Proof.
  intros He Hb Hl. unfold eth_call_raw_agreed, agreed_read_block, block_number_of. unfold mbind at 1 2 3, M_bind at 1 2 3, call at 1.
  unfold quorum_rpc at 1, quorum_call, call_first_healthy. rewrite He. cbn [first_healthy_loop classify].
  change (classify "eth_blockNumber" (Array [])) with FirstHealthy. cbn match. rewrite Hl.
  unfold parse_quantity. cbn [as_str mbind option_bind]. rewrite fmt_hex_roundtrip by (unfold AGREED_READ_DEPTH in *; lia).
  cbn [or_bail mret M_ret].
  replace (sat u64 (b + AGREED_READ_DEPTH - AGREED_READ_DEPTH)) with b; [done|].
  unfold sat, u64, AGREED_READ_DEPTH in *. cbn [imin imax] in *. lia.
Qed.

(** ** Samples *)
Module ClientSample.
Definition txid : list Z := replicate 32 7.
Definition word (n : Z) : list Z := to_be_bytes 32 n.
(** The deposit is marked from block 200 on; its log says that 40 of 50 satoshis were taken. *)
Definition truth (method : string) (params : Value) : Value :=
  if String.eqb method "eth_call" then
    Str (if bool_decide (get_index params 1 = Some (Str (fmt_hex 200))) then "0x01" else "0x00")
  else if String.eqb method "eth_getLogs" then
    Array [Object [("data"%string, Str (hex_data (word 50 ++ word 40 ++ word 0)))]]
  else if String.eqb method "eth_blockNumber" then Str (fmt_hex 300)
  else if String.eqb method "eth_getTransactionReceipt" then
    Object [("status"%string, Str "0x1"); ("blockNumber"%string, Str (fmt_hex 200))]
  else Str "0x3b9aca00".
Definition honest : Endpoint := fun method params => inl (truth method params).
(** Says that the transaction was mined in an older block and reverted. *)
Definition liar : Endpoint := fun method params =>
  if String.eqb method "eth_getTransactionReceipt"
  then inl (Object [("status"%string, Str "0x0"); ("blockNumber"%string, Str (fmt_hex 100))])
  else inl (truth method params).
Definition net (first : Endpoint) (_ : nat) : QuorumJsonRpc := mkQuorum [first; honest; honest] 2 [].
Definition hash (_ : list Z) : list Z := replicate 32 1.
Definition show (_ : list Z) : string := "0xc0".
Definition sign (_ : TxFields) : list Z + string := inl [1; 2].
Definition start : World := mkWorld 0 [].
Definition inclusion : TxInclusion := mkInclusion [] [] 0 0 [].
Definition settle (first : Endpoint) : M SettleOutcome :=
  settle_swap_in_proven (quorum_rpc (net first)) hash show [] sign TransportSample.cfg [] [] 0 0 [] 0 inclusion txid 50.

Lemma few_liars first n method params : classify method params = Agreement ->
  (against (truth method params) (values method params (endpoints (net first n))) < quorum (net first n))%nat.
Proof.
  intros _. unfold net, values, against. cbn [endpoints quorum omap list_omap]. unfold honest.
  destruct (first method params) as [v|e]; rewrite ?filter_cons; repeat (destruct (base.decide _); try done); cbn; lia.
Qed.
End ClientSample.

Lemma submit_fee_ladder_witness :
  exists l n, sent_log (submit (quorum_rpc (ClientSample.net (fun _ _ => inr "down"%string))) ClientSample.show [] ClientSample.sign
      TransportSample.cfg [1] [2; 3] 21000 ClientSample.start).1 = [] ++ l /\
    (length l <= 4)%nat /\ Forall (same_call TransportSample.cfg [1] [2; 3] 21000 n) l /\
    Forall (fun f => fees_ok TransportSample.cfg (fees f)) l /\ Sorted (fun f g => fees_step (fees f) (fees g)) l.
Proof. apply submit_fee_ladder; by vm_compute. Defined.

Lemma settlement_true_witness : exists b,
  true_view ClientSample.truth ClientSample.hash ClientSample.show TransportSample.cfg "swapInUsed(bytes32)" ClientSample.txid b = Some true /\
  true_consumed ClientSample.truth ClientSample.hash ClientSample.show TransportSample.cfg ClientSample.txid b b 50 = Some 40 /\ 40 <= 50.
Proof.
  apply (settlement_true (ClientSample.net ClientSample.honest) ClientSample.truth ltac:(cbn; lia)
    (ClientSample.few_liars ClientSample.honest) ClientSample.hash ClientSample.show [] ClientSample.sign TransportSample.cfg
    [] [] 0 0 [] 0 ClientSample.inclusion ClientSample.txid 50 ClientSample.start
    (ClientSample.settle ClientSample.honest ClientSample.start).1 (Delivered 40)).
  by vm_compute.
Defined.

(** The receipt comes from the first endpoint that answers.  One that reports a revert in a
    block before the settlement makes a deposit the contract has settled count as
    undeliverable, so its bitcoin is left to the seller's refund. *)
Lemma forged_receipt_undeliverable :
  (ClientSample.settle ClientSample.liar ClientSample.start).2 = inl Undeliverable /\
  true_view ClientSample.truth ClientSample.hash ClientSample.show TransportSample.cfg
    "swapInUsed(bytes32)" ClientSample.txid 200 = Some true.
Proof. split; by vm_compute. Qed.
