(* ===== verification/Gateway.v ===== *)
(** * Gateway: the Bitcoin light client on Ethereum

    [evm/src/spv/SPVGateway.sol] and [evm/src/spv/libs/TargetsHelper.sol], with the header
    parser they call: the storage, [addBlockHeaderBatch] with its checks (link, difficulty,
    proof of work, median time), the choice of the head by cumulative work and the mapping
    from heights to the main chain.  [None] is a revert.  SHA-256 is a parameter.

    The second part follows a source chain that obeys the rules into the contract: what a
    batch of its headers does when the contract is on that chain, and when it is on another
    branch.  [Relayer] builds convergence on it. *)
From stdpp Require Import gmap.
From S2P Require Import Prelude Pool Chain.
Open Scope list_scope.

(** ** Headers *)
Record HeaderData := mkHeader {
  hd_prev : list Z;                          (* hashes in display order *)
  hd_merkle : list Z;
  hd_version : Z;
  hd_time : Z;
  hd_nonce : Z;
  hd_bits : Z                                (* bytes4 *)
}.
Definition zero32 : list Z := replicate 32 0.

(** ** [TargetsHelper] *)
Definition EXPECTED_TARGET_BLOCKS_TIME : Z := 1209600.
Definition DIFFICULTY_ADJUSTMENT_INTERVAL : Z := 2016.
Definition INITIAL_TARGET : Z := 65535 * 2 ^ 208.
Definition TARGET_FIXED_POINT_FACTOR : Z := 10 ^ 18.
Definition MAX_TARGET_RATIO : Z := TARGET_FIXED_POINT_FACTOR * 4.
Definition MIN_TARGET_RATIO : Z := TARGET_FIXED_POINT_FACTOR / 4.

Definition isTargetAdjustmentBlock (height : Z) : bool :=
  (height mod DIFFICULTY_ADJUSTMENT_INTERVAL =? 0) && (0 <? height).

(** The exponent is the first byte of the word, the coefficient the next three. *)
Definition bitsToTarget (bits : Z) : Z :=
  let e := bits / 2 ^ 24 in
  if 32 <? e then 0 else Z.shiftr (Z.shiftl (bits mod 2 ^ 24) 232) (8 * (32 - e)).

(** [div(not(0), target + 1)]; a division by zero is zero. *)
Definition countBlockWork (target : Z) : Z := (2 ^ 256 - 1) / ((target + 1) mod 2 ^ 256).

Definition countNewTarget (target passed : Z) : option Z :=
  let ratio := Z.min (Z.max (passed * TARGET_FIXED_POINT_FACTOR / EXPECTED_TARGET_BLOCKS_TIME)
                        MIN_TARGET_RATIO) MAX_TARGET_RATIO in
  let t := target * ratio / TARGET_FIXED_POINT_FACTOR in
  if t <? 2 ^ 256 then Some (Z.min t INITIAL_TARGET) else None.

Definition roundTarget (target : Z) : Z :=
  let last := match list_find (fun b => 0 < b) (to_be_bytes 32 target) with
              | Some (i, b) => Z.of_nat i + 3 - (if 128 <? b then 1 else 0)
              | None => 0
              end in
  if (last =? 0) || (32 <? last) then 0
  else Z.land target (Z.lnot (Z.ones (8 * (32 - last)))).

(** ** Storage *)
Record BlockData := mkBlock {
  b_prev : list Z;
  b_merkle : list Z;
  b_version : Z;
  b_time : Z;
  b_nonce : Z;
  b_bits : Z;
  b_height : Z;
  b_work : Z
}.
Definition block0 : BlockData := mkBlock zero32 zero32 0 0 0 0 0 0.

Record Gw := mkGw {
  blocksData : gmap (list Z) BlockData;
  blocksHeightToBlockHash : gmap Z (list Z);
  mainchainHead : list Z
}.

Definition MEDIAN_PAST_BLOCKS : nat := 11.

Definition block_data (g : Gw) (hash : list Z) : BlockData := default block0 (blocksData g !! hash).
Definition getBlockHeight (g : Gw) (hash : list Z) : Z := b_height (block_data g hash).
Definition getBlockTarget (g : Gw) (hash : list Z) : Z := bitsToTarget (b_bits (block_data g hash)).
Definition blockExists (g : Gw) (hash : list Z) : bool := 0 <? b_time (block_data g hash).
Definition getBlockHash (g : Gw) (height : Z) : list Z := default zero32 (blocksHeightToBlockHash g !! height).
Definition getMainchainHeight (g : Gw) : Z := getBlockHeight g (mainchainHead g).

(** ** Difficulty and time *)
Definition getEpochPassedTime (g : Gw) (height : Z) : option Z :=
  let start := b_time (block_data g (getBlockHash g (height - DIFFICULTY_ADJUSTMENT_INTERVAL))) in
  let stop := b_time (block_data g (getBlockHash g (height - 1))) in
  if stop <? start then None else Some (stop - start).

Definition retargetIfEpochBoundary (g : Gw) (target height : Z) : option Z :=
  if isTargetAdjustmentBlock height then
    passed ← getEpochPassedTime g height; t ← countNewTarget target passed; Some (roundTarget t)
  else Some target.

Fixpoint insert_sorted (x : Z) (l : list Z) : list Z :=
  match l with
  | [] => [x]
  | y :: l => if x <=? y then x :: y :: l else y :: insert_sorted x l
  end.
Definition insertionSort (l : list Z) : list Z := foldr insert_sorted [] l.
Fixpoint descends (l : list Z) : bool :=
  match l with
  | x :: (y :: _) as l => (y <? x) || descends l
  | _ => false
  end.
Definition getMedianTime (times : list Z) : Z :=
  nth (MEDIAN_PAST_BLOCKS / 2) (if descends times then insertionSort times else times) 0.

(** The times of [n] blocks ending with [hash], oldest first. *)
Fixpoint ancestor_times (g : Gw) (n : nat) (hash : list Z) (acc : list Z) : list Z :=
  match n with
  | O => acc
  | S n => ancestor_times g n (b_prev (block_data g hash)) (b_time (block_data g hash) :: acc)
  end.

Definition getStorageMedianTime (g : Gw) (hd : HeaderData) (height : Z) : Z :=
  if height =? 1 then hd_time hd
  else if height - 1 <? Z.of_nat MEDIAN_PAST_BLOCKS then b_time (block_data g (hd_prev hd))
  else getMedianTime (ancestor_times g MEDIAN_PAST_BLOCKS (hd_prev hd) []).

Definition getMemoryMedianTime (headers : list HeaderData) (to : nat) : Z :=
  if (length headers <? MEDIAN_PAST_BLOCKS)%nat then 0
  else getMedianTime (map hd_time (take MEDIAN_PAST_BLOCKS (drop (to - MEDIAN_PAST_BLOCKS) headers))).

Definition validateBlockRules (hd : HeaderData) (hash : list Z) (target median : Z) : bool :=
  let block_target := bitsToTarget (hd_bits hd) in
  (target =? block_target) && (from_be_bytes hash <=? block_target) && (median <=? hd_time hd).

(** ** Adding *)

(** The [do ... while] that points the mapping at the new branch. *)
Fixpoint relink (fuel : nat) (g : Gw) (hash : list Z) (height : Z) : option Gw :=
  match fuel with
  | O => None
  | S fuel =>
      let g := mkGw (blocksData g) (<[height := hash]> (blocksHeightToBlockHash g)) (mainchainHead g) in
      let hash := b_prev (block_data g hash) in
      let height := cast u64 (height - 1) in
      if bool_decide (getBlockHash g height <> hash) && bool_decide (hash <> zero32)
      then relink fuel g hash height else Some g
  end.

Definition updateMainchainHead (g : Gw) (hd : HeaderData) (hash : list Z) (height : Z) : option Gw :=
  let point := mkGw (blocksData g) (<[height := hash]> (blocksHeightToBlockHash g)) hash in
  if bool_decide (hd_prev hd = mainchainHead g) || bool_decide (mainchainHead g = zero32) then Some point
  else if b_work (block_data g (mainchainHead g)) <? b_work (block_data g hash)
  then relink (S (S (S (Z.to_nat height)))) point (hd_prev hd) (height - 1)
  else Some g.

Definition addBlock (g : Gw) (hd : HeaderData) (hash : list Z) (height work : Z) : option Gw :=
  let b := mkBlock (hd_prev hd) (hd_merkle hd) (hd_version hd) (hd_time hd) (hd_nonce hd) (hd_bits hd) height work in
  updateMainchainHead (mkGw (<[hash := b]> (blocksData g)) (blocksHeightToBlockHash g) (mainchainHead g)) hd hash height.

Definition nextCumulativeWork (g : Gw) (prev : list Z) (target : Z) : option Z :=
  let w := b_work (block_data g prev) + countBlockWork target in
  if w <? 2 ^ 256 then Some w else None.

(** The loop of [addBlockHeaderBatch] from its [i]-th header on. *)
Fixpoint add_loop (g : Gw) (all : list HeaderData) (first : Z) (i : nat) (target : Z)
    (rest : list (HeaderData * list Z)) : option Gw :=
  match rest with
  | [] => Some g
  | (hd, hash) :: rest =>
      let height := first + Z.of_nat i in
      if imax u64 <? height then None else
      target ← retargetIfEpochBoundary g target height;
      let median := if (i <? MEDIAN_PAST_BLOCKS)%nat then getStorageMedianTime g hd height
                    else getMemoryMedianTime all i in
      if validateBlockRules hd hash target median then
        work ← nextCumulativeWork g (hd_prev hd) target;
        g ← addBlock g hd hash height work;
        add_loop g all first (S i) target rest
      else None
  end.

Section Contract.
Variable sha256 : list Z -> list Z.

Definition header_field (raw : list Z) (from to : nat) : list Z := take (to - from) (drop from raw).
Definition parseBlockHeader (raw : list Z) : option (HeaderData * list Z) :=
  if (length raw =? 80)%nat then
    Some (mkHeader (rev (header_field raw 4 36)) (rev (header_field raw 36 68))
            (from_le_bytes (header_field raw 0 4)) (from_le_bytes (header_field raw 68 72))
            (from_le_bytes (header_field raw 76 80)) (from_le_bytes (header_field raw 72 76)),
          rev (sha256 (sha256 raw)))
  else None.

(** [prev] is the hash of the header before, [None] for the first. *)
Fixpoint parseBlockHeadersRaw (g : Gw) (prev : option (list Z)) (raws : list (list Z))
  : option (list (HeaderData * list Z)) :=
  match raws with
  | [] => Some []
  | raw :: raws =>
      '(hd, hash) ← parseBlockHeader raw;
      if blockExists g hash then None else
      if (match prev with None => blockExists g (hd_prev hd) | Some p => bool_decide (hd_prev hd = p) end)
      then l ← parseBlockHeadersRaw g (Some hash) raws; Some ((hd, hash) :: l)
      else None
  end.

Definition addBlockHeaderBatch (g : Gw) (raws : list (list Z)) : option Gw :=
  l ← parseBlockHeadersRaw g None raws;
  match l with
  | [] => None
  | (hd, _) :: _ =>
      add_loop g (map fst l) (getBlockHeight g (hd_prev hd) + 1) 0 (getBlockTarget g (hd_prev hd)) l
  end.

(** [__SPVGateway_init] on an empty storage. *)
Definition init (raw : list Z) (height work : Z) : option Gw :=
  if height mod DIFFICULTY_ADJUSTMENT_INTERVAL =? 0 then
    '(hd, hash) ← parseBlockHeader raw;
    addBlock (mkGw ∅ ∅ zero32) hd hash height work
  else None.
End Contract.

(** ** Rounding

    A header's target has a mantissa of three bytes with the top bit clear, so a target whose
    leading byte is 0x80 keeps two bytes of its own; the rounding keeps three (it compares the
    byte with 0x80 by "greater").  No header matches such a target, and a retarget that comes
    to one is refused whatever is offered. *)
Lemma rounding_at_0x80 e m : 0 <= e -> 0 <= m < 2 ^ 23 ->
  bitsToTarget (e * 2 ^ 24 + m) <> roundTarget (Z.shiftl 8432589 160).
Proof.
  intros He Hm E. change (roundTarget (Z.shiftl 8432589 160)) with (8432589 * 2 ^ 160) in E. unfold bitsToTarget in E.
  rewrite (Z.add_comm (e * 2 ^ 24)), Z.div_add, Z.mod_add, (Z.div_small m), (Z.mod_small m) in E by lia. rewrite Z.add_0_l in E.
  destruct (Z.ltb_spec 32 e) as [|Hle]; [lia|]. rewrite Z.shiftl_mul_pow2, Z.shiftr_div_pow2 in E by lia.
  destruct (Z.le_gt_cases e 23) as [Hs|Hs].
  - assert (m * 2 ^ 232 / 2 ^ (8 * (32 - e)) < 2 ^ 23 * 2 ^ 160); [|lia].
    apply Z.div_lt_upper_bound; [apply Z.pow_pos_nonneg; lia|].
    assert (2 ^ 72 <= 2 ^ (8 * (32 - e))) by (apply Z.pow_le_mono_r; lia). nia.
  - assert (2 ^ 232 = 2 ^ (8 * (e - 24)) * 2 ^ 168 * 2 ^ (8 * (32 - e))) as Hp by (rewrite <- !Z.pow_add_r by lia; f_equal; lia).
    rewrite Hp, !Z.mul_assoc, Z.div_mul in E by (apply Z.pow_nonzero; lia). lia.
Qed.

(** * A source chain and the contract *)
Section Source.
Variable sha256 : list Z -> list Z.

(** The best chain of a source, from the block the contract was started at (height [base],
    cumulative work [w0]) to its tip. *)
Context (base tip w0 : Z) (raw : Z -> list Z) (hd : Z -> HeaderData) (hash_at : Z -> list Z).

Definition tm (h : Z) : Z := hd_time (hd h).
Definition tgt (h : Z) : Z := bitsToTarget (hd_bits (hd h)).
Definition work_at (h : Z) : Z :=
  w0 + sumZ (fun i => countBlockWork (tgt (base + 1 + Z.of_nat i))) (seq 0 (Z.to_nat (h - base))).

(** The target of block [h] by the retarget rule, from the chain itself. *)
Definition rule_target (h : Z) : option Z :=
  if isTargetAdjustmentBlock h then
    if tm (h - 1) <? tm (h - DIFFICULTY_ADJUSTMENT_INTERVAL) then None
    else t ← countNewTarget (tgt (h - 1)) (tm (h - 1) - tm (h - DIFFICULTY_ADJUSTMENT_INTERVAL)); Some (roundTarget t)
  else Some (tgt (h - 1)).

(** The times of the [n] blocks ending at [h], oldest first, zero below the start. *)
Definition time_of (h : Z) : Z := if base <=? h then tm h else 0.
Definition times_to (n : nat) (h : Z) : list Z := map (fun i => time_of (h - Z.of_nat n + 1 + Z.of_nat i)) (seq 0 n).
Definition rule_median (h : Z) : Z :=
  if h =? 1 then tm h
  else if h - 1 <? Z.of_nat MEDIAN_PAST_BLOCKS then tm (h - 1)
  else getMedianTime (times_to MEDIAN_PAST_BLOCKS (h - 1)).

(** The chain obeys the rules the contract enforces. *)
Record SourceOk : Prop := {
  src_base : 0 <= base <= tip /\ base mod DIFFICULTY_ADJUSTMENT_INTERVAL = 0;
  src_tip : tip < imax u64;
  src_parse h : base <= h <= tip -> parseBlockHeader sha256 (raw h) = Some (hd h, hash_at h);
  src_linked h : base <= h < tip -> hd_prev (hd (h + 1)) = hash_at h;
  src_distinct h h' : base <= h <= tip -> base <= h' <= tip -> hash_at h = hash_at h' -> h = h';
  src_fresh h : base <= h <= tip -> hash_at h <> zero32 /\ hash_at h <> hd_prev (hd base);
  src_time h : base <= h <= tip -> 0 < tm h;
  src_target h : base < h <= tip -> rule_target h = Some (tgt h);
  src_pow h : base < h <= tip -> from_be_bytes (hash_at h) <= tgt h;
  src_median h : base < h <= tip -> rule_median h <= tm h;
  src_work h : base <= h <= tip -> 0 < countBlockWork (tgt h) /\ work_at h < 2 ^ 256
}.
Context (Hsrc : SourceOk).

Definition block_at (h : Z) : BlockData :=
  mkBlock (hd_prev (hd h)) (hd_merkle (hd h)) (hd_version (hd h)) (tm h) (hd_nonce (hd h)) (hd_bits (hd h)) h (work_at h).

Lemma work_next h : base <= h -> work_at (h + 1) = work_at h + countBlockWork (tgt (h + 1)).
Proof.
  intros Hh. unfold work_at. replace (Z.to_nat (h + 1 - base)) with (S (Z.to_nat (h - base))) by lia.
  rewrite seq_S, sumZ_app, sumZ_cons. cbn [sumZ foldr]. replace (base + 1 + Z.of_nat (0 + Z.to_nat (h - base))) with (h + 1) by lia. lia.
Qed.
Lemma work_mono h h' : base <= h <= h' -> h' <= tip -> work_at h <= work_at h'.
Proof.
  intros Hh Ht. replace h' with (h + Z.of_nat (Z.to_nat (h' - h))) in * by lia.
  induction (Z.to_nat (h' - h)) as [|n IH]; [rewrite Z.add_0_r; lia|].
  replace (h + Z.of_nat (S n)) with (h + Z.of_nat n + 1) in * by lia. rewrite work_next by lia.
  destruct (src_work Hsrc (h + Z.of_nat n + 1)) as [? _]; [lia|]. specialize (IH ltac:(lia) ltac:(lia)). lia.
Qed.

(** ** The contract has the chain exactly up to [k] *)
Record stored (g : Gw) (k : Z) : Prop := {
  st_range : base <= k <= tip;
  st_known h : base <= h <= k -> blocksData g !! hash_at h = Some (block_at h);
  st_unknown h : k < h <= tip -> blocksData g !! hash_at h = None;
  st_below : blocksData g !! hd_prev (hd base) = None;
  st_zero : blocksData g !! zero32 = None
}.

(** Its head is the source's block [k], or a block of another branch: of height [H] and work
    [w], above [k], at least as heavy as what is stored of the source and lighter than the
    source's block one above it.  The mapping follows the source up to the fork [f], and no
    retarget falls between the fork's end and the first block above the head. *)
Record on_source (g : Gw) (k : Z) : Prop := {
  on_head : mainchainHead g = hash_at k;
  on_map h : base <= h <= k -> blocksHeightToBlockHash g !! h = Some (hash_at h)
}.
Record off_source (H w f : Z) (g : Gw) (k : Z) : Prop := {
  off_head : exists bd, blocksData g !! mainchainHead g = Some bd /\ b_height bd = H /\ b_work bd = w;
  off_other h : base <= h <= tip -> mainchainHead g <> hash_at h;
  off_range : base <= f <= k /\ k <= H;
  off_map h : base <= h <= f -> blocksHeightToBlockHash g !! h = Some (hash_at h);
  off_fork h : f < h <= tip -> blocksHeightToBlockHash g !! h <> Some (hash_at h);
  off_work : work_at k <= w;
  off_next : H < tip -> w < work_at (H + 1);
  off_epoch h : k < h <= Z.min (H + 1) tip -> isTargetAdjustmentBlock h = false
}.
Definition follows (H w f : Z) (g : Gw) (k : Z) : Prop := stored g k /\ (on_source g k \/ off_source H w f g k).

Lemma known_data g k h : stored g k -> base <= h <= k -> block_data g (hash_at h) = block_at h.
Proof. intros Hs Hh. unfold block_data. by rewrite (st_known _ _ Hs). Qed.
Lemma exists_iff g k h : stored g k -> base <= h <= tip -> blockExists g (hash_at h) = (h <=? k).
Proof.
  intros Hs Hh. unfold blockExists. destruct (Z.leb_spec h k).
  - rewrite (known_data g k) by (done || lia). cbn. apply Z.ltb_lt, (src_time Hsrc). lia.
  - unfold block_data. by rewrite (st_unknown _ _ Hs) by lia.
Qed.

(** ** Median times *)
Lemma walk_unknown g n x acc : blocksData g !! x = None -> blocksData g !! zero32 = None ->
  ancestor_times g n x acc = replicate n 0 ++ acc.
Proof.
  revert x acc. induction n as [|n IH]; intros x acc Hx H0; [done|]. cbn [ancestor_times].
  unfold block_data at 1 2. rewrite Hx. cbn [from_option b_prev b_time block0 default]. rewrite IH by done.
  change (replicate (S n) 0 ++ acc) with (0 :: (replicate n 0 ++ acc)).
  change (0 :: acc) with ([0] ++ acc). rewrite app_assoc. change (0 :: (replicate n 0 ++ acc)) with ((0 :: replicate n 0) ++ acc).
  f_equal. rewrite <- replicate_cons_app. done.
Qed.

Lemma times_to_S n h : times_to (S n) h = times_to n (h - 1) ++ [time_of h].
Proof.
  unfold times_to. rewrite seq_S, map_app. f_equal.
  - apply map_ext. intros i. f_equal. lia.
  - cbn. do 2 f_equal. lia.
Qed.
Lemma times_to_below n h : h < base -> times_to n h = replicate n 0.
Proof.
  intros Hh. unfold times_to. enough (forall s m, map (fun i => time_of (h - Z.of_nat n + 1 + Z.of_nat i)) (seq s m) =
    map (fun _ => 0) (seq s m) \/ (n < s + m)%nat) as Hm.
  { destruct (Hm 0%nat n) as [->|?]; [|lia]. clear. generalize 0%nat. induction n as [|n IH]; intros s; [done|]. cbn. f_equal. apply IH. }
  intros s m. revert s. induction m as [|m IH]; intros s; [by left|]. cbn [seq map].
  destruct (decide (n < s + S m)%nat) as [|Hle]; [by right|left]. destruct (IH (S s)) as [->|?]; [|lia].
  f_equal. unfold time_of. rewrite (proj2 (Z.leb_gt _ _)); [done|]. lia.
Qed.

Lemma ancestors_source g k n : stored g k -> forall h acc, base <= h <= k ->
  ancestor_times g n (hash_at h) acc = times_to n h ++ acc.
Proof.
  intros Hs. induction n as [|n IH]; intros h acc Hh; [done|]. cbn [ancestor_times].
  rewrite (known_data g k) by done. cbn [b_prev b_time block_at]. rewrite times_to_S, <- app_assoc. cbn [app].
  assert (time_of h = tm h) as Ht by (unfold time_of; by rewrite (proj2 (Z.leb_le _ _)) by lia). rewrite Ht.
  destruct (decide (h = base)) as [->|Hne].
  - rewrite walk_unknown by apply Hs. by rewrite times_to_below by lia.
  - assert (hd_prev (hd h) = hash_at (h - 1)) as ->.
    { pose proof (src_linked Hsrc (h - 1)) as Hlk. replace (h - 1 + 1) with h in Hlk by lia.
      apply Hlk. pose proof (st_range _ _ Hs). lia. }
    apply IH. lia.
Qed.

Lemma storage_median g k : stored g k -> k < tip -> getStorageMedianTime g (hd (k + 1)) (k + 1) = rule_median (k + 1).
Proof.
  intros Hs Hk. pose proof (st_range _ _ Hs). unfold getStorageMedianTime, rule_median.
  replace (k + 1 - 1) with k by lia. rewrite (src_linked Hsrc) by lia.
  destruct (k + 1 =? 1); [done|]. destruct (k <? Z.of_nat MEDIAN_PAST_BLOCKS).
  - by rewrite (known_data g k) by (done || lia).
  - rewrite (ancestors_source g k) by (done || lia). by rewrite app_nil_r.
Qed.

Definition headers_of (first : Z) (n : nat) : list HeaderData := map (fun i => hd (first + Z.of_nat i)) (seq 0 n).

Lemma memory_median first n i : base < first -> (MEDIAN_PAST_BLOCKS <= i < n)%nat ->
  getMemoryMedianTime (headers_of first n) i = rule_median (first + Z.of_nat i).
Proof.
  intros Hf Hi. pose proof (src_base Hsrc) as [[Hb _] _]. unfold MEDIAN_PAST_BLOCKS in *.
  unfold getMemoryMedianTime, rule_median, headers_of. rewrite length_map, length_seq.
  rewrite (proj2 (Nat.ltb_ge _ _)) by (unfold MEDIAN_PAST_BLOCKS; lia).
  rewrite (proj2 (Z.eqb_neq _ _)), (proj2 (Z.ltb_ge _ _)) by (unfold MEDIAN_PAST_BLOCKS; lia). f_equal.
  unfold MEDIAN_PAST_BLOCKS. rewrite skipn_map, firstn_map, drop_seq, take_seq. rewrite map_map.
  replace (Nat.min 11 (n - (i - 11))) with 11%nat by lia. unfold times_to.
  replace (0 + (i - 11))%nat with (i - 11 + 0)%nat by lia. rewrite <- (Nat.add_0_r (i - 11)).
  enough (forall m s, map (fun x => hd_time (hd (first + Z.of_nat x))) (seq (i - 11 + s) m) =
    map (fun j => time_of (first + Z.of_nat i - 1 - Z.of_nat 11 + 1 + Z.of_nat j)) (seq s m)) as Hm
    by (rewrite ?Nat.add_0_r; rewrite <- (Hm 11%nat 0%nat); by rewrite Nat.add_0_r).
  induction m as [|m IH]; intros s; [done|]. cbn [seq map]. f_equal.
  - unfold time_of. rewrite (proj2 (Z.leb_le _ _)) by lia. unfold tm. do 2 f_equal. lia.
  - rewrite <- IH. f_equal. f_equal. lia.
Qed.

(** ** Targets *)
Lemma adjustment_base h : base < h -> isTargetAdjustmentBlock h = true -> base <= h - DIFFICULTY_ADJUSTMENT_INTERVAL.
Proof.
  intros Hh Ha. pose proof (src_base Hsrc) as [_ Hb]. unfold isTargetAdjustmentBlock, DIFFICULTY_ADJUSTMENT_INTERVAL in *.
  apply andb_prop in Ha as [Ha _]. apply Z.eqb_eq in Ha.
  pose proof (Z.div_mod h 2016 ltac:(lia)). pose proof (Z.div_mod base 2016 ltac:(lia)). nia.
Qed.

Lemma retarget_next H w f g k : follows H w f g k -> k < tip ->
  retargetIfEpochBoundary g (tgt k) (k + 1) = Some (tgt (k + 1)).
Proof.
  intros [Hs Hh] Hk. pose proof (st_range _ _ Hs) as Hr.
  pose proof (src_target Hsrc (k + 1) ltac:(lia)) as Ht. unfold rule_target in Ht.
  replace (k + 1 - 1) with k in Ht by lia. unfold retargetIfEpochBoundary.
  destruct (isTargetAdjustmentBlock (k + 1)) eqn:Ea; [|done].
  destruct Hh as [Hon|Hoff].
  - pose proof (adjustment_base (k + 1) ltac:(lia) Ea) as Hb. unfold getEpochPassedTime, getBlockHash.
    replace (k + 1 - 1) with k by lia. unfold DIFFICULTY_ADJUSTMENT_INTERVAL in *.
    rewrite !(on_map _ _ Hon) by lia. cbn [id default from_option].
    rewrite !(known_data g k) by (done || lia). cbn [b_time block_at]. destruct (_ <? _); [done|]. exact Ht.
  - destruct Hoff. rewrite off_epoch0 in Ea by lia. done.
Qed.

(** ** Moving the mapping *)
Lemma relink_source d top f : base <= f ->
  (forall h, base <= h <= tip -> hash_at h <> zero32) -> d !! hd_prev (hd base) = None ->
  forall fuel m j, (Z.to_nat (j - f) + 3 <= fuel)%nat -> f <= j < tip ->
  (forall h, base <= h <= j -> d !! hash_at h = Some (block_at h)) ->
  (forall h, base <= h <= f -> m !! h = Some (hash_at h)) ->
  (forall h, f < h <= j -> m !! h <> Some (hash_at h)) ->
  exists m', relink fuel (mkGw d m top) (hash_at j) j = Some (mkGw d m' top) /\
    (forall h, base <= h <= j -> m' !! h = Some (hash_at h)) /\ (forall h, j < h <= tip -> m' !! h = m !! h).
Proof.
  intros Hf Hz Hp. pose proof (src_base Hsrc) as [[Hb _] _]. pose proof (src_tip Hsrc) as Htip. cbn [imax u64] in Htip.
  induction fuel as [|fuel IH]; intros m j Hfu Hj Hd Hm Hn; [lia|]. cbn [relink blocksData blocksHeightToBlockHash mainchainHead].
  unfold block_data, getBlockHash. cbn [blocksData blocksHeightToBlockHash]. rewrite (Hd j) by lia. cbn [id default from_option b_prev block_at].
  destruct (decide (j = base)) as [->|Hne].
  - assert (f = base) as -> by lia.
    assert (cast u64 (base - 1) < base \/ tip < cast u64 (base - 1)) as Hc.
    { destruct (decide (base = 0)) as [->|]; [right; change (cast u64 (0 - 1)) with 18446744073709551615; lia|left; rewrite cast_id by (unfold in_range; cbn [imin imax u64]; lia); lia]. }
    match goal with |- context [if ?c then _ else _] => destruct c end.
    + destruct fuel as [|fuel]; [lia|]. cbn [relink blocksData blocksHeightToBlockHash mainchainHead].
      unfold block_data, getBlockHash. cbn [blocksData]. rewrite Hp. cbn [id default from_option b_prev block0].
      rewrite (bool_decide_false (zero32 <> zero32)), andb_false_r by congruence. eexists. split; [done|].
      split; intros h Hh; rewrite !lookup_insert_ne by lia; [|done].
      replace h with base by lia. by rewrite lookup_insert_eq.
    + eexists. split; [done|]. split; intros h Hh; [replace h with base by lia; by rewrite lookup_insert_eq|by rewrite lookup_insert_ne by lia].
  - assert (hd_prev (hd j) = hash_at (j - 1)) as ->.
    { pose proof (src_linked Hsrc (j - 1)) as Hlk. replace (j - 1 + 1) with j in Hlk by lia. apply Hlk. lia. }
    rewrite cast_id by (unfold in_range; cbn [imin imax u64]; lia). rewrite lookup_insert_ne by lia.
    rewrite (bool_decide_true (hash_at (j - 1) <> zero32)), andb_true_r by (apply Hz; lia).
    destruct (decide (j <= f + 1)) as [Hle|Hgt].
    + rewrite (Hm (j - 1)) by lia. cbn [id default from_option]. rewrite bool_decide_false by congruence. eexists. split; [done|].
      split; intros h Hh; [|by rewrite lookup_insert_ne by lia]. destruct (decide (h = j)) as [->|]; [by rewrite lookup_insert_eq|].
      rewrite lookup_insert_ne by lia. apply Hm. lia.
    + rewrite bool_decide_true.
      2: { specialize (Hn (j - 1) ltac:(lia)). destruct (m !! (j - 1)); cbn; [congruence|]. intros E. by apply (Hz (j - 1) ltac:(lia)). }
      destruct (IH (<[j := hash_at j]> m) (j - 1)) as (m' & E & H1 & H2); [lia..|intros; apply Hd; lia| | |].
      * intros h Hh. rewrite lookup_insert_ne by lia. apply Hm. lia.
      * intros h Hh. rewrite lookup_insert_ne by lia. apply Hn. lia.
      * exists m'. split; [done|]. split; intros h Hh.
        -- destruct (decide (h = j)) as [->|]; [rewrite H2 by lia; by rewrite lookup_insert_eq|apply H1; lia].
        -- rewrite H2 by lia. by rewrite lookup_insert_ne by lia.
Qed.

(** ** One block *)
Lemma stored_next g k m top : stored g k -> k < tip ->
  stored (mkGw (<[hash_at (k + 1) := block_at (k + 1)]> (blocksData g)) m top) (k + 1).
Proof.
  intros Hs Hk. pose proof (st_range _ _ Hs) as Hr. destruct (src_fresh Hsrc (k + 1)) as [Hz Hp]; [lia|].
  split; cbn [blocksData]; [lia| | | |].
  - intros h Hh. destruct (decide (h = k + 1)) as [->|Hne]; [by rewrite lookup_insert_eq|].
    rewrite lookup_insert_ne by (intros E; apply (src_distinct Hsrc) in E; lia). apply (st_known _ _ Hs). lia.
  - intros h Hh. rewrite lookup_insert_ne by (intros E; apply (src_distinct Hsrc) in E; lia). apply (st_unknown _ _ Hs). lia.
  - rewrite lookup_insert_ne by done. apply Hs.
  - rewrite lookup_insert_ne by done. apply Hs.
Qed.

Lemma add_one H w f g k : follows H w f g k -> k < tip ->
  exists g', addBlock g (hd (k + 1)) (hash_at (k + 1)) (k + 1) (work_at (k + 1)) = Some g' /\ follows H w f g' (k + 1).
Proof.
  intros [Hs Hh] Hk. pose proof (st_range _ _ Hs) as Hr. pose proof (src_base Hsrc) as [[Hb _] _]. unfold addBlock. fold (tm (k + 1)). fold (block_at (k + 1)).
  unfold updateMainchainHead. cbn [blocksData blocksHeightToBlockHash mainchainHead]. rewrite (src_linked Hsrc) by lia.
  assert (forall h, base <= h <= tip -> hash_at h <> zero32) as Hz by (intros h Hh'; by apply (src_fresh Hsrc)).
  destruct Hh as [Hon|Hoff].
  { rewrite (bool_decide_true (hash_at k = mainchainHead g)) by (symmetry; apply Hon). cbn [orb].
    eexists. split; [done|]. split; [by apply stored_next|]. left. split; [done|]. cbn [blocksHeightToBlockHash]. intros h Hh.
    destruct (decide (h = k + 1)) as [->|]; [by rewrite lookup_insert_eq|]. rewrite lookup_insert_ne by lia. apply Hon. lia. }
  pose proof Hoff as [(bd & Ebd & EH & Ew) Ho Hrg Hm Hfk Hwk Hnx Hep].
  rewrite (bool_decide_false (hash_at k = mainchainHead g)) by (intros E; by apply (Ho k ltac:(lia))).
  rewrite (bool_decide_false (mainchainHead g = zero32)) by (intros E; rewrite E, (st_zero _ _ Hs) in Ebd; done). cbn [orb].
  unfold block_data. cbn [blocksData]. rewrite lookup_insert_eq.
  rewrite lookup_insert_ne by (intros E; by apply (Ho (k + 1) ltac:(lia))). rewrite Ebd. cbn [id default from_option b_work block_at]. rewrite Ew.
  pose proof (stored_next g k (blocksHeightToBlockHash g) (mainchainHead g) Hs Hk) as Hs'.
  destruct (Z.ltb_spec w (work_at (k + 1))) as [Hlt|Hle].
  - replace (k + 1 - 1) with k by lia.
    destruct (relink_source (<[hash_at (k + 1) := block_at (k + 1)]> (blocksData g)) (hash_at (k + 1)) f ltac:(lia) Hz (st_below _ _ Hs')
      (S (S (S (Z.to_nat (k + 1))))) (<[k + 1 := hash_at (k + 1)]> (blocksHeightToBlockHash g)) k) as (m' & E & H1 & H2); [lia|lia| | | |].
    + intros h Hh. apply (st_known _ _ Hs'). lia.
    + intros h Hh. rewrite lookup_insert_ne by lia. apply Hm. lia.
    + intros h Hh. rewrite lookup_insert_ne by lia. apply Hfk. lia.
    + eexists. split; [exact E|]. split; [by apply stored_next|]. left. split; [done|]. cbn [blocksHeightToBlockHash]. intros h Hh.
      destruct (decide (h = k + 1)) as [->|]; [rewrite H2 by lia; by rewrite lookup_insert_eq|apply H1; lia].
  - eexists. split; [done|]. split; [done|]. right.
    assert (k < H) by (destruct (decide (k = H)) as [->|]; [specialize (Hnx Hk)|]; lia).
    split; cbn [blocksData mainchainHead blocksHeightToBlockHash]; try done; [|lia|intros h Hh; apply Hep; lia].
    exists bd. split; [|done]. rewrite lookup_insert_ne; [done|]. intros E. by apply (Ho (k + 1) ltac:(lia)).
Qed.

(** ** A batch *)
Definition blocks_of (first : Z) (n : nat) : list (HeaderData * list Z) :=
  map (fun i => (hd (first + Z.of_nat i), hash_at (first + Z.of_nat i))) (seq 0 n).
Definition segment (first : Z) (n : nat) : list (list Z) := map (fun i => raw (first + Z.of_nat i)) (seq 0 n).

Lemma shift_seq {A} (F : Z -> A) first n s :
  map (fun i => F (first + Z.of_nat i)) (seq (S s) n) = map (fun i => F (first + 1 + Z.of_nat i)) (seq s n).
Proof. revert s. induction n as [|n IH]; intros s; [done|]. cbn [seq map]. rewrite IH. f_equal. f_equal. lia. Qed.
Lemma segment_S first n : segment first (S n) = raw first :: segment (first + 1) n.
Proof. unfold segment. cbn [seq map]. rewrite (shift_seq raw). by rewrite Z.add_0_r. Qed.
Lemma blocks_S first n : blocks_of first (S n) = (hd first, hash_at first) :: blocks_of (first + 1) n.
Proof. unfold blocks_of. cbn [seq map]. rewrite (shift_seq (fun h => (hd h, hash_at h))). by rewrite Z.add_0_r. Qed.
Lemma blocks_headers first n : map fst (blocks_of first n) = headers_of first n.
Proof. unfold blocks_of, headers_of. by rewrite map_map. Qed.

Lemma median_next g first n i : stored g (first - 1 + Z.of_nat i) -> base < first -> (i < n)%nat -> first + Z.of_nat i <= tip ->
  (if (i <? MEDIAN_PAST_BLOCKS)%nat then getStorageMedianTime g (hd (first + Z.of_nat i)) (first + Z.of_nat i)
   else getMemoryMedianTime (headers_of first n) i) = rule_median (first + Z.of_nat i).
Proof.
  intros Hs Hf Hi Ht. destruct (Nat.ltb_spec i MEDIAN_PAST_BLOCKS); [|apply memory_median; lia].
  pose proof (storage_median g _ Hs ltac:(lia)) as E. by replace (first - 1 + Z.of_nat i + 1) with (first + Z.of_nat i) in E by lia.
Qed.

Lemma add_loop_source H w f first n : base < first -> forall m i g, (i + m = n)%nat -> first + Z.of_nat n - 1 <= tip ->
  follows H w f g (first - 1 + Z.of_nat i) ->
  exists g', add_loop g (headers_of first n) first i (tgt (first - 1 + Z.of_nat i)) (blocks_of (first + Z.of_nat i) m) = Some g' /\
    follows H w f g' (first + Z.of_nat n - 1).
Proof.
  intros Hf. induction m as [|m IH]; intros i g Hi Ht Hg.
  { exists g. split; [done|]. replace (first + Z.of_nat n - 1) with (first - 1 + Z.of_nat i) by lia. done. }
  rewrite blocks_S. cbn [add_loop]. pose proof (src_tip Hsrc). rewrite (proj2 (Z.ltb_ge _ _)) by lia.
  set (k := first - 1 + Z.of_nat i) in *. assert (first + Z.of_nat i = k + 1) as Ek by lia.
  rewrite (median_next g first n i) by (apply Hg || lia). rewrite Ek. rewrite (retarget_next H w f g k Hg) by lia. cbn [mbind option_bind].
  pose proof (st_range _ _ (proj1 Hg)) as Hr. assert (base < k + 1 <= tip) as Hk1 by lia.
  assert (validateBlockRules (hd (k + 1)) (hash_at (k + 1)) (tgt (k + 1)) (rule_median (k + 1)) = true) as ->.
  { unfold validateBlockRules. fold (tgt (k + 1)) (tm (k + 1)). rewrite Z.eqb_refl, (proj2 (Z.leb_le _ _)) by by apply (src_pow Hsrc).
    by apply Z.leb_le, (src_median Hsrc). }
  unfold nextCumulativeWork. rewrite (src_linked Hsrc) by lia. rewrite (known_data g k) by (apply Hg || lia). cbn [b_work block_at].
  rewrite <- work_next by lia. rewrite (proj2 (Z.ltb_lt _ _)) by (apply (src_work Hsrc); lia). cbn [mbind option_bind].
  destruct (add_one H w f g k Hg ltac:(lia)) as (g' & -> & Hg'). cbn [mbind option_bind].
  specialize (IH (S i) g' ltac:(lia) Ht). replace (first - 1 + Z.of_nat (S i)) with (k + 1) in IH by lia.
  replace (first + Z.of_nat (S i)) with (k + 1 + 1) in IH by lia. by apply IH.
Qed.

Lemma parse_source g k : stored g k -> forall n first prev, k < first -> first + Z.of_nat n - 1 <= tip ->
  prev = (if first =? k + 1 then None else Some (hash_at (first - 1))) ->
  parseBlockHeadersRaw sha256 g prev (segment first n) = Some (blocks_of first n).
Proof.
  intros Hs. pose proof (st_range _ _ Hs) as Hr. induction n as [|n IH]; intros first prev Hf Ht Hp; [done|].
  rewrite segment_S, blocks_S. cbn [parseBlockHeadersRaw]. rewrite (src_parse Hsrc) by lia. cbn [mbind option_bind].
  rewrite (exists_iff g k) by (done || lia). rewrite (proj2 (Z.leb_gt _ _)) by lia.
  assert (hd_prev (hd first) = hash_at (first - 1)) as Hpr.
  { pose proof (src_linked Hsrc (first - 1)) as E. replace (first - 1 + 1) with first in E by lia. apply E. lia. }
  rewrite Hpr. rewrite IH; [|lia|lia|]; cycle 1.
  { rewrite (proj2 (Z.eqb_neq _ _)) by lia. do 2 f_equal. lia. }
  subst prev. destruct (Z.eqb_spec first (k + 1)) as [E|E].
  - rewrite (exists_iff g k) by (done || lia). by rewrite (proj2 (Z.leb_le _ _)) by lia.
  - by rewrite bool_decide_true by done.
Qed.

(** A batch of the source's next headers is taken, and the contract keeps following. *)
Lemma batch_source H w f g k n : follows H w f g k -> (1 <= n)%nat -> k + Z.of_nat n <= tip ->
  exists g', addBlockHeaderBatch sha256 g (segment (k + 1) n) = Some g' /\ follows H w f g' (k + Z.of_nat n).
Proof.
  intros Hg Hn Ht. pose proof (st_range _ _ (proj1 Hg)) as Hr. unfold addBlockHeaderBatch.
  rewrite (parse_source g k) by ((apply Hg) || lia || by rewrite Z.eqb_refl). cbn [mbind option_bind].
  destruct n as [|n]; [lia|]. rewrite blocks_S. cbn [mbind option_bind]. rewrite <- blocks_S.
  rewrite (src_linked Hsrc) by lia. unfold getBlockHeight, getBlockTarget. rewrite (known_data g k) by (apply Hg || lia).
  cbn [b_height b_bits block_at]. fold (tgt k). rewrite blocks_headers.
  destruct (add_loop_source H w f (k + 1) (S n) ltac:(lia) (S n) 0 g) as (g' & E & Hg'); [lia|lia|by replace (k + 1 - 1 + Z.of_nat 0) with k by lia|].
  replace (k + 1 - 1 + Z.of_nat 0) with k in E by lia. replace (k + 1 + Z.of_nat 0) with (k + 1) in E by lia.
  exists g'. split; [done|]. by replace (k + Z.of_nat (S n)) with (k + 1 + Z.of_nat (S n) - 1) by lia.
Qed.

(** A batch that does not extend a block the contract has is refused. *)
Lemma batch_orphan g k first n : stored g k -> k + 1 < first -> (1 <= n)%nat -> first + Z.of_nat n - 1 <= tip ->
  addBlockHeaderBatch sha256 g (segment first n) = None.
Proof.
  intros Hs Hf Hn Ht. pose proof (st_range _ _ Hs) as Hr. destruct n as [|n]; [lia|]. unfold addBlockHeaderBatch. rewrite segment_S.
  cbn [parseBlockHeadersRaw]. rewrite (src_parse Hsrc) by lia. cbn [mbind option_bind].
  assert (hd_prev (hd first) = hash_at (first - 1)) as ->.
  { pose proof (src_linked Hsrc (first - 1)) as E. replace (first - 1 + 1) with first in E by lia. apply E. lia. }
  rewrite !(exists_iff g k) by (done || lia). rewrite !(proj2 (Z.leb_gt _ _)) by lia. done.
Qed.

(** Where the head is. *)
Lemma follows_height H w f g k : follows H w f g k ->
  (on_source g k /\ getMainchainHeight g = k) \/ (off_source H w f g k /\ getMainchainHeight g = H).
Proof.
  intros [Hs [Hon|Hoff]]; [left|right]; (split; [done|]); unfold getMainchainHeight, getBlockHeight.
  - rewrite (on_head _ _ Hon). pose proof (st_range _ _ Hs). by rewrite (known_data g k) by (done || lia).
  - destruct (off_head _ _ _ _ _ Hoff) as (bd & E & <- & _). unfold block_data. by rewrite E.
Qed.
End Source.
