(* ===== verification/Relayer.v ===== *)
(** * Relayer: Bitcoin headers for the light client

    [quid-ln/quid-bridge/src/relayer.rs]: which headers a round submits, the calldata, fitting
    a batch to the gas budget, the search for the fork point, and recovery from a
    reorganisation.  The light client is the contract that checks every inclusion proof
    ([Spv]), so what matters is that it always catches up.

    A round asks its questions of an environment ([Env]); a question that fails ends the round.
    The contract's answers do not change within a round except through what the round sends.
    Convergence is proved against the contract's own code, [Gateway]; what stays a parameter is
    the gas a batch takes.  The fork is found by height and the head is chosen by work: the
    cases in which the two disagree are the lemmas after the theorem. *)
From Stdlib Require Import String.
From stdpp Require Import gmap strings.
From S2P Require Import Prelude Pool Chain Abi EvmTx Transport Gateway.
Open Scope list_scope.

(** ** One batch *)
Definition relay_range (gateway_height btc_tip batch_max : Z) : option (Z * Z) :=
  if btc_tip <=? gateway_height then None
  else let from := gateway_height + 1 in
       Some (from, Z.min (cast u64 (from + batch_max - 1)) btc_tip).

Definition relay_word (n : Z) : list Z := replicate 24 0 ++ to_be_bytes 8 n.
Fixpoint header_offsets (n : nat) (off : Z) : list Z :=
  match n with
  | O => []
  | S n => relay_word off ++ header_offsets n (off + (32 + 96))
  end.
Definition SIG_ADD_HEADERS : string := "addBlockHeaderBatch(bytes[])".
Definition encode_add_header_batch (keccak256 : list Z -> list Z) (headers : list (list Z)) : list Z :=
  let n := Z.of_nat (length headers) in
  selector4 keccak256 SIG_ADD_HEADERS ++ relay_word 32 ++ relay_word n ++
  header_offsets (length headers) (n * 32) ++ concat (map (fun h => relay_word 80 ++ h ++ replicate 16 0) headers).

Definition relay_gas_budget (cfg : BridgeConfig) : Z := relay_gas_limit cfg / 10 * 9.
Definition relayer_should_defer (cfg : BridgeConfig) (inflight : nat) : bool :=
  (0 <? relayer_defer_inflight cfg)%nat && (relayer_defer_inflight cfg <=? inflight)%nat.

(** ** The fork point

    [None] is a question that failed. *)
Fixpoint fork_loop (fuel : nat) (known : Z -> option bool) (lo hi : Z) (found : option Z) : option (option Z) :=
  match fuel with
  | O => Some found
  | S fuel =>
      if lo <=? hi then
        let mid := lo + (hi - lo) / 2 in
        k ← known mid;
        if k : bool then fork_loop fuel known (mid + 1) hi (Some mid)
        else if mid =? 0 then Some found
        else fork_loop fuel known lo (mid - 1) found
      else Some found
  end.
Definition find_fork_point (floor gateway_height : Z) (source_hash : Z -> option (list Z))
    (gateway_knows : list Z -> option bool) : option (option Z) :=
  fork_loop (Z.to_nat (gateway_height - floor + 1)) (fun h => x ← source_hash h; gateway_knows x) floor gateway_height None.

(** ** A round *)
Record Env := mkEnv {
  e_height : option Z;                                (* read_gateway_height *)
  e_tip : option Z;                                   (* tip_height *)
  e_header : Z -> option (list Z);                    (* header_at *)
  e_hash : Z -> option (list Z);                      (* block_hash_be *)
  e_knows : list Z -> option bool;                    (* read_gateway_block_exists *)
  e_estimate : list (list Z) -> option Z;             (* estimate_gas; [None] is a revert *)
  e_send : nat -> list (list Z) -> option bool        (* send_tx, by how many went before *)
}.

(** [Fit n]: submit the first [n]; a panic is a slice out of range. *)
Inductive Fitted := Fit (n : nat) | FitErr | FitPanic.
Fixpoint fit_loop (fuel : nat) (estimate : list (list Z) -> option Z) (batch : list (list Z)) (budget : Z) (n : nat) : Fitted :=
  match fuel with
  | O => FitErr
  | S fuel =>
      if (length batch <? n)%nat then FitPanic else
      match estimate (take n batch) with
      | None => FitErr
      | Some g =>
          if g <=? budget then Fit n
          else if (n <=? 1)%nat then FitErr
          else fit_loop fuel estimate batch budget (Z.to_nat (clamp (Z.of_nat n * budget / g) 1 (Z.of_nat n - 1)))
      end
  end.
Definition fit_batch (estimate : list (list Z) -> option Z) (batch : list (list Z)) (budget : Z) : Fitted :=
  let n := Nat.max (length batch) 1 in fit_loop n estimate batch budget n.

(** The batches a round hands to the network, with how each send ended, and its end. *)
Inductive RoundEnd := Fine | Failed | Panicked.
Abbreviation Sent := (list (list (list Z) * option bool)).

Fixpoint headers_from (e : Env) (from : Z) (n : nat) : option (list (list Z)) :=
  match n with
  | O => Some []
  | S n => h ← e_header e from; l ← headers_from e (from + 1) n; Some (h :: l)
  end.
(** [(from..=to).map(header_at).collect()] *)
Definition header_range (e : Env) (from to : Z) : option (list (list Z)) := headers_from e from (Z.to_nat (to - from + 1)).

Section Round.
Variable cfg : BridgeConfig.
Variable e : Env.

Definition recover_reorg (sent : Sent) (gateway_height tip : Z) : Sent * RoundEnd :=
  let floor := sat u64 (gateway_height - relay_reorg_lookback cfg) in
  match find_fork_point floor (Z.min gateway_height tip) (e_hash e) (e_knows e) with
  | None => (sent, Failed)
  | Some None => (sent, Fine)
  | Some (Some fork) =>
      let from := fork + 1 in
      let to := Z.min (cast u64 (from + relay_batch_max cfg - 1)) tip in
      match header_range e from to with
      | None => (sent, Failed)
      | Some batch =>
          match fit_batch (e_estimate e) batch (relay_gas_budget cfg) with
          | FitPanic => (sent, Panicked)
          | FitErr => (sent, Fine)
          | Fit n =>
              let ok := e_send e (length sent) (take n batch) in
              (sent ++ [(take n batch, ok)], match ok with None => Failed | Some _ => Fine end)
          end
      end
  end.

Definition relay_once : Sent * RoundEnd :=
  match e_height e, e_tip e with
  | Some gh, Some tip =>
      match relay_range gh tip (relay_batch_max cfg) with
      | None =>
          let probe := Z.min gh tip in
          if 0 <? probe then
            match (x ← e_hash e probe; e_knows e x) with
            | None => ([], Failed)
            | Some true => ([], Fine)
            | Some false => recover_reorg [] gh tip
            end
          else ([], Fine)
      | Some (from, to) =>
          match header_range e from to with
          | None => ([], Failed)
          | Some batch =>
              match fit_batch (e_estimate e) batch (relay_gas_budget cfg) with
              | FitPanic => ([], Panicked)
              | FitErr => recover_reorg [] gh tip
              | Fit n =>
                  let ok := e_send e 0 (take n batch) in
                  match ok with
                  | None => ([(take n batch, ok)], Failed)
                  | Some true => ([(take n batch, ok)], Fine)
                  | Some false => recover_reorg [(take n batch, ok)] gh tip
                  end
              end
          end
      end
  | _, _ => ([], Failed)
  end.
End Round.

(** * Properties *)

(** ** Calldata *)
Lemma header_offsets_eq hs off : Forall (fun h => length h = 80%nat) hs ->
  header_offsets (length hs) (Z.of_nat off) = offsets off (map encode_bytes hs).
Proof.
  intros Hf. revert off. induction Hf as [|h hs Hh _ IH]; intros off; [done|].
  cbn [length header_offsets map offsets]. f_equal.
  assert (length (encode_bytes h) = 128%nat) as ->.
  { unfold encode_bytes. rewrite !length_app, word_length, length_replicate, Hh. done. }
  rewrite <- IH. f_equal. lia.
Qed.
Lemma header_body h : length h = 80%nat -> relay_word 80 ++ h ++ replicate 16 0 = encode_bytes h.
Proof. intros Hh. unfold encode_bytes, word_u64. by rewrite Hh. Qed.

(** The calldata written by hand is the ABI encoding of the batch. *)
Lemma header_batch_encodes keccak256 hs : Forall (fun h => length h = 80%nat) hs ->
  encode_add_header_batch keccak256 hs = encode_call keccak256 SIG_ADD_HEADERS [BytesArray hs].
Proof.
  intros Hf. unfold encode_add_header_batch, encode_call, selector4. f_equal.
  unfold encode_tuple, with_tails. cbn [map tuple_loop is_dynamic heads_len sum_list head_len app length Abi.tail Nat.add].
  rewrite encode_array_eq, length_map. change (word_u64 (32 + 0)) with (relay_word 32). f_equal.
  unfold word_u64. fold (relay_word (Z.of_nat (length hs))). f_equal.
  replace (Z.of_nat (length hs) * 32) with (Z.of_nat (length hs * 32)) by lia. rewrite header_offsets_eq by done. f_equal.
  f_equal. apply map_ext_in. intros h Hin. apply header_body. rewrite Forall_forall in Hf. by apply Hf, list_elem_of_In.
Qed.

(** ** The search *)

(** On a predicate that holds exactly up to [k], the search returns the largest height of the
    interval not above [k]. *)
Lemma fork_loop_monotone fuel known lo hi k found : 0 <= lo -> (Z.to_nat (hi - lo + 1) <= fuel)%nat ->
  (forall h, lo <= h <= hi -> known h = Some (h <=? k)) ->
  fork_loop fuel known lo hi found = Some (if lo <=? Z.min k hi then Some (Z.min k hi) else found).
Proof.
  revert lo hi found. induction fuel as [|fuel IH]; intros lo hi found Hlo Hf Hk; cbn [fork_loop].
  { destruct (Z.leb_spec lo (Z.min k hi)); [lia|done]. }
  destruct (Z.leb_spec lo hi) as [Hl|Hl]; [|destruct (Z.leb_spec lo (Z.min k hi)); [lia|done]].
  assert (0 <= (hi - lo) / 2 <= hi - lo) by (split; [apply Z.div_pos; lia|apply Z.div_le_upper_bound; lia]).
  rewrite Hk by lia. cbn [mbind option_bind]. destruct (Z.leb_spec (lo + (hi - lo) / 2) k) as [Hm|Hm].
  - rewrite IH; [|lia..|intros h Hh; apply Hk; lia].
    destruct (Z.leb_spec (lo + (hi - lo) / 2 + 1) (Z.min k hi)), (Z.leb_spec lo (Z.min k hi)); try lia; [done|].
    f_equal. f_equal. lia.
  - destruct (Z.eqb_spec (lo + (hi - lo) / 2) 0).
    + destruct (Z.leb_spec lo (Z.min k hi)); [lia|done].
    + rewrite IH; [|lia..|intros h Hh; apply Hk; lia].
      replace (Z.min k (lo + (hi - lo) / 2 - 1)) with (Z.min k hi) by lia. done.
Qed.
(** When nothing at or below the first probe is known, nothing is found. *)
Lemma fork_loop_none fuel known lo hi found : 0 <= lo ->
  (forall h, lo <= h <= lo + (hi - lo) / 2 -> known h = Some false) -> fork_loop fuel known lo hi found = Some found.
Proof.
  revert hi. induction fuel as [|fuel IH]; intros hi Hlo Hk; cbn [fork_loop]; [done|].
  destruct (Z.leb_spec lo hi) as [Hl|Hl]; [|done].
  assert (0 <= (hi - lo) / 2 <= hi - lo) by (split; [apply Z.div_pos; lia|apply Z.div_le_upper_bound; lia]).
  rewrite Hk by lia. cbn [mbind option_bind]. destruct (lo + (hi - lo) / 2 =? 0); [done|]. apply IH; [done|].
  intros h Hh. apply Hk. split; [lia|].
  assert ((lo + (hi - lo) / 2 - 1 - lo) / 2 <= (hi - lo) / 2) by (apply Z.div_le_mono; lia). lia.
Qed.

(** ** Fitting *)
Lemma fit_loop_sound fuel estimate batch budget n : (1 <= n)%nat -> 
  match fit_loop fuel estimate batch budget n with
  | Fit m => (1 <= m <= n)%nat /\ (m <= length batch)%nat /\ exists g, estimate (take m batch) = Some g /\ g <= budget
  | FitErr => True
  | FitPanic => (length batch < n)%nat
  end.
Proof.
  revert n. induction fuel as [|fuel IH]; intros n Hn; cbn [fit_loop]; [done|].
  destruct (Nat.ltb_spec (length batch) n) as [|Hl]; [done|].
  destruct (estimate (take n batch)) as [g|] eqn:E; [|done]. destruct (Z.leb_spec g budget); [eauto with lia|].
  destruct (Nat.leb_spec n 1); [done|].
  set (m := Z.to_nat _). assert (1 <= m < n)%nat as Hm
    by (subst m; unfold clamp; destruct (Z.ltb_spec (Z.of_nat n * budget / g) 1), (Z.ltb_spec (Z.of_nat n - 1) (Z.of_nat n * budget / g)); lia).
  specialize (IH m ltac:(lia)). destruct (fit_loop fuel estimate batch budget m); [|done|lia].
  destruct IH as (A & B & C). split_and!; [lia..|done].
Qed.
Lemma fit_loop_total fuel estimate batch budget n : (1 <= n <= fuel)%nat -> (n <= length batch)%nat ->
  (forall m, (1 <= m <= n)%nat -> estimate (take m batch) <> None) ->
  (forall g, estimate (take 1 batch) = Some g -> g <= budget) ->
  exists m, fit_loop fuel estimate batch budget n = Fit m.
Proof.
  revert n. induction fuel as [|fuel IH]; intros n Hn Hl He H1; [lia|]. cbn [fit_loop].
  rewrite (proj2 (Nat.ltb_ge _ _)) by done.
  destruct (estimate (take n batch)) as [g|] eqn:E; [|by destruct (He n ltac:(lia))].
  destruct (Z.leb_spec g budget) as [|Hg]; [by eexists|]. destruct (Nat.leb_spec n 1) as [Hn1|Hn1].
  { assert (n = 1%nat) as -> by lia. apply H1 in E. lia. }
  apply IH; [| |intros m Hm; apply He|done];
    unfold clamp in *; destruct (Z.ltb_spec (Z.of_nat n * budget / g) 1), (Z.ltb_spec (Z.of_nat n - 1) (Z.of_nat n * budget / g)); lia.
Qed.
Lemma fit_batch_total estimate batch budget : batch <> [] ->
  (forall m, (1 <= m <= length batch)%nat -> estimate (take m batch) <> None) ->
  (forall g, estimate (take 1 batch) = Some g -> g <= budget) ->
  exists m, fit_batch estimate batch budget = Fit m /\ (1 <= m <= length batch)%nat.
Proof.
  intros Hb He H1. unfold fit_batch. assert (Nat.max (length batch) 1 = length batch) as -> by (destruct batch; [done|cbn; lia]).
  assert (1 <= length batch)%nat by (destruct batch; [done|cbn; lia]).
  destruct (fit_loop_total (length batch) estimate batch budget (length batch)) as [m E]; [lia..|done|done|].
  exists m. split; [done|]. pose proof (fit_loop_sound (length batch) estimate batch budget (length batch) ltac:(lia)) as Hs.
  rewrite E in Hs. lia.
Qed.

(** ** Rounds against the light client

    [Gateway] is the contract and a source chain that obeys its rules; what is left to the
    environment is the gas a batch takes. *)
Section Convergence.
Variable sha256 : list Z -> list Z.
Variable cfg : BridgeConfig.
Variable gas : Gw -> list (list Z) -> Z.
(** The best chain of the source, from the block the contract was started at. *)
Context (base tip w0 : Z) (raw : Z -> list Z) (hd : Z -> HeaderData) (hash_at : Z -> list Z).
Context (Hsrc : SourceOk sha256 base tip w0 raw hd hash_at).
Hypothesis batch_pos : 1 <= relay_batch_max cfg.
Hypothesis lookback_pos : 0 <= relay_reorg_lookback cfg.
Hypothesis no_wrap : tip + relay_batch_max cfg <= imax u64.
Hypothesis one_fits : forall g h, gas g [h] <= relay_gas_budget cfg.

Notation stored := (stored base tip w0 hd hash_at).
Notation on_source := (on_source base hash_at).
Notation off_source := (off_source base tip w0 hd hash_at).
Notation follows := (follows base tip w0 hd hash_at).
Notation work_at := (work_at base w0 hd).
Notation segment := (segment raw).

(** A round against the contract, with nothing failing, and the contract after it. *)
Definition env_of (g : Gw) : Env :=
  mkEnv (Some (getMainchainHeight g)) (Some tip)
    (fun h => if h <=? tip then Some (raw h) else None) (fun h => if h <=? tip then Some (hash_at h) else None)
    (fun x => Some (blockExists g x))
    (fun hs => match addBlockHeaderBatch sha256 g hs with Some _ => Some (gas g hs) | None => None end)
    (fun _ hs => Some (match addBlockHeaderBatch sha256 g hs with Some _ => true | None => false end)).
Definition apply_batch (g : Gw) (b : list (list Z) * option bool) : Gw := default g (addBlockHeaderBatch sha256 g b.1).
Definition round (g : Gw) : Gw := foldl apply_batch g (relay_once cfg (env_of g)).1.

(** The contract has the source's chain up to [k]; if its head is on another branch, at height
    [H], the lookback from there reaches [k] and nothing below the contract's first block. *)
Definition recoverable (H w f : Z) (g : Gw) (k : Z) : Prop :=
  stored g k /\
  (on_source g k \/ off_source H w f g k /\ base <= H - relay_reorg_lookback cfg <= k /\ H <= imax u64).
Lemma recoverable_follows H w f g k : recoverable H w f g k -> follows H w f g k.
Proof. intros [Hs [Hon|[Hoff _]]]; split; tauto. Qed.

Lemma segment_take from n m : (m <= n)%nat -> take m (segment from n) = segment from m.
Proof.
  revert from m. induction n as [|n IH]; intros from [|m] Hm; try done; [lia|].
  rewrite !segment_S. cbn [take]. f_equal. apply IH. lia.
Qed.
Lemma segment_length from n : length (segment from n) = n.
Proof. unfold Gateway.segment. by rewrite length_map, length_seq. Qed.
Lemma headers_from_segment g from n : from + Z.of_nat n - 1 <= tip -> headers_from (env_of g) from n = Some (segment from n).
Proof.
  revert from. induction n as [|n IH]; intros from Hn; [done|]. cbn [headers_from env_of e_header].
  rewrite (proj2 (Z.leb_le _ _)) by lia. cbn [mbind option_bind]. fold (env_of g). rewrite IH by lia. by rewrite segment_S.
Qed.

Lemma fit_segment H w f g k n : follows H w f g k -> (1 <= n)%nat -> k + Z.of_nat n <= tip ->
  exists m, fit_batch (e_estimate (env_of g)) (segment (k + 1) n) (relay_gas_budget cfg) = Fit m /\ (1 <= m <= n)%nat.
Proof.
  intros Hk Hn Ht. assert (forall m, (1 <= m <= n)%nat -> e_estimate (env_of g) (take m (segment (k + 1) n)) = Some (gas g (segment (k + 1) m))) as He.
  { intros m Hm. rewrite segment_take by lia. cbn [env_of e_estimate].
    destruct (batch_source sha256 base tip w0 raw hd hash_at Hsrc H w f g k m Hk ltac:(lia) ltac:(lia)) as (g' & -> & _). done. }
  destruct (fit_batch_total (e_estimate (env_of g)) (segment (k + 1) n) (relay_gas_budget cfg)) as (m & E & Hm).
  - destruct n; [lia|]. by rewrite segment_S.
  - rewrite segment_length. intros m Hm. by rewrite He.
  - intros x. rewrite He by lia. intros [= <-]. rewrite segment_S. apply one_fits.
  - rewrite segment_length in Hm. eauto.
Qed.

(** What a round comes to: one batch that is taken, of at least one header. *)
Definition advances (k : Z) (r : Sent * RoundEnd) : Prop :=
  exists n, (1 <= n)%nat /\ k + Z.of_nat n <= tip /\ r = ([(segment (k + 1) n, Some true)], Fine).

(** Gathering, fitting and sending the headers above [k]. *)
Lemma gather H w f g k : follows H w f g k -> k < tip ->
  let to := Z.min (cast u64 (k + 1 + relay_batch_max cfg - 1)) tip in
  exists n m, header_range (env_of g) (k + 1) to = Some (segment (k + 1) n) /\
    fit_batch (e_estimate (env_of g)) (segment (k + 1) n) (relay_gas_budget cfg) = Fit m /\
    (1 <= m <= n)%nat /\ k + Z.of_nat m <= tip /\
    forall i, e_send (env_of g) i (take m (segment (k + 1) n)) = Some true.
Proof.
  intros Hk Ht to. pose proof (st_range _ _ _ _ _ _ _ (proj1 Hk)) as Hb. pose proof (src_base _ _ _ _ _ _ _ Hsrc) as [[Hb0 _] _].
  assert (to = Z.min (k + relay_batch_max cfg) tip) as Hto
    by (subst to; rewrite cast_id by (unfold in_range; cbn [imin imax u64] in *; lia); lia).
  clearbody to.
  exists (Z.to_nat (to - (k + 1) + 1)). destruct (fit_segment H w f g k (Z.to_nat (to - (k + 1) + 1)) Hk) as (m & Ef & Hm); [lia|lia|].
  exists m. split_and!; try lia; try done.
  - unfold header_range. apply headers_from_segment. lia.
  - intros i. rewrite segment_take by lia. cbn [env_of e_send].
    destruct (batch_source sha256 base tip w0 raw hd hash_at Hsrc H w f g k m Hk ltac:(lia) ltac:(lia)) as (g' & -> & _). done.
Qed.

(** The search over heights the contract was started at or above finds the last one it has. *)
Lemma search_source g k floor top : stored g k -> base <= floor -> top <= tip ->
  find_fork_point floor top (e_hash (env_of g)) (e_knows (env_of g)) =
    Some (if floor <=? Z.min k top then Some (Z.min k top) else None).
Proof.
  intros Hs Hf Ht. pose proof (src_base _ _ _ _ _ _ _ Hsrc) as [[Hb0 _] _]. unfold find_fork_point.
  rewrite (fork_loop_monotone _ _ _ _ k); [done|lia|lia|]. intros h Hh. cbn [env_of e_hash e_knows].
  rewrite (proj2 (Z.leb_le h tip)) by lia. cbn [mbind option_bind].
  by rewrite (exists_iff sha256 base tip w0 raw hd hash_at Hsrc g k) by (done || lia).
Qed.

Lemma recover_advances H w f g k : recoverable H w f g k -> getMainchainHeight g = H -> k < Z.min H tip ->
  ~ on_source g k -> advances k (recover_reorg cfg (env_of g) [] H tip).
Proof.
  intros Hr HH Hlt Hno. pose proof (recoverable_follows _ _ _ _ _ Hr) as Hk.
  destruct Hr as [Hs [|[Hoff [Hf Hu]]]]; [done|]. pose proof (src_base _ _ _ _ _ _ _ Hsrc) as [[Hb0 _] _]. unfold recover_reorg.
  replace (sat u64 (H - relay_reorg_lookback cfg)) with (H - relay_reorg_lookback cfg)
    by (rewrite sat_id; [done|]; unfold in_range; cbn [imin imax u64] in *; lia).
  rewrite (search_source g k) by (done || lia). rewrite (proj2 (Z.leb_le _ _)) by lia. replace (Z.min k (Z.min H tip)) with k by lia.
  destruct (gather H w f g k Hk ltac:(lia)) as (n & m & E1 & E2 & Hm & Hmt & E3). rewrite E1, E2, E3.
  exists m. split_and!; [lia..|]. by rewrite segment_take by lia.
Qed.

(** When the contract lacks a block at or below both heads, the round turns to recovery: the
    probe at the source's tip is unknown, or the next header extends a block of another
    branch. *)
Lemma round_recovers H g k : stored g k -> getMainchainHeight g = H -> k < Z.min H tip ->
  relay_once cfg (env_of g) = recover_reorg cfg (env_of g) [] H tip.
Proof.
  intros Hs HH Hlt. pose proof (st_range _ _ _ _ _ _ _ Hs) as Hb. pose proof (src_base _ _ _ _ _ _ _ Hsrc) as [[Hb0 _] _].
  unfold relay_once. cbn [env_of e_height e_tip]. fold (env_of g). rewrite HH. unfold relay_range.
  destruct (Z.leb_spec tip H) as [Hle|Hgt].
  - replace (Z.min H tip) with tip by lia. rewrite (proj2 (Z.ltb_lt 0 tip)) by lia.
    cbn [env_of e_hash e_knows]. fold (env_of g). rewrite Z.leb_refl. cbn [mbind option_bind].
    rewrite (exists_iff sha256 base tip w0 raw hd hash_at Hsrc g k) by (done || lia). by rewrite (proj2 (Z.leb_gt _ _)) by lia.
  - set (to := Z.min _ tip). assert (H + 1 <= to) as Hto
      by (subst to; rewrite cast_id by (unfold in_range; cbn [imin imax u64] in *; lia); lia).
    assert (to <= tip) by (subst to; lia). clearbody to.
    unfold header_range. rewrite headers_from_segment by lia.
    destruct (Z.to_nat (to - (H + 1) + 1)) as [|n] eqn:En; [lia|].
    assert (fit_batch (e_estimate (env_of g)) (segment (H + 1) (S n)) (relay_gas_budget cfg) = FitErr) as ->; [|done].
    unfold fit_batch. rewrite segment_length. cbn [Nat.max]. rewrite Nat.max_0_r. cbn [fit_loop]. rewrite segment_length, Nat.ltb_irrefl.
    rewrite segment_take by lia. cbn [env_of e_estimate].
    by rewrite (batch_orphan sha256 base tip w0 raw hd hash_at Hsrc g k) by (done || lia).
Qed.

Lemma round_advances H w f g k : recoverable H w f g k -> k < tip -> advances k (relay_once cfg (env_of g)).
Proof.
  intros Hr Hlt. pose proof (recoverable_follows _ _ _ _ _ Hr) as Hk. pose proof (st_range _ _ _ _ _ _ _ (proj1 Hk)) as Hb.
  assert (getMainchainHeight g = k -> advances k (relay_once cfg (env_of g))) as Hdirect.
  { intros E. unfold relay_once. cbn [env_of e_height e_tip]. fold (env_of g). unfold relay_range.
    rewrite (proj2 (Z.leb_gt _ _)) by lia. rewrite E.
    destruct (gather H w f g k Hk Hlt) as (n & m & E1 & E2 & Hm' & Hmt & E3). rewrite E1, E2, E3.
    exists m. split_and!; [lia..|]. by rewrite segment_take by lia. }
  destruct (follows_height base tip w0 hd hash_at H w f g k Hk) as [[_ E]|[Hoff E]]; [by apply Hdirect|].
  pose proof (off_range _ _ _ _ _ _ _ _ _ _ Hoff) as [_ HkH].
  destruct (decide (k = H)) as [->|Hne]; [by apply Hdirect|].
  rewrite (round_recovers H g k) by ((apply Hk) || done || lia). apply (recover_advances H w f); [done|done|lia|].
  intros Hon. by apply (off_other _ _ _ _ _ _ _ _ _ _ Hoff k ltac:(lia)), (on_head _ _ _ _ Hon).
Qed.

Lemma round_progress H w f g k : recoverable H w f g k -> k < tip ->
  exists k', k < k' <= tip /\ recoverable H w f (round g) k'.
Proof.
  intros Hr Hlt. destruct (round_advances H w f g k Hr Hlt) as (n & Hn & Hnt & E).
  assert (exists g', addBlockHeaderBatch sha256 g (segment (k + 1) n) = Some g' /\ recoverable H w f g' (k + Z.of_nat n)) as (g' & Ea & Hr').
  { destruct Hr as [Hs [Hon|(Hoff & Hf & Hu)]].
    - destruct (batch_source sha256 base tip w0 raw hd hash_at Hsrc (base - 1) w f g k n) as (g' & Ea & Hs' & [Hon'|Hoff']);
        [by split; [|left]|done|done|exists g'; split; [done|]; split; [done|by left]|].
      pose proof (off_range _ _ _ _ _ _ _ _ _ _ Hoff'). lia.
    - destruct (batch_source sha256 base tip w0 raw hd hash_at Hsrc H w f g k n) as (g' & Ea & Hs' & Hg'); [by split; [|right]|done|done|].
      exists g'. split; [done|]. split; [done|]. destruct Hg' as [|Hoff']; [by left|right]. split; [done|]. lia. }
  exists (k + Z.of_nat n). split; [lia|].
  unfold round. rewrite E. cbn [fst foldl]. unfold apply_batch. cbn [fst]. by rewrite Ea.
Qed.
Lemma round_done H w f g : recoverable H w f g tip -> round g = g.
Proof.
  intros Hr. pose proof (recoverable_follows _ _ _ _ _ Hr) as Hk. pose proof (st_range _ _ _ _ _ _ _ (proj1 Hk)) as Hb.
  assert (tip <= getMainchainHeight g) as Hh.
  { destruct (follows_height base tip w0 hd hash_at H w f g tip Hk) as [[_ ->]|[Hoff ->]]; [lia|].
    pose proof (off_range _ _ _ _ _ _ _ _ _ _ Hoff). lia. }
  unfold round, relay_once. cbn [env_of e_height e_tip]. unfold relay_range. rewrite (proj2 (Z.leb_le _ _)) by lia.
  replace (Z.min (getMainchainHeight g) tip) with tip by lia. destruct (0 <? tip); [|done].
  cbn [env_of e_hash e_knows]. rewrite Z.leb_refl. cbn [mbind option_bind].
  rewrite (exists_iff sha256 base tip w0 raw hd hash_at Hsrc g tip) by ((apply Hk) || lia). by rewrite Z.leb_refl.
Qed.


(** While the lookback still reaches below the block the contract was started at, the search
    may begin on blocks the contract never had, and then it finds nothing: a contract on
    another branch stays there, round after round. *)
Lemma rounds_still g n : round g = g -> Nat.iter n round g = g.
Proof. intros E. induction n as [|n IH]; [done|]. change (Nat.iter (S n) round g) with (round (Nat.iter n round g)). by rewrite IH. Qed.
Lemma young_gateway_stuck g k n : stored g k -> k < Z.min (getMainchainHeight g) tip ->
  (forall h, h < base -> blockExists g (hash_at h) = false) ->
  let floor := sat u64 (getMainchainHeight g - relay_reorg_lookback cfg) in
  floor + (Z.min (getMainchainHeight g) tip - floor) / 2 < base ->
  Nat.iter n round g = g.
Proof.
  intros Hk Hlt Hnone floor Hmid. apply rounds_still.
  unfold round. rewrite (round_recovers _ g k) by done. unfold recover_reorg. fold floor. unfold find_fork_point.
  assert (0 <= floor) by (subst floor; unfold sat; cbn [imin imax u64]; lia). pose proof (st_range _ _ _ _ _ _ _ Hk) as Hb.
  rewrite fork_loop_none; [done|done|]. intros h Hh.
  cbn [env_of e_hash e_knows]. rewrite (proj2 (Z.leb_le h tip)) by lia. cbn [mbind option_bind]. by rewrite Hnone by lia.
Qed.

(** Nor does a round do anything once the contract has blocks of the source above a head that
    is lower but heavier: the headers it offers start one above the head, where the contract
    has them already. *)
Lemma known_refused g k first n : stored g k -> base <= first <= k -> addBlockHeaderBatch sha256 g (segment first (S n)) = None.
Proof.
  intros Hs Hf. pose proof (st_range _ _ _ _ _ _ _ Hs) as Hb. unfold addBlockHeaderBatch. rewrite segment_S. cbn [parseBlockHeadersRaw].
  rewrite (src_parse _ _ _ _ _ _ _ Hsrc) by lia. cbn [mbind option_bind].
  rewrite (exists_iff sha256 base tip w0 raw hd hash_at Hsrc g k) by (done || lia). by rewrite (proj2 (Z.leb_le _ _)) by lia.
Qed.
Lemma heavier_branch_stuck H g k n : stored g k -> getMainchainHeight g = H -> base <= H < k ->
  base <= H - relay_reorg_lookback cfg -> Nat.iter n round g = g.
Proof.
  intros Hs HH Hk Hl. apply rounds_still. pose proof (st_range _ _ _ _ _ _ _ Hs) as Hb. pose proof (src_base _ _ _ _ _ _ _ Hsrc) as [[Hb0 _] _].
  assert (forall m, fit_batch (e_estimate (env_of g)) (segment (H + 1) (S m)) (relay_gas_budget cfg) = FitErr) as Hfit.
  { intros m. unfold fit_batch. rewrite segment_length. cbn [Nat.max]. rewrite Nat.max_0_r. cbn [fit_loop]. rewrite segment_length, Nat.ltb_irrefl.
    rewrite segment_take by lia. cbn [env_of e_estimate]. by rewrite (known_refused g k) by (done || lia). }
  unfold round, relay_once, recover_reorg. cbn [env_of e_height e_tip]. fold (env_of g). rewrite HH. unfold relay_range.
  rewrite (proj2 (Z.leb_gt _ _)) by lia.
  replace (sat u64 (H - relay_reorg_lookback cfg)) with (H - relay_reorg_lookback cfg)
    by (rewrite sat_id; [done|]; unfold in_range; cbn [imin imax u64] in *; lia).
  rewrite (search_source g k) by (done || lia). rewrite (proj2 (Z.leb_le _ _)) by lia. replace (Z.min k (Z.min H tip)) with H by lia.
  set (to := Z.min _ tip). assert (H + 1 <= to <= tip) as Hto
    by (subst to; rewrite cast_id by (unfold in_range; cbn [imin imax u64] in *; lia); lia). clearbody to.
  unfold header_range. rewrite headers_from_segment by lia. destruct (Z.to_nat (to - (H + 1) + 1)) as [|m] eqn:Em; [lia|]. by rewrite Hfit.
Qed.
End Convergence.

(** ** Gas

    Whatever the environment answers, no batch is sent whose estimate exceeds the budget. *)
Lemma fit_batch_budget estimate batch budget n : fit_batch estimate batch budget = Fit n ->
  exists g, estimate (take n batch) = Some g /\ g <= budget.
Proof.
  intros E. pose proof (fit_loop_sound (Nat.max (length batch) 1) estimate batch budget (Nat.max (length batch) 1) ltac:(lia)) as H.
  unfold fit_batch in E. rewrite E in H. tauto.
Qed.
Definition affordable (cfg : BridgeConfig) (e : Env) (s : Sent) : Prop :=
  Forall (fun b => exists g, e_estimate e b.1 = Some g /\ g <= relay_gas_budget cfg) s.
Lemma recover_affordable cfg e s gh tip : affordable cfg e s -> affordable cfg e (recover_reorg cfg e s gh tip).1.
Proof.
  intros Hs. unfold recover_reorg. repeat (case_match; try done); cbn [fst]; (apply Forall_app_2; [done|]);
    (constructor; [|done]); eapply fit_batch_budget; eauto.
Qed.
Lemma relay_affordable cfg e : affordable cfg e (relay_once cfg e).1.
Proof.
  unfold relay_once. repeat (case_match; try (by constructor)); try (apply recover_affordable); repeat constructor;
    cbn [fst]; eapply fit_batch_budget; eauto.
Qed.

(** ** Samples *)
Module RelayerSample.
(** A header of 80 bytes: version, the predecessor's hash, the Merkle root, time, bits and
    nonce.  The digest of a header is its nonce. *)
Definition block_id (n : Z) : list Z := to_be_bytes 32 n.
Definition header (prev time nonce : Z) : list Z :=
  rev (to_be_bytes 4 2) ++ rev (block_id prev) ++ replicate 32 7 ++
  rev (to_be_bytes 4 time) ++ rev (to_be_bytes 4 486604799) ++ rev (to_be_bytes 4 nonce).
Definition sha256 (x : list Z) : list Z := if (length x =? 80)%nat then drop 76 x ++ replicate 28 0 else x.
Definition raw (h : Z) : list Z := header h (600 * (h + 1)) (h + 1).
Definition hd (h : Z) : HeaderData := default (mkHeader [] [] 0 0 0 0) (fst <$> parseBlockHeader sha256 (raw h)).
Definition hash_at (h : Z) : list Z := block_id (h + 1).
Definition cfg : BridgeConfig :=
  mkConfig "http://a" [] 1 1 (replicate 20 1) 6 40 3 0 1000000000 1000000 300000
    3 1 3 125 2 10000 5 (replicate 20 2) (replicate 20 3) 2 500000 5 3 300 20.
Definition gas (_ : Gw) (hs : list (list Z)) : Z := 50000 + 200000 * Z.of_nat (length hs).
(** Started at block 0, it was given blocks 1 to 3 of the source, then two of another branch:
    the head is at 5. *)
Definition gateway : Gw :=
  default (mkGw ∅ ∅ zero32)
    (g ← init sha256 (raw 0) 0 1000;
     g ← addBlockHeaderBatch sha256 g [raw 1; raw 2; raw 3];
     addBlockHeaderBatch sha256 g [header 4 3000 104; header 104 3600 105]).
Definition head_work : Z := b_work (block_data gateway (mainchainHead gateway)).

(** A claim on every height of the source, by evaluation. *)
Ltac each := intros h Hh; let Hin := fresh in
  assert (h ∈ [0; 1; 2; 3; 4; 5; 6]) as Hin by (rewrite !elem_of_cons; lia); revert Hh;
  repeat (apply elem_of_cons in Hin as [->|Hin]; [intros Hh; first [exfalso; lia|(apply (bool_decide_unpack _); vm_compute; exact I)|by vm_compute|by (split; vm_compute)]|]); exfalso; exact (not_elem_of_nil _ Hin).

Lemma block_id_inj m n : 0 <= m <= 7 -> 0 <= n <= 7 -> block_id m = block_id n -> m = n.
Proof.
  intros Hm Hn E. apply (f_equal from_be_bytes) in E. unfold block_id in E.
  assert (7 < 256 ^ Z.of_nat 32) by (by vm_compute). by rewrite !be_decode_encode in E by lia.
Qed.
Lemma source_ok : SourceOk sha256 0 6 1000 raw hd hash_at.
Proof.
  split.
  - by vm_compute.
  - done.
  - each.
  - each.
  - intros h h' Hh Hh' E. unfold hash_at in E. assert (h + 1 = h' + 1) by (apply block_id_inj; [lia|lia|exact E]). lia.
  - each.
  - each.
  - each.
  - each.
  - each.
  - each.
Qed.
Lemma gateway_recoverable : recoverable cfg 0 6 1000 hd hash_at 5 head_work 3 gateway 3.
Proof.
  split; [|right; split; [|by vm_compute]].
  - split; [by vm_compute|each|each|by vm_compute|by vm_compute].
  - split.
    + eexists. split; [by vm_compute|]. split; by vm_compute.
    + each.
    + lia.
    + each.
    + each.
    + by vm_compute.
    + by vm_compute.
    + each.
Qed.
End RelayerSample.

