(* ===== verification/Store.v ===== *)
(** * Store: the durable state of the bridge

    [quid-ln/quid-bridge/src/store.rs] and the envelope of [quid-crypto/src/aes.rs]: the maps
    the bridge must not forget, the file they are kept in, and the two ways of writing it — a
    critical write whose failure stops the process, and a best-effort one.

    The authenticated cipher, JSON and the textual forms of addresses, keys and numbers are
    classes with the round trips relied on.  A write of the file is atomic: the temporary file
    and the rename either replace the content or leave it; the process may stop before the
    rename or after it, and the directory entry may or may not be flushed.  The lock around the maps has no
    other holder here: an operation is one step. *)
From Stdlib Require Import String.
From stdpp Require Import gmap strings pretty sorting.
From S2P Require Import Prelude Pool Chain Abi EvmTx Transport Client.
Open Scope list_scope.

(** ** Locktimes *)
Inductive LockTime := Blocks (height : Z) | Seconds (time : Z).
#[export] Instance LockTime_eq_dec : EqDecision LockTime.
Proof. solve_decision. Defined.
Definition LOCK_TIME_THRESHOLD : Z := 500000000.
Definition from_consensus (n : Z) : LockTime := if n <? LOCK_TIME_THRESHOLD then Blocks n else Seconds n.
Definition to_consensus_u32 (l : LockTime) : Z := match l with Blocks h => h | Seconds t => t end.
Definition wf_locktime (l : LockTime) : Prop :=
  match l with Blocks h => 0 <= h < LOCK_TIME_THRESHOLD | Seconds t => LOCK_TIME_THRESHOLD <= t <= imax u32 end.

(** ** What is kept *)

(** A swap-in over Lightning, received and not yet settled. *)
Record ClaimedSwapIn := mkClaimed {
  c_seller : list Z; c_sats : Z; c_token : list Z; c_payment_hash : list Z;
  c_min_delivered_usd : Z; c_preimage : list Z; c_claim_deadline : option Z }.
(** A registered on-chain swap-in.  An address is its script. *)
Record OnchainSwapIn := mkSwapIn {
  swap_id : list Z; swap_index : Z; s_seller : list Z; s_token : list Z; price_per_btc : Z;
  slippage_bps : Z; user_refund : list Z; cltv : LockTime; deposit_spk : list Z }.

Record SwapInRec := mkSwapInRec {
  r_seller : string; r_sats : Z; r_token : string; r_payment_hash : string;
  r_min_delivered_usd : string; r_preimage : string; r_claim_deadline : option Z }.
Record OnchainSwapInRec := mkOnchainRec {
  o_swap_id : string; o_swap_index : Z; o_seller : string; o_token : string; o_price_per_btc : string;
  o_slippage_bps : Z; o_user_refund : string; o_cltv_height : Z; o_deposit_address : string }.
Record FreshnessRec := mkFreshness { f_txid : string; f_vout : Z; f_value_sats : Z }.

Record Persisted := mkPersisted {
  onchain_cid : gmap string string;
  funding_lp : gmap string string;
  inflight_swapins : gmap string SwapInRec;
  onchain_swapins : gmap string OnchainSwapInRec;
  freshness_shards : gmap string FreshnessRec;
  channel_shard : gmap string Z }.
Definition persisted_default : Persisted := mkPersisted ∅ ∅ ∅ ∅ ∅ ∅.

(** ** Third-party text, JSON and cipher *)
Class Text := {
  show_address : list Z -> string; parse_address : string -> option (list Z);
  show_u256 : Z -> string; parse_u256 : string -> option Z;
  show_txid : list Z -> string; parse_txid : string -> option (list Z);
  show_spk : list Z -> string; parse_spk : string -> option (list Z);
  (** the 32 bytes are the x coordinate of a point *)
  xonly_ok : list Z -> bool;
  to_json : Persisted -> list Z; from_json : list Z -> option Persisted;
  (** the cipher under the key derived from the key id: ciphertext and tag *)
  aead_seal : list Z -> list Z -> list Z -> list Z;
  aead_open : list Z -> list Z -> list Z -> option (list Z) }.
Definition TAG_LEN : nat := 16.
Definition KEY_ID_LEN : nat := 32.
Definition VERSION_LEN : nat := 1.
Class TextLaws (T : Text) := {
  address_text : forall a, length a = 20%nat -> Forall byte_ok a -> parse_address (show_address a) = Some a;
  u256_text : forall n, 0 <= n < 2 ^ 256 -> parse_u256 (show_u256 n) = Some n;
  txid_text : forall t, length t = 32%nat -> Forall byte_ok t -> parse_txid (show_txid t) = Some t;
  spk_text : forall s, Forall byte_ok s -> parse_spk (show_spk s) = Some s;
  json_text : forall p, from_json (to_json p) = Some p;
  aead_text : forall k aad pt, aead_open k aad (aead_seal k aad pt) = Some pt;
  aead_length : forall k aad pt, length (aead_seal k aad pt) = (length pt + TAG_LEN)%nat }.

Section Store.
Context `{T : Text}.

(** ** The envelope *)
Definition STORE_SEAL_AAD : list Z := str_bytes "quid-bridge-store-v1".
Definition encrypted_len (n : nat) : nat := (VERSION_LEN + KEY_ID_LEN + n + TAG_LEN)%nat.
(** [key_id] is drawn by the caller's generator. *)
Definition encrypt (key_id aad pt : list Z) : list Z := 0 :: key_id ++ aead_seal key_id aad pt.
Definition decrypt (aad data : list Z) : option (list Z) :=
  if (length data <? encrypted_len 0)%nat then None else
  match data with
  | v :: data => if negb (v =? 0) then None else aead_open (take KEY_ID_LEN data) aad (drop KEY_ID_LEN data)
  | [] => None
  end.

Definition is_ascii_whitespace (b : Z) : bool := (b =? 32) || (b =? 9) || (b =? 10) || (b =? 12) || (b =? 13).
Definition looks_json (raw : list Z) : bool :=
  match List.find (fun b => negb (is_ascii_whitespace b)) raw with None => true | Some b => b =? 123 end.
Definition decode (sealed : bool) (raw : list Z) : option Persisted :=
  if sealed then
    if looks_json raw then None else pt ← decrypt STORE_SEAL_AAD raw; from_json pt
  else from_json raw.
(** What [save] writes. *)
Definition encode (sealed : bool) (key_id : list Z) (s : Persisted) : list Z :=
  if sealed then encrypt key_id STORE_SEAL_AAD (to_json s) else to_json s.

(** [load_inner]: a file that cannot be read stops the start. *)
Definition load_inner (sealed : bool) (file : option (list Z)) : option Persisted :=
  match file with Some raw => decode sealed raw | None => Some persisted_default end.

(** ** Records *)
Definition hex_b32 (s : string) : option (list Z) :=
  l ← hex_bytes s; if (length l =? 32)%nat then Some l else None.
Definition SwapInRec_of (c : ClaimedSwapIn) : SwapInRec :=
  mkSwapInRec (show_address (c_seller c)) (c_sats c) (show_address (c_token c)) (hex_data (c_payment_hash c))
    (show_u256 (c_min_delivered_usd c)) (hex_data (c_preimage c)) (c_claim_deadline c).
Definition to_claimed (r : SwapInRec) : option ClaimedSwapIn :=
  ph ← hex_bytes (r_payment_hash r);
  pi ← hex_bytes (r_preimage r);
  seller ← parse_address (r_seller r);
  token ← parse_address (r_token r);
  ph ← (if (length ph =? 32)%nat then Some ph else None);
  usd ← parse_u256 (r_min_delivered_usd r);
  pi ← (if (length pi =? 32)%nat then Some pi else None);
  Some (mkClaimed seller (r_sats r) token ph usd pi (r_claim_deadline r)).
Definition OnchainSwapInRec_of (s : OnchainSwapIn) : OnchainSwapInRec :=
  mkOnchainRec (hex_data (swap_id s)) (swap_index s) (show_address (s_seller s)) (show_address (s_token s))
    (show_u256 (price_per_btc s)) (slippage_bps s) (hex_encode (user_refund s)) (to_consensus_u32 (cltv s))
    (show_spk (deposit_spk s)).
Definition to_swap (r : OnchainSwapInRec) : option OnchainSwapIn :=
  sid ← hex_b32 (o_swap_id r);
  ur ← hex_bytes (o_user_refund r);
  seller ← parse_address (o_seller r);
  token ← parse_address (o_token r);
  price ← parse_u256 (o_price_per_btc r);
  ur ← (if (length ur =? 32)%nat && xonly_ok ur then Some ur else None);
  spk ← parse_spk (o_deposit_address r);
  Some (mkSwapIn sid (o_swap_index r) seller token price (o_slippage_bps r) ur (from_consensus (o_cltv_height r)) spk).

(** ** Operations

    Each returns the maps and how they are to be written. *)
Inductive Save := Skip | SaveCursor | SaveCritical.

Definition key (hash : list Z) : string := hex_data hash.
Definition shard_key (shard : Z) : string := pretty shard.

Definition freshness_of_shard (s : Persisted) (shard : Z) : option (list Z * Z * Z) :=
  r ← freshness_shards s !! shard_key shard; txid ← parse_txid (f_txid r); Some (txid, f_vout r, f_value_sats r).
Definition set_freshness (shard : Z) (txid : list Z) (vout value : Z) (s : Persisted) : Persisted * Save :=
  (mkPersisted (onchain_cid s) (funding_lp s) (inflight_swapins s) (onchain_swapins s)
     (<[shard_key shard := mkFreshness (show_txid txid) vout value]> (freshness_shards s)) (channel_shard s), SaveCritical).
Definition shard_of_channel (s : Persisted) (cid : list Z) : option Z := channel_shard s !! key cid.
Definition assign_shard (cid : list Z) (shard : Z) (s : Persisted) : Persisted * Save :=
  match channel_shard s !! key cid with
  | Some _ => (s, Skip)
  | None => (mkPersisted (onchain_cid s) (funding_lp s) (inflight_swapins s) (onchain_swapins s) (freshness_shards s)
               (<[key cid := shard]> (channel_shard s)), SaveCritical)
  end.
Definition channels_in_shard (s : Persisted) (shard : Z) : list string :=
  fst <$> filter (fun kv => kv.2 = shard) (map_to_list (channel_shard s)).
Fixpoint dedup (l : list Z) : list Z :=
  match l with
  | x :: (y :: _) as l => if x =? y then dedup l else x :: dedup l
  | l => l
  end.
Definition active_shards (s : Persisted) : list Z := dedup (merge_sort Z.le (snd <$> map_to_list (channel_shard s))).

Definition with_inflight (m : gmap string SwapInRec) (s : Persisted) : Persisted :=
  mkPersisted (onchain_cid s) (funding_lp s) m (onchain_swapins s) (freshness_shards s) (channel_shard s).
Definition add_inflight_swapin (c : ClaimedSwapIn) (s : Persisted) : Persisted * Save :=
  (with_inflight (<[key (c_payment_hash c) := SwapInRec_of c]> (inflight_swapins s)) s, SaveCritical).
Definition take_inflight_swapin (hash : list Z) (s : Persisted) : Persisted * Save :=
  match inflight_swapins s !! key hash with
  | Some _ => (with_inflight (delete (key hash) (inflight_swapins s)) s, SaveCritical)
  | None => (s, Skip)
  end.
Definition has_inflight_swapin (s : Persisted) (hash : list Z) : bool := bool_decide (is_Some (inflight_swapins s !! key hash)).
Definition inflight_swapin_count (s : Persisted) : nat := size (inflight_swapins s).
Definition list_inflight_swapins (s : Persisted) : list ClaimedSwapIn :=
  omap to_claimed (snd <$> map_to_list (inflight_swapins s)).

Definition with_onchain (m : gmap string OnchainSwapInRec) (s : Persisted) : Persisted :=
  mkPersisted (onchain_cid s) (funding_lp s) (inflight_swapins s) m (freshness_shards s) (channel_shard s).
Definition add_onchain_swapin (w : OnchainSwapIn) (s : Persisted) : Persisted * Save :=
  (with_onchain (<[key (swap_id w) := OnchainSwapInRec_of w]> (onchain_swapins s)) s, SaveCritical).
Definition remove_onchain_swapin (id : list Z) (s : Persisted) : Persisted * Save :=
  match onchain_swapins s !! key id with
  | Some _ => (with_onchain (delete (key id) (onchain_swapins s)) s, SaveCritical)
  | None => (s, Skip)
  end.
Definition list_onchain_swapins (s : Persisted) : list OnchainSwapIn :=
  omap to_swap (snd <$> map_to_list (onchain_swapins s)).

Definition with_cids (m : gmap string string) (s : Persisted) : Persisted :=
  mkPersisted m (funding_lp s) (inflight_swapins s) (onchain_swapins s) (freshness_shards s) (channel_shard s).
Definition load_onchain_cids (s : Persisted) : list (list Z * list Z) :=
  omap (fun kv => k ← hex_b32 kv.1; v ← hex_b32 kv.2; Some (k, v)) (map_to_list (onchain_cid s)).
Definition get_onchain_cid (s : Persisted) (ldk : list Z) : option (list Z) := v ← onchain_cid s !! key ldk; hex_b32 v.
Definition record_onchain_cid (ldk cid : list Z) (s : Persisted) : Persisted * Save :=
  if bool_decide (onchain_cid s !! key ldk = Some (key cid)) then (s, Skip)
  else (with_cids (<[key ldk := key cid]> (onchain_cid s)) s, SaveCritical).
Definition forget_onchain_cid (ldk : list Z) (s : Persisted) : Persisted * Save :=
  match onchain_cid s !! key ldk with
  | Some _ => (with_cids (delete (key ldk) (onchain_cid s)) s, SaveCursor)
  | None => (s, Skip)
  end.

Definition with_funding (m : gmap string string) (s : Persisted) : Persisted :=
  mkPersisted (onchain_cid s) m (inflight_swapins s) (onchain_swapins s) (freshness_shards s) (channel_shard s).
Definition load_funding_lps (s : Persisted) : list (string * list Z) :=
  omap (fun kv => v ← parse_address kv.2; Some (kv.1, v)) (map_to_list (funding_lp s)).
Definition record_funding_lp (k : string) (lp : list Z) (s : Persisted) : Persisted * Save :=
  if bool_decide (funding_lp s !! k = Some (show_address lp)) then (s, Skip)
  else (with_funding (<[k := show_address lp]> (funding_lp s)) s, SaveCritical).
Definition forget_funding_lp (k : string) (s : Persisted) : Persisted * Save :=
  match funding_lp s !! k with
  | Some _ => (with_funding (delete k (funding_lp s)) s, SaveCursor)
  | None => (s, Skip)
  end.

Inductive Op :=
| SetFreshness (shard : Z) (txid : list Z) (vout value : Z)
| AssignShard (cid : list Z) (shard : Z)
| AddInflight (c : ClaimedSwapIn)
| TakeInflight (hash : list Z)
| AddOnchain (w : OnchainSwapIn)
| RemoveOnchain (id : list Z)
| RecordCid (ldk cid : list Z)
| ForgetCid (ldk : list Z)
| RecordFunding (k : string) (lp : list Z)
| ForgetFunding (k : string).
Definition apply (o : Op) : Persisted -> Persisted * Save :=
  match o with
  | SetFreshness shard txid vout value => set_freshness shard txid vout value
  | AssignShard cid shard => assign_shard cid shard
  | AddInflight c => add_inflight_swapin c
  | TakeInflight hash => take_inflight_swapin hash
  | AddOnchain w => add_onchain_swapin w
  | RemoveOnchain id => remove_onchain_swapin id
  | RecordCid ldk cid => record_onchain_cid ldk cid
  | ForgetCid ldk => forget_onchain_cid ldk
  | RecordFunding k lp => record_funding_lp k lp
  | ForgetFunding k => forget_funding_lp k
  end.

(** ** Runs

    The process holds the maps; the disk holds the file, and [durable] is the file a power cut
    would leave.  A write ends well, or well but with the directory not flushed (which is only
    logged), or with an error before the rename, or the process stops within it.  [key_id] is
    the random key id of the envelope. *)
Record Sys := mkSys { mem : Persisted; file : option (list Z); durable : option (list Z) }.
Inductive Io := IoOk | IoUnsynced | IoErr | IoStop (renamed flushed : bool).
Inductive Saved := SavedOk | SavedErr | SavedStop.
Definition save (sealed : bool) (key_id : list Z) (io : Io) (s : Persisted) (y : Sys) : Sys * Saved :=
  let new := Some (encode sealed key_id s) in
  match io with
  | IoOk => (mkSys (mem y) new new, SavedOk)
  | IoUnsynced => (mkSys (mem y) new (durable y), SavedOk)
  | IoErr => (y, SavedErr)
  | IoStop renamed flushed =>
      (mkSys (mem y) (if renamed then new else file y) (if renamed && flushed then new else durable y), SavedStop)
  end.
(** Whether the operation returns; an error of a critical write is the abort. *)
Definition step (sealed : bool) (key_id : list Z) (io : Io) (o : Op) (y : Sys) : Sys * bool :=
  let '(s, how) := apply o (mem y) in
  let y := mkSys s (file y) (durable y) in
  match how with
  | Skip => (y, true)
  | SaveCursor => let '(y, r) := save sealed key_id io s y in (y, match r with SavedStop => false | _ => true end)
  | SaveCritical => let '(y, r) := save sealed key_id io s y in (y, match r with SavedOk => true | _ => false end)
  end.
(** The operations that returned, the one that did not, and the system when the process ended. *)
Fixpoint run (sealed : bool) (ops : list (list Z * Io * Op)) (y : Sys) : list Op * option Op * Sys :=
  match ops with
  | [] => ([], None, y)
  | (key_id, io, o) :: ops =>
      let '(y, returned) := step sealed key_id io o y in
      if returned : bool then let '(done, last, y) := run sealed ops y in (o :: done, last, y) else ([], Some o, y)
  end.
End Store.

(** * Properties *)

(** ** Hexadecimal round trip *)
Lemma hex_encode_digits l : Forall byte_ok l -> all_digits (hex_encode l) = true.
Proof.
  induction 1 as [|b l Hb _ IH]; [done|]. cbn [hex_encode all_digits]. unfold byte_ok in Hb.
  pose proof (Z.mod_pos_bound b 16 ltac:(lia)).
  assert (0 <= b / 16 < 16) by (split; [apply Z.div_pos; lia|apply Z.div_lt_upper_bound; lia]).
  by rewrite !hex_digit_value by lia.
Qed.
Lemma hex_decode_encode l : Forall byte_ok l -> hex_decode (hex_encode l) = Some l.
Proof.
  induction 1 as [|b l Hb _ IH]; [done|]. cbn [hex_encode hex_decode]. unfold byte_ok in Hb.
  pose proof (Z.mod_pos_bound b 16 ltac:(lia)). pose proof (Z.div_mod b 16 ltac:(lia)).
  assert (0 <= b / 16 < 16) by (split; [apply Z.div_pos; lia|apply Z.div_lt_upper_bound; lia]).
  rewrite !hex_digit_value by lia. cbn [mbind option_bind]. rewrite IH. cbn [mbind option_bind].
  do 2 f_equal. lia.
Qed.
Lemma hex_bytes_encode l : Forall byte_ok l -> hex_bytes (hex_encode l) = Some l.
Proof. intros H. unfold hex_bytes. rewrite trim0x_digits by by apply hex_encode_digits. by apply hex_decode_encode. Qed.
Lemma hex_bytes_data l : Forall byte_ok l -> hex_bytes (hex_data l) = Some l.
Proof. intros H. unfold hex_bytes, hex_data. change (trim0x (_ +:+ ?s)) with (trim0x s). by apply hex_bytes_encode. Qed.
Lemma hex_b32_data l : Forall byte_ok l -> length l = 32%nat -> hex_b32 (hex_data l) = Some l.
Proof. intros H Hl. unfold hex_b32. rewrite hex_bytes_data by done. cbn [mbind option_bind]. by rewrite Hl. Qed.
Lemma key_inj a b : Forall byte_ok a -> Forall byte_ok b -> key a = key b -> a = b.
Proof. intros Ha Hb E. apply (f_equal hex_bytes) in E. unfold key in E. rewrite !hex_bytes_data in E by done. by injection E. Qed.

Section Facts.
Context `{TL : TextLaws}.

(** ** The file *)
Lemma decrypt_encrypt key_id aad pt : length key_id = KEY_ID_LEN -> decrypt aad (encrypt key_id aad pt) = Some pt.
Proof.
  intros Hk. unfold decrypt, encrypt.
  rewrite (proj2 (Nat.ltb_ge _ _)) by (cbn [length]; rewrite length_app, Hk, aead_length; unfold encrypted_len, VERSION_LEN; lia).
  rewrite Z.eqb_refl. cbn [negb]. rewrite <-Hk, take_app_length, drop_app_length. apply aead_text.
Qed.
Lemma decode_encode sealed key_id s : length key_id = KEY_ID_LEN -> decode sealed (encode sealed key_id s) = Some s.
Proof.
  intros Hk. unfold decode, encode. destruct sealed; [|apply json_text].
  change (looks_json (encrypt key_id STORE_SEAL_AAD (to_json s))) with false. cbn match.
  rewrite decrypt_encrypt by done. apply json_text.
Qed.
(** A store with a key reads nothing that looks like the plain format. *)
Lemma downgrade_refused raw : looks_json raw = true -> load_inner true (Some raw) = None.
Proof. intros H. cbn [load_inner]. unfold decode. by rewrite H. Qed.

(** ** Records survive being written *)
Record wf_claimed (c : ClaimedSwapIn) : Prop := {
  wc_seller : length (c_seller c) = 20%nat /\ Forall byte_ok (c_seller c);
  wc_token : length (c_token c) = 20%nat /\ Forall byte_ok (c_token c);
  wc_hash : length (c_payment_hash c) = 32%nat /\ Forall byte_ok (c_payment_hash c);
  wc_preimage : length (c_preimage c) = 32%nat /\ Forall byte_ok (c_preimage c);
  wc_usd : 0 <= c_min_delivered_usd c < 2 ^ 256 }.
Record wf_swap (s : OnchainSwapIn) : Prop := {
  ws_seller : length (s_seller s) = 20%nat /\ Forall byte_ok (s_seller s);
  ws_token : length (s_token s) = 20%nat /\ Forall byte_ok (s_token s);
  ws_id : length (swap_id s) = 32%nat /\ Forall byte_ok (swap_id s);
  ws_refund : length (user_refund s) = 32%nat /\ Forall byte_ok (user_refund s) /\ xonly_ok (user_refund s) = true;
  ws_price : 0 <= price_per_btc s < 2 ^ 256; ws_cltv : wf_locktime (cltv s); ws_spk : Forall byte_ok (deposit_spk s) }.

Lemma claimed_roundtrip c : wf_claimed c -> to_claimed (SwapInRec_of c) = Some c.
Proof.
  intros [[Hs Hsb] [Ht Htb] [Hh Hhb] [Hp Hpb] Hu]. unfold to_claimed, SwapInRec_of.
  cbn [r_seller r_sats r_token r_payment_hash r_min_delivered_usd r_preimage r_claim_deadline].
  rewrite !hex_bytes_data by done. cbn [mbind option_bind]. rewrite !address_text by done. cbn [mbind option_bind].
  rewrite Hh, Hp. cbn [Nat.eqb mbind option_bind]. rewrite u256_text by done. by destruct c.
Qed.
Lemma locktime_roundtrip l : wf_locktime l -> from_consensus (to_consensus_u32 l) = l.
Proof.
  unfold from_consensus. destruct l as [h|t]; cbn [wf_locktime to_consensus_u32]; intros H.
  - by rewrite (proj2 (Z.ltb_lt _ _)) by lia.
  - by rewrite (proj2 (Z.ltb_ge _ _)) by lia.
Qed.
Lemma swap_roundtrip s : wf_swap s -> to_swap (OnchainSwapInRec_of s) = Some s.
Proof.
  intros [[Hs Hsb] [Ht Htb] [Hi Hib] (Hr & Hrb & Hro) Hp Hc Hk]. unfold to_swap, OnchainSwapInRec_of.
  cbn [o_swap_id o_swap_index o_seller o_token o_price_per_btc o_slippage_bps o_user_refund o_cltv_height o_deposit_address].
  rewrite hex_b32_data, hex_bytes_encode by done. cbn [mbind option_bind]. rewrite !address_text by done. cbn [mbind option_bind].
  rewrite u256_text by done. cbn [mbind option_bind]. rewrite Hr, Hro. cbn [Nat.eqb andb mbind option_bind].
  rewrite spk_text, locktime_roundtrip by done. by destruct s.
Qed.

(** ** What a restart finds

    Everything but the two maps of bindings is as the process had it; those may hold entries
    that were already forgotten, never fewer. *)
Record recovers (d s : Persisted) : Prop := {
  rc_inflight : inflight_swapins d = inflight_swapins s;
  rc_onchain : onchain_swapins d = onchain_swapins s;
  rc_freshness : freshness_shards d = freshness_shards s;
  rc_shard : channel_shard d = channel_shard s;
  rc_cid : onchain_cid s ⊆ onchain_cid d;
  rc_funding : funding_lp s ⊆ funding_lp d }.
Lemma recovers_refl s : recovers s s.
Proof. by constructor. Qed.
Lemma apply_skip o s s' : apply o s = (s', Skip) -> s' = s.
Proof.
  destruct o; cbn [apply]; unfold set_freshness, assign_shard, add_inflight_swapin, take_inflight_swapin, add_onchain_swapin,
    remove_onchain_swapin, record_onchain_cid, forget_onchain_cid, record_funding_lp, forget_funding_lp;
    repeat case_match; congruence.
Qed.
(** Best-effort writes only ever follow a deletion. *)
Lemma apply_cursor o s s' d : apply o s = (s', SaveCursor) -> recovers d s -> recovers d s'.
Proof.
  destruct o; cbn [apply]; unfold set_freshness, assign_shard, add_inflight_swapin, take_inflight_swapin, add_onchain_swapin,
    remove_onchain_swapin, record_onchain_cid, forget_onchain_cid, record_funding_lp, forget_funding_lp;
    repeat case_match; try congruence; intros [= <-] [H1 H2 H3 H4 H5 H6]; constructor; try done; cbn [onchain_cid funding_lp with_cids with_funding].
  - etrans; [apply delete_subseteq|done].
  - etrans; [apply delete_subseteq|done].
Qed.
Definition state_after (ops : list Op) (s : Persisted) : Persisted := fold_left (fun s o => (apply o s).1) ops s.
Definition readable (sealed : bool) (f : option (list Z)) (s : Persisted) : Prop :=
  exists d, load_inner sealed f = Some d /\ recovers d s.

Lemma readable_written sealed key_id s : length key_id = KEY_ID_LEN -> readable sealed (Some (encode sealed key_id s)) s.
Proof. intros Hk. exists s. split; [by apply decode_encode|apply recovers_refl]. Qed.
(** The file, and what a power cut leaves, after one operation. *)
Lemma step_recovers sealed key_id io o y y' returned : length key_id = KEY_ID_LEN ->
  step sealed key_id io o y = (y', returned) ->
  mem y' = (apply o (mem y)).1 /\
  (readable sealed (file y) (mem y) ->
   readable sealed (file y') (mem y') \/ returned = false /\ readable sealed (file y') (mem y)) /\
  (io <> IoUnsynced -> readable sealed (durable y) (mem y) ->
   readable sealed (durable y') (mem y') \/ returned = false /\ readable sealed (durable y') (mem y)).
Proof.
  intros Hk. unfold step. destruct (apply o (mem y)) as [s how] eqn:E. cbn [fst].
  pose proof (readable_written sealed key_id s Hk) as Hw.
  assert (how <> SaveCritical -> forall f, readable sealed f (mem y) -> readable sealed f s) as Hkeep.
  { intros Hc f (d & Hl & Hr). exists d. split; [done|].
    destruct how; [by apply apply_skip in E as ->|by eapply apply_cursor|done]. }
  destruct how; [|destruct io as [| | |[] []]..]; cbn [save mem file durable andb]; intros [= <- <-]; cbn [mem file durable];
    (split; [done|]); split; intros; auto; try done; left; by apply Hkeep.
Qed.

(** Either the operations that returned, or those and the one that was interrupted. *)
Definition recovered (sealed : bool) (f : option (list Z)) (done : list Op) (last : option Op) (s : Persisted) : Prop :=
  readable sealed f (state_after done s) \/ exists o, last = Some o /\ readable sealed f (state_after (done ++ [o]) s).
Lemma run_recovers sealed ops y done last y' :
  Forall (fun o => length o.1.1 = KEY_ID_LEN) ops -> run sealed ops y = (done, last, y') ->
  (readable sealed (file y) (mem y) -> recovered sealed (file y') done last (mem y)) /\
  (Forall (fun o => o.1.2 <> IoUnsynced) ops -> readable sealed (durable y) (mem y) ->
   recovered sealed (durable y') done last (mem y)).
Proof.
  intros Hk. revert y done. induction Hk as [|[[key_id io] o] ops Hi _ IH]; intros y done; cbn [run].
  { intros [= <- <- <-]. split; intros; by left. }
  destruct (step sealed key_id io o y) as [y1 ret] eqn:E. destruct (step_recovers _ _ _ _ _ _ _ Hi E) as (Hm & Hf & Hd).
  destruct ret.
  - destruct (run sealed ops y1) as [[done1 last1] y2] eqn:E1. intros [= <- <- <-]. destruct (IH y1 done1 E1) as [IHf IHd].
    unfold recovered, state_after in *. cbn [fold_left app]. rewrite <-Hm. split.
    + intros Hr. apply IHf. by destruct (Hf Hr) as [|[? _]].
    + intros [Hio Hall]%Forall_cons Hr. apply IHd; [done|]. by destruct (Hd Hio Hr) as [|[? _]].
  - intros [= <- <- <-]. unfold recovered, state_after. cbn [fold_left app]. split.
    + intros Hr. destruct (Hf Hr) as [|[_ ?]]; [right; exists o; by rewrite <-Hm|by left].
    + intros [Hio _]%Forall_cons Hr. destruct (Hd Hio Hr) as [|[_ ?]]; [right; exists o; by rewrite <-Hm|by left].
Qed.

(** A swap-in that was registered, and not removed since, is watched again after a restart. *)
Lemma onchain_kept ops s k r : onchain_swapins s !! k = Some r ->
  Forall (fun o => match o with AddOnchain w => key (swap_id w) <> k | RemoveOnchain id => key id <> k | _ => True end) ops ->
  onchain_swapins (state_after ops s) !! k = Some r.
Proof.
  intros Hs Ho. revert s Hs. induction Ho as [|o ops Ho _ IH]; intros s Hs; [done|]. apply IH. clear IH.
  destruct o; cbn [apply]; unfold set_freshness, assign_shard, add_inflight_swapin, take_inflight_swapin, add_onchain_swapin,
    remove_onchain_swapin, record_onchain_cid, forget_onchain_cid, record_funding_lp, forget_funding_lp;
    repeat case_match; cbn [fst onchain_swapins with_inflight with_onchain with_cids with_funding]; try done.
  - by rewrite lookup_insert_ne.
  - by rewrite lookup_delete_ne.
Qed.
Lemma registered_survives sealed ops w more y done last y' : wf_swap w ->
  readable sealed (file y) (mem y) -> Forall (fun o => length o.1.1 = KEY_ID_LEN) ops ->
  run sealed ops y = (done ++ AddOnchain w :: more, last, y') ->
  Forall (fun o => match o with AddOnchain v => key (swap_id v) <> key (swap_id w)
                   | RemoveOnchain id => key id <> key (swap_id w) | _ => True end) (more ++ option_list last) ->
  exists d, load_inner sealed (file y') = Some d /\ w ∈ list_onchain_swapins d.
Proof.
  intros Hw Hl Hk Hrun [Hm Hlast]%Forall_app. destruct (run_recovers _ _ _ _ _ _ Hk Hrun) as [Hf _].
  assert (exists more', Forall (fun o => match o with AddOnchain v => key (swap_id v) <> key (swap_id w)
    | RemoveOnchain id => key id <> key (swap_id w) | _ => True end) more' /\
    readable sealed (file y') (state_after (done ++ AddOnchain w :: more') (mem y))) as (more' & Hm' & d & Hd & Hr).
  { destruct (Hf Hl) as [|(o & -> & Ho)]; [by exists more|]. exists (more ++ [o]). rewrite <- app_assoc in Ho.
    split; [by apply Forall_app|done]. }
  exists d. split; [done|]. unfold list_onchain_swapins. rewrite (rc_onchain _ _ Hr).
  apply list_elem_of_omap. exists (OnchainSwapInRec_of w). split; [|by apply swap_roundtrip].
  apply list_elem_of_fmap. exists (key (swap_id w), OnchainSwapInRec_of w). split; [done|].
  apply elem_of_map_to_list. unfold state_after. rewrite fold_left_app. cbn [fold_left].
  apply (onchain_kept more'); [|done]. cbn [apply add_onchain_swapin fst onchain_swapins with_onchain]. apply lookup_insert_eq.
Qed.

(** A channel keeps the shard it was first given. *)
Lemma shard_stable ops s k v : channel_shard s !! k = Some v -> channel_shard (state_after ops s) !! k = Some v.
Proof.
  revert s. induction ops as [|o ops IH]; intros s Hs; [done|]. apply IH. clear IH.
  destruct o; cbn [apply]; unfold set_freshness, assign_shard, add_inflight_swapin, take_inflight_swapin, add_onchain_swapin,
    remove_onchain_swapin, record_onchain_cid, forget_onchain_cid, record_funding_lp, forget_funding_lp;
    repeat case_match; cbn [fst channel_shard with_inflight with_onchain with_cids with_funding]; try done.
  rewrite lookup_insert_ne; [done|]. intros E. congruence.
Qed.

(** C28: wherever the process stops — between two operations, within a write, before or after
    its rename, or at the abort of a critical write — and whichever writes failed before, the
    file can be read again and holds the effect of the operations that returned, possibly with
    that of the one interrupted: swaps in flight, registered swap-ins, freshness outputs and
    shard assignments are exactly those; the two maps of bindings ([onchain_cid] and
    [funding_lp]) hold all of theirs and may hold entries already forgotten.  So does what a
    power cut leaves, provided that no directory flush failed. *)
Theorem crash_recovers sealed ops y done last y' :
  load_inner sealed (file y) = Some (mem y) -> durable y = file y -> Forall (fun o => length o.1.1 = KEY_ID_LEN) ops ->
  run sealed ops y = (done, last, y') ->
  recovered sealed (file y') done last (mem y) /\
  (Forall (fun o => o.1.2 <> IoUnsynced) ops -> recovered sealed (durable y') done last (mem y)).
Proof.
  intros Hl Hd Hk Hrun. destruct (run_recovers _ _ _ _ _ _ Hk Hrun) as [H1 H2].
  assert (readable sealed (file y) (mem y)) as Hr by (exists (mem y); split; [done|apply recovers_refl]).
  rewrite Hd in H2. auto.
Qed.

(** A directory that cannot be flushed is no error: the operation returns, and a power cut may
    undo it. *)
Lemma unsynced_write_lost sealed key_id w y : 
  (step sealed key_id IoUnsynced (AddOnchain w) y).2 = true /\ durable (step sealed key_id IoUnsynced (AddOnchain w) y).1 = durable y.
Proof. done. Qed.
End Facts.

(** ** Samples

    Text as hexadecimal, JSON as the standard encoding of countable data, and a cipher that
    only appends a tag. *)
#[export] Instance SwapInRec_eq_dec : EqDecision SwapInRec.
Proof. solve_decision. Defined.
#[export] Instance OnchainSwapInRec_eq_dec : EqDecision OnchainSwapInRec.
Proof. solve_decision. Defined.
#[export] Instance FreshnessRec_eq_dec : EqDecision FreshnessRec.
Proof. solve_decision. Defined.
#[export] Instance Persisted_eq_dec : EqDecision Persisted.
Proof. solve_decision. Defined.
(** Fields as a list keep the encodings short. *)
#[export] Instance SwapInRec_countable : Countable SwapInRec.
Proof.
  refine (inj_countable (fun r => [inl (r_seller r); inr (Some (r_sats r)); inl (r_token r); inl (r_payment_hash r);
            inl (r_min_delivered_usd r); inl (r_preimage r); inr (r_claim_deadline r)])
    (fun l => match l with
              | [inl a; inr (Some b); inl c; inl d; inl e; inl f; inr g] => Some (mkSwapInRec a b c d e f g)
              | _ => None
              end) _).
  by intros [].
Defined.
#[export] Instance OnchainSwapInRec_countable : Countable OnchainSwapInRec.
Proof.
  refine (inj_countable (fun r => [inl (o_swap_id r); inr (o_swap_index r); inl (o_seller r); inl (o_token r);
            inl (o_price_per_btc r); inr (o_slippage_bps r); inl (o_user_refund r); inr (o_cltv_height r); inl (o_deposit_address r)])
    (fun l => match l with
              | [inl a; inr b; inl c; inl d; inl e; inr f; inl g; inr h; inl i] => Some (mkOnchainRec a b c d e f g h i)
              | _ => None
              end) _).
  by intros [].
Defined.
#[export] Instance FreshnessRec_countable : Countable FreshnessRec :=
  inj_countable' (fun r => (f_txid r, f_vout r, f_value_sats r)) (fun '(a, b, c) => mkFreshness a b c) (fun r => ltac:(by destruct r)).

Module StoreSample.
#[export] Instance text : Text := {|
  Store.show_address := hex_data; parse_address := hex_bytes;
  show_u256 := fun n => hex_data (to_be_bytes 32 n); parse_u256 := fun s => l ← hex_bytes s; Some (from_be_bytes l);
  show_txid := hex_data; parse_txid := hex_bytes;
  show_spk := hex_data; parse_spk := hex_bytes;
  xonly_ok := fun _ => true;
  to_json := fun p => [Zpos (countable.encode (onchain_cid p)); Zpos (countable.encode (funding_lp p));
                       Zpos (countable.encode (inflight_swapins p)); Zpos (countable.encode (onchain_swapins p));
                       Zpos (countable.encode (freshness_shards p)); Zpos (countable.encode (channel_shard p))];
  from_json := fun l => match l with
    | [Zpos a; Zpos b; Zpos c; Zpos d; Zpos e; Zpos f] =>
        a ← countable.decode a; b ← countable.decode b; c ← countable.decode c;
        d ← countable.decode d; e ← countable.decode e; f ← countable.decode f; Some (mkPersisted a b c d e f)
    | _ => None
    end;
  aead_seal := fun _ _ pt => pt ++ replicate TAG_LEN 0;
  aead_open := fun _ _ ct => Some (take (length ct - TAG_LEN) ct) |}.
#[export] Instance text_laws : TextLaws text.
Proof.
  constructor; cbn [Store.show_address parse_address show_u256 parse_u256 show_txid parse_txid show_spk parse_spk to_json from_json aead_seal aead_open text];
    intros; rewrite ?hex_bytes_data; try done.
  - cbn [mbind option_bind]. by rewrite be_decode_encode.
  - apply to_be_bytes_ok.
  - rewrite !countable.decode_encode. by destruct p.
  - rewrite length_app, length_replicate. replace (length pt + TAG_LEN - TAG_LEN)%nat with (length pt) by lia. by rewrite take_app_length.
  - by rewrite length_app, length_replicate.
Qed.
Definition swap : OnchainSwapIn :=
  mkSwapIn (replicate 32 1) 0 (replicate 20 2) (replicate 20 3) 50000000000 100 (replicate 32 4) (Blocks 900000) (81 :: 32 :: replicate 32 5).
Definition key_id : list Z := replicate 32 9.
(** The last removal is not written, and the process goes on; it is killed within the second
    registration, after the rename. *)
Definition ops : list (list Z * Io * Op) :=
  [(key_id, IoOk, RecordCid (replicate 32 6) (replicate 32 7)); (key_id, IoOk, AddOnchain swap);
   (key_id, IoErr, ForgetCid (replicate 32 6)); (key_id, IoStop true false, TakeInflight (replicate 32 6)); 
   (key_id, IoStop true false, AddOnchain swap); (key_id, IoOk, RemoveOnchain (replicate 32 1))].
Definition start : Sys := mkSys persisted_default None None.
End StoreSample.
#[local] Existing Instances StoreSample.text StoreSample.text_laws.

Lemma crash_recovers_witness :
  let '(done, last, y') := run true StoreSample.ops StoreSample.start in
  length done = 4%nat /\ last = Some (AddOnchain StoreSample.swap) /\
  recovered true (file y') done last persisted_default /\ recovered true (durable y') done last persisted_default.
Proof.
  destruct (run true StoreSample.ops StoreSample.start) as [[done last] y'] eqn:E.
  destruct (crash_recovers true StoreSample.ops StoreSample.start done last y' eq_refl eq_refl ltac:(by repeat constructor) E) as [Hf Hd].
  split; [by injection E as <- _ _|]. split; [by injection E as _ <- _|]. split; [exact Hf|]. apply Hd. by repeat constructor.
Defined.
