(* ===== verification/SwapIn.v ===== *)
(** * SwapIn: bitcoin in, dollars out

    The on-chain rail — [quid-hop/src/swap_in_onchain.rs] (deposit address, claim and refund),
    [quid-bridge/src/swap_in_onchain.rs] (registry, choice of a deposit, settle, claim) and its
    entry in [swap_in_api.rs] — and the Lightning rail of [quid-bridge/src/swap_in.rs].  The
    contract's side of the deposit ([evm/src/imports/BitcoinTx.sol]) stands beside it.

    The bitcoin library (scripts, taproot, signatures) is a class with the behaviour relied on;
    the explorer is a record of its answers during a pass.  The registry is the map of the
    store.  A subtraction of amounts panics below zero, which ends the process: [None]. *)
From Stdlib Require Import String.
From stdpp Require Import gmap strings sorting.
From S2P Require Import Prelude Pool Chain Abi EvmTx Transport Client Store.
Open Scope list_scope.

(** ** Transactions *)
Record OutPoint := mkOutPoint { op_txid : list Z; op_vout : Z }.
#[export] Instance OutPoint_eq_dec : EqDecision OutPoint.
Proof. solve_decision. Defined.
Record BtcOut := mkOut { out_value : Z; out_spk : list Z }.
Record BtcIn := mkIn { previous_output : OutPoint; in_sequence : Z; in_witness : list (list Z) }.
Record BtcTx := mkBtcTx { btc_version : Z; btc_lock_time : LockTime; btc_input : list BtcIn; btc_output : list BtcOut }.

Definition ENABLE_RBF_NO_LOCKTIME : Z := 4294967293.
Definition ENABLE_LOCKTIME_NO_RBF : Z := 4294967294.

(** [Amount - Amount]. *)
Definition amount_sub (a b : Z) : option Z := if a <? b then None else Some (a - b).

Definition build_claim_tx_with_refund (op : OutPoint) (value fee : Z) (dest : list Z) (refund : option BtcOut) : option BtcTx :=
  let refund_value := match refund with Some r => out_value r | None => 0 end in
  v ← amount_sub value fee; v ← amount_sub v refund_value;
  Some (mkBtcTx 2 (Blocks 0) [mkIn op ENABLE_RBF_NO_LOCKTIME []]
          (mkOut v dest :: match refund with Some r => [r] | None => [] end)).
Definition build_claim_tx (op : OutPoint) (value fee : Z) (dest : list Z) : option BtcTx :=
  build_claim_tx_with_refund op value fee dest None.
Definition build_refund_tx (op : OutPoint) (value fee : Z) (dest : list Z) (lock : LockTime) : option BtcTx :=
  v ← amount_sub value fee;
  Some (mkBtcTx 2 lock [mkIn op ENABLE_LOCKTIME_NO_RBF []] [mkOut v dest]).

(** ** The bitcoin library *)
Class Bitcoin := {
  sha256 : list Z -> list Z;
  (** [Builder::push_int] *)
  push_int : Z -> list Z;
  (** the output key of an internal key and a tree of one leaf *)
  tap_output_key : list Z -> list Z -> list Z;
  (** the secret at a hardened path below the master key, and its x-only public key *)
  derive_priv : list Z -> option Z;
  x_only : Z -> list Z;
  taproot_key_spend_sighash : BtcTx -> BtcOut -> option (list Z);
  (** a signature under the secret tweaked by the tree of the leaf, and its check *)
  sign_tweaked : Z -> list Z -> list Z -> list Z;
  schnorr_verify : list Z -> list Z -> list Z -> bool;
  (** [ScriptBuf::new_p2tr(key, None)] and [minimal_non_dust] *)
  new_p2tr : list Z -> list Z;
  minimal_non_dust : list Z -> Z }.
(** The number as a script reads it: little-endian, minimal, and a zero byte when the sign bit
    would be set. *)
Fixpoint le_minimal (fuel : nat) (n : Z) : list Z :=
  match fuel with
  | O => []
  | S fuel => if n =? 0 then [] else n mod 256 :: le_minimal fuel (n / 256)
  end.
Definition script_number (n : Z) : list Z :=
  let l := le_minimal 8 n in
  if match last l with Some b => 128 <=? b | None => false end then l ++ [0] else l.
Class BitcoinLaws (B : Bitcoin) := {
  push_zero : push_int 0 = [0];
  push_small : forall n, 1 <= n <= 16 -> push_int n = [80 + n];
  push_number : forall n, 16 < n <= imax u32 -> push_int n = Z.of_nat (length (script_number n)) :: script_number n;
  tweaked_verifies : forall k leaf msg, schnorr_verify (tap_output_key (x_only k) leaf) msg (sign_tweaked k leaf msg) = true;
  dust_positive : forall spk, 0 < minimal_non_dust spk }.

(** ** Constants *)
Definition SWAP_IN_MIN_CLTV_HEADROOM_BLOCKS : Z := 72.
Definition ONCHAIN_SWAP_IN_MIN_CLTV_HEADROOM_BLOCKS : Z := SWAP_IN_MIN_CLTV_HEADROOM_BLOCKS.
Definition SWAP_IN_CLTV_WINDOW_BLOCKS : Z := 288.
Definition SWAP_IN_DEPOSIT_ACCOUNT : Z := 70.
Definition PINNED_DEPOSIT_INDEX : Z := 0.

Inductive SwapInOnchainError := ESighash | EDerive.

Section Deposit.
Context `{B : Bitcoin}.

(** ** The deposit address *)
Definition terms_commitment (seller token price : list Z) (slippage_bps : Z) : list Z :=
  sha256 (replicate 12 0 ++ seller ++ replicate 12 0 ++ token ++ price ++ replicate 30 0 ++ to_be_bytes 2 slippage_bps).
Definition OP_DROP : Z := 117.
Definition OP_CLTV : Z := 177.
Definition OP_CHECKSIG : Z := 172.
Definition refund_leaf (user_refund : list Z) (lock : LockTime) (terms : list Z) : list Z :=
  (32 :: terms) ++ [OP_DROP] ++ push_int (to_consensus_u32 lock) ++ [OP_CLTV] ++ [OP_DROP] ++ (32 :: user_refund) ++ [OP_CHECKSIG].
(** [deposit_spend_info] and [deposit_address]: the output key, as the script that pays it. *)
Definition deposit_address (internal user_refund : list Z) (lock : LockTime) (terms : list Z) : list Z :=
  81 :: 32 :: tap_output_key internal (refund_leaf user_refund lock terms).
Definition derive_deposit_key : option Z := derive_priv [SWAP_IN_DEPOSIT_ACCOUNT; PINNED_DEPOSIT_INDEX].
Definition deposit_for (user_refund : list Z) (lock : LockTime) (terms : list Z) : list Z + SwapInOnchainError :=
  match derive_deposit_key with
  | None => inr EDerive
  | Some k => inl (deposit_address (x_only k) user_refund lock terms)
  end.
Definition with_witness (tx : BtcTx) (w : list (list Z)) : BtcTx :=
  mkBtcTx (btc_version tx) (btc_lock_time tx)
    (match btc_input tx with i :: l => mkIn (previous_output i) (in_sequence i) w :: l | [] => [] end) (btc_output tx).
Definition sign_claim (user_refund : list Z) (lock : LockTime) (tx : BtcTx) (deposit : BtcOut) (terms : list Z) : BtcTx + SwapInOnchainError :=
  match derive_deposit_key with
  | None => inr EDerive
  | Some k =>
      match taproot_key_spend_sighash tx deposit with
      | None => inr ESighash
      | Some h => inl (with_witness tx [sign_tweaked k (refund_leaf user_refund lock terms) h])
      end
  end.

(** ** The contract's side: [BitcoinTx.sol] *)
Fixpoint sol_bytes (fuel : nat) (t : Z) : nat :=
  match fuel with O => 0 | S fuel => if t =? 0 then 0 else S (sol_bytes fuel (Z.shiftr t 8)) end.
Definition sol_scriptNum (v : Z) : list Z :=
  if v =? 0 then [0] else
  let n := sol_bytes 5 v in
  let pad := negb (Z.land (Z.land (Z.shiftr v (8 * (Z.of_nat n - 1))) 255) 128 =? 0) in
  map (fun i => Z.land (Z.shiftr v (8 * Z.of_nat i)) 255) (seq 0 n) ++ (if pad then [0] else []).
Definition sol_termsCommitment (seller token : list Z) (price slippage : Z) : list Z :=
  sha256 (address_word seller ++ address_word token ++ to_be_bytes 32 price ++ to_be_bytes 32 slippage).
Definition sol_cltvRefundLeaf (seller token : list Z) (price slippage : Z) (user_refund : list Z) (height : Z) : list Z :=
  let n := sol_scriptNum height in
  [32] ++ sol_termsCommitment seller token price slippage ++ [117] ++ [Z.of_nat (length n)] ++ n ++ [177] ++ [117] ++
  [32] ++ user_refund ++ [172].
Definition sol_swapInDepositScript (internal seller token : list Z) (price slippage : Z) (user_refund : list Z) (height : Z) : list Z :=
  [81; 32] ++ tap_output_key internal (sol_cltvRefundLeaf seller token price slippage user_refund height).
(** [sumOutputValuesToScript]: what the contract credits. *)
Definition sol_depositSats (tx : BtcTx) (spk : list Z) : Z :=
  sumZ out_value (filter (fun o => out_spk o = spk) (btc_output tx)).
(** [settleFloorUsd]; a [uint] operation that overflows reverts. *)
Definition u256_mul (a b : Z) : option Z := if 2 ^ 256 <=? a * b then None else Some (a * b).
Definition sol_settleFloorUsd (price slippage sats : Z) : option Z :=
  e ← u256_mul sats price;
  k ← u256_mul (e / 100000000) (if 10000 <=? slippage then 0 else 10000 - slippage);
  Some (k / 10000).
(** [swap_in_floor_usd] of [swap.rs]; the operators of [U256] wrap. *)
Definition swap_in_floor_usd (sats price slippage : Z) : Z :=
  let expected := (sats * price) mod 2 ^ 256 / 100000000 in
  let keep := sat u16 (10000 - Z.min slippage 10000) in
  (expected * keep) mod 2 ^ 256 / 10000.
End Deposit.

(** ** The driver *)
Record ConfirmedDeposit := mkDeposit { d_outpoint : OutPoint; d_value : Z }.
Inductive OnchainAction := Claim (refund_sats : Z) | DropToRefund.
Record ScannedOutput := mkScanned { sc_outpoint : OutPoint; sc_value : Z; sc_spk : list Z; sc_height : option Z }.
(** A transaction of the explorer: txid, outputs, height when confirmed. *)
Record EsploraTx := mkETx { e_txid : list Z; e_vout : list BtcOut; e_height : option Z }.

Definition outcome_action (o : SettleOutcome) (actual_sats : Z) : OnchainAction :=
  match o with
  | Delivered c | AlreadySettled c => Claim (sat u64 (actual_sats - c))
  | Undeliverable => DropToRefund
  end.
Definition cltv_headroom_ok (lock : LockTime) (best : Z) : bool :=
  match lock with
  | Blocks h => if h <? best then false else ONCHAIN_SWAP_IN_MIN_CLTV_HEADROOM_BLOCKS <=? h - best
  | Seconds _ => false
  end.

(** Candidates in the order of height, txid and output. *)
Definition scanned_le (a b : ScannedOutput) : bool :=
  let ha := default (imax u32) (sc_height a) in let hb := default (imax u32) (sc_height b) in
  if negb (ha =? hb) then ha <? hb
  else if negb (bool_decide (op_txid (sc_outpoint a) = op_txid (sc_outpoint b)))
  then bytes_le (op_txid (sc_outpoint a)) (op_txid (sc_outpoint b))
  else op_vout (sc_outpoint a) <=? op_vout (sc_outpoint b).
Definition before (a b : ScannedOutput) : Prop := scanned_le a b = true.
#[export] Instance before_dec : RelDecision before.
Proof. intros a b. unfold before. apply _. Defined.
(** [d + 1] is a [u32] sum, which wraps in a release build. *)
Definition buried (tip min_confs : Z) (height : option Z) : bool :=
  match height with
  | Some h => if tip <? h then false else min_confs <=? cast u32 (tip - h + 1)
  | None => false
  end.
Definition find_confirmed_deposit (outs : list ScannedOutput) (spk : list Z) (tip min_confs : Z) : option ConfirmedDeposit :=
  let cands := List.filter (fun o => buried tip min_confs (sc_height o))
                 (List.filter (fun o => bool_decide (sc_spk o = spk) && (0 <? sc_value o)) outs) in
  o ← head (merge_sort before cands); Some (mkDeposit (sc_outpoint o) (sc_value o)).

(** What the explorer answers during a pass.  [broadcasts_ok] is its answer to a transaction. *)
Record Esplora := mkEsplora {
  es_height : option Z;
  es_feerate : Z;
  scripthash_txs : list Z -> option (list EsploraTx);
  es_inclusion : list Z -> option TxInclusion;
  broadcast_ok : BtcTx -> bool }.
Definition scan_of (txs : list EsploraTx) : list ScannedOutput :=
  concat (map (fun tx => imap (fun vout o => mkScanned (mkOutPoint (e_txid tx) (Z.of_nat vout)) (out_value o) (out_spk o) (e_height tx))
                              (e_vout tx)) txs).

(** The Ethereum side, the registry, and every claim handed to the network. *)
Record SwapState := mkState { evm : World; registry : Persisted; claims : list BtcTx }.

Section Driver.
Context `{B : Bitcoin} `{T : Text}.
Variable rpc : nat -> string -> Value -> Answer.
Variable keccak256 : list Z -> list Z.
Variable address : list Z.
Variable sign : TxFields -> list Z + string.
Variable cfg : BridgeConfig.
(** [U256::from_str_radix] *)
Variable u256_from_str_radix : string -> Z -> option Z.

Definition swap_terms (s : OnchainSwapIn) : list Z :=
  terms_commitment (s_seller s) (s_token s) (to_be_bytes 32 (price_per_btc s)) (slippage_bps s).
Definition settle (s : OnchainSwapIn) (h : Z) (inclusion : TxInclusion) (txid : list Z) (sats : Z) : M SettleOutcome :=
  settle_swap_in_proven rpc keccak256 Store.show_address address sign cfg
    (s_seller s) (s_token s) (price_per_btc s) (slippage_bps s) (user_refund s) h inclusion txid sats.
Definition decide_deposit (s : OnchainSwapIn) (d : ConfirmedDeposit) (best : Z) (inclusion : TxInclusion) : M (option OnchainAction) :=
  if negb (cltv_headroom_ok (cltv s) best) then mret None else
  match cltv s with
  | Seconds _ => mret None
  | Blocks h =>
      o ← settle s h inclusion (op_txid (d_outpoint d)) (d_value d);
      mret (Some (outcome_action o (d_value d)))
  end.

(** The claim that [broadcast_claim] hands to the network; [None] is a panic. *)
Definition claim_refund (s : OnchainSwapIn) (refund_sats : Z) : option BtcOut :=
  if refund_sats =? 0 then None else
  let spk := new_p2tr (user_refund s) in
  if refund_sats <? minimal_non_dust spk then None else Some (mkOut refund_sats spk).
Definition make_claim (s : OnchainSwapIn) (d : ConfirmedDeposit) (dest : list Z) (fee refund_sats : Z) : option (BtcTx + SwapInOnchainError) :=
  tx ← build_claim_tx_with_refund (d_outpoint d) (d_value d) fee dest (claim_refund s refund_sats);
  Some (sign_claim (user_refund s) (cltv s) tx (mkOut (d_value d) (deposit_spk s)) (swap_terms s)).
Definition remove (id : list Z) (st : SwapState) : SwapState :=
  mkState (evm st) (remove_onchain_swapin id (registry st)).1 (claims st).
(** The claim and what follows it: the swap is dropped once the network took it. *)
Definition broadcast_claim (es : Esplora) (s : OnchainSwapIn) (d : ConfirmedDeposit) (dest : list Z) (fee refund_sats : Z)
    (st : SwapState) : option SwapState :=
  r ← make_claim s d dest fee refund_sats;
  Some match r with
       | inr _ => st
       | inl tx => let st := mkState (evm st) (registry st) (claims st ++ [tx]) in
                   if broadcast_ok es tx then remove (swap_id s) st else st
       end.

Definition past_refund (lock : LockTime) (tip : Z) : bool := match lock with Blocks h => h <=? tip | Seconds _ => false end.
Definition drive_one_swap_in (es : Esplora) (dest : list Z) (s : OnchainSwapIn) (tip fee : Z) (st : SwapState) : option SwapState :=
  if past_refund (cltv s) tip then Some (remove (swap_id s) st) else
  match scripthash_txs es (deposit_spk s) with
  | None => Some st
  | Some txs =>
      match find_confirmed_deposit (scan_of txs) (deposit_spk s) tip (cast u32 (min_confirmations cfg)) with
      | None => Some st
      | Some d =>
          match es_inclusion es (op_txid (d_outpoint d)) with
          | None => Some st
          | Some inclusion =>
              let '(w, r) := decide_deposit s d tip inclusion (evm st) in
              let st := mkState w (registry st) (claims st) in
              match r with
              | inl (Some (Claim refund_sats)) => broadcast_claim es s d dest fee refund_sats st
              | _ => Some st
              end
          end
      end
  end.
Fixpoint drive_all (es : Esplora) (dest : list Z) (swaps : list OnchainSwapIn) (tip fee : Z) (st : SwapState) : option SwapState :=
  match swaps with
  | [] => Some st
  | s :: swaps => st ← drive_one_swap_in es dest s tip fee st; drive_all es dest swaps tip fee st
  end.
Definition claim_fee (es : Esplora) : Z := sat u64 (es_feerate es * 111).
Definition drive_swap_in_pass (es : Esplora) (dest : list Z) (st : SwapState) : option SwapState :=
  match es_height es with
  | None => Some st
  | Some tip => drive_all es dest (list_onchain_swapins (registry st)) tip (claim_fee es) st
  end.

(** ** Registration *)
Definition next_index_seed (s : Persisted) : Z :=
  match map swap_index (list_onchain_swapins s) with
  | [] => 0
  | i :: l => cast u32 (fold_left Z.max l i + 1)
  end.
Definition swap_id_of (idx : Z) : list Z := keccak256 (str_bytes "quid-swapin-onchain-v1" ++ to_be_bytes 4 idx).
(** [parse_common]: the price in decimal, and in hexadecimal when that fails. *)
Definition parse_price (s : string) : option Z :=
  match u256_from_str_radix (trim0x s) 10 with Some n => Some n | None => u256_from_str_radix (trim0x s) 16 end.
Inductive ApiError := Unauthorised | BadRequest | BadGateway | Internal.
Definition register_swap_in (auth : bool) (tip : option Z) (idx : Z) (seller token price : string) (sats slippage : Z) (refund : string)
    (p : Persisted) : (Persisted * OnchainSwapIn) + ApiError :=
  if negb auth then inr Unauthorised else
  match (seller ← parse_address seller; token ← parse_address token;
         (if sats =? 0 then None else price ← parse_price price; Some (seller, token, price))) with
  | None => inr BadRequest
  | Some (seller, token, price) =>
      match (ur ← hex_bytes refund; if (length ur =? 32)%nat && xonly_ok ur then Some ur else None) with
      | None => inr BadRequest
      | Some ur =>
          match tip with
          | None => inr BadGateway
          | Some tip =>
              let h := cast u32 (tip + SWAP_IN_CLTV_WINDOW_BLOCKS) in
              if LOCK_TIME_THRESHOLD <=? h then inr BadRequest else
              match deposit_for ur (Blocks h) (terms_commitment seller token (to_be_bytes 32 price) slippage) with
              | inr _ => inr Internal
              | inl spk => let s := mkSwapIn (swap_id_of idx) idx seller token price slippage ur (Blocks h) spk in
                           inl ((add_onchain_swapin s p).1, s)
              end
          end
      end
  end.
End Driver.

(** ** The Lightning rail *)
Record RecentSwapIns := mkRecent { order : list (list Z); recent_set : gset (list Z); cap : nat }.
Definition RECENT_SWAP_IN_CAP : nat := Z.to_nat 4096.
Definition recent_new (cap : nat) : RecentSwapIns := mkRecent [] ∅ cap.
Definition recent_insert (h : list Z) (r : RecentSwapIns) : RecentSwapIns :=
  if bool_decide (h ∈ recent_set r) then r else
  let order := order r ++ [h] in let set := {[h]} ∪ recent_set r in
  if (cap r <? length order)%nat
  then match order with old :: order => mkRecent order (set ∖ {[old]}) (cap r) | [] => mkRecent [] set (cap r) end
  else mkRecent order set (cap r).

Definition swap_in_cltv_headroom_ok (deadline : option Z) (best : Z) : bool :=
  match deadline with Some d => SWAP_IN_MIN_CLTV_HEADROOM_BLOCKS <=? sat u32 (d - best) | None => false end.
(** What is done to the HTLC. *)
Inductive Htlc := ClaimHtlc (preimage : list Z) | FailHtlc (hash : list Z).
Record Sender := mkSender { se_store : Persisted; se_recent : RecentSwapIns; htlcs : list Htlc; acked : list (list Z) }.
Section Lightning.
Context `{T : Text}.
(** [tip] is the answer of the bitcoin node; the result says whether the outcome is definite. *)
Definition handle_one (tip : option Z) (c : ClaimedSwapIn) (waiter : bool) (s : Sender) : Sender * bool :=
  let store := (add_inflight_swapin c (se_store s)).1 in
  let acks := if waiter then acked s ++ [c_payment_hash c] else acked s in
  let defer := (mkSender store (se_recent s) (htlcs s) acks, false) in
  let fail := (mkSender (take_inflight_swapin (c_payment_hash c) store).1 (se_recent s) (htlcs s ++ [FailHtlc (c_payment_hash c)]) acks, true) in
  match c_claim_deadline c with
  | Some deadline =>
      match tip with
      | Some h => if negb (swap_in_cltv_headroom_ok (Some deadline) (cast u32 h)) then fail else fail
      | None => defer
      end
  | None => fail
  end.
Definition remember (h : list Z) (s : Sender) : Sender := mkSender (se_store s) (recent_insert h (se_recent s)) (htlcs s) (acked s).
(** One message of the receiver, or of the records re-driven at boot when [live] is false. *)
Definition receive (live : bool) (m : option Z * ClaimedSwapIn) (s : Sender) : Sender :=
  let '(tip, c) := m in let h := c_payment_hash c in
  if bool_decide (h ∈ recent_set (se_recent s))
  then if live then mkSender (se_store s) (se_recent s) (htlcs s) (acked s ++ [h]) else s
  else let '(s, definite) := handle_one tip c live s in if definite : bool then remember h s else s.
Definition run_swap_in_sender (tip : option Z) (msgs : list (option Z * ClaimedSwapIn)) (store : Persisted) : Sender :=
  let s := mkSender store (recent_new RECENT_SWAP_IN_CAP) [] [] in
  let s := fold_left (fun s c => receive false (tip, c) s) (list_inflight_swapins store) s in
  fold_left (fun s m => receive true m s) msgs s.
End Lightning.

(** * Properties *)

(** ** One deposit address on both sides *)
Lemma shiftr8 v k : 0 <= k -> Z.shiftr v (8 * k) = v / 256 ^ k.
Proof. intros Hk. rewrite Z.shiftr_div_pow2 by lia. by rewrite Z.pow_mul_r by lia. Qed.
Lemma land255 v : Z.land v 255 = v mod 256.
Proof. change 255 with (Z.ones 8). rewrite Z.land_ones by lia. done. Qed.
Lemma land128 b : 0 <= b < 256 -> negb (Z.land b 128 =? 0) = (128 <=? b).
Proof.
  intros Hb. assert (Forall (fun b => negb (Z.land b 128 =? 0) = (128 <=? b)) (map Z.of_nat (seq 0 256))) as H
    by (by vm_compute; repeat constructor).
  rewrite Forall_forall in H. apply H. apply list_elem_of_In, in_map_iff. exists (Z.to_nat b). split; [lia|]. apply in_seq. lia.
Qed.
Lemma le_minimal_seq fuel v : 0 <= v ->
  le_minimal fuel v = map (fun i => v / 256 ^ Z.of_nat i mod 256) (seq 0 (sol_bytes fuel v)).
Proof.
  revert v. induction fuel as [|fuel IH]; intros v Hv; [done|]. cbn [le_minimal sol_bytes].
  destruct (Z.eqb_spec v 0); [done|]. cbn [seq map]. change (256 ^ Z.of_nat 0) with 1. rewrite Z.div_1_r. f_equal.
  rewrite Z.shiftr_div_pow2 by lia. change (2 ^ 8) with 256. rewrite IH by (apply Z.div_pos; lia).
  rewrite <-seq_shift, map_map. apply map_ext. intros i.
  rewrite Z.div_div by lia. by rewrite Nat2Z.inj_succ, Z.pow_succ_r by lia.
Qed.
Lemma sol_bytes_fuel f g v : 0 <= v < 256 ^ Z.of_nat f -> 0 <= v < 256 ^ Z.of_nat g -> sol_bytes f v = sol_bytes g v.
Proof.
  revert g v. induction f as [|f IH]; intros g v Hf Hg; [replace v with 0 by (cbn in Hf; lia); by destruct g|].
  destruct g as [|g]; [replace v with 0 by (cbn in Hg; lia); done|]. cbn [sol_bytes]. destruct (v =? 0); [done|]. f_equal.
  rewrite Z.shiftr_div_pow2 by lia. change (2 ^ 8) with 256. rewrite Nat2Z.inj_succ, Z.pow_succ_r in Hf, Hg by lia.
  apply IH; (split; [apply Z.div_pos; lia|apply Z.div_lt_upper_bound; lia]).
Qed.
Lemma script_number_agrees v : 0 < v <= imax u32 -> sol_scriptNum v = script_number v.
Proof.
  cbn [imax u32]. intros Hv. unfold sol_scriptNum, script_number. rewrite (proj2 (Z.eqb_neq v 0)) by lia.
  rewrite le_minimal_seq by lia. rewrite (sol_bytes_fuel 8 5 v) by (cbn; lia).
  assert (exists n, sol_bytes 5 v = S n) as [n ->] by (cbn [sol_bytes]; rewrite (proj2 (Z.eqb_neq v 0)) by lia; eauto).
  assert (map (fun i => Z.land (Z.shiftr v (8 * Z.of_nat i)) 255) (seq 0 (S n)) =
          map (fun i => v / 256 ^ Z.of_nat i mod 256) (seq 0 (S n))) as ->.
  { apply map_ext. intros i. by rewrite shiftr8, land255 by lia. }
  rewrite !shiftr8, land255 by lia. replace (Z.of_nat (S n) - 1) with (Z.of_nat n) by lia.
  rewrite land128 by (apply Z.mod_pos_bound; lia).
  assert (last (map (fun i => v / 256 ^ Z.of_nat i mod 256) (seq 0 (S n))) = Some (v / 256 ^ Z.of_nat n mod 256)) as ->.
  { rewrite seq_S, map_app. apply last_snoc. }
  destruct (128 <=? _); [done|by rewrite app_nil_r].
Qed.

Section DepositFacts.
Context `{BL : BitcoinLaws}.

Lemma be_bytes_pad n m x : 0 <= x < 256 ^ Z.of_nat m -> to_be_bytes (n + m) x = replicate n 0 ++ to_be_bytes m x.
Proof.
  intros Hx. assert (Forall byte_ok (replicate n 0 ++ to_be_bytes m x)) as Hb.
  { apply Forall_app_2; [apply Forall_replicate; unfold byte_ok; lia|apply to_be_bytes_ok]. }
  pose proof (be_encode_decode _ Hb) as E. rewrite length_app, length_replicate, to_be_length, from_be_zeros in E.
  by rewrite be_decode_encode in E.
Qed.
Lemma terms_agree seller token price slippage : 0 <= slippage <= imax u16 ->
  terms_commitment seller token (to_be_bytes 32 price) slippage = sol_termsCommitment seller token price slippage.
Proof.
  cbn [imax u16]. intros Hs. unfold terms_commitment, sol_termsCommitment, address_word.
  change (to_be_bytes 32 slippage) with (to_be_bytes (30 + 2) slippage).
  rewrite (be_bytes_pad 30 2 slippage) by (change (256 ^ Z.of_nat 2) with 65536; lia). by rewrite <-!app_assoc.
Qed.

(** The address a seller is told is the one the contract looks for, for every height above 16.
    Below, the two encodings of the number differ; no such height is ever used. *)
Lemma deposit_address_agrees internal seller token price slippage refund h : 16 < h <= imax u32 -> 0 <= slippage <= imax u16 ->
  deposit_address internal refund (Blocks h) (terms_commitment seller token (to_be_bytes 32 price) slippage) =
  sol_swapInDepositScript internal seller token price slippage refund h.
Proof.
  intros Hh Hs. unfold deposit_address, sol_swapInDepositScript, refund_leaf, sol_cltvRefundLeaf. cbn [to_consensus_u32].
  rewrite terms_agree, push_number, script_number_agrees by lia. done.
Qed.
Lemma small_height_differs seller token price slippage refund h : 1 <= h <= 16 -> 0 <= slippage <= imax u16 ->
  refund_leaf refund (Blocks h) (terms_commitment seller token (to_be_bytes 32 price) slippage) <>
  sol_cltvRefundLeaf seller token price slippage refund h.
Proof.
  intros Hh Hs E. apply (f_equal length) in E. unfold refund_leaf, sol_cltvRefundLeaf in E. cbn [to_consensus_u32] in E.
  rewrite terms_agree, push_small, script_number_agrees in E by lia || (cbn; lia). revert E.
  cbn [app length]. rewrite !length_app. cbn [app length]. rewrite !length_app. cbn [app length]. rewrite !length_app. cbn [app length].
  assert (1 <= length (script_number h))%nat as Hl.
  { unfold script_number. cbn [le_minimal]. rewrite (proj2 (Z.eqb_neq h 0)) by lia. case_match; rewrite ?length_app; cbn [length]; lia. }
  lia.
Qed.
Lemma floor_agrees sats price slippage f : 0 <= sats -> 0 <= price -> 0 <= slippage <= imax u16 ->
  sol_settleFloorUsd price slippage sats = Some f -> swap_in_floor_usd sats price slippage = f.
Proof.
  cbn [imax u16]. intros H1 H2 H3. unfold sol_settleFloorUsd, swap_in_floor_usd, u256_mul.
  destruct (Z.leb_spec (2 ^ 256) (sats * price)) as [|Ha]; [done|]. cbn [mbind option_bind].
  assert (sat u16 (10000 - Z.min slippage 10000) = if 10000 <=? slippage then 0 else 10000 - slippage) as ->.
  { unfold sat. cbn [imin imax u16]. destruct (Z.leb_spec 10000 slippage); lia. }
  rewrite (Z.mod_small (sats * price)) by (split; [apply Z.mul_nonneg_nonneg; lia|done]).
  set (k := if 10000 <=? slippage then 0 else 10000 - slippage). assert (0 <= k) by (subst k; destruct (Z.leb_spec 10000 slippage); lia).
  clearbody k. assert (0 <= sats * price / 100000000) by (apply Z.div_pos; nia).
  destruct (Z.leb_spec (2 ^ 256) (sats * price / 100000000 * k)) as [|Hb]; [done|]. cbn [mbind option_bind]. intros [= <-].
  by rewrite Z.mod_small by nia.
Qed.

(** The claim carries a signature that the deposit's own script accepts. *)
Lemma claim_spends_deposit refund lock terms spk tx deposit tx' : deposit_for refund lock terms = inl spk ->
  sign_claim refund lock tx deposit terms = inl tx' -> btc_input tx <> [] ->
  exists q h sig, spk = 81 :: 32 :: q /\ taproot_key_spend_sighash tx deposit = Some h /\ schnorr_verify q h sig = true /\
    in_witness <$> head (btc_input tx') = Some [sig].
Proof.
  unfold deposit_for, sign_claim. destruct derive_deposit_key as [k|]; [|done]. intros [= <-].
  destruct (taproot_key_spend_sighash tx deposit) as [h|] eqn:E; [|done]. intros [= <-] Hi.
  eexists _, h, _. split_and!; [done..|apply tweaked_verifies|].
  unfold with_witness. cbn [btc_input]. by destruct (btc_input tx).
Qed.
End DepositFacts.

(** ** What is claimed *)
Lemma find_spec outs spk tip confs d : find_confirmed_deposit outs spk tip confs = Some d ->
  exists o, o ∈ outs /\ d = mkDeposit (sc_outpoint o) (sc_value o) /\ sc_spk o = spk /\ 0 < sc_value o /\
    buried tip confs (sc_height o) = true.
Proof.
  unfold find_confirmed_deposit. set (cands := List.filter _ _).
  destruct (merge_sort before cands) as [|o l] eqn:E; [done|]. cbn [head mbind option_bind]. intros [= <-].
  assert (o ∈ cands) as Ho by (rewrite <-(merge_sort_Permutation before cands), E; apply list_elem_of_here).
  apply list_elem_of_In in Ho. subst cands. apply filter_In in Ho as [Ho Hb]. apply filter_In in Ho as [Ho Hs].
  apply andb_prop in Hs as [Hs Hv]. apply bool_decide_eq_true in Hs. exists o. split_and!; try done; [by apply list_elem_of_In|lia].
Qed.
Lemma digit_value_range c d : digit_value c = Some d -> 0 <= d < 16.
Proof. unfold digit_value. repeat case_match; intros [= <-]; rewrite ?andb_true_iff, ?Z.leb_le in *; lia. Qed.
Lemma hex_decode_bytes n s l : (String.length s <= n)%nat -> hex_decode s = Some l -> Forall byte_ok l.
Proof.
  revert s l. induction n as [|n IH]; intros s l Hn; destruct s as [|a [|b s]]; cbn [hex_decode String.length] in *; try lia;
    try done; try (by intros [= <-]).
  destruct (digit_value a) as [x|] eqn:Ea; [|done]. destruct (digit_value b) as [y|] eqn:Eb; [|done].
  destruct (hex_decode s) as [l'|] eqn:E; [|done]. cbn [mbind option_bind]. intros [= <-].
  apply digit_value_range in Ea. apply digit_value_range in Eb. constructor; [unfold byte_ok; lia|]. apply (IH s); [lia|done].
Qed.
Lemma decode_consumed_nonneg logs sats c : 0 <= sats -> decode_consumed_from_logs logs sats = Some c -> 0 <= c.
Proof.
  intros Hs. unfold decode_consumed_from_logs. destruct (as_array logs) as [arr|]; [|done]. cbn [mbind option_bind].
  intros (log & _ & H)%first_some_spec. unfold consumed_of in H.
  destruct (get_key log "data") as [d|]; [|done]. cbn [mbind option_bind] in H.
  destruct (as_str d) as [s|]; [|done]. cbn [mbind option_bind] in H.
  destruct (hex_bytes s) as [data|] eqn:E; [|done]. cbn [mbind option_bind] in H. apply (hex_decode_bytes _ _ _ (le_n _)) in E.
  destruct (length data <? 64)%nat; [done|]. unfold word_to_u64 in H. destruct (_ <? 32)%nat; [done|].
  destruct (imax u64 <? _); [done|]. cbn [mbind option_bind] in H. injection H as <-.
  assert (Forall byte_ok (take 32 (take 32 (drop 32 data)))) as Hb by (by apply Forall_take, Forall_take, Forall_drop).
  pose proof (from_be_range _ Hb). lia.
Qed.

Section ClaimFacts.
Context `{BL : BitcoinLaws} `{T : Text}.
Variable r : nat -> QuorumJsonRpc.
Variable truth : string -> Value -> Value.
Hypothesis quorum_pos : forall n, (1 <= quorum (r n))%nat.
Hypothesis few_liars : forall n method params, classify method params = Agreement ->
  (against (truth method params) (values method params (endpoints (r n))) < quorum (r n))%nat.
Variable keccak256 : list Z -> list Z.
Variable address : list Z.
Variable sign : TxFields -> list Z + string.
Variable cfg : BridgeConfig.

(** The contract has paid for [c] of the satoshis of the deposit. *)
Definition settled (txid : list Z) (sats c : Z) : Prop :=
  exists b from to, true_view truth keccak256 Store.show_address cfg "swapInUsed(bytes32)" txid b = Some true /\
    true_consumed truth keccak256 Store.show_address cfg txid from to sats = Some c.
(** A claim the hop may make for a swap: it spends one buried output that pays its address, at least 72 blocks before the seller's refund opens, after the contract
    paid for [c] satoshis of it; what the contract did not pay for goes back to the seller,
    unless it is dust. *)
Definition backed (es : Esplora) (dest : list Z) (tip : Z) (s : OnchainSwapIn) (tx : BtcTx) : Prop :=
  exists o h c v back,
    (exists txs, scripthash_txs es (deposit_spk s) = Some txs /\ o ∈ scan_of txs) /\
    sc_spk o = deposit_spk s /\ buried tip (cast u32 (min_confirmations cfg)) (sc_height o) = true /\
    cltv s = Blocks h /\ tip + 72 <= h /\
    settled (op_txid (sc_outpoint o)) (sc_value o) c /\ 0 <= c <= sc_value o /\
    map previous_output (btc_input tx) = [sc_outpoint o] /\
    btc_output tx = mkOut v dest :: back /\ v + claim_fee es + sumZ out_value back = sc_value o /\
    ((back = [mkOut (sc_value o - c) (new_p2tr (user_refund s))]) \/
     (back = [] /\ sc_value o - c < minimal_non_dust (new_p2tr (user_refund s)))).

Lemma decide_claims s d best inclusion w w' rs : 0 <= d_value d <= imax u64 ->
  decide_deposit (quorum_rpc r) keccak256 address sign cfg s d best inclusion w = (w', inl (Some (Claim rs))) ->
  exists h c, cltv s = Blocks h /\ best + 72 <= h /\ settled (op_txid (d_outpoint d)) (d_value d) c /\
    0 <= c <= d_value d /\ rs = d_value d - c.
Proof.
  intros Hv. unfold decide_deposit. destruct (cltv_headroom_ok (cltv s) best) eqn:Hh; [|done]. cbn [negb].
  destruct (cltv s) as [h|]; [|done]. unfold cltv_headroom_ok in Hh. destruct (Z.ltb_spec h best); [done|].
  unfold ONCHAIN_SWAP_IN_MIN_CLTV_HEADROOM_BLOCKS, SWAP_IN_MIN_CLTV_HEADROOM_BLOCKS in Hh. apply Z.leb_le in Hh.
  intros E. apply bind_inl in E as (w1 & out & Hout & E). unfold settle in Hout.
  apply (settlement_true r truth quorum_pos few_liars) in Hout.
  assert (forall c from to, true_consumed truth keccak256 Store.show_address cfg (op_txid (d_outpoint d)) from to (d_value d) = Some c ->
    0 <= c) as Hpos by (intros c from to Hc; exact (decode_consumed_nonneg _ _ _ (proj1 Hv) Hc)).
  destruct out as [c|c|]; cbn [outcome_action] in E; [| |done]; injection E as _ <-.
  - destruct Hout as (b & Hu & Hc & Hle). pose proof (Hpos _ _ _ Hc). exists h, c.
    split_and!; try done; try lia; [by exists b, b, b|]. unfold sat. cbn [imin imax u64] in *. lia.
  - destruct Hout as (b & from & to & Hu & Hc & Hle). pose proof (Hpos _ _ _ Hc). exists h, c.
    split_and!; try done; try lia; [by exists b, from, to|]. unfold sat. cbn [imin imax u64] in *. lia.
Qed.
Lemma claim_outputs s d dest fee rs tx : make_claim s d dest fee rs = Some (inl tx) ->
  exists v back, map previous_output (btc_input tx) = [d_outpoint d] /\ btc_output tx = mkOut v dest :: back /\
    v + fee + sumZ out_value back = d_value d /\
    ((back = [mkOut rs (new_p2tr (user_refund s))]) \/ (back = [] /\ rs < minimal_non_dust (new_p2tr (user_refund s)))).
Proof.
  unfold make_claim, build_claim_tx_with_refund, amount_sub.
  destruct (Z.ltb_spec (d_value d) fee); [done|]. cbn [mbind option_bind].
  destruct (_ <? match claim_refund s rs with Some r => out_value r | None => 0 end); [done|]. cbn [mbind option_bind].
  intros [= E]. unfold sign_claim in E. destruct derive_deposit_key as [k|]; [|done].
  destruct (taproot_key_spend_sighash _ _); [|done]. injection E as <-. cbn [with_witness btc_input btc_output map previous_output].
  eexists _, _. split; [done|]. split; [done|].
  pose proof (dust_positive (new_p2tr (user_refund s))). unfold claim_refund.
  destruct (Z.eqb_spec rs 0) as [->|]; [cbn [sumZ]; split; [cbn; lia|right; split; [done|lia]]|].
  destruct (Z.ltb_spec rs (minimal_non_dust (new_p2tr (user_refund s)))); [split; [cbn; lia|by right]|].
  split; [cbn; lia|by left].
Qed.
Lemma scan_value txs o : o ∈ scan_of txs -> exists tx x, tx ∈ txs /\ x ∈ e_vout tx /\ sc_value o = out_value x.
Proof.
  unfold scan_of. rewrite list_elem_of_In, in_concat. intros (l & Hl & Ho). apply in_map_iff in Hl as (tx & <- & Htx).
  apply list_elem_of_In, elem_of_lookup_imap_1 in Ho as (i & x & -> & Hx). exists tx, x.
  split_and!; [by apply list_elem_of_In|by eapply list_elem_of_lookup_2|done].
Qed.
(** Values of the explorer are amounts. *)
Definition explorer_ok (es : Esplora) : Prop := forall spk txs tx o,
  scripthash_txs es spk = Some txs -> tx ∈ txs -> o ∈ e_vout tx -> 0 <= out_value o <= imax u64.

Lemma drive_one_backed es dest s tip st st' : explorer_ok es ->
  drive_one_swap_in (quorum_rpc r) keccak256 address sign cfg es dest s tip (claim_fee es) st = Some st' ->
  exists l, claims st' = claims st ++ l /\ Forall (backed es dest tip s) l /\
    (registry st' = registry st \/
     registry st' = (remove_onchain_swapin (swap_id s) (registry st)).1 /\
     (past_refund (cltv s) tip = true \/ exists tx, l = [tx] /\ backed es dest tip s tx /\ broadcast_ok es tx = true)).
Proof.
  intros Hes. unfold drive_one_swap_in. destruct (past_refund (cltv s) tip) eqn:Hp.
  { intros [= <-]. exists []. rewrite app_nil_r. split_and!; [done..|]. right. split; [done|by left]. }
  assert (forall a w, Some (mkState w (registry st) (claims st)) = Some a -> exists l, claims a = claims st ++ l /\ Forall (backed es dest tip s) l /\
    (registry a = registry st \/ registry a = (remove_onchain_swapin (swap_id s) (registry st)).1 /\
      (false = true \/ exists tx, l = [tx] /\ backed es dest tip s tx /\ broadcast_ok es tx = true))) as Hsame.
  { intros a w [= <-]. exists []. rewrite app_nil_r. split_and!; [done..|by left]. }
  destruct (scripthash_txs es (deposit_spk s)) as [txs|] eqn:Etx; [|destruct st; apply Hsame].
  destruct (find_confirmed_deposit _ _ _ _) as [d|] eqn:Ed; [|destruct st; apply Hsame].
  destruct (es_inclusion es _) as [inc|]; [|destruct st; apply Hsame].
  destruct (decide_deposit _ _ _ _ _ s d tip inc (evm st)) as [w res] eqn:E.
  destruct res as [[[rs|]|]|e]; [|apply Hsame..].
  apply find_spec in Ed as (o & Ho & -> & Hspk & Hpos & Hb).
  destruct (scan_value _ _ Ho) as (tx0 & x & Htx & Hx & Hval). pose proof (Hes _ _ _ _ Etx Htx Hx) as Hr. rewrite <-Hval in Hr.
  apply decide_claims in E as (h & c & Hc & Hh & Hset & Hle & ->); [|done]. cbn [d_outpoint d_value] in *.
  unfold broadcast_claim. destruct (make_claim _ _ _ _ _) as [[tx|e]|] eqn:Em; [|cbn [mbind option_bind]; apply Hsame|done].
  cbn [mbind option_bind]. intros [= <-].
  apply claim_outputs in Em as (v & back & Hin & Hout & Hsum & Hback). cbn [d_outpoint d_value] in *.
  assert (backed es dest tip s tx) as Hbk.
  { exists o, h, c, v, back. split_and!; try done; [by exists txs|lia..]. }
  exists [tx]. destruct (broadcast_ok es tx) eqn:Eb; cbn [remove claims registry evm]; split_and!; try done; try (by constructor).
  right. split; [done|]. right. by exists tx.
Qed.

(** A swap that left the registry was past its refund height, or claimed by a transaction the
    network took. *)
Definition left_properly (es : Esplora) (dest : list Z) (tip : Z) (swaps : list OnchainSwapIn) (l : list BtcTx) (k : string) : Prop :=
  exists s, s ∈ swaps /\ key (swap_id s) = k /\
    (past_refund (cltv s) tip = true \/ exists tx, tx ∈ l /\ backed es dest tip s tx /\ broadcast_ok es tx = true).
Lemma drive_all_backed es dest tip swaps st st' : explorer_ok es ->
  drive_all (quorum_rpc r) keccak256 address sign cfg es dest swaps tip (claim_fee es) st = Some st' ->
  exists l, claims st' = claims st ++ l /\ Forall (fun tx => exists s, s ∈ swaps /\ backed es dest tip s tx) l /\
    forall k, onchain_swapins (registry st') !! k = onchain_swapins (registry st) !! k \/ left_properly es dest tip swaps l k.
Proof.
  intros Hes. revert st. induction swaps as [|s swaps IH]; intros st; cbn [drive_all].
  { intros [= <-]. exists []. rewrite app_nil_r. split_and!; [done..|]. intros k. by left. }
  destruct (drive_one_swap_in _ _ _ _ _ _ _ _ _ _ st) as [st1|] eqn:E; [|done]. cbn [mbind option_bind]. intros E2.
  apply drive_one_backed in E as (l1 & Hc1 & Hf1 & Hr1); [|done]. destruct (IH st1 E2) as (l2 & Hc2 & Hf2 & Hr2).
  exists (l1 ++ l2). rewrite Hc2, Hc1, app_assoc. split; [done|]. split.
  { apply Forall_app_2; eapply Forall_impl; [exact Hf1| |exact Hf2|].
    - intros tx Hb. exists s. split; [apply list_elem_of_here|done].
    - intros tx (s' & Hs' & Hb). exists s'. split; [by apply list_elem_of_further|done]. }
  intros k. destruct (Hr2 k) as [E|(s' & Hs' & Hk & Hl)].
  - rewrite E. destruct Hr1 as [->|[-> Hl]]; [by left|]. unfold remove_onchain_swapin.
    destruct (onchain_swapins (registry st) !! key (swap_id s)) eqn:El; [|by left]. cbn [fst onchain_swapins with_onchain].
    destruct (decide (key (swap_id s) = k)) as [Hk|Hk]; [|left; by rewrite lookup_delete_ne]. right. exists s.
    split_and!; [apply list_elem_of_here|done|]. destruct Hl as [Hl|(tx & -> & Hb & Ha)]; [by left|right].
    exists tx. split_and!; [apply list_elem_of_here|done..].
  - right. exists s'. split_and!; [by apply list_elem_of_further|done|]. destruct Hl as [Hl|(tx & Htx & Hb)]; [by left|right].
    exists tx. split; [apply elem_of_app; by right|done].
Qed.

(** C29: whatever the explorer shows and whichever minority of the Ethereum endpoints lies, a
    pass of the watcher claims only deposits the contract has paid for: each claim spends one
    buried output of a registered swap, at least 72 blocks before the seller could take it
    back, and returns to the seller what was not paid for, up to dust.  A swap is forgotten
    only after the network took such a claim, or when the refund is open. *)
Theorem swap_in_claims_backed es dest tip st st' : explorer_ok es -> es_height es = Some tip ->
  drive_swap_in_pass (quorum_rpc r) keccak256 address sign cfg es dest st = Some st' ->
  let swaps := list_onchain_swapins (registry st) in
  exists l, claims st' = claims st ++ l /\ Forall (fun tx => exists s, s ∈ swaps /\ backed es dest tip s tx) l /\
    forall k, onchain_swapins (registry st') !! k = onchain_swapins (registry st) !! k \/ left_properly es dest tip swaps l k.
Proof. intros Hes Ht. unfold drive_swap_in_pass. rewrite Ht. by apply drive_all_backed. Qed.
End ClaimFacts.

(** ** Where a deposit is lost

    Once fewer than 72 blocks are left, the watcher does nothing for a swap, also when the
    contract has already paid: a settlement whose claim was not taken by then is never claimed,
    and the seller keeps dollars and bitcoin. *)
Lemma headroom_closed_no_claim `{Bitcoin} `{Text} rpc keccak256 address sign cfg es dest s tip fee st st' :
  cltv_headroom_ok (cltv s) tip = false ->
  drive_one_swap_in rpc keccak256 address sign cfg es dest s tip fee st = Some st' -> claims st' = claims st.
Proof.
  intros Hh. unfold drive_one_swap_in. destruct (past_refund (cltv s) tip); [by intros [= <-]|].
  destruct (scripthash_txs es (deposit_spk s)); [|by intros [= <-]].
  destruct (find_confirmed_deposit _ _ _ _); [|by intros [= <-]].
  destruct (es_inclusion es _); [|by intros [= <-]]. unfold decide_deposit. rewrite Hh. cbn [negb]. by intros [= <-].
Qed.
Lemma headroom_stays_closed lock tip tip' : tip <= tip' -> cltv_headroom_ok lock tip = false -> cltv_headroom_ok lock tip' = false.
Proof.
  destruct lock as [h|]; [|done]. unfold cltv_headroom_ok. intros Ht.
  destruct (Z.ltb_spec h tip), (Z.ltb_spec h tip'); try done; rewrite ?Z.leb_gt; lia.
Qed.
(** A claim that cannot pay its fee and the refund panics. *)
Lemma claim_panics `{Bitcoin} `{Text} s d dest fee rs :
  d_value d < fee + match claim_refund s rs with Some o => out_value o | None => 0 end ->
  make_claim s d dest fee rs = None.
Proof.
  intros Hv. unfold make_claim, build_claim_tx_with_refund, amount_sub. destruct (Z.ltb_spec (d_value d) fee); [done|].
  cbn [mbind option_bind]. destruct (Z.ltb_spec (d_value d - fee) (match claim_refund s rs with Some o => out_value o | None => 0 end)); [done|lia].
Qed.
(** The next index is computed from the swaps still registered: after the last one is served
    and the process restarts, the indices begin again. *)
Lemma index_reused `{Text} w : next_index_seed (remove_onchain_swapin (swap_id w) (add_onchain_swapin w persisted_default).1).1 = 0.
Proof.
  unfold remove_onchain_swapin, add_onchain_swapin. cbn [fst onchain_swapins with_onchain persisted_default].
  rewrite lookup_insert_eq. cbn [fst]. unfold next_index_seed, list_onchain_swapins. cbn [onchain_swapins with_onchain].
  by rewrite delete_insert_id, map_to_list_empty.
Qed.

(** ** The Lightning rail takes no bitcoin *)
Record recent_ok (r : RecentSwapIns) : Prop := {
  ro_set : forall h, h ∈ recent_set r <-> h ∈ order r; ro_nodup : NoDup (order r); ro_cap : (length (order r) <= cap r)%nat }.
Lemma recent_insert_ok h r : (0 < cap r)%nat -> recent_ok r ->
  recent_ok (recent_insert h r) /\ cap (recent_insert h r) = cap r /\ h ∈ recent_set (recent_insert h r).
Proof.
  intros Hc [Hs Hn Hl]. unfold recent_insert. destruct (bool_decide_reflect (h ∈ recent_set r)) as [Hin|Hin]; [done|].
  assert (h ∉ order r) as Hno by (by rewrite <-Hs).
  destruct (Nat.ltb_spec (cap r) (length (order r ++ [h]))) as [Hlt|Hge].
  - destruct (order r) as [|old l] eqn:Eo; [cbn [length app] in Hlt; lia|]. cbn [app]. cbn [app length] in Hlt. rewrite length_app in Hlt. cbn [length] in *.
    apply NoDup_cons in Hn as [Hold Hn]. rewrite not_elem_of_cons in Hno. destruct Hno as [Hne Hno].
    split_and!; [constructor; cbn [recent_set order cap]|done|cbn [recent_set]; set_solver].
    + intros x. rewrite elem_of_difference, elem_of_union, !elem_of_singleton, Hs, elem_of_cons, elem_of_app, list_elem_of_singleton.
      split; [tauto|]. intros [Hx|Hx]; (split; [tauto|]); congruence.
    + apply NoDup_app. split_and!; [done|intros x Hx; rewrite list_elem_of_singleton; congruence|apply NoDup_singleton].
    + rewrite length_app. cbn [length]. lia.
  - split_and!; [constructor; cbn [recent_set order cap]|done|cbn [recent_set]; set_solver].
    + intros x. rewrite elem_of_union, elem_of_singleton, Hs, elem_of_app, list_elem_of_singleton. tauto.
    + apply NoDup_app. split_and!; [done|intros x Hx; rewrite list_elem_of_singleton; congruence|apply NoDup_singleton].
    + lia.
Qed.
Definition is_fail (a : Htlc) : bool := match a with FailHtlc _ => true | ClaimHtlc _ => false end.
Section LightningFacts.
Context `{T : Text}.
(** A message is failed back and forgotten, or kept in the store with its HTLC untouched. *)
Lemma handle_one_spec tip c waiter s : let '(s', definite) := handle_one tip c waiter s in
  htlcs s' = htlcs s ++ (if definite : bool then [FailHtlc (c_payment_hash c)] else []) /\
  acked s' = acked s ++ (if waiter : bool then [c_payment_hash c] else []) /\
  inflight_swapins (se_store s') !! key (c_payment_hash c) = (if definite : bool then None else Some (SwapInRec_of c)) /\
  (definite = false <-> is_Some (c_claim_deadline c) /\ tip = None).
Proof.
  unfold handle_one, take_inflight_swapin, add_inflight_swapin. cbn [fst inflight_swapins with_inflight se_store].
  rewrite lookup_insert_eq. cbn [fst].
  destruct (c_claim_deadline c) as [dl|]; [destruct tip as [h|]|];
    [destruct (negb _)| |]; cbn [htlcs acked se_store inflight_swapins with_inflight]; rewrite ?app_nil_r, ?lookup_delete_eq, ?lookup_insert_eq;
    (split_and!; [done|by destruct waiter; rewrite ?app_nil_r|done|split; [done|by intros [[] ?]]]) ||
    (split_and!; [done|by destruct waiter; rewrite ?app_nil_r|done|split; [by eauto|done]]).
Qed.
Lemma receive_fails live m s : forallb is_fail (htlcs s) = true -> forallb is_fail (htlcs (receive live m s)) = true.
Proof.
  destruct m as [tip c]. intros Hs. unfold receive. case_bool_decide; [by destruct live|].
  pose proof (handle_one_spec tip c live s) as H1. destruct (handle_one tip c live s) as [s' definite]. destruct H1 as (Hh & _).
  destruct definite; cbn [remember htlcs]; rewrite Hh, forallb_app, Hs; done.
Qed.
Lemma lightning_never_claims tip msgs store : forallb is_fail (htlcs (run_swap_in_sender tip msgs store)) = true.
Proof.
  unfold run_swap_in_sender.
  assert (forall live l s, forallb is_fail (htlcs s) = true ->
    forallb is_fail (htlcs (fold_left (fun s m => receive live m s) l s)) = true) as Hfold.
  { intros live l. induction l as [|m l IH]; intros s Hs; [done|]. apply IH. by apply receive_fails. }
  apply Hfold.
  assert (forall l s, fold_left (fun s c => receive false (tip, c) s) l s = fold_left (fun s m => receive false m s) (map (pair tip) l) s) as ->.
  { intros l. induction l as [|c l IH]; intros s; [done|]. cbn [fold_left map]. by rewrite IH. }
  by apply Hfold.
Qed.
End LightningFacts.

(** ** Samples *)
Module SwapInSample.
#[export] Instance bitcoin : Bitcoin := {|
  sha256 := fun l => to_be_bytes 32 (from_be_bytes l mod 65521);
  push_int := fun n => if n =? 0 then [0] else if n <=? 16 then [80 + n] else Z.of_nat (length (script_number n)) :: script_number n;
  tap_output_key := fun internal leaf => to_be_bytes 32 (from_be_bytes internal + from_be_bytes leaf mod 65521);
  derive_priv := fun _ => Some 7;
  x_only := fun k => to_be_bytes 32 k;
  taproot_key_spend_sighash := fun _ _ => Some [1];
  sign_tweaked := fun k _ _ => [k];
  schnorr_verify := fun _ _ sig => bool_decide (length sig = 1%nat);
  new_p2tr := fun k => 81 :: 32 :: k;
  minimal_non_dust := fun _ => 5 |}.
#[export] Instance bitcoin_laws : BitcoinLaws bitcoin.
Proof.
  constructor; cbn [push_int schnorr_verify sign_tweaked minimal_non_dust bitcoin]; [done| | |done|done].
  - intros n Hn. by rewrite (proj2 (Z.eqb_neq _ _)), (proj2 (Z.leb_le _ _)) by lia.
  - intros n Hn. by rewrite (proj2 (Z.eqb_neq _ _)), (proj2 (Z.leb_gt _ _)) by lia.
Qed.
#[local] Existing Instance StoreSample.text.
Definition swap : OnchainSwapIn :=
  mkSwapIn (replicate 32 1) 0 (replicate 20 2) (replicate 20 3) 50000000000 100 (replicate 32 4) (Blocks 900) (81 :: 32 :: replicate 32 5).
Definition pay (v : Z) : BtcOut := mkOut v (deposit_spk swap).
Definition explorer (tip rate : Z) (outs : list BtcOut) (ok : bool) : Esplora :=
  mkEsplora (Some tip) rate (fun _ => Some [mkETx ClientSample.txid outs (Some 700)])
    (fun _ => Some ClientSample.inclusion) (fun _ => ok).
Definition start : SwapState := mkState ClientSample.start (add_onchain_swapin swap persisted_default).1 [].
Definition pass (es : Esplora) : SwapState -> option SwapState :=
  drive_swap_in_pass (quorum_rpc (ClientSample.net ClientSample.honest)) ClientSample.hash [] ClientSample.sign TransportSample.cfg es [9].
Definition end_of (o : option SwapState) : SwapState := default start o.
End SwapInSample.
#[local] Existing Instances StoreSample.text SwapInSample.bitcoin SwapInSample.bitcoin_laws.

Lemma swap_in_claims_backed_witness :
  let es := SwapInSample.explorer 800 0 [SwapInSample.pay 50] true in
  let st' := SwapInSample.end_of (SwapInSample.pass es SwapInSample.start) in
  length (claims st') = 1%nat /\
  exists l, claims st' = [] ++ l /\
    Forall (fun tx => exists s, s ∈ list_onchain_swapins (registry SwapInSample.start) /\
      backed ClientSample.truth ClientSample.hash TransportSample.cfg es [9] 800 s tx) l /\
    forall k, onchain_swapins (registry st') !! k = onchain_swapins (registry SwapInSample.start) !! k \/
      left_properly ClientSample.truth ClientSample.hash TransportSample.cfg es [9] 800 (list_onchain_swapins (registry SwapInSample.start)) l k.
Proof.
  split; [by vm_compute|].
  refine (swap_in_claims_backed (ClientSample.net ClientSample.honest) ClientSample.truth ltac:(cbn; lia)
    (ClientSample.few_liars ClientSample.honest) ClientSample.hash [] ClientSample.sign TransportSample.cfg
    (SwapInSample.explorer 800 0 [SwapInSample.pay 50] true) [9] 800 SwapInSample.start _ _ eq_refl _).
  - intros spk txs tx o [= <-] Htx Ho. apply list_elem_of_singleton in Htx as ->. cbn [e_vout] in Ho.
    apply list_elem_of_singleton in Ho as ->. cbn [SwapInSample.pay out_value imax u64]. lia.
  - by vm_compute.
Defined.

(** A deposit below the fee of its claim ends the process, in every pass from then on. *)
Lemma small_deposit_panics : SwapInSample.pass (SwapInSample.explorer 800 1 [SwapInSample.pay 50] true) SwapInSample.start = None.
Proof. by vm_compute. Qed.
(** A settlement at the last admissible height, whose claim the network refuses, is never
    claimed: the next block is too late, and at height 900 the swap is forgotten. *)
Lemma settled_deposit_abandoned :
  let st1 := SwapInSample.end_of (SwapInSample.pass (SwapInSample.explorer 828 0 [SwapInSample.pay 50] false) SwapInSample.start) in
  let st2 := SwapInSample.end_of (SwapInSample.pass (SwapInSample.explorer 829 0 [SwapInSample.pay 50] true) st1) in
  let st3 := SwapInSample.end_of (SwapInSample.pass (SwapInSample.explorer 900 0 [SwapInSample.pay 50] true) st2) in
  length (claims st1) = 1%nat /\ claims st2 = claims st1 /\ claims st3 = claims st1 /\ onchain_swapins (registry st3) = ∅.
Proof. split_and!; by vm_compute. Qed.
(** A transaction that pays the address twice: the contract credits the sum, the watcher sees
    and claims one output, and the other stays with the seller. *)
Lemma second_output_unclaimed :
  let outs := [SwapInSample.pay 50; SwapInSample.pay 70] in
  let st := SwapInSample.end_of (SwapInSample.pass (SwapInSample.explorer 800 0 outs true) SwapInSample.start) in
  sol_depositSats (mkBtcTx 2 (Blocks 0) [] outs) (deposit_spk SwapInSample.swap) = 120 /\
  map (fun tx => map previous_output (btc_input tx)) (claims st) = [[mkOutPoint ClientSample.txid 0]] /\
  onchain_swapins (registry st) = ∅.
Proof. split_and!; by vm_compute. Qed.
