(* ===== verification/Vault.v ===== *)
(** * Vault: who owns a channel, and who waits for a splice

    [quid-ln/quid-bridge/src/vault.rs]: the registry that ties deposits and funding outpoints
    to the address of their owner and holds the owner's consent, the orchestrator that turns
    deposits into channels, and the coordinator that hands the outpoint of a locked splice to
    the delivery that started it.

    The Lightning node and the explorer are an environment.  The maps of the registry are in
    memory; of them only the funding bindings are also in the store.  The store is written
    before an operation returns (see [Store]).  The walk over a hash map is in the order of its
    keys. *)
From Stdlib Require Import String.
From stdpp Require Import gmap strings pretty.
From S2P Require Import Prelude Pool Chain Abi Transport Client Store SwapIn.
Open Scope list_scope.

(** ** Consent and intent *)
Record LpConsent := mkConsent { c_auth : OpenAuth; c_exits : list ExitArming }.
#[export] Instance OpenAuth_eq_dec : EqDecision OpenAuth.
Proof. solve_decision. Defined.
#[export] Instance ExitArming_eq_dec : EqDecision ExitArming.
Proof. solve_decision. Defined.
#[export] Instance LpConsent_eq_dec : EqDecision LpConsent.
Proof. solve_decision. Defined.

Definition WATCH_WINDOW_BLOCKS : Z := 144.
Inductive PayoutMode := Invoice | RawBtc.
Record LpFunding := mkFunding { fu_lp_eth : list Z; fu_btc_recipient : list Z; desired_sats : Z; fu_payout_mode : PayoutMode }.
Record Watch := mkWatch { funding : LpFunding; armed_until : Z }.
Definition lp_payout_script (recipient : list Z) : list Z := 81 :: 32 :: recipient.

Record VaultRegistry := mkRegistry {
  by_funding : gmap string (list Z);
  consent : gmap string LpConsent;
  by_deposit_addr : gmap string Watch;
  opening : gmap Z (list Z);
  next_uid : Z }.
(** The registry with the store it writes through to, if it is durable. *)
Record Vault := mkVault { v_reg : VaultRegistry; v_store : option Persisted }.

Definition registry_new : VaultRegistry := mkRegistry ∅ ∅ ∅ ∅ 0.
Definition with_by_funding m (r : VaultRegistry) := mkRegistry m (consent r) (by_deposit_addr r) (opening r) (next_uid r).
Definition with_consent m (r : VaultRegistry) := mkRegistry (by_funding r) m (by_deposit_addr r) (opening r) (next_uid r).
Definition with_deposits m (r : VaultRegistry) := mkRegistry (by_funding r) (consent r) m (opening r) (next_uid r).
Definition with_opening m (r : VaultRegistry) := mkRegistry (by_funding r) (consent r) (by_deposit_addr r) m (next_uid r).
Definition with_uid n (r : VaultRegistry) := mkRegistry (by_funding r) (consent r) (by_deposit_addr r) (opening r) n.
Definition on_reg (f : VaultRegistry -> VaultRegistry) (v : Vault) : Vault := mkVault (f (v_reg v)) (v_store v).

Section Vault.
Context `{T : Text}.

Definition new_durable (s : Persisted) : Vault :=
  mkVault (with_by_funding (list_to_map (load_funding_lps s)) registry_new) (Some s).
(** [format!("{funding_txid_hex}:{vout}")] *)
Definition outpoint_key (txid_hex : string) (vout : Z) : string := (txid_hex ++ ":" ++ pretty vout)%string.

Definition register_deposit (addr : string) (f : LpFunding) (tip : Z) : Vault -> Vault :=
  on_reg (fun r => with_deposits (<[addr := mkWatch f (sat u32 (tip + WATCH_WINDOW_BLOCKS))]> (by_deposit_addr r)) r).
Definition rearm_deposit (addr : string) (tip : Z) (v : Vault) : Vault * bool :=
  match by_deposit_addr (v_reg v) !! addr with
  | Some w => (on_reg (fun r => with_deposits (<[addr := mkWatch (funding w) (sat u32 (tip + WATCH_WINDOW_BLOCKS))]> (by_deposit_addr r)) r) v, true)
  | None => (v, false)
  end.
Definition funding_for_addr (v : Vault) (addr : string) : option LpFunding := funding <$> by_deposit_addr (v_reg v) !! addr.
Definition deposit_addr_of (v : Vault) (lp : list Z) : option string :=
  fst <$> head (List.filter (fun kw : string * Watch => bool_decide (fu_lp_eth (funding kw.2) = lp)) (map_to_list (by_deposit_addr (v_reg v)))).
Definition bind_funding (txid_hex : string) (vout : Z) (lp : list Z) (v : Vault) : Vault :=
  let k := outpoint_key txid_hex vout in
  mkVault (with_by_funding (<[k := lp]> (by_funding (v_reg v))) (v_reg v))
          ((fun s => (record_funding_lp k lp s).1) <$> v_store v).
Definition bind_consent (txid_hex : string) (vout : Z) (c : LpConsent) (v : Vault) : Vault * bool :=
  let k := outpoint_key txid_hex vout in
  match consent (v_reg v) !! k with
  | Some existing => (v, bool_decide (existing = c))
  | None => (on_reg (fun r => with_consent (<[k := c]> (consent r)) r) v, true)
  end.
Definition consent_for_funding (v : Vault) (txid_hex : string) (vout : Z) : option LpConsent :=
  consent (v_reg v) !! outpoint_key txid_hex vout.
Definition lp_for_funding (v : Vault) (txid_hex : string) (vout : Z) : option (list Z) :=
  by_funding (v_reg v) !! outpoint_key txid_hex vout.
Definition clear_inflight (txid_hex : string) (vout : Z) (v : Vault) : Vault :=
  let k := outpoint_key txid_hex vout in
  mkVault (with_consent (delete k (consent (v_reg v))) (with_by_funding (delete k (by_funding (v_reg v))) (v_reg v)))
          ((fun s => (forget_funding_lp k s).1) <$> v_store v).
Definition pending (v : Vault) (tip : Z) : list (string * LpFunding) :=
  (fun kw : string * Watch => (kw.1, funding kw.2)) <$> List.filter (fun kw => tip <=? armed_until kw.2) (map_to_list (by_deposit_addr (v_reg v))).
Definition mark_opening (addr : string) (uid : Z) (lp : list Z) : Vault -> Vault :=
  on_reg (fun r => with_opening (<[uid := lp]> (opening r)) (with_deposits (delete addr (by_deposit_addr r)) r)).
Definition opening_lp (v : Vault) (uid : Z) : option (list Z) := opening (v_reg v) !! uid.

(** [fresh] is the next address of the wallet, as the script it prints. *)
Definition register_lp (tip : option Z) (fresh : list Z) (f : LpFunding) (v : Vault) : Vault * option (list Z) :=
  match tip with
  | None => (v, None)
  | Some tip =>
      match deposit_addr_of v (fu_lp_eth f) with
      | Some existing => ((rearm_deposit existing tip v).1, parse_spk existing)
      | None => (register_deposit (show_spk fresh) f tip v, Some fresh)
      end
  end.

(** ** From deposit to channel

    What the node does: whether it accepts an open, and the channels it lists with their user
    id and funding outpoint. *)
Record Opened := mkOpened { a_uid : Z; a_addr : string; a_for : LpFunding; a_deposit : ConfirmedDeposit; a_ok : bool }.
Record OpenEnv := mkOpenEnv { creates : Z -> Z -> bool; listed : list (Z * option (list Z * Z)) }.

Definition open_one (es : Esplora) (env : OpenEnv) (tip min_confs : Z) (w : string * LpFunding) (s : Vault * list Opened) : Vault * list Opened :=
  let '(v, log) := s in
  match parse_spk w.1 with
  | None => s
  | Some spk =>
      match scripthash_txs es spk with
      | None => s
      | Some txs =>
          match find_confirmed_deposit (scan_of txs) spk tip min_confs with
          | None => s
          | Some d =>
              if d_value d <? desired_sats w.2 then s else
              let uid := next_uid (v_reg v) in
              let v := on_reg (with_uid (cast u64 (uid + 1))) v in
              let ok := creates env uid (desired_sats w.2) in
              (if ok then mark_opening w.1 uid (fu_lp_eth w.2) v else v, log ++ [mkOpened uid w.1 w.2 d ok])
          end
      end
  end.
Definition bind_one (v : Vault) (c : Z * option (list Z * Z)) : Vault :=
  match c.2, opening_lp v c.1 with
  | Some (txid, vout), Some lp =>
      on_reg (fun r => with_opening (delete c.1 (opening r)) r) (bind_funding (show_txid txid) vout lp v)
  | _, _ => v
  end.
(** A pass, without the capacity keeping of [Rebalance]. *)
Definition orchestrate (es : Esplora) (env : OpenEnv) (min_confs : Z) (s : Vault * list Opened) : Vault * list Opened :=
  match es_height es with
  | None => s
  | Some tip =>
      let '(v, log) := foldl (fun s w => open_one es env tip min_confs w s) s (pending s.1 tip) in
      (foldl bind_one v (listed env), log)
  end.
End Vault.

(** ** The delivery coordinator

    A waiter is the receiving end of a one-shot channel; [None] is a sender that was dropped. *)
Record DeliveryCoordinator := mkCoord { co_pending : gmap (list Z) nat; co_next : nat; co_results : list (nat * option (list Z * Z)) }.
Definition settle_waiter (old : option nat) (r : option (list Z * Z)) (l : list (nat * option (list Z * Z))) : list (nat * option (list Z * Z)) :=
  match old with Some w => l ++ [(w, r)] | None => l end.
Definition register (ldk : list Z) (c : DeliveryCoordinator) : DeliveryCoordinator * nat :=
  (mkCoord (<[ldk := co_next c]> (co_pending c)) (S (co_next c)) (settle_waiter (co_pending c !! ldk) None (co_results c)), co_next c).
Definition resolve (ldk txid : list Z) (vout : Z) (c : DeliveryCoordinator) : DeliveryCoordinator * bool :=
  (mkCoord (delete ldk (co_pending c)) (co_next c) (settle_waiter (co_pending c !! ldk) (Some (txid, vout)) (co_results c)),
   bool_decide (is_Some (co_pending c !! ldk))).
Definition cancel (ldk : list Z) (c : DeliveryCoordinator) : DeliveryCoordinator :=
  mkCoord (delete ldk (co_pending c)) (co_next c) (settle_waiter (co_pending c !! ldk) None (co_results c)).
(** [ChannelLifecycleEvent] *)
Inductive ChannelLifecycleEvent :=
| Ready (ldk funding_txid : list Z) (funding_vout : Z)
| Closed (ldk funding_txid : list Z) (funding_vout : Z)
| Spliced (ldk new_funding_txid : list Z) (new_funding_vout : Z).
Definition correlate (c : DeliveryCoordinator) (ev : ChannelLifecycleEvent) : DeliveryCoordinator :=
  match ev with Spliced ldk txid vout => (resolve ldk txid vout c).1 | _ => c end.

(** ** Runs of the registry *)
Inductive VOp :=
| OpOnboard (tip : option Z) (fresh : list Z) (f : LpFunding)
| OpConsent (txid_hex : string) (vout : Z) (c : LpConsent)
| OpPass (es : Esplora) (env : OpenEnv)
| OpClear (txid_hex : string) (vout : Z).
Definition vstep `{Text} (min_confs : Z) (s : Vault * list Opened) (o : VOp) : Vault * list Opened :=
  match o with
  | OpOnboard tip fresh f => ((register_lp tip fresh f s.1).1, s.2)
  | OpConsent txid_hex vout c => ((bind_consent txid_hex vout c s.1).1, s.2)
  | OpPass es env => orchestrate es env min_confs s
  | OpClear txid_hex vout => (clear_inflight txid_hex vout s.1, s.2)
  end.

(** ** A node's life

    Several runs of the process over one store: a restart keeps what the store holds and
    forgets the rest, the counter of user ids included.  The log is of all runs; [born] is
    where the present run's part of it begins. *)
Record Life := mkLife { lf : Vault * list Opened; born : nat }.
Inductive LOp := Do (o : VOp) | Restart.
Definition lstep `{Text} (min_confs : Z) (l : Life) (o : LOp) : Life :=
  match o with
  | Do o => mkLife (vstep min_confs (lf l) o) (born l)
  | Restart => mkLife (match v_store (lf l).1 with Some s => new_durable s | None => mkVault registry_new None end, (lf l).2)
                 (length (lf l).2)
  end.

(** * Properties *)
Section Facts.
Context `{T : Text} {TL : TextLaws T}.

Lemma cast_u64_mod x : cast u64 x = x mod 2 ^ 64.
Proof. unfold cast. cbn [imin imax u64]. replace (x - 0) with x by lia. by rewrite Z.add_0_r. Qed.

(** What a start from the store knows. *)
Lemma load_funding_lookup s k : list_to_map (M := gmap string (list Z)) (load_funding_lps s) !! k = (funding_lp s !! k) ≫= parse_address.
Proof.
  assert (forall l : list (string * string), NoDup l.*1 -> list_to_map (M := gmap string (list Z))
    (omap (fun kv => v ← parse_address kv.2; Some (kv.1, v)) l) !! k = (list_to_map (M := gmap string string) l !! k) ≫= parse_address) as H.
  { induction l as [|[k' a] l IH]; intros Hn; cbn [fmap list_fmap fst] in *; [done|]. apply NoDup_cons in Hn as [Hk Hn]. specialize (IH Hn).
    cbn [omap list_omap snd fst list_to_map foldr uncurry]. fold (list_to_map (M := gmap string string) l).
    destruct (decide (k = k')) as [-> |Hne].
    - rewrite lookup_insert_eq. cbn [mbind option_bind]. destruct (parse_address a) as [v|]; cbn [mbind option_bind].
      + cbn [list_to_map foldr uncurry fst snd]. by rewrite lookup_insert_eq.
      + etrans; [exact IH|]. by rewrite not_elem_of_list_to_map_1.
    - rewrite lookup_insert_ne by done. etrans; [|exact IH]. destruct (parse_address a); cbn [mbind option_bind]; [|done].
      cbn [list_to_map foldr uncurry fst snd]. by rewrite lookup_insert_ne. }
  unfold load_funding_lps. rewrite H by apply NoDup_fst_map_to_list. by rewrite list_to_map_to_list.
Qed.

(** The registry in memory is what its store would give back. *)
Definition mirrored (v : Vault) : Prop := forall s, v_store v = Some s -> forall k, by_funding (v_reg v) !! k = (funding_lp s !! k) ≫= parse_address.
Lemma new_durable_mirrored s : mirrored (new_durable s).
Proof. intros s' [= <-] k. apply load_funding_lookup. Qed.
Lemma mirrored_restart v s : mirrored v -> v_store v = Some s -> by_funding (v_reg (new_durable s)) = by_funding (v_reg v).
Proof. intros H E. apply map_eq. intros k. by rewrite (new_durable_mirrored s s eq_refl), (H s E). Qed.

Lemma mirrored_bind txid vout lp v : length lp = 20%nat -> Forall byte_ok lp -> mirrored v -> mirrored (bind_funding txid vout lp v).
Proof.
  intros Hl Hb H s' E k. unfold bind_funding in *. cbn [v_store v_reg by_funding with_by_funding] in *.
  destruct (v_store v) as [s|] eqn:Es; [|done]. injection E as <-.
  assert (funding_lp (record_funding_lp (outpoint_key txid vout) lp s).1 !! k = <[outpoint_key txid vout := Store.show_address lp]> (funding_lp s) !! k) as ->.
  { unfold record_funding_lp. case_bool_decide as Hk; [|done]. cbn [fst]. by rewrite insert_id. }
  destruct (decide (k = outpoint_key txid vout)) as [-> |Hne].
  - rewrite !lookup_insert_eq. cbn [mbind option_bind]. by rewrite address_text.
  - rewrite !lookup_insert_ne by done. by apply H.
Qed.
Lemma mirrored_clear txid vout v : mirrored v -> mirrored (clear_inflight txid vout v).
Proof.
  intros H s' E k. unfold clear_inflight in *. cbn [v_store v_reg by_funding with_consent with_by_funding] in *.
  destruct (v_store v) as [s|] eqn:Es; [|done]. injection E as <-.
  assert (funding_lp (forget_funding_lp (outpoint_key txid vout) s).1 !! k = delete (outpoint_key txid vout) (funding_lp s) !! k) as ->.
  { unfold forget_funding_lp. destruct (funding_lp s !! _) eqn:Hk; [done|]. cbn [fst]. by rewrite delete_id. }
  destruct (decide (k = outpoint_key txid vout)) as [-> |Hne].
  - by rewrite !lookup_delete_eq.
  - rewrite !lookup_delete_ne by done. by apply H.
Qed.
Lemma mirrored_on_reg f v : (forall r, by_funding (f r) = by_funding r) -> mirrored v -> mirrored (on_reg f v).
Proof. intros Hf H s E k. unfold on_reg in *. cbn [v_store v_reg] in *. rewrite Hf. by apply H. Qed.

(** ** Attribution

    [chan_of] is the funding outpoint of the channel that the [i]-th open of the log created. *)
Variable chan_of : nat -> list Z * Z.
Definition chan_key (i : nat) : string := outpoint_key (show_txid (chan_of i).1) (chan_of i).2.
(** Of the channels the node lists, one that carries the user id of an open of this run is the
    channel that open created. *)
Definition own_ids (l : Life) (c : Z * option (list Z * Z)) : Prop :=
  forall i a txo, c.2 = Some txo -> (lf l).2 !! i = Some a -> (born l <= i)%nat -> a_ok a = true -> a_uid a = c.1 -> txo = chan_of i.
Definition wf_lop (confs : Z) (l : Life) (o : LOp) : Prop :=
  match o with
  | Do (OpOnboard _ _ f) => length (fu_lp_eth f) = 20%nat /\ Forall byte_ok (fu_lp_eth f)
  | Do (OpPass _ env) => Forall (own_ids (lstep confs l o)) (listed env)
  | _ => True
  end.
Fixpoint wf_life (confs : Z) (l : Life) (ops : list LOp) : Prop :=
  match ops with
  | [] => True
  | o :: ops => wf_lop confs l o /\ wf_life confs (lstep confs l o) ops
  end.
(** An open was asked for by an owner, and paid for by a deposit of the size asked for. *)
Definition asked (ops : list LOp) (f : LpFunding) : Prop :=
  (exists tip fresh, Do (OpOnboard tip fresh f) ∈ ops) /\ length (fu_lp_eth f) = 20%nat /\ Forall byte_ok (fu_lp_eth f).
Definition paid (ops : list LOp) (a : Opened) : Prop := asked ops (a_for a) /\ desired_sats (a_for a) <= d_value (a_deposit a).

Record attributed (ops : list LOp) (old : gmap string (list Z)) (b : nat) (s : Vault * list Opened) : Prop := {
  at_born : (b <= length s.2)%nat;
  at_uid : next_uid (v_reg s.1) = cast u64 (Z.of_nat (length s.2 - b));
  at_log : forall i a, s.2 !! i = Some a -> ((b <= i)%nat -> a_uid a = cast u64 (Z.of_nat (i - b))) /\ paid ops a;
  at_watch : forall k w, by_deposit_addr (v_reg s.1) !! k = Some w -> asked ops (funding w);
  at_opening : forall uid lp, opening (v_reg s.1) !! uid = Some lp ->
    exists i a, s.2 !! i = Some a /\ (b <= i)%nat /\ a_ok a = true /\ a_uid a = uid /\ fu_lp_eth (a_for a) = lp;
  at_funding : forall k lp, by_funding (v_reg s.1) !! k = Some lp -> old !! k = Some lp \/
    exists i a, s.2 !! i = Some a /\ a_ok a = true /\ fu_lp_eth (a_for a) = lp /\ k = chan_key i;
  at_store : mirrored s.1 }.

Section Attribution.
Variable ops : list LOp.
Variable old : gmap string (list Z).

Lemma onboard_attributed tip fresh f b s : asked ops f -> attributed ops old b s ->
  attributed ops old b ((register_lp tip fresh f s.1).1, s.2).
Proof.
  intros Ho [H0 H1 H2 H3 H4 H5 H6]. unfold register_lp. destruct tip as [tip|]; [|done].
  destruct (deposit_addr_of s.1 (fu_lp_eth f)) as [k|]; cbn [fst].
  - unfold rearm_deposit. destruct (by_deposit_addr (v_reg s.1) !! k) as [w|] eqn:Ew; [|done]. cbn [fst].
    constructor; cbn [fst snd]; try done; try (by apply mirrored_on_reg).
    intros k' w'. cbn [v_reg on_reg by_deposit_addr with_deposits].
    intros [[-> <-]|[_ Hw]]%lookup_insert_Some; [exact (H3 _ _ Ew)|exact (H3 _ _ Hw)].
  - constructor; cbn [fst snd]; try done; try (by apply mirrored_on_reg).
    intros k' w'. unfold register_deposit. cbn [v_reg on_reg by_deposit_addr with_deposits].
    intros [[<- <-]|[_ Hw]]%lookup_insert_Some; [done|exact (H3 _ _ Hw)].
Qed.

Lemma open_one_attributed es env tip confs w b s : asked ops w.2 -> attributed ops old b s -> attributed ops old b (open_one es env tip confs w s).
Proof.
  intros Ha. unfold open_one. destruct s as [v log]. destruct (parse_spk w.1) as [spk|]; [|done].
  destruct (scripthash_txs es spk) as [txs|]; [|done]. destruct (find_confirmed_deposit _ _ _ _) as [d|]; [|done].
  destruct (Z.ltb_spec (d_value d) (desired_sats w.2)) as [|Hd]; [done|]. intros [H0 H1 H2 H3 H4 H5 H6]. cbn [fst snd] in *.
  set (ok := creates env (next_uid (v_reg v)) (desired_sats w.2)). set (a := mkOpened (next_uid (v_reg v)) w.1 w.2 d ok).
  set (v' := on_reg (with_uid (cast u64 (next_uid (v_reg v) + 1))) v).
  assert (next_uid (v_reg (if ok then mark_opening w.1 (next_uid (v_reg v)) (fu_lp_eth w.2) v' else v')) = cast u64 (Z.of_nat (length (log ++ [a]) - b))) as Hu.
  { rewrite length_app. cbn [length]. replace (Z.of_nat (length log + 1 - b)) with (Z.of_nat (length log - b) + 1) by lia.
    assert (cast u64 (cast u64 (Z.of_nat (length log - b)) + 1) = cast u64 (Z.of_nat (length log - b) + 1)) as <-
      by (by rewrite !cast_u64_mod, Zplus_mod_idemp_l). rewrite <- H1. by destruct ok. }
  assert (forall i x, log !! i = Some x -> (log ++ [a]) !! i = Some x) as Hold by (intros; by apply lookup_app_l_Some).
  constructor; cbn [fst snd]; [rewrite length_app; lia|exact Hu| | | | |].
  - intros i x [Hi|[? E]]%lookup_app_Some; [by apply H2|]. apply list_lookup_singleton_Some in E as [? <-].
    replace i with (length log) by lia. split; [intros _; exact H1|]. by split.
  - intros k w' Hw. destruct ok; cbn in Hw; [apply lookup_delete_Some in Hw as [_ Hw]|]; exact (H3 _ _ Hw).
  - intros uid lp Hl. assert (opening (v_reg v) !! uid = Some lp \/ (ok = true /\ uid = a_uid a /\ lp = fu_lp_eth w.2)) as [Hv|(Hok & -> & ->)].
    { destruct ok; cbn in Hl; [|by left]. apply lookup_insert_Some in Hl as [[<- <-]|[_ Hl]]; [right|left]; done. }
    + destruct (H4 _ _ Hv) as (i & x & Hx & Hr). exists i, x. split; [by apply Hold|done].
    + exists (length log), a. split_and!; try done. by rewrite lookup_app_r, Nat.sub_diag by lia.
  - intros k lp Hk. assert (by_funding (v_reg v) !! k = Some lp) as Hv by (by destruct ok).
    destruct (H5 _ _ Hv) as [|(i & x & Hx & Hr)]; [by left|right]. exists i, x. split; [by apply Hold|done].
  - assert (mirrored v') by (by apply mirrored_on_reg). destruct ok; [|done]. by apply mirrored_on_reg.
Qed.

Lemma bind_one_attributed c v log b : own_ids (mkLife (v, log) b) c ->
  attributed ops old b (v, log) -> attributed ops old b (bind_one v c, log).
Proof.
  intros Hc. unfold bind_one. destruct c as [uid [[txid vout]|]]; cbn [fst snd]; [|done].
  destruct (opening_lp v uid) as [lp|] eqn:El; [|done]. cbn [fst snd] in *.
  intros [H0 H1 H2 H3 H4 H5 H6]. cbn [fst snd] in *.
  destruct (H4 _ _ El) as (i & a & Ha & Hb & Hok & Hu & Hlp). specialize (Hc i a _ eq_refl Ha Hb Hok Hu).
  constructor; cbn [fst snd]; try done.
  - intros u l. unfold on_reg, bind_funding. cbn [v_reg opening with_opening with_by_funding].
    intros [_ Hl]%lookup_delete_Some. by apply H4.
  - intros k l. unfold on_reg, bind_funding. cbn [v_reg by_funding with_opening with_by_funding].
    intros [[<- <-]|[_ Hk]]%lookup_insert_Some; [|by apply H5]. right. exists i, a. split_and!; try done.
    unfold chan_key. rewrite <- Hc. done.
  - apply mirrored_on_reg; [done|]. destruct (H2 _ _ Ha) as [_ [(_ & Hl & Hby) _]]. subst lp. by apply mirrored_bind.
Qed.

Lemma foldl_keeps {A S} (P : S -> Prop) (f : S -> A -> S) l s : (forall s a, a ∈ l -> P s -> P (f s a)) -> P s -> P (foldl f s l).
Proof.
  revert s. induction l as [|a l IH]; intros s Hf Hs; [done|]. cbn [foldl]. apply IH.
  - intros s' b Hb. apply Hf. by apply list_elem_of_further.
  - apply Hf; [apply list_elem_of_here|done].
Qed.

Lemma pass_attributed es env confs b s : Forall (own_ids (mkLife (orchestrate es env confs s) b)) (listed env) ->
  attributed ops old b s -> attributed ops old b (orchestrate es env confs s).
Proof.
  unfold orchestrate. destruct (es_height es) as [tip|]; [|done]. intros Hi H.
  assert (attributed ops old b (foldl (fun s w => open_one es env tip confs w s) s (pending s.1 tip))) as H'.
  { apply foldl_keeps; [|done]. intros s' w Hw. apply open_one_attributed. unfold pending in Hw.
    apply list_elem_of_fmap in Hw as ([k w'] & -> & Hw). apply list_elem_of_In, filter_In in Hw as [Hw _].
    apply list_elem_of_In, elem_of_map_to_list in Hw. exact (at_watch _ _ _ _ H _ _ Hw). }
  destruct (foldl _ s _) as [v log]. apply (foldl_keeps (fun v => attributed ops old b (v, log))); [|done].
  intros v' c Hc. apply bind_one_attributed. rewrite Forall_forall in Hi. exact (Hi _ Hc).
Qed.

Lemma lstep_attributed confs o l : o ∈ ops -> wf_lop confs l o -> attributed ops old (born l) (lf l) ->
  attributed ops old (born (lstep confs l o)) (lf (lstep confs l o)).
Proof.
  intros Ho Hw H. destruct o as [[tip fresh f|txid vout c|es env|txid vout]|]; cbn [lstep vstep lf born wf_lop] in *.
  - apply onboard_attributed; [|done]. split; [by exists tip, fresh|done].
  - unfold bind_consent. destruct (consent (v_reg (lf l).1) !! _); [by destruct (lf l)|]. destruct H as [H0 H1 H2 H3 H4 H5 H6]. cbn [fst snd].
    constructor; try done; try (by apply mirrored_on_reg).
  - by apply pass_attributed.
  - destruct H as [H0 H1 H2 H3 H4 H5 H6]. constructor; try done; [|by apply mirrored_clear].
    intros k lp. cbn [fst clear_inflight v_reg by_funding with_consent with_by_funding]. intros [_ Hk]%lookup_delete_Some. by apply H5.
  - destruct H as [H0 H1 H2 H3 H4 H5 H6]. constructor; cbn [fst snd].
    + lia.
    + rewrite Nat.sub_diag. by destruct (v_store (lf l).1).
    + intros i a Hi. split; [|by apply (H2 i)]. apply lookup_lt_Some in Hi. lia.
    + intros k w. by destruct (v_store (lf l).1).
    + intros uid lp. by destruct (v_store (lf l).1).
    + intros k lp Hk. apply H5. destruct (v_store (lf l).1) as [st|] eqn:E; [|done]. by rewrite <- (mirrored_restart (lf l).1 st).
    + destruct (v_store (lf l).1); [apply new_durable_mirrored|]. intros ? [=].
Qed.
Lemma life_attributed confs rest l : (forall o, o ∈ rest -> o ∈ ops) -> wf_life confs l rest -> attributed ops old (born l) (lf l) ->
  attributed ops old (born (foldl (lstep confs) l rest)) (lf (foldl (lstep confs) l rest)).
Proof.
  revert l. induction rest as [|o rest IH]; intros l Hsub Hw H; [done|]. destruct Hw as [Hw Hws]. cbn [foldl].
  apply IH; [intros; apply Hsub; by apply list_elem_of_further|done|].
  apply lstep_attributed; [apply Hsub, list_elem_of_here|done|done].
Qed.
End Attribution.


(** A consent stays the one first given until its channel is mirrored. *)
Lemma consent_kept txid vout c v : forall k c0, consent (v_reg v) !! k = Some c0 ->
  consent (v_reg (bind_consent txid vout c v).1) !! k = Some c0 /\
  (k = outpoint_key txid vout -> (bind_consent txid vout c v).2 = bool_decide (c0 = c)).
Proof.
  intros k c0 H. unfold bind_consent. destruct (decide (k = outpoint_key txid vout)) as [-> |Hne]; [by rewrite H|].
  split; [|done]. destruct (consent (v_reg v) !! outpoint_key txid vout); [done|].
  cbn [fst on_reg v_reg consent with_consent]. by rewrite lookup_insert_ne.
Qed.
End Facts.

(** ** Waiters *)
Inductive co_op := CoRegister (ldk : list Z) | CoCancel (ldk : list Z) | CoEvent (ev : ChannelLifecycleEvent).
Definition co_step (c : DeliveryCoordinator) (o : co_op) : DeliveryCoordinator :=
  match o with
  | CoRegister ldk => (register ldk c).1
  | CoCancel ldk => cancel ldk c
  | CoEvent ev => correlate c ev
  end.
(** The waiters not yet answered, and those answered. *)
Definition waiters (c : DeliveryCoordinator) : list nat := (map_to_list (co_pending c)).*2 ++ (co_results c).*1.
Definition coord_ok (c : DeliveryCoordinator) : Prop := NoDup (waiters c) /\ Forall (fun w => (w < co_next c)%nat) (waiters c).

Lemma waiters_delete ldk r c n : waiters (mkCoord (delete ldk (co_pending c)) n (settle_waiter (co_pending c !! ldk) r (co_results c))) ≡ₚ waiters c.
Proof.
  unfold waiters. cbn [co_pending co_results]. destruct (co_pending c !! ldk) as [w|] eqn:E; cbn [settle_waiter]; [|by rewrite delete_id].
  rewrite <- (map_to_list_delete (co_pending c) ldk w E), fmap_app. cbn [fmap list_fmap fst snd].
  rewrite app_assoc. by rewrite Permutation_app_comm.
Qed.
Lemma coord_step o c : coord_ok c -> coord_ok (co_step c o).
Proof.
  intros [Hn Hb]. assert (forall ldk r, coord_ok (mkCoord (delete ldk (co_pending c)) (co_next c) (settle_waiter (co_pending c !! ldk) r (co_results c)))) as Hd.
  { intros ldk r. split; [by rewrite waiters_delete|]. by rewrite waiters_delete. }
  destruct o as [ldk|ldk|[]]; cbn [co_step correlate fst]; try done; try apply Hd.
  unfold register. cbn [fst]. set (res := settle_waiter _ _ _).
  assert (waiters (mkCoord (<[ldk := co_next c]> (co_pending c)) (S (co_next c)) res) ≡ₚ co_next c :: waiters c) as HP.
  { rewrite <- (waiters_delete ldk None c 0). unfold waiters. cbn [co_pending co_results]. fold res.
    rewrite <- insert_delete_eq, map_to_list_insert by apply lookup_delete_eq. done. }
  split; rewrite HP.
  - apply NoDup_cons. split; [|done]. intros Hi. rewrite Forall_forall in Hb. apply Hb in Hi. lia.
  - constructor; [cbn; lia|]. eapply Forall_impl; [exact Hb|]. cbn. lia.
Qed.
(** Every delivery that waits is answered at most once. *)
Lemma waiter_once l : coord_ok (foldl co_step (mkCoord ∅ 0 []) l).
Proof. apply foldl_keeps; [intros; by apply coord_step|]. split; constructor. Qed.

(** But the answer goes to the last who registered for the channel: a second delivery on it
    drops the first one's sender, and is handed the first one's splice. *)
Lemma second_register_drops_first (ldk txid : list Z) (vout : Z) :
  let c := foldl co_step (mkCoord ∅ 0 []) [CoRegister ldk; CoRegister ldk; CoEvent (Spliced ldk txid vout)] in
  co_results c = [(0%nat, None); (1%nat, Some (txid, vout))] /\ co_pending c = ∅.
Proof.
  cbn [foldl co_step register correlate resolve fst co_pending co_next co_results settle_waiter]. rewrite lookup_empty, !lookup_insert_eq.
  cbn [settle_waiter app]. split; [done|]. by rewrite insert_insert_eq, delete_insert_eq, delete_empty.
Qed.

(** * Samples *)
Module VaultSample.
#[local] Existing Instances StoreSample.text StoreSample.text_laws.
Definition intent (n : Z) : LpFunding := mkFunding (replicate 20 n) (replicate 32 n) 100 Invoice.
Definition spk (n : Z) : list Z := 81 :: 32 :: replicate 32 n.
(** Every address has been paid 150, in block 700. *)
Definition explorer : Esplora :=
  mkEsplora (Some 800) 0 (fun spk => Some [mkETx (replicate 32 9) [mkOut 150 spk] (Some 700)]) (fun _ => None) (fun _ => true).
Definition txo (uid : Z) : list Z * Z := (replicate 32 uid, 0).
Definition env (l : list (Z * option (list Z * Z))) : OpenEnv := mkOpenEnv (fun _ _ => true) l.
Definition ops : list VOp :=
  [OpOnboard (Some 790) (spk 1) (intent 1); OpOnboard (Some 790) (spk 2) (intent 2); OpPass explorer (env []);
   OpPass explorer (env [(0, Some (txo 0)); (1, Some (txo 1))])].
Definition run (s : Persisted) (l : list VOp) : Vault * list Opened := foldl (vstep 6) (new_durable s, []) l.
(** Two runs: in the second a third owner comes, and the channels of the first are closed. *)
Definition life (l : list LOp) : Life := foldl (lstep 6) (mkLife (new_durable persisted_default, []) 0) l.
Definition two_runs : list LOp :=
  (Do <$> ops) ++ [Restart; Do (OpOnboard (Some 790) (spk 3) (intent 3)); Do (OpPass explorer (env []));
                   Do (OpPass explorer (env [(0, Some (txo 2))]))].
Definition chan_of (i : nat) : list Z * Z := txo (Z.of_nat i).
Definition store_of (v : Vault) : Persisted := default persisted_default (v_store v).
End VaultSample.
#[local] Existing Instances StoreSample.text StoreSample.text_laws.

Lemma two_runs_wf : wf_life VaultSample.chan_of 6 (mkLife (new_durable persisted_default, []) 0) VaultSample.two_runs.
Proof.
  assert (forall n, 0 <= n < 256 -> Forall byte_ok (replicate 20 n)) as Hb by (intros n Hn; by apply Forall_replicate).
  unfold VaultSample.two_runs, VaultSample.ops. cbn [fmap list_fmap app wf_life wf_lop].
  split_and!; try done; try (by apply Hb); cbn [listed VaultSample.env]; repeat constructor;
    intros i a txo [= <-] Hi Hge Hok Hu; destruct i as [|[|[|i]]]; vm_compute in Hi; try discriminate Hi;
    injection Hi as <-; vm_compute in Hu; try discriminate Hu; try reflexivity; exfalso; vm_compute in Hge; lia.
Qed.

(** ** What a restart forgets

    User ids start at zero again, while the channels of the last run keep theirs: the open of
    a new owner is bound to the outpoint of an old channel, and his own channel to nobody. *)
Lemma restart_uid_collision :
  let l := VaultSample.life ((Do <$> VaultSample.ops) ++ [Restart;
             Do (OpOnboard (Some 790) (VaultSample.spk 3) (VaultSample.intent 3));
             Do (OpPass VaultSample.explorer (VaultSample.env [(0, Some (VaultSample.txo 0)); (0, None)]));
             Do (OpPass VaultSample.explorer (VaultSample.env [(0, Some (VaultSample.txo 0)); (0, Some (VaultSample.txo 2))]))]) in
  lp_for_funding (lf l).1 (hex_data (VaultSample.txo 0).1) 0 = Some (replicate 20 3) /\
  lp_for_funding (lf l).1 (hex_data (VaultSample.txo 2).1) 0 = None.
Proof. vm_compute. done. Qed.

(** The watched addresses are lost: the owner is given another address, and the deposit on the
    first is not looked for. *)
Lemma restart_forgets_deposit :
  let s := VaultSample.run persisted_default [OpOnboard (Some 790) (VaultSample.spk 1) (VaultSample.intent 1)] in
  (register_lp (Some 790) (VaultSample.spk 2) (VaultSample.intent 1) s.1).2 = Some (VaultSample.spk 1) /\
  let again := new_durable (VaultSample.store_of s.1) in
  (register_lp (Some 790) (VaultSample.spk 2) (VaultSample.intent 1) again).2 = Some (VaultSample.spk 2) /\
  pending again 790 = [].
Proof. vm_compute. done. Qed.
