(* ===== verification/Liveness.v ===== *)
(** * Liveness: the gate that routes only to owners who answer

    [quid-ln/quid-hop/src/liveness.rs] (whole), the choice of route hints in [node.rs] and the
    route that takes heartbeats in [quid-bridge/src/swap_in_api.rs].

    Keccak-256 and the recovery of a public key from a signature are parameters. *)
From Stdlib Require Import String.
From stdpp Require Import gmap strings.
From S2P Require Import Prelude Pool Chain Abi Transport Client.
Open Scope list_scope.

Definition HEARTBEAT_TAG : list Z := str_bytes "QUID-REALM::lp-liveness.v1".
Record Heartbeat := mkHeartbeat { hb_channel : list Z; hb_height : Z; hb_seq : Z }.
Definition preimage (hb : Heartbeat) : list Z :=
  HEARTBEAT_TAG ++ hb_channel hb ++ to_be_bytes 4 (hb_height hb) ++ to_be_bytes 8 (hb_seq hb).

Record LivenessBook := mkBook { latest : gmap (list Z) Heartbeat }.
Definition is_routable (b : LivenessBook) (cid : list Z) (tip max_age : Z) : bool :=
  match latest b !! cid with
  | Some hb => if tip <? hb_height hb then false else tip - hb_height hb <=? max_age
  | None => false
  end.
Record GateState := mkGate { book : LivenessBook; tip : Z; known : gmap (list Z) (list Z * list Z) }.
Definition gate_new : GateState := mkGate (mkBook ∅) 0 ∅.
Definition bind (ldk cid lp : list Z) (g : GateState) : GateState := mkGate (book g) (tip g) (<[ldk := (cid, lp)]> (known g)).
Definition set_tip (height : Z) (g : GateState) : GateState := mkGate (book g) height (known g).
Definition is_routable_ldk (max_age : Z) (g : GateState) (ldk : list Z) : bool :=
  match known g !! ldk with
  | Some (cid, _) => is_routable (book g) cid (tip g) max_age
  | None => false
  end.

(** A usable channel, as far as a route hint needs it. *)
Record Usable := mkUsable { u_ldk : list Z; u_scid : option Z; u_forwarding : option (Z * Z * Z) }.
Definition route_hints (gate : option (Z * GateState)) (chans : list Usable) : list (Z * (Z * Z * Z)) :=
  omap (fun ch => scid ← u_scid ch; fwd ← u_forwarding ch; Some (scid, fwd))
    (List.filter (fun ch => match gate with Some (max_age, g) => is_routable_ldk max_age g (u_ldk ch) | None => true end) chans).

Section Gate.
Variable keccak256 : list Z -> list Z.
(** [recover_ecdsa] on a digest, a recovery id and 64 bytes: the uncompressed point. *)
Variable recover_ecdsa : list Z -> Z -> list Z -> option (list Z).

Definition digest (hb : Heartbeat) : list Z := keccak256 (preimage hb).
Definition recover_heartbeat (hb : Heartbeat) (sig65 : list Z) : option (list Z) :=
  if negb (length sig65 =? 65)%nat then None else
  let v := nth 64 sig65 0 in
  rec ← (if (0 <=? v) && (v <=? 1) then Some v else if (27 <=? v) && (v <=? 28) then Some (v - 27) else None);
  pk ← recover_ecdsa (digest hb) rec (take 64 sig65);
  Some (drop 12 (keccak256 (drop 1 pk))).
(** [LivenessBook::record] *)
Definition book_record (hb : Heartbeat) (sig65 lp : list Z) (b : LivenessBook) : LivenessBook * bool :=
  if negb (bool_decide (recover_heartbeat hb sig65 = Some lp)) then (b, false) else
  if match latest b !! hb_channel hb with Some prev => hb_seq hb <=? hb_seq prev | None => false end then (b, false)
  else (mkBook (<[hb_channel hb := hb]> (latest b)), true).
Definition record_for (entry : option (list Z * list Z)) (hb : Heartbeat) (sig65 : list Z) (g : GateState) : GateState * bool :=
  match entry with
  | None => (g, false)
  | Some (cid, lp) =>
      if negb (bool_decide (hb_channel hb = cid)) then (g, false) else
      let '(b, ok) := book_record hb sig65 lp (book g) in (mkGate b (tip g) (known g), ok)
  end.
(** [RoutingGate::record] *)
Definition gate_record (ldk : list Z) (hb : Heartbeat) (sig65 : list Z) (g : GateState) : GateState * bool :=
  record_for (known g !! ldk) hb sig65 g.
Definition record_by_cid (cid : list Z) (hb : Heartbeat) (sig65 : list Z) (g : GateState) : GateState * bool :=
  record_for (head (List.filter (fun e : list Z * list Z => bool_decide (e.1 = cid)) (map_to_list (known g)).*2)) hb sig65 g.

(** The answer of the route: refused, or whether the heartbeat was recorded. *)
Inductive HeartbeatReply := HbUnauthorised | HbBadRequest | HbDisabled | HbRecorded (recorded : bool).
(** [unhex] strips the prefix, and [hex::decode] strips it once more. *)
Definition strip0x (s : string) : string := if String.prefix "0x" s then String.substring 2 (String.length s - 2) s else s.
Definition unhex (s : string) : option (list Z) := hex_decode (strip0x (strip0x s)).
Definition lp_heartbeat (auth : bool) (channel_id : string) (height seq : Z) (sig : string) (gate : option GateState) : option GateState * HeartbeatReply :=
  if negb auth then (gate, HbUnauthorised) else
  match gate with
  | None => (None, HbDisabled)
  | Some g =>
      match unhex channel_id with
      | None => (gate, HbBadRequest)
      | Some cid =>
          if negb (length cid =? 32)%nat then (gate, HbBadRequest) else
          match unhex sig with
          | None => (gate, HbBadRequest)
          | Some sig =>
              if negb (length sig =? 65)%nat then (gate, HbBadRequest) else
              let '(g, ok) := record_by_cid cid (mkHeartbeat cid height seq) sig g in (Some g, HbRecorded ok)
          end
      end
  end.

(** ** Runs

    The second component of the state is what was accepted: heartbeat, signature, signer. *)
Inductive GateOp :=
| GBind (ldk cid lp : list Z)
| GTip (height : Z)
| GRecord (ldk : list Z) (hb : Heartbeat) (sig65 : list Z)
| GByCid (cid : list Z) (hb : Heartbeat) (sig65 : list Z).
Definition accept (hb : Heartbeat) (sig65 : list Z) (r : GateState * bool) (log : list (Heartbeat * list Z)) : GateState * list (Heartbeat * list Z) :=
  (r.1, if r.2 then log ++ [(hb, sig65)] else log).
Definition gate_step (s : GateState * list (Heartbeat * list Z)) (o : GateOp) : GateState * list (Heartbeat * list Z) :=
  match o with
  | GBind ldk cid lp => (bind ldk cid lp s.1, s.2)
  | GTip h => (set_tip h s.1, s.2)
  | GRecord ldk hb sig => accept hb sig (gate_record ldk hb sig s.1) s.2
  | GByCid cid hb sig => accept hb sig (record_by_cid cid hb sig s.1) s.2
  end.
Definition gate_run : list GateOp -> GateState * list (Heartbeat * list Z) := foldl gate_step (gate_new, []).
End Gate.

(** * Properties *)
Section Facts.
Variable keccak256 : list Z -> list Z.
Variable recover_ecdsa : list Z -> Z -> list Z -> option (list Z).
#[local] Abbreviation recover := (recover_heartbeat keccak256 recover_ecdsa).
#[local] Abbreviation run := (gate_run keccak256 recover_ecdsa).

(** A signature speaks for one heartbeat: all fields are in the preimage, at fixed widths. *)
Lemma preimage_binds a b : length (hb_channel a) = 32%nat -> length (hb_channel b) = 32%nat ->
  0 <= hb_height a <= imax u32 -> 0 <= hb_height b <= imax u32 -> 0 <= hb_seq a <= imax u64 -> 0 <= hb_seq b <= imax u64 ->
  preimage a = preimage b -> a = b.
Proof.
  cbn [imax u32 u64]. intros Ha Hb H1 H2 H3 H4 E. unfold preimage in E. apply app_inv_head in E.
  apply app_inj_1 in E as [E1 E]; [|congruence]. apply app_inj_1 in E as [E2 E3]; [|by rewrite !to_be_length].
  destruct a as [c h q], b as [c' h' q']. cbn [hb_channel hb_height hb_seq] in *. f_equal; [done| |].
  - rewrite <- (be_decode_encode 4 h), <- (be_decode_encode 4 h'), E2 by (cbn; lia). done.
  - rewrite <- (be_decode_encode 8 q), <- (be_decode_encode 8 q'), E3 by (cbn; lia). done.
Qed.

(** What was accepted carries the signature of an owner the channel was bound to, and each
    channel's numbers only rise. *)
Definition signed_by (ops : list GateOp) (e : Heartbeat * list Z) : Prop :=
  exists ldk lp, GBind ldk (hb_channel e.1) lp ∈ ops /\ recover e.1 e.2 = Some lp.
Record gate_ok (ops : list GateOp) (s : GateState * list (Heartbeat * list Z)) : Prop := {
  ok_known : forall ldk cid lp, known s.1 !! ldk = Some (cid, lp) -> GBind ldk cid lp ∈ ops;
  ok_signed : Forall (signed_by ops) s.2;
  ok_latest : forall cid hb, latest (book s.1) !! cid = Some hb -> hb_channel hb = cid /\ exists sig, (hb, sig) ∈ s.2;
  ok_highest : forall e, e ∈ s.2 -> exists hb, latest (book s.1) !! hb_channel e.1 = Some hb /\ hb_seq e.1 <= hb_seq hb }.

Lemma record_for_ok ops entry hb sig s : (forall cid lp, entry = Some (cid, lp) -> exists ldk, GBind ldk cid lp ∈ ops) ->
  gate_ok ops s -> gate_ok ops (accept hb sig (record_for keccak256 recover_ecdsa entry hb sig s.1) s.2).
Proof.
  intros He H. unfold record_for. destruct entry as [[cid lp]|]; [|by destruct s]. destruct (He _ _ eq_refl) as [ldk Hl].
  case_bool_decide as Hc; cbn [negb]; [|by destruct s]. unfold book_record. case_bool_decide as Hs; cbn [negb]; [|by destruct s as [[] ]].
  destruct (match latest (book s.1) !! hb_channel hb with Some prev => hb_seq hb <=? hb_seq prev | None => false end) eqn:Eb;
    [by destruct s as [[]]|]. destruct H as [H1 H2 H3 H4]. unfold accept. cbn [fst snd].
  assert (forall p, latest (book s.1) !! hb_channel hb = Some p -> hb_seq p < hb_seq hb) as Hlt.
  { intros p Hp. rewrite Hp in Eb. lia. }
  constructor; cbn [fst snd known book latest]; [done| | |].
  - apply Forall_app. split; [done|]. constructor; [|constructor]. exists ldk, lp. cbn [fst snd]. by rewrite Hc.
  - intros c h [[<- <-]|[_ Hh]]%lookup_insert_Some.
    + split; [done|]. exists sig. apply elem_of_app. right. apply list_elem_of_here.
    + destruct (H3 _ _ Hh) as [? [q Hq]]. split; [done|]. exists q. apply elem_of_app. by left.
  - intros e [Hin|Hin]%elem_of_app.
    + destruct (H4 _ Hin) as (p & Hp & Hle). destruct (decide (hb_channel e.1 = hb_channel hb)) as [E|E].
      * exists hb. rewrite E, lookup_insert_eq. split; [done|]. rewrite E in Hp. apply Hlt in Hp. lia.
      * exists p. by rewrite lookup_insert_ne.
    + apply list_elem_of_singleton in Hin as ->. exists hb. cbn [fst]. by rewrite lookup_insert_eq.
Qed.
Lemma gate_step_ok ops o s : o ∈ ops -> gate_ok ops s -> gate_ok ops (gate_step keccak256 recover_ecdsa s o).
Proof.
  intros Ho H. destruct o as [ldk cid lp|h|ldk hb sig|cid hb sig]; cbn [gate_step].
  - destruct H as [H1 H2 H3 H4]. constructor; try done. intros l c q. cbn [fst bind known].
    intros [[<- [= <- <-]]|[_ Hk]]%lookup_insert_Some; [done|by apply H1].
  - destruct H as [H1 H2 H3 H4]. by constructor.
  - apply record_for_ok; [|done]. intros cid lp E. exists ldk. by apply (ok_known _ _ H).
  - apply record_for_ok; [|done]. intros c lp E. set (l := List.filter _ _) in E.
    assert ((c, lp) ∈ l) as Hl by (destruct l; [done|]; injection E as ->; apply list_elem_of_here).
    apply list_elem_of_In, filter_In in Hl as [Hl _]. apply list_elem_of_In, list_elem_of_fmap in Hl as ([k [c' lp']] & [= -> ->] & Hk).
    apply elem_of_map_to_list in Hk. exists k. by apply (ok_known _ _ H).
Qed.
Lemma gate_run_ok ops : gate_ok ops (run ops).
Proof.
  unfold gate_run. assert (forall l s, l ⊆ ops -> gate_ok ops s -> gate_ok ops (foldl (gate_step keccak256 recover_ecdsa) s l)) as Hf.
  { induction l as [|o l IH]; intros s Hl Hs; [done|]. cbn [foldl]. apply IH; [set_solver|]. apply gate_step_ok; [set_solver|done]. }
  apply Hf; [done|]. constructor; cbn [fst snd gate_new known book latest].
  - intros ldk cid lp H. by rewrite lookup_empty in H.
  - constructor.
  - intros cid hb H. by rewrite lookup_empty in H.
  - intros e H. by apply not_elem_of_nil in H.
Qed.

(** A channel is offered to payers only if it is bound, and an owner it was bound to signed a
    heartbeat for it that is at most [max_age] blocks old and has the highest number of all
    accepted: no replay, and no heartbeat of another channel, makes it routable. *)
Lemma routable_attested max_age ops ldk : is_routable_ldk max_age (run ops).1 ldk = true ->
  exists cid lp hb sig lp', known (run ops).1 !! ldk = Some (cid, lp) /\ (hb, sig) ∈ (run ops).2 /\ hb_channel hb = cid /\
    (exists ldk', GBind ldk' cid lp' ∈ ops) /\ recover hb sig = Some lp' /\
    tip (run ops).1 - max_age <= hb_height hb <= tip (run ops).1 /\
    (forall e, e ∈ (run ops).2 -> hb_channel e.1 = cid -> hb_seq e.1 <= hb_seq hb).
Proof.
  destruct (gate_run_ok ops) as [H1 H2 H3 H4]. unfold is_routable_ldk, is_routable.
  destruct (known (run ops).1 !! ldk) as [[cid lp]|] eqn:Ek; [|done]. destruct (latest (book (run ops).1) !! cid) as [hb|] eqn:El; [|done].
  destruct (Z.ltb_spec (tip (run ops).1) (hb_height hb)); [done|]. intros Hage. destruct (H3 _ _ El) as [Hc [sig Hs]].
  rewrite Forall_forall in H2. destruct (H2 _ Hs) as (ldk' & lp' & Hb & Hr). cbn [fst snd] in *. rewrite Hc in Hb.
  exists cid, lp, hb, sig, lp'. split_and!; try done; [by exists ldk'|lia|].
  intros e He E. destruct (H4 _ He) as (p & Hp & Hle). rewrite E, El in Hp. by injection Hp as <-.
Qed.

(** A hint is given only for a routable channel. *)
Lemma hints_routable max_age g chans h : h ∈ route_hints (Some (max_age, g)) chans ->
  exists ch, ch ∈ chans /\ is_routable_ldk max_age g (u_ldk ch) = true /\ u_scid ch = Some h.1.
Proof.
  unfold route_hints. intros (ch & Hc & E)%list_elem_of_omap. apply list_elem_of_In, filter_In in Hc as [Hc Hr].
  exists ch. split_and!; [by apply list_elem_of_In|exact Hr|]. destruct (u_scid ch); [|done]. destruct (u_forwarding ch); [|done].
  by injection E as <-.
Qed.

(** An owner who comes back is routed with his next heartbeat. *)
Lemma heartbeat_restores max_age ldk cid lp hb sig g : known g !! ldk = Some (cid, lp) -> hb_channel hb = cid -> recover hb sig = Some lp ->
  (forall p, latest (book g) !! cid = Some p -> hb_seq p < hb_seq hb) -> tip g - max_age <= hb_height hb <= tip g ->
  is_routable_ldk max_age (gate_record keccak256 recover_ecdsa ldk hb sig g).1 ldk = true.
Proof.
  intros Hk Hc Hr Hs Hh. unfold gate_record, record_for, book_record. rewrite Hk, !bool_decide_eq_true_2 by done. cbn [negb]. subst cid.
  assert ((match latest (book g) !! hb_channel hb with Some prev => hb_seq hb <=? hb_seq prev | None => false end) = false) as ->.
  { destruct (latest (book g) !! hb_channel hb) as [p|] eqn:E; [|done]. specialize (Hs _ eq_refl). lia. }
  unfold is_routable_ldk, is_routable. cbn [fst known book latest tip]. rewrite Hk, lookup_insert_eq.
  destruct (Z.ltb_spec (tip g) (hb_height hb)); lia.
Qed.

(** A heartbeat dated ahead is no evidence when it arrives; it is kept, and becomes evidence
    when the chain reaches its height, whether or not the owner is still there. *)
Lemma postdated_becomes_live max_age ldk cid lp hb sig g h : known g !! ldk = Some (cid, lp) -> hb_channel hb = cid -> recover hb sig = Some lp ->
  latest (book g) !! cid = None -> tip g < hb_height hb <= h -> h - hb_height hb <= max_age ->
  let g' := (gate_record keccak256 recover_ecdsa ldk hb sig g).1 in
  is_routable_ldk max_age g' ldk = false /\ is_routable_ldk max_age (set_tip h g') ldk = true.
Proof.
  intros Hk Hc Hr Hl Hh Ha. unfold gate_record, record_for, book_record. rewrite Hk, !bool_decide_eq_true_2 by done. cbn [negb]. subst cid.
  rewrite Hl. unfold is_routable_ldk, is_routable. cbn [fst set_tip known book latest tip]. rewrite Hk, lookup_insert_eq.
  destruct (Z.ltb_spec (tip g) (hb_height hb)), (Z.ltb_spec h (hb_height hb)); lia.
Qed.
End Facts.
