(* ===== verification/Funding.v ===== *)
(** * Funding: what the node knows of a channel, and how its funding is proved

    The lookups of [quid-ln/quid-hop/src/node.rs] that go from a funding outpoint to the keys
    of its channel, the scripts of [funding.rs], and the parameters of an open or a splice in
    [evm_codec.rs].

    The Lightning node is a list of channels and a list of monitors.  The hash of a Merkle
    node, the consensus encoding and the aggregation of keys are a class.  Txids are in their
    internal order. *)
From Stdlib Require Import String.
From stdpp Require Import gmap strings.
From S2P Require Import Prelude Pool Chain Abi Spv Transport Client SwapIn.
Open Scope list_scope.

(** ** The node *)
Record LdkChannel := mkLdkChannel {
  l_id : list Z; l_peer : list Z; l_txo : option (list Z * Z); l_value : Z; l_usable : bool; l_shutdown : option (list Z) }.
(** The live outpoint and keys, those the channel was opened with, and the txids of splices
    that have not locked. *)
Record LdkMonitor := mkLdkMonitor {
  n_id : list Z; n_peer : list Z; n_txo : list Z * Z; n_orig_txo : list Z * Z;
  n_keys : option (list Z * list Z); n_orig_keys : option (list Z * list Z); n_pending : list (list Z) }.
Record NodeView := mkNodeView { list_channels : list LdkChannel; list_monitors : list LdkMonitor }.

Definition get_monitor (node : NodeView) (id : list Z) : option LdkMonitor :=
  head (List.filter (fun m => bool_decide (n_id m = id)) (list_monitors node)).
(** The index of an outpoint has sixteen bits. *)
Definition channel_at (node : NodeView) (txid : list Z) (vout : Z) : option LdkChannel :=
  head (List.filter (fun c => bool_decide (l_txo c = Some (txid, cast u16 vout))) (list_channels node)).
Definition channel_funding_pubkeys (node : NodeView) (txid : list Z) (vout : Z) : option (list Z * list Z) :=
  c ← channel_at node txid vout; m ← get_monitor node (l_id c); n_keys m.
Definition original_channel_funding_pubkeys (node : NodeView) (txid : list Z) (vout : Z) : option (list Z * list Z) :=
  c ← channel_at node txid vout; m ← get_monitor node (l_id c); n_orig_keys m.
Definition channel_counterparty_shutdown_script (node : NodeView) (txid : list Z) (vout : Z) : option (list Z) :=
  c ← channel_at node txid vout; l_shutdown c.
(** The stable id of a channel, from its monitor. *)
Definition onchain_cid_from_monitor (keccak256 : list Z -> list Z) (m : LdkMonitor) : option (list Z) :=
  '(h, c) ← n_orig_keys m;
  let '(k0, k1) := sort_funding_pubkeys h c in Some (channel_id keccak256 k0 k1 (n_orig_txo m).1 (n_orig_txo m).2).

(** ** The funding output *)
Class FundingLib := {
  sha256d : list Z -> list Z;
  consensus_encode : Transaction -> list Z;
  (** the outputs of a transaction, from its bytes without witnesses *)
  decode_outputs : list Z -> option (list BtcOut);
  (** the tweaked aggregate of two keys in this order, as 32 bytes *)
  musig_aggregate : list Z -> list Z -> list Z }.

(** What the explorer answers: transactions, and whether an output is spent at the n-th time
    it is asked. *)
Record Explorer := mkExplorer {
  x_client : Spv.Client;
  x_output_status : nat -> list Z -> Z -> option (option (bool * option (list Z))) }.

Section Funding.
Context `{L : FundingLib}.

Definition taproot_funding_aggregate_xonly (lp hop : list Z) : list Z :=
  let '(lo, hi) := sort_funding_pubkeys lp hop in musig_aggregate lo hi.
Definition channel_taproot_script_pubkey (lp hop : list Z) : list Z := 81 :: 32 :: taproot_funding_aggregate_xonly lp hop.

Definition inclusion (x : Explorer) (txid : list Z) (what : string) : M TxInclusion :=
  match tx_inclusion sha256d consensus_encode (x_client x) txid with inl i => mret i | inr _ => bail what end.
Definition build_open_params (x : Explorer) (txid : list Z) (vout : Z) (hop lp : list Z) : M (OpenParams * list Z * list (list Z)) :=
  let '(k0, k1) := sort_funding_pubkeys hop lp in
  incl ← inclusion x txid "funding inclusion proof";
  outs ← or_bail "decode funding tx" (decode_outputs (raw incl));
  out ← or_bail "funding vout out of range" (outs !! Z.to_nat vout);
  if negb (bool_decide (out_spk out = channel_taproot_script_pubkey k0 k1)) then bail "wrong funding pubkeys" else
  mret (mkOpenParams (block_hash_be incl) (tx_height incl) (tx_index incl) k0 k1 lp (out_value out) (taproot_funding_aggregate_xonly k0 k1),
        raw incl, merkle_proof incl).
Definition build_splice_params := build_open_params.
End Funding.

(** * Properties *)
Section Facts.
Context `{L : FundingLib}.

(** The aggregate does not depend on who is named first. *)
Lemma aggregate_comm lp hop : taproot_funding_aggregate_xonly lp hop = taproot_funding_aggregate_xonly hop lp.
Proof. unfold taproot_funding_aggregate_xonly. by rewrite sort_funding_pubkeys_comm. Qed.

(** Parameters that are built describe an output that exists: of the named transaction, at the
    named index, paying the aggregate of the two keys, with its value and its proof. *)
Record proves (x : Explorer) (txid : list Z) (vout : Z) (hop lp : list Z) (p : OpenParams) (tx : list Z) (proof : list (list Z)) : Prop := {
  pr_included : exists i, tx_inclusion sha256d consensus_encode (x_client x) txid = inl i /\ raw i = tx /\ merkle_proof i = proof /\
    funding_block_hash_be p = block_hash_be i /\ funding_block_height p = tx_height i /\ funding_tx_index p = tx_index i;
  pr_output : exists outs out, decode_outputs tx = Some outs /\ outs !! Z.to_nat vout = Some out /\
    out_spk out = channel_taproot_script_pubkey hop lp /\ out_value out = amount_sats p;
  pr_keys : (lp_pubkey p, hop_pubkey p) = sort_funding_pubkeys hop lp /\ lp_identity_pubkey p = lp /\
    funding_taproot p = taproot_funding_aggregate_xonly hop lp }.

Lemma sorted_aggregate a b k0 k1 : sort_funding_pubkeys a b = (k0, k1) -> taproot_funding_aggregate_xonly k0 k1 = taproot_funding_aggregate_xonly a b.
Proof.
  unfold taproot_funding_aggregate_xonly. intros E. rewrite E. unfold sort_funding_pubkeys in *.
  destruct (bytes_le a b) eqn:Eb; injection E as <- <-; [by rewrite Eb|].
  destruct (bytes_le b a) eqn:Ea; [done|]. apply bytes_le_total in Eb. congruence.
Qed.
Lemma build_open_params_spec x txid vout hop lp w w' p tx proof :
  build_open_params x txid vout hop lp w = (w', inl (p, tx, proof)) -> proves x txid vout hop lp p tx proof.
Proof.
  intros H. unfold build_open_params in H. destruct (sort_funding_pubkeys hop lp) as [k0 k1] eqn:Es.
  apply bind_inl in H as (w1 & i & Hi & H). apply bind_inl in H as (w2 & outs & Ho & H). apply bind_inl in H as (w3 & out & Hv & H).
  unfold inclusion in Hi. destruct (tx_inclusion _ _ _ txid) as [i'|] eqn:Ei; [|done]. injection Hi as <- <-.
  destruct (decode_outputs (raw i')) as [outs'|] eqn:Ed; [|done]. injection Ho as <- <-.
  destruct (outs' !! Z.to_nat vout) as [out'|] eqn:Eo; [|done]. injection Hv as <- <-. rename i' into i, outs' into outs, out' into out.
  case_bool_decide as Hs; cbn [negb] in H; [|done]. injection H as _ <- <- <-.
  unfold channel_taproot_script_pubkey in *. rewrite (sorted_aggregate _ _ _ _ Es) in *. constructor.
  - by exists i.
  - by exists outs, out.
  - by rewrite Es.
Qed.
Lemma quiet_inclusion x txid what : quiet (inclusion x txid what).
Proof. unfold inclusion. destruct (tx_inclusion _ _ _ _); by intros w. Qed.
Lemma quiet_build x txid vout hop lp : quiet (build_open_params x txid vout hop lp).
Proof.
  unfold build_open_params. destruct (sort_funding_pubkeys hop lp). apply quiet_bind; [apply quiet_inclusion|intros i].
  repeat (apply quiet_bind; [|intros ?]); repeat case_match; auto with quiet.
Qed.
End Facts.
