(* ===== verification/SwapOut.v ===== *)
(** * SwapOut: dollars in, bitcoin out

    The rail of [quid-bridge/src/swap_out_onchain.rs]: decode a request from its log
    ([quid-hop/src/swap.rs], [eth_logs.rs]), skip it when it is resolved, choose a channel,
    splice the bitcoin out of it ([deliver_swap_out] of [vault.rs]), prove the splice to the
    contract, or reverse; and the pass of the watcher over all requests.

    The Lightning node and the explorer are a record of their answers during a pass.  Every
    splice that is handed to the node is recorded with the swap it is for: a splice that was
    initiated may pay, whatever became of the wait for it. *)
From Stdlib Require Import String.
From stdpp Require Import gmap strings.
From S2P Require Import Prelude Pool Chain Abi Spv EvmTx Transport Client Store SwapIn Vault Funding.
Open Scope list_scope.

(** ** Requests *)
Record OnchainSwapOutRequest := mkReq {
  swapper : list Z; sats : Z; rq_token : list Z; rq_swap_id : list Z; swapper_script : list Z; request_block : Z }.

(** [d + 1] wraps in a release build. *)
Definition evm_final (request_block evm_tip min_confs : Z) : bool :=
  if evm_tip <? request_block then false else min_confs <=? cast u64 (evm_tip - request_block + 1).

(** [data.get(a..b)] *)
Definition slice (data : list Z) (a b : Z) : option (list Z) :=
  if (a <=? b) && (b <=? Z.of_nat (length data)) then Some (take (Z.to_nat (b - a)) (drop (Z.to_nat a) data)) else None.
(** [U256::from_be_slice(..).try_into()] for [u64] and [usize]. *)
Definition word_at (data : list Z) (a : Z) : option Z :=
  w ← slice data a (a + 32); let n := from_be_bytes w in if imax u64 <? n then None else Some n.
Definition checked_add (a b : Z) : option Z := if imax u64 <? a + b then None else Some (a + b).
Definition decode_swap_out_common (topics : list (list Z)) (data topic0 : list Z) : option (list Z * Z * list Z * list Z) :=
  if negb (length topics =? 3)%nat || (length data <? 128)%nat then None else
  t0 ← topics !! 0%nat; t1 ← topics !! 1%nat;
  if negb (bool_decide (t0 = topic0)) then None else
  let swapper := drop 12 (take 32 t1) in
  sats ← word_at data 0;
  token ← slice data 44 64;
  offset ← word_at data 64;
  len_end ← checked_add offset 32;
  w ← slice data offset len_end;
  len ← (let n := from_be_bytes w in if imax u64 <? n then None else Some n);
  end_ ← checked_add len_end len;
  tail ← slice data len_end end_;
  Some (swapper, sats, token, tail).
Definition SWAP_OUT_SIG : string := "SwapOutRequestedOnchain(address,uint256,address,bytes32,bytes)".
Section Requests.
Variable keccak256 : list Z -> list Z.
Definition swap_out_requested_onchain_topic : list Z := keccak256 (str_bytes SWAP_OUT_SIG).
Definition decode_swap_out_requested_onchain (topics : list (list Z)) (data : list Z) (block : Z) : option OnchainSwapOutRequest :=
  '(swapper, sats, token, script) ← decode_swap_out_common topics data swap_out_requested_onchain_topic;
  id ← topics !! 2%nat;
  Some (mkReq swapper sats token id script block).
(** [log_fields] of [eth_logs.rs]. *)
Definition log_fields (log : Value) : option (list (list Z) * list Z * Z) :=
  ts ← get_key log "topics"; ts ← as_array ts;
  topics ← mapM (fun t => s ← as_str t; hex_b32 s) ts;
  d ← get_key log "data"; d ← as_str d; data ← hex_bytes d;
  b ← get_key log "blockNumber"; b ← as_str b; block ← hex_u64 b;
  Some (topics, data, block).
Definition parse_swap_out_onchain_log (log : Value) : option OnchainSwapOutRequest :=
  '(topics, data, block) ← log_fields log; decode_swap_out_requested_onchain topics data block.
End Requests.

(** ** The node and the explorer *)
(** How the wait for a splice ended. *)
Inductive Lock := Locked (txid : list Z) (vout : Z) | SenderDropped | TimedOut.
Record NodeEnv := mkNode {
  hop : NodeView;
  (** the vault's own node *)
  vault_node : NodeView;
  o_vault : Vault;
  o_explorer : Explorer;
  (** [initiate_splice_out_to] accepts *)
  initiates : list Z -> Z -> list Z -> bool;
  lock_of : list Z -> Lock }.

Record Splice := mkSplice { sp_swap : list Z; sp_cid : list Z; sp_sats : Z; sp_script : list Z }.
(** The Ethereum side, the splices handed to the node, and the deliveries watched in the
    background after a timeout. *)
Record OutState := mkOutState { o_world : World; splices : list Splice; watched : list (OnchainSwapOutRequest * list Z) }.
Definition OM (A : Type) : Type := OutState -> OutState * (A + string).
#[export] Instance OM_ret : MRet OM := fun A a w => (w, inl a).
#[export] Instance OM_bind : MBind OM := fun A B f m w =>
  let '(w, r) := m w in match r with inl a => f a w | inr e => (w, inr e) end.
Definition lift {A} (m : M A) : OM A := fun w => let '(e, r) := m (o_world w) in (mkOutState e (splices w) (watched w), r).
Definition fail_ {A} (e : string) : OM A := fun w => (w, inr e).
Definition or_fail {A} (e : string) (o : option A) : OM A := match o with Some a => mret a | None => fail_ e end.
Definition splice_out (s : Splice) : OM unit := fun w => (mkOutState (o_world w) (splices w ++ [s]) (watched w), inl tt).
Definition watch (x : OnchainSwapOutRequest * list Z) : OM unit := fun w => (mkOutState (o_world w) (splices w) (watched w ++ [x]), inl tt).

Definition STATUS_OPEN : Z := 0.
Definition SPV_MIN_CONFIRMATIONS : Z := 6.
Definition MAX_PLAUSIBLE_GAS : Z := 15000000.
Definition MAX_ATTEMPTS : nat := 300.
Record ChannelState := mkChannelState { cs_amount_sats : Z; cs_status : Z; cs_lp_eth : list Z }.
(** [word_to_uint::<u128>] of the first word. *)
Definition word_to_u128 (bytes : list Z) : option Z :=
  if (length bytes <? 32)%nat then None else
  let n := from_be_bytes (take 32 bytes) in if imax u128 <? n then None else Some n.

Section Driver.
Context `{T : Text} `{L : FundingLib}.
Variable rpc : nat -> string -> Value -> Answer.
Variable keccak256 : list Z -> list Z.
Variable address : list Z.
Variable sign : TxFields -> list Z + string.
Variable cfg : BridgeConfig.
Variable node : NodeEnv.

Definition read_channel_state (cid : list Z) : M ChannelState :=
  l ← eth_call_raw rpc keccak256 Store.show_address (btc_channels cfg) "channels(bytes32)" cid;
  if (length l <? 160)%nat then bail "channels(bytes32): short return" else
  n ← or_bail "amountSats exceeds u128" (word_to_u128 l);
  mret (mkChannelState n (nth 159 l 0) (take 20 (drop 76 l))).
Definition candidates : list (list Z * list Z) :=
  omap (fun m => cid ← onchain_cid_from_monitor keccak256 m; Some (cid, n_peer m)) (list_monitors (hop node)).
Definition usable_peers : list (list Z) := l_peer <$> List.filter l_usable (list_channels (hop node)).
(** Candidates whose peer is connected and whose record on the chain is open and large enough;
    a read that fails only skips the candidate. *)
Fixpoint select_loop (want : Z) (cands : list (list Z * list Z)) : M (list (list Z * list Z)) :=
  match cands with
  | [] => mret []
  | (cid, cp) :: cands =>
      if negb (bool_decide (cp ∈ usable_peers)) then select_loop want cands else
      r ← try_ (read_channel_state cid);
      rest ← select_loop want cands;
      mret (match r with
            | inl st => if (cs_status st =? STATUS_OPEN) && (want <=? cs_amount_sats st) then (cid, cp) :: rest else rest
            | inr _ => rest
            end)
  end.
Definition select_delivery_channels (want : Z) : M (list (list Z * list Z)) := select_loop want candidates.

Definition swap_out_resolved (swap_id : list Z) (request_block : Z) : M bool :=
  at_ ← agreed_read_block rpc;
  if at_ <? request_block then mret false else
  pending ← eth_call_raw_at_block rpc keccak256 Store.show_address (btc_channels cfg) "pendingOnchainSwapOut(bytes32)" swap_id (fmt_hex at_);
  if (32 <=? length pending)%nat && forallb (fun b => b =? 0) (drop 12 (take 32 pending)) then mret true else
  l ← eth_call_raw_at_block rpc keccak256 Store.show_address (btc_channels cfg) "swapInUsed(bytes32)" swap_id (fmt_hex at_);
  mret (any_nonzero l).

(** [VaultNode::deliver_swap_out]. *)
Inductive Delivery := DeliveredAt (txid : list Z) (vout : Z) | InFlight | Failed.
Definition ldk_channel_for (cid : list Z) : option (list Z) :=
  first_some (fun m => c ← onchain_cid_from_monitor keccak256 m; if bool_decide (c = cid) then Some (n_id m) else None)
    (list_monitors (vault_node node)).
Definition deliver_swap_out (req : OnchainSwapOutRequest) (cid : list Z) : OM Delivery :=
  match ldk_channel_for cid with
  | None => mret Failed
  | Some ldk =>
      if negb (initiates node ldk (sats req) (swapper_script req)) then mret Failed else
      _ ← splice_out (mkSplice (rq_swap_id req) cid (sats req) (swapper_script req));
      mret (match lock_of node ldk with
            | Locked txid vout => DeliveredAt txid vout
            | SenderDropped => Failed
            | TimedOut => InFlight
            end)
  end.

Definition read_gateway_height : M Z :=
  l ← eth_call_raw rpc keccak256 Store.show_address (spv_gateway cfg) "getMainchainHeight()" [];
  or_bail "getMainchainHeight: short or too large" (word_to_u64 l).
Fixpoint wait_for_gateway_height (attempts : nat) (need : Z) : M unit :=
  match attempts with
  | O => bail "gateway height never reached"
  | S attempts => h ← read_gateway_height; if need <=? h then mret tt else wait_for_gateway_height attempts need
  end.
Definition estimate_gas (from : option (list Z)) (to data : list Z) : M Z :=
  let req := [("to"%string, Str (Store.show_address to)); ("data"%string, Str (hex_data data))] in
  v ← call rpc "eth_estimateGas" (Array [Object (match from with
        | Some a => ("from"%string, Str (Store.show_address a)) :: req | None => req end)]);
  s ← or_bail "estimateGas: no result" (as_str v);
  or_bail "estimateGas parse" (hex_u64 s).
Definition gas_limit_for (from to data : list Z) (floor : Z) : M Z :=
  r ← try_ (estimate_gas (Some from) to data);
  mret (match r with
        | inl g => if g <=? MAX_PLAUSIBLE_GAS then Z.max (sat u64 (g * 125) / 100) floor else floor
        | inr _ => floor
        end).

Definition complete_delivery (req : OnchainSwapOutRequest) (cid txid : list Z) (vout : Z) : OM unit :=
  '(pa, pb) ← or_fail "funding pubkeys not available" (channel_funding_pubkeys (hop node) txid vout);
  '(params, raw, proof) ← lift (build_splice_params (o_explorer node) txid vout pa pb);
  _ ← lift (wait_for_gateway_height MAX_ATTEMPTS (cast u64 (funding_block_height params + SPV_MIN_CONFIRMATIONS)));
  match consent_for_funding (o_vault node) (show_txid txid) vout with
  | None => mret tt
  | Some consent =>
      let data := encode_deliver_swap_out_onchain keccak256 (rq_swap_id req) cid params raw proof (swapper_script req) (c_exits consent) in
      gas ← lift (gas_limit_for address (btc_channels cfg) data (cfg_gas_limit cfg));
      ok ← lift (send_tx rpc Store.show_address address sign cfg (btc_channels cfg) data gas);
      if ok : bool then mret tt else
      resolved ← lift (swap_out_resolved (rq_swap_id req) (request_block req));
      if resolved : bool then mret tt else fail_ "deliverSwapOutOnchain reverted"
  end.
Definition reverse_swap_out_onchain (req : OnchainSwapOutRequest) : OM unit :=
  o ← lift (reverse_swap_out rpc keccak256 Store.show_address address sign cfg (rq_swap_id req) true);
  match o with
  | Delivered _ | AlreadySettled _ => mret tt
  | Undeliverable => fail_ "on-chain swap-out reversal did not land"
  end.
Fixpoint try_candidates (req : OnchainSwapOutRequest) (cands : list (list Z * list Z)) : OM unit :=
  match cands with
  | [] => reverse_swap_out_onchain req
  | (cid, _) :: cands =>
      d ← deliver_swap_out req cid;
      match d with
      | DeliveredAt txid vout => complete_delivery req cid txid vout
      | InFlight => _ ← watch (req, cid); fail_ "halted: delivery splice in flight"
      | Failed => try_candidates req cands
      end
  end.
Definition drive_swap_out_onchain (req : OnchainSwapOutRequest) : OM unit :=
  resolved ← lift (swap_out_resolved (rq_swap_id req) (request_block req));
  if resolved : bool then mret tt else
  cands ← lift (select_delivery_channels (sats req));
  match cands with
  | [] => reverse_swap_out_onchain req
  | _ => try_candidates req cands
  end.

(** ** The watcher *)
Record Watcher := mkWatcher { handled : gmap (list Z) Z; cursor : Z }.
Fixpoint drive_requests (tip : Z) (reqs : list OnchainSwapOutRequest) (h : gmap (list Z) Z) (all : bool) (st : OutState) :
    gmap (list Z) Z * bool * OutState :=
  match reqs with
  | [] => (h, all, st)
  | req :: reqs =>
      if bool_decide (is_Some (h !! rq_swap_id req)) then drive_requests tip reqs h all st
      else if negb (evm_final (request_block req) tip (min_confirmations cfg)) then drive_requests tip reqs h false st
      else match drive_swap_out_onchain req st with
           | (st, inl _) => drive_requests tip reqs (<[rq_swap_id req := tip]> h) all st
           | (st, inr _) => drive_requests tip reqs h false st
           end
  end.
(** [polled] is the answer of the log query from the cursor on, and the tip; [None] when it
    failed. *)
Definition watcher_pass (polled : option (list Value * Z)) (w : Watcher) (st : OutState) : Watcher * OutState :=
  match polled with
  | None => (w, st)
  | Some (logs, tip) =>
      let '(h, all, st) := drive_requests tip (omap (parse_swap_out_onchain_log keccak256) logs) (handled w) true st in
      if all : bool then
        let cursor := sat u64 (tip - min_confirmations cfg) in
        (mkWatcher (filter (fun kv => cursor <= kv.2) h) cursor, st)
      else (mkWatcher h (cursor w), st)
  end.
End Driver.

(** * Properties *)

(** ** Requests are read as they were emitted *)
Lemma slice_app a b c x y : x = Z.of_nat (length a) -> y = Z.of_nat (length a + length b) -> slice (a ++ b ++ c) x y = Some b.
Proof.
  intros -> ->. unfold slice. rewrite !length_app.
  rewrite (proj2 (Z.leb_le _ _)), (proj2 (Z.leb_le _ _)) by lia. cbn [andb]. f_equal.
  rewrite Nat2Z.id, drop_app_length. replace (Z.to_nat _) with (length b) by lia. apply take_app_length.
Qed.
Lemma word_at_cat a w c x : x = Z.of_nat (length a) -> length w = 32%nat -> 0 <= from_be_bytes w <= imax u64 ->
  word_at (a ++ w ++ c) x = Some (from_be_bytes w).
Proof.
  intros Hx Hw Hr. unfold word_at. rewrite (slice_app a w c) by lia. cbn [mbind option_bind].
  by rewrite (proj2 (Z.ltb_ge _ _)) by lia.
Qed.
Record wf_request (r : OnchainSwapOutRequest) : Prop := {
  wr_swapper : length (swapper r) = 20%nat; wr_token : length (rq_token r) = 20%nat;
  wr_sats : 0 <= sats r <= imax u64; wr_script : Z.of_nat (length (swapper_script r)) <= 10000 }.

(** What the contract emits is what the watcher reads. *)
Lemma request_roundtrip keccak256 r : wf_request r ->
  decode_swap_out_requested_onchain keccak256 [swap_out_requested_onchain_topic keccak256; address_word (swapper r); rq_swap_id r]
    (encode_tuple [Uint (sats r); Abi.Address (rq_token r); Bytes (swapper_script r)]) (request_block r) = Some r.
Proof.
  intros [Hs Ht Hv Hl]. unfold decode_swap_out_requested_onchain, decode_swap_out_common.
  assert (encode_tuple [Uint (sats r); Abi.Address (rq_token r); Bytes (swapper_script r)] =
    to_be_bytes 32 (sats r) ++ address_word (rq_token r) ++ word_u64 96 ++ encode_bytes (swapper_script r)) as E.
  { rewrite encode_tuple_eq. cbn. rewrite ?app_nil_r. by rewrite <-!app_assoc. }
  rewrite E. clear E. set (script := swapper_script r) in *. cbn [imax u64] in Hv.
  set (pad := replicate ((32 - length script mod 32) mod 32) 0).
  assert (encode_bytes script = word_u64 (length script) ++ script ++ pad) as -> by done.
  set (A := to_be_bytes 32 (sats r)). set (Bw := address_word (rq_token r)). set (Cw := word_u64 96). set (D := word_u64 (length script)).
  assert (length A = 32%nat) as HA by apply to_be_length.
  assert (length Bw = 32%nat) as HB by (unfold Bw, address_word; by rewrite length_app, length_replicate, Ht).
  assert (length Cw = 32%nat) as HC by apply word_length. assert (length D = 32%nat) as HD by apply word_length.
  assert (from_be_bytes A = sats r) as VA by (apply be_decode_encode; change (256 ^ Z.of_nat 32) with (2 ^ 256); lia).
  assert (from_be_bytes Cw = 96) as VC by (by vm_compute).
  assert (from_be_bytes D = Z.of_nat (length script)) as VD.
  { unfold D, word_u64. rewrite from_be_zeros. apply be_decode_encode. change (256 ^ Z.of_nat 8) with (2 ^ 64). lia. }
  clearbody A Cw D pad. cbn [length Nat.eqb negb orb lookup list_lookup mbind option_bind].
  rewrite (proj2 (Nat.ltb_ge _ _)) by (rewrite !length_app; lia). rewrite bool_decide_true by done. cbn [negb].
  assert (word_at (A ++ Bw ++ Cw ++ D ++ script ++ pad) 0 = Some (from_be_bytes A)) as ->
    by (apply (word_at_cat [] A); [done..|cbn [imax u64]; lia]).
  cbn [mbind option_bind].
  assert (slice (A ++ Bw ++ Cw ++ D ++ script ++ pad) 44 64 = Some (rq_token r)) as ->.
  { unfold Bw, address_word. rewrite <-app_assoc, (app_assoc A). apply slice_app; rewrite length_app, length_replicate; lia. }
  cbn [mbind option_bind]. rewrite (app_assoc A). rewrite (word_at_cat (A ++ Bw) Cw) by (rewrite ?length_app, ?VC; cbn [imax u64]; lia).
  rewrite VC. cbn [mbind option_bind]. change (checked_add 96 32) with (Some 128). cbn [mbind option_bind].
  rewrite (app_assoc (A ++ Bw)). rewrite (slice_app ((A ++ Bw) ++ Cw) D) by (rewrite !length_app; lia). cbn [mbind option_bind].
  rewrite VD. rewrite (proj2 (Z.ltb_ge _ _)) by (cbn [imax u64]; lia). cbn [mbind option_bind].
  unfold checked_add. rewrite (proj2 (Z.ltb_ge _ _)) by (cbn [imax u64]; lia). cbn [mbind option_bind].
  rewrite (app_assoc ((A ++ Bw) ++ Cw)). rewrite (slice_app (((A ++ Bw) ++ Cw) ++ D) script) by (rewrite !length_app; lia). cbn [mbind option_bind].
  rewrite VA. unfold address_word. rewrite take_ge by (rewrite length_app, length_replicate; lia).
  rewrite drop_app_length' by done. by destruct r.
Qed.

(** ** One drive, at most one splice *)
Definition silent {A} (m : OM A) : Prop := forall st, splices (m st).1 = splices st.
Lemma silent_ret {A} (a : A) : silent (mret a).
Proof. done. Qed.
Lemma silent_fail {A} e : silent (fail_ e : OM A).
Proof. done. Qed.
Lemma silent_lift {A} (m : M A) : silent (lift m).
Proof. intros st. unfold lift. by destruct (m (o_world st)). Qed.
Lemma silent_or_fail {A} e (o : option A) : silent (or_fail e o).
Proof. by destruct o. Qed.
Lemma silent_bind {A B} (m : OM A) (f : A -> OM B) : silent m -> (forall a, silent (f a)) -> silent (m ≫= f).
Proof.
  intros Hm Hf st. unfold mbind, OM_bind. specialize (Hm st). destruct (m st) as [st1 [a|e]]; [|done]. by rewrite Hf.
Qed.
Create HintDb silent.
#[local] Hint Resolve silent_ret silent_fail silent_lift silent_or_fail : silent.
Ltac silent := repeat (first [apply silent_bind; [auto with silent|intros ?] | progress case_match]); auto with silent.

Section DriverFacts.
Context `{T : Text} `{L : FundingLib}.
Variable rpc : nat -> string -> Value -> Answer.
Variable keccak256 : list Z -> list Z.
Variable address : list Z.
Variable sign : TxFields -> list Z + string.
Variable cfg : BridgeConfig.
Variable node : NodeEnv.
#[local] Abbreviation complete := (complete_delivery rpc keccak256 address sign cfg node).
#[local] Abbreviation reverse_ := (reverse_swap_out_onchain rpc keccak256 address sign cfg).
#[local] Abbreviation drive := (drive_swap_out_onchain rpc keccak256 address sign cfg node).

Lemma silent_complete req cid txid vout : silent (complete req cid txid vout).
Proof. unfold complete_delivery. silent. Qed.
Lemma silent_reverse req : silent (reverse_ req).
Proof. unfold reverse_swap_out_onchain. silent. Qed.

Definition splice_for (req : OnchainSwapOutRequest) (cid : list Z) : Splice := mkSplice (rq_swap_id req) cid (sats req) (swapper_script req).
(** The splices a drive gave up on: handed to the node on a channel whose wait then lost its
    sender. *)
Definition dropped_on (cid : list Z) : Prop :=
  exists ldk, ldk_channel_for keccak256 node cid = Some ldk /\ lock_of node ldk = SenderDropped.
Definition given_up (req : OnchainSwapOutRequest) (lost : list (list Z)) : list Splice := map (splice_for req) lost.
(** How a drive can end, having given up on [lost]: resolved already; unreadable; reversed, and
    then nothing else was spliced; one more splice, proved to the contract; one more splice,
    still in flight and watched. *)
Inductive ends (req : OnchainSwapOutRequest) (lost : list (list Z)) (st : OutState) : OutState * (unit + string) -> Prop :=
| ends_resolved st1 : lost = [] -> splices st1 = splices st -> ends req lost st (st1, inl tt)
| ends_unread st1 e : lost = [] -> splices st1 = splices st -> ends req lost st (st1, inr e)
| ends_reversed st1 : splices st1 = splices st ++ given_up req lost -> ends req lost st (reverse_ req st1)
| ends_delivered st1 cid txid vout : splices st1 = splices st ++ given_up req lost ++ [splice_for req cid] ->
    lock_of node (default [] (ldk_channel_for keccak256 node cid)) = Locked txid vout -> ends req lost st (complete req cid txid vout st1)
| ends_watched st1 cid e : splices st1 = splices st ++ given_up req lost ++ [splice_for req cid] -> (req, cid) ∈ watched st1 ->
    ends req lost st (st1, inr e).

Lemma try_candidates_ends req cands st st0 lost0 : Forall dropped_on lost0 -> splices st = splices st0 ++ given_up req lost0 ->
  exists lost, Forall dropped_on lost /\ ends req lost st0 (try_candidates rpc keccak256 address sign cfg node req cands st).
Proof.
  revert st lost0. induction cands as [|[cid cp] cands IH]; intros st lost0 Hd Hs; cbn [try_candidates].
  { exists lost0. split; [done|]. by apply ends_reversed. }
  unfold mbind at 1, OM_bind at 1, deliver_swap_out.
  destruct (ldk_channel_for keccak256 node cid) as [ldk|] eqn:El; [|by apply (IH _ lost0)].
  destruct (initiates node ldk (sats req) (swapper_script req)); [|by apply (IH _ lost0)]. cbn [negb].
  unfold mbind at 1, OM_bind at 1, splice_out. set (st1 := mkOutState _ _ _). cbn [mret OM_ret].
  assert (splices st1 = splices st0 ++ given_up req lost0 ++ [splice_for req cid]) as H1
    by (subst st1; cbn [splices]; by rewrite Hs, <- app_assoc).
  destruct (lock_of node ldk) as [txid vout| |] eqn:Ek.
  - exists lost0. split; [done|]. apply ends_delivered; [done|]. by rewrite El.
  - apply (IH _ (lost0 ++ [cid])); [apply Forall_app_2; [done|]; constructor; [by exists ldk|done]|].
    rewrite H1. unfold given_up. by rewrite map_app.
  - exists lost0. split; [done|]. unfold mbind, OM_bind, watch. apply (ends_watched _ _ _ _ cid); [done|].
    cbn [watched]. apply elem_of_app. right. apply list_elem_of_here.
Qed.

Lemma drive_ends req st : exists lost, Forall dropped_on lost /\ ends req lost st (drive req st).
Proof.
  unfold drive_swap_out_onchain. unfold mbind at 1, OM_bind at 1. set (m := swap_out_resolved _ _ _ _ _).
  pose proof (silent_lift m st) as Hs. destruct (lift m st) as [st1 [b|e]]; cbn [fst] in Hs; [|exists []; split; [done|by apply ends_unread]].
  destruct b; [exists []; split; [done|by apply ends_resolved]|]. unfold mbind, OM_bind. set (m2 := select_delivery_channels _ _ _ _ _).
  pose proof (silent_lift m2 st1) as Hs2. destruct (lift m2 st1) as [st2 [c|e]]; cbn [fst] in Hs2; [|exists []; split; [done|apply ends_unread; congruence]].
  assert (splices st2 = splices st ++ given_up req []) as H0 by (cbn; rewrite app_nil_r; congruence).
  destruct c; [exists []; split; [done|by apply ends_reversed]|]. by apply (try_candidates_ends _ _ _ _ []).
Qed.


(** ** What the watcher remembers *)
Lemma drive_requests_handled tip reqs h all st h' all' st' :
  drive_requests rpc keccak256 address sign cfg node tip reqs h all st = (h', all', st') ->
  (forall k, is_Some (h !! k) -> is_Some (h' !! k)) /\
  (forall k t, h' !! k = Some t -> h !! k = Some t \/ t = tip) /\
  (all' = true -> all = true /\ Forall (fun r => is_Some (h' !! rq_swap_id r)) reqs).
Proof.
  revert h all st. induction reqs as [|r reqs IH]; intros h all st; cbn [drive_requests].
  { intros [= <- <- <-]. split_and!; eauto. }
  case_bool_decide as Hh.
  { intros E. destruct (IH _ _ _ E) as (H1 & H2 & H3). split_and!; [done..|]. intros Ha. destruct (H3 Ha). split; [done|].
    constructor; [by apply H1|done]. }
  destruct (evm_final _ _ _); cbn [negb].
  - destruct (drive r st) as [st1 [u|e]].
    + intros E. destruct (IH _ _ _ E) as (H1 & H2 & H3). split_and!.
      * intros k Hk. apply H1. destruct (decide (rq_swap_id r = k)) as [<-|]; [rewrite lookup_insert_eq; eauto|by rewrite lookup_insert_ne].
      * intros k t Hk. destruct (H2 k t Hk) as [Hi|]; [|by right]. destruct (decide (rq_swap_id r = k)) as [<-|].
        -- rewrite lookup_insert_eq in Hi. right. congruence.
        -- left. by rewrite lookup_insert_ne in Hi.
      * intros Ha. destruct (H3 Ha). split; [done|]. constructor; [|done]. apply H1. rewrite lookup_insert_eq. eauto.
    + intros E. destruct (IH _ _ _ E) as (H1 & H2 & H3). split_and!; [done..|]. intros Ha. by destruct (H3 Ha).
  - intros E. destruct (IH _ _ _ E) as (H1 & H2 & H3). split_and!; [done..|]. intros Ha. by destruct (H3 Ha).
Qed.
(** The cursor passes a request only when the request was driven to its end. *)
Lemma cursor_waits logs tip w st w' st' :
  watcher_pass rpc keccak256 address sign cfg node (Some (logs, tip)) w st = (w', st') ->
  cursor w' = cursor w \/
  Forall (fun r => exists t, (handled w !! rq_swap_id r = Some t \/ t = tip) /\
            (cursor w' <= t -> handled w' !! rq_swap_id r = Some t))
    (omap (parse_swap_out_onchain_log keccak256) logs).
Proof.
  unfold watcher_pass. destruct (drive_requests _ _ _ _ _ _ _ _ _ _ _) as [[h all] st1] eqn:E.
  apply drive_requests_handled in E as (_ & H2 & H3). destruct all; intros [= <- <-]; [|by left]. right.
  destruct (H3 eq_refl) as [_ Hf]. eapply Forall_impl; [exact Hf|]. cbn [cursor handled]. intros r [t Ht]. exists t.
  split; [by apply H2|]. intros Hc. by rewrite map_lookup_filter, Ht; cbn; rewrite option_guard_True.
Qed.
End DriverFacts.

(** ** Samples

    One request of 500 satoshis at block 100, at height 300; selectors are the lengths of the
    signatures. *)
Module SwapOutSample.
#[local] Existing Instance StoreSample.text.
Definition hash (l : list Z) : list Z := replicate 32 (Z.of_nat (length l) mod 256).
Definition word (n : Z) : list Z := to_be_bytes 32 n.
Definition data_of (params : Value) : string :=
  default ""%string (v ← get_index params 0; d ← get_key v "data"; as_str d).
(** The chain: [cleared] says whether the obligation is gone. *)
Definition truth (cleared : bool) (method : string) (params : Value) : Value :=
  if String.eqb method "eth_blockNumber" then Str (fmt_hex 300)
  else if String.eqb method "eth_call" then
    let d := data_of params in
    Str (hex_data (if String.prefix "0x1e1e1e1e" d then word (if cleared then 0 else 77)
                   else if String.prefix "0x11111111" d then word 1000 ++ word 0 ++ word 0 ++ word 0 ++ word 0
                   else if String.prefix "0x14141414" d then word 5000
                   else word 0))
  else if String.eqb method "eth_getTransactionReceipt" then
    Object [("status"%string, Str "0x1"); ("blockNumber"%string, Str (fmt_hex 300))]
  else Str "0x3b9aca00".
Definition honest (cleared : bool) : Endpoint := fun method params => inl (truth cleared method params).
(** Says that the chain is at block 50. *)
Definition behind (cleared : bool) : Endpoint := fun method params =>
  if String.eqb method "eth_blockNumber" then inl (Str (fmt_hex 50)) else inl (truth cleared method params).
Definition net (first : Endpoint) (cleared : bool) : nat -> string -> Value -> Answer :=
  quorum_rpc (fun _ => mkQuorum [first; honest cleared; honest cleared] 2 []).
(** A funding library in which the only output of a transaction pays the aggregate [3; 4]. *)
#[export] Instance lib : FundingLib := {|
  sha256d := fun l => l; consensus_encode := fun _ => [1];
  decode_outputs := fun _ => Some [mkOut 500 [81; 32; 3; 4]]; musig_aggregate := fun a b => a ++ b |}.
Definition spliced : list Z := replicate 32 5.
Definition explorer : Explorer :=
  mkExplorer (mkClient (fun _ => Some (Some (mkTx 0 [] []))) (fun _ => Some (mkStatus (Some [1]) (Some 1000))) (fun _ => Some [spliced]))
    (fun _ _ _ => None).
Definition monitor (n : Z) : LdkMonitor :=
  mkLdkMonitor [n] [2] (spliced, 0) (replicate 32 n, 0) (Some ([3], [4])) (Some ([3], [4])) [].
(** The channels: where their funding is, once a splice has locked and before. *)
Definition view (locked : bool) (ns : list Z) : NodeView :=
  mkNodeView (map (fun n => mkLdkChannel [n] [2] (Some (if locked then spliced else replicate 32 n, 0)) 500 true None) ns) (map monitor ns).
Definition vault (ladder : bool) : Vault :=
  let v := mkVault registry_new None in
  if ladder then (bind_consent (hex_data spliced) 0 (mkConsent (mkOpenAuth [] [] []) []) v).1 else v.
Definition node (lock : Lock) (ladder : bool) (ns : list Z) : NodeEnv :=
  mkNode (view true ns) (view true ns) (vault ladder) explorer (fun _ _ _ => true) (fun _ => lock).
(** Negotiated and not locked: the node refuses another splice of the channel. *)
Definition unlocked (first : bool) (ns : list Z) : NodeEnv :=
  mkNode (view false ns) (view false ns) (vault true) explorer (fun _ _ _ => first) (fun _ => Locked spliced 0).
Definition request : OnchainSwapOutRequest := mkReq (replicate 20 6) 500 (replicate 20 7) (replicate 32 8) [0; 20; 9] 100.
Definition log : Value :=
  Object [("topics"%string, Array [Str (hex_data (swap_out_requested_onchain_topic hash)); Str (hex_data (address_word (swapper request)));
                                   Str (hex_data (rq_swap_id request))]);
          ("data"%string, Str (hex_data (encode_tuple [Uint (sats request); Abi.Address (rq_token request); Bytes (swapper_script request)])));
          ("blockNumber"%string, Str (fmt_hex 100))].
Definition start : OutState := mkOutState ClientSample.start [] [].
Definition fresh : Watcher := mkWatcher ∅ 90.
Definition pass (first : Endpoint) (cleared : bool) (n : NodeEnv) (s : Watcher * OutState) : Watcher * OutState :=
  watcher_pass (net first cleared) hash [] ClientSample.sign TransportSample.cfg n (Some ([log], 300)) s.1 s.2.
End SwapOutSample.
#[local] Existing Instances StoreSample.text SwapOutSample.lib.


(** A splice that is still in flight counts as a failure for the watcher, which drives the
    request again in every pass and hands the node another splice. *)
Lemma in_flight_spliced_again :
  let n := SwapOutSample.node TimedOut true [1] in
  let s := Nat.iter 3 (SwapOutSample.pass (SwapOutSample.honest false) false n) (SwapOutSample.fresh, SwapOutSample.start) in
  map sp_swap (splices s.2) = replicate 3 (rq_swap_id SwapOutSample.request) /\ cursor s.1 = 90.
Proof. split; by vm_compute. Qed.
(** A locked splice whose exit ladder is not there yet counts as done: it is not submitted in
    this session, and after a restart the bitcoin is spliced out a second time. *)
Lemma no_ladder_forgotten :
  let n := SwapOutSample.node (Locked SwapOutSample.spliced 0) false [1] in
  let s := SwapOutSample.pass (SwapOutSample.honest false) false n (SwapOutSample.fresh, SwapOutSample.start) in
  let again := SwapOutSample.pass (SwapOutSample.honest false) false n s in
  let restarted := SwapOutSample.pass (SwapOutSample.honest false) false n (SwapOutSample.fresh, s.2) in
  sent_log (o_world s.2) = [] /\ cursor s.1 = 294 /\
  length (splices again.2) = 1%nat /\ length (splices restarted.2) = 2%nat.
Proof. split_and!; by vm_compute. Qed.
(** The block at which resolution is read comes from the first endpoint that answers: one that
    reports an old height makes a delivered swap-out look open, and it is delivered again. *)
Lemma stale_height_redelivers :
  let n := SwapOutSample.node (Locked SwapOutSample.spliced 0) true [1] in
  splices (SwapOutSample.pass (SwapOutSample.honest true) true n (SwapOutSample.fresh, SwapOutSample.start)).2 = [] /\
  length (splices (SwapOutSample.pass (SwapOutSample.behind true) true n (SwapOutSample.fresh, SwapOutSample.start)).2) = 1%nat.
Proof. split; by vm_compute. Qed.
(** When the wait ends because its sender is gone, the splice has been handed over all the
    same, and the next channel is tried. *)
Lemma dropped_sender_pays_twice :
  let n := SwapOutSample.node SenderDropped true [1; 2] in
  length (splices (SwapOutSample.pass (SwapOutSample.honest false) false n (SwapOutSample.fresh, SwapOutSample.start)).2) = 2%nat.
Proof. by vm_compute. Qed.
(** The event the wait ends with is sent when a splice is negotiated, not when it locks.  Until
    then the node has no channel at the new outpoint, so the delivery fails after the splice;
    in the next pass the node refuses a second splice, which counts as a channel that cannot
    deliver, and the request is reversed: the dollars go back and the bitcoin has left. *)
Lemma unlocked_splice_reversed :
  let pass first s := SwapOutSample.pass (SwapOutSample.honest false) false (SwapOutSample.unlocked first [1]) s in
  let s1 := pass true (SwapOutSample.fresh, SwapOutSample.start) in
  let s2 := pass false s1 in
  length (splices s1.2) = 1%nat /\ sent_log (o_world s1.2) = [] /\
  map tx_data (sent_log (o_world s2.2)) = [reverse_swap_out_calldata SwapOutSample.hash (rq_swap_id SwapOutSample.request) true].
Proof. split_and!; by vm_compute. Qed.
