(* ===== verification/Driver.v ===== *)
(** * Driver: mirroring the channels on Ethereum

    [quid-ln/quid-bridge/src/channel_driver.rs]: the four drives that record an open, a close,
    a forced close and a splice, the task that starts them from events of the node, and the
    reconciler that starts them from what node, explorer and contract show.

    A drive is one sequence of requests; the registry of [Vault] is read and cleared by it.
    Drives run as tasks beside each other: the state holds the tasks that have been started,
    and a task takes effect when it ends.  The text of a revert reason is not modelled, only
    the request for it.  The fee flush, whose amount is the constant zero, changes nothing and
    is left out. *)
From Stdlib Require Import String.
From stdpp Require Import gmap strings.
From S2P Require Import Prelude Pool Chain Abi Spv EvmTx Transport Client Store SwapIn Vault Funding Liveness SwapOut.
Open Scope list_scope.

Definition STATUS_CLOSED : Z := 2.
Inductive CloseKind := Cooperative | Force.
Definition classify_close (locktime : Z) : CloseKind := if locktime =? 0 then Cooperative else Force.

Inductive ReconcileAction := DoOpen | DoClose | DoForceClose | DoSplice.
Definition select_reconcile_action (spent : bool) (close_txid : option (list Z)) (close_is_commitment : bool)
    (status amount ldk_value : Z) (pending : list (list Z)) : option ReconcileAction :=
  if spent && (status =? STATUS_OPEN) then
    if match close_txid with Some t => bool_decide (t ∈ pending) | None => false end then None
    else if close_is_commitment then Some DoForceClose else Some DoClose
  else if negb spent && (amount =? 0) then Some DoOpen
  else if negb spent && (status =? STATUS_OPEN) && negb (ldk_value =? amount) then Some DoSplice
  else None.

(** ** The drives *)
Section Drives.
Context `{T : Text} `{L : FundingLib}.
Variable rpc : nat -> string -> Value -> Answer.
Variable keccak256 : list Z -> list Z.
Variable address : list Z.
Variable sign : TxFields -> list Z + string.
Variable cfg : BridgeConfig.
Variable node : NodeView.
Variable x : Explorer.
#[local] Abbreviation read_state := (read_channel_state rpc keccak256 cfg).

Definition read_pending_claim (cid : list Z) : M Z :=
  l ← eth_call_raw rpc keccak256 Store.show_address (btc_channels cfg) "pendingClaimSats(bytes32)" cid;
  if (length l <? 32)%nat then bail "pendingClaimSats(bytes32): short return" else or_bail "exceeds u128" (word_to_u128 l).
Definition estimate_gas_and_send (data : list Z) : M bool :=
  gas ← gas_limit_for rpc address (btc_channels cfg) data (cfg_gas_limit cfg);
  send_tx rpc Store.show_address address sign cfg (btc_channels cfg) data gas.
(** The request of [eth_call_revert_reason]. *)
Definition revert_probe (data : list Z) : M unit :=
  _ ← try_ (call rpc "eth_call" (Array [Object [("from"%string, Str (Store.show_address address));
              ("to"%string, Str (Store.show_address (btc_channels cfg))); ("data"%string, Str (hex_data data))]; Str "latest"]));
  mret tt.

(** The wait for the spend of an outpoint. *)
Fixpoint poll_spend (attempts i : nat) (txid : list Z) (vout : Z) : M (list Z) :=
  match attempts with
  | O => bail "funding outpoint not seen spent"
  | S attempts =>
      match x_output_status x i txid vout with
      | None => bail "get_output_status"
      | Some (Some (true, Some t)) => mret t
      | Some _ => poll_spend attempts (S i) txid vout
      end
  end.
Definition get_close_tx (txid : list Z) : M Transaction :=
  match get_tx (x_client x) txid with
  | Some (Some tx) => mret tx
  | Some None => bail "close tx not found"
  | None => bail "get close tx"
  end.
(** Only the keys of these parameters are read by the contract. *)
Definition close_params (lp hop_ : list Z) : OpenParams :=
  let '(k0, k1) := sort_funding_pubkeys lp hop_ in
  mkOpenParams (replicate 32 0) 0 0 k0 k1 lp 0 (taproot_funding_aggregate_xonly k0 k1).
Definition drive_close (txid : list Z) (vout : Z) (known_cid : option (list Z)) (keys : option (list Z * list Z))
    (known_close : option (list Z)) : M unit :=
  close ← match known_close with
          | Some t => mret t
          | None => poll_spend (Nat.max (receipt_poll_attempts cfg) 1) 0 txid vout
          end;
  tx ← get_close_tx close;
  cid ← match known_cid with
        | Some c => mret c
        | None => '(lp, hop_) ← or_bail "known_cid is None and no stored funding pubkeys supplied" keys;
                  let '(k0, k1) := sort_funding_pubkeys lp hop_ in mret (channel_id keccak256 k0 k1 txid vout)
        end;
  st ← read_state cid;
  if cs_amount_sats st =? 0 then mret tt else
  if cs_status st =? STATUS_CLOSED then mret tt else
  incl ← inclusion x close "close tx inclusion proof";
  _ ← wait_for_gateway_height rpc keccak256 cfg MAX_ATTEMPTS (cast u64 (tx_height incl + SPV_MIN_CONFIRMATIONS));
  '(lp, hop_) ← or_bail "recordClose needs the channel's funding pubkeys" keys;
  let data := encode_record_close keccak256 cid (close_params lp hop_) (raw incl) (block_hash_be incl) (merkle_proof incl) (tx_index incl) in
  ok ← estimate_gas_and_send data;
  if ok : bool then mret tt else
  st ← read_state cid;
  if cs_status st =? STATUS_CLOSED then mret tt else
  _ ← revert_probe data;
  bail (match classify_close (lock_time tx) with
        | Cooperative => "recordClose (cooperative) reverted"
        | Force => "recordClose (non-coop) reverted"
        end).

Definition drive_force_close (cid close : list Z) : M unit :=
  tx ← get_close_tx close;
  if negb (is_commitment_tx tx) then bail "not a BOLT#3 commitment tx" else
  st ← read_state cid;
  if cs_amount_sats st =? 0 then mret tt else
  if cs_status st =? STATUS_CLOSED then mret tt else
  incl ← inclusion x close "force-close tx inclusion proof";
  _ ← wait_for_gateway_height rpc keccak256 cfg MAX_ATTEMPTS (cast u64 (tx_height incl + SPV_MIN_CONFIRMATIONS));
  ok ← estimate_gas_and_send
         (encode_record_force_close_permissionless keccak256 cid (raw incl) (block_hash_be incl) (merkle_proof incl) (tx_index incl));
  if ok : bool then mret tt else
  st ← read_state cid;
  if cs_status st =? STATUS_CLOSED then mret tt else bail "recordForceClosePermissionless reverted".

Definition is_key_path_p2tr (b : list Z) : bool := (length b =? 34)%nat && (nth 0 b 0 =? 81) && (nth 1 b 0 =? 32).
Definition drive_open (v : Vault) (txid : list Z) (vout : Z) : M Vault :=
  '(pa, pb) ← or_bail "funding pubkeys not available" (channel_funding_pubkeys node txid vout);
  spk ← or_bail "LP committed no upfront shutdown script" (channel_counterparty_shutdown_script node txid vout);
  if negb (is_key_path_p2tr spk) then bail "LP committed shutdown script is not key-path P2TR" else
  '(params, raw, proof) ← build_open_params x txid vout pa pb;
  let cid := channel_id keccak256 (lp_pubkey params) (hop_pubkey params) txid vout in
  st ← read_state cid;
  if negb (cs_amount_sats st =? 0) then mret v else
  _ ← wait_for_gateway_height rpc keccak256 cfg MAX_ATTEMPTS (cast u64 (funding_block_height params + SPV_MIN_CONFIRMATIONS));
  match lp_for_funding v (show_txid txid) vout with
  | None => mret v
  | Some _ =>
      match consent_for_funding v (show_txid txid) vout with
      | None => mret v
      | Some c =>
          let data := encode_open_channel keccak256 params raw proof (c_auth c) (c_exits c) in
          ok ← estimate_gas_and_send data;
          if ok : bool then mret (clear_inflight (show_txid txid) vout v) else
          st ← read_state cid;
          if negb (cs_amount_sats st =? 0) then mret v else
          _ ← revert_probe data;
          bail "openChannel reverted"
      end
  end.

Definition drive_splice (v : Vault) (cid txid : list Z) (vout : Z) : M Vault :=
  '(pa, pb) ← or_bail "funding pubkeys not available for splice" (channel_funding_pubkeys node txid vout);
  '(params, raw, proof) ← build_splice_params x txid vout pa pb;
  st ← read_state cid;
  if cs_amount_sats st =? 0 then bail "splice: channel not open on EVM" else
  if negb (cs_status st =? STATUS_OPEN) then bail "splice: channel not STATUS_OPEN" else
  if amount_sats params =? cs_amount_sats st then mret v else
  _ ← wait_for_gateway_height rpc keccak256 cfg MAX_ATTEMPTS (cast u64 (funding_block_height params + SPV_MIN_CONFIRMATIONS));
  match consent_for_funding v (show_txid txid) vout with
  | None => mret v
  | Some c =>
      ok ← estimate_gas_and_send (encode_splice keccak256 cid params raw proof (c_exits c));
      if ok : bool then mret (clear_inflight (show_txid txid) vout v) else
      st ← read_state cid;
      if cs_amount_sats st =? amount_sats params then mret v else bail "splice reverted"
  end.
End Drives.

(** ** The tasks

    A task holds the slot of its channel, if it has one, until it ends.  A close that an event
    started carries the id of the node's channel, whose mapping it drops when it succeeds. *)
Inductive Task :=
| TOpen (slot : option (list Z)) (txid : list Z) (vout : Z)
| TClose (slot : option (list Z)) (ldk : option (list Z)) (txid : list Z) (vout : Z) (known : option (list Z))
    (keys : option (list Z * list Z)) (close : option (list Z))
| TForceClose (cid : list Z) (close : option (list Z))
| TSplice (cid : list Z) (txid : list Z) (vout : Z).
Definition slot_of (t : Task) : option (list Z) :=
  match t with
  | TOpen slot _ _ => slot
  | TClose slot _ _ _ _ _ _ => slot
  | TForceClose cid _ => Some cid
  | TSplice cid _ _ => Some cid
  end.
(** The registry, the store it shares with the driver when it is durable, the map from the
    node's channel ids to the contract's, the slots in use, and the tasks. *)
Record DState := mkD {
  d_world : World; d_reg : VaultRegistry; d_durable : bool; d_store : Persisted;
  d_cids : gmap (list Z) (list Z); active : gset (list Z); tasks : list Task; gate : option GateState }.
Definition vault_of (st : DState) : Vault := mkVault (d_reg st) (if d_durable st then Some (d_store st) else None).
Definition with_vault (v : Vault) (st : DState) : DState :=
  mkD (d_world st) (v_reg v) (d_durable st) (default (d_store st) (v_store v)) (d_cids st) (active st) (tasks st) (gate st).
Definition with_world (w : World) (st : DState) : DState :=
  mkD w (d_reg st) (d_durable st) (d_store st) (d_cids st) (active st) (tasks st) (gate st).
Definition with_map (m : gmap (list Z) (list Z)) (s : Persisted) (st : DState) : DState :=
  mkD (d_world st) (d_reg st) (d_durable st) s m (active st) (tasks st) (gate st).
Definition with_gate (g : option GateState) (st : DState) : DState :=
  mkD (d_world st) (d_reg st) (d_durable st) (d_store st) (d_cids st) (active st) (tasks st) g.
Definition with_tasks (a : gset (list Z)) (l : list Task) (st : DState) : DState :=
  mkD (d_world st) (d_reg st) (d_durable st) (d_store st) (d_cids st) a l (gate st).
(** [ActiveSlot::claim] with the start of the task, and [ActiveSlot::drop] with its end. *)
Definition spawn (t : Task) (st : DState) : DState :=
  match slot_of t with
  | Some cid => if bool_decide (cid ∈ active st) then st else with_tasks ({[cid]} ∪ active st) (tasks st ++ [t]) st
  | None => with_tasks (active st) (tasks st ++ [t]) st
  end.
Definition release (i : nat) (t : Task) (st : DState) : DState :=
  with_tasks (match slot_of t with Some cid => active st ∖ {[cid]} | None => active st end) (delete i (tasks st)) st.

Section Tasks.
Context `{T : Text} `{L : FundingLib}.
Variable rpc : nat -> string -> Value -> Answer.
Variable keccak256 : list Z -> list Z.
Variable address : list Z.
Variable sign : TxFields -> list Z + string.
Variable cfg : BridgeConfig.

(** One event of [run_channel_driver]. *)
Definition on_event (node : NodeView) (ev : ChannelLifecycleEvent) (st : DState) : DState :=
  match ev with
  | Ready ldk txid vout =>
      match original_channel_funding_pubkeys node txid vout with
      | Some (pa, pb) =>
          let '(k0, k1) := sort_funding_pubkeys pa pb in
          let oc := channel_id keccak256 k0 k1 txid vout in
          spawn (TOpen (Some oc) txid vout)
            (with_map (<[ldk := oc]> (d_cids st)) (record_onchain_cid ldk oc (d_store st)).1 st)
      | None => spawn (TOpen None txid vout) st
      end
  | Closed ldk txid vout =>
      let known := d_cids st !! ldk in
      spawn (TClose known (Some ldk) txid vout known
        (match known with None => original_channel_funding_pubkeys node txid vout | Some _ => None end) None) st
  | Spliced ldk txid vout =>
      match d_cids st !! ldk with
      | Some oc => spawn (TSplice oc txid vout) st
      | None => st
      end
  end.

Definition run_task (node : NodeView) (x : Explorer) (t : Task) (v : Vault) : M Vault :=
  match t with
  | TOpen _ txid vout => drive_open rpc keccak256 address sign cfg node x v txid vout
  | TClose _ _ txid vout known keys close => _ ← drive_close rpc keccak256 address sign cfg x txid vout known keys close; mret v
  | TForceClose cid (Some close) => _ ← drive_force_close rpc keccak256 address sign cfg x cid close; mret v
  | TForceClose _ None => mret v
  | TSplice cid txid vout => drive_splice rpc keccak256 address sign cfg node x v cid txid vout
  end.
Definition prune (t : Task) (st : DState) : DState :=
  match t with
  | TClose _ (Some ldk) _ _ _ _ _ => with_map (delete ldk (d_cids st)) (forget_onchain_cid ldk (d_store st)).1 st
  | _ => st
  end.
Definition finish (node : NodeView) (x : Explorer) (i : nat) (st : DState) : DState :=
  match tasks st !! i with
  | None => st
  | Some t =>
      let '(w, r) := run_task node x t (vault_of st) (d_world st) in
      let st := release i t (with_world w st) in
      match r with inl v => prune t (with_vault v st) | inr _ => st end
  end.
(** A task that panics lets go of its slot. *)
Definition panic (i : nat) (st : DState) : DState :=
  match tasks st !! i with Some t => release i t st | None => st end.

(** ** The reconciler *)
Definition retry_claim (cid : list Z) : M unit :=
  r ← try_ (read_pending_claim rpc keccak256 cfg cid);
  match r with
  | inl pending => if 0 <? pending then _ ← try_ (estimate_gas_and_send rpc address sign cfg (encode_register_channel_claim keccak256 cid)); mret tt
                   else mret tt
  | inr _ => mret tt
  end.
Definition ldk_value_of (node : NodeView) (id : list Z) : Z :=
  match last (List.filter (fun c => bool_decide (l_id c = id)) (list_channels node)) with Some c => l_value c | None => 0 end.
Definition outspend (x : Explorer) (txo : list Z * Z) : bool * option (list Z) :=
  match x_output_status x 0 txo.1 txo.2 with
  | Some (Some (true, t)) => (true, t)
  | _ => (false, None)
  end.
Definition spent_by_commitment (x : Explorer) (spent : bool) (close : option (list Z)) (status : Z) (pending : list (list Z)) : bool :=
  if spent && (status =? STATUS_OPEN) && negb (match close with Some t => bool_decide (t ∈ pending) | None => false end)
  then match close with
       | Some t => match get_tx (x_client x) t with Some (Some tx) => is_commitment_tx tx | _ => false end
       | None => false
       end
  else false.
Definition task_for (a : ReconcileAction) (cid : list Z) (txo : list Z * Z) (close : option (list Z)) : Task :=
  match a with
  | DoOpen => TOpen (Some cid) txo.1 txo.2
  | DoClose => TClose (Some cid) None txo.1 txo.2 (Some cid) None close
  | DoForceClose => TForceClose cid close
  | DoSplice => TSplice cid txo.1 txo.2
  end.
Definition reconcile_one (node : NodeView) (x : Explorer) (m : LdkMonitor) (st : DState) : DState :=
  match onchain_cid_from_monitor keccak256 m with
  | None => st
  | Some cid =>
      let '(w, r) := read_channel_state rpc keccak256 cfg cid (d_world st) in
      let st := with_world w st in
      match r with
      | inr _ => st
      | inl cs =>
          let st := with_gate (bind (n_id m) cid (cs_lp_eth cs) <$> gate st) st in
          let st := with_world (retry_claim cid (d_world st)).1 st in
          let '(spent, close) := outspend x (n_txo m) in
          match select_reconcile_action spent close (spent_by_commitment x spent close (cs_status cs) (n_pending m))
                  (cs_status cs) (cs_amount_sats cs) (ldk_value_of node (n_id m)) (n_pending m) with
          | Some a => spawn (task_for a cid (n_txo m) close) st
          | None => st
          end
      end
  end.
Definition reconcile (node : NodeView) (x : Explorer) (st : DState) : DState :=
  let st := match gate st with
            | None => st
            | Some g =>
                let '(w, r) := read_gateway_height rpc keccak256 cfg (d_world st) in
                with_gate (Some (match r with inl h => set_tip (Z.min h (imax u32)) g | inr _ => g end)) (with_world w st)
            end in
  foldl (fun st m => reconcile_one node x m st) st (list_monitors node).

(** ** Interleavings *)
Inductive DOp :=
| DEvent (node : NodeView) (ev : ChannelLifecycleEvent)
| DReconcile (node : NodeView) (x : Explorer)
| DFinish (node : NodeView) (x : Explorer) (i : nat)
| DPanic (i : nat)
| DVault (min_confs : Z) (o : VOp).
Definition dstep (st : DState) (o : DOp) : DState :=
  match o with
  | DEvent node ev => on_event node ev st
  | DReconcile node x => reconcile node x st
  | DFinish node x i => finish node x i st
  | DPanic i => panic i st
  | DVault confs o => with_vault (vstep confs (vault_of st, []) o).1 st
  end.
(** The start of the process: the mappings are read from the store. *)
Definition driver_start (w : World) (durable : bool) (s : Persisted) (g : option GateState) : DState :=
  mkD w (if durable then v_reg (new_durable s) else registry_new) durable s (list_to_map (load_onchain_cids s)) ∅ [] g.
End Tasks.

(** * Properties *)

(** ** The choice of the reconciler *)
(** A spend by a splice that has not locked is never recorded as a close, and a channel is
    opened or spliced only while its funding is unspent. *)
Lemma action_sound spent close commitment status amount value pending a :
  select_reconcile_action spent close commitment status amount value pending = Some a ->
  match a with
  | DoOpen => spent = false /\ amount = 0
  | DoSplice => spent = false /\ status = STATUS_OPEN /\ value <> amount
  | DoClose => spent = true /\ status = STATUS_OPEN /\ commitment = false /\ forall t, close = Some t -> t ∉ pending
  | DoForceClose => spent = true /\ status = STATUS_OPEN /\ commitment = true /\ forall t, close = Some t -> t ∉ pending
  end.
Proof.
  unfold select_reconcile_action. destruct spent; cbn [andb negb].
  - destruct (Z.eqb_spec status STATUS_OPEN); [|done].
    destruct (match close with Some t => bool_decide (t ∈ pending) | None => false end) eqn:E; [done|].
    assert (forall t, close = Some t -> t ∉ pending) by (intros t ->; by apply bool_decide_eq_false in E).
    destruct commitment; by intros [= <-].
  - destruct (Z.eqb_spec amount 0); [by intros [= <-]|]. destruct (Z.eqb_spec status STATUS_OPEN); [|done].
    destruct (Z.eqb_spec value amount); cbn [negb andb]; [done|]. by intros [= <-].
Qed.
(** Nothing is done only for a channel whose record agrees with the chain, or whose spend is a
    splice that has not locked. *)
Lemma action_complete spent close commitment status amount value pending :
  select_reconcile_action spent close commitment status amount value pending = None ->
  (spent = true /\ (status <> STATUS_OPEN \/ exists t, close = Some t /\ t ∈ pending)) \/
  (spent = false /\ amount <> 0 /\ (status <> STATUS_OPEN \/ value = amount)).
Proof.
  unfold select_reconcile_action. destruct spent; cbn [andb negb].
  - destruct (Z.eqb_spec status STATUS_OPEN); [|by left; auto].
    destruct close as [t|]; [|by destruct commitment]. case_bool_decide; [|by destruct commitment]. left. split; [done|]. right. by exists t.
  - destruct (Z.eqb_spec amount 0); [done|]. destruct (Z.eqb_spec status STATUS_OPEN); [|right; auto].
    destruct (Z.eqb_spec value amount); cbn [negb andb]; [right; auto|done].
Qed.

(** ** Slots *)
Definition slots (l : list Task) : list (list Z) := omap slot_of l.
Definition slots_ok (st : DState) : Prop := NoDup (slots (tasks st)) /\ active st = list_to_set (slots (tasks st)).

Lemma spawn_slots t st : slots_ok st -> slots_ok (spawn t st).
Proof.
  intros [H1 H2]. unfold spawn. destruct (slot_of t) as [cid|] eqn:Es.
  - case_bool_decide as Ha; [done|]. unfold slots_ok, with_tasks. cbn [tasks active]. unfold slots in *. rewrite omap_app. cbn [omap list_omap]. rewrite Es.
    split; [|rewrite list_to_set_app_L, H2; cbn [list_to_set]; set_solver].
    apply NoDup_app. split_and!; [done| |apply NoDup_singleton].
    intros c Hc Hc'. apply list_elem_of_singleton in Hc' as ->. apply Ha. rewrite H2. by apply elem_of_list_to_set.
  - unfold slots_ok, with_tasks. cbn [tasks active]. unfold slots in *. rewrite omap_app. cbn [omap list_omap]. rewrite Es, app_nil_r. done.
Qed.
Lemma release_slots i t st : tasks st !! i = Some t -> slots_ok st -> slots_ok (release i t st).
Proof.
  intros Hi [H1 H2]. unfold slots_ok, release, with_tasks. cbn [tasks active]. unfold slots in *.
  assert (omap slot_of (tasks st) ≡ₚ (match slot_of t with Some c => [c] | None => [] end) ++ omap slot_of (delete i (tasks st))) as HP.
  { rewrite <- (take_drop_middle _ _ _ Hi) at 1. rewrite delete_take_drop, !omap_app. cbn [omap list_omap].
    destruct (slot_of t); [|done]. cbn [app]. symmetry. apply (Permutation_middle (omap slot_of (take i (tasks st)))). }
  rewrite HP in H1. apply NoDup_app in H1 as (_ & Hd & H1). split; [done|]. rewrite H2, (list_to_set_perm_L _ _ HP), list_to_set_app_L.
  destruct (slot_of t) as [c|]; [|set_solver]. cbn [list_to_set]. apply set_eq. intros y.
  rewrite elem_of_difference, !elem_of_union, !elem_of_list_to_set, elem_of_singleton, elem_of_empty. split; [naive_solver|].
  intros Hy. split; [by right|]. intros ->. by apply (Hd c); [apply list_elem_of_here|].
Qed.
(** The other fields do not matter. *)
Lemma slots_same st st' : tasks st' = tasks st -> active st' = active st -> slots_ok st -> slots_ok st'.
Proof. unfold slots_ok. by intros -> ->. Qed.

(** ** What is sent *)
Lemma appends_bind_ok {A B} (m : M A) (f : A -> M B) (P : list TxFields -> (B + string) -> Prop) : quiet m ->
  (forall w w' a, m w = (w', inl a) -> appends (f a) P) -> (forall e, P [] (inr e)) -> appends (m ≫= f) P.
Proof.
  intros Hm Hf HP w. unfold mbind, M_bind. specialize (Hm w). destruct (m w) as [w1 [a|e]] eqn:E; cbn [fst] in Hm.
  - destruct (Hf w w1 a E w1) as (l & El & Hl). exists l. by rewrite El, Hm.
  - exists []. rewrite app_nil_r. split; [done|apply HP].
Qed.
Lemma appends_then {A B} (m : M A) (f : A -> M B) (P : list TxFields -> Prop) (Q : list TxFields -> (B + string) -> Prop) :
  appends m (fun l _ => P l) -> (forall a w, sent_log (f a w).1 = sent_log w /\ forall l, P l -> Q l (f a w).2) ->
  (forall l e, P l -> Q l (inr e)) -> appends (m ≫= f) Q.
Proof.
  intros Hm Hf HQ w. destruct (Hm w) as (l & E & Hl). exists l. unfold mbind, M_bind. destruct (m w) as [w1 [a|e]]; cbn [fst snd] in *.
  - destruct (Hf a w1) as [Es HQ']. rewrite Es. split; [done|by apply HQ'].
  - split; [done|by apply HQ].
Qed.

Section Sends.
Context `{T : Text} `{L : FundingLib}.
Variable rpc : nat -> string -> Value -> Answer.
Variable keccak256 : list Z -> list Z.
Variable address : list Z.
Variable sign : TxFields -> list Z + string.
Variable cfg : BridgeConfig.
Hypothesis fee_cap : 1 <= cfg_max_fee_per_gas cfg < imax u128.
Hypothesis fee_prio : 0 <= cfg_max_priority_fee_per_gas cfg.
Hypothesis fee_pct : 0 <= fee_bump_pct cfg.

(** A call of the contract, without ether. *)
Definition calls_contract (P : list Z -> Prop) (f : TxFields) : Prop := tx_to f = btc_channels cfg /\ value f = 0 /\ P (tx_data f).

Lemma quiet_view to sig arg : quiet (eth_call_raw rpc keccak256 Store.show_address to sig arg).
Proof. unfold eth_call_raw, eth_call_raw_at_block, eth_call_at. repeat (apply quiet_bind; [|intros ?]); auto with quiet. done. Qed.
Lemma quiet_read_state cid : quiet (read_channel_state rpc keccak256 cfg cid).
Proof.
  unfold read_channel_state. apply quiet_bind; [apply quiet_view|intros l]. destruct (_ <? _)%nat; auto with quiet.
Qed.
Lemma quiet_wait n need : quiet (wait_for_gateway_height rpc keccak256 cfg n need).
Proof.
  induction n as [|n IH]; cbn [wait_for_gateway_height]; [auto with quiet|]. apply quiet_bind; [|intros h; case_match; auto with quiet].
  unfold read_gateway_height. apply quiet_bind; [apply quiet_view|auto with quiet].
Qed.
Lemma quiet_gas from to data floor : quiet (gas_limit_for rpc from to data floor).
Proof.
  unfold gas_limit_for, estimate_gas. apply quiet_bind; [apply quiet_try|auto with quiet].
  repeat (apply quiet_bind; [|intros ?]); auto with quiet. done.
Qed.
Lemma quiet_probe data : quiet (revert_probe rpc address cfg data).
Proof. unfold revert_probe. apply quiet_bind; [apply quiet_try; done|auto with quiet]. Qed.
Lemma quiet_claim_read cid : quiet (read_pending_claim rpc keccak256 cfg cid).
Proof. unfold read_pending_claim. apply quiet_bind; [apply quiet_view|intros l]. destruct (_ <? _)%nat; auto with quiet. Qed.
Lemma quiet_close_tx x t : quiet (get_close_tx x t).
Proof. unfold get_close_tx. repeat case_match; auto with quiet. Qed.
Lemma quiet_poll_spend x n i txid vout : quiet (poll_spend x n i txid vout).
Proof. revert i. induction n as [|n IH]; intros i; cbn [poll_spend]; [auto with quiet|]. repeat case_match; auto with quiet. Qed.

Lemma sends_data data : appends (estimate_gas_and_send rpc address sign cfg data) (fun l _ => Forall (calls_contract (eq data)) l).
Proof.
  unfold estimate_gas_and_send. apply appends_bind; [apply quiet_gas| |constructor]. intros gas. unfold send_tx.
  apply (appends_then _ _ (Forall (calls_contract (eq data)))); [|done|done].
  assert (0 <= cfg_max_fee_per_gas cfg < imax u128) as Hr by lia.
  intros w. destruct (submit_ladder rpc Store.show_address address sign cfg Hr fee_pct (btc_channels cfg) data gas (proj1 fee_cap) fee_prio w) as (l & E & n & p & _ & H & _).
  exists l. split; [done|]. eapply Forall_impl; [exact H|]. by intros f (_ & _ & _ & ? & ? & ?).
Qed.

(** What a computation sends, and what it returns when it does not fail. *)
Definition silently {A} (m : M A) (R : A -> Prop) : Prop := forall w, sent_log (m w).1 = sent_log w /\ forall a, (m w).2 = inl a -> R a.
Definition sends {A} (m : M A) (P : list Z -> Prop) (R : A -> Prop) : Prop :=
  appends m (fun l r => Forall (calls_contract P) l /\ forall a, r = inl a -> R a).
Lemma silently_ret {A} (a : A) (R : A -> Prop) : R a -> silently (mret a) R.
Proof. intros Ha w. split; [done|]. by intros b [= <-]. Qed.
Lemma silently_bail {A} e (R : A -> Prop) : silently (bail e) R.
Proof. by intros w. Qed.
Lemma silently_bind {A B} (m : M A) (f : A -> M B) R : quiet m -> (forall a, silently (f a) R) -> silently (m ≫= f) R.
Proof.
  intros Hm Hf w. unfold mbind, M_bind. specialize (Hm w). destruct (m w) as [w1 [a|e]]; cbn [fst snd] in *; [|done].
  destruct (Hf a w1) as [E H]. by rewrite E.
Qed.
Lemma silently_sends {A} (m : M A) P R : silently m R -> sends m P R.
Proof. intros H w. destruct (H w) as [E HR]. exists []. rewrite app_nil_r. split; [done|]. by split. Qed.
Lemma sends_bind {A B} (m : M A) (f : A -> M B) P R : quiet m ->
  (forall w w' a, m w = (w', inl a) -> sends (f a) P R) -> sends (m ≫= f) P R.
Proof. intros Hm Hf. apply appends_bind_ok; [done|done|]. by split. Qed.
Lemma sends_call {A} data (f : bool -> M A) (P : list Z -> Prop) R : P data -> (forall ok, silently (f ok) R) ->
  sends (estimate_gas_and_send rpc address sign cfg data ≫= f) P R.
Proof.
  intros HP Hf. assert (forall l, Forall (calls_contract (eq data)) l -> Forall (calls_contract P) l) as Hi.
  { intros l Hl. eapply Forall_impl; [exact Hl|]. intros g (? & ? & E). split_and!; [done..|]. by rewrite <- E. }
  eapply appends_then; [apply sends_data| |].
  - intros ok w. destruct (Hf ok w) as [E HR]. split; [done|]. intros l Hl. split; [by apply Hi|done].
  - intros l e Hl. split; [by apply Hi|done].
Qed.

(** What the contract and the light client were read to say. *)
Definition reported (cid : list Z) (P : ChannelState -> Prop) : Prop :=
  exists w w' st, read_channel_state rpc keccak256 cfg cid w = (w', inl st) /\ P st.
Definition gateway_at (need : Z) : Prop := exists w w' h, read_gateway_height rpc keccak256 cfg w = (w', inl h) /\ need <= h.
Lemma wait_reports n need w w' : wait_for_gateway_height rpc keccak256 cfg n need w = (w', inl tt) -> gateway_at need.
Proof.
  revert w. induction n as [|n IH]; intros w H; cbn [wait_for_gateway_height] in H; [done|].
  apply bind_inl in H as (w1 & h & Hh & H). destruct (Z.leb_spec need h); [by exists w, w1, h|by eapply IH].
Qed.
Definition spent_by (x : Explorer) (txid : list Z) (vout : Z) (t : list Z) : Prop :=
  exists n, x_output_status x n txid vout = Some (Some (true, Some t)).
Lemma poll_spend_spec x n i txid vout w w' t : poll_spend x n i txid vout w = (w', inl t) -> spent_by x txid vout t.
Proof.
  revert i. induction n as [|n IH]; intros i H; cbn [poll_spend] in H; [done|].
  destruct (x_output_status x i txid vout) as [[[[] [t'|]]|]|] eqn:E; try done; try by apply IH in H.
  injection H as _ <-. by exists i.
Qed.
Definition confirmed (x : Explorer) (t : list Z) (i : TxInclusion) : Prop :=
  tx_inclusion sha256d consensus_encode (x_client x) t = inl i /\ gateway_at (cast u64 (tx_height i + SPV_MIN_CONFIRMATIONS)).
Lemma inclusion_spec x t what w w' i : inclusion x t what w = (w', inl i) -> tx_inclusion sha256d consensus_encode (x_client x) t = inl i.
Proof. unfold inclusion. destruct (tx_inclusion _ _ _ t); [|done]. by intros [= _ <-]. Qed.

(** The calls a task may make: what it proves exists on the chain, deep enough for the light
    client; the record was read to need it; and the consent is the one given for exactly this
    outpoint. *)
Definition live (st : ChannelState) : Prop := cs_amount_sats st <> 0 /\ cs_status st <> STATUS_CLOSED.
Definition close_id (txid : list Z) (vout : Z) (known : option (list Z)) (lp hop_ : list Z) : list Z :=
  match known with
  | Some c => c
  | None => let '(k0, k1) := sort_funding_pubkeys lp hop_ in channel_id keccak256 k0 k1 txid vout
  end.
Inductive call_ok (node : NodeView) (x : Explorer) (v : Vault) : Task -> list Z -> Prop :=
| ok_open slot txid vout pa pb p tx proof lp c :
    channel_funding_pubkeys node txid vout = Some (pa, pb) -> proves x txid vout pa pb p tx proof ->
    gateway_at (cast u64 (funding_block_height p + SPV_MIN_CONFIRMATIONS)) ->
    reported (channel_id keccak256 (lp_pubkey p) (hop_pubkey p) txid vout) (fun st => cs_amount_sats st = 0) ->
    lp_for_funding v (show_txid txid) vout = Some lp -> consent_for_funding v (show_txid txid) vout = Some c ->
    call_ok node x v (TOpen slot txid vout) (encode_open_channel keccak256 p tx proof (c_auth c) (c_exits c))
| ok_splice cid txid vout pa pb p tx proof c :
    channel_funding_pubkeys node txid vout = Some (pa, pb) -> proves x txid vout pa pb p tx proof ->
    gateway_at (cast u64 (funding_block_height p + SPV_MIN_CONFIRMATIONS)) ->
    reported cid (fun st => cs_amount_sats st <> 0 /\ cs_status st = STATUS_OPEN /\ cs_amount_sats st <> amount_sats p) ->
    consent_for_funding v (show_txid txid) vout = Some c ->
    call_ok node x v (TSplice cid txid vout) (encode_splice keccak256 cid p tx proof (c_exits c))
| ok_close slot ldk txid vout known lp hop_ close t i :
    match close with Some t' => t' = t | None => spent_by x txid vout t end -> confirmed x t i ->
    reported (close_id txid vout known lp hop_) live ->
    call_ok node x v (TClose slot ldk txid vout known (Some (lp, hop_)) close)
      (encode_record_close keccak256 (close_id txid vout known lp hop_) (close_params lp hop_) (raw i) (block_hash_be i) (merkle_proof i) (tx_index i))
| ok_force cid t tx i :
    get_tx (x_client x) t = Some (Some tx) -> is_commitment_tx tx = true -> confirmed x t i -> reported cid live ->
    call_ok node x v (TForceClose cid (Some t))
      (encode_record_force_close_permissionless keccak256 cid (raw i) (block_hash_be i) (merkle_proof i) (tx_index i)).

(** After a drive the registry is the one before, or has let go of the outpoint recorded. *)
Definition cleared (v : Vault) (txid : list Z) (vout : Z) (v' : Vault) : Prop := v' = v \/ v' = clear_inflight (show_txid txid) vout v.
Definition no_result {A} (_ : A) : Prop := True.

Lemma drive_open_sends node x v slot txid vout :
  sends (drive_open rpc keccak256 address sign cfg node x v txid vout) (call_ok node x v (TOpen slot txid vout)) (cleared v txid vout).
Proof.
  unfold drive_open. apply sends_bind; [auto with quiet|]. intros _ _ [pa pb] [Hk _]%or_bail_inl.
  apply sends_bind; [auto with quiet|]. intros _ _ spk _. destruct (negb (is_key_path_p2tr spk)); [apply silently_sends, silently_bail|].
  apply sends_bind; [apply quiet_build|]. intros w1 w2 [[p tx] proof] Hp%build_open_params_spec.
  apply sends_bind; [apply quiet_read_state|]. intros w3 w4 st Hst.
  destruct (Z.eqb_spec (cs_amount_sats st) 0) as [Ha|]; cbn [negb]; [|apply silently_sends, silently_ret; by left].
  apply sends_bind; [apply quiet_wait|]. intros w5 w6 [] Hg%wait_reports.
  destruct (lp_for_funding v (show_txid txid) vout) as [lp|] eqn:El; [|apply silently_sends, silently_ret; by left].
  destruct (consent_for_funding v (show_txid txid) vout) as [c|] eqn:Ec; [|apply silently_sends, silently_ret; by left].
  apply sends_call; [eapply ok_open; try done; by exists w3, w4, st|].
  intros [|]; [apply silently_ret; by right|]. apply silently_bind; [apply quiet_read_state|]. intros st2.
  destruct (negb _); [apply silently_ret; by left|]. apply silently_bind; [apply quiet_probe|]. intros _. apply silently_bail.
Qed.
Lemma drive_splice_sends node x v cid txid vout :
  sends (drive_splice rpc keccak256 address sign cfg node x v cid txid vout) (call_ok node x v (TSplice cid txid vout)) (cleared v txid vout).
Proof.
  unfold drive_splice. apply sends_bind; [auto with quiet|]. intros _ _ [pa pb] [Hk _]%or_bail_inl.
  apply sends_bind; [apply quiet_build|]. intros w1 w2 [[p tx] proof] Hp%build_open_params_spec.
  apply sends_bind; [apply quiet_read_state|]. intros w3 w4 st Hst.
  destruct (Z.eqb_spec (cs_amount_sats st) 0) as [|Ha]; [apply silently_sends, silently_bail|].
  destruct (Z.eqb_spec (cs_status st) STATUS_OPEN) as [Ho|]; cbn [negb]; [|apply silently_sends, silently_bail].
  destruct (Z.eqb_spec (amount_sats p) (cs_amount_sats st)) as [|Hne]; [apply silently_sends, silently_ret; by left|].
  apply sends_bind; [apply quiet_wait|]. intros w5 w6 [] Hg%wait_reports.
  destruct (consent_for_funding v (show_txid txid) vout) as [c|] eqn:Ec; [|apply silently_sends, silently_ret; by left].
  apply sends_call; [eapply ok_splice; try done; exists w3, w4, st; by split_and!|].
  intros [|]; [apply silently_ret; by right|]. apply silently_bind; [apply quiet_read_state|]. intros st2.
  destruct (cs_amount_sats st2 =? amount_sats p); [apply silently_ret; by left|apply silently_bail].
Qed.
Lemma drive_close_sends node x v slot ldk txid vout known keys close :
  sends (drive_close rpc keccak256 address sign cfg x txid vout known keys close)
    (call_ok node x v (TClose slot ldk txid vout known keys close)) no_result.
Proof.
  unfold drive_close. apply sends_bind; [destruct close; [auto with quiet|apply quiet_poll_spend]|]. intros w1 w2 t Ht.
  assert (match close with Some t' => t' = t | None => spent_by x txid vout t end) as Hc.
  { destruct close; [by injection Ht as _ <-|by apply poll_spend_spec in Ht]. }
  apply sends_bind; [apply quiet_close_tx|]. intros w3 w4 tx _.
  apply sends_bind.
  { destruct known; [auto with quiet|]. apply quiet_bind; [auto with quiet|]. intros [lp hop_]. destruct (sort_funding_pubkeys lp hop_). auto with quiet. }
  intros w5 w6 cid Hid.
  assert (forall lp hop_, keys = Some (lp, hop_) -> cid = close_id txid vout known lp hop_) as Hcid.
  { intros lp hop_ ->. unfold close_id. destruct known; [by injection Hid as _ <-|].
    apply bind_inl in Hid as (w7 & [lp' hop'] & [[= -> ->] _]%or_bail_inl & H). destruct (sort_funding_pubkeys lp' hop'). by injection H as _ <-. }
  apply sends_bind; [apply quiet_read_state|]. intros w7 w8 st Hst.
  destruct (Z.eqb_spec (cs_amount_sats st) 0) as [|Ha]; [by apply silently_sends, silently_ret|].
  destruct (Z.eqb_spec (cs_status st) STATUS_CLOSED) as [|Ho]; [by apply silently_sends, silently_ret|].
  apply sends_bind; [apply quiet_inclusion|]. intros w9 w10 i Hi%inclusion_spec.
  apply sends_bind; [apply quiet_wait|]. intros w11 w12 [] Hg%wait_reports.
  apply sends_bind; [auto with quiet|]. intros _ _ [lp hop_] [Hk _]%or_bail_inl. rewrite (Hcid _ _ Hk) in *. rewrite Hk.
  apply sends_call; [eapply ok_close; [done|by split|by exists w7, w8, st]|].
  intros [|]; [by apply silently_ret|]. apply silently_bind; [apply quiet_read_state|]. intros st2.
  destruct (cs_status st2 =? STATUS_CLOSED); [by apply silently_ret|]. apply silently_bind; [apply quiet_probe|]. intros _. apply silently_bail.
Qed.
Lemma close_tx_spec x t w w' tx : get_close_tx x t w = (w', inl tx) -> get_tx (x_client x) t = Some (Some tx).
Proof. unfold get_close_tx. destruct (get_tx (x_client x) t) as [[tx'|]|]; [|done..]. by intros [= _ <-]. Qed.
Lemma drive_force_close_sends node x v cid t :
  sends (drive_force_close rpc keccak256 address sign cfg x cid t) (call_ok node x v (TForceClose cid (Some t))) no_result.
Proof.
  unfold drive_force_close. apply sends_bind; [apply quiet_close_tx|]. intros w1 w2 tx Htx%close_tx_spec.
  destruct (is_commitment_tx tx) eqn:Ec; cbn [negb]; [|apply silently_sends, silently_bail].
  apply sends_bind; [apply quiet_read_state|]. intros w3 w4 st Hst.
  destruct (Z.eqb_spec (cs_amount_sats st) 0) as [|Ha]; [by apply silently_sends, silently_ret|].
  destruct (Z.eqb_spec (cs_status st) STATUS_CLOSED) as [|Ho]; [by apply silently_sends, silently_ret|].
  apply sends_bind; [apply quiet_inclusion|]. intros w5 w6 i Hi%inclusion_spec.
  apply sends_bind; [apply quiet_wait|]. intros w7 w8 [] Hg%wait_reports.
  apply sends_call; [eapply ok_force; [done|done|by split|by exists w3, w4, st]|].
  intros [|]; [by apply silently_ret|]. apply silently_bind; [apply quiet_read_state|]. intros st2.
  destruct (cs_status st2 =? STATUS_CLOSED); [by apply silently_ret|apply silently_bail].
Qed.

Lemma run_task_sends node x t v :
  sends (run_task rpc keccak256 address sign cfg node x t v) (call_ok node x v t) no_result.
Proof.
  assert (forall (m : M unit) P, sends m P no_result -> sends (m ≫= fun _ => mret v) P no_result) as Hret.
  { intros m P Hm. apply (appends_then _ _ (Forall (calls_contract P))); [|done|done].
    intros w. destruct (Hm w) as (l & E & H & _). by exists l. }
  assert (forall (m : M Vault) P R, sends m P R -> sends m P no_result) as Hany.
  { intros m P R Hm w. destruct (Hm w) as (l & E & H & _). by exists l. }
  destruct t as [slot txid vout|slot ldk txid vout known keys close|cid [t|]|cid txid vout]; cbn [run_task].
  - eapply Hany, drive_open_sends.
  - apply Hret, drive_close_sends.
  - apply Hret, drive_force_close_sends.
  - by apply silently_sends, silently_ret.
  - eapply Hany, drive_splice_sends.
Qed.
(** A claim is registered for a channel of which the contract was read to have sats pending. *)
Definition claim_ok (cid data : list Z) : Prop :=
  (exists w w' n, read_pending_claim rpc keccak256 cfg cid w = (w', inl n) /\ 0 < n) /\ data = encode_register_channel_claim keccak256 cid.
Lemma retry_claim_sends cid : sends (retry_claim rpc keccak256 address sign cfg cid) (claim_ok cid) no_result.
Proof.
  unfold retry_claim. apply sends_bind; [apply quiet_try, quiet_claim_read|]. intros w w' [n|e] Hr; [|by apply silently_sends, silently_ret].
  destruct (Z.ltb_spec 0 n); [|by apply silently_sends, silently_ret].
  assert (exists w w' n, read_pending_claim rpc keccak256 cfg cid w = (w', inl n) /\ 0 < n) as Hn.
  { exists w, w', n. split; [|done]. unfold try_ in Hr. destruct (read_pending_claim _ _ _ cid w) as [w1 r]. by injection Hr as -> ->. }
  intros w1. destruct (sends_data (encode_register_channel_claim keccak256 cid) w1) as (l & E & Hl). exists l.
  unfold mbind at 1, M_bind, try_. destruct (estimate_gas_and_send _ _ _ _ _ w1) as [w2 r]. cbn [fst snd] in *. split; [done|]. split; [|done].
  eapply Forall_impl; [exact Hl|]. intros f (? & ? & E'). split_and!; [done..|]. by split.
Qed.

(** ** Steps *)
(** What one step appends to the log. *)
Definition logs (P : TxFields -> Prop) (st st' : DState) : Prop :=
  exists l, sent_log (d_world st') = sent_log (d_world st) ++ l /\ Forall P l.
Lemma logs_nil P st st' : sent_log (d_world st') = sent_log (d_world st) -> logs P st st'.
Proof. intros E. exists []. by rewrite app_nil_r. Qed.
Lemma logs_trans P st1 st2 st3 : logs P st1 st2 -> logs P st2 st3 -> logs P st1 st3.
Proof. intros (l1 & E1 & H1) (l2 & E2 & H2). exists (l1 ++ l2). rewrite E2, E1, app_assoc. split; [done|]. by apply Forall_app. Qed.
Lemma spawn_world t st : d_world (spawn t st) = d_world st.
Proof. unfold spawn. by repeat case_match. Qed.
Lemma prune_world t st : d_world (prune t st) = d_world st.
Proof. unfold prune. by repeat case_match. Qed.

(** The calls a step may make. *)
Definition step_call (st : DState) (o : DOp) (f : TxFields) : Prop :=
  match o with
  | DFinish node x i => exists t, tasks st !! i = Some t /\ calls_contract (call_ok node x (vault_of st) t) f
  | DReconcile node x => exists m cid, m ∈ list_monitors node /\ onchain_cid_from_monitor keccak256 m = Some cid /\ calls_contract (claim_ok cid) f
  | _ => False
  end.
Lemma finish_logs node x i st : logs (step_call st (DFinish node x i)) st (finish rpc keccak256 address sign cfg node x i st).
Proof.
  unfold finish. destruct (tasks st !! i) as [t|] eqn:Et; [|by apply logs_nil].
  destruct (run_task_sends node x t (vault_of st) (d_world st)) as (l & E & H & _).
  destruct (run_task _ _ _ _ _ node x t (vault_of st) (d_world st)) as [w r]. cbn [fst snd] in *.
  assert (logs (step_call st (DFinish node x i)) st (release i t (with_world w st))) as HL.
  { exists l. split; [done|]. eapply Forall_impl; [exact H|]. intros f Hf. by exists t. }
  destruct r; [|done]. eapply logs_trans; [exact HL|]. apply logs_nil. by rewrite prune_world.
Qed.
Lemma reconcile_one_logs node x m st : m ∈ list_monitors node ->
  logs (step_call st (DReconcile node x)) st (reconcile_one rpc keccak256 address sign cfg node x m st).
Proof.
  intros Hm. unfold reconcile_one. destruct (onchain_cid_from_monitor keccak256 m) as [cid|] eqn:Ec; [|by apply logs_nil].
  pose proof (quiet_read_state cid (d_world st)) as Hq. destruct (read_channel_state _ _ _ cid (d_world st)) as [w [cs|e]]; cbn [fst] in Hq;
    [|by apply logs_nil]. cbn [d_world with_gate with_world].
  destruct (retry_claim_sends cid w) as (l & E & H & _). destruct (retry_claim _ _ _ _ _ cid w) as [w' r]. cbn [fst snd] in *.
  destruct (outspend x (n_txo m)) as [spent close].
  assert (forall st', d_world st' = w' -> logs (step_call st (DReconcile node x)) st st') as HL.
  { intros st' Es. exists l. rewrite Es, E, Hq. split; [done|]. eapply Forall_impl; [exact H|]. intros f Hf. by exists m, cid. }
  case_match; apply HL; [by rewrite spawn_world|done].
Qed.
Lemma quiet_height : quiet (read_gateway_height rpc keccak256 cfg).
Proof. unfold read_gateway_height. apply quiet_bind; [apply quiet_view|auto with quiet]. Qed.
Lemma reconcile_logs node x st : logs (step_call st (DReconcile node x)) st (reconcile rpc keccak256 address sign cfg node x st).
Proof.
  unfold reconcile. apply (foldl_keeps (logs (step_call st (DReconcile node x)) st)).
  - intros s m Hm Hs. eapply logs_trans; [exact Hs|]. destruct (reconcile_one_logs node x m s Hm) as (l & E & H). by exists l.
  - apply logs_nil. destruct (gate st); [|done]. pose proof (quiet_height (d_world st)) as Hq.
    by destruct (read_gateway_height _ _ _ (d_world st)) as [w r].
Qed.
Lemma on_event_world node ev st : d_world (on_event keccak256 node ev st) = d_world st.
Proof. unfold on_event. repeat case_match; rewrite ?spawn_world; done. Qed.
Lemma dstep_logs st o : logs (step_call st o) st (dstep rpc keccak256 address sign cfg st o).
Proof.
  destruct o; cbn [dstep].
  - apply logs_nil. by rewrite on_event_world.
  - apply reconcile_logs.
  - apply finish_logs.
  - apply logs_nil. unfold panic. by case_match.
  - by apply logs_nil.
Qed.

(** A close either carries keys or the id of a record, never both, and has a slot exactly when
    it has the id. *)
Definition close_keyless (t : Task) : Prop :=
  match t with TClose slot _ _ _ known keys _ => (known = None \/ keys = None) /\ slot = known | _ => True end.
Definition dinv (st : DState) : Prop := slots_ok st /\ Forall close_keyless (tasks st).
Lemma dinv_same st st' : tasks st' = tasks st -> active st' = active st -> dinv st -> dinv st'.
Proof. intros E1 E2 [H1 H2]. split; [by eapply slots_same|]. by rewrite E1. Qed.
Lemma spawn_dinv t st : close_keyless t -> dinv st -> dinv (spawn t st).
Proof.
  intros Ht [H1 H2]. split; [by apply spawn_slots|]. unfold spawn.
  destruct (slot_of t); [case_bool_decide; [done|]|]; apply Forall_app; split; [done|by apply Forall_singleton|done|by apply Forall_singleton].
Qed.
Lemma release_dinv i t st : tasks st !! i = Some t -> dinv st -> dinv (release i t st).
Proof. intros Ht [H1 H2]. split; [by apply release_slots|]. by apply Forall_delete. Qed.
Lemma task_for_keyless a cid txo close : close_keyless (task_for a cid txo close).
Proof. destruct a; cbn [task_for close_keyless]; auto. Qed.
Lemma reconcile_one_dinv node x m st : dinv st -> dinv (reconcile_one rpc keccak256 address sign cfg node x m st).
Proof.
  intros H. unfold reconcile_one. destruct (onchain_cid_from_monitor _ m); [|done]. destruct (read_channel_state _ _ _ _ _) as [w [cs|e]]; [|done].
  destruct (outspend x (n_txo m)). case_match; [apply spawn_dinv; [apply task_for_keyless|]|]; by eapply dinv_same.
Qed.
Lemma dstep_dinv st o : dinv st -> dinv (dstep rpc keccak256 address sign cfg st o).
Proof.
  intros H. destruct o as [node ev|node x|node x i|i|confs o]; cbn [dstep].
  - unfold on_event. destruct ev as [ldk txid vout|ldk txid vout|ldk txid vout].
    + destruct (original_channel_funding_pubkeys node txid vout) as [[pa pb]|]; [destruct (sort_funding_pubkeys pa pb)|]; apply spawn_dinv; done.
    + apply spawn_dinv; [|done]. destruct (d_cids st !! ldk); cbn [close_keyless]; auto.
    + case_match; [by apply spawn_dinv|done].
  - unfold reconcile. apply (foldl_keeps dinv); [intros s m _; apply reconcile_one_dinv|]. destruct (gate st); [|done].
    destruct (read_gateway_height _ _ _ _). by eapply dinv_same.
  - unfold finish. destruct (tasks st !! i) as [t|] eqn:Et; [|done]. destruct (run_task _ _ _ _ _ _ _ _ _) as [w r].
    assert (dinv (release i t (with_world w st))) as Hr by (apply release_dinv; [done|by eapply dinv_same]).
    destruct r; [|done]. eapply dinv_same; [..|exact Hr]; unfold prune; repeat case_match; done.
  - unfold panic. destruct (tasks st !! i) eqn:Et; [by apply release_dinv|done].
  - by eapply dinv_same.
Qed.

Lemma slots_unique l i j t u cid : NoDup (slots l) ->
  l !! i = Some t -> l !! j = Some u -> slot_of t = Some cid -> slot_of u = Some cid -> i = j.
Proof.
  assert (forall (l : list Task) k v, l !! k = Some v -> slot_of v = Some cid -> cid ∈ slots l) as Hin.
  { intros l' k v Hk Hv. apply list_elem_of_omap. exists v. split; [by eapply list_elem_of_lookup_2|done]. }
  revert i j. induction l as [|t0 l IH]; intros i j Hn Hi Hj Ht Hu; [done|]. unfold slots in Hn. cbn [omap list_omap] in Hn. fold (slots l) in Hn.
  destruct i as [|i], j as [|j]; cbn in Hi, Hj; [done|injection Hi as ->|injection Hj as ->|].
  - rewrite Ht in Hn. apply NoDup_cons in Hn as [Hn _]. destruct Hn. by eapply Hin.
  - rewrite Hu in Hn. apply NoDup_cons in Hn as [Hn _]. destruct Hn. by eapply Hin.
  - f_equal. apply (IH i j); try done. destruct (slot_of t0); [by apply NoDup_cons in Hn as [_ Hn]|done].
Qed.
Definition drun (st : DState) (ops : list DOp) : DState := foldl (dstep rpc keccak256 address sign cfg) st ops.
Lemma drun_dinv st ops : dinv st -> dinv (drun st ops).
Proof. apply (foldl_keeps dinv). intros s o _. apply dstep_dinv. Qed.
Lemma start_dinv w durable s g : dinv (driver_start w durable s g).
Proof. split; [split; [apply NoDup_nil_2|done]|constructor]. Qed.

(** A drive that no slot guards: of a channel whose id the driver did not know at the event. *)
Definition unguarded (t : Task) : Prop :=
  match t with TOpen None _ _ | TClose None _ _ _ None _ _ => True | _ => False end.

Lemma unguarded_shape t : close_keyless t -> slot_of t = None -> unguarded t.
Proof. destruct t as [[]|[] ? ? ? [] ? ?| |]; cbn; naive_solver. Qed.

(** C32: whatever events of the node, passes of the reconciler, ends and panics of tasks and
    operations of the registry follow each other, at most one drive is under way per slot, that
    is per contract id of a channel, and the slots in use are exactly those of the tasks under
    way, so that none is lost.  A drive without a slot is an open or a close of an event whose
    channel the driver could not name, and those are not counted: see
    [unmapped_closes_run_twice].  A transaction is sent only by the end of a drive or by the
    retry of a claim, calls the channel contract without ether, and is one that drive may send:
    an open, a splice or a close of an output the explorer proves in a block the light client
    is deep enough beyond, for a channel that was read to lack it, with the consent that was
    given for exactly this outpoint. *)
Theorem driver_sound w durable s g ops o :
  let st := drun (driver_start w durable s g) ops in
  (forall i j t u cid, tasks st !! i = Some t -> tasks st !! j = Some u -> slot_of t = Some cid -> slot_of u = Some cid -> i = j) /\
  (forall cid, cid ∈ active st <-> exists t, t ∈ tasks st /\ slot_of t = Some cid) /\
  (forall t, t ∈ tasks st -> slot_of t = None -> unguarded t) /\
  logs (step_call st o) st (dstep rpc keccak256 address sign cfg st o).
Proof.
  cbv zeta. destruct (drun_dinv (driver_start w durable s g) ops (start_dinv w durable s g)) as [[Hn Ha] Hk].
  split_and!; [intros i j t u cid; by apply slots_unique| | |apply dstep_logs].
  - intros cid. rewrite Ha, elem_of_list_to_set. apply list_elem_of_omap.
  - intros t Ht Hs. rewrite Forall_forall in Hk. specialize (Hk t Ht). by apply unguarded_shape.
Qed.

(** ** The close that is never recorded

    A close can be recorded only with the keys of the channel, and the driver and the
    reconciler hand keys over only when they do not know its id: of a channel that has a
    record, no close is sent. *)
Lemma known_close_never_sent w durable s g ops node x i slot ldk txid vout cid keys close :
  let st := drun (driver_start w durable s g) ops in
  tasks st !! i = Some (TClose slot ldk txid vout (Some cid) keys close) ->
  sent_log (d_world (finish rpc keccak256 address sign cfg node x i st)) = sent_log (d_world st).
Proof.
  cbv zeta. intros Hi. destruct (drun_dinv (driver_start w durable s g) ops (start_dinv w durable s g)) as [_ Hk].
  rewrite Forall_lookup in Hk. destruct (Hk _ _ Hi) as [[?|He] _]; [done|].
  destruct (finish_logs node x i (drun (driver_start w durable s g) ops)) as (l & E & H). destruct H as [|f l (t & Ht & _ & _ & Hc) _]; [by rewrite app_nil_r in E|].
  rewrite Hi in Ht. injection Ht as <-. rewrite He in Hc. inversion Hc.
Qed.
End Sends.

(** ** Samples *)
Module DriverSample.
#[local] Existing Instances StoreSample.text SwapOutSample.lib.
Definition hash (l : list Z) : list Z := replicate 31 (Z.of_nat (length l) mod 256) ++ [foldr Z.add 0 l mod 256].
(** A contract whose channels all hold this amount and have this status. *)
Definition truth (amount status : Z) (method : string) (params : Value) : Value :=
  if String.eqb method "eth_call" then
    if String.prefix "0x11111111" (SwapOutSample.data_of params)
    then Str (hex_data (SwapOutSample.word amount ++ SwapOutSample.word 0 ++ SwapOutSample.word 0 ++ SwapOutSample.word 0 ++ SwapOutSample.word status))
    else SwapOutSample.truth false method params
  else SwapOutSample.truth false method params.
Definition net (amount status : Z) : nat -> string -> Value -> Answer :=
  quorum_rpc (fun _ => mkQuorum [fun m p => inl (truth amount status m p)] 1 []).
Definition funding : list Z := replicate 32 0.
Definition spliced : list Z := SwapOutSample.spliced.
(** One channel, opened at one outpoint and now at another or at the same. *)
Definition view (live : list Z) : NodeView :=
  mkNodeView [mkLdkChannel [1] [2] (Some (live, 0)) 500 true (Some (81 :: 32 :: replicate 32 7))]
    [mkLdkMonitor [1] [2] (live, 0) (funding, 0) (Some ([3], [4])) (Some ([3], [4])) []].
Definition explorer (live : list Z) (spent : option (bool * option (list Z))) : Explorer :=
  mkExplorer (mkClient (fun _ => Some (Some (mkTx 0 [] []))) (fun _ => Some (mkStatus (Some [1]) (Some 1000))) (fun _ => Some [live]))
    (fun _ _ _ => Some spent).
Definition consent (live : list Z) : VOp := OpConsent (hex_data live) 0 (mkConsent (mkOpenAuth [] [] []) []).
(** A deposit, the channel it becomes, the consent for it, and its readiness. *)
Definition vault_ops (live : list Z) : list DOp :=
  DVault 6 <$> [OpOnboard (Some 790) (VaultSample.spk 1) (VaultSample.intent 1); OpPass VaultSample.explorer (VaultSample.env []);
                OpPass VaultSample.explorer (VaultSample.env [(0, Some (live, 0))]); consent live].
Definition start : DState := driver_start ClientSample.start true persisted_default None.
Definition run (amount status : Z) (st : DState) (ops : list DOp) : DState :=
  drun (net amount status) hash [] ClientSample.sign TransportSample.cfg st ops.
End DriverSample.
#[local] Existing Instances StoreSample.text SwapOutSample.lib.

Lemma driver_sound_witness :
  let ops := DriverSample.vault_ops DriverSample.funding ++ [DEvent (DriverSample.view DriverSample.funding) (Ready [1] DriverSample.funding 0)] in
  let o := DFinish (DriverSample.view DriverSample.funding) (DriverSample.explorer DriverSample.funding None) 0 in
  let st := DriverSample.run 0 0 DriverSample.start ops in
  length (tasks st) = 1%nat /\ length (sent_log (d_world (DriverSample.run 0 0 st [o]))) = 1%nat /\
  (forall i j t u cid, tasks st !! i = Some t -> tasks st !! j = Some u -> slot_of t = Some cid -> slot_of u = Some cid -> i = j) /\
  (forall cid, cid ∈ active st <-> exists t, t ∈ tasks st /\ slot_of t = Some cid) /\
  (forall t, t ∈ tasks st -> slot_of t = None -> unguarded t) /\
  logs (step_call (DriverSample.net 0 0) DriverSample.hash TransportSample.cfg st o) st (DriverSample.run 0 0 st [o]).
Proof.
  intros ops o st. split; [vm_compute; reflexivity|]. split; [vm_compute; reflexivity|].
  refine (driver_sound (DriverSample.net 0 0) DriverSample.hash [] ClientSample.sign TransportSample.cfg _ _ _
    ClientSample.start true persisted_default None ops o); [vm_compute; split; [discriminate|reflexivity]|vm_compute; discriminate|vm_compute; discriminate].
Defined.

(** Two events of the close of a channel that is not in the driver's map, or an event that comes
    twice, run the same drive twice at a time. *)
Lemma unmapped_closes_run_twice :
  let node := DriverSample.view DriverSample.funding in
  let st := DriverSample.run 500 STATUS_OPEN DriverSample.start
              [DEvent node (Closed [1] DriverSample.funding 0); DEvent node (Closed [1] DriverSample.funding 0)] in
  let close := TClose None (Some [1]) DriverSample.funding 0 None (Some ([3], [4])) None in
  tasks st = [close; close] /\ active st = ∅.
Proof. split; by vm_compute. Qed.

(** The reconciler opens a channel at its live outpoint, while its id comes from the outpoint
    it was opened at: a channel spliced before its open was recorded is recorded under
    another id, and the next pass opens it once more. *)
Lemma open_after_splice_miskeyed :
  let node := DriverSample.view DriverSample.spliced in
  let x := DriverSample.explorer DriverSample.spliced None in
  let st := DriverSample.run 0 0 DriverSample.start (DriverSample.vault_ops DriverSample.spliced ++ [DReconcile node x]) in
  let cid := channel_id DriverSample.hash [3] [4] DriverSample.funding 0 in
  let other := channel_id DriverSample.hash [3] [4] DriverSample.spliced 0 in
  tasks st = [TOpen (Some cid) DriverSample.spliced 0] /\ other <> cid /\
  length (sent_log (d_world (DriverSample.run 0 0 st [DFinish node x 0]))) = 1%nat /\
  tasks (DriverSample.run 0 0 st [DFinish node x 0; DReconcile node x]) = tasks st.
Proof. split_and!; [by vm_compute|by vm_compute|by vm_compute|by vm_compute]. Qed.

(** The cooperative close of a channel with a record: event and reconciler both start the
    drive, neither sends anything, and the record stays open. *)
Lemma cooperative_close_unrecorded :
  let node := DriverSample.view DriverSample.funding in
  let x := DriverSample.explorer DriverSample.spliced (Some (true, Some DriverSample.spliced)) in
  let st := DriverSample.run 500 STATUS_OPEN DriverSample.start
              [DEvent node (Ready [1] DriverSample.funding 0); DFinish node x 0; DEvent node (Closed [1] DriverSample.funding 0); DFinish node x 0;
               DReconcile node x; DFinish node x 0] in
  tasks st = [] /\ sent_log (d_world st) = [] /\ d_cids st !! [1] <> None.
Proof. split_and!; [by vm_compute|by vm_compute|by vm_compute]. Qed.
