(* ===== verification/Hex.v ===== *)
(** * Hex: the constant-time codec

    [quid-ln/quid-hex/src/hex.rs]: encoding and decoding of lower-case hexadecimal, written
    without branches on the data.  The sixteen-bit arithmetic of the source is kept: a
    character that is no digit decodes to all ones, which the loop notices in the high byte. *)
From Stdlib Require Import String.
From stdpp Require Import base list strings.
From S2P Require Import Prelude Pool Chain Abi.
Open Scope list_scope.

Inductive DecodeError := BadOutputLength | InvalidCharacter | OddInputLength.

(** A string from its bytes. *)
Definition from_utf8 (l : list Z) : string := foldr (fun b s => String (Ascii.ascii_of_nat (Z.to_nat b)) s) EmptyString l.

Definition encode_nibble (nib : Z) : Z :=
  let base := nib + 48 in
  let gap_9a := Z.land (Z.shiftr (57 - 48 - nib) 8) (97 - 57 - 1) in
  cast u8 (base + gap_9a).
Definition decode_nibble (byte : Z) : Z :=
  let ret := -1 in
  let ret := ret + Z.land (Z.shiftr (Z.land (47 - byte) (byte - 58)) 8) (byte - 47) in
  let ret := ret + Z.land (Z.shiftr (Z.land (96 - byte) (byte - 103)) 8) (byte - 86) in
  cast u16 ret.

Definition encode (bytes : list Z) : string :=
  from_utf8 (flat_map (fun b => [encode_nibble (Z.shiftr b 4); encode_nibble (Z.land b 15)]) bytes).

(** [as_chunks] with its remainder. *)
Fixpoint chunks2 (l : list Z) : list (Z * Z) * list Z :=
  match l with
  | a :: b :: l => let '(cs, extra) := chunks2 l in ((a, b) :: cs, extra)
  | _ => ([], l)
  end.
Definition hex_str_to_chunks (hex : string) : list (Z * Z) + DecodeError :=
  let '(cs, extra) := chunks2 (str_bytes hex) in
  match extra with [] => inl cs | _ => inr OddInputLength end.
(** One turn of the loop: the error bits so far and the bytes written. *)
Definition decode_turn (st : Z * list Z) (c : Z * Z) : Z * list Z :=
  let byte := Z.lor (cast u16 (Z.shiftl (decode_nibble c.1) 4)) (decode_nibble c.2) in
  (Z.lor st.1 (Z.shiftr byte 8), st.2 ++ [cast u8 byte]).
Definition decode_to_slice_inner (hex_chunks : list (Z * Z)) (out : nat) : list Z + DecodeError :=
  if negb (length hex_chunks =? out)%nat then inr BadOutputLength else
  let '(err, l) := foldl decode_turn (0, []) hex_chunks in
  if err =? 0 then inl l else inr InvalidCharacter.
Definition decode_to_slice (hex : string) (out : nat) : list Z + DecodeError :=
  match hex_str_to_chunks hex with inl cs => decode_to_slice_inner cs out | inr e => inr e end.
Definition decode (hex : string) : list Z + DecodeError :=
  match hex_str_to_chunks hex with inl cs => decode_to_slice_inner cs (length cs) | inr e => inr e end.

(** * Properties *)

(** ** Digits *)
(** A property of every byte, by trying them all. *)
Lemma every_byte (P : Z -> bool) b : byte_ok b -> forallb P (seqZ 0 256) = true -> P b = true.
Proof. intros Hb H. rewrite forallb_forall in H. apply H, list_elem_of_In, elem_of_seqZ. unfold byte_ok in Hb. lia. Qed.
(** A digit is one of sixteen, and everything else is marked. *)
Lemma nibble_spec b : byte_ok b ->
  (decode_nibble b = 65535 /\ forall d, 0 <= d < 16 -> encode_nibble d <> b) \/
  (0 <= decode_nibble b < 16 /\ encode_nibble (decode_nibble b) = b).
Proof.
  intros Hb. assert ((if decode_nibble b =? 65535 then forallb (fun d => negb (encode_nibble d =? b)) (seqZ 0 16)
                      else (0 <=? decode_nibble b) && (decode_nibble b <? 16) && (encode_nibble (decode_nibble b) =? b)) = true) as H.
  { by apply (every_byte (fun b => if decode_nibble b =? 65535 then forallb (fun d => negb (encode_nibble d =? b)) (seqZ 0 16)
      else (0 <=? decode_nibble b) && (decode_nibble b <? 16) && (encode_nibble (decode_nibble b) =? b))). }
  destruct (Z.eqb_spec (decode_nibble b) 65535) as [E|_].
  - left. split; [done|]. intros d Hd Hn. rewrite forallb_forall in H. specialize (H d). rewrite Hn, Z.eqb_refl in H.
    enough (false = true) by done. apply H, list_elem_of_In, elem_of_seqZ. lia.
  - right. apply andb_true_iff in H as [[H1 H2]%andb_true_iff H3]. lia.
Qed.
Lemma nibble_back d : 0 <= d < 16 -> byte_ok (encode_nibble d) /\ decode_nibble (encode_nibble d) = d.
Proof.
  intros Hd. assert (forallb (fun d => (0 <=? encode_nibble d) && (encode_nibble d <? 256) && (decode_nibble (encode_nibble d) =? d)) (seqZ 0 16) = true) as H by done.
  rewrite forallb_forall in H. specialize (H d). unfold byte_ok.
  assert (d ∈ seqZ 0 16) as Hin by (apply elem_of_seqZ; lia). apply list_elem_of_In in Hin. specialize (H Hin).
  apply andb_true_iff in H as [[H1 H2]%andb_true_iff H3]. lia.
Qed.

(** ** One turn *)
(** What a pair of characters decodes to, when both are digits. *)
Definition pair_byte (c : Z * Z) : Z := 16 * decode_nibble c.1 + decode_nibble c.2.
Definition digits_ok (c : Z * Z) : Prop := decode_nibble c.1 <> 65535 /\ decode_nibble c.2 <> 65535.
#[export] Instance digits_ok_dec c : Decision (digits_ok c).
Proof. unfold digits_ok. apply _. Defined.
Lemma turn_spec st c : byte_ok c.1 -> byte_ok c.2 ->
  (digits_ok c /\ byte_ok (pair_byte c) /\ decode_turn st c = (st.1, st.2 ++ [pair_byte c])) \/
  (~ digits_ok c /\ exists e b, 0 < e /\ decode_turn st c = (Z.lor st.1 e, st.2 ++ [b])).
Proof.
  intros H1 H2. unfold decode_turn, digits_ok, pair_byte, byte_ok.
  destruct (nibble_spec _ H1) as [[E1 _]|[R1 _]], (nibble_spec _ H2) as [[E2 _]|[R2 _]].
  - right. split; [naive_solver|]. rewrite E1, E2. eexists _, _. split; [|reflexivity]. done.
  - right. split; [naive_solver|]. rewrite E1. eexists _, _. split; [|done].
    assert (forallb (fun d => 0 <? Z.shiftr (Z.lor (cast u16 (Z.shiftl 65535 4)) d) 8) (seqZ 0 16) = true) as H by done.
    rewrite forallb_forall in H. apply Z.ltb_lt, H, list_elem_of_In, elem_of_seqZ. lia.
  - right. split; [naive_solver|]. rewrite E2. eexists _, _. split; [|done].
    assert (forallb (fun d => 0 <? Z.shiftr (Z.lor (cast u16 (Z.shiftl d 4)) 65535) 8) (seqZ 0 16) = true) as H by done.
    rewrite forallb_forall in H. apply Z.ltb_lt, H, list_elem_of_In, elem_of_seqZ. lia.
  - left. split; [lia|]. split; [lia|].
    assert (forallb (fun h => forallb (fun l => (Z.lor (cast u16 (Z.shiftl h 4)) l =? 16 * h + l)) (seqZ 0 16)) (seqZ 0 16) = true) as H by done.
    rewrite forallb_forall in H. specialize (H (decode_nibble c.1)).
    assert (decode_nibble c.1 ∈ seqZ 0 16 /\ decode_nibble c.2 ∈ seqZ 0 16) as [Hin1 Hin2] by (rewrite !elem_of_seqZ; lia).
    apply list_elem_of_In in Hin1, Hin2. specialize (H Hin1). rewrite forallb_forall in H. specialize (H _ Hin2). apply Z.eqb_eq in H. rewrite H.
    assert (byte_ok (16 * decode_nibble c.1 + decode_nibble c.2)) as Hb by (unfold byte_ok; lia).
    assert (Z.shiftr (16 * decode_nibble c.1 + decode_nibble c.2) 8 = 0 /\ cast u8 (16 * decode_nibble c.1 + decode_nibble c.2) = 16 * decode_nibble c.1 + decode_nibble c.2) as [-> ->].
    { assert ((Z.shiftr (16 * decode_nibble c.1 + decode_nibble c.2) 8 =? 0) && (cast u8 (16 * decode_nibble c.1 + decode_nibble c.2) =? 16 * decode_nibble c.1 + decode_nibble c.2) = true) as Hs
        by exact (every_byte (fun b => (Z.shiftr b 8 =? 0) && (cast u8 b =? b)) _ Hb eq_refl). lia. }
    by rewrite Z.lor_0_r.
Qed.

(** ** The loop *)
Definition byte_pair (c : Z * Z) : Prop := byte_ok c.1 /\ byte_ok c.2.
Lemma loop_spec cs e acc : Forall byte_pair cs -> 0 <= e ->
  (Forall digits_ok cs /\ Forall byte_ok (pair_byte <$> cs) /\ foldl decode_turn (e, acc) cs = (e, acc ++ (pair_byte <$> cs))) \/
  (~ Forall digits_ok cs /\ 0 < (foldl decode_turn (e, acc) cs).1).
Proof.
  revert e acc. induction cs as [|c cs IH]; intros e acc Hb He; [left; split_and!; [constructor|constructor|cbn; by rewrite app_nil_r]|].
  inversion Hb as [|?? [H1 H2] Hbs]; subst. cbn [foldl].
  destruct (turn_spec (e, acc) c H1 H2) as [(Hd & Hp & ->)|(Hd & e' & b & He' & ->)]; cbn [fst snd].
  - destruct (IH e (acc ++ [pair_byte c]) Hbs He) as [(Hds & Hps & ->)|(Hds & Hpos)].
    + left. split_and!; [by constructor|by constructor|]. cbn. by rewrite <- app_assoc.
    + right. split; [|done]. intros Hf. by inversion Hf.
  - right. split; [intros Hf; by inversion Hf|].
    assert (0 < Z.lor e e') as Hl.
    { assert (0 <= Z.lor e e') by (apply Z.lor_nonneg; lia). destruct (decide (Z.lor e e' = 0)) as [E|]; [|lia]. apply Z.lor_eq_0_iff in E. lia. }
    assert (0 <= Z.lor e e') as Hl' by lia.
    destruct (IH (Z.lor e e') (acc ++ [b]) Hbs Hl') as [(_ & _ & ->)|(_ & Hpos)]; done.
Qed.
Lemma chunks2_flat cs : chunks2 (flat_map (fun c : Z * Z => [c.1; c.2]) cs) = (cs, []).
Proof. induction cs as [|[a b] cs IH]; [done|]. cbn [flat_map app chunks2 fst snd]. by rewrite IH. Qed.
Lemma chunks2_spec l : exists cs extra, chunks2 l = (cs, extra) /\ l = flat_map (fun c : Z * Z => [c.1; c.2]) cs ++ extra /\ (length extra <= 1)%nat.
Proof.
  enough (forall n l, (length l <= n)%nat -> exists cs extra, chunks2 l = (cs, extra) /\ l = flat_map (fun c : Z * Z => [c.1; c.2]) cs ++ extra /\ (length extra <= 1)%nat) as H
    by (by apply (H (length l))).
  induction n as [|n IH]; intros l0 Hl; destruct l0 as [|a [|b l1]]; cbn in Hl; try lia;
    [exists [], []; split_and!; try done; cbn; lia|exists [], []; split_and!; try done; cbn; lia|exists [], [a]; split_and!; try done; cbn; lia|].
  destruct (IH l1 ltac:(lia)) as (cs & ex & E & -> & Hx). exists ((a, b) :: cs), ex. cbn [chunks2]. by rewrite E.
Qed.

(** ** Strings and their bytes *)
Lemma str_bytes_ok s : Forall byte_ok (str_bytes s).
Proof.
  unfold str_bytes. apply Forall_fmap, Forall_true. intros c. cbn. unfold byte_ok. pose proof (Ascii.N_ascii_bounded c). lia.
Qed.
Lemma from_utf8_bytes s : from_utf8 (str_bytes s) = s.
Proof.
  induction s as [|c s IH]; [done|]. unfold str_bytes in *. cbn [list_ascii_of_string map from_utf8 foldr]. fold (from_utf8 (map (fun c => Z.of_N (Ascii.N_of_ascii c)) (list_ascii_of_string s))).
  rewrite IH. f_equal. rewrite <- (Ascii.ascii_nat_embedding c) at 2. f_equal. unfold Ascii.nat_of_ascii. lia.
Qed.
Lemma str_bytes_utf8 l : Forall byte_ok l -> str_bytes (from_utf8 l) = l.
Proof.
  induction 1 as [|b l Hb _ IH]; [done|]. unfold from_utf8, str_bytes in *. cbn [foldr list_ascii_of_string map]. f_equal; [|exact IH].
  unfold byte_ok in Hb. pose proof (Ascii.nat_ascii_embedding (Z.to_nat b) ltac:(lia)) as E. unfold Ascii.nat_of_ascii in E. lia.
Qed.

(** ** Encoding and decoding *)
Definition hex_pair (b : Z) : Z * Z := (encode_nibble (Z.shiftr b 4), encode_nibble (Z.land b 15)).
Lemma nibbles_of b : byte_ok b -> 0 <= Z.shiftr b 4 < 16 /\ 0 <= Z.land b 15 < 16 /\ 16 * Z.shiftr b 4 + Z.land b 15 = b.
Proof.
  intros Hb. assert (((0 <=? Z.shiftr b 4) && (Z.shiftr b 4 <? 16) && (0 <=? Z.land b 15) && (Z.land b 15 <? 16) && (16 * Z.shiftr b 4 + Z.land b 15 =? b)) = true) as H
    by exact (every_byte (fun b => (0 <=? Z.shiftr b 4) && (Z.shiftr b 4 <? 16) && (0 <=? Z.land b 15) && (Z.land b 15 <? 16) && (16 * Z.shiftr b 4 + Z.land b 15 =? b)) _ Hb eq_refl).
  lia.
Qed.
Lemma pair_of_byte b : byte_ok b -> byte_pair (hex_pair b) /\ digits_ok (hex_pair b) /\ pair_byte (hex_pair b) = b.
Proof.
  intros Hb. destruct (nibbles_of b Hb) as (H1 & H2 & H3). destruct (nibble_back _ H1) as [B1 D1], (nibble_back _ H2) as [B2 D2].
  unfold byte_pair, digits_ok, pair_byte, hex_pair. cbn [fst snd]. rewrite D1, D2. split_and!; try done; lia.
Qed.
Lemma byte_of_pair c : byte_pair c -> digits_ok c -> hex_pair (pair_byte c) = c.
Proof.
  intros [B1 B2] [D1 D2]. destruct (nibble_spec _ B1) as [[? _]|[R1 E1]]; [done|]. destruct (nibble_spec _ B2) as [[? _]|[R2 E2]]; [done|].
  unfold hex_pair, pair_byte. destruct (nibbles_of (16 * decode_nibble c.1 + decode_nibble c.2)) as (H1 & H2 & H3); [unfold byte_ok; lia|].
  assert (Z.shiftr (16 * decode_nibble c.1 + decode_nibble c.2) 4 = decode_nibble c.1) as E by lia.
  assert (Z.land (16 * decode_nibble c.1 + decode_nibble c.2) 15 = decode_nibble c.2) as E' by lia. rewrite E, E', E1, E2. by destruct c.
Qed.
Lemma encode_pairs l : encode l = from_utf8 (flat_map (fun c : Z * Z => [c.1; c.2]) (hex_pair <$> l)).
Proof. unfold encode. f_equal. induction l as [|b l IH]; [done|]. cbn [flat_map fmap list_fmap fst snd hex_pair]. by rewrite IH. Qed.
Lemma flat_bytes cs : Forall byte_ok (flat_map (fun c : Z * Z => [c.1; c.2]) cs) <-> Forall byte_pair cs.
Proof.
  induction cs as [|c cs IH]; [split; constructor|]. cbn [flat_map app]. rewrite !Forall_cons, IH. unfold byte_pair. tauto.
Qed.
(** The characters of a string, as the decoder groups them. *)
Lemma chunks_of s : match hex_str_to_chunks s with
  | inl cs => Forall byte_pair cs /\ s = from_utf8 (flat_map (fun c : Z * Z => [c.1; c.2]) cs)
  | inr e => e = OddInputLength /\ forall l, s <> encode l
  end.
Proof.
  unfold hex_str_to_chunks. destruct (chunks2_spec (str_bytes s)) as (cs & ex & -> & E & Hx).
  pose proof (str_bytes_ok s) as Hb. rewrite E in Hb. apply Forall_app in Hb as [Hb Hbx]. destruct ex as [|a [|]]; cbn in Hx; [|..|lia].
  - rewrite app_nil_r in E. split; [by apply flat_bytes|]. by rewrite <- E, from_utf8_bytes.
  - split; [done|]. intros l ->. rewrite encode_pairs in E.
    destruct (decide (Forall byte_ok (flat_map (fun c : Z * Z => [c.1; c.2]) (hex_pair <$> l)))) as [Hf|Hf].
    + rewrite str_bytes_utf8 in E by done. apply (f_equal length) in E. rewrite length_app in E. cbn [length] in E.
      assert (forall cs : list (Z * Z), length (flat_map (fun c => [c.1; c.2]) cs) = 2 * length cs)%nat as Hlen
        by (intros cs'; induction cs' as [|c' cs' IH]; [done|]; cbn [flat_map app length]; lia).
      rewrite !Hlen in E. lia.
    + apply Hf. apply flat_bytes, Forall_fmap, Forall_true. intros b. cbn. unfold byte_pair, hex_pair. cbn [fst snd].
      assert (forall n, byte_ok (encode_nibble n)) as Hn; [|by split].
      intros n. unfold encode_nibble, byte_ok.
      match goal with |- context [cast u8 ?y] => pose proof (cast_in_range u8 y ltac:(done)) as Hr end. unfold in_range in Hr. cbn [imin imax u8] in Hr. lia.
Qed.
Lemma inner_spec cs n l : Forall byte_pair cs ->
  decode_to_slice_inner cs n = inl l <-> length cs = n /\ Forall byte_ok l /\ cs = hex_pair <$> l.
Proof.
  intros Hb. unfold decode_to_slice_inner. destruct (Nat.eqb_spec (length cs) n) as [En|En]; cbn [negb]; [|split; [done|naive_solver]].
  destruct (loop_spec cs 0 [] Hb ltac:(lia)) as [(Hd & Hp & ->)|(Hd & Hpos)].
  - cbn [app]. rewrite Z.eqb_refl. split.
    + intros [= <-]. split_and!; [done|done|]. rewrite <- list_fmap_compose. symmetry. rewrite <- (list_fmap_id cs) at 2.
      apply list_fmap_ext. intros i c Hc. cbn. rewrite Forall_lookup in Hb, Hd. by apply byte_of_pair; [eapply Hb|eapply Hd].
    + intros (_ & Hl & ->). f_equal. rewrite <- list_fmap_compose. rewrite <- (list_fmap_id l) at 2.
      apply list_fmap_ext. intros i b Hi. cbn. rewrite Forall_lookup in Hl. by apply pair_of_byte, (Hl i).
  - destruct (foldl decode_turn (0, []) cs) as [e out]. cbn [fst] in Hpos. destruct (Z.eqb_spec e 0); [lia|]. split; [done|].
    intros (_ & Hl & ->). destruct Hd. apply Forall_fmap. eapply Forall_impl; [exact Hl|]. intros b Hb'. by apply pair_of_byte.
Qed.
(** The decoder accepts exactly what the encoder prints: every byte string has one spelling,
    in lower case, of even length, and anything else is an error. *)
Lemma hex_exact s l : decode s = inl l <-> Forall byte_ok l /\ s = encode l.
Proof.
  unfold decode. pose proof (chunks_of s) as H. destruct (hex_str_to_chunks s) as [cs|e].
  - destruct H as [Hb ->]. rewrite inner_spec by done. rewrite encode_pairs. split.
    + by intros (_ & ? & ->).
    + intros [Hl E]. split_and!; [done|done|]. apply (f_equal str_bytes) in E.
      assert (Forall byte_pair (hex_pair <$> l)) as Hb' by (apply Forall_fmap; eapply Forall_impl; [exact Hl|]; intros b Hb'; by apply pair_of_byte).
      rewrite !str_bytes_utf8 in E by (by apply flat_bytes). apply (f_equal chunks2) in E. rewrite !chunks2_flat in E. by injection E.
  - split; [done|]. intros [_ E]. by destruct H as [_ H], (H l).
Qed.
Lemma hex_exact_slice s n l : decode_to_slice s n = inl l <-> length l = n /\ Forall byte_ok l /\ s = encode l.
Proof.
  rewrite <- hex_exact. unfold decode, decode_to_slice. pose proof (chunks_of s) as H. destruct (hex_str_to_chunks s) as [cs|e]; [|naive_solver].
  destruct H as [Hb _]. rewrite !inner_spec by done. split.
  - intros (Hn & Hl & ->). rewrite length_fmap in *. done.
  - intros (<- & _ & Hl & ->). rewrite length_fmap. done.
Qed.
