(* ===== verification/Enclave.v ===== *)
(** * Enclave: sealing and remote attestation

    [quid-ln/quid-enclave/src/backend.rs], [platform.rs] and [types.rs]: which backend may
    serve whom, and the sealing of data to an enclave, in the build for SGX.
    [quid-ln/quid-tls/src/attest_client/verifier.rs] and [attest_client.rs]: what is checked of
    a quote, of the report in it and of the certificate that carries it.

    The processor ([egetkey]), the ciphers and the parsing and signature checks of certificates
    are classes; their laws say what the manuals of those say.  The size of a key request and
    of a report is that of the structures of the processor. *)
From Stdlib Require Import String.
From stdpp Require Import base list strings.
From S2P Require Import Prelude Pool Chain Abi Hex.
Open Scope list_scope.

(** A result or an error. *)
Definition res (E A : Type) : Type := (A + E)%type.
#[export] Instance res_ret {E} : MRet (res E) := fun _ a => inl a.
#[export] Instance res_bind {E} : MBind (res E) := fun _ _ f m => match m with inl a => f a | inr e => inr e end.
Definition fail {E A} (e : E) : res E A := inr e.
Definition ensure {E} (b : bool) (e : E) : res E unit := if b then inl tt else inr e.
Definition expect {E A} (e : E) (o : option A) : res E A := match o with Some a => inl a | None => inr e end.
Lemma res_bind_inl {E A B} (m : res E A) (f : A -> res E B) b : m ≫= f = inl b -> exists a, m = inl a /\ f a = inl b.
Proof. destruct m as [a|e]; [|done]. by exists a. Qed.
Lemma ensure_inl {E} b (e : E) u : ensure b e = inl u -> b = true.
Proof. by destruct b. Qed.
Lemma expect_inl {E A} (e : E) (o : option A) a : expect e o = inl a -> o = Some a.
Proof. destruct o; [|done]. by intros [= ->]. Qed.

Lemma res_bind_ok {E A B} (a : A) (f : A -> res E B) : (inl a : res E A) ≫= f = f a.
Proof. reflexivity. Qed.
Lemma bind_ret {E A B} (a : A) (f : A -> res E B) : (mret a : res E A) ≫= f = f a.
Proof. reflexivity. Qed.
Lemma bind_expect {E A B} (e : E) (a : A) (f : A -> res E B) : expect e (Some a) ≫= f = f a.
Proof. reflexivity. Qed.
Lemma bind_ensure {E B} (e : E) b (f : unit -> res E B) : b = true -> ensure b e ≫= f = f tt.
Proof. by intros ->. Qed.

(** [hex::decode_const], which does not compile on anything but digits. *)
Definition decode_const (hex : string) : list Z := match decode hex with inl l => l | inr _ => [] end.

(** ** Backends and roles *)
Inductive Backend := Sgx | Tdx | Nitro | NoTee.
Definition is_attested (b : Backend) : bool := match b with NoTee => false | _ => true end.
Definition custody_ready (b : Backend) : bool := match b with Sgx => true | _ => false end.
Inductive HostingRole := Fleet | Family | Individual.
Definition serves_others (r : HostingRole) : bool := match r with Fleet | Family => true | Individual => false end.
Definition require_backend_for_role (role : HostingRole) (backend : Backend) : bool := negb (serves_others role && negb (custody_ready backend)).
Definition detect (sgx : bool) (tdx_node nsm_node : bool) : Backend :=
  if sgx then Sgx else if tdx_node then Tdx else if nsm_node then Nitro else NoTee.

(** ** Sealed data *)
Inductive EnclaveError :=
  SgxError | SealInputTooLarge | UnsealInputTooSmall | InvalidKeyRequestLength | InvalidKeyRequestPolicy | UnsealDecryptionError | DeserializationError | SevKeyUnavailable.
Record Sealed := mkSealed { s_keyrequest : list Z; s_ciphertext : list Z }.
Definition TAG_LEN : nat := 16.
Definition sealed_serialize (s : Sealed) : list Z :=
  to_le_bytes 4 (cast u32 (Z.of_nat (length (s_keyrequest s)))) ++ s_keyrequest s ++
  to_le_bytes 4 (cast u32 (Z.of_nat (length (s_ciphertext s)))) ++ s_ciphertext s.
Definition read_u32_le (l : list Z) : res EnclaveError (Z * list Z) :=
  if (length l <? 4)%nat then fail DeserializationError else inl (from_le_bytes (take 4 l), drop 4 l).
Definition read_bytes (l : list Z) : res EnclaveError (list Z * list Z) :=
  '(len, l) ← read_u32_le l;
  if (Z.to_nat len <=? length l)%nat then inl (take (Z.to_nat len) l, drop (Z.to_nat len) l) else fail DeserializationError.
Definition sealed_deserialize (l : list Z) : res EnclaveError Sealed :=
  '(kr, l) ← read_bytes l;
  '(ct, l) ← read_bytes l;
  match l with [] => inl (mkSealed kr ct) | _ => fail DeserializationError end.

(** ** Sealing keys *)
Record Keyrequest := mkKeyrequest {
  keyname : Z; keypolicy : Z; isvsvn : Z; cpusvn : list Z; attributemask : Z * Z; miscmask : Z; keyid : list Z }.
Definition KEYNAME_SEAL : Z := 4.
Definition KEYPOLICY_MRENCLAVE : Z := 1.
Definition CPUSVN_CURRENT : list Z := [14; 14; 16; 15; 255; 255; 1; 0; 0; 0; 0; 0; 0; 0; 0; 0].
Definition ATTRIBUTES_MASK : Z := Z.lor 1 (Z.lor 2 4).
Definition XFRM_MASK : Z := Z.lor 230 3.
Definition MISC_MASK : Z := 0.
Definition UNPADDED_SIZE : nat := 512.
Definition TRUNCATED_SIZE : nat := 76.
Definition HKDF_SALT : list Z := str_bytes "QUID-REALM::SgxSealing" ++ replicate 10 0.

(** An enclave on a processor: its measurements and the secrets of the machine. *)
Record Platform := mkPlatform { p_mrenclave : list Z; p_mrsigner : list Z; p_cpu : list Z }.
Class SgxIsa := {
  kr_bytes : Keyrequest -> list Z;
  kr_copy : list Z -> Keyrequest;
  egetkey : Platform -> Keyrequest -> option (list Z);
  hkdf : list Z -> list Z -> list Z -> list Z;
  gcm_seal : list Z -> list Z -> list Z -> option (list Z);
  gcm_open : list Z -> list Z -> list Z -> option (list Z) }.
(** The reserved bytes of a request are zero and the processor reads a request back as it was
    written; a key of the policy used here depends on the enclave and the machine and on
    nothing else, and differs for different ones; a ciphertext opens under its own key and
    nonce to what was sealed, and under no other key. *)
Class SgxIsaLaws (S : SgxIsa) := {
  kr_length k : length (kr_bytes k) = UNPADDED_SIZE;
  kr_reserved k : drop TRUNCATED_SIZE (kr_bytes k) = replicate (UNPADDED_SIZE - TRUNCATED_SIZE) 0;
  kr_back k : kr_copy (kr_bytes k) = k;
  egetkey_same p q k : keypolicy k = KEYPOLICY_MRENCLAVE -> p_mrenclave p = p_mrenclave q -> p_cpu p = p_cpu q -> egetkey p k = egetkey q k;
  egetkey_binds p q k m : keypolicy k = KEYPOLICY_MRENCLAVE -> egetkey p k = Some m -> egetkey q k = Some m ->
    p_mrenclave p = p_mrenclave q /\ p_cpu p = p_cpu q;
  hkdf_binds salt m m' l l' : hkdf salt m l = hkdf salt m' l' -> m = m' /\ l = l';
  gcm_back k n p c : gcm_seal k n p = Some c -> gcm_open k n c = Some p;
  gcm_tag k n p c : gcm_seal k n p = Some c -> length c = (length p + TAG_LEN)%nat;
  gcm_key k n p k' n' p' c : gcm_seal k n p = Some c -> gcm_open k' n' c = Some p' -> k' = k }.

Section Sealing.
Context `{S : SgxIsa}.

Definition new_sealing_request (random_keyid : list Z) : Keyrequest :=
  mkKeyrequest KEYNAME_SEAL KEYPOLICY_MRENCLAVE 0 CPUSVN_CURRENT (ATTRIBUTES_MASK, XFRM_MASK) MISC_MASK random_keyid.
Definition request_bytes (k : Keyrequest) : list Z := take TRUNCATED_SIZE (kr_bytes k).
Definition validate_policy (k : Keyrequest) : bool :=
  let e := new_sealing_request (keyid k) in
  (keyname k =? keyname e) && (keypolicy k =? keypolicy e) && (isvsvn k =? isvsvn e) && bool_decide (cpusvn k = cpusvn e) &&
  bool_decide (attributemask k = attributemask e) && (miscmask k =? miscmask e).
Definition try_from_bytes (l : list Z) : res EnclaveError Keyrequest :=
  _ ← ensure ((TRUNCATED_SIZE <=? length l)%nat && (length l <=? UNPADDED_SIZE)%nat) InvalidKeyRequestLength;
  let kr := kr_copy (l ++ replicate (UNPADDED_SIZE - length l) 0) in
  _ ← ensure (validate_policy kr) InvalidKeyRequestPolicy;
  mret kr.
Definition single_use_nonce (k : Keyrequest) : list Z := drop (length (keyid k) - 12) (keyid k).
Definition derive_key (p : Platform) (k : Keyrequest) (label : list Z) : res EnclaveError (list Z) :=
  m ← expect SgxError (egetkey p k); mret (hkdf HKDF_SALT m label).

Definition seal (p : Platform) (random_keyid label data : list Z) : res EnclaveError Sealed :=
  let kr := new_sealing_request random_keyid in
  key ← derive_key p kr label;
  ct ← expect SealInputTooLarge (gcm_seal key (single_use_nonce kr) data);
  mret (mkSealed (request_bytes kr) ct).
Definition unseal (p : Platform) (s : Sealed) (label : list Z) : res EnclaveError (list Z) :=
  _ ← ensure (negb (length (s_ciphertext s) <? TAG_LEN)%nat) UnsealInputTooSmall;
  kr ← try_from_bytes (s_keyrequest s);
  key ← derive_key p kr label;
  expect UnsealDecryptionError (gcm_open key (single_use_nonce kr) (s_ciphertext s)).

(** Outside SGX the key is stored beside the ciphertext. *)
Definition MOCK_SALT : list Z := replicate 32 66.
Definition seal_mock (random_keyid label data : list Z) : res EnclaveError Sealed :=
  ct ← expect SealInputTooLarge (gcm_seal (hkdf MOCK_SALT random_keyid label) (replicate 12 0) data);
  mret (mkSealed random_keyid ct).
Definition unseal_mock (s : Sealed) (label : list Z) : res EnclaveError (list Z) :=
  _ ← ensure (length (s_keyrequest s) =? 32)%nat InvalidKeyRequestLength;
  expect UnsealDecryptionError (gcm_open (hkdf MOCK_SALT (s_keyrequest s) label) (replicate 12 0) (s_ciphertext s)).

(** [NativeSealer] *)
Definition native_seal (sgx : bool) (p : Platform) (random_keyid label data : list Z) : res EnclaveError Sealed :=
  if sgx then seal p random_keyid label data else seal_mock random_keyid label data.
Definition native_unseal (sgx : bool) (p : Platform) (s : Sealed) (label : list Z) : res EnclaveError (list Z) :=
  if sgx then unseal p s label else unseal_mock s label.
Definition MACHINE_ID_KEY_ID : list Z := str_bytes "~~~~ QUID MACHINE ID KEY ID ~~~~".
Definition KEYPOLICY_MRSIGNER : Z := 2.
Definition MACHINE_MOCK : list Z := decode_const "52bc575eb9618084083ca7b3a45a2a76".
(** The processor answers this request on every supported machine. *)
Definition machine_id (sgx : bool) (p : Platform) : list Z :=
  if sgx then default [] (egetkey p (mkKeyrequest KEYNAME_SEAL KEYPOLICY_MRSIGNER 0 CPUSVN_CURRENT (0, 0) 0 MACHINE_ID_KEY_ID)) else MACHINE_MOCK.
End Sealing.

(** ** Attestation *)
Definition INTEL_QE_IDENTITY_MRSIGNER : list Z := decode_const "8c4f5775d796503e96137f77c68a829a0056ac8ded70140b081b094490c57bff".
Definition MOCK_ENCLAVE : list Z := str_bytes "~~~~~~~ QUID MOCK ENCLAVE ~~~~~~".
Definition MOCK_SIGNER : list Z := str_bytes "======= QUID MOCK SIGNER =======".
Definition DEV_SIGNER : list Z := decode_const "26f048b1fb0ea5cbbb26124b012be52ee72394abaa376392e51bafce397b41fd".
Definition PROD_SIGNER : list Z := decode_const "ed84f711b2250b45cc816f1770f9ddc54c36bc37d84349826134b67b435112a8".
Definition PROD_SIGNER_PLACEHOLDER : list Z := decode_const "ed84f711b2250b45cc816f1770f9ddc54c36bc37d84349826134b67b435112a8".
Definition expected_signer (use_sgx is_dev : bool) : list Z :=
  if use_sgx then if is_dev then DEV_SIGNER else PROD_SIGNER else MOCK_SIGNER.

Record Report := mkReport { rp_debug : bool; rp_mrenclave : list Z; rp_mrsigner : list Z; rp_data : list Z }.
Record EnclavePolicy := mkPolicy {
  allow_debug : bool; trusted_mrenclaves : option (list (list Z)); trusted_mrsigner : option (list Z); expected_cert_pk : option (list Z) }.
Definition trust_measurements_with_signer (use_sgx is_dev : bool) (measurements : list (list Z)) : EnclavePolicy :=
  mkPolicy is_dev (Some measurements) (Some (expected_signer use_sgx is_dev)) None.
Definition trust_expected_signer (use_sgx is_dev : bool) : EnclavePolicy := mkPolicy is_dev None (Some (expected_signer use_sgx is_dev)) None.
Definition dangerous_trust_any : EnclavePolicy := mkPolicy true None None None.
Definition trust_intel_qe : EnclavePolicy := mkPolicy false None (Some INTEL_QE_IDENTITY_MRSIGNER) None.
(** [EnclavePolicy::verify] *)
Definition policy_verify (p : EnclavePolicy) (r : Report) : res string (list Z) :=
  _ ← ensure (allow_debug p || negb (rp_debug r)) "enclave is in debug mode"%string;
  _ ← ensure (match trusted_mrenclaves p with Some l => bool_decide (rp_mrenclave r ∈ l) | None => true end) "enclave measurement is not trusted"%string;
  _ ← ensure (match trusted_mrsigner p with Some m => bool_decide (m = rp_mrsigner r) | None => true end) "enclave signer is not trusted"%string;
  mret (rp_data r).
(** [ReportData::contains] *)
Definition contains (reportdata cert_pk : list Z) : bool := bool_decide (take 32 reportdata = cert_pk).

(** A quote as the library parses it: the certificates of its chain, each of which may be
    malformed, the report of the quoting enclave, and its key with the signature. *)
Record Quote := mkQuote {
  q_report_body : list Z; q_is_pck_chain : bool; q_certs : list (option (list Z));
  q_qe3_sig : list Z; q_qe3_report : list Z; q_att_pk : list Z; q_auth : list Z; q_sig : list Z }.
Class Pki := {
  parse_quote : list Z -> option Quote;
  end_entity_ok : list Z -> bool;
  chains_to_intel : list Z -> list (list Z) -> Z -> bool;
  cert_verifies : list Z -> list Z -> list Z -> bool;
  construct_der : Z -> Z -> list Z;
  sha256 : list Z -> list Z;
  p256_verify : list Z -> list Z -> list Z -> bool;
  report_copy : list Z -> option Report;
  self_signed : list Z -> string -> Z -> bool;
  cert_evidence : list Z -> option (list Z * list Z);
  quid_ca_verifies : list Z -> list (list Z) -> string -> Z -> bool }.
Definition REPORT_TRUNCATED : nat := 384.
Definition REPORT_UNPADDED : nat := 432.
Definition NODE_PROVISION_DNS_SUFFIX : string := ".provision.quid.io".
Fixpoint ends_with (suffix s : string) : bool :=
  String.eqb s suffix || match s with String _ r => ends_with suffix r | EmptyString => false end.

Section Attestation.
Context `{K : Pki}.

Definition get_ecdsa_sig_der (sig : list Z) : res string (list Z) :=
  _ ← ensure (Nat.even (length sig)) "sig not even"%string;
  let half := (length sig / 2)%nat in
  mret (construct_der (from_be_bytes (take half sig)) (from_be_bytes (drop half sig))).
Definition read_attestation_pk (bytes : list Z) : res string (list Z) :=
  _ ← ensure (length bytes =? 64)%nat "Attestation public key is in an unrecognized format"%string;
  mret (4 :: bytes).
Definition report_try_from_truncated (bytes : list Z) : res string Report :=
  _ ← ensure (length bytes =? REPORT_TRUNCATED)%nat "report has the wrong size"%string;
  expect "Should never fail"%string (report_copy (bytes ++ replicate (REPORT_UNPADDED - REPORT_TRUNCATED) 0)).
(** [SgxQuoteVerifier::verify] *)
Definition quote_verify (quote_bytes : list Z) (now : Z) : res string Report :=
  q ← expect "Failed to parse SGX Quote"%string (parse_quote quote_bytes);
  _ ← ensure (q_is_pck_chain q) "unexpected SGX quote certification data type"%string;
  match q_certs q with
  | [Some pck; Some platform; Some root] =>
      _ ← ensure (end_entity_ok pck) "Invalid PCK cert"%string;
      _ ← ensure (chains_to_intel pck [platform; root] now) "PCK cert chain failed validation"%string;
      der ← get_ecdsa_sig_der (q_qe3_sig q);
      _ ← ensure (cert_verifies pck (q_qe3_report q) der) "PCK cert's signature on the Quoting Enclave Report is invalid"%string;
      let expected_reportdata := sha256 (q_att_pk q ++ q_auth q) in
      qe3_report ← report_try_from_truncated (q_qe3_report q);
      qe3_reportdata ← policy_verify trust_intel_qe qe3_report;
      _ ← ensure (bool_decide (take 32 qe3_reportdata = expected_reportdata)) "Quoting Enclave's Report data doesn't match the Quote attestation pk"%string;
      pk ← read_attestation_pk (q_att_pk q);
      _ ← ensure (432 <=? length quote_bytes)%nat "Quote malformed"%string;
      _ ← ensure (p256_verify pk (take 432 quote_bytes) (q_sig q)) "QE signature on application enclave report failed to verify"%string;
      report_try_from_truncated (q_report_body q)
  | _ => fail "PCK cert chain"%string
  end.
Definition verify_attestation_cert (expect_dummy_quote : bool) (policy : EnclavePolicy) (end_entity : list Z) (intermediates : list (list Z))
    (server_name : string) (now : Z) : res string unit :=
  _ ← ensure (match intermediates with [] => true | _ => false end) "received unexpected intermediate certs"%string;
  _ ← ensure (self_signed end_entity server_name now) "invalid certificate"%string;
  '(cert_pk, quote) ← expect "invalid SGX attestation"%string (cert_evidence end_entity);
  report ← (if expect_dummy_quote then expect "Could not copy Report"%string (report_copy quote) else quote_verify quote now);
  reportdata ← policy_verify policy report;
  _ ← ensure (contains reportdata cert_pk) "enclave's report is not binding to the presented x509 cert"%string;
  ensure (match expected_cert_pk policy with Some e => bool_decide (cert_pk = e) | None => true end)
    "attested enclave is a DIFFERENT INSTANCE than the one authorized"%string.
(** [AppNodeProvisionVerifier::verify_server_cert] *)
Definition verify_server_cert (expect_dummy_quote : bool) (policy : EnclavePolicy) (end_entity : list Z) (intermediates : list (list Z))
    (server_name : string) (now : Z) : res string unit :=
  if ends_with NODE_PROVISION_DNS_SUFFIX server_name
  then verify_attestation_cert expect_dummy_quote policy end_entity intermediates server_name now
  else ensure (quid_ca_verifies end_entity intermediates server_name now) "invalid certificate"%string.
End Attestation.

(** * Properties *)

(** ** The codec of sealed data *)
Lemma read_u32_le_spec n l : 0 <= n <= imax u32 -> read_u32_le (to_le_bytes 4 n ++ l) = inl (n, l).
Proof.
  intros Hn. unfold read_u32_le. rewrite length_app, to_le_length. cbn [Nat.add]. replace (S (S (S (S (length l)))) <? 4)%nat with false
    by (symmetry; apply Nat.ltb_ge; lia).
  rewrite take_app_length', drop_app_length' by (by rewrite to_le_length). rewrite le_decode_encode, Z.mod_small by (cbn [imax u32] in Hn; lia). done.
Qed.
Lemma read_bytes_spec k l : Z.of_nat (length k) <= imax u32 -> read_bytes (to_le_bytes 4 (cast u32 (Z.of_nat (length k))) ++ k ++ l) = inl (k, l).
Proof.
  intros Hk. unfold read_bytes. rewrite cast_id by (unfold in_range; cbn [imin u32]; lia).
  rewrite read_u32_le_spec by lia. unfold mbind, res_bind. rewrite Nat2Z.id, length_app.
  replace (length k <=? length k + length l)%nat with true by (symmetry; apply Nat.leb_le; lia). by rewrite take_app_length, drop_app_length.
Qed.
Lemma sealed_roundtrip s : Z.of_nat (length (s_keyrequest s)) <= imax u32 -> Z.of_nat (length (s_ciphertext s)) <= imax u32 ->
  sealed_deserialize (sealed_serialize s) = inl s.
Proof.
  intros H1 H2. unfold sealed_deserialize, sealed_serialize. rewrite read_bytes_spec by done. unfold mbind, res_bind.
  rewrite <- (app_nil_r (s_ciphertext s)) at 2. rewrite read_bytes_spec by done. by destruct s.
Qed.

(** ** Sealing *)
Section SealFacts.
Context {Isa : SgxIsa} {LS : SgxIsaLaws Isa}.

Lemma request_back id : try_from_bytes (request_bytes (new_sealing_request id)) = inl (new_sealing_request id).
Proof.
  assert (length (request_bytes (new_sealing_request id)) = TRUNCATED_SIZE) as Hl
    by (unfold request_bytes; rewrite length_take, kr_length; done).
  unfold try_from_bytes. rewrite Hl. change ((TRUNCATED_SIZE <=? TRUNCATED_SIZE)%nat && (TRUNCATED_SIZE <=? UNPADDED_SIZE)%nat) with true.
  cbn [ensure]. unfold mbind at 1, res_bind.
  assert (request_bytes (new_sealing_request id) ++ replicate (UNPADDED_SIZE - TRUNCATED_SIZE) 0 = kr_bytes (new_sealing_request id)) as ->.
  { unfold request_bytes. rewrite <- (kr_reserved (new_sealing_request id)). apply take_drop. }
  rewrite kr_back. unfold validate_policy. cbn [new_sealing_request keyname keypolicy isvsvn cpusvn attributemask miscmask keyid].
  rewrite !Z.eqb_refl, !bool_decide_true by done. done.
Qed.
(** Sealed data opens in an enclave with the same measurement on the same machine, under the
    same label, to what was sealed, and nowhere else. *)
Lemma sealed_bound p q id label label' data s d : seal p id label data = inl s ->
  unseal q s label' = inl d <-> p_mrenclave q = p_mrenclave p /\ p_cpu q = p_cpu p /\ label' = label /\ d = data.
Proof.
  intros Hs. unfold seal in Hs. apply res_bind_inl in Hs as (key & Hk & Hs). apply res_bind_inl in Hs as (ct & Hc & Hs). injection Hs as <-.
  apply expect_inl in Hc. apply res_bind_inl in Hk as (m & Hm & Hk). injection Hk as <-. apply expect_inl in Hm.
  unfold unseal. cbn [s_ciphertext s_keyrequest]. rewrite (gcm_tag _ _ _ _ Hc). replace (length data + TAG_LEN <? TAG_LEN)%nat with false
    by (symmetry; apply Nat.ltb_ge; lia). cbn [negb ensure]. unfold mbind at 1, res_bind at 1. rewrite request_back.
  unfold mbind at 1, res_bind at 1. split.
  - intros H. apply res_bind_inl in H as (key' & Hk' & Ho). apply res_bind_inl in Hk' as (m' & Hm' & Hk'). injection Hk' as <-.
    apply expect_inl in Ho, Hm'. pose proof (gcm_key _ _ _ _ _ _ _ Hc Ho) as E. apply hkdf_binds in E as [-> ->].
    destruct (egetkey_binds q p (new_sealing_request id) m eq_refl Hm' Hm) as [-> ->]. split_and!; [done..|]. rewrite (gcm_back _ _ _ _ Hc) in Ho. by injection Ho as ->.
  - intros (E1 & E2 & -> & ->). assert (derive_key q (new_sealing_request id) label = inl (hkdf HKDF_SALT m label)) as ->.
    { unfold derive_key. by rewrite (egetkey_same q p), Hm. }
    unfold mbind, res_bind. by rewrite (gcm_back _ _ _ _ Hc).
Qed.
Lemma mock_bound id label label' data s d : length id = 32%nat -> seal_mock id label data = inl s ->
  unseal_mock s label' = inl d <-> label' = label /\ d = data.
Proof.
  intros Hid Hs. unfold seal_mock in Hs. apply res_bind_inl in Hs as (ct & Hc & Hs). injection Hs as <-. apply expect_inl in Hc.
  unfold unseal_mock. cbn [s_keyrequest s_ciphertext]. rewrite bind_ensure by (by rewrite Hid). split.
  - intros Ho%expect_inl. pose proof (gcm_key _ _ _ _ _ _ _ Hc Ho) as E. apply hkdf_binds in E as [_ ->]. rewrite (gcm_back _ _ _ _ Hc) in Ho. by injection Ho as ->.
  - intros [-> ->]. by rewrite (gcm_back _ _ _ _ Hc).
Qed.
(** Both at once: what opens is what was sealed, and where it was sealed it opens. *)
Lemma native_bound sgx p q id label data s d : length id = 32%nat -> native_seal sgx p id label data = inl s ->
  native_unseal sgx q s label = inl d -> d = data /\ (sgx = true -> p_mrenclave q = p_mrenclave p /\ p_cpu q = p_cpu p).
Proof.
  intros Hid Hs Hu. destruct sgx; cbn [native_seal native_unseal] in *.
  - by apply (sealed_bound p q _ _ _ _ _ _ Hs) in Hu as (? & ? & _ & ?).
  - by apply (mock_bound _ _ _ _ _ _ Hid Hs) in Hu as [_ ->].
Qed.
Lemma native_opens sgx p id label data s : length id = 32%nat -> native_seal sgx p id label data = inl s -> native_unseal sgx p s label = inl data.
Proof. intros Hid Hs. destruct sgx; cbn [native_seal native_unseal] in *; [by apply (sealed_bound p p _ _ _ _ _ _ Hs)|by apply (mock_bound _ _ _ _ _ _ Hid Hs)]. Qed.
Lemma native_short sgx p id label data s : length id = 32%nat -> Z.of_nat (length data) + 16 <= imax u32 -> native_seal sgx p id label data = inl s ->
  sealed_deserialize (sealed_serialize s) = inl s.
Proof.
  intros Hid Hd Hs. destruct sgx; cbn [native_seal] in Hs.
  - apply res_bind_inl in Hs as (key & _ & Hs). apply res_bind_inl in Hs as (ct & Hc & Hs). injection Hs as <-. apply expect_inl, gcm_tag in Hc. unfold TAG_LEN in Hc.
    apply sealed_roundtrip; cbn [s_keyrequest s_ciphertext]; [|lia]. unfold request_bytes. rewrite length_take, kr_length. cbn. lia.
  - apply res_bind_inl in Hs as (ct & Hc & Hs). injection Hs as <-. apply expect_inl, gcm_tag in Hc. unfold TAG_LEN in Hc.
    apply sealed_roundtrip; cbn [s_keyrequest s_ciphertext]; [|lia]. rewrite Hid. cbn. lia.
Qed.
End SealFacts.

(** ** Attestation *)
Section AttestFacts.
Context `{K : Pki}.

(** A report that Intel's key chain vouches for: the certificate of the platform signs the
    report of Intel's quoting enclave, which is bound to a key that signs the head of the quote
    with the report in it. *)
Record endorsed (quote : list Z) (now : Z) (r : Report) : Prop := {
  en_body : exists q, parse_quote quote = Some q /\ report_try_from_truncated (q_report_body q) = inl r /\
    p256_verify (4 :: q_att_pk q) (take 432 quote) (q_sig q) = true /\
    exists pck platform root der qe, chains_to_intel pck [platform; root] now = true /\ cert_verifies pck (q_qe3_report q) der = true /\
      report_try_from_truncated (q_qe3_report q) = inl qe /\ rp_debug qe = false /\ rp_mrsigner qe = INTEL_QE_IDENTITY_MRSIGNER /\
      take 32 (rp_data qe) = sha256 (q_att_pk q ++ q_auth q) }.
Lemma policy_verify_inl p r d : policy_verify p r = inl d ->
  d = rp_data r /\ (allow_debug p = false -> rp_debug r = false) /\
  (forall l, trusted_mrenclaves p = Some l -> rp_mrenclave r ∈ l) /\ (forall m, trusted_mrsigner p = Some m -> rp_mrsigner r = m).
Proof.
  intros H. apply res_bind_inl in H as (u1 & H1 & H). apply res_bind_inl in H as (u2 & H2 & H). apply res_bind_inl in H as (u3 & H3 & H).
  apply ensure_inl in H1, H2, H3. injection H as <-. split_and!; [done| | |].
  - intros E. rewrite E in H1. by destruct (rp_debug r).
  - intros l E. rewrite E in H2. by apply bool_decide_eq_true in H2.
  - intros m E. rewrite E in H3. by apply bool_decide_eq_true in H3.
Qed.
Lemma quote_verify_endorsed quote now r : quote_verify quote now = inl r -> endorsed quote now r.
Proof.
  intros H. apply res_bind_inl in H as (q & Hq & H). apply expect_inl in Hq. apply res_bind_inl in H as (u1 & _ & H).
  destruct (q_certs q) as [|[pck|] [|[pl|] [|[root|] [|]]]]; try done.
  apply res_bind_inl in H as (u2 & _ & H). apply res_bind_inl in H as (u3 & Hch & H). apply res_bind_inl in H as (der & _ & H).
  apply res_bind_inl in H as (u4 & Hsig & H). apply res_bind_inl in H as (qe & Hqe & H). apply res_bind_inl in H as (rd & Hrd & H).
  apply res_bind_inl in H as (u5 & Hbind & H). apply res_bind_inl in H as (pk & Hpk & H). apply res_bind_inl in H as (u6 & _ & H).
  apply res_bind_inl in H as (u7 & Hv & H). apply ensure_inl in Hch, Hsig, Hbind, Hv. apply bool_decide_eq_true in Hbind.
  apply res_bind_inl in Hpk as (u8 & _ & Hpk). injection Hpk as <-. apply policy_verify_inl in Hrd as (-> & Hd & _ & Hm).
  constructor. exists q. split_and!; [done..|]. exists pck, pl, root, der, qe. split_and!; try done; [by apply Hd|by apply Hm].
Qed.
(** A certificate that passes belongs to an enclave of the trusted measurement and signer,
    outside debug mode unless that is allowed, which itself holds the key, and to the instance
    expected if one is. *)
Record attested (use_sgx : bool) (policy : EnclavePolicy) (cert : list Z) (now : Z) (pk : list Z) (r : Report) : Prop := {
  at_evidence : exists quote, cert_evidence cert = Some (pk, quote) /\ if use_sgx then endorsed quote now r else report_copy quote = Some r;
  at_debug : allow_debug policy = false -> rp_debug r = false;
  at_measurement : forall l, trusted_mrenclaves policy = Some l -> rp_mrenclave r ∈ l;
  at_signer : forall m, trusted_mrsigner policy = Some m -> rp_mrsigner r = m;
  at_binds : take 32 (rp_data r) = pk;
  at_instance : forall e, expected_cert_pk policy = Some e -> pk = e }.
Lemma attestation_sound use_sgx policy cert inter name now : verify_attestation_cert (negb use_sgx) policy cert inter name now = inl tt ->
  exists pk r, attested use_sgx policy cert now pk r.
Proof.
  intros H. apply res_bind_inl in H as (u1 & _ & H). apply res_bind_inl in H as (u2 & _ & H). apply res_bind_inl in H as ([pk quote] & He & H).
  apply res_bind_inl in H as (r & Hr & H). apply res_bind_inl in H as (rd & Hp & H). apply res_bind_inl in H as (u3 & Hc & Hi).
  apply expect_inl in He. apply ensure_inl in Hc, Hi. apply bool_decide_eq_true in Hc. apply policy_verify_inl in Hp as (-> & Hd & Hm & Hs).
  exists pk, r. constructor; try done.
  - exists quote. split; [done|]. destruct use_sgx; cbn [negb] in Hr; [by apply quote_verify_endorsed|by apply expect_inl in Hr].
  - intros e E. rewrite E in Hi. by apply bool_decide_eq_true in Hi.
Qed.
End AttestFacts.
