(* ===== verification/Seed.v ===== *)
(** * Seed: the root seed of the node

    [quid-ln/quid-common/src/seed_shares.rs]: splitting a seed into shares, printing, parsing
    and combining them.  [quid-ln/quid-api-core/src/types/sealed_seed.rs] and
    [quid-ln/quid-hop/src/seed.rs]: the sealed seed on the disk, its first provision and every
    later boot.  [quid-ln/quid-common/src/env.rs], [ln/network.rs]: environments and networks.

    Strings are ASCII.  Shamir's scheme, the word list of BIP39, JSON and the hash are classes
    or parameters; a random value is an argument.  A write to the disk happens or fails. *)
From Stdlib Require Import String.
From stdpp Require Import base list strings pretty gmap.
From S2P Require Import Prelude Pool Chain Abi Hex Enclave.
Open Scope list_scope.

(** ** Text *)
Definition is_ws (c : Ascii.ascii) : bool := let n := Ascii.nat_of_ascii c in ((9 <=? n) && (n <=? 13) || (n =? 32))%nat.
Fixpoint trim_start (s : string) : string :=
  match s with String c r => if is_ws c then trim_start r else s | EmptyString => EmptyString end.
Fixpoint trim_end (s : string) : string :=
  match s with
  | EmptyString => EmptyString
  | String c r => match trim_end r with EmptyString => if is_ws c then EmptyString else String c EmptyString | t => String c t end
  end.
Definition trim (s : string) : string := trim_end (trim_start s).
(** The token a string starts with, and those after it. *)
Fixpoint tokens (s : string) : string * list string :=
  match s with
  | EmptyString => (EmptyString, [])
  | String c r =>
      let '(cur, rest) := tokens r in
      if is_ws c then (EmptyString, match cur with EmptyString => rest | _ => cur :: rest end) else (String c cur, rest)
  end.
Definition split_whitespace (s : string) : list string :=
  let '(cur, rest) := tokens s in match cur with EmptyString => rest | _ => cur :: rest end.
Definition NEWLINE : Ascii.ascii := Ascii.ascii_of_nat 10.
Fixpoint strip_cr (s : string) : string :=
  match s with
  | String c EmptyString => if Ascii.eqb c (Ascii.ascii_of_nat 13) then EmptyString else s
  | String c r => String c (strip_cr r)
  | EmptyString => EmptyString
  end.
Fixpoint lines_from (acc s : string) : list string :=
  match s with
  | EmptyString => match acc with EmptyString => [] | _ => [acc] end
  | String c r => if Ascii.eqb c NEWLINE then strip_cr acc :: lines_from EmptyString r else lines_from (acc ++ String c EmptyString)%string r
  end.
Definition lines (s : string) : list string := lines_from EmptyString s.
Fixpoint join (sep : string) (l : list string) : string :=
  match l with [] => EmptyString | [s] => s | s :: l => (s ++ sep ++ join sep l)%string end.
Fixpoint strip_prefix (p s : string) : option string :=
  match p, s with
  | EmptyString, _ => Some s
  | String a p, String b s => if Ascii.eqb a b then strip_prefix p s else None
  | _, EmptyString => None
  end.
Fixpoint split_once (c : Ascii.ascii) (s : string) : option (string * string) :=
  match s with
  | EmptyString => None
  | String d r => if Ascii.eqb c d then Some (EmptyString, r) else '(a, b) ← split_once c r; Some (String d a, b)
  end.
Fixpoint contains_str (p s : string) : bool :=
  String.prefix p s || match s with String _ r => contains_str p r | EmptyString => false end.
Fixpoint contains_ws (s : string) : bool := match s with String c r => is_ws c || contains_ws r | EmptyString => false end.
(** [u8::from_str]: an optional plus sign and digits. *)
Fixpoint digits_u8 (s : string) (acc : Z) : option Z :=
  match s with
  | EmptyString => Some acc
  | String c r =>
      let d := Z.of_nat (Ascii.nat_of_ascii c) - 48 in
      if (0 <=? d) && (d <=? 9) && (acc * 10 + d <=? 255) then digits_u8 r (acc * 10 + d) else None
  end.
Definition parse_u8 (s : string) : option Z :=
  let s := match s with String c r => if Ascii.eqb c (Ascii.ascii_of_nat 43) then r else s | EmptyString => s end in
  match s with EmptyString => None | _ => digits_u8 s 0 end.

(** ** Shares *)
Definition SHARE_TAG : string := "quid-seed-share".
Definition COMMITMENT_LABEL : list Z := str_bytes "QUID-REALM::SeedShare::commitment".
Definition COMMITMENT_LEN : nat := 4.
Definition SEED_LENGTH : nat := 32.
Definition DEFAULT_THRESHOLD : Z := 2.
Definition DEFAULT_COUNT : Z := 3.
Record SeedShare := mkShare { index : Z; threshold : Z; commitment : list Z; payload : list Z }.
#[export] Instance SeedShare_eq_dec : EqDecision SeedShare.
Proof. solve_decision. Defined.

(** The word sentence of some bytes and its reading, with the checksum. *)
Class Bip39 := { words_of : list Z -> list string; mnemonic_parse : string -> option (list Z) }.
Definition plain (s : string) : Prop := s <> EmptyString /\ contains_ws s = false.
Class Bip39Laws (B : Bip39) := {
  words_len e : length e = SEED_LENGTH -> length (words_of e) = 24%nat;
  words_plain e : Forall byte_ok e -> Forall plain (words_of e);
  words_back e : length e = SEED_LENGTH -> Forall byte_ok e -> mnemonic_parse (join " " (words_of e)) = Some e }.
(** The dealer for a threshold, a secret and random coefficients, and the recovery. *)
Class Sharks := { Coeffs : Type; deal : Z -> list Z -> Coeffs -> list (Z * list Z); recover : Z -> list (Z * list Z) -> option (list Z) }.
(** The dealer gives 255 points with distinct indices, each a byte, with one byte per byte of
    the secret; as many of them as the threshold says determine it. *)
Class SharksLaws (D : Sharks) := {
  deal_count k s r : length (deal k s r) = 255%nat;
  deal_index k s r : NoDup (deal k s r).*1 /\ Forall (fun p => byte_ok p.1) (deal k s r);
  deal_width k s r p : p ∈ deal k s r -> length p.2 = length s /\ (Forall byte_ok s -> Forall byte_ok p.2);
  recover_deal k s r l : 1 <= k -> (forall p, p ∈ l -> p ∈ deal k s r) -> NoDup l.*1 -> k <= Z.of_nat (length l) -> recover k l = Some s }.

Section Shares.
Context `{B : Bip39} `{D : Sharks}.
Variable sha256 : list Z -> list Z.

Definition commit_to (seed : list Z) : list Z := take COMMITMENT_LEN (sha256 (COMMITMENT_LABEL ++ seed)).
Definition split (seed : list Z) (threshold count : Z) (rng : Coeffs) : res string (list SeedShare) :=
  _ ← ensure (2 <=? threshold) "a seed split needs a threshold of at least 2"%string;
  _ ← ensure (threshold <=? count) "the seed would be unrecoverable"%string;
  let c := commit_to seed in
  let dealt := take (Z.to_nat count) (deal threshold seed rng) in
  _ ← ensure (forallb (fun p : Z * list Z => (1 + length p.2 =? SEED_LENGTH + 1)%nat) dealt) "unexpected share width from the dealer"%string;
  mret ((fun p : Z * list Z => mkShare p.1 threshold c p.2) <$> dealt).
(** [RootSeed::try_from] on bytes *)
Definition seed_from_bytes (l : list Z) : option (list Z) := if (length l =? SEED_LENGTH)%nat then Some l else None.
Definition combine (shares : list SeedShare) : res string (list Z) :=
  first ← expect "no shares supplied"%string (head shares);
  let k := threshold first in
  _ ← ensure (forallb (fun s => threshold s =? k) shares) "these shares disagree about the threshold"%string;
  _ ← ensure (forallb (fun s => bool_decide (commitment s = commitment first)) shares) "these shares commit to different seeds"%string;
  let distinct := length (remove_dups (index <$> shares)) in
  _ ← ensure (distinct =? length shares)%nat "duplicate share index"%string;
  _ ← ensure (k <=? Z.of_nat distinct) "need more shares to recover this seed"%string;
  secret ← expect "could not recover the seed from these shares"%string (recover k ((fun s => (index s, payload s)) <$> shares));
  seed ← expect "recovered bytes are not a valid root seed"%string (seed_from_bytes secret);
  _ ← ensure (bool_decide (commit_to seed = commitment first)) "the reconstructed seed does not match what these shares commit to"%string;
  mret seed.

Definition show_share (s : SeedShare) : string :=
  (SHARE_TAG ++ " " ++ pretty (index s) ++ "/" ++ pretty (threshold s) ++ " " ++ Hex.encode (commitment s) ++ " " ++ join " " (words_of (payload s)))%string.
Definition share_from_str (line : string) : res string SeedShare :=
  rest ← expect "a share line must begin with its tag"%string (strip_prefix SHARE_TAG (trim line));
  match split_whitespace rest with
  | [] => fail "share line is missing its position"%string
  | [_] => fail "share line is missing its commitment"%string
  | position :: commitment_hex :: words =>
      _ ← ensure (length words =? 24)%nat "a share carries 24 words"%string;
      '(i, t) ← expect "expected index/threshold"%string (split_once (Ascii.ascii_of_nat 47) position);
      i ← expect "share index must be 0-255"%string (parse_u8 i);
      t ← expect "share threshold must be 0-255"%string (parse_u8 t);
      c ← match decode_to_slice commitment_hex COMMITMENT_LEN with inl c => mret c | inr _ => fail "share commitment is not hex"%string end;
      entropy ← expect "share did not parse as BIP39"%string (mnemonic_parse (join " " words));
      _ ← ensure (length entropy =? SEED_LENGTH)%nat "share payload must be 32 bytes"%string;
      mret (mkShare i t c entropy)
  end.
Fixpoint parse_lines (ls : list string) : res string (list SeedShare) :=
  match ls with
  | [] => mret []
  | line :: ls =>
      let line := trim line in
      if String.eqb line "" || String.prefix "#" line then parse_lines ls else
      s ← share_from_str line;
      out ← parse_lines ls;
      mret (s :: out)
  end.
Definition parse_share_set (text : string) : res string (list SeedShare) :=
  out ← parse_lines (lines text);
  match out with [] => fail "no share lines found"%string | _ => mret out end.
(** [RootSeed::from_mnemonic_str] and [RootSeed::from_str] *)
Definition from_mnemonic_str (s : string) : option (list Z) := e ← mnemonic_parse (trim s); seed_from_bytes e.
Definition seed_from_str (s : string) : option (list Z) := match decode_to_slice s SEED_LENGTH with inl l => Some l | inr _ => None end.
Definition parse_seed_import (raw : string) : res string (list Z) :=
  let raw := trim raw in
  if contains_str SHARE_TAG raw then shares ← parse_share_set raw; combine shares
  else if contains_ws raw then expect "QUID_SEED looks like a mnemonic but did not parse"%string (from_mnemonic_str raw)
  else expect "Invalid QUID_SEED"%string (seed_from_str raw).
End Shares.

(** * Properties *)

(** ** Text *)
Lemma append_cons x a b : (String x a ++ b = String x (a ++ b))%string.
Proof. reflexivity. Qed.
Lemma append_nil b : ("" ++ b = b)%string.
Proof. reflexivity. Qed.
Lemma append_assoc (a b c : string) : ((a ++ b) ++ c = a ++ (b ++ c))%string.
Proof. induction a as [|x a IH]; [done|]. by rewrite !append_cons, IH. Qed.
Lemma append_empty (a : string) : (a ++ "" = a)%string.
Proof. induction a as [|x a IH]; [done|]. by rewrite !append_cons, IH. Qed.
Lemma contains_ws_app a b : contains_ws (a ++ b) = contains_ws a || contains_ws b.
Proof. induction a as [|x a IH]; [done|]. rewrite append_cons. cbn [contains_ws]. by rewrite IH, orb_assoc. Qed.
Lemma tokens_word w r : contains_ws w = false -> tokens (w ++ r) = let '(c, rest) := tokens r in ((w ++ c)%string, rest).
Proof.
  induction w as [|x w IH]; intros H; [rewrite append_nil; by destruct (tokens r)|rewrite append_cons; cbn [tokens]]. cbn [contains_ws] in H. apply orb_false_iff in H as [Hx Hw].
  rewrite IH by done. destruct (tokens r) as [c rest]. by rewrite Hx.
Qed.
Lemma split_word w r : plain w -> split_whitespace (w ++ String (Ascii.ascii_of_nat 32) r) = w :: split_whitespace r.
Proof.
  intros [Hne Hw]. unfold split_whitespace. rewrite tokens_word by done. cbn [tokens]. change (is_ws (Ascii.ascii_of_nat 32)) with true.
  destruct (tokens r) as [c rest]. cbn [is_ws]. rewrite append_empty. by destruct w.
Qed.
Lemma split_last w : plain w -> split_whitespace w = [w].
Proof.
  intros [Hne Hw]. unfold split_whitespace. rewrite <- (append_empty w) at 1. rewrite tokens_word by done. cbn [tokens]. rewrite append_empty. by destruct w.
Qed.
Lemma split_space r : split_whitespace (String (Ascii.ascii_of_nat 32) r) = split_whitespace r.
Proof. unfold split_whitespace. cbn [tokens]. change (is_ws (Ascii.ascii_of_nat 32)) with true. destruct (tokens r) as [c rest]. by destruct c. Qed.
Lemma split_join ws : Forall plain ws -> split_whitespace (join " " ws) = ws.
Proof.
  induction 1 as [|w ws Hw Hws IH]; [done|]. destruct ws as [|v ws]; [by apply split_last|].
  change (join " " (w :: v :: ws)) with (w ++ String (Ascii.ascii_of_nat 32) (join " " (v :: ws)))%string. by rewrite split_word, IH.
Qed.
(** A string that ends in something other than white space is not cut at its end. *)
Definition ends_plain (s : string) : Prop := trim_end s = s /\ s <> EmptyString.
Lemma ends_plain_word w : plain w -> ends_plain w.
Proof.
  intros [Hne Hw]. split; [|done]. clear Hne. induction w as [|x w IH]; [done|]. cbn [contains_ws] in Hw. apply orb_false_iff in Hw as [Hx Hw].
  cbn [trim_end]. rewrite IH by done. destruct w; [by rewrite Hx|done].
Qed.
Lemma ends_plain_app a b : ends_plain b -> ends_plain (a ++ b).
Proof.
  intros [Ht Hne]. induction a as [|x a [IHt IHne]]; [done|]. split; [|done]. rewrite append_cons. cbn [trim_end]. rewrite IHt. by destruct (a ++ b)%string.
Qed.
Lemma ends_plain_join sep ws : ws <> [] -> Forall ends_plain ws -> ends_plain (join sep ws).
Proof.
  intros Hne H. induction H as [|w ws Hw Hws IH]; [done|]. destruct ws as [|v ws]; [done|].
  change (join sep (w :: v :: ws)) with (w ++ (sep ++ join sep (v :: ws)))%string. apply ends_plain_app, ends_plain_app, IH. done.
Qed.
Lemma trim_clean s : ends_plain s -> (forall c r, s = String c r -> is_ws c = false) -> trim s = s.
Proof.
  intros [Ht Hne] Hs. unfold trim. destruct s as [|c r]; [done|]. cbn [trim_start]. by rewrite (Hs c r eq_refl).
Qed.
Lemma strip_cr_clean s : trim_end s = s -> strip_cr s = s.
Proof.
  induction s as [|c s IH]; [done|]. intros H. cbn [trim_end] in H. destruct s as [|d s].
  - cbn [strip_cr]. cbn [trim_end] in H. destruct (Ascii.eqb_spec c (Ascii.ascii_of_nat 13)) as [->|]; [|done]. done.
  - change (strip_cr (String c (String d s))) with (String c (strip_cr (String d s))). f_equal. apply IH.
    destruct (trim_end (String d s)) eqn:E; [by destruct (is_ws c)|]. congruence.
Qed.
(** ** Lines *)
Fixpoint one_line (s : string) : bool := match s with String c r => negb (Ascii.eqb c NEWLINE) && one_line r | EmptyString => true end.
Lemma lines_from_word acc l r : one_line l = true -> lines_from acc (l ++ r) = lines_from (acc ++ l) r.
Proof.
  revert acc. induction l as [|c l IH]; intros acc H; [by rewrite append_empty|rewrite append_cons]. cbn [one_line] in H. apply andb_true_iff in H as [Hc Hl].
  cbn [lines_from]. destruct (Ascii.eqb c NEWLINE); [done|]. rewrite IH by done. f_equal. rewrite append_assoc. done.
Qed.
Lemma lines_join ls : Forall (fun l => one_line l = true /\ ends_plain l) ls -> lines (join (String NEWLINE "") ls) = ls.
Proof.
  unfold lines. induction 1 as [|l ls [Hl He] Hls IH]; [done|]. destruct ls as [|m ls].
  - cbn [join]. rewrite <- (append_empty l) at 1. rewrite lines_from_word by done. rewrite append_nil. cbn [lines_from]. by destruct l, He.
  - change (join (String NEWLINE "") (l :: m :: ls)) with (l ++ String NEWLINE (join (String NEWLINE "") (m :: ls)))%string.
    rewrite lines_from_word by done. rewrite append_nil. cbn [lines_from]. change (Ascii.eqb NEWLINE NEWLINE) with true. rewrite strip_cr_clean by apply He. by rewrite IH.
Qed.

(** ** Numbers and commitments in a line *)
Fixpoint absent (c : Ascii.ascii) (s : string) : bool := match s with String d r => negb (Ascii.eqb c d) && absent c r | EmptyString => true end.
Lemma split_once_at c a b : absent c a = true -> split_once c (a ++ String c b) = Some (a, b).
Proof.
  induction a as [|d a IH]; intros H; [rewrite append_nil; cbn [split_once]; by rewrite Ascii.eqb_refl|]. cbn [absent] in H. apply andb_true_iff in H as [Hd Ha].
  rewrite append_cons. cbn [split_once]. apply negb_true_iff in Hd. rewrite Hd, IH by done. done.
Qed.
Lemma strip_prefix_app p s : strip_prefix p (p ++ s) = Some s.
Proof. induction p as [|c p IH]; [done|]. rewrite append_cons. cbn [strip_prefix]. by rewrite Ascii.eqb_refl. Qed.
Lemma prefix_app p s : String.prefix p (p ++ s) = true.
Proof. induction p as [|c p IH]; [by destruct s|]. rewrite append_cons. cbn [String.prefix]. by destruct (Ascii.ascii_dec c c). Qed.
Lemma one_line_app a b : one_line (a ++ b) = one_line a && one_line b.
Proof. induction a as [|c a IH]; [done|]. rewrite append_cons. cbn [one_line]. by rewrite IH, andb_assoc. Qed.
Lemma one_line_plain w : contains_ws w = false -> one_line w = true.
Proof.
  induction w as [|c w IH]; intros H; [done|]. cbn [contains_ws] in H. apply orb_false_iff in H as [Hc Hw]. cbn [one_line]. rewrite IH by done.
  destruct (Ascii.eqb_spec c NEWLINE) as [->|]; [done|done].
Qed.
Lemma one_line_join ws : Forall plain ws -> one_line (join " " ws) = true.
Proof.
  induction 1 as [|w ws [_ Hw] Hws IH]; [done|]. destruct ws as [|v ws]; [by apply one_line_plain|].
  change (join " " (w :: v :: ws)) with (w ++ (" " ++ join " " (v :: ws)))%string. by rewrite !one_line_app, one_line_plain, IH.
Qed.
Definition SLASH : Ascii.ascii := Ascii.ascii_of_nat 47.
Lemma number_text i : byte_ok i -> parse_u8 (pretty i) = Some i /\ plain (pretty i) /\ absent SLASH (pretty i) = true.
Proof.
  intros Hi.
  set (P := fun i : Z => (match parse_u8 (pretty i) with Some j => j =? i | None => false end) && negb (contains_ws (pretty i)) &&
         negb (String.eqb (pretty i) "") && absent SLASH (pretty i)).
  assert (P i = true) as H by (apply (every_byte P i Hi); vm_compute; reflexivity). subst P. cbv beta in H.
  apply andb_true_iff in H as [[[H1 H2]%andb_true_iff H3]%andb_true_iff H4]. apply negb_true_iff in H2, H3.
  destruct (parse_u8 (pretty i)) as [j|]; [|done]. apply Z.eqb_eq in H1 as ->.
  split_and!; [done| |done]. split; [|done]. intros E. rewrite E in H3. done.
Qed.
Lemma from_utf8_plain l : Forall (fun b => is_ws (Ascii.ascii_of_nat (Z.to_nat b)) = false) l -> contains_ws (from_utf8 l) = false.
Proof. induction 1 as [|b l Hb _ IH]; [done|]. cbn [from_utf8 foldr contains_ws]. by rewrite Hb. Qed.
Lemma encode_plain l : l <> [] -> Forall byte_ok l -> plain (Hex.encode l).
Proof.
  intros Hne H. split; [by destruct l|]. clear Hne. unfold Hex.encode. apply from_utf8_plain.
  induction H as [|b l Hb _ IH]; [constructor|]. cbn [flat_map app].
  assert (forall d, 0 <= d < 16 -> is_ws (Ascii.ascii_of_nat (Z.to_nat (encode_nibble d))) = false) as Hd.
  { intros d Hd. assert (forallb (fun d => negb (is_ws (Ascii.ascii_of_nat (Z.to_nat (encode_nibble d))))) (seqZ 0 16) = true) as Hs by reflexivity.
    rewrite forallb_forall in Hs. apply negb_true_iff, Hs, list_elem_of_In, elem_of_seqZ. lia. }
  destruct (nibbles_of b Hb) as (H1 & H2 & _). constructor; [by apply Hd|]. constructor; [by apply Hd|]. done.
Qed.

(** ** Printing and parsing a share *)
Section ShareFacts.
Context `{B : Bip39} {BL : Bip39Laws B} `{D : Sharks} {DL : SharksLaws D}.
Variable sha256 : list Z -> list Z.
Hypothesis sha256_32 : forall l, length (sha256 l) = 32%nat /\ Forall byte_ok (sha256 l).

Record share_wf (s : SeedShare) : Prop := {
  wf_index : byte_ok (index s); wf_threshold : byte_ok (threshold s);
  wf_commitment : length (commitment s) = COMMITMENT_LEN /\ Forall byte_ok (commitment s);
  wf_payload : length (payload s) = SEED_LENGTH /\ Forall byte_ok (payload s) }.
(** A line is its tag and four groups of plain words. *)
Definition share_words (s : SeedShare) : list string :=
  (pretty (index s) ++ "/" ++ pretty (threshold s))%string :: Hex.encode (commitment s) :: words_of (payload s).
Lemma share_words_plain s : share_wf s -> Forall plain (share_words s).
Proof.
  intros [Hi Ht [Hc Hc'] [Hp Hp']]. destruct (number_text _ Hi) as (_ & [Hi1 Hi2] & _), (number_text _ Ht) as (_ & [_ Ht2] & _).
  constructor; [|constructor; [|by apply words_plain]].
  - split; [by destruct (pretty (index s))|]. by rewrite !contains_ws_app, Hi2, Ht2.
  - apply encode_plain; [|done]. by destruct (commitment s).
Qed.
Lemma show_share_words s : share_wf s -> show_share s = (SHARE_TAG ++ " " ++ join " " (share_words s))%string.
Proof.
  intros [_ _ _ [Hp _]]. apply words_len in Hp. unfold show_share, share_words. destruct (words_of (payload s)) as [|w ws]; [done|].
  cbn [join]. by rewrite !append_assoc.
Qed.
Lemma show_share_clean s : share_wf s -> one_line (show_share s) = true /\ ends_plain (show_share s) /\ trim (show_share s) = show_share s.
Proof.
  intros Hs. pose proof (share_words_plain s Hs) as Hw. rewrite show_share_words by done.
  assert (ends_plain (SHARE_TAG ++ " " ++ join " " (share_words s))) as He.
  { apply ends_plain_app, ends_plain_app, ends_plain_join; [done|]. eapply Forall_impl; [exact Hw|]. apply ends_plain_word. }
  split_and!; [|done|].
  - rewrite !one_line_app, one_line_join by done. reflexivity.
  - apply trim_clean; [done|]. intros c r E. unfold SHARE_TAG in E. rewrite append_cons in E. by injection E as <- _.
Qed.
Lemma share_roundtrip s : share_wf s -> share_from_str (show_share s) = inl s.
Proof.
  intros Hs. destruct (show_share_clean s Hs) as (_ & _ & Ht). unfold share_from_str. rewrite Ht, show_share_words, strip_prefix_app by done.
  rewrite bind_expect. change (" " ++ join " " (share_words s))%string with (String (Ascii.ascii_of_nat 32) (join " " (share_words s))).
  rewrite split_space, split_join by (by apply share_words_plain). unfold share_words. destruct Hs as [Hi Ht' [Hc Hc'] [Hp Hp']].
  rewrite bind_ensure by (by rewrite words_len).
  destruct (number_text _ Hi) as (Ei & _ & Hsl), (number_text _ Ht') as (Et & _ & _).
  change ("/" ++ pretty (threshold s))%string with (String SLASH (pretty (threshold s))). rewrite split_once_at by done.
  rewrite bind_expect, Ei, bind_expect, Et, bind_expect.
  assert (decode_to_slice (Hex.encode (commitment s)) COMMITMENT_LEN = inl (commitment s)) as -> by (by apply hex_exact_slice).
  rewrite bind_ret, words_back, bind_expect, bind_ensure by (done || by rewrite Hp). by destruct s.
Qed.
Lemma parse_lines_shares l : Forall share_wf l -> parse_lines (show_share <$> l) = inl l.
Proof.
  induction 1 as [|s l Hs Hl IH]; [done|]. cbn [fmap list_fmap parse_lines]. destruct (show_share_clean s Hs) as (_ & [_ Hne] & Ht). rewrite Ht.
  assert (String.eqb (show_share s) "" || String.prefix "#" (show_share s) = false) as -> by (by rewrite show_share_words by done).
  rewrite share_roundtrip by done. rewrite res_bind_ok. change (list_fmap _ _ show_share l) with (show_share <$> l). by rewrite IH.
Qed.
(** The text of a set of shares, one to a line, parses back to them. *)
Definition share_text (l : list SeedShare) : string := join (String NEWLINE "") (show_share <$> l).
Lemma share_text_roundtrip l : l <> [] -> Forall share_wf l -> parse_share_set (share_text l) = inl l.
Proof.
  intros Hne H. unfold parse_share_set, share_text. rewrite lines_join.
  - rewrite parse_lines_shares, res_bind_ok by done. by destruct l.
  - apply Forall_fmap. eapply Forall_impl; [exact H|]. intros s Hs. destruct (show_share_clean s Hs) as (? & ? & _). done.
Qed.

(** ** Splitting and combining *)
Lemma split_spec seed k n rng shares : length seed = SEED_LENGTH -> Forall byte_ok seed -> k < 256 ->
  split sha256 seed k n rng = inl shares ->
  2 <= k /\ Forall share_wf shares /\ NoDup (index <$> shares) /\
  forall s, s ∈ shares -> threshold s = k /\ commitment s = commit_to sha256 seed /\ (index s, payload s) ∈ deal k seed rng.
Proof.
  intros Hl Hb Hk H. apply res_bind_inl in H as (u1 & H1 & H). apply res_bind_inl in H as (u2 & H2 & H). apply res_bind_inl in H as (u3 & H3 & H).
  apply ensure_inl in H1, H2. injection H as <-. destruct (deal_index k seed rng) as [Hn Hx].
  assert (forall p, p ∈ take (Z.to_nat n) (deal k seed rng) -> p ∈ deal k seed rng) as Hin.
  { intros p Hp. rewrite <- (take_drop (Z.to_nat n) (deal k seed rng)). apply elem_of_app. by left. }
  split_and!; [lia| | |].
  - apply Forall_forall. intros s Hs. apply list_elem_of_fmap in Hs as (p & -> & Hp%Hin). destruct (deal_width _ _ _ _ Hp) as [Hw1 Hw2].
    rewrite Forall_forall in Hx. constructor; cbn [index threshold commitment payload].
    + by apply Hx.
    + unfold byte_ok. lia.
    + unfold commit_to. destruct (sha256_32 (COMMITMENT_LABEL ++ seed)) as [L F]. rewrite length_take, L. split; [done|]. by apply Forall_take.
    + rewrite Hw1. auto.
  - rewrite <- list_fmap_compose. change (NoDup ((take (Z.to_nat n) (deal k seed rng)).*1)). rewrite <- (take_drop (Z.to_nat n) (deal k seed rng)), fmap_app in Hn.
    by apply NoDup_app in Hn as (Hn & _).
  - intros s Hs. apply list_elem_of_fmap in Hs as ([x y] & -> & Hp%Hin). done.
Qed.
Lemma remove_dups_NoDup {A} `{EqDecision A} (l : list A) : NoDup l -> remove_dups l = l.
Proof. induction 1 as [|x l Hx Hl IH]; [done|]. cbn [remove_dups]. rewrite IH. by destruct (decide_rel _ x l). Qed.
Lemma NoDup_index_inj (l : list SeedShare) s t : NoDup (index <$> l) -> s ∈ l -> t ∈ l -> index s = index t -> s = t.
Proof.
  intros Hn Hs Ht E. apply list_elem_of_lookup in Hs as [i Hi], Ht as [j Hj].
  assert (i = j) as ->; [|congruence]. eapply (NoDup_lookup (index <$> l)); [done|by rewrite list_lookup_fmap, Hi|by rewrite list_lookup_fmap, Hj, E].
Qed.
Lemma combine_split seed k n rng shares l : length seed = SEED_LENGTH -> Forall byte_ok seed -> k < 256 ->
  split sha256 seed k n rng = inl shares -> (forall s, s ∈ l -> s ∈ shares) -> NoDup l -> k <= Z.of_nat (length l) ->
  combine sha256 l = inl seed.
Proof.
  intros Hl Hb Hk H Hin Hn Hlen. destruct (split_spec _ _ _ _ _ Hl Hb Hk H) as (H2 & _ & Hni & Hall).
  assert (forall s, s ∈ l -> threshold s = k /\ commitment s = commit_to sha256 seed /\ (index s, payload s) ∈ deal k seed rng) as Hl' by auto.
  assert (NoDup (index <$> l)) as Hnl.
  { apply NoDup_fmap_2_strong; [|done]. intros s t Hs Ht. apply (NoDup_index_inj shares); auto. }
  destruct l as [|f l]; [cbn in Hlen; lia|]. unfold combine. cbn [head]. rewrite bind_expect.
  destruct (Hl' f (list_elem_of_here f l)) as (Ek & Ec & _). rewrite Ek, Ec.
  rewrite bind_ensure by (apply forallb_forall; intros s Hs%list_elem_of_In; apply Z.eqb_eq, (Hl' s Hs)).
  rewrite bind_ensure by (apply forallb_forall; intros s Hs%list_elem_of_In; apply bool_decide_eq_true, (Hl' s Hs)).
  rewrite (remove_dups_NoDup _ Hnl), length_fmap. rewrite bind_ensure by apply Nat.eqb_refl. rewrite bind_ensure by (apply Z.leb_le; done).
  rewrite (recover_deal k seed rng).
  - rewrite bind_expect. unfold seed_from_bytes. rewrite Hl, Nat.eqb_refl, bind_expect, bind_ensure by (by apply bool_decide_eq_true). done.
  - lia.
  - intros p Hp. apply list_elem_of_fmap in Hp as (s & -> & Hs). by apply Hl'.
  - by rewrite <- list_fmap_compose.
  - by rewrite length_fmap.
Qed.
(** What is combined is committed to by every share, and there were enough of them. *)
Lemma combine_sound l seed : combine sha256 l = inl seed ->
  length seed = SEED_LENGTH /\ NoDup (index <$> l) /\ forall s, s ∈ l -> commitment s = commit_to sha256 seed /\ threshold s <= Z.of_nat (length l).
Proof.
  intros H. apply res_bind_inl in H as (f & Hf & H). apply res_bind_inl in H as (u1 & H1 & H). apply res_bind_inl in H as (u2 & H2 & H).
  apply res_bind_inl in H as (u3 & H3 & H). apply res_bind_inl in H as (u4 & H4 & H). apply res_bind_inl in H as (sec & _ & H).
  apply res_bind_inl in H as (sd & Hs & H). apply res_bind_inl in H as (u5 & H5 & H). injection H as <-.
  apply ensure_inl in H1, H2, H3, H4, H5. apply expect_inl in Hs. unfold seed_from_bytes in Hs. destruct (Nat.eqb_spec (length sec) SEED_LENGTH); [|done].
  injection Hs as <-. apply bool_decide_eq_true in H5. apply Nat.eqb_eq in H3. apply Z.leb_le in H4. rewrite forallb_forall in H1, H2.
  split_and!; [done| |].
  - destruct (decide (NoDup (index <$> l))) as [|Hd]; [done|]. exfalso.
    assert (forall (L : list Z), ~ NoDup L -> (length (remove_dups L) < length L)%nat) as Hlt; [|apply Hlt in Hd; rewrite length_fmap in Hd; lia].
    induction L as [|x L IH]; intros HL; [destruct HL; constructor|]. cbn [remove_dups length].
    assert (length (remove_dups L) <= length L)%nat as Hle by (clear; induction L as [|y L IH]; [done|]; cbn [remove_dups length]; destruct (decide_rel _ y L); cbn [length]; lia).
    destruct (decide_rel _ x L) as [Hx|Hx]; cbn [length]; [lia|].
    assert (~ NoDup L) as HL' by (intros HL'; apply HL; by constructor). apply IH in HL'. lia.
  - intros s Hs. apply list_elem_of_In in Hs. specialize (H1 s Hs). specialize (H2 s Hs).
    apply bool_decide_eq_true in H2. apply Z.eqb_eq in H1. split; [congruence|lia].
Qed.

(** C33: any [k] of the shares of a [k]-of-[n] split, in any order, printed one to a line and
    handed to a boot as its seed to import, give back the seed that was split. *)
Theorem shares_recover seed k n rng shares l : length seed = SEED_LENGTH -> Forall byte_ok seed -> k < 256 ->
  split sha256 seed k n rng = inl shares -> (forall s, s ∈ l -> s ∈ shares) -> NoDup l -> k <= Z.of_nat (length l) ->
  parse_seed_import sha256 (share_text l) = inl seed.
Proof.
  intros Hl Hb Hk H Hin Hn Hlen. pose proof (combine_split _ _ _ _ _ _ Hl Hb Hk H Hin Hn Hlen) as Hc.
  destruct (split_spec _ _ _ _ _ Hl Hb Hk H) as (H2 & Hwf & _). rewrite Forall_forall in Hwf.
  assert (Forall share_wf l) as Hw by (apply Forall_forall; auto). destruct l as [|f l]; [cbn in Hlen; lia|].
  assert (exists r, share_text (f :: l) = (SHARE_TAG ++ r)%string) as [r Er].
  { unfold share_text. cbn [fmap list_fmap]. inversion Hw as [|?? Hf _]; subst. rewrite (show_share_words f Hf).
    destruct l; eexists; [reflexivity|]. cbn [join]. rewrite append_assoc. reflexivity. }
  assert (trim (share_text (f :: l)) = share_text (f :: l)) as Et.
  { apply trim_clean.
    - apply ends_plain_join; [done|]. apply Forall_fmap. eapply Forall_impl; [exact Hw|]. intros s Hs. by apply show_share_clean.
    - intros c r' E. rewrite Er in E. unfold SHARE_TAG in E. rewrite append_cons in E. by injection E as <- _. }
  unfold parse_seed_import. rewrite Et. assert (contains_str SHARE_TAG (share_text (f :: l)) = true) as ->.
  { rewrite Er. pose proof (prefix_app SHARE_TAG r) as Hp. destruct (SHARE_TAG ++ r)%string; cbn [contains_str]; by rewrite Hp. }
  by rewrite share_text_roundtrip, res_bind_ok.
Qed.
End ShareFacts.

(** ** Samples

    Words that spell bytes in hexadecimal, and shares that are copies. *)
Module SeedSample.
Definition word (l : list Z) : string := ("w" ++ Hex.encode l)%string.
Definition unword (w : string) : option (list Z) := r ← strip_prefix "w" w; match decode r with inl l => Some l | inr _ => None end.
Definition pieces (e : list Z) : list (list Z) := ((fun b => [b]) <$> take 23 e) ++ [drop 23 e].
#[export] Instance bip : Bip39 := {|
  words_of e := word <$> pieces e;
  mnemonic_parse s := (fun l => mjoin l) <$> mapM unword (split_whitespace s) |}.
Lemma unword_word l : Forall byte_ok l -> unword (word l) = Some l.
Proof. intros H. unfold unword, word. rewrite strip_prefix_app. cbn [mbind option_bind]. by rewrite (proj2 (hex_exact (Hex.encode l) l)). Qed.
Lemma word_plain l : Forall byte_ok l -> plain (word l).
Proof.
  intros H. split; [done|]. unfold word. rewrite contains_ws_app. change (contains_ws "w") with false. cbn [orb].
  destruct l; [done|]. by apply encode_plain.
Qed.
Lemma pieces_spec e : Forall byte_ok e -> Forall (Forall byte_ok) (pieces e) /\ mjoin (pieces e) = e.
Proof.
  intros H. split.
  - apply Forall_app. split; [|constructor; [by apply Forall_drop|constructor]]. apply Forall_fmap. eapply Forall_impl; [by apply (Forall_take _ 23)|]. intros b Hb. by constructor.
  - unfold pieces. rewrite join_app. cbn [mjoin list_join]. rewrite app_nil_r. rewrite <- (take_drop 23 e) at 3. f_equal.
    generalize (take 23 e). induction l as [|b l IH]; [done|]. cbn [fmap list_fmap mjoin list_join app]. f_equal. exact IH.
Qed.
#[export] Instance bip_laws : Bip39Laws bip.
Proof.
  constructor; cbn [words_of mnemonic_parse bip].
  - intros e He. unfold SEED_LENGTH in He. rewrite length_fmap. unfold pieces. rewrite length_app, length_fmap, length_take, He. cbn [length]. lia.
  - intros e H. apply Forall_fmap. eapply Forall_impl; [apply pieces_spec, H|]. apply word_plain.
  - intros e _ H. destruct (pieces_spec e H) as [Hp Hj]. rewrite split_join by (apply Forall_fmap; eapply Forall_impl; [exact Hp|]; apply word_plain).
    assert (mapM unword (word <$> pieces e) = Some (pieces e)) as ->; [|cbn; by rewrite Hj].
    apply mapM_Some. clear Hj. revert Hp. generalize (pieces e). intros ps Hp. induction Hp as [|l ls Hl Hls IH]; [constructor|]. constructor; [by apply unword_word|done].
Qed.
#[export] Instance sharks : Sharks := {|
  Coeffs := unit; deal _ s _ := (fun i => (i, s)) <$> seqZ 1 255; recover _ l := snd <$> head l |}.
#[export] Instance sharks_laws : SharksLaws sharks.
Proof.
  constructor; cbn [deal recover sharks].
  - intros. by rewrite length_fmap, length_seqZ.
  - intros k s r. split.
    + rewrite <- list_fmap_compose. change (NoDup (id <$> seqZ 1 255)). rewrite list_fmap_id. apply NoDup_seqZ.
    + apply Forall_fmap, Forall_forall. intros i Hi%elem_of_seqZ. unfold byte_ok. cbn. lia.
  - intros k s r p Hp. apply list_elem_of_fmap in Hp as (i & -> & _). done.
  - intros k s r l Hk Hin _ Hl. destruct l as [|p l]; [cbn in Hl; lia|]. cbn [head fmap option_fmap option_map].
    specialize (Hin p (list_elem_of_here p l)). apply list_elem_of_fmap in Hin as (i & -> & _). done.
Qed.
Definition hash (l : list Z) : list Z := replicate 32 (Z.of_nat (length l) mod 256).
Definition seed : list Z := seqZ 7 32.
Definition shares : list SeedShare := match split hash seed 2 3 tt with inl l => l | inr _ => [] end.
End SeedSample.
#[local] Existing Instances SeedSample.bip SeedSample.bip_laws SeedSample.sharks SeedSample.sharks_laws.

Lemma shares_recover_witness :
  length SeedSample.shares = 3%nat /\ parse_seed_import SeedSample.hash (share_text (rev (drop 1 SeedSample.shares))) = inl SeedSample.seed.
Proof.
  split; [vm_compute; reflexivity|].
  refine (shares_recover SeedSample.hash _ SeedSample.seed 2 3 tt SeedSample.shares (rev (drop 1 SeedSample.shares)) _ _ _ _ _ _ _).
  - intros l. split; [reflexivity|]. apply Forall_replicate. unfold byte_ok. apply Z.mod_pos_bound. lia.
  - reflexivity.
  - apply Forall_forall. intros b Hb%elem_of_seqZ. unfold byte_ok. lia.
  - lia.
  - vm_compute. reflexivity.
  - intros s Hs. apply list_elem_of_In, in_rev, list_elem_of_In in Hs. by apply subseteq_drop in Hs.
  - apply (bool_decide_unpack _). vm_compute. exact I.
  - vm_compute. discriminate.
Defined.
(** One share is not enough, and a share of another split is noticed. *)
Lemma too_few_shares : combine SeedSample.hash (take 1 SeedSample.shares) = inr "need more shares to recover this seed"%string.
Proof. vm_compute. reflexivity. Qed.
