(* ===== verification/Provision.v ===== *)
(** * Provision: where the seed is kept, and to whom it goes

    [quid-ln/quid-api-core/src/types/sealed_seed.rs] and [quid-ln/quid-hop/src/seed.rs]: the
    sealed seed on the disk, its first provision and every later boot.
    [quid-ln/quid-hop/src/migration.rs]: what the operators sign to move the seed or to empty
    the wallet.  [quid-ln/quid-bridge/src/provision_api.rs] and [sweep.rs]: the transfer of the
    seed to another enclave and the sweep.  [quid-ln/quid-common/src/env.rs], [ln/network.rs].

    Random values are arguments.  A write to the disk puts the whole file in place or leaves it,
    and may report an error in either case, since the directory is flushed after the rename.  JSON, the
    derivation of the user's key, Keccak-256 and the recovery of a key are a class or
    parameters. *)
From Stdlib Require Import String.
From stdpp Require Import base list strings gmap.
From S2P Require Import Prelude Pool Chain Abi Hex Enclave Seed.
Open Scope list_scope.

(** ** Environments and networks *)
Inductive DeployEnv := Dev | Staging | Prod.
Inductive Network := Mainnet | Testnet3 | Testnet4 | Regtest | Signet.
#[export] Instance DeployEnv_eq_dec : EqDecision DeployEnv.
Proof. solve_decision. Defined.
#[export] Instance Network_eq_dec : EqDecision Network.
Proof. solve_decision. Defined.
Definition is_dev (e : DeployEnv) : bool := match e with Dev => true | _ => false end.
Definition is_staging_or_prod (e : DeployEnv) : bool := match e with Dev => false | _ => true end.
Definition env_str (e : DeployEnv) : string := match e with Dev => "dev" | Staging => "staging" | Prod => "prod" end.
Definition network_str (n : Network) : string :=
  match n with Mainnet => "mainnet" | Testnet3 => "testnet3" | Testnet4 => "testnet4" | Regtest => "regtest" | Signet => "signet" end.
Definition env_from_str (s : string) : option DeployEnv :=
  if String.eqb s "dev" then Some Dev else if String.eqb s "staging" then Some Staging else if String.eqb s "prod" then Some Prod else None.
Definition validate_network (e : DeployEnv) (n : Network) : bool :=
  match e, n with
  | Dev, (Regtest | Testnet3 | Testnet4) | Staging, (Testnet3 | Testnet4) | Prod, Mainnet => true
  | _, _ => false
  end.
Definition deploy_env_for_network (n : Network) : DeployEnv :=
  match n with Mainnet => Prod | Testnet3 | Testnet4 => Staging | Regtest | Signet => Dev end.
Definition to_ascii_lowercase (s : string) : string :=
  from_utf8 (map (fun b => if (65 <=? b) && (b <=? 90) then b + 32 else b) (str_bytes s)).
(** [HostingRole::parse] *)
Definition role_parse (s : string) : option HostingRole :=
  let s := to_ascii_lowercase (trim s) in
  if String.eqb s "fleet" then Some Fleet else if String.eqb s "family" then Some Family
  else if String.eqb s "individual" || String.eqb s "self" || String.eqb s "self-host" then Some Individual else None.
Definition resolve_role (env_role : option string) (e : DeployEnv) : HostingRole :=
  default (if is_staging_or_prod e then Fleet else Individual) (env_role ≫= role_parse).

(** ** Trust anchors *)
Definition PLACEHOLDER : list Z := decode_const "000000000000000000000000000000000000dead".
Definition OPERATOR_SAFE : list Z := PLACEHOLDER.
Definition OPERATOR_SAFE_CHAIN_ID : nat := 1.
Definition BTC_CHANNELS : list Z := PLACEHOLDER.
Definition PROTOCOL_CHAIN_ID : Z := 1.
Definition DEV_OWNERS : list (list Z) :=
  [decode_const "7e5f4552091a69125d5dfcb7b8c2659029395bdf"; decode_const "2b5ad5c4795c026514f8317c7a215e218dccd6cf";
   decode_const "6813eb9362372eef6200f3b1dbc3f819671cba69"].
Definition OPERATOR_OWNERS : list (list Z) := DEV_OWNERS.
Definition MIGRATION_THRESHOLD : nat := 2.
Definition SWEEP_THRESHOLD : nat := 2.
Definition guard_prod_trust_anchors (e : DeployEnv) : res string unit :=
  if negb (is_staging_or_prod e) then mret tt else
  _ ← ensure (negb (bool_decide (OPERATOR_SAFE = PLACEHOLDER))) "OPERATOR_SAFE is still the dev placeholder"%string;
  _ ← ensure (negb (bool_decide (OPERATOR_OWNERS = DEV_OWNERS))) "OPERATOR_OWNERS are still the well-known dev keys"%string;
  ensure (negb (bool_decide (PROD_SIGNER = PROD_SIGNER_PLACEHOLDER))) "PROD_SIGNER is still the placeholder MRSIGNER"%string.
Definition guard_prod_evm_target (e : DeployEnv) (cfg_btc_channels : list Z) (cfg_chain_id : Z) : res string unit :=
  if negb (is_staging_or_prod e) then mret tt else
  _ ← ensure (negb (bool_decide (BTC_CHANNELS = PLACEHOLDER))) "BTC_CHANNELS is still the dev placeholder"%string;
  _ ← ensure (bool_decide (cfg_btc_channels = BTC_CHANNELS)) "configured btc_channels is not the pinned one"%string;
  ensure (cfg_chain_id =? PROTOCOL_CHAIN_ID) "configured chain_id is not the pinned one"%string.

(** ** The sealed seed *)
Definition SEAL_LABEL : list Z := str_bytes "sealed seed".
Record SealedSeed := mkSealedSeed { ss_user_pk : list Z; ss_measurement : list Z; ss_machine : list Z; ss_ciphertext : list Z }.
Class SeedJson := {
  meta_json : list Z -> DeployEnv -> Network -> list Z;
  meta_parse : list Z -> option (list Z * DeployEnv * Network);
  blob_json : SealedSeed -> list Z;
  blob_parse : list Z -> option SealedSeed;
  derive_user_pk : list Z -> list Z }.
Class SeedJsonLaws (J : SeedJson) := {
  meta_back s e n : meta_parse (meta_json s e n) = Some (s, e, n);
  meta_short s e n : length s = SEED_LENGTH -> Z.of_nat (length (meta_json s e n)) + 16 <= imax u32;
  blob_back b : blob_parse (blob_json b) = Some b }.

(** The disk, as far as the sealed seed is concerned. *)
Inductive File := NotFound | Unreadable | Contents (bytes : list Z).
Inductive SeedSource := BornInEnclave | Import (seed : list Z).
(** With some text for an error. *)
Definition context {E A} (what : string) (r : res E A) : res string A := match r with inl a => inl a | inr _ => inr what end.

Inductive WriteIo := WriteOk | WriteErr (in_place : bool).
Section Seeds.
Context `{Isa : SgxIsa} `{J : SeedJson}.
(** The build is for SGX. *)
Variable sgx : bool.

Definition seal_from_root_seed (p : Platform) (random_keyid seed : list Z) (e : DeployEnv) (n : Network) : res string SealedSeed :=
  _ ← ensure (validate_network e n) "network not valid for the environment"%string;
  sealed ← context "Failed to seal root seed"%string (native_seal sgx p random_keyid SEAL_LABEL (meta_json seed e n));
  mret (mkSealedSeed (derive_user_pk seed) (p_mrenclave p) (machine_id sgx p) (sealed_serialize sealed)).
Definition unseal_and_validate (p : Platform) (b : SealedSeed) : res string (list Z * DeployEnv * Network) :=
  _ ← ensure (bool_decide (ss_measurement b = p_mrenclave p)) "Saved measurement doesn't match current measurement"%string;
  _ ← ensure (bool_decide (ss_machine b = machine_id sgx p)) "Saved machine id doesn't match current machine id"%string;
  sealed ← context "Failed to deserialize Sealed"%string (sealed_deserialize (ss_ciphertext b));
  json ← context "Failed to unseal provisioned secrets"%string (native_unseal sgx p sealed SEAL_LABEL);
  '(bytes, e, n) ← expect "Failed to JSON-deserialize unsealed bytes"%string (meta_parse json);
  seed ← expect "Failed to deserialize root seed"%string (seed_from_bytes bytes);
  _ ← ensure (validate_network e n) "network not valid for the environment"%string;
  _ ← ensure (bool_decide (ss_user_pk b = derive_user_pk seed)) "Saved user pk doesn't match derived user pk"%string;
  mret (seed, e, n).

(** The seal, and the write, which may fail, before the rename or after it. *)
Definition seal_and_persist (p : Platform) (io : WriteIo) (random_keyid seed : list Z) (e : DeployEnv) (n : Network) (d : File) : File * res string unit :=
  match seal_from_root_seed p random_keyid seed e n with
  | inr err => (d, inr err)
  | inl b =>
      match io with
      | WriteOk => (Contents (blob_json b), inl tt)
      | WriteErr in_place => (if in_place then Contents (blob_json b) else d, inr "Failed to persist SealedSeed"%string)
      end
  end.
Definition load (p : Platform) (e : DeployEnv) (n : Network) (bytes : list Z) : res string (list Z) :=
  b ← expect "Failed to deserialize persisted SealedSeed"%string (blob_parse bytes);
  '(seed, sealed_env, sealed_network) ← unseal_and_validate p b;
  _ ← ensure (bool_decide (sealed_env = e)) "Sealed seed deploy_env != configured"%string;
  _ ← ensure (bool_decide (sealed_network = n)) "Sealed seed network != configured"%string;
  mret seed.
Definition load_or_provision (p : Platform) (io : WriteIo) (fresh random_keyid : list Z) (source : SeedSource) (e : DeployEnv) (n : Network) (d : File) :
    File * res string (list Z) :=
  match d with
  | Contents bytes => (d, load p e n bytes)
  | Unreadable => (d, inr "Failed to read persisted SealedSeed"%string)
  | NotFound =>
      match source with
      | Import seed =>
          if sgx then (d, inr "SeedSource::Import is refused inside an SGX enclave"%string) else
          let '(d, r) := seal_and_persist p io random_keyid seed e n d in (d, r ≫= fun _ => mret seed)
      | BornInEnclave => let '(d, r) := seal_and_persist p io random_keyid fresh e n d in (d, r ≫= fun _ => mret fresh)
      end
  end.
Definition is_provisioned (d : File) : res string bool :=
  match d with Contents _ => inl true | NotFound => inl false | Unreadable => inr "Failed to check for existing sealed seed"%string end.
Definition provision_seed (p : Platform) (io : WriteIo) (random_keyid seed : list Z) (e : DeployEnv) (n : Network) (d : File) : File * res string unit :=
  match is_provisioned d with
  | inr err => (d, inr err)
  | inl true => (d, inr "already provisioned"%string)
  | inl false => seal_and_persist p io random_keyid seed e n d
  end.
End Seeds.

(** ** The boot *)
Section Boot.
Context `{Isa : SgxIsa} `{J : SeedJson} `{B : Bip39} `{D : Sharks}.
Variable sha256 : list Z -> list Z.
Variable sgx : bool.

(** The variables of the process. *)
Record EnvVars := mkVars { DEPLOY_ENVIRONMENT : option string; QUID_HOSTING_ROLE : option string; QUID_SEED : option string; QUID_PROVISION_TOKEN : option string }.
Definition load_or_provision_from_env (vars : EnvVars) (backend : Backend) (p : Platform) (io : WriteIo) (fresh random_keyid : list Z) (n : Network) (d : File) :
    File * res string (list Z) :=
  match
    e ← match DEPLOY_ENVIRONMENT vars with
        | Some s => expect "Invalid DEPLOY_ENVIRONMENT"%string (env_from_str (trim s))
        | None => mret (deploy_env_for_network n)
        end;
    _ ← ensure (require_backend_for_role (resolve_role (QUID_HOSTING_ROLE vars) e) backend) "hosting role requires hardware-bound key custody"%string;
    _ ← guard_prod_trust_anchors e;
    source ← match QUID_SEED vars with
             | Some raw => seed ← parse_seed_import sha256 raw; mret (Import seed)
             | None => mret BornInEnclave
             end;
    mret (e, source)
  with
  | inr err => (d, inr err)
  | inl (e, source) => load_or_provision sgx p io fresh random_keyid source e n d
  end.

(** A comparison without a branch on the data. *)
Definition ct_eq (a b : list Z) : bool :=
  if negb (length a =? length b)%nat then false else
  foldl (fun diff xy => Z.lor diff (Z.lxor xy.1 xy.2)) 0 (zip a b) =? 0.
Inductive StatusCode := OK | UNAUTHORIZED | CONFLICT | BAD_REQUEST.
Definition provision_handler (token presented : option string) (p : Platform) (io : WriteIo) (random_keyid seed : list Z) (e : DeployEnv) (n : Network) (d : File) :
    File * StatusCode :=
  if match token with Some expected => negb (ct_eq (str_bytes (default ""%string presented)) (str_bytes expected)) | None => false end then (d, UNAUTHORIZED) else
  match provision_seed sgx p io random_keyid seed e n d with
  | (d, inl _) => (d, OK)
  | (d, inr msg) => (d, if contains_str "already provisioned" msg then CONFLICT else BAD_REQUEST)
  end.
(** [serve_provision] as the daemon starts it: the environment is that of the network. *)
Definition daemon_provision (vars : EnvVars) (presented : option string) (p : Platform) (io : WriteIo) (random_keyid seed : list Z) (n : Network) (d : File) :
    File * StatusCode :=
  provision_handler (QUID_PROVISION_TOKEN vars) presented p io random_keyid seed (deploy_env_for_network n) n d.
End Boot.

(** ** What the operators sign *)
Record MigrationAuth := mkMigration { ma_measurement : list Z; ma_env : DeployEnv; ma_network : Network; ma_successor : list Z }.
Record SweepAuth := mkSweep { sw_destination : string; sw_env : DeployEnv; sw_network : Network; sw_nonce : list Z }.
Definition EIP712_DOMAIN : string := "EIP712Domain(string name,string version,uint256 chainId,address verifyingContract)".
Definition MIGRATION_TYPE : string := "MigrationAuth(bytes32 measurement,string deployEnv,string network,bytes32 successorCertPk)".
Definition SWEEP_TYPE : string := "SweepAuth(string destination,string deployEnv,string network,bytes32 nonce)".

Section Auth.
Context `{K : Pki}.
Variable keccak256 : list Z -> list Z.
(** [recover_ecdsa] on a digest, a recovery id and 64 bytes: the uncompressed point. *)
Variable recover_ecdsa : list Z -> Z -> list Z -> option (list Z).
(** [serde_json] on the bundles. *)
Variable migration_bundle : list Z -> option (MigrationAuth * list (list Z)).
Variable sweep_bundle : list Z -> option (SweepAuth * list (list Z)).

#[local] Abbreviation hash s := (keccak256 (str_bytes s)).
Definition domain_separator (name : string) : list Z :=
  keccak256 (hash EIP712_DOMAIN ++ hash name ++ hash "1" ++ word_u64 OPERATOR_SAFE_CHAIN_ID ++ address_word OPERATOR_SAFE).
Definition typed_digest (name : string) (fields : list Z) : list Z := keccak256 ([25; 1] ++ domain_separator name ++ keccak256 fields).
(** [MigrationAuth::eip712_digest] and [SweepAuth::eip712_digest] *)
Definition migration_digest (a : MigrationAuth) : list Z :=
  typed_digest "QUID Migration" (hash MIGRATION_TYPE ++ ma_measurement a ++ hash (env_str (ma_env a)) ++ hash (network_str (ma_network a)) ++ ma_successor a).
Definition sweep_digest (a : SweepAuth) : list Z :=
  typed_digest "QUID Sweep" (hash SWEEP_TYPE ++ hash (sw_destination a) ++ hash (env_str (sw_env a)) ++ hash (network_str (sw_network a)) ++ sw_nonce a).
Definition evm_address_of (pk : list Z) : list Z := drop 12 (keccak256 (drop 1 pk)).
Definition recover_signer (digest sig : list Z) : res string (list Z) :=
  _ ← ensure (length sig =? 65)%nat "operator signature must be 65 bytes"%string;
  parity ← (let v := nth 64 sig 0 in if v =? 27 then mret 0 else if v =? 28 then mret 1 else fail "operator sig recovery id not in {27,28}"%string);
  pk ← expect "ecrecover failed"%string (recover_ecdsa digest parity (take 64 sig));
  mret (evm_address_of pk).
Fixpoint collect_signers (digest : list Z) (owners : list (list Z)) (signatures : list (list Z)) (signers : gset (list Z)) : res string (gset (list Z)) :=
  match signatures with
  | [] => mret signers
  | sig :: signatures =>
      addr ← recover_signer digest sig;
      _ ← ensure (bool_decide (addr ∈ owners)) "signature from non-owner address"%string;
      collect_signers digest owners signatures ({[addr]} ∪ signers)
  end.
Definition verify_threshold_signatures (digest : list Z) (signatures owners : list (list Z)) (threshold : nat) : res string unit :=
  signers ← collect_signers digest owners signatures ∅;
  ensure (threshold <=? size signers)%nat "needs more distinct operator signatures"%string.
Definition verify_migration_auth (bundle : list Z) (owners : list (list Z)) (threshold : nat) (e : DeployEnv) (n : Network) : res string (list Z * list Z) :=
  '(auth, signatures) ← expect "deserialize migration auth bundle"%string (migration_bundle bundle);
  _ ← ensure (bool_decide (ma_env auth = e)) "migration auth deploy_env"%string;
  _ ← ensure (bool_decide (ma_network auth = n)) "migration auth network"%string;
  _ ← verify_threshold_signatures (migration_digest auth) signatures owners threshold;
  mret (ma_measurement auth, ma_successor auth).
Definition verify_sweep_auth (bundle : list Z) (owners : list (list Z)) (threshold : nat) (e : DeployEnv) (n : Network) : res string (string * list Z) :=
  '(auth, signatures) ← expect "deserialize sweep auth bundle"%string (sweep_bundle bundle);
  _ ← ensure (bool_decide (sw_env auth = e)) "sweep auth deploy_env"%string;
  _ ← ensure (bool_decide (sw_network auth = n)) "sweep auth network"%string;
  _ ← ensure (negb (String.eqb (sw_destination auth) "")) "sweep auth destination is empty"%string;
  _ ← verify_threshold_signatures (sweep_digest auth) signatures owners threshold;
  mret (sw_destination auth, sw_nonce auth).

(** ** The transfer of the seed

    The other side: its certificate, whether it proves to hold the key of it in the handshake,
    and its answer.  What is sent, and to which certificate, is a trace. *)
Record Peer := mkPeer { peer_cert : list Z; peer_intermediates : list (list Z); peer_proves : bool; peer_status : Z }.
Record Sent := mkSent { sent_to : list Z; sent_seed : list Z; sent_token : option string }.
Definition mr_short (measurement : list Z) : string := Hex.encode (take 4 measurement).
Definition node_provision_dns (measurement : list Z) : string := (mr_short measurement ++ NODE_PROVISION_DNS_SUFFIX)%string.
Definition client_policy (use_sgx : bool) (e : DeployEnv) (measurement : list Z) (cert_pk : option (list Z)) : EnclavePolicy :=
  let p := trust_measurements_with_signer use_sgx (is_dev e) [measurement] in
  mkPolicy (allow_debug p) (trusted_mrenclaves p) (trusted_mrsigner p) cert_pk.
Definition provision_client_request (now : Z) (peer : Peer) (measurement seed : list Z) (use_sgx : bool) (e : DeployEnv) (token : option string)
    (cert_pk : option (list Z)) : list Sent * res string unit :=
  match verify_server_cert (negb use_sgx) (client_policy use_sgx e measurement cert_pk) (peer_cert peer) (peer_intermediates peer) (node_provision_dns measurement) now with
  | inr err => ([], inr err)
  | inl _ =>
      if negb (peer_proves peer) then ([], inr "handshake signature"%string) else
      ([mkSent (peer_cert peer) seed token], ensure ((200 <=? peer_status peer) && (peer_status peer <? 300)) "provision rejected"%string)
  end.
Definition migrate_seed_to (now : Z) (peer : Peer) (bundle seed : list Z) (use_sgx : bool) (e : DeployEnv) (n : Network) (token : option string) :
    list Sent * res string unit :=
  match
    '(target, pk) ← verify_migration_auth bundle OPERATOR_OWNERS MIGRATION_THRESHOLD e n;
    _ ← ensure (length pk =? 32)%nat "migration auth names a malformed successor cert key"%string;
    mret (target, pk)
  with
  | inr err => ([], inr err)
  | inl (target, pk) => provision_client_request now peer target seed use_sgx e token (Some pk)
  end.

(** ** The sweep

    The registry of used nonces on the chain, and what the sweep does in which order.  [receipt]
    is what the endpoint reports of the transaction, given what happened; the calls that the
    client makes are in [Client]. *)
Inductive SweepEvent := Consumed (nonce : list Z) | Drained (destination : string) (tx : list Z).
Record SweepEnv := mkSweepEnv {
  on_network : string -> bool; tx_lands : bool; receipt : bool -> bool; buried : bool; build_sweep : string -> option (list Z); broadcast_ok : bool }.
Definition markMigrationNonceUsed (env : SweepEnv) (nonce : list Z) (used : gset (list Z)) : gset (list Z) * bool :=
  if negb (tx_lands env) then (used, false) else if bool_decide (nonce ∈ used) then (used, false) else ({[nonce]} ∪ used, true).
Definition consume (env : SweepEnv) (nonce : list Z) (used : gset (list Z)) : gset (list Z) * bool :=
  let '(used, ok) := markMigrationNonceUsed env nonce used in
  (used, receipt env ok && (buried env && bool_decide (nonce ∈ used))).
Definition execute_sweep (bundle : list Z) (owners : list (list Z)) (e : DeployEnv) (n : Network) (env : SweepEnv) (s : gset (list Z) * list SweepEvent) :
    (gset (list Z) * list SweepEvent) * res string string :=
  match verify_sweep_auth bundle owners SWEEP_THRESHOLD e n with
  | inr err => (s, inr err)
  | inl (destination, nonce) =>
      if negb (on_network env destination) then (s, inr "sweep destination is not an address of this network"%string) else
      let '(used, ok) := consume env nonce s.1 in
      if negb ok then ((used, s.2), inr "sweep nonce not consumed on-chain"%string) else
      let log := s.2 ++ [Consumed nonce] in
      match build_sweep env destination with
      | None => ((used, log), inr "build sweep tx"%string)
      | Some tx => ((used, log ++ [Drained destination tx]), if broadcast_ok env then inl destination else inr "broadcast sweep tx"%string)
      end
  end.
End Auth.

(** * Properties *)

(** ** An enclave and a coding of records that obey the laws

    Every structured value becomes one number; a ciphertext is the number of its key and nonce,
    fifteen zeros and the plaintext. *)
Module SealSample.
Definition num {A} `{Countable A} (a : A) : Z := Zpos (countable.encode a).
Definition unnum {A} `{Countable A} (z : Z) : option A := match z with Zpos p => countable.decode p | _ => None end.
Lemma unnum_num {A} `{Countable A} (a : A) : unnum (num a) = Some a.
Proof. apply countable.decode_encode. Qed.
Lemma num_inj {A} `{Countable A} (a b : A) : num a = num b -> a = b.
Proof. intros E. apply (f_equal (unnum (A := A))) in E. rewrite !unnum_num in E. by injection E. Qed.
Lemma num_inj1 {A} `{Countable A} (a b : A) : [num a] = [num b] -> a = b.
Proof. intros E. apply num_inj. congruence. Qed.
Definition kr_tuple (k : Keyrequest) := (keyname k, keypolicy k, isvsvn k, cpusvn k, attributemask k, miscmask k, keyid k).
Definition kr_untuple '(a, b, c, d, e, f, g) := mkKeyrequest a b c d e f g.
#[export] Instance isa : SgxIsa := {|
  kr_bytes k := num (kr_tuple k) :: replicate 511 0;
  kr_copy l := match l with z :: _ => default (mkKeyrequest 0 0 0 [] (0, 0) 0 []) (kr_untuple <$> unnum z) | [] => mkKeyrequest 0 0 0 [] (0, 0) 0 [] end;
  egetkey p k := Some [num (p_mrenclave p, p_cpu p)];
  hkdf salt m l := [num (salt, m, l)];
  gcm_seal k n p := Some (num (k, n) :: replicate 15 0 ++ p);
  gcm_open k n c := match c with z :: r => if bool_decide (z = num (k, n)) then Some (drop 15 r) else None | [] => None end |}.
#[export] Instance isa_laws : SgxIsaLaws isa.
Proof.
  constructor; cbn [kr_bytes kr_copy egetkey hkdf gcm_seal gcm_open isa].
  - intros k. cbn [length]. by rewrite length_replicate.
  - done.
  - intros k. rewrite unnum_num. by destruct k.
  - intros p q k _ -> ->. done.
  - intros p q k m _ H1 H2. rewrite <- H2 in H1. apply Some_inj, num_inj1 in H1. by injection H1.
  - intros salt m m' l l' E%num_inj1. by injection E.
  - intros k n p c [= <-]. by rewrite bool_decide_true.
  - intros k n p c [= <-]. unfold TAG_LEN. cbn. lia.
  - intros k n p k' n' p' c [= <-]. destruct (bool_decide _) eqn:E; [|done]. apply bool_decide_eq_true, num_inj in E. by injection E.
Qed.
Definition env_num (e : DeployEnv) : Z := match e with Dev => 0 | Staging => 1 | Prod => 2 end.
Definition num_env (z : Z) : DeployEnv := if z =? 0 then Dev else if z =? 1 then Staging else Prod.
Definition net_num (n : Network) : Z := match n with Mainnet => 0 | Testnet3 => 1 | Testnet4 => 2 | Regtest => 3 | Signet => 4 end.
Definition num_net (z : Z) : Network := if z =? 0 then Mainnet else if z =? 1 then Testnet3 else if z =? 2 then Testnet4 else if z =? 3 then Regtest else Signet.
#[export] Instance json : SeedJson := {|
  meta_json s e n := [num (s, env_num e, net_num n)];
  meta_parse l := match l with [z] => '(s, e, n) ← unnum z; Some (s, num_env e, num_net n) | _ => None end;
  blob_json b := [num (ss_user_pk b, ss_measurement b, ss_machine b, ss_ciphertext b)];
  blob_parse l := match l with [z] => '(a, b, c, d) ← unnum z; Some (mkSealedSeed a b c d) | _ => None end;
  derive_user_pk s := rev s |}.
#[export] Instance json_laws : SeedJsonLaws json.
Proof.
  constructor; cbn [meta_json meta_parse blob_json blob_parse json].
  - intros s e n. rewrite unnum_num. by destruct e, n.
  - intros s e n _. cbn. lia.
  - intros b. rewrite unnum_num. by destruct b.
Qed.
Definition machine : Platform := mkPlatform (replicate 32 1) (replicate 32 2) [7].
Definition seed : list Z := replicate 32 3.
Definition id : list Z := replicate 32 4.
End SealSample.

(** ** The seed on the disk *)
Section Kept.
Context {Isa : SgxIsa} {LS : SgxIsaLaws Isa} {J : SeedJson} {LJ : SeedJsonLaws J}.
Variable sgx : bool.

(** The file holds a seed, sealed by an enclave for an environment and a network. *)
Definition holds (bytes : list Z) (p : Platform) (e : DeployEnv) (n : Network) (seed : list Z) : Prop :=
  exists id b, bytes = blob_json b /\ length id = 32%nat /\ length seed = SEED_LENGTH /\ seal_from_root_seed sgx p id seed e n = inl b.
Lemma context_inl {E A} what (r : res E A) a : context what r = inl a -> r = inl a.
Proof. destruct r; [by intros [= ->]|done]. Qed.
Lemma seal_inl p id seed e n b : seal_from_root_seed sgx p id seed e n = inl b ->
  validate_network e n = true /\ exists s, native_seal sgx p id SEAL_LABEL (meta_json seed e n) = inl s /\
    b = mkSealedSeed (derive_user_pk seed) (p_mrenclave p) (machine_id sgx p) (sealed_serialize s).
Proof.
  intros H. apply res_bind_inl in H as (u & Hv & H). apply ensure_inl in Hv. apply res_bind_inl in H as (s & Hs & H). injection H as <-.
  split; [done|]. exists s. split; [|done]. by apply context_inl in Hs.
Qed.
(** Whoever loads the seed gets the one that was sealed, where and as it was sealed. *)
Lemma holds_load bytes p e n seed p' e' n' s : holds bytes p e n seed -> load sgx p' e' n' bytes = inl s ->
  s = seed /\ e' = e /\ n' = n /\ p_mrenclave p' = p_mrenclave p /\ (sgx = true -> p_cpu p' = p_cpu p).
Proof.
  intros (id & b & -> & Hid & Hlen & Hs) H. apply seal_inl in Hs as (_ & c & Hc & ->). unfold load in H. rewrite blob_back, bind_expect in H.
  apply res_bind_inl in H as ([[s0 e0] n0] & Hu & H). apply res_bind_inl in H as (u1 & He & H). apply res_bind_inl in H as (u2 & Hn & H). injection H as <-.
  apply ensure_inl, bool_decide_eq_true in He as ->, Hn as ->. unfold unseal_and_validate in Hu. cbn [ss_measurement ss_machine ss_ciphertext ss_user_pk] in Hu.
  apply res_bind_inl in Hu as (u3 & Hm & Hu). apply ensure_inl, bool_decide_eq_true in Hm. apply res_bind_inl in Hu as (u4 & _ & Hu).
  apply res_bind_inl in Hu as (c' & Hc' & Hu). apply context_inl in Hc'. rewrite (native_short sgx p id SEAL_LABEL _ c Hid (meta_short _ _ _ Hlen) Hc) in Hc'. injection Hc' as <-.
  apply res_bind_inl in Hu as (j & Hj & Hu). apply context_inl in Hj. destruct (native_bound _ _ _ _ _ _ _ _ Hid Hc Hj) as [-> Hcpu].
  rewrite meta_back, bind_expect in Hu. apply res_bind_inl in Hu as (s1 & Hs1 & Hu). apply expect_inl in Hs1.
  apply res_bind_inl in Hu as (u5 & _ & Hu). apply res_bind_inl in Hu as (u6 & _ & Hu). injection Hu as -> -> ->.
  unfold seed_from_bytes in Hs1. rewrite Hlen in Hs1. injection Hs1 as <-. split_and!; try done. by intros [_ ?]%Hcpu.
Qed.
(** Where it was sealed it loads. *)
Lemma holds_loads bytes p e n seed : holds bytes p e n seed -> load sgx p e n bytes = inl seed.
Proof.
  intros (id & b & -> & Hid & Hlen & Hs). apply seal_inl in Hs as (Hv & c & Hc & ->). unfold load. rewrite blob_back, bind_expect. unfold unseal_and_validate.
  cbn [ss_measurement ss_machine ss_ciphertext ss_user_pk]. rewrite !bool_decide_true by done. rewrite !(bind_ensure _ true) by done.
  rewrite (native_short sgx p id SEAL_LABEL _ c Hid (meta_short _ _ _ Hlen) Hc). cbn [context]. rewrite res_bind_ok, (native_opens _ _ _ _ _ _ Hid Hc). cbn [context].
  rewrite res_bind_ok, meta_back, bind_expect. unfold seed_from_bytes. rewrite Hlen. cbn [Nat.eqb SEED_LENGTH]. rewrite bind_expect, Hv. 
  rewrite !bind_ensure by (try done; by apply bool_decide_eq_true). rewrite bind_ret, !bind_ensure by (by apply bool_decide_eq_true). done.
Qed.

(** The operations on the file, in any order: a boot and a delivery of a seed. *)
Inductive SeedOp :=
| Booting (p : Platform) (io : WriteIo) (fresh random_keyid : list Z) (source : SeedSource) (e : DeployEnv) (n : Network)
| Delivery (p : Platform) (io : WriteIo) (random_keyid seed : list Z) (e : DeployEnv) (n : Network).
Definition op_where (o : SeedOp) : Platform * DeployEnv * Network :=
  match o with Booting p _ _ _ _ e n | Delivery p _ _ _ e n => (p, e, n) end.
Definition is_boot (o : SeedOp) : bool := match o with Booting _ _ _ _ _ _ _ => true | _ => false end.
(** Seeds and key ids are arrays of 32 bytes. *)
Definition op_sized (o : SeedOp) : Prop :=
  match o with
  | Booting _ _ fresh id source _ _ => length fresh = SEED_LENGTH /\ length id = 32%nat /\ match source with Import s => length s = SEED_LENGTH | _ => True end
  | Delivery _ _ id seed _ _ => length seed = SEED_LENGTH /\ length id = 32%nat
  end.
(** With the seed that is in use, or that was stored. *)
Definition op_run (o : SeedOp) (d : File) : File * res string (list Z) :=
  match o with
  | Booting p io fresh id source e n => load_or_provision sgx p io fresh id source e n d
  | Delivery p io id seed e n => let '(d, r) := provision_seed sgx p io id seed e n d in (d, r ≫= fun _ => mret seed)
  end.
Definition ops_run (os : list SeedOp) (d : File) : File := foldl (fun d o => (op_run o d).1) d os.

(** Nothing writes over a file. *)
Lemma op_run_contents o bytes : (op_run o (Contents bytes)).1 = Contents bytes.
Proof. by destruct o. Qed.
Lemma ops_run_contents os bytes : ops_run os (Contents bytes) = Contents bytes.
Proof. induction os as [|o os IH]; [done|]. unfold ops_run in *. cbn [foldl]. by rewrite op_run_contents. Qed.

Definition file_ok (d : File) : Prop := match d with NotFound => True | Unreadable => False | Contents b => exists p e n seed, holds b p e n seed end.
Lemma persist_cases p io id seed e n d r : length id = 32%nat -> length seed = SEED_LENGTH -> seal_and_persist sgx p io id seed e n NotFound = (d, r) ->
  (r = inl tt /\ exists b, d = Contents b /\ holds b p e n seed) \/
  ((d = NotFound \/ exists b, d = Contents b /\ holds b p e n seed) /\ exists err, r = inr err).
Proof.
  intros Hid Hs H. unfold seal_and_persist in H. destruct (seal_from_root_seed sgx p id seed e n) as [b|err] eqn:E; [|right; simplify_eq; eauto].
  assert (holds (blob_json b) p e n seed) by (by exists id, b).
  destruct io as [|[]]; simplify_eq; [left|right|right]; eauto 10.
Qed.
(** A success leaves a file that holds the seed it returned. *)
Lemma op_run_cases o d : op_sized o -> file_ok d ->
  file_ok (op_run o d).1 /\
  forall seed, (op_run o d).2 = inl seed -> exists b, (op_run o d).1 = Contents b /\ 
    (exists p e n, holds b p e n seed) /\ let '(p, e, n) := op_where o in load sgx p e n b = inl seed.
Proof.
  intros Ho Hd. destruct o as [p io fresh id source e n|p io id seed0 e n]; cbn [op_run op_where op_sized] in *.
  - destruct d as [| |bytes]; cbn [load_or_provision file_ok] in *; [|done|].
    + destruct Ho as (Hf & Hid & Hsrc).
      assert (forall s, length s = SEED_LENGTH -> let '(d, r) := seal_and_persist sgx p io id s e n NotFound in
        file_ok d /\ forall seed, (r ≫= fun _ => mret s) = inl seed -> exists b, d = Contents b /\ (exists p e n, holds b p e n seed) /\ load sgx p e n b = inl seed) as P.
      { intros s Hs. destruct (seal_and_persist sgx p io id s e n NotFound) as [d r] eqn:E.
        destruct (persist_cases _ _ _ _ _ _ _ _ Hid Hs E) as [(-> & b & -> & Hb)|([->|(b & -> & Hb)] & err & ->)];
          [|done|split; [by exists p, e, n, s|done]].
        split; [by exists p, e, n, s|]. intros seed [= <-]. exists b. split_and!; [done|by exists p, e, n|by apply holds_loads]. }
      destruct source as [|s]; [|destruct sgx; [done|]].
      * specialize (P fresh Hf). by destruct (seal_and_persist _ _ _ _ _ _ _ _).
      * specialize (P s Hsrc). by destruct (seal_and_persist _ _ _ _ _ _ _ _).
    + split; [done|]. intros seed Hl. exists bytes. split_and!; [done| |done]. destruct Hd as (p0 & e0 & n0 & s0 & Hh).
      destruct (holds_load _ _ _ _ _ _ _ _ _ Hh Hl) as (-> & _). by exists p0, e0, n0.
  - destruct d as [| |bytes]; unfold provision_seed; cbn [is_provisioned file_ok] in *; [|done..].
    destruct Ho as (Hs & Hid). destruct (seal_and_persist sgx p io id seed0 e n NotFound) as [d r] eqn:E.
    destruct (persist_cases _ _ _ _ _ _ _ _ Hid Hs E) as [(-> & b & -> & Hb)|([->|(b & -> & Hb)] & err & ->)];
      [|done|split; [by exists p, e, n, seed0|done]].
    split; [by exists p, e, n, seed0|]. intros seed [= <-]. exists b. split_and!; [done|by exists p, e, n|by apply holds_loads].
Qed.
Lemma ops_run_ok os d : Forall op_sized os -> file_ok d -> file_ok (ops_run os d).
Proof.
  intros Ho. revert d. induction Ho as [|o os Ho _ IH]; intros d Hd; [done|]. unfold ops_run. cbn [foldl]. apply IH. by apply op_run_cases.
Qed.

(** C34: of [load_or_provision] and [provision_seed], from an empty disk, under any sequence of
    calls, by any enclaves, for any environment and network, with writes that fail at will, in
    place or not: once a call has succeeded with a seed, every later success is a
    [load_or_provision] and gives the same seed, for the same environment and network, in an
    enclave of the same measurement — and on the same machine if the seal is that of SGX; and a
    [load_or_provision] on the machine and with the settings of the first success gives it
    again.  (The boot of the daemon has conditions of its own before that call:
    [malformed_import_fails_boot], [provisioned_seed_refused].) *)
Theorem seed_kept before o1 between o2 seed : Forall op_sized (before ++ o1 :: between ++ [o2]) ->
  let d1 := ops_run before NotFound in let d2 := ops_run between (op_run o1 d1).1 in
  (op_run o1 d1).2 = inl seed ->
  (forall s, (op_run o2 d2).2 = inl s -> s = seed /\ is_boot o2 = true /\
     let '(p1, e1, n1) := op_where o1 in let '(p2, e2, n2) := op_where o2 in
     e2 = e1 /\ n2 = n1 /\ p_mrenclave p2 = p_mrenclave p1 /\ (sgx = true -> p_cpu p2 = p_cpu p1)) /\
  (is_boot o2 = true -> op_where o2 = op_where o1 -> (op_run o2 d2).2 = inl seed).
Proof.
  intros Ho d1 d2 H1. apply Forall_app in Ho as [Hb Ho]. apply Forall_cons in Ho as [Ho1 _].
  assert (file_ok d1) as Hd1 by (by apply ops_run_ok). destruct (op_run_cases o1 d1 Ho1 Hd1) as [_ Hk].
  destruct (Hk seed H1) as (b & Ef & (p0 & e0 & n0 & Hh) & Hl). subst d2. rewrite Ef, ops_run_contents.
  destruct (op_where o1) as [[p1 e1] n1] eqn:W1. destruct (holds_load _ _ _ _ _ _ _ _ _ Hh Hl) as (_ & -> & -> & Hm1 & Hc1). split.
  - intros s H2. destruct o2 as [p2 io fresh id source e2 n2|]; [|done]. cbn [op_run load_or_provision snd] in H2.
    destruct (holds_load _ _ _ _ _ _ _ _ _ Hh H2) as (-> & -> & -> & Hm2 & Hc2). cbn [op_where is_boot]. split_and!; try done; [congruence|].
    intros Hs. by rewrite Hc1, Hc2.
  - intros Hb2 W2. destruct o2 as [p2 io fresh id source e2 n2|]; [|done]. cbn [op_where] in W2. by injection W2 as -> -> ->.
Qed.
End Kept.

#[local] Existing Instances SealSample.isa SealSample.isa_laws SealSample.json SealSample.json_laws.
Lemma seed_kept_witness :
  let m := SealSample.machine in let id := SealSample.id in
  let o1 := Delivery m WriteOk id SealSample.seed Prod Mainnet in
  let o2 := Booting m WriteOk (replicate 32 9) id BornInEnclave Prod Mainnet in
  let before := [Delivery m (WriteErr false) id (replicate 32 8) Prod Mainnet; Delivery m WriteOk id SealSample.id Staging Mainnet] in
  let between := [Delivery m WriteOk id SealSample.id Prod Mainnet] in
  (op_run true o2 (ops_run true between (op_run true o1 (ops_run true before NotFound)).1)).2 = inl SealSample.seed.
Proof.
  intros m id o1 o2 before between.
  refine (proj2 (seed_kept (Isa := SealSample.isa) (LS := SealSample.isa_laws) (J := SealSample.json) (LJ := SealSample.json_laws) true before o1 between o2 SealSample.seed _ _) eq_refl eq_refl).
  - repeat constructor.
  - vm_compute. reflexivity.
Defined.

(** A write that reports an error may have taken effect: a provision that failed decides the
    seed, and the next call finds it. *)
Lemma failed_write_in_place :
  let m := SealSample.machine in let id := SealSample.id in
  let failed := Delivery m (WriteErr true) id SealSample.seed Prod Mainnet in
  let d := (op_run true failed NotFound).1 in
  (op_run true failed NotFound).2 = inr "Failed to persist SealedSeed"%string /\
  (op_run true (Delivery m WriteOk id SealSample.id Prod Mainnet) d).2 = inr "already provisioned"%string /\
  (op_run true (Booting m WriteOk (replicate 32 9) id BornInEnclave Prod Mainnet) d).2 = inl SealSample.seed.
Proof. split_and!; vm_compute; reflexivity. Qed.

(** ** What the operators sign, and what they authorised *)
Section Digests.
Variable keccak256 : list Z -> list Z.
(** Two different inputs with the same digest. *)
Definition collision : Prop := exists x y, x <> y /\ keccak256 x = keccak256 y.
Lemma keccak_inj x y : keccak256 x = keccak256 y -> x = y \/ collision.
Proof. intros E. destruct (decide (x = y)); [by left|]. right. by exists x, y. Qed.
Hypothesis keccak_length : forall x, length (keccak256 x) = 32%nat.

Lemma typed_digest_inj name name' f f' : typed_digest keccak256 name f = typed_digest keccak256 name' f' -> (str_bytes name = str_bytes name' /\ f = f') \/ collision.
Proof.
  intros E. unfold typed_digest in E. apply keccak_inj in E as [E|?]; [|by right]. cbn [app] in E. injection E as E.
  apply app_inj_1 in E as [Ed Ef]; [|by unfold domain_separator; rewrite !keccak_length]. apply keccak_inj in Ef as [->|?]; [|by right].
  unfold domain_separator in Ed. apply keccak_inj in Ed as [Ed|?]; [|by right]. apply app_inv_head, app_inj_1 in Ed as [En _]; [|by rewrite !keccak_length].
  apply keccak_inj in En as [->|?]; [by left|by right].
Qed.
(** A signature on a migration says which migration, and is not one on a sweep. *)
Lemma migration_digest_binds a b : length (ma_measurement a) = 32%nat -> length (ma_measurement b) = 32%nat ->
  migration_digest keccak256 a = migration_digest keccak256 b -> a = b \/ collision.
Proof.
  intros Ha Hb E. apply typed_digest_inj in E as [[_ E]|?]; [|by right]. apply app_inv_head, app_inj_1 in E as [Em E]; [|by rewrite Ha, Hb].
  apply app_inj_1 in E as [Ee E]; [|by rewrite !keccak_length]. apply app_inj_1 in E as [En Es]; [|by rewrite !keccak_length].
  apply keccak_inj in Ee as [Ee|?]; [|by right]. apply keccak_inj in En as [En|?]; [|by right]. left.
  destruct a as [m e n s], b as [m' e' n' s']. cbn in *. subst. f_equal; [destruct e, e'|destruct n, n']; done.
Qed.
Lemma sweep_is_no_migration a b : migration_digest keccak256 a = sweep_digest keccak256 b -> collision.
Proof. intros E. by apply typed_digest_inj in E as [[E _]|?]. Qed.
End Digests.

Section AuthFacts.
Context `{K : Pki}.
Variable keccak256 : list Z -> list Z.
Variable recover_ecdsa : list Z -> Z -> list Z -> option (list Z).
Variable migration_bundle : list Z -> option (MigrationAuth * list (list Z)).
#[local] Abbreviation signer := (recover_signer keccak256 recover_ecdsa).

(** Enough different owners signed the digest. *)
Definition approved (digest : list Z) (signatures owners : list (list Z)) (threshold : nat) : Prop :=
  exists S : gset (list Z), (threshold <= size S)%nat /\ forall a, a ∈ S -> a ∈ owners /\ exists sig, sig ∈ signatures /\ signer digest sig = inl a.
Lemma collect_signers_inl digest owners l S0 S : collect_signers keccak256 recover_ecdsa digest owners l S0 = inl S ->
  forall a, a ∈ S -> a ∈ S0 \/ (a ∈ owners /\ exists sig, sig ∈ l /\ signer digest sig = inl a).
Proof.
  revert S0. induction l as [|sig l IH]; intros S0 H a Ha; [injection H as <-; by left|]. cbn [collect_signers] in H.
  apply res_bind_inl in H as (addr & Hs & H). apply res_bind_inl in H as (u & Ho & H). apply ensure_inl, bool_decide_eq_true in Ho.
  destruct (IH _ H a Ha) as [[->%elem_of_singleton|Hi]%elem_of_union|(Hw & sg & Hi & Hg)]; [right; split; [done|]; exists sig; split; [by left|done]|by left|].
  right. split; [done|]. exists sg. split; [by right|done].
Qed.
Lemma threshold_approved digest l owners k : verify_threshold_signatures keccak256 recover_ecdsa digest l owners k = inl tt -> approved digest l owners k.
Proof.
  intros H. apply res_bind_inl in H as (S & Hc & H). apply ensure_inl, Nat.leb_le in H. exists S. split; [done|]. intros a Ha.
  by destruct (collect_signers_inl _ _ _ _ _ Hc a Ha) as [?%elem_of_empty|?].
Qed.

(** ** The transfer *)
Lemma ends_with_app s suffix : ends_with suffix (s ++ suffix)%string = true.
Proof.
  induction s as [|c s IH]; [rewrite append_nil; destruct suffix; unfold ends_with; fold ends_with; by rewrite String.eqb_refl|].
  rewrite append_cons. cbn [ends_with]. rewrite IH. apply orb_true_r.
Qed.
Lemma client_attested now peer m seed use_sgx e token pk sent r x :
  provision_client_request now peer m seed use_sgx e token (Some pk) = (sent, r) -> x ∈ sent ->
  x = mkSent (peer_cert peer) seed token /\ peer_proves peer = true /\
  exists rep, attested use_sgx (client_policy use_sgx e m (Some pk)) (peer_cert peer) now pk rep.
Proof.
  intros H Hx. unfold provision_client_request in H. destruct (verify_server_cert _ _ _ _ _ _) as [u|err] eqn:V; [|simplify_eq; set_solver].
  destruct (peer_proves peer); cbn [negb] in H; [|simplify_eq; set_solver]. simplify_eq. apply list_elem_of_singleton in Hx as ->. split_and!; [done..|].
  unfold verify_server_cert, node_provision_dns in V. rewrite ends_with_app in V. destruct u. apply attestation_sound in V as (pk' & rep & A). exists rep.
  by rewrite (at_instance _ _ _ _ _ _ A pk eq_refl) in A.
Qed.

(** C35: the seed leaves the enclave only if two or more of the operators signed a migration for
    this environment and network, and then only to the holder of the key named in it, which
    presents an attested enclave of the measurement named in it, signed by the key of the
    environment, and outside debug mode unless the environment is the one for development. *)
Theorem export_authorised now peer bundle seed use_sgx e n token sent r x :
  migrate_seed_to keccak256 recover_ecdsa migration_bundle now peer bundle seed use_sgx e n token = (sent, r) -> x ∈ sent ->
  exists auth signatures rep, migration_bundle bundle = Some (auth, signatures) /\ ma_env auth = e /\ ma_network auth = n /\
    approved (migration_digest keccak256 auth) signatures OPERATOR_OWNERS 2 /\
    sent_to x = peer_cert peer /\ sent_seed x = seed /\ peer_proves peer = true /\
    attested use_sgx (client_policy use_sgx e (ma_measurement auth) (Some (ma_successor auth))) (sent_to x) now (ma_successor auth) rep /\
    rp_mrenclave rep = ma_measurement auth /\ rp_mrsigner rep = expected_signer use_sgx (is_dev e) /\ (e <> Dev -> rp_debug rep = false).
Proof.
  intros H Hx. unfold migrate_seed_to in H. destruct (mbind _ _) as [[target pk]|err] eqn:V; [|simplify_eq; set_solver].
  apply res_bind_inl in V as ([t p] & V & Hp). apply res_bind_inl in Hp as (u0 & _ & Hp). injection Hp as -> ->.
  apply res_bind_inl in V as ([auth sigs] & Hb & V). apply expect_inl in Hb. apply res_bind_inl in V as (u1 & He & V). apply res_bind_inl in V as (u2 & Hn & V).
  apply res_bind_inl in V as ([] & Ht & V). injection V as <- <-. apply ensure_inl, bool_decide_eq_true in He, Hn. apply threshold_approved in Ht.
  destruct (client_attested _ _ _ _ _ _ _ _ _ _ _ H Hx) as (-> & Hpr & rep & A). exists auth, sigs, rep. split_and!; try done.
  - pose proof (at_measurement _ _ _ _ _ _ A _ eq_refl) as M. by apply list_elem_of_singleton in M.
  - by apply (at_signer _ _ _ _ _ _ A).
  - intros Hd. apply (at_debug _ _ _ _ _ _ A). by destruct e.
Qed.

End AuthFacts.

(** ** The sweep *)
Section SweepFacts.
Variable keccak256 : list Z -> list Z.
Variable recover_ecdsa : list Z -> Z -> list Z -> option (list Z).
Variable sweep_bundle : list Z -> option (SweepAuth * list (list Z)).
Variable owners : list (list Z).
Variable e : DeployEnv.
Variable n : Network.
#[local] Abbreviation sweep := (execute_sweep keccak256 recover_ecdsa sweep_bundle).
(** The operators agreed to empty the wallet to an address, under a nonce. *)
Definition sweep_authorised (destination : string) (nonce : list Z) : Prop :=
  exists auth signatures, sw_destination auth = destination /\ sw_nonce auth = nonce /\ sw_env auth = e /\ sw_network auth = n /\ destination <> EmptyString /\
    approved keccak256 recover_ecdsa (sweep_digest keccak256 auth) signatures owners 2.
Lemma verify_sweep_inl bundle d nonce : verify_sweep_auth keccak256 recover_ecdsa sweep_bundle bundle owners SWEEP_THRESHOLD e n = inl (d, nonce) -> sweep_authorised d nonce.
Proof.
  intros V. apply res_bind_inl in V as ([auth sigs] & _ & V). apply res_bind_inl in V as (u1 & He & V). apply res_bind_inl in V as (u2 & Hn & V).
  apply res_bind_inl in V as (u3 & Hd & V). apply res_bind_inl in V as ([] & Ht & V). injection V as <- <-. apply ensure_inl in He, Hn, Hd.
  apply bool_decide_eq_true in He, Hn. apply threshold_approved in Ht. exists auth, sigs. split_and!; try done. intros Hx. by rewrite Hx in Hd.
Qed.
(** An endpoint that does not report a success that did not happen. *)
Definition honest (env : SweepEnv) : Prop := receipt env false = false.
Lemma consume_cases env nonce used used' ok : honest env -> consume env nonce used = (used', ok) ->
  used ⊆ used' /\ (ok = true -> (nonce ∉ used) /\ nonce ∈ used').
Proof.
  intros Hh H. unfold consume, markMigrationNonceUsed in H. destruct (negb (tx_lands env)).
  - injection H as <- <-. split; [done|]. by rewrite Hh.
  - destruct (bool_decide (nonce ∈ used)) eqn:U; injection H as <- <-; [split; [done|]; by rewrite Hh|]. apply bool_decide_eq_false in U. set_solver.
Qed.
Lemma sweep_step bundle env s s' r : honest env -> sweep bundle owners e n env s = (s', r) ->
  s.1 ⊆ s'.1 /\ (s'.2 = s.2 \/ exists d nonce tail, sweep_authorised d nonce /\ (nonce ∉ s.1) /\ nonce ∈ s'.1 /\ s'.2 = s.2 ++ (Consumed nonce :: tail) /\
    (tail = [] \/ exists tx, tail = [Drained d tx])).
Proof.
  intros Hh H. unfold execute_sweep in H. destruct (verify_sweep_auth _ _ _ _ _ _ _ _) as [[d nonce]|err] eqn:V; [|injection H as <- _; auto].
  apply verify_sweep_inl in V. destruct (negb _); [injection H as <- _; auto|]. destruct (consume env nonce s.1) as [used ok] eqn:C.
  apply (consume_cases _ _ _ _ _ Hh) in C as [Hsub Hok]. destruct ok; cbn [negb] in H; [|injection H as <- _; auto]. destruct (Hok eq_refl) as [H1 H2].
  destruct (build_sweep env d) as [tx|]; injection H as <- _; cbn [fst snd]; (split; [done|]); right; exists d, nonce;
    [exists [Drained d tx]|exists []]; rewrite <- ?app_assoc; split_and!; eauto.
Qed.
Definition sweeps (l : list (list Z * SweepEnv)) (s : gset (list Z) * list SweepEvent) : gset (list Z) * list SweepEvent :=
  foldl (fun s '(bundle, env) => (sweep bundle owners e n env s).1) s l.
(** What is in the log: the nonces of it are used, each once, and a transfer follows its own. *)
Definition log_sound (used : gset (list Z)) (log : list SweepEvent) : Prop :=
  (forall nonce, Consumed nonce ∈ log -> nonce ∈ used) /\
  forall l d tx l', log = l ++ Drained d tx :: l' -> exists l0 nonce, l = l0 ++ [Consumed nonce] /\ sweep_authorised d nonce /\ (Consumed nonce ∉ l0) /\ (Consumed nonce ∉ l').
Lemma log_sound_grows used used' log d nonce tail : log_sound used log -> sweep_authorised d nonce -> nonce ∉ used -> used ⊆ used' -> nonce ∈ used' ->
  tail = [] \/ (exists tx, tail = [Drained d tx]) -> log_sound used' (log ++ (Consumed nonce :: tail)).
Proof.
  intros [Hu Hl] Ha Hn Hsub Hin Ht. assert (Consumed nonce ∉ log) as Hf by (intros ?%Hu; done). split.
  - intros m Hm. apply elem_of_app in Hm as [Hm|Hm]; [set_solver|]. apply elem_of_cons in Hm as [[= ->]|Hm]; [set_solver|].
    destruct Ht as [->|[tx ->]]; set_solver.
  - intros l d' tx' l' E. apply app_eq_inv in E as [(k & -> & E)|(k & -> & E)].
    + destruct k as [|y k]; [done|]. injection E as <- E. destruct (Hl l d' tx' k eq_refl) as (l0 & m & -> & Hm & Hm1 & Hm2).
      exists l0, m. split_and!; try done. subst l'. intros [Hi|Hi]%elem_of_app; [done|]. apply elem_of_cons in Hi as [[= <-]|Hi].
      * apply Hf. set_solver.
      * destruct Ht as [->|[tx ->]]; set_solver.
    + destruct k as [|y k]; [done|]. injection E as <- E. destruct Ht as [->|[tx ->]]; [by destruct k|].
      destruct k as [|? [|]]; [|done..]. injection E as <- <- <-. exists log, nonce. split_and!; [done..|set_solver].
Qed.

(** C36: however often and with whatever the sweep is asked for, and whatever the chain and the
    wallet do, as long as no endpoint reports a success that did not happen: every transfer of
    the wallet directly follows the consumption, on the chain, of a nonce under which two or
    more owners agreed to that very destination, on this network and in this environment, and
    which is consumed at no other point of the history. *)
Theorem sweeps_authorised requests used l d tx l' : Forall (fun r => honest r.2) requests -> (sweeps requests (used, [])).2 = l ++ Drained d tx :: l' ->
  exists l0 nonce, l = l0 ++ [Consumed nonce] /\ sweep_authorised d nonce /\ (Consumed nonce ∉ l0) /\ (Consumed nonce ∉ l').
Proof.
  intros Hr. assert (forall s, log_sound s.1 s.2 -> log_sound (sweeps requests s).1 (sweeps requests s).2) as P.
  { induction Hr as [|[bundle env] rs Hh _ IH]; intros s Hs; [done|]. unfold sweeps. cbn [foldl]. apply IH. cbn in Hh.
    destruct (sweep bundle owners e n env s) as [s' r] eqn:E. cbn [fst]. destruct (sweep_step _ _ _ _ _ Hh E) as [Hsub [->|(d' & nonce & tail & Ha & Hn & Hi & -> & Ht)]];
      [|by apply (log_sound_grows s.1 _ _ d')]. destruct Hs as [Hu Hl]. split; [set_solver|done]. }
  apply (P (used, [])). split; [set_solver|]. intros [|] ? ? ? ?; done.
Qed.
End SweepFacts.

(** ** The boot *)
(** The comparison of tokens is equality. *)
Lemma ct_eq_spec a b : ct_eq a b = bool_decide (a = b).
Proof.
  assert (forall d, 0 <= d -> length a = length b -> foldl (fun diff xy => Z.lor diff (Z.lxor xy.1 xy.2)) d (zip a b) = 0 <-> d = 0 /\ a = b) as P.
  { revert b. induction a as [|x a IH]; intros [|y b] d Hd Hl; [|done..|]; cbn [zip zip_with foldl fst snd]; [naive_solver|]. injection Hl as Hl.
    assert (forall z, Z.lor d z = 0 <-> d = 0 /\ z = 0) as L by (intros z; apply Z.lor_eq_0_iff).
    destruct (decide (0 <= Z.lor d (Z.lxor x y))) as [Hp|Hp].
    - rewrite (IH b _ Hp Hl), L, Z.lxor_eq_0_iff. naive_solver.
    - split; [|intros [-> [= -> ->]]; rewrite Z.lxor_nilpotent in Hp; by cbn in Hp]. intros F. exfalso. clear IH L. revert F Hp. generalize (Z.lor d (Z.lxor x y)).
      generalize (zip a b). intros l. induction l as [|[u v] l IH]; intros z F Hz; cbn [foldl fst snd] in F; [lia|]. apply (IH _ F).
      rewrite Z.lor_nonneg. lia. }
  unfold ct_eq. destruct (Nat.eqb_spec (length a) (length b)) as [E|E]; cbn [negb]; [|symmetry; apply bool_decide_eq_false; congruence].
  specialize (P 0 (Z.le_refl 0) E). destruct (Z.eqb_spec (foldl (fun diff xy => Z.lor diff (Z.lxor xy.1 xy.2)) 0 (zip a b)) 0) as [F|F]; symmetry;
    [apply bool_decide_eq_true|apply bool_decide_eq_false]; naive_solver.
Qed.
(** With the anchors of this tree nothing starts outside development. *)
Lemma prod_refused e : guard_prod_trust_anchors e = inl tt <-> e = Dev.
Proof. split; [|by intros ->]. by destruct e; vm_compute. Qed.

(** Without a token in the daemon's variables anyone may deliver the seed. *)
Lemma unset_token_admits_anyone {Isa : SgxIsa} {J : SeedJson} sgx vars presented p io id seed n d : QUID_PROVISION_TOKEN vars = None ->
  daemon_provision sgx vars presented p io id seed n d = daemon_provision sgx vars None p io id seed n d.
Proof. intros E. unfold daemon_provision. by rewrite E. Qed.

Section BootFacts.
Context {Isa : SgxIsa} {LS : SgxIsaLaws Isa} {J : SeedJson} {LJ : SeedJsonLaws J} `{B : Bip39} `{D : Sharks}.
Variable sha256 : list Z -> list Z.
Variable sgx : bool.

(** The disk wins over an import, and the import must still parse. *)
Lemma malformed_import_fails_boot vars backend p io fresh id n bytes raw : QUID_SEED vars = Some raw -> (forall s, parse_seed_import sha256 raw <> inl s) ->
  forall s, (load_or_provision_from_env sha256 sgx vars backend p io fresh id n (Contents bytes)).2 <> inl s.
Proof.
  intros Hq Hp s H. unfold load_or_provision_from_env in H. destruct (mbind _ _) as [[e src]|err] eqn:E in H; [|done].
  apply res_bind_inl in E as (e' & _ & E). apply res_bind_inl in E as (u1 & _ & E). apply res_bind_inl in E as (u2 & _ & E).
  apply res_bind_inl in E as (src' & E & _). rewrite Hq in E. apply res_bind_inl in E as (seed & E & _). by apply (Hp seed).
Qed.
(** A seed that is delivered on a test network is sealed for staging whatever the variable
    says, and a boot for development, the only one the anchors allow, refuses it. *)
Lemma provisioned_seed_refused vars presented backend p io fresh id id' seed n d : length id = 32%nat -> length seed = SEED_LENGTH ->
  deploy_env_for_network n = Staging -> daemon_provision sgx vars presented p io id seed n NotFound = (d, OK) ->
  forall s, (load_or_provision_from_env sha256 sgx vars backend p io fresh id' n d).2 <> inl s.
Proof.
  intros Hid Hs Hn H s Hb. unfold daemon_provision, provision_handler in H. destruct (match QUID_PROVISION_TOKEN vars with Some _ => _ | None => _ end); [done|].
  unfold provision_seed in H. cbn [is_provisioned] in H. destruct (seal_and_persist _ _ _ _ _ _ _ _) as [d' r] eqn:E.
  destruct (persist_cases _ _ _ _ _ _ _ _ _ Hid Hs E) as [(-> & b & -> & Hh)|(_ & err & ->)]; [|by destruct (contains_str _ _)]. injection H as <-.
  unfold load_or_provision_from_env in Hb. destruct (mbind _ _) as [[e src]|err] eqn:F in Hb; [|done]. cbn [load_or_provision snd] in Hb.
  destruct (holds_load _ _ _ _ _ _ _ _ _ _ Hh Hb) as (_ & -> & _). rewrite Hn in F.
  apply res_bind_inl in F as (e' & _ & F). apply res_bind_inl in F as (u1 & _ & F). apply res_bind_inl in F as ([] & G & F).
  apply res_bind_inl in F as (src' & _ & F). injection F as -> _. by apply prod_refused in G.
Qed.
End BootFacts.

(** ** A migration and a sweep that go through

    A digest that keeps its input, signatures that begin with the address of the signer, and
    certificates whose evidence is the key and the measurement. *)
Module AuthSample.
Definition digest (x : list Z) : list Z := replicate 12 0 ++ x.
Definition recover (_ : list Z) (_ : Z) (sig : list Z) : option (list Z) := Some (4 :: take 20 sig).
Definition sign (owner : list Z) : list Z := owner ++ replicate 44 0 ++ [27].
Definition signatures : list (list Z) := sign <$> take 2 DEV_OWNERS.
Definition target : list Z := replicate 32 5.
Definition successor : list Z := replicate 32 6.
Definition migration (_ : list Z) : option (MigrationAuth * list (list Z)) := Some (mkMigration target Dev Regtest successor, signatures).
Definition bundle (l : list Z) : option (SweepAuth * list (list Z)) := Some (mkSweep "bcrt1q" Dev Regtest l, signatures).
#[export] Instance pki : Pki := {|
  parse_quote _ := None; end_entity_ok _ := false; chains_to_intel _ _ _ := false; cert_verifies _ _ _ := false; construct_der _ _ := [];
  sha256 l := l; p256_verify _ _ _ := false; report_copy q := Some (mkReport true q MOCK_SIGNER (successor ++ successor));
  self_signed _ _ _ := true; cert_evidence c := Some (c, target); quid_ca_verifies _ _ _ _ := false |}.
Definition peer : Peer := mkPeer successor [] true 200.
Definition env : SweepEnv := mkSweepEnv (fun _ => true) true (fun ok => ok) true (fun _ => Some [1]) true.
Definition lying_env : SweepEnv := mkSweepEnv (fun _ => true) true (fun _ => true) true (fun _ => Some [2]) true.
End AuthSample.
#[local] Existing Instances AuthSample.pki.

Lemma export_authorised_witness : exists auth, ma_measurement auth = AuthSample.target /\ ma_successor auth = AuthSample.successor /\
  approved AuthSample.digest AuthSample.recover (migration_digest AuthSample.digest auth) AuthSample.signatures OPERATOR_OWNERS 2.
Proof.
  destruct (export_authorised AuthSample.digest AuthSample.recover AuthSample.migration 0 AuthSample.peer [] (replicate 32 3) false Dev Regtest None
    [mkSent AuthSample.successor (replicate 32 3) None] (inl tt) (mkSent AuthSample.successor (replicate 32 3) None))
    as (auth & sigs & rep & H & _ & _ & Ha & _ & _ & _ & _ & _ & _); [vm_compute; reflexivity|left|].
  injection H as <- <-. eexists. split_and!; [| |exact Ha]; reflexivity.
Defined.
Lemma sweeps_authorised_witness : exists l0 nonce, [Consumed [1]; Drained "bcrt1q" [1]; Consumed [2]] = l0 ++ [Consumed nonce] /\
  sweep_authorised AuthSample.digest AuthSample.recover OPERATOR_OWNERS Dev Regtest "bcrt1q" nonce.
Proof.
  destruct (sweeps_authorised AuthSample.digest AuthSample.recover AuthSample.bundle OPERATOR_OWNERS Dev Regtest
    [([1], AuthSample.env); ([1], AuthSample.env); ([2], AuthSample.env)] ∅ [Consumed [1]; Drained "bcrt1q" [1]; Consumed [2]] "bcrt1q" [1] [])
    as (l0 & nonce & H & Ha & _ & _); [repeat constructor|vm_compute; reflexivity|]. exists l0, nonce. split; [exact H|exact Ha].
Defined.
(** The confirmation of a nonce reads that it is used, not by whom: with a receipt that lies, an
    authorisation that was used up empties the wallet once more. *)
Lemma lying_receipt_replays :
  (sweeps AuthSample.digest AuthSample.recover AuthSample.bundle OPERATOR_OWNERS Dev Regtest [([1], AuthSample.env); ([1], AuthSample.lying_env)] (∅, [])).2 =
  [Consumed [1]; Drained "bcrt1q" [1]; Consumed [1]; Drained "bcrt1q" [2]].
Proof. vm_compute. reflexivity. Qed.
