(* ===== verification/Exit.v ===== *)
(** * Exit: the pre-signed way out of a channel

    [quid-ln/quid-ln/src/deadman_exit.rs]: the transaction that returns a channel to its owner
    after a deadline, and its signature by both halves; [build_exit_arming] and
    [build_exit_call] of [quid-bridge/src/deadman_exit.rs]: its arming on the contract.

    The two halves are signers of [Signer], freshly derived.  The sighash, the aggregation of
    partial signatures and the consensus encoding of a transaction are a class. *)
From Stdlib Require Import String.
From stdpp Require Import base list strings gmap.
From S2P Require Import Prelude Pool Chain Abi Signer Spv Transport Client Store SwapIn Funding Hex Enclave.
Open Scope list_scope.

Inductive DeadManExitError := ErrSigner | ErrSighash | ErrAggregate | ErrValue.
Definition DEAD_MAN_ANCHOR_SATS : Z := 240.
Definition DEAD_MAN_FEE_SATS : Z := 2000.
Definition DEAD_MAN_DELTA_BLOCKS : Z := 144.

Class ExitLib {X : Musig} := {
  (** the key-path sighash of input 0 over all previous outputs *)
  key_spend_sighash : BtcTx -> list BtcOut -> option (list Z);
  scalar_zero : Scalar;
  (** [aggregate_partial_signatures] under the sum of two public nonces *)
  aggregate_partials : KeyAgg -> list Z -> list Z -> list Scalar -> list Z -> option (list Z);
  serialize_tx : BtcTx -> list Z;
  deserialize_tx : list Z -> option BtcTx;
  (** [XOnlyPublicKey::from_slice] *)
  xonly_parses : list Z -> bool }.
Class ExitLibLaws {X : Musig} (E : ExitLib) := {
  tx_back tx : deserialize_tx (serialize_tx tx) = Some tx;
  tx_bytes tx : Forall byte_ok (serialize_tx tx) }.

Definition keypath_p2tr_spk (xonly : list Z) : list Z := 81 :: 32 :: xonly.
Definition deadman_anchor_spk : list Z := [81; 2; 78; 115].
Definition exit_input (op : OutPoint) : BtcIn := mkIn op ENABLE_LOCKTIME_NO_RBF [].
Definition build_deadman_exit_tx (funding : OutPoint) (output_sats : Z) (recipient : list Z) (cltv : LockTime) (freshness : option OutPoint) : BtcTx :=
  mkBtcTx 2 cltv (exit_input funding :: match freshness with Some f => [exit_input f] | None => [] end)
    [mkOut output_sats (keypath_p2tr_spk recipient); mkOut DEAD_MAN_ANCHOR_SATS deadman_anchor_spk].

Section Presign.
Context {X : Musig} {E : ExitLib}.

Definition deadman_exit_sighash (tx : BtcTx) (value : Z) (spk : list Z) (freshness : option BtcOut) : res DeadManExitError (list Z) :=
  let prevouts := mkOut value spk :: match freshness with Some f => [f] | None => [] end in
  _ ← Enclave.ensure (length prevouts =? length (btc_input tx))%nat ErrSighash;
  expect ErrSighash (key_spend_sighash tx prevouts).
Definition finalize_exit_tx (tx : BtcTx) (sig : list Z) : list Z := serialize_tx (with_witness tx [sig]).
Definition aggregate_key_path_partials (ka : KeyAgg) (message : list Z) (our : nat) (our_nonce : list Z) (our_partial : Scalar)
    (cp : nat) (cp_nonce : list Z) (cp_partial : Scalar) : option (list Z) :=
  aggregate_partials ka our_nonce cp_nonce (<[cp := cp_partial]> (<[our := our_partial]> [scalar_zero; scalar_zero])) message.

(** The two signers with what they wrap. *)
Definition presign_deadman_exit (Hop_ Vault_ : Inner) (hop vault : Signer) (funding : OutPoint) (checkpoint_sats fee_sats : Z) (recipient : list Z)
    (cltv : LockTime) (height : Z) (freshness : option (OutPoint * BtcOut)) : res DeadManExitError (list Z) :=
  '(ka, hop_index, vault_index, value, spk) ← expect ErrSigner (taproot_key_agg (I := Hop_) hop);
  output_sats ← expect ErrValue (v ← amount_sub checkpoint_sats fee_sats; amount_sub v DEAD_MAN_ANCHOR_SATS);
  let tx := build_deadman_exit_tx funding output_sats recipient cltv (fst <$> freshness) in
  message ← deadman_exit_sighash tx value spk (snd <$> freshness);
  hop_nonce ← expect ErrSigner (deadman_exit_pubnonce (I := Hop_) height message hop);
  vault_nonce ← expect ErrSigner (deadman_exit_pubnonce (I := Vault_) height message vault);
  hop_signed ← expect ErrSigner (deadman_exit_partial (I := Hop_) vault_nonce height message hop).2;
  vault_signed ← expect ErrSigner (deadman_exit_partial (I := Vault_) hop_nonce height message vault).2;
  sig ← expect ErrAggregate (aggregate_key_path_partials ka message hop_index (sg_pubnonce hop_signed) (sg_partial hop_signed)
          vault_index (sg_pubnonce vault_signed) (sg_partial vault_signed));
  mret (finalize_exit_tx tx sig).

(** ** Arming *)

(** A node as the exit sees it: its monitors, the key id and the splice parent of each, what
    its signers wrap, the script they close to, and the comparand they are given. *)
Record ExitNode := mkExitNode {
  e_view : NodeView; e_keys_id : list Z -> list Z; e_parent : list Z -> option (list Z);
  e_inner : list Z -> Inner; e_script : list Z; e_truth : option (Z * FundingRole); e_chain : Truth * Truth }.
(** [derive_taproot_channel_signer] with [attach_truth]. *)
Definition derive_taproot_channel_signer (n : ExitNode) : Signer :=
  match e_truth n with Some (id, role) => (set_truth_source id role (signer_new (e_script n))).1 | None => signer_new (e_script n) end.
Definition arm_signer (n : ExitNode) (keys_id counterparty : list Z) (value : Z) (parent : option (list Z)) : Signer :=
  provide_taproot_context (I := e_inner n keys_id) (e_chain n).1 (e_chain n).2 (mkCtx counterparty value None 0 parent) (derive_taproot_channel_signer n).
Record ArmedExit := mkArmed { ae_exit : ExitArming; ae_hop_half : list Z; ae_vault_half : list Z; ae_paid_to_lp : Z }.
(** [*l.last_mut()? = x] *)
Definition set_last {A} (x : A) (l : list A) : option (list A) := match l with [] => None | _ => Some (removelast l ++ [x]) end.
Definition build_exit_arming (freshness : option (OutPoint * BtcOut)) (hop vault : ExitNode) (ldk_id : list Z) (amount : Z) (recipient : list Z)
    (cltv_height height_counter : Z) : option ArmedExit :=
  vault_mon ← get_monitor (e_view vault) ldk_id;
  hop_mon ← get_monitor (e_view hop) ldk_id;
  let funding := mkOutPoint (n_txo vault_mon).1 (n_txo vault_mon).2 in
  '(_, vault_cp) ← n_keys vault_mon;
  '(_, hop_cp) ← n_keys hop_mon;
  let vault_ckid := e_keys_id vault ldk_id in
  let hop_ckid := e_keys_id hop ldk_id in
  let parent := e_parent vault ldk_id in
  let vault_signer := arm_signer vault vault_ckid vault_cp amount parent in
  let hop_signer := arm_signer hop hop_ckid hop_cp amount parent in
  cltv ← (if cltv_height <? LOCK_TIME_THRESHOLD then Some (Blocks cltv_height) else None);
  recipient ← (if xonly_parses recipient then Some recipient else None);
  raw_tx ← match presign_deadman_exit (e_inner hop hop_ckid) (e_inner vault vault_ckid) hop_signer vault_signer funding amount DEAD_MAN_FEE_SATS recipient cltv
             height_counter freshness with inl l => Some l | inr _ => None end;
  signed ← deserialize_tx raw_tx;
  let inputs := length (btc_input signed) in
  prev_values ← match freshness with Some (_, o) => set_last (out_value o) (replicate inputs 0) | None => Some (replicate inputs 0) end;
  prev_scripts ← match freshness with Some (_, o) => set_last (out_spk o) (replicate inputs []) | None => Some (replicate inputs []) end;
  paid ← amount_sub amount DEAD_MAN_FEE_SATS;
  paid ← amount_sub paid DEAD_MAN_ANCHOR_SATS;
  Some (mkArmed (mkExit prev_values prev_scripts cltv_height paid raw_tx) vault_cp hop_cp paid).
Definition build_exit_call `{L : FundingLib} (keccak256 : list Z -> list Z) (freshness : option (OutPoint * BtcOut)) (hop vault : ExitNode)
    (ldk_id cid : list Z) (amount : Z) (recipient : list Z) (tip height_counter : Z) : option (list Z * Z) :=
  deadline ← (if tip + DEAD_MAN_DELTA_BLOCKS <=? imax u32 then Some (tip + DEAD_MAN_DELTA_BLOCKS) else None);
  armed ← build_exit_arming freshness hop vault ldk_id amount recipient deadline height_counter;
  let '(k0, k1) := sort_funding_pubkeys (ae_hop_half armed) (ae_vault_half armed) in
  let params := mkOpenParams (replicate 32 0) 0 0 k0 k1 (ae_vault_half armed) amount (taproot_funding_aggregate_xonly k0 k1) in
  Some (encode_emit_dead_man_exit keccak256 cid params (ae_exit armed), ae_paid_to_lp armed).
End Presign.

(** ** The signed transaction *)
Section Facts.
Context {X : Musig} {E : ExitLib} {LE : ExitLibLaws E}.

(** What both halves signed: the sighash of this transaction over all its previous outputs,
    each with the nonce the other half published for it. *)
Definition cosigned (Hop_ Vault_ : Inner) (hop vault : Signer) (tx : BtcTx) (freshness : option BtcOut) (height : Z) (sig : list Z) : Prop :=
  exists ka i j value spk message hn vn hs vs,
    taproot_key_agg (I := Hop_) hop = Some (ka, i, j, value, spk) /\
    key_spend_sighash tx (mkOut value spk :: match freshness with Some f => [f] | None => [] end) = Some message /\
    deadman_exit_pubnonce (I := Hop_) height message hop = Some hn /\
    deadman_exit_pubnonce (I := Vault_) height message vault = Some vn /\
    (deadman_exit_partial (I := Hop_) vn height message hop).2 = Some hs /\
    (deadman_exit_partial (I := Vault_) hn height message vault).2 = Some vs /\
    aggregate_key_path_partials ka message i (sg_pubnonce hs) (sg_partial hs) j (sg_pubnonce vs) (sg_partial vs) = Some sig.

Lemma amount_sub2 a b c v : (x ← amount_sub a b; amount_sub x c) = Some v -> v = a - b - c /\ b <= a /\ 0 <= v.
Proof. unfold amount_sub. intros H. destruct (a <? b) eqn:?; cbn in H; [done|]. destruct (_ <? c) eqn:?; [done|]. injection H as <-. lia. Qed.

Lemma presign_spec Hop_ Vault_ hop vault funding amount fee recipient cltv height freshness raw_ :
  presign_deadman_exit Hop_ Vault_ hop vault funding amount fee recipient cltv height freshness = inl raw_ ->
  exists tx sig, tx = build_deadman_exit_tx funding (amount - fee - DEAD_MAN_ANCHOR_SATS) recipient cltv (fst <$> freshness) /\
    0 <= amount - fee - DEAD_MAN_ANCHOR_SATS /\
    cosigned Hop_ Vault_ hop vault tx (snd <$> freshness) height sig /\ raw_ = serialize_tx (with_witness tx [sig]).
Proof.
  unfold presign_deadman_exit. intros H.
  apply res_bind_inl in H as ([[[[ka i] j] value] spk] & Hka%expect_inl & H).
  apply res_bind_inl in H as (v & Hv%expect_inl & H). apply amount_sub2 in Hv as (-> & _ & Hv).
  apply res_bind_inl in H as (message & Hm & H). unfold deadman_exit_sighash in Hm.
  apply res_bind_inl in Hm as (_ & _ & Hm%expect_inl).
  apply res_bind_inl in H as (hn & Hhn%expect_inl & H). apply res_bind_inl in H as (vn & Hvn%expect_inl & H).
  apply res_bind_inl in H as (hs & Hhs%expect_inl & H). apply res_bind_inl in H as (vs & Hvs%expect_inl & H).
  apply res_bind_inl in H as (sig & Hsig%expect_inl & H). injection H as <-.
  eexists _, sig. split; [done|]. split; [done|]. split; [|done]. by exists ka, i, j, value, spk, message, hn, vn, hs, vs.
Qed.

(** What an armed exit is, for a channel whose live outpoint is [funding]. *)
Record exit_for (a : ArmedExit) (funding : list Z * Z) (freshness : option (OutPoint * BtcOut)) (amount : Z) (recipient : list Z) (cltv : Z)
    (sig : list Z) : Prop := {
  ef_bytes : signed_exit_tx (ae_exit a) =
    serialize_tx (with_witness (build_deadman_exit_tx (mkOutPoint funding.1 funding.2) (ae_paid_to_lp a) recipient (Blocks cltv) (fst <$> freshness)) [sig]);
  ef_deadline : cltv_deadline (ae_exit a) = cltv /\ cltv < LOCK_TIME_THRESHOLD;
  ef_value : checkpoint_sats (ae_exit a) = ae_paid_to_lp a /\ 0 <= ae_paid_to_lp a /\
    ae_paid_to_lp a + DEAD_MAN_ANCHOR_SATS + DEAD_MAN_FEE_SATS = amount;
  ef_prevouts : let n := match freshness with Some _ => 2%nat | None => 1%nat end in
    length (prev_values (ae_exit a)) = n /\ length (prev_scripts (ae_exit a)) = n /\
    forall f, freshness = Some f -> last (prev_values (ae_exit a)) = Some (out_value f.2) /\ last (prev_scripts (ae_exit a)) = Some (out_spk f.2) }.

Lemma exit_arming_spec freshness hop vault id amount recipient cltv k a :
  build_exit_arming freshness hop vault id amount recipient cltv k = Some a ->
  exists vm hm hh vv sig, get_monitor (e_view vault) id = Some vm /\ get_monitor (e_view hop) id = Some hm /\
    n_keys vm = Some (vv, ae_hop_half a) /\ n_keys hm = Some (hh, ae_vault_half a) /\
    exit_for a (n_txo vm) freshness amount recipient cltv sig /\
    cosigned (e_inner hop (e_keys_id hop id)) (e_inner vault (e_keys_id vault id))
      (arm_signer hop (e_keys_id hop id) (ae_vault_half a) amount (e_parent vault id))
      (arm_signer vault (e_keys_id vault id) (ae_hop_half a) amount (e_parent vault id))
      (build_deadman_exit_tx (mkOutPoint (n_txo vm).1 (n_txo vm).2) (ae_paid_to_lp a) recipient (Blocks cltv) (fst <$> freshness))
      (snd <$> freshness) k sig.
Proof.
  unfold build_exit_arming. intros H.
  apply bind_Some in H as (vm & Hvm & H). apply bind_Some in H as (hm & Hhm & H).
  apply bind_Some in H as ([vv vcp] & Hvk & H). apply bind_Some in H as ([hh hcp] & Hhk & H).
  destruct (cltv <? LOCK_TIME_THRESHOLD) eqn:Ec; cbn in H; [|done]. apply Z.ltb_lt in Ec.
  destruct (xonly_parses recipient); cbn in H; [|done].
  destruct (presign_deadman_exit _ _ _ _ _ _ _ _ _ _ _) as [raw_|] eqn:Ep; cbn in H; [|done].
  apply presign_spec in Ep as (tx & sig & -> & Hv & Hs & ->). rewrite tx_back in H. cbn [mbind option_bind] in H.
  apply bind_Some in H as (vals & Hvals & H). apply bind_Some in H as (scripts & Hscripts & H).
  apply bind_Some in H as (p1 & Hp1 & H). apply bind_Some in H as (p2 & Hp2 & H). injection H as <-.
  assert (p2 = amount - DEAD_MAN_FEE_SATS - DEAD_MAN_ANCHOR_SATS) as ->.
  { apply (amount_sub2 amount DEAD_MAN_FEE_SATS DEAD_MAN_ANCHOR_SATS). by rewrite Hp1. }
  exists vm, hm, hh, vv, sig. do 4 (split; [done|]). split; [|done]. constructor; cbn.
  - done.
  - done.
  - unfold DEAD_MAN_FEE_SATS, DEAD_MAN_ANCHOR_SATS in *. lia.
  - destruct freshness as [[op o]|]; cbn in *; injection Hvals as <-; injection Hscripts as <-; repeat split; by simplify_eq.
Qed.

(** The second input of a bound exit carries no witness: only the first is ever signed. *)
Lemma freshness_input_unsigned f hop vault id amount recipient cltv k a :
  build_exit_arming (Some f) hop vault id amount recipient cltv k = Some a ->
  exists tx i, deserialize_tx (signed_exit_tx (ae_exit a)) = Some tx /\ btc_input tx !! 1%nat = Some i /\
    previous_output i = f.1 /\ in_witness i = [].
Proof.
  intros (vm & hm & hh & vv & sig & _ & _ & _ & _ & Hx & _)%exit_arming_spec. destruct Hx as [Hb _ _ _].
  eexists _, _. rewrite Hb, tx_back. split; [done|]. by cbn.
Qed.
End Facts.

(** ** A concrete library

    Keys are single bytes, a signature is the message with the length of the nonces, and a
    transaction is the bits of a number that codes it. *)
Module ExitSample.
#[local] Existing Instances toy_musig toy_inner.
Definition inner_of (k : Z) : Inner := {|
  funding_pubkey := fun _ => [k]; funding_seckey := funding_seckey; commitment_seed := [k];
  keyspend_sighash := keyspend_sighash; splice_sighash := splice_sighash; htlc_sigs := htlc_sigs; inner_secret := inner_secret;
  inner_validate := inner_validate; inner_sign_holder := inner_sign_holder; inner_sign_counterparty := inner_sign_counterparty;
  inner_sign_closing := inner_sign_closing; inner_sign_htlc := inner_sign_htlc;
  inner_sign_splice := inner_sign_splice |}.

Definition of_lock (l : LockTime) : bool * Z := match l with Blocks h => (true, h) | Seconds t => (false, t) end.
Definition to_lock (p : bool * Z) : LockTime := if p.1 then Blocks p.2 else Seconds p.2.
Definition of_in (i : BtcIn) : list Z * Z * Z * list (list Z) := (op_txid (previous_output i), op_vout (previous_output i), in_sequence i, in_witness i).
Definition to_in (p : list Z * Z * Z * list (list Z)) : BtcIn := let '(t, v, s, w) := p in mkIn (mkOutPoint t v) s w.
Definition of_out (o : BtcOut) : Z * list Z := (out_value o, out_spk o).
Definition to_out (p : Z * list Z) : BtcOut := mkOut p.1 p.2.
Definition of_tx (t : BtcTx) := (btc_version t, of_lock (btc_lock_time t), of_in <$> btc_input t, of_out <$> btc_output t).
Definition to_tx (p : Z * (bool * Z) * list (list Z * Z * Z * list (list Z)) * list (Z * list Z)) : BtcTx :=
  let '(v, l, i, o) := p in mkBtcTx v (to_lock l) (to_in <$> i) (to_out <$> o).
Lemma to_of_tx t : to_tx (of_tx t) = t.
Proof.
  destruct t as [v l i o]. cbn. f_equal; [by destruct l|..]; rewrite <- list_fmap_compose; [induction i as [|[[] ? ?] i IH]|induction o as [|[] o IH]]; cbn; by rewrite ?IH.
Qed.
Fixpoint bits (p : positive) : list Z := match p with xH => [] | xO p => 0 :: bits p | xI p => 1 :: bits p end.
Fixpoint unbits (l : list Z) : positive := match l with [] => xH | b :: l => if b =? 0 then xO (unbits l) else xI (unbits l) end.
Lemma unbits_bits p : unbits (bits p) = p.
Proof. induction p as [p IH|p IH|]; cbn; by rewrite ?IH. Qed.
Lemma bits_ok p : Forall byte_ok (bits p).
Proof. unfold byte_ok. induction p; cbn; constructor; try done; lia. Qed.

#[export] Instance lib : ExitLib := {|
  key_spend_sighash := fun tx prevouts => Some [Z.of_nat (length (btc_input tx)); sumZ out_value prevouts];
  scalar_zero := tt;
  aggregate_partials := fun _ a b _ m => Some (m ++ [Z.of_nat (length (a ++ b))]);
  serialize_tx := fun t => bits (countable.encode (of_tx t));
  deserialize_tx := fun l => to_tx <$> countable.decode (unbits l);
  xonly_parses := fun _ => true |}.
#[export] Instance lib_laws : ExitLibLaws lib.
Proof.
  constructor; cbn [serialize_tx deserialize_tx lib]; intros tx; [|apply bits_ok].
  rewrite unbits_bits, countable.decode_encode. cbn [fmap option_fmap option_map]. by rewrite to_of_tx.
Qed.

(** One channel between the hop, whose keys are threes, and the vault, whose keys are fours. *)
Definition half (mine theirs : Z) : ExitNode :=
  mkExitNode (mkNodeView [] [mkLdkMonitor [1] [2] ([6], 1) ([6], 1) (Some ([mine], [theirs])) (Some ([mine], [theirs])) []])
    (fun _ => [mine]) (fun _ => None) (fun _ => inner_of mine) [] (Some (1, Lp)) (w_known, w_known).
Definition hop : ExitNode := half 3 4.
Definition vault : ExitNode := half 4 3.
Definition recipient : list Z := [7].
Definition fresh : OutPoint * BtcOut := (mkOutPoint [8] 0, mkOut 900 [0; 20; 9]).
Definition armed (freshness : option (OutPoint * BtcOut)) : option ArmedExit := build_exit_arming freshness hop vault [1] 50000 recipient 800144 1.
End ExitSample.

#[local] Existing Instances toy_musig ExitSample.lib.
Lemma exit_armed : (ae_paid_to_lp <$> ExitSample.armed None) = Some 47760 /\ is_Some (ExitSample.armed (Some ExitSample.fresh)).
Proof. split; [by vm_compute|]. apply is_Some_alt. by vm_compute. Qed.
