(* ===== verification/Recovery.v ===== *)
(** * Recovery: publishing an exit without a key

    [quid-ln/quid-bridge/src/recovery_broadcast.rs]: the last exit of a channel is read from
    the log of the contract and posted to the Bitcoin network once its deadline has passed; a
    watchtower does so for every channel that ever had one.

    The network answers the n-th request with a function of [n]: an endpoint that fails or
    does not parse answers [None].  The state counts requests and records every transaction
    handed to the network.  Text is ASCII. *)
From Stdlib Require Import String Ascii Sorted.
From stdpp Require Import base list strings pretty gmap.
From S2P Require Import Prelude Pool Chain Abi Signer Transport Client Store SwapIn Funding SwapOut Hex Enclave Seed Exit.
Open Scope list_scope.

Definition EVENT_SIGNATURE : string := "DeadManExitEmitted(bytes32,address,uint64,uint256,bytes)".
Record RecoveredExit := mkRecovered { re_cltv_deadline : Z; re_checkpoint_sats : Z; re_signed_exit_tx : list Z; re_block : Z }.
Inductive RecoverOutcome := NoExit | NotMatured (tip deadline : Z) | StaleArming (outpoint : string) | Broadcasted (txid : string).

(** ** The data of a log *)
Definition strip0x (s : string) : string :=
  match s with
  | String "0" (String "x" r) => r
  | String "0" (String "X" r) => r
  | _ => s
  end.
(** [hex::decode], which drops one more prefix. *)
Definition drop0x (s : string) : string := match s with String "0" (String "x" r) => r | _ => s end.
Definition hex_decode_prefixed (s : string) : option (list Z) := hex_decode (drop0x s).
Definition event_word_u64 (word : list Z) : Z := from_be_bytes (take 8 (drop 24 word)).
Definition event_word_u128 (word : list Z) : Z := from_be_bytes (take 16 (drop 16 word)).
Definition decode_event_data (data : list Z) (block : Z) : res string RecoveredExit :=
  _ ← Enclave.ensure (96 <=? length data)%nat "event data too short"%string;
  let cltv_deadline := event_word_u64 (take 32 data) in
  let checkpoint_sats := event_word_u128 (take 32 (drop 32 data)) in
  let offset := event_word_u64 (take 32 (drop 64 data)) in
  len_at ← expect "bytes offset out of range"%string (e ← checked_add offset 32; if e <=? Z.of_nat (length data) then Some e else None);
  let len := event_word_u64 (take 32 (drop (Z.to_nat offset) data)) in
  end_ ← expect "bytes length out of range"%string (e ← checked_add len_at len; if e <=? Z.of_nat (length data) then Some e else None);
  mret (mkRecovered cltv_deadline checkpoint_sats (take (Z.to_nat (end_ - len_at)) (drop (Z.to_nat len_at) data)) block).

Definition as_bool (v : Value) : option bool := match v with Bool b => Some b | _ => None end.
(** What the answer to [eth_getLogs] holds: its last entry, decoded. *)
Definition latest_of (logs : Value) : res string (option RecoveredExit) :=
  arr ← expect "eth_getLogs: not an array"%string (as_array logs);
  match last arr with
  | None => mret None
  | Some l =>
      data_hex ← expect "log: no data"%string (d ← get_key l "data"; as_str d);
      data ← expect "log data hex"%string (hex_decode_prefixed (strip0x data_hex));
      let block := default 0 (b ← get_key l "blockNumber"; s ← as_str b; from_str_radix16 (imax u64) (strip0x s)) in
      e ← decode_event_data data block; mret (Some e)
  end.
Definition channel_id_from_log (log : Value) : option (list Z) :=
  ts ← get_key log "topics"; ts ← as_array ts; t1 ← ts !! 1%nat; t1 ← as_str t1;
  bytes ← hex_decode_prefixed (strip0x t1);
  if (length bytes =? 32)%nat then Some bytes else None.
(** [BTreeSet::insert], on ids in the order of their bytes. *)
Fixpoint btree_insert (id : list Z) (l : list (list Z)) : list (list Z) :=
  match l with
  | [] => [id]
  | x :: r => if bool_decide (id = x) then l else if bytes_le id x then id :: l else x :: btree_insert id r
  end.

(** [parse::<u32>] *)
Fixpoint digits_u32 (s : string) (acc : Z) : option Z :=
  match s with
  | EmptyString => Some acc
  | String c r =>
      let d := Z.of_nat (Ascii.nat_of_ascii c) - 48 in
      if (0 <=? d) && (d <=? 9) && (acc * 10 + d <=? imax u32) then digits_u32 r (acc * 10 + d) else None
  end.
Definition parse_u32 (s : string) : option Z :=
  let s := match s with String "+" r => r | _ => s end in
  match s with EmptyString => None | _ => digits_u32 s 0 end.

(** ** The network *)
Record Public := mkPublic {
  (** the body of the answer *)
  p_rpc : nat -> string -> Value -> option Value;
  p_tip : nat -> option string;
  p_outspend : nat -> OutPoint -> option Value;
  p_post : nat -> list Z -> option string }.
Record RState := mkRState { requests : nat; posted : list (list Z) }.
Definition RM (A : Type) : Type := RState -> RState * (A + string).
#[export] Instance RM_ret : MRet RM := fun A a w => (w, inl a).
#[export] Instance RM_bind : MBind RM := fun A B f m w =>
  let '(w, r) := m w in match r with inl a => f a w | inr e => (w, inr e) end.
Definition of_res {A} (r : res string A) : RM A := fun w => (w, r).
Definition ask_net {A} (f : nat -> A) : RM A := fun w => (mkRState (S (requests w)) (posted w), inl (f (requests w))).
Definition post (tx : list Z) : RM unit := fun w => (mkRState (requests w) (posted w ++ [tx]), inl tt).

Lemma rm_ask {A B} (f : nat -> A) (g : A -> RM B) k l : (ask_net f ≫= g) (mkRState k l) = g (f k) (mkRState (S k) l).
Proof. reflexivity. Qed.
Lemma rm_res {A B} (r : res string A) (g : A -> RM B) w : (of_res r ≫= g) w = match r with inl a => g a w | inr e => (w, inr e) end.
Proof. reflexivity. Qed.
Lemma rm_step {A B} (m : RM A) (g : A -> RM B) w w' a : m w = (w', inl a) -> (m ≫= g) w = g a w'.
Proof. unfold mbind, RM_bind. by intros ->. Qed.
Lemma rm_assoc {A B C} (m : RM A) (f : A -> RM B) (g : B -> RM C) w : ((m ≫= f) ≫= g) w = (m ≫= fun a => f a ≫= g) w.
Proof. unfold mbind, RM_bind. destruct (m w) as [w' [a|e]]; done. Qed.

Section Recover.
Context `{T : Text} {X : Musig} {E : ExitLib}.
Variable keccak256 : list Z -> list Z.
Variable net : Public.
Variable btc_channels : string.

Definition event_topic0 : list Z := keccak256 (str_bytes EVENT_SIGNATURE).
(** A member [error] is a failure whatever it holds. *)
Definition answered (resp : option Value) : res string Value :=
  v ← expect "request"%string resp;
  match get_key v "error" with
  | Some _ => fail "rpc error"%string
  | None => expect "no result"%string (get_key v "result")
  end.
Definition rpc_call (method : string) (params : Value) : RM Value :=
  resp ← ask_net (fun k => p_rpc net k method params); of_res (answered resp).
Definition log_filter (topics : list (list Z)) : Value :=
  Array [Object [("address"%string, Str btc_channels); ("fromBlock"%string, Str "0x0"); ("toBlock"%string, Str "latest");
                 ("topics"%string, Array (Str ∘ hex_data <$> topics))]].
Definition latest_exit (channel_id : list Z) : RM (option RecoveredExit) :=
  logs ← rpc_call "eth_getLogs" (log_filter [event_topic0; channel_id]); of_res (latest_of logs).
Definition tip_of (text : option string) : res string Z :=
  t ← expect "esplora tip height"%string text; expect "parse tip height"%string (parse_u32 (trim t)).
Definition bitcoin_tip_height : RM Z := t ← ask_net (p_tip net); of_res (tip_of t).
Definition show_outpoint (op : OutPoint) : string := (show_txid (op_txid op) ++ ":" ++ pretty (op_vout op))%string.
Definition reported_spent (answer : option Value) : bool := default false (v ← answer; s ← get_key v "spent"; as_bool s).
Fixpoint first_spent_of (ins : list BtcIn) : RM (option string) :=
  match ins with
  | [] => mret None
  | i :: ins =>
      a ← ask_net (fun k => p_outspend net k (previous_output i));
      if reported_spent a then mret (Some (show_outpoint (previous_output i))) else first_spent_of ins
  end.
Definition first_spent_input (raw_tx : list Z) : RM (option string) :=
  match deserialize_tx raw_tx with Some tx => first_spent_of (btc_input tx) | None => mret None end.
Definition broadcast_raw_tx (raw_tx : list Z) : RM string :=
  _ ← post raw_tx;
  a ← ask_net (fun k => p_post net k raw_tx);
  t ← of_res (expect "esplora broadcast"%string a); mret (trim t).
Definition recover_and_broadcast (channel_id : list Z) (force : bool) : RM RecoverOutcome :=
  e ← latest_exit channel_id;
  match e with
  | None => mret NoExit
  | Some e =>
      s ← first_spent_input (re_signed_exit_tx e);
      match s with
      | Some outpoint => mret (StaleArming outpoint)
      | None =>
          tip ← bitcoin_tip_height;
          if negb force && (tip <? re_cltv_deadline e) then mret (NotMatured tip (re_cltv_deadline e)) else
          txid ← broadcast_raw_tx (re_signed_exit_tx e);
          mret (Broadcasted txid)
      end
  end.
Definition ids_of (logs : Value) : res string (list (list Z)) :=
  arr ← expect "eth_getLogs: not an array"%string (as_array logs);
  mret (foldl (fun seen log => match channel_id_from_log log with Some id => btree_insert id seen | None => seen end) [] arr).
Definition all_channels_with_exits : RM (list (list Z)) :=
  logs ← rpc_call "eth_getLogs" (log_filter [event_topic0]); of_res (ids_of logs).
Fixpoint watch_each (chs : list (list Z)) : RM (list (list Z * (RecoverOutcome + string))) :=
  match chs with
  | [] => mret []
  | ch :: chs =>
      r ← (fun w => let '(w, r) := recover_and_broadcast ch false w in (w, inl r));
      rest ← watch_each chs;
      mret ((ch, r) :: rest)
  end.
Definition watchtower_tick : RM (list (list Z * (RecoverOutcome + string))) :=
  channels ← all_channels_with_exits; watch_each channels.
End Recover.

(** ** What is read is what was emitted *)
Lemma to_be_pad k n v : 0 <= v < 256 ^ Z.of_nat n -> to_be_bytes (k + n) v = replicate k 0 ++ to_be_bytes n v.
Proof.
  intros Hv. pose proof (be_encode_decode (replicate k 0 ++ to_be_bytes n v)) as H.
  rewrite length_app, length_replicate, to_be_length, from_be_zeros, be_decode_encode in H by done. apply H.
  apply Forall_app. split; [|apply to_be_bytes_ok]. apply Forall_replicate. unfold byte_ok. lia.
Qed.
Lemma event_word_low k n v : (k + n = 32)%nat -> 0 <= v < 256 ^ Z.of_nat n ->
  from_be_bytes (take n (drop k (to_be_bytes 32 v))) = v.
Proof.
  intros Hk Hv. rewrite <- Hk, to_be_pad by done. rewrite drop_app_length' by (by rewrite length_replicate).
  rewrite take_ge by (rewrite to_be_length; lia). by apply be_decode_encode.
Qed.
Lemma word_u64_be n : fits n -> word_u64 n = to_be_bytes 32 (Z.of_nat n).
Proof. intros Hn. unfold fits in Hn. symmetry. apply (to_be_pad 24 8). change (256 ^ Z.of_nat 8) with (2 ^ 64). lia. Qed.

Lemma event_word64 v : 0 <= v < 2 ^ 64 -> event_word_u64 (to_be_bytes 32 v) = v.
Proof. intros. apply event_word_low; [done|]. by change (256 ^ Z.of_nat 8) with (2 ^ 64). Qed.
Lemma event_word128 v : 0 <= v < 2 ^ 128 -> event_word_u128 (to_be_bytes 32 v) = v.
Proof. intros. apply event_word_low; [done|]. by change (256 ^ Z.of_nat 16) with (2 ^ 128). Qed.

Lemma decode_words a b c d tx pad block : length a = 32%nat -> length b = 32%nat -> length c = 32%nat -> length d = 32%nat ->
  event_word_u64 c = 96 -> event_word_u64 d = Z.of_nat (length tx) -> Z.of_nat (length tx) < 2 ^ 32 ->
  decode_event_data (a ++ b ++ c ++ d ++ tx ++ pad) block = inl (mkRecovered (event_word_u64 a) (event_word_u128 b) tx block).
Proof.
  intros La Lb Lc Ld Wc Wd Ht.
  assert (Z.of_nat (length (a ++ b ++ c ++ d ++ tx ++ pad)) = 128 + Z.of_nat (length tx) + Z.of_nat (length pad)) as Hlen
    by (rewrite !length_app; lia).
  unfold decode_event_data. rewrite bind_ensure by (apply Nat.leb_le; lia).
  rewrite (take_app_length' a), (drop_app_length' a), (take_app_length' b) by done.
  assert (drop 64 (a ++ b ++ c ++ d ++ tx ++ pad) = c ++ d ++ tx ++ pad) as ->
    by (rewrite (app_assoc a); apply drop_app_length'; rewrite length_app; lia).
  rewrite (take_app_length' c), Wc by done.
  assert (checked_add 96 32 = Some 128) as -> by done. cbn [mbind option_bind]. rewrite (proj2 (Z.leb_le 128 _)) by lia.
  rewrite (bind_expect _ 128).
  assert (drop (Z.to_nat 96) (a ++ b ++ c ++ d ++ tx ++ pad) = d ++ tx ++ pad) as ->
    by (rewrite (app_assoc a), (app_assoc (a ++ b)); apply drop_app_length'; rewrite !length_app; lia).
  rewrite (take_app_length' d), Wd by done.
  unfold checked_add. rewrite (proj2 (Z.ltb_ge _ _)) by (cbn; lia). cbn [mbind option_bind]. rewrite (proj2 (Z.leb_le _ _)) by lia.
  rewrite bind_expect with (a := 128 + Z.of_nat (length tx)).
  assert (drop (Z.to_nat 128) (a ++ b ++ c ++ d ++ tx ++ pad) = tx ++ pad) as ->
    by (rewrite (app_assoc a), (app_assoc (a ++ b)), (app_assoc ((a ++ b) ++ c)); apply drop_app_length'; rewrite !length_app; lia).
  replace (Z.to_nat _) with (length tx) by lia. by rewrite take_app_length.
Qed.

(** The data the contract emits. *)
Definition event_data (deadline checkpoint : Z) (tx : list Z) : list Z := encode_tuple [Uint deadline; Uint checkpoint; Bytes tx].
Lemma event_data_words deadline checkpoint tx : Z.of_nat (length tx) < 2 ^ 32 -> exists pad,
  event_data deadline checkpoint tx = to_be_bytes 32 deadline ++ to_be_bytes 32 checkpoint ++ to_be_bytes 32 96 ++
    to_be_bytes 32 (Z.of_nat (length tx)) ++ tx ++ pad /\ Forall byte_ok pad.
Proof.
  intros Ht. exists (replicate ((32 - length tx mod 32) mod 32) 0). split; [|apply Forall_replicate; unfold byte_ok; lia].
  unfold event_data, encode_tuple, with_tails, heads_len, encode_bytes.
  cbn [map tuple_loop is_dynamic head_static tail head_len fst snd]. unfold encode_bytes.
  cbn [sum_list foldr Nat.add length app]. rewrite !word_u64_be by (unfold fits; cbn; lia). by rewrite <- !app_assoc.
Qed.
Lemma event_roundtrip deadline checkpoint tx block : 0 <= deadline < 2 ^ 64 -> 0 <= checkpoint < 2 ^ 128 -> Z.of_nat (length tx) < 2 ^ 32 ->
  decode_event_data (event_data deadline checkpoint tx) block = inl (mkRecovered deadline checkpoint tx block).
Proof.
  intros Hd Hc Ht. destruct (event_data_words deadline checkpoint tx Ht) as (pad & -> & _).
  rewrite decode_words by (apply to_be_length || (apply event_word64; lia) || done). by rewrite event_word64, event_word128.
Qed.

(** The text of a log. *)
Lemma drop0x_digits s : all_digits s = true -> drop0x s = s.
Proof.
  destruct s as [|c1 [|c2 s]]; [done|by destruct c1 as [[] [] [] [] [] [] [] []]|]. cbn [all_digits]. unfold drop0x.
  destruct (Ascii.eqb_spec c2 "x"); [subst; cbn; by destruct (digit_value c1)|]. intros _.
  destruct c1 as [[] [] [] [] [] [] [] []]; try done. by destruct c2 as [[] [] [] [] [] [] [] []].
Qed.
Lemma hex_prefixed_data l : Forall byte_ok l -> hex_decode_prefixed (strip0x (hex_data l)) = Some l.
Proof.
  intros Hl. unfold hex_data, hex_decode_prefixed. change (strip0x (_ +:+ ?s)) with s.
  rewrite drop0x_digits by (by apply hex_encode_digits). by apply hex_decode_encode.
Qed.

(** ** What is posted *)
Section RecoverFacts.
Context `{T : Text} {X : Musig} {E : ExitLib}.
Variable keccak256 : list Z -> list Z.
Variable net : Public.
Variable btc_channels : string.
#[local] Abbreviation filter_of topics := (log_filter btc_channels topics).
#[local] Abbreviation topic0 := (event_topic0 keccak256).
#[local] Abbreviation recover := (recover_and_broadcast keccak256 net btc_channels).

Definition inputs_of (raw_tx : list Z) : list BtcIn := default [] (btc_input <$> deserialize_tx raw_tx).
(** From the [k]-th request on, the network shows [e] as the last exit of the channel... *)
Definition shows (k : nat) (ch : list Z) (e : RecoveredExit) : Prop := exists logs,
  answered (p_rpc net k "eth_getLogs" (filter_of [topic0; ch])) = inl logs /\ latest_of logs = inl (Some e).
(** ...reports none of its inputs spent... *)
Definition unspent (k : nat) (raw_tx : list Z) : Prop := forall j i, inputs_of raw_tx !! j = Some i ->
  reported_spent (p_outspend net (S k + j) (previous_output i)) = false.
(** ...and answers a height at which it may be mined. *)
Definition mature (k : nat) (force : bool) (e : RecoveredExit) : Prop := exists tip,
  tip_of (p_tip net (S k + length (inputs_of (re_signed_exit_tx e)))) = inl tip /\ (force = false -> re_cltv_deadline e <= tip).
Definition justified (k : nat) (ch : list Z) (force : bool) (tx : list Z) : Prop := exists e,
  shows k ch e /\ re_signed_exit_tx e = tx /\ unspent k tx /\ mature k force e.

Lemma first_spent_spec ins k l : exists n o, first_spent_of net ins (mkRState k l) = (mkRState n l, inl o) /\
  (o = None -> n = (k + length ins)%nat) /\
  (o = None <-> forall j i, ins !! j = Some i -> reported_spent (p_outspend net (k + j) (previous_output i)) = false).
Proof.
  revert k. induction ins as [|i ins IH]; intros k.
  { exists k, None. split; [done|]. split; [cbn; lia|]. split; [intros _ j i; by rewrite lookup_nil|done]. }
  cbn [first_spent_of]. rewrite rm_ask. destruct (reported_spent (p_outspend net k (previous_output i))) eqn:Es.
  { eexists _, _. split; [done|]. split; [done|]. split; [done|]. intros H. specialize (H 0%nat i eq_refl). rewrite Nat.add_0_r in H. congruence. }
  destruct (IH (S k)) as (n & o & -> & Hn & Ho). exists n, o. split; [done|]. split; [intros H; cbn; apply Hn in H; lia|].
  rewrite Ho. split; intros H.
  - intros [|j] i'; [intros [= <-]; by rewrite Nat.add_0_r|]. rewrite Nat.add_succ_r. apply (H j).
  - intros j i' Hj. specialize (H (S j) i' Hj). by rewrite Nat.add_succ_r in H.
Qed.

Lemma spent_input_spec raw_tx k l : exists n o, first_spent_input net raw_tx (mkRState (S k) l) = (mkRState n l, inl o) /\
  (o = None -> n = (S k + length (inputs_of raw_tx))%nat) /\ (o = None <-> unspent k raw_tx).
Proof.
  unfold first_spent_input, unspent, inputs_of. destruct (deserialize_tx raw_tx) as [tx|]; [apply (first_spent_spec (btc_input tx) (S k) l)|].
  exists (S k), None. split; [done|]. split; [cbn; lia|]. split; [intros _ j i; by destruct j|done].
Qed.

(** The transaction is posted exactly when the network justifies it; nothing else is. *)
Lemma recover_posts ch force k l : exists n r,
  (recover ch force (mkRState k l) = (mkRState n l, r) /\ forall tx, ~ justified k ch force tx) \/
  (exists tx, recover ch force (mkRState k l) = (mkRState n (l ++ [tx]), r) /\ justified k ch force tx).
Proof.
  unfold recover_and_broadcast, latest_exit, rpc_call. rewrite !rm_assoc, rm_ask, rm_res.
  destruct (answered _) as [logs|] eqn:Ea.
  2: { eexists _, _. left. split; [done|]. intros tx (e & (logs & Hl & _) & _). congruence. }
  rewrite rm_res. destruct (latest_of logs) as [[e|]|] eqn:El.
  2,3: eexists _, _; left; split; [done|]; intros tx (e & (logs' & Hl & He) & _); rewrite Ea in Hl; injection Hl as <-; congruence.
  assert (forall e', shows k ch e' -> e' = e) as Hu.
  { intros e' (logs' & Hl & He'). rewrite Ea in Hl. injection Hl as <-. congruence. }
  destruct (spent_input_spec (re_signed_exit_tx e) k l) as (n & o & Hs & Hn & Ho). rewrite (rm_step _ _ _ _ _ Hs).
  destruct o as [op|].
  { eexists _, _. left. split; [done|]. intros tx (e' & ->%Hu & <- & H%Ho & _). done. }
  rewrite (Hn eq_refl). unfold bitcoin_tip_height. rewrite rm_assoc, rm_ask, rm_res.
  destruct (tip_of _) as [tip|] eqn:Et.
  2: { eexists _, _. left. split; [done|]. intros tx (e' & ->%Hu & <- & _ & tip & Ht & _). congruence. }
  destruct (negb force && _) eqn:Em.
  { eexists _, _. left. split; [done|]. intros tx (e' & ->%Hu & <- & _ & tip' & Ht & Hle). rewrite Et in Ht. injection Ht as <-.
    apply andb_true_iff in Em as [->%negb_true_iff Hlt%Z.ltb_lt]. specialize (Hle eq_refl). lia. }
  assert (justified k ch force (re_signed_exit_tx e)) as HJ.
  { exists e. split; [by exists logs|]. split; [done|]. split; [by apply Ho|]. exists tip. split; [done|]. intros ->. cbn in Em. lia. }
  unfold broadcast_raw_tx. rewrite rm_assoc, (rm_step (post _) _ _ (mkRState _ (l ++ [_])) tt), rm_assoc, rm_ask, rm_assoc, rm_res by done.
  destruct (p_post _ _ _); eexists _, _; right; (eexists; split; [done|]); exact HJ.
Qed.

Lemma justified_unique k ch force tx tx' : justified k ch force tx -> justified k ch force tx' -> tx = tx'.
Proof. intros (e & (l & Ha & He) & <- & _) (e' & (l' & Ha' & He') & <- & _). congruence. Qed.
Lemma recover_publishes ch force k l tx : justified k ch force tx -> posted (recover ch force (mkRState k l)).1 = l ++ [tx].
Proof.
  intros HJ. destruct (recover_posts ch force k l) as (n & r & [[_ H]|(tx' & -> & HJ')]); [by destruct (H tx)|].
  by rewrite (justified_unique _ _ _ _ _ HJ HJ').
Qed.
End RecoverFacts.

(** ** The watchtower *)
Lemma bytes_le_trans a b c : bytes_le a b = true -> bytes_le b c = true -> bytes_le a c = true.
Proof.
  revert b c. induction a as [|x a IH]; intros [|y b] [|z c]; try done. cbn.
  destruct (x <? y) eqn:E1, (y <? x) eqn:E2, (y <? z) eqn:E3, (z <? y) eqn:E4, (x <? z) eqn:E5, (z <? x) eqn:E6; try done; try lia.
  apply IH.
Qed.
Definition bytes_lt (a b : list Z) : Prop := bytes_le a b = true /\ a <> b.
Lemma bytes_lt_trans a b c : bytes_lt a b -> bytes_lt b c -> bytes_lt a c.
Proof.
  intros [H1 N1] [H2 N2]. split; [by eapply bytes_le_trans|]. intros ->. by apply N1, bytes_le_antisym.
Qed.
Lemma btree_insert_elem id l x : x ∈ btree_insert id l <-> x = id \/ x ∈ l.
Proof.
  induction l as [|y l IH]; cbn [btree_insert]; [set_solver|].
  case_bool_decide; [set_solver|]. destruct (bytes_le id y); set_solver.
Qed.
Lemma btree_insert_sorted id l : StronglySorted bytes_lt l -> StronglySorted bytes_lt (btree_insert id l).
Proof.
  induction 1 as [|y l Hs IH Hy]; cbn [btree_insert]; [by repeat constructor|].
  case_bool_decide as Hid; [by constructor|]. destruct (bytes_le id y) eqn:Hle.
  - constructor; [by constructor|]. constructor; [done|]. eapply Forall_impl; [exact Hy|]. intros z. by apply bytes_lt_trans.
  - constructor; [done|]. apply Forall_forall. intros z [->|Hz]%btree_insert_elem; [|by eapply Forall_forall in Hy].
    split; [by apply bytes_le_total|done].
Qed.
Lemma sorted_NoDup l : StronglySorted bytes_lt l -> NoDup l.
Proof.
  induction 1 as [|y l _ IH Hy]; constructor; [|done]. intros H. eapply Forall_forall in Hy as [_ Hy]; [|exact H]. done.
Qed.
Lemma ids_of_spec logs ids : ids_of logs = inl ids -> exists arr, as_array logs = Some arr /\ StronglySorted bytes_lt ids /\
  forall id, id ∈ ids <-> exists log, log ∈ arr /\ channel_id_from_log log = Some id.
Proof.
  unfold ids_of. intros H. apply res_bind_inl in H as (arr & Ha%expect_inl & H). injection H as <-. exists arr. split; [done|].
  assert (forall seen, StronglySorted bytes_lt seen ->
    let r := foldl (fun seen log => match channel_id_from_log log with Some id => btree_insert id seen | None => seen end) seen arr in
    StronglySorted bytes_lt r /\ forall id, id ∈ r <-> id ∈ seen \/ exists log, log ∈ arr /\ channel_id_from_log log = Some id) as H.
  { clear. induction arr as [|log arr IH]; intros seen Hs; cbn [foldl]; [split; [done|set_solver]|].
    destruct (channel_id_from_log log) as [id|] eqn:El.
    - destruct (IH (btree_insert id seen)) as [H1 H2]; [by apply btree_insert_sorted|]. split; [done|]. intros x. rewrite H2, btree_insert_elem.
      set_solver.
    - destruct (IH seen Hs) as [H1 H2]. split; [done|]. intros x. rewrite H2. set_solver. }
  destruct (H []) as [H1 H2]; [constructor|]. split; [done|]. intros id. rewrite H2. set_solver.
Qed.

Section Watch.
Context `{T : Text} {X : Musig} {E : ExitLib}.
Variable keccak256 : list Z -> list Z.
Variable net : Public.
Variable btc_channels : string.
#[local] Abbreviation justified := (justified keccak256 net btc_channels).

Lemma watch_each_spec chs k l : exists n txs outs, watch_each keccak256 net btc_channels chs (mkRState k l) = (mkRState n (l ++ txs), inl outs) /\
  outs.*1 = chs /\ Forall (fun tx => exists i ch, ch ∈ chs /\ justified i ch false tx) txs /\
  forall ch, ch ∈ chs -> exists i, forall tx, justified i ch false tx -> tx ∈ txs.
Proof.
  revert k l. induction chs as [|ch chs IH]; intros k l.
  { exists k, [], []. rewrite app_nil_r. split; [done|]. split; [done|]. split; [done|set_solver]. }
  cbn [watch_each].
  destruct (recover_posts keccak256 net btc_channels ch false k l) as (n & r & Hr).
  assert (exists new, recover_and_broadcast keccak256 net btc_channels ch false (mkRState k l) = (mkRState n (l ++ new), r) /\
    Forall (fun tx => justified k ch false tx) new /\ forall tx, justified k ch false tx -> tx ∈ new) as (new & Hrec & Hnew & Hall).
  { destruct Hr as [[Hr Hn]|(tx & Hr & HJ)].
    - exists []. rewrite app_nil_r. split; [done|]. split; [done|]. intros tx HJ. by destruct (Hn tx).
    - exists [tx]. split; [done|]. split; [by constructor|]. intros tx' HJ'. rewrite (justified_unique _ _ _ _ _ _ _ _ HJ' HJ). set_solver. }
  destruct (IH n (l ++ new)) as (n' & txs & outs & Hw & Ho & Hf & Hc).
  exists n', (new ++ txs), ((ch, r) :: outs).
  erewrite rm_step; [|by rewrite Hrec]. erewrite rm_step; [|exact Hw]. rewrite app_assoc. split; [done|]. split; [by cbn; rewrite Ho|]. split.
  - apply Forall_app. split; [|eapply Forall_impl; [exact Hf|]; set_solver].
    eapply Forall_impl; [exact Hnew|]. intros tx HJ. exists k, ch. split; [set_solver|done].
  - intros c [->|Hin]%elem_of_cons; [exists k; set_solver|]. destruct (Hc c Hin) as [i Hi]. exists i. set_solver.
Qed.

Lemma watchtower_spec k l logs ids : answered (p_rpc net k "eth_getLogs" (log_filter btc_channels [event_topic0 keccak256])) = inl logs ->
  ids_of logs = inl ids ->
  exists n txs outs, watchtower_tick keccak256 net btc_channels (mkRState k l) = (mkRState n (l ++ txs), inl outs) /\ outs.*1 = ids /\ NoDup ids /\
    Forall (fun tx => exists i ch, ch ∈ ids /\ justified i ch false tx) txs /\
    forall ch, ch ∈ ids -> exists i, forall tx, justified i ch false tx -> tx ∈ txs.
Proof.
  intros Ha Hi. unfold watchtower_tick, all_channels_with_exits, rpc_call. rewrite !rm_assoc, rm_ask, rm_res, Ha, rm_res, Hi.
  destruct (watch_each_spec ids (S k) l) as (n & txs & outs & Hw & Ho & Hf & Hc). exists n, txs, outs.
  split; [exact Hw|]. split; [done|]. split; [|by split]. apply ids_of_spec in Hi as (arr & _ & Hs & _). by apply sorted_NoDup.
Qed.
End Watch.

(** ** From the arming to the network *)
Section EndToEnd.
Context `{T : Text} {X : Musig} {E : ExitLib} {LE : ExitLibLaws E}.
Variable keccak256 : list Z -> list Z.
Variable net : Public.
Variable btc_channels : string.

(** The log the contract writes for an exit, as an entry of an answer. *)
Definition logs_exit (log : Value) (x : ExitArming) : Prop :=
  get_key log "data" = Some (Str (hex_data (event_data (cltv_deadline x) (checkpoint_sats x) (signed_exit_tx x)))).

Lemma latest_of_exit pre log x : logs_exit log x -> 0 <= cltv_deadline x < 2 ^ 64 -> 0 <= checkpoint_sats x < 2 ^ 128 ->
  Forall byte_ok (signed_exit_tx x) -> Z.of_nat (length (signed_exit_tx x)) < 2 ^ 32 ->
  exists block, latest_of (Array (pre ++ [log])) = inl (Some (mkRecovered (cltv_deadline x) (checkpoint_sats x) (signed_exit_tx x) block)).
Proof.
  intros Hd Hc Hv Hb Hl. unfold latest_of. cbn [as_array]. rewrite bind_expect, last_snoc, Hd. cbn [mbind option_bind as_str]. rewrite bind_expect.
  rewrite hex_prefixed_data.
  2: { destruct (event_data_words (cltv_deadline x) (checkpoint_sats x) _ Hl) as (pad & -> & Hpad). rewrite !Forall_app. split_and!; (apply to_be_bytes_ok || done). }
  rewrite bind_expect, event_roundtrip by done. eexists. done.
Qed.

(** What is posted is what was armed, bound to a freshness output or not. *)
Lemma armed_exit_posted freshness hop vault id ch amount recipient cltv height a pre log k l tip :
  build_exit_arming freshness hop vault id amount recipient cltv height = Some a ->
  0 <= cltv -> amount <= imax u64 -> Z.of_nat (length (signed_exit_tx (ae_exit a))) < 2 ^ 32 ->
  logs_exit log (ae_exit a) ->
  answered (p_rpc net k "eth_getLogs" (log_filter btc_channels [event_topic0 keccak256; ch])) = inl (Array (pre ++ [log])) ->
  unspent net k (signed_exit_tx (ae_exit a)) ->
  tip_of (p_tip net (S k + length (inputs_of (signed_exit_tx (ae_exit a))))) = inl tip -> cltv <= tip ->
  exists m sig, let tx := build_deadman_exit_tx (mkOutPoint (n_txo m).1 (n_txo m).2) (amount - DEAD_MAN_FEE_SATS - DEAD_MAN_ANCHOR_SATS)
                            recipient (Blocks cltv) (fst <$> freshness) in
    get_monitor (e_view vault) id = Some m /\
    posted (recover_and_broadcast keccak256 net btc_channels ch false (mkRState k l)).1 = l ++ [serialize_tx (with_witness tx [sig])] /\
    cosigned (e_inner hop (e_keys_id hop id)) (e_inner vault (e_keys_id vault id))
      (arm_signer hop (e_keys_id hop id) (ae_vault_half a) amount (e_parent vault id))
      (arm_signer vault (e_keys_id vault id) (ae_hop_half a) amount (e_parent vault id)) tx (snd <$> freshness) height sig.
Proof.
  intros Hb Hc Ha Hl Hlog Hans Hun Htip Hle.
  destruct (exit_arming_spec _ _ _ _ _ _ _ _ _ Hb) as (m & _ & _ & _ & sig & Hm & _ & _ & _ & [Hbytes [Hdl Hlt] (Hcp & Hp & Hsum) _] & Hco).
  replace (amount - DEAD_MAN_FEE_SATS - DEAD_MAN_ANCHOR_SATS) with (ae_paid_to_lp a) by lia.
  exists m, sig. split; [done|]. split; [|done]. rewrite <- Hbytes. apply recover_publishes.
  unfold LOCK_TIME_THRESHOLD in Hlt. cbn in Ha. unfold DEAD_MAN_ANCHOR_SATS, DEAD_MAN_FEE_SATS in Hsum.
  destruct (latest_of_exit pre log (ae_exit a) Hlog) as [block Hlatest];
    [lia|lia|rewrite Hbytes; apply tx_bytes|done|].
  eexists. split; [eexists; split; [exact Hans|exact Hlatest]|]. split; [done|]. split; [done|].
  exists tip. cbn [re_signed_exit_tx re_cltv_deadline]. split; [done|]. intros _. lia.
Qed.
(** A bound exit is posted with an input that nobody signed: no node takes it. *)
Lemma bound_exit_posted_unsigned f hop vault id ch amount recipient cltv height a pre log k l tip :
  build_exit_arming (Some f) hop vault id amount recipient cltv height = Some a ->
  0 <= cltv -> amount <= imax u64 -> Z.of_nat (length (signed_exit_tx (ae_exit a))) < 2 ^ 32 ->
  logs_exit log (ae_exit a) ->
  answered (p_rpc net k "eth_getLogs" (log_filter btc_channels [event_topic0 keccak256; ch])) = inl (Array (pre ++ [log])) ->
  unspent net k (signed_exit_tx (ae_exit a)) ->
  tip_of (p_tip net (S k + length (inputs_of (signed_exit_tx (ae_exit a))))) = inl tip -> cltv <= tip ->
  exists tx i, posted (recover_and_broadcast keccak256 net btc_channels ch false (mkRState k l)).1 = l ++ [serialize_tx tx] /\
    btc_input tx !! 1%nat = Some i /\ in_witness i = [].
Proof.
  intros Hb Hc Ha Hl Hlog Hans Hun Htip Hle.
  destruct (armed_exit_posted _ _ _ _ _ _ _ _ _ _ _ _ _ l _ Hb Hc Ha Hl Hlog Hans Hun Htip Hle) as (m & sig & _ & Hp & _).
  eexists _, _. split; [exact Hp|]. by cbn.
Qed.

(** C37: an exit that was armed without a freshness output and logged by the contract can be
    published by anyone: when it is the last entry of the channel's log, its input is not
    reported spent, and the tip has reached its deadline, the recovery posts exactly the bytes
    that were armed.  They are the transaction that spends the live funding output of the
    vault's channel, and nothing else, pays the recipient the amount less fee and anchor,
    carries the deadline as its lock time, and has on every input the witness signed by both
    halves.  (An exit bound to a freshness output is posted too, but unsigned in part:
    [bound_exit_posted_unsigned].) *)
Theorem exit_recoverable hop vault id ch amount recipient cltv height a pre log k l tip :
  build_exit_arming None hop vault id amount recipient cltv height = Some a ->
  0 <= cltv -> amount <= imax u64 -> Z.of_nat (length (signed_exit_tx (ae_exit a))) < 2 ^ 32 ->
  logs_exit log (ae_exit a) ->
  answered (p_rpc net k "eth_getLogs" (log_filter btc_channels [event_topic0 keccak256; ch])) = inl (Array (pre ++ [log])) ->
  unspent net k (signed_exit_tx (ae_exit a)) ->
  tip_of (p_tip net (S k + length (inputs_of (signed_exit_tx (ae_exit a))))) = inl tip -> cltv <= tip ->
  exists m sig, let tx := build_deadman_exit_tx (mkOutPoint (n_txo m).1 (n_txo m).2) (amount - DEAD_MAN_FEE_SATS - DEAD_MAN_ANCHOR_SATS)
                            recipient (Blocks cltv) None in
    get_monitor (e_view vault) id = Some m /\
    posted (recover_and_broadcast keccak256 net btc_channels ch false (mkRState k l)).1 = l ++ [serialize_tx (with_witness tx [sig])] /\
    Forall (fun i => in_witness i = [sig]) (btc_input (with_witness tx [sig])) /\
    cosigned (e_inner hop (e_keys_id hop id)) (e_inner vault (e_keys_id vault id))
      (arm_signer hop (e_keys_id hop id) (ae_vault_half a) amount (e_parent vault id))
      (arm_signer vault (e_keys_id vault id) (ae_hop_half a) amount (e_parent vault id)) tx None height sig.
Proof.
  intros Hb Hc Ha Hl Hlog Hans Hun Htip Hle.
  destruct (armed_exit_posted _ _ _ _ _ _ _ _ _ _ _ _ _ l _ Hb Hc Ha Hl Hlog Hans Hun Htip Hle) as (m & sig & Hm & Hp & Hs).
  exists m, sig. split_and!; [done|exact Hp|by repeat constructor|exact Hs].
Qed.
End EndToEnd.

(** A member [error] that is null is a failure here, and none for the transport of the
    daemon. *)
Lemma null_error_refused v : let resp := Object [("error"%string, Null); ("result"%string, v)] in
  answered (Some resp) = fail "rpc error"%string /\ parse_rpc_response resp = inl v.
Proof. done. Qed.

(** ** A concrete network *)
Module RecoverySample.
#[local] Existing Instances StoreSample.text toy_musig ExitSample.lib.
Definition hash (l : list Z) : list Z := replicate 32 (Z.of_nat (length l) mod 256).
Definition ch : list Z := replicate 32 5.
Definition no_exit : ArmedExit := mkArmed (mkExit [] [] 0 0 []) [] [] 0.
Definition exit_of (freshness : option (OutPoint * BtcOut)) : ArmedExit := default no_exit (ExitSample.armed freshness).
Definition log_of (a : ArmedExit) : Value :=
  Object [("topics"%string, Array [Str (hex_data (event_topic0 hash)); Str (hex_data ch)]);
          ("data"%string, Str (hex_data (event_data (cltv_deadline (ae_exit a)) (checkpoint_sats (ae_exit a)) (signed_exit_tx (ae_exit a)))));
          ("blockNumber"%string, Str "0x10")].
(** A network that holds these logs, at this height, where every transaction is accepted. *)
Definition net (logs : list Value) (tip : string) : Public :=
  mkPublic (fun _ _ _ => Some (Object [("result"%string, Array logs)])) (fun _ => Some tip)
    (fun _ _ => Some (Object [("spent"%string, Bool false)])) (fun _ _ => Some "done"%string).
End RecoverySample.

#[local] Existing Instances StoreSample.text toy_musig ExitSample.lib ExitSample.lib_laws.
(** After its deadline the exit of the sample channel is posted; before, it is not. *)
Lemma exit_recoverable_witness : let log := RecoverySample.log_of (RecoverySample.exit_of None) in
  (exists sig, posted (recover_and_broadcast RecoverySample.hash (RecoverySample.net [log] "800144") "hub" RecoverySample.ch false (mkRState 0 [])).1
    = [serialize_tx (with_witness (build_deadman_exit_tx (mkOutPoint [6] 1) 47760 [7] (Blocks 800144) None) [sig])]) /\
  (recover_and_broadcast RecoverySample.hash (RecoverySample.net [log] "800143") "hub" RecoverySample.ch false (mkRState 0 [])).2
    = inl (NotMatured 800143 800144).
Proof.
  split; [|by vm_compute].
  destruct (exit_recoverable RecoverySample.hash (RecoverySample.net [RecoverySample.log_of (RecoverySample.exit_of None)] "800144") "hub"
    ExitSample.hop ExitSample.vault [1] RecoverySample.ch 50000 ExitSample.recipient 800144 1 (RecoverySample.exit_of None) []
    (RecoverySample.log_of (RecoverySample.exit_of None)) 0 [] 800144) as (m & sig & Hm & Hp & _).
  1, 4, 5, 6, 8: by vm_compute.
  1, 2, 4: by vm_compute.
  - by intros j i.
  - exists sig. vm_compute in Hm. injection Hm as <-. exact Hp.
Defined.
