(* ===== verification/DeadMan.v ===== *)
(** * DeadMan: the heartbeat that keeps the exits of the channels fresh

    [run_deadman_exit_heartbeat] of [quid-ln/quid-bridge/src/deadman_exit.rs]: at each tick a
    spare output of the wallet is designated, every channel whose exit comes near its deadline
    gets a new exit bound to that output, and the output of the previous round is spent.  With
    it the reservation of outputs in [quid-ln/quid-ln/src/wallet.rs] and what
    [quid-ln/quid-hop/src/bump.rs] offers for fee bumps; the outputs are those of [Rebalance].

    A tick is one sequence of requests.  What the node, the wallet and the explorer answer
    during a tick is a record; the output of the previous round can or cannot be spent.  A
    write of the store that fails ends the process, and so the run.  Every tick leaves a record
    of what it did. *)
From Stdlib Require Import String.
From stdpp Require Import base list strings gmap.
From S2P Require Import Prelude Pool Chain Rebalance Abi Signer Spv EvmTx Transport Client Store SwapIn Vault Funding SwapOut Driver Exit.
Open Scope list_scope.

Definition FRESHNESS_SHARD : Z := 0.
Definition REFRESH_MARGIN_BLOCKS : Z := DEAD_MAN_DELTA_BLOCKS / 2.

(** ** The wallet *)
#[export] Instance OutPoint_countable : Countable OutPoint :=
  inj_countable' (fun o => (op_txid o, op_vout o)) (fun p => mkOutPoint p.1 p.2) ltac:(by intros []).
Definition u_outpoint (u : LocalOutput) : OutPoint := mkOutPoint (Rebalance.op_txid u) (Rebalance.op_vout u).
Definition u_txout (u : LocalOutput) : BtcOut := mkOut (Rebalance.out_value u) (script_pubkey u).
Definition is_confirmed (u : LocalOutput) : bool := match confirmation_height u with Some _ => true | None => false end.
Definition reserve_outpoint (op : OutPoint) (r : gset OutPoint) : gset OutPoint := {[op]} ∪ r.
Definition release_outpoint (op : OutPoint) (r : gset OutPoint) : gset OutPoint := r ∖ {[op]}.
Definition spendable (utxos : list LocalOutput) (r : gset OutPoint) : list LocalOutput :=
  spendable_utxos ((fun o => (op_txid o, op_vout o)) <$> base.elements r) utxos.
(** [HopWalletSource::list_confirmed_utxos] *)
Definition list_confirmed_utxos (utxos : list LocalOutput) : list LocalOutput :=
  List.filter (fun u => is_p2tr (script_pubkey u)) (List.filter is_confirmed utxos).
Record WalletView := mkWallet {
  get_utxos : list LocalOutput;
  (** a transaction that returns this output alone to the wallet *)
  spend_outpoint_to_self : OutPoint -> option (list Z) }.
(** [min_by_key]: the first of the smallest. *)
Fixpoint min_by_value (l : list LocalOutput) : option LocalOutput :=
  match l with
  | [] => None
  | u :: l => match min_by_value l with
              | Some v => Some (if out_value (u_txout v) <? out_value (u_txout u) then v else u)
              | None => Some u
              end
  end.

(** ** A tick *)
Record TickEnv `{Musig} := mkTick {
  t_tip : option Z; t_hop : ExitNode; t_vault : ExitNode; t_wallet : option WalletView; t_broadcast : list Z -> bool }.
(** What became of an emission. *)
Inductive Emission := Landed (cid : list Z) (deadline : Z) | NotLanded (cid : list Z).
Record TickRecord := mkRecord {
  tk_tip : Z; tk_previous : option OutPoint; tk_fresh : option OutPoint; tk_events : list Emission; tk_retired : option OutPoint }.
Record HState := mkH {
  h_world : World; h_store : Persisted; h_counter : Z; last_cltv : gmap (list Z) Z; h_reserved : gset OutPoint; h_log : list TickRecord }.
Definition with_h_world (w : World) (st : HState) : HState := mkH w (h_store st) (h_counter st) (last_cltv st) (h_reserved st) (h_log st).

(** No refresh is due while the recorded deadline is further than the margin. *)
Definition not_due (last : gmap (list Z) Z) (cid : list Z) (tip : Z) : bool :=
  match last !! cid with Some d => REFRESH_MARGIN_BLOCKS <? sat u32 (d - tip) | None => false end.

Section Heartbeat.
Context `{T : Text} `{L : FundingLib} {X : Musig} {E : ExitLib}.
Variable rpc : nat -> string -> Value -> Answer.
Variable keccak256 : list Z -> list Z.
Variable address : list Z.
Variable sign : TxFields -> list Z + string.
Variable cfg : BridgeConfig.

Definition on_chain_cid (vault : ExitNode) (ldk_id : list Z) : option (list Z) :=
  m ← get_monitor (e_view vault) ldk_id; onchain_cid_from_monitor keccak256 m.
Definition any_due (vault : ExitNode) (last : gmap (list Z) Z) (tip : Z) : bool :=
  existsb (fun m => match on_chain_cid vault (n_id m) with Some cid => negb (not_due last cid tip) | None => false end) (list_monitors (e_view vault)).
Definition previous_of (s : Persisted) : option OutPoint := '(txid, vout, _) ← freshness_of_shard s FRESHNESS_SHARD; Some (mkOutPoint txid vout).
Definition designate (w : WalletView) (previous : option OutPoint) : option LocalOutput :=
  let utxos := List.filter is_confirmed (get_utxos w) in
  if (length utxos <? 2)%nat then None
  else min_by_value (List.filter (fun u => negb (bool_decide (Some (u_outpoint u) = previous))) utxos).

(** What the contract says of a channel that can have an exit: its amount and its recipient. *)
Definition exit_terms (cid : list Z) : M (option (Z * list Z)) :=
  r ← try_ (read_channel_state rpc keccak256 cfg cid);
  match r with
  | inr _ => mret None
  | inl cs =>
      if negb (cs_status cs =? STATUS_OPEN) then mret None else
      if (imax u64 <? cs_amount_sats cs) || negb (DEAD_MAN_FEE_SATS <? cs_amount_sats cs) then mret None else
      w ← try_ (eth_call_raw rpc keccak256 Store.show_address (btc_channels cfg) "btcRecipientOf(address)" (replicate 12 0 ++ cs_lp_eth cs));
      mret (match w with
            | inl word => if (length word =? 32)%nat && any_nonzero word then Some (cs_amount_sats cs, word) else None
            | inr _ => None
            end)
  end.
(** One channel; the flag says whether every emission so far has landed. *)
Definition heartbeat_one (t : TickEnv) (tip : Z) (freshness : option (OutPoint * BtcOut)) (s : HState * list Emission) (m : LdkMonitor) : HState * list Emission :=
  let '(st, evs) := s in
  match on_chain_cid (t_vault t) (n_id m) with
  | None => s
  | Some cid =>
      let '(w, terms) := exit_terms cid (h_world st) in
      let st := with_h_world w st in
      match terms with
      | inl (Some (amount, recipient)) =>
          if not_due (last_cltv st) cid tip then (st, evs) else
          match build_exit_call keccak256 freshness (t_hop t) (t_vault t) (n_id m) cid amount recipient tip (h_counter st) with
          | None => (st, evs)
          | Some (calldata, _) =>
              let '(w, r) := estimate_gas_and_send rpc address sign cfg calldata (h_world st) in
              match r with
              | inl true =>
                  let deadline := tip + DEAD_MAN_DELTA_BLOCKS in
                  (mkH w (assign_shard cid FRESHNESS_SHARD (h_store st)).1 (h_counter st) (<[cid := deadline]> (last_cltv st)) (h_reserved st) (h_log st),
                   evs ++ [Landed cid deadline])
              | _ => (with_h_world w st, evs ++ [NotLanded cid])
              end
          end
      | _ => (st, evs)
      end
  end.
Definition landed (e : Emission) : bool := match e with Landed _ _ => true | NotLanded _ => false end.
Definition retire (t : TickEnv) (previous : option OutPoint) (fresh : option OutPoint) (all_emitted : bool) : option OutPoint :=
  match previous, t_wallet t, fresh with
  | Some old, Some w, Some new =>
      if all_emitted && negb (bool_decide (new = old)) then
        match spend_outpoint_to_self w old with Some tx => if t_broadcast t tx then Some old else None | None => None end
      else None
  | _, _, _ => None
  end.
Definition heartbeat_tick (st : HState) (t : TickEnv) : HState :=
  let st := mkH (h_world st) (h_store st) (cast u64 (h_counter st + 1)) (last_cltv st) (h_reserved st) (h_log st) in
  match t_tip t with
  | None => st
  | Some tip =>
      if negb (any_due (t_vault t) (last_cltv st) tip) then st else
      let previous := previous_of (h_store st) in
      let pick := w ← t_wallet t; designate w previous in
      let st := match pick with
                | None => st
                | Some u => mkH (h_world st)
                    (set_freshness FRESHNESS_SHARD (op_txid (u_outpoint u)) (op_vout (u_outpoint u)) (out_value (u_txout u)) (h_store st)).1
                    (h_counter st) (last_cltv st) (reserve_outpoint (u_outpoint u) (h_reserved st)) (h_log st)
                end in
      let freshness := (fun u => (u_outpoint u, u_txout u)) <$> pick in
      let '(st, evs) := foldl (heartbeat_one t tip freshness) (st, []) (list_monitors (e_view (t_vault t))) in
      let gone := retire t previous (fst <$> freshness) (forallb landed evs) in
      mkH (h_world st) (h_store st) (h_counter st) (last_cltv st)
        (match gone with Some old => release_outpoint old (h_reserved st) | None => h_reserved st end)
        (h_log st ++ [mkRecord tip previous (fst <$> freshness) evs gone])
  end.
Definition heartbeat_start (w : World) (s : Persisted) : HState := mkH w s 0 ∅ ∅ [].
(** Without a vault in the process the task ends at once. *)
Definition run_deadman_exit_heartbeat (has_vault : bool) (st : HState) (ticks : list TickEnv) : HState :=
  if has_vault then foldl heartbeat_tick st ticks else st.
End Heartbeat.

(** ** What a round of exits is *)
Definition emissions (log : list TickRecord) : list Emission := concat (tk_events <$> log).
(** A later exit of a channel matures at least the margin after an earlier one. *)
Definition spaced (evs : list Emission) : Prop := forall l1 l2 l3 cid d1 d2,
  evs = l1 ++ Landed cid d1 :: l2 ++ Landed cid d2 :: l3 -> d1 + REFRESH_MARGIN_BLOCKS <= d2.
(** An output is spent only when it is the one of the round before, the new round is bound to
    another, and no emission of the new round was reported to fail. *)
Definition sound_round (r : TickRecord) : Prop :=
  (forall old, tk_retired r = Some old -> tk_previous r = Some old /\ (exists new, tk_fresh r = Some new /\ new <> old) /\
     forall cid, NotLanded cid ∉ tk_events r) /\
  (forall cid d, Landed cid d ∈ tk_events r -> d = tk_tip r + DEAD_MAN_DELTA_BLOCKS).
Definition newest (log : list TickRecord) : option OutPoint := last (omap tk_fresh log).

(** Recorded deadlines bound those that landed. *)
Definition covers (last : gmap (list Z) Z) (evs : list Emission) : Prop :=
  forall cid d, Landed cid d ∈ evs -> exists d', last !! cid = Some d' /\ d <= d'.

Lemma reserved_kept utxos r u : u ∈ spendable utxos r -> u_outpoint u ∉ r.
Proof.
  unfold spendable, spendable_utxos. rewrite list_elem_of_filter. intros [H _] Hin. apply H. apply list_elem_of_fmap.
  exists (u_outpoint u). by rewrite elem_of_elements.
Qed.
Lemma spaced_snoc evs e : spaced evs -> (forall cid d, e = Landed cid d -> forall d', Landed cid d' ∈ evs -> d' + REFRESH_MARGIN_BLOCKS <= d) ->
  spaced (evs ++ [e]).
Proof.
  intros Hs He l1 l2 l3 cid d1 d2 H. destruct l3 as [|x l3 _] using rev_ind.
  - assert (evs ++ [e] = (l1 ++ Landed cid d1 :: l2) ++ [Landed cid d2]) as H' by (by rewrite <- app_assoc).
    apply app_inj_tail in H' as [-> ->]. eapply He; [done|]. set_solver.
  - assert (evs ++ [e] = (l1 ++ Landed cid d1 :: l2 ++ Landed cid d2 :: l3) ++ [x]) as H'
      by (rewrite H, <- app_assoc; cbn; by rewrite <- app_assoc).
    apply app_inj_tail in H' as [-> _]. by eapply Hs.
Qed.
Ltac in_blocks := change REFRESH_MARGIN_BLOCKS with 72 in *; change DEAD_MAN_DELTA_BLOCKS with 144 in *.
Lemma due_bound last cid tip d : not_due last cid tip = false -> last !! cid = Some d -> d <= tip + REFRESH_MARGIN_BLOCKS.
Proof.
  unfold not_due. intros H Hd. rewrite Hd in H. apply Z.ltb_ge in H. in_blocks. unfold sat in H. cbn in H. lia.
Qed.
Lemma covers_landed last evs cid tip : covers last evs -> spaced evs -> not_due last cid tip = false ->
  covers (<[cid := tip + DEAD_MAN_DELTA_BLOCKS]> last) (evs ++ [Landed cid (tip + DEAD_MAN_DELTA_BLOCKS)]) /\
  spaced (evs ++ [Landed cid (tip + DEAD_MAN_DELTA_BLOCKS)]).
Proof.
  intros Hc Hs Hd. assert (forall d, Landed cid d ∈ evs -> d <= tip + REFRESH_MARGIN_BLOCKS) as Hb.
  { intros d Hin. destruct (Hc _ _ Hin) as (d' & Hd' & ?). pose proof (due_bound _ _ _ _ Hd Hd'). lia. }
  split.
  - intros c d [Hin|[= -> ->]%list_elem_of_singleton]%elem_of_app; [|exists (tip + DEAD_MAN_DELTA_BLOCKS); by rewrite lookup_insert_eq].
    destruct (decide (c = cid)) as [->|Hne]; [|rewrite lookup_insert_ne by done; by apply Hc].
    eexists. rewrite lookup_insert_eq. split; [done|]. apply Hb in Hin. in_blocks. lia.
  - apply spaced_snoc; [done|]. intros c d [= <- <-] d' Hin%Hb. in_blocks. lia.
Qed.
Lemma covers_other last evs cid : covers last evs -> spaced evs -> covers last (evs ++ [NotLanded cid]) /\ spaced (evs ++ [NotLanded cid]).
Proof. intros Hc Hs. split; [intros c d [Hin|Hin]%elem_of_app; [by apply Hc|set_solver]|by apply spaced_snoc]. Qed.

Section HeartbeatFacts.
Context `{T : Text} `{L : FundingLib} {X : Musig} {E : ExitLib}.
Variable rpc : nat -> string -> Value -> Answer.
Variable keccak256 : list Z -> list Z.
Variable address : list Z.
Variable sign : TxFields -> list Z + string.
Variable cfg : BridgeConfig.
Hypothesis fee_cap : 1 <= cfg_max_fee_per_gas cfg < imax u128.
Hypothesis fee_prio : 0 <= cfg_max_priority_fee_per_gas cfg.
Hypothesis fee_pct : 0 <= fee_bump_pct cfg.
#[local] Abbreviation tick := (heartbeat_tick rpc keccak256 address sign cfg).
#[local] Abbreviation one := (heartbeat_one rpc keccak256 address sign cfg).

(** The call that arms an exit of a channel, for the amount and the recipient the contract
    gave, at the deadline of this tick. *)
Definition arming_call (t : TickEnv) (data : list Z) : Prop :=
  exists tip freshness m cid amount recipient counter a params w,
    t_tip t = Some tip /\ m ∈ list_monitors (e_view (t_vault t)) /\ on_chain_cid keccak256 (t_vault t) (n_id m) = Some cid /\
    (exit_terms rpc keccak256 cfg cid w).2 = inl (Some (amount, recipient)) /\
    build_exit_arming freshness (t_hop t) (t_vault t) (n_id m) amount recipient (tip + DEAD_MAN_DELTA_BLOCKS) counter = Some a /\
    data = encode_emit_dead_man_exit keccak256 cid params (ae_exit a).
Definition sent_by (ticks : list TickEnv) (f : TxFields) : Prop := exists t, t ∈ ticks /\ calls_contract cfg (arming_call t) f.
Definition grows (P : TxFields -> Prop) (st st' : HState) : Prop :=
  exists l, sent_log (h_world st') = sent_log (h_world st) ++ l /\ Forall P l.
Lemma grows_same P st st' : sent_log (h_world st') = sent_log (h_world st) -> grows P st st'.
Proof. intros H. exists []. by rewrite app_nil_r. Qed.
Lemma grows_trans P st1 st2 st3 : grows P st1 st2 -> grows P st2 st3 -> grows P st1 st3.
Proof. intros (l1 & E1 & H1) (l2 & E2 & H2). exists (l1 ++ l2). rewrite E2, E1, app_assoc. split; [done|]. by apply Forall_app. Qed.
Lemma grows_weaken (P Q : TxFields -> Prop) st st' : (forall f, P f -> Q f) -> grows P st st' -> grows Q st st'.
Proof. intros H (l & El & Hl). exists l. split; [done|]. by eapply Forall_impl. Qed.

Lemma quiet_terms cid : quiet (exit_terms rpc keccak256 cfg cid).
Proof.
  unfold exit_terms. apply quiet_bind; [apply quiet_try, quiet_read_state|]. intros [cs|]; [|auto with quiet].
  repeat case_match; auto with quiet. apply quiet_bind; [apply quiet_try, quiet_view|auto with quiet].
Qed.
Lemma exit_call_inv freshness hop vault id cid amount recipient tip counter data paid :
  build_exit_call keccak256 freshness hop vault id cid amount recipient tip counter = Some (data, paid) ->
  exists a params, build_exit_arming freshness hop vault id amount recipient (tip + DEAD_MAN_DELTA_BLOCKS) counter = Some a /\
    data = encode_emit_dead_man_exit keccak256 cid params (ae_exit a).
Proof.
  unfold build_exit_call. destruct (_ <=? _); cbn; [|done]. intros (a & Ha & H)%bind_Some.
  destruct (sort_funding_pubkeys _ _) as [k0 k1]. injection H as <- _. by exists a; eexists.
Qed.

(** The part of the state that a channel's turn keeps, and what it adds. *)
Record turn (t : TickEnv) (tip : Z) (prior : list Emission) (s s' : HState * list Emission) : Prop := {
  tn_log : h_log s'.1 = h_log s.1; tn_reserved : h_reserved s'.1 = h_reserved s.1;
  tn_sent : grows (calls_contract cfg (arming_call t)) s.1 s'.1;
  tn_events : exists new, s'.2 = s.2 ++ new /\ forall cid d, Landed cid d ∈ new -> d = tip + DEAD_MAN_DELTA_BLOCKS;
  tn_spaced : covers (last_cltv s.1) (prior ++ s.2) -> spaced (prior ++ s.2) -> covers (last_cltv s'.1) (prior ++ s'.2) /\ spaced (prior ++ s'.2) }.
Lemma turn_still t tip prior st st' evs : h_log st' = h_log st -> h_reserved st' = h_reserved st -> last_cltv st' = last_cltv st ->
  grows (calls_contract cfg (arming_call t)) st st' -> turn t tip prior (st, evs) (st', evs).
Proof. intros H1 H2 H3 H4. constructor; cbn; try done; [exists []; rewrite app_nil_r; split; [done|set_solver]|by rewrite H3]. Qed.
Lemma turn_trans t tip prior s1 s2 s3 : turn t tip prior s1 s2 -> turn t tip prior s2 s3 -> turn t tip prior s1 s3.
Proof.
  intros [] []. constructor; try congruence; [by eapply grows_trans| |auto].
  - destruct tn_events0 as (n1 & E1 & H1), tn_events1 as (n2 & E2 & H2). exists (n1 ++ n2). rewrite E2, E1, app_assoc. split; [done|]. set_solver.
  - intros Hc Hs. destruct (tn_spaced0 Hc Hs). auto.
Qed.

Lemma one_turn t tip freshness prior s m : t_tip t = Some tip -> m ∈ list_monitors (e_view (t_vault t)) ->
  turn t tip prior s (one t tip freshness s m).
Proof.
  intros Htip Hm. destruct s as [st evs]. unfold heartbeat_one. destruct (on_chain_cid _ _ _) as [cid|] eqn:Ecid; [|by apply turn_still; try apply grows_same].
  pose proof (quiet_terms cid (h_world st)) as Hq. destruct (exit_terms rpc keccak256 cfg cid (h_world st)) as [w terms] eqn:Et. cbn in Hq.
  assert (forall evs, turn t tip prior (st, evs) (with_h_world w st, evs)) as Hstill by (intros; by apply turn_still; try apply grows_same).
  destruct terms as [[[amount recipient]|]|]; [|by apply Hstill..].
  destruct (not_due _ _ _) eqn:Ed; [by apply Hstill|].
  destruct (build_exit_call _ _ _ _ _ _ _ _ _ _) as [[data paid]|] eqn:Eb; [|by apply Hstill].
  apply exit_call_inv in Eb as (a & params & Ha & ->).
  set (data := encode_emit_dead_man_exit keccak256 cid params (ae_exit a)).
  destruct (sends_data rpc address sign cfg fee_cap fee_prio fee_pct data (h_world (with_h_world w st))) as (l & El & Hl).
  assert (forall st', sent_log (h_world st') = sent_log w ++ l -> grows (calls_contract cfg (arming_call t)) st st') as Hg.
  { intros st' H'. exists l. rewrite H', Hq. split; [done|]. eapply Forall_impl; [exact Hl|]. intros f (H1 & H2 & H3). split; [done|]. split; [done|]. rewrite <- H3.
    exists tip, freshness, m, cid, amount, recipient, (h_counter (with_h_world w st)), a, params, (h_world st). rewrite Et. done. }
  destruct (estimate_gas_and_send _ _ _ _ _ _) as [w2 r]. cbn in El.
  destruct r as [[]|]; constructor; cbn; try done; try (by apply Hg).
  1, 3, 5: eexists; split; [done|]; set_solver.
  - intros Hc Hs. rewrite app_assoc. by apply covers_landed.
  - intros Hc Hs. rewrite app_assoc. by apply covers_other.
  - intros Hc Hs. rewrite app_assoc. by apply covers_other.
Qed.

Lemma turns t tip freshness prior ms s : t_tip t = Some tip -> (forall m, m ∈ ms -> m ∈ list_monitors (e_view (t_vault t))) ->
  turn t tip prior s (foldl (one t tip freshness) s ms).
Proof.
  intros Htip. revert s. induction ms as [|m ms IH]; intros [st evs] Hms; cbn [foldl]; [by apply turn_still; try apply grows_same|].
  eapply turn_trans; [apply one_turn; [done|apply Hms, list_elem_of_here]|]. apply IH. intros m' Hm'. by apply Hms, list_elem_of_further.
Qed.

Record kept (st : HState) : Prop := {
  kp_rounds : Forall sound_round (h_log st);
  kp_covers : covers (last_cltv st) (emissions (h_log st));
  kp_spaced : spaced (emissions (h_log st));
  kp_newest : forall op, newest (h_log st) = Some op -> op ∈ h_reserved st }.

Lemma retire_inv t previous fresh all old : retire t previous fresh all = Some old ->
  previous = Some old /\ (exists new, fresh = Some new /\ new <> old) /\ all = true.
Proof.
  unfold retire. destruct previous as [p|], (t_wallet t) as [w|], fresh as [new|]; try done.
  destruct all; cbn [andb]; [|done]. case_bool_decide; cbn [negb]; [done|]. destruct (spend_outpoint_to_self w p); [|done].
  destruct (t_broadcast t l); [|done]. intros [= <-]. split; [done|]. split; [by exists new|done].
Qed.
Lemma all_landed evs cid : forallb landed evs = true -> NotLanded cid ∉ evs.
Proof. intros H Hin. rewrite forallb_forall in H. apply list_elem_of_In in Hin. by apply H in Hin. Qed.
Lemma emissions_snoc log r : emissions (log ++ [r]) = emissions log ++ tk_events r.
Proof. unfold emissions. rewrite fmap_app, concat_app. cbn. by rewrite app_nil_r. Qed.
Lemma newest_snoc log r : newest (log ++ [r]) = match tk_fresh r with Some op => Some op | None => newest log end.
Proof. unfold newest. rewrite omap_app. cbn. destruct (tk_fresh r); [apply last_snoc|by rewrite app_nil_r]. Qed.

Lemma tick_kept st t : kept st -> kept (tick st t) /\ grows (calls_contract cfg (arming_call t)) st (tick st t).
Proof.
  intros [Hr Hc Hs Hn]. unfold heartbeat_tick. destruct (t_tip t) as [tip|] eqn:Et; [|by split; [constructor|apply grows_same]].
  destruct (negb _); [by split; [constructor|apply grows_same]|]. cbn [h_world h_store h_counter last_cltv h_reserved h_log].
  set (previous := previous_of (h_store st)). set (pick := w ← t_wallet t; designate w previous). set (freshness := _ <$> pick).
  set (st1 := match pick with Some u => _ | None => _ end).
  assert (sent_log (h_world st1) = sent_log (h_world st) /\ h_log st1 = h_log st /\ last_cltv st1 = last_cltv st) as (Hw1 & Hl1 & Hc1)
    by (unfold st1; by destruct pick).
  assert (forall op, match fst <$> freshness with Some op => Some op | None => newest (h_log st) end = Some op -> op ∈ h_reserved st1) as Hn1.
  { unfold freshness, st1. destruct pick as [u|]; cbn; [intros op [= <-]; unfold reserve_outpoint; set_solver|done]. }
  pose proof (turns t tip freshness (emissions (h_log st)) (list_monitors (e_view (t_vault t))) (st1, []) Et ltac:(done)) as [Tl Tr Tg (new & Te & Td) Ts].
  destruct (foldl _ _ _) as [st2 evs]. cbn [fst snd] in *. subst evs. rewrite Hc1, app_nil_r in Ts. destruct (Ts Hc Hs) as [Hc2 Hs2].
  split; [|by eapply grows_trans; [by apply grows_same|]].
  set (gone := retire _ _ _ _). constructor; cbn [h_log last_cltv h_reserved]; rewrite Tl, Hl1.
  - apply Forall_app. split; [done|]. constructor; [|done]. split; cbn [tk_retired tk_previous tk_fresh tk_events tk_tip]; [|done].
    intros old (? & ? & ?)%retire_inv. split_and!; [done..|]. intros cid. by apply all_landed.
  - by rewrite emissions_snoc.
  - by rewrite emissions_snoc.
  - intros op Hop. rewrite newest_snoc in Hop. cbn [tk_fresh] in Hop. rewrite Tr. pose proof (Hn1 op Hop) as Hin.
    destruct gone as [old|] eqn:Eg; [|done]. apply retire_inv in Eg as (_ & (n' & Hf & Hne) & _). rewrite Hf in Hop. injection Hop as ->.
    unfold release_outpoint. set_solver.
Qed.

(** C38: whatever ticks the heartbeat runs through, with whatever node, wallet and explorer: it
    spends the output that a round of exits is bound to only in a round that is bound to another
    output and in which no emission was reported to fail.  (That is all: the round need not
    have an emission at all, see [empty_round_retires], nor one for every channel, see
    [new_channel_strands_others].)  The exits of a channel that are reported as landed have
    deadlines that are 144 blocks ahead of the tip and at least 72 blocks apart; the output of
    the newest round stays reserved; and every transaction it sends is a call of the contract
    that arms an exit of a channel of the vault, built and signed by both halves for the amount
    and the recipient the contract has on record. *)
Theorem heartbeat_sound ticks w s :
  let st := run_deadman_exit_heartbeat rpc keccak256 address sign cfg true (heartbeat_start w s) ticks in
  Forall sound_round (h_log st) /\ spaced (emissions (h_log st)) /\ (forall op, newest (h_log st) = Some op -> op ∈ h_reserved st) /\
  exists l, sent_log (h_world st) = sent_log w ++ l /\ Forall (sent_by ticks) l.
Proof.
  cbn [run_deadman_exit_heartbeat].
  assert (kept (heartbeat_start w s)) as H0.
  { constructor; cbn; try done; [|intros [|? ?] ? ? ? ? ?; done]. intros cid d H. by apply elem_of_nil in H. }
  assert (forall st0, kept st0 -> let st := foldl tick st0 ticks in kept st /\ grows (sent_by ticks) st0 st) as H.
  { clear H0. induction ticks as [|t ticks IH]; intros st0 H0; cbn [foldl]; [by split; [|apply grows_same]|].
    destruct (tick_kept st0 t H0) as [H1 G1]. destruct (IH _ H1) as [H2 G2]. split; [done|]. eapply grows_trans; (eapply grows_weaken; [|eassumption]).
    - intros f Hf. exists t. set_solver.
    - intros f (t' & Ht' & Hf). exists t'. set_solver. }
  destruct (H _ H0) as [[] G]. by split_and!.
Qed.
End HeartbeatFacts.

(** ** A concrete fleet *)
Module DeadManSample.
#[local] Existing Instances StoreSample.text SwapOutSample.lib toy_musig ExitSample.lib.
Definition hash : list Z -> list Z := DriverSample.hash.
(** Channels of 50000 satoshis, all open, with a recipient; [ok] says whether a transaction
    that is mined succeeds. *)
Definition truth (ok : bool) (method : string) (params : Value) : Value :=
  if String.eqb method "eth_call" && String.prefix "0x17171717" (SwapOutSample.data_of params) then Str (hex_data (replicate 32 7))
  else if String.eqb method "eth_getTransactionReceipt" && negb ok then
    Object [("status"%string, Str "0x0"); ("blockNumber"%string, Str (fmt_hex 300))]
  else DriverSample.truth 50000 0 method params.
(** Transactions fail when they are sent within these requests. *)
Definition net (from to : nat) : nat -> string -> Value -> Answer := fun n m p => inl (truth (negb ((from <=? n) && (n <? to))%nat) m p).
Definition side (mine theirs : Z) (ids : list Z) : ExitNode :=
  mkExitNode (mkNodeView [] (map (fun n => mkLdkMonitor [n] [2] ([n], 0) (replicate 32 n, 0) (Some ([mine], [theirs])) (Some ([mine], [theirs])) []) ids))
    (fun _ => [mine]) (fun _ => None) (fun _ => ExitSample.inner_of mine) [] None (w_known, w_known).
Definition utxo (n : Z) : LocalOutput := mkOutput (replicate 32 n) 0 (100 * n) (81 :: 32 :: replicate 32 n) (Some 90).
Definition wallet : WalletView := mkWallet [utxo 3; utxo 1; utxo 2] (fun _ => Some [1]).
Definition at_tip (tip : Z) (ids : list Z) : TickEnv := mkTick _ (Some tip) (side 3 4 ids) (side 4 3 ids) (Some wallet) (fun _ => true).
Definition start : HState := heartbeat_start ClientSample.start persisted_default.
Definition run (from to : nat) (ticks : list TickEnv) : HState :=
  run_deadman_exit_heartbeat (net from to) hash [] ClientSample.sign TransportSample.cfg true start ticks.
Definition cid (n : Z) : list Z := Abi.channel_id hash [3] [4] (replicate 32 n) 0.
Definition out (n : Z) : OutPoint := mkOutPoint (replicate 32 n) 0.
End DeadManSample.
#[local] Existing Instances StoreSample.text SwapOutSample.lib toy_musig ExitSample.lib.

Lemma heartbeat_sound_witness :
  let ticks := [DeadManSample.at_tip 100 [5; 6]; DeadManSample.at_tip 101 [5; 6]; DeadManSample.at_tip 172 [5; 6]] in
  let st := DeadManSample.run 0 0 ticks in
  length (emissions (h_log st)) = 4%nat /\ spaced (emissions (h_log st)) /\ newest (h_log st) = Some (DeadManSample.out 2) /\
  DeadManSample.out 2 ∈ h_reserved st /\ tk_retired <$> h_log st = [None; Some (DeadManSample.out 1)].
Proof.
  intros ticks st.
  destruct (heartbeat_sound (DeadManSample.net 0 0) DeadManSample.hash [] ClientSample.sign TransportSample.cfg
    ltac:(vm_compute; split; [discriminate|reflexivity]) ltac:(vm_compute; discriminate) ltac:(vm_compute; discriminate)
    ticks ClientSample.start persisted_default) as (_ & Hs & Hn & _).
  split; [by vm_compute|]. split; [exact Hs|]. split; [by vm_compute|]. split; [apply Hn; by vm_compute|by vm_compute].
Defined.

(** A channel opens while another still has a fresh exit.  Only the new one gets an exit in
    this round; then the output of the round before is spent, and with it the only exit of the
    other channel is void. *)
Lemma new_channel_strands_others :
  let st := DeadManSample.run 0 0 [DeadManSample.at_tip 100 [5]; DeadManSample.at_tip 101 [5; 6]] in
  h_log st = [mkRecord 100 None (Some (DeadManSample.out 1)) [Landed (DeadManSample.cid 5) 244] None;
              mkRecord 101 (Some (DeadManSample.out 1)) (Some (DeadManSample.out 2)) [Landed (DeadManSample.cid 6) 245] (Some (DeadManSample.out 1))].
Proof. by vm_compute. Qed.

(** A round in which every channel is passed over, because it cannot be read or its exit cannot
    be signed, has no failed emission: the output that all exits are bound to is spent, and
    nothing takes their place. *)
Lemma empty_round_retires :
  let unsigned := mkTick _ (Some 180) (DeadManSample.side 3 4 []) (DeadManSample.side 4 3 [5; 6]) (Some DeadManSample.wallet) (fun _ => true) in
  let st := DeadManSample.run 0 0 [DeadManSample.at_tip 100 [5; 6]; unsigned] in
  h_log st = [mkRecord 100 None (Some (DeadManSample.out 1)) [Landed (DeadManSample.cid 5) 244; Landed (DeadManSample.cid 6) 244] None;
              mkRecord 180 (Some (DeadManSample.out 1)) (Some (DeadManSample.out 2)) [] (Some (DeadManSample.out 1))].
Proof. by vm_compute. Qed.

(** A round that fails moves the designation on.  The next round is bound to the output of
    the round before it, which is not spent, and the output in between is. *)
Lemma failed_round_revives_exits :
  let st := DeadManSample.run 7 14 [DeadManSample.at_tip 100 [5]; DeadManSample.at_tip 180 [5]; DeadManSample.at_tip 181 [5]] in
  h_log st = [mkRecord 100 None (Some (DeadManSample.out 1)) [Landed (DeadManSample.cid 5) 244] None;
              mkRecord 180 (Some (DeadManSample.out 1)) (Some (DeadManSample.out 2)) [NotLanded (DeadManSample.cid 5)] None;
              mkRecord 181 (Some (DeadManSample.out 2)) (Some (DeadManSample.out 1)) [Landed (DeadManSample.cid 5) 325] (Some (DeadManSample.out 2))].
Proof. by vm_compute. Qed.

(** The reservation does not survive a restart: the output the exits are bound to is ordinary
    again, until the next round. *)
Lemma restart_unreserves :
  let st := DeadManSample.run 0 0 [DeadManSample.at_tip 100 [5]] in
  let again := heartbeat_start (h_world st) (h_store st) in
  previous_of (h_store again) = Some (DeadManSample.out 1) /\
  map u_outpoint (spendable (get_utxos DeadManSample.wallet) (h_reserved st)) = [DeadManSample.out 3; DeadManSample.out 2] /\
  map u_outpoint (spendable (get_utxos DeadManSample.wallet) (h_reserved again)) = [DeadManSample.out 3; DeadManSample.out 1; DeadManSample.out 2].
Proof. split_and!; by vm_compute. Qed.

(** The handler that bumps fees is offered the reserved output like any other. *)
Lemma bump_offers_reserved : let st := DeadManSample.run 0 0 [DeadManSample.at_tip 100 [5]] in
  newest (h_log st) = Some (DeadManSample.out 1) /\ DeadManSample.out 1 ∈ h_reserved st /\
  DeadManSample.out 1 ∈ u_outpoint <$> list_confirmed_utxos (get_utxos DeadManSample.wallet).
Proof. split_and!; [by vm_compute|by apply (bool_decide_unpack _); vm_compute|by apply (bool_decide_unpack _); vm_compute]. Qed.
