(* ===== verification/Conn.v ===== *)
(** * Conn: one connection to a Lightning peer

    [quid-ln/quid-ln/src/p2p.rs]: the task that owns the socket of a peer, the handle through
    which the peer manager sends data, pauses reads and disconnects, and the dialling of a peer.

    The task and the threads of the peer manager run beside each other.  The task is a machine
    with a program counter, one step for each access to what is shared: the control word, the
    queue, the socket and the calls of the peer manager.  Before its n-th step the peer manager
    does any list of its own atomic operations; the socket, the scheduler and the peer manager
    answer the n-th step with functions of [n].  Assertions of the source are a state of the
    machine.  Four fields only record what happened: the bytes accepted for sending, the bytes
    on the wire, the reads delivered, and whether a refused sender waits to be told. *)
From stdpp Require Import base list.
From S2P Require Import Prelude Pool Chain.
Open Scope list_scope.

Definition STATE_NORMAL : Z := 0.
Definition STATE_PAUSE_READ : Z := 1.
Definition STATE_DISCONNECT : Z := 2.
Definition READ_BUF_LEN : nat := 4096.
Definition QUEUE_LEN : nat := 8.
Definition READS_PER_CALL : nat := 8.
Inductive Disconnect := DSocket | DReadClosed | DWriteClosed | DPeerManager.
Definition is_peer_manager (d : Disconnect) : bool := match d with DPeerManager => true | _ => false end.

(** ** The shared state *)
(** [queue] is the bounded channel; reserving a place and sending into it is one step.
    [permit] is the stored wake-up of [Notify], [owed] the wake-ups of threads that have
    changed the control word and not yet called [notify_one]. *)
Record Shared := mkShared {
  ctl : Z; permit : bool; owed : nat; queue : list (list Z); closed : bool;
  accepted : list Z; refused : bool }.

(** [compare_exchange] from the opposite state. *)
Definition store_state_normal_or_pause_read (new : Z) (s : Shared) : Shared * (bool + Disconnect) :=
  let opposite := if new =? STATE_NORMAL then STATE_PAUSE_READ else STATE_NORMAL in
  if ctl s =? opposite then (mkShared new (permit s) (owed s) (queue s) (closed s) (accepted s) (refused s), inl true)
  else (s, if ctl s =? STATE_DISCONNECT then inr DPeerManager else inl false).
Definition store_state_disconnect (s : Shared) : Shared := mkShared STATE_DISCONNECT (permit s) (owed s) (queue s) (closed s) (accepted s) (refused s).
Definition load_ctl_state (s : Shared) : bool + Disconnect :=
  if ctl s =? STATE_DISCONNECT then inr DPeerManager else inl (ctl s =? STATE_PAUSE_READ).
Definition owe (s : Shared) : Shared := mkShared (ctl s) (permit s) (S (owed s)) (queue s) (closed s) (accepted s) (refused s).

(** ** The handle *)
Definition try_send_data (data : list Z) (s : Shared) : Shared * nat :=
  match data with
  | [] => (s, 0%nat)
  | _ =>
      if closed s then (s, 0%nat)
      else if (QUEUE_LEN <=? length (queue s))%nat then (mkShared (ctl s) (permit s) (owed s) (queue s) (closed s) (accepted s) true, 0%nat)
      else (mkShared (ctl s) (permit s) (owed s) (queue s ++ [data]) (closed s) (accepted s ++ data) (refused s), length data)
  end.
(** The first halves of [resume_read_and_notify] and [disconnect_and_notify]. *)
Definition resume_read (s : Shared) : Shared :=
  let '(s, r) := store_state_normal_or_pause_read STATE_NORMAL s in match r with inl true => owe s | _ => s end.
Definition pause_read (s : Shared) : Shared := (store_state_normal_or_pause_read STATE_PAUSE_READ s).1.
Definition disconnect (s : Shared) : Shared := owe (store_state_disconnect s).
(** [notify_one], by a thread that owes it. *)
Definition notify_one (s : Shared) : Shared :=
  match owed s with
  | O => s
  | S n => mkShared (ctl s) true n (queue s) (closed s) (accepted s) (refused s)
  end.
Inductive PmOp := OpSend (data : list Z) | OpResume | OpPause | OpDisconnect | OpNotify.
Definition pm_op (s : Shared) (o : PmOp) : Shared :=
  match o with
  | OpSend data => (try_send_data data s).1
  | OpResume => resume_read s
  | OpPause => pause_read s
  | OpDisconnect => disconnect s
  | OpNotify => notify_one s
  end.
(** [send_data] and [disconnect_socket], as the operations a thread does in turn. *)
Definition send_data (data : list Z) (continue_read : bool) : list PmOp :=
  OpSend data :: if continue_read then [OpResume; OpNotify] else [OpPause].
Definition disconnect_socket : list PmOp := [OpDisconnect; OpNotify].

(** ** The task *)
Inductive WriteResult := Wrote (n : nat) | WriteBlocks | WriteFails.
Inductive ReadResult := GotBytes (bytes : list Z) | ReadBlocks | ReadFails.
(** What the call of [write_buffer_space_avail] returns to. *)
Inductive After := ThenTop | ThenRead (readable : bool).
Inductive Pc :=
| PTop
| PSelect (pause_read : bool)
| PSpace (k : After)
| PWrite (space_avail readable : bool)
| PRecv (space_avail readable : bool)
| PRecheck
| PRead (remaining : nat) (any_data_read : bool)
| PEnd (d : Disconnect)
| PStore (d : Disconnect)
| PClose (d : Disconnect)
| PStopped (d : Disconnect)
| PPanic.
Record Conn := mkConn {
  shared : Shared; pc : Pc; steps : nat; write_buf : option (list Z); write_offset : nat;
  wire : list Z; delivered : list (list Z); wakes : nat; told : nat }.
Definition at_pc (p : Pc) (c : Conn) : Conn :=
  mkConn (shared c) p (steps c) (write_buf c) (write_offset c) (wire c) (delivered c) (wakes c) (told c).
Definition with_shared (s : Shared) (c : Conn) : Conn :=
  mkConn s (pc c) (steps c) (write_buf c) (write_offset c) (wire c) (delivered c) (wakes c) (told c).
Definition with_write (b : option (list Z)) (off : nat) (c : Conn) : Conn :=
  mkConn (shared c) (pc c) (steps c) b off (wire c) (delivered c) (wakes c) (told c).

(** The call of [write_buffer_space_avail] starts. *)
Definition told_space (s : Shared) : Shared := mkShared (ctl s) (permit s) (owed s) (queue s) (closed s) (accepted s) false.
Definition enter_space (k : After) (c : Conn) : Conn := at_pc (PSpace k) (with_shared (told_space (shared c)) c).

Definition socket_interest (pause_read : bool) (c : Conn) : bool * bool :=
  (negb pause_read, match write_buf c with Some _ => true | None => false end).
Definition pop (s : Shared) (q : list (list Z)) : Shared := mkShared (ctl s) (permit s) (owed s) q (closed s) (accepted s) (refused s).
Definition handle_rx_write_req (data : list Z) (c : Conn) : Conn :=
  match write_buf c, write_offset c, data with
  | None, O, _ :: _ => enter_space ThenTop (with_write (Some data) 0 c)
  | _, _, _ => at_pc PPanic c
  end.
(** One turn of the loop of [try_write_buf_many]: [try_write_buf]... *)
Definition try_write_buf (sock : nat -> WriteResult) (c : Conn) : Conn * option (bool + Disconnect) :=
  match write_buf c with
  | None => (c, None)
  | Some buf =>
      let to_write := drop (write_offset c) buf in
      if (length to_write =? 0)%nat then (c, None) else
      match sock (length to_write) with
      | Wrote O => (c, Some (inr DWriteClosed))
      | Wrote n =>
          let off := (write_offset c + n)%nat in
          if (length buf <? off)%nat then (c, None) else
          let c := mkConn (shared c) (pc c) (steps c) (write_buf c) (write_offset c) (wire c ++ take n to_write) (delivered c) (wakes c) (told c) in
          let c := if (off =? length buf)%nat then with_write None 0 c else with_write (write_buf c) off c in
          (c, Some (inl (match write_buf c with None => true | Some _ => false end)))
      | WriteBlocks => (c, Some (inl false))
      | WriteFails => (c, Some (inr DSocket))
      end
  end.
Definition after_write (space_avail readable : bool) (c : Conn) : Conn :=
  if space_avail then enter_space (ThenRead readable) c else at_pc (if readable then PRecheck else PTop) c.
Definition write_turn (sock : nat -> WriteResult) (space_avail readable : bool) (c : Conn) : Conn :=
  match try_write_buf sock c with
  | (c, None) => at_pc PPanic c
  | (c, Some (inr d)) => at_pc (PEnd d) c
  | (c, Some (inl true)) => at_pc (PRecv space_avail readable) c
  | (c, Some (inl false)) => after_write space_avail readable c
  end.
(** ...and [write_rx.try_recv]. *)
Definition recv_turn (readable : bool) (c : Conn) : Conn :=
  match write_buf c with
  | Some _ => at_pc PPanic c
  | None =>
      match queue (shared c) with
      | data :: q => at_pc (PWrite true readable) (with_shared (pop (shared c) q) (with_write (Some data) 0 c))
      | [] => if closed (shared c) then at_pc (PEnd DPeerManager) c else after_write true readable c
      end
  end.
(** One turn of the loop of [try_read_buf_many]. *)
Definition end_reads (any_data_read : bool) (c : Conn) : Conn :=
  mkConn (shared c) PTop (steps c) (write_buf c) (write_offset c) (wire c) (delivered c) (if any_data_read then S (wakes c) else wakes c) (told c).
Definition read_turn (res : ReadResult) (accepts : bool) (remaining : nat) (any_data_read : bool) (c : Conn) : Conn :=
  match remaining with
  | O => end_reads any_data_read c
  | S remaining =>
      match res with
      | GotBytes [] => at_pc (PEnd DReadClosed) c
      | GotBytes bytes =>
          let c := mkConn (shared c) (pc c) (steps c) (write_buf c) (write_offset c) (wire c) (delivered c ++ [bytes]) (wakes c) (told c) in
          if negb accepts then at_pc (PEnd DPeerManager) c
          else if (length bytes =? READ_BUF_LEN)%nat then at_pc (PRead remaining true) c else end_reads true c
      | ReadBlocks => end_reads any_data_read c
      | ReadFails => at_pc (PEnd DSocket) c
      end
  end.

(** What the select of the loop takes: the wake-up, a write request, or the socket, which is
    readable, writable or in error. *)
Inductive Branch := BNotified | BRequest | BReady (readable writable : bool) | BReadyError.
Record Outside := mkOutside {
  env : nat -> list PmOp;
  (** given the interest in reading and in writing *)
  choose : nat -> bool * bool -> Branch;
  (** given the number of bytes offered *)
  sock_write : nat -> nat -> WriteResult; sock_read : nat -> ReadResult;
  space_ok : nat -> bool; event_ok : nat -> bool }.

Definition select_turn (take_ : bool * bool -> Branch) (pause_read : bool) (c : Conn) : Conn :=
  let '(want_read, want_write) := socket_interest pause_read c in
  match take_ (want_read, want_write) with
  | BNotified =>
      if permit (shared c) then
        at_pc PTop (with_shared (mkShared (ctl (shared c)) false (owed (shared c)) (queue (shared c)) (closed (shared c)) (accepted (shared c)) (refused (shared c))) c)
      else c
  | BRequest =>
      if want_write then c else
      match queue (shared c) with
      | data :: q => handle_rx_write_req data (with_shared (pop (shared c) q) c)
      | [] => if closed (shared c) then at_pc (PEnd DPeerManager) c else c
      end
  | BReady readable writable =>
      if negb (want_read || want_write) then c
      else if writable then at_pc (PWrite false readable) c
      else if readable then at_pc PRecheck c else at_pc PTop c
  | BReadyError => if want_read || want_write then at_pc (PEnd DSocket) c else c
  end.
Definition cstep (o : Outside) (c : Conn) : Conn :=
  let n := steps c in
  let c := mkConn (foldl pm_op (shared c) (env o n)) (pc c) (S n) (write_buf c) (write_offset c) (wire c) (delivered c) (wakes c) (told c) in
  match pc c with
  | PTop => match load_ctl_state (shared c) with inl pause => at_pc (PSelect pause) c | inr d => at_pc (PEnd d) c end
  | PSelect pause => select_turn (choose o n) pause c
  | PSpace k =>
      if negb (space_ok o n) then at_pc (PEnd DPeerManager) c
      else at_pc (match k with ThenTop => PTop | ThenRead true => PRecheck | ThenRead false => PTop end) c
  | PWrite avail readable => write_turn (sock_write o n) avail readable c
  | PRecv avail readable => recv_turn readable c
  | PRecheck => match load_ctl_state (shared c) with
                | inl true => at_pc PTop c
                | inl false => at_pc (PRead READS_PER_CALL false) c
                | inr d => at_pc (PEnd d) c
                end
  | PRead remaining any => read_turn (sock_read o n) (event_ok o n) remaining any c
  | PEnd d => at_pc (PStore d) (mkConn (shared c) (pc c) (steps c) (write_buf c) (write_offset c) (wire c) (delivered c) (wakes c)
                (if is_peer_manager d then told c else S (told c)))
  | PStore d => at_pc (PClose d) (with_shared (store_state_disconnect (shared c)) c)
  | PClose d => at_pc (PStopped d) (with_shared (mkShared (ctl (shared c)) (permit (shared c)) (owed (shared c)) (queue (shared c)) true (accepted (shared c)) (refused (shared c))) c)
  | PStopped d => c
  | PPanic => c
  end.
Fixpoint crun (o : Outside) (n : nat) (c : Conn) : Conn := match n with O => c | S n => crun o n (cstep o c) end.

(** [Connection::new] with the first write that the peer manager gives an outbound connection. *)
Definition conn_new (initial : option (list Z)) : Conn :=
  mkConn (mkShared STATE_NORMAL false 0 [] false [] false) PTop 0 initial 0 [] [] 0 0.

(** ** Dialling *)
Definition RETRIES_PER_CONNECT_PEER : nat := 4.
(** The outcome: connected already or meanwhile, a connection to this address, or a failure;
    with the addresses that were dialled. *)
Inductive Dial := AlreadyConnected | DialledTo (k : nat) | DialFailed.
Section Dial.
Variable naddrs start : nat.
(** What [is_connected] says after the k-th attempt, and whether the k-th attempt succeeds. *)
Variable connected : nat -> bool.
Variable dials : nat -> bool.
Definition addr_at (k : nat) : nat := Nat.modulo (start + k) naddrs.
Fixpoint dial_loop (retries k : nat) : list nat * Dial :=
  match retries with
  | O => ([addr_at k], if dials k then DialledTo (addr_at k) else DialFailed)
  | S retries =>
      if dials k then ([addr_at k], DialledTo (addr_at k))
      else if connected (S k) then ([addr_at k], AlreadyConnected)
      else let '(l, r) := dial_loop retries (S k) in (addr_at k :: l, r)
  end.
Definition connect_peer_if_necessary_with_retries (retries : nat) : list nat * Dial :=
  if (naddrs =? 0)%nat then ([], DialFailed)
  else if connected 0 then ([], AlreadyConnected) else dial_loop retries 0.
Definition connect_peer_if_necessary : list nat * Dial := connect_peer_if_necessary_with_retries RETRIES_PER_CONNECT_PEER.
End Dial.

(** * Properties *)

(** What the libraries promise: no more is written than was offered, and the socket is ready
    only for what was asked. *)
Record sane (o : Outside) : Prop := {
  sn_write : forall n len k, sock_write o n len = Wrote k -> (k <= len)%nat;
  sn_ready : forall n wr ww r w, choose o n (wr, ww) = BReady r w -> (r = true -> wr = true) /\ (w = true -> ww = true) }.

(** ** The peer manager *)
Definition queue_ok (s : Shared) : Prop := Forall (fun d => d <> []) (queue s) /\ (length (queue s) <= QUEUE_LEN)%nat.
Definition ended (p : Pc) : bool := match p with PEnd _ | PStore _ | PClose _ | PStopped _ => true | _ => false end.
(** A change of the control word that the waiting task has not seen will wake it. *)
Definition woken (p : Pc) (s : Shared) : Prop :=
  match p with
  | PSelect pause => ctl s = STATE_DISCONNECT \/ (pause = true /\ ctl s = STATE_NORMAL) -> permit s = true \/ (0 < owed s)%nat
  | _ => True
  end.
(** A sender that was refused will be told of space. *)
Definition remembered (p : Pc) (s : Shared) : Prop :=
  refused s = true -> queue s <> [] \/ match p with PWrite true _ | PRecv true _ => True | _ => ended p = true end.
Record pm_rel (p : Pc) (s s' : Shared) : Prop := {
  pr_fifo : exists d, accepted s' = accepted s ++ d /\ concat (queue s') = concat (queue s) ++ d;
  pr_queue : queue_ok s -> queue_ok s';
  pr_woken : woken p s -> woken p s';
  pr_remembered : remembered p s -> remembered p s';
  pr_closed : closed s' = closed s;
  pr_grows : queue s <> [] -> queue s' <> [];
  pr_absorbing : ctl s = STATE_DISCONNECT -> ctl s' = STATE_DISCONNECT }.
Lemma pm_rel_refl p s : pm_rel p s s.
Proof. constructor; try done. exists []. by rewrite !app_nil_r. Qed.
Lemma pm_rel_trans p s1 s2 s3 : pm_rel p s1 s2 -> pm_rel p s2 s3 -> pm_rel p s1 s3.
Proof.
  intros [] []. constructor; auto; [|congruence].
  destruct pr_fifo0 as (d1 & E1 & F1), pr_fifo1 as (d2 & E2 & F2). exists (d1 ++ d2). by rewrite E2, E1, F2, F1, !app_assoc.
Qed.
(** The queue and what is recorded of it stay the same. *)
Lemma pm_rel_ctl p s s' : queue s' = queue s -> accepted s' = accepted s -> closed s' = closed s -> refused s' = refused s ->
  (woken p s -> woken p s') -> (ctl s = STATE_DISCONNECT -> ctl s' = STATE_DISCONNECT) -> pm_rel p s s'.
Proof.
  intros Hq Ha Hc Hr Hw Hd. constructor; try done.
  - exists []. rewrite Hq, Ha. by rewrite !app_nil_r.
  - unfold queue_ok. by rewrite Hq.
  - unfold remembered. by rewrite Hq, Hr.
  - by rewrite Hq.
Qed.
Lemma send_rel p s data : pm_rel p s (try_send_data data s).1.
Proof.
  unfold try_send_data. destruct data as [|b data]; [apply pm_rel_refl|]. destruct (closed s) eqn:Ec; [apply pm_rel_refl|].
  destruct (Nat.leb_spec QUEUE_LEN (length (queue s))) as [Hl|Hl]; cbn [fst].
  - assert (queue s <> []) as Hne by (intros E; rewrite E in Hl; cbn in Hl; unfold QUEUE_LEN in Hl; lia).
    constructor; try done; [exists []; by rewrite !app_nil_r|]. intros _ _. by left.
  - constructor; cbn [queue accepted closed refused ctl permit owed]; try done.
    + exists (b :: data). by rewrite concat_app; cbn; rewrite app_nil_r.
    + intros [H1 H2]. split; cbn [queue]; [apply Forall_app; split; [done|by repeat constructor]|rewrite length_app; cbn; lia].
    + intros _ _. left. cbn. by destruct (queue s).
    + by destruct (queue s).
Qed.
Lemma pm_op_rel p s o : pm_rel p s (pm_op s o).
Proof.
  destruct o; cbn [pm_op]; [apply send_rel| | | |].
  - unfold resume_read, store_state_normal_or_pause_read. cbn [Z.eqb STATE_NORMAL].
    destruct (Z.eqb_spec (ctl s) STATE_PAUSE_READ) as [E|E]; [|destruct (_ =? _); apply pm_rel_refl].
    apply pm_rel_ctl; try done; [|cbn; by rewrite E]. destruct p; cbn; try done. intros _ _. right. lia.
  - unfold pause_read, store_state_normal_or_pause_read. cbn [Z.eqb STATE_PAUSE_READ STATE_NORMAL].
    destruct (Z.eqb_spec (ctl s) STATE_NORMAL) as [E|E]; [|apply pm_rel_refl]. apply pm_rel_ctl; try done; [|cbn; by rewrite E].
    destruct p; cbn; try done. by intros _ [?|[_ ?]].
  - apply pm_rel_ctl; try done. destruct p; cbn; try done. intros _ _. right. lia.
  - unfold notify_one. destruct (owed s) as [|n] eqn:Eo; [apply pm_rel_refl|]. apply pm_rel_ctl; try done.
    destruct p; cbn; try done. intros _ _. by left.
Qed.
Lemma env_rel p ops s : pm_rel p s (foldl pm_op s ops).
Proof.
  revert s. induction ops as [|o ops IH]; intros s; cbn [foldl]; [apply pm_rel_refl|]. eapply pm_rel_trans; [apply pm_op_rel|apply IH].
Qed.

(** ** The task *)
Definition rest (c : Conn) : list Z := match write_buf c with Some b => drop (write_offset c) b | None => [] end.
Definition buffer_ok (c : Conn) : Prop := match write_buf c with Some b => (write_offset c < length b)%nat | None => write_offset c = 0%nat end.
Definition pc_ok (c : Conn) : Prop :=
  match pc c with
  | PWrite _ _ => write_buf c <> None
  | PRecv _ _ => write_buf c = None
  | PPanic => False
  | _ => True
  end.
Definition told_ok (c : Conn) : Prop :=
  told c = match pc c with PStore d | PClose d | PStopped d => if is_peer_manager d then 0%nat else 1%nat | _ => 0%nat end.
Record cinv (initial : list Z) (c : Conn) : Prop := {
  ci_fifo : wire c ++ rest c ++ concat (queue (shared c)) = initial ++ accepted (shared c);
  ci_queue : queue_ok (shared c);
  ci_buffer : buffer_ok c;
  ci_pc : pc_ok c;
  ci_woken : woken (pc c) (shared c);
  ci_remembered : remembered (pc c) (shared c);
  ci_told : told_ok c;
  ci_closed : closed (shared c) = true -> exists d, pc c = PStopped d }.

Lemma interfered initial c o : cinv initial c ->
  cinv initial (mkConn (foldl pm_op (shared c) (env o (steps c))) (pc c) (S (steps c)) (write_buf c) (write_offset c) (wire c) (delivered c) (wakes c) (told c)).
Proof.
  intros [H1 H2 H3 H4 H5 H6 H7 H8]. destruct (env_rel (pc c) (env o (steps c)) (shared c)) as [(d & Ea & Eq) ? ? ? Ec _ _].
  constructor; cbn [shared pc write_buf write_offset wire delivered told]; auto.
  - unfold rest in *. cbn [write_buf write_offset]. rewrite Ea, Eq, !app_assoc, <- H1. by rewrite !app_assoc.
  - by rewrite Ec.
Qed.

(** Moving the program counter to a place that promises nothing new. *)
Lemma goto initial c p : cinv initial c -> closed (shared c) = false -> pc_ok (at_pc p c) -> woken p (shared c) -> told_ok (at_pc p c) ->
  remembered p (shared c) -> cinv initial (at_pc p c).
Proof. intros [] ? ? ? ? ?. constructor; try done. intros Hc. cbn in Hc. congruence. Qed.
Definition stays (p : Pc) : bool :=
  match p with PTop | PRecheck | PRead _ _ | PSpace _ | PEnd _ => true | _ => false end.
Lemma goto_plain initial c p : cinv initial c -> closed (shared c) = false -> ended (pc c) = false ->
  (match pc c with PWrite true _ | PRecv true _ => ended p = true | _ => True end) -> stays p = true -> cinv initial (at_pc p c).
Proof.
  intros H Hc He Hk Hs. apply goto; [done|done|by destruct p|by destruct p| |].
  - pose proof (ci_told _ _ H) as Ht. unfold told_ok in *. destruct (pc c), p; try done.
  - pose proof (ci_remembered _ _ H) as Hr. unfold remembered in *. intros Hq. specialize (Hr Hq).
    destruct Hr as [Hr|Hr]; [by left|]. right. destruct (pc c) as [| | |[]|[]| | | | | | |], p; try done.
Qed.
Lemma goto_space initial c k : cinv initial c -> closed (shared c) = false -> ended (pc c) = false -> cinv initial (enter_space k c).
Proof.
  intros [] Hc He. constructor; try done; cbn.
  - unfold told_ok in *. cbn. destruct (pc c); done.
  - intros H. congruence.
Qed.
Lemma drop_rest c b : write_buf c = Some b -> buffer_ok c -> drop (write_offset c) b <> [].
Proof.
  intros Hb Hok. unfold buffer_ok in Hok. rewrite Hb in Hok. intros E. apply (f_equal length) in E. rewrite length_drop in E. cbn in E. lia.
Qed.
(** A turn of the write loop keeps the order of the bytes. *)
Lemma write_turn_inv initial sock avail readable c : cinv initial c -> closed (shared c) = false -> pc c = PWrite avail readable ->
  (forall len k, sock len = Wrote k -> (k <= len)%nat) -> cinv initial (write_turn sock avail readable c).
Proof.
  intros H Hc Hpc Hsock. pose proof (ci_pc _ _ H) as Hw. unfold pc_ok in Hw. rewrite Hpc in Hw.
  destruct (write_buf c) as [b|] eqn:Eb; [|done]. pose proof (drop_rest c b Eb (ci_buffer _ _ H)) as Hne.
  unfold write_turn, try_write_buf. rewrite Eb. set (to_write := drop (write_offset c) b) in *.
  destruct (Nat.eqb_spec (length to_write) 0) as [E0|E0]; [by apply nil_length_inv in E0|].
  assert (ended (pc c) = false) as He by (by rewrite Hpc).
  assert (cinv initial (after_write avail readable c)) as Hafter.
  { unfold after_write. destruct avail; [by apply goto_space|]. apply goto_plain; try done; [by rewrite Hpc|by destruct readable]. }
  destruct (sock (length to_write)) as [[|n]| |] eqn:Es; [|..|by apply goto_plain; try done; rewrite Hpc; destruct avail]; [by apply goto_plain; try done; rewrite Hpc; destruct avail| |done].
  specialize (Hsock _ _ Es). assert (length to_write = length b - write_offset c)%nat as Hlen by apply length_drop.
  pose proof (ci_buffer _ _ H) as Hbuf. unfold buffer_ok in Hbuf. rewrite Eb in Hbuf.
  destruct (Nat.ltb_spec (length b) (write_offset c + S n)); [lia|].
  pose proof (ci_fifo _ _ H) as Hf. unfold rest in Hf. rewrite Eb in Hf. fold to_write in Hf.
  destruct (Nat.eqb_spec (write_offset c + S n) (length b)) as [Hfull|Hpart]; cbn [write_buf with_write].
  - destruct H as [_ H2 _ _ _ H6 H7 H8]. constructor; cbn; try done.
    + rewrite take_ge by lia. unfold rest. cbn. by rewrite <- app_assoc.
    + unfold remembered in *. rewrite Hpc in H6. by destruct avail.
    + unfold told_ok in *. cbn. by rewrite Hpc in H7.
    + intros Hcl. congruence.
  - set (c' := mkConn _ _ _ _ _ _ _ _ _). assert (cinv initial (with_write (write_buf c') (write_offset c + S n) c')) as H'.
    { destruct H as [_ H2 _ H4 H5 H6 H7 H8]. constructor; cbn; try done.
      - unfold rest. cbn. assert (drop (write_offset c + S n) b = drop (S n) to_write) as -> by (unfold to_write; by rewrite drop_drop).
        rewrite <- app_assoc, (app_assoc (take (S n) to_write)), take_drop. done.
      - unfold buffer_ok. cbn. lia.
      - unfold pc_ok. cbn. by rewrite Hpc. }
    unfold after_write. destruct avail; [by apply goto_space|]. apply goto_plain; try done; [cbn; by rewrite Hpc|by destruct readable].
Qed.
Lemma recv_turn_inv initial avail readable c : cinv initial c -> closed (shared c) = false -> pc c = PRecv avail readable ->
  cinv initial (recv_turn readable c).
Proof.
  intros H Hc Hpc. pose proof (ci_pc _ _ H) as Hw. unfold pc_ok in Hw. rewrite Hpc in Hw. unfold recv_turn. rewrite Hw.
  destruct (queue (shared c)) as [|d q] eqn:Eq; [rewrite Hc; apply goto_space; [done|done|by rewrite Hpc]|].
  destruct H as [H1 [H2 H2'] H3 _ _ _ H7 _]. rewrite Eq in H1, H2, H2'. apply Forall_cons in H2 as [Hd H2].
  constructor; cbn; try done.
  - unfold rest in *. cbn. by rewrite Hw in H1; rewrite drop_0.
  - split; cbn; [done|]. cbn in H2'. lia.
  - unfold buffer_ok. cbn. destruct d; [done|cbn; lia].
  - intros _. by right.
  - unfold told_ok in *. cbn. by rewrite Hpc in H7.
  - intros Hcl. congruence.
Qed.
Lemma request_inv initial pause c d q : cinv initial c -> closed (shared c) = false -> pc c = PSelect pause -> write_buf c = None ->
  queue (shared c) = d :: q -> cinv initial (handle_rx_write_req d (with_shared (pop (shared c) q) c)).
Proof.
  intros [H1 [H2 H2'] H3 _ _ _ H7 _] Hc Hpc Hw Eq. rewrite Eq in H1, H2, H2'. apply Forall_cons in H2 as [Hd H2].
  unfold buffer_ok in H3. rewrite Hw in H3. unfold handle_rx_write_req. cbn [write_buf write_offset with_shared]. rewrite Hw, H3.
  destruct d as [|b d]; [done|]. constructor; cbn; try done.
  - unfold rest in *. cbn. by rewrite Hw in H1.
  - split; cbn; [done|]. cbn in H2'. lia.
  - unfold buffer_ok. cbn. lia.
  - unfold told_ok in *. cbn. by rewrite Hpc in H7.
  - intros Hcl. congruence.
Qed.
Lemma load_spec s : match load_ctl_state s with inl pause => ctl s <> STATE_DISCONNECT /\ (pause = true <-> ctl s = STATE_PAUSE_READ) | inr d => d = DPeerManager end.
Proof. unfold load_ctl_state. destruct (Z.eqb_spec (ctl s) STATE_DISCONNECT); [done|]. split; [done|]. apply Z.eqb_eq. Qed.
Lemma select_inv initial take_ pause c : cinv initial c -> closed (shared c) = false -> pc c = PSelect pause ->
  (forall wr ww r w, take_ (wr, ww) = BReady r w -> (r = true -> wr = true) /\ (w = true -> ww = true)) ->
  cinv initial (select_turn take_ pause c).
Proof.
  intros H Hc Hpc Hm. assert (ended (pc c) = false) as He by (by rewrite Hpc).
  assert (forall p, stays p = true -> cinv initial (at_pc p c)) as Hgo by (intros p Hp; apply goto_plain; try done; by rewrite Hpc).
  unfold select_turn. cbn [socket_interest]. destruct (take_ _) as [| |r w|] eqn:Eb.
  - destruct (permit (shared c)); [|done]. destruct H as [H1 H2 H3 H4 H5 H6 H7 H8]. constructor; cbn; try done.
    + unfold remembered in *. by rewrite Hpc in H6.
    + unfold told_ok in *. cbn. by rewrite Hpc in H7.
    + intros Hcl. congruence.
  - destruct (write_buf c) eqn:Ew; [done|]. destruct (queue (shared c)) as [|d q] eqn:Eq; [by rewrite Hc|]. by eapply request_inv.
  - destruct (negb (_ || _)); [done|]. apply Hm in Eb as [_ Hw]. destruct w; [|destruct r; by apply Hgo]. specialize (Hw eq_refl).
    apply goto; [done|done|unfold pc_ok; cbn; by destruct (write_buf c)|done| |].
    + pose proof (ci_told _ _ H) as Ht. unfold told_ok in *. by rewrite Hpc in Ht.
    + pose proof (ci_remembered _ _ H) as Hr. unfold remembered in *. rewrite Hpc in Hr. intros Hq. specialize (Hr Hq) as [?|?]; [by left|done].
  - destruct (_ || _); [by apply Hgo|done].
Qed.
Lemma ending_inv initial c d : cinv initial c -> closed (shared c) = false ->
  (pc c = PEnd d -> cinv initial (at_pc (PStore d) (mkConn (shared c) (pc c) (steps c) (write_buf c) (write_offset c) (wire c) (delivered c) (wakes c)
     (if is_peer_manager d then told c else S (told c))))) /\
  (pc c = PStore d -> cinv initial (at_pc (PClose d) (with_shared (store_state_disconnect (shared c)) c))) /\
  (pc c = PClose d -> cinv initial (at_pc (PStopped d) (with_shared (mkShared (ctl (shared c)) (permit (shared c)) (owed (shared c)) (queue (shared c)) true (accepted (shared c)) (refused (shared c))) c))).
Proof.
  intros [H1 H2 H3 H4 H5 H6 H7 H8] Hc. split_and!; intros Hpc; unfold told_ok in H7; rewrite Hpc in H7; constructor; cbn; try done;
    try (intros _; by right); try (intros Hcl; congruence); try (by exists d).
  unfold told_ok. cbn. rewrite H7. by destruct (is_peer_manager d).
Qed.
Lemma read_turn_inv initial res ok remaining any c : cinv initial c -> closed (shared c) = false -> pc c = PRead remaining any ->
  cinv initial (read_turn res ok remaining any c).
Proof.
  intros H Hc Hpc. assert (forall any, cinv initial (end_reads any c)) as Hend.
  { intros a. assert (cinv initial (at_pc PTop c)) as [] by (apply goto_plain; try done; by rewrite Hpc). constructor; done. }
  assert (forall bs, cinv initial (mkConn (shared c) (pc c) (steps c) (write_buf c) (write_offset c) (wire c) (delivered c ++ [bs]) (wakes c) (told c))) as Hdel
    by (intros bs; destruct H; by constructor).
  unfold read_turn. destruct remaining as [|remaining]; [apply Hend|].
  destruct res as [[|b bs]| |]; [apply goto_plain; try done; by rewrite Hpc| |apply Hend|apply goto_plain; try done; by rewrite Hpc].
  destruct (negb ok); [apply goto_plain; try done; cbn; by rewrite Hpc|].
  destruct (_ =? _)%nat; [apply goto_plain; try done; cbn; by rewrite Hpc|].
  assert (cinv initial (at_pc PTop (mkConn (shared c) (pc c) (steps c) (write_buf c) (write_offset c) (wire c) (delivered c ++ [b :: bs]) (wakes c) (told c)))) as []
    by (apply goto_plain; try done; cbn; by rewrite Hpc).
  constructor; done.
Qed.

Lemma cstep_inv initial o c : sane o -> cinv initial c -> cinv initial (cstep o c).
Proof.
  intros [Sw Sr] H0. unfold cstep. pose proof (interfered initial c o H0) as H. set (c1 := mkConn _ _ _ _ _ _ _ _ _) in *.
  assert ((forall d, pc c1 <> PStopped d) -> closed (shared c1) = false) as Hcl.
  { intros Hn. destruct (closed (shared c1)) eqn:E; [|done]. destruct (ci_closed _ _ H E) as [d Hd]. by destruct (Hn d). }
  destruct (pc c1) as [|pause|k|avail readable|avail readable| |remaining any|d|d|d|d|] eqn:Hpc.
  all: try (specialize (Hcl ltac:(done))).
  all: try (assert (forall p, stays p = true -> cinv initial (at_pc p c1)) as Hgo by (intros p Hp; apply goto_plain; try done; by rewrite Hpc)).
  - pose proof (load_spec (shared c1)) as Hl. destruct (load_ctl_state (shared c1)) as [pause|d]; [|by apply Hgo]. destruct Hl as [Hl Hp].
    apply goto; [done|done|done| | |].
    + intros [?|[Hpt ?]]; [done|]. apply Hp in Hpt. rewrite Hpt in *. done.
    + pose proof (ci_told _ _ H) as Ht. unfold told_ok in *. by rewrite Hpc in Ht.
    + pose proof (ci_remembered _ _ H) as Hr. by rewrite Hpc in Hr.
  - apply select_inv; [done|done|done|apply Sr].
  - destruct (negb _); [by apply Hgo|]. destruct k as [|[]]; by apply Hgo.
  - by apply write_turn_inv; [| | |apply Sw].
  - by eapply recv_turn_inv.
  - destruct (load_ctl_state (shared c1)) as [[]|]; by apply Hgo.
  - by apply read_turn_inv.
  - by apply ending_inv.
  - by apply ending_inv.
  - by apply ending_inv.
  - done.
  - pose proof (ci_pc _ _ H) as Hp. unfold pc_ok in Hp. by rewrite Hpc in Hp.
Qed.
Lemma crun_inv initial o n c : sane o -> cinv initial c -> cinv initial (crun o n c).
Proof. intros Ho. revert c. induction n as [|n IH]; intros c H; cbn [crun]; [done|]. by apply IH, cstep_inv. Qed.
Lemma new_inv initial : initial <> Some [] -> cinv (default [] initial) (conn_new initial).
Proof.
  intros Hne. constructor; cbn; try done.
  - split; cbn; [constructor|unfold QUEUE_LEN; lia].
  - unfold buffer_ok. cbn. destruct initial as [[|]|]; cbn; [done|lia|done].
Qed.

(** ** Paused reads *)
Definition resumes (o : PmOp) : bool := match o with OpResume => true | _ => false end.
(** The peer manager does not resume reads in the [m] steps from the [n]-th. *)
Definition quiet (o : Outside) (n m : nat) : Prop := forall i, (n <= i < n + m)%nat -> Forall (fun a => resumes a = false) (env o i).
Definition reads_left (p : Pc) : nat := match p with PRead remaining _ => remaining | _ => 0 end.
Definition no_reads (s : Shared) : Prop := ctl s = STATE_PAUSE_READ \/ ctl s = STATE_DISCONNECT.
Lemma paused_op s a : no_reads s -> resumes a = false -> no_reads (pm_op s a).
Proof.
  intros Hs Ha. unfold no_reads in *. destruct a; try done; cbn.
  - unfold try_send_data. destruct data; [done|]. destruct (closed s); [done|]. by destruct (_ <=? _)%nat.
  - unfold pause_read, store_state_normal_or_pause_read. cbn. destruct (_ =? _); [by left|done].
  - by right.
  - unfold notify_one. by destruct (owed s).
Qed.
Lemma paused_ops ops s : no_reads s -> Forall (fun a => resumes a = false) ops -> no_reads (foldl pm_op s ops).
Proof. intros Hs Ho. revert s Hs. induction Ho; intros s Hs; cbn [foldl]; [done|]. by apply IHHo, paused_op. Qed.
Definition reads_at_most (k : nat) (c : Conn) : Prop :=
  no_reads (shared c) /\ (length (delivered c) + reads_left (pc c) <= k)%nat.
Lemma after_write_reads k avail readable c : reads_left (pc c) = 0%nat -> reads_at_most k c -> reads_at_most k (after_write avail readable c).
Proof. intros Hz [H1 H2]. rewrite Hz in H2. unfold after_write. by destruct avail, readable. Qed.
Lemma write_turn_reads k sock avail readable c : pc c = PWrite avail readable -> reads_at_most k c -> reads_at_most k (write_turn sock avail readable c).
Proof.
  intros Hpc H. assert (reads_left (pc c) = 0%nat) as Hz by (by rewrite Hpc). pose proof H as [H1 H2]. rewrite Hz in H2.
  unfold write_turn, try_write_buf. destruct (write_buf c) as [b|]; [|done]. destruct (_ =? _)%nat; [done|].
  destruct (sock _) as [[|n]| |]; [done| |by apply after_write_reads|done].
  destruct (_ <? _)%nat; [done|]. destruct (_ =? _)%nat; cbn [write_buf with_write]; [done|].
  apply after_write_reads; [done|]. split; [done|]. cbn. by rewrite Hpc.
Qed.
Lemma select_reads k take_ pause c : pc c = PSelect pause -> reads_at_most k c -> reads_at_most k (select_turn take_ pause c).
Proof.
  intros Hpc H. pose proof H as [H1 H2]. rewrite Hpc in H2. unfold select_turn. cbn [socket_interest]. destruct (take_ _) as [| |r w|].
  - by destruct (permit _).
  - destruct (write_buf c) eqn:Ew; [done|]. destruct (queue _) as [|d q]; [by destruct (closed _)|].
    unfold handle_rx_write_req. cbn [write_buf with_shared]. rewrite Ew. cbn. by destruct (write_offset c), d.
  - destruct (negb (_ || _)); [done|]. by destruct w, r.
  - by destruct (_ || _).
Qed.
Lemma read_turn_reads k res ok remaining any c : pc c = PRead remaining any -> reads_at_most k c -> reads_at_most k (read_turn res ok remaining any c).
Proof.
  intros Hpc [H1 H2]. rewrite Hpc in H2. cbn in H2. unfold read_turn. destruct remaining; [by split|].
  destruct res as [[|b bs]| |]; [split; cbn; [done|lia]| |split; cbn; [done|lia]|split; cbn; [done|lia]].
  destruct (negb ok); [|destruct (_ =? _)%nat]; (split; cbn [shared delivered pc at_pc end_reads reads_left]; [done|rewrite length_app; cbn [length]; lia]).
Qed.
Lemma cstep_reads k o c : Forall (fun a => resumes a = false) (env o (steps c)) -> reads_at_most k c -> reads_at_most k (cstep o c).
Proof.
  intros Hq [H1 H2]. unfold cstep. set (c1 := mkConn _ _ _ _ _ _ _ _ _).
  assert (reads_at_most k c1) as H by (split; [by apply paused_ops|done]).
  assert (load_ctl_state (shared c1) <> inl false) as Hl.
  { destruct H as [[E|E] _]; unfold load_ctl_state; by rewrite E. }
  clearbody c1. pose proof H as [H1' H2'].
  destruct (pc c1) as [|pause|a|avail readable|avail readable| |remaining any|d|d|d|d|] eqn:Hpc; cbn [reads_left] in H2'.
  - by destruct (load_ctl_state _).
  - by apply select_reads.
  - destruct (negb _); [done|]. by destruct a as [|[]].
  - by apply write_turn_reads.
  - unfold recv_turn. destruct (write_buf c1); [done|]. destruct (queue _); [|done].
    destruct (closed _); [done|]. apply after_write_reads; [by rewrite Hpc|done].
  - by destruct (load_ctl_state _) as [[]|].
  - by apply read_turn_reads.
  - done.
  - split; [by right|done].
  - done.
  - done.
  - done.
Qed.
(** A turn counts as one step, and leaves no more reads than there were. *)
Definition one_turn (k : nat) (c c' : Conn) : Prop := steps c' = steps c /\ (reads_left (pc c') <= k)%nat.
Lemma write_turn_one sock avail readable c : one_turn 0 c (write_turn sock avail readable c).
Proof.
  unfold write_turn, try_write_buf, after_write. destruct (write_buf c); [|done]. destruct (_ =? _)%nat; [done|].
  destruct (sock _) as [[|n]| |]; [done| |by destruct avail, readable|done].
  destruct (_ <? _)%nat; [done|]. destruct (_ =? _)%nat; cbn [write_buf with_write]; [done|]. by destruct avail, readable.
Qed.
Lemma select_one take_ pause c : pc c = PSelect pause -> one_turn 0 c (select_turn take_ pause c).
Proof.
  intros Hpc. assert (one_turn 0 c c) by (split; [done|]; by rewrite Hpc).
  unfold select_turn, handle_rx_write_req. cbn [socket_interest]. destruct (take_ _) as [| |r w|].
  - by destruct (permit _).
  - destruct (write_buf c) eqn:Ew; [done|]. destruct (queue _) as [|d q]; [by destruct (closed _)|].
    cbn [write_buf with_shared]. rewrite Ew. cbn. by destruct (write_offset c), d.
  - destruct (negb (_ || _)); [done|]. by destruct w, r.
  - by destruct (_ || _).
Qed.
Lemma read_turn_one res ok remaining any c : one_turn remaining c (read_turn res ok remaining any c).
Proof.
  unfold read_turn. destruct remaining; [by split|]. destruct res as [[|b bs]| |]; try (split; cbn; [done|lia]).
  destruct (negb ok); [|destruct (_ =? _)%nat]; (split; cbn; [done|lia]).
Qed.
Lemma cstep_one o c : (reads_left (pc c) <= READS_PER_CALL)%nat -> steps (cstep o c) = S (steps c) /\ (reads_left (pc (cstep o c)) <= READS_PER_CALL)%nat.
Proof.
  intros Hr. unfold cstep. set (c1 := mkConn _ _ _ _ _ _ _ _ _). change (S (steps c)) with (steps c1). change (pc c) with (pc c1) in Hr. clearbody c1.
  destruct (pc c1) as [|pause|a|avail readable|avail readable| |remaining any|d|d|d|d|] eqn:Hpc; cbn [reads_left] in Hr.
  - by destruct (load_ctl_state _).
  - destruct (select_one (choose o (steps c)) pause c1 Hpc). split; [done|lia].
  - destruct (negb _); [done|]. by destruct a as [|[]].
  - destruct (write_turn_one (sock_write o (steps c)) avail readable c1). split; [done|lia].
  - unfold recv_turn, after_write. destruct (write_buf c1); [done|]. destruct (queue _); [|done]. by destruct (closed _).
  - destruct (load_ctl_state _) as [[]|]; done.
  - destruct (read_turn_one (sock_read o (steps c)) (event_ok o (steps c)) remaining any c1). split; [done|lia].
  - done.
  - done.
  - done.
  - by rewrite Hpc.
  - by rewrite Hpc.
Qed.
Lemma crun_one o n c : (reads_left (pc c) <= READS_PER_CALL)%nat -> (reads_left (pc (crun o n c)) <= READS_PER_CALL)%nat.
Proof. revert c. induction n as [|n IH]; intros c H; cbn [crun]; [done|]. by apply IH, cstep_one. Qed.
Lemma crun_reads k o m c : quiet o (steps c) m -> (reads_left (pc c) <= READS_PER_CALL)%nat -> reads_at_most k c -> reads_at_most k (crun o m c).
Proof.
  revert c. induction m as [|m IH]; intros c Hq Hr H; cbn [crun]; [done|]. destruct (cstep_one o c Hr) as [Hs Hr']. apply IH; [|done|].
  - intros i Hi. apply Hq. lia.
  - apply cstep_reads; [apply Hq; lia|done].
Qed.

(** C39: One connection.  For every behaviour of the socket and of the peer manager, whatever the
    operations of its other threads between any two steps of the task, and for any number of
    steps from the start: no assertion of the task fails; the bytes on the wire, what is left of
    the buffer and the queue are exactly the first write followed by everything accepted for
    sending, in order, nothing lost and nothing twice; the queue holds no more than its eight
    places; a task about to sleep on an old control word has a wake-up stored or owed to it; a
    sender that was refused will be told of space unless the connection ends; the peer manager
    is told of the end once, and only when it did not cause it; and once reads are paused or
    the connection cut, at most eight more reads reach the peer manager until it resumes. *)
Theorem conn_sound o initial n : sane o -> initial <> Some [] ->
  let c := crun o n (conn_new initial) in
  pc c <> PPanic /\
  wire c ++ rest c ++ concat (queue (shared c)) = default [] initial ++ accepted (shared c) /\
  (length (queue (shared c)) <= QUEUE_LEN)%nat /\
  woken (pc c) (shared c) /\ remembered (pc c) (shared c) /\ told_ok c /\
  (forall m, no_reads (shared c) -> quiet o (steps c) m -> (length (delivered (crun o m c)) <= length (delivered c) + READS_PER_CALL)%nat).
Proof.
  intros Ho Hi c. destruct (crun_inv _ o n _ Ho (new_inv _ Hi)) as [H1 [_ H2] _ H4 H5 H6 H7 _]. fold c in H1, H2, H4, H5, H6, H7.
  split_and!; try done; [by intros E; unfold pc_ok in H4; rewrite E in H4|].
  intros m Hn Hq. assert (reads_left (pc c) <= READS_PER_CALL)%nat as Hr by (apply crun_one; cbn; lia).
  destruct (crun_reads (length (delivered c) + reads_left (pc c)) o m c Hq Hr (conj Hn (le_n _))) as [_ ?]. lia.
Qed.
(** The peer manager sends two messages, the second ends the reading; the socket takes two
    bytes at a time, and every second write of it would block. *)
Definition sample_outside : Outside := mkOutside
  (fun n => if (n =? 0)%nat then send_data [1; 2; 3] true else if (n =? 2)%nat then send_data [4; 5] false else [])
  (fun _ '(wr, ww) => if (ww : bool) then BReady wr true else BRequest)
  (fun n len => if Nat.even n then Wrote (Nat.min 2 len) else WriteBlocks)
  (fun _ => GotBytes [9]) (fun _ => true) (fun _ => true).
Lemma sample_sane : sane sample_outside.
Proof.
  constructor; cbn [sock_write choose sample_outside].
  - intros n len k E. destruct (Nat.even n); [|done]. injection E as <-; destruct len as [|[|]]; lia.
  - intros n wr ww r w E. destruct ww; simplify_eq. done.
Qed.
(** Witness of [conn_sound]: all five bytes and the first write get through, in order. *)
Lemma conn_sound_witness :
  wire (crun sample_outside 60 (conn_new (Some [7%Z]))) = [7; 1; 2; 3; 4; 5] /\ ctl (shared (crun sample_outside 60 (conn_new (Some [7%Z])))) = STATE_PAUSE_READ /\
  (length (delivered (crun sample_outside 40 (crun sample_outside 20 (conn_new (Some [7%Z]))))) <=
    length (delivered (crun sample_outside 20 (conn_new (Some [7%Z])))) + READS_PER_CALL)%nat.
Proof.
  split_and!; [vm_compute; reflexivity|vm_compute; reflexivity|].
  destruct (conn_sound sample_outside (Some [7%Z]) 20 sample_sane ltac:(done)) as (_ & _ & _ & _ & _ & _ & H). apply (H 40%nat); [by left|].
  intros i Hi. change (steps _) with 20%nat in Hi. cbn. destruct (Nat.eqb_spec i 0); [lia|]. destruct (Nat.eqb_spec i 2); [lia|]. constructor.
Defined.

(** ** Dialling *)
Lemma dial_loop_spec naddrs start connected dials retries k :
  exists m, (dial_loop naddrs start connected dials retries k).1 = map (addr_at naddrs start) (seq k (S m)) /\ (m <= retries)%nat /\
    ((dial_loop naddrs start connected dials retries k).2 = DialFailed -> m = retries) /\
    (forall a, (dial_loop naddrs start connected dials retries k).2 = DialledTo a -> a = addr_at naddrs start (k + m) /\ dials (k + m)%nat = true).
Proof.
  revert k. induction retries as [|r IH]; intros k; cbn [dial_loop].
  - exists 0%nat. cbn. rewrite Nat.add_0_r. split_and!; [done|lia|done|]. intros a. destruct (dials k); by intros [= ->].
  - destruct (dials k) eqn:Ed; [|destruct (connected (S k))].
    + exists 0%nat. cbn. rewrite Nat.add_0_r. split_and!; [done|lia|done|]. by intros a [= ->].
    + exists 0%nat. cbn. split_and!; [done|lia|done|done].
    + destruct (IH (S k)) as (m & H1 & H2 & H3 & H4). destruct (dial_loop _ _ _ _ r (S k)) as [l d]. cbn in H1, H3, H4 |- *. exists (S m).
      rewrite H1. split_and!; [done|lia|intros; f_equal; auto|]. intros a Ha. replace (k + S m)%nat with (S k + m)%nat by lia. by apply H4.
Qed.
(** Dialling gives up only after [retries + 1] attempts, on consecutive addresses: with no more
    addresses than that, every one of them was tried. *)
Theorem failed_dial_tries_all naddrs start connected dials retries a : (0 < naddrs <= S retries)%nat -> (a < naddrs)%nat ->
  (connect_peer_if_necessary_with_retries naddrs start connected dials retries).2 = DialFailed ->
  a ∈ (connect_peer_if_necessary_with_retries naddrs start connected dials retries).1.
Proof.
  intros Hn Ha. unfold connect_peer_if_necessary_with_retries. destruct (Nat.eqb_spec naddrs 0); [lia|]. destruct (connected 0%nat); [done|].
  destruct (dial_loop_spec naddrs start connected dials retries 0) as (m & H1 & _ & H3 & _). intros Hf. rewrite H1, (H3 Hf). clear - Hn Ha.
  apply list_elem_of_In, in_map_iff. exists (Nat.modulo (a + (naddrs - Nat.modulo start naddrs)) naddrs).
  pose proof (Nat.mod_upper_bound start naddrs ltac:(lia)). pose proof (Nat.mod_upper_bound (a + (naddrs - start mod naddrs)) naddrs ltac:(lia)).
  split; [|apply in_seq; lia]. unfold addr_at. rewrite Nat.Div0.add_mod_idemp_r, (Nat.Div0.div_mod start naddrs) at 1.
  replace (naddrs * (start / naddrs) + start mod naddrs + (a + (naddrs - start mod naddrs)))%nat with (a + (start / naddrs + 1) * naddrs)%nat by lia.
  rewrite Nat.Div0.mod_add. by apply Nat.mod_small.
Qed.
Example dial_second : connect_peer_if_necessary 3 2 (fun _ => false) (fun k => (k =? 1)%nat) = ([2; 0]%nat, DialledTo 0).
Proof. reflexivity. Qed.
