(* ===== verification/Payments.v ===== *)
(** * Payments: the payment state machines

    [quid-ln/quid-ln/src/payments.rs], [payments/inbound.rs], [payments/outbound.rs] and
    [payments/onchain.rs]: the kinds of payment, what is recorded of each, and the transitions of
    each; the manager that holds them is in [PayManager].

    A transition is a check of an event against the recorded payment: it returns the new payment
    or an error, and an [unreachable!] is a third outcome.  Amounts are in millisatoshis and
    rates in millionths; a string is the list of its characters. *)
From stdpp Require Import base gmap list.
From S2P Require Import Prelude Pool Chain.
Open Scope list_scope.

(** ** Identifiers, kinds, amounts *)
Inductive PaymentId := OfferRecvReusable (c : Z) | OfferSend (c : Z) | Lightning (h : Z) | OnchainRecvId (t : Z) | OnchainSendId (c : Z).
#[export] Instance PaymentId_eq_dec : EqDecision PaymentId.
Proof. solve_decision. Defined.
#[export] Instance PaymentId_countable : Countable PaymentId.
Proof.
  refine (inj_countable' (fun i => match i with OfferRecvReusable c => (0, c) | OfferSend c => (1, c) | Lightning c => (2, c) | OnchainRecvId c => (3, c) | OnchainSendId c => (4, c) end)
    (fun p => match p with (0, c) => OfferRecvReusable c | (1, c) => OfferSend c | (2, c) => Lightning c | (3, c) => OnchainRecvId c | (_, c) => OnchainSendId c end) _).
  by intros [].
Defined.

Inductive PaymentRail := ROnchain | RInvoice | ROffer | RSpontaneous | RWaivedFee | RUnknown.
#[export] Instance PaymentRail_eq_dec : EqDecision PaymentRail.
Proof. solve_decision. Defined.
Inductive PaymentKind := KOnchain | KInvoice | KOffer | KSpontaneous | KWaivedChannelFee | KWaivedLiquidityFee | KUnknown (s : list Z).
Definition kind_rail (k : PaymentKind) : PaymentRail :=
  match k with
  | KOnchain => ROnchain | KInvoice => RInvoice | KOffer => ROffer | KSpontaneous => RSpontaneous
  | KWaivedChannelFee | KWaivedLiquidityFee => RWaivedFee | KUnknown _ => RUnknown
  end.
Definition expect_rail (k : PaymentKind) (r : PaymentRail) : bool := bool_decide (kind_rail k = r).

Inductive PaymentStatus := Pending | Completed | Failed.
#[export] Instance PaymentStatus_eq_dec : EqDecision PaymentStatus.
Proof. solve_decision. Defined.
Definition is_finalized (s : PaymentStatus) : bool := match s with Pending => false | _ => true end.

Definition AMOUNT_MAX : Z := 2 ^ 64 - 1.
Definition amount_saturating_add (a b : Z) : Z := if AMOUNT_MAX <? a + b then AMOUNT_MAX else a + b.
(** To the nearest, a half to the even one. *)
Definition round_half_even (n d : Z) : Z :=
  let q := n / d in let r := n mod d in
  if 2 * r <? d then q else if d <? 2 * r then q + 1 else if Z.even q then q else q + 1.
(** An amount times a rate in millionths. *)
Definition amount_saturating_mul (a ppm : Z) : Z := if AMOUNT_MAX * 1000000 <? a * ppm then AMOUNT_MAX else round_half_even (a * ppm) 1000000.

(** ** Bounded strings *)
Definition MAX_CHARS : nat := 200.
Definition MAX_BYTES : Z := 512.
Definition utf8_len (c : Z) : Z := if c <? 128 then 1 else if c <? 2048 then 2 else if c <? 65536 then 3 else 4.
Fixpoint truncate_bytes (s : list Z) (max_bytes : Z) : list Z :=
  match s with
  | [] => []
  | c :: s => if utf8_len c <=? max_bytes then c :: truncate_bytes s (max_bytes - utf8_len c) else []
  end.
Definition bounded_truncate (s : list Z) : option (list Z) :=
  match take MAX_CHARS (truncate_bytes s MAX_BYTES) with [] => None | s => Some s end.

(** ** Metadata *)
(** Invoices and offers as far as the payments read them. *)
Record Invoice := mkInvoice { inv_hash : Z; inv_secret : Z; inv_amount : option Z; inv_expires_at : option Z }.
Record Offer := mkOffer { off_id : Z; off_expires_at : option Z }.
Definition TIMESTAMP_MAX : Z := 2 ^ 63 - 1.
Definition saturating_expires_at (i : Invoice) : Z := default TIMESTAMP_MAX (inv_expires_at i).
Record PaymentMetadata := mkMeta {
  m_id : PaymentId; related_ids : gset PaymentId; m_address : option (list Z); m_invoice : option Invoice; m_offer : option Offer;
  payer_name : option (list Z); m_message : option (list Z); personal_note : option (list Z); m_priority : option Z;
  m_quantity : option Z; replacement_txid : option Z }.
Definition meta_empty (id : PaymentId) : PaymentMetadata := mkMeta id ∅ None None None None None None None None None.
Record PaymentMetadataUpdate := mkUpdate {
  new_related_ids : gset PaymentId; u_address : option (option (list Z)); u_invoice : option (option Invoice); u_offer : option (option Offer);
  u_payer_name : option (option (list Z)); u_message : option (option (list Z)); u_personal_note : option (option (list Z));
  u_priority : option (option Z); u_quantity : option (option Z); u_replacement_txid : option (option Z) }.
Definition apply_update (u : PaymentMetadataUpdate) (m : PaymentMetadata) : PaymentMetadata :=
  mkMeta (m_id m) (related_ids m ∪ new_related_ids u) (default (m_address m) (u_address u)) (default (m_invoice m) (u_invoice u))
    (default (m_offer m) (u_offer u)) (default (payer_name m) (u_payer_name u)) (default (m_message m) (u_message u))
    (default (personal_note m) (u_personal_note u)) (default (m_priority m) (u_priority u)) (default (m_quantity m) (u_quantity u))
    (default (replacement_txid m) (u_replacement_txid u)).
Definition replaced_by (txid : Z) : PaymentMetadataUpdate := mkUpdate ∅ None None None None None None None None (Some (Some txid)).
Definition set_note (note : option (list Z)) (m : PaymentMetadata) : PaymentMetadata :=
  mkMeta (m_id m) (related_ids m) (m_address m) (m_invoice m) (m_offer m) (payer_name m) (m_message m) note (m_priority m) (m_quantity m) (replacement_txid m).

(** ** The payments *)
Inductive OnchainSendStatus :=
  SCreated | SBroadcasted | SReplacementBroadcasted | SPartiallyConfirmed | SPartiallyReplaced | SFullyConfirmed | SFullyReplaced | SDropped.
#[export] Instance OnchainSendStatus_eq_dec : EqDecision OnchainSendStatus.
Proof. solve_decision. Defined.
Inductive OnchainReceiveStatus := RZeroconf | RPartiallyConfirmed | RPartiallyReplaced | RFullyConfirmed | RFullyReplaced | RDropped.
#[export] Instance OnchainReceiveStatus_eq_dec : EqDecision OnchainReceiveStatus.
Proof. solve_decision. Defined.
Inductive InboundInvoicePaymentStatus := InvoiceGenerated | IClaiming | ICompleted | IExpired.
Inductive InboundOfferReusablePaymentStatus := OClaiming | OCompleted.
Inductive InboundSpontaneousPaymentStatus := SpClaiming | SpCompleted.
Inductive OutboundInvoicePaymentStatus := OiPending | OiAbandoning | OiCompleted | OiFailed.
Inductive OutboundOfferPaymentStatus := OoPending | OoAbandoning | OoCompleted | OoFailed.
Inductive OutboundSpontaneousPaymentStatus := OsPending | OsCompleted | OsFailed.
Inductive LxOutboundPaymentFailure :=
  NoRetries | Rejected | Abandoned | FExpired | NoRoute | MetadataTooLarge | UnknownFeatures | InvoiceRequestExpired
| InvoiceRequestRejected | BlindedPathCreationFailed | InvalidOffer | QuidErr | FUnknown.
Definition is_permanent (f : LxOutboundPaymentFailure) : bool :=
  match f with
  | Rejected | Abandoned | FExpired | InvoiceRequestExpired | InvoiceRequestRejected | MetadataTooLarge | UnknownFeatures | InvalidOffer => true
  | NoRetries | NoRoute | BlindedPathCreationFailed | QuidErr | FUnknown => false
  end.

Record Tx := mkTx { tx_id : Z; tx_inputs : list Z }.
Record OnchainSendV2 := mkOs { os_cid : Z; os_txid : Z; os_kind : PaymentKind; os_tx : Tx; os_amount : Z; os_fee : Z;
  os_status : OnchainSendStatus; os_created_at : option Z; os_finalized_at : option Z }.
Record OnchainReceiveV2 := mkOr { or_txid : Z; or_kind : PaymentKind; or_tx : Tx; or_amount : Z;
  or_status : OnchainReceiveStatus; or_created_at : option Z; or_finalized_at : option Z }.
Record PartnerFeeFields := mkPartner { pf_user : Z; prop_fee : option Z; base_fee : option Z }.
Record InboundInvoicePaymentV2 := mkIip { iip_hash : Z; iip_secret : Z; iip_preimage : Z; iip_claim_id : option Z; iip_kind : PaymentKind;
  invoice_amount : option Z; recvd_amount : option Z; iip_skimmed_fee : option Z; partner_fee : option PartnerFeeFields;
  iip_status : InboundInvoicePaymentStatus; iip_created_at : option Z; iip_expires_at : option Z; iip_finalized_at : option Z }.
Record InboundOfferReusablePaymentV2 := mkIorp { iorp_claim_id : Z; iorp_offer_id : Z; iorp_preimage : Z; iorp_kind : PaymentKind;
  iorp_amount : Z; iorp_skimmed_fee : option Z; iorp_status : InboundOfferReusablePaymentStatus; iorp_created_at : option Z; iorp_finalized_at : option Z }.
Record InboundSpontaneousPaymentV2 := mkIsp { isp_hash : Z; isp_preimage : Z; isp_kind : PaymentKind; isp_amount : Z; isp_skimmed_fee : option Z;
  isp_status : InboundSpontaneousPaymentStatus; isp_created_at : option Z; isp_finalized_at : option Z }.
Record OutboundInvoicePaymentV2 := mkOip { oip_hash : Z; oip_secret : Z; oip_preimage : option Z; oip_kind : PaymentKind; oip_amount : Z; oip_routing_fee : Z;
  oip_status : OutboundInvoicePaymentStatus; oip_failure : option LxOutboundPaymentFailure; oip_created_at : option Z; oip_expires_at : option Z; oip_finalized_at : option Z }.
Record OutboundOfferPaymentV2 := mkOop { oop_client_id : Z; oop_hash : option Z; oop_preimage : option Z; oop_offer_id : Z; oop_kind : PaymentKind; oop_amount : Z;
  oop_routing_fee : Z; oop_status : OutboundOfferPaymentStatus; oop_failure : option LxOutboundPaymentFailure; oop_created_at : option Z; oop_expires_at : option Z; oop_finalized_at : option Z }.
Record OutboundSpontaneousPaymentV2 := mkOsp { osp_hash : Z; osp_preimage : Z; osp_kind : PaymentKind; osp_amount : Z; osp_routing_fee : Z;
  osp_status : OutboundSpontaneousPaymentStatus; osp_created_at : option Z; osp_finalized_at : option Z }.
Inductive PaymentV2 :=
| OnchainSend (os : OnchainSendV2) | OnchainReceive (o : OnchainReceiveV2) | InboundInvoice (iip : InboundInvoicePaymentV2)
| InboundOfferReusable (iorp : InboundOfferReusablePaymentV2) | InboundSpontaneous (isp : InboundSpontaneousPaymentV2)
| OutboundInvoice (oip : OutboundInvoicePaymentV2) | OutboundOffer (oop : OutboundOfferPaymentV2) | OutboundSpontaneous (osp : OutboundSpontaneousPaymentV2).
Record PaymentWithMetadata := mkPwm { payment : PaymentV2; metadata : PaymentMetadata }.

Definition pay_id (p : PaymentV2) : PaymentId :=
  match p with
  | OnchainSend os => OnchainSendId (os_cid os) | OnchainReceive o => OnchainRecvId (or_txid o) | InboundInvoice iip => Lightning (iip_hash iip)
  | InboundOfferReusable iorp => OfferRecvReusable (iorp_claim_id iorp) | InboundSpontaneous isp => Lightning (isp_hash isp)
  | OutboundInvoice oip => Lightning (oip_hash oip) | OutboundOffer oop => OfferSend (oop_client_id oop) | OutboundSpontaneous osp => Lightning (osp_hash osp)
  end.
Definition rail (p : PaymentV2) : PaymentRail :=
  match p with
  | OnchainSend _ | OnchainReceive _ => ROnchain | InboundInvoice _ | OutboundInvoice _ => RInvoice
  | InboundOfferReusable _ | OutboundOffer _ => ROffer | InboundSpontaneous _ | OutboundSpontaneous _ => RSpontaneous
  end.
Definition os_general (s : OnchainSendStatus) : PaymentStatus :=
  match s with SFullyConfirmed => Completed | SFullyReplaced | SDropped => Failed | _ => Pending end.
Definition or_general (s : OnchainReceiveStatus) : PaymentStatus :=
  match s with RFullyConfirmed => Completed | RFullyReplaced | RDropped => Failed | _ => Pending end.
Definition iip_general (s : InboundInvoicePaymentStatus) : PaymentStatus :=
  match s with InvoiceGenerated | IClaiming => Pending | ICompleted => Completed | IExpired => Failed end.
Definition iorp_general (s : InboundOfferReusablePaymentStatus) : PaymentStatus := match s with OClaiming => Pending | OCompleted => Completed end.
Definition isp_general (s : InboundSpontaneousPaymentStatus) : PaymentStatus := match s with SpClaiming => Pending | SpCompleted => Completed end.
Definition oip_general (s : OutboundInvoicePaymentStatus) : PaymentStatus :=
  match s with OiPending | OiAbandoning => Pending | OiCompleted => Completed | OiFailed => Failed end.
Definition oop_general (s : OutboundOfferPaymentStatus) : PaymentStatus :=
  match s with OoPending | OoAbandoning => Pending | OoCompleted => Completed | OoFailed => Failed end.
Definition osp_general (s : OutboundSpontaneousPaymentStatus) : PaymentStatus :=
  match s with OsPending => Pending | OsCompleted => Completed | OsFailed => Failed end.
Definition status (p : PaymentV2) : PaymentStatus :=
  match p with
  | OnchainSend os => os_general (os_status os) | OnchainReceive o => or_general (or_status o) | InboundInvoice iip => iip_general (iip_status iip)
  | InboundOfferReusable iorp => iorp_general (iorp_status iorp) | InboundSpontaneous isp => isp_general (isp_status isp)
  | OutboundInvoice oip => oip_general (oip_status oip) | OutboundOffer oop => oop_general (oop_status oop) | OutboundSpontaneous osp => osp_general (osp_status osp)
  end.
Definition finalized_at (p : PaymentV2) : option Z :=
  match p with
  | OnchainSend os => os_finalized_at os | OnchainReceive o => or_finalized_at o | InboundInvoice iip => iip_finalized_at iip
  | InboundOfferReusable iorp => iorp_finalized_at iorp | InboundSpontaneous isp => isp_finalized_at isp
  | OutboundInvoice oip => oip_finalized_at oip | OutboundOffer oop => oop_finalized_at oop | OutboundSpontaneous osp => osp_finalized_at osp
  end.
Definition created_at (p : PaymentV2) : option Z :=
  match p with
  | OnchainSend os => os_created_at os | OnchainReceive o => or_created_at o | InboundInvoice iip => iip_created_at iip
  | InboundOfferReusable iorp => iorp_created_at iorp | InboundSpontaneous isp => isp_created_at isp
  | OutboundInvoice oip => oip_created_at oip | OutboundOffer oop => oop_created_at oop | OutboundSpontaneous osp => osp_created_at osp
  end.
Definition get_or_insert (f : option Z) (t : Z) : option Z := Some (default t f).
Definition set_created_at_idempotent (t : Z) (p : PaymentV2) : PaymentV2 :=
  match p with
  | OnchainSend (mkOs a b c d e f g cr fi) => OnchainSend (mkOs a b c d e f g (get_or_insert cr t) fi)
  | OnchainReceive (mkOr a b c d e cr fi) => OnchainReceive (mkOr a b c d e (get_or_insert cr t) fi)
  | InboundInvoice (mkIip a b c d e f g h i j cr ex fi) => InboundInvoice (mkIip a b c d e f g h i j (get_or_insert cr t) ex fi)
  | InboundOfferReusable (mkIorp a b c d e f g cr fi) => InboundOfferReusable (mkIorp a b c d e f g (get_or_insert cr t) fi)
  | InboundSpontaneous (mkIsp a b c d e f cr fi) => InboundSpontaneous (mkIsp a b c d e f (get_or_insert cr t) fi)
  | OutboundInvoice (mkOip a b c d e f g h cr ex fi) => OutboundInvoice (mkOip a b c d e f g h (get_or_insert cr t) ex fi)
  | OutboundOffer (mkOop a b c d e f g h i cr ex fi) => OutboundOffer (mkOop a b c d e f g h i (get_or_insert cr t) ex fi)
  | OutboundSpontaneous (mkOsp a b c d e f cr fi) => OutboundSpontaneous (mkOsp a b c d e f (get_or_insert cr t) fi)
  end.
(** [PaymentV2::debug_assert_invariants] *)
Definition payment_invariants (p : PaymentV2) : bool :=
  match status p, finalized_at p with Pending, None => true | Completed, Some _ | Failed, Some _ => true | _, _ => false end.

(** ** Outcomes *)
Inductive out (E A : Type) := Good (a : A) | Bad (e : E) | Unreachable.
Arguments Good {E A} a.
Arguments Bad {E A} e.
Arguments Unreachable {E A}.
Definition out_map {E A B} (f : A -> B) (o : out E A) : out E B :=
  match o with Good a => Good (f a) | Bad e => Bad e | Unreachable => Unreachable end.
Inductive ClaimableError := Replay | IgnoreAndReclaim | FailBackHtlcsTheirFault | Persist.
Inductive ExpireError := Ignore | IgnoreAndAbandon.

(** ** What a claim is about *)
(** The hash of a preimage. *)
Class PayHash := compute_hash : Z -> Z.
Record OfferContext := mkOfferContext { oc_offer_id : Z; oc_quantity : option Z; oc_payer_name : option (list Z); oc_payer_note : option (list Z) }.
Inductive PaymentPurpose :=
| Bolt11InvoicePayment (preimage : option Z) (secret : Z)
| Bolt12OfferPayment (preimage : option Z) (secret : Z) (context : OfferContext)
| Bolt12RefundPayment (preimage : option Z) (secret : Z)
| SpontaneousPayment (preimage : Z).
Definition purpose_preimage (p : PaymentPurpose) : option Z :=
  match p with Bolt11InvoicePayment x _ | Bolt12OfferPayment x _ _ | Bolt12RefundPayment x _ => x | SpontaneousPayment x => Some x end.
Record OfferClaimCtx := mkOfferCtx { oc_preimage : Z; oc_claim_id : Z; oc_id : Z; oc_offer : option Offer; oc_name : option (list Z); oc_message : option (list Z); oc_qty : option Z }.
Inductive LnClaimCtx :=
| Bolt11Invoice (preimage hash secret : Z) (claim_id : option Z)
| Bolt12Offer (ctx : OfferClaimCtx)
| Spontaneous (preimage hash : Z) (claim_id : option Z).
Definition claim_ctx_new (purpose : PaymentPurpose) (hash : Z) (claim_id : option Z) (offer : option Offer) : option LnClaimCtx :=
  match purpose_preimage purpose with
  | None => None
  | Some preimage =>
      match purpose with
      | Bolt11InvoicePayment _ secret => Some (Bolt11Invoice preimage hash secret claim_id)
      | Bolt12OfferPayment _ _ context =>
          match claim_id with
          | None => None
          | Some claim_id =>
              let qty := match oc_quantity context with Some q => if q =? 0 then None else Some q | None => None end in
              Some (Bolt12Offer (mkOfferCtx preimage claim_id (oc_offer_id context) offer (oc_payer_name context)
                (match oc_payer_note context with Some s => bounded_truncate s | None => None end) qty))
          end
      | Bolt12RefundPayment _ _ => None
      | SpontaneousPayment _ => Some (Spontaneous preimage hash claim_id)
      end
  end.
Definition ctx_id (c : LnClaimCtx) : PaymentId :=
  match c with Bolt11Invoice _ hash _ _ => Lightning hash | Bolt12Offer x => OfferRecvReusable (oc_claim_id x) | Spontaneous _ hash _ => Lightning hash end.
Definition ctx_preimage (c : LnClaimCtx) : Z := match c with Bolt11Invoice p _ _ _ => p | Bolt12Offer x => oc_preimage x | Spontaneous p _ _ => p end.
Definition ctx_rail (c : LnClaimCtx) : PaymentRail := match c with Bolt11Invoice _ _ _ _ => RInvoice | Bolt12Offer _ => ROffer | Spontaneous _ _ _ => RSpontaneous end.

(** ** Inbound *)
Definition MAX_RECEIVER_SKIM_PPM : Z := 10000.
Definition iip_new (i : Invoice) (hash secret preimage : Z) (kind : PaymentKind) (message : option (list Z)) (pf : option PartnerFeeFields) : option PaymentWithMetadata :=
  if negb (expect_rail kind RInvoice) then None else
  Some (mkPwm (InboundInvoice (mkIip hash secret preimage None kind (inv_amount i) None None pf InvoiceGenerated None (inv_expires_at i) None))
    (mkMeta (Lightning hash) ∅ None (Some i) None None message None None None None)).
(** The terms under which the invoice was quoted. *)
Definition allowed_skim (pf : option PartnerFeeFields) (amount skim : Z) : Z :=
  let payment_value := amount_saturating_add amount skim in
  let '(prop, base) := match pf with Some pf => (default 0 (prop_fee pf), default 0 (base_fee pf)) | None => (0, 0) end in
  amount_saturating_add (amount_saturating_mul payment_value (MAX_RECEIVER_SKIM_PPM + prop)) base.
Definition is_expired_by (cmp : Z -> Z -> bool) (expires_at : option Z) (now : Z) : bool := match expires_at with Some e => cmp e now | None => false end.
Definition iip_check_payment_claimable (hash secret preimage : Z) (claim_id : option Z) (amount : Z) (skimmed_fee : option Z) (now : Z)
    (self : InboundInvoicePaymentV2) : out ClaimableError InboundInvoicePaymentV2 :=
  if negb (hash =? iip_hash self) then Bad Replay
  else if negb (preimage =? iip_preimage self) then Bad Replay
  else if negb (secret =? iip_secret self) then Bad Replay
  else if match claim_id, iip_claim_id self with Some c, Some mine => negb (mine =? c) | _, _ => false end then Bad FailBackHtlcsTheirFault
  else match iip_status self with
  | IClaiming => Bad IgnoreAndReclaim
  | ICompleted | IExpired => Unreachable
  | InvoiceGenerated =>
      if is_expired_by Z.leb (iip_expires_at self) now then Bad FailBackHtlcsTheirFault
      else if match skimmed_fee with Some skim => allowed_skim (partner_fee self) amount skim <? skim | None => false end then Bad FailBackHtlcsTheirFault
      else Good (mkIip (iip_hash self) (iip_secret self) (iip_preimage self) claim_id (iip_kind self) (invoice_amount self) (Some amount) skimmed_fee
        (partner_fee self) IClaiming (iip_created_at self) (iip_expires_at self) (iip_finalized_at self))
  end.
Definition iip_with_status (s : InboundInvoicePaymentStatus) (recvd : option Z) (now : Z) (self : InboundInvoicePaymentV2) : InboundInvoicePaymentV2 :=
  mkIip (iip_hash self) (iip_secret self) (iip_preimage self) (iip_claim_id self) (iip_kind self) (invoice_amount self) recvd (iip_skimmed_fee self)
    (partner_fee self) s (iip_created_at self) (iip_expires_at self) (Some now).
Definition iip_check_payment_claimed (hash secret preimage amount now : Z) (self : InboundInvoicePaymentV2) : out unit InboundInvoicePaymentV2 :=
  if negb (hash =? iip_hash self) then Bad tt
  else if negb (preimage =? iip_preimage self) then Bad tt
  else if negb (secret =? iip_secret self) then Bad tt
  else match iip_status self with
  | InvoiceGenerated | IClaiming => Good (iip_with_status ICompleted (Some amount) now self)
  | ICompleted | IExpired => Unreachable
  end.
Definition iip_check_invoice_expiry (now : Z) (self : InboundInvoicePaymentV2) : out unit (option InboundInvoicePaymentV2) :=
  if negb (is_expired_by Z.ltb (iip_expires_at self) now) then Good None
  else match iip_status self with
  | InvoiceGenerated => Good (Some (iip_with_status IExpired (recvd_amount self) now self))
  | IClaiming => Good None
  | ICompleted | IExpired => Unreachable
  end.

Definition iorp_new (ctx : OfferClaimCtx) (kind : PaymentKind) (amount : Z) (skimmed_fee : option Z) : option PaymentWithMetadata :=
  if negb (expect_rail kind ROffer) then None else
  Some (mkPwm (InboundOfferReusable (mkIorp (oc_claim_id ctx) (oc_id ctx) (oc_preimage ctx) kind amount skimmed_fee OClaiming None None))
    (mkMeta (OfferRecvReusable (oc_claim_id ctx)) ∅ None None (oc_offer ctx) (oc_name ctx) (oc_message ctx) None None (oc_qty ctx) None)).
Definition iorp_check_payment_claimable (ctx : OfferClaimCtx) (amount : Z) (self : InboundOfferReusablePaymentV2) : out ClaimableError PaymentWithMetadata :=
  if negb (oc_preimage ctx =? iorp_preimage self) then Bad Replay
  else if negb (oc_id ctx =? iorp_offer_id self) then Bad Replay
  else if negb (oc_claim_id ctx =? iorp_claim_id self) then Bad Replay
  else if negb (amount =? iorp_amount self) then Bad Replay
  else match iorp_status self with OClaiming => Bad IgnoreAndReclaim | OCompleted => Unreachable end.
Definition iorp_check_payment_claimed (ctx : OfferClaimCtx) (amount now : Z) (self : InboundOfferReusablePaymentV2) : out unit InboundOfferReusablePaymentV2 :=
  if negb (oc_preimage ctx =? iorp_preimage self) then Bad tt
  else if negb (oc_claim_id ctx =? iorp_claim_id self) then Bad tt
  else if negb (oc_id ctx =? iorp_offer_id self) then Bad tt
  else if negb (amount =? iorp_amount self) then Bad tt
  else match iorp_status self with
  | OClaiming => Good (mkIorp (iorp_claim_id self) (iorp_offer_id self) (iorp_preimage self) (iorp_kind self) (iorp_amount self) (iorp_skimmed_fee self) OCompleted (iorp_created_at self) (Some now))
  | OCompleted => Unreachable
  end.

Definition isp_new (hash preimage : Z) (kind : PaymentKind) (amount : Z) (skimmed_fee : option Z) : option PaymentWithMetadata :=
  if negb (expect_rail kind RSpontaneous) then None else
  Some (mkPwm (InboundSpontaneous (mkIsp hash preimage kind amount skimmed_fee SpClaiming None None)) (meta_empty (Lightning hash))).
Definition isp_check_payment_claimable (hash preimage amount : Z) (self : InboundSpontaneousPaymentV2) : out ClaimableError PaymentWithMetadata :=
  if negb (hash =? isp_hash self) then Bad Replay
  else if negb (preimage =? isp_preimage self) then Bad Replay
  else if negb (amount =? isp_amount self) then Bad Replay
  else match isp_status self with SpClaiming => Bad IgnoreAndReclaim | SpCompleted => Unreachable end.
Definition isp_check_payment_claimed (hash preimage amount now : Z) (self : InboundSpontaneousPaymentV2) : out unit InboundSpontaneousPaymentV2 :=
  if negb (hash =? isp_hash self) then Bad tt
  else if negb (preimage =? isp_preimage self) then Bad tt
  else if negb (amount =? isp_amount self) then Bad tt
  else match isp_status self with
  | SpClaiming => Good (mkIsp (isp_hash self) (isp_preimage self) (isp_kind self) (isp_amount self) (isp_skimmed_fee self) SpCompleted (isp_created_at self) (Some now))
  | SpCompleted => Unreachable
  end.
(** [PaymentWithMetadata::check_payment_claimable] *)
Definition pwm_check_payment_claimable (ctx : LnClaimCtx) (amount : Z) (skimmed_fee : option Z) (now : Z) (self : PaymentWithMetadata) : out ClaimableError PaymentWithMetadata :=
  if negb (bool_decide (ctx_rail ctx = rail (payment self))) then Bad Replay else
  match payment self, ctx with
  | InboundInvoice iip, Bolt11Invoice preimage hash secret claim_id =>
      out_map (fun i => mkPwm (InboundInvoice i) (metadata self)) (iip_check_payment_claimable hash secret preimage claim_id amount skimmed_fee now iip)
  | InboundOfferReusable iorp, Bolt12Offer x => iorp_check_payment_claimable x amount iorp
  | InboundSpontaneous isp, Spontaneous preimage hash _ => isp_check_payment_claimable hash preimage amount isp
  | _, _ => Bad Replay
  end.

(** ** Outbound *)
Section Outbound.
Context `{H : PayHash}.
Definition oip_new (i : Invoice) (kind : PaymentKind) (amount routing_fee : Z) (message note : option (list Z)) : option PaymentWithMetadata :=
  if negb (expect_rail kind RInvoice) then None else
  Some (mkPwm (OutboundInvoice (mkOip (inv_hash i) (inv_secret i) None kind amount routing_fee OiPending None None (Some (saturating_expires_at i)) None))
    (mkMeta (Lightning (inv_hash i)) ∅ None (Some i) None None message note None None None)).
Definition oip_check_payment_sent (hash preimage : Z) (maybe_amount : option Z) (fees_paid now : Z) (self : OutboundInvoicePaymentV2) : out unit OutboundInvoicePaymentV2 :=
  if negb (hash =? oip_hash self) then Bad tt
  else if negb (hash =? compute_hash preimage) then Bad tt
  else match oip_status self with
  | OiPending | OiAbandoning => Good (mkOip (oip_hash self) (oip_secret self) (Some preimage) (oip_kind self) (default (oip_amount self) maybe_amount) fees_paid
      OiCompleted (oip_failure self) (oip_created_at self) (oip_expires_at self) (Some now))
  | OiCompleted | OiFailed => Unreachable
  end.
Definition oip_check_payment_failed (id : PaymentId) (failure : LxOutboundPaymentFailure) (now : Z) (self : OutboundInvoicePaymentV2) : out unit OutboundInvoicePaymentV2 :=
  if negb (bool_decide (id = Lightning (oip_hash self))) then Bad tt
  else match oip_status self with
  | OiPending | OiAbandoning => Good (mkOip (oip_hash self) (oip_secret self) (oip_preimage self) (oip_kind self) (oip_amount self) (oip_routing_fee self)
      OiFailed (Some failure) (oip_created_at self) (oip_expires_at self) (Some now))
  | OiCompleted | OiFailed => Unreachable
  end.
Definition oip_check_invoice_expiry (now : Z) (self : OutboundInvoicePaymentV2) : out ExpireError OutboundInvoicePaymentV2 :=
  if negb (is_expired_by Z.ltb (oip_expires_at self) now) then Bad Ignore
  else match oip_status self with
  | OiPending => Good (mkOip (oip_hash self) (oip_secret self) (oip_preimage self) (oip_kind self) (oip_amount self) (oip_routing_fee self)
      OiAbandoning (oip_failure self) (oip_created_at self) (oip_expires_at self) (oip_finalized_at self))
  | OiAbandoning => Bad IgnoreAndAbandon
  | OiCompleted | OiFailed => Unreachable
  end.
Definition oop_new (client_id : Z) (o : Offer) (kind : PaymentKind) (amount : Z) (quantity : option Z) (routing_fee : Z) (name message note : option (list Z)) : option PaymentWithMetadata :=
  if negb (expect_rail kind ROffer) then None else
  Some (mkPwm (OutboundOffer (mkOop client_id None None (off_id o) kind amount routing_fee OoPending None None (off_expires_at o) None))
    (mkMeta (OfferSend client_id) ∅ None None (Some o) name message note None quantity None)).
Definition oop_check_payment_sent (hash preimage : Z) (maybe_amount : option Z) (fees_paid now : Z) (self : OutboundOfferPaymentV2) : out unit OutboundOfferPaymentV2 :=
  if negb (hash =? compute_hash preimage) then Bad tt
  else match oop_status self with
  | OoPending | OoAbandoning => Good (mkOop (oop_client_id self) (Some hash) (Some preimage) (oop_offer_id self) (oop_kind self) (default (oop_amount self) maybe_amount) fees_paid
      OoCompleted (oop_failure self) (oop_created_at self) (oop_expires_at self) (Some now))
  | OoCompleted | OoFailed => Unreachable
  end.
Definition oop_check_payment_failed (failure : LxOutboundPaymentFailure) (now : Z) (self : OutboundOfferPaymentV2) : out unit OutboundOfferPaymentV2 :=
  match oop_status self with
  | OoPending | OoAbandoning => Good (mkOop (oop_client_id self) (oop_hash self) (oop_preimage self) (oop_offer_id self) (oop_kind self) (oop_amount self) (oop_routing_fee self)
      OoFailed (Some failure) (oop_created_at self) (oop_expires_at self) (Some now))
  | OoCompleted | OoFailed => Unreachable
  end.
Definition oop_check_offer_expiry (now : Z) (self : OutboundOfferPaymentV2) : out ExpireError OutboundOfferPaymentV2 :=
  if negb (is_expired_by Z.ltb (oop_expires_at self) now) then Bad Ignore
  else match oop_status self with
  | OoPending => Good (mkOop (oop_client_id self) (oop_hash self) (oop_preimage self) (oop_offer_id self) (oop_kind self) (oop_amount self) (oop_routing_fee self)
      OoAbandoning (oop_failure self) (oop_created_at self) (oop_expires_at self) (oop_finalized_at self))
  | OoAbandoning => Bad IgnoreAndAbandon
  | OoCompleted | OoFailed => Unreachable
  end.
End Outbound.

(** ** On chain *)
Definition ONCHAIN_CONFIRMATION_THRESHOLD : Z := 6.
Inductive TxConfStatus := ZeroConf | InBestChain (confs : Z) | HasReplacement (confs rp_txid : Z) | TxDropped.
Record TxConfQuery := mkQuery { q_txid : Z; q_inputs : list Z; q_created_at : Z }.
Record PayOnchainRequest := mkPay { po_cid : Z; po_address : list Z; po_amount : Z; po_priority : Z; po_note : option (list Z) }.
Definition os_new (tx : Tx) (req : PayOnchainRequest) (kind : PaymentKind) (fee : Z) : option PaymentWithMetadata :=
  if negb (expect_rail kind ROnchain) then None else
  Some (mkPwm (OnchainSend (mkOs (po_cid req) (tx_id tx) kind tx (po_amount req) fee SCreated None None))
    (mkMeta (OnchainSendId (po_cid req)) ∅ (Some (po_address req)) None None None None (po_note req) (Some (po_priority req)) None None)).
Definition os_with_status (s : OnchainSendStatus) (fin : option Z) (self : OnchainSendV2) : OnchainSendV2 :=
  mkOs (os_cid self) (os_txid self) (os_kind self) (os_tx self) (os_amount self) (os_fee self) s (os_created_at self) fin.
Definition broadcasted (txid : Z) (self : OnchainSendV2) : out unit OnchainSendV2 :=
  if negb (txid =? os_txid self) then Bad tt
  else match os_status self with
  | SCreated | SBroadcasted => Good (os_with_status SBroadcasted (os_finalized_at self) self)
  | _ => Bad tt
  end.
Definition rp_update (c : TxConfStatus) : option PaymentMetadataUpdate := match c with HasReplacement _ rp => Some (replaced_by rp) | _ => None end.
Definition os_new_status (c : TxConfStatus) (s : OnchainSendStatus) : OnchainSendStatus :=
  match c with
  | ZeroConf => match s with SBroadcasted => SBroadcasted | SReplacementBroadcasted => SReplacementBroadcasted | _ => SBroadcasted end
  | InBestChain confs => if confs <? ONCHAIN_CONFIRMATION_THRESHOLD then SPartiallyConfirmed else SFullyConfirmed
  | HasReplacement confs _ => if confs <? ONCHAIN_CONFIRMATION_THRESHOLD then SPartiallyReplaced else SFullyReplaced
  | TxDropped => SDropped
  end.
Definition os_check_onchain_conf (c : TxConfStatus) (now : Z) (self : OnchainSendV2) : out unit (option OnchainSendV2 * option PaymentMetadataUpdate) :=
  match os_status self with
  | SCreated => Good (None, None)
  | SFullyConfirmed | SFullyReplaced | SDropped => Bad tt
  | s =>
      let new_status := os_new_status c s in
      if bool_decide (s = new_status) then Good (None, None)
      else Good (Some (os_with_status new_status (if is_finalized (os_general new_status) then Some now else os_finalized_at self) self), rp_update c)
  end.
Definition or_new (tx : Tx) (kind : PaymentKind) (amount : Z) : option PaymentWithMetadata :=
  if negb (expect_rail kind ROnchain) then None else
  Some (mkPwm (OnchainReceive (mkOr (tx_id tx) kind tx amount RZeroconf None None)) (meta_empty (OnchainRecvId (tx_id tx)))).
Definition or_new_status (c : TxConfStatus) : OnchainReceiveStatus :=
  match c with
  | ZeroConf => RZeroconf
  | InBestChain confs => if confs <? ONCHAIN_CONFIRMATION_THRESHOLD then RPartiallyConfirmed else RFullyConfirmed
  | HasReplacement confs _ => if confs <? ONCHAIN_CONFIRMATION_THRESHOLD then RPartiallyReplaced else RFullyReplaced
  | TxDropped => RDropped
  end.
Definition or_check_onchain_conf (c : TxConfStatus) (now : Z) (self : OnchainReceiveV2) : out unit (option OnchainReceiveV2 * option PaymentMetadataUpdate) :=
  match or_status self with
  | RFullyConfirmed | RFullyReplaced | RDropped => Bad tt
  | s =>
      let new_status := or_new_status c in
      if bool_decide (s = new_status) then Good (None, None)
      else Good (Some (mkOr (or_txid self) (or_kind self) (or_tx self) (or_amount self) new_status (or_created_at self)
        (if is_finalized (or_general new_status) then Some now else or_finalized_at self)), rp_update c)
  end.
(** [to_tx_conf_query] of both. *)
Definition tx_conf_query (p : PaymentV2) : out unit (option TxConfQuery) :=
  match p with
  | OnchainSend os => match os_created_at os with Some t => Good (Some (mkQuery (os_txid os) (tx_inputs (os_tx os)) t)) | None => Bad tt end
  | OnchainReceive o => match or_created_at o with Some t => Good (Some (mkQuery (or_txid o) (tx_inputs (or_tx o)) t)) | None => Bad tt end
  | _ => Good None
  end.

(** * Properties *)
Section Properties.
Context `{H : PayHash}.

(** ** One payment *)
(** The diagram of each kind. *)
Definition legal_os (s s' : OnchainSendStatus) : bool :=
  match s, s' with
  | SCreated, SBroadcasted => true
  | (SBroadcasted | SReplacementBroadcasted | SPartiallyConfirmed | SPartiallyReplaced), (SBroadcasted | SPartiallyConfirmed | SPartiallyReplaced | SFullyConfirmed | SFullyReplaced | SDropped) => true
  | _, _ => false
  end.
Definition legal (p p' : PaymentV2) : bool :=
  match p, p' with
  | OnchainSend a, OnchainSend b => legal_os (os_status a) (os_status b)
  | OnchainReceive a, OnchainReceive b => negb (is_finalized (or_general (or_status a)))
  | InboundInvoice a, InboundInvoice b =>
      match iip_status a, iip_status b with InvoiceGenerated, (IClaiming | ICompleted | IExpired) | IClaiming, ICompleted => true | _, _ => false end
  | InboundOfferReusable a, InboundOfferReusable b => match iorp_status a, iorp_status b with OClaiming, OCompleted => true | _, _ => false end
  | InboundSpontaneous a, InboundSpontaneous b => match isp_status a, isp_status b with SpClaiming, SpCompleted => true | _, _ => false end
  | OutboundInvoice a, OutboundInvoice b =>
      match oip_status a, oip_status b with OiPending, (OiAbandoning | OiCompleted | OiFailed) | OiAbandoning, (OiCompleted | OiFailed) => true | _, _ => false end
  | OutboundOffer a, OutboundOffer b =>
      match oop_status a, oop_status b with OoPending, (OoAbandoning | OoCompleted | OoFailed) | OoAbandoning, (OoCompleted | OoFailed) => true | _, _ => false end
  | _, _ => false
  end.
(** A payment stays as it is, or one that is pending takes one step of its diagram. *)
Definition advances (p p' : PaymentV2) : Prop :=
  p' = p \/ (status p = Pending /\ legal p p' = true /\ pay_id p' = pay_id p /\ created_at p' = created_at p).
(** What a completed send proves, and what a claim was let through with. *)
Definition evidence (p : PaymentV2) : Prop :=
  match p with
  | OutboundInvoice o => oip_status o = OiCompleted -> exists x, oip_preimage o = Some x /\ compute_hash x = oip_hash o
  | OutboundOffer o => oop_status o = OoCompleted -> exists x, oop_preimage o = Some x /\ oop_hash o = Some (compute_hash x)
  | InboundInvoice i => iip_status i = IClaiming -> exists a, recvd_amount i = Some a /\ forall s, iip_skimmed_fee i = Some s -> s <= allowed_skim (partner_fee i) a s
  | OutboundSpontaneous _ => False
  | _ => True
  end.
Definition payment_ok (p : PaymentV2) : Prop := payment_invariants p = true /\ evidence p.
(** What a check may answer about a payment. *)
Definition steps_from {E A} (mk : A -> PaymentV2) (q : PaymentV2) (o : out E A) : Prop :=
  match o with Good a => advances q (mk a) /\ payment_ok (mk a) | Bad _ => True | Unreachable => False end.

Lemma pending_invariants q : payment_invariants q = true -> status q = Pending -> finalized_at q = None.
Proof. unfold payment_invariants. intros Hi Hs. rewrite Hs in Hi. by destruct (finalized_at q). Qed.
(** Proves [steps_from] of one check: its guards, its status, then the new payment. *)
Ltac by_status Hi He Hp Hf :=
  let Es := fresh "Es" in
  intros [Hi He] Hp; pose proof (pending_invariants _ Hi Hp) as Hf; cbn in Hp, Hf;
  repeat match goal with |- steps_from _ _ (if ?b then _ else _) => destruct b eqn:?; [done|] end;
  match goal with |- steps_from _ _ (match ?s with _ => _ end) => destruct s eqn:Es end; try done;
  (split; [right; cbn; by rewrite Es|split; [unfold payment_invariants; cbn; by rewrite ?Hf|]]).

Lemma iip_claimable_steps hash secret preimage claim amount skim t i : payment_ok (InboundInvoice i) -> status (InboundInvoice i) = Pending ->
  steps_from InboundInvoice (InboundInvoice i) (iip_check_payment_claimable hash secret preimage claim amount skim t i).
Proof.
  intros [Hi He] Hp. pose proof (pending_invariants _ Hi Hp) as Hf. unfold iip_check_payment_claimable. cbn in Hp, Hf.
  destruct (negb _); [done|]. destruct (negb _); [done|]. destruct (negb _); [done|]. destruct (match claim with Some _ => _ | None => _ end); [done|].
  destruct (iip_status i) eqn:Es; try done. destruct (is_expired_by _ _ _); [done|]. destruct (match skim with Some _ => _ | None => _ end) eqn:Ek; [done|].
  split; [right; cbn; by rewrite Es|]. split; [cbn; unfold payment_invariants; cbn; by rewrite Hf|]. cbn. intros _. exists amount. split; [done|].
  intros s ->. by apply Z.ltb_ge in Ek.
Qed.
Lemma iip_claimed_steps hash secret preimage amount t i : payment_ok (InboundInvoice i) -> status (InboundInvoice i) = Pending ->
  steps_from InboundInvoice (InboundInvoice i) (iip_check_payment_claimed hash secret preimage amount t i).
Proof. unfold iip_check_payment_claimed. by_status Hi He Hp Hf; done. Qed.
Lemma iorp_claimed_steps ctx amount t i : payment_ok (InboundOfferReusable i) -> status (InboundOfferReusable i) = Pending ->
  steps_from InboundOfferReusable (InboundOfferReusable i) (iorp_check_payment_claimed ctx amount t i).
Proof. unfold iorp_check_payment_claimed. by_status Hi He Hp Hf; done. Qed.
Lemma isp_claimed_steps hash preimage amount t i : payment_ok (InboundSpontaneous i) -> status (InboundSpontaneous i) = Pending ->
  steps_from InboundSpontaneous (InboundSpontaneous i) (isp_check_payment_claimed hash preimage amount t i).
Proof. unfold isp_check_payment_claimed. by_status Hi He Hp Hf; done. Qed.
Lemma oip_sent_steps hash preimage a f t o : payment_ok (OutboundInvoice o) -> status (OutboundInvoice o) = Pending ->
  steps_from OutboundInvoice (OutboundInvoice o) (oip_check_payment_sent hash preimage a f t o).
Proof.
  unfold oip_check_payment_sent. by_status Hi He Hp Hf; intros _; exists preimage;
    repeat match goal with E : negb _ = false |- _ => apply negb_false_iff, Z.eqb_eq in E end; (split; [done|]); cbn; congruence.
Qed.
Lemma oip_failed_steps id f t o : payment_ok (OutboundInvoice o) -> status (OutboundInvoice o) = Pending ->
  steps_from OutboundInvoice (OutboundInvoice o) (oip_check_payment_failed id f t o).
Proof. unfold oip_check_payment_failed. by_status Hi He Hp Hf; done. Qed.
Lemma oip_expiry_steps t o : payment_ok (OutboundInvoice o) -> status (OutboundInvoice o) = Pending ->
  steps_from OutboundInvoice (OutboundInvoice o) (oip_check_invoice_expiry t o).
Proof. unfold oip_check_invoice_expiry. by_status Hi He Hp Hf; done. Qed.
Lemma oop_sent_steps hash preimage a f t o : payment_ok (OutboundOffer o) -> status (OutboundOffer o) = Pending ->
  steps_from OutboundOffer (OutboundOffer o) (oop_check_payment_sent hash preimage a f t o).
Proof.
  unfold oop_check_payment_sent. by_status Hi He Hp Hf; intros _; exists preimage;
    repeat match goal with E : negb _ = false |- _ => apply negb_false_iff, Z.eqb_eq in E end; (split; [done|]); cbn; congruence.
Qed.
Lemma oop_failed_steps f t o : payment_ok (OutboundOffer o) -> status (OutboundOffer o) = Pending ->
  steps_from OutboundOffer (OutboundOffer o) (oop_check_payment_failed f t o).
Proof. unfold oop_check_payment_failed. by_status Hi He Hp Hf; done. Qed.
Lemma oop_expiry_steps t o : payment_ok (OutboundOffer o) -> status (OutboundOffer o) = Pending ->
  steps_from OutboundOffer (OutboundOffer o) (oop_check_offer_expiry t o).
Proof. unfold oop_check_offer_expiry. by_status Hi He Hp Hf; done. Qed.
Lemma broadcasted_steps txid o : payment_ok (OnchainSend o) -> status (OnchainSend o) = Pending ->
  steps_from OnchainSend (OnchainSend o) (broadcasted txid o).
Proof. unfold broadcasted. by_status Hi He Hp Hf; done. Qed.

(** The same for a check that may leave the payment alone. *)
Definition steps_maybe {E A} (mk : A -> PaymentV2) (q : PaymentV2) (o : out E (option A)) : Prop :=
  match o with Good (Some a) => advances q (mk a) /\ payment_ok (mk a) | Good None | Bad _ => True | Unreachable => False end.
Lemma iip_expiry_steps t i : payment_ok (InboundInvoice i) -> status (InboundInvoice i) = Pending ->
  steps_maybe InboundInvoice (InboundInvoice i) (iip_check_invoice_expiry t i).
Proof.
  intros [Hi He] Hp. pose proof (pending_invariants _ Hi Hp) as Hf. unfold iip_check_invoice_expiry. cbn in Hp, Hf.
  destruct (negb _); [done|]. destruct (iip_status i) eqn:Es; try done. split; [right; cbn; by rewrite Es|]. by split.
Qed.
Lemma os_conf_steps c t o : payment_ok (OnchainSend o) -> status (OnchainSend o) = Pending ->
  steps_maybe OnchainSend (OnchainSend o) (out_map fst (os_check_onchain_conf c t o)).
Proof.
  intros [Hi He] Hp. pose proof (pending_invariants _ Hi Hp) as Hf. unfold os_check_onchain_conf. cbn in Hp, Hf.
  destruct (os_status o) eqn:Es; try done; (case_bool_decide as Hn; [done|]); cbn [out_map fst steps_maybe];
    (split; [right; cbn; rewrite Es; repeat split; destruct c; cbn; try done; by destruct (_ <? _)|
      split; [|done]; unfold payment_invariants, os_with_status; cbn; rewrite Hf; destruct c; cbn; try done; by destruct (_ <? _)]).
Qed.
Lemma or_conf_steps c t o : payment_ok (OnchainReceive o) -> status (OnchainReceive o) = Pending ->
  steps_maybe OnchainReceive (OnchainReceive o) (out_map fst (or_check_onchain_conf c t o)).
Proof.
  intros [Hi He] Hp. pose proof (pending_invariants _ Hi Hp) as Hf. unfold or_check_onchain_conf. cbn in Hp, Hf.
  destruct (or_status o) eqn:Es; try done; (case_bool_decide as Hn; [done|]); cbn [out_map fst steps_maybe];
    (split; [right; cbn; rewrite Es; done|split; [|done]; unfold payment_invariants; cbn; rewrite Hf; destruct c; cbn; try done; by destruct (_ <? _)]).
Qed.
End Properties.
