(* ===== verification/PayManager.v ===== *)
(** * PayManager: the manager of the payments

    [quid-ln/quid-ln/src/payments/manager.rs]: the payments in memory, the persister behind
    them, the handlers of the events of the channel manager, and the periodic checks.

    Each transition is checked, then persisted, then committed, under one lock; what the manager
    calls in the channel manager is recorded.  Where the manager gives the lock up in between (a
    retry, a query of confirmations), each part is an operation of its own, so that a run may put
    anything between them.  The persister is a map that an operation reads and writes; a read may
    fail, and a write happens whole or fails.  The cache may forget at any time. *)
From stdpp Require Import base gmap list.
From S2P Require Import Prelude Pool Chain Payments.
Open Scope list_scope.

(** ** The manager's data *)
Record InFlightRetryState := mkFlight { max_attempts : Z; attempts_count : Z; failed_channel_scids : gset Z; fl_invoice : Invoice; fl_amount : Z }.
Record PaymentsData := mkData {
  pending : gmap PaymentId PaymentWithMetadata;
  finalized_payments_cache : gmap PaymentId PaymentWithMetadata;
  in_flight : gmap PaymentId InFlightRetryState }.
(** With what the persister holds. *)
Record World := mkWorld { data : PaymentsData; db : gmap PaymentId PaymentWithMetadata }.
Definition set_pending m (d : PaymentsData) : PaymentsData := mkData m (finalized_payments_cache d) (in_flight d).
Definition set_cache m (d : PaymentsData) : PaymentsData := mkData (pending d) m (in_flight d).
Definition set_in_flight m (d : PaymentsData) : PaymentsData := mkData (pending d) (finalized_payments_cache d) m.
Definition on_data (f : PaymentsData -> PaymentsData) (w : World) : World := mkWorld (f (data w)) (db w).

Definition pwm_id (p : PaymentWithMetadata) : PaymentId := pay_id (payment p).
Definition is_pending (p : PaymentWithMetadata) : bool := bool_decide (status (payment p) = Pending).
Definition commit (p : PaymentWithMetadata) (d : PaymentsData) : PaymentsData :=
  match status (payment p) with
  | Pending => set_pending (<[pwm_id p := p]> (pending d)) d
  | Completed | Failed => set_pending (delete (pwm_id p) (pending d)) d
  end.
(** [PaymentsData::debug_assert_invariants] *)
Definition data_invariants (d : PaymentsData) : Prop :=
  map_Forall (fun id p => pwm_id p = id /\ status (payment p) = Pending /\ payment_invariants (payment p) = true) (pending d) /\
  map_Forall (fun id p => pwm_id p = id /\ is_finalized (status (payment p)) = true /\ pending d !! id = None /\ payment_invariants (payment p) = true) (finalized_payments_cache d).

Definition start_in_flight (id : PaymentId) (max : Z) (i : Invoice) (amount : Z) (d : PaymentsData) : PaymentsData :=
  set_in_flight (<[id := mkFlight max 1 ∅ i amount]> (in_flight d)) d.
Definition remove_in_flight (id : PaymentId) (d : PaymentsData) : PaymentsData := set_in_flight (delete id (in_flight d)) d.
Definition record_path_failure (id : PaymentId) (scid : Z) (d : PaymentsData) : PaymentsData :=
  match in_flight d !! id with
  | None => d
  | Some s => set_in_flight (<[id := mkFlight (max_attempts s) (attempts_count s) ({[scid]} ∪ failed_channel_scids s) (fl_invoice s) (fl_amount s)]> (in_flight d)) d
  end.
Definition increment_attempt (id : PaymentId) (d : PaymentsData) : PaymentsData :=
  match in_flight d !! id with
  | None => d
  | Some s => set_in_flight (<[id := mkFlight (max_attempts s) (Z.min 255 (attempts_count s + 1)) (failed_channel_scids s) (fl_invoice s) (fl_amount s)]> (in_flight d)) d
  end.
Definition has_remaining_attempts (id : PaymentId) (d : PaymentsData) : bool :=
  match in_flight d !! id with Some s => attempts_count s <? max_attempts s | None => false end.
Definition should_retry (id : PaymentId) (f : LxOutboundPaymentFailure) (d : PaymentsData) : bool := negb (is_permanent f) && has_remaining_attempts id d.

(** ** The checks *)
Definition some_or {E} (o : option PaymentWithMetadata) (e : E) : out E PaymentWithMetadata := match o with Some p => Good p | None => Bad e end.
Definition check_payment_claimable (ctx : LnClaimCtx) (amount : Z) (skimmed_fee : option Z) (now : Z) (d : PaymentsData) : out ClaimableError PaymentWithMetadata :=
  match pending d !! ctx_id ctx with
  | Some p => pwm_check_payment_claimable ctx amount skimmed_fee now p
  | None =>
      match ctx with
      | Bolt11Invoice _ _ _ _ => Bad Replay
      | Bolt12Offer x => some_or (iorp_new x KOffer amount skimmed_fee) Replay
      | Spontaneous preimage hash _ => some_or (isp_new hash preimage KSpontaneous amount skimmed_fee) Replay
      end
  end.
Definition check_payment_claimed (ctx : LnClaimCtx) (amount now : Z) (d : PaymentsData) : out unit PaymentWithMetadata :=
  match pending d !! ctx_id ctx with
  | None => Bad tt
  | Some p =>
      match payment p, ctx with
      | InboundInvoice iip, Bolt11Invoice preimage hash secret _ =>
          out_map (fun i => mkPwm (InboundInvoice i) (metadata p)) (iip_check_payment_claimed hash secret preimage amount now iip)
      | InboundOfferReusable iorp, Bolt12Offer x => out_map (fun i => mkPwm (InboundOfferReusable i) (metadata p)) (iorp_check_payment_claimed x amount now iorp)
      | InboundSpontaneous isp, Spontaneous preimage hash _ =>
          out_map (fun i => mkPwm (InboundSpontaneous i) (metadata p)) (isp_check_payment_claimed hash preimage amount now isp)
      | _, _ => Bad tt
      end
  end.
Definition check_payment_sent `{PayHash} (id : PaymentId) (hash preimage : Z) (maybe_amount : option Z) (fees_paid now : Z) (d : PaymentsData) : out unit PaymentWithMetadata :=
  match pending d !! id with
  | None => Bad tt
  | Some p =>
      match payment p with
      | OutboundInvoice oip => out_map (fun o => mkPwm (OutboundInvoice o) (metadata p)) (oip_check_payment_sent hash preimage maybe_amount fees_paid now oip)
      | OutboundOffer oop => out_map (fun o => mkPwm (OutboundOffer o) (metadata p)) (oop_check_payment_sent hash preimage maybe_amount fees_paid now oop)
      | OutboundSpontaneous _ => Unreachable
      | _ => Bad tt
      end
  end.
Definition check_payment_failed (id : PaymentId) (failure : LxOutboundPaymentFailure) (now : Z) (d : PaymentsData) : out unit PaymentWithMetadata :=
  match pending d !! id with
  | None => Bad tt
  | Some p =>
      match payment p with
      | OutboundInvoice oip => out_map (fun o => mkPwm (OutboundInvoice o) (metadata p)) (oip_check_payment_failed id failure now oip)
      | OutboundOffer oop => out_map (fun o => mkPwm (OutboundOffer o) (metadata p)) (oop_check_payment_failed failure now oop)
      | OutboundSpontaneous _ => Unreachable
      | _ => Bad tt
      end
  end.
(** One payment of [check_payment_expiries]: what changes, and whether it is abandoned. *)
Definition check_expiry (now : Z) (p : PaymentWithMetadata) : out unit (option PaymentWithMetadata * option Z) :=
  match payment p with
  | InboundInvoice iip =>
      out_map (fun o => (option_map (fun i => mkPwm (InboundInvoice i) (metadata p)) o, None)) (iip_check_invoice_expiry now iip)
  | OutboundInvoice oip =>
      match oip_check_invoice_expiry now oip with
      | Good o => Good (Some (mkPwm (OutboundInvoice o) (metadata p)), Some (oip_hash o))
      | Bad Ignore => Good (None, None)
      | Bad IgnoreAndAbandon => Good (None, Some (oip_hash oip))
      | Unreachable => Unreachable
      end
  | OutboundOffer oop =>
      match oop_check_offer_expiry now oop with
      | Good o => Good (Some (mkPwm (OutboundOffer o) (metadata p)), Some (oop_client_id o))
      | Bad Ignore => Good (None, None)
      | Bad IgnoreAndAbandon => Good (None, Some (oop_client_id oop))
      | Unreachable => Unreachable
      end
  | _ => Good (None, None)
  end.
Definition opt_cons {A} (o : option A) (l : list A) : list A := match o with Some a => a :: l | None => l end.
Fixpoint check_expiries_of (now : Z) (l : list PaymentWithMetadata) : out unit (list PaymentWithMetadata * list Z) :=
  match l with
  | [] => Good ([], [])
  | p :: l =>
      match check_expiry now p with
      | Good (c, a) => out_map (fun '(cs, ops) => (opt_cons c cs, opt_cons a ops)) (check_expiries_of now l)
      | Bad e => Bad e
      | Unreachable => Unreachable
      end
  end.
Definition values {A} (m : gmap PaymentId A) : list A := map snd (map_to_list m).
(** The changed payment of a check, with its metadata updated. *)
Definition with_update {A} (mk : A -> PaymentV2) (m : PaymentMetadata) (r : option A * option PaymentMetadataUpdate) : option PaymentWithMetadata :=
  match r.1 with Some x => Some (mkPwm (mk x) (match r.2 with Some u => apply_update u m | None => m end)) | None => None end.
Definition check_conf (c : TxConfStatus) (now : Z) (p : PaymentWithMetadata) : out unit (option PaymentWithMetadata) :=
  match payment p with
  | OnchainSend os => out_map (with_update OnchainSend (metadata p)) (os_check_onchain_conf c now os)
  | OnchainReceive o => out_map (with_update OnchainReceive (metadata p)) (or_check_onchain_conf c now o)
  | _ => Bad tt
  end.
Fixpoint data_check_onchain_confs (l : list (PaymentId * TxConfStatus)) (now : Z) (d : PaymentsData) : out unit (list PaymentWithMetadata) :=
  match l with
  | [] => Good []
  | (id, c) :: l =>
      match pending d !! id with
      | None => Bad tt
      | Some p =>
          match check_conf c now p with
          | Good o => out_map (opt_cons o) (data_check_onchain_confs l now d)
          | Bad e => Bad e
          | Unreachable => Unreachable
          end
      end
  end.

(** ** The manager's operations *)
(** What the persister answers: whether a read succeeds, and when a write does, its time. *)
Record Env := mkEnv { rd : PaymentId -> bool; wr : PaymentId -> option Z; wr_batch : option Z; now : Z }.
Inductive FailureCode := IncorrectOrUnknownPaymentDetails | TemporaryNodeFailure.
Inductive Call := ClaimFunds (preimage : Z) | FailHtlcBackwards (hash : Z) (code : FailureCode) | AbandonPayment (ldk_id : Z).
Definition Result : Type := World * list Call * out unit unit.

Definition get_cow_payment (e : Env) (id : PaymentId) (w : World) : World * out unit (option PaymentWithMetadata) :=
  match pending (data w) !! id with
  | Some p => (w, Good (Some p))
  | None =>
      match finalized_payments_cache (data w) !! id with
      | Some p => (w, Good (Some p))
      | None =>
          if negb (rd e id) then (w, Bad tt) else
          match db w !! id with
          | Some p => (on_data (fun d => set_cache (<[id := p]> (finalized_payments_cache d)) d) w, Good (Some p))
          | None => (w, Good None)
          end
      end
  end.
Definition persisted (t : Z) (p : PaymentWithMetadata) : PaymentWithMetadata := mkPwm (set_created_at_idempotent t (payment p)) (metadata p).
Definition save (t : Z) (p : PaymentWithMetadata) (w : World) : World :=
  let p := persisted t p in mkWorld (commit p (data w)) (<[pwm_id p := p]> (db w)).
(** [upsert_payment], then [commit]. *)
Definition persist_commit (e : Env) (p : PaymentWithMetadata) (w : World) : World * bool :=
  match wr e (pwm_id p) with Some t => (save t p w, true) | None => (w, false) end.
(** [upsert_payment_batch], then [commit] of each. *)
Definition persist_commit_batch (e : Env) (l : list PaymentWithMetadata) (w : World) : World * bool :=
  match wr_batch e with Some t => (foldl (fun w p => save t p w) w l, true) | None => (w, false) end.
Definition done_if (b : bool) : out unit unit := if b then Good tt else Bad tt.
(** A check, then its persistence. *)
Definition checked_step (e : Env) (c : out unit PaymentWithMetadata) (w : World) : Result :=
  match c with
  | Good p => let '(w, ok) := persist_commit e p w in (w, [], done_if ok)
  | Bad _ => (w, [], Bad tt)
  | Unreachable => (w, [], Unreachable)
  end.
Definition finalized_of (o : option PaymentWithMetadata) : bool := match o with Some p => is_finalized (status (payment p)) | None => false end.

Definition new_payment_inner (e : Env) (p : PaymentWithMetadata) (w : World) : Result :=
  match get_cow_payment e (pwm_id p) w with
  | (w, Good None) => checked_step e (Good p) w
  | (w, _) => (w, [], Bad tt)
  end.
Definition update_personal_note (e : Env) (id : PaymentId) (note : option (list Z)) (w : World) : Result :=
  if negb (rd e id) then (w, [], Bad tt) else
  match db w !! id with
  | None => (w, [], Bad tt)
  | Some p => checked_step e (Good (mkPwm (payment p) (set_note note (metadata p)))) w
  end.
(** [handle_claimable] of [payment_claimable]. *)
Definition handle_claimable (e : Env) (ctx : LnClaimCtx) (amount : Z) (skimmed_fee : option Z) (w : World) : World * out ClaimableError unit :=
  match get_cow_payment e (ctx_id ctx) w with
  | (w, Good o) =>
      if finalized_of o then (w, Bad FailBackHtlcsTheirFault) else
      match check_payment_claimable ctx amount skimmed_fee (now e) (data w) with
      | Good p => let '(w, ok) := persist_commit e p w in (w, if ok then Good tt else Bad Persist)
      | Bad err => (w, Bad err)
      | Unreachable => (w, Unreachable)
      end
  | (w, _) => (w, Bad Replay)
  end.
Definition payment_claimable (e : Env) (purpose : PaymentPurpose) (hash : Z) (claim_id : option Z) (amount : Z) (skimmed_fee : option Z) (w : World) : Result :=
  match claim_ctx_new purpose hash claim_id None with
  | None => (w, [FailHtlcBackwards hash IncorrectOrUnknownPaymentDetails], Bad tt)
  | Some ctx =>
      let '(w, r) := handle_claimable e ctx amount skimmed_fee w in
      match r with
      | Good tt => (w, [ClaimFunds (ctx_preimage ctx)], Good tt)
      | Bad IgnoreAndReclaim => (w, [ClaimFunds (ctx_preimage ctx)], Good tt)
      | Bad Replay => (w, [FailHtlcBackwards hash IncorrectOrUnknownPaymentDetails], Bad tt)
      | Bad Persist => (w, [FailHtlcBackwards hash TemporaryNodeFailure], Good tt)
      | Bad FailBackHtlcsTheirFault => (w, [FailHtlcBackwards hash IncorrectOrUnknownPaymentDetails], Good tt)
      | Unreachable => (w, [], Unreachable)
      end
  end.
(** The payment is looked up; a final one needs nothing more. *)
Definition unless_finalized (e : Env) (id : PaymentId) (w : World) (k : World -> Result) : Result :=
  match get_cow_payment e id w with
  | (w, Good o) => if finalized_of o then (w, [], Good tt) else k w
  | (w, _) => (w, [], Bad tt)
  end.
Definition payment_claimed (e : Env) (purpose : PaymentPurpose) (hash : Z) (claim_id : option Z) (amount : Z) (w : World) : Result :=
  match claim_ctx_new purpose hash claim_id None with
  | None => (w, [], Bad tt)
  | Some ctx => unless_finalized e (ctx_id ctx) w (fun w => checked_step e (check_payment_claimed ctx amount (now e) (data w)) w)
  end.
Definition payment_sent `{PayHash} (e : Env) (id : PaymentId) (hash preimage : Z) (maybe_amount : option Z) (fees_paid : Z) (w : World) : Result :=
  unless_finalized e id w (fun w =>
    match checked_step e (check_payment_sent id hash preimage maybe_amount fees_paid (now e) (data w)) w with
    | (w, cs, Good tt) => (on_data (remove_in_flight id) w, cs, Good tt)
    | r => r
    end).
(** [payment_failed] after its retry, if any. *)
Definition fail_payment (e : Env) (id : PaymentId) (failure : LxOutboundPaymentFailure) (w : World) : Result :=
  let w := on_data (remove_in_flight id) w in
  checked_step e (check_payment_failed id failure (now e) (data w)) w.
Definition check_payment_expiries (e : Env) (w : World) : Result :=
  match check_expiries_of (now e) (values (pending (data w))) with
  | Good (checked, ops) =>
      let '(w, ok) := persist_commit_batch e checked w in
      if ok then (w, map AbandonPayment ops, Good tt) else (w, [], Bad tt)
  | Bad _ => (w, [], Bad tt)
  | Unreachable => (w, [], Unreachable)
  end.
Definition onchain_send_broadcasted (e : Env) (id : PaymentId) (txid : Z) (w : World) : Result :=
  match get_cow_payment e id w with
  | (w, Good (Some p)) =>
      if is_finalized (status (payment p)) then (w, [], Bad tt) else
      match payment p with
      | OnchainSend os => checked_step e (out_map (fun o => mkPwm (OnchainSend o) (metadata p)) (broadcasted txid os)) w
      | _ => (w, [], Bad tt)
      end
  | (w, _) => (w, [], Bad tt)
  end.
(** The queries [check_onchain_confs] makes before it gives the lock up, and what it does with
    the answers. *)
Fixpoint pending_queries (l : list PaymentWithMetadata) : out unit (list (PaymentId * TxConfQuery)) :=
  match l with
  | [] => Good []
  | p :: l =>
      match tx_conf_query (payment p) with
      | Good q => out_map (fun qs => match q with Some q => (pwm_id p, q) :: qs | None => qs end) (pending_queries l)
      | Bad e => Bad e
      | Unreachable => Unreachable
      end
  end.
Definition check_onchain_confs (e : Env) (answers : list (PaymentId * TxConfStatus)) (w : World) : Result :=
  match data_check_onchain_confs answers (now e) (data w) with
  | Good checked => let '(w, ok) := persist_commit_batch e checked w in (w, [], done_if ok)
  | Bad _ => (w, [], Bad tt)
  | Unreachable => (w, [], Unreachable)
  end.
(** The unspent outputs of the wallet, each with its transaction and what that pays us. *)
Fixpoint unseen_of (e : Env) (utxos : list (Tx * option Z)) (w : World) : World * option (list (Tx * option Z)) :=
  match utxos with
  | [] => (w, Some [])
  | u :: utxos =>
      match get_cow_payment e (OnchainRecvId (tx_id u.1)) w with
      | (w, Good o) => let '(w, r) := unseen_of e utxos w in (w, option_map (fun l => match o with None => u :: l | Some _ => l end) r)
      | (w, _) => (w, None)
      end
  end.
Fixpoint onchain_recvs_of (l : list (Tx * option Z)) : option (list PaymentWithMetadata) :=
  match l with
  | [] => Some []
  | (tx, amount) :: l =>
      match amount with
      | None => None
      | Some amount => match or_new tx KOnchain amount, onchain_recvs_of l with Some p, Some ps => Some (p :: ps) | _, _ => None end
      end
  end.
Fixpoint register_all (e : Env) (l : list PaymentWithMetadata) (w : World) : Result :=
  match l with
  | [] => (w, [], Good tt)
  | p :: l => match new_payment_inner e p w with (w, _, Good tt) => register_all e l w | r => r end
  end.
Definition check_onchain_recvs (e : Env) (utxos : list (Tx * option Z)) (w : World) : Result :=
  match unseen_of e utxos w with
  | (w, Some unseen) => match onchain_recvs_of unseen with Some l => register_all e l w | None => (w, [], Bad tt) end
  | (w, None) => (w, [], Bad tt)
  end.
(** [PaymentsManager::new] *)
Definition manager_new (pending_payments : list PaymentWithMetadata) : PaymentsData :=
  mkData (list_to_map (reverse (map (fun p => (pwm_id p, p)) (filter (fun p => is_pending p = true) pending_payments)))) ∅ ∅.

(** ** Retries *)
Inductive SendResult := SendOk | DuplicatePayment | PaymentExpired | RouteNotFound | OnionPacketSizeExceeded.
(** What the router and the channel manager answer to the k-th attempt. *)
Record Net := mkNet { params_ok : nat -> bool; route_found : nat -> bool; send_result : nat -> SendResult }.
(** The sends are counted. *)
Fixpoint retry_payment (n : Net) (fuel k : nat) (id : PaymentId) (d : PaymentsData) (sends : nat) : option (PaymentsData * nat * option LxOutboundPaymentFailure) :=
  match fuel with
  | O => None
  | S fuel =>
      match in_flight d !! id with
      | None => Some (d, sends, Some NoRetries)
      | Some _ =>
          if negb (params_ok n k) then Some (d, sends, Some QuidErr)
          else if negb (route_found n k) then
            let d := increment_attempt id d in
            if has_remaining_attempts id d then retry_payment n fuel (S k) id d sends else Some (d, sends, Some NoRoute)
          else match id with
          | Lightning _ =>
              match send_result n k with
              | SendOk => Some (increment_attempt id d, S sends, None)
              | DuplicatePayment => Some (d, sends, None)
              | PaymentExpired => Some (d, sends, Some FExpired)
              | RouteNotFound => Some (d, sends, Some NoRoute)
              | OnionPacketSizeExceeded => Some (d, sends, Some MetadataTooLarge)
              end
          | _ => Some (d, sends, Some QuidErr)
          end
      end
  end.
(** [payment_failed] with nothing in between its parts; the fuel is what an attempt counter of
    eight bits allows. *)
Definition RETRY_FUEL : nat := 257.
Definition payment_failed (e : Env) (n : Net) (id : PaymentId) (failure : LxOutboundPaymentFailure) (w : World) : option (Result * nat) :=
  match get_cow_payment e id w with
  | (w, Good o) =>
      if finalized_of o then Some ((w, [], Good tt), 0%nat)
      else if should_retry id failure (data w) then
        match retry_payment n RETRY_FUEL 0 id (data w) 0 with
        | None => None
        | Some (d, sends, None) => Some ((mkWorld d (db w), [], Good tt), sends)
        | Some (d, sends, Some failure) => Some (fail_payment e id failure (mkWorld d (db w)), sends)
        end
      else Some (fail_payment e id failure w, 0%nat)
  | (w, _) => Some ((w, [], Bad tt), 0%nat)
  end.

(** ** Runs *)
Inductive NewPayment :=
| NewInboundInvoice (i : Invoice) (hash secret preimage : Z) (kind : PaymentKind) (message : option (list Z)) (pf : option PartnerFeeFields)
| NewOutboundInvoice (i : Invoice) (kind : PaymentKind) (amount fee : Z) (message note : option (list Z))
| NewOutboundOffer (client_id : Z) (o : Offer) (kind : PaymentKind) (amount : Z) (quantity : option Z) (fee : Z) (name message note : option (list Z))
| NewOnchainSend (tx : Tx) (req : PayOnchainRequest) (kind : PaymentKind) (fee : Z).
Definition built (r : NewPayment) : option PaymentWithMetadata :=
  match r with
  | NewInboundInvoice i h s x k m f => iip_new i h s x k m f
  | NewOutboundInvoice i k a f m n => oip_new i k a f m n
  | NewOutboundOffer c o k a q f nm m n => oop_new c o k a q f nm m n
  | NewOnchainSend t r k f => os_new t r k f
  end.
Inductive Op :=
| ONew (r : NewPayment)
| OStartInFlight (id : PaymentId) (max : Z) (i : Invoice) (amount : Z)
| OGet (id : PaymentId)
| ONote (id : PaymentId) (note : option (list Z))
| OClaimable (purpose : PaymentPurpose) (hash : Z) (claim_id : option Z) (amount : Z) (skimmed_fee : option Z)
| OClaimed (purpose : PaymentPurpose) (hash : Z) (claim_id : option Z) (amount : Z)
| OSent (id : PaymentId) (hash preimage : Z) (maybe_amount : option Z) (fees_paid : Z)
| OAttempted (id : PaymentId)
| OFailed (id : PaymentId) (failure : LxOutboundPaymentFailure)
| OPathFailed (id : PaymentId) (scid : Z)
| OExpiries
| OBroadcasted (id : PaymentId) (txid : Z)
| OConfs (answers : gmap PaymentId TxConfStatus)
| ORecvs (utxos : list (Tx * option Z))
| OEvict (id : PaymentId)
| ORestart.
Definition exec `{PayHash} (e : Env) (o : Op) (w : World) : Result :=
  match o with
  | ONew r => match built r with Some p => new_payment_inner e p w | None => (w, [], Bad tt) end
  | OStartInFlight id max i amount => (on_data (start_in_flight id max i amount) w, [], Good tt)
  | OGet id => ((get_cow_payment e id w).1, [], Good tt)
  | ONote id note => update_personal_note e id note w
  | OClaimable purpose hash claim_id amount skimmed_fee => payment_claimable e purpose hash claim_id amount skimmed_fee w
  | OClaimed purpose hash claim_id amount => payment_claimed e purpose hash claim_id amount w
  | OSent id hash preimage maybe_amount fees_paid => payment_sent e id hash preimage maybe_amount fees_paid w
  | OAttempted id => (on_data (increment_attempt id) w, [], Good tt)
  | OFailed id failure => fail_payment e id failure w
  | OPathFailed id scid => (on_data (record_path_failure id scid) w, [], Good tt)
  | OExpiries => check_payment_expiries e w
  | OBroadcasted id txid => onchain_send_broadcasted e id txid w
  | OConfs answers => check_onchain_confs e (map_to_list answers) w
  | ORecvs utxos => check_onchain_recvs e utxos w
  | OEvict id => (on_data (fun d => set_cache (delete id (finalized_payments_cache d)) d) w, [], Good tt)
  | ORestart => (mkWorld (manager_new (filter (fun p => is_pending p = true) (values (db w)))) (db w), [], Good tt)
  end.
Definition run_ops `{PayHash} (w : World) (l : list (Env * Op)) : World := foldl (fun w '(e, o) => (exec e o w).1.1) w l.
Definition world_new : World := mkWorld (manager_new []) ∅.

(** * Properties *)
Section Manager.
Context `{H : PayHash}.

(** ** Saving *)
Record pinv (w : World) : Prop := {
  pv_db : forall id p, db w !! id = Some p -> pwm_id p = id /\ payment_ok (payment p) /\ is_Some (created_at (payment p));
  pv_pending : forall id p, pending (data w) !! id = Some p <-> db w !! id = Some p /\ status (payment p) = Pending;
  pv_cache : forall id p, finalized_payments_cache (data w) !! id = Some p ->
    exists q, db w !! id = Some q /\ payment q = payment p /\ is_finalized (status (payment p)) = true }.
Definition db_le (w w' : World) : Prop :=
  forall id p, db w !! id = Some p -> exists p', db w' !! id = Some p' /\ advances (payment p) (payment p').
Definition savable (w : World) (p : PaymentWithMetadata) : Prop :=
  payment_ok (payment p) /\ (db w !! pwm_id p = None \/ exists q, db w !! pwm_id p = Some q /\ advances (payment q) (payment p)).

Lemma set_created_facts t p :
  pay_id (set_created_at_idempotent t p) = pay_id p /\ status (set_created_at_idempotent t p) = status p /\
  is_Some (created_at (set_created_at_idempotent t p)) /\ (payment_ok p -> payment_ok (set_created_at_idempotent t p)).
Proof. destruct p as [[]|[]|[]|[]|[]|[]|[]|[]]; cbn; (split_and!; [done|done|by eexists|]); unfold payment_ok, payment_invariants; cbn; tauto. Qed.
Lemma set_created_known t p : is_Some (created_at p) -> set_created_at_idempotent t p = p.
Proof. destruct p as [[]|[]|[]|[]|[]|[]|[]|[]]; cbn; intros [x ->]; done. Qed.
Lemma persisted_id t p : pwm_id (persisted t p) = pwm_id p.
Proof. apply set_created_facts. Qed.
Lemma advances_refl p : advances p p.
Proof. by left. Qed.
Lemma db_le_refl w : db_le w w.
Proof. intros id p Hp. exists p. split; [done|apply advances_refl]. Qed.
Lemma db_le_sub w w' : db w ⊆ db w' -> db_le w w'.
Proof. intros Hs id p Hp. exists p. split; [by eapply lookup_weaken|apply advances_refl]. Qed.

Lemma save_other t p w id : id <> pwm_id p -> db (save t p w) !! id = db w !! id.
Proof. intros Hne. cbn. rewrite persisted_id. by rewrite lookup_insert_ne. Qed.
Lemma save_at t p w : db (save t p w) !! pwm_id p = Some (persisted t p).
Proof. cbn. rewrite persisted_id. by rewrite lookup_insert_eq. Qed.
Lemma save_payment t p w : pinv w -> savable w p -> db w !! pwm_id p = None \/ payment (persisted t p) = payment p.
Proof.
  intros Hw [_ [Hn|(q & Hq & Ha)]]; [by left|]. right. apply set_created_known.
  destruct (pv_db _ Hw _ _ Hq) as (_ & _ & Hc). destruct Ha as [->|(_ & _ & _ & ->)]; done.
Qed.
Lemma save_le t p w : pinv w -> savable w p -> db_le w (save t p w).
Proof.
  intros Hw Hs id q Hq. destruct (decide (id = pwm_id p)) as [->|Hne]; [|exists q; rewrite save_other by done; split; [done|apply advances_refl]].
  exists (persisted t p). rewrite save_at. split; [done|]. destruct (save_payment t p w Hw Hs) as [E|E]; [congruence|]. rewrite E.
  destruct Hs as [_ [Hn|(q' & Hq' & Ha)]]; congruence.
Qed.
Lemma commit_pending p d id : pending (commit p d) !! id = if decide (id = pwm_id p) then (if decide (status (payment p) = Pending) then Some p else None) else pending d !! id.
Proof.
  unfold commit. destruct (decide (id = pwm_id p)) as [->|Hne]; destruct (status (payment p)); cbn;
    rewrite ?lookup_insert_eq, ?lookup_delete_eq, ?lookup_insert_ne, ?lookup_delete_ne by done; done.
Qed.
Lemma commit_cache p d : finalized_payments_cache (commit p d) = finalized_payments_cache d.
Proof. unfold commit. by destruct (status _). Qed.
Lemma save_inv t p w : pinv w -> savable w p -> pinv (save t p w).
Proof.
  intros Hw Hs. destruct (set_created_facts t (payment p)) as (Hid & Hst & Hcr & Hok). constructor.
  - intros id q Hq. destruct (decide (id = pwm_id p)) as [->|Hne]; [|rewrite save_other in Hq by done; by apply (pv_db _ Hw)].
    rewrite save_at in Hq. injection Hq as <-. split; [apply persisted_id|]. split; [apply Hok, Hs|done].
  - intros id q. unfold save at 1. cbn [data]. rewrite commit_pending, persisted_id.
    destruct (decide (id = pwm_id p)) as [->|Hne]; [|rewrite save_other by done; apply (pv_pending _ Hw)].
    rewrite save_at. destruct (decide _) as [Hp|Hp]; split; [by intros [= <-]|by intros [? _]|done|by intros [[= <-] ?]].
  - intros id q. unfold save. cbn [data]. rewrite commit_cache. intros Hc. destruct (pv_cache _ Hw _ _ Hc) as (r & Hr & Hp & Hfin).
    destruct (save_le t p w Hw Hs _ _ Hr) as (r' & Hr' & Ha). exists r'. split; [done|]. split; [|done].
    destruct Ha as [->|(Hpend & _)]; [done|]. rewrite Hp in Hpend. by rewrite Hpend in Hfin.
Qed.

(** ** The checks *)
Definition savable_out {E} (w : World) (o : out E PaymentWithMetadata) : Prop :=
  match o with Good p => savable w p | Bad _ => True | Unreachable => False end.
Lemma savable_step w id q p m : pinv w -> pending (data w) !! id = Some q -> advances (payment q) p -> payment_ok p -> savable w (mkPwm p m).
Proof.
  intros Hw Hq Ha Hok. apply (pv_pending _ Hw) in Hq as [Hq Hp]. destruct (pv_db _ Hw _ _ Hq) as (Hid & _). split; [done|]. right. exists q.
  split; [|done]. unfold pwm_id in *. cbn. destruct Ha as [->|(_ & _ & -> & _)]; by rewrite Hid.
Qed.
Lemma savable_map {E A} w id q (mk : A -> PaymentV2) m (o : out E A) : pinv w -> pending (data w) !! id = Some q -> steps_from mk (payment q) o ->
  savable_out w (out_map (fun a => mkPwm (mk a) m) o).
Proof. intros Hw Hq Ho. destruct o as [a| |]; [|done|done]. destruct Ho. by eapply savable_step. Qed.
Lemma pending_facts w id q : pinv w -> pending (data w) !! id = Some q -> payment_ok (payment q) /\ status (payment q) = Pending /\ pwm_id q = id.
Proof. intros Hw Hq. apply (pv_pending _ Hw) in Hq as [Hq Hp]. by destruct (pv_db _ Hw _ _ Hq) as (? & ? & _). Qed.
Ltac of_pending Hw Hq := let Hok := fresh "Hok" in let Hst := fresh "Hst" in destruct (pending_facts _ _ _ Hw Hq) as (Hok & Hst & _).

Lemma claimable_savable w ctx amount skim t : pinv w -> (pending (data w) !! ctx_id ctx = None -> db w !! ctx_id ctx = None) ->
  savable_out w (check_payment_claimable ctx amount skim t (data w)).
Proof.
  intros Hw Hn. unfold check_payment_claimable. destruct (pending (data w) !! ctx_id ctx) as [q|] eqn:Hq.
  - of_pending Hw Hq. unfold pwm_check_payment_claimable. destruct (negb _); [done|]. destruct q as [pq m]. cbn [payment metadata] in *.
    destruct pq; destruct ctx; try done.
    + eapply savable_map; [done|exact Hq|]. by apply iip_claimable_steps.
    + unfold iorp_check_payment_claimable. repeat (destruct (negb _); [done|]). cbn in Hst. by destruct (iorp_status iorp).
    + unfold isp_check_payment_claimable. repeat (destruct (negb _); [done|]). cbn in Hst. by destruct (isp_status isp).
  - specialize (Hn eq_refl). destruct ctx; cbn; [done| |]; (split; [by split|by left]).
Qed.
Lemma claimed_savable w ctx amount t : pinv w -> savable_out w (check_payment_claimed ctx amount t (data w)).
Proof.
  intros Hw. unfold check_payment_claimed. destruct (pending (data w) !! ctx_id ctx) as [q|] eqn:Hq; [|done]. of_pending Hw Hq.
  destruct q as [pq m]. cbn [payment metadata] in *. destruct pq; destruct ctx; try done; (eapply savable_map; [done|exact Hq|]).
  - by apply iip_claimed_steps.
  - by apply iorp_claimed_steps.
  - by apply isp_claimed_steps.
Qed.
Lemma sent_savable w id hash preimage a f t : pinv w -> savable_out w (check_payment_sent id hash preimage a f t (data w)).
Proof.
  intros Hw. unfold check_payment_sent. destruct (pending (data w) !! id) as [q|] eqn:Hq; [|done]. of_pending Hw Hq.
  destruct q as [pq m]. cbn [payment metadata] in *. destruct pq; try done; [| |by destruct Hok]; (eapply savable_map; [done|exact Hq|]).
  - by apply oip_sent_steps.
  - by apply oop_sent_steps.
Qed.
Lemma failed_savable w id f t : pinv w -> savable_out w (check_payment_failed id f t (data w)).
Proof.
  intros Hw. unfold check_payment_failed. destruct (pending (data w) !! id) as [q|] eqn:Hq; [|done]. of_pending Hw Hq.
  destruct q as [pq m]. cbn [payment metadata] in *. destruct pq; try done; [| |by destruct Hok]; (eapply savable_map; [done|exact Hq|]).
  - by apply oip_failed_steps.
  - by apply oop_failed_steps.
Qed.

(** ** The operations *)
Definition claiming (p : PaymentV2) (preimage : Z) : Prop :=
  match p with
  | InboundInvoice i => iip_status i = IClaiming /\ iip_preimage i = preimage
  | InboundOfferReusable i => iorp_status i = OClaiming /\ iorp_preimage i = preimage
  | InboundSpontaneous i => isp_status i = SpClaiming /\ isp_preimage i = preimage
  | _ => False
  end.
Record sound (w : World) (r : Result) : Prop := {
  so_inv : pinv r.1.1;
  so_le : db_le w r.1.1;
  so_reached : r.2 <> Unreachable;
  so_claims : forall x, ClaimFunds x ∈ r.1.2 -> exists id p, db r.1.1 !! id = Some p /\ claiming (payment p) x }.
Lemma sound_same w w' cs r : pinv w' -> db w' = db w -> r <> Unreachable -> (forall x, ClaimFunds x ∉ cs) -> sound w (w', cs, r).
Proof.
  intros Hw He Hr Hc. constructor; cbn; [done|apply db_le_sub; by rewrite He|done|]. intros x Hx. by destruct (Hc x).
Qed.
Lemma sound_from w w' r : db w' = db w -> sound w' r -> sound w r.
Proof. intros E [K1 K2 K3 K4]. constructor; try done. unfold db_le in *. by rewrite E in K2. Qed.
Lemma on_data_inv f w : pinv w -> pending (f (data w)) = pending (data w) -> finalized_payments_cache (f (data w)) = finalized_payments_cache (data w) -> pinv (on_data f w).
Proof. intros [H1 H2 H3] Hp Hc. constructor; cbn; [done|by rewrite Hp|by rewrite Hc]. Qed.
Lemma persist_commit_sound e p w : pinv w -> savable w p -> pinv (persist_commit e p w).1 /\ db_le w (persist_commit e p w).1.
Proof. intros Hw Hs. unfold persist_commit. destruct (wr e _); cbn; [by split; [apply save_inv|apply save_le]|split; [done|apply db_le_refl]]. Qed.
Lemma checked_step_sound e c w : pinv w -> savable_out w c -> sound w (checked_step e c w).
Proof.
  intros Hw Hc. unfold checked_step. destruct c as [p| |]; [|by apply sound_same; [| | |intros ?; apply not_elem_of_nil]|done].
  destruct (persist_commit_sound e p w Hw Hc) as [H1 H2]. destruct (persist_commit e p w) as [w' ok]. cbn in H1, H2. constructor; cbn; [done|done| |].
  - by destruct ok.
  - intros x Hx. by apply not_elem_of_nil in Hx.
Qed.
Lemma get_cow_spec e id w : pinv w -> let '(w', r) := get_cow_payment e id w in
  pinv w' /\ db w' = db w /\ pending (data w') = pending (data w) /\ in_flight (data w') = in_flight (data w) /\
  match r with
  | Good o => match db w !! id with
              | None => o = None
              | Some q => exists p, o = Some p /\ payment p = payment q /\ (is_finalized (status (payment q)) = false -> p = q /\ pending (data w) !! id = Some q)
              end
  | Bad _ => pending (data w) !! id = None
  | Unreachable => False
  end.
Proof.
  intros Hw. unfold get_cow_payment. destruct (pending (data w) !! id) as [p|] eqn:Ep.
  - split_and!; try done. apply (pv_pending _ Hw) in Ep as [-> Hs]. by exists p.
  - assert (forall q, db w !! id = Some q -> is_finalized (status (payment q)) = true) as Hfin.
    { intros q Hq. destruct (status (payment q)) eqn:Es; try done. assert (pending (data w) !! id = Some q) by (by apply (pv_pending _ Hw)). congruence. }
    destruct (finalized_payments_cache (data w) !! id) as [p|] eqn:Ec.
    + split_and!; try done. destruct (pv_cache _ Hw _ _ Ec) as (q & Hq & Hp & Hf). rewrite Hq. exists p. split_and!; try done. rewrite (Hfin _ Hq). done.
    + destruct (negb (rd e id)); [done|]. destruct (db w !! id) as [q|] eqn:Eq; [|done].
      cbn [data pending in_flight db on_data set_cache]. split_and!; try done; [|exists q; split_and!; try done; by rewrite (Hfin _ eq_refl)].
      destruct Hw as [H1 H2 H3]. constructor; cbn; [done|done|]. intros id' p'. destruct (decide (id' = id)) as [->|Hne].
      * rewrite lookup_insert_eq. intros [= <-]. exists q. split_and!; try done. by apply Hfin.
      * rewrite lookup_insert_ne by done. apply H3.
Qed.
(** The database does not change when a payment is looked up. *)
Lemma unless_finalized_sound e id w k : pinv w ->
  (forall w', pinv w' -> db w' = db w -> sound w' (k w')) -> sound w (unless_finalized e id w k).
Proof.
  intros Hw Hk. unfold unless_finalized. pose proof (get_cow_spec e id w Hw) as Hg. destruct (get_cow_payment e id w) as [w' r].
  destruct Hg as (H1 & H2 & _ & _ & H5). destruct r as [o| |]; [|apply sound_same; try done; intros ?; apply not_elem_of_nil|done].
  destruct (finalized_of o); [apply sound_same; try done; intros ?; apply not_elem_of_nil|].
  by eapply sound_from, Hk.
Qed.
Lemma built_ok r p : built r = Some p -> payment_ok (payment p).
Proof.
  destruct r; cbn; unfold iip_new, oip_new, oop_new, os_new; (destruct (negb _); [done|]); intros [= <-]; by split.
Qed.
Lemma new_payment_sound e p w : pinv w -> payment_ok (payment p) -> sound w (new_payment_inner e p w).
Proof.
  intros Hw Hok. unfold new_payment_inner. pose proof (get_cow_spec e (pwm_id p) w Hw) as Hg. destruct (get_cow_payment e (pwm_id p) w) as [w' r].
  destruct Hg as (H1 & H2 & _ & _ & H5). assert (sound w (w', [], Bad tt)) as Hbad by (apply sound_same; try done; intros ?; apply not_elem_of_nil).
  destruct r as [[q|]| |]; [done| |done|done]. destruct (db w !! pwm_id p) eqn:Ed; [by destruct H5 as (? & ? & _)|].
  eapply sound_from, checked_step_sound; [done|done|]. split; [done|left; by rewrite H2].
Qed.
Lemma claiming_persisted t p x : claiming (payment p) x -> claiming (payment (persisted t p)) x.
Proof. destruct p as [[[]|[]|[]|[]|[]|[]|[]|[]] ?]; done. Qed.
(** A claim that is let through, or repeated, is recorded as being claimed. *)
Lemma claimable_claiming w ctx amount skim t : pinv w ->
  match check_payment_claimable ctx amount skim t (data w) with
  | Good p => pwm_id p = ctx_id ctx /\ claiming (payment p) (ctx_preimage ctx)
  | Bad IgnoreAndReclaim => exists p, db w !! ctx_id ctx = Some p /\ claiming (payment p) (ctx_preimage ctx)
  | _ => True
  end.
Proof.
  intros Hw. unfold check_payment_claimable. destruct (pending (data w) !! ctx_id ctx) as [q|] eqn:Hq; [|by destruct ctx].
  pose proof Hq as Hq'. apply (pv_pending _ Hw) in Hq' as [Hd Hst].
  unfold pwm_check_payment_claimable. destruct (negb _); [done|]. destruct q as [pq m]. cbn [payment metadata] in *. destruct pq; destruct ctx; try done.
  - unfold iip_check_payment_claimable. destruct (negb _) eqn:E1; [done|]. destruct (negb _) eqn:E2 in |- *; [done|]. destruct (negb _) eqn:E3 in |- *; [done|].
    apply negb_false_iff, Z.eqb_eq in E1, E2, E3. subst. destruct (match claim_id with Some _ => _ | None => _ end); [done|].
    destruct (iip_status iip) eqn:Es; try done.
    + destruct (is_expired_by _ _ _); [done|]. destruct (match skim with Some _ => _ | None => _ end); [done|]. cbn. done.
    + cbn. by eexists.
  - unfold iorp_check_payment_claimable. do 4 (destruct (negb _) eqn:? in |- *; [done|]). destruct (iorp_status iorp) eqn:Es; [|done].
    repeat match goal with E : negb _ = false |- _ => apply negb_false_iff, Z.eqb_eq in E end. eexists. split; [exact Hd|]. by split.
  - unfold isp_check_payment_claimable. do 3 (destruct (negb _) eqn:? in |- *; [done|]). destruct (isp_status isp) eqn:Es; [|done].
    repeat match goal with E : negb _ = false |- _ => apply negb_false_iff, Z.eqb_eq in E end. eexists. split; [exact Hd|]. by split.
Qed.
Lemma handle_claimable_sound e ctx amount skim w : pinv w ->
  pinv (handle_claimable e ctx amount skim w).1 /\ db_le w (handle_claimable e ctx amount skim w).1 /\
  match (handle_claimable e ctx amount skim w).2 with
  | Good _ | Bad IgnoreAndReclaim => exists p, db (handle_claimable e ctx amount skim w).1 !! ctx_id ctx = Some p /\ claiming (payment p) (ctx_preimage ctx)
  | Unreachable => False
  | _ => True
  end.
Proof.
  intros Hw. unfold handle_claimable. pose proof (get_cow_spec e (ctx_id ctx) w Hw) as Hg. destruct (get_cow_payment e (ctx_id ctx) w) as [w' r].
  destruct Hg as (H1 & H2 & H3 & _ & H5). assert (db_le w w') as Hle by (apply db_le_sub; by rewrite H2).
  destruct r as [o| |]; [|done|done]. destruct (finalized_of o) eqn:Ef; [done|].
  assert (pending (data w') !! ctx_id ctx = None -> db w' !! ctx_id ctx = None) as Hn.
  { rewrite H3, H2. destruct (db w !! ctx_id ctx) as [q|]; [|done]. destruct H5 as (p & -> & Hp & Hx). cbn in Ef. rewrite Hp in Ef. destruct (Hx Ef) as [_ ->]. done. }
  pose proof (claimable_savable w' ctx amount skim (now e) H1 Hn) as Hs. pose proof (claimable_claiming w' ctx amount skim (now e) H1) as Hc.
  destruct (check_payment_claimable ctx amount skim (now e) (data w')) as [p|err|]; [| |done].
  - destruct (persist_commit_sound e p w' H1 Hs) as [K1 K2]. unfold persist_commit in *. destruct (wr e (pwm_id p)) as [t|]; cbn in *; [|done].
    assert (db_le w (save t p w')) as Hle' by (unfold db_le in *; by rewrite H2 in K2).
    split_and!; [done|done|]. exists (persisted t p). destruct Hc as [<- Hc]. rewrite persisted_id, lookup_insert_eq. split; [done|]. by apply claiming_persisted.
  - cbn. split_and!; try done.
Qed.
Lemma no_claim_nil (x : Z) : ClaimFunds x ∉ [].
Proof. apply not_elem_of_nil. Qed.
Lemma claimable_sound e purpose hash claim amount skim w : pinv w -> sound w (payment_claimable e purpose hash claim amount skim w).
Proof.
  intros Hw. unfold payment_claimable. destruct (claim_ctx_new purpose hash claim None) as [ctx|].
  - pose proof (handle_claimable_sound e ctx amount skim w Hw) as (H1 & H2 & H3). destruct (handle_claimable e ctx amount skim w) as [w' r]. cbn in H1, H2, H3.
    destruct r as [[]|[]|]; [| | | | |done]; (constructor; cbn; [done|done|done|]); intros x Hx; apply list_elem_of_singleton in Hx; try done;
      injection Hx as ->; by exists (ctx_id ctx).
  - apply sound_same; try done. intros x Hx. by apply list_elem_of_singleton in Hx.
Qed.
Lemma note_sound e id note w : pinv w -> sound w (update_personal_note e id note w).
Proof.
  intros Hw. unfold update_personal_note. destruct (negb _); [by apply sound_same; [| | |apply no_claim_nil]|].
  destruct (db w !! id) as [p|] eqn:Ed; [|by apply sound_same; [| | |apply no_claim_nil]].
  destruct (pv_db _ Hw _ _ Ed) as (Hid & Hok & _). apply checked_step_sound; [done|]. split; [done|]. right. exists p. unfold pwm_id in *. cbn. rewrite Hid. split; [done|apply advances_refl].
Qed.
Lemma sent_sound e id hash preimage a f w : pinv w -> sound w (payment_sent e id hash preimage a f w).
Proof.
  intros Hw. apply unless_finalized_sound; [done|]. intros w' Hw' _.
  pose proof (checked_step_sound e _ w' Hw' (sent_savable w' id hash preimage a f (now e) Hw')) as [K1 K2 K3 K4].
  destruct (checked_step _ _ _) as [[w2 cs] r]. cbn in K1, K2, K3, K4. destruct r as [[]| |]; [|done|done]. constructor; cbn; try done. by apply on_data_inv.
Qed.
Lemma failed_sound e id f w : pinv w -> sound w (fail_payment e id f w).
Proof.
  intros Hw. unfold fail_payment. assert (pinv (on_data (remove_in_flight id) w)) as Hw' by (by apply on_data_inv).
  eapply sound_from, checked_step_sound, failed_savable; done.
Qed.
Lemma broadcasted_sound e id txid w : pinv w -> sound w (onchain_send_broadcasted e id txid w).
Proof.
  intros Hw. unfold onchain_send_broadcasted. pose proof (get_cow_spec e id w Hw) as Hg. destruct (get_cow_payment e id w) as [w' r].
  destruct Hg as (H1 & H2 & H3 & _ & H5). assert (sound w (w', [], Bad tt)) as Hbad by (apply sound_same; [done..|apply no_claim_nil]).
  destruct r as [[p|]| |]; [|done|done|done]. destruct (is_finalized (status (payment p))) eqn:Ef; [done|].
  destruct (db w !! id) as [q|] eqn:Eq; [|done]. destruct H5 as (p' & [= <-] & Hp & Hx). rewrite Hp in Ef. destruct (Hx Ef) as [-> Hpend].
  destruct q as [pq m]. cbn [payment metadata] in *. destruct pq; try done. rewrite <- H3 in Hpend. of_pending H1 Hpend.
  assert (savable_out w' (out_map (fun o => mkPwm (OnchainSend o) m) (broadcasted txid os))) as Hs by (eapply savable_map; [done|exact Hpend|by apply broadcasted_steps]).
  by eapply sound_from, checked_step_sound.
Qed.

(** ** Batches *)
Lemma savable_other t p q w : pwm_id q <> pwm_id p -> savable w q -> savable (save t p w) q.
Proof. intros Hne [Hok Hd]. split; [done|]. by rewrite save_other. Qed.
Lemma batch_other t l w id : id ∉ map pwm_id l -> db (foldl (fun w p => save t p w) w l) !! id = db w !! id.
Proof.
  revert w. induction l as [|p l IH]; intros w Hn; cbn [foldl]; [done|]. cbn in Hn. apply not_elem_of_cons in Hn as [Hn1 Hn2].
  rewrite IH by done. by apply save_other.
Qed.
Lemma batch_inv t l w : NoDup (map pwm_id l) -> pinv w -> Forall (savable w) l ->
  pinv (foldl (fun w p => save t p w) w l) /\ db_le w (foldl (fun w p => save t p w) w l).
Proof.
  revert w. induction l as [|p l IH]; intros w Hnd Hw Hs; cbn [foldl]; [split; [done|apply db_le_refl]|].
  cbn in Hnd. apply NoDup_cons in Hnd as [Hni Hnd]. apply Forall_cons in Hs as [Hp Hs].
  destruct (IH (save t p w) Hnd (save_inv t p w Hw Hp)) as [K1 K2].
  { apply Forall_forall. intros q Hq. apply savable_other; [|by eapply Forall_forall in Hs]. intros E. apply Hni. rewrite <- E.
    apply list_elem_of_In, in_map, list_elem_of_In, Hq. }
  split; [done|]. intros id q Hq. destruct (decide (id = pwm_id p)) as [->|Hne].
  - rewrite batch_other by done. by apply save_le.
  - destruct (K2 id q) as (q' & ? & ?); [by rewrite save_other|]. by exists q'.
Qed.
Lemma batch_sound e l w : NoDup (map pwm_id l) -> pinv w -> Forall (savable w) l ->
  pinv (persist_commit_batch e l w).1 /\ db_le w (persist_commit_batch e l w).1.
Proof. intros Hnd Hw Hs. unfold persist_commit_batch. destruct (wr_batch e) as [t|]; cbn; [by apply batch_inv|split; [done|apply db_le_refl]]. Qed.
(** What a batch of checks may answer about the payments it was given. *)
Lemma opt_cons_ids {A} (c : option A) (f : A -> PaymentId) (l : list A) id ids : (forall a, c = Some a -> f a = id) -> sublist (map f l) ids ->
  sublist (map f (opt_cons c l)) (id :: ids).
Proof. intros Hc Hl. destruct c as [a|]; cbn; [rewrite (Hc a eq_refl); by constructor|by constructor]. Qed.
Lemma step_pending w id q a m p : pinv w -> pending (data w) !! id = Some q -> advances (payment q) a -> payment_ok a -> p = mkPwm a m -> pwm_id p = id /\ savable w p.
Proof.
  intros Hw Hq Ha Hok ->. split; [|by eapply savable_step]. destruct (pending_facts _ _ _ Hw Hq) as (_ & _ & Hid). unfold pwm_id in *. cbn.
  destruct Ha as [->|(_ & _ & -> & _)]; done.
Qed.
Lemma expiry_savable w id q t : pinv w -> pending (data w) !! id = Some q ->
  match check_expiry t q with Good (c, _) => forall p, c = Some p -> pwm_id p = id /\ savable w p | Bad _ => True | Unreachable => False end.
Proof.
  intros Hw Hq. of_pending Hw Hq. unfold check_expiry. destruct (payment q) as [| |i| | |o|o|] eqn:Ep; try done.
  - pose proof (iip_expiry_steps t i Hok Hst) as Hs. destruct (iip_check_invoice_expiry t i) as [[a|]| |]; cbn; try done. intros p [= <-].
    destruct Hs as [Ha Ho]. rewrite <- Ep in Ha. by eapply step_pending.
  - pose proof (oip_expiry_steps t o Hok Hst) as Hs. destruct (oip_check_invoice_expiry t o) as [a|[]|]; try done. intros p [= <-].
    destruct Hs as [Ha Ho]. rewrite <- Ep in Ha. by eapply step_pending.
  - pose proof (oop_expiry_steps t o Hok Hst) as Hs. destruct (oop_check_offer_expiry t o) as [a|[]|]; try done. intros p [= <-].
    destruct Hs as [Ha Ho]. rewrite <- Ep in Ha. by eapply step_pending.
Qed.
Lemma conf_savable w id q c t : pinv w -> pending (data w) !! id = Some q ->
  match check_conf c t q with Good o => forall p, o = Some p -> pwm_id p = id /\ savable w p | Bad _ => True | Unreachable => False end.
Proof.
  intros Hw Hq. of_pending Hw Hq. unfold check_conf. destruct (payment q) as [o|o| | | | | |] eqn:Ep; try done.
  - pose proof (os_conf_steps c t o Hok Hst) as Hs. destruct (os_check_onchain_conf c t o) as [[[a|] u]| |]; cbn in Hs |- *; try done. intros p [= <-].
    destruct Hs as [Ha Ho]. rewrite <- Ep in Ha. by eapply step_pending.
  - pose proof (or_conf_steps c t o Hok Hst) as Hs. destruct (or_check_onchain_conf c t o) as [[[a|] u]| |]; cbn in Hs |- *; try done. intros p [= <-].
    destruct Hs as [Ha Ho]. rewrite <- Ep in Ha. by eapply step_pending.
Qed.
Lemma expiries_savable w t l : pinv w -> (forall q, q ∈ l -> pending (data w) !! pwm_id q = Some q) ->
  match check_expiries_of t l with Good (cs, _) => sublist (map pwm_id cs) (map pwm_id l) /\ Forall (savable w) cs | Bad _ => True | Unreachable => False end.
Proof.
  intros Hw. induction l as [|q l IH]; intros Hl; cbn [check_expiries_of]; [by repeat constructor|].
  pose proof (expiry_savable w _ q t Hw (Hl q ltac:(by left))) as Hq. destruct (check_expiry t q) as [[c a]| |]; [|done|done].
  specialize (IH ltac:(intros q' ?; apply Hl; by right)). destruct (check_expiries_of t l) as [[cs ops]| |]; [|done|done]. destruct IH as [I1 I2]. cbn.
  split; [apply opt_cons_ids; [intros p Hp; by apply Hq|done]|]. destruct c as [p|]; cbn; [|done]. constructor; [by apply Hq|done].
Qed.
Lemma confs_savable w t l : pinv w ->
  match data_check_onchain_confs l t (data w) with Good cs => sublist (map pwm_id cs) (map fst l) /\ Forall (savable w) cs | Bad _ => True | Unreachable => False end.
Proof.
  intros Hw. induction l as [|[id c] l IH]; cbn [data_check_onchain_confs]; [by repeat constructor|].
  destruct (pending (data w) !! id) as [q|] eqn:Eq; [|done]. pose proof (conf_savable w id q c t Hw Eq) as Hq. destruct (check_conf c t q) as [o| |]; [|done|done].
  destruct (data_check_onchain_confs l t (data w)) as [cs| |]; [|done|done]. destruct IH as [I1 I2]. cbn.
  split; [apply opt_cons_ids; [intros p Hp; by apply Hq|done]|]. destruct o as [p|]; cbn; [|done]. constructor; [by apply Hq|done].
Qed.
Lemma values_ids w : pinv w -> NoDup (map pwm_id (values (pending (data w)))) /\ forall q, q ∈ values (pending (data w)) -> pending (data w) !! pwm_id q = Some q.
Proof.
  intros Hw. assert (forall k q, (k, q) ∈ map_to_list (pending (data w)) -> pwm_id q = k /\ pending (data w) !! k = Some q) as Hk.
  { intros k q Hin. apply elem_of_map_to_list in Hin. split; [by eapply pending_facts|done]. }
  unfold values. split.
  - rewrite map_map. assert (map (fun x => pwm_id x.2) (map_to_list (pending (data w))) = (map_to_list (pending (data w))).*1) as ->; [|apply NoDup_fst_map_to_list].
    apply map_ext_in. intros [k q] Hin. apply list_elem_of_In in Hin. by destruct (Hk _ _ Hin).
  - intros q Hin. apply list_elem_of_In, in_map_iff in Hin as ([k q'] & <- & Hin). apply list_elem_of_In in Hin. destruct (Hk _ _ Hin) as [Hi ?]. cbn. by rewrite Hi.
Qed.
Lemma expiries_sound e w : pinv w -> sound w (check_payment_expiries e w).
Proof.
  intros Hw. unfold check_payment_expiries. destruct (values_ids w Hw) as [Hnd Hv]. pose proof (expiries_savable w (now e) _ Hw Hv) as Hs.
  destruct (check_expiries_of (now e) (values (pending (data w)))) as [[cs ops]| |]; [|by apply sound_same; [..|apply no_claim_nil]|done]. destruct Hs as [H1 H2].
  destruct (batch_sound e cs w) as [K1 K2]; [by eapply sublist_NoDup|done|done|]. destruct (persist_commit_batch e cs w) as [w' ok]. cbn in K1, K2.
  destruct ok; (constructor; cbn; [done|done|done|]); intros x Hx; [|by apply no_claim_nil in Hx]. apply list_elem_of_In, in_map_iff in Hx as (? & ? & _). done.
Qed.
Lemma confs_sound e answers w : NoDup (map fst answers) -> pinv w -> sound w (check_onchain_confs e answers w).
Proof.
  intros Hnd Hw. unfold check_onchain_confs. pose proof (confs_savable w (now e) answers Hw) as Hs.
  destruct (data_check_onchain_confs answers (now e) (data w)) as [cs| |]; [|by apply sound_same; [..|apply no_claim_nil]|done]. destruct Hs as [H1 H2].
  destruct (batch_sound e cs w) as [K1 K2]; [by eapply sublist_NoDup|done|done|]. destruct (persist_commit_batch e cs w) as [w' ok]. cbn in K1, K2.
  constructor; cbn; [done|done|by destruct ok|]. intros x Hx. by apply no_claim_nil in Hx.
Qed.
(** ** Receives and restarts *)
Lemma unseen_spec e utxos w : pinv w -> let '(w', r) := unseen_of e utxos w in pinv w' /\ db w' = db w.
Proof.
  revert w. induction utxos as [|u utxos IH]; intros w Hw; cbn [unseen_of]; [done|].
  pose proof (get_cow_spec e (OnchainRecvId (tx_id u.1)) w Hw) as Hg. destruct (get_cow_payment _ _ w) as [w1 r]. destruct Hg as (H1 & H2 & _).
  destruct r; [|done|done]. specialize (IH w1 H1). destruct (unseen_of e utxos w1) as [w2 r2]. by rewrite <- H2.
Qed.
Lemma recvs_ok l ps : onchain_recvs_of l = Some ps -> Forall (fun p => payment_ok (payment p)) ps.
Proof.
  revert ps. induction l as [|[tx [a|]] l IH]; intros ps; cbn; [by intros [= <-]| |done].
  destruct (onchain_recvs_of l) as [ps'|]; [|done]. intros [= <-]. constructor; [by split|by apply IH].
Qed.
Lemma new_payment_sub e p w : pinv w -> db w ⊆ db (new_payment_inner e p w).1.1 /\ (forall x, ClaimFunds x ∉ (new_payment_inner e p w).1.2).
Proof.
  intros Hw. unfold new_payment_inner. pose proof (get_cow_spec e (pwm_id p) w Hw) as Hg. destruct (get_cow_payment e (pwm_id p) w) as [w' r].
  destruct Hg as (H1 & H2 & _ & _ & H5). destruct r as [[q|]| |]; cbn; try (split; [by rewrite H2|apply no_claim_nil]).
  unfold persist_commit. destruct (wr e (pwm_id p)); cbn; [|split; [by rewrite H2|apply no_claim_nil]]. split; [|apply no_claim_nil].
  rewrite persisted_id, H2. apply insert_subseteq. destruct (db w !! pwm_id p); [by destruct H5 as (? & ? & _)|done].
Qed.
Lemma register_all_sound e l w : pinv w -> Forall (fun p => payment_ok (payment p)) l ->
  pinv (register_all e l w).1.1 /\ db w ⊆ db (register_all e l w).1.1 /\ (register_all e l w).2 <> Unreachable /\ (forall x, ClaimFunds x ∉ (register_all e l w).1.2).
Proof.
  revert w. induction l as [|p l IH]; intros w Hw Hl; cbn [register_all]; [split_and!; try done; apply no_claim_nil|].
  apply Forall_cons in Hl as [Hp Hl]. destruct (new_payment_sound e p w Hw Hp) as [K1 _ K3 _]. destruct (new_payment_sub e p w Hw) as [S1 S2].
  destruct (new_payment_inner e p w) as [[w1 cs] r]. cbn in K1, K3, S1, S2. destruct r as [[]| |]; [|done|done].
  destruct (IH w1 K1 Hl) as (I1 & I2 & I3 & I4). split_and!; try done. by etrans.
Qed.
Lemma recvs_sound e utxos w : pinv w -> sound w (check_onchain_recvs e utxos w).
Proof.
  intros Hw. unfold check_onchain_recvs. pose proof (unseen_spec e utxos w Hw) as Hu. destruct (unseen_of e utxos w) as [w' r]. destruct Hu as [H1 H2].
  assert (sound w (w', [], Bad tt)) as Hbad by (apply sound_same; [done..|apply no_claim_nil]).
  destruct r as [l|]; [|done]. destruct (onchain_recvs_of l) as [ps|] eqn:Ep; [|done]. eapply sound_from; [done|].
  destruct (register_all_sound e ps w' H1 (recvs_ok _ _ Ep)) as (I1 & I2 & I3 & I4). constructor; [done|by apply db_le_sub|done|]. intros x Hx. by destruct (I4 x).
Qed.
Lemma restart_inv w : pinv w -> pinv (mkWorld (manager_new (filter (fun p => is_pending p = true) (values (db w)))) (db w)).
Proof.
  intros Hw. assert (forall p, p ∈ values (db w) -> db w !! pwm_id p = Some p) as Hv.
  { intros p Hp. apply list_elem_of_In, in_map_iff in Hp as ([k q] & <- & Hp). apply list_elem_of_In, elem_of_map_to_list in Hp. cbn.
    destruct (pv_db _ Hw _ _ Hp) as (-> & _). done. }
  assert (forall p, is_pending p = true <-> status (payment p) = Pending) as Hst by (intros p; unfold is_pending; apply bool_decide_eq_true).
  assert (forall id p, (id, p) ∈ reverse (map (fun p => (pwm_id p, p)) (filter (fun p => is_pending p = true) (filter (fun p => is_pending p = true) (values (db w))))) <->
    db w !! id = Some p /\ status (payment p) = Pending) as Hmem.
  { intros id p. rewrite elem_of_reverse, list_elem_of_In, in_map_iff. split.
    - intros (q & [= <- <-] & Hq). apply list_elem_of_In, list_elem_of_filter in Hq as [H1 Hq]. apply list_elem_of_filter in Hq as [_ Hq]. split; [by apply Hv|by apply Hst].
    - intros [Hp Hs]. exists p. destruct (pv_db _ Hw _ _ Hp) as (-> & _). split; [done|]. apply list_elem_of_In, list_elem_of_filter. split; [by apply Hst|].
      apply list_elem_of_filter. split; [by apply Hst|]. apply list_elem_of_In, in_map_iff. exists (id, p). split; [done|]. by apply list_elem_of_In, elem_of_map_to_list. }
  constructor; cbn; [apply Hw| |done]. intros id p. rewrite <- elem_of_list_to_map'; [apply Hmem|]. intros x' H1 H2. apply Hmem in H1 as [H1 _], H2 as [H2 _]. congruence.
Qed.

Lemma exec_sound e o w : pinv w -> sound w (exec e o w).
Proof.
  intros Hw. assert (forall f, pending (f (data w)) = pending (data w) -> finalized_payments_cache (f (data w)) = finalized_payments_cache (data w) -> sound w (on_data f w, [], Good tt)) as Hmem
    by (intros f ? ?; apply sound_same; [by apply on_data_inv|done|done|apply no_claim_nil]).
  destruct o; cbn [exec].
  - destruct (built r) as [p|] eqn:Eb; [apply new_payment_sound; [done|by eapply built_ok]|apply sound_same; [done..|apply no_claim_nil]].
  - by apply Hmem.
  - pose proof (get_cow_spec e id w Hw) as Hg. destruct (get_cow_payment e id w) as [w' r]. destruct Hg as (H1 & H2 & _). apply sound_same; [done..|apply no_claim_nil].
  - by apply note_sound.
  - by apply claimable_sound.
  - unfold payment_claimed. destruct (claim_ctx_new _ _ _ _); [|apply sound_same; [done..|apply no_claim_nil]].
    apply unless_finalized_sound; [done|]. intros w' Hw' _. by apply checked_step_sound, claimed_savable.
  - by apply sent_sound.
  - apply Hmem; unfold increment_attempt; by destruct (in_flight _ !! id).
  - by apply failed_sound.
  - apply Hmem; unfold record_path_failure; by destruct (in_flight _ !! id).
  - by apply expiries_sound.
  - by apply broadcasted_sound.
  - apply confs_sound; [apply NoDup_fst_map_to_list|done].
  - by apply recvs_sound.
  - apply sound_same; [|done|done|apply no_claim_nil]. destruct Hw as [H1 H2 H3]. constructor; cbn; [done|done|]. intros id' p Hp. apply lookup_delete_Some in Hp as [_ Hp]. by apply H3.
  - apply sound_same; [by apply restart_inv|done|done|apply no_claim_nil].
Qed.
Lemma world_new_inv : pinv world_new.
Proof. constructor; cbn; intros id p; rewrite ?lookup_empty; naive_solver. Qed.
Lemma run_inv w l : pinv w -> pinv (run_ops w l).
Proof. revert w. induction l as [|[e o] l IH]; intros w Hw; [done|]. apply IH, exec_sound, Hw. Qed.
Lemma pinv_data w : pinv w -> data_invariants (data w).
Proof.
  intros Hw. split.
  - intros id p Hp. destruct (pending_facts _ _ _ Hw Hp) as ([? _] & ? & ?). done.
  - intros id p Hp. destruct (pv_cache _ Hw _ _ Hp) as (q & Hq & Epay & Hf). destruct (pv_db _ Hw _ _ Hq) as (Hid & [Hi _] & _). unfold pwm_id in *. rewrite Epay in Hid, Hi.
    split_and!; try done. destruct (pending (data w) !! id) as [r|] eqn:Er; [|done]. apply (pv_pending _ Hw) in Er as [Er Hs]. rewrite Hq in Er. injection Er as <-. rewrite Epay in Hs. by rewrite Hs in Hf.
Qed.

(** C40: The payment manager.  In every run, through restarts, failed reads and writes and any
    order of events: the invariants that debug builds assert hold; what is pending in memory is
    exactly what the persister has as pending; a completed send has a preimage of its payment
    hash, and an invoice being claimed was skimmed no more than its terms allow.  Whatever happens
    next, no handler reaches an [unreachable!]; no payment is lost, a final one never changes, and
    a pending one takes at most one step of its diagram; and funds are claimed only for a payment
    that is recorded as being claimed with that preimage. *)
Theorem payments_sound l : let w := run_ops world_new l in
  data_invariants (data w) /\
  (forall id p, pending (data w) !! id = Some p <-> db w !! id = Some p /\ status (payment p) = Pending) /\
  (forall id p, db w !! id = Some p -> pwm_id p = id /\ evidence (payment p)) /\
  forall e o,
    (exec e o w).2 <> Unreachable /\
    (forall id p, db w !! id = Some p -> exists p', db (exec e o w).1.1 !! id = Some p' /\ advances (payment p) (payment p')) /\
    (forall x, ClaimFunds x ∈ (exec e o w).1.2 -> exists id p, db (exec e o w).1.1 !! id = Some p /\ claiming (payment p) x).
Proof.
  intros w. pose proof (run_inv _ l world_new_inv) as Hw. fold w in Hw. split; [by apply pinv_data|]. split; [apply Hw|].
  split; [intros id p Hp; by destruct (pv_db _ Hw _ _ Hp) as (? & [_ ?] & _)|]. intros e o. by destruct (exec_sound e o w Hw).
Qed.

(** ** Events that come twice *)
Definition being_claimed (ctx : LnClaimCtx) (amount : Z) (skim : option Z) (p : PaymentWithMetadata) : Prop :=
  forall t, pwm_check_payment_claimable ctx amount skim t p = Bad IgnoreAndReclaim.
Lemma reclaim_any_time ctx amount skim t p : pwm_check_payment_claimable ctx amount skim t p = Bad IgnoreAndReclaim -> being_claimed ctx amount skim p.
Proof.
  unfold being_claimed, pwm_check_payment_claimable. destruct (negb _); [done|]. destruct (payment p), ctx; try done. unfold iip_check_payment_claimable.
  intros Hc t'. do 3 (destruct (negb _) in Hc |- *; [done|]). destruct (match claim_id with Some _ => _ | None => _ end); [done|].
  destruct (iip_status iip); try done. destruct (is_expired_by _ _ _) in Hc; [done|]. by destruct (match skim with Some _ => _ | None => _ end).
Qed.
Lemma claim_recorded ctx amount skim t d p : check_payment_claimable ctx amount skim t d = Good p -> forall t', being_claimed ctx amount skim (persisted t' p).
Proof.
  unfold check_payment_claimable, being_claimed. destruct (pending d !! ctx_id ctx) as [q|].
  - unfold pwm_check_payment_claimable at 1. destruct (negb _) eqn:Er; [done|]. destruct q as [pq m]. cbn [payment metadata] in *.
    destruct pq, ctx; try done.
    + unfold iip_check_payment_claimable. do 3 (destruct (negb _) eqn:? in |- *; [done|]). destruct (match claim_id with Some _ => _ | None => _ end); [done|].
      destruct (iip_status iip); try done. destruct (is_expired_by _ _ _); [done|]. destruct (match skim with Some _ => _ | None => _ end); [done|].
      cbn [out_map]. intros [= <-] t1 t2. unfold pwm_check_payment_claimable. cbn. unfold iip_check_payment_claimable. cbn.
      repeat match goal with E : negb _ = false |- _ => rewrite E; clear E end. destruct claim_id; [by rewrite Z.eqb_refl|done].
    + unfold iorp_check_payment_claimable. repeat (destruct (negb _); [done|]). by destruct (iorp_status iorp).
    + unfold isp_check_payment_claimable. repeat (destruct (negb _); [done|]). by destruct (isp_status isp).
  - destruct ctx; cbn; [done| |]; intros [= <-] t1 t2; unfold pwm_check_payment_claimable; cbn;
      unfold iorp_check_payment_claimable, isp_check_payment_claimable; cbn; by rewrite !Z.eqb_refl.
Qed.
Lemma reclaims e ctx amount skim w p : pinv w -> db w !! ctx_id ctx = Some p -> status (payment p) = Pending -> being_claimed ctx amount skim p ->
  handle_claimable e ctx amount skim w = (w, Bad IgnoreAndReclaim).
Proof.
  intros Hw Hp Hs Hc. assert (pending (data w) !! ctx_id ctx = Some p) as Hq by (by apply (pv_pending _ Hw)).
  unfold handle_claimable, get_cow_payment, check_payment_claimable. rewrite Hq. cbn [finalized_of]. rewrite Hs. cbn [is_finalized]. by rewrite Hq, Hc.
Qed.
Lemma claiming_pending p x : claiming p x -> status p = Pending.
Proof. destruct p; cbn; try done; by intros [-> _]. Qed.
Lemma handle_claimable_recorded e ctx amount skim w : pinv w ->
  match (handle_claimable e ctx amount skim w).2 with
  | Good _ | Bad IgnoreAndReclaim => exists p, db (handle_claimable e ctx amount skim w).1 !! ctx_id ctx = Some p /\ being_claimed ctx amount skim p
  | _ => True
  end.
Proof.
  intros Hw. unfold handle_claimable. pose proof (get_cow_spec e (ctx_id ctx) w Hw) as Hg. destruct (get_cow_payment e (ctx_id ctx) w) as [w' r].
  destruct Hg as (H1 & H2 & H3 & _ & H5). destruct r as [o| |]; [|done|done]. destruct (finalized_of o); [done|].
  pose proof (claimable_claiming w' ctx amount skim (now e) H1) as Hc.
  destruct (check_payment_claimable ctx amount skim (now e) (data w')) as [p|err|] eqn:Ec; [| |done].
  - unfold persist_commit. destruct (wr e (pwm_id p)) as [t|]; cbn; [|done]. exists (persisted t p). destruct Hc as [<- _].
    rewrite persisted_id, lookup_insert_eq. split; [done|]. by eapply claim_recorded.
  - cbn. destruct err; try done. unfold check_payment_claimable in Ec. destruct (pending (data w') !! ctx_id ctx) as [q|] eqn:Eq; [|by destruct ctx].
    exists q. apply (pv_pending _ H1) in Eq as [Eq _]. split; [done|]. by eapply reclaim_any_time.
Qed.
Lemma claim_again e e' purpose hash claim amount skim w x : pinv w -> ClaimFunds x ∈ (payment_claimable e purpose hash claim amount skim w).1.2 ->
  let w' := (payment_claimable e purpose hash claim amount skim w).1.1 in payment_claimable e' purpose hash claim amount skim w' = (w', [ClaimFunds x], Good tt).
Proof.
  intros Hw. unfold payment_claimable. destruct (claim_ctx_new purpose hash claim None) as [ctx|]; [|by intros Hx; apply list_elem_of_singleton in Hx].
  pose proof (handle_claimable_sound e ctx amount skim w Hw) as (H1 & _ & H3). pose proof (handle_claimable_recorded e ctx amount skim w Hw) as H4.
  destruct (handle_claimable e ctx amount skim w) as [w' r]. cbn in H1, H3, H4.
  assert (forall p, db w' !! ctx_id ctx = Some p -> claiming (payment p) (ctx_preimage ctx) -> being_claimed ctx amount skim p ->
    handle_claimable e' ctx amount skim w' = (w', Bad IgnoreAndReclaim)) as Hr.
  { intros p Hp Hcl Hb. eapply reclaims; [done|done|by eapply claiming_pending|done]. }
  destruct r as [[]|[]|]; cbn [fst snd]; intros Hx; try (apply list_elem_of_singleton in Hx); try done; try (by apply no_claim_nil in Hx);
    destruct H3 as (p & Hp & Hcl), H4 as (p' & Hp' & Hb); (assert (p' = p) as -> by congruence); injection Hx as ->; by rewrite (Hr p).
Qed.
(** A final payment is final for every later event. *)
Lemma get_cow_final e id w q : pinv w -> db w !! id = Some q -> is_finalized (status (payment q)) = true -> rd e id = true ->
  exists w' p, get_cow_payment e id w = (w', Good (Some p)) /\ is_finalized (status (payment p)) = true /\ db w' = db w /\ pending (data w') = pending (data w).
Proof.
  intros Hw Hq Hf Hr. unfold get_cow_payment. destruct (pending (data w) !! id) as [p|] eqn:Ep.
  { apply (pv_pending _ Hw) in Ep as [Ep Hs]. rewrite Hq in Ep. injection Ep as <-. by rewrite Hs in Hf. }
  destruct (finalized_payments_cache (data w) !! id) as [p|] eqn:Ec.
  - destruct (pv_cache _ Hw _ _ Ec) as (q' & Hq' & Hp & Hf'). by exists w, p.
  - rewrite Hr, Hq. cbn. by eexists _, q.
Qed.
Lemma final_ignored e id w q k : pinv w -> db w !! id = Some q -> is_finalized (status (payment q)) = true -> rd e id = true ->
  exists w', unless_finalized e id w k = (w', [], Good tt) /\ db w' = db w /\ pending (data w') = pending (data w).
Proof.
  intros Hw Hq Hf Hr. destruct (get_cow_final e id w q Hw Hq Hf Hr) as (w' & p & Eg & Hp & Hd & Hpe). exists w'. unfold unless_finalized. rewrite Eg. cbn. by rewrite Hp.
Qed.
(** A check that was saved as final. *)
Lemma checked_final e c w id : (forall p, c = Good p -> pwm_id p = id /\ is_finalized (status (payment p)) = true) -> (checked_step e c w).2 = Good tt ->
  exists q, db (checked_step e c w).1.1 !! id = Some q /\ is_finalized (status (payment q)) = true.
Proof.
  intros Hc. unfold checked_step. destruct c as [p| |]; [|done|done]. destruct (Hc p eq_refl) as [<- Hf]. unfold persist_commit.
  destruct (wr e (pwm_id p)) as [t|]; cbn; [|done]. intros _. exists (persisted t p). rewrite persisted_id, lookup_insert_eq. split; [done|].
  cbn. by destruct (set_created_facts t (payment p)) as (_ & -> & _).
Qed.
Lemma unless_finalized_final e id w k : pinv w -> (forall w', pinv w' -> (k w').2 = Good tt -> exists q, db (k w').1.1 !! id = Some q /\ is_finalized (status (payment q)) = true) ->
  (unless_finalized e id w k).2 = Good tt -> exists q, db (unless_finalized e id w k).1.1 !! id = Some q /\ is_finalized (status (payment q)) = true.
Proof.
  intros Hw Hk. unfold unless_finalized. pose proof (get_cow_spec e id w Hw) as Hg. destruct (get_cow_payment e id w) as [w' r].
  destruct Hg as (H1 & H2 & _ & _ & H5). destruct r as [o| |]; [|done|done]. destruct (finalized_of o) eqn:Ef; [|by apply Hk].
  intros _. cbn. rewrite H2. destruct (db w !! id) as [q|]; [|by subst]. destruct H5 as (p & -> & Hp & _). exists q. cbn in Ef. by rewrite <- Hp.
Qed.
Lemma claimed_final ctx amount t w p : pinv w -> check_payment_claimed ctx amount t (data w) = Good p -> pwm_id p = ctx_id ctx /\ is_finalized (status (payment p)) = true.
Proof.
  intros Hw. unfold check_payment_claimed. destruct (pending (data w) !! ctx_id ctx) as [[pq m]|] eqn:Hq; [|done].
  destruct (pending_facts _ _ _ Hw Hq) as (_ & Hs & Hid). unfold pwm_id in Hid. cbn [payment metadata] in *.
  destruct pq, ctx; try done; unfold iip_check_payment_claimed, iorp_check_payment_claimed, isp_check_payment_claimed;
    repeat (destruct (negb _); [done|]); rewrite <- Hid; cbn in Hs; (match goal with |- context [match ?s with _ => _ end] => destruct s end); try done; cbn; by intros [= <-].
Qed.
Lemma sent_final id hash preimage a f t w p : pinv w -> check_payment_sent id hash preimage a f t (data w) = Good p -> pwm_id p = id /\ is_finalized (status (payment p)) = true.
Proof.
  intros Hw. unfold check_payment_sent. destruct (pending (data w) !! id) as [[pq m]|] eqn:Hq; [|done].
  destruct (pending_facts _ _ _ Hw Hq) as (_ & Hs & Hid). unfold pwm_id in Hid. cbn [payment metadata] in *.
  destruct pq; try done; unfold oip_check_payment_sent, oop_check_payment_sent; repeat (destruct (negb _); [done|]); rewrite <- Hid; cbn in Hs;
    (match goal with |- context [match ?s with _ => _ end] => destruct s end); try done; cbn; by intros [= <-].
Qed.
Lemma claimed_again e e' purpose hash claim amount w : pinv w -> (payment_claimed e purpose hash claim amount w).2 = Good tt -> (forall id, rd e' id = true) ->
  let w' := (payment_claimed e purpose hash claim amount w).1.1 in
  exists w2, payment_claimed e' purpose hash claim amount w' = (w2, [], Good tt) /\ db w2 = db w' /\ pending (data w2) = pending (data w').
Proof.
  intros Hw Hg Hr w'. assert (pinv w') as Hw' by (apply (exec_sound e (OClaimed purpose hash claim amount) w Hw)). subst w'. revert Hg Hw'. unfold payment_claimed.
  destruct (claim_ctx_new purpose hash claim None) as [ctx|]; [|done]. intros Hg Hw'.
  eapply unless_finalized_final in Hg as (q & Hq & Hf); [by eapply final_ignored|done|].
  intros w1 Hw1 Hk. eapply checked_final; [|exact Hk]. intros p Hp. by eapply claimed_final.
Qed.
Lemma sent_again e e' id hash preimage a f w : pinv w -> (payment_sent e id hash preimage a f w).2 = Good tt -> rd e' id = true ->
  let w' := (payment_sent e id hash preimage a f w).1.1 in
  exists w2, payment_sent e' id hash preimage a f w' = (w2, [], Good tt) /\ db w2 = db w' /\ pending (data w2) = pending (data w').
Proof.
  intros Hw Hg Hr w'. assert (pinv w') as Hw' by (by apply sent_sound). subst w'. revert Hg Hw'. unfold payment_sent. intros Hg Hw'.
  eapply unless_finalized_final in Hg as (q & Hq & Hf); [by eapply final_ignored|done|].
  intros w1 Hw1 Hk. pose proof (checked_final e (check_payment_sent id hash preimage a f (now e) (data w1)) w1 id) as Hc.
  destruct (checked_step _ _ _) as [[w2 cs] [[]| |]]; cbn in *; try done. apply Hc; [|done]. intros p Hp. by eapply sent_final.
Qed.

(** Events that come twice.  After any run: when a claimable event led to the funds being
    claimed, the same event leads to the same claim again and changes nothing; when a claimed or a
    sent event was handled, the same event is accepted again and changes neither what is recorded
    nor what is pending. *)
Theorem events_replayed l e e' : (forall id, rd e' id = true) -> let w := run_ops world_new l in
  (forall purpose hash claim amount skim x w1, w1 = (exec e (OClaimable purpose hash claim amount skim) w).1.1 ->
    ClaimFunds x ∈ (exec e (OClaimable purpose hash claim amount skim) w).1.2 ->
    exec e' (OClaimable purpose hash claim amount skim) w1 = (w1, [ClaimFunds x], Good tt)) /\
  (forall o w1, match o with OClaimed _ _ _ _ | OSent _ _ _ _ _ => True | _ => False end -> w1 = (exec e o w).1.1 -> (exec e o w).2 = Good tt ->
    exists w2, exec e' o w1 = (w2, [], Good tt) /\ db w2 = db w1 /\ pending (data w2) = pending (data w1)).
Proof.
  intros Hr w. pose proof (run_inv _ l world_new_inv) as Hw. fold w in Hw. split.
  - intros purpose hash claim amount skim x w1 ->. by apply claim_again.
  - intros o w1 Ho ->. destruct o; try done; cbn [exec]; intros Hg; [by apply claimed_again|by apply sent_again].
Qed.
End Manager.

(** ** Retries *)
Lemma increment_spec id d s : in_flight d !! id = Some s -> exists s', in_flight (increment_attempt id d) !! id = Some s' /\
  max_attempts s' = max_attempts s /\ attempts_count s' = Z.min 255 (attempts_count s + 1).
Proof. intros Hs. unfold increment_attempt. rewrite Hs. cbn. rewrite lookup_insert_eq. by eexists. Qed.
(** How a round of retries ends: at most one more send, which is counted. *)
Definition retried (id : PaymentId) (d : PaymentsData) (s : InFlightRetryState) (sends : nat) (o : option (PaymentsData * nat * option LxOutboundPaymentFailure)) : Prop :=
  exists d' sends' r s', o = Some (d', sends', r) /\ in_flight d' !! id = Some s' /\
    (sends' = sends /\ attempts_count s <= attempts_count s' \/ sends' = S sends /\ r = None /\ attempts_count s + 1 <= attempts_count s') /\
    attempts_count s' <= max_attempts s.
Lemma retry_spec n fuel k id d s sends : in_flight d !! id = Some s -> attempts_count s < max_attempts s <= 255 -> max_attempts s - attempts_count s < Z.of_nat fuel ->
  retried id d s sends (retry_payment n fuel k id d sends).
Proof.
  revert k d s. induction fuel as [|fuel IH]; intros k d s Hs Ha Hf; [lia|]. cbn [retry_payment]. rewrite Hs.
  assert (forall r, retried id d s sends (Some (d, sends, r))) as Hstay by (intros r; exists d, sends, r, s; repeat split; try done; [left; lia|lia]).
  destruct (increment_spec id d s Hs) as (s1 & Hs1 & Hm & Hc).
  destruct (negb (params_ok n k)); [apply Hstay|]. destruct (negb (route_found n k)).
  - unfold has_remaining_attempts. rewrite Hs1. destruct (Z.ltb_spec (attempts_count s1) (max_attempts s1)) as [Hlt|Hge].
    + destruct (IH (S k) _ s1 Hs1 ltac:(lia) ltac:(lia)) as (d' & n' & r & s' & E & K1 & K2 & K3). exists d', n', r, s'. repeat split; try done; [|lia].
      destruct K2 as [[-> ?]|(-> & -> & ?)]; [left|right]; repeat split; lia.
    + exists (increment_attempt id d), sends, (Some NoRoute), s1. repeat split; try done; [left; split; [done|lia]|lia].
  - destruct id; try apply Hstay. destruct (send_result n k); try apply Hstay.
    exists (increment_attempt (Lightning h) d), (S sends), None, s1. repeat split; try done; [right; repeat split; lia|lia].
Qed.
(** Retries.  The failure of a payment that has attempts left is handled in finitely many
    turns, whatever the router and the channel manager answer: the payment is sent at most once
    more, and then still in flight, with its attempts within the limit and the new send
    counted. *)
Theorem retry_bounded `{PayHash} e n id failure w s : pinv w -> in_flight (data w) !! id = Some s -> 0 <= attempts_count s < max_attempts s -> max_attempts s <= 255 ->
  exists r sends, payment_failed e n id failure w = Some (r, sends) /\ (sends <= 1)%nat /\
    (forall s', in_flight (data r.1.1) !! id = Some s' -> attempts_count s + Z.of_nat sends <= attempts_count s' <= max_attempts s) /\
    (in_flight (data r.1.1) !! id = None -> sends = 0%nat).
Proof.
  intros Hw Hs Ha Hm. unfold payment_failed. pose proof (get_cow_spec e id w Hw) as Hg. destruct (get_cow_payment e id w) as [w' r].
  destruct Hg as (_ & _ & _ & Hfl & _). rewrite <- Hfl in Hs.
  assert (forall r, exists r' sends, Some ((w', [], r) : Result, 0%nat) = Some (r', sends) /\ (sends <= 1)%nat /\
    (forall s', in_flight (data r'.1.1) !! id = Some s' -> attempts_count s + Z.of_nat sends <= attempts_count s' <= max_attempts s) /\
    (in_flight (data r'.1.1) !! id = None -> sends = 0%nat)) as Hstay.
  { intros r'. eexists _, _. split; [done|]. cbn. split_and!; [lia| |done]. intros s'. rewrite Hs. intros [= <-]. lia. }
  destruct r as [o| |]; [|apply Hstay|apply Hstay]. destruct (finalized_of o); [apply Hstay|].
  assert (forall f w1, in_flight (data (fail_payment e id f w1).1.1) !! id = None) as Hnone.
  { intros f w1. unfold fail_payment, checked_step. destruct (check_payment_failed _ _ _ _) as [p| |]; cbn; [|by rewrite lookup_delete_eq|by rewrite lookup_delete_eq].
    unfold persist_commit. destruct (wr e _); cbn; [|by rewrite lookup_delete_eq]. unfold commit. destruct (status _); cbn; by rewrite lookup_delete_eq. }
  destruct (should_retry id failure (data w')).
  - destruct (retry_spec n RETRY_FUEL 0 id (data w') s 0 Hs ltac:(lia) ltac:(unfold RETRY_FUEL; lia)) as (d' & n' & r & s' & -> & K1 & K2 & K3).
    destruct r as [f|]; eexists _, _; (split; [done|]); cbn [fst snd data].
    + rewrite Hnone. destruct K2 as [[-> _]|(_ & ? & _)]; [|done]. split_and!; [lia|done|done].
    + rewrite K1. split_and!; [lia|intros s2 [= <-]; lia|done].
  - eexists _, _. split; [done|]. rewrite Hnone. split_and!; [lia|done|done].
Qed.

(** ** Where the manager does not do what it means to *)
Definition calm : Env := mkEnv (fun _ => true) (fun _ => Some 100) (Some 100) 50.
Definition deaf : Env := mkEnv (fun _ => false) (fun _ => Some 100) (Some 100) 50.
(** A spontaneous payment that is being claimed is claimed again when its hash is paid a second
    time with the same amount: two payments are taken, one is recorded. *)
Example keysend_claimed_twice :
  let '(w1, c1, _) := payment_claimable calm (SpontaneousPayment 7) 8 (Some 1) 1000 None world_new in
  let '(w2, c2, r) := payment_claimable calm (SpontaneousPayment 7) 8 (Some 2) 1000 None w1 in
  c1 = [ClaimFunds 7] /\ c2 = [ClaimFunds 7] /\ r = Good tt /\ map payment (values (db w2)) = [InboundSpontaneous (mkIsp 8 7 KSpontaneous 1000 None SpClaiming (Some 100) None)].
Proof. vm_compute. repeat split. Qed.
(** A payment whose record cannot be read is refused for good, although it is to be tried again. *)
Lemma read_failure_refuses e preimage hash claim amount skim w : pending (data w) !! Lightning hash = None -> finalized_payments_cache (data w) !! Lightning hash = None ->
  rd e (Lightning hash) = false ->
  payment_claimable e (SpontaneousPayment preimage) hash claim amount skim w = (w, [FailHtlcBackwards hash IncorrectOrUnknownPaymentDetails], Bad tt).
Proof. intros H1 H2 H3. unfold payment_claimable. cbn. unfold handle_claimable, get_cow_payment. cbn [ctx_id]. by rewrite H1, H2, H3. Qed.
(** A transaction with two outputs to the wallet is registered, and then ends the pass: the
    receive after it is not. *)
Example two_outputs_end_the_pass :
  let '(w, _, r) := check_onchain_recvs calm [(mkTx 1 [], Some 5); (mkTx 1 [], Some 5); (mkTx 2 [], Some 9)] world_new in
  r = Bad tt /\ is_Some (db w !! OnchainRecvId 1) /\ db w !! OnchainRecvId 2 = None.
Proof. vm_compute. repeat split. by eexists. Qed.
(** The note of a final payment that was looked up before is updated in the persister and read
    back as it was. *)
Example note_stale_in_cache :
  let w := (payment_claimable calm (SpontaneousPayment 7) 8 None 1000 None world_new).1.1 in
  let w := (payment_claimed calm (SpontaneousPayment 7) 8 None 1000 w).1.1 in
  let w := (get_cow_payment calm (Lightning 8) w).1 in
  let '(w, _, r) := update_personal_note calm (Lightning 8) (Some [1]) w in
  r = Good tt /\ (personal_note ∘ metadata) <$> db w !! Lightning 8 = Some (Some [1]) /\
  match (get_cow_payment calm (Lightning 8) w).2 with Good (Some p) => personal_note (metadata p) = None | _ => False end.
Proof. vm_compute. repeat split. Qed.
